(* ===== verification/_CoqProject ===== *)
-Q . S2P
Prelude.v
Sums.v
Cstr.v
ErrorCode.v
Topic.v
Float.v
Time.v
Tmap.v
TimeMapFilter.v
I128.v
Hash.v
DList.v
SampleBuffer.v
DownsampleSinc.v
Downsample.v
Js110.v
DeviceStats.v
Effect.v
MbDev.v
Jtag.v
Fwup.v
FwupFpga.v
Statistics.v
BufferBits.v
BufferSignal.v
BufferSummary.v
BufferRing.v
BufferRequest.v
Union.v
Js320Cal.v
Js320CalSafe.v
Js320CalRun.v
Js320Drv.v
Js320DrvStream.v
Js320DrvRate.v
Js320DrvPower.v
Buffer.v
BufferThread.v
BufferTick.v
Json.v
Meta.v
MetaSafe.v
PubSub.v
PubSubTree.v
PubSubDeliver.v
PubSubOwn.v
PubSubOps.v
PubSubCmd.v
PubSubSpec.v
