(* ===== verification/Prelude.v ===== *)
(** * Joulescope driver (jsdrv): a verification development

    The Joulescope driver is a C library between host applications and Joulescope instruments.
    Its front end is a publish-subscribe instance: every device parameter, every stream and every
    command is a topic, values travel as tagged unions in messages, and JSON metadata says which
    values a topic takes.  Device drivers turn the streams of the instruments into messages; the
    signal buffers keep the newest samples with a pyramid of summaries and answer requests by
    sample id or by time, through a map between the two.

    The development is a shallow embedding: a C function is a Rocq function with the source's
    name, state is passed explicitly, and what C leaves undefined, and a failed assert, is a value
    of the error monad [res] below.  A theorem that a call is [Ok _] is therefore also a theorem
    about memory safety and asserts.  Machine integers are [Z] with [uwrap], [swrap] and [chk_i]
    at their width; doubles and floats are the Standard Library's [spec_float] with the rounding of
    IEEE-754; a buffer is the list of its bytes, read and written through the bounds-checked [ld],
    [st] and [mem_copy].

    ** Files, in the order in which they build on each other

    Prelude: faults, machine integers, memory objects, tactics, shared lemmas.
    Sums: finite sums of integers, for the filters.
    Cstr (src/cstr.c): C strings: copy, join, compare, integers from and to text.
    ErrorCode (error_code.h, src/error_code.c): the codes and their names.
    Topic (src/topic.c): the 64-byte topic structure.
    Float: the floating-point operations and conversions that the sources use.
    Time (time.h, src/time.c): conversions between time and counters, the calendar text.
    Tmap (src/tmap.c): the ring of time map entries, the searches by sample id and by time.
    TimeMapFilter (src/time_map_filter.c): the estimate of a time map from recent points.
    I128 (src/devices/js220/js220_i128.c): 128-bit integers, portable and native.
    Hash (src/check32.c, src/calibration_hash.c): the check word and the signature of a record.
    DList (include_private/jsdrv_prv/list.h): intrusive lists on a heap of links.
    SampleBuffer (src/sample_buffer_f32.c): rings of float samples by sample id, and their product.
    DownsampleSinc (src/downsample_sinc.c), Downsample (src/downsample.c): the decimating filters.
    Js110 (src/devices/js110/js110_sample_processor.c): decoding and glitch suppression of samples.
    DeviceStats (js110_stats.c, js220_stats.c, js320_stats.c under src/devices): the statistics
      that the instruments send, or that are computed for them.
    Effect: a monad of state, faults and calls to the outside, with rules for total and partial
      correctness; the threads and drivers below are written in it.
    MbDev (mb_drv.h, stdmsg.h): what an upper driver of a MiniBitty device calls; the bytes of
      memory transactions.
    Jtag (src/devices/js320/js320_jtag.c): the state machine that programs the key of the FPGA.
    Fwup, FwupFpga (src/devices/js320/js320_fwup.c): the update of the controller and the
      programming of the FPGA, over a pipeline of memory commands; the mode of the device.
    Statistics (src/statistics.c): mean, variance, extremes, one sample at a time or combined.
    BufferBits, BufferSignal, BufferSummary, BufferRing, BufferRequest (src/buffer_signal.c): packed
      samples; the operations; the bounds of the summary levels; the ring as a list of samples; the
      answer to a request.  The buffer uses the time map through the class [TmapImpl] of
      BufferSignal, of which the ring of Tmap is the instance.
    Union (src/union.c, union.h): tagged values: compare, widen, convert, copy, print.
    Js320Cal (src/devices/js320/js320_cal.c): the calibration of the JS320 as a state machine over
      memory commands, captures and a timer.  Js320CalSafe: which slots of the flash it writes.
      Js320CalRun: a whole sweep of the current offsets against a device.
    Js320Drv (src/devices/js320/js320_drv.c): the driver of the JS320, which composes Jtag, Fwup,
      Js320Cal, SampleBuffer, DownsampleSinc, DeviceStats, Topic and Union.  Js320DrvStream: frames
      become messages.  Js320DrvRate: rates and the division of work with the instrument.
      Js320DrvPower: power computed on the host.
    Buffer (src/buffer.c): the manager of the buffers and the thread of a buffer.  BufferThread:
      the thread stays in step with what it has published.  BufferTick: its rounds end.
    Json (src/json.c): the streaming parser, with its callback as a parameter.
    Meta, MetaSafe (src/meta.c): the readers of the metadata, as callbacks of the parser; the
      values that validation leaves.
    PubSub (src/pubsub.c and the messages of src/jsdrv.c): topic tree, subscribers, retained values,
      queries, the queue.  PubSubTree: paths and lookup.  PubSubDeliver: which subscribers a message
      reaches.  PubSubOwn: the ownership of messages and the invariant.  PubSubOps, PubSubCmd: every
      operation keeps the invariant.  PubSubSpec: the reachable states and what they promise.

    ** What the theorems show

    Refinement: a received message acts on the ring of a signal buffer as on the list of its
    samples ([recv_data_refines]); adding to a float buffer appends to its samples
    ([sbuf_add_refines]); adding to and expiring from a time map act on the list of its
    entries ([tmap_add_refines], [jsdrv_tmap_expire_refines]); the lookup of a topic acts on the tree
    of paths ([topic_find_refines]).
    Functional behaviour: requests return the samples asked for ([samples_get_contents]); lists are
    first in, first out ([list_fifo]); the product of two float buffers over the ids they share
    ([sbuf_mult_overlap]); the averages of the downsampler ([downsample_average_means]); the delay of
    the sample processor ([js110_delay]); the statistics of a JS110 block in exact arithmetic
    ([js110_stats_exact]); the searches of the time map; conversions of tagged values ([jsdrv_union_as_type_int]); metadata
    selects the option that a value or an alias names ([meta_value_options]); a published message
    reaches the subscribers from the topic to the root, in order ([publish_reaches]); a new subscriber
    gets what is retained below its topic ([subscribe_replays]); an update of the controller sends
    the whole image, reads it back and commits it only when every page agrees
    ([ctrl_update_outcome]); a sweep of the current offsets stores the means of the captures in a
    record with a valid check word, and restores the streams ([current_offset_run]); the samples that
    arrive on a channel of the JS320 are those of the messages sent and of the one that is still
    open, in order ([frames_delivered]); power at the full rate is the product of the current and
    voltage with the same ids ([host_power_products]).
    Safety and invariants: every sequence of topic operations ([run_topic_safe]); in every reachable
    state of publish and subscribe the next round neither faults nor loses a message ([pubsub_safe]),
    and finalize releases each message once ([pubsub_finalize_all]); validation keeps values well
    typed ([meta_value_typed]); a fuse of the FPGA is burned only after the checks that allow it
    ([jtag_burns_justified]); programming the FPGA restores the mode of the device however it fails
    ([fpga_restores]); calibration never writes to a protected slot ([cal_protects_slots]); after every
    command the rate, the registers and the enables of the JS320 that the driver keeps agree with what it
    has told the instrument ([commands_coherent]); the list and the subscriptions that a buffer thread has sent agree with its
    signals after every message ([buffer_in_sync]).
    Liveness and termination: the message at position [k] of the queue is handled after [k] rounds
    whatever the subscribers publish ([pubsub_in_order]); a buffer thread that wakes up empties its
    queue and takes every request ([buffer_tick_drains]); the parser ends on every text
    ([jsdrv_json_parse_total]); a key command ends with one answer ([aes_command_outcome]).
    Round trips: JSON print and parse, integers as text, counters and times, publish and query.
    Bounds: the messages whose statistics can be converted without a division by zero
    ([stats_convert_ok_iff]).
    Equivalence: the decimating filters are cascades of convolutions ([downsample_flat_cascade],
    [sinc_run_convolves]); one-pass and combined statistics agree in exact arithmetic; the portable 128-bit
    operations agree with the native ones; values are equivalent when their numbers are equal.
    Errors: a rate is accepted exactly when the instrument and the host filter can produce it, and
    is then the rate in use, otherwise nothing changes ([fs_command_exact]); where a guarantee ends, a theorem gives the input and the outcome, among them
    [samples_get_late_overrun], [expire_of_copy_diverges], [neg_correct_iff],
    [meta_range_ignored], [meta_number_dtype_oob], [empty_topic_out_of_bounds],
    [alloc_value_overflow] and [power_gap_asserts].

    ** Fuel

    Loops that are not structural take fuel, and running out is the fault [OutOfFuel], so that a
    theorem with an [Ok] result proves that the fuel is enough: the parser takes [parse_fuel], a
    bound in the length of the text; bit copies take the bit count; walks over the topic tree take
    the number of topics, which is enough because a child is always younger than its parent; the
    search loops take the number of entries; the loop over pages takes the pages that are not sent.
    The dialogue of an update takes one step for each response, [2 n + 2] for [n] pages; that of a key
    command takes 40, one for each event of the longest path; that of a
    sweep takes 98: the timer, 4 reads, 84 turns of the sweep and 9 to store the record.  [jsdrv_pubsub_process] is the exception: its subscribers
    may keep the queue full for ever, so that the theorems speak of its rounds.

    ** What is left to parameters

    [pow] and [log2] of the C library (their rounding is not specified), the numeric value of a pointer, the
    memory that an allocation leaves uninitialised, and the functions of the subscribers.  Theorems
    that need a property of them state it as a hypothesis and come with an instance.

    ** Not modelled

    Threads, locks and the USB backends; the drivers of the JS110 and the JS220 and the MiniBitty
    device apart from the parts named above, which are threads around the USB backends; the manager of firmware updates; the API front
    end apart from its messages; log output, and text that is formatted only for it; the release of
    memory other than messages; binary metadata and the device table.  The
    bytes of a message's payload behind what was copied into it are zero here, whereas a reused
    message keeps older bytes there. *)

From Stdlib Require Export ZArith Lia.
From stdpp Require Export base tactics option numbers list sorting.

#[export] Set Default Goal Selector "!".

Declare Scope jsdrv_scope.
Delimit Scope jsdrv_scope with jsdrv.

Global Open Scope Z_scope.

(** ** Faults: what the C abstract machine does not define, plus fatal asserts.

    A definition that can reach undefined behaviour, or JSDRV_FATAL, returns in
    the monad [res].  A theorem that such a definition is [Ok _] is a memory- and
    assert-safety theorem. *)

Inductive fault :=
  | OutOfBounds      (* a load or store outside the object *)
  | AssertFail       (* JSDRV_ASSERT: JSDRV_FATAL halts the process *)
  | SignedOverflow   (* signed arithmetic outside its range *)
  | BadCast          (* float to integer conversion out of range, or of NaN *)
  | BadShift         (* shift count outside the width *)
  | DivByZero        (* division by zero *)
  | BadCall          (* call through a null or wrongly typed function pointer *)
  | OutOfFuel.       (* the loop did not end within the fuel of the model *)

Inductive res (A : Type) :=
  | Ok (a : A)
  | Fault (f : fault).
Arguments Ok {A} _.
Arguments Fault {A} _.

#[global] Instance fault_eq_dec : EqDecision fault.
Proof. solve_decision. Defined.
#[global] Instance res_eq_dec `{EqDecision A} : EqDecision (res A).
Proof. solve_decision. Defined.

#[global] Instance res_ret : MRet res := fun A a => Ok a.
#[global] Instance res_bind : MBind res := fun A B k m =>
  match m with Ok a => k a | Fault f => Fault f end.

(** ** Machine integers: unsigned and signed wrap-around at a width *)

Definition uwrap (w z : Z) : Z := z mod 2 ^ w.
Definition swrap (w z : Z) : Z := (z + 2 ^ (w - 1)) mod 2 ^ w - 2 ^ (w - 1).

Abbreviation u8 := (uwrap 8).
Abbreviation u16 := (uwrap 16).
Abbreviation u32 := (uwrap 32).
Abbreviation u64 := (uwrap 64).
Abbreviation i8 := (swrap 8).
Abbreviation i16 := (swrap 16).
Abbreviation i32 := (swrap 32).
Abbreviation i64 := (swrap 64).

Abbreviation U8_MAX := 255 (only parsing).
Abbreviation U16_MAX := 65535 (only parsing).
Abbreviation U32_MAX := 4294967295 (only parsing).
Abbreviation U64_MAX := 18446744073709551615 (only parsing).
Abbreviation I8_MAX := 127 (only parsing).
Abbreviation I16_MAX := 32767 (only parsing).
Abbreviation I32_MAX := 2147483647 (only parsing).
Abbreviation I64_MAX := 9223372036854775807 (only parsing).
Abbreviation I8_MIN := (-128) (only parsing).
Abbreviation I16_MIN := (-32768) (only parsing).
Abbreviation I32_MIN := (-2147483648) (only parsing).
Abbreviation I64_MIN := (-9223372036854775808) (only parsing).

(** A w-bit unsigned, respectively signed, value. *)
Definition is_u (w z : Z) : Prop := 0 <= z < 2 ^ w.
Definition is_s (w z : Z) : Prop := - 2 ^ (w - 1) <= z < 2 ^ (w - 1).

(** Signed arithmetic: the result must be representable. *)
Definition chk_i (w z : Z) : res Z :=
  if (- 2 ^ (w - 1) <=? z) && (z <? 2 ^ (w - 1)) then Ok z else Fault SignedOverflow.

(** ** Memory objects: bounds-checked loads and stores *)

Definition len {A} (l : list A) : Z := Z.of_nat (length l).

Definition ld {A} (m : list A) (i : Z) : res A :=
  if 0 <=? i then match m !! Z.to_nat i with Some v => Ok v | None => Fault OutOfBounds end
  else Fault OutOfBounds.

Definition st {A} (m : list A) (i : Z) (v : A) : res (list A) :=
  if (0 <=? i) && (i <? len m) then Ok (<[Z.to_nat i := v]> m) else Fault OutOfBounds.

(** [memcpy(&dst[d], &src[s], n * sizeof(element))] between two objects. *)
Definition mem_copy {A} (dst : list A) (d : Z) (src : list A) (s n : Z) : res (list A) :=
  if (0 <=? n) && (0 <=? s) && (s + n <=? len src) && (0 <=? d) && (d + n <=? len dst)
  then Ok (take (Z.to_nat d) dst ++ take (Z.to_nat n) (drop (Z.to_nat s) src)
           ++ drop (Z.to_nat (d + n)) dst)
  else Fault OutOfBounds.

(** [iter n f x] runs the body [f] of a counted loop [n] times. *)
Fixpoint iter_res {A} (n : nat) (f : A -> res A) (x : A) : res A :=
  match n with
  | O => Ok x
  | S n' => y ← f x; iter_res n' f y
  end.

(** ** Generic lemmas *)

Lemma res_bind_Ok {A B} (m : res A) (k : A -> res B) b :
  (m ≫= k) = Ok b <-> exists a, m = Ok a /\ k a = Ok b.
Proof.
  destruct m as [a|f]; cbn; split.
  - eauto.
  - intros (a' & [= ->] & H); exact H.
  - discriminate.
  - intros (a' & [=] & _).
Qed.

Lemma len_nonneg {A} (l : list A) : 0 <= len l.
Proof. unfold len; lia. Qed.

Lemma len_nil {A} : len (@nil A) = 0.
Proof. reflexivity. Qed.

Lemma len_cons {A} (x : A) l : len (x :: l) = 1 + len l.
Proof. unfold len; cbn [length]; lia. Qed.

Lemma len_app {A} (l k : list A) : len (l ++ k) = len l + len k.
Proof. unfold len; rewrite length_app; lia. Qed.

Lemma len_insert {A} (l : list A) i (x : A) : len (<[i := x]> l) = len l.
Proof. unfold len; by rewrite length_insert. Qed.

Lemma ld_ok {A} (m : list A) (i : Z) v :
  0 <= i -> m !! Z.to_nat i = Some v -> ld m i = Ok v.
Proof. intros Hi Hl; unfold ld. rewrite (proj2 (Z.leb_le 0 i)) by lia. by rewrite Hl. Qed.

Lemma ld_in_range {A} (m : list A) (i : Z) :
  0 <= i < len m -> exists v, ld m i = Ok v /\ m !! Z.to_nat i = Some v.
Proof.
  intros [H0 H1]; unfold len in H1.
  destruct (lookup_lt_is_Some_2 m (Z.to_nat i)) as [v Hv]; [lia|].
  exists v; split; [by apply ld_ok | done].
Qed.

Lemma st_ok {A} (m : list A) (i : Z) v :
  0 <= i < len m -> st m i v = Ok (<[Z.to_nat i := v]> m).
Proof.
  intros [H0 H1]; unfold st.
  by rewrite (proj2 (Z.leb_le 0 i)), (proj2 (Z.ltb_lt i (len m))) by lia.
Qed.

Lemma st_oob {A} (m : list A) (i : Z) v :
  len m <= i -> st m i v = Fault OutOfBounds.
Proof.
  intros H; unfold st. rewrite (proj2 (Z.ltb_ge i (len m))) by lia. by rewrite andb_false_r.
Qed.

Lemma uwrap_small w z : is_u w z -> uwrap w z = z.
Proof. intros H; apply Z.mod_small; exact H. Qed.

Lemma uwrap_range w z : 0 <= w -> is_u w (uwrap w z).
Proof. intros; apply Z.mod_pos_bound, Z.pow_pos_nonneg; lia. Qed.

Lemma swrap_small w z : 0 < w -> is_s w z -> swrap w z = z.
Proof.
  intros Hw [H1 H2]; unfold swrap.
  assert (2 ^ w = 2 * 2 ^ (w - 1)) by (rewrite <- Z.pow_succ_r by lia; f_equal; lia).
  rewrite Z.mod_small; lia.
Qed.

Lemma swrap_range w z : 0 < w -> is_s w (swrap w z).
Proof.
  intros Hw; unfold swrap, is_s.
  assert (2 ^ w = 2 * 2 ^ (w - 1)) by (rewrite <- Z.pow_succ_r by lia; f_equal; lia).
  pose proof (Z.mod_pos_bound (z + 2 ^ (w - 1)) (2 ^ w) ltac:(lia)). lia.
Qed.

Lemma chk_i_ok w z : is_s w z -> chk_i w z = Ok z.
Proof.
  intros [H1 H2]; unfold chk_i.
  by rewrite (proj2 (Z.leb_le _ _) H1), (proj2 (Z.ltb_lt _ _) H2).
Qed.

(** Masking with the [j] bits above bit [k] keeps the multiple of [2^k]. *)
Lemma land_high_mask x j k :
  0 <= k -> 0 <= j -> 0 <= x < 2 ^ (k + j) ->
  Z.land x (Z.shiftl (Z.ones j) k) = x / 2 ^ k * 2 ^ k.
Proof.
  intros Hk Hj Hx. rewrite <- Z.shiftr_div_pow2, <- Z.shiftl_mul_pow2 by lia.
  apply Z.bits_inj'; intros n Hn. rewrite Z.land_spec, !Z.shiftl_spec by lia.
  destruct (Z.lt_ge_cases n k).
  - by rewrite !(fun a => Z.testbit_neg_r a (n - k)), andb_false_r by lia.
  - rewrite Z.shiftr_spec, Z.sub_add by lia.
    destruct (Z.lt_ge_cases (n - k) j).
    + by rewrite Z.ones_spec_low, andb_true_r by lia.
    + rewrite Z.ones_spec_high, andb_false_r by lia. symmetry.
      destruct (Z.eq_dec x 0) as [->|]; [apply Z.bits_0|].
      apply Z.bits_above_log2; [lia|].
      apply Z.lt_le_trans with (k + j); [apply Z.log2_lt_pow2; lia | lia].
Qed.

(** Oring disjoint bits adds. *)
Lemma lor_add_disjoint a k b : 0 <= k -> 0 <= b < 2 ^ k -> Z.lor (a * 2 ^ k) b = a * 2 ^ k + b.
Proof.
  intros Hk Hb.
  assert (Z.land (a * 2 ^ k) b = 0) as Hland.
  { apply Z.bits_inj'; intros n Hn. rewrite Z.land_spec, Z.bits_0.
    destruct (Z.lt_ge_cases n k); [by rewrite Z.mul_pow2_bits_low|].
    destruct (Z.eq_dec b 0) as [->|]; [by rewrite Z.bits_0, andb_false_r|].
    rewrite (Z.bits_above_log2 b), andb_false_r; [done | lia |].
    apply Z.lt_le_trans with k; [apply Z.log2_lt_pow2; lia | lia]. }
  by rewrite Z.add_nocarry_lxor, Z.lxor_lor.
Qed.

(** Storing at the position [length l] of [l ++ x :: k]. *)
Lemma insert_middle {A} (l : list A) (x y : A) (k : list A) i :
  i = length l -> <[i := y]> (l ++ x :: k) = l ++ y :: k.
Proof. intros ->. by rewrite insert_app_r_alt, Nat.sub_diag by lia. Qed.

(** A store just behind a written prefix. *)
Lemma st_middle {A} (pre rest : list A) r i v :
  i = len pre -> st (pre ++ r :: rest) i v = Ok (pre ++ v :: rest).
Proof.
  intros ->. pose proof (len_nonneg pre); pose proof (len_nonneg rest).
  rewrite st_ok by (rewrite len_app, len_cons; lia).
  rewrite insert_middle; [done | unfold len; lia].
Qed.

Lemma bind_Ok {A B} (a : A) (k : A -> res B) : (Ok a ≫= k) = k a.
Proof. reflexivity. Qed.

Lemma StronglySorted_lookup {A} (R : relation A) l i j x y :
  StronglySorted R l -> (i < j)%nat -> l !! i = Some x -> l !! j = Some y -> R x y.
Proof.
  intros H; revert i j; induction H as [|z l Hs IH Hall]; intros [|i] [|j] Hij Hx Hy; simplify_eq/=; [lia | | lia |].
  - eapply Forall_lookup_1; eauto.
  - apply (IH i j); [lia | done | done].
Qed.

Create HintDb jsdrv.
Create Rewrite HintDb len.
#[export] Hint Resolve len_nonneg uwrap_range swrap_range : jsdrv.
#[export] Hint Rewrite @len_nil @len_cons @len_app @len_insert : len.

(** ** Tactics of the development *)

(** Split the boolean conditions of [if]s into arithmetic facts. *)
Ltac bool_facts :=
  repeat match goal with
  | H : (_ && _) = true |- _ => apply andb_true_iff in H; destruct H
  | H : (_ && _) = false |- _ =>
      apply andb_false_iff in H; rewrite ?Z.leb_gt, ?Z.ltb_ge, ?Z.eqb_neq in H
  | H : (_ || _) = true |- _ =>
      apply orb_true_iff in H; rewrite ?Z.leb_le, ?Z.ltb_lt, ?Z.eqb_eq in H
  | H : (_ || _) = false |- _ => apply orb_false_iff in H; destruct H
  | H : negb _ = true |- _ => apply negb_true_iff in H
  | H : negb _ = false |- _ => apply negb_false_iff in H
  | H : (_ <=? _) = true |- _ => apply Z.leb_le in H
  | H : (_ <=? _) = false |- _ => apply Z.leb_gt in H
  | H : (_ <? _) = true |- _ => apply Z.ltb_lt in H
  | H : (_ <? _) = false |- _ => apply Z.ltb_ge in H
  | H : (_ =? _) = true |- _ => apply Z.eqb_eq in H
  | H : (_ =? _) = false |- _ => apply Z.eqb_neq in H
  end.

(** Case analysis on the condition of the first [if] of the goal. *)
Ltac case_if :=
  match goal with
  | |- context [if ?b then _ else _] =>
      let E := fresh "E" in destruct b eqn:E; bool_facts
  end.

Ltac case_if_in H :=
  match type of H with
  | context [if ?b then _ else _] =>
      let E := fresh "E" in destruct b eqn:E; bool_facts
  end.

(** Decide a comparison whose truth [lia] can see. *)
Ltac simpl_cmp :=
  repeat match goal with
  | |- context [?a <=? ?b] =>
      first [ rewrite (proj2 (Z.leb_le a b)) by lia | rewrite (proj2 (Z.leb_gt a b)) by lia ]
  | |- context [?a <? ?b] =>
      first [ rewrite (proj2 (Z.ltb_lt a b)) by lia | rewrite (proj2 (Z.ltb_ge a b)) by lia ]
  | |- context [?a =? ?b] =>
      first [ rewrite (proj2 (Z.eqb_eq a b)) by lia | rewrite (proj2 (Z.eqb_neq a b)) by lia ]
  end.

(** Evaluate the powers of two at the machine widths, then [lia]. *)
Ltac widths :=
  unfold is_u, is_s in *;
  change (2 ^ (8 - 1)) with 128 in *; change (2 ^ (16 - 1)) with 32768 in *;
  change (2 ^ (32 - 1)) with 2147483648 in *;
  change (2 ^ (64 - 1)) with 9223372036854775808 in *;
  change (2 ^ 8) with 256 in *; change (2 ^ 16) with 65536 in *;
  change (2 ^ 32) with 4294967296 in *; change (2 ^ 64) with 18446744073709551616 in *.
Ltac width_lia := widths; lia.
(** [lia] with the quotients and remainders by constants explained. *)
Ltac div_lia := widths; Z.div_mod_to_equations; lia.

Lemma mem_copy_ok {A} (dst : list A) d (src : list A) s n :
  0 <= n -> 0 <= s -> s + n <= len src -> 0 <= d -> d + n <= len dst ->
  exists e, mem_copy dst d src s n = Ok e /\ len e = len dst
    /\ (forall i, (Z.to_nat d <= i < Z.to_nat (d + n))%nat ->
          e !! i = src !! (Z.to_nat s + (i - Z.to_nat d))%nat)
    /\ (forall i, (i < Z.to_nat d \/ Z.to_nat (d + n) <= i)%nat -> e !! i = dst !! i).
Proof.
  intros Hn Hs Hsrc Hd Hdst. unfold mem_copy. simpl_cmp. cbn [andb].
  eexists; split; [done|]. unfold len in *. split_and!.
  - rewrite !length_app, !length_take, !length_drop. lia.
  - intros i Hi. rewrite lookup_app_r by (rewrite length_take; lia). rewrite length_take, Nat.min_l by lia.
    rewrite lookup_app_l by (rewrite length_take, length_drop; lia).
    rewrite lookup_take_lt by lia. by rewrite lookup_drop.
  - intros i [Hi|Hi].
    + rewrite lookup_app_l by (rewrite length_take; lia). by rewrite lookup_take_lt by lia.
    + rewrite lookup_app_r by (rewrite length_take; lia). rewrite length_take, Nat.min_l by lia.
      rewrite lookup_app_r by (rewrite length_take, length_drop; lia). rewrite length_take, length_drop, Nat.min_l by lia.
      rewrite lookup_drop. f_equal. lia.
Qed.

(** The last [n] elements of a list. *)
Definition lastn {A} (n : Z) (l : list A) : list A := drop (length l - Z.to_nat n) l.

Lemma lastn_app {A} n (l k : list A) : lastn n (lastn n l ++ k) = lastn n (l ++ k).
Proof.
  unfold lastn. rewrite !length_app, length_drop.
  destruct (le_lt_dec (length l) (Z.to_nat n)) as [H|H].
  - replace (length l - Z.to_nat n)%nat with 0%nat by lia. rewrite drop_0. f_equal. lia.
  - rewrite <- (drop_app_le l k) by lia. rewrite drop_drop. f_equal. lia.
Qed.

Lemma len_lastn_le {A} n (l : list A) : len (lastn n l) <= len l.
Proof. unfold lastn, len. rewrite length_drop. lia. Qed.

Lemma lastn_all {A} n (l : list A) : len l <= n -> lastn n l = l.
Proof. intros H. unfold lastn, len in *. by replace (length l - Z.to_nat n)%nat with 0%nat by lia. Qed.
