(* ===== verification/Sums.v ===== *)
(** * Sums and sample windows

    What the digital filters are specified with: finite sums of integers, the newest samples of a
    history, and the ring buffers that hold them. *)

From S2P Require Import Prelude.

(** [f lo + f (lo + 1) + ... ], [n] terms. *)
Fixpoint zsum (lo : Z) (n : nat) (f : Z -> Z) : Z :=
  match n with
  | O => 0
  | S n => f lo + zsum (lo + 1) n f
  end.

Lemma zsum_ext lo n f g : (forall i, lo <= i < lo + Z.of_nat n -> f i = g i) -> zsum lo n f = zsum lo n g.
Proof.
  revert lo; induction n as [|n IH]; intros lo H; cbn [zsum]; [done|].
  rewrite H by lia. f_equal. apply IH. intros i Hi. apply H. lia.
Qed.

Lemma zsum_app lo n m f : zsum lo (n + m) f = zsum lo n f + zsum (lo + Z.of_nat n) m f.
Proof.
  revert lo; induction n as [|n IH]; intros lo; cbn [zsum Nat.add].
  - by rewrite Z.add_0_r.
  - rewrite IH. replace (lo + 1 + Z.of_nat n) with (lo + Z.of_nat (S n)) by lia. lia.
Qed.

Lemma zsum_zero lo n f : (forall i, lo <= i < lo + Z.of_nat n -> f i = 0) -> zsum lo n f = 0.
Proof.
  revert lo; induction n as [|n IH]; intros lo H; cbn [zsum]; [done|]. rewrite H by lia. rewrite IH; [done|].
  intros i Hi. apply H. lia.
Qed.

Lemma zsum_snoc lo n f : zsum lo (S n) f = zsum lo n f + f (lo + Z.of_nat n).
Proof. rewrite <- Nat.add_1_r, zsum_app. cbn [zsum]. lia. Qed.

(** Terms that are zero at both ends may be left out. *)
Lemma zsum_trim lo n lo' n' f : lo <= lo' -> lo' + Z.of_nat n' <= lo + Z.of_nat n ->
  (forall i, lo <= i < lo + Z.of_nat n -> i < lo' \/ lo' + Z.of_nat n' <= i -> f i = 0) ->
  zsum lo n f = zsum lo' n' f.
Proof.
  intros H1 H2 H. replace n with (Z.to_nat (lo' - lo) + (n' + (n - n' - Z.to_nat (lo' - lo))))%nat by lia.
  rewrite !zsum_app. rewrite (zsum_zero lo), (zsum_zero (_ + _ + _)); [|intros i Hi; apply H; lia..].
  replace (lo + Z.of_nat (Z.to_nat (lo' - lo))) with lo' by lia. lia.
Qed.

Lemma zsum_nonneg lo n f : (forall i, lo <= i < lo + Z.of_nat n -> 0 <= f i) -> 0 <= zsum lo n f.
Proof.
  revert lo; induction n as [|n IH]; intros lo H; cbn [zsum]; [done|].
  pose proof (H lo ltac:(lia)). assert (0 <= zsum (lo + 1) n f) by (apply IH; intros i Hi; apply H; lia). lia.
Qed.

(** A part of a sum of non-negative terms is at most the whole. *)
Lemma zsum_part lo n lo' n' f : lo <= lo' -> lo' + Z.of_nat n' <= lo + Z.of_nat n -> (forall i, 0 <= f i) ->
  zsum lo' n' f <= zsum lo n f.
Proof.
  intros H1 H2 H. replace n with (Z.to_nat (lo' - lo) + (n' + (n - n' - Z.to_nat (lo' - lo))))%nat by lia.
  rewrite !zsum_app. replace (lo + Z.of_nat (Z.to_nat (lo' - lo))) with lo' by lia.
  pose proof (zsum_nonneg lo (Z.to_nat (lo' - lo)) f (fun i _ => H i)).
  pose proof (zsum_nonneg (lo' + Z.of_nat n') (n - n' - Z.to_nat (lo' - lo)) f (fun i _ => H i)). lia.
Qed.

Lemma zsum_shift lo n c f : zsum (lo + c) n f = zsum lo n (fun i => f (i + c)).
Proof.
  revert lo; induction n as [|n IH]; intros lo; cbn [zsum]; [done|]. f_equal.
  replace (lo + c + 1) with (lo + 1 + c) by lia. apply IH.
Qed.

Lemma zsum_plus lo n f g : zsum lo n (fun i => f i + g i) = zsum lo n f + zsum lo n g.
Proof. revert lo; induction n as [|n IH]; intros lo; cbn [zsum]; [done|]. rewrite IH. lia. Qed.

Lemma zsum_const lo n c : zsum lo n (fun _ => c) = Z.of_nat n * c.
Proof. revert lo; induction n as [|n IH]; intros lo; cbn [zsum]; [done|]. rewrite IH. lia. Qed.

(** Exchange of two sums. *)
Lemma zsum_swap lo n lo' m f : zsum lo n (fun i => zsum lo' m (fun j => f i j)) = zsum lo' m (fun j => zsum lo n (fun i => f i j)).
Proof.
  revert lo; induction n as [|n IH]; intros lo; cbn [zsum].
  - symmetry. by apply zsum_zero.
  - by rewrite IH, zsum_plus.
Qed.

(** The terms in the other order. *)
Lemma zsum_rev lo n f : zsum lo n f = zsum (1 - lo - Z.of_nat n) n (fun i => f (- i)).
Proof.
  revert lo; induction n as [|n IH]; intros lo; [done|]. rewrite (zsum_snoc (1 - _ - _)). cbn [zsum].
  rewrite IH, Z.add_comm. f_equal; [f_equal; lia | f_equal; lia].
Qed.

Lemma zsum_abs lo n f : Z.abs (zsum lo n f) <= zsum lo n (fun i => Z.abs (f i)).
Proof. revert lo; induction n as [|n IH]; intros lo; cbn [zsum]; [done|]. specialize (IH (lo + 1)). lia. Qed.

Lemma zsum_le lo n f g : (forall i, lo <= i < lo + Z.of_nat n -> f i <= g i) -> zsum lo n f <= zsum lo n g.
Proof.
  revert lo; induction n as [|n IH]; intros lo H; cbn [zsum]; [done|].
  pose proof (H lo ltac:(lia)). assert (zsum (lo + 1) n f <= zsum (lo + 1) n g) by (apply IH; intros i Hi; apply H; lia). lia.
Qed.

Lemma zsum_mul lo n c f : zsum lo n (fun i => c * f i) = c * zsum lo n f.
Proof. revert lo; induction n as [|n IH]; intros lo; cbn [zsum]; [lia|]. rewrite IH. lia. Qed.

(** ** Windows *)

(** The newest [K] samples of a history that starts with [K] copies of [x0]. *)
Definition history {A} (K : Z) (x0 : A) (h : list A) : list A := lastn K (replicate (Z.to_nat K) x0 ++ h).

Lemma length_history {A} K (x0 : A) h : length (history K x0 h) = Z.to_nat K.
Proof. unfold history, lastn. rewrite length_drop, length_app, length_replicate. lia. Qed.

Lemma history_nil {A} K (x0 : A) : history K x0 [] = replicate (Z.to_nat K) x0.
Proof. unfold history, lastn. rewrite app_nil_r, length_replicate, Nat.sub_diag. done. Qed.

Lemma lastn_snoc_full {A} K (w : list A) x : 0 < K -> length w = Z.to_nat K -> lastn K (w ++ [x]) = drop 1 w ++ [x].
Proof.
  intros HK Hw. unfold lastn. rewrite length_app. cbn [length]. rewrite drop_app_le by lia. do 2 f_equal. lia.
Qed.

Lemma history_snoc {A} K (x0 : A) h x : 0 < K -> history K x0 (h ++ [x]) = drop 1 (history K x0 h) ++ [x].
Proof.
  intros HK. rewrite <- (lastn_snoc_full K) by (done || apply length_history). unfold history.
  by rewrite lastn_app, <- app_assoc.
Qed.

(** The samples of a ring buffer, oldest first; [idx] is the next place to write. *)
Definition window {A} (ring : list A) (idx : Z) : list A := drop (Z.to_nat idx) ring ++ take (Z.to_nat idx) ring.

Lemma window_0 {A} (ring : list A) : window ring 0 = ring.
Proof. unfold window. change (Z.to_nat 0) with 0%nat. by rewrite drop_0, take_0, app_nil_r. Qed.

(** A sample into a ring: the oldest gives way. *)
Lemma window_step {A} (ring : list A) idx x K ring' : len ring = K -> 0 <= idx < K -> st ring idx x = Ok ring' ->
  let idx' := if K <=? idx + 1 then 0 else idx + 1 in
  window ring' idx' = drop 1 (window ring idx) ++ [x].
Proof.
  intros HK Hi E idx'. unfold window. destruct (lookup_lt_is_Some_2 ring (Z.to_nat idx)) as [v Hv]; [unfold len in HK; lia|].
  assert (exists a b, ring = a ++ v :: b /\ length a = Z.to_nat idx) as (a & b & -> & Ha).
  { exists (take (Z.to_nat idx) ring), (drop (S (Z.to_nat idx)) ring). split; [by rewrite take_drop_middle|].
    rewrite length_take. unfold len in HK. lia. }
  rewrite st_middle in E by (unfold len; lia). injection E as <-. rewrite len_app, len_cons in HK. unfold len in HK.
  rewrite <- Ha, drop_app_length, take_app_length. change (drop 1 ((v :: b) ++ a)) with (b ++ a). rewrite <- app_assoc. unfold idx'. case_if.
  - destruct b; cbn [length] in HK; [|lia]. change (Z.to_nat 0) with 0%nat. by rewrite drop_0, take_0, app_nil_r.
  - replace (Z.to_nat (idx + 1)) with (length (a ++ [x])) by (rewrite length_app; cbn; lia).
    replace (a ++ x :: b) with ((a ++ [x]) ++ b) by (by rewrite <- app_assoc).
    by rewrite drop_app_length, take_app_length.
Qed.

(** [INT64_MIN] stands for NaN. *)
Definition nan_free (w : list Z) : bool := forallb (fun v => negb (v =? I64_MIN)) w.

Definition val (w : list Z) (k : Z) : Z := default 0 (w !! Z.to_nat k).

Lemma window_lookup {A} (ring : list A) idx K j : len ring = K -> 0 <= idx < K -> 0 <= j < K ->
  window ring idx !! Z.to_nat j = ring !! Z.to_nat ((idx + j) mod K).
Proof.
  intros HK Hi Hj. unfold window, len in *. destruct (Z.lt_ge_cases (idx + j) K).
  - rewrite lookup_app_l by (rewrite length_drop; lia). rewrite lookup_drop, Z.mod_small by lia. f_equal. lia.
  - rewrite lookup_app_r by (rewrite length_drop; lia). rewrite length_drop, lookup_take_lt by lia. f_equal.
    replace (idx + j) with (idx + j - K + 1 * K) by lia. rewrite Z.mod_add, Z.mod_small by lia. lia.
Qed.

Lemma length_window {A} (ring : list A) idx : length (window ring idx) = length ring.
Proof. unfold window. rewrite length_app, length_drop, length_take. lia. Qed.

Lemma val_lookup w k v : w !! Z.to_nat k = Some v -> val w k = v.
Proof. intros H. unfold val. by rewrite H. Qed.

(** The bound of a weighted sum. *)
Lemma zsum_weighted lo n (c x : Z -> Z) B : (forall i, lo <= i < lo + Z.of_nat n -> Z.abs (x i) <= B) ->
  Z.abs (zsum lo n (fun i => c i * x i)) <= B * zsum lo n (fun i => Z.abs (c i)).
Proof.
  intros H. etransitivity; [apply zsum_abs|]. rewrite <- zsum_mul. apply zsum_le. intros i Hi.
  rewrite Z.abs_mul, Z.mul_comm. apply Z.mul_le_mono_nonneg_r; [lia | by apply H].
Qed.

(** ** Every [M]-th output *)

(** [F] of the first [n] samples, for each positive multiple [n] of [M]. *)
Definition every {A B} (M : Z) (F : list A -> B) (h : list A) : list B :=
  (fun n => F (take n h)) <$> filter (fun n => Z.of_nat n mod M = 0) (seq 1 (length h)).

Lemma every_snoc {A B} M (F : list A -> B) h x :
  every M F (h ++ [x]) = every M F h ++ (if (len h + 1) mod M =? 0 then [F (h ++ [x])] else []).
Proof.
  unfold every. rewrite length_app, seq_app, filter_app, fmap_app. f_equal.
  - apply list_fmap_ext. intros i n Hn. apply list_elem_of_lookup_2, list_elem_of_filter in Hn as [_ Hn].
    apply elem_of_seq in Hn. f_equal. by rewrite take_app_le by lia.
  - cbn [length seq]. rewrite filter_cons, filter_nil. replace (Z.of_nat (1 + length h)) with (len h + 1) by (unfold len; lia).
    destruct (decide _) as [E|E]; [rewrite (proj2 (Z.eqb_eq _ _) E) | by rewrite (proj2 (Z.eqb_neq _ _) E)].
    cbn. do 2 f_equal. rewrite take_ge; [done|]. rewrite length_app. cbn. lia.
Qed.

Lemma len_every {A B} M (F : list A -> B) h : 0 < M -> len (every M F h) = len h / M.
Proof.
  intros HM. induction h as [|x h IH] using rev_ind; [by rewrite !@len_nil, Z.div_0_l by lia|].
  rewrite every_snoc, !len_app, IH. change (len [x]) with 1.
  pose proof (Z.div_mod (len h) M ltac:(lia)). pose proof (Z.mod_pos_bound (len h) M HM).
  assert ((len h + 1) / M = len h / M + (if len h mod M =? M - 1 then 1 else 0)
          /\ ((len h + 1) mod M =? 0) = (len h mod M =? M - 1)) as [-> ->].
  { case_if.
    - replace (len h + 1) with ((len h / M + 1) * M) by lia. by rewrite Z.div_mul, Z.mod_mul by lia.
    - replace (len h + 1) with (len h mod M + 1 + len h / M * M) by lia. rewrite Z.div_add, Z.mod_add by lia.
      rewrite Z.div_small, Z.mod_small by lia. split; [lia | apply Z.eqb_neq; lia]. }
  by case_if.
Qed.

Lemma every_Forall {A B} M (F : list A -> B) (P : B -> Prop) h : (forall n, P (F (take n h))) -> Forall P (every M F h).
Proof. intros H. unfold every. apply Forall_fmap, Forall_true. intros n. apply H. Qed.
