(* ===== verification/Cstr.v ===== *)
(** * C-string utilities (src/cstr.c)

    A C string argument is the list of its characters without the terminator,
    [None] for a NULL pointer; a character is its (signed) code, and [wf_cstr]
    says that no character is the terminator.  A writable buffer is the list of
    its bytes, written through the bounds-checked [st], so that [Ok] results are
    memory-safe runs.  Return codes are those of the source. *)

From Stdlib Require Import Strings.Ascii Strings.String.
From S2P Require Import Prelude.

Abbreviation length := List.length.

Definition cstr := list Z.
Definition wf_cstr (s : cstr) : Prop := Forall (fun c => c <> 0) s.

(** The codes of a literal. *)
Definition str (s : String.string) : cstr :=
  map (fun a => Z.of_N (Ascii.N_of_ascii a)) (String.list_ascii_of_string s).

(** The C string at the start of a buffer: what [strlen] measures and [strcmp] reads.
    [None] when the buffer holds no terminator. *)
Fixpoint cstr_at (m : list Z) : option cstr :=
  match m with
  | [] => None
  | c :: m' => if c =? 0 then Some [] else s ← cstr_at m'; Some (c :: s)
  end.

(** ** Character classes *)

Definition _toupper (c : Z) : Z :=
  if (97 <=? c) && (c <=? 122) then c - 97 + 65 else c.

Definition _isspace (c : Z) : bool :=
  (c =? 32) || ((9 <=? c) && (c <=? 13)).

Definition _isdigit (c : Z) : bool := (48 <=? c) && (c <=? 57).

(** ** Copy and join *)

(** The [while] loop of the copy: [i] is [tgt - tgt_0], [last] is [tgt_end - tgt_0]. *)
Fixpoint copy_loop (src : cstr) (tgt : list Z) (i last : Z) : res (list Z * Z) :=
  match src with
  | [] => tgt ← st tgt i 0; Ok (tgt, 0)
  | c :: src' =>
      if last <=? i then tgt ← st tgt i 0; Ok (tgt, 1)
      else tgt ← st tgt i c; copy_loop src' tgt (i + 1) last
  end.

Definition jsdrv_cstr_copy (tgt : option (list Z)) (src : option cstr) (tgt_size : Z)
  : res (option (list Z) * Z) :=
  match tgt with
  | None => Ok (None, -1)
  | Some t =>
      if tgt_size <=? 0 then Ok (Some t, -1)
      else match src with
           | None => t ← st t 0 0; Ok (Some t, 0)
           | Some s => '(t, rc) ← copy_loop s t 0 (tgt_size - 1); Ok (Some t, rc)
           end
  end.

(** One source loop of the join: [inl] is the early return 1. *)
Fixpoint join_loop (src : cstr) (tgt : list Z) (i last : Z) : res (list Z + list Z * Z) :=
  match src with
  | [] => Ok (inr (tgt, i))
  | c :: src' =>
      tgt ← st tgt i c;
      if last <=? i + 1 then tgt ← st tgt (i + 1) 0; Ok (inl tgt)
      else join_loop src' tgt (i + 1) last
  end.

(** [tgt_is_src2] is the pointer test [tgt == src2]. *)
Definition jsdrv_cstr_join (tgt : option (list Z)) (src1 src2 : option cstr)
    (tgt_is_src2 : bool) (tgt_size : Z) : res (option (list Z) * Z) :=
  match tgt with
  | None => Ok (None, -1)
  | Some t =>
      if tgt_size <=? 0 then Ok (Some t, -1)
      else if tgt_is_src2 then Ok (Some t, 2)
      else
        r ← join_loop (default [] src1) t 0 (tgt_size - 1);
        match r with
        | inl t => Ok (Some t, 1)
        | inr (t, i) =>
            r ← join_loop (default [] src2) t i (tgt_size - 1);
            match r with
            | inl t => Ok (Some t, 1)
            | inr (t, i) => t ← st t i 0; Ok (Some t, 0)
            end
        end
  end.

(** ** Comparisons *)

Fixpoint casecmp_loop (s1 s2 : cstr) : Z :=
  match s1, s2 with
  | [], [] => 0
  | [], _ :: _ => -1
  | _ :: _, [] => 1
  | a :: s1', b :: s2' =>
      let c1 := _toupper a in
      let c2 := _toupper b in
      if c1 <? c2 then -1 else if c2 <? c1 then 1 else casecmp_loop s1' s2'
  end.

Definition jsdrv_cstr_casecmp (s1 s2 : option cstr) : Z :=
  match s1, s2 with
  | None, _ => -1
  | Some _, None => 1
  | Some s1, Some s2 => casecmp_loop s1 s2
  end.

(** A returned [const char *] into [s] is [Some] suffix of [s]; the NULL result is [None]. *)
Fixpoint starts_with_loop (s prefix : cstr) {struct prefix} : option cstr :=
  match prefix with
  | [] => Some s
  | p :: prefix' =>
      match s with
      | [] => None
      | c :: s' => if negb (p =? c) then None else starts_with_loop s' prefix'
      end
  end.

Definition jsdrv_cstr_starts_with (s prefix : option cstr) : option cstr :=
  match prefix, s with
  | None, _ => s
  | _, None => s
  | Some p, Some s => starts_with_loop s p
  end.

(** The backwards comparison, from both terminators, [n] characters left: true
    when the characters agree on all of them. *)
Fixpoint ends_loop (s0 suffix0 : list Z) (d : nat) (n : nat) : bool :=
  match n with
  | O => true
  | S n' =>
      match suffix0 !! n', s0 !! (d + n')%nat with
      | Some a, Some b => if negb (a =? b) then false else ends_loop s0 suffix0 d n'
      | _, _ => false
      end
  end.

Definition jsdrv_cstr_ends_with (s suffix : option cstr) : option cstr :=
  match suffix with
  | None | Some [] => s
  | Some suf =>
      match s with
      | None => s
      | Some s =>
          if len s <? len suf then None
          else
            let d := (length s - length suf)%nat in
            if ends_loop (s ++ [0]) (suf ++ [0]) d (S (length suf)) then Some (drop d s) else None
      end
  end.

(** ** Integer parsing *)

Fixpoint skip_space (s : cstr) : cstr :=
  match s with
  | c :: s' => if _isspace (i8 (u8 c)) then skip_space s' else s
  | [] => []
  end.

Definition nibble (c : Z) : option Z :=
  if (48 <=? c) && (c <=? 57) then Some (c - 48)
  else if (97 <=? c) && (c <=? 102) then Some (c - 97 + 10)
  else if (65 <=? c) && (c <=? 70) then Some (c - 65 + 10)
  else None.

(** The trailing [while] loop: only white space may follow the number. *)
Definition all_space (s : cstr) : bool := forallb (fun c => _isspace (i8 (u8 c))) s.

Fixpoint hex32 (s : cstr) (v : Z) : Z * cstr :=
  match s with
  | [] => (v, [])
  | c :: s' =>
      match nibble c with
      | Some n => hex32 s' (u32 (v * 16 + n))
      | None => if c =? 95 then hex32 s' v else (v, s)
      end
  end.

Fixpoint dec32 (s : cstr) (v : Z) : Z * cstr :=
  match s with
  | c :: s' => if _isdigit c then dec32 s' (u32 (v * 10 + (c - 48))) else (v, s)
  | [] => (v, [])
  end.

(** [(src[0] == '0') && (src[1] == 'x')]; the rest when it holds. *)
Definition hex_prefix (s : cstr) : option cstr :=
  match s with
  | a :: b :: s' => if (a =? 48) && (b =? 120) then Some s' else None
  | _ => None
  end.

(** [value] is [None] for a NULL pointer, else the old value. *)
Definition jsdrv_cstr_to_u32 (src : option cstr) (value : option Z) : Z * option Z :=
  match src, value with
  | None, _ => (1, value)
  | _, None => (1, value)
  | Some src, Some _ =>
      let src := skip_space src in
      match src with
      | [] => (1, value)
      | _ :: _ =>
          let '(v, rest) :=
            match hex_prefix src with
            | Some s => hex32 s 0
            | None => dec32 src 0
            end in
          if all_space rest then (0, Some v) else (1, value)
      end
  end.

(** The optional sign of the signed parsers. *)
Definition parse_sign (s : cstr) : bool * cstr :=
  match s with
  | c :: s' => if c =? 45 then (true, s') else if c =? 43 then (false, s') else (false, s)
  | [] => (false, [])
  end.

Definition jsdrv_cstr_to_i32 (src : option cstr) (value : option Z) : res (Z * option Z) :=
  match src, value with
  | None, _ => Ok (1, value)
  | _, None => Ok (1, value)
  | Some src, Some _ =>
      let '(neg, src) := parse_sign (skip_space src) in
      match jsdrv_cstr_to_u32 (Some src) (Some 0) with
      | (0, Some v) =>
          let x := i32 v in
          if neg then x ← chk_i 32 (- x); Ok (0, Some x) else Ok (0, Some x)
      | (rc, _) => Ok (rc, value)
      end
  end.

(** [while (decimal < exponent) { v *= 10; ++decimal; }] *)
Definition pad10 (v decimal exponent : Z) : res Z :=
  iter_res (Z.to_nat (exponent - decimal)) (fun v => chk_i 32 (v * 10)) v.

(** The main loop: [inl] is the early return 1; [inr (v, decimal, src)] otherwise. *)
Fixpoint i32s_loop (src : cstr) (v decimal exponent : Z) : res (Z + Z * Z * cstr) :=
  let at_end src :=
    if decimal <? 0 then Ok (inr (v, decimal, src))
    else v ← pad10 v decimal exponent; Ok (inr (v, Z.max decimal exponent, src)) in
  match src with
  | [] => at_end []
  | c :: src' =>
      if exponent <=? decimal then Ok (inr (v, decimal, src))
      else if c =? 46 then i32s_loop src' v 0 exponent
      else if c =? 44 then at_end src
      else
        let decimal := if 0 <=? decimal then decimal + 1 else decimal in
        v ← chk_i 32 (v * 10);
        if _isdigit c then
          v ← chk_i 32 (v + (c - 48));
          i32s_loop src' v decimal exponent
        else Ok (inl 1)
  end.

Definition jsdrv_cstr_to_i32s (src : option cstr) (exponent : Z) (value : option Z)
  : res (Z * option Z) :=
  match src with
  | None => Ok (0, value)
  | Some src =>
      if exponent <? 0 then Ok (-1, value)
      else
        let '(neg, src) := parse_sign (skip_space src) in
        r ← i32s_loop src 0 (-1) exponent;
        match r with
        | inl rc => Ok (rc, value)
        | inr (v, decimal, src) =>
            if forallb (fun c => _isdigit c || _isspace (i8 (u8 c))) src then
              v ← pad10 v (Z.max decimal 0) exponent;
              v ← (if neg then chk_i 32 (- v) else Ok v);
              Ok (0, match value with Some _ => Some v | None => None end)
            else Ok (1, value)
        end
  end.

(** 64-bit loops: [None] is the early [return 1] on a detected overflow. *)
Fixpoint hex64 (s : cstr) (v : Z) : option (Z * cstr) :=
  match s with
  | [] => Some (v, [])
  | c :: s' =>
      match nibble c with
      | Some n =>
          if negb (Z.land v 0xFF00000000000000 =? 0) then None
          else hex64 s' (u64 (u64 (Z.shiftl v 4) + n))
      | None => if c =? 95 then hex64 s' v else Some (v, s)
      end
  end.

Fixpoint dec64 (s : cstr) (v : Z) : option (Z * cstr) :=
  match s with
  | c :: s' =>
      if _isdigit c then
        if negb (Z.land (u64 (Z.shiftr v 32 * 10)) 0xFFFFFFFF00000000 =? 0) then None
        else dec64 s' (u64 (v * 10 + (c - 48)))
      else Some (v, s)
  | [] => Some (v, [])
  end.

Definition jsdrv_cstr_to_u64 (src : option cstr) (value : option Z) : Z * option Z :=
  match src, value with
  | None, _ => (1, value)
  | _, None => (1, value)
  | Some src, Some _ =>
      let src := skip_space src in
      match src with
      | [] => (1, value)
      | _ :: _ =>
          match match hex_prefix src with Some s => hex64 s 0 | None => dec64 src 0 end with
          | None => (1, value)
          | Some (v, rest) => if all_space rest then (0, Some v) else (1, value)
          end
      end
  end.

Definition jsdrv_cstr_to_i64 (src : option cstr) (value : option Z) : res (Z * option Z) :=
  match src, value with
  | None, _ => Ok (1, value)
  | _, None => Ok (1, value)
  | Some src, Some _ =>
      let '(neg, src) := parse_sign (skip_space src) in
      match jsdrv_cstr_to_u64 (Some src) (Some 0) with
      | (0, Some v) =>
          if I64_MAX <? v then Ok (1, value)
          else if neg then x ← chk_i 64 (- v); Ok (0, Some x) else Ok (0, Some v)
      | (rc, _) => Ok (rc, value)
      end
  end.

(** ** Printing *)

(** [while (u32)]: the digits are stored into [char buf[11]], least significant first. *)
Fixpoint u32_digits (fuel : nat) (u : Z) (buf : list Z) : res (list Z) :=
  if u =? 0 then Ok buf
  else match fuel with
       | O => Fault OutOfFuel
       | S fuel' =>
           if len buf <? 11 then
             let d := u / 10 in
             let k := u32 (u - u32 (d * 10)) in
             u32_digits fuel' d (buf ++ [48 + k])
           else Fault OutOfBounds
       end.

Fixpoint store_all (cs : list Z) (str : list Z) (i : Z) : res (list Z) :=
  match cs with
  | [] => st str i 0
  | c :: cs' => str ← st str i c; store_all cs' str (i + 1)
  end.

Definition JSDRV_ERROR_PARAMETER_INVALID : Z := 5.
Definition JSDRV_ERROR_TOO_SMALL : Z := 14.

Definition jsdrv_u32_to_cstr (u : Z) (str : option (list Z)) (str_size : Z)
  : res (option (list Z) * Z) :=
  match str with
  | None => Ok (None, JSDRV_ERROR_PARAMETER_INVALID)
  | Some m =>
      if str_size =? 0 then Ok (Some m, JSDRV_ERROR_PARAMETER_INVALID)
      else
        m ← st m 0 0;
        buf ← u32_digits 11 u [];
        let buf := match buf with [] => [48] | _ :: _ => buf end in
        if str_size <? len buf + 1 then Ok (Some m, JSDRV_ERROR_TOO_SMALL)
        else m ← store_all (rev buf) m 0; Ok (Some m, 0)
  end.

(** ** Upper case, tables, booleans, hex digits *)

Definition jsdrv_cstr_toupper (s : option cstr) : option cstr * Z :=
  match s with
  | None => (None, 1)
  | Some s => (Some (map (fun c => _toupper (i8 (u8 c))) s), 0)
  end.

Fixpoint index_loop (s : cstr) (table : list cstr) (idx : Z) : option Z :=
  match table with
  | [] => None
  | t :: table' => if bool_decide (s = t) then Some idx else index_loop s table' (idx + 1)
  end.

Definition jsdrv_cstr_to_index (s : option cstr) (table : option (list cstr)) (index : option Z)
  : Z * option Z :=
  match s, table, index with
  | Some s, Some table, Some _ =>
      match index_loop s table 0 with
      | Some idx => (0, Some idx)
      | None => (1, index)
      end
  | _, _, _ => (2, index)
  end.

Definition true_table_ : list cstr :=
  Eval cbv in map str ["ON"; "1"; "TRUE"; "YES"; "ENABLE"; "ENABLED"]%string.
Definition false_table : list cstr :=
  Eval cbv in map str
    ["OFF"; "0"; "FALSE"; "NO"; "DISABLE"; "DISABLED"; "NULL"; "NONE"]%string.

(** [buffer] is the uninitialized [char buffer[16]]. *)
Definition jsdrv_cstr_to_bool (buffer : list Z) (s : option cstr) (value : option bool)
  : res (Z * option bool) :=
  match s, value with
  | Some s, Some _ =>
      '(buffer, _) ← jsdrv_cstr_copy (Some buffer) (Some s) 16;
      match buffer ≫= cstr_at with
      | None => Fault OutOfBounds
      | Some b =>
          let '(b, _) := jsdrv_cstr_toupper (Some b) in
          match jsdrv_cstr_to_index b (Some true_table_) (Some 0) with
          | (0, _) => Ok (0, Some true)
          | _ =>
              match jsdrv_cstr_to_index b (Some false_table) (Some 0) with
              | (0, _) => Ok (0, Some false)
              | _ => Ok (1, value)
              end
          end
      end
  | _, _ => Ok (1, value)
  end.

Definition jsdrv_cstr_hex_to_u4 (v : Z) : Z := default 0 (nibble v).

Definition jsdrv_cstr_u4_to_hex (v : Z) : Z :=
  if v <? 10 then 48 + v else if v <? 16 then 65 + (v - 10) else 48.

(** ** Copy and join write inside the target and terminate it *)

Lemma copy_loop_spec src : forall pre rest i last,
  i = len pre -> i <= last -> last < i + len rest ->
  let n := min (length src) (Z.to_nat (last - i)) in
  copy_loop src (pre ++ rest) i last
    = Ok (pre ++ take n src ++ 0 :: drop (S n) rest, if len src <=? last - i then 0 else 1).
Proof.
  induction src as [|c src IH]; intros pre rest i last Hi Hle Hlt; cbn [copy_loop];
    (destruct rest as [|r rest]; [rewrite len_nil in Hlt; lia|]);
    rewrite ?st_middle, ?bind_Ok by done.
  - rewrite (@len_nil Z); simpl_cmp. reflexivity.
  - rewrite len_cons in *. pose proof (len_nonneg src).
    case_if.
    + assert (last = i) as -> by lia.
      rewrite Z.sub_diag, Nat.min_0_r; simpl_cmp. reflexivity.
    + rewrite cons_middle, app_assoc.
      rewrite IH by (rewrite ?len_app, ?len_cons, ?len_nil; lia).
      replace (Z.to_nat (last - i)) with (S (Z.to_nat (last - (i + 1)))) by lia.
      cbn [List.length Nat.min take drop]. rewrite <- app_assoc; cbn [app].
      do 2 f_equal. repeat case_if; lia.
Qed.

(** What a bounded copy leaves in the target: the longest prefix of [s] that
    fits, its terminator, and the old bytes behind it. *)
Definition copied (s : cstr) (size : Z) (m : list Z) : list Z :=
  let n := min (length s) (Z.to_nat (size - 1)) in take n s ++ 0 :: drop (S n) m.

Lemma jsdrv_cstr_copy_spec t s tgt_size :
  0 < tgt_size <= len t ->
  jsdrv_cstr_copy (Some t) (Some s) tgt_size
    = Ok (Some (copied s tgt_size t), if len s <? tgt_size then 0 else 1)
  /\ len (copied s tgt_size t) = len t.
Proof.
  intros H; unfold jsdrv_cstr_copy, copied. simpl_cmp.
  pose proof (copy_loop_spec s [] t 0 (tgt_size - 1)) as L. cbn in L.
  rewrite L, Z.sub_0_r by (try reflexivity; lia). cbn. split.
  - do 3 f_equal. repeat case_if; lia.
  - rewrite len_app, len_cons. unfold len in *. rewrite length_take, length_drop. lia.
Qed.

(** A non-NULL target always ends up terminated inside its [tgt_size] bytes. *)
Lemma cstr_at_app s m : wf_cstr s -> cstr_at (s ++ 0 :: m) = Some s.
Proof.
  induction 1 as [|c s Hc _ IH]; cbn; [done|].
  rewrite (proj2 (Z.eqb_neq c 0)) by done. by rewrite IH.
Qed.

Lemma join_loop_spec src : forall pre rest i last,
  i = len pre -> i < last -> last < i + len rest ->
  join_loop src (pre ++ rest) i last =
    Ok (if len src <? last - i
        then inr (pre ++ src ++ drop (length src) rest, i + len src)
        else inl (pre ++ take (Z.to_nat (last - i)) src ++ 0 :: drop (S (Z.to_nat (last - i))) rest)).
Proof.
  induction src as [|c src IH]; intros pre rest i last Hi Hlt Hlen; cbn [join_loop].
  - rewrite (@len_nil Z). simpl_cmp. cbn. by rewrite Z.add_0_r.
  - destruct rest as [|r rest]; [rewrite (@len_nil Z) in Hlen; lia|].
    rewrite len_cons in *. rewrite st_middle, bind_Ok by done.
    rewrite cons_middle, app_assoc.
    pose proof (len_nonneg src). case_if.
    + destruct rest as [|r' rest]; [rewrite (@len_nil Z) in Hlen; lia|].
      rewrite st_middle, bind_Ok by (rewrite len_app, len_cons, (@len_nil Z); lia).
      replace (Z.to_nat (last - i)) with 1%nat by lia.
      simpl_cmp. cbn. by rewrite <- app_assoc.
    + rewrite IH by (rewrite ?len_app, ?len_cons, ?(@len_nil Z); lia).
      replace (len src <? last - (i + 1)) with (1 + len src <? last - i)
        by (apply Bool.eq_iff_eq_true; rewrite !Z.ltb_lt; lia).
      replace (Z.to_nat (last - i)) with (S (Z.to_nat (last - (i + 1)))) by lia.
      case_if; rewrite <- !app_assoc; cbn; [do 3 f_equal; lia | done].
Qed.

Lemma copied_short s size m :
  len s < size -> copied s size m = s ++ 0 :: drop (S (length s)) m.
Proof.
  intros; unfold copied. unfold len in *.
  by rewrite Nat.min_l, take_ge by lia.
Qed.

(** With a target of at least two bytes, the join writes inside the target and leaves
    the longest prefix of [src1 ++ src2] that fits, terminated.  The result is 0 only
    when at least one byte stays unused behind the terminator: a join that fits
    exactly is reported as truncated. *)
Lemma join_spec t s1 s2 tgt_size :
  2 <= tgt_size <= len t ->
  jsdrv_cstr_join (Some t) (Some s1) (Some s2) false tgt_size
    = Ok (Some (copied (s1 ++ s2) tgt_size t),
          if len (s1 ++ s2) <? tgt_size - 1 then 0 else 1).
Proof.
  intros H; unfold jsdrv_cstr_join. simpl_cmp. cbn [from_option id].
  pose proof (join_loop_spec s1 [] t 0 (tgt_size - 1)) as L. cbn [app] in L.
  rewrite L, bind_Ok, Z.sub_0_r by (try reflexivity; lia). clear L.
  rewrite len_app. pose proof (len_nonneg s1); pose proof (len_nonneg s2).
  case_if.
  - rewrite join_loop_spec, bind_Ok by (unfold len in *; rewrite ?length_drop; lia).
    replace (len s2 <? tgt_size - 1 - (0 + len s1)) with (len s1 + len s2 <? tgt_size - 1)
      by (apply Bool.eq_iff_eq_true; rewrite !Z.ltb_lt; lia).
    case_if.
    + rewrite drop_drop, app_assoc.
      destruct (drop (length s1 + length s2) t) as [|r rest] eqn:Hd.
      { apply (f_equal length) in Hd. rewrite length_drop in Hd. unfold len in *. cbn in Hd. lia. }
      rewrite st_middle, bind_Ok by (rewrite len_app; lia).
      rewrite copied_short by (rewrite len_app; lia).
      do 4 f_equal. rewrite length_app, <- Nat.add_1_r, <- drop_drop, Hd. done.
    + unfold copied. do 3 f_equal.
      rewrite length_app, drop_drop. unfold len in *.
      rewrite Nat.min_r by lia. rewrite take_app_ge, <- app_assoc by lia.
      repeat f_equal; lia.
  - simpl_cmp. unfold copied. do 3 f_equal.
    rewrite length_app. unfold len in *. rewrite Nat.min_r by lia.
    by rewrite take_app_le by lia.
Qed.

(** With [tgt_size = 1] any non-empty first source is written behind the target. *)
Lemma jsdrv_cstr_join_size1_oob c s1 src2 b :
  jsdrv_cstr_join (Some [b]) (Some (c :: s1)) src2 false 1 = Fault OutOfBounds.
Proof. reflexivity. Qed.


(** ** Comparisons *)

Lemma casecmp_zero s1 s2 :
  casecmp_loop s1 s2 = 0 <-> map _toupper s1 = map _toupper s2.
Proof.
  revert s2; induction s1 as [|a s1 IH]; intros [|b s2]; cbn; try (split; congruence).
  case_if; [split; [lia | intros [=]; lia]|].
  case_if; [split; [lia | intros [=]; lia]|].
  rewrite IH. split; [intros ->; f_equal; lia | congruence].
Qed.

Lemma casecmp_antisym s1 s2 : casecmp_loop s2 s1 = - casecmp_loop s1 s2.
Proof.
  revert s2; induction s1 as [|a s1 IH]; intros [|b s2]; cbn; try done.
  repeat case_if; try lia. apply IH.
Qed.

Lemma casecmp_le_trans s1 s2 s3 :
  casecmp_loop s1 s2 <= 0 -> casecmp_loop s2 s3 <= 0 -> casecmp_loop s1 s3 <= 0.
Proof.
  revert s2 s3; induction s1 as [|a s1 IH]; intros [|b s2] [|c s3]; cbn; try lia.
  repeat case_if; try lia. apply IH.
Qed.

Lemma starts_with_loop_spec prefix : forall s r,
  starts_with_loop s prefix = Some r <-> s = prefix ++ r.
Proof.
  induction prefix as [|p prefix IH]; intros s r; cbn; [split; [by intros [= ->] | by intros ->]|].
  destruct s as [|c s]; [split; discriminate|].
  case_if; [split; [discriminate | intros [= -> ->]; done]|].
  subst. rewrite IH. split; congruence.
Qed.

Lemma ends_loop_spec s0 suf0 d n :
  (n <= length suf0)%nat -> (d + n <= length s0)%nat ->
  ends_loop s0 suf0 d n = true <-> take n suf0 = take n (drop d s0).
Proof.
  induction n as [|n IH]; intros H1 H2; cbn [ends_loop]; [done|].
  destruct (lookup_lt_is_Some_2 suf0 n) as [a Ha]; [lia|].
  destruct (lookup_lt_is_Some_2 s0 (d + n)) as [b Hb]; [lia|].
  rewrite Ha, Hb.
  rewrite (take_S_r suf0 n a Ha), (take_S_r (drop d s0) n b) by (by rewrite lookup_drop).
  case_if.
  - split; [discriminate|]. intros Heq%app_inj_tail. destruct Heq; congruence.
  - rewrite IH by lia. split; [intros ->; congruence | intros Heq%app_inj_tail; by destruct Heq].
Qed.

(** [ends_with] finds a non-empty suffix exactly when there is one, and returns the
    pointer to it. *)
Lemma jsdrv_cstr_ends_with_spec s suffix r :
  suffix <> [] ->
  jsdrv_cstr_ends_with (Some s) (Some suffix) = Some r
    <-> r = suffix /\ exists pre, s = pre ++ suffix.
Proof.
  intros Hne; unfold jsdrv_cstr_ends_with. destruct suffix as [|x suf]; [done|].
  set (suffix := x :: suf) in *. clearbody suffix.
  case_if.
  - split; [discriminate|]. intros (_ & pre & ->). rewrite len_app in *.
    pose proof (len_nonneg pre); lia.
  - unfold len in *. set (d := (length s - length suffix)%nat).
    destruct (ends_loop _ _ _ _) eqn:Hl.
    + apply ends_loop_spec in Hl; [|rewrite length_app; cbn; lia..].
      rewrite !take_ge in Hl by (rewrite ?length_drop, ?length_app; cbn; lia).
      rewrite drop_app_le in Hl by lia. apply app_inj_tail in Hl as [Hl _].
      rewrite <- Hl. split; [|intros (-> & _); done].
      intros [= <-]. split; [done|]. exists (take d s). rewrite Hl. by rewrite take_drop.
    + split; [discriminate|]. intros (-> & pre & ->). exfalso.
      assert (d = length pre) as Hd by (unfold d; rewrite length_app; lia).
      apply Bool.not_true_iff_false in Hl; apply Hl, ends_loop_spec.
      * rewrite length_app; cbn; lia.
      * rewrite !length_app; cbn; lia.
      * by rewrite Hd, <- app_assoc, drop_app_length.
Qed.

(** ** Number values *)

Definition digit (c : Z) : Prop := 48 <= c <= 57.

(** The value of a digit string, most significant digit first, from [v]. *)
Definition dec_value (s : cstr) (v : Z) : Z := fold_left (fun v c => v * 10 + (c - 48)) s v.

Lemma _isdigit_true c : digit c -> _isdigit c = true.
Proof. intros []; unfold _isdigit; simpl_cmp. done. Qed.

Lemma _isdigit_iff c : _isdigit c = true <-> digit c.
Proof. unfold _isdigit, digit. rewrite andb_true_iff, !Z.leb_le. lia. Qed.

Lemma dec_value_app s k v : dec_value (s ++ k) v = dec_value k (dec_value s v).
Proof. apply fold_left_app. Qed.

Lemma dec_value_ge s v : Forall digit s -> 0 <= v -> v <= dec_value s v.
Proof.
  revert v; induction s as [|c s IH]; intros v Hs Hv; unfold dec_value in *; cbn [fold_left]; [lia|].
  apply Forall_cons_1 in Hs as [[] Hs]. specialize (IH (v * 10 + (c - 48)) Hs ltac:(lia)). lia.
Qed.

Lemma dec32_digits s v :
  Forall digit s -> dec32 s (u32 v) = (u32 (dec_value s v), []).
Proof.
  revert v; induction s as [|c s IH]; intros v Hs; [done|].
  apply Forall_cons_1 in Hs as [Hc Hs]. cbn [dec32]. rewrite _isdigit_true by done.
  change (dec_value (c :: s) v) with (dec_value s (v * 10 + (c - 48))).
  rewrite <- IH by done. f_equal. unfold uwrap.
  by rewrite <- (Zplus_mod_idemp_l (_ * 10)), Zmult_mod_idemp_l, Zplus_mod_idemp_l.
Qed.

(** White space and the [0x] prefix do not start a non-empty digit string. *)
Lemma skip_space_digit c s : digit c -> skip_space (c :: s) = c :: s.
Proof.
  intros []; cbn. unfold _isspace. rewrite (uwrap_small 8), (swrap_small 8) by width_lia.
  by simpl_cmp.
Qed.

Lemma hex_prefix_digits s : Forall digit s -> hex_prefix s = None.
Proof.
  intros Hs; destruct s as [|a [|b s]]; try done. cbn.
  apply Forall_cons_1 in Hs as [[] Hs]. apply Forall_cons_1 in Hs as [[] Hs]. 
  rewrite (proj2 (Z.eqb_neq b 120)) by lia. by rewrite andb_false_r.
Qed.

Lemma jsdrv_cstr_to_u32_decimal s x :
  Forall digit s -> s <> [] ->
  jsdrv_cstr_to_u32 (Some s) (Some x) = (0, Some (u32 (dec_value s 0))).
Proof.
  intros Hs Hne. destruct s as [|c s]; [done|]. unfold jsdrv_cstr_to_u32.
  rewrite skip_space_digit by (by apply Forall_cons_1 in Hs as []).
  rewrite hex_prefix_digits by done.
  change 0 with (u32 0) at 1. rewrite dec32_digits by done. done.
Qed.

Lemma u32_mod10 u : is_u 32 u -> u32 (u - u32 (u / 10 * 10)) = u mod 10.
Proof.
  intros H. rewrite (uwrap_small 32 (u / 10 * 10)) by div_lia.
  rewrite uwrap_small by div_lia. div_lia.
Qed.

Lemma u32_digits_spec n : forall fuel u buf,
  0 <= u < 10 ^ Z.of_nat n -> (n <= fuel)%nat -> is_u 32 u -> len buf + Z.of_nat n <= 11 ->
  exists ds, u32_digits fuel u buf = Ok (buf ++ ds) /\ Forall digit ds
    /\ dec_value (rev ds) 0 = u /\ len ds <= Z.of_nat n /\ (ds = [] -> u = 0).
Proof.
  induction n as [|n IH]; intros fuel u buf Hu Hf Hw Hlen.
  - change (10 ^ Z.of_nat 0) with 1 in Hu. assert (u = 0) as -> by lia.
    exists []. destruct fuel; rewrite app_nil_r; by repeat split.
  - destruct fuel as [|fuel]; [lia|]. cbn [u32_digits]. case_if.
    { exists []. rewrite app_nil_r, (@len_nil Z). by repeat split; try lia. }
    simpl_cmp. rewrite u32_mod10 by done.
    rewrite Nat2Z.inj_succ, Z.pow_succ_r in Hu by lia.
    destruct (IH fuel (u / 10) (buf ++ [48 + u mod 10])) as (ds & -> & Hd & Hv & Hl & Hn).
    { div_lia. } { lia. } { div_lia. } { rewrite len_app, len_cons, (@len_nil Z). lia. }
    exists ((48 + u mod 10) :: ds). rewrite <- app_assoc. repeat split; try done.
    + constructor; [unfold digit; div_lia | done].
    + cbn [rev]. rewrite dec_value_app, Hv. cbn. div_lia.
    + rewrite len_cons. lia.
Qed.

Lemma store_all_spec cs : forall pre rest i,
  i = len pre -> len cs < len rest ->
  store_all cs (pre ++ rest) i = Ok (pre ++ cs ++ 0 :: drop (S (length cs)) rest).
Proof.
  induction cs as [|c cs IH]; intros pre rest i Hi Hlen; cbn [store_all];
    (destruct rest as [|r rest]; [rewrite ?len_cons, (@len_nil Z) in Hlen;
       pose proof (len_nonneg (A:=Z)); unfold len in *; lia|]).
  - by rewrite st_middle.
  - rewrite st_middle, bind_Ok, cons_middle, app_assoc by done.
    rewrite !len_cons in Hlen.
    rewrite IH by (rewrite ?len_app, ?len_cons, ?(@len_nil Z); lia).
    by rewrite <- app_assoc.
Qed.

Lemma digits_wf s : Forall digit s -> wf_cstr s.
Proof. intros H; eapply Forall_impl; [exact H|]. intros c []; lia. Qed.

(** Printing then parsing a 32-bit value gives it back, for every buffer of at
    least 11 bytes, and the printing stays inside the buffer. *)
Lemma jsdrv_u32_cstr_roundtrip u m str_size x :
  is_u 32 u -> 11 <= str_size <= len m ->
  exists m' s, jsdrv_u32_to_cstr u (Some m) str_size = Ok (Some m', 0)
    /\ len m' = len m /\ cstr_at m' = Some s
    /\ jsdrv_cstr_to_u32 (Some s) (Some x) = (0, Some u).
Proof.
  intros Hu Hsz. unfold jsdrv_u32_to_cstr. simpl_cmp.
  destruct m as [|m0 m]; [rewrite (@len_nil Z) in Hsz; lia|].
  rewrite (st_middle [] m m0), bind_Ok by done. cbn [app].
  destruct (u32_digits_spec 10 11 u []) as (ds & -> & Hd & Hv & Hl & Hn); [width_lia | lia | done | done |].
  rewrite bind_Ok; cbn [app].
  set (buf := match ds with [] => [48] | _ :: _ => ds end).
  assert (Forall digit buf /\ dec_value (rev buf) 0 = u /\ len buf <= 10 /\ buf <> [])
    as (Hbd & Hbv & Hbl & Hbn).
  { unfold buf; destruct ds; [|done]. rewrite Hn by done. repeat split; try done.
    repeat constructor; unfold digit; lia. }
  clearbody buf. simpl_cmp.
  assert (len (rev buf) = len buf) as Hr by (unfold len; by rewrite length_rev).
  pose proof (store_all_spec (rev buf) [] (0 :: m) 0) as L. cbn [app] in L.
  rewrite len_cons in *. rewrite L, bind_Ok by (try done; rewrite Hr; lia).
  eexists _, (rev buf). split; [done|].
  assert (Forall digit (rev buf)) as Hrd by (by apply Forall_rev).
  rewrite cstr_at_app by (by apply digits_wf).
  rewrite jsdrv_cstr_to_u32_decimal, Hbv, uwrap_small; try done.
  - repeat split; try done. cbn [drop]. rewrite len_app, len_cons. unfold len in *. rewrite length_drop. lia.
  - intros Hnil. apply (f_equal (@rev Z)) in Hnil. rewrite rev_involutive in Hnil. done.
Qed.

Lemma jsdrv_u32_cstr_roundtrip_witness :
  exists m' s, jsdrv_u32_to_cstr 4294967295 (Some (replicate 12 88)) 11 = Ok (Some m', 0)
    /\ len m' = len (replicate 12 88) /\ cstr_at m' = Some s
    /\ jsdrv_cstr_to_u32 (Some s) (Some 0) = (0, Some 4294967295).
Proof. apply jsdrv_u32_cstr_roundtrip; [width_lia | by vm_compute]. Defined.

(** ** Signed and 64-bit parsing *)

Lemma parse_sign_digit c s : digit c -> parse_sign (c :: s) = (false, c :: s).
Proof. intros []; cbn. by simpl_cmp. Qed.

Lemma jsdrv_cstr_to_i32_decimal s x :
  Forall digit s -> s <> [] -> dec_value s 0 <= I32_MAX ->
  jsdrv_cstr_to_i32 (Some s) (Some x) = Ok (0, Some (dec_value s 0))
  /\ jsdrv_cstr_to_i32 (Some (45 :: s)) (Some x) = Ok (0, Some (- dec_value s 0)).
Proof.
  intros Hs Hne Hle. pose proof (dec_value_ge s 0 Hs ltac:(lia)) as Hge.
  unfold jsdrv_cstr_to_i32. split.
  - destruct s as [|c s']; [done|].
    rewrite skip_space_digit, parse_sign_digit by (by apply Forall_cons_1 in Hs as []).
    rewrite jsdrv_cstr_to_u32_decimal, uwrap_small, swrap_small by (done || width_lia). done.
  - change (parse_sign (skip_space (45 :: s))) with (true, s). cbv iota beta zeta.
    rewrite jsdrv_cstr_to_u32_decimal, uwrap_small, swrap_small by (done || width_lia).
    by rewrite chk_i_ok by width_lia.
Qed.

(** [INT32_MIN] itself is parsed to [-2^31] and then negated: signed overflow. *)
Example jsdrv_cstr_to_i32_min :
  jsdrv_cstr_to_i32 (Some (str "-2147483648")) (Some 0) = Fault SignedOverflow.
Proof. reflexivity. Qed.

Lemma dec64_guard v :
  0 <= v -> v * 10 < 2 ^ 64 ->
  Z.land (u64 (Z.shiftr v 32 * 10)) 0xFFFFFFFF00000000 = 0.
Proof.
  intros H0 H1. rewrite Z.shiftr_div_pow2 by lia.
  assert (0 <= v / 2 ^ 32 * 10 < 2 ^ 32) by div_lia.
  rewrite uwrap_small by width_lia.
  change 0xFFFFFFFF00000000 with (Z.shiftl (Z.ones 32) 32).
  rewrite land_high_mask by width_lia. by rewrite Z.div_small.
Qed.

Lemma dec64_digits s : forall v,
  Forall digit s -> 0 <= v -> dec_value s v < 2 ^ 64 -> dec64 s v = Some (dec_value s v, []).
Proof.
  induction s as [|c s IH]; intros v Hs Hv Hlt; [done|].
  apply Forall_cons_1 in Hs as [Hc Hs]. cbn [dec64]. rewrite _isdigit_true by done.
  change (dec_value (c :: s) v) with (dec_value s (v * 10 + (c - 48))) in *.
  destruct Hc. pose proof (dec_value_ge s (v * 10 + (c - 48)) Hs ltac:(lia)).
  rewrite dec64_guard by lia. cbn [negb Z.eqb]. rewrite uwrap_small by width_lia.
  apply IH; [done | lia | lia].
Qed.

(** Every decimal string whose value fits 64 bits is parsed to its value. *)
Lemma jsdrv_cstr_to_u64_decimal s x :
  Forall digit s -> s <> [] -> dec_value s 0 < 2 ^ 64 ->
  jsdrv_cstr_to_u64 (Some s) (Some x) = (0, Some (dec_value s 0)).
Proof.
  intros Hs Hne Hlt. destruct s as [|c s]; [done|]. unfold jsdrv_cstr_to_u64.
  rewrite skip_space_digit by (by apply Forall_cons_1 in Hs as []).
  rewrite hex_prefix_digits, dec64_digits by (done || lia). done.
Qed.

(** The decimal overflow test looks only at the upper word: a value just above
    [2^64 - 1] is accepted and wraps. *)
Lemma jsdrv_cstr_to_u64_wraps :
  dec_value (str "18446744073709551619") 0 = 2 ^ 64 + 3
  /\ jsdrv_cstr_to_u64 (Some (str "18446744073709551619")) (Some 7) = (0, Some 3).
Proof. by vm_compute. Qed.


Definition hex_digit (c : Z) : Prop := is_Some (nibble c).
Definition hex_value (s : cstr) (v : Z) : Z :=
  fold_left (fun v c => v * 16 + jsdrv_cstr_hex_to_u4 c) s v.

Lemma nibble_range c n : nibble c = Some n -> 0 <= n < 16.
Proof. unfold nibble; repeat case_if; intros [= <-]; lia. Qed.

Lemma hex_value_ge s : forall v, Forall hex_digit s -> 0 <= v -> v <= hex_value s v.
Proof.
  induction s as [|c s IH]; intros v Hs Hv; unfold hex_value in *; cbn [fold_left]; [lia|].
  apply Forall_cons_1 in Hs as [[n Hn] Hs]. pose proof (nibble_range _ _ Hn).
  unfold jsdrv_cstr_hex_to_u4 at 2. rewrite Hn; cbn [from_option id].
  specialize (IH (v * 16 + n) Hs ltac:(lia)). lia.
Qed.

Lemma hex64_digits s : forall v,
  Forall hex_digit s -> 0 <= v < 2 ^ 60 ->
  hex64 s v = if hex_value s v <? 2 ^ 60 then Some (hex_value s v, []) else None.
Proof.
  induction s as [|c s IH]; intros v Hs Hv.
  { change (hex_value [] v) with v. cbn [hex64]. by simpl_cmp. }
  apply Forall_cons_1 in Hs as [[n Hn] Hs]. pose proof (nibble_range _ _ Hn).
  assert (hex_value (c :: s) v = hex_value s (v * 16 + n)) as ->.
  { unfold hex_value at 1; cbn [fold_left]. unfold jsdrv_cstr_hex_to_u4 at 2. by rewrite Hn. }
  pose proof (hex_value_ge s (v * 16 + n) Hs ltac:(lia)).
  cbn [hex64]. rewrite Hn. change 0xFF00000000000000 with (Z.shiftl (Z.ones 8) 56).
  rewrite land_high_mask by (change (2 ^ (56 + 8)) with (2 ^ 64); lia).
  destruct (Z.lt_ge_cases v (2 ^ 56)).
  - rewrite Z.div_small by lia. change (negb _) with false. cbv iota.
    rewrite Z.shiftl_mul_pow2 by lia. change (2 ^ 4) with 16.
    rewrite (uwrap_small 64 (v * 16)), uwrap_small by width_lia.
    apply IH; [done | lia].
  - rewrite (proj2 (Z.eqb_neq _ 0)) by div_lia. cbn [negb].
    by rewrite (proj2 (Z.ltb_ge _ (2 ^ 60))) by lia.
Qed.

(** The hexadecimal overflow test rejects every value from [2^60] on, although
    [value] holds 64 bits: the largest accepted literal is [0x0FFFFFFFFFFFFFFF]. *)
Lemma jsdrv_cstr_to_u64_hex s x :
  Forall hex_digit s ->
  jsdrv_cstr_to_u64 (Some (48 :: 120 :: s)) (Some x)
    = if hex_value s 0 <? 2 ^ 60 then (0, Some (hex_value s 0)) else (1, Some x).
Proof.
  intros Hs. unfold jsdrv_cstr_to_u64. rewrite skip_space_digit by (unfold digit; lia).
  change (hex_prefix (48 :: 120 :: s)) with (Some s). cbv iota beta.
  rewrite hex64_digits by (done || lia). by case_if.
Qed.

Lemma jsdrv_cstr_to_u64_hex_witness :
  jsdrv_cstr_to_u64 (Some (str "0x1000000000000000")) (Some 7) = (1, Some 7).
Proof.
  apply (jsdrv_cstr_to_u64_hex (str "1000000000000000") 7).
  repeat constructor; eexists; reflexivity.
Defined.

(** ** Booleans *)

Definition char_range (s : cstr) : Prop := Forall (is_s 8) s.

Lemma index_loop_Some s table : forall i,
  (exists k, index_loop s table i = Some k) <-> s ∈ table.
Proof.
  induction table as [|t table IH]; intros i; cbn.
  - split; [intros [? [=]] | by intros ?%not_elem_of_nil].
  - case_bool_decide as Heq.
    + subst. split; [intros _; constructor | eauto].
    + rewrite IH, elem_of_cons. tauto.
Qed.

Lemma to_index_rc s table x :
  (jsdrv_cstr_to_index (Some s) (Some table) (Some x)).1 = if decide (s ∈ table) then 0 else 1.
Proof.
  unfold jsdrv_cstr_to_index. pose proof (index_loop_Some s table 0) as H.
  destruct (index_loop s table 0) eqn:E; case_decide as Hd; try done; exfalso;
    [apply Hd, H; eauto | apply H in Hd as [? [=]]].
Qed.

Lemma map_char_id s : char_range s -> map (fun c => _toupper (i8 (u8 c))) s = map _toupper s.
Proof.
  intros H; apply map_ext_Forall. eapply Forall_impl; [exact H|]. cbn. intros c Hc.
  f_equal. unfold swrap, uwrap. rewrite Zplus_mod_idemp_l.
  change ((c + 2 ^ (8 - 1)) mod 2 ^ 8 - 2 ^ (8 - 1)) with (i8 c). by rewrite swrap_small.
Qed.

(** The boolean parser depends on the first 15 characters only, ignoring case: it is
    true on the true table, false on the false table, and an error that leaves the
    value alone otherwise; its 16-byte buffer is never overrun. *)
Lemma jsdrv_cstr_to_bool_spec buffer s x :
  len buffer = 16 -> wf_cstr s -> char_range s ->
  let U : cstr := map _toupper (take 15 s) in
  jsdrv_cstr_to_bool buffer (Some s) (Some x)
    = Ok (if decide (U ∈ true_table_) then (0, Some true)
          else if decide (U ∈ false_table) then (0, Some false) else (1, Some x)).
Proof.
  intros Hb Hw Hr U. unfold jsdrv_cstr_to_bool.
  destruct (jsdrv_cstr_copy_spec buffer s 16) as [-> _]; [lia|]. rewrite bind_Ok.
  cbn [mbind option_bind]. unfold copied.
  assert (take (length s `min` Z.to_nat (16 - 1)) s = take 15 s) as ->.
  { destruct (Nat.le_ge_cases (length s) 15); [rewrite !take_ge by lia | f_equal; lia]; done. }
  rewrite cstr_at_app by (by apply Forall_take). cbn [jsdrv_cstr_toupper].
  rewrite map_char_id by (by apply Forall_take). fold U.
  destruct (jsdrv_cstr_to_index _ (Some true_table_) _) as [rt ?] eqn:Et.
  destruct (jsdrv_cstr_to_index _ (Some false_table) _) as [rf ?] eqn:Ef.
  pose proof (eq_trans (eq_sym (f_equal fst Et)) (to_index_rc U true_table_ 0)) as Ht.
  pose proof (eq_trans (eq_sym (f_equal fst Ef)) (to_index_rc U false_table 0)) as Hf.
  cbn [fst] in Ht, Hf. revert Ht Hf.
  generalize (decide (U ∈ true_table_)) (decide (U ∈ false_table)).
  intros [|] [|] -> ->; reflexivity.
Qed.

(** ** Comparison order *)

(** [jsdrv_cstr_casecmp] is a total preorder on strings whose equivalence is
    equality up to case: zero exactly on equal upper-case forms, antisymmetric in
    its sign, and transitive. *)
Lemma jsdrv_cstr_casecmp_order s1 s2 s3 :
  (jsdrv_cstr_casecmp (Some s1) (Some s2) = 0 <-> map _toupper s1 = map _toupper s2)
  /\ jsdrv_cstr_casecmp (Some s2) (Some s1) = - jsdrv_cstr_casecmp (Some s1) (Some s2)
  /\ (jsdrv_cstr_casecmp (Some s1) (Some s2) <= 0 -> jsdrv_cstr_casecmp (Some s2) (Some s3) <= 0 ->
      jsdrv_cstr_casecmp (Some s1) (Some s3) <= 0).
Proof. split_and!; [apply casecmp_zero | apply casecmp_antisym | apply casecmp_le_trans]. Qed.

(** A bounded copy leaves the longest prefix that fits, terminated inside the
    [tgt_size] bytes, does not touch the bytes behind them, and reports truncation. *)
Lemma jsdrv_cstr_copy_prefix t s tgt_size :
  wf_cstr s -> 0 < tgt_size <= len t ->
  exists m, jsdrv_cstr_copy (Some t) (Some s) tgt_size
              = Ok (Some m, if len s <? tgt_size then 0 else 1)
    /\ cstr_at m = Some (take (Z.to_nat (tgt_size - 1)) s)
    /\ len m = len t /\ drop (Z.to_nat tgt_size) m = drop (Z.to_nat tgt_size) t.
Proof.
  intros Hw Hs. destruct (jsdrv_cstr_copy_spec t s tgt_size Hs) as [-> Hl].
  eexists; split; [done|]. split_and!; [| done |].
  - unfold copied. rewrite cstr_at_app by (by apply Forall_take). f_equal.
    destruct (Nat.le_ge_cases (length s) (Z.to_nat (tgt_size - 1))).
    + by rewrite Nat.min_l, !take_ge by lia.
    + by rewrite Nat.min_r by lia.
  - unfold copied. set (n := min _ _). assert (n <= Z.to_nat (tgt_size - 1))%nat by lia.
    rewrite cons_middle, app_assoc, drop_app_ge, drop_drop by (rewrite length_app, length_take; cbn; lia).
    f_equal. rewrite length_app, length_take. cbn. lia.
Qed.

Lemma jsdrv_cstr_copy_prefix_witness :
  exists m, jsdrv_cstr_copy (Some (replicate 6 88)) (Some (str "hello")) 4 = Ok (Some m, 1)
    /\ cstr_at m = Some (str "hel") /\ len m = 6 /\ drop 4 m = [88; 88].
Proof.
  apply (jsdrv_cstr_copy_prefix (replicate 6 88) (str "hello") 4); [|by vm_compute].
  repeat constructor; discriminate.
Defined.
