(* ===== verification/ErrorCode.v ===== *)
(** * Error codes (include/jsdrv/error_code.h, src/error_code.c) *)

From Stdlib Require Import Strings.String.
From S2P Require Import Prelude.

Inductive jsdrv_error_code_e :=
  | SUCCESS | UNSPECIFIED | NOT_ENOUGH_MEMORY | NOT_SUPPORTED | IO | PARAMETER_INVALID
  | INVALID_RETURN_CONDITION | INVALID_CONTEXT | INVALID_MESSAGE_LENGTH | MESSAGE_INTEGRITY
  | SYNTAX_ERROR | TIMED_OUT | FULL | EMPTY | TOO_SMALL | TOO_BIG | NOT_FOUND | ALREADY_EXISTS
  | PERMISSIONS | BUSY | UNAVAILABLE | IN_USE | CLOSED | SEQUENCE | ABORTED | SYNCHRONIZATION.

#[global] Instance error_code_eq_dec : EqDecision jsdrv_error_code_e.
Proof. solve_decision. Defined.

Definition ec_code (e : jsdrv_error_code_e) : Z :=
  match e with
  | SUCCESS => 0 | UNSPECIFIED => 1 | NOT_ENOUGH_MEMORY => 2 | NOT_SUPPORTED => 3 | IO => 4
  | PARAMETER_INVALID => 5 | INVALID_RETURN_CONDITION => 6 | INVALID_CONTEXT => 7
  | INVALID_MESSAGE_LENGTH => 8 | MESSAGE_INTEGRITY => 9 | SYNTAX_ERROR => 10 | TIMED_OUT => 11
  | FULL => 12 | EMPTY => 13 | TOO_SMALL => 14 | TOO_BIG => 15 | NOT_FOUND => 16
  | ALREADY_EXISTS => 17 | PERMISSIONS => 18 | BUSY => 19 | UNAVAILABLE => 20 | IN_USE => 21
  | CLOSED => 22 | SEQUENCE => 23 | ABORTED => 24 | SYNCHRONIZATION => 25
  end.

Definition ec_all : list jsdrv_error_code_e :=
  [SUCCESS; UNSPECIFIED; NOT_ENOUGH_MEMORY; NOT_SUPPORTED; IO; PARAMETER_INVALID;
   INVALID_RETURN_CONDITION; INVALID_CONTEXT; INVALID_MESSAGE_LENGTH; MESSAGE_INTEGRITY;
   SYNTAX_ERROR; TIMED_OUT; FULL; EMPTY; TOO_SMALL; TOO_BIG; NOT_FOUND; ALREADY_EXISTS;
   PERMISSIONS; BUSY; UNAVAILABLE; IN_USE; CLOSED; SEQUENCE; ABORTED; SYNCHRONIZATION].

(** The [case] of the two [switch]es: the enumerator with the value [ec]. *)
Definition ec_of (ec : Z) : option jsdrv_error_code_e :=
  if 0 <=? ec then ec_all !! Z.to_nat ec else None.

Definition jsdrv_error_code_name (ec : Z) : string :=
  match ec_of ec with
  | Some SUCCESS => "SUCCESS" | Some UNSPECIFIED => "UNSPECIFIED"
  | Some NOT_ENOUGH_MEMORY => "NOT_ENOUGH_MEMORY" | Some NOT_SUPPORTED => "NOT_SUPPORTED"
  | Some IO => "IO" | Some PARAMETER_INVALID => "PARAMETER_INVALID"
  | Some INVALID_RETURN_CONDITION => "INVALID_RETURN_CONDITION"
  | Some INVALID_CONTEXT => "INVALID_CONTEXT"
  | Some INVALID_MESSAGE_LENGTH => "INVALID_MESSAGE_LENGTH"
  | Some MESSAGE_INTEGRITY => "MESSAGE_INTEGRITY" | Some SYNTAX_ERROR => "SYNTAX_ERROR"
  | Some TIMED_OUT => "TIMED_OUT" | Some FULL => "FULL" | Some EMPTY => "EMPTY"
  | Some TOO_SMALL => "TOO_SMALL" | Some TOO_BIG => "TOO_BIG" | Some NOT_FOUND => "NOT_FOUND"
  | Some ALREADY_EXISTS => "ALREADY_EXISTS" | Some PERMISSIONS => "PERMISSIONS"
  | Some BUSY => "BUSY" | Some UNAVAILABLE => "UNAVAILABLE" | Some IN_USE => "IN_USE"
  | Some CLOSED => "CLOSED" | Some SEQUENCE => "SEQUENCE" | Some ABORTED => "ABORTED"
  | Some SYNCHRONIZATION => "SYNCHRONIZATION"
  | None => "UNKNOWN"
  end%string.

Definition jsdrv_error_code_description (ec : Z) : string :=
  match ec_of ec with
  | Some SUCCESS => "Success (no error)"
  | Some UNSPECIFIED => "Unspecified error"
  | Some NOT_ENOUGH_MEMORY => "Insufficient memory to complete the operation"
  | Some NOT_SUPPORTED => "Operation is not supported"
  | Some IO => "Input/output error"
  | Some PARAMETER_INVALID => "The parameter value is invalid"
  | Some INVALID_RETURN_CONDITION => "The function return condition is invalid"
  | Some INVALID_CONTEXT => "The context is invalid"
  | Some INVALID_MESSAGE_LENGTH => "The message length is invalid"
  | Some MESSAGE_INTEGRITY => "The message integrity check failed"
  | Some SYNTAX_ERROR => "A syntax error was detected"
  | Some TIMED_OUT => "The operation did not complete in time"
  | Some FULL => "The target of the operation is full"
  | Some EMPTY => "The target of the operation is empty"
  | Some TOO_SMALL => "The target of the operation is too small"
  | Some TOO_BIG => "The target of the operation is too big"
  | Some NOT_FOUND => "The requested resource was not found"
  | Some ALREADY_EXISTS => "The requested resource already exists"
  | Some PERMISSIONS => "Insufficient permissions to perform the operation."
  | Some BUSY => "The requested resource is currently busy."
  | Some UNAVAILABLE => "The requested resource is currently unavailable."
  | Some IN_USE => "The requested resource is currently in use."
  | Some CLOSED => "The requested resource is currently closed."
  | Some SEQUENCE => "The requested operation was out of sequence."
  | Some ABORTED => "The requested operation was previously aborted."
  | Some SYNCHRONIZATION => "The target is not synchronized with the originator."
  | None => "Unknown error"
  end%string.

Lemma ec_of_code e : ec_of (ec_code e) = Some e.
Proof. by destruct e. Qed.

Lemma ec_code_of ec e : ec_of ec = Some e -> ec_code e = ec.
Proof.
  unfold ec_of. case_if; [|discriminate]. intros H.
  pose proof (lookup_lt_Some _ _ _ H) as Hlt. change (List.length ec_all) with 26%nat in Hlt.
  assert (exists n, ec = Z.of_nat n /\ (n < 26)%nat) as (n & -> & Hn) by (exists (Z.to_nat ec); lia).
  rewrite Nat2Z.id in H. do 26 (destruct n as [|n]; [by injection H as <-|]). lia.
Qed.

(** The name identifies the code: no two codes of the enumeration share a name,
    and none of them is named like an unknown code. *)
Lemma jsdrv_error_code_name_inj a b :
  is_Some (ec_of a) -> jsdrv_error_code_name a = jsdrv_error_code_name b -> a = b.
Proof.
  intros [e He]. unfold jsdrv_error_code_name. rewrite He.
  destruct (ec_of b) as [e'|] eqn:Hb; [|by destruct e].
  intros H. rewrite <- (ec_code_of _ _ He), <- (ec_code_of _ _ Hb).
  destruct e, e'; try discriminate H; done.
Qed.
