(* ===== verification/Topic.v ===== *)
(** * Topic strings (include/jsdrv/topic.h, src/topic.c)

    [jsdrv_topic_s] is a fixed array of [JSDRV_TOPIC_LENGTH_MAX] bytes and a length.
    [topic_holds tp s] is the invariant that every operation keeps: the structure
    holds the string [s], terminated inside its array.  JSDRV_ASSERT failures are [Fault AssertFail]. *)

From Stdlib Require Import Strings.String.
From S2P Require Import Prelude Cstr.

Definition JSDRV_TOPIC_LENGTH_MAX : Z := 64.

Record jsdrv_topic_s := mk_topic { topic : list Z; tlength : Z }.

Definition JSDRV_TOPIC_INIT : jsdrv_topic_s := mk_topic (replicate 64 0) 0.

Definition jsdrv_topic_clear (t : jsdrv_topic_s) : res jsdrv_topic_s :=
  b ← st (topic t) 0 0; Ok (mk_topic b 0).

Definition jsdrv_topic_truncate (t : jsdrv_topic_s) (n : Z) : res jsdrv_topic_s :=
  if n <? tlength t then b ← st (topic t) n 0; Ok (mk_topic b n) else Ok t.

(** The copy loop: it stops at the terminator or at [topic_end]. *)
Fixpoint append_loop (subtopic : cstr) (b : list Z) (t : Z) : res (list Z * Z) :=
  match subtopic with
  | [] => Ok (b, t)
  | c :: subtopic' =>
      if t <? JSDRV_TOPIC_LENGTH_MAX then b ← st b t c; append_loop subtopic' b (t + 1)
      else Ok (b, t)
  end.

(** From [char * t] on: copy, assert, terminate. *)
Definition append_copy (subtopic : cstr) (b : list Z) (n : Z) : res jsdrv_topic_s :=
  '(b, t) ← append_loop subtopic b n;
  if t <? JSDRV_TOPIC_LENGTH_MAX then b ← st b t 0; Ok (mk_topic b (u8 t))
  else Fault AssertFail.

Definition jsdrv_topic_append (tp : jsdrv_topic_s) (subtopic : cstr) : res jsdrv_topic_s :=
  sep ← (if tlength tp =? 0 then Ok false
         else c ← ld (topic tp) (tlength tp - 1); Ok (negb (c =? 47)));
  '(b, n) ← (if sep : bool then b ← st (topic tp) (tlength tp) 47; Ok (b, u8 (tlength tp + 1))
             else Ok (topic tp, tlength tp));
  append_copy subtopic b n.

(** [while (topic->length)]: at most [length] rounds. *)
Fixpoint remove_loop (fuel : nat) (tp : jsdrv_topic_s) (rv : Z) : res (jsdrv_topic_s * Z) :=
  if tlength tp =? 0 then Ok (tp, rv)
  else match fuel with
       | O => Fault OutOfFuel
       | S fuel' =>
           ch ← ld (topic tp) (tlength tp - 1);
           b ← st (topic tp) (tlength tp - 1) 0;
           let tp' := mk_topic b (tlength tp - 1) in
           if ch =? 47 then Ok (tp', rv + 1) else remove_loop fuel' tp' (rv + 1)
       end.

Definition jsdrv_topic_remove (tp : jsdrv_topic_s) : res (jsdrv_topic_s * Z) :=
  '(tp, rv) ←
    (if 0 <? tlength tp then
       c ← ld (topic tp) (tlength tp - 1);
       if c =? 47 then b ← st (topic tp) (tlength tp - 1) 0; Ok (mk_topic b (tlength tp - 1), 1)
       else Ok (tp, 0)
     else Ok (tp, 0));
  remove_loop (Z.to_nat (tlength tp)) tp rv.

Fixpoint set_loop (s : cstr) (tp : jsdrv_topic_s) : res jsdrv_topic_s :=
  match s with
  | [] => Ok tp
  | c :: s' =>
      if tlength tp <? JSDRV_TOPIC_LENGTH_MAX then
        b ← st (topic tp) (tlength tp) c; set_loop s' (mk_topic b (u8 (tlength tp + 1)))
      else Ok tp
  end.

Definition jsdrv_topic_set (tp : jsdrv_topic_s) (s : cstr) : res jsdrv_topic_s :=
  tp ← jsdrv_topic_clear tp;
  tp ← set_loop s tp;
  if tlength tp <? JSDRV_TOPIC_LENGTH_MAX then
    b ← st (topic tp) (tlength tp) 0; Ok (mk_topic b (tlength tp))
  else Fault AssertFail.

(** The suffixes '%', '$', '&', '?', '#'. *)
Definition is_suffix_char (ch : Z) : bool :=
  (ch =? 37) || (ch =? 36) || (ch =? 38) || (ch =? 63) || (ch =? 35).

Definition jsdrv_topic_suffix_add (tp : jsdrv_topic_s) (ch : Z) : res jsdrv_topic_s :=
  if negb (tlength tp <? JSDRV_TOPIC_LENGTH_MAX - 1) then Fault AssertFail
  else if negb (is_suffix_char ch) then Fault AssertFail
  else
    b ← st (topic tp) (tlength tp) ch;
    b ← st b (u8 (tlength tp + 1)) 0;
    Ok (mk_topic b (u8 (tlength tp + 1))).

Definition jsdrv_topic_suffix_remove (tp : jsdrv_topic_s) : res (jsdrv_topic_s * Z) :=
  if tlength tp =? 0 then Ok (tp, 0)
  else
    c ← ld (topic tp) (tlength tp - 1);
    if is_suffix_char c then
      b ← st (topic tp) (tlength tp - 1) 0; Ok (mk_topic b (tlength tp - 1), c)
    else Ok (tp, 0).

(** ** Invariant and content *)

(** The buffer is the content, its terminator and unused bytes. *)
Definition topic_holds (tp : jsdrv_topic_s) (s : cstr) : Prop :=
  wf_cstr s /\ tlength tp = len s /\ len (topic tp) = JSDRV_TOPIC_LENGTH_MAX
  /\ exists rest, topic tp = s ++ 0 :: rest.

(** Joining a sub-topic: a separator unless the topic is empty or ends with one. *)
Definition joined (s sub : cstr) : cstr :=
  match last s with
  | None => sub
  | Some c => if c =? 47 then s ++ sub else s ++ 47 :: sub
  end.

Lemma topic_holds_content tp s : topic_holds tp s -> cstr_at (topic tp) = Some s.
Proof. intros (Hw & _ & _ & rest & ->). by apply cstr_at_app. Qed.

Lemma topic_holds_len tp s : topic_holds tp s -> 0 <= len s < JSDRV_TOPIC_LENGTH_MAX.
Proof.
  intros (_ & _ & Hl & rest & Hr). rewrite Hr, len_app, len_cons in Hl.
  pose proof (len_nonneg s); pose proof (len_nonneg rest). lia.
Qed.

(** [ld] of the last character of the content. *)
Lemma ld_last (s : cstr) c k : last s = Some c -> ld (s ++ k) (len s - 1) = Ok c.
Proof.
  intros (s' & ->)%last_Some. rewrite len_app, len_cons, (@len_nil Z), <- app_assoc.
  pose proof (len_nonneg s'). apply ld_ok; [lia|].
  rewrite lookup_app_r by (unfold len; lia).
  replace (Z.to_nat (len s' + (1 + 0) - 1) - length s')%nat with 0%nat by (unfold len; lia). done.
Qed.

Lemma append_loop_spec sub : forall pre rest t,
  t = len pre -> len pre + len rest = JSDRV_TOPIC_LENGTH_MAX ->
  append_loop sub (pre ++ rest) t =
    if len sub <=? len rest then Ok (pre ++ sub ++ drop (length sub) rest, t + len sub)
    else Ok (pre ++ take (length rest) sub, JSDRV_TOPIC_LENGTH_MAX).
Proof.
  induction sub as [|c sub IH]; intros pre rest t Ht Hl; cbn [append_loop].
  - pose proof (len_nonneg rest). rewrite (@len_nil Z). simpl_cmp. cbn. by rewrite Z.add_0_r.
  - rewrite len_cons. pose proof (len_nonneg sub).
    destruct rest as [|r rest].
    + rewrite (@len_nil Z) in *. simpl_cmp. cbn. do 2 f_equal. lia.
    + rewrite len_cons in *. pose proof (len_nonneg rest). simpl_cmp.
      rewrite st_middle, bind_Ok, cons_middle, app_assoc by done.
      rewrite IH by (rewrite len_app, len_cons, (@len_nil Z); lia).
      replace (len sub <=? len rest) with (1 + len sub <=? 1 + len rest)
        by (apply Bool.eq_iff_eq_true; rewrite !Z.leb_le; lia).
      case_if; rewrite <- !app_assoc; cbn; [do 2 f_equal; lia | done].
Qed.

Lemma append_copy_spec pre sub rest n :
  wf_cstr (pre ++ sub) -> len pre + len rest = JSDRV_TOPIC_LENGTH_MAX -> n = len pre ->
  if len (pre ++ sub) <? JSDRV_TOPIC_LENGTH_MAX
  then exists tp, append_copy sub (pre ++ rest) n = Ok tp /\ topic_holds tp (pre ++ sub)
  else append_copy sub (pre ++ rest) n = Fault AssertFail.
Proof.
  intros Hw Hl ->. unfold append_copy. rewrite append_loop_spec, len_app by done.
  pose proof (len_nonneg pre); pose proof (len_nonneg sub).
  case_if.
  - simpl_cmp. rewrite bind_Ok; cbv beta iota. simpl_cmp.
    destruct (drop (length sub) rest) as [|r rest'] eqn:Hd.
    { apply (f_equal len) in Hd. unfold len in *. rewrite length_drop in Hd. cbn in Hd. lia. }
    rewrite app_assoc, st_middle, bind_Ok by (by rewrite len_app).
    eexists; split; [done|]. unfold topic_holds; cbn [topic tlength].
    unfold JSDRV_TOPIC_LENGTH_MAX in *.
    rewrite uwrap_small, len_app by width_lia. split_and!; [done | done | | by eexists].
    rewrite len_app, len_cons, len_app. apply (f_equal len) in Hd.
    unfold len in *. rewrite length_drop in Hd. cbn in Hd. lia.
  - case_if; rewrite bind_Ok; cbv beta iota; simpl_cmp; done.
Qed.

(** Appending joins with one separator; a result that would not fit the array
    halts the process in JSDRV_ASSERT before anything is stored out of bounds. *)
Lemma jsdrv_topic_append_spec tp s sub :
  topic_holds tp s -> wf_cstr sub ->
  if len (joined s sub) <? JSDRV_TOPIC_LENGTH_MAX
  then exists tp', jsdrv_topic_append tp sub = Ok tp' /\ topic_holds tp' (joined s sub)
  else jsdrv_topic_append tp sub = Fault AssertFail.
Proof.
  intros Ht Hsub. pose proof (topic_holds_len _ _ Ht) as Hlen.
  destruct Ht as (Hw & Hn & Hl & rest & Hr). unfold jsdrv_topic_append, joined. rewrite Hn, Hr in *.
  rewrite len_app in Hl. unfold JSDRV_TOPIC_LENGTH_MAX in *.
  destruct (last s) as [c|] eqn:Hc.
  - assert (len s <> 0).
    { apply last_Some in Hc as [s' ->]. rewrite len_app, len_cons. pose proof (len_nonneg s').
      rewrite (@len_nil Z); lia. }
    rewrite (proj2 (Z.eqb_neq (len s) 0)) by lia. rewrite (ld_last s c) by done.
    rewrite !bind_Ok. destruct (c =? 47); cbn [negb]; rewrite ?bind_Ok.
    + apply append_copy_spec; [by apply Forall_app | done | done].
    + rewrite st_middle, !bind_Ok by done. rewrite uwrap_small by width_lia.
      rewrite !(cons_middle 47 s), !app_assoc in *. rewrite len_cons in Hl.
      apply append_copy_spec.
      * apply Forall_app; split; [apply Forall_app; split; [done | by repeat constructor] | done].
      * unfold JSDRV_TOPIC_LENGTH_MAX. rewrite len_app, len_cons, (@len_nil Z). lia.
      * rewrite len_app, len_cons, (@len_nil Z). lia.
  - apply last_None in Hc as ->. cbn [app] in *. rewrite (@len_nil Z) in *. cbn [Z.eqb].
    rewrite !bind_Ok. apply (append_copy_spec [] sub (0 :: rest)); done.
Qed.

(** Removing the last character of the content. *)
Lemma topic_chop tp s c :
  topic_holds tp (s ++ [c]) ->
  ld (topic tp) (tlength tp - 1) = Ok c /\ tlength tp = len s + 1
  /\ exists b, st (topic tp) (tlength tp - 1) 0 = Ok b
       /\ topic_holds (mk_topic b (tlength tp - 1)) s.
Proof.
  intros (Hw & Hn & Hl & rest & Hr). rewrite Hn, Hr in *.
  rewrite ld_last with (c := c) by apply last_snoc.
  rewrite <- app_assoc, len_app, len_cons, (@len_nil Z) in *. cbn [app].
  split_and!; [done | lia |].
  rewrite st_middle by lia. eexists; split; [done|]. unfold topic_holds; cbn [topic tlength].
  apply Forall_app in Hw as [Hw _]. split_and!; [done | lia | | by eexists].
  cbn [app] in *. rewrite ?len_app, ?len_cons in *. lia.
Qed.

(** The parent of a topic, from its reversed characters: everything before the
    last separator. *)
Fixpoint parent_rev (r : cstr) : cstr :=
  match r with
  | [] => []
  | c :: r' => if c =? 47 then r' else parent_rev r'
  end.
Definition parent (s : cstr) : cstr := rev (parent_rev (rev s)).

(** One trailing separator is ignored. *)
Definition strip_slash (s : cstr) : cstr :=
  match rev s with
  | c :: r => if c =? 47 then rev r else s
  | [] => s
  end.

Lemma parent_snoc s c : parent (s ++ [c]) = if c =? 47 then s else parent s.
Proof. unfold parent. rewrite rev_app_distr. cbn. case_if; [apply rev_involutive | done]. Qed.

Lemma remove_loop_spec s : forall fuel tp rv,
  topic_holds tp s -> (length s <= fuel)%nat ->
  exists tp', remove_loop fuel tp rv = Ok (tp', rv + (len s - len (parent s)))
    /\ topic_holds tp' (parent s).
Proof.
  induction s as [|c s IH] using rev_ind; intros fuel tp rv Ht Hf.
  - pose proof Ht as (_ & Hn & _). rewrite (@len_nil Z) in Hn. exists tp.
    destruct fuel; cbn [remove_loop]; rewrite Hn; cbn [Z.eqb];
      (split; [do 2 f_equal; cbn; lia | done]).
  - destruct (topic_chop _ _ _ Ht) as (Hld & Htl & b & Hst & Ht').
    rewrite length_app in Hf. cbn in Hf. destruct fuel as [|fuel]; [lia|].
    cbn [remove_loop]. pose proof (len_nonneg s).
    rewrite (proj2 (Z.eqb_neq (tlength tp) 0)) by lia.
    rewrite Hld, bind_Ok, Hst, bind_Ok, parent_snoc, len_app, len_cons, (@len_nil Z).
    case_if.
    + eexists; split; [do 2 f_equal; lia | done].
    + destruct (IH fuel _ (rv + 1) Ht') as (tp' & -> & Hp); [lia|].
      exists tp'. split; [do 2 f_equal; lia | done].
Qed.

(** [remove] moves to the parent and returns the number of characters removed. *)
Lemma jsdrv_topic_remove_spec tp s :
  topic_holds tp s ->
  let p := parent (strip_slash s) in
  exists tp', jsdrv_topic_remove tp = Ok (tp', len s - len p) /\ topic_holds tp' p.
Proof.
  intros Ht p. unfold jsdrv_topic_remove, p, strip_slash.
  destruct s as [|c s _] using rev_ind.
  - pose proof Ht as (_ & Hn & _). destruct (remove_loop_spec [] 0 tp 0 Ht) as (tp1 & Hrl & Ht1); [done|].
    exists tp1. rewrite Hn, (@len_nil Z). cbn [Z.ltb Z.compare]. rewrite bind_Ok, Hn. split; done.
  - destruct (topic_chop _ _ _ Ht) as (Hld & Htl & b & Hst & Ht').
    pose proof (len_nonneg s). rewrite (proj2 (Z.ltb_lt 0 (tlength tp))) by lia.
    rewrite Hld, bind_Ok, rev_app_distr. cbn [rev app]. rewrite len_app, len_cons, (@len_nil Z).
    case_if.
    + rewrite Hst, !bind_Ok, rev_involutive. cbn [tlength].
      destruct (remove_loop_spec s (Z.to_nat (tlength tp - 1)) _ 1 Ht') as (tp' & -> & Hp).
      { unfold len in *; lia. }
      exists tp'. split; [do 2 f_equal; lia | done].
    + rewrite bind_Ok.
      destruct (remove_loop_spec (s ++ [c]) (Z.to_nat (tlength tp)) tp 0 Ht) as (tp' & -> & Hp).
      { unfold len in *; rewrite length_app; cbn; lia. }
      exists tp'. rewrite len_app, len_cons, (@len_nil Z). split; [done | done].
Qed.

Lemma parent_app_level s sub :
  Forall (fun c => c <> 47) sub -> parent (s ++ 47 :: sub) = s.
Proof.
  induction sub as [|c sub IH] using rev_ind; intros Hs.
  - by rewrite parent_snoc.
  - apply Forall_app in Hs as [Hs Hc]. apply Forall_cons_1 in Hc as [Hc _].
    rewrite app_comm_cons, app_assoc, parent_snoc. simpl_cmp. by apply IH.
Qed.

(** Appending one non-empty level to a non-empty topic that does not end with the
    separator and removing a level gives the topic back, and the removal reports the
    number of characters removed. *)
Lemma jsdrv_topic_append_remove tp s sub :
  topic_holds tp s -> wf_cstr sub -> sub <> [] -> Forall (fun c => c <> 47) sub ->
  s <> [] -> last s <> Some 47 -> len s + 1 + len sub < JSDRV_TOPIC_LENGTH_MAX ->
  exists tp1 tp2, jsdrv_topic_append tp sub = Ok tp1
    /\ jsdrv_topic_remove tp1 = Ok (tp2, 1 + len sub) /\ topic_holds tp2 s.
Proof.
  intros Ht Hw Hne Hns Hs Hl Hlen.
  assert (joined s sub = s ++ 47 :: sub) as Hj.
  { unfold joined. destruct (last s) as [c|] eqn:Hc; [|by apply last_None in Hc].
    rewrite (proj2 (Z.eqb_neq c 47)); [done | congruence]. }
  pose proof (jsdrv_topic_append_spec tp s sub Ht Hw) as Ha.
  rewrite Hj, len_app, len_cons, (proj2 (Z.ltb_lt _ _)) in Ha by lia.
  destruct Ha as (tp1 & Ha & Ht1).
  assert (strip_slash (s ++ 47 :: sub) = s ++ 47 :: sub) as Hstrip.
  { unfold strip_slash. destruct sub as [|c sub _] using rev_ind; [done|].
    rewrite app_comm_cons, app_assoc, rev_app_distr. cbn.
    apply Forall_app in Hns as [_ Hc]. apply Forall_cons_1 in Hc as [Hc _].
    by rewrite (proj2 (Z.eqb_neq c 47)). }
  destruct (jsdrv_topic_remove_spec tp1 _ Ht1) as (tp2 & Hr & Ht2).
  rewrite Hstrip, parent_app_level, len_app, len_cons in * by done.
  exists tp1, tp2. split_and!; [done | | done]. rewrite Hr. do 2 f_equal. lia.
Qed.

(** Truncating to the remembered length undoes any append. *)
Lemma jsdrv_topic_truncate_spec tp s n :
  topic_holds tp s -> 0 <= n -> 
  exists tp', jsdrv_topic_truncate tp n = Ok tp' /\ topic_holds tp' (take (Z.to_nat n) s).
Proof.
  intros Ht Hn0. pose proof (topic_holds_len _ _ Ht) as Hlen.
  pose proof Ht as (Hw & Hn & Hl & rest & Hr). unfold jsdrv_topic_truncate.
  case_if.
  - assert (exists r k, s ++ 0 :: rest = take (Z.to_nat n) s ++ r :: k) as (r & k & Hk).
    { destruct (drop (Z.to_nat n) s ++ 0 :: rest) as [|r k] eqn:Hd; [by destruct (drop _ s)|].
      exists r, k. by rewrite <- Hd, app_assoc, take_drop. }
    assert (len (take (Z.to_nat n) s) = n) as Hln.
    { unfold len in *. rewrite length_take. lia. }
    rewrite Hr, Hk, st_middle, bind_Ok by done.
    eexists; split; [done|]. unfold topic_holds; cbn [topic tlength].
    split_and!; [by apply Forall_take | done | | by eexists].
    rewrite Hr, Hk, len_app, len_cons in Hl. rewrite len_app, len_cons. lia.
  - exists tp. rewrite take_ge by (unfold len in *; lia). done.
Qed.

(** *** Setting, clearing, suffixes *)

Lemma jsdrv_topic_clear_spec tp s :
  topic_holds tp s -> exists tp', jsdrv_topic_clear tp = Ok tp' /\ topic_holds tp' [].
Proof.
  intros (_ & _ & Hl & rest & Hr). unfold jsdrv_topic_clear.
  destruct (topic tp) as [|c b] eqn:Hb; [done|].
  rewrite st_ok by (rewrite len_cons in *; pose proof (len_nonneg b); lia). eexists; split; [done|].
  split_and!; [constructor | done | | by exists b]. cbn [topic]. by rewrite len_insert.
Qed.

(** The loop writes a prefix over the array; it stops at the array's end. *)
Lemma set_loop_spec s : forall pre rest,
  len pre + len rest = JSDRV_TOPIC_LENGTH_MAX ->
  set_loop s (mk_topic (pre ++ rest) (len pre)) =
    Ok (if len s <=? len rest
        then mk_topic (pre ++ s ++ drop (length s) rest) (len pre + len s)
        else mk_topic (pre ++ take (length rest) s) JSDRV_TOPIC_LENGTH_MAX).
Proof.
  induction s as [|c s IH]; intros pre rest Hl; cbn [set_loop].
  - rewrite (@len_nil Z). pose proof (len_nonneg rest). simpl_cmp.
    cbn [app List.length]. by rewrite drop_0, Z.add_0_r.
  - pose proof (len_nonneg s). cbn [topic tlength]. rewrite len_cons. destruct rest as [|r rest].
    + rewrite (@len_nil Z) in *. simpl_cmp. cbn [List.length take].
      rewrite Z.add_0_r in Hl. by rewrite Hl, app_nil_r.
    + rewrite len_cons in *. pose proof (len_nonneg rest); pose proof (len_nonneg pre).
      simpl_cmp. rewrite st_middle, bind_Ok by done.
      rewrite uwrap_small by (unfold JSDRV_TOPIC_LENGTH_MAX in *; width_lia).
      rewrite cons_middle, app_assoc.
      replace (len pre + 1) with (len (pre ++ [c])) by (rewrite len_app, len_cons, (@len_nil Z); lia).
      rewrite IH by (rewrite len_app, len_cons, (@len_nil Z); lia).
      rewrite len_app, len_cons, (@len_nil Z). cbn [List.length take drop].
      repeat case_if; try lia; rewrite <- !app_assoc; cbn [app]; [|done]. do 2 f_equal. lia.
Qed.

Lemma jsdrv_topic_set_spec tp s0 s :
  topic_holds tp s0 -> wf_cstr s ->
  if len s <? JSDRV_TOPIC_LENGTH_MAX
  then exists tp', jsdrv_topic_set tp s = Ok tp' /\ topic_holds tp' s
  else jsdrv_topic_set tp s = Fault AssertFail.
Proof.
  intros Ht Hs. unfold jsdrv_topic_set.
  destruct (jsdrv_topic_clear_spec tp s0 Ht) as ([b n] & -> & (_ & Hn & Hl & _)).
  cbn in Hn, Hl. subst n. rewrite bind_Ok.
  pose proof (set_loop_spec s [] b) as Hset. cbn [app] in Hset. rewrite (@len_nil Z) in *.
  rewrite Hset, bind_Ok by lia. rewrite Hl. pose proof (len_nonneg s). clear Hset.
  destruct (len s <? JSDRV_TOPIC_LENGTH_MAX) eqn:E; bool_facts.
  - rewrite (proj2 (Z.leb_le (len s) _)) by lia. cbn [tlength topic]. rewrite Z.add_0_l. simpl_cmp.
    destruct (drop (length s) b) as [|r k] eqn:Hd.
    { apply (f_equal len) in Hd. unfold len in *. rewrite length_drop in Hd. cbn in Hd. lia. }
    rewrite st_middle, bind_Ok by done. eexists; split; [done|].
    split_and!; [done | done | | by exists k]. cbn [topic].
    apply (f_equal len) in Hd. rewrite len_app, len_cons in *. unfold len in *. rewrite length_drop in Hd. lia.
  - destruct (len s <=? JSDRV_TOPIC_LENGTH_MAX); cbn [tlength];
      (rewrite (proj2 (Z.ltb_ge _ _)) by lia); done.
Qed.

Lemma jsdrv_topic_suffix_add_spec tp s ch :
  topic_holds tp s ->
  if (len s <? JSDRV_TOPIC_LENGTH_MAX - 1) && is_suffix_char ch
  then exists tp', jsdrv_topic_suffix_add tp ch = Ok tp' /\ topic_holds tp' (s ++ [ch])
  else jsdrv_topic_suffix_add tp ch = Fault AssertFail.
Proof.
  intros Ht. pose proof Ht as (Hw & Hn & Hl & rest & Hr). pose proof (len_nonneg s).
  unfold jsdrv_topic_suffix_add. rewrite Hn.
  destruct (len s <? _) eqn:Hlen; cbn [negb andb]; [|done].
  destruct (is_suffix_char ch) eqn:Hc; cbn [negb]; [|done]. bool_facts.
  unfold JSDRV_TOPIC_LENGTH_MAX in *. rewrite Hr.
  rewrite st_middle, bind_Ok, uwrap_small, cons_middle, app_assoc by (done || width_lia).
  rewrite Hr, len_app, len_cons in Hl.
  destruct rest as [|r rest]; [rewrite (@len_nil Z) in Hl; lia|].
  rewrite st_middle, bind_Ok by (rewrite len_app, len_cons, (@len_nil Z); lia).
  eexists; split; [done|]. unfold topic_holds; cbn [topic tlength].
  rewrite len_app, !len_cons, (@len_nil Z) in *.
  split_and!; [| lia | | by eexists].
  - apply Forall_app; split; [done|]. repeat constructor.
    unfold is_suffix_char in Hc. by intros ->.
  - unfold JSDRV_TOPIC_LENGTH_MAX. rewrite ?len_app, ?len_cons, ?(@len_nil Z) in *. lia.
Qed.

(** The content with its suffix character split off. *)
Definition split_suffix (s : cstr) : cstr * Z :=
  match last s with
  | Some c => if is_suffix_char c then (removelast s, c) else (s, 0)
  | None => (s, 0)
  end.

Lemma jsdrv_topic_suffix_remove_spec tp s :
  topic_holds tp s ->
  exists tp', jsdrv_topic_suffix_remove tp = Ok (tp', (split_suffix s).2)
    /\ topic_holds tp' (split_suffix s).1.
Proof.
  intros Ht. unfold jsdrv_topic_suffix_remove, split_suffix.
  destruct s as [|c s _] using rev_ind.
  - pose proof Ht as (_ & -> & _). exists tp. done.
  - destruct (topic_chop _ _ _ Ht) as (Hld & Htl & b & Hst & Ht2). pose proof (len_nonneg s).
    rewrite last_snoc, removelast_last, (proj2 (Z.eqb_neq _ 0)) by lia.
    rewrite Hld, bind_Ok. destruct (is_suffix_char c); [rewrite Hst|]; eauto.
Qed.

(** ** Sequences of operations *)

Inductive topic_op :=
  | OpClear
  | OpTruncate (n : Z)
  | OpAppend (sub : cstr)
  | OpRemove
  | OpSet (s : cstr)
  | OpSuffixAdd (ch : Z)
  | OpSuffixRemove.

Definition topic_step (tp : jsdrv_topic_s) (op : topic_op) : res jsdrv_topic_s :=
  match op with
  | OpClear => jsdrv_topic_clear tp
  | OpTruncate n => jsdrv_topic_truncate tp n
  | OpAppend sub => jsdrv_topic_append tp sub
  | OpRemove => '(tp, _) ← jsdrv_topic_remove tp; Ok tp
  | OpSet s => jsdrv_topic_set tp s
  | OpSuffixAdd ch => jsdrv_topic_suffix_add tp ch
  | OpSuffixRemove => '(tp, _) ← jsdrv_topic_suffix_remove tp; Ok tp
  end.

(** The arguments are C strings and a [uint8_t]. *)
Definition op_args_ok (op : topic_op) : Prop :=
  match op with
  | OpTruncate n => is_u 8 n
  | OpAppend s | OpSet s => wf_cstr s
  | _ => True
  end.

(** What the operations do to the string held; [None] is the fatal assert. *)
Definition spec_step (s : cstr) (op : topic_op) : option cstr :=
  let fit s := if len s <? JSDRV_TOPIC_LENGTH_MAX then Some s else None in
  match op with
  | OpClear => Some []
  | OpTruncate n => Some (take (Z.to_nat n) s)
  | OpAppend sub => fit (joined s sub)
  | OpRemove => Some (parent (strip_slash s))
  | OpSet s' => fit s'
  | OpSuffixAdd ch => if is_suffix_char ch then fit (s ++ [ch]) else None
  | OpSuffixRemove => Some (split_suffix s).1
  end.

Definition topic_refines (r : res jsdrv_topic_s) (o : option cstr) : Prop :=
  match o with
  | Some s => exists tp, r = Ok tp /\ topic_holds tp s
  | None => r = Fault AssertFail
  end.

Lemma topic_step_refines tp s op :
  topic_holds tp s -> op_args_ok op -> topic_refines (topic_step tp op) (spec_step s op).
Proof.
  intros Ht Hop. destruct op as [|n|sub| |s'|ch|]; cbn [topic_step spec_step op_args_ok] in *.
  - by apply (jsdrv_topic_clear_spec tp s).
  - apply jsdrv_topic_truncate_spec; [done | apply Hop].
  - pose proof (jsdrv_topic_append_spec tp s sub Ht Hop) as H. by case_if.
  - destruct (jsdrv_topic_remove_spec tp s Ht) as (tp' & -> & H). by exists tp'.
  - pose proof (jsdrv_topic_set_spec tp s s' Ht Hop) as H. by case_if.
  - pose proof (jsdrv_topic_suffix_add_spec tp s ch Ht) as H. rewrite len_app, len_cons, (@len_nil Z).
    destruct (is_suffix_char ch); [|by rewrite andb_false_r in H]. rewrite andb_true_r in H.
    case_if_in H; case_if; try lia; done.
  - destruct (jsdrv_topic_suffix_remove_spec tp s Ht) as (tp' & -> & H). by exists tp'.
Qed.

Definition run_topic (ops : list topic_op) (tp : jsdrv_topic_s) : res jsdrv_topic_s :=
  foldl (fun r op => tp ← r; topic_step tp op) (Ok tp) ops.
Definition run_spec (ops : list topic_op) (s : cstr) : option cstr :=
  foldl (fun o op => s ← o; spec_step s op) (Some s) ops.

Lemma run_topic_refines ops : Forall op_args_ok ops -> forall r o,
  topic_refines r o ->
  topic_refines (foldl (fun r op => tp ← r; topic_step tp op) r ops)
                (foldl (fun o op => s ← o; spec_step s op) o ops).
Proof.
  induction 1 as [|op ops Hop _ IH]; intros r o Hr; cbn [foldl]; [done|]. apply IH.
  destruct o as [s|]; cbn in Hr.
  - destruct Hr as (tp & -> & Ht). by apply topic_step_refines.
  - by subst r.
Qed.

(** ** Properties *)



Lemma jsdrv_topic_append_remove_witness :
  exists tp, run_topic [OpSet (str "u/js220")] JSDRV_TOPIC_INIT = Ok tp
  /\ exists tp1 tp2, jsdrv_topic_append tp (str "info") = Ok tp1
    /\ jsdrv_topic_remove tp1 = Ok (tp2, 5) /\ topic_holds tp2 (str "u/js220").
Proof.
  eexists; split; [reflexivity|].
  apply (jsdrv_topic_append_remove _ (str "u/js220") (str "info")); try discriminate; try reflexivity.
  - split_and!; [repeat constructor; discriminate | done | done |].
    by exists (replicate 56 0).
  - repeat constructor; discriminate.
  - repeat constructor; discriminate.
Defined.
