(* ===== verification/Float.v ===== *)
(** * C floating point: IEEE-754 binary64 and binary32

    The operations of C [double] and [float] that the sources use, on the
    Standard Library's [spec_float], with round-to-nearest-even, and the
    conversions between integers, floats and bit patterns. *)

From Stdlib Require Export SpecFloat.
From S2P Require Import Prelude.

Definition f64 := spec_float.
Definition f32 := spec_float.

Definition f64_of_Z (z : Z) : f64 := binary_normalize 53 1024 z 0 false.
Definition f32_of_Z (z : Z) : f32 := binary_normalize 24 128 z 0 false.
(** The literal [m * 2^e]. *)
Definition f64_lit (m e : Z) : f64 := binary_normalize 53 1024 m e false.
Definition f32_lit (m e : Z) : f32 := binary_normalize 24 128 m e false.

Definition f64_add : f64 -> f64 -> f64 := SFadd 53 1024.
Definition f64_sub : f64 -> f64 -> f64 := SFsub 53 1024.
Definition f64_mul : f64 -> f64 -> f64 := SFmul 53 1024.
Definition f64_div : f64 -> f64 -> f64 := SFdiv 53 1024.
Definition f64_sqrt : f64 -> f64 := SFsqrt 53 1024.
Definition f64_opp : f64 -> f64 := SFopp.
Definition f32_mul : f32 -> f32 -> f32 := SFmul 24 128.

Definition f_is_nan (x : spec_float) : bool :=
  match x with S754_nan => true | _ => false end.

(** [float] to [double] is exact; [double] to [float] rounds. *)
Definition f64_of_f32 (x : f32) : f64 :=
  match x with
  | S754_finite s m e => binary_round 53 1024 s m e
  | _ => x
  end.
Definition f32_of_f64 (x : f64) : f32 :=
  match x with
  | S754_finite s m e => binary_round 24 128 s m e
  | _ => x
  end.

(** The integer part (towards zero) of a finite value; [None] for NaN and infinities. *)
Definition f_trunc (x : spec_float) : option Z :=
  match x with
  | S754_zero _ => Some 0
  | S754_finite s m e =>
      let a := if 0 <=? e then Z.shiftl (Zpos m) e else Z.shiftr (Zpos m) (- e) in
      Some (if s then - a else a)
  | _ => None
  end.

(** [round()]: to the nearest integer, halves away from zero. *)
Definition f_round (x : spec_float) : option Z :=
  match x with
  | S754_zero _ => Some 0
  | S754_finite s m e =>
      let a := if 0 <=? e then Z.shiftl (Zpos m) e
               else Z.shiftr (Zpos m + Z.shiftl 1 (- e - 1)) (- e) in
      Some (if s then - a else a)
  | _ => None
  end.

(** A cast to an integer type: undefined unless the integer part is representable. *)
Definition f_cast (lo hi : Z) (z : option Z) : res Z :=
  match z with
  | Some z => if (lo <=? z) && (z <=? hi) then Ok z else Fault BadCast
  | None => Fault BadCast
  end.
Definition f_to_i64 (x : spec_float) : res Z := f_cast I64_MIN I64_MAX (f_trunc x).
Definition f_to_u64 (x : spec_float) : res Z := f_cast 0 U64_MAX (f_trunc x).

(** ** Bit patterns *)

(** [mw] mantissa bits, [ew] exponent bits. *)
Definition f_of_bits (mw ew : Z) (b : Z) : spec_float :=
  let s := Z.testbit b (mw + ew) in
  let ex := Z.land (Z.shiftr b mw) (Z.ones ew) in
  let m := Z.land b (Z.ones mw) in
  let emin := 3 - 2 ^ (ew - 1) - (mw + 1) in
  if ex =? 0 then
    match m with Zpos p => S754_finite s p emin | _ => S754_zero s end
  else if ex =? Z.ones ew then
    match m with Zpos _ => S754_nan | _ => S754_infinity s end
  else
    match m + 2 ^ mw with Zpos p => S754_finite s p (ex - 1 + emin) | _ => S754_nan end.

(** NaN is encoded as the positive quiet NaN. *)
Definition bits_of_f (mw ew : Z) (x : spec_float) : Z :=
  let sign (s : bool) := if s then Z.shiftl 1 (mw + ew) else 0 in
  let emin := 3 - 2 ^ (ew - 1) - (mw + 1) in
  match x with
  | S754_zero s => sign s
  | S754_infinity s => sign s + Z.shiftl (Z.ones ew) mw
  | S754_nan => Z.shiftl (Z.ones ew) mw + Z.shiftl 1 (mw - 1)
  | S754_finite s m e =>
      if Zpos m <? 2 ^ mw then sign s + Zpos m
      else sign s + Z.shiftl (e - emin + 1) mw + (Zpos m - 2 ^ mw)
  end.

Definition f64_of_bits : Z -> f64 := f_of_bits 52 11.
Definition bits_of_f64 : f64 -> Z := bits_of_f 52 11.
Definition f32_of_bits : Z -> f32 := f_of_bits 23 8.
Definition bits_of_f32 : f32 -> Z := bits_of_f 23 8.

Example f64_bits_one : f64_of_bits 0x3FF0000000000000 = f64_of_Z 1.
Proof. reflexivity. Qed.
Example f32_bits_half : f64_of_f32 (f32_of_bits 0xBF000000) = f64_lit (-1) (-1).
Proof. reflexivity. Qed.
Example f64_bits_roundtrip : bits_of_f64 (f64_of_bits 0x400921FB54442D18) = 0x400921FB54442D18.
Proof. reflexivity. Qed.

(** ** What the casts promise *)

Lemma f_cast_ok lo hi z r : f_cast lo hi z = Ok r -> z = Some r /\ lo <= r <= hi.
Proof. destruct z; cbn; [|discriminate]. case_if; [|discriminate]. intros [= ->]. split; [done | lia]. Qed.

Lemma f_to_u64_nonneg x r : f_to_u64 x = Ok r -> 0 <= r.
Proof. intros H%f_cast_ok. lia. Qed.

(** NaN compares false with everything, and cannot be cast. *)
Lemma SFltb_nan_l x : SFltb S754_nan x = false.
Proof. done. Qed.
Lemma SFltb_nan_r x : SFltb x S754_nan = false.
Proof. by destruct x. Qed.

(** ** Small integers are represented exactly *)

Lemma digits2_pos_log2 p : Zpos (digits2_pos p) = Z.log2 (Zpos p) + 1.
Proof.
  induction p as [p IH|p IH|]; cbn [digits2_pos]; [| | done]; rewrite Pos2Z.inj_succ, IH.
  - change (Zpos p~1) with (2 * Zpos p + 1). rewrite Z.log2_succ_double by lia. lia.
  - change (Zpos p~0) with (2 * Zpos p). rewrite Z.log2_double by lia. lia.
Qed.

Lemma iter_xO p d : Zpos (Pos.iter xO p d) = Zpos p * 2 ^ Zpos d.
Proof.
  induction d as [|d IH] using Pos.peano_ind; [cbn; lia|].
  rewrite Pos.iter_succ, Pos2Z.inj_succ, Z.pow_succ_r by lia.
  change (Zpos (Pos.iter xO p d)~0) with (2 * Zpos (Pos.iter xO p d)). rewrite IH. ring.
Qed.

(** A mantissa of exactly 53 digits is not changed by the rounding. *)
Lemma round_aux_53 s m e :
  Z.log2 (Zpos m) = 52 -> -1074 <= e <= 971 ->
  binary_round_aux 53 1024 s (Zpos m) e loc_Exact = S754_finite s m e.
Proof.
  intros Hm He. unfold binary_round_aux, shr_fexp, fexp, emin. cbn [Zdigits2].
  rewrite digits2_pos_log2, Hm.
  replace (Z.max (52 + 1 + e - 53) (3 - 1024 - 53) - e) with 0 by lia.
  cbn [shr shr_record_of_loc shr_m loc_of_shr_record round_nearest_even Zdigits2].
  rewrite digits2_pos_log2, Hm.
  replace (Z.max (52 + 1 + e - 53) (3 - 1024 - 53) - e) with 0 by lia.
  cbn [shr shr_m]. rewrite (proj2 (Z.leb_le e (1024 - 53))) by lia. done.
Qed.

Lemma f64_round_int s p :
  Zpos p < 2 ^ 53 ->
  exists m e, binary_round 53 1024 s p 0 = S754_finite s m e /\ -52 <= e <= 0
    /\ Zpos m = Zpos p * 2 ^ (- e).
Proof.
  intros Hp. unfold binary_round, shl_align. rewrite digits2_pos_log2.
  pose proof (Z.log2_nonneg (Zpos p)).
  assert (Z.log2 (Zpos p) < 53) by (apply Z.log2_lt_pow2; lia).
  unfold fexp, emin. rewrite !Z.sub_0_r, Z.add_0_r, Z.max_l by lia.
  destruct (Z.log2 (Zpos p) + 1 - 53) as [|d|d] eqn:Hd; [| lia |].
  - exists p, 0. split_and!; [apply round_aux_53; lia | lia | lia | cbn; lia].
  - exists (Pos.iter xO p d), (Z.neg d). split_and!; [|lia|lia|apply iter_xO].
    apply round_aux_53; [|lia]. rewrite iter_xO, Z.log2_mul_pow2 by lia. lia.
Qed.

Lemma f_trunc_f64_of_Z z : Z.abs z < 2 ^ 53 -> f_trunc (f64_of_Z z) = Some z.
Proof.
  intros Hz. unfold f64_of_Z, binary_normalize. destruct z as [|p|p]; [done| |];
    (destruct (f64_round_int false p) as (m & e & Hr & He & Hm); [lia|]);
    (destruct (f64_round_int true p) as (m' & e' & Hr' & He' & Hm'); [lia|]).
  - rewrite Hr. cbn [f_trunc]. rewrite Hm. case_if.
    + replace e with 0 by lia. rewrite Z.shiftl_0_r. f_equal. cbn. lia.
    + rewrite Z.shiftr_div_pow2, Z.div_mul by (try apply Z.pow_nonzero; lia). done.
  - rewrite Hr'. cbn [f_trunc]. rewrite Hm'. case_if.
    + replace e' with 0 by lia. rewrite Z.shiftl_0_r. f_equal. cbn. lia.
    + rewrite Z.shiftr_div_pow2, Z.div_mul by (try apply Z.pow_nonzero; lia). done.
Qed.

Lemma f_to_u64_of_Z z : 0 <= z < 2 ^ 53 -> f_to_u64 (f64_of_Z z) = Ok z.
Proof.
  intros Hz. unfold f_to_u64. rewrite f_trunc_f64_of_Z by lia. unfold f_cast.
  by simpl_cmp.
Qed.
