(* ===== verification/Time.v ===== *)
(** * Time (include/jsdrv/time.h, src/time.c)

    Time is a signed 64-bit count of [2^-30] seconds since 2018-01-01T00:00:00Z.
    The inline conversions to and from counters, the calendar of
    [jsdrv_time_to_str], and the time-map record with its conversions.  The theorems
    give the exact rational values the shift-and-multiply code computes, and compare
    the calendar with the Gregorian successor function. *)

From S2P Require Import Prelude Float Cstr.

Definition JSDRV_TIME_Q : Z := 30.
Definition JSDRV_TIME_SECOND : Z := Z.shiftl 1 JSDRV_TIME_Q.
Definition JSDRV_FRACT_MASK : Z := JSDRV_TIME_SECOND - 1.
Definition JSDRV_TIME_MILLISECOND : Z := (JSDRV_TIME_SECOND + 500) / 1000.
Definition JSDRV_TIME_MICROSECOND : Z := (JSDRV_TIME_SECOND + 500000) / 1000000.

(** ** Conversions *)

(** [if (x < 0) { negate = 1; x = -x; }] on an [int64_t]. *)
Definition magnitude (x : Z) : res (bool * Z) :=
  if x <? 0 then x ← chk_i 64 (- x); Ok (true, x) else Ok (false, x).

Definition JSDRV_TIME_TO_COUNTER (x z : Z) : res Z :=
  '(negate, x) ← magnitude x;
  let c := u64 (Z.shiftr (Z.land x (Z.lnot JSDRV_FRACT_MASK)) (JSDRV_TIME_Q - 1) * z) in
  let fract := Z.shiftl (Z.land x JSDRV_FRACT_MASK) 1 in
  let c := u64 (c + u64 (Z.shiftr (u64 (fract * z)) JSDRV_TIME_Q + 1)) in
  let c := Z.shiftr c 1 in
  c ← (if negate : bool then c ← chk_i 64 (- i64 c); Ok (u64 c) else Ok c);
  Ok (i64 c).

(** The rounding conversions end with [negate ? -c : c]. *)
Definition signed_result (negate : bool) (c : Z) : res Z :=
  if negate then chk_i 64 (- i64 c) else Ok (i64 c).

Definition JSDRV_TIME_TO_COUNTER_RZERO (x z : Z) : res Z :=
  '(negate, x) ← magnitude x;
  let c_u64 := u64 (Z.shiftr x JSDRV_TIME_Q * z) in
  let c_u64 := u64 (c_u64 + Z.shiftr (u64 (Z.land x JSDRV_FRACT_MASK * z)) JSDRV_TIME_Q) in
  signed_result negate c_u64.

Definition JSDRV_TIME_TO_COUNTER_RINF (x z : Z) : res Z :=
  '(negate, x) ← magnitude x;
  x ← chk_i 64 (x + (JSDRV_TIME_SECOND - 1));
  let c_u64 := u64 (Z.shiftr x JSDRV_TIME_Q * z) in
  let c_u64 := u64 (c_u64 + Z.shiftr (u64 (Z.land x JSDRV_FRACT_MASK * z)) JSDRV_TIME_Q) in
  signed_result negate c_u64.

Definition JSDRV_COUNTER_TO_TIME (x z : Z) : res Z :=
  if z =? 0 then Fault DivByZero
  else
    let seconds := x / z in
    let remainder := u64 (x - u64 (seconds * z)) in
    let fract := u64 (Z.shiftl remainder JSDRV_TIME_Q) / z in
    let t := u64 (u64 (Z.shiftl seconds JSDRV_TIME_Q) + fract) in
    Ok (i64 t).

Definition JSDRV_F64_TO_TIME (x : f64) : res Z :=
  let negate := SFltb x (S754_zero false) in
  let x := if negate then f64_opp x else x in
  c ← f_to_i64 (f64_add (f64_mul x (f64_of_Z JSDRV_TIME_SECOND)) (f64_lit 1 (-1)));
  if negate then chk_i 64 (- c) else Ok c.

Definition JSDRV_TIME_ABS (t : Z) : res Z := if t <? 0 then chk_i 64 (- t) else Ok t.
Definition jsdrv_time_min (a b : Z) : Z := if a <? b then a else b.
Definition jsdrv_time_max (a b : Z) : Z := if b <? a then a else b.

(** ** The time map *)

Record jsdrv_time_map_s := mk_time_map {
  offset_time : Z;      (* int64_t *)
  offset_counter : Z;   (* uint64_t *)
  counter_rate : f64;   (* double *)
}.

Definition time_map_zero : jsdrv_time_map_s := mk_time_map 0 0 (S754_zero false).
#[global] Instance time_map_inhabited : Inhabited jsdrv_time_map_s := populate time_map_zero.

(** [round] returns a [double]; the cast of its value is exact when it is in range. *)
Definition f_round_to_i64 (x : f64) : res Z := f_cast I64_MIN I64_MAX (f_round x).

Definition jsdrv_time_from_counter (self : jsdrv_time_map_s) (counter : Z) : res Z :=
  let delta := i64 (u64 (counter - offset_counter self)) in
  let scale := f64_div (f64_of_Z JSDRV_TIME_SECOND) (counter_rate self) in
  time64 ← f_round_to_i64 (f64_mul scale (f64_of_Z delta));
  chk_i 64 (time64 + offset_time self).

Definition jsdrv_time_to_counter (self : jsdrv_time_map_s) (time64 : Z) : res Z :=
  time64 ← chk_i 64 (time64 - offset_time self);
  let scale := f64_div (counter_rate self) (f64_of_Z JSDRV_TIME_SECOND) in
  counter ← f_round_to_i64 (f64_mul scale (f64_of_Z time64));
  Ok (u64 (i64 (u64 (u64 counter + offset_counter self)))).

(** ** The calendar string *)

(** [days_to_civil]: year, month, day of a day count since 2018-01-01, in 32-bit
    unsigned arithmetic. *)
Definition days_to_civil (days : Z) : Z * Z * Z :=
  let days := u32 (days + (719468 + 17532)) in
  let era := days / 146097 in
  let doe := u32 (days - u32 (era * 146097)) in
  let yoe := u32 (u32 (u32 (doe - doe / 1460) + doe / 36524) - doe / 146096) / 365 in
  let y := u32 (yoe + u32 (era * 400)) in
  let doy := u32 (doe - u32 (u32 (u32 (365 * yoe) + yoe / 4) - yoe / 100)) in
  let mp := u32 (u32 (5 * doy) + 2) / 153 in
  let d := u32 (u32 (doy - u32 (u32 (153 * mp) + 2) / 5) + 1) in
  let m := u32 (mp + (if mp <? 10 then 3 else u32 (-9))) in
  let y := u32 (y + (if m <=? 2 then 1 else 0)) in
  (y, m, d).

Record time_fields := mk_fields { fY : Z; fM : Z; fD : Z; fh : Z; fm : Z; fs : Z; fus : Z }.

(** The fields that are printed. *)
Definition time_to_fields (t : Z) : res time_fields :=
  microseconds ← JSDRV_TIME_TO_COUNTER t 1000000;
  let seconds := Z.quot microseconds 1000000 in
  let days := u32 (Z.quot seconds (60 * 60 * 24)) in
  let '(y, m, d) := days_to_civil days in
  let us := u32 (microseconds - seconds * 1000000) in
  let ss := u32 (Z.rem seconds (60 * 60 * 24)) in
  let hh := ss / (60 * 60) in
  let ss := u32 (ss - u32 (hh * (60 * 60))) in
  let mm := ss / 60 in
  let ss := u32 (ss - u32 (mm * 60)) in
  Ok (mk_fields y m d hh mm ss us).

(** [%0<width>u] of a 32-bit value: its decimal digits, zero-filled on the left. *)
Fixpoint dec_digits (fuel : nat) (v : Z) (acc : cstr) : cstr :=
  match fuel with
  | O => acc
  | S fuel' =>
      let acc := (48 + v mod 10) :: acc in
      if v <? 10 then acc else dec_digits fuel' (v / 10) acc
  end.
Definition fmt_u0 (width : nat) (v : Z) : cstr :=
  let ds := dec_digits 10 v [] in replicate (width - length ds) 48 ++ ds.

Definition time_text (f : time_fields) : cstr :=
  fmt_u0 4 (fY f) ++ 45 :: fmt_u0 2 (fM f) ++ 45 :: fmt_u0 2 (fD f) ++ 84 ::
  fmt_u0 2 (fh f) ++ 58 :: fmt_u0 2 (fm f) ++ 58 :: fmt_u0 2 (fs f) ++ 46 :: fmt_u0 6 (fus f).

Definition JSDRV_TIME_STRING_LENGTH : Z := 27.

(** The buffer written by the bounded print, and the return value. *)
Definition jsdrv_time_to_str (t : Z) (buf : list Z) (size : Z) : res (list Z * Z) :=
  if size =? 0 then Ok (buf, 0)
  else
    f ← time_to_fields t;
    buf ← store_all (take (Z.to_nat (size - 1)) (time_text f)) buf 0;
    Ok (buf, if JSDRV_TIME_STRING_LENGTH <=? size then JSDRV_TIME_STRING_LENGTH - 1
             else i32 size - 1).

Example time_to_str_epoch :
  (t ← jsdrv_time_to_str 0 (replicate 30 88) 30; Ok (cstr_at t.1, t.2))
  = Ok (Some (fmt_u0 4 2018 ++ 45 :: fmt_u0 2 1 ++ 45 :: fmt_u0 2 1 ++ 84 :: fmt_u0 2 0
              ++ 58 :: fmt_u0 2 0 ++ 58 :: fmt_u0 2 0 ++ 46 :: fmt_u0 6 0), 26).
Proof. reflexivity. Qed.

(** ** The conversions compute exact rounded products and quotients *)

Lemma fract_mask_ones : JSDRV_FRACT_MASK = Z.ones 30.
Proof. reflexivity. Qed.

Lemma time_fract x : Z.land x JSDRV_FRACT_MASK = x mod 2 ^ 30.
Proof. rewrite fract_mask_ones. by apply Z.land_ones. Qed.

Lemma time_whole2 x :
  Z.shiftr (Z.land x (Z.lnot JSDRV_FRACT_MASK)) (JSDRV_TIME_Q - 1) = x / 2 ^ 30 * 2.
Proof.
  rewrite <- Z.ldiff_land, fract_mask_ones, Z.ldiff_ones_r by lia.
  rewrite Z.shiftr_shiftl_l by (unfold JSDRV_TIME_Q; lia). rewrite Z.shiftr_div_pow2 by lia.
  rewrite Z.shiftl_mul_pow2 by (unfold JSDRV_TIME_Q; lia). reflexivity.
Qed.

(** [|x| * z / 2^30], rounded half up. *)
Definition to_counter_nearest (x z : Z) : Z := (2 * x * z + 2 ^ 30) / 2 ^ 31.

Lemma to_counter_split x z : 0 <= x ->
  (x / 2 ^ 30 * 2 * z + (x mod 2 ^ 30 * 2 * z) / 2 ^ 30 + 1) / 2 = to_counter_nearest x z.
Proof.
  intros Hx. unfold to_counter_nearest. change (2 ^ 31) with (2 ^ 30 * 2).
  rewrite <- Z.div_div by lia. f_equal.
  replace (2 * x * z + 2 ^ 30) with (x mod 2 ^ 30 * 2 * z + (x / 2 ^ 30 * 2 * z + 1) * 2 ^ 30)
    by (rewrite (Z.div_mod x (2 ^ 30)) at 3 by lia; ring).
  rewrite Z.div_add by lia. lia.
Qed.

Lemma magnitude_spec x : I64_MIN < x <= I64_MAX -> magnitude x = Ok (x <? 0, Z.abs x).
Proof.
  intros Hx. unfold magnitude. case_if.
  - rewrite chk_i_ok by width_lia. rewrite bind_Ok. do 2 f_equal. lia.
  - do 2 f_equal. lia.
Qed.

Lemma time_to_counter_exact x z :
  I64_MIN < x <= I64_MAX -> 0 <= z <= 2 ^ 33 -> Z.abs x * z < 2 ^ 92 ->
  JSDRV_TIME_TO_COUNTER x z = Ok (Z.sgn x * to_counter_nearest (Z.abs x) z).
Proof.
  intros Hx Hz Hm. unfold JSDRV_TIME_TO_COUNTER. rewrite magnitude_spec, bind_Ok by done.
  set (X := Z.abs x) in *. assert (0 <= X) by lia.
  rewrite time_whole2, time_fract, Z.shiftl_mul_pow2 by lia.
  pose proof (Z.mod_pos_bound X (2 ^ 30) ltac:(lia)) as Hf.
  pose proof (Z.div_mod X (2 ^ 30) ltac:(lia)) as Hd.
  assert (0 <= X / 2 ^ 30) by (apply Z.div_pos; lia).
  assert (0 <= X mod 2 ^ 30 * 2 ^ 1 * z < 2 ^ 64) by (split; [lia | nia]).
  assert (0 <= X / 2 ^ 30 * 2 * z <= 2 ^ 63).
  { split; [lia|]. assert (X / 2 ^ 30 * z * 2 ^ 30 <= 2 ^ 92) by nia. lia. }
  assert (0 <= X mod 2 ^ 30 * 2 ^ 1 * z / 2 ^ 30 < 2 ^ 34).
  { split; [apply Z.div_pos; lia | apply Z.div_lt_upper_bound; lia]. }
  unfold JSDRV_TIME_Q. rewrite !Z.shiftr_div_pow2 by lia.
  rewrite (uwrap_small 64 (X mod _ * _ * z)) by done.
  rewrite (uwrap_small 64 (X / _ * 2 * z)) by width_lia.
  rewrite (uwrap_small 64 (_ / 2 ^ 30 + 1)) by width_lia.
  rewrite uwrap_small by width_lia.
  rewrite Z.add_assoc. change (2 ^ 1) with 2 in *. rewrite to_counter_split by done.
  assert (0 <= to_counter_nearest X z < 2 ^ 63) as Hr.
  { rewrite <- to_counter_split by done. split; [apply Z.div_pos; lia|]. apply Z.div_lt_upper_bound; lia. }
  change (2 ^ 63) with 9223372036854775808 in Hr.
  destruct (x <? 0) eqn:Hs; bool_facts.
  - rewrite (swrap_small 64 (to_counter_nearest X z)) by width_lia.
    rewrite chk_i_ok, !bind_Ok by width_lia. do 2 f_equal. rewrite Z.sgn_neg by lia.
    unfold uwrap, swrap. rewrite Zplus_mod_idemp_l. rewrite Z.mod_small by width_lia. lia.
  - rewrite bind_Ok, swrap_small by width_lia. do 2 f_equal.
    destruct (Z.eq_dec x 0) as [->|]; [reflexivity|]. rewrite Z.sgn_pos by lia. lia.
Qed.

Lemma counter_to_time_exact x z :
  is_u 64 x -> 0 < z <= 2 ^ 34 -> x * 2 ^ 30 / z < 2 ^ 63 ->
  JSDRV_COUNTER_TO_TIME x z = Ok (x * 2 ^ 30 / z).
Proof.
  intros Hx Hz Hm. unfold JSDRV_COUNTER_TO_TIME. rewrite (proj2 (Z.eqb_neq z 0)) by lia.
  unfold is_u in Hx. pose proof (Z.div_mod x z ltac:(lia)) as Hd.
  pose proof (Z.mod_pos_bound x z ltac:(lia)) as Hr.
  assert (0 <= x / z) by (apply Z.div_pos; lia).
  rewrite (uwrap_small 64 (x / z * z)) by (unfold is_u; lia).
  replace (x - x / z * z) with (x mod z) by lia. rewrite (uwrap_small 64 (x mod z)) by (unfold is_u; lia).
  unfold JSDRV_TIME_Q. rewrite !Z.shiftl_mul_pow2 by lia.
  rewrite (uwrap_small 64 (x mod z * 2 ^ 30)) by (unfold is_u; lia).
  assert (x * 2 ^ 30 / z = x / z * 2 ^ 30 + x mod z * 2 ^ 30 / z) as Heq.
  { rewrite Hd at 1. replace ((z * (x / z) + x mod z) * 2 ^ 30) with (x mod z * 2 ^ 30 + x / z * 2 ^ 30 * z) by ring.
    rewrite Z.div_add by lia. lia. }
  assert (0 <= x mod z * 2 ^ 30 / z) by (apply Z.div_pos; lia).
  rewrite (uwrap_small 64 (x / z * 2 ^ 30)) by (unfold is_u; lia).
  rewrite uwrap_small, swrap_small by (unfold is_u, is_s; lia). by rewrite Heq.
Qed.

Lemma counter_time_rounding x z t :
  0 < z <= 2 ^ 29 -> t = x * 2 ^ 30 / z -> to_counter_nearest t z = x.
Proof.
  intros Hz ->. unfold to_counter_nearest.
  pose proof (Z.div_mod (x * 2 ^ 30) z ltac:(lia)) as Hd.
  pose proof (Z.mod_pos_bound (x * 2 ^ 30) z ltac:(lia)) as Hr.
  set (q := x * 2 ^ 30 / z) in *. set (r := (x * 2 ^ 30) mod z) in *. clearbody q r.
  symmetry. apply Z.div_unique with (2 ^ 30 - 2 * r); lia.
Qed.

(** ** The Gregorian calendar *)

Definition leap (y : Z) : bool :=
  (y mod 4 =? 0) && (negb (y mod 100 =? 0) || (y mod 400 =? 0)).

Definition days_in_month (y m : Z) : Z :=
  if m =? 2 then (if leap y then 29 else 28)
  else if (m =? 4) || (m =? 6) || (m =? 9) || (m =? 11) then 30 else 31.

Definition next_day (date : Z * Z * Z) : Z * Z * Z :=
  let '(y, m, d) := date in
  if d <? days_in_month y m then (y, m, d + 1)
  else if m <? 12 then (y, m + 1, 1) else (y + 1, 1, 1).

(** *** The year of an era

    The code counts years from March.  [year_start] is the first day of a year of the 400-year
    era, [year_of] the code's formula for the year of a day. *)

Definition year_start (y : Z) : Z := 365 * y + y / 4 - y / 100 + y / 400.
Definition year_len (y : Z) : Z := year_start (y + 1) - year_start y.
Definition year_of (doe : Z) : Z := (doe - doe / 1460 + doe / 36524 - doe / 146096) / 365.

(** The formula at both ends of each year, and the length of the year that ends in February [y + 1]. *)
Definition year_check (y : Z) : bool :=
  (year_of (year_start y) =? y) && (year_of (year_start (y + 1) - 1) =? y)
  && (year_len y =? (if leap (y + 1) then 366 else 365)).
Lemma year_check_all : forallb (fun i => year_check (Z.of_nat i)) (seq 0 400) = true.
Proof. vm_compute. reflexivity. Qed.

Lemma year_check_at y : 0 <= y < 400 ->
  year_of (year_start y) = y /\ year_of (year_start (y + 1) - 1) = y /\ year_len y = if leap (y + 1) then 366 else 365.
Proof.
  intros Hy. pose proof year_check_all as Hc. rewrite forallb_forall in Hc.
  specialize (Hc (Z.to_nat y) ltac:(apply in_seq; lia)). cbn beta in Hc. rewrite Z2Nat.id in Hc by lia.
  unfold year_check in Hc. apply andb_true_iff in Hc as [Hc H3]. apply andb_true_iff in Hc as [H1 H2].
  by apply Z.eqb_eq in H1, H2, H3.
Qed.

Lemma year_of_mono a b : 0 <= a <= b -> b <= 146096 -> year_of a <= year_of b.
Proof.
  intros H1 H2. unfold year_of. apply Z.div_le_mono; [lia|]. destruct (Z.eq_dec a b) as [->|]; [lia|].
  assert (b / 1460 - a / 1460 <= b - a) by div_lia.
  assert (a / 36524 <= b / 36524) by (apply Z.div_le_mono; lia).
  rewrite (Z.div_small a 146096) by lia. destruct (Z.eq_dec b 146096) as [->|].
  - assert (a / 36524 < 4) by (apply Z.div_lt_upper_bound; lia). change (146096 / 36524) with 4 in *.
    change (146096 / 146096) with 1. lia.
  - rewrite (Z.div_small b 146096) by lia. lia.
Qed.

Lemma year_of_spec doe : 0 <= doe < 146097 ->
  0 <= year_of doe < 400 /\ year_start (year_of doe) <= doe < year_start (year_of doe + 1).
Proof.
  intros Hd. assert (0 <= year_of doe) as H0 by (apply (year_of_mono 0 doe); lia).
  assert (year_of doe <= 399) as H1 by (apply (year_of_mono doe 146096); lia). split; [lia|].
  destruct (year_check_at (year_of doe)) as (Hs & _ & _); [lia|].
  assert (forall y, 0 <= y <= 400 -> 0 <= year_start y <= 146097) as Hr by (intros y Hy; unfold year_start; div_lia).
  split.
  - destruct (Z.le_gt_cases (year_start (year_of doe)) doe) as [H|H]; [done|]. exfalso.
    destruct (Z.eq_dec (year_of doe) 0) as [E|E]; [rewrite E in H; change (year_start 0) with 0 in H; lia|].
    destruct (year_check_at (year_of doe - 1)) as (_ & He & _); [lia|].
    replace (year_of doe - 1 + 1) with (year_of doe) in He by lia.
    pose proof (Hr (year_of doe) ltac:(lia)).
    pose proof (year_of_mono doe (year_start (year_of doe) - 1) ltac:(lia) ltac:(lia)). lia.
  - destruct (Z.lt_ge_cases doe (year_start (year_of doe + 1))) as [H|H]; [done|]. exfalso.
    destruct (Z.eq_dec (year_of doe) 399) as [E|E]; [rewrite E in H; change (year_start (399 + 1)) with 146097 in H; lia|].
    destruct (year_check_at (year_of doe + 1)) as (Hs' & _); [lia|].
    pose proof (Hr (year_of doe + 1) ltac:(lia)).
    pose proof (year_of_mono (year_start (year_of doe + 1)) doe ltac:(lia) ltac:(lia)). lia.
Qed.

Lemma year_of_unique doe y : 0 <= y < 400 -> year_start y <= doe < year_start (y + 1) -> year_of doe = y.
Proof.
  intros Hy Hd. destruct (year_check_at y Hy) as (H1 & H2 & _).
  assert (0 <= year_start y /\ year_start (y + 1) <= 146097) as [? ?] by (unfold year_start; div_lia).
  pose proof (year_of_mono (year_start y) doe ltac:(lia) ltac:(lia)).
  pose proof (year_of_mono doe (year_start (y + 1) - 1) ltac:(lia) ltac:(lia)). lia.
Qed.

(** *** The month and day of a year *)

Definition month_day (doy : Z) : Z * Z :=
  let mp := (5 * doy + 2) / 153 in ((if mp <? 10 then mp + 3 else mp - 9), doy - (153 * mp + 2) / 5 + 1).

(** The successor in a year with or without a leap day: the year steps, the month, the day. *)
Definition dim (b : bool) (m : Z) : Z :=
  if m =? 2 then (if b then 29 else 28) else if (m =? 4) || (m =? 6) || (m =? 9) || (m =? 11) then 30 else 31.
Definition next_md (b : bool) (md : Z * Z) : Z * Z * Z :=
  let '(m, d) := md in
  if d <? dim b m then (0, m, d + 1) else if m <? 12 then (0, m + 1, 1) else (1, 1, 1).
Definition late (m : Z) : Z := if m <=? 2 then 1 else 0.

Definition md_check (b b' : bool) (doy : Z) : bool :=
  let '(m, d) := month_day doy in
  let '(y1, m1, d1) := next_md b' (m, d) in
  let '(m2, d2, e) := if doy + 1 <? (if b then 366 else 365) then (month_day (doy + 1), 0) else (3, 1, 1) in
  ((m <=? 2) && negb (Bool.eqb b b'))
  || ((m1 =? m2) && (d1 =? d2) && (late m + y1 =? late m2 + e) && (1 <=? m) && (m <=? 12) && (1 <=? d) && (d <=? 31)).
Definition md_checks (b b' : bool) : bool :=
  forallb (fun i => md_check b b' (Z.of_nat i)) (seq 0 (if b then 366 else 365)%nat).
Lemma md_check_all b b' : md_checks b b' = true.
Proof. destruct b, b'; vm_compute; reflexivity. Qed.

Lemma md_check_at (b b' : bool) doy m d : 0 <= doy < (if b then 366 else 365) -> month_day doy = (m, d) -> (m <= 2 -> b' = b) ->
  let '(y1, m1, d1) := next_md b' (m, d) in
  let '(m2, d2, e) := if doy + 1 <? (if b then 366 else 365) then (month_day (doy + 1), 0) else (3, 1, 1) in
  (m1 = m2 /\ d1 = d2 /\ late m + y1 = late m2 + e) /\ 1 <= m <= 12 /\ 1 <= d <= 31.
Proof.
  intros Hd Hmd Hb. pose proof (md_check_all b b') as Hc. unfold md_checks in Hc. rewrite forallb_forall in Hc.
  specialize (Hc (Z.to_nat doy) ltac:(apply in_seq; destruct b; lia)). cbn beta in Hc. rewrite Z2Nat.id in Hc by lia.
  unfold md_check in Hc. rewrite Hmd in Hc. destruct (next_md b' (m, d)) as [[y1 m1] d1].
  destruct (if doy + 1 <? (if b then 366 else 365) then (month_day (doy + 1), 0) else (3, 1, 1)) as [[m2 d2] e].
  apply orb_true_iff in Hc as [Hc|Hc]; apply andb_true_iff in Hc as [H1 H2].
  - apply Z.leb_le in H1. rewrite Hb in H2 by done. by destruct b.
  - bool_facts. lia.
Qed.

Lemma next_day_md y m d : next_day (y, m, d) = let '(y1, m1, d1) := next_md (leap y) (m, d) in (y + y1, m1, d1).
Proof.
  unfold next_day, next_md. change (days_in_month y m) with (dim (leap y) m).
  destruct (d <? dim (leap y) m); [by rewrite Z.add_0_r|]. destruct (m <? 12); [by rewrite Z.add_0_r | done].
Qed.

Lemma leap_era y e : leap (y + 400 * e) = leap y.
Proof.
  unfold leap. replace (y + 400 * e) with (y + (100 * e) * 4) at 1 by ring.
  replace (y + 400 * e) with (y + (4 * e) * 100) at 1 by ring. replace (y + 400 * e) with (y + e * 400) at 1 by ring.
  by rewrite !Z.mod_add by lia.
Qed.

(** *** The code *)

(** The date of day [doy] of year [y], both counted from March. *)
Definition date_of (y doy : Z) : Z * Z * Z := let '(m, d) := month_day doy in (y + late m, m, d).

Lemma days_to_civil_date days : 0 <= days < 2 ^ 31 ->
  let n := days + 737000 in
  let y := year_of (n mod 146097) in
  days_to_civil days = date_of (y + 400 * (n / 146097)) (n mod 146097 - year_start y).
Proof.
  intros Hd n y. unfold days_to_civil. change (719468 + 17532) with 737000. fold n.
  assert (0 <= n < 2 ^ 32 - 1) as Hn by (unfold n; lia). unfold y. clearbody n. clear y.
  rewrite (uwrap_small 32 n) by width_lia.
  assert (0 <= n / 146097 <= 29399) as He by div_lia.
  assert (0 <= n mod 146097 < 146097) as Hm by (apply Z.mod_pos_bound; lia).
  rewrite (uwrap_small 32 (n / 146097 * 146097)) by div_lia.
  replace (n - n / 146097 * 146097) with (n mod 146097) by (rewrite Z.mod_eq by lia; lia).
  set (era := n / 146097) in *. set (doe := n mod 146097) in *. clearbody era doe.
  rewrite (uwrap_small 32 doe) by width_lia.
  assert (0 <= doe / 1460 <= 100 /\ 0 <= doe / 36524 <= 4 /\ 0 <= doe / 146096 <= 1
    /\ doe / 1460 <= doe /\ doe / 146096 <= doe - doe / 1460) as (D1 & D2 & D3 & D4 & D5) by div_lia.
  rewrite (uwrap_small 32 (doe - doe / 1460)), (uwrap_small 32 (_ + doe / 36524)), (uwrap_small 32 (_ - doe / 146096))
    by width_lia.
  fold (year_of doe). destruct (year_of_spec doe Hm) as [Hy Hs].
  assert (year_len (year_of doe) <= 366) as Hl
    by (rewrite (proj2 (proj2 (year_check_at _ Hy))); destruct (leap _); lia).
  unfold year_len in Hl. set (y := year_of doe) in *. clearbody y. clear D1 D2 D3 D4 D5.
  assert (0 <= y / 4 <= 99 /\ 0 <= y / 100 <= 3 /\ y / 100 <= 365 * y + y / 4) as (Y1 & Y2 & Y3) by div_lia.
  rewrite (uwrap_small 32 (era * 400)), (uwrap_small 32 (y + era * 400)), (uwrap_small 32 (365 * y)),
    (uwrap_small 32 (365 * y + y / 4)), (uwrap_small 32 (365 * y + y / 4 - y / 100)) by width_lia.
  replace (365 * y + y / 4 - y / 100) with (year_start y) by (unfold year_start; rewrite (Z.div_small y 400); lia).
  rewrite (uwrap_small 32 (doe - year_start y)) by width_lia.
  assert (0 <= doe - year_start y <= 365) as Hdoy by lia.
  set (doy := doe - year_start y) in *. clearbody doy. clear Hs Hl Hm Hn.
  unfold date_of, month_day. rewrite (uwrap_small 32 (5 * doy)), (uwrap_small 32 (5 * doy + 2)) by width_lia.
  assert (0 <= (5 * doy + 2) / 153 <= 11 /\ (153 * ((5 * doy + 2) / 153) + 2) / 5 <= doy) as [M1 M2] by div_lia.
  set (mp := (5 * doy + 2) / 153) in *. clearbody mp.
  rewrite (uwrap_small 32 (153 * mp)), (uwrap_small 32 (153 * mp + 2)) by width_lia.
  assert (0 <= (153 * mp + 2) / 5) by (apply Z.div_pos; lia).
  rewrite (uwrap_small 32 (doy - _)), (uwrap_small 32 (doy - _ + 1)) by width_lia.
  assert (u32 (mp + (if mp <? 10 then 3 else u32 (-9))) = if mp <? 10 then mp + 3 else mp - 9) as ->.
  { destruct (Z.ltb_spec mp 10); [by rewrite uwrap_small by width_lia|].
    change (u32 (-9)) with (2 ^ 32 - 9). unfold uwrap. div_lia. }
  unfold late. f_equal. f_equal. rewrite uwrap_small; [lia|]. case_if; width_lia.
Qed.

(** The day after a date counted from March. *)
Lemma date_of_succ y doy : 0 <= y < 400 -> 0 <= doy < year_len y -> forall e,
  next_day (date_of (y + 400 * e) doy)
  = (if doy + 1 <? year_len y then date_of (y + 400 * e) (doy + 1) else date_of (y + 1 + 400 * e) 0)
  /\ (exists m d, date_of (y + 400 * e) doy = (y + 400 * e + late m, m, d) /\ 1 <= m <= 12 /\ 1 <= d <= 31).
Proof.
  intros Hy Hd e. destruct (year_check_at y Hy) as (_ & _ & Hl). rewrite Hl in *.
  unfold date_of. destruct (month_day doy) as [m d] eqn:Hmd.
  pose proof (md_check_at (leap (y + 1)) (leap (y + 400 * e + late m)) doy m d Hd Hmd) as H.
  assert (m <= 2 -> leap (y + 400 * e + late m) = leap (y + 1)) as Hm.
  { intros Hm. unfold late. rewrite (proj2 (Z.leb_le _ _) Hm).
    replace (y + 400 * e + 1) with (y + 1 + 400 * e) by ring. apply leap_era. }
  specialize (H Hm). rewrite next_day_md. destruct (next_md _ (m, d)) as [[y1 m1] d1].
  destruct (doy + 1 <? (if leap (y + 1) then 366 else 365)).
  - destruct (month_day (doy + 1)) as [m2 d2]. destruct H as ((-> & -> & H) & Hr). split; [|by eauto].
    do 2 f_equal. lia.
  - destruct H as ((-> & -> & H) & Hr). split; [|by eauto]. change (month_day 0) with (3, 1).
    cbv beta iota. change (late 3) with 0 in *. do 2 f_equal. lia.
Qed.

Definition DAYS_MAX : Z := 99421.

Definition date_prints (date : Z * Z * Z) : Prop :=
  let '(y, m, d) := date in 0 <= y < 10 ^ 4 /\ 0 <= m < 10 ^ 2 /\ 0 <= d < 10 ^ 2.

Lemma days_to_civil_succ days : 0 <= days < DAYS_MAX ->
  days_to_civil (days + 1) = next_day (days_to_civil days) /\ date_prints (days_to_civil days).
Proof.
  unfold DAYS_MAX. intros Hd. rewrite !days_to_civil_date by lia.
  replace (days + 1 + 737000) with (days + 737000 + 1) by ring. cbv zeta.
  assert (737000 <= days + 737000 < 836421) as Hn by lia. set (n := days + 737000) in *. clearbody n.
  assert (5 <= n / 146097 <= 5) as He by div_lia.
  assert (0 <= n mod 146097 < 146097) as Hm by (apply Z.mod_pos_bound; lia).
  destruct (year_of_spec (n mod 146097) Hm) as [Hy Hs]. set (y := year_of (n mod 146097)) in *.
  destruct (date_of_succ y (n mod 146097 - year_start y) Hy ltac:(unfold year_len; lia) (n / 146097))
    as (-> & m & d & -> & Hmr & Hdr).
  split; [|unfold date_prints, late; case_match; lia].
  assert ((n + 1) / 146097 = n / 146097 /\ (n + 1) mod 146097 = n mod 146097 + 1) as [-> ->] by div_lia.
  unfold year_len. destruct (Z.ltb_spec (n mod 146097 - year_start y + 1) (year_start (y + 1) - year_start y)).
  - rewrite (year_of_unique (n mod 146097 + 1) y) by lia. f_equal. lia.
  - assert (n mod 146097 + 1 = year_start (y + 1)) as E by lia.
    assert (y + 1 < 400) as Hy1 by (unfold y, year_of in *; div_lia).
    rewrite (year_of_unique (n mod 146097 + 1) (y + 1)); [f_equal; lia | lia |].
    destruct (year_check_at (y + 1) ltac:(lia)) as (_ & _ & Hl). unfold year_len in Hl. destruct (leap (y + 1 + 1)); lia.
Qed.

Lemma days_to_civil_calendar days : 0 <= days < DAYS_MAX ->
  days_to_civil days = Nat.iter (Z.to_nat days) next_day (2018, 1, 1) /\ date_prints (days_to_civil days).
Proof.
  intros Hd. split; [|by apply days_to_civil_succ]. rewrite <- (Z2Nat.id days) in Hd |- * at 1 by lia.
  induction (Z.to_nat days) as [|k IH]; [reflexivity|].
  rewrite Nat2Z.inj_succ, <- Z.add_1_r in *. rewrite (proj1 (days_to_civil_succ (Z.of_nat k) ltac:(lia))), IH by lia.
  done.
Qed.

(** *** Printing *)

Lemma dec_digits_len n : forall fuel v acc,
  0 <= v < 10 ^ Z.of_nat n -> (0 < n <= fuel)%nat ->
  (length (dec_digits fuel v acc) <= n + length acc)%nat.
Proof.
  induction n as [|n IH]; intros fuel v acc Hv Hf; [lia|]. destruct fuel as [|fuel]; [lia|].
  cbn [dec_digits]. case_if; [cbn; lia|].
  rewrite Nat2Z.inj_succ, Z.pow_succ_r in Hv by lia.
  destruct n as [|n]; [cbn in Hv; lia|].
  etransitivity; [apply IH|]; [|lia|cbn [List.length]; lia].
  split; [apply Z.div_pos; lia | apply Z.div_lt_upper_bound; lia].
Qed.

Lemma dec_digits_wf fuel : forall v acc, wf_cstr acc -> 0 <= v -> wf_cstr (dec_digits fuel v acc).
Proof.
  induction fuel as [|fuel IH]; intros v acc Ha Hv; cbn [dec_digits]; [done|].
  pose proof (Z.mod_pos_bound v 10 ltac:(lia)).
  assert (wf_cstr ((48 + v mod 10) :: acc)) by (constructor; [lia | done]).
  case_if; [done|]. apply IH; [done|]. apply Z.div_pos; lia.
Qed.

Lemma fmt_u0_spec w v :
  (0 < w <= 10)%nat -> 0 <= v < 10 ^ Z.of_nat w -> length (fmt_u0 w v) = w /\ wf_cstr (fmt_u0 w v).
Proof.
  intros Hw Hv. unfold fmt_u0. pose proof (dec_digits_len w 10 v [] Hv Hw) as Hl. cbn [List.length] in Hl.
  split; [rewrite length_app, length_replicate; lia|].
  apply Forall_app; split; [by apply Forall_replicate | apply dec_digits_wf; [constructor | lia]].
Qed.

Definition fields_print (f : time_fields) : Prop :=
  date_prints (fY f, fM f, fD f) /\ 0 <= fh f < 24 /\ 0 <= fm f < 60 /\ 0 <= fs f < 60
  /\ 0 <= fus f < 1000000.

Lemma time_text_spec f : fields_print f -> length (time_text f) = 26%nat /\ wf_cstr (time_text f).
Proof.
  intros ((HY & HM & HD) & Hh & Hm & Hs & Hus). unfold time_text.
  destruct (fmt_u0_spec 4 (fY f)) as [L1 W1]; [lia | cbn in *; lia |].
  destruct (fmt_u0_spec 2 (fM f)) as [L2 W2]; [lia | cbn in *; lia |].
  destruct (fmt_u0_spec 2 (fD f)) as [L3 W3]; [lia | cbn in *; lia |].
  destruct (fmt_u0_spec 2 (fh f)) as [L4 W4]; [lia | cbn in *; lia |].
  destruct (fmt_u0_spec 2 (fm f)) as [L5 W5]; [lia | cbn in *; lia |].
  destruct (fmt_u0_spec 2 (fs f)) as [L6 W6]; [lia | cbn in *; lia |].
  destruct (fmt_u0_spec 6 (fus f)) as [L7 W7]; [lia | cbn in *; lia |].
  split.
  - repeat (rewrite length_app; cbn [List.length]). lia.
  - unfold wf_cstr in *. repeat first [rewrite Forall_app | rewrite Forall_cons].
    split_and!; done || lia.
Qed.

(** The microseconds a set of fields stands for, with its date as a day count. *)
Definition fields_us (days : Z) (f : time_fields) : Z :=
  (((days * 24 + fh f) * 60 + fm f) * 60 + fs f) * 1000000 + fus f.

Lemma time_to_fields_spec t :
  0 <= t <= I64_MAX ->
  exists f days, time_to_fields t = Ok f /\ 0 <= days < DAYS_MAX
    /\ (fY f, fM f, fD f) = Nat.iter (Z.to_nat days) next_day (2018, 1, 1)
    /\ fields_print f /\ fields_us days f = to_counter_nearest t 1000000.
Proof.
  intros Ht. unfold time_to_fields.
  rewrite time_to_counter_exact, bind_Ok; [| lia | lia | lia].
  rewrite (Z.abs_eq t) by lia.
  replace (Z.sgn t * to_counter_nearest t 1000000) with (to_counter_nearest t 1000000)
    by (destruct (Z.eq_dec t 0) as [->|]; [reflexivity | rewrite Z.sgn_pos; lia]).
  assert (0 <= to_counter_nearest t 1000000 <= 2 ^ 33 * 1000000) as Hus.
  { unfold to_counter_nearest. split; [apply Z.div_pos; lia|].
    apply Z.lt_succ_r, Z.div_lt_upper_bound; lia. }
  set (us := to_counter_nearest t 1000000) in *. clearbody us.
  rewrite (Z.quot_div_nonneg us) by lia. assert (0 <= us / 1000000) by (apply Z.div_pos; lia).
  rewrite Z.quot_div_nonneg, Z.rem_mod_nonneg by lia.
  set (sec := us / 1000000). assert (0 <= sec <= 2 ^ 33) as Hsec by (unfold sec; div_lia).
  assert (us - sec * 1000000 = us mod 1000000) as Hmod by (unfold sec; div_lia).
  change (60 * 60 * 24) with 86400. change (60 * 60) with 3600.
  set (days := sec / 86400). assert (0 <= days < DAYS_MAX) as Hdays by (unfold days, DAYS_MAX; div_lia).
  rewrite (uwrap_small 32 days) by (unfold DAYS_MAX in *; width_lia).
  destruct (days_to_civil_calendar days Hdays) as [Hcal Hpr].
  destruct (days_to_civil days) as [[y m] d].
  eexists _, days. split; [done|]. unfold fields_print, fields_us.
  cbn [fY fM fD fh fm fs fus]. rewrite Hmod.
  rewrite (uwrap_small 32 (us mod 1000000)) by div_lia.
  assert (0 <= sec mod 86400 < 86400) as Hss by (apply Z.mod_pos_bound; lia).
  rewrite (uwrap_small 32 (sec mod 86400)) by width_lia.
  set (ss := sec mod 86400) in *.
  assert (sec = days * 86400 + ss) as Hs by (unfold ss, days; div_lia).
  assert (us = sec * 1000000 + us mod 1000000) as Hu by (unfold sec; div_lia).
  assert (0 <= us mod 1000000 < 1000000) as Hum by (apply Z.mod_pos_bound; lia).
  clearbody ss days sec. set (um := us mod 1000000) in *. clearbody um.
  rewrite (uwrap_small 32 (ss / 3600 * 3600)) by div_lia.
  rewrite (uwrap_small 32 (ss - _)) by div_lia.
  set (r := ss - ss / 3600 * 3600). assert (0 <= r < 3600) by (unfold r; div_lia).
  assert (ss = ss / 3600 * 3600 + r) by (unfold r; lia). assert (0 <= ss / 3600 < 24) by div_lia.
  clearbody r. set (hh := ss / 3600) in *. clearbody hh.
  rewrite (uwrap_small 32 (r / 60 * 60)) by div_lia. rewrite (uwrap_small 32 (r - _)) by div_lia.
  assert (0 <= r / 60 < 60) by div_lia. assert (0 <= r - r / 60 * 60 < 60) by div_lia.
  split_and!; try done; lia.
Qed.

(** ** Properties *)



(** The conversion that is to round towards infinity adds almost one second instead
    of almost one count: time zero converts to [z - 1] counts. *)
Lemma time_to_counter_rinf_zero z :
  1 <= z <= 2 ^ 30 -> JSDRV_TIME_TO_COUNTER_RINF 0 z = Ok (z - 1).
Proof.
  intros Hz. unfold JSDRV_TIME_TO_COUNTER_RINF. change (magnitude 0) with (@Ok (bool * Z) (false, 0)).
  rewrite bind_Ok, chk_i_ok, bind_Ok by (by vm_compute).
  rewrite time_fract. change ((0 + (JSDRV_TIME_SECOND - 1)) mod 2 ^ 30) with (2 ^ 30 - 1).
  change (Z.shiftr (0 + (JSDRV_TIME_SECOND - 1)) JSDRV_TIME_Q) with 0. rewrite Z.mul_0_l.
  rewrite (uwrap_small 64 ((2 ^ 30 - 1) * z)) by width_lia. unfold JSDRV_TIME_Q.
  rewrite Z.shiftr_div_pow2 by lia. rewrite (uwrap_small 64 0) by width_lia. rewrite Z.add_0_l.
  assert ((2 ^ 30 - 1) * z / 2 ^ 30 = z - 1) as -> by (symmetry; apply Z.div_unique with (2 ^ 30 - z); lia).
  unfold signed_result. by rewrite uwrap_small, swrap_small by width_lia.
Qed.

Lemma time_to_counter_rinf_zero_witness : JSDRV_TIME_TO_COUNTER_RINF 0 1000 = Ok 999.
Proof. apply (time_to_counter_rinf_zero 1000). lia. Defined.

(** For every non-negative time and a buffer of at least 27 bytes, the string
    written is 26 characters long and terminated inside the buffer, and shows the date
    that the Gregorian calendar gives for the number of days since 2018-01-01, and a time
    of day, that together are exactly the time rounded to microseconds. *)
Lemma jsdrv_time_to_str_calendar t buf size :
  0 <= t <= I64_MAX -> JSDRV_TIME_STRING_LENGTH <= size <= len buf ->
  exists buf' f days,
    jsdrv_time_to_str t buf size = Ok (buf', JSDRV_TIME_STRING_LENGTH - 1)
    /\ cstr_at buf' = Some (time_text f) /\ len (time_text f) = 26 /\ len buf' = len buf
    /\ (fY f, fM f, fD f) = Nat.iter (Z.to_nat days) next_day (2018, 1, 1)
    /\ fields_print f /\ fields_us days f = to_counter_nearest t 1000000.
Proof.
  intros Ht Hs. unfold JSDRV_TIME_STRING_LENGTH in *.
  destruct (time_to_fields_spec t Ht) as (f & days & Hf & _ & Hdate & Hpr & Hus).
  destruct (time_text_spec f Hpr) as [Hl Hw]. unfold jsdrv_time_to_str, JSDRV_TIME_STRING_LENGTH.
  rewrite (proj2 (Z.eqb_neq size 0)), (proj2 (Z.leb_le 27 size)), Hf, bind_Ok by lia.
  rewrite take_ge by lia.
  pose proof (store_all_spec (time_text f) [] buf 0 eq_refl) as Hst. cbn [app] in Hst.
  rewrite Hst, bind_Ok by (unfold len in *; lia).
  eexists _, f, days. split_and!; try done; try apply Hpr.
  - by apply cstr_at_app.
  - unfold len. by rewrite Hl.
  - rewrite len_app, len_cons. unfold len in *. rewrite length_drop. lia.
Qed.

Lemma jsdrv_time_to_str_calendar_witness :
  exists buf' f days,
    jsdrv_time_to_str (123456789 * 2 ^ 30 + 2 ^ 29) (replicate 32 88) 32 = Ok (buf', 26)
    /\ cstr_at buf' = Some (time_text f) /\ len (time_text f) = 26 /\ len buf' = 32
    /\ (fY f, fM f, fD f) = Nat.iter (Z.to_nat days) next_day (2018, 1, 1)
    /\ fields_print f /\ fields_us days f = 123456789500000.
Proof.
  apply (jsdrv_time_to_str_calendar (123456789 * 2 ^ 30 + 2 ^ 29) (replicate 32 88) 32);
    [lia | by vm_compute].
Defined.

(** Before 2018 the unsigned casts of negative quantities show. *)
Example time_to_fields_negative :
  (f ← time_to_fields (-1 * 2 ^ 30); Ok (fY f, fh f, fs f)) = Ok (2018, 1193046, 15).
Proof. reflexivity. Qed.
