(* ===== verification/Tmap.v ===== *)
(** * Time maps (include/jsdrv/tmap.h, src/tmap.c)

    A ring of [jsdrv_time_map_s] entries whose allocation is a power of two.
    [size_t] is 64 bits wide.  [tmap_abs] is the list of entries, oldest first;
    the operations refine the list operations of [TmapSpec].  A NULL instance is
    [None].  Memory that [realloc] adds holds the arbitrary entry [fresh]. *)

From S2P Require Import Prelude Float ErrorCode Time.

Definition ENTRIES_ALLOC_INIT : Z := Z.shiftl 1 7.

Record jsdrv_tmap_s := mk_tmap {
  alloc_size : Z;
  head : Z;
  tail : Z;
  entry : list jsdrv_time_map_s;
}.

Definition ptr_incr (ptr size : Z) : Z := Z.land (u64 (ptr + 1)) (u64 (size - 1)).
Definition ptr_decr (ptr size : Z) : Z := Z.land (u64 (ptr - 1)) (u64 (size - 1)).

Definition tmap_size (self : option jsdrv_tmap_s) : Z :=
  match self with
  | None => 0
  | Some s =>
      if (alloc_size s <? head s) || (alloc_size s <=? tail s) then 0
      else if tail s <=? head s then head s - tail s
      else alloc_size s - tail s + head s
  end.

Definition jsdrv_tmap_length (self : option jsdrv_tmap_s) : Z := tmap_size self.

Definition round_size_to_power_of_2 (sz : Z) : Z :=
  if sz <=? 0 then 1
  else
    let sz := sz - 1 in
    let sz := Z.lor sz (Z.shiftr sz 1) in
    let sz := Z.lor sz (Z.shiftr sz 2) in
    let sz := Z.lor sz (Z.shiftr sz 4) in
    let sz := Z.lor sz (Z.shiftr sz 8) in
    let sz := Z.lor sz (Z.shiftr sz 16) in
    let sz := Z.lor sz (Z.shiftr sz 32) in
    u64 (sz + 1).

Definition jsdrv_tmap_alloc (initial_size : Z) : jsdrv_tmap_s :=
  let initial_size := if initial_size =? 0 then ENTRIES_ALLOC_INIT else initial_size in
  let initial_size := round_size_to_power_of_2 initial_size in
  mk_tmap initial_size 0 0 (replicate (Z.to_nat initial_size) time_map_zero).

Definition jsdrv_tmap_copy (src : option jsdrv_tmap_s) : res (option jsdrv_tmap_s) :=
  match src with
  | None => Ok None
  | Some s =>
      if (alloc_size s <? head s) || (alloc_size s <=? tail s) then Ok None
      else
        let sz := tmap_size src in
        let self := jsdrv_tmap_alloc sz in
        if sz =? 0 then Ok (Some self)
        else
          e ← (if tail s <? head s then mem_copy (entry self) 0 (entry s) (tail s) sz
               else
                 let head_count := alloc_size s - tail s in
                 e ← mem_copy (entry self) 0 (entry s) (tail s) head_count;
                 mem_copy e head_count (entry s) 0 (head s));
          Ok (Some (mk_tmap (alloc_size self) sz 0 e))
  end.

Definition jsdrv_tmap_clear (self : option jsdrv_tmap_s) : option jsdrv_tmap_s :=
  match self with
  | None => None
  | Some s => Some (mk_tmap (alloc_size s) 0 0 (entry s))
  end.

Definition tm_dup (a b : jsdrv_time_map_s) : bool :=
  (offset_time a =? offset_time b) && (offset_counter a =? offset_counter b)
  && SFeqb (counter_rate a) (counter_rate b).

Section Add.
Variable fresh : jsdrv_time_map_s.

(** [for (i = 0; i < head; ++i) entry[i + alloc_size] = entry[i]] *)
Fixpoint unwrap_loop (n : nat) (i : Z) (e : list jsdrv_time_map_s) (alloc : Z)
  : res (list jsdrv_time_map_s) :=
  match n with
  | O => Ok e
  | S n' => v ← ld e i; e ← st e (i + alloc) v; unwrap_loop n' (i + 1) e alloc
  end.

(** The reallocation to twice the size. *)
Definition tmap_grow (s : jsdrv_tmap_s) : res jsdrv_tmap_s :=
  let alloc := u64 (alloc_size s * 2) in
  let e := entry s ++ replicate (Z.to_nat (alloc - alloc_size s)) fresh in
  if head s <? tail s then
    e ← unwrap_loop (Z.to_nat (head s)) 0 e (alloc_size s);
    Ok (mk_tmap alloc (u64 (head s + alloc_size s)) (tail s) e)
  else Ok (mk_tmap alloc (head s) (tail s) e).

(** [self->entry[head] = *time_map] and the head increment. *)
Definition tmap_push (s : jsdrv_tmap_s) (tm : jsdrv_time_map_s) : res jsdrv_tmap_s :=
  e ← st (entry s) (head s) tm;
  Ok (mk_tmap (alloc_size s) (ptr_incr (head s) (alloc_size s)) (tail s) e).

Definition tmap_add (s : jsdrv_tmap_s) (tm : jsdrv_time_map_s) : res jsdrv_tmap_s :=
  let sz := tmap_size (Some s) in
  if SFleb (counter_rate tm) (S754_zero false) then Ok s
  else
    dup ← (if sz =? 0 then Ok false
           else e ← ld (entry s) (ptr_decr (head s) (alloc_size s)); Ok (tm_dup tm e));
    if dup : bool then Ok s
    else if alloc_size s <=? sz + 1 then s ← tmap_grow s; tmap_push s tm
    else if sz =? 0 then tmap_push s tm
    else
      e ← ld (entry s) (ptr_decr (head s) (alloc_size s));
      if offset_time tm <? offset_time e
      then _ ← chk_i 64 (offset_time e - offset_time tm); Ok s  (* dt, for the log *)
      else tmap_push s tm.

Definition jsdrv_tmap_add (self : option jsdrv_tmap_s) (time_map : option jsdrv_time_map_s)
  : res (option jsdrv_tmap_s) :=
  match self, time_map with
  | Some s, Some tm => s ← tmap_add s tm; Ok (Some s)
  | _, _ => Ok self
  end.
End Add.

(** The [while (1)] of the expiration, with [fuel] rounds. *)
Fixpoint expire_loop (fuel : nat) (s : jsdrv_tmap_s) (sample_id t : Z) : res Z :=
  match fuel with
  | O => Fault OutOfFuel
  | S fuel' =>
      let t_next := ptr_incr t (alloc_size s) in
      if t_next =? head s then Ok t
      else
        e ← ld (entry s) t;
        if sample_id <? offset_counter e then Ok t
        else
          e' ← ld (entry s) t_next;
          if (offset_counter e <? sample_id) && (sample_id <? offset_counter e') then Ok t
          else expire_loop fuel' s sample_id t_next
  end.

Definition jsdrv_tmap_expire_by_sample_id (fuel : nat) (self : option jsdrv_tmap_s) (sample_id : Z)
  : res (option jsdrv_tmap_s) :=
  match self with
  | None => Ok None
  | Some s =>
      if head s =? tail s then Ok self
      else
        t ← expire_loop fuel s sample_id (tail s);
        Ok (Some (mk_tmap (alloc_size s) (head s) t (entry s)))
  end.

(** The searches share their code up to the key compared: [offset_counter] or
    [offset_time]. *)
Section Find.
Variable key : jsdrv_time_map_s -> Z.

(** The bounded [for] loop; [None] when [sz] rounds were not enough. *)
Fixpoint find_loop (iter : nat) (s : jsdrv_tmap_s) (x idx : Z) : res (option jsdrv_time_map_s) :=
  match iter with
  | O => Ok None
  | S iter' =>
      e ← ld (entry s) idx;
      if x <? key e then find_loop iter' s x (ptr_decr idx (alloc_size s))
      else
        let idx_next := ptr_incr idx (alloc_size s) in
        e' ← ld (entry s) idx_next;
        if key e' <=? x then find_loop iter' s x idx_next else Ok (Some e)
  end.

(** The first guess: [k = (size_t) ((double) sz * (dx / dspan))], limited to the ring. *)
Definition find_start (s : jsdrv_tmap_s) (sz dx dspan : Z) : res Z :=
  let offset := f64_div (f64_of_Z dx) (f64_of_Z dspan) in
  k ← f_to_u64 (f64_mul (f64_of_Z sz) offset);
  let k := if sz <=? k then sz - 1 else k in
  if alloc_size s =? 0 then Fault DivByZero else Ok (u64 (tail s + k) mod alloc_size s).

(** [sub] is the subtraction at the key's type. *)
Definition find_entry (sub : Z -> Z -> res Z) (s : jsdrv_tmap_s) (x : Z) : res jsdrv_time_map_s :=
  e_start ← ld (entry s) (tail s);
  e_end ← ld (entry s) (ptr_decr (head s) (alloc_size s));
  if x <=? key e_start then Ok e_start
  else if key e_end <=? x then Ok e_end
  else
    let sz := tmap_size (Some s) in
    dx ← sub x (key e_start);
    dspan ← sub (key e_end) (key e_start);
    idx ← find_start s sz dx dspan;
    r ← find_loop (Z.to_nat sz) s x idx;
    Ok (default e_end r).
End Find.

Definition find_entry_by_sample_id (s : jsdrv_tmap_s) (sample_id : Z) : res jsdrv_time_map_s :=
  find_entry offset_counter (fun a b => Ok (u64 (a - b))) s sample_id.
Definition find_entry_by_timestamp (s : jsdrv_tmap_s) (timestamp : Z) : res jsdrv_time_map_s :=
  find_entry offset_time (fun a b => chk_i 64 (a - b)) s timestamp.

Definition entry_to_timestamp (e : jsdrv_time_map_s) (sample_id : Z) : res Z :=
  let dsample := f64_of_Z (i64 (u64 (sample_id - offset_counter e))) in
  let dt := f64_div dsample (counter_rate e) in
  let dt := f64_mul dt (f64_of_Z JSDRV_TIME_SECOND) in
  d ← f_to_i64 dt;
  chk_i 64 (offset_time e + d).

Definition entry_to_sample_id (e : jsdrv_time_map_s) (timestamp : Z) : res Z :=
  d ← chk_i 64 (timestamp - offset_time e);
  let dt := f64_of_Z d in
  let dt := f64_mul dt (f64_div (f64_of_Z 1) (f64_of_Z JSDRV_TIME_SECOND)) in
  k ← f_to_i64 (f64_mul dt (counter_rate e));
  n ← chk_i 64 (i64 (offset_counter e) + k);
  Ok (u64 n).

(** The results: return code and output value. *)
Definition jsdrv_tmap_sample_id_to_timestamp (self : option jsdrv_tmap_s) (sample_id : Z)
  : res (Z * Z) :=
  match self with
  | Some s =>
      if tmap_size self =? 0 then Ok (ec_code UNAVAILABLE, 0)
      else e ← find_entry_by_sample_id s sample_id; t ← entry_to_timestamp e sample_id; Ok (0, t)
  | None => Ok (ec_code UNAVAILABLE, 0)
  end.

Definition jsdrv_tmap_timestamp_to_sample_id (self : option jsdrv_tmap_s) (timestamp : Z)
  : res (Z * Z) :=
  match self with
  | Some s =>
      if tmap_size self =? 0 then Ok (ec_code UNAVAILABLE, 0)
      else e ← find_entry_by_timestamp s timestamp; n ← entry_to_sample_id e timestamp; Ok (0, n)
  | None => Ok (ec_code UNAVAILABLE, 0)
  end.

Definition jsdrv_tmap_get (self : option jsdrv_tmap_s) (index : Z) (time_map : jsdrv_time_map_s)
  : res (Z * jsdrv_time_map_s) :=
  match self with
  | None => Ok (ec_code UNAVAILABLE, time_map)
  | Some s =>
      if tmap_size self <=? index then Ok (ec_code UNAVAILABLE, time_map)
      else
        let idx := Z.land (u64 (tail s + index)) (u64 (alloc_size s - 1)) in
        e ← ld (entry s) idx; Ok (0, e)
  end.

(** ** The invariant and the abstraction *)

Definition wf_tmap (s : jsdrv_tmap_s) : Prop :=
  (exists k, 0 <= k < 63 /\ alloc_size s = 2 ^ k) /\ len (entry s) = alloc_size s
  /\ 0 <= tail s < alloc_size s /\ 0 <= head s <= alloc_size s
  /\ (head s = alloc_size s -> tail s = 0).

(** A copy of a full power-of-two number of entries has [head = alloc_size]; every
    other instance is a proper ring. *)
Definition wf_ring (s : jsdrv_tmap_s) : Prop := wf_tmap s /\ head s < alloc_size s.

(** The position of the [i]-th oldest entry. *)
Definition ring_idx (s : jsdrv_tmap_s) (i : Z) : Z := (tail s + i) mod alloc_size s.

Definition tmap_abs (s : jsdrv_tmap_s) : list jsdrv_time_map_s :=
  (fun i => entry s !!! Z.to_nat (ring_idx s (Z.of_nat i)))
    <$> seq 0 (Z.to_nat (tmap_size (Some s))).

Module TmapSpec.
(** The list operations that the ring implements.  [grow] is the one piece of
    representation that shows through: the monotonicity test of [add] is skipped
    when the ring has to be reallocated. *)
Definition accepts (grow : bool) (l : list jsdrv_time_map_s) (tm : jsdrv_time_map_s) : bool :=
  negb (SFleb (counter_rate tm) (S754_zero false))
  && match last l with
     | None => true
     | Some e => negb (tm_dup tm e) && (grow || (offset_time e <=? offset_time tm))
     end.
Definition add (grow : bool) (l : list jsdrv_time_map_s) (tm : jsdrv_time_map_s)
  : list jsdrv_time_map_s := if accepts grow l tm then l ++ [tm] else l.

Fixpoint expire (sample_id : Z) (l : list jsdrv_time_map_s) : list jsdrv_time_map_s :=
  match l with
  | e :: ((e' :: _) as l') =>
      if sample_id <? offset_counter e then l
      else if (offset_counter e <? sample_id) && (sample_id <? offset_counter e') then l
      else expire sample_id l'
  | _ => l
  end.

(** The entry a conversion of [x] uses: the oldest one for an [x] before it, else the
    last one whose key is not behind [x]. *)
Definition find (key : jsdrv_time_map_s -> Z) (x : Z) (l : list jsdrv_time_map_s)
  : option jsdrv_time_map_s :=
  match l with
  | [] => None
  | e :: _ => if x <=? key e then Some e else last (filter (fun e => key e <= x) l)
  end.
End TmapSpec.

(** *** Ring arithmetic *)

Lemma land_pow2 x a k : 0 <= k < 63 -> a = 2 ^ k -> Z.land (u64 x) (u64 (a - 1)) = x mod a.
Proof.
  intros Hk ->. assert (2 ^ k <= 2 ^ 63) by (apply Z.pow_le_mono_r; lia).
  assert (0 < 2 ^ k) by (apply Z.pow_pos_nonneg; lia).
  rewrite (uwrap_small 64 (2 ^ k - 1)) by (widths; change (2 ^ 63) with 9223372036854775808 in *; lia).
  rewrite Z.sub_1_r, <- Z.ones_equiv, Z.land_ones by lia. unfold uwrap.
  apply Z.mod_mod_divide.
  exists (2 ^ (64 - k)). rewrite <- Z.pow_add_r by lia. f_equal; lia.
Qed.

Lemma wf_alloc_pos s : wf_tmap s -> 0 < alloc_size s < 2 ^ 63.
Proof.
  intros ((k & Hk & ->) & _). split; [apply Z.pow_pos_nonneg; lia | apply Z.pow_lt_mono_r; lia].
Qed.

Lemma ptr_incr_mod s p : wf_tmap s -> ptr_incr p (alloc_size s) = (p + 1) mod alloc_size s.
Proof. intros ((k & Hk & Ha) & _). by apply (land_pow2 _ _ k). Qed.

Lemma ptr_decr_mod s p : wf_tmap s -> ptr_decr p (alloc_size s) = (p - 1) mod alloc_size s.
Proof. intros ((k & Hk & Ha) & _). by apply (land_pow2 _ _ k). Qed.

Lemma ring_idx_range s i : wf_tmap s -> 0 <= ring_idx s i < alloc_size s.
Proof. intros H. apply Z.mod_pos_bound. apply wf_alloc_pos in H. lia. Qed.

Lemma ring_idx_incr s i : wf_tmap s -> ptr_incr (ring_idx s i) (alloc_size s) = ring_idx s (i + 1).
Proof. intros H. rewrite ptr_incr_mod by done. unfold ring_idx. rewrite Zplus_mod_idemp_l. f_equal; lia. Qed.

Lemma ring_idx_decr s i : wf_tmap s -> ptr_decr (ring_idx s i) (alloc_size s) = ring_idx s (i - 1).
Proof.
  intros H. rewrite ptr_decr_mod by done. unfold ring_idx. rewrite Zminus_mod_idemp_l. f_equal; lia.
Qed.

Lemma ring_idx_0 s : wf_tmap s -> ring_idx s 0 = tail s.
Proof. intros (_ & _ & Ht & _). unfold ring_idx. rewrite Z.add_0_r. by apply Z.mod_small. Qed.

(** Distinct positions below the allocation hold distinct slots. *)
Lemma ring_idx_inj s i j :
  wf_tmap s -> 0 <= i < alloc_size s -> 0 <= j < alloc_size s ->
  ring_idx s i = ring_idx s j -> i = j.
Proof.
  intros (_ & _ & Ht & _) Hi Hj H. unfold ring_idx in H.
  pose proof (Z.div_mod (tail s + i) (alloc_size s) ltac:(lia)).
  pose proof (Z.div_mod (tail s + j) (alloc_size s) ltac:(lia)). rewrite H in *.
  set (q1 := (tail s + i) / _) in *; set (q2 := (tail s + j) / _) in *; clearbody q1 q2.
  assert (q1 = q2) by (destruct (Z.lt_trichotomy q1 q2) as [|[|]]; [nia | done | nia]). lia.
Qed.

Lemma tmap_size_eq s : wf_tmap s ->
  tmap_size (Some s) = if tail s <=? head s then head s - tail s else alloc_size s - tail s + head s.
Proof.
  intros (_ & _ & Ht & Hh & _). unfold tmap_size.
  rewrite (proj2 (Z.ltb_ge (alloc_size s) (head s))), (proj2 (Z.leb_gt (alloc_size s) (tail s))) by lia.
  done.
Qed.

Lemma tmap_size_bounds s : wf_tmap s ->
  0 <= tmap_size (Some s) <= alloc_size s /\ (head s < alloc_size s -> tmap_size (Some s) < alloc_size s).
Proof.
  intros H. rewrite tmap_size_eq by done. destruct H as (_ & _ & Ht & Hh & Hf). case_if; lia.
Qed.

Lemma not_full_ring s : wf_tmap s -> tmap_size (Some s) < alloc_size s -> wf_ring s.
Proof.
  intros H Hsz. split; [done|]. rewrite tmap_size_eq in Hsz by done.
  destruct H as (_ & _ & Ht & Hh & Hf). case_if_in Hsz; lia.
Qed.

(** One past the newest entry is [head], modulo the allocation. *)
Lemma ring_idx_size s : wf_tmap s -> ring_idx s (tmap_size (Some s)) = head s mod alloc_size s.
Proof.
  intros H. rewrite tmap_size_eq by done. unfold ring_idx. destruct H as (_ & _ & Ht & Hh & Hf).
  case_if; [f_equal; lia|].
  replace (tail s + (alloc_size s - tail s + head s)) with (head s + 1 * alloc_size s) by lia.
  by rewrite Z.mod_add by lia.
Qed.

Lemma length_tmap_abs s : length (tmap_abs s) = Z.to_nat (tmap_size (Some s)).
Proof. unfold tmap_abs. by rewrite length_fmap, length_seq. Qed.

Lemma len_tmap_abs s : wf_tmap s -> len (tmap_abs s) = tmap_size (Some s).
Proof. intros H. unfold len. rewrite length_tmap_abs. apply tmap_size_bounds in H. lia. Qed.

Lemma entry_lookup s i : wf_tmap s ->
  entry s !! Z.to_nat (ring_idx s i) = Some (entry s !!! Z.to_nat (ring_idx s i)).
Proof.
  intros H. apply list_lookup_lookup_total_lt. pose proof (ring_idx_range s i H).
  destruct H as (_ & Hl & _). unfold len in Hl. lia.
Qed.

Lemma tmap_abs_lookup s (i : nat) : wf_tmap s -> (i < length (tmap_abs s))%nat ->
  tmap_abs s !! i = entry s !! Z.to_nat (ring_idx s (Z.of_nat i)).
Proof.
  intros H Hi. rewrite length_tmap_abs in Hi. unfold tmap_abs.
  rewrite list_lookup_fmap, lookup_seq_lt by done. cbn. by rewrite entry_lookup.
Qed.

(** Loads through the ring read the abstract list. *)
Lemma ld_ring s i e : wf_tmap s -> 0 <= i -> tmap_abs s !! Z.to_nat i = Some e ->
  ld (entry s) (ring_idx s i) = Ok e.
Proof.
  intros H Hi He. pose proof (lookup_lt_Some _ _ _ He) as Hlt.
  rewrite tmap_abs_lookup, Z2Nat.id in He by (done || lia).
  apply ld_ok; [|done]. apply ring_idx_range; done.
Qed.

(** A sufficient condition for two instances to hold the same list. *)
Lemma tmap_abs_ext s (l : list jsdrv_time_map_s) :
  wf_tmap s -> len l = tmap_size (Some s) ->
  (forall i x, l !! i = Some x -> entry s !! Z.to_nat (ring_idx s (Z.of_nat i)) = Some x) ->
  tmap_abs s = l.
Proof.
  intros H Hl Hx. apply list_eq_same_length with (n := length l); [done | |].
  - rewrite length_tmap_abs. unfold len in Hl. lia.
  - intros i x y Hi Ha Hb. apply Hx in Hb.
    rewrite tmap_abs_lookup in Ha; [congruence | done |].
    rewrite length_tmap_abs. unfold len in Hl. lia.
Qed.

(** *** Pushing and growing *)

Lemma tmap_last s : wf_tmap s ->
  last (tmap_abs s) = (if tmap_size (Some s) =? 0 then None
                       else entry s !! Z.to_nat (ptr_decr (head s) (alloc_size s))).
Proof.
  intros H. pose proof (tmap_size_bounds s H) as [Hb _]. rewrite last_lookup, length_tmap_abs.
  case_if.
  - rewrite E. apply lookup_ge_None. rewrite length_tmap_abs, E. cbn; lia.
  - rewrite tmap_abs_lookup by (rewrite ?length_tmap_abs; done || lia). f_equal.
    replace (Z.of_nat (pred (Z.to_nat (tmap_size (Some s))))) with (tmap_size (Some s) - 1) by lia.
    rewrite <- ring_idx_decr, ring_idx_size, !ptr_decr_mod by done.
    by rewrite Zminus_mod_idemp_l.
Qed.

Lemma ld_last_entry s : wf_tmap s -> tmap_size (Some s) <> 0 ->
  exists e, last (tmap_abs s) = Some e /\ ld (entry s) (ptr_decr (head s) (alloc_size s)) = Ok e.
Proof.
  intros H Hsz. rewrite tmap_last by done. rewrite (proj2 (Z.eqb_neq _ 0)) by done.
  rewrite ptr_decr_mod by done.
  destruct (ld_in_range (entry s) ((head s - 1) mod alloc_size s)) as (e & He & Hl).
  { pose proof (wf_alloc_pos _ H). destruct H as (_ & -> & _). apply Z.mod_pos_bound; lia. }
  eauto.
Qed.

Lemma tmap_push_spec s tm :
  wf_ring s -> tmap_size (Some s) + 1 < alloc_size s ->
  exists s', tmap_push s tm = Ok s' /\ wf_ring s' /\ tmap_abs s' = tmap_abs s ++ [tm]
    /\ alloc_size s' = alloc_size s.
Proof.
  intros [H Hh] Hsz. pose proof H as (Hk & Hl & Ht & Hhr & _). unfold tmap_push.
  rewrite st_ok, bind_Ok by lia. eexists; split; [done|].
  rewrite ptr_incr_mod by done.
  pose proof (Z.mod_pos_bound (head s + 1) (alloc_size s) ltac:(lia)) as Hm.
  set (s' := mk_tmap _ _ _ _).
  assert (wf_tmap s') as H'.
  { unfold wf_tmap, s'; cbn. rewrite len_insert. split_and!; try lia; done. }
  assert (tmap_size (Some s') = tmap_size (Some s) + 1) as Hsz'.
  { rewrite !tmap_size_eq in * by done. unfold s'; cbn [tail head alloc_size].
    destruct (Z.eq_dec (head s + 1) (alloc_size s)) as [Heq|].
    - rewrite Heq, Z.mod_same by lia. repeat case_if; lia.
    - rewrite Z.mod_small by lia. repeat case_if; lia. }
  assert (forall i, ring_idx s' i = ring_idx s i) as Hidx by done.
  split_and!; [split; [done | cbn; lia] | | done].
  apply tmap_abs_ext; [done | by rewrite len_app, len_tmap_abs, Hsz' |].
  intros i x Hx. cbn [entry s']. rewrite Hidx.
  pose proof (ring_idx_size s H) as Hhd. rewrite (Z.mod_small (head s)) in Hhd by lia.
  apply lookup_snoc_Some in Hx as [[Hi Hx]|[Hi <-]].
  - rewrite tmap_abs_lookup in Hx by done. rewrite length_tmap_abs in Hi.
    rewrite list_lookup_insert_ne; [done|]. rewrite <- Hhd. intros Heq.
    pose proof (ring_idx_range s (tmap_size (Some s)) H).
    pose proof (ring_idx_range s (Z.of_nat i) H).
    apply Z2Nat.inj, ring_idx_inj in Heq; try done; lia.
  - rewrite Hi, length_tmap_abs, Z2Nat.id by (apply tmap_size_bounds in H; lia).
    rewrite Hhd. apply list_lookup_insert_eq. unfold len in Hl. lia.
Qed.

Lemma unwrap_loop_spec n : forall i (e : list jsdrv_time_map_s) a,
  0 <= i -> i + Z.of_nat n <= a -> a + i + Z.of_nat n <= len e ->
  exists e', unwrap_loop n i e a = Ok e' /\ len e' = len e
    /\ (forall j, 0 <= j -> e' !! Z.to_nat j =
          if (i + a <=? j) && (j <? i + a + Z.of_nat n) then e !! Z.to_nat (j - a)
          else e !! Z.to_nat j).
Proof.
  induction n as [|n IH]; intros i e a Hi Ha He; cbn [unwrap_loop].
  - exists e. split_and!; [done | done |]. intros j Hj. by case_if; [lia|].
  - destruct (ld_in_range e i) as (v & -> & Hv); [lia|]. rewrite bind_Ok, st_ok, bind_Ok by lia.
    destruct (IH (i + 1) (<[Z.to_nat (i + a):=v]> e) a) as (e' & -> & Hl & Hj);
      [lia | lia | rewrite len_insert; lia |].
    exists e'. split_and!; [done | by rewrite Hl, len_insert |].
    intros j Hj0. rewrite Hj by done.
    destruct (decide (j = i + a)) as [->|Hne].
    + rewrite (proj2 (Z.leb_gt (i + 1 + a) (i + a))) by lia. cbn [andb]. simpl_cmp. cbn [andb].
      replace (i + a - a) with i by lia. rewrite list_lookup_insert_eq; [done|].
      unfold len in He. lia.
    + assert ((i + 1 + a <=? j) && (j <? i + 1 + a + Z.of_nat n)
              = (i + a <=? j) && (j <? i + a + Z.of_nat (S n))) as ->.
      { apply Bool.eq_iff_eq_true. rewrite !andb_true_iff, !Z.leb_le, !Z.ltb_lt. lia. }
      case_if; (rewrite list_lookup_insert_ne; [done | lia]).
Qed.

Lemma tmap_grow_spec fresh s :
  wf_tmap s -> alloc_size s < 2 ^ 62 ->
  exists s', tmap_grow fresh s = Ok s' /\ wf_ring s' /\ tmap_abs s' = tmap_abs s
    /\ alloc_size s' = 2 * alloc_size s.
Proof.
  intros H Hmax. pose proof H as ((k & Hk & Hak) & Hl & Ht & Hh & Hf). unfold tmap_grow.
  assert (u64 (alloc_size s * 2) = 2 * alloc_size s) as ->
    by (rewrite uwrap_small; [lia | unfold is_u; change (2 ^ 64) with (4 * 2 ^ 62); lia]).
  assert (exists k', 0 <= k' < 63 /\ 2 * alloc_size s = 2 ^ k') as Hk2.
  { exists (k + 1). rewrite Z.pow_add_r, Hak by lia. split; [|lia].
    split; [lia|]. rewrite Hak in Hmax. apply Z.pow_lt_mono_r_iff in Hmax; lia. }
  set (e := entry s ++ replicate _ fresh).
  assert (len e = 2 * alloc_size s) as Hle.
  { unfold e. rewrite len_app, Hl. unfold len. rewrite length_replicate. lia. }
  assert (forall i, (i < Z.to_nat (alloc_size s))%nat -> e !! i = entry s !! i) as Hlow.
  { intros i Hi. unfold e. apply lookup_app_l. unfold len in Hl. lia. }
  case_if.
  - destruct (unwrap_loop_spec (Z.to_nat (head s)) 0 e (alloc_size s)) as (e' & -> & Hl' & Hj); [lia..|].
    rewrite bind_Ok, uwrap_small by (unfold is_u; change (2 ^ 64) with (4 * 2 ^ 62); lia).
    eexists; split; [done|]. set (s' := mk_tmap _ _ _ _).
    assert (wf_tmap s') as H' by (unfold wf_tmap, s'; cbn; split_and!; done || lia).
    split_and!; [split; [done | cbn; lia] | | done].
    apply tmap_abs_ext; [done | |].
    { rewrite len_tmap_abs, !tmap_size_eq by done. unfold s'; cbn. repeat case_if; lia. }
    intros i x Hx. pose proof (lookup_lt_Some _ _ _ Hx) as Hi.
    rewrite tmap_abs_lookup in Hx by done. rewrite length_tmap_abs, tmap_size_eq in Hi by done.
    rewrite (proj2 (Z.leb_gt (tail s) (head s))) in Hi by lia.
    unfold s', ring_idx in *; cbn [entry tail alloc_size] in *.
    rewrite (Z.mod_small _ (2 * _)) by lia. rewrite Hj by lia.
    destruct (Z.lt_ge_cases (tail s + Z.of_nat i) (alloc_size s)).
    + rewrite Z.mod_small in Hx by lia. case_if; [lia|]. rewrite Hlow by lia. done.
    + replace (tail s + Z.of_nat i) with (tail s + Z.of_nat i - alloc_size s + 1 * alloc_size s) in Hx by lia.
      rewrite Z.mod_add, Z.mod_small in Hx by lia. case_if; [|lia]. rewrite Hlow by lia. done.
  - eexists; split; [done|]. set (s' := mk_tmap _ _ _ _).
    assert (wf_tmap s') as H' by (unfold wf_tmap, s'; cbn; split_and!; done || lia).
    split_and!; [split; [done | cbn; lia] | | done].
    apply tmap_abs_ext; [done | |].
    { rewrite len_tmap_abs, !tmap_size_eq by done. unfold s'; cbn. repeat case_if; lia. }
    intros i x Hx. pose proof (lookup_lt_Some _ _ _ Hx) as Hi.
    rewrite tmap_abs_lookup in Hx by done. rewrite length_tmap_abs, tmap_size_eq in Hi by done.
    rewrite (proj2 (Z.leb_le (tail s) (head s))) in Hi by lia.
    unfold s', ring_idx in *; cbn [entry tail alloc_size] in *.
    rewrite !Z.mod_small in * by lia. by rewrite Hlow by lia.
Qed.

Lemma tmap_add_spec fresh s tm :
  wf_tmap s -> alloc_size s < 2 ^ 62 -> ~ (alloc_size s = 1 /\ head s = 1) ->
  (forall e, last (tmap_abs s) = Some e -> is_s 64 (offset_time e - offset_time tm)) ->
  let grow := alloc_size s <=? tmap_size (Some s) + 1 in
  exists s', tmap_add fresh s tm = Ok s' /\ wf_tmap s'
    /\ tmap_abs s' = TmapSpec.add grow (tmap_abs s) tm
    /\ (s' = s \/ wf_ring s').
Proof.
  intros H Hmax Hcopy1 Hdt grow. unfold tmap_add, TmapSpec.add, TmapSpec.accepts.
  pose proof (tmap_size_bounds s H) as [Hb Hbr].
  destruct (SFleb (counter_rate tm) _); cbn [negb andb]; [exists s; auto|].
  assert (forall s1, wf_ring s1 -> tmap_abs s1 = tmap_abs s ->
    tmap_size (Some s1) + 1 < alloc_size s1 ->
    exists s', tmap_push s1 tm = Ok s' /\ wf_tmap s' /\ tmap_abs s' = tmap_abs s ++ [tm]
      /\ (s' = s \/ wf_ring s')) as Hpush.
  { intros s1 H1 Ha Hs1. destruct (tmap_push_spec s1 tm H1 Hs1) as (s' & ? & Hr & Ha' & _).
    exists s'. rewrite Ha', Ha. split_and!; [done | by apply Hr | done | by right]. }
  assert (grow = true -> exists s', (s ← tmap_grow fresh s; tmap_push s tm) = Ok s' /\ wf_tmap s'
      /\ tmap_abs s' = tmap_abs s ++ [tm] /\ (s' = s \/ wf_ring s')) as Hgrow.
  { intros Hg%Z.leb_le. destruct (tmap_grow_spec fresh s H Hmax) as (s1 & -> & H1 & Ha & Hal).
    rewrite bind_Ok. apply Hpush; [done | done |].
    rewrite <- (len_tmap_abs s1), Ha, len_tmap_abs by (done || apply H1).
    destruct H as (_ & _ & ? & ? & Hf). destruct (Z.eq_dec (head s) (alloc_size s)); lia. }
  destruct (Z.eq_dec (tmap_size (Some s)) 0) as [Hz|Hnz].
  - rewrite tmap_last, (proj2 (Z.eqb_eq (tmap_size (Some s)) 0)) by done. rewrite bind_Ok.
    fold grow. destruct grow eqn:Hg; [by apply Hgrow|].
    unfold grow in Hg. bool_facts. apply Hpush; [apply not_full_ring; [done | lia] | done | lia].
  - destruct (ld_last_entry s H Hnz) as (e & Hlast & He).
    specialize (Hdt e Hlast). rewrite Hlast, (proj2 (Z.eqb_neq _ 0)) by done.
    rewrite He, !bind_Ok. destruct (tm_dup tm e); cbn [negb andb]; [exists s; auto|].
    fold grow. destruct grow eqn:Hg; cbn [orb]; [by apply Hgrow|].
    unfold grow in Hg. bool_facts. rewrite Z.leb_antisym.
    destruct (offset_time tm <? offset_time e); cbn [negb].
    { rewrite (chk_i_ok 64 _ Hdt). exists s; auto. }
    apply Hpush; [apply not_full_ring; [done | lia] | done | lia].
Qed.

(** C9. Adding an entry refines the list operation: the entry is appended unless its rate
    is not positive, it repeats the newest entry, or it goes back in time (a test that
    a full ring skips); no access leaves the allocation, growth keeps every entry, and
    the result is a proper ring or the unchanged instance.  The time difference to
    the newest entry must be representable, and the instance must not be a copy of a
    single entry. *)
Theorem tmap_add_refines fresh s tm :
  wf_tmap s -> alloc_size s < 2 ^ 62 -> ~ (alloc_size s = 1 /\ head s = 1) ->
  (forall e, last (tmap_abs s) = Some e -> is_s 64 (offset_time e - offset_time tm)) ->
  let grow := alloc_size s <=? tmap_size (Some s) + 1 in
  exists s', tmap_add fresh s tm = Ok s' /\ wf_tmap s'
    /\ tmap_abs s' = TmapSpec.add grow (tmap_abs s) tm
    /\ (s' = s \/ wf_ring s').
Proof. apply tmap_add_spec. Qed.

Definition tm_at (t c : Z) : jsdrv_time_map_s := mk_time_map t c (f64_of_Z 1000).

(** A ring of four with two entries that wrap around its end. *)
Definition ring_example : jsdrv_tmap_s :=
  mk_tmap 4 1 3 [tm_at 2000 20; time_map_zero; time_map_zero; tm_at 1000 10].

Lemma ring_example_wf : wf_ring ring_example.
Proof. split; [|done]. split_and!; try done. by exists 2. Qed.

Lemma tmap_add_refines_witness :
  exists s', tmap_add time_map_zero ring_example (tm_at 3000 30) = Ok s' /\ wf_tmap s'
    /\ tmap_abs s' = [tm_at 1000 10; tm_at 2000 20; tm_at 3000 30] /\ (s' = ring_example \/ wf_ring s').
Proof.
  apply (tmap_add_refines time_map_zero ring_example (tm_at 3000 30)).
  - apply ring_example_wf.
  - by vm_compute.
  - by intros [[=] _].
  - intros e [= <-]. by vm_compute.
Defined.

(** *** Allocation: the bit smear rounds up to a power of two *)

Definition win (w x n : Z) : Prop := exists j, 0 <= j < w /\ Z.testbit x (n + j) = true.

Lemma smear_step w x y : 0 < w ->
  (forall n, 0 <= n -> Z.testbit y n = true <-> win w x n) ->
  forall n, 0 <= n -> Z.testbit (Z.lor y (Z.shiftr y w)) n = true <-> win (2 * w) x n.
Proof.
  intros Hw Hy n Hn. rewrite Z.lor_spec, Z.shiftr_spec, orb_true_iff, !Hy by lia. split.
  - intros [(j & Hj & H)|(j & Hj & H)]; [exists j; split; [lia | done]|].
    exists (j + w). split; [lia|]. by replace (n + (j + w)) with (n + w + j) by lia.
  - intros (j & Hj & H). destruct (Z.lt_ge_cases j w).
    + left. exists j. split; [lia | done].
    + right. exists (j - w). split; [lia|]. by replace (n + w + (j - w)) with (n + j) by lia.
Qed.

Lemma smear_ones x y : 0 < x < 2 ^ 64 ->
  (forall n, 0 <= n -> Z.testbit y n = true <-> win 64 x n) -> y = Z.ones (Z.log2 x + 1).
Proof.
  intros Hx Hy. pose proof (Z.log2_nonneg x).
  assert (Z.log2 x < 64) by (apply Z.log2_lt_pow2; lia).
  apply Z.bits_inj'; intros n Hn. apply Bool.eq_iff_eq_true. rewrite Hy by done.
  destruct (Z.lt_ge_cases n (Z.log2 x + 1)).
  - rewrite Z.ones_spec_low by lia. split; [done|]. intros _. exists (Z.log2 x - n). split; [lia|].
    replace (n + (Z.log2 x - n)) with (Z.log2 x) by lia. apply Z.bit_log2; lia.
  - rewrite Z.ones_spec_high by lia. split; [|done]. intros (j & Hj & Hb).
    rewrite Z.bits_above_log2 in Hb by lia. done.
Qed.

(** The result is the least power of two that is at least [sz]. *)
Lemma round_size_to_power_of_2_spec sz :
  0 < sz <= 2 ^ 62 -> round_size_to_power_of_2 sz = 2 ^ Z.log2_up sz.
Proof.
  intros Hsz. unfold round_size_to_power_of_2. rewrite (proj2 (Z.leb_gt sz 0)) by lia.
  destruct (Z.eq_dec sz 1) as [->|]; [reflexivity|].
  set (x := sz - 1). cbv zeta.
  assert (forall n, 0 <= n -> Z.testbit x n = true <-> win 1 x n) as H0.
  { intros m Hm. split.
    - intros H. exists 0. by rewrite Z.add_0_r.
    - intros (j & Hj & H). by replace (m + j) with m in H by lia. }
  pose proof (smear_step 1 x _ eq_refl H0) as H1.
  pose proof (smear_step 2 x _ eq_refl H1) as H2.
  pose proof (smear_step 4 x _ eq_refl H2) as H3.
  pose proof (smear_step 8 x _ eq_refl H3) as H4.
  pose proof (smear_step 16 x _ eq_refl H4) as H5.
  pose proof (smear_step 32 x _ eq_refl H5) as H6.
  assert (0 < x < 2 ^ 64) as Hx.
  { unfold x. split; [lia|]. apply Z.lt_trans with (2 ^ 62); [lia | by apply Z.pow_lt_mono_r]. }
  rewrite (smear_ones x _ Hx H6), Z.ones_equiv, <- Z.sub_1_r, Z.sub_add.
  rewrite Z.log2_up_eqn, <- Z.sub_1_r by lia. fold x.
  apply uwrap_small. split; [apply Z.pow_nonneg; lia|]. apply Z.pow_lt_mono_r; [lia | lia |].
  assert (Z.log2 x < 62) by (apply Z.log2_lt_pow2; unfold x; lia). lia.
Qed.

Lemma jsdrv_tmap_alloc_wf n : 0 <= n <= 2 ^ 62 ->
  let s := jsdrv_tmap_alloc n in
  wf_ring s /\ tmap_abs s = [] /\ (0 < n -> alloc_size s = 2 ^ Z.log2_up n).
Proof.
  intros Hn s. unfold s, jsdrv_tmap_alloc.
  set (m := if n =? 0 then ENTRIES_ALLOC_INIT else n).
  assert (0 < m <= 2 ^ 62) as Hm by (unfold m; case_if; [by cbn | lia]).
  rewrite round_size_to_power_of_2_spec by done.
  assert (0 <= Z.log2_up m <= 62) as Hl.
  { split; [apply Z.log2_up_nonneg|]. rewrite <- (Z.log2_up_pow2 62) by lia.
    apply Z.log2_up_le_mono; lia. }
  assert (0 < 2 ^ Z.log2_up m) by (apply Z.pow_pos_nonneg; lia).
  split_and!.
  - split; [|cbn; lia]. unfold wf_tmap; cbn [alloc_size entry head tail]. split_and!; try lia.
    + exists (Z.log2_up m). split; [lia | done].
    + unfold len. rewrite length_replicate. lia.
  - unfold tmap_abs. rewrite tmap_size_eq; [done|].
    unfold wf_tmap; cbn [alloc_size entry head tail]. split_and!; try lia.
    + exists (Z.log2_up m). split; [lia | done].
    + unfold len. rewrite length_replicate. lia.
  - intros Hpos. cbn. unfold m. by rewrite (proj2 (Z.eqb_neq n 0)) by lia.
Qed.

(** *** Copies *)

(** A copy holds the same entries in an allocation of its own. *)
Lemma jsdrv_tmap_copy_spec s :
  wf_tmap s -> tmap_size (Some s) <= 2 ^ 62 ->
  exists s', jsdrv_tmap_copy (Some s) = Ok (Some s') /\ wf_tmap s' /\ tmap_abs s' = tmap_abs s
    /\ (0 < tmap_size (Some s) ->
        head s' = tmap_size (Some s) /\ tail s' = 0
        /\ alloc_size s' = 2 ^ Z.log2_up (tmap_size (Some s))).
Proof.
  intros H Hmax. pose proof (tmap_size_bounds s H) as [Hb _].
  destruct (jsdrv_tmap_alloc_wf (tmap_size (Some s))) as ([Hw _] & Hnil & Hal); [lia|].
  unfold jsdrv_tmap_copy. pose proof H as (_ & Hl & Ht & Hh & Hf).
  rewrite (proj2 (Z.ltb_ge (alloc_size s) (head s))), (proj2 (Z.leb_gt (alloc_size s) (tail s))) by lia.
  cbn [orb]. case_if.
  { eexists; split; [done|]. split_and!; [done | | lia].
    rewrite Hnil. symmetry. apply nil_length_inv. rewrite length_tmap_abs. lia. }
  set (sz := tmap_size (Some s)) in *. set (a := jsdrv_tmap_alloc sz) in *.
  pose proof Hw as (Hk & Hla & _). specialize (Hal ltac:(lia)).
  assert (sz <= alloc_size a) as Hsza.
  { rewrite Hal. destruct (Z.eq_dec sz 1) as [->|]; [done|]. apply Z.log2_up_spec; lia. }
  pose proof (tmap_size_eq s H) as Hsz. fold sz in Hsz.
  assert (exists e, (if tail s <? head s then mem_copy (entry a) 0 (entry s) (tail s) sz
      else e ← mem_copy (entry a) 0 (entry s) (tail s) (alloc_size s - tail s);
           mem_copy e (alloc_size s - tail s) (entry s) 0 (head s)) = Ok e
      /\ len e = alloc_size a
      /\ forall i x, tmap_abs s !! i = Some x -> e !! i = Some x) as (e & -> & Hle & Hx).
  { case_if.
    - rewrite (proj2 (Z.leb_le (tail s) (head s))) in Hsz by lia.
      destruct (mem_copy_ok (entry a) 0 (entry s) (tail s) sz) as (e & -> & Hle & Hin & _); [lia..|].
      exists e. split_and!; [done | lia |]. intros i x Hx. pose proof (lookup_lt_Some _ _ _ Hx) as Hi.
      rewrite tmap_abs_lookup in Hx by done. rewrite length_tmap_abs in Hi. fold sz in Hi.
      unfold ring_idx in Hx. rewrite Z.mod_small in Hx by lia.
      rewrite Hin by lia. rewrite <- Hx. f_equal. lia.
    - case_if_in Hsz; [lia|].
      destruct (mem_copy_ok (entry a) 0 (entry s) (tail s) (alloc_size s - tail s))
        as (e1 & -> & Hle1 & Hin1 & _); [lia..|]. rewrite bind_Ok.
      destruct (mem_copy_ok e1 (alloc_size s - tail s) (entry s) 0 (head s))
        as (e & -> & Hle & Hin & Hlow); [lia..|].
      exists e. split_and!; [done | lia |]. intros i x Hx. pose proof (lookup_lt_Some _ _ _ Hx) as Hi.
      rewrite tmap_abs_lookup in Hx by done. rewrite length_tmap_abs in Hi. fold sz in Hi.
      unfold ring_idx in Hx. destruct (Z.lt_ge_cases (tail s + Z.of_nat i) (alloc_size s)).
      + rewrite Z.mod_small in Hx by lia. rewrite Hlow, Hin1 by lia. rewrite <- Hx. f_equal. lia.
      + replace (tail s + Z.of_nat i) with (tail s + Z.of_nat i - alloc_size s + 1 * alloc_size s) in Hx by lia.
        rewrite Z.mod_add, Z.mod_small in Hx by lia. rewrite Hin by lia. rewrite <- Hx. f_equal. lia. }
  rewrite bind_Ok. eexists; split; [done|]. set (s' := mk_tmap _ _ _ _).
  pose proof (wf_alloc_pos _ Hw). clearbody a.
  assert (wf_tmap s') as H' by (unfold wf_tmap, s'; cbn [alloc_size entry head tail]; split_and!; done || lia).
  split_and!; [done | | done].
  assert (tmap_size (Some s') = sz) as Hs'.
  { rewrite tmap_size_eq by done. unfold s'; cbn [head tail]. rewrite (proj2 (Z.leb_le 0 sz)) by lia. lia. }
  apply tmap_abs_ext; [done | by rewrite len_tmap_abs |].
  intros i x Hix. pose proof (lookup_lt_Some _ _ _ Hix) as Hi. rewrite length_tmap_abs in Hi. fold sz in Hi.
  apply Hx in Hix. unfold ring_idx, s'; cbn [tail alloc_size entry].
  rewrite Z.mod_small by lia. rewrite <- Hix. f_equal. lia.
Qed.

(** *** Expiration *)

(** Moving the tail drops the oldest entries. *)
Lemma retail_spec s j :
  wf_ring s -> 0 <= j < tmap_size (Some s) ->
  let s' := mk_tmap (alloc_size s) (head s) (ring_idx s j) (entry s) in
  wf_ring s' /\ tmap_abs s' = drop (Z.to_nat j) (tmap_abs s).
Proof.
  intros [H Hh] Hj s'. pose proof (ring_idx_range s j H) as Hr.
  pose proof H as (Hk & Hl & Ht & Hhr & Hf).
  assert (wf_tmap s') as H' by (unfold wf_tmap, s'; cbn [alloc_size entry head tail]; split_and!; done || lia).
  split; [by split|].
  assert (tmap_size (Some s') = tmap_size (Some s) - j) as Hsz.
  { rewrite (tmap_size_eq s' H'). rewrite (tmap_size_eq s H) in *.
    unfold s', ring_idx; cbn [head tail alloc_size].
    destruct (tail s <=? head s) eqn:E; bool_facts;
      (destruct (Z.lt_ge_cases (tail s + j) (alloc_size s));
       [| replace (tail s + j) with (tail s + j - alloc_size s + 1 * alloc_size s) by lia;
          rewrite Z.mod_add by lia ]; rewrite Z.mod_small by lia; case_if; lia). }
  apply tmap_abs_ext; [done | |].
  { unfold len. rewrite length_drop, length_tmap_abs. lia. }
  intros i x Hx. rewrite lookup_drop in Hx. pose proof (lookup_lt_Some _ _ _ Hx).
  rewrite tmap_abs_lookup in Hx by done. rewrite <- Hx. f_equal. f_equal.
  unfold s', ring_idx; cbn [tail alloc_size]. rewrite Zplus_mod_idemp_l. f_equal. lia.
Qed.

Lemma expire_loop_spec s sid : wf_ring s -> forall fuel i,
  0 <= i < tmap_size (Some s) -> tmap_size (Some s) - i <= Z.of_nat fuel ->
  exists j, expire_loop fuel s sid (ring_idx s i) = Ok (ring_idx s j)
    /\ i <= j < tmap_size (Some s)
    /\ TmapSpec.expire sid (drop (Z.to_nat i) (tmap_abs s)) = drop (Z.to_nat j) (tmap_abs s).
Proof.
  intros [H Hh] fuel. pose proof (tmap_size_bounds s H) as [_ Hb]. specialize (Hb Hh).
  assert (ring_idx s (tmap_size (Some s)) = head s) as Hhd
    by (rewrite ring_idx_size by done; apply Z.mod_small; destruct H as (_ & _ & _ & ? & _); lia).
  induction fuel as [|fuel IH]; intros i Hi Hf; [lia|]. cbn [expire_loop].
  rewrite ring_idx_incr by done.
  destruct (lookup_lt_is_Some_2 (tmap_abs s) (Z.to_nat i)) as [e He]; [rewrite length_tmap_abs; lia|].
  rewrite (drop_S _ _ _ He). rewrite <- Hhd.
  destruct (Z.eq_dec (i + 1) (tmap_size (Some s))) as [Heq|Hne].
  - rewrite Heq, Z.eqb_refl. exists i. split_and!; [done | lia | lia |].
    rewrite (drop_S _ _ _ He), (drop_ge _ (S (Z.to_nat i))) by (rewrite length_tmap_abs; lia). done.
  - rewrite (proj2 (Z.eqb_neq (ring_idx s (i + 1)) _)).
    2: { intros Hr. apply ring_idx_inj in Hr; try done; lia. }
    destruct (lookup_lt_is_Some_2 (tmap_abs s) (S (Z.to_nat i))) as [e' He']; [rewrite length_tmap_abs; lia|].
    rewrite (drop_S _ _ _ He'). rewrite (ld_ring s i e), bind_Ok by (done || lia).
    rewrite (ld_ring s (i + 1) e'), bind_Ok
      by (done || lia || by replace (Z.to_nat (i + 1)) with (S (Z.to_nat i)) by lia).
    cbn [TmapSpec.expire]. case_if.
    { exists i. split_and!; [done | lia | lia |]. by rewrite (drop_S _ _ _ He), (drop_S _ _ _ He'). }
    destruct (_ && _).
    { exists i. split_and!; [done | lia | lia |]. by rewrite (drop_S _ _ _ He), (drop_S _ _ _ He'). }
    destruct (IH (i + 1)) as (j & -> & Hj & Hd); [lia | lia |].
    exists j. split_and!; [done | lia | lia |]. rewrite <- Hd. f_equal.
    replace (Z.to_nat (i + 1)) with (S (Z.to_nat i)) by lia. by rewrite (drop_S _ _ _ He').
Qed.

Lemma expire_spec s sid fuel :
  wf_ring s -> alloc_size s <= Z.of_nat fuel ->
  exists s', jsdrv_tmap_expire_by_sample_id fuel (Some s) sid = Ok (Some s') /\ wf_ring s'
    /\ tmap_abs s' = TmapSpec.expire sid (tmap_abs s).
Proof.
  intros Hr Hf. pose proof Hr as [H Hh]. pose proof (tmap_size_bounds s H) as [Hb _].
  pose proof H as (_ & _ & Ht & Hhr & _). unfold jsdrv_tmap_expire_by_sample_id.
  pose proof (tmap_size_eq s H) as Hsz. case_if.
  - exists s. split_and!; [done | done |].
    rewrite (proj2 (Z.leb_le (tail s) (head s))) in Hsz by lia.
    assert (tmap_abs s = []) as ->; [|done]. apply nil_length_inv. rewrite length_tmap_abs. lia.
  - destruct (expire_loop_spec s sid Hr fuel 0) as (j & Hl & Hj & Hd).
    { case_if_in Hsz; lia. } { lia. }
    rewrite ring_idx_0 in Hl by done. rewrite Hl, bind_Ok.
    destruct (retail_spec s j Hr) as [Hr' Ha]; [lia|].
    eexists; split_and!; [done | done |]. by rewrite Ha, <- Hd.
Qed.



Lemma expire_cons2 sid e e' l :
  TmapSpec.expire sid (e :: e' :: l) =
  if sid <? offset_counter e then e :: e' :: l
  else if (offset_counter e <? sid) && (sid <? offset_counter e') then e :: e' :: l
  else TmapSpec.expire sid (e' :: l).
Proof. reflexivity. Qed.

(** The list expiration keeps the newest entry, is a suffix, and never drops an
    entry that starts after [sid]. *)
Lemma expire_suffix sid l : exists k, TmapSpec.expire sid l = drop k l
  /\ (l <> [] -> (k < length l)%nat).
Proof.
  induction l as [|e [|e' l] IH]; [by exists 0%nat | exists 0%nat; split; [done | cbn; lia] |].
  rewrite expire_cons2. case_if; [exists 0%nat; split; [done | cbn; lia]|].
  destruct (_ && _); [exists 0%nat; split; [done | cbn; lia]|].
  destruct IH as (k & -> & Hk). exists (S k). split; [done|].
  intros _. specialize (Hk ltac:(done)). cbn in *. lia.
Qed.

(** With strictly increasing counters, an entry that starts exactly at [sample_id]
    and has a successor is dropped, although [sample_id] is still to be
    represented: the oldest remaining entry starts after it. *)
Lemma expire_drops_exact_entry sid e e' l :
  offset_counter e = sid -> sid < offset_counter e' ->
  TmapSpec.expire sid (e :: e' :: l) = e' :: l.
Proof.
  intros He He'. rewrite expire_cons2.
  rewrite (proj2 (Z.ltb_ge sid (offset_counter e))), (proj2 (Z.ltb_ge (offset_counter e) sid)) by lia.
  cbn [andb]. destruct l as [|e'' l]; [done|].
  rewrite expire_cons2. by rewrite (proj2 (Z.ltb_lt sid (offset_counter e'))) by lia.
Qed.

(** The loop never ends on an instance with [head = alloc_size] when every counter
    has passed: [tail_next] is reduced modulo the allocation and never meets [head]. *)
Lemma expire_loop_diverges s sid : wf_tmap s -> head s = alloc_size s ->
  Forall (fun e => offset_counter e <= sid) (entry s) ->
  forall fuel t, 0 <= t < alloc_size s -> expire_loop fuel s sid t = Fault OutOfFuel.
Proof.
  intros H Hh Hall fuel. pose proof H as (_ & Hl & _).
  induction fuel as [|fuel IH]; intros t Ht; [done|]. cbn [expire_loop].
  rewrite ptr_incr_mod by done.
  pose proof (Z.mod_pos_bound (t + 1) (alloc_size s) ltac:(lia)) as Hm.
  rewrite (proj2 (Z.eqb_neq _ (head s))) by lia.
  destruct (ld_in_range (entry s) t) as (e & -> & He); [lia|].
  destruct (ld_in_range (entry s) ((t + 1) mod alloc_size s)) as (e' & -> & He'); [lia|].
  rewrite !bind_Ok.
  pose proof (Forall_lookup_1 _ _ _ _ Hall He) as Hc. pose proof (Forall_lookup_1 _ _ _ _ Hall He') as Hc'.
  cbn in Hc, Hc'. rewrite (proj2 (Z.ltb_ge sid _)) by lia.
  rewrite (proj2 (Z.ltb_ge sid (offset_counter e'))), andb_false_r by lia. by apply IH.
Qed.

(** Copying a map with a power-of-two number of entries and expiring the copy by a
    sample at or behind its newest entry never terminates, whatever the fuel. *)
Lemma expire_of_copy_diverges s sid k :
  wf_tmap s -> 0 <= k <= 62 -> tmap_size (Some s) = 2 ^ k ->
  Forall (fun e => offset_counter e <= sid) (tmap_abs s) ->
  forall fuel, (m ← jsdrv_tmap_copy (Some s); jsdrv_tmap_expire_by_sample_id fuel m sid)
               = Fault OutOfFuel.
Proof.
  intros H Hk Hsz Hall fuel.
  assert (0 < 2 ^ k <= 2 ^ 62) by (split; [apply Z.pow_pos_nonneg | apply Z.pow_le_mono_r]; lia).
  destruct (jsdrv_tmap_copy_spec s H) as (c & -> & Hc & Ha & Hf); [lia|]. rewrite bind_Ok.
  destruct Hf as (Hhd & Htl & Hal); [lia|]. rewrite Hsz, Z.log2_up_pow2 in Hal by lia.
  unfold jsdrv_tmap_expire_by_sample_id. rewrite (proj2 (Z.eqb_neq (head c) (tail c))) by lia.
  rewrite expire_loop_diverges; [done | done | lia | | lia].
  assert (entry c = tmap_abs c) as ->; [|by rewrite Ha].
  symmetry. pose proof Hc as (_ & Hlc & _).
  apply tmap_abs_ext; [done | |].
  - rewrite tmap_size_eq by done. rewrite (proj2 (Z.leb_le (tail c) (head c))) by lia. lia.
  - intros i x Hx. pose proof (lookup_lt_Some _ _ _ Hx). unfold len in Hlc.
    unfold ring_idx. rewrite Htl, Z.mod_small by lia. rewrite <- Hx. f_equal. lia.
Qed.

Lemma expire_of_copy_diverges_witness :
  (m ← jsdrv_tmap_copy (Some ring_example); jsdrv_tmap_expire_by_sample_id 1000 m 30)
  = Fault OutOfFuel.
Proof.
  apply (expire_of_copy_diverges ring_example 30 1); [apply ring_example_wf | lia | done |].
  by repeat constructor.
Defined.

(** Adding to a copy of a single-entry map leaves an empty map: the two entries
    fill the reallocated ring of two, and [head] meets [tail]. *)
Lemma add_to_copy_of_one_loses fresh s e tm :
  wf_tmap s -> tmap_abs s = [e] ->
  SFleb (counter_rate tm) (S754_zero false) = false -> tm_dup tm e = false ->
  exists c c', jsdrv_tmap_copy (Some s) = Ok (Some c) /\ tmap_abs c = [e]
    /\ tmap_add fresh c tm = Ok c' /\ tmap_abs c' = [].
Proof.
  intros H Habs Hr Hd. pose proof (len_tmap_abs s H) as Hsz. rewrite Habs in Hsz. change (len [e]) with 1 in Hsz.
  destruct (jsdrv_tmap_copy_spec s H) as (c & -> & Hc & Ha & Hf); [lia|].
  destruct Hf as (Hhd & Htl & Hal); [lia|]. rewrite <- Hsz in *. change (2 ^ Z.log2_up 1) with 1 in Hal.
  exists c. destruct c as [al hd tl en]. cbn in Hhd, Htl, Hal. subst al hd tl.
  pose proof Hc as (_ & Hl & _). cbn in Hl. destruct en as [|x [|y en]]; [done | | unfold len in Hl; cbn in Hl; lia].
  rewrite Habs in Ha. cbv in Ha. injection Ha as ->.
  eexists; split_and!; [done | done | |].
  - unfold tmap_add. rewrite Hr. change (tmap_size (Some _)) with 1. cbn [Z.eqb].
    change (ld (entry _) (ptr_decr _ _)) with (Ok e). rewrite !bind_Ok, Hd. reflexivity.
  - reflexivity.
Qed.

Lemma add_to_copy_of_one_loses_witness :
  exists c c', jsdrv_tmap_copy (Some (mk_tmap 2 1 0 [tm_at 1000 10; time_map_zero])) = Ok (Some c)
    /\ tmap_abs c = [tm_at 1000 10]
    /\ tmap_add time_map_zero c (tm_at 2000 20) = Ok c' /\ tmap_abs c' = [].
Proof.
  apply add_to_copy_of_one_loses; try reflexivity.
  split_and!; try done. by exists 1.
Defined.

(** *** Searches *)

Section FindSpec.
Context (key : jsdrv_time_map_s -> Z) (s : jsdrv_tmap_s) (x : Z).
Hypothesis Hwf : wf_tmap s.
Hypothesis Hsorted : StronglySorted Z.le (key <$> tmap_abs s).

Lemma key_mono i j a b :
  (i <= j)%nat -> tmap_abs s !! i = Some a -> tmap_abs s !! j = Some b -> key a <= key b.
Proof.
  intros Hij Ha Hb. destruct (decide (i = j)) as [->|]; [by simplify_eq|].
  eapply (StronglySorted_lookup Z.le _ i j); [exact Hsorted | lia | |];
    rewrite list_lookup_fmap; [by rewrite Ha | by rewrite Hb].
Qed.

(** From any position of the ring, the walk ends at the entry [t] whose key is not
    behind [x] and whose successor is. *)
Lemma find_loop_spec t et et' :
  0 <= t -> tmap_abs s !! Z.to_nat t = Some et -> key et <= x ->
  tmap_abs s !! Z.to_nat (t + 1) = Some et' -> x < key et' ->
  forall iter k, 0 <= k < tmap_size (Some s) -> Z.abs (k - t) < Z.of_nat iter ->
  find_loop key iter s x (ring_idx s k) = Ok (Some et).
Proof.
  intros Ht Het Hx Het' Hx' iter. pose proof (len_tmap_abs s Hwf) as Hlen. unfold len in Hlen.
  pose proof (lookup_lt_Some _ _ _ Het').
  induction iter as [|iter IH]; intros k Hk Hi; [lia|]. cbn [find_loop].
  destruct (lookup_lt_is_Some_2 (tmap_abs s) (Z.to_nat k)) as [e He]; [lia|].
  rewrite (ld_ring s k e), bind_Ok by (done || lia).
  destruct (Z.lt_trichotomy k t) as [Hlt|[->|Hgt]].
  - pose proof (key_mono (Z.to_nat k) (Z.to_nat t) e et ltac:(lia) He Het).
    rewrite (proj2 (Z.ltb_ge x (key e))), ring_idx_incr by (done || lia).
    destruct (lookup_lt_is_Some_2 (tmap_abs s) (Z.to_nat (k + 1))) as [e' He']; [lia|].
    pose proof (key_mono (Z.to_nat (k + 1)) (Z.to_nat t) e' et ltac:(lia) He' Het).
    rewrite (ld_ring s (k + 1) e'), bind_Ok by (done || lia).
    rewrite (proj2 (Z.leb_le _ x)) by lia. apply IH; lia.
  - rewrite Het in He. injection He as <-.
    rewrite (proj2 (Z.ltb_ge x (key et))), ring_idx_incr by (done || lia).
    rewrite (ld_ring s (t + 1) et'), bind_Ok by (done || lia).
    by rewrite (proj2 (Z.leb_gt _ x)) by lia.
  - pose proof (key_mono (Z.to_nat (t + 1)) (Z.to_nat k) et' e ltac:(lia) Het' He).
    rewrite (proj2 (Z.ltb_lt x (key e))), ring_idx_decr by (done || lia). apply IH; lia.
Qed.
End FindSpec.

(** A sorted list that starts at or before [x] and ends behind it splits around [x]. *)
Lemma sorted_split key x (l : list jsdrv_time_map_s) :
  StronglySorted Z.le (key <$> l) -> filter (fun e => key e <= x) l = take (length (filter (fun e => key e <= x) l)) l
  /\ Forall (fun e => x < key e) (drop (length (filter (fun e => key e <= x) l)) l).
Proof.
  induction l as [|e l IH]; intros H; [done|]. rewrite fmap_cons in H.
  apply StronglySorted_inv in H as [Hs Hall]. destruct (IH Hs) as [IH1 IH2].
  rewrite filter_cons. destruct (decide (key e <= x)) as [Hle|Hgt].
  - cbn [length take drop]. split; [by f_equal | done].
  - assert (filter (fun e => key e <= x) l = []) as ->.
    { clear -Hgt Hall. induction l as [|y l IH]; [done|]. rewrite fmap_cons in Hall.
      apply Forall_cons_1 in Hall as [Hy Hall]. rewrite filter_cons_False by lia. by apply IH. }
    cbn. split; [done|]. constructor; [lia|]. apply Forall_forall. intros y Hy.
    apply (list_elem_of_fmap_2 key) in Hy. rewrite Forall_forall in Hall. apply Hall in Hy. lia.
Qed.

(** The first guess is a position of the ring. *)
Lemma find_start_range s dx dspan idx :
  wf_tmap s -> 0 < tmap_size (Some s) ->
  find_start s (tmap_size (Some s)) dx dspan = Ok idx ->
  exists k, 0 <= k < tmap_size (Some s) /\ idx = ring_idx s k.
Proof.
  intros H Hsz. unfold find_start. rewrite res_bind_Ok. intros (k & Hk & Hi).
  pose proof (tmap_size_bounds s H) as [Hb _]. pose proof (wf_alloc_pos s H).
  assert (0 <= k) by (eapply f_to_u64_nonneg; eassumption).
  set (sz := tmap_size (Some s)) in *. clearbody sz.
  rewrite (proj2 (Z.eqb_neq (alloc_size s) 0)) in Hi by lia. injection Hi as <-.
  pose proof H as (_ & _ & Ht & _).
  set (k' := if sz <=? k then sz - 1 else k).
  assert (0 <= k' < sz) by (unfold k'; case_if; lia).
  exists k'. split; [done|]. unfold ring_idx. clearbody k'. rewrite uwrap_small; [done|].
  change (2 ^ 63) with 9223372036854775808 in *. width_lia.
Qed.

(** The search of either key in a map sorted by it: once the floating-point guess is
    representable, the entry returned is the one of the list specification, and no
    access leaves the ring. *)
Lemma find_entry_spec key sub s x :
  wf_tmap s -> 0 < tmap_size (Some s) -> StronglySorted Z.le (key <$> tmap_abs s) ->
  (forall e0 e1, hd_error (tmap_abs s) = Some e0 -> last (tmap_abs s) = Some e1 ->
     key e0 < x < key e1 -> exists d d' idx, sub x (key e0) = Ok d
       /\ sub (key e1) (key e0) = Ok d' /\ find_start s (tmap_size (Some s)) d d' = Ok idx) ->
  exists e, find_entry key sub s x = Ok e /\ TmapSpec.find key x (tmap_abs s) = Some e.
Proof.
  intros H Hsz Hsort Hstart. pose proof (len_tmap_abs s H) as Hlen. unfold find_entry.
  destruct (ld_last_entry s H ltac:(lia)) as (e1 & Hlast & Hld1). rewrite Hld1.
  destruct (tmap_abs s) as [|e0 l0] eqn:Habs; [rewrite (@len_nil jsdrv_time_map_s) in Hlen; lia|].
  rewrite <- (ring_idx_0 s H), (ld_ring s 0 e0), !bind_Ok by (done || by rewrite Habs).
  unfold TmapSpec.find. case_if; [eauto|].
  set (l := e0 :: l0) in *. destruct (sorted_split key x l Hsort) as [Htake Hdrop].
  set (n := length (filter (fun e => key e <= x) l)) in *.
  pose proof (take_drop n l) as Htd.
  destruct (key e1 <=? x) eqn:E1; bool_facts.
  - exists e1. split; [done|]. rewrite Htake.
    destruct (drop n l) as [|d dl] eqn:Hd; [by rewrite app_nil_r in Htd; rewrite Htd|].
    rewrite <- Htd, last_app_cons in Hlast.
    apply last_Some_elem_of in Hlast. rewrite Forall_forall in Hdrop. apply Hdrop in Hlast. lia.
  - destruct (Hstart e0 e1) as (d & d' & idx & -> & -> & Hidx); [done | done | lia |]. rewrite !bind_Ok, Hidx.
    destruct (find_start_range s d d' idx H Hsz Hidx) as (k & Hk & ->). rewrite bind_Ok.
    assert (last (filter (fun e => key e <= x) l) <> None) as Hne.
    { unfold l. rewrite filter_cons_True by lia. rewrite last_cons. destruct (last (filter _ l0)); discriminate. }
    destruct (last (filter _ l)) as [et|] eqn:Het; [|done].
    assert (key et <= x) as Hxt.
    { apply last_Some_elem_of, list_elem_of_filter in Het. apply Het. }
    rewrite last_lookup in Het. fold n in Het. rewrite Htake in Het.
    pose proof (lookup_lt_Some _ _ _ Het) as Hn. rewrite length_take in Hn.
    rewrite lookup_take_lt in Het by lia.
    destruct (drop n l) as [|et' dl] eqn:Hd.
    { rewrite app_nil_r in Htd. apply last_Some_elem_of in Hlast. rewrite <- Htd, <- Htake in Hlast.
      apply list_elem_of_filter in Hlast. lia. }
    apply Forall_cons_1 in Hdrop as [Hx' _].
    assert (l !! n = Some et') as Hn'.
    { replace n with (n + 0)%nat by lia. by rewrite <- lookup_drop, Hd. }
    rewrite (find_loop_spec key s x H ltac:(by rewrite Habs) (Z.of_nat (pred n)) et et'); [eauto | lia | | done | | done | done |].
    + rewrite Habs. by rewrite Nat2Z.id.
    + rewrite Habs. replace (Z.to_nat (Z.of_nat (pred n) + 1)) with n by lia. done.
    + pose proof (lookup_lt_Some _ _ _ Hn'). unfold len in Hlen. lia.
Qed.

(** *** Indexed access *)

Lemma jsdrv_tmap_get_spec s i tm :
  wf_tmap s -> 0 <= i < 2 ^ 64 ->
  jsdrv_tmap_get (Some s) i tm =
  Ok (match tmap_abs s !! Z.to_nat i with Some e => (0, e) | None => (ec_code UNAVAILABLE, tm) end).
Proof.
  intros H Hi. unfold jsdrv_tmap_get. pose proof (len_tmap_abs s H) as Hlen. unfold len in Hlen.
  case_if.
  - rewrite lookup_ge_None_2 by lia. done.
  - destruct (lookup_lt_is_Some_2 (tmap_abs s) (Z.to_nat i)) as [e He]; [lia|].
    pose proof H as ((k & Hk & Ha) & _).
    rewrite (land_pow2 _ _ k), He by done. change (_ mod _) with (ring_idx s i).
    by rewrite (ld_ring s i e) by (done || lia).
Qed.

Lemma jsdrv_tmap_clear_spec s :
  wf_tmap s -> exists s', jsdrv_tmap_clear (Some s) = Some s' /\ wf_ring s' /\ tmap_abs s' = [].
Proof.
  intros H. pose proof (wf_alloc_pos s H). eexists; split; [done|]. split; [|by unfold tmap_abs; cbn [tmap_size head tail alloc_size]; rewrite orb_comm; destruct (_ || _)].
  destruct H as (Hk & Hl & _). split; [|cbn; lia]. unfold wf_tmap; cbn. split_and!; done || lia.
Qed.

(** The monotonicity test of [add] is not made when the ring is full: an entry that
    goes back in time is refused in one case and taken in the other. *)
Example add_full_skips_monotonic :
  let tm t c := mk_time_map t c (f64_of_Z 1) in
  let ring n := s ← tmap_add time_map_zero (jsdrv_tmap_alloc n) (tm 100 1); Ok s in
  let past n := s ← ring n; s ← tmap_add time_map_zero s (tm 50 2); Ok (offset_time <$> tmap_abs s) in
  past 4 = Ok [100] /\ past 2 = Ok [100; 50].
Proof. split; reflexivity. Qed.

(** ** Properties of the searches and of copies *)

(** The entry used to convert a sample id, in a map sorted by counter: the last
    entry that does not start behind the sample (the oldest one for a sample before
    it).  The search accesses the ring only and its bounded loop always finds the entry,
    whatever first guess the floating-point interpolation makes. *)
Lemma find_entry_by_sample_id_spec s sample_id :
  wf_tmap s -> 0 < tmap_size (Some s) ->
  StronglySorted Z.le (offset_counter <$> tmap_abs s) ->
  (forall e0 e1, hd_error (tmap_abs s) = Some e0 -> last (tmap_abs s) = Some e1 ->
     offset_counter e0 < sample_id < offset_counter e1 ->
     exists idx, find_start s (tmap_size (Some s)) (u64 (sample_id - offset_counter e0))
                   (u64 (offset_counter e1 - offset_counter e0)) = Ok idx) ->
  exists e, find_entry_by_sample_id s sample_id = Ok e
    /\ TmapSpec.find offset_counter sample_id (tmap_abs s) = Some e.
Proof.
  intros H Hsz Hs Hst. apply find_entry_spec; [done | done | done |].
  intros e0 e1 H0 H1 Hx. destruct (Hst e0 e1 H0 H1 Hx) as [idx Hi].
  eexists _, _, idx. split_and!; [reflexivity | reflexivity | exact Hi].
Qed.

Lemma find_entry_by_sample_id_spec_witness :
  exists e, find_entry_by_sample_id ring_example 15 = Ok e
    /\ TmapSpec.find offset_counter 15 [tm_at 1000 10; tm_at 2000 20] = Some e.
Proof.
  apply (find_entry_by_sample_id_spec ring_example 15);
    [apply ring_example_wf | done | by repeat constructor |].
  intros e0 e1 [= <-] [= <-] _. by eexists.
Defined.

(** A copy is indistinguishable from its source through the length and the indexed
    reads, and lives in an allocation of its own. *)
Lemma jsdrv_tmap_copy_same s :
  wf_tmap s -> tmap_size (Some s) <= 2 ^ 62 ->
  exists c, jsdrv_tmap_copy (Some s) = Ok (Some c) /\ wf_tmap c
    /\ jsdrv_tmap_length (Some c) = jsdrv_tmap_length (Some s)
    /\ forall i tm, is_u 64 i -> jsdrv_tmap_get (Some c) i tm = jsdrv_tmap_get (Some s) i tm.
Proof.
  intros H Hsz. destruct (jsdrv_tmap_copy_spec s H Hsz) as (c & -> & Hc & Ha & _).
  exists c. split_and!; [done | done | |].
  - unfold jsdrv_tmap_length. by rewrite <- !len_tmap_abs, Ha.
  - intros i tm Hi. by rewrite !jsdrv_tmap_get_spec, Ha.
Qed.

Lemma jsdrv_tmap_copy_same_witness :
  exists c, jsdrv_tmap_copy (Some ring_example) = Ok (Some c) /\ wf_tmap c
    /\ jsdrv_tmap_length (Some c) = 2
    /\ forall i tm, is_u 64 i -> jsdrv_tmap_get (Some c) i tm = jsdrv_tmap_get (Some ring_example) i tm.
Proof. apply jsdrv_tmap_copy_same; [apply ring_example_wf | by vm_compute]. Defined.
