(* ===== verification/TimeMapFilter.v ===== *)
(** * The time map filter (src/time_map_filter.c)

    A ring of the last [points_max] (counter, UTC) points.  The estimate is to be the
    lowest offset that any point gives, since transport delays only add.  The
    theorem shows that this is what the code computes until the ring is full, and that
    from then on it uses the oldest point alone. *)

From S2P Require Import Prelude Float Time.

Record tmf_point_s := mk_point { pt_counter : Z; pt_utc : Z }.
#[global] Instance tmf_point_inhabited : Inhabited tmf_point_s := populate (mk_point 0 0).

Record jsdrv_tmf_s := mk_tmf {
  tmf_time_map : jsdrv_time_map_s;
  tmf_interval : Z;
  points_max : Z;
  points_valid : Z;
  tmf_head : Z;
  utc_prev : Z;
  points : list tmf_point_s;
}.

Definition jsdrv_tmf_new (counter_rate points interval : Z) : option jsdrv_tmf_s :=
  if (counter_rate =? 0) || (points =? 0) || (interval <? JSDRV_TIME_MICROSECOND) then None
  else Some (mk_tmf (mk_time_map 0 0 (f64_of_Z counter_rate)) interval points 0 0 0
               (replicate (Z.to_nat points) (mk_point 0 0))).

Definition jsdrv_tmf_clear (self : option jsdrv_tmf_s) : option jsdrv_tmf_s :=
  match self with
  | None => None
  | Some s =>
      Some (mk_tmf (mk_time_map 0 0 (counter_rate (tmf_time_map s))) (tmf_interval s)
              (points_max s) 0 0 0 (points s))
  end.

(** The [while (tail != head)] loop. *)
Fixpoint tmf_loop (fuel : nat) (pts : list tmf_point_s) (max head : Z) (rate : f64)
  (counter_offset tail utc_est : Z) : res Z :=
  if tail =? head then Ok utc_est
  else match fuel with
  | O => Fault OutOfFuel
  | S fuel' =>
      p ← ld pts tail;
      let counter_delta := u64 (pt_counter p - counter_offset) in
      r ← f_to_u64 rate;
      utc_delta ← JSDRV_COUNTER_TO_TIME counter_delta r;
      utc_est1 ← chk_i 64 (pt_utc p - utc_delta);
      let utc_est := if utc_est1 <? utc_est then utc_est1 else utc_est in
      let tail := u32 (tail + 1) in
      let tail := if max <=? tail then 0 else tail in
      tmf_loop fuel' pts max head rate counter_offset tail utc_est
  end.

Definition tmf_add (s : jsdrv_tmf_s) (counter utc : Z) : res jsdrv_tmf_s :=
  dt ← chk_i 64 (utc - utc_prev s);
  if dt <? tmf_interval s then Ok s
  else
    let max := points_max s in
    pts ← st (points s) (tmf_head s) (mk_point counter utc);
    let head := u32 (tmf_head s + 1) in
    let head := if max <=? head then 0 else head in
    let valid := if points_valid s <? max then u32 (points_valid s + 1) else points_valid s in
    let tail := u32 (u32 (max + head) - valid) in
    let tail := if max <=? tail then u32 (tail - max) else tail in
    p ← ld pts tail;
    let counter_offset := pt_counter p in
    let rate := counter_rate (tmf_time_map s) in
    utc_est ← tmf_loop (Z.to_nat max) pts max head rate counter_offset tail (pt_utc p);
    Ok (mk_tmf (mk_time_map utc_est counter_offset rate) (tmf_interval s) max valid head utc pts).

Definition jsdrv_tmf_add (self : option jsdrv_tmf_s) (counter utc : Z) : res (option jsdrv_tmf_s) :=
  match self with
  | None => Ok None
  | Some s => s ← tmf_add s counter utc; Ok (Some s)
  end.

(** [time_map] is [None] for a NULL output. *)
Definition jsdrv_tmf_get (self : option jsdrv_tmf_s) (time_map : option jsdrv_time_map_s)
  : option jsdrv_time_map_s :=
  match time_map with
  | None => None
  | Some _ =>
      match self with
      | None => Some (mk_time_map 0 0 (S754_zero false))
      | Some s => Some (tmf_time_map s)
      end
  end.

(** ** Invariant and abstraction *)

(** The ring fills from slot 0; once full, [head] is the oldest slot. *)
Definition wf_tmf (s : jsdrv_tmf_s) : Prop :=
  0 < points_max s < 2 ^ 31 /\ len (points s) = points_max s /\ 0 <= tmf_head s < points_max s
  /\ 0 <= points_valid s <= points_max s
  /\ (points_valid s < points_max s -> tmf_head s = points_valid s).

(** The points held, oldest first. *)
Definition tmf_abs (s : jsdrv_tmf_s) : list tmf_point_s :=
  if points_valid s <? points_max s then take (Z.to_nat (points_valid s)) (points s)
  else drop (Z.to_nat (tmf_head s)) (points s) ++ take (Z.to_nat (tmf_head s)) (points s).


(** The offset that point [p] gives, relative to the counter [c0]. *)
Definition point_estimate (rate c0 : Z) (p : tmf_point_s) : Z :=
  pt_utc p - u64 (pt_counter p - c0) * 2 ^ 30 / rate.

Definition best_estimate (rate c0 : Z) (l : list tmf_point_s) (est : Z) : Z :=
  foldl (fun est p => Z.min (point_estimate rate c0 p) est) est l.

(** No estimate overflows. *)
Definition point_ok (rate c0 : Z) (p : tmf_point_s) : Prop :=
  u64 (pt_counter p - c0) * 2 ^ 30 / rate < 2 ^ 63 /\ is_s 64 (point_estimate rate c0 p).

Lemma tmf_loop_spec pts max rate c0 : 0 < rate < 2 ^ 32 -> 0 < max < 2 ^ 31 ->
  forall n i est fuel, 0 <= i -> i + Z.of_nat n < max -> i + Z.of_nat n <= len pts -> (n <= fuel)%nat ->
  Forall (point_ok rate c0) (take n (drop (Z.to_nat i) pts)) ->
  tmf_loop fuel pts max (i + Z.of_nat n) (f64_of_Z rate) c0 i est
    = Ok (best_estimate rate c0 (take n (drop (Z.to_nat i) pts)) est).
Proof.
  intros Hr Hmax. induction n as [|n IH]; intros i est fuel Hi Hn Hl Hf Hok.
  - rewrite Z.add_0_r. destruct fuel; cbn [tmf_loop]; by rewrite Z.eqb_refl.
  - destruct fuel as [|fuel]; [lia|]. cbn [tmf_loop].
    rewrite (proj2 (Z.eqb_neq i _)) by lia.
    destruct (ld_in_range pts i) as (p & -> & Hp); [lia|].
    rewrite (drop_S _ _ _ Hp) in Hok |- *. cbn [take] in Hok |- *.
    apply Forall_cons_1 in Hok as [[Hq He] Hok]. unfold point_estimate in He.
    rewrite bind_Ok, f_to_u64_of_Z, bind_Ok by lia.
    rewrite counter_to_time_exact, bind_Ok by (done || (by apply uwrap_range) || lia).
    rewrite chk_i_ok, bind_Ok by done.
    change (pt_utc p - _ / rate) with (point_estimate rate c0 p).
    rewrite (uwrap_small 32 (i + 1)) by width_lia. rewrite (proj2 (Z.leb_gt max (i + 1))) by lia.
    replace (i + Z.of_nat (S n)) with (i + 1 + Z.of_nat n) by lia.
    replace (S (Z.to_nat i)) with (Z.to_nat (i + 1)) in * by lia.
    rewrite IH by (done || lia). unfold best_estimate. cbn [foldl]. do 2 f_equal.
    case_if; lia.
Qed.

(** The estimate of the code: all points while the ring is not full, else the oldest
    point alone. *)
Definition code_estimate (rate max : Z) (l : list tmf_point_s) : Z :=
  match l with
  | [] => 0
  | p0 :: _ =>
      if len l <? max then best_estimate rate (pt_counter p0) l (pt_utc p0) else pt_utc p0
  end.

Definition oldest_counter (l : list tmf_point_s) : Z :=
  match l with [] => 0 | p0 :: _ => pt_counter p0 end.

Lemma tmf_add_not_full s counter utc rate :
  wf_tmf s -> 0 < rate < 2 ^ 32 -> counter_rate (tmf_time_map s) = f64_of_Z rate ->
  is_s 64 (utc - utc_prev s) -> tmf_interval s <= utc - utc_prev s ->
  points_valid s + 1 < points_max s ->
  let l := tmf_abs s ++ [mk_point counter utc] in
  Forall (point_ok rate (oldest_counter l)) l ->
  exists s', tmf_add s counter utc = Ok s' /\ wf_tmf s' /\ tmf_abs s' = l
    /\ tmf_time_map s' = mk_time_map (code_estimate rate (points_max s) l) (oldest_counter l) (f64_of_Z rate)
    /\ points_max s' = points_max s.
Proof.
  intros (Hm & Hlen & Hh & Hv & Hfill) Hr Hrate Hdt Hint Hnf l Hok.
  specialize (Hfill ltac:(lia)). unfold tmf_add. rewrite chk_i_ok, bind_Ok by done.
  rewrite (proj2 (Z.ltb_ge _ _)) by lia. rewrite st_ok, bind_Ok by lia.
  rewrite Hrate, Hfill. rewrite !(uwrap_small 32 (points_valid s + 1)) by width_lia.
  rewrite (proj2 (Z.leb_gt (points_max s) _)), (proj2 (Z.ltb_lt (points_valid s) _)) by lia.
  rewrite (uwrap_small 32 (points_max s + _)) by width_lia.
  replace (points_max s + (points_valid s + 1) - (points_valid s + 1)) with (points_max s) by lia.
  rewrite (uwrap_small 32 (points_max s)), Z.leb_refl, Z.sub_diag by width_lia.
  change (u32 0) with 0.
  set (pts := <[_ := _]> (points s)).
  assert (take (Z.to_nat (points_valid s + 1)) pts = l) as Htake.
  { unfold pts, l, tmf_abs. rewrite (proj2 (Z.ltb_lt (points_valid s) _)) by lia.
    replace (Z.to_nat (points_valid s + 1)) with (S (Z.to_nat (points_valid s))) by lia.
    erewrite take_S_r by (apply list_lookup_insert_eq; unfold len in Hlen; lia).
    by rewrite take_insert_ge by lia. }
  assert (len pts = points_max s) as Hlp by (unfold pts; by rewrite len_insert).
  destruct pts as [|p0 pts'] eqn:Hpts; [rewrite (@len_nil tmf_point_s) in Hlp; lia|].
  change (ld (p0 :: pts') 0) with (Ok p0). rewrite bind_Ok. rewrite <- Hpts in *.
  assert (exists k, l = p0 :: k) as [k Hk].
  { rewrite <- Htake, Hpts. replace (Z.to_nat (points_valid s + 1)) with (S (Z.to_nat (points_valid s))) by lia.
    cbn [take]. eauto. }
  assert (len l = points_valid s + 1) as Hll.
  { rewrite <- Htake. unfold len in *. rewrite length_take. lia. }
  pose proof (tmf_loop_spec pts (points_max s) rate (pt_counter p0) Hr Hm
    (Z.to_nat (points_valid s + 1)) 0 (pt_utc p0) (Z.to_nat (points_max s))) as Hloop.
  rewrite drop_0, Htake, Z.add_0_l, Z2Nat.id in Hloop by lia.
  assert (oldest_counter l = pt_counter p0) as Hoc by (by rewrite Hk). rewrite Hoc in *.
  rewrite Hloop, bind_Ok by (done || lia).
  eexists; split; [done|]. unfold wf_tmf, tmf_abs.
  cbn [points_max points points_valid tmf_head tmf_time_map]. split_and!; try lia.
  - rewrite (proj2 (Z.ltb_lt (points_valid s + 1) _)) by lia. done.
  - unfold code_estimate. rewrite Hll, (proj2 (Z.ltb_lt (points_valid s + 1) _)) by lia.
    clearbody l. by rewrite Hk.
Qed.

(** Overwriting the oldest slot of a full ring and advancing: the list drops its first
    element and gains the new one. *)
Lemma ring_rotate {A} (l : list A) (h : nat) (x : A) :
  (h < length l)%nat ->
  let h' := if (length l <=? S h)%nat then 0%nat else S h in
  drop h' (<[h := x]> l) ++ take h' (<[h := x]> l) = drop 1 (drop h l ++ take h l) ++ [x].
Proof.
  intros Hh h'. destruct (lookup_lt_is_Some_2 l h Hh) as [y Hy].
  apply list_elem_of_split_length in Hy as (a & b & -> & ->).
  rewrite insert_middle, drop_app_length, take_app_length by done. cbn [app drop].
  subst h'. rewrite length_app. cbn [List.length]. destruct (Nat.leb_spec (length a + S (length b)) (S (length a))).
  - destruct b; [|cbn in *; lia]. by rewrite drop_0, app_nil_r.
  - rewrite cons_middle, app_assoc. replace (S (length a)) with (length (a ++ [x])) by (rewrite length_app; cbn; lia).
    by rewrite drop_app_length, take_app_length, app_assoc.
Qed.

Lemma tmf_add_full s counter utc rate :
  wf_tmf s -> counter_rate (tmf_time_map s) = f64_of_Z rate ->
  is_s 64 (utc - utc_prev s) -> tmf_interval s <= utc - utc_prev s ->
  points_max s <= points_valid s + 1 ->
  let l := lastn (points_max s) (tmf_abs s ++ [mk_point counter utc]) in
  exists s', tmf_add s counter utc = Ok s' /\ wf_tmf s' /\ tmf_abs s' = l
    /\ tmf_time_map s' = mk_time_map (code_estimate rate (points_max s) l) (oldest_counter l) (f64_of_Z rate)
    /\ points_max s' = points_max s.
Proof.
  intros (Hm & Hlen & Hh & Hv & Hfill) Hrate Hdt Hint Hfull l.
  unfold tmf_add. rewrite chk_i_ok, bind_Ok by done.
  rewrite (proj2 (Z.ltb_ge _ _)) by lia. rewrite st_ok, bind_Ok by lia. rewrite Hrate.
  rewrite (uwrap_small 32 (tmf_head s + 1)) by width_lia.
  set (h := if points_max s <=? tmf_head s + 1 then 0 else tmf_head s + 1).
  assert (0 <= h < points_max s) as Hhr by (unfold h; case_if; lia).
  assert ((if points_valid s <? points_max s then u32 (points_valid s + 1) else points_valid s)
          = points_max s) as ->.
  { case_if; [rewrite uwrap_small by width_lia|]; lia. }
  rewrite (uwrap_small 32 (points_max s + h)) by width_lia.
  replace (points_max s + h - points_max s) with h by lia.
  rewrite (uwrap_small 32 h), (proj2 (Z.leb_gt (points_max s) h)) by width_lia.
  set (pts := <[_ := _]> (points s)).
  assert (len pts = points_max s) as Hlp by (unfold pts; by rewrite len_insert).
  destruct (ld_in_range pts h) as (p & -> & Hp); [lia|]. rewrite bind_Ok.
  assert (forall fuel est, tmf_loop fuel pts (points_max s) h (f64_of_Z rate) (pt_counter p) h est = Ok est) as ->.
  { intros [|fuel] est; cbn [tmf_loop]; by rewrite Z.eqb_refl. }
  rewrite bind_Ok. eexists; split; [done|].
  assert (drop (Z.to_nat h) pts ++ take (Z.to_nat h) pts = l) as Habs.
  { unfold len in Hlen. pose proof (ring_rotate (points s) (Z.to_nat (tmf_head s)) (mk_point counter utc) ltac:(lia)) as Hrot.
    replace (if (_ <=? _)%nat then 0%nat else _) with (Z.to_nat h) in Hrot.
    2: { unfold h. destruct (Nat.leb_spec (length (points s)) (S (Z.to_nat (tmf_head s)))); case_if; lia. }
    cbv zeta in Hrot. fold pts in Hrot. rewrite Hrot. unfold l, lastn, tmf_abs.
    rewrite length_app. cbn [List.length]. case_if.
    - replace (tmf_head s) with (points_valid s) by (symmetry; apply Hfill; lia).
      rewrite length_take, Nat.min_l by lia. replace (_ - _)%nat with 0%nat by lia. rewrite drop_0.
      destruct (lookup_lt_is_Some_2 (points s) (Z.to_nat (points_valid s))) as [y Hy]; [lia|].
      rewrite (drop_S _ _ _ Hy), (drop_ge (points s) (S _)) by lia. done.
    - rewrite length_app, length_drop, length_take, Nat.min_l by lia.
      replace (_ - _)%nat with 1%nat by lia. rewrite (drop_app_le (_ ++ _) [_]); [done|].
      rewrite length_app, length_drop, length_take. lia. }
  clearbody l. unfold wf_tmf, tmf_abs. cbn [points_max points points_valid tmf_head tmf_time_map].
  rewrite Z.ltb_irrefl, Habs. split_and!; try done; try lia.
  assert (exists k, l = p :: k) as [k Hk] by (rewrite <- Habs, (drop_S _ _ _ Hp); by eexists).
  assert (len l = points_max s) as Hll.
  { rewrite <- Habs. unfold len in *. rewrite length_app, length_drop, length_take. lia. }
  unfold code_estimate, oldest_counter. rewrite Hll, Z.ltb_irrefl. by rewrite Hk.
Qed.

(** ** Property *)

(** C31. Every accepted point joins the last [points_max] points, nothing outside the ring is
    touched, and the time map starts at the oldest counter held.  Its time is the
    lowest offset over all points held only while the ring is not full: when it is
    full, [tail] equals [head], the loop body never runs, and the time is the UTC of
    the oldest point alone. *)
Theorem tmf_add_estimate s counter utc rate :
  wf_tmf s -> 0 < rate < 2 ^ 32 -> counter_rate (tmf_time_map s) = f64_of_Z rate ->
  is_s 64 (utc - utc_prev s) -> tmf_interval s <= utc - utc_prev s ->
  let l := lastn (points_max s) (tmf_abs s ++ [mk_point counter utc]) in
  Forall (point_ok rate (oldest_counter l)) l ->
  exists s', tmf_add s counter utc = Ok s' /\ wf_tmf s' /\ tmf_abs s' = l
    /\ tmf_time_map s' = mk_time_map (code_estimate rate (points_max s) l) (oldest_counter l) (f64_of_Z rate).
Proof.
  intros Hwf Hr Hrate Hdt Hint l Hok.
  destruct (Z.lt_ge_cases (points_valid s + 1) (points_max s)).
  - assert (l = tmf_abs s ++ [mk_point counter utc]) as Hl.
    { pose proof Hwf as (_ & Hlen & _ & Hv & _). unfold len in Hlen.
      unfold l, lastn. rewrite length_app. unfold tmf_abs. rewrite (proj2 (Z.ltb_lt _ _)) by lia.
      rewrite length_take. cbn [List.length]. replace (_ - _)%nat with 0%nat by lia. apply drop_0. }
    rewrite Hl in *. destruct (tmf_add_not_full s counter utc rate) as (s' & ? & ? & ? & ? & _); eauto.
  - destruct (tmf_add_full s counter utc rate) as (s' & ? & ? & ? & ? & _); eauto.
Qed.

(** A ring of [n] slots that holds one point. *)
Definition tmf_example (n : nat) : jsdrv_tmf_s :=
  mk_tmf (mk_time_map 10737423240 1000 (f64_of_Z 1000)) 1074 (Z.of_nat (S n)) 1 1 10737423240
    (mk_point 1000 10737423240 :: replicate n (mk_point 0 0)).

(** The second point, with less transport delay, fills a ring of two: it is ignored. *)
Lemma tmf_add_estimate_witness :
  exists s', tmf_add (tmf_example 1) 2000 11811160064 = Ok s' /\ wf_tmf s'
    /\ tmf_abs s' = [mk_point 1000 10737423240; mk_point 2000 11811160064]
    /\ tmf_time_map s' = mk_time_map 10737423240 1000 (f64_of_Z 1000).
Proof.
  apply (tmf_add_estimate (tmf_example 1) 2000 11811160064 1000).
  - split_and!; cbn; try lia; done.
  - lia.
  - reflexivity.
  - by vm_compute.
  - by vm_compute.
  - repeat constructor; by vm_compute.
Defined.

(** In a ring of three the same two points give the lower offset. *)
Example tmf_larger_ring :
  (s ← tmf_add (tmf_example 2) 2000 11811160064; Ok (offset_time (tmf_time_map s))) = Ok 10737418240.
Proof. vm_compute. reflexivity. Qed.
