(* ===== verification/I128.v ===== *)
(** * 128-bit integers (src/devices/js220/js220_i128.c)

    The union [js220_i128] as its two 64-bit words.  The portable implementation is
    modelled operation by operation; [Native] holds the variants that compilers with
    [__int128] use.  The value of a pair of words is [uval], modulo [2^128], or [sval]
    in two's complement. *)

From S2P Require Import Prelude Float.

Record js220_i128 := mk_i128 { w0 : Z; w1 : Z }.   (* u64[0], u64[1] *)

Definition wf_i128 (x : js220_i128) : Prop := is_u 64 (w0 x) /\ is_u 64 (w1 x).
Definition uval (x : js220_i128) : Z := w1 x * 2 ^ 64 + w0 x.
Definition sval (x : js220_i128) : Z := swrap 128 (uval x).
(** The words of an integer modulo [2^128]. *)
Definition of_Z (v : Z) : js220_i128 := mk_i128 (u64 v) (u64 (v / 2 ^ 64)).

Definition U64_SIGN_BIT : Z := 0x8000000000000000.

(** ** Portable helpers *)

(** The low and the high word of the product. *)
Definition js220_i128_umul128_ (a b : Z) : Z * Z :=
  let a_lo := u32 a in
  let a_hi := Z.shiftr a 32 in
  let b_lo := u32 b in
  let b_hi := Z.shiftr b 32 in
  let p_ll := u64 (a_lo * b_lo) in
  let p_lh := u64 (a_lo * b_hi) in
  let p_hl := u64 (a_hi * b_lo) in
  let p_hh := u64 (a_hi * b_hi) in
  let mid := u64 (u64 (Z.shiftr p_ll 32 + Z.land p_lh 0xFFFFFFFF) + Z.land p_hl 0xFFFFFFFF) in
  let hi := u64 (u64 (u64 (p_hh + Z.shiftr p_lh 32) + Z.shiftr p_hl 32) + Z.shiftr mid 32) in
  (Z.lor (Z.land p_ll 0xFFFFFFFF) (u64 (Z.shiftl mid 32)), hi).

(** One round of the restoring division on [(quot, rem, lo)]. *)
Definition udiv_step (divisor : Z) (s : Z * Z * Z) : Z * Z * Z :=
  let '(quot, rem, lo) := s in
  let rem_top := Z.shiftr rem 63 in
  let rem := Z.lor (u64 (Z.shiftl rem 1)) (Z.shiftr lo 63) in
  let lo := u64 (Z.shiftl lo 1) in
  let quot := u64 (Z.shiftl quot 1) in
  if negb (rem_top =? 0) || (divisor <=? rem)
  then (Z.lor quot 1, u64 (rem - divisor), lo)
  else (quot, rem, lo).

(** Quotient and remainder. *)
Definition js220_i128_udiv128_ (hi lo divisor : Z) : Z * Z :=
  let '(quot, rem, _) := Nat.iter 64 (udiv_step divisor) (0, hi, lo) in (quot, rem).

(** ** Public API *)

Definition js220_i128_init_i64 (a : Z) : js220_i128 :=
  mk_i128 (u64 a) (u64 (if 0 <=? a then 0 else -1)).

Definition js220_i128_add (a b : js220_i128) : js220_i128 :=
  let r0 := u64 (w0 a + w0 b) in
  let carry := if r0 <? w0 a then 1 else 0 in
  mk_i128 r0 (u64 (u64 (w1 a + w1 b) + carry)).

Definition js220_i128_sub (a b : js220_i128) : js220_i128 :=
  let r0 := u64 (w0 a - w0 b) in
  let borrow := if w0 a <? w0 b then 1 else 0 in
  mk_i128 r0 (u64 (u64 (w1 a - w1 b) - borrow)).

Definition js220_i128_square_i64 (a : Z) : res js220_i128 :=
  a ← (if a <? 0 then chk_i 64 (- a) else Ok a);
  let '(lo, hi) := js220_i128_umul128_ (u64 a) (u64 a) in
  Ok (mk_i128 lo hi).

Definition js220_i128_neg (x : js220_i128) : js220_i128 :=
  let x1 := u64 (Z.lnot (w1 x)) in
  let x0 := u64 (Z.lnot (w0 x)) in
  let z1 := Z.land x0 U64_SIGN_BIT in
  let x0 := u64 (x0 + 1) in
  let x1 := if negb (Z.land x0 U64_SIGN_BIT =? z1) then u64 (x1 + 1) else x1 in
  mk_i128 x0 x1.

(** The quotient and the remainder. *)
Definition js220_i128_udiv (dividend : js220_i128) (divisor : Z) : res (js220_i128 * Z) :=
  if divisor =? 0 then Fault DivByZero
  else
    let r1 := w1 dividend / divisor in
    let d1 := u64 (w1 dividend - u64 (r1 * divisor)) in
    let '(r0, remainder) := js220_i128_udiv128_ d1 (w0 dividend) divisor in
    Ok (mk_i128 r0 r1, remainder).

Definition js220_i128_lshift (x : js220_i128) (shift : Z) : res js220_i128 :=
  if 0 <? shift then
    if 64 <=? shift then Fault BadShift
    else Ok (mk_i128 (u64 (Z.shiftl (w0 x) shift))
               (Z.lor (u64 (Z.shiftl (w1 x) shift)) (Z.shiftr (w0 x) (64 - shift))))
  else if 0 =? shift then Ok x
  else
    shift ← chk_i 32 (- shift);
    if 64 <=? shift then Fault BadShift
    else Ok (mk_i128 (Z.lor (Z.shiftr (w0 x) shift) (u64 (Z.shiftl (w1 x) (64 - shift))))
               (u64 (Z.shiftr (i64 (w1 x)) shift))).

Definition js220_i128_rshift (x : js220_i128) (shift : Z) : res js220_i128 :=
  shift ← chk_i 32 (- shift); js220_i128_lshift x shift.

Definition js220_i128_is_neg (x : js220_i128) : bool := i64 (w1 x) <? 0.

(** The normalisation loop of the float conversion. *)
Fixpoint norm_loop (fuel : nat) (x : js220_i128) (exponent : Z) : res (js220_i128 * Z) :=
  if negb (Z.land (w1 x) U64_SIGN_BIT =? 0) then Ok (x, exponent)
  else match fuel with
  | O => Fault OutOfFuel
  | S fuel' =>
      let x1 := Z.lor (u64 (Z.shiftl (w1 x) 1)) (Z.land (Z.shiftr (w0 x) 63) 1) in
      norm_loop fuel' (mk_i128 (u64 (Z.shiftl (w0 x) 1)) x1) (exponent - 1)
  end.

(** [pow(2, exponent)] is exact. *)
Definition js220_i128_to_f64 (x : js220_i128) (q : Z) : res f64 :=
  let exponent := i32 (u32 (128 - q - 64)) in
  let is_neg := negb (Z.land (w1 x) U64_SIGN_BIT =? 0) in
  let x := if is_neg then js220_i128_neg x else x in
  if (w0 x =? 0) && (w1 x =? 0) then Ok (S754_zero false)
  else
    '(x, exponent) ← norm_loop 128 x exponent;
    let f := f64_mul (f64_of_Z (w1 x)) (f64_lit 1 exponent) in
    Ok (if is_neg then f64_opp f else f).

Definition js220_i128_compute_std (x1 : Z) (x2 : js220_i128) (n q : Z) : res f64 :=
  x1 ← (if x1 <? 0 then chk_i 64 (- x1) else Ok x1);
  m ← js220_i128_square_i64 x1;
  '(d, _) ← js220_i128_udiv m n;
  if (w1 x2 <? w1 d) || ((w1 x2 =? w1 d) && (w0 x2 <? w0 d)) then Ok (S754_zero false)
  else
    let x21 := if w0 x2 <? w0 d then u64 (w1 x2 - 1) else w1 x2 in
    let m := mk_i128 (u64 (w0 x2 - w0 d)) (u64 (x21 - w1 d)) in
    '(d, _) ← js220_i128_udiv m n;
    f ← js220_i128_to_f64 d (u32 (q * 2));
    Ok (f64_sqrt f).

Definition js220_i128_compute_integral (x : js220_i128) (n : Z) : res js220_i128 :=
  if i64 (w1 x) <? 0 then
    '(r, _) ← js220_i128_udiv (js220_i128_neg x) n;
    Ok (js220_i128_neg r)
  else '(r, _) ← js220_i128_udiv x n; Ok r.

(** ** The variants on a native 128-bit type *)

Module Native.
Definition add (a b : js220_i128) : res js220_i128 :=
  v ← chk_i 128 (sval a + sval b); Ok (of_Z v).
Definition sub (a b : js220_i128) : res js220_i128 :=
  v ← chk_i 128 (sval a - sval b); Ok (of_Z v).
Definition square_i64 (a : Z) : res js220_i128 := v ← chk_i 128 (a * a); Ok (of_Z v).
Definition udiv (dividend : js220_i128) (divisor : Z) : res (js220_i128 * Z) :=
  if divisor =? 0 then Fault DivByZero
  else
    let q := Z.quot (sval dividend) divisor in
    p ← chk_i 128 (q * divisor);
    d ← chk_i 128 (sval dividend - p);
    Ok (of_Z q, u64 d).
End Native.

(** ** Words and values *)

Lemma uval_range x : wf_i128 x -> 0 <= uval x < 2 ^ 128.
Proof. intros [H0 H1]. unfold uval. widths. change (2 ^ 128) with (18446744073709551616 * 18446744073709551616). lia. Qed.

Lemma of_Z_wf v : wf_i128 (of_Z v).
Proof. split; by apply uwrap_range. Qed.

Lemma uval_of_Z v : uval (of_Z v) = v mod 2 ^ 128.
Proof.
  unfold uval, of_Z, uwrap; cbn [w0 w1]. change (2 ^ 128) with (2 ^ 64 * 2 ^ 64).
  rewrite Z.rem_mul_r by lia. lia.
Qed.

Lemma uval_inj x y : wf_i128 x -> wf_i128 y -> uval x = uval y -> x = y.
Proof.
  intros [H0 H1] [H0' H1'] H. destruct x as [a b], y as [c d]. unfold uval in H; cbn in *.
  widths. assert (b = d) by lia. f_equal; lia.
Qed.

(** A well-formed pair is determined by its value modulo [2^128]. *)
Lemma of_Z_unique x v : wf_i128 x -> uval x = v mod 2 ^ 128 -> x = of_Z v.
Proof. intros H Hv. apply uval_inj; [done | apply of_Z_wf | by rewrite uval_of_Z]. Qed.

Lemma sval_mod x : sval x mod 2 ^ 128 = uval x mod 2 ^ 128.
Proof.
  unfold sval, swrap. rewrite Zminus_mod_idemp_l. f_equal. lia.
Qed.

Lemma sval_nonneg x : wf_i128 x -> uval x < 2 ^ 127 -> sval x = uval x.
Proof. intros H Hx. apply uval_range in H. apply swrap_small; [lia|]. unfold is_s. change (128 - 1) with 127. lia. Qed.

Lemma sval_neg x : wf_i128 x -> 2 ^ 127 <= uval x -> sval x = uval x - 2 ^ 128.
Proof.
  intros H Hx. apply uval_range in H. unfold sval, swrap. change (128 - 1) with 127.
  replace (uval x + 2 ^ 127) with (uval x - 2 ^ 127 + 1 * 2 ^ 128) by (change (2 ^ 128) with (2 * 2 ^ 127); lia).
  rewrite Z.mod_add by lia. rewrite Z.mod_small by (change (2 ^ 128) with (2 * 2 ^ 127) in *; lia).
  change (2 ^ 128) with (2 * 2 ^ 127). lia.
Qed.

Lemma sign_bit x : is_u 64 x -> Z.land x U64_SIGN_BIT = x / 2 ^ 63 * 2 ^ 63.
Proof. intros H. apply (land_high_mask x 1 63); [lia | lia | exact H]. Qed.

Lemma is_neg_spec x : wf_i128 x -> js220_i128_is_neg x = (sval x <? 0).
Proof.
  intros Hw. pose proof (uval_range x Hw). pose proof Hw as [H0 H1]. unfold js220_i128_is_neg.
  assert (i64 (w1 x) = if 2 ^ 63 <=? w1 x then w1 x - 2 ^ 64 else w1 x) as ->.
  { unfold swrap. case_if; change (2 ^ 63) with 9223372036854775808 in *; div_lia. }
  unfold is_u in *. assert (2 ^ 127 = 2 ^ 63 * 2 ^ 64) as E127 by reflexivity.
  case_if.
  - rewrite sval_neg by (done || (unfold uval; lia)). apply Bool.eq_iff_eq_true. rewrite !Z.ltb_lt. lia.
  - rewrite sval_nonneg by (done || (unfold uval in *; lia)). apply Bool.eq_iff_eq_true. rewrite !Z.ltb_lt. lia.
Qed.

(** ** Addition, subtraction, negation *)

Lemma add_spec a b : wf_i128 a -> wf_i128 b ->
  js220_i128_add a b = of_Z (uval a + uval b).
Proof.
  intros [Ha0 Ha1] [Hb0 Hb1]. apply of_Z_unique.
  - split; by apply uwrap_range.
  - unfold js220_i128_add, uval, uwrap; cbn [w0 w1]. unfold is_u in *.
    set (q := if 2 ^ 64 <=? w0 a + w0 b then 1 else 0).
    assert ((w0 a + w0 b) mod 2 ^ 64 = w0 a + w0 b - q * 2 ^ 64) as ->.
    { unfold q. symmetry. case_if; [apply Z.mod_unique with 1 | apply Z.mod_unique with 0]; lia. }
    assert ((if w0 a + w0 b - q * 2 ^ 64 <? w0 a then 1 else 0) = q) as ->.
    { unfold q. repeat case_if; lia. }
    rewrite Zplus_mod_idemp_l.
    apply Z.mod_unique with ((w1 a + w1 b + q) / 2 ^ 64).
    + pose proof (Z.mod_pos_bound (w1 a + w1 b + q) (2 ^ 64) ltac:(lia)).
      assert (0 <= w0 a + w0 b - q * 2 ^ 64 < 2 ^ 64) by (unfold q; case_if; lia).
      change (2 ^ 128) with (2 ^ 64 * 2 ^ 64). lia.
    + pose proof (Z.div_mod (w1 a + w1 b + q) (2 ^ 64) ltac:(lia)).
      change (2 ^ 128) with (2 ^ 64 * 2 ^ 64). lia.
Qed.

Lemma sub_spec a b : wf_i128 a -> wf_i128 b ->
  js220_i128_sub a b = of_Z (uval a - uval b).
Proof.
  intros [Ha0 Ha1] [Hb0 Hb1]. apply of_Z_unique.
  - split; by apply uwrap_range.
  - unfold js220_i128_sub, uval, uwrap; cbn [w0 w1]. unfold is_u in *.
    set (q := if w0 a <? w0 b then 1 else 0).
    assert ((w0 a - w0 b) mod 2 ^ 64 = w0 a - w0 b + q * 2 ^ 64) as ->.
    { unfold q. symmetry. case_if; [apply Z.mod_unique with (-1) | apply Z.mod_unique with 0]; lia. }
    rewrite Zminus_mod_idemp_l.
    apply Z.mod_unique with ((w1 a - w1 b - q) / 2 ^ 64).
    + pose proof (Z.mod_pos_bound (w1 a - w1 b - q) (2 ^ 64) ltac:(lia)).
      assert (0 <= w0 a - w0 b + q * 2 ^ 64 < 2 ^ 64) by (unfold q; case_if; lia).
      change (2 ^ 128) with (2 ^ 64 * 2 ^ 64). lia.
    + pose proof (Z.div_mod (w1 a - w1 b - q) (2 ^ 64) ltac:(lia)).
      change (2 ^ 128) with (2 ^ 64 * 2 ^ 64). lia.
Qed.

(** The carry into the upper word is taken from a change of the sign bit of the lower
    word, which is also there when the lower word is [2^63]. *)
Lemma neg_spec x : wf_i128 x ->
  js220_i128_neg x = of_Z (- uval x + (if w0 x =? 2 ^ 63 then 2 ^ 64 else 0)).
Proof.
  intros [H0 H1]. unfold js220_i128_neg. unfold is_u in *.
  assert (forall v, 0 <= v < 2 ^ 64 -> u64 (Z.lnot v) = 2 ^ 64 - 1 - v) as Hnot.
  { intros v Hv. unfold Z.lnot, uwrap. symmetry. apply Z.mod_unique with (-1); lia. }
  rewrite !Hnot by done.
  assert (u64 (2 ^ 64 - 1 - w0 x + 1) = if w0 x =? 0 then 0 else 2 ^ 64 - w0 x) as ->.
  { unfold uwrap. symmetry. case_if; [apply Z.mod_unique with 1 | apply Z.mod_unique with 0]; lia. }
  rewrite !sign_bit by (unfold is_u; try case_if; lia).
  assert (negb ((if w0 x =? 0 then 0 else 2 ^ 64 - w0 x) / 2 ^ 63 * 2 ^ 63 =? (2 ^ 64 - 1 - w0 x) / 2 ^ 63 * 2 ^ 63)
          = (w0 x =? 0) || (w0 x =? 2 ^ 63)) as ->.
  { apply Bool.eq_iff_eq_true. rewrite negb_true_iff, orb_true_iff, Z.eqb_neq, !Z.eqb_eq.
    change (2 ^ 63) with 9223372036854775808 in *. case_if; div_lia. }
  apply of_Z_unique.
  - split; cbn [w0 w1]; [unfold is_u; case_if; lia|].
    destruct (_ || _); [by apply uwrap_range | unfold is_u; lia].
  - unfold uval; cbn [w0 w1]. assert (u64 (2 ^ 64 - 1 - w1 x + 1) = if w1 x =? 0 then 0 else 2 ^ 64 - w1 x) as ->.
    { unfold uwrap. symmetry. case_if; [apply Z.mod_unique with 1 | apply Z.mod_unique with 0]; lia. }
    assert (2 ^ 128 = 2 ^ 64 * 2 ^ 64) as E by reflexivity. rewrite E. clear E.
    change (2 ^ 63) with 9223372036854775808. change (2 ^ 64) with 18446744073709551616 in *.
    destruct (w0 x =? 0) eqn:E0; bool_facts.
    + rewrite (proj2 (Z.eqb_neq (w0 x) _)) by lia. cbn [orb].
      case_if; [apply Z.mod_unique with 0 | apply Z.mod_unique with (-1)]; lia.
    + cbn [orb]. case_if.
      * case_if; [apply Z.mod_unique with 0 | apply Z.mod_unique with (-1)]; lia.
      * apply Z.mod_unique with (-1); lia.
Qed.

(** ** Multiplication and division *)

(** The sum of the partial products, with the carries of the middle word. *)
Lemma umul_sum pll plh phl phh :
  0 <= pll <= (2 ^ 32 - 1) * (2 ^ 32 - 1) -> 0 <= plh <= (2 ^ 32 - 1) * (2 ^ 32 - 1) ->
  0 <= phl <= (2 ^ 32 - 1) * (2 ^ 32 - 1) -> 0 <= phh <= (2 ^ 32 - 1) * (2 ^ 32 - 1) ->
  let mid := u64 (u64 (pll / 2 ^ 32 + plh mod 2 ^ 32) + phl mod 2 ^ 32) in
  let hi := u64 (u64 (u64 (phh + plh / 2 ^ 32) + phl / 2 ^ 32) + mid / 2 ^ 32) in
  let lo := Z.lor (pll mod 2 ^ 32) (u64 (Z.shiftl mid 32)) in
  is_u 64 lo /\ is_u 64 hi /\ hi * 2 ^ 64 + lo = phh * 2 ^ 64 + (plh + phl) * 2 ^ 32 + pll.
Proof.
  intros Hll Hlh Hhl Hhh.
  change (2 ^ 32) with 4294967296 in *.
  rewrite (uwrap_small 64 (pll / _ + _)) by div_lia. rewrite (uwrap_small 64 (_ + phl mod _)) by div_lia.
  set (mid := pll / _ + _ + _). assert (0 <= mid < 3 * 4294967296) as Hmid by (unfold mid; div_lia).
  cbv zeta. rewrite (uwrap_small 64 (phh + _)) by div_lia.
  rewrite (uwrap_small 64 (_ + phl / _)) by div_lia.
  rewrite (uwrap_small 64 (_ + mid / _)) by div_lia.
  rewrite Z.shiftl_mul_pow2 by lia. change (2 ^ 32) with 4294967296.
  assert (u64 (mid * 4294967296) = mid mod 4294967296 * 4294967296) as ->.
  { unfold uwrap. change (2 ^ 64) with (4294967296 * 4294967296).
    rewrite Z.mul_mod_distr_r by lia. done. }
  rewrite Z.lor_comm. change (mid mod 4294967296 * 4294967296) with (mid mod 4294967296 * 2 ^ 32).
  rewrite lor_add_disjoint by (try apply Z.mod_pos_bound; lia).
  change (2 ^ 32) with 4294967296. split_and!; [div_lia | div_lia |]. unfold mid. div_lia.
Qed.

Lemma umul128_spec a b : is_u 64 a -> is_u 64 b ->
  let r := js220_i128_umul128_ a b in
  is_u 64 r.1 /\ is_u 64 r.2 /\ r.2 * 2 ^ 64 + r.1 = a * b.
Proof.
  intros Ha Hb. unfold js220_i128_umul128_. cbv zeta. cbn [fst snd].
  rewrite !Z.shiftr_div_pow2 by lia. change 0xFFFFFFFF with (Z.ones 32). rewrite !Z.land_ones by lia.
  assert (forall x, is_u 64 x -> 0 <= u32 x <= 2 ^ 32 - 1 /\ 0 <= x / 2 ^ 32 <= 2 ^ 32 - 1
            /\ x = x / 2 ^ 32 * 2 ^ 32 + u32 x) as Hw.
  { intros x Hx. unfold uwrap. change (2 ^ 32) with 4294967296. div_lia. }
  destruct (Hw a Ha) as (Hal & Hah & Ea), (Hw b Hb) as (Hbl & Hbh & Eb).
  set (al := u32 a) in *. set (ah := a / 2 ^ 32) in *. set (bl := u32 b) in *. set (bh := b / 2 ^ 32) in *.
  clearbody al ah bl bh.
  assert (forall x y, 0 <= x <= 2 ^ 32 - 1 -> 0 <= y <= 2 ^ 32 - 1 ->
    0 <= x * y <= (2 ^ 32 - 1) * (2 ^ 32 - 1)) as Hmul.
  { intros x y Hx Hy. split; [lia|]. apply Z.mul_le_mono_nonneg; lia. }
  assert (forall x y, 0 <= x <= 2 ^ 32 - 1 -> 0 <= y <= 2 ^ 32 - 1 -> u64 (x * y) = x * y) as Hsm.
  { intros x y Hx Hy. apply uwrap_small. specialize (Hmul x y Hx Hy). width_lia. }
  rewrite !Hsm by done.
  destruct (umul_sum (al * bl) (al * bh) (ah * bl) (ah * bh)) as (H1 & H2 & H3); [by apply Hmul..|].
  split_and!; [exact H1 | exact H2 |]. rewrite H3, Ea, Eb.
  replace (2 ^ 64) with (2 ^ 32 * 2 ^ 32) by reflexivity. ring.
Qed.

Lemma square_spec a : I64_MIN < a <= I64_MAX -> js220_i128_square_i64 a = Ok (of_Z (a * a)).
Proof.
  intros Ha. unfold js220_i128_square_i64.
  assert ((if a <? 0 then chk_i 64 (- a) else Ok a) = Ok (Z.abs a)) as ->.
  { case_if; [rewrite chk_i_ok by width_lia|]; f_equal; lia. }
  rewrite bind_Ok, uwrap_small by width_lia.
  pose proof (umul128_spec (Z.abs a) (Z.abs a) ltac:(width_lia) ltac:(width_lia)) as (H0 & H1 & H).
  destruct (js220_i128_umul128_ _ _) as [lo hi]; cbn [fst snd] in *. f_equal.
  apply of_Z_unique; [by split|]. unfold uval; cbn [w0 w1]. rewrite H, <- Z.abs_mul, Z.abs_eq by nia.
  symmetry. apply Z.mod_small. split; [nia|].
  change (2 ^ 128) with (2 ^ 64 * 2 ^ 64). change (2 ^ 64) with 18446744073709551616. nia.
Qed.

(** *** The restoring division *)

(** The number that a state of the loop stands for, scaled by the rounds made. *)
Definition div_weight (d : Z) (s : Z * Z * Z) : Z :=
  let '(q, r, l) := s in (q * d + r) * 2 ^ 64 + l.
Definition div_inv (d : Z) (n : nat) (s : Z * Z * Z) : Prop :=
  let '(q, r, l) := s in 0 <= q < 2 ^ Z.of_nat n /\ 0 <= r < d /\ is_u 64 l.

Lemma udiv_step_spec d n s : 0 < d < 2 ^ 64 -> (n < 64)%nat -> div_inv d n s ->
  div_inv d (S n) (udiv_step d s) /\ div_weight d (udiv_step d s) = 2 * div_weight d s.
Proof.
  intros Hd Hn. destruct s as [[q r] l]. intros (Hq & Hr & Hl). unfold udiv_step.
  rewrite !Z.shiftr_div_pow2, !Z.shiftl_mul_pow2 by lia. change (2 ^ 1) with 2.
  assert (2 ^ Z.of_nat n <= 2 ^ 63) by (apply Z.pow_le_mono_r; lia).
  assert (2 ^ Z.of_nat (S n) = 2 * 2 ^ Z.of_nat n) as Hpow
    by (rewrite Nat2Z.inj_succ, Z.pow_succ_r; lia).
  change (2 ^ 63) with 9223372036854775808 in *. unfold is_u in Hl.
  change (2 ^ 64) with 18446744073709551616 in *.
  rewrite (uwrap_small 64 (q * 2)) by width_lia.
  set (b := l / 9223372036854775808). assert (0 <= b <= 1) as Hb by (unfold b; div_lia).
  assert (u64 (l * 2) = l * 2 - b * 18446744073709551616) as ->.
  { unfold uwrap. symmetry. apply Z.mod_unique with b; [|unfold b; div_lia]. unfold b; div_lia. }
  assert (Z.lor (u64 (r * 2)) b = u64 (r * 2) + b) as Hlor.
  { assert (u64 (r * 2) = u64 (r * 2) / 2 * 2 ^ 1) as -> by (unfold uwrap; div_lia).
    apply lor_add_disjoint; lia. }
  rewrite Hlor. assert (Z.lor (q * 2) 1 = q * 2 + 1) as -> by (apply (lor_add_disjoint q 1 1); lia).
  set (t := r / 9223372036854775808). assert (0 <= t <= 1) as Ht by (unfold t; div_lia).
  assert (u64 (r * 2) = r * 2 - t * 18446744073709551616) as ->.
  { unfold uwrap. symmetry. apply Z.mod_unique with t; [|unfold t; div_lia]. unfold t; div_lia. }
  assert (is_u 64 (l * 2 - b * 18446744073709551616)) as Hl' by (unfold b; div_lia).
  assert (t * 18446744073709551616 <= r * 2 < t * 18446744073709551616 + 18446744073709551616)
    by (unfold t; div_lia). clearbody b t.
  destruct (negb (t =? 0) || (d <=? r * 2 - t * 18446744073709551616 + b)) eqn:E.
  - assert (d <= r * 2 + b) as Hge.
    { apply orb_true_iff in E as [E|E]; bool_facts; [|lia]. assert (t = 1) by lia. lia. }
    assert (u64 (r * 2 - t * 18446744073709551616 + b - d) = r * 2 + b - d) as ->.
    { unfold uwrap. symmetry. change (2 ^ 64) with 18446744073709551616. apply Z.mod_unique with (- t); lia. }
    split; [|unfold div_weight; change (2 ^ 64) with 18446744073709551616; nia].
    split_and!; [lia | lia | lia | lia | apply Hl' ..].
  - apply orb_false_iff in E as [E1 E2]. bool_facts. subst t.
    split; [|unfold div_weight; change (2 ^ 64) with 18446744073709551616; nia].
    split_and!; [lia | lia | lia | lia | apply Hl' ..].
Qed.

Lemma udiv_iter_spec d hi lo n : 0 < d < 2 ^ 64 -> 0 <= hi < d -> is_u 64 lo -> (n <= 64)%nat ->
  let s := Nat.iter n (udiv_step d) (0, hi, lo) in
  div_inv d n s /\ div_weight d s = 2 ^ Z.of_nat n * (hi * 2 ^ 64 + lo).
Proof.
  intros Hd Hhi Hlo. induction n as [|n IH]; intros Hn.
  - unfold is_u in Hlo. change (2 ^ Z.of_nat 0) with 1. split; [|cbn [Nat.iter nat_rect div_weight]; lia].
    cbn [Nat.iter nat_rect div_inv]. unfold is_u. change (2 ^ Z.of_nat 0) with 1. lia.
  - destruct IH as [Hi Hw]; [lia|]. rewrite Nat.iter_succ.
    destruct (udiv_step_spec d n _ Hd ltac:(lia) Hi) as [Hi' Hw']. split; [done|].
    rewrite Hw', Hw, Nat2Z.inj_succ, Z.pow_succ_r by lia. ring.
Qed.

Lemma udiv128_spec hi lo d : 0 < d < 2 ^ 64 -> 0 <= hi < d -> is_u 64 lo ->
  js220_i128_udiv128_ hi lo d = ((hi * 2 ^ 64 + lo) / d, (hi * 2 ^ 64 + lo) mod d).
Proof.
  intros Hd Hhi Hlo. unfold js220_i128_udiv128_.
  destruct (udiv_iter_spec d hi lo 64 Hd Hhi Hlo) as [Hi Hw]; [lia|].
  destruct (Nat.iter 64 _ _) as [[q r] l]. destruct Hi as (Hq & Hr & Hl). cbn [div_weight] in Hw.
  change (Z.of_nat 64) with 64 in *. unfold is_u in Hl.
  assert (q * d + r = hi * 2 ^ 64 + lo) as Heq by lia.
  f_equal; [apply Z.div_unique with r | apply Z.mod_unique with q]; lia.
Qed.

Lemma udiv_spec x d : wf_i128 x -> 0 < d < 2 ^ 64 ->
  js220_i128_udiv x d = Ok (of_Z (uval x / d), uval x mod d).
Proof.
  intros Hw Hd. pose proof Hw as [H0 H1]. unfold js220_i128_udiv. unfold is_u in *.
  rewrite (proj2 (Z.eqb_neq d 0)) by lia.
  assert (0 <= w1 x / d <= w1 x) as Hq.
  { split; [apply Z.div_pos; lia|]. apply Z.div_le_upper_bound; nia. }
  pose proof (Z.div_mod (w1 x) d ltac:(lia)) as Hdm. pose proof (Z.mod_pos_bound (w1 x) d ltac:(lia)) as Hr.
  rewrite (uwrap_small 64 (w1 x / d * d)) by (unfold is_u; lia).
  replace (w1 x - w1 x / d * d) with (w1 x mod d) by lia.
  rewrite (uwrap_small 64 (w1 x mod d)) by (unfold is_u; lia).
  rewrite udiv128_spec by (done || lia).
  set (lo := w1 x mod d * 2 ^ 64 + w0 x).
  assert (uval x = lo + w1 x / d * 2 ^ 64 * d) as Hx by (unfold uval, lo; lia).
  rewrite Hx, Z.mod_add, Z.div_add by lia. do 2 f_equal.
  assert (0 <= lo / d < 2 ^ 64) by (split; [apply Z.div_pos | apply Z.div_lt_upper_bound]; unfold lo; lia).
  apply of_Z_unique; [by split; unfold is_u; cbn; lia|]. unfold uval; cbn [w0 w1].
  symmetry. rewrite Z.add_comm. apply Z.mod_small. change (2 ^ 128) with (2 ^ 64 * 2 ^ 64). lia.
Qed.

(** ** Shifts *)

Lemma sval_words x : wf_i128 x -> sval x = i64 (w1 x) * 2 ^ 64 + w0 x.
Proof.
  intros Hw. pose proof Hw as [H0 H1]. unfold is_u in *. pose proof (uval_range x Hw).
  assert (i64 (w1 x) = if 2 ^ 63 <=? w1 x then w1 x - 2 ^ 64 else w1 x) as ->.
  { unfold swrap. case_if; change (2 ^ 63) with 9223372036854775808 in *; div_lia. }
  assert (2 ^ 127 = 2 ^ 63 * 2 ^ 64) as E127 by reflexivity.
  assert (2 ^ 128 = 2 ^ 64 * 2 ^ 64) as E128 by reflexivity.
  case_if; [rewrite sval_neg | rewrite sval_nonneg]; unfold uval in *; done || lia.
Qed.

(** [2^64] split at a shift count. *)
Lemma shift_split s : 0 < s < 64 ->
  0 < 2 ^ s /\ 0 < 2 ^ (64 - s) /\ 2 ^ s * 2 ^ (64 - s) = 2 ^ 64.
Proof.
  intros Hs. split_and!; [apply Z.pow_pos_nonneg; lia | apply Z.pow_pos_nonneg; lia |].
  rewrite <- Z.pow_add_r by lia. f_equal; lia.
Qed.

Lemma lshift_left_spec x s : wf_i128 x -> 0 < s < 64 ->
  js220_i128_lshift x s = Ok (of_Z (uval x * 2 ^ s)).
Proof.
  intros [H0 H1] Hs. unfold js220_i128_lshift, is_u in *.
  rewrite (proj2 (Z.ltb_lt 0 s)), (proj2 (Z.leb_gt 64 s)) by lia. f_equal.
  rewrite !Z.shiftl_mul_pow2, Z.shiftr_div_pow2 by lia.
  destruct (shift_split s Hs) as (HP & HM & HPM). set (P := 2 ^ s) in *. set (M := 2 ^ (64 - s)) in *.
  assert (forall w, u64 (w * P) = w mod M * P) as Hu.
  { intros w. unfold uwrap. rewrite <- HPM, Z.mul_comm, Z.mul_mod_distr_l by lia. lia. }
  rewrite !Hu.
  pose proof (Z.div_mod (w0 x) M ltac:(lia)) as D0. pose proof (Z.mod_pos_bound (w0 x) M ltac:(lia)) as B0.
  pose proof (Z.div_mod (w1 x) M ltac:(lia)) as D1. pose proof (Z.mod_pos_bound (w1 x) M ltac:(lia)) as B1.
  assert (0 <= w0 x / M < P) as B2 by (split; [apply Z.div_pos; lia | apply Z.div_lt_upper_bound; lia]).
  replace (Z.lor (w1 x mod M * P) (w0 x / M)) with (w1 x mod M * P + w0 x / M)
    by (symmetry; apply lor_add_disjoint; [lia | exact B2]).
  assert (0 <= w0 x mod M * P < 2 ^ 64) by nia.
  assert (0 <= w1 x mod M * P + w0 x / M < 2 ^ 64) by nia.
  apply of_Z_unique; [by split|]. unfold uval; cbn [w0 w1].
  apply Z.mod_unique with (w1 x / M); change (2 ^ 128) with (2 ^ 64 * 2 ^ 64); [lia|].
  set (q0 := w0 x / M) in *. set (r0 := w0 x mod M) in *.
  set (q1 := w1 x / M) in *. set (r1 := w1 x mod M) in *. clearbody q0 r0 q1 r1.
  rewrite D0, D1, <- HPM. ring.
Qed.

Lemma lshift_right_spec x s : wf_i128 x -> 0 < s < 64 ->
  js220_i128_lshift x (- s) = Ok (of_Z (sval x / 2 ^ s)).
Proof.
  intros Hw Hs. pose proof Hw as [H0 H1]. unfold js220_i128_lshift, is_u in *.
  rewrite (proj2 (Z.ltb_ge 0 (- s))), (proj2 (Z.eqb_neq 0 (- s))) by lia.
  rewrite Z.opp_involutive, chk_i_ok, bind_Ok, (proj2 (Z.leb_gt 64 s)) by width_lia. f_equal.
  rewrite sval_words by done. rewrite !Z.shiftl_mul_pow2, !Z.shiftr_div_pow2 by lia.
  destruct (shift_split s Hs) as (HP & HM & HPM). set (P := 2 ^ s) in *. set (M := 2 ^ (64 - s)) in *.
  assert (u64 (w1 x * M) = i64 (w1 x) mod P * M) as ->.
  { unfold uwrap. rewrite <- HPM, Z.mul_mod_distr_r by lia. f_equal. unfold swrap.
    set (H63 := 2 ^ (64 - 1)). rewrite (Z.mod_eq _ (2 ^ 64)) by lia. set (q := (w1 x + H63) / 2 ^ 64).
    replace (w1 x + H63 - 2 ^ 64 * q - H63) with (w1 x + (- (M * q)) * P) by (rewrite <- HPM; ring).
    by rewrite Z.mod_add by lia. }
  set (W := i64 (w1 x)).
  assert (0 <= w0 x / P < M) as B0 by (split; [apply Z.div_pos; lia | apply Z.div_lt_upper_bound; lia]).
  pose proof (Z.mod_pos_bound W P ltac:(lia)) as B1.
  rewrite Z.lor_comm. replace (Z.lor (W mod P * M) (w0 x / P)) with (W mod P * M + w0 x / P)
    by (symmetry; apply lor_add_disjoint; [lia | exact B0]).
  assert ((W * 2 ^ 64 + w0 x) / P = W / P * 2 ^ 64 + (W mod P * M + w0 x / P)) as ->.
  { rewrite (Z.div_mod W P) at 1 by lia.
    replace ((P * (W / P) + W mod P) * 2 ^ 64 + w0 x)
      with (w0 x + (W / P * 2 ^ 64 + W mod P * M) * P) by (rewrite <- HPM; ring).
    rewrite Z.div_add by lia. ring. }
  assert (0 <= W mod P * M + w0 x / P < 2 ^ 64) as B2 by nia.
  unfold of_Z. rewrite Z.div_add_l, (Z.div_small (_ + w0 x / P)), Z.add_0_r by lia. f_equal.
  unfold uwrap. by rewrite (Z.add_comm (W / P * _)), Z.mod_add, (Z.mod_small (_ + w0 x / P)) by lia.
Qed.

(** ** Signed quotient *)

Lemma neg_of_pos x : wf_i128 x -> w0 x <> 2 ^ 63 -> js220_i128_neg x = of_Z (- uval x).
Proof. intros Hw Hn. rewrite neg_spec by done. rewrite (proj2 (Z.eqb_neq _ _) Hn). f_equal; lia. Qed.

Lemma of_Z_mod v w : v mod 2 ^ 128 = w mod 2 ^ 128 -> of_Z v = of_Z w.
Proof. intros H. apply of_Z_unique; [apply of_Z_wf|]. by rewrite uval_of_Z. Qed.

(** *** The operations on the words of an integer *)

Lemma init_of_Z p : is_s 64 p -> js220_i128_init_i64 p = of_Z p.
Proof.
  intros Hp. unfold js220_i128_init_i64, of_Z. do 2 f_equal. widths. case_if.
  - symmetry. apply Z.div_small. lia.
  - apply Z.div_unique with (p + 18446744073709551616); lia.
Qed.

Lemma add_of_Z a b : js220_i128_add (of_Z a) (of_Z b) = of_Z (a + b).
Proof. rewrite add_spec by apply of_Z_wf. apply of_Z_mod. by rewrite !uval_of_Z, <- Z.add_mod. Qed.

Lemma neg_of_Z a : a mod 2 ^ 64 <> 2 ^ 63 -> js220_i128_neg (of_Z a) = of_Z (- a).
Proof.
  intros H. rewrite neg_of_pos by (apply of_Z_wf || exact H). apply of_Z_mod. rewrite uval_of_Z.
  rewrite <- (Z.sub_0_l (a mod _)), <- (Z.sub_0_l a), Zminus_mod_idemp_r. done.
Qed.

Lemma is_neg_of_Z a : is_s 128 a -> js220_i128_is_neg (of_Z a) = (a <? 0).
Proof.
  intros Ha. rewrite is_neg_spec by apply of_Z_wf. f_equal. unfold sval. rewrite uval_of_Z. unfold swrap.
  rewrite Z.add_mod_idemp_l by done. by apply swrap_small.
Qed.

Lemma udiv_of_Z a d : 0 <= a < 2 ^ 128 -> 0 < d < 2 ^ 64 -> js220_i128_udiv (of_Z a) d = Ok (of_Z (a / d), a mod d).
Proof. intros Ha Hd. rewrite udiv_spec by (done || apply of_Z_wf). by rewrite uval_of_Z, Z.mod_small by done. Qed.

Lemma compute_integral_spec x n : wf_i128 x -> 0 < n < 2 ^ 64 ->
  (sval x < 0 -> w0 x <> 2 ^ 63 /\ u64 (- sval x / n) <> 2 ^ 63) ->
  js220_i128_compute_integral x n = Ok (of_Z (Z.quot (sval x) n)).
Proof.
  intros Hw Hn Hlow. unfold js220_i128_compute_integral.
  pose proof (is_neg_spec x Hw) as Hneg. unfold js220_i128_is_neg in Hneg. rewrite Hneg.
  pose proof (uval_range x Hw). case_if.
  - destruct (Hlow E) as [Hx Hq].
    assert (2 ^ 127 <= uval x) as Hge.
    { destruct (Z.lt_ge_cases (uval x) (2 ^ 127)); [|done]. rewrite sval_nonneg in E by done. lia. }
    pose proof (sval_neg x Hw Hge) as Hs.
    rewrite neg_of_pos by done. rewrite udiv_spec, bind_Ok by (done || apply of_Z_wf).
    assert (uval (of_Z (- uval x)) = - sval x) as ->.
    { rewrite uval_of_Z, Hs. symmetry. apply Z.mod_unique with (-1); lia. }
    rewrite neg_of_pos by (apply of_Z_wf || exact Hq). f_equal. apply of_Z_mod.
    rewrite uval_of_Z.
    rewrite <- (Z.opp_involutive (sval x)) at 2.
    rewrite Z.quot_opp_l, Z.quot_div_nonneg by lia.
    assert (0 <= - sval x / n < 2 ^ 128) as Hqr.
    { split; [apply Z.div_pos; lia|]. apply Z.div_lt_upper_bound; nia. }
    by rewrite (Z.mod_small _ _ Hqr).
  - assert (uval x < 2 ^ 127) as Hlt.
    { destruct (Z.lt_ge_cases (uval x) (2 ^ 127)) as [|Hge]; [done|]. rewrite sval_neg in E by done. lia. }
    rewrite udiv_spec, bind_Ok by done. rewrite sval_nonneg by done.
    by rewrite Z.quot_div_nonneg by lia.
Qed.

(** ** Normalisation before the conversion to double *)

Lemma norm_loop_spec fuel : forall x e,
  wf_i128 x -> 2 ^ 127 <= uval x * 2 ^ Z.of_nat fuel ->
  exists x' k, norm_loop fuel x e = Ok (x', e - k) /\ 0 <= k <= Z.of_nat fuel
    /\ wf_i128 x' /\ uval x' = uval x * 2 ^ k /\ 2 ^ 127 <= uval x'.
Proof.
  assert (2 ^ 127 = 2 ^ 63 * 2 ^ 64) as E127 by reflexivity.
  induction fuel as [|fuel IH]; intros x e Hw Hf; pose proof Hw as [H0 H1]; pose proof (uval_range x Hw);
    cbn [norm_loop]; rewrite sign_bit by done;
    assert (negb (w1 x / 2 ^ 63 * 2 ^ 63 =? 0) = (2 ^ 63 <=? w1 x)) as ->
      by (apply Bool.eq_iff_eq_true; rewrite negb_true_iff, Z.eqb_neq, Z.leb_le;
          change (2 ^ 63) with 9223372036854775808; div_lia); case_if.
  - exists x, 0. rewrite Z.sub_0_r. unfold uval, is_u in *. split_and!; done || lia.
  - exfalso. unfold uval, is_u in *. change (2 ^ Z.of_nat 0) with 1 in Hf. lia.
  - exists x, 0. rewrite Z.sub_0_r. unfold uval, is_u in *. split_and!; done || lia.
  - assert (wf_i128 (mk_i128 (u64 (Z.shiftl (w0 x) 1))
              (Z.lor (u64 (Z.shiftl (w1 x) 1)) (Z.land (Z.shiftr (w0 x) 63) 1)))
            /\ uval (mk_i128 (u64 (Z.shiftl (w0 x) 1))
              (Z.lor (u64 (Z.shiftl (w1 x) 1)) (Z.land (Z.shiftr (w0 x) 63) 1))) = 2 * uval x) as [Hw' Hu].
    { rewrite !Z.shiftl_mul_pow2, Z.shiftr_div_pow2 by lia.
      assert (forall v, Z.land v 1 = v mod 2 ^ 1) as Hl1 by (intros v; apply (Z.land_ones v 1); lia).
      rewrite !Hl1. unfold is_u in *. change (2 ^ 1) with 2.
      rewrite (uwrap_small 64 (w1 x * 2)) by (unfold is_u; change (2 ^ 64) with (2 * 2 ^ 63); lia).
      change (w1 x * 2) with (w1 x * 2 ^ 1). rewrite lor_add_disjoint by (try apply Z.mod_pos_bound; lia).
      unfold wf_i128, uval; cbn [w0 w1]. change (2 ^ 63) with 9223372036854775808 in *. unfold uwrap.
      split; div_lia. }
    destruct (IH _ (e - 1) Hw') as (x' & k & -> & Hk & Hwx & Hux & Htop).
    { rewrite Hu. rewrite Nat2Z.inj_succ, Z.pow_succ_r in Hf by lia. lia. }
    exists x', (k + 1). split_and!; [do 2 f_equal; lia | lia | lia | done | | done].
    rewrite Hux, Hu, Z.pow_add_r by lia. change (2 ^ 1) with 2. ring.
Qed.

(** ** Properties *)



(** The negation is the two's complement negation exactly for the values whose low
    word is not [2^63]; for the others the upper word is one too high. *)
Lemma neg_correct_iff x :
  wf_i128 x -> js220_i128_neg x = of_Z (- uval x) <-> w0 x <> 2 ^ 63.
Proof.
  intros Hw. split; [|by apply neg_of_pos]. intros H Heq.
  rewrite neg_spec in H by done. rewrite (proj2 (Z.eqb_eq _ _) Heq) in H.
  apply (f_equal w1) in H. unfold of_Z in H; cbn [w1] in H. revert H.
  replace (- uval x + 2 ^ 64) with (- uval x + 1 * 2 ^ 64) by lia. rewrite Z.div_add by lia.
  set (v := - uval x / 2 ^ 64). unfold uwrap. div_lia.
Qed.

Lemma neg_correct_iff_witness :
  js220_i128_neg (mk_i128 (2 ^ 63) 7) = of_Z (- uval (mk_i128 (2 ^ 63) 7)) <-> 2 ^ 63 <> 2 ^ 63.
Proof. apply (neg_correct_iff (mk_i128 (2 ^ 63) 7)). by split; vm_compute. Defined.

(** The integral is the signed quotient rounded towards zero, for every divisor and
    every sum, as long as no low word that is negated is [2^63]. *)
Lemma js220_i128_compute_integral_quot x n :
  wf_i128 x -> 0 < n < 2 ^ 64 ->
  (sval x < 0 -> w0 x <> 2 ^ 63 /\ u64 (- sval x / n) <> 2 ^ 63) ->
  exists r, js220_i128_compute_integral x n = Ok r /\ wf_i128 r /\ sval r = Z.quot (sval x) n.
Proof.
  intros Hw Hn Hlow. rewrite compute_integral_spec by done. eexists; split; [done|].
  split; [apply of_Z_wf|]. pose proof (swrap_range 128 (uval x) ltac:(lia)) as Hr. fold (sval x) in Hr.
  unfold sval at 1. rewrite uval_of_Z. unfold is_s in Hr. change (128 - 1) with 127 in *.
  assert (- 2 ^ 127 <= Z.quot (sval x) n < 2 ^ 127) as Hq.
  { pose proof (Z.quot_rem' (sval x) n). pose proof (Z.rem_bound_abs (sval x) n ltac:(lia)).
    pose proof (Z.rem_sign_mul (sval x) n ltac:(lia)). nia. }
  unfold swrap. rewrite Zplus_mod_idemp_l. change (128 - 1) with 127.
  rewrite Z.mod_small by (change (2 ^ 128) with (2 * 2 ^ 127); lia). lia.
Qed.

Lemma js220_i128_compute_integral_quot_witness :
  exists r, js220_i128_compute_integral (of_Z (-1000000000000000000000)) 7 = Ok r
    /\ wf_i128 r /\ sval r = -142857142857142857142.
Proof.
  apply (js220_i128_compute_integral_quot (of_Z (-1000000000000000000000)) 7);
    [apply of_Z_wf | lia |]. intros _. split; vm_compute; discriminate.
Defined.

Lemma compute_std_eq x1 x2 n q :
  I64_MIN < x1 <= I64_MAX -> wf_i128 x2 -> 0 < n < 2 ^ 64 ->
  js220_i128_compute_std x1 x2 n q =
    if uval x2 <? x1 * x1 / n then Ok (S754_zero false)
    else f ← js220_i128_to_f64 (of_Z ((uval x2 - x1 * x1 / n) / n)) (u32 (q * 2)); Ok (f64_sqrt f).
Proof.
  intros Hx Hw Hn. unfold js220_i128_compute_std.
  assert ((if x1 <? 0 then chk_i 64 (- x1) else Ok x1) = Ok (Z.abs x1)) as ->.
  { case_if; [rewrite chk_i_ok by width_lia|]; f_equal; lia. }
  rewrite bind_Ok, square_spec, bind_Ok, udiv_spec, bind_Ok by (apply of_Z_wf || lia).
  assert (0 <= x1 * x1 < 2 ^ 128) as Hsq.
  { split; [nia|]. change (2 ^ 128) with (2 ^ 64 * 2 ^ 64). change (2 ^ 64) with 18446744073709551616. nia. }
  rewrite uval_of_Z, <- Z.abs_mul, Z.abs_eq, Z.mod_small by lia.
  set (m := x1 * x1 / n). assert (0 <= m < 2 ^ 128) as Hm.
  { unfold m. split; [apply Z.div_pos; lia | apply Z.div_lt_upper_bound; nia]. }
  pose proof (of_Z_wf m) as Hwd. pose proof (uval_of_Z m) as Hud. rewrite Z.mod_small in Hud by done.
  set (d := of_Z m) in *. clearbody d. pose proof Hw as [H0 H1]. pose proof Hwd as [D0 D1]. unfold is_u in *.
  rewrite <- Hud.
  assert ((w1 x2 <? w1 d) || ((w1 x2 =? w1 d) && (w0 x2 <? w0 d)) = (uval x2 <? uval d)) as ->.
  { apply Bool.eq_iff_eq_true. rewrite orb_true_iff, andb_true_iff, !Z.ltb_lt, Z.eqb_eq. unfold uval. lia. }
  destruct (uval x2 <? uval d) eqn:E; [done|]. bool_facts.
  assert (mk_i128 (u64 (w0 x2 - w0 d)) (u64 ((if w0 x2 <? w0 d then u64 (w1 x2 - 1) else w1 x2) - w1 d))
          = js220_i128_sub x2 d) as ->.
  { unfold js220_i128_sub. f_equal. unfold uwrap. case_if.
    - rewrite !Zminus_mod_idemp_l. f_equal. lia.
    - rewrite Z.sub_0_r, Zmod_mod. done. }
  rewrite sub_spec by done. rewrite udiv_spec, bind_Ok by (apply of_Z_wf || done).
  rewrite uval_of_Z, (Z.mod_small (uval x2 - uval d)); [done|].
  pose proof (uval_range x2 Hw). pose proof (uval_range d Hwd). lia.
Qed.

Lemma to_f64_total x q : wf_i128 x -> exists f, js220_i128_to_f64 x q = Ok f.
Proof.
  intros Hx. unfold js220_i128_to_f64. set (neg := negb _). clearbody neg.
  assert (wf_i128 (if neg then js220_i128_neg x else x)) as Hy by (destruct neg; [rewrite neg_spec by done; apply of_Z_wf | done]).
  set (y := if neg then _ else _) in *. clearbody y. destruct ((w0 y =? 0) && (w1 y =? 0)) eqn:E; [eauto|].
  destruct (norm_loop_spec 128 y (i32 (u32 (128 - q - 64)))) as (x' & k & -> & _); [done | | eauto].
  pose proof Hy as [H0 H1]. unfold is_u in *. bool_facts.
  assert (1 <= uval y) by (unfold uval; nia). change (2 ^ Z.of_nat 128) with (2 ^ 128). nia.
Qed.

Lemma compute_std_total x1 x2 n q : I64_MIN < x1 <= I64_MAX -> wf_i128 x2 -> 0 < n < 2 ^ 64 ->
  exists f, js220_i128_compute_std x1 x2 n q = Ok f.
Proof.
  intros Hx Hw Hn. rewrite compute_std_eq by done. case_if; [eauto|].
  destruct (to_f64_total (of_Z ((uval x2 - x1 * x1 / n) / n)) (u32 (q * 2))) as [f ->]; [apply of_Z_wf|]. eauto.
Qed.

(** The deviation is the square root of the variance computed in exact 128-bit integer
    arithmetic, [(x2 - x1 * x1 / n) / n], and zero when rounding has made it negative;
    no division by zero, carry or sign is lost on the way. *)
Lemma js220_i128_compute_std_exact x1 x2 n q :
  I64_MIN < x1 <= I64_MAX -> wf_i128 x2 -> 0 < n < 2 ^ 64 ->
  js220_i128_compute_std x1 x2 n q =
    if uval x2 <? x1 * x1 / n then Ok (S754_zero false)
    else f ← js220_i128_to_f64 (of_Z ((uval x2 - x1 * x1 / n) / n)) (u32 (q * 2)); Ok (f64_sqrt f).
Proof. apply compute_std_eq. Qed.

Lemma js220_i128_compute_std_exact_witness :
  js220_i128_compute_std (-10) (of_Z 58) 2 0 = Ok (f64_of_Z 2).
Proof.
  rewrite js220_i128_compute_std_exact; [vm_compute; reflexivity | lia | apply of_Z_wf | lia].
Defined.

(** Shift counts below 64 shift the whole 128-bit value: to the left modulo [2^128],
    to the right with the sign; larger counts are undefined behaviour. *)
Lemma js220_i128_shift_spec x s :
  wf_i128 x -> 0 < s < 2 ^ 31 ->
  js220_i128_lshift x s = (if s <? 64 then Ok (of_Z (uval x * 2 ^ s)) else Fault BadShift)
  /\ js220_i128_rshift x s = (if s <? 64 then Ok (of_Z (sval x / 2 ^ s)) else Fault BadShift).
Proof.
  intros Hw Hs. unfold js220_i128_rshift. rewrite chk_i_ok, bind_Ok by width_lia. case_if.
  - split; [apply lshift_left_spec | apply lshift_right_spec]; done || lia.
  - unfold js220_i128_lshift. split; [by simpl_cmp|].
    rewrite Z.opp_involutive, chk_i_ok, bind_Ok by width_lia. by simpl_cmp.
Qed.
