(* ===== verification/Hash.v ===== *)
(** * Integrity checks: the 32-bit check word and the calibration hash
    (src/check32.c, src/calibration_hash.c)

    Both mix words by additions, rotations and multiplications that lose nothing, and the theorems say
    what follows from that: a record in which one word has changed has another check word, and a
    message in which the last block has changed has another hash. *)

From S2P Require Import Prelude ErrorCode.

(** ** Rotations and odd factors *)

(** [(a << b) | (a >> (32 - b))] on 32 bits. *)
Definition rotl (a b : Z) : Z := Z.lor (u32 (Z.shiftl a b)) (Z.shiftr a (32 - b)).

Lemma rotl_eq a b : is_u 32 a -> 0 < b < 32 -> rotl a b = (a mod 2 ^ (32 - b)) * 2 ^ b + a / 2 ^ (32 - b).
Proof.
  intros Ha Hb. unfold rotl. rewrite Z.shiftl_mul_pow2, Z.shiftr_div_pow2 by lia.
  assert (2 ^ 32 = 2 ^ (32 - b) * 2 ^ b) as E32 by (rewrite <- Z.pow_add_r by lia; f_equal; lia).
  pose proof (Z.pow_pos_nonneg 2 b ltac:(lia) ltac:(lia)). pose proof (Z.pow_pos_nonneg 2 (32 - b) ltac:(lia) ltac:(lia)).
  assert (u32 (a * 2 ^ b) = a mod 2 ^ (32 - b) * 2 ^ b) as -> by (unfold uwrap; rewrite E32; apply Z.mul_mod_distr_r; lia).
  apply lor_add_disjoint; [lia|]. unfold is_u in Ha. split; [apply Z.div_pos; lia|]. apply Z.div_lt_upper_bound; lia.
Qed.

Lemma rotl_range a b : is_u 32 a -> 0 < b < 32 -> is_u 32 (rotl a b).
Proof.
  intros Ha Hb. rewrite rotl_eq by done. unfold is_u in *.
  assert (2 ^ 32 = 2 ^ (32 - b) * 2 ^ b) as E32 by (rewrite <- Z.pow_add_r by lia; f_equal; lia).
  pose proof (Z.pow_pos_nonneg 2 b ltac:(lia) ltac:(lia)). pose proof (Z.pow_pos_nonneg 2 (32 - b) ltac:(lia) ltac:(lia)).
  pose proof (Z.mod_pos_bound a (2 ^ (32 - b)) ltac:(lia)).
  assert (0 <= a / 2 ^ (32 - b) < 2 ^ b) by (split; [apply Z.div_pos; lia | apply Z.div_lt_upper_bound; lia]). nia.
Qed.

Lemma rotl_inj a a' b : is_u 32 a -> is_u 32 a' -> 0 < b < 32 -> rotl a b = rotl a' b -> a = a'.
Proof.
  intros Ha Ha' Hb. rewrite !rotl_eq by done. unfold is_u in *.
  assert (2 ^ 32 = 2 ^ (32 - b) * 2 ^ b) as E32 by (rewrite <- Z.pow_add_r by lia; f_equal; lia).
  pose proof (Z.pow_pos_nonneg 2 b ltac:(lia) ltac:(lia)). pose proof (Z.pow_pos_nonneg 2 (32 - b) ltac:(lia) ltac:(lia)).
  assert (0 <= a / 2 ^ (32 - b) < 2 ^ b) by (split; [apply Z.div_pos; lia | apply Z.div_lt_upper_bound; lia]).
  assert (0 <= a' / 2 ^ (32 - b) < 2 ^ b) by (split; [apply Z.div_pos; lia | apply Z.div_lt_upper_bound; lia]).
  intros E. pose proof (Z.div_mod a (2 ^ (32 - b)) ltac:(lia)). pose proof (Z.div_mod a' (2 ^ (32 - b)) ltac:(lia)). nia.
Qed.

Lemma u32_add_inj a b c : is_u 32 a -> is_u 32 b -> u32 (a + c) = u32 (b + c) -> a = b.
Proof.
  intros Ha Hb E. assert (forall x, is_u 32 x -> u32 (u32 (x + c) - c) = x) as Hinv.
  { intros x Hx. unfold uwrap. rewrite Zminus_mod_idemp_l, Z.add_simpl_r. by apply Z.mod_small. }
  rewrite <- (Hinv a Ha), <- (Hinv b Hb). by rewrite E.
Qed.

Lemma u32_mul_inj k kinv a b : (k * kinv) mod 2 ^ 32 = 1 -> is_u 32 a -> is_u 32 b -> u32 (a * k) = u32 (b * k) -> a = b.
Proof.
  intros Hk Ha Hb E. assert (forall c, is_u 32 c -> u32 (u32 (c * k) * kinv) = c) as Hinv.
  { intros c Hc. unfold uwrap. rewrite Zmult_mod_idemp_l, <- Z.mul_assoc, <- Zmult_mod_idemp_r, Hk, Z.mul_1_r. by apply Z.mod_small. }
  rewrite <- (Hinv a Ha), <- (Hinv b Hb). by rewrite E.
Qed.

(** ** The check word *)

Definition JSDRV_CHECK32_INITIAL_VALUE : Z := 0x9e3779b1.

(** The body of the loop. *)
Definition check32_step (value x : Z) : Z :=
  let value := u32 (value + u32 (x * 0x85ebca6b)) in
  let value := Z.lor (u32 (Z.shiftl value 13)) (Z.shiftr value 19) in
  u32 (value * 0xc2b2ae35).

Fixpoint check32_loop (n : nat) (data : list Z) (i value : Z) : res Z :=
  match n with
  | O => Ok value
  | S n => x ← ld data i; check32_loop n data (i + 1) (check32_step value x)
  end.

Definition jsdrv_check32_xxhash (data : list Z) (length : Z) : res Z :=
  check32_loop (Z.to_nat length) data 0 JSDRV_CHECK32_INITIAL_VALUE.

Lemma check32_step_range v x : is_u 32 (check32_step v x).
Proof. by apply uwrap_range. Qed.

(** A step loses nothing: neither of the value nor of the word. *)
Lemma check32_step_inj v x v' x' : is_u 32 v -> is_u 32 v' -> is_u 32 x -> is_u 32 x' -> check32_step v x = check32_step v' x' ->
  u32 (v + u32 (x * 0x85ebca6b)) = u32 (v' + u32 (x' * 0x85ebca6b)).
Proof.
  intros Hv Hv' Hx Hx' E. unfold check32_step in E. fold (rotl (u32 (v + u32 (x * 0x85ebca6b))) 13) in E.
  fold (rotl (u32 (v' + u32 (x' * 0x85ebca6b))) 13) in E.
  apply (u32_mul_inj 0xc2b2ae35 2127672349) in E; [|by vm_compute | by apply rotl_range; [apply uwrap_range|] | by apply rotl_range; [apply uwrap_range|]].
  apply rotl_inj in E; [done | by apply uwrap_range | by apply uwrap_range | lia].
Qed.

Lemma check32_step_value v v' x : is_u 32 v -> is_u 32 v' -> is_u 32 x -> check32_step v x = check32_step v' x -> v = v'.
Proof. intros Hv Hv' Hx E. apply check32_step_inj in E; [|done..]. by apply u32_add_inj in E. Qed.

Lemma check32_step_word v x x' : is_u 32 v -> is_u 32 x -> is_u 32 x' -> check32_step v x = check32_step v x' -> x = x'.
Proof.
  intros Hv Hx Hx' E. apply check32_step_inj in E; [|done..]. rewrite !(Z.add_comm v) in E.
  apply u32_add_inj in E; [|by apply uwrap_range..]. by apply (u32_mul_inj 0x85ebca6b 2781581891) in E; [|by vm_compute|..].
Qed.

(** The loop folds the step over the words. *)
Lemma check32_loop_fold n data i v : 0 <= i -> i + Z.of_nat n <= len data ->
  check32_loop n data i v = Ok (foldl check32_step v (take n (drop (Z.to_nat i) data))).
Proof.
  revert i v; induction n as [|n IH]; intros i v Hi Hn; [done|]. cbn [check32_loop].
  destruct (ld_in_range data i) as (x & Hld & Hx); [unfold len in *; lia|]. rewrite Hld, bind_Ok, IH by lia.
  rewrite (drop_S _ _ _ Hx). cbn [take foldl firstn]. do 3 f_equal. f_equal. lia.
Qed.

Lemma check32_fold data : jsdrv_check32_xxhash data (len data) = Ok (foldl check32_step JSDRV_CHECK32_INITIAL_VALUE data).
Proof.
  unfold jsdrv_check32_xxhash. rewrite check32_loop_fold by (unfold len; lia). unfold len. rewrite Nat2Z.id. change (Z.to_nat 0) with 0%nat.
  rewrite drop_0, take_ge by done. done.
Qed.

Lemma check32_fold_range v l : is_u 32 v -> is_u 32 (foldl check32_step v l).
Proof. revert v; induction l as [|x l IH]; intros v Hv; [done|]. apply IH, check32_step_range. Qed.

Lemma check32_fold_inj v v' l : is_u 32 v -> is_u 32 v' -> Forall (is_u 32) l -> foldl check32_step v l = foldl check32_step v' l -> v = v'.
Proof.
  intros Hv Hv' Hl. revert v v' Hv Hv'. induction Hl as [|x l Hx _ IH]; intros v v' Hv Hv' E; [done|]. cbn [foldl] in E.
  apply IH in E; [by apply (check32_step_value v v' x) | apply check32_step_range..].
Qed.

(** The check word finds every change of a single word: two records of the same length that
    differ in exactly one word never have the same check word. *)
Lemma check32_detects_change pre x x' post : Forall (is_u 32) (pre ++ x :: post) -> is_u 32 x' -> x <> x' ->
  exists c c', jsdrv_check32_xxhash (pre ++ x :: post) (len (pre ++ x :: post)) = Ok c
    /\ jsdrv_check32_xxhash (pre ++ x' :: post) (len (pre ++ x' :: post)) = Ok c' /\ c <> c'.
Proof.
  intros Hl Hx' Hne. apply Forall_app in Hl as [Hpre Hl]. apply Forall_cons in Hl as [Hx Hpost].
  rewrite !check32_fold. eexists _, _. split; [done|]. split; [done|]. rewrite !foldl_app. cbn [foldl]. intros E.
  apply check32_fold_inj in E; [|by apply check32_step_range..|done].
  apply check32_step_word in E; [done| |done..]. by apply check32_fold_range.
Qed.

Lemma check32_detects_change_witness : exists c c', jsdrv_check32_xxhash [1; 2; 3] 3 = Ok c /\ jsdrv_check32_xxhash [1; 4; 3] 3 = Ok c' /\ c <> c'.
Proof.
  apply (check32_detects_change [1] 2 4 [3]); [|by vm_compute|done].
  repeat (apply List.Forall_cons; [by vm_compute|]). apply List.Forall_nil.
Defined.

(** ** The calibration hash *)

Definition chacha20_constant : list Z := [0x381377d5; 0x4b62bff4; 0x349dcc7b; 0x845b865f].

Definition rounds : list (Z * Z * Z * Z) :=
  [(0, 4, 8, 12); (1, 5, 9, 13); (2, 6, 10, 14); (3, 7, 11, 15);
   (0, 5, 10, 15); (1, 6, 11, 12); (2, 7, 8, 13); (3, 4, 9, 14)].

Definition DOUBLE_ROUNDS : nat := 10.

(** One addition, exclusive or and rotation: [a += b; d ^= a; d = rotl(d, n)]. *)
Definition qr_half (n a b d : Z) : Z * Z := let a := u32 (a + b) in (a, rotl (Z.lxor d a) n).

(** The arithmetic of [QR]. *)
Definition qr (a b c d : Z) : Z * Z * Z * Z :=
  let '(a, d) := qr_half 16 a b d in
  let '(c, b) := qr_half 12 c d b in
  let '(a, d) := qr_half 8 a b d in
  let '(c, b) := qr_half 7 c d b in
  (a, b, c, d).

(** [QR(&x[ap], &x[bp], &x[cp], &x[dp])] *)
Definition QR (x : list Z) (ap bp cp dp : Z) : res (list Z) :=
  a ← ld x ap; b ← ld x bp; c ← ld x cp; d ← ld x dp;
  let '(a, b, c, d) := qr a b c d in
  x ← st x ap a; x ← st x bp b; x ← st x cp c; st x dp d.

Fixpoint chacha20_rounds (js : list (Z * Z * Z * Z)) (x : list Z) : res (list Z) :=
  match js with
  | [] => Ok x
  | (a, b, c, d) :: js => x ← QR x a b c d; chacha20_rounds js x
  end.

Definition chacha20_block (x : list Z) : res (list Z) := iter_res DOUBLE_ROUNDS (chacha20_rounds rounds) x.

(** [copy_u32(&dst[d], &src[s], length)] *)
Definition copy_u32 (dst : list Z) (d : Z) (src : list Z) (s length : Z) : res (list Z) := mem_copy dst d src s length.

(** [hash[j] ^= h[j]] for [j < 16]. *)
Definition xor_into (hash h : list Z) : list Z := zip_with Z.lxor hash h.

(** The body of the loop over the blocks, at word [i]. *)
Definition hash_block (msg : list Z) (i : Z) (hash h : list Z) : res (list Z * list Z) :=
  h ← copy_u32 h 0 hash 0 4;
  h ← copy_u32 h 4 chacha20_constant 0 3;
  h ← st h 7 i;
  h ← copy_u32 h 8 msg i 8;
  h ← chacha20_block h;
  Ok (xor_into hash h, h).

Fixpoint hash_loop (n : nat) (msg : list Z) (i : Z) (hash h : list Z) : res (list Z) :=
  match n with
  | O => Ok hash
  | S n => '(hash, h) ← hash_block msg i hash h; hash_loop n msg (i + 8) hash h
  end.

(** [hash] is the 16-word buffer of the caller; the local [h] starts as anything, here [h0].  The loop has [length_u32 / 8] turns. *)
Definition jsdrv_calibration_hash (h0 : list Z) (msg : option (list Z)) (length : Z) (hash : option (list Z)) : res (Z * option (list Z)) :=
  match msg, hash with
  | Some msg, Some hash =>
      if (length =? 0) || negb (Z.land length 0x1f =? 0) then Ok (ec_code PARAMETER_INVALID, Some hash)
      else
        let length_u32 := Z.shiftr length 2 in
        hash ← mem_copy hash 0 (replicate 16 0) 0 16;
        h ← copy_u32 h0 0 chacha20_constant 0 4;
        hash ← hash_loop (Z.to_nat (length_u32 / 8)) msg 0 hash h;
        Ok (0, Some hash)
  | _, _ => Ok (ec_code PARAMETER_INVALID, hash)
  end.

(** ** Nothing is lost *)

Definition words16 (x : list Z) : Prop := length x = 16%nat /\ Forall (is_u 32) x.

(** A total and injective operation on sixteen words. *)
Record mixes (f : list Z -> res (list Z)) : Prop := mk_mixes {
  mixes_total : forall x, words16 x -> exists y, f x = Ok y /\ words16 y;
  mixes_inj : forall x x' y, words16 x -> words16 x' -> f x = Ok y -> f x' = Ok y -> x = x';
}.

Lemma mixes_ret : mixes (fun x => Ok x).
Proof. split; [eauto|]. congruence. Qed.

Lemma mixes_bind f g : mixes f -> mixes g -> mixes (fun x => x ← f x; g x).
Proof.
  intros [Tf If] [Tg Ig]. split.
  - intros x Hx. destruct (Tf x Hx) as (y & -> & Hy). rewrite bind_Ok. by apply Tg.
  - intros x x' y Hx Hx'. destruct (Tf x Hx) as (z & Ez & Hz), (Tf x' Hx') as (z' & Ez' & Hz'). rewrite Ez, Ez', !bind_Ok. intros E E'.
    rewrite (Ig z z' y Hz Hz' E E') in Ez. by apply (If x x' z').
Qed.

Lemma mixes_iter f n : mixes f -> mixes (iter_res n f).
Proof. intros Hf. induction n as [|n IH]; [apply mixes_ret|]. exact (mixes_bind _ _ Hf IH). Qed.

Lemma lxor_u32 a b : is_u 32 a -> is_u 32 b -> is_u 32 (Z.lxor a b).
Proof.
  unfold is_u. intros Ha Hb. assert (Z.lxor a b = Z.lxor a b mod 2 ^ 32) as ->; [|by apply Z.mod_pos_bound].
  rewrite <- (Z.land_ones (Z.lxor a b)) by lia. apply Z.bits_inj'. intros n Hn. rewrite Z.land_spec, Z.lxor_spec.
  destruct (decide (n < 32)); [by rewrite Z.ones_spec_low, andb_true_r by lia|].
  rewrite Z.ones_spec_high by lia. rewrite <- (Z.mod_small a (2 ^ 32)), <- (Z.mod_small b (2 ^ 32)) by lia.
  by rewrite !Z.mod_pow2_bits_high by lia.
Qed.

Lemma lxor_cancel a b c : Z.lxor a c = Z.lxor b c -> a = b.
Proof. intros E. rewrite <- (Z.lxor_0_r a), <- (Z.lxor_0_r b), <- (Z.lxor_nilpotent c), <- !Z.lxor_assoc. by rewrite E. Qed.

Lemma qr_half_range n a b d a' d' : 0 < n < 32 -> is_u 32 d -> qr_half n a b d = (a', d') -> is_u 32 a' /\ is_u 32 d'.
Proof.
  intros Hn Hd [= <- <-]. split; [by apply uwrap_range|]. apply rotl_range; [|done]. apply lxor_u32; [done|]. by apply uwrap_range.
Qed.

Lemma qr_half_inj n a d a' d' b : 0 < n < 32 -> is_u 32 a -> is_u 32 d -> is_u 32 a' -> is_u 32 d' ->
  qr_half n a b d = qr_half n a' b d' -> a = a' /\ d = d'.
Proof.
  intros Hn Ha Hd Ha' Hd' E. unfold qr_half in E. injection E as E1 E2. rewrite E1 in E2.
  apply rotl_inj in E2; [|apply lxor_u32; [done | by apply uwrap_range]..|done]. apply lxor_cancel in E2. by apply u32_add_inj in E1.
Qed.

Lemma qr_range a b c d a' b' c' d' : is_u 32 a -> is_u 32 b -> is_u 32 c -> is_u 32 d -> qr a b c d = (a', b', c', d') ->
  is_u 32 a' /\ is_u 32 b' /\ is_u 32 c' /\ is_u 32 d'.
Proof.
  intros Ha Hb Hc Hd. unfold qr. destruct (qr_half 16 a b d) as [a1 d1] eqn:E1. destruct (qr_half 12 c d1 b) as [c1 b1] eqn:E2.
  destruct (qr_half 8 a1 b1 d1) as [a2 d2] eqn:E3. destruct (qr_half 7 c1 d2 b1) as [c2 b2] eqn:E4. intros [= <- <- <- <-].
  apply qr_half_range in E1 as [? ?]; [|done..]. apply qr_half_range in E2 as [? ?]; [|done..].
  apply qr_half_range in E3 as [? ?]; [|done..]. apply qr_half_range in E4 as [? ?]; done.
Qed.

Lemma qr_inj a b c d a' b' c' d' : is_u 32 a -> is_u 32 b -> is_u 32 c -> is_u 32 d ->
  is_u 32 a' -> is_u 32 b' -> is_u 32 c' -> is_u 32 d' -> qr a b c d = qr a' b' c' d' -> (a, b, c, d) = (a', b', c', d').
Proof.
  intros Ha Hb Hc Hd Ha' Hb' Hc' Hd'. unfold qr.
  destruct (qr_half 16 a b d) as [a1 d1] eqn:E1. destruct (qr_half 12 c d1 b) as [c1 b1] eqn:E2.
  destruct (qr_half 8 a1 b1 d1) as [a2 d2] eqn:E3. destruct (qr_half 7 c1 d2 b1) as [c2 b2] eqn:E4.
  destruct (qr_half 16 a' b' d') as [a1' d1'] eqn:F1. destruct (qr_half 12 c' d1' b') as [c1' b1'] eqn:F2.
  destruct (qr_half 8 a1' b1' d1') as [a2' d2'] eqn:F3. destruct (qr_half 7 c1' d2' b1') as [c2' b2'] eqn:F4. intros [= <- <- <- <-].
  pose proof (qr_half_range 16 _ _ _ _ _ ltac:(lia) Hd E1) as [? ?]. pose proof (qr_half_range 12 _ _ _ _ _ ltac:(lia) Hb E2) as [? ?].
  pose proof (qr_half_range 16 _ _ _ _ _ ltac:(lia) Hd' F1) as [? ?]. pose proof (qr_half_range 12 _ _ _ _ _ ltac:(lia) Hb' F2) as [? ?].
  rewrite <- F4 in E4. apply qr_half_inj in E4 as [<- <-]; [|done..]. rewrite <- F3 in E3. apply qr_half_inj in E3 as [<- <-]; [|done..].
  rewrite <- F2 in E2. apply qr_half_inj in E2 as [<- <-]; [|done..]. rewrite <- F1 in E1. apply qr_half_inj in E1 as [<- <-]; done.
Qed.

(** A list of sixteen words, by name. *)
Lemma words16_inv x : words16 x -> exists x0 x1 x2 x3 x4 x5 x6 x7 x8 x9 xa xb xc xd xe xf,
  x = [x0; x1; x2; x3; x4; x5; x6; x7; x8; x9; xa; xb; xc; xd; xe; xf].
Proof. intros [Hl _]. do 16 (destruct x as [|? x]; [done|]). destruct x; [|done]. repeat eexists. Qed.

Ltac split_words H :=
  let E := fresh in destruct (words16_inv _ H) as (? & ? & ? & ? & ? & ? & ? & ? & ? & ? & ? & ? & ? & ? & ? & ? & E); subst;
  destruct H as [_ H]; repeat (rewrite Forall_cons in H); destruct_and? H.

Lemma mixes_QR a b c d : (a, b, c, d) ∈ rounds -> mixes (fun x => QR x a b c d).
Proof.
  intros H. unfold rounds in H. rewrite !elem_of_cons, elem_of_nil in H. destruct_or! H; try done; injection H as -> -> -> ->; split.
  1,3,5,7,9,11,13,15: intros x Hx; split_words Hx; unfold QR; lazy -[qr is_u words16];
    match goal with |- context [qr ?p ?q ?r ?t] => destruct (qr p q r t) as [[[? ?] ?] ?] eqn:E end;
    apply qr_range in E as (? & ? & ? & ?); [|done..]; eexists; (split; [done|]); (split; [done|]); repeat (apply List.Forall_cons; [done|]); apply List.Forall_nil.
  all: intros x x' y Hx Hx'; split_words Hx; split_words Hx'; unfold QR; lazy -[qr is_u];
    match goal with |- context [qr ?p ?q ?r ?t] => destruct (qr p q r t) as [[[? ?] ?] ?] eqn:E end;
    match goal with |- context [qr ?p ?q ?r ?t] => destruct (qr p q r t) as [[[? ?] ?] ?] eqn:F end;
    intros [= <-] [= -> -> -> -> -> -> -> -> -> -> -> -> -> -> -> ->]; rewrite <- F in E; apply qr_inj in E; [|done..]; by injection E as -> -> -> ->.
Qed.

Lemma mixes_rounds js : (forall a b c d, (a, b, c, d) ∈ js -> (a, b, c, d) ∈ rounds) -> mixes (chacha20_rounds js).
Proof.
  induction js as [|[[[a b] c] d] js IH]; intros H; [apply mixes_ret|].
  apply (mixes_bind (fun x => QR x a b c d)); [apply mixes_QR, H; left|]. apply IH. intros. apply H. by right.
Qed.

Lemma mixes_block : mixes chacha20_block.
Proof. apply mixes_iter, mixes_rounds. done. Qed.

(** The words that a block mixes: the chaining words, the constant, the offset, the message. *)
Definition in_block (hash : list Z) (i : Z) (w : list Z) : list Z := take 4 hash ++ take 3 chacha20_constant ++ [i] ++ w.

Definition absorb (hash : list Z) (i : Z) (w : list Z) : res (list Z) :=
  h ← chacha20_block (in_block hash i w); Ok (xor_into hash h).

Definition words_at (msg : list Z) (i : Z) : list Z := take 8 (drop (Z.to_nat i) msg).

Lemma in_block_words hash i w : words16 hash -> is_u 32 i -> length w = 8%nat -> Forall (is_u 32) w -> words16 (in_block hash i w).
Proof.
  intros [Hl Hh] Hi Hw Hu. split.
  - unfold in_block. rewrite !length_app, !length_take. cbn [chacha20_constant length]. lia.
  - unfold in_block. rewrite !Forall_app. split_and!; [by apply Forall_take | | by apply Forall_singleton | done].
    repeat (apply List.Forall_cons; [by vm_compute|]). apply List.Forall_nil.
Qed.

Lemma hash_block_eq msg i hash h : words16 hash -> length h = 16%nat -> 0 <= i -> i + 8 <= len msg ->
  hash_block msg i hash h = (h ← chacha20_block (in_block hash i (words_at msg i)); Ok (xor_into hash h, h)).
Proof.
  intros Hh Hl Hi Hm. destruct (words16_inv hash Hh) as (? & ? & ? & ? & ? & ? & ? & ? & ? & ? & ? & ? & ? & ? & ? & ? & ->).
  do 16 (destruct h as [|? h]; [done|]). destruct h; [|done]. unfold hash_block, copy_u32.
  match goal with |- context [mem_copy ?d 0 ?x 0 4] => let r := eval vm_compute in (mem_copy d 0 x 0 4) in change (mem_copy d 0 x 0 4) with r end.
  rewrite bind_Ok.
  match goal with |- context [mem_copy ?d 4 ?x 0 3] => let r := eval vm_compute in (mem_copy d 4 x 0 3) in change (mem_copy d 4 x 0 3) with r end.
  rewrite bind_Ok.
  match goal with |- context [st ?d 7 i] => let r := eval vm_compute in (st d 7 i) in change (st d 7 i) with r end.
  rewrite bind_Ok. unfold mem_copy. cbn [len length]. simpl_cmp. cbn [andb].
  match goal with |- context [8 + 8 <=? ?n] => change (8 + 8 <=? n) with true end. cbv iota. rewrite bind_Ok.
  change (Z.to_nat 8) with 8%nat. change (Z.to_nat (8 + 8)) with 16%nat. cbn [take drop firstn skipn]. rewrite app_nil_r. done.
Qed.

Lemma xor_into_words hash h : words16 hash -> words16 h -> words16 (xor_into hash h).
Proof.
  intros [L1 H1] [L2 H2]. split; [unfold xor_into; rewrite length_zip_with; lia|]. clear L1 L2. revert h H2.
  induction H1 as [|a l Ha _ IH]; intros h H2; [done|]. destruct H2 as [|b h Hb H2]; [apply List.Forall_nil|]. apply List.Forall_cons; [by apply lxor_u32 | by apply IH].
Qed.

Lemma xor_into_inj hash h h' : words16 hash -> words16 h -> words16 h' -> xor_into hash h = xor_into hash h' -> h = h'.
Proof.
  intros [L _] [L1 _] [L2 _]. assert (length h = length hash) as E1 by lia. assert (length h' = length hash) as E2 by lia. clear L L1 L2.
  revert h h' E1 E2. induction hash as [|a l IH]; intros [|b h] [|b' h'] E1 E2; try done. cbn. intros [= E E'].
  f_equal; [|apply IH; cbn in *; [lia..|done]]. rewrite !(Z.lxor_comm a) in E. by eapply lxor_cancel.
Qed.

Lemma absorb_total hash i w : words16 hash -> is_u 32 i -> length w = 8%nat -> Forall (is_u 32) w ->
  exists hash', absorb hash i w = Ok hash' /\ words16 hash'.
Proof.
  intros. destruct (mixes_total _ mixes_block (in_block hash i w)) as (h & E & Hh); [by apply in_block_words|].
  unfold absorb. rewrite E, bind_Ok. eexists. split; [done|]. by apply xor_into_words.
Qed.

Lemma absorb_inj hash i w w' r : words16 hash -> is_u 32 i -> length w = 8%nat -> Forall (is_u 32) w -> length w' = 8%nat -> Forall (is_u 32) w' ->
  absorb hash i w = Ok r -> absorb hash i w' = Ok r -> w = w'.
Proof.
  intros Hh Hi L U L' U'. pose proof (in_block_words hash i w Hh Hi L U) as B. pose proof (in_block_words hash i w' Hh Hi L' U') as B'.
  destruct (mixes_total _ mixes_block _ B) as (h & E & ?), (mixes_total _ mixes_block _ B') as (h' & E' & ?).
  unfold absorb. rewrite E, E', !bind_Ok. intros [= <-] [= X]. apply xor_into_inj in X; [|done..]. subst h'.
  pose proof (mixes_inj _ mixes_block _ _ _ B B' E E') as X. unfold in_block in X. apply app_inv_head in X. by simplify_eq.
Qed.

Lemma words_at_ok msg i : Forall (is_u 32) msg -> 0 <= i -> i + 8 <= len msg -> length (words_at msg i) = 8%nat /\ Forall (is_u 32) (words_at msg i).
Proof.
  intros Hm Hi Hl. unfold words_at. rewrite length_take, length_drop. unfold len in Hl. split; [lia|]. by apply Forall_take, Forall_drop.
Qed.

Lemma hash_loop_turn n msg i hash h : words16 hash -> length h = 16%nat -> is_u 32 i -> i + 8 <= len msg -> Forall (is_u 32) msg ->
  exists hash' h', absorb hash i (words_at msg i) = Ok hash' /\ words16 hash' /\ length h' = 16%nat
    /\ hash_loop (S n) msg i hash h = hash_loop n msg (i + 8) hash' h'.
Proof.
  intros Hh Hl Hi Hm Hu. destruct (words_at_ok msg i Hu) as [Hw1 Hw2]; [apply Hi | done |].
  destruct (mixes_total _ mixes_block (in_block hash i (words_at msg i))) as (h' & E & Hh' & ?); [by apply in_block_words|].
  exists (xor_into hash h'), h'. unfold absorb. rewrite E, bind_Ok. split_and!; [done | by apply xor_into_words | done |].
  cbn [hash_loop]. rewrite hash_block_eq by (done || apply Hi). by rewrite E, !bind_Ok.
Qed.

(** The loop up to its last turn, and the last turn. *)
Lemma hash_loop_snoc n pre i hash : words16 hash -> 0 <= i -> i + 8 * Z.of_nat n = len pre -> len pre < 2 ^ 32 -> Forall (is_u 32) pre ->
  exists hash1, words16 hash1 /\ forall h w, length h = 16%nat -> length w = 8%nat -> Forall (is_u 32) w ->
    hash_loop (S n) (pre ++ w) i hash h = absorb hash1 (len pre) w.
Proof.
  revert i hash. induction n as [|n IH]; intros i hash Hh Hi Hn H32 Hp.
  - exists hash. split; [done|]. intros h w Hl Hw Hu. assert (i = len pre) as -> by lia.
    destruct (hash_loop_turn 0 (pre ++ w) (len pre) hash h) as (hash' & h' & E & _ & _ & ->); [done..| | |].
    + unfold len. rewrite length_app. lia.
    + by apply Forall_app.
    + cbn [hash_loop]. rewrite <- E. f_equal. unfold words_at, len. rewrite Nat2Z.id, drop_app_length. by rewrite take_ge by lia.
  - destruct (words_at_ok pre i Hp Hi) as [Hw1 Hw2]; [lia|].
    destruct (absorb_total hash i (words_at pre i)) as (hash' & E & Hh'); [done | unfold is_u; lia | done..|].
    destruct (IH (i + 8) hash') as (hash1 & H1 & Hrest); try done; try lia.
    exists hash1. split; [done|]. intros h w Hl Hw Hu.
    destruct (hash_loop_turn (S n) (pre ++ w) i hash h) as (hash2 & h2 & E2 & _ & L2 & ->); try done;
      [unfold is_u; lia | rewrite len_app; pose proof (len_nonneg w); lia | by apply Forall_app|].
    assert (words_at (pre ++ w) i = words_at pre i) as Hat.
    { unfold words_at. rewrite drop_app_le by (unfold len in *; lia). rewrite take_app_le; [done|]. rewrite length_drop. unfold len in *; lia. }
    rewrite Hat, E in E2. injection E2 as <-. by apply Hrest.
Qed.

(** What a call with a message of [8 * (n + 1)] words does. *)
Lemma calibration_hash_eq h0 n pre buf : length h0 = 16%nat -> length buf = 16%nat -> len pre = 8 * Z.of_nat n -> 4 * (len pre + 8) < 2 ^ 32 ->
  Forall (is_u 32) pre -> exists hash1, words16 hash1 /\ forall w, length w = 8%nat -> Forall (is_u 32) w ->
    jsdrv_calibration_hash h0 (Some (pre ++ w)) (4 * len (pre ++ w)) (Some buf) = (hash ← absorb hash1 (len pre) w; Ok (0, Some hash)).
Proof.
  intros Hh0 Hb Hn H32 Hp.
  destruct (hash_loop_snoc n pre 0 (replicate 16 0)) as (hash1 & H1 & Hrest); try done; try lia.
  { split; [done|]. by apply Forall_replicate. }
  exists hash1. split; [done|]. intros w Hw Hu. unfold jsdrv_calibration_hash. rewrite len_app.
  assert (len w = 8) as -> by (unfold len; lia). assert ((4 * (len pre + 8) =? 0) = false) as -> by (apply Z.eqb_neq; pose proof (len_nonneg pre); lia).
  assert (Z.land (4 * (len pre + 8)) 0x1f = 0) as ->.
  { change 0x1f with (Z.ones 5). rewrite Z.land_ones by lia. change (2 ^ 5) with 32. rewrite Hn. div_lia. }
  cbn [Z.eqb negb orb]. rewrite Z.shiftr_div_pow2 by lia. change (2 ^ 2) with 4.
  assert (Z.to_nat (4 * (len pre + 8) / 4 / 8) = S n) as -> by (rewrite Hn; div_lia).
  destruct (mem_copy_ok buf 0 (replicate 16 0) 0 16) as (e & -> & Le & He & _); try done; [unfold len; lia|]. rewrite bind_Ok.
  destruct (mem_copy_ok h0 0 chacha20_constant 0 4) as (h & Eh & Lh & _); try done; [unfold len; lia|]. unfold copy_u32. rewrite Eh, bind_Ok.
  assert (e = replicate 16 0) as ->.
  { apply list_eq. intros j. destruct (decide (j < 16)%nat) as [Hj|Hj]; [rewrite He by (cbn; lia); f_equal; cbn; lia|].
    rewrite !lookup_ge_None_2; [done|cbn; lia|unfold len in Le; lia]. }
  rewrite Hrest by (done || (unfold len in Lh; lia)). done.
Qed.

(** The calibration hash binds the last block: for two messages that agree up to their last 32 bytes
    and differ there, the function returns success for both, whatever its buffers held, and the hashes differ. *)
Lemma calibration_hash_last_block h0 n pre w w' buf : length h0 = 16%nat -> length buf = 16%nat ->
  len pre = 8 * Z.of_nat n -> 4 * (len pre + 8) < 2 ^ 32 -> length w = 8%nat -> length w' = 8%nat ->
  Forall (is_u 32) (pre ++ w) -> Forall (is_u 32) w' -> w <> w' ->
  exists hash hash', jsdrv_calibration_hash h0 (Some (pre ++ w)) (4 * len (pre ++ w)) (Some buf) = Ok (0, Some hash)
    /\ jsdrv_calibration_hash h0 (Some (pre ++ w')) (4 * len (pre ++ w')) (Some buf) = Ok (0, Some hash') /\ hash <> hash'.
Proof.
  intros Hh0 Hb Hn H32 L L' Hu U' Hne. apply Forall_app in Hu as [Hp U].
  destruct (calibration_hash_eq h0 n pre buf) as (hash1 & H1 & Heq); try done. rewrite !Heq by done.
  assert (is_u 32 (len pre)) by (unfold is_u; pose proof (len_nonneg pre); lia).
  destruct (absorb_total hash1 (len pre) w) as (r & E & _), (absorb_total hash1 (len pre) w') as (r' & E' & _); try done.
  rewrite E, E', !bind_Ok. exists r, r'. split_and!; [done..|]. intros <-. apply Hne. by eapply absorb_inj.
Qed.

Lemma calibration_hash_last_block_witness : exists hash hash',
  jsdrv_calibration_hash (replicate 16 7) (Some (seqZ 0 8 ++ seqZ 8 8)) 64 (Some (replicate 16 9)) = Ok (0, Some hash)
  /\ jsdrv_calibration_hash (replicate 16 7) (Some (seqZ 0 8 ++ seqZ 9 8)) 64 (Some (replicate 16 9)) = Ok (0, Some hash') /\ hash <> hash'.
Proof.
  apply (calibration_hash_last_block (replicate 16 7) 1 (seqZ 0 8) (seqZ 8 8) (seqZ 9 8) (replicate 16 9)); try reflexivity; try done.
  - change (seqZ 0 8 ++ seqZ 8 8) with [0; 1; 2; 3; 4; 5; 6; 7; 8; 9; 10; 11; 12; 13; 14; 15].
    repeat (apply List.Forall_cons; [by vm_compute|]). apply List.Forall_nil.
  - repeat (apply List.Forall_cons; [by vm_compute|]). apply List.Forall_nil.
Defined.

(** The pinned value of the unit test. *)
Example check32_zero : jsdrv_check32_xxhash [0] 1 = Ok 0x69154bfe.
Proof. reflexivity. Qed.

(** The first message of the Python unit test. *)
Example calibration_hash_msg1 : jsdrv_calibration_hash (replicate 16 0)
  (Some [0x03020100; 0x07060504; 0x0b0a0908; 0x0f0e0d0c; 0x13121110; 0x17161514; 0x1b1a1918; 0x1f1e1d1c;
         0x23222120; 0x27262524; 0x2b2a2928; 0x2f2e2d2c; 0x33323130; 0x37363534; 0x3b3a3938; 0x3f3e3d3c]) 64 (Some (replicate 16 0))
  = Ok (0, Some [0xf81b307a; 0xb97c67b5; 0x360014be; 0x300cb7ee; 0x77b58eb7; 0xbef6080a; 0xb58174b2; 0x0d13d633;
                 0x1e0c2be3; 0xd6341a0e; 0xcef65998; 0xee02a2a4; 0xbbb5a4c3; 0x43a9bef2; 0x02157487; 0x04eb2736]).
Proof. by vm_compute. Qed.

(** The words of [chacha20_constant] that are copied into the chaining state before the loop have no effect: the first block overwrites them. *)
Lemma constant_not_chained h h' msg n : length h = 16%nat -> length h' = 16%nat -> 8 <= len msg ->
  hash_loop (S n) msg 0 (replicate 16 0) h = hash_loop (S n) msg 0 (replicate 16 0) h'.
Proof.
  intros Hh Hh' Hm. cbn [hash_loop]. rewrite !hash_block_eq; try done; try lia; split; try done; by apply Forall_replicate.
Qed.
