(* ===== verification/DList.v ===== *)
(** * Intrusive doubly-linked lists (include_private/jsdrv_prv/list.h)

    The heap keeps the two fields of [struct jsdrv_list_s] as finite maps from
    addresses.  A list header and its items form a cycle; [dll h l xs] says that the
    header [l] links exactly the items [xs], in order, in both directions.  The
    backward links are the forward links of the reversed list, so one set of lemmas
    about [chain] serves both.  A field access outside the allocated nodes is a fault. *)

From stdpp Require Import gmap.
From S2P Require Import Prelude.

Definition ptr := nat.

Record heap := mk_heap { hnext : gmap ptr ptr; hprev : gmap ptr ptr }.

Definition fetch (m : gmap ptr ptr) (p : ptr) : res ptr :=
  match m !! p with Some v => Ok v | None => Fault OutOfBounds end.
Definition update (m : gmap ptr ptr) (p v : ptr) : res (gmap ptr ptr) :=
  match m !! p with Some _ => Ok (<[p := v]> m) | None => Fault OutOfBounds end.

(** [p->next], [p->prev], [p->next = v], [p->prev = v]. *)
Definition next (h : heap) (p : ptr) : res ptr := fetch (hnext h) p.
Definition prev (h : heap) (p : ptr) : res ptr := fetch (hprev h) p.
Definition set_next (h : heap) (p v : ptr) : res heap :=
  m ← update (hnext h) p v; Ok (mk_heap m (hprev h)).
Definition set_prev (h : heap) (p v : ptr) : res heap :=
  m ← update (hprev h) p v; Ok (mk_heap (hnext h) m).

(** ** Operations *)

Definition jsdrv_list_initialize (h : heap) (list : ptr) : res heap :=
  h ← set_next h list list; set_prev h list list.

Definition jsdrv_list_is_empty (h : heap) (list : ptr) : res bool :=
  n ← next h list; Ok (bool_decide (n = list)).

Definition jsdrv_list_remove_unsafe_ (h : heap) (item : ptr) : res heap :=
  p ← prev h item; n ← next h item; h ← set_next h p n;
  n ← next h item; p ← prev h item; set_prev h n p.

(** The insertions, after the unlinking of the item. *)
Definition link_head (h : heap) (list item : ptr) : res heap :=
  n ← next h list; h ← set_next h item n;
  h ← set_prev h item list;
  n ← next h item; h ← set_prev h n item;
  set_next h list item.
Definition jsdrv_list_add_head (h : heap) (list item : ptr) : res heap :=
  h ← jsdrv_list_remove_unsafe_ h item; link_head h list item.

Definition link_tail (h : heap) (list item : ptr) : res heap :=
  h ← set_next h item list;
  p ← prev h list; h ← set_prev h item p;
  p ← prev h item; h ← set_next h p item;
  set_prev h list item.
Definition jsdrv_list_add_tail (h : heap) (list item : ptr) : res heap :=
  h ← jsdrv_list_remove_unsafe_ h item; link_tail h list item.

Definition jsdrv_list_peek_head (h : heap) (list : option ptr) : res (option ptr) :=
  match list with
  | None => Ok None
  | Some list => n ← next h list; Ok (if bool_decide (n = list) then None else Some n)
  end.

Definition jsdrv_list_peek_tail (h : heap) (list : option ptr) : res (option ptr) :=
  match list with
  | None => Ok None
  | Some list => p ← prev h list; Ok (if bool_decide (p = list) then None else Some p)
  end.

Definition jsdrv_list_remove_head (h : heap) (list : option ptr) : res (heap * option ptr) :=
  match list with
  | None => Ok (h, None)
  | Some list =>
      item ← next h list;
      if bool_decide (item = list) then Ok (h, None)
      else
        n ← next h item; h ← set_prev h n list;
        n ← next h item; h ← set_next h list n;
        h ← set_next h item item; h ← set_prev h item item;
        Ok (h, Some item)
  end.

Definition jsdrv_list_remove_tail (h : heap) (list : option ptr) : res (heap * option ptr) :=
  match list with
  | None => Ok (h, None)
  | Some list =>
      item ← prev h list;
      if bool_decide (item = list) then Ok (h, None)
      else
        p ← prev h item; h ← set_next h p list;
        p ← prev h item; h ← set_prev h list p;
        h ← set_next h item item; h ← set_prev h item item;
        Ok (h, Some item)
  end.

Definition jsdrv_list_remove (h : heap) (item : ptr) : res heap :=
  p ← prev h item; n ← next h item; h ← set_next h p n;
  n ← next h item; p ← prev h item; h ← set_prev h n p;
  h ← set_next h item item; set_prev h item item.

Definition jsdrv_list_replace (h : heap) (remove add : ptr) : res (heap * option ptr) :=
  n ← next h remove;
  if bool_decide (n = remove) then Ok (h, None)
  else
    h ← jsdrv_list_remove h add;
    n ← next h remove; h ← set_next h add n;
    p ← prev h remove; h ← set_prev h add p;
    p ← prev h add; h ← set_next h p add;
    n ← next h add; h ← set_prev h n add;
    h ← jsdrv_list_initialize h remove;
    Ok (h, Some add).

Definition link_before (h : heap) (position_item new_item : ptr) : res heap :=
  p ← prev h position_item; h ← set_prev h new_item p;
  h ← set_next h new_item position_item;
  p ← prev h new_item; h ← set_next h p new_item;
  set_prev h position_item new_item.
Definition jsdrv_list_insert_before (h : heap) (position_item new_item : ptr) : res heap :=
  h ← jsdrv_list_remove_unsafe_ h new_item; link_before h position_item new_item.

Definition link_after (h : heap) (position_item new_item : ptr) : res heap :=
  n ← next h position_item; h ← set_next h new_item n;
  h ← set_prev h new_item position_item;
  h ← set_next h position_item new_item;
  n ← next h new_item; set_prev h n new_item.
Definition jsdrv_list_insert_after (h : heap) (position_item new_item : ptr) : res heap :=
  h ← jsdrv_list_remove_unsafe_ h new_item; link_after h position_item new_item.

(** [jsdrv_list_foreach_unsafe] with a counter; the cycle has at most [fuel] items. *)
Fixpoint length_loop (fuel : nat) (h : heap) (list item : ptr) (sz : Z) : res Z :=
  if bool_decide (item = list) then Ok sz
  else match fuel with
  | O => Fault OutOfFuel
  | S fuel' => n ← next h item; length_loop fuel' h list n (sz + 1)
  end.
Definition jsdrv_list_length (fuel : nat) (h : heap) (list : ptr) : res Z :=
  item ← next h list; length_loop fuel h list item 0.

Definition jsdrv_list_append (h : heap) (list_tgt list : ptr) : res heap :=
  p ← prev h list; h ← set_next h p list_tgt;
  n ← next h list; p ← prev h list_tgt; h ← set_prev h n p;
  p ← prev h list_tgt; n ← next h list; h ← set_next h p n;
  p ← prev h list; h ← set_prev h list_tgt p;
  jsdrv_list_initialize h list.

(** ** Chains *)

(** The nodes [l] follow one another through [m], and the last one leads to [z]. *)
Fixpoint chain (m : gmap ptr ptr) (l : list ptr) (z : ptr) : Prop :=
  match l with
  | [] => True
  | a :: l' => m !! a = Some (hd z l') /\ chain m l' z
  end.

Definition dll (h : heap) (l : ptr) (xs : list ptr) : Prop :=
  NoDup (l :: xs) /\ chain (hnext h) (l :: xs) l /\ chain (hprev h) (l :: rev xs) l.

Lemma chain_app m l1 : forall l2 z, chain m (l1 ++ l2) z <-> chain m l1 (hd z l2) /\ chain m l2 z.
Proof.
  induction l1 as [|a l1 IH]; intros l2 z; cbn; [tauto|]. rewrite IH.
  assert (hd z (l1 ++ l2) = hd (hd z l2) l1) as -> by (by destruct l1). tauto.
Qed.

Lemma chain_insert_ne m l z a v : a ∉ l -> chain (<[a := v]> m) l z <-> chain m l z.
Proof.
  induction l as [|b l IH]; intros Ha; cbn; [done|]. apply not_elem_of_cons in Ha as [Hab Ha].
  rewrite lookup_insert_ne by done. by rewrite IH.
Qed.

(** Redirecting the last node. *)
Lemma chain_redirect m l a z v : a ∉ l -> chain m (l ++ [a]) z -> chain (<[a := v]> m) (l ++ [a]) v.
Proof.
  rewrite !chain_app. cbn. intros Ha [H1 _]. rewrite chain_insert_ne by done.
  rewrite lookup_insert_eq. done.
Qed.

(** Every node of a chain is allocated. *)
Lemma chain_alloc m l z a : chain m l z -> a ∈ l -> is_Some (m !! a).
Proof.
  induction l as [|b l IH]; cbn; intros H Ha; [by apply not_elem_of_nil in Ha|].
  apply elem_of_cons in Ha as [->|Ha]; [eexists; apply H | apply IH; [apply H | done]].
Qed.

(** Taking [x] out behind [p]. *)
Lemma chain_unlink m l p x d z :
  NoDup (l ++ p :: x :: d) -> chain m (l ++ p :: x :: d) z ->
  m !! x = Some (hd z d) /\ m !! p = Some x /\ chain (<[p := hd z d]> m) (l ++ p :: d) z.
Proof.
  rewrite !chain_app. cbn. intros Hn (Hl & Hp & Hx & Hd). split_and!; [done | done | | |].
  - apply NoDup_app in Hn as (_ & Hn & _). rewrite chain_insert_ne; [done|].
    intros Hin. by apply (Hn p Hin), list_elem_of_here.
  - by rewrite lookup_insert_eq.
  - apply NoDup_app in Hn as (_ & _ & Hn). apply NoDup_cons in Hn as [Hn _].
    rewrite chain_insert_ne; [done|]. intros Hin. apply Hn. by apply elem_of_cons; right.
Qed.

(** Putting [x] in behind [p]. *)
Lemma chain_link m l p x d z :
  NoDup (l ++ p :: x :: d) -> chain m (l ++ p :: d) z ->
  chain (<[p := x]> (<[x := hd z d]> m)) (l ++ p :: x :: d) z.
Proof.
  rewrite !chain_app. cbn. intros Hn (Hl & Hp & Hd).
  apply NoDup_app in Hn as (_ & Hn1 & Hn2). apply NoDup_cons in Hn2 as [Hpx Hn2].
  apply not_elem_of_cons in Hpx as [Hpx Hpd]. apply NoDup_cons in Hn2 as [Hxd _]. split_and!.
  - rewrite !chain_insert_ne; [done | |]; intros Hin; apply (Hn1 _ Hin); set_solver.
  - by rewrite lookup_insert_eq.
  - by rewrite lookup_insert_ne, lookup_insert_eq.
  - by rewrite !chain_insert_ne.
Qed.

(** ** Running field accesses *)

Lemma next_ok h p v : hnext h !! p = Some v -> next h p = Ok v.
Proof. intros H. unfold next, fetch. by rewrite H. Qed.
Lemma prev_ok h p v : hprev h !! p = Some v -> prev h p = Ok v.
Proof. intros H. unfold prev, fetch. by rewrite H. Qed.
Lemma set_next_ok h p v : is_Some (hnext h !! p) ->
  set_next h p v = Ok (mk_heap (<[p := v]> (hnext h)) (hprev h)).
Proof. intros [w H]. unfold set_next, update. by rewrite H. Qed.
Lemma set_prev_ok h p v : is_Some (hprev h !! p) ->
  set_prev h p v = Ok (mk_heap (hnext h) (<[p := v]> (hprev h))).
Proof. intros [w H]. unfold set_prev, update. by rewrite H. Qed.

(** Evaluate the next field access of the goal with the facts at hand. *)
Ltac solve_lookup :=
  cbn [hnext hprev];
  repeat first [rewrite lookup_insert_eq | rewrite lookup_insert_ne by (congruence || done)];
  solve [ eassumption | reflexivity | eauto | by eexists ].
Ltac list_step :=
  first [ rewrite next_ok by solve_lookup
        | erewrite next_ok by solve_lookup
        | erewrite prev_ok by solve_lookup
        | rewrite set_next_ok by solve_lookup
        | rewrite set_prev_ok by solve_lookup ];
  rewrite ?bind_Ok.

(** Nodes outside [D] keep both links. *)
Definition agree (D : list ptr) (h h' : heap) : Prop :=
  forall q, q ∉ D -> hnext h' !! q = hnext h !! q /\ hprev h' !! q = hprev h !! q.

Lemma chain_ext m m' l z : (forall q, q ∈ l -> m' !! q = m !! q) -> chain m l z -> chain m' l z.
Proof.
  induction l as [|a l IH]; cbn; intros H; [done|]. intros [Ha Hl]. split; [rewrite H by constructor; done|].
  apply IH; [|done]. intros q Hq. apply H. by constructor.
Qed.

Lemma elem_of_rev (q : ptr) l : q ∈ rev l <-> q ∈ l.
Proof. rewrite rev_alt. apply elem_of_reverse. Qed.

(** Frame: an operation on the nodes [D] leaves the other lists alone. *)
Lemma dll_frame D h h' l xs :
  dll h l xs -> agree D h h' -> (forall q, q ∈ l :: xs -> q ∉ D) -> dll h' l xs.
Proof.
  intros (Hn & Hc & Hp) Ha Hd. split; [done | split].
  - eapply (chain_ext (hnext h)); [|done]. intros q Hq. by apply Ha, Hd.
  - eapply (chain_ext (hprev h)); [|done]. intros q Hq. apply Ha, Hd.
    apply elem_of_cons. apply elem_of_cons in Hq as [|Hq]; [by left | right].
    by apply elem_of_rev.
Qed.

(** The last node of the cycle. *)
Lemma snoc_last (l : ptr) xs : exists A, l :: xs = A ++ [hd l (rev xs)].
Proof.
  induction xs as [|x xs _] using rev_ind; [by exists []|].
  exists (l :: xs). by rewrite rev_app_distr.
Qed.

(** The neighbours of a position are nodes of the cycle. *)
Lemma neighbours_in (l : ptr) xs ys : hd l (rev xs) ∈ l :: xs ++ ys /\ hd l ys ∈ l :: xs ++ ys.
Proof.
  split.
  - destruct (rev xs) as [|x r] eqn:Hr; cbn; [set_solver|].
    assert (x ∈ xs) by (apply elem_of_rev; rewrite Hr; set_solver). set_solver.
  - destruct ys; cbn; set_solver.
Qed.

Lemma dll_alloc h l xs q : dll h l xs -> q ∈ l :: xs -> is_Some (hnext h !! q) /\ is_Some (hprev h !! q).
Proof.
  intros (_ & Hc & Hp) Hq. split; [by eapply chain_alloc|]. eapply chain_alloc; [done|].
  apply elem_of_cons. apply elem_of_cons in Hq as [|Hq]; [by left | right].
  by apply elem_of_rev.
Qed.

Lemma NoDup_rev_cons (l : ptr) xs : NoDup (l :: xs) -> NoDup (l :: rev xs).
Proof.
  rewrite !NoDup_cons, elem_of_rev. intros [H1 H2]. split; [done|].
  by rewrite <- Permutation_rev.
Qed.

(** ** Unlinking *)

(** The heap with the link between [p] and [n] closed. *)
Definition unlinked (h : heap) (p n : ptr) : heap :=
  mk_heap (<[p := n]> (hnext h)) (<[n := p]> (hprev h)).

(** The neighbours of an item, and the heap after it is taken out. *)
Lemma unlinked_spec h l xs item ys :
  dll h l (xs ++ item :: ys) ->
  let p := hd l (rev xs) in let n := hd l ys in
  dll (unlinked h p n) l (xs ++ ys) /\ hnext h !! item = Some n /\ hprev h !! item = Some p
  /\ hnext h !! p = Some item /\ hprev h !! n = Some item /\ p <> item /\ n <> item
  /\ agree (l :: xs ++ ys) h (unlinked h p n).
Proof.
  intros (Hn & Hc & Hp) p n. pose proof (NoDup_rev_cons _ _ Hn) as Hnr.
  rewrite rev_app_distr in Hp, Hnr. cbn [rev] in Hp, Hnr. rewrite <- app_assoc in Hp, Hnr. cbn [app] in Hp, Hnr.
  destruct (snoc_last l xs) as [A HA]. destruct (snoc_last l (rev ys)) as [B HB]. rewrite rev_involutive in HB.
  fold p in HA. fold n in HB.
  assert (l :: xs ++ item :: ys = A ++ p :: item :: ys) as E1 by (rewrite app_comm_cons, HA, <- app_assoc; done).
  assert (l :: rev ys ++ item :: rev xs = B ++ n :: item :: rev xs) as E2
    by (rewrite app_comm_cons, HB, <- app_assoc; done).
  rewrite E1 in Hc. rewrite E2 in Hp. pose proof Hn as Hn0. rewrite E1 in Hn0. rewrite E2 in Hnr.
  destruct (chain_unlink _ _ _ _ _ _ Hn0 Hc) as (Hni & Hnp & Hc').
  destruct (chain_unlink _ _ _ _ _ _ Hnr Hp) as (Hpi & Hpn & Hp'). fold p in Hpi, Hp'. fold n in Hni, Hc'.
  assert (forall (C : list ptr) a d, NoDup (C ++ a :: item :: d) -> a <> item) as Hne.
  { intros C a d N ->. apply NoDup_app in N as (_ & _ & N). apply NoDup_cons in N as [N _]. by apply N; constructor. }
  split; [split; [|split]|].
  - rewrite app_comm_cons in Hn |- *. apply NoDup_app in Hn as (N1 & N2 & N3). apply NoDup_cons in N3 as [_ N3].
    apply NoDup_app. split_and!; [done | | done]. intros q Hq Hy. apply (N2 q Hq). by constructor.
  - cbn [unlinked hnext]. rewrite app_comm_cons, HA, <- app_assoc. exact Hc'.
  - cbn [unlinked hprev]. rewrite rev_app_distr, app_comm_cons, HB, <- app_assoc. exact Hp'.
  - split_and!; try done; [by eapply Hne | by eapply Hne |]. intros q Hq. cbn [unlinked hnext hprev].
    destruct (neighbours_in l xs ys) as [Hpin Hnin]. fold p in Hpin. fold n in Hnin.
    rewrite !lookup_insert_ne by congruence. done.
Qed.

Lemma remove_unsafe_eq h l xs item ys :
  dll h l (xs ++ item :: ys) ->
  jsdrv_list_remove_unsafe_ h item = Ok (unlinked h (hd l (rev xs)) (hd l ys)).
Proof.
  intros Hd. destruct (unlinked_spec h l xs item ys Hd) as (_ & H1 & H2 & H3 & H4 & H5 & H6 & _).
  unfold jsdrv_list_remove_unsafe_. by repeat list_step.
Qed.

Lemma remove_unsafe_spec h l xs item ys :
  dll h l (xs ++ item :: ys) ->
  exists h', jsdrv_list_remove_unsafe_ h item = Ok h' /\ dll h' l (xs ++ ys)
    /\ hnext h' !! item = hnext h !! item /\ hprev h' !! item = hprev h !! item
    /\ agree (l :: xs ++ item :: ys) h h'.
Proof.
  intros Hd. destruct (unlinked_spec h l xs item ys Hd) as (Hd' & _ & _ & _ & _ & H5 & H6 & Ha).
  eexists; split; [by apply remove_unsafe_eq|]. split; [exact Hd'|]. cbn [unlinked hnext hprev].
  rewrite !lookup_insert_ne by done. split_and!; [done | done |]. intros q Hq. apply Ha. set_solver.
Qed.

(** A self-linked item is left as it is. *)
Lemma remove_unsafe_self h item :
  dll h item [] -> exists h', jsdrv_list_remove_unsafe_ h item = Ok h' /\ agree [] h h'.
Proof.
  intros (_ & [Hn _] & [Hp _]). cbn in Hn, Hp. unfold jsdrv_list_remove_unsafe_.
  repeat list_step. eexists; split; [done|]. intros q _. cbn [hnext hprev].
  rewrite !lookup_insert. split; case_decide; by subst.
Qed.

(** ** Linking a free node between two neighbours *)

Definition free_node (h : heap) (item : ptr) : Prop :=
  is_Some (hnext h !! item) /\ is_Some (hprev h !! item).

(** The heap with [item] between [p] and [n]. *)
Definition linked (h : heap) (p item n : ptr) : heap :=
  mk_heap (<[p := item]> (<[item := n]> (hnext h))) (<[n := item]> (<[item := p]> (hprev h))).

Lemma linked_spec h l xs ys item :
  dll h l (xs ++ ys) -> item ∉ l :: xs ++ ys ->
  let p := hd l (rev xs) in let n := hd l ys in
  dll (linked h p item n) l (xs ++ item :: ys) /\ hnext h !! p = Some n /\ hprev h !! n = Some p
  /\ p ∈ l :: xs ++ ys /\ n ∈ l :: xs ++ ys /\ agree (l :: xs ++ item :: ys) h (linked h p item n).
Proof.
  intros (Hn & Hc & Hp) Hi p n. pose proof (NoDup_rev_cons _ _ Hn) as Hnr.
  rewrite rev_app_distr in Hp, Hnr.
  destruct (snoc_last l xs) as [A HA]. destruct (snoc_last l (rev ys)) as [B HB]. rewrite rev_involutive in HB.
  fold p in HA. fold n in HB.
  assert (l :: xs ++ ys = A ++ p :: ys) as E1 by (rewrite app_comm_cons, HA, <- app_assoc; done).
  assert (l :: rev ys ++ rev xs = B ++ n :: rev xs) as E2 by (rewrite app_comm_cons, HB, <- app_assoc; done).
  assert (NoDup (l :: xs ++ item :: ys)) as Hn'.
  { rewrite app_comm_cons in *. apply NoDup_app in Hn as (N1 & N2 & N3). apply NoDup_app.
    clear -Hi N1 N2 N3.
    split_and!; [done | | apply NoDup_cons; set_solver]. intros q Hq. specialize (N2 q Hq). set_solver. }
  pose proof (NoDup_rev_cons _ _ Hn') as Hnr'. rewrite rev_app_distr in Hnr'. cbn [rev] in Hnr'.
  rewrite <- app_assoc in Hnr'. cbn [app] in Hnr'.
  destruct (neighbours_in l xs ys) as [Hpin Hnin]. fold p in Hpin. fold n in Hnin.
  split; [split; [exact Hn'|split]|split; [|split; [|split; [done|split; [done|]]]]].
  - cbn [linked hnext]. rewrite app_comm_cons, HA, <- app_assoc. cbn [app].
    rewrite E1 in Hc. apply chain_link; [|done].
    rewrite app_comm_cons, HA, <- app_assoc in Hn'. exact Hn'.
  - cbn [linked hprev]. rewrite rev_app_distr. cbn [rev]. rewrite <- app_assoc. cbn [app].
    rewrite app_comm_cons, HB, <- app_assoc. cbn [app]. rewrite E2 in Hp.
    apply (chain_link _ B n item (rev xs) l); [|done].
    rewrite app_comm_cons, HB, <- app_assoc in Hnr'. exact Hnr'.
  - rewrite E1, chain_app in Hc. apply Hc.
  - rewrite E2, chain_app in Hp. apply Hp.
  - intros q Hq. cbn [linked hnext hprev].
    assert (forall r, r ∈ l :: xs ++ ys -> r ∈ l :: xs ++ item :: ys) as Hsub by (clear; set_solver).
    apply Hsub in Hpin, Hnin. assert (item ∈ l :: xs ++ item :: ys) by (clear; set_solver).
    rewrite !lookup_insert_ne by congruence. done.
Qed.

(** [item] goes between the items [xs] and [ys]. *)
Definition inserts (op : heap -> res heap) (h : heap) (l item : ptr) (xs ys : list ptr) : Prop :=
  exists h', op h = Ok h' /\ dll h' l (xs ++ item :: ys) /\ agree (l :: xs ++ item :: ys) h h'.

Section Link.
Context (h : heap) (l item : ptr).
Hypothesis Hfree : free_node h item.

Lemma link_tail_spec xs :
  dll h l xs -> item ∉ l :: xs -> inserts (fun h => link_tail h l item) h l item xs [].
Proof using Hfree.
  intros Hd Hi. rewrite <- (app_nil_r xs) in Hd, Hi. destruct Hfree as [Hf1 Hf2].
  destruct (linked_spec h l xs [] item Hd Hi) as (H1 & Hn & Hp & Hpin & Hnin & Ha). cbn [hd] in *.
  eexists; split; [|split; [exact H1 | exact Ha]]. unfold link_tail.
  assert (hd l (rev xs) <> item /\ l <> item) as [] by (split; congruence).
  repeat list_step. reflexivity.
Qed.

Lemma link_head_spec xs :
  dll h l xs -> item ∉ l :: xs -> inserts (fun h => link_head h l item) h l item [] xs.
Proof using Hfree.
  intros Hd Hi. destruct Hfree as [Hf1 Hf2].
  destruct (linked_spec h l [] xs item Hd Hi) as (H1 & Hn & Hp & Hpin & Hnin & Ha). cbn [hd rev app] in *.
  eexists; split; [|split; [exact H1 | exact Ha]]. unfold link_head.
  assert (hd l xs <> item /\ l <> item) as [] by (split; congruence).
  repeat list_step. reflexivity.
Qed.

Lemma link_before_spec xs pos ys :
  dll h l (xs ++ pos :: ys) -> item ∉ l :: xs ++ pos :: ys ->
  inserts (fun h => link_before h pos item) h l item xs (pos :: ys).
Proof using Hfree.
  intros Hd Hi. destruct Hfree as [Hf1 Hf2].
  destruct (linked_spec h l xs (pos :: ys) item Hd Hi) as (H1 & Hn & Hp & Hpin & Hnin & Ha). cbn [hd] in *.
  eexists; split; [|split; [exact H1 | exact Ha]]. unfold link_before.
  assert (hd l (rev xs) <> item /\ pos <> item) as [] by (split; congruence).
  repeat list_step. reflexivity.
Qed.

Lemma link_after_spec xs pos ys :
  dll h l (xs ++ pos :: ys) -> item ∉ l :: xs ++ pos :: ys ->
  inserts (fun h => link_after h pos item) h l item (xs ++ [pos]) ys.
Proof using Hfree.
  intros Hd Hi. destruct Hfree as [Hf1 Hf2]. rewrite cons_middle, app_assoc in Hd, Hi.
  destruct (linked_spec h l (xs ++ [pos]) ys item Hd Hi) as (H1 & Hn & Hp & Hpin & Hnin & Ha).
  rewrite rev_app_distr in *. cbn [hd rev app] in *.
  eexists; split; [|split; [exact H1 | exact Ha]]. unfold link_after.
  assert (hd l ys <> item /\ pos <> item) as [] by (split; congruence).
  repeat list_step. reflexivity.
Qed.
End Link.

(** ** Insertions that unlink first *)

(** Where an item may come from: self-linked, in another list, or in the same list. *)
Lemma unlink_self_then op h l item xs ys :
  dll h item [] -> dll h l (xs ++ ys) -> item ∉ l :: xs ++ ys ->
  (forall h, free_node h item -> dll h l (xs ++ ys) -> inserts op h l item xs ys) ->
  inserts (fun h => h ← jsdrv_list_remove_unsafe_ h item; op h) h l item xs ys.
Proof.
  intros Hs Hd Hi Hop. destruct (remove_unsafe_self h item Hs) as (h1 & Hr & Ha).
  assert (free_node h1 item) as Hf.
  { unfold free_node. destruct (Ha item) as [-> ->]; [apply not_elem_of_nil|]. apply (dll_alloc h item [] item Hs). set_solver. }
  destruct (Hop h1 Hf) as (h' & Ho & Hd' & Ha'); [eapply dll_frame; [done | done | intros q _; apply not_elem_of_nil]|].
  exists h'. rewrite Hr, bind_Ok. split; [done|]. split; [done|].
  intros q Hq. destruct (Ha' q Hq) as [-> ->]. apply Ha. apply not_elem_of_nil.
Qed.

Lemma unlink_then op h l item xs ys l2 xs2 ys2 :
  dll h l2 (xs2 ++ item :: ys2) -> dll h l (xs ++ ys) ->
  (forall q, q ∈ l :: xs ++ ys -> q ∉ l2 :: xs2 ++ item :: ys2) ->
  (forall h, free_node h item -> dll h l (xs ++ ys) -> inserts op h l item xs ys) ->
  exists h', (h ← jsdrv_list_remove_unsafe_ h item; op h) = Ok h'
    /\ dll h' l (xs ++ item :: ys) /\ dll h' l2 (xs2 ++ ys2)
    /\ agree ((l :: xs ++ item :: ys) ++ l2 :: xs2 ++ ys2) h h'.
Proof.
  intros H2 Hd Hdis Hop. destruct (remove_unsafe_spec h l2 xs2 item ys2 H2) as (h1 & Hr & H2' & Hni & Hpi & Ha).
  destruct (dll_alloc h l2 _ item H2) as [Hf1 Hf2]; [set_solver|].
  assert (dll h1 l (xs ++ ys)) as Hd1 by (eapply dll_frame; eauto).
  destruct (Hop h1) as (h' & Ho & Hd' & Ha'); [by split; rewrite ?Hni, ?Hpi | done |].
  exists h'. rewrite Hr, bind_Ok. split; [done|]. split; [done|]. split.
  - eapply dll_frame; [exact H2' | exact Ha' |]. intros q Hq. clear -Hq Hdis H2.
    destruct H2 as (Hn & _). rewrite app_comm_cons in Hn. apply NoDup_app in Hn as (_ & N2 & N3).
    apply NoDup_cons in N3 as [N3 _]. specialize (N2 item).
    assert (q <> item) by (intros ->; set_solver). specialize (Hdis q). set_solver.
  - intros q Hq. destruct (Ha' q) as [-> ->]; [set_solver|]. apply Ha. set_solver.
Qed.

(** ** Removals *)

(** The heap with [item] linked to itself. *)
Definition selfed (h : heap) (item : ptr) : heap :=
  mk_heap (<[item := item]> (hnext h)) (<[item := item]> (hprev h)).

Lemma selfed_spec h l xs item :
  dll h l xs -> item ∉ l :: xs -> dll (selfed h item) l xs /\ dll (selfed h item) item [].
Proof.
  intros Hd Hi. split.
  - apply (dll_frame [item] h); [done | | set_solver]. intros q Hq. cbn [selfed hnext hprev].
    rewrite !lookup_insert_ne by set_solver. done.
  - split; [apply NoDup_singleton|]. cbn [selfed hnext hprev chain rev]. by rewrite !lookup_insert_eq.
Qed.

(** An item that is taken out is no longer in the list. *)
Lemma dll_item_notin h l xs item ys : dll h l (xs ++ item :: ys) -> item ∉ l :: xs ++ ys.
Proof.
  intros (Hn & _). assert (item :: l :: xs ++ ys ≡ₚ l :: xs ++ item :: ys) as Hp.
  { rewrite Permutation_swap. f_equiv. by rewrite Permutation_middle. }
  rewrite <- Hp in Hn. by apply NoDup_cons in Hn as [Hn _].
Qed.

(** What every removal of [item] achieves. *)
Definition removes (h h' : heap) (l item : ptr) (xs ys : list ptr) : Prop :=
  dll h' l (xs ++ ys) /\ dll h' item [] /\ agree (l :: xs ++ item :: ys) h h'.

Lemma unlinked_selfed_removes h l xs item ys :
  dll h l (xs ++ item :: ys) ->
  removes h (selfed (unlinked h (hd l (rev xs)) (hd l ys)) item) l item xs ys.
Proof.
  intros Hd. destruct (unlinked_spec h l xs item ys Hd) as (Hd' & _ & _ & _ & _ & _ & _ & Ha).
  destruct (selfed_spec _ l (xs ++ ys) item Hd') as [H1 H2]; [by eapply dll_item_notin|].
  split; [done|]. split; [done|]. intros q Hq. cbn [selfed hnext hprev].
  rewrite !lookup_insert_ne by set_solver. apply Ha. set_solver.
Qed.

Lemma jsdrv_list_remove_spec h l xs item ys :
  dll h l (xs ++ item :: ys) ->
  exists h', jsdrv_list_remove h item = Ok h' /\ removes h h' l item xs ys.
Proof.
  intros Hd. destruct (unlinked_spec h l xs item ys Hd) as (_ & H1 & H2 & H3 & H4 & H5 & H6 & _).
  eexists; split; [|by apply unlinked_selfed_removes].
  unfold jsdrv_list_remove. by repeat list_step.
Qed.

Lemma jsdrv_list_remove_head_spec h l xs :
  dll h l xs ->
  match xs with
  | [] => jsdrv_list_remove_head h (Some l) = Ok (h, None)
  | x :: xs' => exists h', jsdrv_list_remove_head h (Some l) = Ok (h', Some x) /\ removes h h' l x [] xs'
  end.
Proof.
  intros Hd. destruct xs as [|x xs']; unfold jsdrv_list_remove_head.
  - destruct Hd as (_ & [Hn _] & _). list_step. cbn [hd]. by rewrite bool_decide_true.
  - destruct (unlinked_spec h l [] x xs' Hd) as (_ & H1 & H2 & H3 & H4 & H5 & H6 & _). cbn [rev hd] in *.
    list_step. rewrite bool_decide_false by congruence.
    eexists; split; [|by apply (unlinked_selfed_removes h l [])]. cbn [rev hd].
    repeat list_step. reflexivity.
Qed.

Lemma jsdrv_list_remove_tail_spec h l xs :
  dll h l xs ->
  match rev xs with
  | [] => jsdrv_list_remove_tail h (Some l) = Ok (h, None)
  | x :: r => exists h', jsdrv_list_remove_tail h (Some l) = Ok (h', Some x) /\ removes h h' l x (rev r) []
  end.
Proof.
  intros Hd. destruct (rev xs) as [|x r] eqn:Hr; unfold jsdrv_list_remove_tail.
  - destruct Hd as (_ & _ & Hp). rewrite Hr in Hp. destruct Hp as [Hp _]. list_step. cbn [hd]. by rewrite bool_decide_true.
  - assert (xs = rev r ++ [x]) as -> by (rewrite <- (rev_involutive xs), Hr; done). clear Hr.
    destruct (unlinked_spec h l (rev r) x [] Hd) as (_ & H1 & H2 & H3 & H4 & H5 & H6 & _).
    pose proof (unlinked_selfed_removes h l (rev r) x [] Hd) as Hrem.
    rewrite rev_involutive in *. cbn [hd] in *.
    list_step. rewrite bool_decide_false by congruence.
    eexists; split; [|exact Hrem]. repeat list_step. reflexivity.
Qed.

(** ** Length and append *)

Lemma length_loop_spec h l : forall xs item sz fuel,
  l ∉ xs -> chain (hnext h) xs l -> item = hd l xs -> (length xs <= fuel)%nat ->
  length_loop fuel h l item sz = Ok (sz + len xs).
Proof.
  induction xs as [|x xs IH]; intros item sz fuel Hl Hc -> Hf.
  - rewrite (@len_nil ptr), Z.add_0_r. destruct fuel; cbn [length_loop hd]; by rewrite bool_decide_true.
  - apply not_elem_of_cons in Hl as [Hlx Hl]. destruct Hc as [Hx Hc]. cbn [length] in Hf.
    destruct fuel as [|fuel]; [lia|]. cbn [length_loop hd]. rewrite bool_decide_false by congruence.
    list_step. rewrite (IH _ _ _ Hl Hc) by (done || lia). rewrite len_cons. f_equal. lia.
Qed.

Lemma jsdrv_list_length_spec h l xs fuel :
  dll h l xs -> (length xs <= fuel)%nat -> jsdrv_list_length fuel h l = Ok (len xs).
Proof.
  intros (Hn & [Hl Hc] & _) Hf. apply NoDup_cons in Hn as [Hn _]. unfold jsdrv_list_length.
  list_step. by rewrite (length_loop_spec h l xs).
Qed.

Lemma jsdrv_list_append_spec h t xs l y ys :
  dll h t xs -> dll h l (y :: ys) -> (forall q, q ∈ t :: xs -> q ∉ l :: y :: ys) ->
  exists h', jsdrv_list_append h t l = Ok h' /\ dll h' t (xs ++ y :: ys) /\ dll h' l [].
Proof.
  intros Ht Hl Hdis. pose proof Ht as (Nt & Ct & Pt). pose proof Hl as (Nl & [Cl Cy] & Pl).
  destruct (snoc_last t xs) as [A HA]. set (p := hd t (rev xs)) in *.
  destruct (snoc_last y ys) as [B HB]. set (q := hd y (rev ys)) in *.
  assert (rev (y :: ys) = q :: rev B) as Hrev by (rewrite HB, rev_app_distr; done).
  rewrite Hrev in Pl. destruct Pl as [Pl Pq]. cbn [hd] in Cl, Pl.
  assert (exists C, rev (y :: ys) = C ++ [y]) as [C HC] by (exists (rev ys); done).
  assert (p ∈ t :: xs) as Hpin by (rewrite HA; clear; set_solver).
  assert (q ∈ y :: ys) as Hqin by (rewrite HB; clear; set_solver).
  assert (hprev h !! t = Some p) as Hpt by apply Pt.
  apply NoDup_cons in Nl as [Nl1 Nl2].
  assert (forall a b, a ∈ t :: xs -> b ∈ l :: y :: ys -> a <> b) as Hne by (intros a b Ha Hb ->; exact (Hdis _ Ha Hb)).
  assert (t ∈ t :: xs) as Htin by constructor. assert (l ∈ l :: y :: ys) as Hlin by constructor.
  assert (y ∈ l :: y :: ys) as Hyin by (do 2 constructor).
  assert (q ∈ l :: y :: ys) as Hqin' by (by constructor).
  assert (l <> y) by (intros ->; by apply Nl1; constructor).
  assert (l <> q) by (intros Heq; apply Nl1; by rewrite Heq).
  pose proof (Hne t l Htin Hlin). pose proof (Hne t y Htin Hyin). pose proof (Hne p l Hpin Hlin).
  pose proof (Hne p q Hpin Hqin'). pose proof (Hne t q Htin Hqin'). pose proof (Hne p y Hpin Hyin).
  destruct (dll_alloc h t xs p Ht Hpin) as [Hp1 _]. destruct (dll_alloc h t xs t Ht Htin) as [_ Ht2].
  destruct (dll_alloc h l _ q Hl Hqin') as [Hq1 _]. destruct (dll_alloc h l _ y Hl Hyin) as [_ Hy2].
  unfold jsdrv_list_append, jsdrv_list_initialize. repeat list_step.
  eexists; split; [done|]. cbn [hnext hprev].
  assert (NoDup (t :: xs ++ y :: ys)) as Hnd.
  { rewrite app_comm_cons. apply NoDup_app. split_and!; [done | | done].
    intros r Hr Hin. apply (Hdis r Hr). by constructor. }
  assert (l ∉ t :: xs ++ y :: ys) as Hlnot.
  { rewrite app_comm_cons, elem_of_app. intros [Hin|Hin]; [by apply (Hdis l Hin) | done]. }
  split; [split; [done|split]|].
  - cbn [hnext]. rewrite chain_insert_ne by done. rewrite app_comm_cons, HA, HB.
    rewrite HA in Ct, Nt. rewrite HB in Cy, Nl2. apply chain_app. split.
    + replace (hd t (B ++ [q])) with y by (destruct B; cbn in HB |- *; congruence).
      apply chain_redirect with (z := t).
      { apply NoDup_app in Nt as (_ & N & _). intros Hin. by apply (N p Hin), list_elem_of_here. }
      rewrite chain_insert_ne; [done|]. intros Hin. rewrite <- HA in Hin. by apply (Hdis q Hin).
    + rewrite chain_insert_ne by (rewrite <- HB; intros Hin; apply (Hdis p Hpin); by constructor).
      apply chain_redirect with (z := l); [|done].
      apply NoDup_app in Nl2 as (_ & N & _). intros Hin. by apply (N q Hin), list_elem_of_here.
  - cbn [hprev]. rewrite chain_insert_ne.
    2: { apply NoDup_rev_cons in Hnd. rewrite elem_of_cons, elem_of_rev, <- elem_of_cons. done. }
    apply NoDup_rev_cons in Hnd. rewrite rev_app_distr in Hnd |- *.
    rewrite Hrev in HC. rewrite Hrev, HC in Hnd |- *. rewrite HC in Pq.
    assert (hd t ((C ++ [y]) ++ rev xs) = q) as Hhd by (rewrite <- HC; done).
    split; [by rewrite lookup_insert_eq, Hhd|].
    apply NoDup_cons in Hnd as [Hn1 Hn2]. apply NoDup_app in Hn2 as (Hn2 & Hn3 & _).
    rewrite chain_insert_ne by done. apply chain_app. split.
    + apply chain_redirect with (z := l); [|done].
      apply NoDup_app in Hn2 as (_ & N & _). intros Hin. by apply (N y Hin), list_elem_of_here.
    + rewrite chain_insert_ne; [apply Pt|]. apply Hn3. apply elem_of_app; right; by constructor.
  - split; [apply NoDup_singleton|]. cbn [chain rev hd hnext hprev]. by rewrite !lookup_insert_eq.
Qed.

(** ** Properties *)

(** Adding at the tail and removing at the head implement a first-in first-out queue:
    a self-linked item joins behind the items of the list, the item removed is the
    oldest one and is self-linked again, forward and backward links stay consistent,
    and no other list is touched. *)
Lemma list_fifo h l xs item l2 xs2 :
  dll h l xs -> dll h item [] -> item ∉ l :: xs -> dll h l2 xs2 ->
  (forall q, q ∈ l2 :: xs2 -> q ∉ l :: xs ++ [item]) ->
  exists h1 h2, jsdrv_list_add_tail h l item = Ok h1 /\ dll h1 l (xs ++ [item]) /\ dll h1 l2 xs2
    /\ jsdrv_list_remove_head h1 (Some l) = Ok (h2, Some (hd item xs))
    /\ dll h2 l (drop 1 (xs ++ [item])) /\ dll h2 (hd item xs) [] /\ dll h2 l2 xs2.
Proof.
  intros Hd Hs Hi H2 Hdis.
  destruct (unlink_self_then (fun h => link_tail h l item) h l item xs []) as (h1 & E1 & D1 & A1);
    [done | by rewrite app_nil_r | by rewrite app_nil_r | |].
  { intros h0 Hf Hd0. rewrite app_nil_r in Hd0. by apply link_tail_spec. }
  assert (dll h1 l2 xs2) as H21 by (eapply dll_frame; eauto).
  pose proof (jsdrv_list_remove_head_spec h1 l (xs ++ [item]) D1) as Hrem.
  exists h1. destruct xs as [|x xs]; cbn [app hd drop] in *;
    destruct Hrem as (h' & E2 & D2 & S2 & A2); exists h';
    (split; [exact E1|]); do 4 (split; [done|]); (split; [done|]);
    eapply dll_frame; eauto.
Qed.

(** The items 1, 2, 3: a list headed by 1 that holds 2, and a free item 3. *)
Definition heap_example : heap :=
  mk_heap {[1%nat := 2%nat; 2%nat := 1%nat; 3%nat := 3%nat; 4%nat := 4%nat]}
          {[1%nat := 2%nat; 2%nat := 1%nat; 3%nat := 3%nat; 4%nat := 4%nat]}.

Lemma dll_example : dll heap_example 1%nat [2%nat] /\ dll heap_example 3%nat [] /\ dll heap_example 4%nat [].
Proof.
  split; [|split]; (split; [|split; vm_compute; done]).
  - apply NoDup_cons; split; [set_solver | apply NoDup_singleton].
  - apply NoDup_singleton.
  - apply NoDup_singleton.
Qed.

Lemma list_fifo_witness :
  exists h1 h2, jsdrv_list_add_tail heap_example 1%nat 3%nat = Ok h1
    /\ dll h1 1%nat [2%nat; 3%nat] /\ dll h1 4%nat []
    /\ jsdrv_list_remove_head h1 (Some 1%nat) = Ok (h2, Some 2%nat)
    /\ dll h2 1%nat [3%nat] /\ dll h2 2%nat [] /\ dll h2 4%nat [].
Proof.
  apply (list_fifo heap_example 1%nat [2%nat] 3%nat 4%nat []);
    [apply dll_example | apply dll_example | set_solver | apply dll_example | set_solver].
Defined.

(** Removing an item from anywhere in its list keeps the order of the others, leaves the
    item self-linked, and the length then counted is one less. *)
Lemma list_remove_any h l xs item ys fuel :
  dll h l (xs ++ item :: ys) -> (length (xs ++ ys) <= fuel)%nat ->
  exists h', jsdrv_list_remove h item = Ok h' /\ dll h' l (xs ++ ys) /\ dll h' item []
    /\ jsdrv_list_length fuel h' l = Ok (len (xs ++ item :: ys) - 1)
    /\ jsdrv_list_is_empty h' item = Ok true.
Proof.
  intros Hd Hf. destruct (jsdrv_list_remove_spec h l xs item ys Hd) as (h' & E & D & S & _).
  exists h'. split; [done|]. split; [done|]. split; [done|]. split.
  - rewrite (jsdrv_list_length_spec h' l (xs ++ ys)) by done. f_equal. rewrite !len_app, len_cons. lia.
  - unfold jsdrv_list_is_empty. destruct S as (_ & [Hn _] & _). list_step. cbn [hd]. by rewrite bool_decide_true.
Qed.

Lemma list_remove_any_witness :
  exists h', jsdrv_list_remove heap_example 2%nat = Ok h' /\ dll h' 1%nat [] /\ dll h' 2%nat []
    /\ jsdrv_list_length 5 h' 1%nat = Ok 0 /\ jsdrv_list_is_empty h' 2%nat = Ok true.
Proof. apply (list_remove_any heap_example 1%nat [] 2%nat [] 5%nat); [apply dll_example | cbn; lia]. Defined.

(** Appending a non-empty list moves its items, in order, behind those of the target and
    empties it.  An empty source breaks the target: its tail pointer then names the
    source header, so that the next item added at the tail is not in the list. *)
Lemma list_append_nonempty_only h t xs l y ys :
  dll h t xs -> dll h l (y :: ys) -> (forall q, q ∈ t :: xs -> q ∉ l :: y :: ys) ->
  (exists h', jsdrv_list_append h t l = Ok h' /\ dll h' t (xs ++ y :: ys) /\ dll h' l [])
  /\ (h ← jsdrv_list_append heap_example 1%nat 3%nat; jsdrv_list_peek_tail h (Some 1%nat)) = Ok (Some 3%nat)
  /\ (h ← jsdrv_list_append heap_example 1%nat 3%nat; h ← jsdrv_list_add_tail h 1%nat 4%nat;
      jsdrv_list_length 5 h 1%nat) = Ok 1.
Proof. intros Ht Hl Hdis. split; [by apply jsdrv_list_append_spec | split; vm_compute; reflexivity]. Qed.

Lemma list_append_nonempty_only_witness :
  (exists h', jsdrv_list_append heap_example 4%nat 1%nat = Ok h'
     /\ dll h' 4%nat [2%nat] /\ dll h' 1%nat [])
  /\ (h ← jsdrv_list_append heap_example 1%nat 3%nat; jsdrv_list_peek_tail h (Some 1%nat)) = Ok (Some 3%nat)
  /\ (h ← jsdrv_list_append heap_example 1%nat 3%nat; h ← jsdrv_list_add_tail h 1%nat 4%nat;
      jsdrv_list_length 5 h 1%nat) = Ok 1.
Proof.
  apply (list_append_nonempty_only heap_example 4%nat [] 1%nat 2%nat []);
    [apply dll_example | apply dll_example | set_solver].
Defined.
