(* ===== verification/SampleBuffer.v ===== *)
(** * The float sample buffers of the drivers (src/sample_buffer_f32.c)

    A ring of [SAMPLE_BUFFER_LENGTH] floats, of which at most one less is in use, with the sample
    id behind its newest sample.  The drivers keep one for current and one for voltage and multiply
    the overlap of the two into a third.  The abstraction of a buffer is the list of its samples,
    oldest first: adding appends to the list, after the samples that are missing and without the
    ones that are already there, and the oldest give way. *)

From S2P Require Import Prelude Float.

Definition SAMPLE_BUFFER_LENGTH : Z := 1024.
Definition SAMPLE_BUFFER_MASK : Z := SAMPLE_BUFFER_LENGTH - 1.

Record sbuf_f32_s := mk_sbuf {
  sb_head_sample_id : Z;     (* uint64_t *)
  sb_head : Z;               (* uint32_t *)
  sb_tail : Z;               (* uint32_t *)
  sb_sample_id_decimate : Z; (* uint8_t *)
  sb_msg_sample_id : Z;      (* uint32_t *)
  sb_buffer : list f32;
}.

Definition set_head_sample_id v s :=
  mk_sbuf v (sb_head s) (sb_tail s) (sb_sample_id_decimate s) (sb_msg_sample_id s) (sb_buffer s).
Definition set_tail v s :=
  mk_sbuf (sb_head_sample_id s) (sb_head s) v (sb_sample_id_decimate s) (sb_msg_sample_id s) (sb_buffer s).

(** All fields in front of the samples. *)
Definition sbuf_f32_clear (self : sbuf_f32_s) : sbuf_f32_s := mk_sbuf 0 0 0 2 0 (sb_buffer self).

Definition sbuf_f32_length (self : sbuf_f32_s) : Z :=
  Z.land (u32 (sb_head self - sb_tail self)) SAMPLE_BUFFER_MASK.

Definition sbuf_head_sample_id (self : sbuf_f32_s) : Z := sb_head_sample_id self.

Definition sbuf_tail_sample_id (self : sbuf_f32_s) : Z :=
  u64 (sb_head_sample_id self - u32 (sbuf_f32_length self * sb_sample_id_decimate self)).

(** [x / y] on unsigned operands. *)
Definition udiv (x y : Z) : res Z := if y =? 0 then Fault DivByZero else Ok (x / y).

(** The body that the two loops of [sbuf_f32_add] share: one sample at the head, and the tail makes
    place. *)
Definition sbuf_put (self : sbuf_f32_s) (x : f32) : res sbuf_f32_s :=
  buffer ← st (sb_buffer self) (sb_head self) x;
  let head := Z.land (u32 (sb_head self + 1)) SAMPLE_BUFFER_MASK in
  let tail := if sb_tail self =? head then Z.land (u32 (sb_tail self + 1)) SAMPLE_BUFFER_MASK
              else sb_tail self in
  Ok (mk_sbuf (sb_head_sample_id self) head tail (sb_sample_id_decimate self) (sb_msg_sample_id self) buffer).

(** [while (self->head_sample_id < sample_id)]: a NaN for each missing sample. *)
Fixpoint fill_loop (fuel : nat) (self : sbuf_f32_s) (sample_id : Z) : res sbuf_f32_s :=
  if sb_head_sample_id self <? sample_id then
    match fuel with
    | O => Fault OutOfFuel
    | S fuel =>
        self ← sbuf_put self S754_nan;
        fill_loop fuel (set_head_sample_id (u64 (sb_head_sample_id self + sb_sample_id_decimate self)) self) sample_id
    end
  else Ok self.

(** [while (length)]: [data] from position [p] on. *)
Fixpoint sbuf_copy_loop (length : nat) (self : sbuf_f32_s) (data : list f32) (p : Z) : res sbuf_f32_s :=
  match length with
  | O => Ok self
  | S length =>
      x ← ld data p;
      self ← sbuf_put self x;
      sbuf_copy_loop length self data (p + 1)
  end.

(** The gap between the newest sample and [sample_id]. *)
Definition sbuf_fill (self : sbuf_f32_s) (sample_id : Z) : res sbuf_f32_s :=
  skips ← udiv (sample_id - sb_head_sample_id self) (sb_sample_id_decimate self);
  let self :=
    if SAMPLE_BUFFER_LENGTH - 1 <=? skips then
      let skips := SAMPLE_BUFFER_LENGTH - 1 in
      set_tail (sb_head self)
        (set_head_sample_id (u64 (sample_id - u64 (skips * sb_sample_id_decimate self))) self)
    else self in
  fill_loop (Z.to_nat SAMPLE_BUFFER_LENGTH) self sample_id.

(** From [if (length >= SAMPLE_BUFFER_LENGTH)] to the end; [data] starts at [p]. *)
Definition sbuf_append (self : sbuf_f32_s) (sample_id : Z) (data : list f32) (p length : Z) : res sbuf_f32_s :=
  let dec := sb_sample_id_decimate self in
  '(self, p, length) ←
    (if SAMPLE_BUFFER_LENGTH <=? length then
       let skip := length - (SAMPLE_BUFFER_LENGTH - 1) in
       let length := SAMPLE_BUFFER_LENGTH - 1 in
       Ok (set_head_sample_id (u64 (sample_id - u32 (length * dec))) self, p + skip, length)
     else if sb_head_sample_id self <? sample_id then
       self ← sbuf_fill self sample_id; Ok (self, p, length)
     else Ok (self, p, length));
  let self := set_head_sample_id (u64 (sb_head_sample_id self + u32 (length * dec))) self in
  sbuf_copy_loop (Z.to_nat length) self data p.

Definition sbuf_f32_add (self : sbuf_f32_s) (sample_id : Z) (data : list f32) (length : Z) : res sbuf_f32_s :=
  if sample_id <? sb_head_sample_id self then
    dup ← udiv (sb_head_sample_id self - sample_id) (sb_sample_id_decimate self);
    if length <=? dup then Ok self
    else sbuf_append self (u64 (sample_id + dup * sb_sample_id_decimate self)) data dup (length - dup)
  else sbuf_append self sample_id data 0 length.

Definition sbuf_f32_advance (self : sbuf_f32_s) (sample_id : Z) : res sbuf_f32_s :=
  let self_sample_id := sbuf_tail_sample_id self in
  if self_sample_id <? sample_id then
    delta_count ← udiv (sample_id - self_sample_id) (sb_sample_id_decimate self);
    if sbuf_f32_length self <=? delta_count then
      Ok (set_head_sample_id sample_id (set_tail (sb_head self) self))
    else Ok (set_tail (Z.land (u64 (sb_tail self + delta_count)) SAMPLE_BUFFER_MASK) self)
  else Ok self.

(** [while ((s1->tail != s1->head) && (s2->tail != s2->head))] *)
Fixpoint mult_loop (fuel : nat) (r s1 s2 : sbuf_f32_s) : res (sbuf_f32_s * sbuf_f32_s * sbuf_f32_s) :=
  if negb (sb_tail s1 =? sb_head s1) && negb (sb_tail s2 =? sb_head s2) then
    match fuel with
    | O => Fault OutOfFuel
    | S fuel =>
        x1 ← ld (sb_buffer s1) (sb_tail s1);
        x2 ← ld (sb_buffer s2) (sb_tail s2);
        buffer ← st (sb_buffer r) (sb_head r) (f32_mul x1 x2);
        let r := mk_sbuf (u64 (sb_head_sample_id r + sb_sample_id_decimate r)) (u32 (sb_head r + 1)) (sb_tail r)
                   (sb_sample_id_decimate r) (sb_msg_sample_id r) buffer in
        mult_loop fuel r (set_tail (Z.land (u32 (sb_tail s1 + 1)) SAMPLE_BUFFER_MASK) s1)
                         (set_tail (Z.land (u32 (sb_tail s2 + 1)) SAMPLE_BUFFER_MASK) s2)
    end
  else Ok (r, s1, s2).

Definition sbuf_f32_mult (r s1 s2 : sbuf_f32_s) : res (sbuf_f32_s * sbuf_f32_s * sbuf_f32_s) :=
  let r_sample_id := sb_head_sample_id r in
  let s1_sample_id := sbuf_tail_sample_id s1 in
  let r_sample_id := if r_sample_id <? s1_sample_id then s1_sample_id else r_sample_id in
  let s2_sample_id := sbuf_tail_sample_id s2 in
  let r_sample_id := if r_sample_id <? s2_sample_id then s2_sample_id else r_sample_id in
  s1' ← sbuf_f32_advance s1 r_sample_id;
  s2' ← sbuf_f32_advance s2 r_sample_id;
  let r := sbuf_f32_clear r in
  let r := mk_sbuf r_sample_id (sb_head r) (sb_tail r) (sb_sample_id_decimate s1)
             (Z.land r_sample_id 0xffffffff) (sb_buffer r) in
  mult_loop (Z.to_nat SAMPLE_BUFFER_LENGTH) r s1' s2'.

(** ** The abstraction *)

Definition sbuf_at (s : sbuf_f32_s) (i : Z) : f32 :=
  match sb_buffer s !! Z.to_nat (i mod SAMPLE_BUFFER_LENGTH) with Some x => x | None => S754_nan end.

(** The samples, oldest first. *)
Definition sbuf_samples (s : sbuf_f32_s) : list f32 :=
  (fun i => sbuf_at s (sb_tail s + Z.of_nat i)) <$> seq 0 (Z.to_nat (sbuf_f32_length s)).

(** The geometry. *)
Definition sbuf_ring (s : sbuf_f32_s) : Prop :=
  len (sb_buffer s) = SAMPLE_BUFFER_LENGTH /\ 0 <= sb_head s < SAMPLE_BUFFER_LENGTH
  /\ 0 <= sb_tail s < SAMPLE_BUFFER_LENGTH /\ 0 < sb_sample_id_decimate s < 2 ^ 8.

(** The ids: the oldest sample has one. *)
Definition sbuf_wf (s : sbuf_f32_s) : Prop :=
  sbuf_ring s /\ sbuf_f32_length s * sb_sample_id_decimate s <= sb_head_sample_id s < 2 ^ 64.

Lemma land_mask z : Z.land z SAMPLE_BUFFER_MASK = z mod SAMPLE_BUFFER_LENGTH.
Proof. change SAMPLE_BUFFER_MASK with (Z.ones 10). by rewrite Z.land_ones. Qed.

Lemma mask_u32 z : Z.land (u32 z) SAMPLE_BUFFER_MASK = z mod SAMPLE_BUFFER_LENGTH.
Proof. rewrite land_mask. apply Z.mod_mod_divide. by exists (2 ^ 22). Qed.

Lemma mask_u64 z : Z.land (u64 z) SAMPLE_BUFFER_MASK = z mod SAMPLE_BUFFER_LENGTH.
Proof. rewrite land_mask. apply Z.mod_mod_divide. by exists (2 ^ 54). Qed.

Lemma sbuf_length_mod s : sbuf_f32_length s = (sb_head s - sb_tail s) mod SAMPLE_BUFFER_LENGTH.
Proof. apply mask_u32. Qed.

Lemma sbuf_length_range s : 0 <= sbuf_f32_length s < SAMPLE_BUFFER_LENGTH.
Proof. rewrite sbuf_length_mod. by apply Z.mod_pos_bound. Qed.

(** The head is [length] places behind the tail. *)
Lemma sbuf_head_tail s : sbuf_ring s ->
  sb_head s = (sb_tail s + sbuf_f32_length s) mod SAMPLE_BUFFER_LENGTH.
Proof. intros (_ & Hh & Ht & _). rewrite sbuf_length_mod. unfold SAMPLE_BUFFER_LENGTH in *. div_lia. Qed.

Lemma length_sbuf_samples s : length (sbuf_samples s) = Z.to_nat (sbuf_f32_length s).
Proof. unfold sbuf_samples. by rewrite length_fmap, length_seq. Qed.

Lemma len_sbuf_samples s : len (sbuf_samples s) = sbuf_f32_length s.
Proof. unfold len. rewrite length_sbuf_samples. pose proof (sbuf_length_range s). lia. Qed.

Lemma sbuf_samples_lookup s i : (i < Z.to_nat (sbuf_f32_length s))%nat ->
  sbuf_samples s !! i = Some (sbuf_at s (sb_tail s + Z.of_nat i)).
Proof. intros Hi. unfold sbuf_samples. by rewrite list_lookup_fmap, lookup_seq_lt. Qed.

(** A list with the right length and elements is the list of the samples. *)
Lemma sbuf_samples_eq s l : len l = sbuf_f32_length s ->
  (forall i, (i < length l)%nat -> l !! i = Some (sbuf_at s (sb_tail s + Z.of_nat i))) -> sbuf_samples s = l.
Proof.
  intros Hl Hi. apply list_eq. intros i. unfold len in Hl. destruct (decide (i < length l)%nat) as [H|H].
  - rewrite Hi by done. apply sbuf_samples_lookup. lia.
  - rewrite !lookup_ge_None_2; [done | lia | rewrite length_sbuf_samples; lia].
Qed.

Lemma sbuf_at_cong s i j : i mod SAMPLE_BUFFER_LENGTH = j mod SAMPLE_BUFFER_LENGTH -> sbuf_at s i = sbuf_at s j.
Proof. intros H. unfold sbuf_at. by rewrite H. Qed.

(** What a store at the head changes. *)
Lemma sbuf_at_put s h hd t d m x i : sbuf_ring s ->
  sbuf_at (mk_sbuf h hd t d m (<[Z.to_nat (sb_head s) := x]> (sb_buffer s))) i
  = if i mod SAMPLE_BUFFER_LENGTH =? sb_head s then x else sbuf_at s i.
Proof.
  intros (Hb & Hh & _). unfold sbuf_at; cbn [sb_buffer].
  pose proof (Z.mod_pos_bound i SAMPLE_BUFFER_LENGTH ltac:(done)) as Hi. case_if.
  - rewrite E, list_lookup_insert_eq; [done|]. unfold len, f32 in *. lia.
  - rewrite list_lookup_insert_ne; [done|]. lia.
Qed.

(** One more sample: the list grows at its end, and keeps the newest [SAMPLE_BUFFER_LENGTH - 1]. *)
Lemma sbuf_put_ok s x : sbuf_ring s -> exists s', sbuf_put s x = Ok s' /\ sbuf_ring s'
  /\ sbuf_samples s' = lastn SAMPLE_BUFFER_MASK (sbuf_samples s ++ [x])
  /\ sb_head_sample_id s' = sb_head_sample_id s /\ sb_sample_id_decimate s' = sb_sample_id_decimate s.
Proof.
  intros Hs. pose proof (sbuf_head_tail s Hs) as Eh. pose proof (sbuf_length_range s) as HL.
  pose proof Hs as (Hb & Hh & Ht & Hd). unfold sbuf_put. rewrite st_ok, bind_Ok by lia. cbv zeta. rewrite !mask_u32.
  eexists. split; [done|]. set (s' := mk_sbuf _ _ _ _ _ _).
  assert (sbuf_ring s') as Hs'.
  { unfold sbuf_ring, s'; cbn. rewrite len_insert. pose proof (fun z => Z.mod_pos_bound z SAMPLE_BUFFER_LENGTH ltac:(done)).
    destruct (sb_tail s =? _); naive_solver lia. }
  split_and!; [done | | done | done].
  assert (sb_tail s' = (sb_tail s + Z.max 0 (sbuf_f32_length s + 1 - SAMPLE_BUFFER_MASK)) mod SAMPLE_BUFFER_LENGTH
          /\ sbuf_f32_length s' = Z.min (sbuf_f32_length s + 1) SAMPLE_BUFFER_MASK) as [Et El].
  { rewrite (sbuf_length_mod s'). unfold s'; cbn [sb_tail sb_head].
    unfold SAMPLE_BUFFER_MASK, SAMPLE_BUFFER_LENGTH in *. case_if; div_lia. }
  assert (SAMPLE_BUFFER_MASK = SAMPLE_BUFFER_LENGTH - 1) as Em by done. apply sbuf_samples_eq.
  - rewrite El. unfold lastn, len. rewrite length_drop, length_app, length_sbuf_samples. cbn [length]. lia.
  - intros i. unfold lastn. rewrite length_drop, length_app, length_sbuf_samples, lookup_drop. cbn [length]. intros Hi.
    set (j := (_ + i)%nat).
    rewrite (sbuf_at_cong s' _ (sb_tail s + Z.of_nat j)).
    2: { rewrite Et, Z.add_mod_idemp_l by done. f_equal. lia. }
    unfold s'. rewrite sbuf_at_put by done.
    destruct (decide (j < Z.to_nat (sbuf_f32_length s))%nat) as [Hj|Hj].
    + rewrite lookup_app_l, sbuf_samples_lookup by (rewrite ?length_sbuf_samples; done).
      rewrite (proj2 (Z.eqb_neq _ _)); [done|]. rewrite Eh. unfold SAMPLE_BUFFER_LENGTH in *. div_lia.
    + assert (j = Z.to_nat (sbuf_f32_length s)) as -> by lia.
      rewrite lookup_app_r, length_sbuf_samples, Nat.sub_diag by (rewrite length_sbuf_samples; done).
      rewrite Z2Nat.id, <- Eh, Z.eqb_refl by lia. done.
Qed.

Lemma lastn_cons_app {A} n (l : list A) x k : lastn n (lastn n (l ++ [x]) ++ k) = lastn n (l ++ x :: k).
Proof. by rewrite lastn_app, <- app_assoc. Qed.

Lemma sbuf_samples_lastn s : lastn SAMPLE_BUFFER_MASK (sbuf_samples s) = sbuf_samples s.
Proof. apply lastn_all. rewrite len_sbuf_samples. pose proof (sbuf_length_range s). unfold SAMPLE_BUFFER_MASK. lia. Qed.

Lemma len_lastn {A} n (l : list A) : 0 <= n -> len (lastn n l) = Z.min n (len l).
Proof. intros Hn. unfold lastn, len. rewrite length_drop. lia. Qed.

Lemma lastn_replicate {A} n m (l : list A) x : (Z.to_nat n <= m)%nat ->
  lastn n (l ++ replicate m x) = replicate (Z.to_nat n) x.
Proof.
  intros H. unfold lastn. rewrite length_app, length_replicate, drop_app_ge, drop_replicate by lia. f_equal. lia.
Qed.

(** The ids do not matter for the samples. *)
Lemma sbuf_samples_set_id v s : sbuf_samples (set_head_sample_id v s) = sbuf_samples s.
Proof. done. Qed.

Lemma sbuf_samples_empty s : sbuf_samples (set_tail (sb_head s) s) = [].
Proof. apply sbuf_samples_eq; [|cbn; lia]. rewrite sbuf_length_mod. cbn. by rewrite Z.sub_diag. Qed.

Lemma sbuf_copy_loop_ok n data : forall s p, sbuf_ring s -> 0 <= p -> p + Z.of_nat n <= len data ->
  exists s', sbuf_copy_loop n s data p = Ok s' /\ sbuf_ring s'
    /\ sbuf_samples s' = lastn SAMPLE_BUFFER_MASK (sbuf_samples s ++ take n (drop (Z.to_nat p) data))
    /\ sb_head_sample_id s' = sb_head_sample_id s /\ sb_sample_id_decimate s' = sb_sample_id_decimate s.
Proof.
  induction n as [|n IH]; intros s p Hs Hp Hn; cbn [sbuf_copy_loop take].
  { exists s. rewrite app_nil_r, sbuf_samples_lastn. done. }
  destruct (ld_in_range data p) as (x & -> & Hx); [lia|]. rewrite bind_Ok.
  destruct (sbuf_put_ok s x Hs) as (s1 & -> & Hs1 & E1 & Eh1 & Ed1). rewrite bind_Ok.
  destruct (IH s1 (p + 1) Hs1) as (s2 & E & Hs2 & E2 & Eh2 & Ed2); [lia | lia |].
  exists s2. split; [done|]. rewrite E2, E1, Eh2, Ed2. split_and!; try done.
  rewrite lastn_cons_app. rewrite (drop_S data x _ Hx), firstn_cons.
  by replace (Z.to_nat (p + 1)) with (S (Z.to_nat p)) by lia.
Qed.

(** [k] passes fill the gap. *)
Lemma fill_loop_ok k sid : forall fuel s, sbuf_ring s -> (k <= fuel)%nat ->
  sid <= sb_head_sample_id s + Z.of_nat k * sb_sample_id_decimate s < 2 ^ 64 ->
  0 <= sb_head_sample_id s ->
  (k = 0%nat \/ sb_head_sample_id s + (Z.of_nat k - 1) * sb_sample_id_decimate s < sid) ->
  exists s', fill_loop fuel s sid = Ok s' /\ sbuf_ring s'
    /\ sbuf_samples s' = lastn SAMPLE_BUFFER_MASK (sbuf_samples s ++ replicate k S754_nan)
    /\ sb_head_sample_id s' = sb_head_sample_id s + Z.of_nat k * sb_sample_id_decimate s
    /\ sb_sample_id_decimate s' = sb_sample_id_decimate s.
Proof.
  induction k as [|k IH]; intros fuel s Hs Hf Hk H0 Hlt; pose proof Hs as (_ & _ & _ & Hd).
  { exists s. rewrite app_nil_r, sbuf_samples_lastn. destruct fuel; cbn [fill_loop]; simpl_cmp; split_and!; done || lia. }
  destruct Hlt as [|Hlt]; [done|]. destruct fuel as [|fuel]; [lia|]. cbn [fill_loop].
  rewrite (proj2 (Z.ltb_lt _ _)) by nia.
  destruct (sbuf_put_ok s S754_nan Hs) as (s1 & -> & Hs1 & E1 & Eh1 & Ed1). rewrite bind_Ok.
  rewrite Eh1, Ed1, uwrap_small by (unfold is_u; nia).
  set (s2 := set_head_sample_id _ s1).
  destruct (IH fuel s2) as (s' & E & Hs' & E' & Eh' & Ed'); subst s2; cbn [set_head_sample_id sb_head_sample_id sb_sample_id_decimate] in *;
    rewrite ?Ed1 in *; [done | lia | nia | lia | |].
  { destruct k; [by left | right; nia]. }
  exists s'. rewrite Eh', Ed', E', sbuf_samples_set_id, E1, lastn_cons_app. split_and!; done || lia.
Qed.

(** Samples fit behind the ids. *)
Lemma sbuf_wf_intro s l m : sbuf_ring s -> sbuf_samples s = lastn SAMPLE_BUFFER_MASK l ->
  len l <= m -> m * sb_sample_id_decimate s <= sb_head_sample_id s < 2 ^ 64 -> sbuf_wf s.
Proof.
  intros Hs El Hl Hm. split; [done|]. rewrite <- len_sbuf_samples, El.
  pose proof (len_lastn_le SAMPLE_BUFFER_MASK l). destruct Hs as (_ & _ & _ & Hd). nia.
Qed.

(** The number of missing samples. *)
Definition sbuf_missing (s : sbuf_f32_s) (sample_id : Z) : Z :=
  (Z.max 0 (sample_id - sb_head_sample_id s) + sb_sample_id_decimate s - 1) / sb_sample_id_decimate s.

(** A gap longer than the buffer leaves it full of NaN. *)
Lemma sbuf_fill_long s sid : sbuf_ring s -> 1023 * sb_sample_id_decimate s <= sid < 2 ^ 64 ->
  exists s', fill_loop (Z.to_nat SAMPLE_BUFFER_LENGTH)
      (set_tail (sb_head s) (set_head_sample_id (sid - 1023 * sb_sample_id_decimate s) s)) sid = Ok s'
    /\ sbuf_wf s' /\ sbuf_samples s' = replicate 1023 S754_nan
    /\ sb_head_sample_id s' = sid /\ sb_sample_id_decimate s' = sb_sample_id_decimate s.
Proof.
  intros Hs Hsid. pose proof Hs as (_ & _ & _ & Hd). set (s0 := set_head_sample_id _ s).
  change (sb_head s) with (sb_head s0).
  destruct (fill_loop_ok 1023 sid (Z.to_nat SAMPLE_BUFFER_LENGTH) (set_tail (sb_head s0) s0)) as (s' & E1 & Hs' & E2 & E3 & E4).
  { destruct Hs as (? & ? & ? & ?). done. }
  { unfold SAMPLE_BUFFER_LENGTH. lia. }
  1-3: cbn; lia.
  rewrite sbuf_samples_empty in E2. cbn [s0 set_tail set_head_sample_id sb_head_sample_id sb_sample_id_decimate] in E3, E4.
  exists s'. split_and!; [done | | | lia | done].
  - eapply (sbuf_wf_intro s' _ 1023); [done | apply E2 | | lia]. unfold len. by rewrite app_nil_l, length_replicate.
  - by rewrite E2, lastn_replicate.
Qed.

(** The gap is filled with one NaN for each missing sample, and the ids meet. *)
Lemma sbuf_fill_ok s sid : sbuf_wf s -> sb_head_sample_id s < sid -> sid + sb_sample_id_decimate s <= 2 ^ 64 ->
  exists s', sbuf_fill s sid = Ok s' /\ sbuf_wf s'
    /\ sbuf_samples s' = lastn SAMPLE_BUFFER_MASK (sbuf_samples s ++ replicate (Z.to_nat (sbuf_missing s sid)) S754_nan)
    /\ sid <= sb_head_sample_id s' < sid + sb_sample_id_decimate s
    /\ ((sb_sample_id_decimate s | sid - sb_head_sample_id s) -> sb_head_sample_id s' = sid)
    /\ sb_sample_id_decimate s' = sb_sample_id_decimate s.
Proof.
  intros [Hs Hid] Hlt Hsid. pose proof Hs as (_ & _ & _ & Hd). pose proof (sbuf_length_range s) as HL.
  unfold sbuf_fill, udiv, sbuf_missing. rewrite Z.max_r by lia.
  pose proof (sbuf_fill_long s sid Hs) as Hlong. set (dec := sb_sample_id_decimate s) in *.
  set (h := sb_head_sample_id s) in *. assert (0 <= h) by nia. rewrite (proj2 (Z.eqb_neq dec 0)), bind_Ok by lia. cbv zeta.
  assert ((sid - h + dec - 1) / dec = (sid - h - 1) / dec + 1) as ->.
  { replace (sid - h + dec - 1) with (sid - h - 1 + 1 * dec) by lia. by rewrite Z.div_add by lia. }
  pose proof (Z.div_mod (sid - h - 1) dec ltac:(lia)) as Em. pose proof (Z.mod_pos_bound (sid - h - 1) dec ltac:(lia)) as Bm.
  pose proof (Z.div_le_lower_bound (sid - h - 1) dec 1022 ltac:(lia)) as Bq.
  set (q := (sid - h - 1) / dec) in *. assert (0 <= q) by (apply Z.div_pos; lia).
  change (SAMPLE_BUFFER_LENGTH - 1) with 1023. case_if.
  - assert (1023 * dec <= sid - h) by (pose proof (Z.mul_div_le (sid - h) dec ltac:(lia)); nia).
    rewrite (uwrap_small 64 (_ * _)), uwrap_small by (unfold is_u; lia).
    destruct Hlong as (s' & E1 & Hs' & E2 & E3 & E4); [lia|].
    exists s'. rewrite E2, lastn_replicate by (unfold SAMPLE_BUFFER_MASK, SAMPLE_BUFFER_LENGTH; lia). split_and!; done || lia.
  - assert (sid - h < 1023 * dec) by (pose proof (Z.mul_succ_div_gt (sid - h) dec ltac:(lia)); nia).
    assert (q < 1023) by (apply Z.div_lt_upper_bound; lia).
    destruct (fill_loop_ok (Z.to_nat (q + 1)) sid (Z.to_nat SAMPLE_BUFFER_LENGTH) s) as (s' & E1 & Hs' & E2 & E3 & E4).
    { done. } { unfold SAMPLE_BUFFER_LENGTH. lia. } 1-3: fold dec h; rewrite ?Z2Nat.id by lia; try right; lia.
    rewrite Z2Nat.id in E3 by lia. fold dec h in E3, E4. exists s'. split_and!; try done; try lia.
    + eapply (sbuf_wf_intro s' _ (sbuf_f32_length s + q + 1)); [done | apply E2 | | rewrite E4; lia].
      rewrite len_app, len_sbuf_samples. unfold len. rewrite length_replicate. lia.
    + intros [c Hc]. assert (c - q = 1) by nia. replace q with (c - 1) in E3 by lia. lia.
Qed.

(** The number of samples that the buffer already has. *)
Definition sbuf_dup (s : sbuf_f32_s) (sample_id : Z) : Z :=
  Z.max 0 (sb_head_sample_id s - sample_id) / sb_sample_id_decimate s.

(** The copy, once the gap is closed. *)
Lemma sbuf_copy_ok s data p n : sbuf_wf s -> 0 <= p -> 0 <= n < SAMPLE_BUFFER_LENGTH -> p + n <= len data ->
  sb_head_sample_id s + n * sb_sample_id_decimate s < 2 ^ 64 ->
  exists s', sbuf_copy_loop (Z.to_nat n)
      (set_head_sample_id (u64 (sb_head_sample_id s + u32 (n * sb_sample_id_decimate s))) s) data p = Ok s'
    /\ sbuf_wf s' /\ sbuf_samples s' = lastn SAMPLE_BUFFER_MASK (sbuf_samples s ++ take (Z.to_nat n) (drop (Z.to_nat p) data))
    /\ sb_head_sample_id s' = sb_head_sample_id s + n * sb_sample_id_decimate s
    /\ sb_sample_id_decimate s' = sb_sample_id_decimate s.
Proof.
  intros [Hs Hid] Hp Hn Hlen Hmax. pose proof Hs as (_ & _ & _ & Hd). pose proof (sbuf_length_range s) as HL.
  unfold SAMPLE_BUFFER_LENGTH in Hn. assert (0 <= n * sb_sample_id_decimate s < 2 ^ 32) by nia.
  rewrite (uwrap_small 32), uwrap_small by (unfold is_u; nia). set (s0 := set_head_sample_id _ s).
  destruct (sbuf_copy_loop_ok (Z.to_nat n) data s0 p) as (s' & E & Hs' & E1 & E2 & E3); [done | done | lia |].
  cbn [s0 set_head_sample_id sb_head_sample_id sb_sample_id_decimate] in E2, E3. exists s'. split_and!; try done.
  eapply (sbuf_wf_intro s' _ (sbuf_f32_length s + n)); [done | apply E1 | | rewrite E2, E3; lia].
  unfold s0. rewrite len_app, sbuf_samples_set_id, len_sbuf_samples. unfold len.
  rewrite length_take. lia.
Qed.

(** From an id at or behind the newest sample on. *)
Lemma sbuf_append_ok s sid data p n : sbuf_wf s -> sbuf_dup s sid = 0 -> 0 <= p -> 0 <= n < SAMPLE_BUFFER_LENGTH ->
  p + n <= len data -> 0 <= sid -> Z.max (sb_head_sample_id s) sid + (n + 1) * sb_sample_id_decimate s <= 2 ^ 64 ->
  exists s', sbuf_append s sid data p n = Ok s' /\ sbuf_wf s'
    /\ sbuf_samples s' = lastn SAMPLE_BUFFER_MASK (sbuf_samples s
         ++ replicate (Z.to_nat (sbuf_missing s sid)) S754_nan ++ take (Z.to_nat n) (drop (Z.to_nat p) data))
    /\ ((sb_sample_id_decimate s | sid - sb_head_sample_id s) -> sb_head_sample_id s' = sid + n * sb_sample_id_decimate s)
    /\ sb_sample_id_decimate s' = sb_sample_id_decimate s.
Proof.
  intros Hs Hdup Hp Hn Hlen H0 Hmax. pose proof Hs as [(_ & _ & _ & Hd) Hid]. unfold sbuf_append.
  rewrite (proj2 (Z.leb_gt _ _)) by lia. case_if.
  - destruct (sbuf_fill_ok s sid) as (s1 & -> & Hs1 & E1 & B1 & A1 & D1); [done | done | nia |]. rewrite !bind_Ok. cbv zeta.
    rewrite <- D1. destruct (sbuf_copy_ok s1 data p n) as (s' & -> & Hs' & E2 & E3 & E4); try done; [rewrite D1; nia|].
    exists s'. rewrite E2, E1, E3, E4, lastn_app, <- app_assoc, D1. split_and!; try done.
    intros Ha. by rewrite A1.
  - rewrite bind_Ok. destruct (sbuf_copy_ok s data p n) as (s' & -> & Hs' & E2 & E3 & E4); try done; [lia|].
    exists s'. rewrite E2, E3, E4. unfold sbuf_missing. rewrite Z.max_l, Z.div_small by lia.
    split_and!; try done. intros [c Hc]. unfold sbuf_dup in Hdup. rewrite Z.max_r in Hdup by lia.
    replace (sb_head_sample_id s - sid) with (- c * sb_sample_id_decimate s) in Hdup by lia.
    rewrite Z.div_mul in Hdup by lia. nia.
Qed.

(** What [sbuf_f32_add] means for the list of the samples. *)
Definition sbuf_added (s : sbuf_f32_s) (sample_id : Z) (data : list f32) : list f32 :=
  lastn SAMPLE_BUFFER_MASK
    (sbuf_samples s ++ replicate (Z.to_nat (sbuf_missing s sample_id)) S754_nan
     ++ drop (Z.to_nat (sbuf_dup s sample_id)) data).

Lemma sbuf_missing_none s sid : 0 < sb_sample_id_decimate s -> sid <= sb_head_sample_id s -> sbuf_missing s sid = 0.
Proof. intros Hd H. unfold sbuf_missing. rewrite Z.max_l by lia. apply Z.div_small. lia. Qed.

(** C7. A message of fewer than [SAMPLE_BUFFER_LENGTH] samples appends to a well-formed buffer: one NaN for
    each sample missing since the newest one, then the samples of the message that the buffer
    does not have yet, and the oldest give way beyond [SAMPLE_BUFFER_LENGTH - 1]; for a message on the grid of
    the buffer, the head id is afterwards the id behind the message, or the old one where
    the message brings nothing new.  The buffer stays well formed and nothing is accessed out of bounds. *)
Theorem sbuf_add_refines s sid data :
  sbuf_wf s -> len data < SAMPLE_BUFFER_LENGTH -> 0 <= sid ->
  Z.max (sb_head_sample_id s) sid + (len data + 1) * sb_sample_id_decimate s <= 2 ^ 64 ->
  exists s', sbuf_f32_add s sid data (len data) = Ok s' /\ sbuf_wf s'
    /\ sbuf_samples s' = sbuf_added s sid data
    /\ sb_sample_id_decimate s' = sb_sample_id_decimate s
    /\ ((sb_sample_id_decimate s | sid - sb_head_sample_id s) ->
        sb_head_sample_id s' = Z.max (sb_head_sample_id s) (sid + len data * sb_sample_id_decimate s)).
Proof.
  intros Hs Hn H0 Hmax. pose proof Hs as [(_ & _ & _ & Hd) Hid]. pose proof (len_nonneg data).
  unfold sbuf_f32_add, sbuf_added. case_if.
  - unfold udiv. rewrite (proj2 (Z.eqb_neq _ 0)), bind_Ok by lia.
    rewrite sbuf_missing_none by lia. unfold sbuf_dup. rewrite Z.max_r by lia.
    set (dec := sb_sample_id_decimate s) in *. set (h := sb_head_sample_id s) in *.
    pose proof (Z.div_mod (h - sid) dec ltac:(lia)) as Em. pose proof (Z.mod_pos_bound (h - sid) dec ltac:(lia)) as Bm.
    set (dup := (h - sid) / dec) in *. assert (0 <= dup) by (apply Z.div_pos; lia). assert (0 <= dup * dec) by nia.
    case_if.
    + exists s. rewrite drop_ge, app_nil_l, app_nil_r, sbuf_samples_lastn by (unfold len in *; lia).
      split_and!; try done. intros _. fold h. nia.
    + rewrite uwrap_small by (unfold is_u; nia).
      destruct (sbuf_append_ok s (sid + dup * dec) data dup (len data - dup)) as (s' & E1 & Hs' & E2 & E3 & E4);
        try done; try lia.
      { unfold sbuf_dup. fold dec h. apply Z.div_small. lia. }
      fold dec h in E3, E4. exists s'. split_and!; try done.
      * rewrite E2, sbuf_missing_none by (fold dec h; lia). cbn [Z.to_nat replicate]. rewrite !app_nil_l.
        rewrite take_ge by (rewrite length_drop; unfold len in *; lia). done.
      * intros [c Hc]. rewrite E3 by (exists (c + dup); lia).
        assert (0 < (len data - dup) * dec) by nia. assert (c = - dup) by nia. lia.
  - assert (sbuf_dup s sid = 0) as Hz by (unfold sbuf_dup; rewrite Z.max_l by lia; apply Z.div_0_l; lia).
    destruct (sbuf_append_ok s sid data 0 (len data)) as (s' & E1 & Hs' & E2 & E3 & E4); try done; try lia.
    exists s'. rewrite E2, Hz, drop_0, take_ge by (unfold len in *; lia). split_and!; try done.
    intros Ha. rewrite E3 by done. assert (0 <= len data * sb_sample_id_decimate s) by nia. lia.
Qed.

(** ** Taking samples out *)

Lemma sbuf_tail_id s : sbuf_wf s ->
  sbuf_tail_sample_id s = sb_head_sample_id s - sbuf_f32_length s * sb_sample_id_decimate s.
Proof.
  intros [(_ & _ & _ & Hd) Hid]. pose proof (sbuf_length_range s) as HL. unfold SAMPLE_BUFFER_LENGTH in HL.
  unfold sbuf_tail_sample_id. rewrite (uwrap_small 32), uwrap_small; unfold is_u; nia.
Qed.

(** Moving the tail drops the oldest samples. *)
Lemma sbuf_drop_ok s k : sbuf_ring s -> 0 <= k <= sbuf_f32_length s ->
  let s' := set_tail ((sb_tail s + k) mod SAMPLE_BUFFER_LENGTH) s in
  sbuf_ring s' /\ sbuf_samples s' = drop (Z.to_nat k) (sbuf_samples s) /\ sbuf_f32_length s' = sbuf_f32_length s - k.
Proof.
  intros Hs Hk s'. pose proof (sbuf_head_tail s Hs) as Eh. pose proof (sbuf_length_range s) as HL.
  pose proof Hs as (Hb & Hh & Ht & Hd). pose proof (Z.mod_pos_bound (sb_tail s + k) SAMPLE_BUFFER_LENGTH ltac:(done)).
  assert (sbuf_f32_length s' = sbuf_f32_length s - k) as El.
  { rewrite (sbuf_length_mod s'). cbn. rewrite Eh. unfold SAMPLE_BUFFER_LENGTH in *. div_lia. }
  split_and!; [done | | done]. apply sbuf_samples_eq.
  - rewrite El. unfold len. rewrite length_drop, length_sbuf_samples. lia.
  - intros i. rewrite length_drop, length_sbuf_samples, lookup_drop. intros Hi. rewrite sbuf_samples_lookup by lia. f_equal.
    change (sbuf_at s (sb_tail s + Z.of_nat (Z.to_nat k + i)) = sbuf_at s (sb_tail s' + Z.of_nat i)).
    apply sbuf_at_cong. cbn. rewrite Z.add_mod_idemp_l by done. f_equal. lia.
Qed.

(** How many samples are older than an id. *)
Definition sbuf_older (s : sbuf_f32_s) (sample_id : Z) : Z :=
  Z.max 0 (sample_id - sbuf_tail_sample_id s) / sb_sample_id_decimate s.

(** [sbuf_f32_advance] drops the samples before the id, and an empty buffer goes on from it. *)
Lemma sbuf_advance_ok s sid : sbuf_wf s -> 0 <= sid < 2 ^ 64 ->
  exists s', sbuf_f32_advance s sid = Ok s' /\ sbuf_wf s'
    /\ sbuf_samples s' = drop (Z.to_nat (sbuf_older s sid)) (sbuf_samples s)
    /\ sb_head_sample_id s' = Z.max (sb_head_sample_id s) sid
    /\ sb_sample_id_decimate s' = sb_sample_id_decimate s.
Proof.
  intros Hs Hsid. pose proof Hs as [Hr Hid]. pose proof Hr as (_ & _ & _ & Hd). pose proof (sbuf_length_range s) as HL.
  unfold sbuf_f32_advance, sbuf_older, udiv. rewrite (sbuf_tail_id s Hs).
  set (dec := sb_sample_id_decimate s) in *. set (h := sb_head_sample_id s) in *. set (L := sbuf_f32_length s) in *.
  assert (0 <= L * dec) by nia. case_if.
  - rewrite (proj2 (Z.eqb_neq dec 0)), bind_Ok, Z.max_r by lia. cbv zeta.
    pose proof (Z.div_mod (sid - (h - L * dec)) dec ltac:(lia)) as Em.
    pose proof (Z.mod_pos_bound (sid - (h - L * dec)) dec ltac:(lia)) as Bm.
    set (k := (sid - (h - L * dec)) / dec) in *. assert (0 <= k) by (apply Z.div_pos; lia). case_if.
    + assert (h <= sid) by nia. eexists. split; [done|].
      rewrite sbuf_samples_set_id, sbuf_samples_empty, drop_ge by (rewrite length_sbuf_samples; fold L; lia).
      split_and!; try done; [|cbn; lia]. split; [destruct Hr as (? & ? & ? & ?); done|].
      rewrite sbuf_length_mod. cbn. rewrite Z.sub_diag, Z.mod_0_l by done. lia.
    + assert (sid < h) by nia. rewrite mask_u64. destruct (sbuf_drop_ok s k Hr) as (Hr1 & Hr2 & Hr3); [fold L; lia|].
      eexists. split; [done|]. split_and!; [|done|cbn; fold h; lia|done].
      split; [done|]. rewrite Hr3. cbn. fold dec h L. nia.
  - exists s. rewrite Z.max_l, Z.div_0_l by lia. split_and!; try done. fold h. lia.
Qed.

(** ** The product *)

(** The next sample of a source. *)
Lemma sbuf_next_ok s x l : sbuf_ring s -> sbuf_samples s = x :: l ->
  let s' := set_tail (Z.land (u32 (sb_tail s + 1)) SAMPLE_BUFFER_MASK) s in
  sb_tail s <> sb_head s /\ ld (sb_buffer s) (sb_tail s) = Ok x /\ sbuf_ring s' /\ sbuf_samples s' = l
  /\ sbuf_f32_length s' = sbuf_f32_length s - 1.
Proof.
  intros Hs El s'. pose proof (len_sbuf_samples s) as EL. rewrite El, len_cons in EL. pose proof (len_nonneg l).
  pose proof Hs as (Hb & Hh & Ht & Hd). unfold s'. rewrite mask_u32.
  destruct (sbuf_drop_ok s 1 Hs) as (Hr1 & Hr2 & Hr3); [lia|]. split_and!; try done.
  - intros E. rewrite sbuf_length_mod, E, Z.sub_diag, Z.mod_0_l in EL by done. lia.
  - assert (sbuf_samples s !! 0%nat = Some x) as Ex by (by rewrite El).
    rewrite sbuf_samples_lookup in Ex by lia. injection Ex as Ex. unfold sbuf_at in Ex.
    cbn [Z.of_nat] in Ex. rewrite Z.add_0_r, Z.mod_small in Ex by lia.
    destruct (ld_in_range (sb_buffer s) (sb_tail s)) as (y & Hy & Hy'); [lia|]. rewrite Hy. rewrite Hy' in Ex. by f_equal.
  - by rewrite Hr2, El.
Qed.

Lemma sbuf_empty_iff s : sbuf_ring s -> sb_tail s = sb_head s <-> sbuf_samples s = [].
Proof.
  intros (Hb & Hh & Ht & Hd). rewrite <- length_zero_iff_nil, length_sbuf_samples, sbuf_length_mod.
  unfold SAMPLE_BUFFER_LENGTH in *. split; intros; [|revert H]; div_lia.
Qed.

(** A result buffer that was filled from its start. *)
Definition sbuf_flat (r : sbuf_f32_s) : Prop := sbuf_ring r /\ sb_tail r = 0.

Lemma sbuf_flat_put r x id : sbuf_flat r -> sb_head r < SAMPLE_BUFFER_MASK ->
  exists b, st (sb_buffer r) (sb_head r) x = Ok b /\
  let r' := mk_sbuf id (u32 (sb_head r + 1)) (sb_tail r) (sb_sample_id_decimate r) (sb_msg_sample_id r) b in
  sbuf_flat r' /\ sb_head r' = sb_head r + 1 /\ sbuf_samples r' = sbuf_samples r ++ [x].
Proof.
  intros [Hr Ht] Hh. pose proof Hr as (Hb & Hh0 & _ & Hd).
  destruct (sbuf_put_ok r x Hr) as (r' & E & Hr' & E1 & _). revert E. unfold sbuf_put.
  rewrite st_ok, bind_Ok, mask_u32 by lia. cbv zeta.
  assert (SAMPLE_BUFFER_MASK = SAMPLE_BUFFER_LENGTH - 1) as Em by done.
  rewrite Z.mod_small, Ht, (proj2 (Z.eqb_neq _ _)) by lia. intros [= <-].
  eexists. split; [done|]. rewrite uwrap_small by (unfold is_u, SAMPLE_BUFFER_LENGTH in *; lia).
  split_and!; [done | done |].
  transitivity (lastn SAMPLE_BUFFER_MASK (sbuf_samples r ++ [x])); [exact E1|]. apply lastn_all.
  rewrite len_app, len_sbuf_samples, sbuf_length_mod, Ht, Z.sub_0_r, Z.mod_small by lia. change (len [x]) with 1. lia.
Qed.

Lemma mult_loop_ok : forall fuel r s1 s2, sbuf_flat r -> sbuf_ring s1 -> sbuf_ring s2 ->
  (length (sbuf_samples s1) <= fuel)%nat -> sb_head r + len (sbuf_samples s1) < SAMPLE_BUFFER_LENGTH ->
  let l := zip_with f32_mul (sbuf_samples s1) (sbuf_samples s2) in
  0 <= sb_head_sample_id r -> sb_head_sample_id r + len l * sb_sample_id_decimate r < 2 ^ 64 ->
  exists r' s1' s2', mult_loop fuel r s1 s2 = Ok (r', s1', s2') /\ sbuf_flat r'
    /\ sbuf_ring s1' /\ sbuf_ring s2'
    /\ sbuf_samples r' = sbuf_samples r ++ l
    /\ sbuf_samples s1' = drop (length l) (sbuf_samples s1) /\ sbuf_samples s2' = drop (length l) (sbuf_samples s2)
    /\ sb_head_sample_id r' = sb_head_sample_id r + len l * sb_sample_id_decimate r
    /\ sb_sample_id_decimate r' = sb_sample_id_decimate r /\ sb_msg_sample_id r' = sb_msg_sample_id r
    /\ s1' = set_tail (sb_tail s1') s1 /\ s2' = set_tail (sb_tail s2') s2.
Proof.
  induction fuel as [|fuel IH]; intros r s1 s2 Hr H1 H2 Hf Hh l H0 Hid.
  all: destruct (sbuf_samples s1) as [|x1 l1] eqn:E1; [|destruct (sbuf_samples s2) as [|x2 l2] eqn:E2].
  1, 4: exists r, s1, s2; cbn [mult_loop]; rewrite (proj2 (Z.eqb_eq _ _)) by (by apply sbuf_empty_iff);
    subst l; cbn [negb andb zip_with]; rewrite app_nil_r, E1; split_and!; try done; [rewrite @len_nil; lia | by destruct s1 | by destruct s2].
  1, 3: exists r, s1, s2; cbn [mult_loop]; rewrite (proj2 (Z.eqb_eq (sb_tail s2) _)) by (by apply sbuf_empty_iff);
    subst l; cbn [negb zip_with]; rewrite andb_false_r, app_nil_r, E1, E2; split_and!; try done; [rewrite @len_nil; lia | by destruct s1 | by destruct s2].
  { cbn in Hf. lia. }
  destruct (sbuf_next_ok s1 x1 l1 H1 E1) as (N1 & L1 & R1 & S1 & _). destruct (sbuf_next_ok s2 x2 l2 H2 E2) as (N2 & L2 & R2 & S2 & _).
  rewrite len_cons in Hh. pose proof (len_nonneg l1). cbn [length] in Hf. pose proof Hr as [(_ & _ & _ & Hd) _].
  subst l. cbn [zip_with] in Hid |- *. rewrite len_cons in Hid |- *. set (l := zip_with f32_mul l1 l2) in *. pose proof (len_nonneg l).
  cbn [mult_loop]. rewrite !(proj2 (Z.eqb_neq _ _)) by done. cbn [negb andb]. rewrite L1, L2, !bind_Ok.
  destruct (sbuf_flat_put r (f32_mul x1 x2) (sb_head_sample_id r + sb_sample_id_decimate r) Hr) as (b & -> & F1 & F2 & F3).
  { unfold SAMPLE_BUFFER_MASK. lia. }
  rewrite bind_Ok. cbv zeta. rewrite (uwrap_small 64) by (unfold is_u; nia).
  set (r1 := mk_sbuf _ _ _ _ _ b) in *. set (s1a := set_tail _ s1) in *. set (s2a := set_tail _ s2) in *.
  assert (zip_with f32_mul (sbuf_samples s1a) (sbuf_samples s2a) = l) as El by (by rewrite S1, S2).
  destruct (IH r1 s1a s2a) as (r' & s1' & s2' & E & G1 & G2 & G3 & G4 & G5 & G6 & G7 & G8 & G9 & G10 & G11); try done.
  1-4: rewrite ?El, ?S1; lia || (unfold r1; cbn [sb_head_sample_id sb_sample_id_decimate]; lia).
  rewrite El in G4, G5, G6, G7. rewrite S1 in G5. rewrite S2 in G6.
  exists r', s1', s2'. rewrite G4, F3, G7, G8, G9, <- app_assoc. cbn [length drop].
  split_and!; try done. unfold r1; cbn [sb_head_sample_id sb_sample_id_decimate]; lia.
Qed.

(** The sample with an id. *)
Definition sbuf_value (s : sbuf_f32_s) (id : Z) : option f32 :=
  let d := id - sbuf_tail_sample_id s in
  if (0 <=? d) && (d mod sb_sample_id_decimate s =? 0)
  then sbuf_samples s !! Z.to_nat (d / sb_sample_id_decimate s) else None.

(** The id at which a product starts. *)
Definition mult_start (r s1 s2 : sbuf_f32_s) : Z :=
  Z.max (sb_head_sample_id r) (Z.max (sbuf_tail_sample_id s1) (sbuf_tail_sample_id s2)).

Lemma sbuf_tail_range s : sbuf_wf s -> 0 <= sbuf_tail_sample_id s <= sb_head_sample_id s.
Proof.
  intros Hs. rewrite sbuf_tail_id by done. destruct Hs as [(_ & _ & _ & Hd) Hid].
  pose proof (sbuf_length_range s). nia.
Qed.

(** Taking samples out keeps the rest well formed. *)
Lemma sbuf_wf_shorter s s' n : sbuf_wf s -> sbuf_ring s' -> s' = set_tail (sb_tail s') s ->
  sbuf_samples s' = drop n (sbuf_samples s) -> sbuf_wf s'.
Proof.
  intros [(_ & _ & _ & Hd) Hid] Hs' E El. split; [done|]. assert (sbuf_f32_length s' <= sbuf_f32_length s).
  { rewrite <- !len_sbuf_samples, El. unfold len. rewrite length_drop. lia. }
  assert (sb_head_sample_id s' = sb_head_sample_id s /\ sb_sample_id_decimate s' = sb_sample_id_decimate s) as [-> ->].
  { by rewrite E. }
  nia.
Qed.

(** The product in terms of the samples that the sources hold. *)
Lemma sbuf_mult_ok r s1 s2 :
  sbuf_wf s1 -> sbuf_wf s2 -> len (sb_buffer r) = SAMPLE_BUFFER_LENGTH -> 0 <= sb_head_sample_id r ->
  mult_start r s1 s2 + SAMPLE_BUFFER_LENGTH * sb_sample_id_decimate s1 <= 2 ^ 64 ->
  let l1 := drop (Z.to_nat (sbuf_older s1 (mult_start r s1 s2))) (sbuf_samples s1) in
  let l2 := drop (Z.to_nat (sbuf_older s2 (mult_start r s1 s2))) (sbuf_samples s2) in
  let l := zip_with f32_mul l1 l2 in
  exists r' s1' s2', sbuf_f32_mult r s1 s2 = Ok (r', s1', s2') /\ sbuf_wf r' /\ sbuf_wf s1' /\ sbuf_wf s2'
    /\ sbuf_samples r' = l /\ sbuf_samples s1' = drop (length l) l1 /\ sbuf_samples s2' = drop (length l) l2
    /\ sb_tail r' = 0 /\ sb_head_sample_id r' = mult_start r s1 s2 + len l * sb_sample_id_decimate s1
    /\ sb_sample_id_decimate r' = sb_sample_id_decimate s1
    /\ sb_msg_sample_id r' = mult_start r s1 s2 mod 2 ^ 32
    /\ (sb_head_sample_id s1' = Z.max (sb_head_sample_id s1) (mult_start r s1 s2) /\ sb_sample_id_decimate s1' = sb_sample_id_decimate s1)
    /\ (sb_head_sample_id s2' = Z.max (sb_head_sample_id s2) (mult_start r s1 s2) /\ sb_sample_id_decimate s2' = sb_sample_id_decimate s2).
Proof.
  intros H1 H2 Hb H0 Hmax l1 l2 l. pose proof (sbuf_tail_range s1 H1). pose proof (sbuf_tail_range s2 H2).
  unfold sbuf_f32_mult. cbv zeta. set (id := mult_start r s1 s2) in *.
  assert ((if (if sb_head_sample_id r <? sbuf_tail_sample_id s1 then sbuf_tail_sample_id s1 else sb_head_sample_id r) <?
     sbuf_tail_sample_id s2 then sbuf_tail_sample_id s2
     else if sb_head_sample_id r <? sbuf_tail_sample_id s1 then sbuf_tail_sample_id s1 else sb_head_sample_id r) = id) as ->.
  { unfold id, mult_start. destruct (sb_head_sample_id r <? _) eqn:E1; bool_facts; case_if; lia. }
  pose proof H1 as [(_ & _ & _ & Hd1) _]. assert (0 <= id < 2 ^ 64) as Hid by (unfold id, mult_start, SAMPLE_BUFFER_LENGTH in *; lia).
  destruct (sbuf_advance_ok s1 id H1 Hid) as (t1 & -> & A1 & A2 & A3 & A4). rewrite bind_Ok.
  destruct (sbuf_advance_ok s2 id H2 Hid) as (t2 & -> & B1 & B2 & B3 & B4). rewrite bind_Ok. fold l1 in A2. fold l2 in B2.
  pose proof (len_sbuf_samples t1) as L1. pose proof (sbuf_length_range t1) as L2. rewrite A2 in L1.
  cbn [sbuf_f32_clear sb_head sb_tail sb_buffer]. set (r0 := mk_sbuf _ _ _ _ _ _).
  assert (sbuf_flat r0) as Hr0 by (unfold sbuf_flat, sbuf_ring; cbn [r0 sb_buffer sb_head sb_tail sb_sample_id_decimate]; split_and!; try done; lia).
  assert (len l <= len l1 /\ len l < SAMPLE_BUFFER_LENGTH) as [Hl Hl'].
  { unfold l. assert (len (zip_with f32_mul l1 l2) <= len l1) by (unfold len; rewrite length_zip_with; lia). lia. }
  pose proof (len_nonneg l).
  destruct (mult_loop_ok (Z.to_nat SAMPLE_BUFFER_LENGTH) r0 t1 t2) as (r' & t1' & t2' & E & G1 & G2 & G3 & G4 & G5 & G6 & G7 & G8 & G9 & G10 & G11);
    rewrite ?A2, ?B2; fold l; try done; [apply A1 | apply B1 | unfold len in *; lia | cbn; lia | cbn; lia | cbn; nia |].
  rewrite A2, B2 in G4, G5, G6, G7. fold l in G4, G5, G6, G7.
  assert (sbuf_samples r0 = []) as E0 by (by apply sbuf_empty_iff). rewrite E0, app_nil_l in G4.
  cbn [r0 sb_head_sample_id sb_sample_id_decimate sb_msg_sample_id] in G7, G8, G9.
  exists r', t1', t2'. split_and!; try done.
  - apply (sbuf_wf_intro r' l (len l)); [apply G1 | by rewrite <- G4, sbuf_samples_lastn | done | rewrite G7, G8; nia].
  - eapply (sbuf_wf_shorter t1); [done | done | done |]. by rewrite A2.
  - eapply (sbuf_wf_shorter t2); [done | done | done |]. by rewrite B2.
  - apply G1.
  - rewrite G9. change 0xffffffff with (Z.ones 32). by rewrite Z.land_ones.
  - by rewrite G10.
  - by rewrite G10.
  - by rewrite G11.
  - by rewrite G11.
Qed.

(** The samples from an id of the grid on. *)
Lemma sbuf_value_from s id q : 0 < sb_sample_id_decimate s -> sbuf_tail_sample_id s <= id ->
  (sb_sample_id_decimate s | id - sbuf_tail_sample_id s) -> id <= q ->
  sbuf_value s q = if (q - id) mod sb_sample_id_decimate s =? 0
    then drop (Z.to_nat (sbuf_older s id)) (sbuf_samples s) !! Z.to_nat ((q - id) / sb_sample_id_decimate s) else None.
Proof.
  intros Hd Hid [c Hc] Hq. unfold sbuf_value, sbuf_older. set (dec := sb_sample_id_decimate s) in *.
  replace (q - sbuf_tail_sample_id s) with (q - id + c * dec) by lia. rewrite Z.mod_add, Z.div_add by lia.
  rewrite Hc, (proj2 (Z.leb_le _ _)), Z.max_r, Z.div_mul by lia. cbn [andb]. case_if; [|done].
  assert (0 <= (q - id) / dec) by (apply Z.div_pos; lia). assert (0 <= c) by nia.
  rewrite lookup_drop. f_equal. lia.
Qed.

(** C8. [sbuf_f32_mult] of two well-formed buffers on the same grid gives, at every sample id, the float
    product of the two samples with that id, for exactly the ids that both buffers hold and that are not
    before the end of the previous product.  The result starts at index 0 of its
    array, its message id is the low half of its first id, and the three buffers are
    well formed afterwards. *)
Theorem sbuf_mult_overlap r s1 s2 :
  sbuf_wf s1 -> sbuf_wf s2 -> sb_sample_id_decimate s1 = sb_sample_id_decimate s2 ->
  len (sb_buffer r) = SAMPLE_BUFFER_LENGTH -> 0 <= sb_head_sample_id r ->
  mult_start r s1 s2 + SAMPLE_BUFFER_LENGTH * sb_sample_id_decimate s1 <= 2 ^ 64 ->
  (sb_sample_id_decimate s1 | mult_start r s1 s2 - sbuf_tail_sample_id s1) ->
  (sb_sample_id_decimate s1 | mult_start r s1 s2 - sbuf_tail_sample_id s2) ->
  exists r' s1' s2', sbuf_f32_mult r s1 s2 = Ok (r', s1', s2') /\ sbuf_wf r' /\ sbuf_wf s1' /\ sbuf_wf s2'
    /\ sb_tail r' = 0 /\ sb_msg_sample_id r' = sbuf_tail_sample_id r' mod 2 ^ 32
    /\ sbuf_tail_sample_id r' = mult_start r s1 s2
    /\ forall id, sbuf_value r' id =
         if mult_start r s1 s2 <=? id then
           x1 ← sbuf_value s1 id; x2 ← sbuf_value s2 id; Some (f32_mul x1 x2)
         else None.
Proof.
  intros H1 H2 Ed Hb H0 Hmax Ha1 Ha2. pose proof H1 as [(_ & _ & _ & Hd1) _].
  destruct (sbuf_mult_ok r s1 s2) as (r' & s1' & s2' & E & W & W1 & W2 & S & S1 & S2 & T & Hh & D & M & _); try done.
  assert (sbuf_tail_sample_id r' = mult_start r s1 s2) as Et.
  { rewrite (sbuf_tail_id r' W), Hh, <- len_sbuf_samples, S, D. lia. }
  exists r', s1', s2'. rewrite Et. split_and!; try done. intros q. case_if.
  - rewrite (sbuf_value_from r' (mult_start r s1 s2)), (sbuf_value_from s1 (mult_start r s1 s2)),
      (sbuf_value_from s2 (mult_start r s1 s2)); rewrite ?D, <- ?Ed, ?Et, ?Z.sub_diag;
      try done; try (unfold mult_start; lia); [|apply Z.divide_0_r].
    case_if; [|done]. unfold sbuf_older at 1. rewrite Et, Z.sub_diag, Z.max_id, Z.div_0_l, drop_0, S by lia.
    by rewrite lookup_zip_with.
  - unfold sbuf_value. rewrite Et, (proj2 (Z.leb_gt _ _)) by lia. done.
Qed.

(** A message of [SAMPLE_BUFFER_LENGTH] or more new samples leaves its newest
    [SAMPLE_BUFFER_LENGTH - 1] samples in the buffer, but the head id is afterwards the id of its FIRST
    sample, where it should be the id behind its last one: every sample is then taken to be
    [length] samples older than it is. *)
Lemma sbuf_add_large_id s sid data :
  sbuf_wf s -> SAMPLE_BUFFER_LENGTH <= len data -> sb_head_sample_id s <= sid < 2 ^ 64 ->
  exists s', sbuf_f32_add s sid data (len data) = Ok s'
    /\ sbuf_samples s' = lastn SAMPLE_BUFFER_MASK data /\ sb_head_sample_id s' = sid.
Proof.
  intros [Hr Hid] Hn Hsid. pose proof Hr as (_ & _ & _ & Hd). unfold sbuf_f32_add, sbuf_append.
  rewrite (proj2 (Z.ltb_ge _ _)) by lia. cbv zeta. rewrite (proj2 (Z.leb_le _ _)) by done. rewrite bind_Ok. cbv zeta.
  change (SAMPLE_BUFFER_LENGTH - 1) with 1023. unfold SAMPLE_BUFFER_LENGTH in Hn. set (s0 := set_head_sample_id _ _).
  destruct (sbuf_copy_loop_ok (Z.to_nat 1023) data s0 (0 + (len data - 1023))) as (s' & -> & Hs' & E1 & E2 & _); [done | lia | lia |].
  exists s'. split; [done|]. split.
  - rewrite E1. rewrite take_ge by (rewrite length_drop; unfold len in *; lia). unfold lastn.
    rewrite length_app, !length_drop, drop_app_ge by (unfold len, SAMPLE_BUFFER_MASK, SAMPLE_BUFFER_LENGTH in *; lia).
    rewrite drop_drop. f_equal. unfold len, SAMPLE_BUFFER_MASK, SAMPLE_BUFFER_LENGTH in *. lia.
  - rewrite E2. cbn [s0 set_head_sample_id sb_head_sample_id]. rewrite (uwrap_small 32) by (unfold is_u; lia).
    unfold uwrap. rewrite Z.add_mod_idemp_l, Z.sub_add by done. apply Z.mod_small. pose proof (sbuf_length_range s). nia.
Qed.

(** ** Concrete buffers *)

Definition ex_sbuf : sbuf_f32_s := sbuf_f32_clear (mk_sbuf 0 0 0 0 0 (replicate 1024 S754_nan)).
Definition ex_floats (l : list Z) : list f32 := f32_of_Z <$> l.

Lemma ex_sbuf_wf : sbuf_wf ex_sbuf.
Proof. by vm_compute. Qed.

Lemma sbuf_add_refines_witness : exists s',
  sbuf_f32_add ex_sbuf 4 (ex_floats [1; 2]) 2 = Ok s' /\ sbuf_wf s'
  /\ sbuf_samples s' = S754_nan :: S754_nan :: ex_floats [1; 2] /\ sb_head_sample_id s' = 8.
Proof.
  destruct (sbuf_add_refines ex_sbuf 4 (ex_floats [1; 2])) as (s' & E1 & E2 & E3 & E4 & E5);
    [apply ex_sbuf_wf | done | done | by vm_compute |].
  exists s'. split_and!; [done | done | rewrite E3; by vm_compute | rewrite E5; [done | by exists 2]].
Defined.

(** Two sources whose grids meet: ids 0, 2, 4 and ids 2 (NaN at 0), 4, 6. *)
Definition ex_source (sid : Z) (l : list Z) : sbuf_f32_s :=
  match sbuf_f32_add ex_sbuf sid (ex_floats l) (len l) with Ok s => s | Fault _ => ex_sbuf end.

Lemma sbuf_mult_overlap_witness : exists r' s1' s2',
  sbuf_f32_mult ex_sbuf (ex_source 0 [1; 2; 3]) (ex_source 2 [5; 6; 7]) = Ok (r', s1', s2')
  /\ sbuf_value r' 4 = Some (f32_of_Z 18) /\ sbuf_value r' 3 = None /\ sbuf_value r' 6 = None.
Proof.
  destruct (sbuf_mult_overlap ex_sbuf (ex_source 0 [1; 2; 3]) (ex_source 2 [5; 6; 7]))
    as (r' & s1' & s2' & E & _ & _ & _ & _ & _ & _ & Hv);
    [by vm_compute | by vm_compute | done | done | done | by vm_compute | by exists 0 | by exists 0 |].
  exists r', s1', s2'. rewrite !Hv. split_and!; [done | by vm_compute..].
Defined.

Lemma sbuf_add_large_id_witness : exists s',
  sbuf_f32_add ex_sbuf 0 (replicate 2000 (f32_of_Z 1)) 2000 = Ok s'
  /\ sbuf_samples s' = replicate 1023 (f32_of_Z 1) /\ sb_head_sample_id s' = 0.
Proof.
  destruct (sbuf_add_large_id ex_sbuf 0 (replicate 2000 (f32_of_Z 1))) as (s' & E1 & E2 & E3);
    [apply ex_sbuf_wf | by vm_compute | by vm_compute |].
  exists s'. split_and!; [exact E1 | rewrite E2; by vm_compute | done].
Defined.
