(* ===== verification/DownsampleSinc.v ===== *)
(** * The sincN decimation filter (src/downsample_sinc.c)

    A box of [factor] ones, convolved with itself [order] times, is the kernel; the ring
    holds the newest [kernel_length] samples in Q30 fixed point, and every [factor]
    samples the weighted sum, divided by the sum of the kernel and rounded, comes out.
    The specification is the convolution of the input with [box_pow], which counts the ways to
    write an index as a sum. *)

From S2P Require Import Prelude Sums Float I128.

Definition FACTOR_MIN : Z := 2.
Definition FACTOR_MAX : Z := 1000.
Definition ORDER_MIN : Z := 1.
Definition ORDER_MAX : Z := 3.

Definition f_scale_in : f32 := f32_lit 1 30.
Definition f_scale_out : f32 := f32_lit 1 (-30).

Record jsdrv_downsample_sinc_s := mk_sinc {
  ds_factor : Z;         (* uint32_t *)
  ds_order : Z;          (* uint32_t *)
  ds_kernel_length : Z;  (* uint32_t *)
  ds_ring_idx : Z;       (* uint32_t *)
  ds_norm : Z;           (* uint64_t *)
  ds_sample_count : Z;   (* uint64_t *)
  ds_kernel : list Z;    (* uint32_t * *)
  ds_ring : list Z;      (* int64_t * *)
}.

(** ** The kernel *)

(** [for (j = j_lo; j <= j_hi; ++j) sum += kernel[j]], [n] terms. *)
Fixpoint box_sum (n : nat) (kernel : list Z) (j sum : Z) : res Z :=
  match n with
  | O => Ok sum
  | S n => k ← ld kernel j; box_sum n kernel (j + 1) (u32 (sum + k))
  end.

(** [for (i = out_len; i-- > 0U; )] *)
Fixpoint box_loop (i : nat) (kernel : list Z) (length factor : Z) : res (list Z) :=
  match i with
  | O => Ok kernel
  | S i' =>
      let i := Z.of_nat i' in
      let j_lo := if factor - 1 <=? i then i - (factor - 1) else 0 in
      let j_hi := if i <? length then i else length - 1 in
      sum ← box_sum (Z.to_nat (j_hi - j_lo + 1)) kernel j_lo 0;
      kernel ← st kernel i sum;
      box_loop i' kernel length factor
  end.

Definition kernel_convolve_box (kernel : list Z) (length factor : Z) : res (list Z) :=
  box_loop (Z.to_nat (length + factor - 1)) kernel length factor.

(** [for (k = 0; k < factor; ++k) kernel[k] = 1U] *)
Fixpoint ones_loop (n : nat) (kernel : list Z) (k : Z) : res (list Z) :=
  match n with
  | O => Ok kernel
  | S n => kernel ← st kernel k 1; ones_loop n kernel (k + 1)
  end.

(** [for (o = 1U; o < order; ++o)]: the kernel and [norm]. *)
Fixpoint order_loop (n : nat) (kernel : list Z) (length norm factor : Z) : res (list Z * Z) :=
  match n with
  | O => Ok (kernel, norm)
  | S n =>
      kernel ← kernel_convolve_box kernel length factor;
      order_loop n kernel (length + (factor - 1)) (u64 (norm * factor)) factor
  end.

(** [None] is NULL. *)
Definition jsdrv_downsample_sinc_alloc (factor order : Z) : res (option jsdrv_downsample_sinc_s) :=
  if (factor <? FACTOR_MIN) || (FACTOR_MAX <? factor) then Ok None
  else if (order <? ORDER_MIN) || (ORDER_MAX <? order) then Ok None
  else
    let kernel_length := order * (factor - 1) + 1 in
    let zeros := replicate (Z.to_nat kernel_length) 0 in
    kernel ← ones_loop (Z.to_nat factor) zeros 0;
    '(kernel, norm) ← order_loop (Z.to_nat (order - 1)) kernel factor factor factor;
    Ok (Some (mk_sinc factor order kernel_length 0 norm 0 kernel zeros)).

Definition jsdrv_downsample_sinc_clear (self : option jsdrv_downsample_sinc_s) : option jsdrv_downsample_sinc_s :=
  match self with
  | None => None
  | Some s => Some (mk_sinc (ds_factor s) (ds_order s) (ds_kernel_length s) 0 (ds_norm s) 0 (ds_kernel s) (ds_ring s))
  end.

Definition jsdrv_downsample_sinc_decimate_factor (self : option jsdrv_downsample_sinc_s) : Z :=
  match self with None => 1 | Some s => ds_factor s end.

Definition jsdrv_downsample_sinc_order (self : option jsdrv_downsample_sinc_s) : Z :=
  match self with None => 0 | Some s => ds_order s end.

(** ** Adding a sample *)

(** The Q30 value of a float; [INT64_MIN] stands for NaN. *)
Definition sinc_q30 (x_in : f32) : res Z :=
  if f_is_nan x_in then Ok I64_MIN else f_to_i64 (f32_mul x_in f_scale_in).

(** The sample into the ring; the ring is seeded with the first one. *)
Definition sinc_store (s : jsdrv_downsample_sinc_s) (x64 : Z) : res jsdrv_downsample_sinc_s :=
  let '(ring, ring_idx) :=
    if ds_sample_count s =? 0 then (replicate (Z.to_nat (ds_kernel_length s)) x64, 0)
    else (ds_ring s, ds_ring_idx s) in
  ring ← st ring ring_idx x64;
  let ring_idx := u32 (ring_idx + 1) in
  let ring_idx := if ds_kernel_length s <=? ring_idx then 0 else ring_idx in
  Ok (mk_sinc (ds_factor s) (ds_order s) (ds_kernel_length s) ring_idx (ds_norm s)
        (u64 (ds_sample_count s + 1)) (ds_kernel s) ring).

(** The weighted sum of the ring from [idx] on; [None] when a sample is NaN. *)
Fixpoint sinc_accum (n : nat) (s : jsdrv_downsample_sinc_s) (k idx : Z) (acc : js220_i128) : res (option js220_i128) :=
  match n with
  | O => Ok (Some acc)
  | S n =>
      v ← ld (ds_ring s) idx;
      if v =? I64_MIN then Ok None
      else
        c ← ld (ds_kernel s) k;
        p ← chk_i 64 (c * v);
        let acc := js220_i128_add acc (js220_i128_init_i64 p) in
        let idx := u32 (idx + 1) in
        let idx := if ds_kernel_length s <=? idx then 0 else idx in
        sinc_accum n s (k + 1) idx acc
  end.

(** Division by [norm], half away from zero: the low word. *)
Definition sinc_round (acc : js220_i128) (norm : Z) : res Z :=
  let half := js220_i128_init_i64 (i64 (norm / 2)) in
  let is_neg := js220_i128_is_neg acc in
  let acc := if is_neg then js220_i128_neg acc else acc in
  let acc := js220_i128_add acc half in
  '(acc, _) ← js220_i128_udiv acc norm;
  let acc := if is_neg then js220_i128_neg acc else acc in
  Ok (i64 (w0 acc)).

(** The output sample; [None] is NaN. *)
Definition sinc_emit (s : jsdrv_downsample_sinc_s) : res (option Z) :=
  acc ← sinc_accum (Z.to_nat (ds_kernel_length s)) s 0 (ds_ring_idx s) (js220_i128_init_i64 0);
  match acc with
  | None => Ok None
  | Some acc => y ← sinc_round acc (ds_norm s); Ok (Some y)
  end.

Definition sinc_float (y : option Z) : f32 :=
  match y with None => S754_nan | Some y => f32_mul (f32_of_Z y) f_scale_out end.

(** The new state, and the output sample when there is one. *)
Definition jsdrv_downsample_sinc_add_f32 (self : option jsdrv_downsample_sinc_s) (sample_id : Z) (x_in : f32)
    : res (option jsdrv_downsample_sinc_s * option f32) :=
  match self with
  | None => Ok (None, Some x_in)
  | Some s =>
      x64 ← sinc_q30 x_in;
      if (ds_sample_count s =? 0) && negb (sample_id mod ds_factor s =? 0) then Ok (Some s, None)
      else
        s ← sinc_store s x64;
        if negb (ds_sample_count s mod ds_factor s =? 0) then Ok (Some s, None)
        else y ← sinc_emit s; Ok (Some s, Some (sinc_float y))
  end.

(** ** The kernel, as the number of ways to write [k] as a sum of [order] numbers below [R] *)

Fixpoint box_pow (R : Z) (order : nat) (k : Z) : Z :=
  match order with
  | O => if k =? 0 then 1 else 0
  | S o => zsum (k - (R - 1)) (Z.to_nat R) (box_pow R o)
  end.

Lemma box_pow_nonneg R o k : 0 <= box_pow R o k.
Proof. revert k; induction o as [|o IH]; intros k; cbn [box_pow]; [case_if; lia|]. by apply zsum_nonneg. Qed.

Lemma box_pow_outside R o k : 0 < R -> k < 0 \/ Z.of_nat o * (R - 1) < k -> box_pow R o k = 0.
Proof.
  intros HR. revert k; induction o as [|o IH]; intros k Hk; cbn [box_pow]; [case_if; lia|].
  apply zsum_zero. intros i Hi. apply IH. lia.
Qed.

(** The length of the kernel of an order. *)
Abbreviation klen R o := (Z.of_nat o * (R - 1) + 1).

(** The kernel sums to [R ^ order]. *)
Lemma box_pow_total R o lo n : 0 < R -> lo <= 0 -> klen R o <= lo + Z.of_nat n -> zsum lo n (box_pow R o) = R ^ Z.of_nat o.
Proof.
  intros HR. revert lo n; induction o as [|o IH]; intros lo n Hlo Hn.
  { rewrite (zsum_trim lo n 0 1); [cbn; lia | lia | lia |]. intros i Hi Hi'. cbn. case_if; [lia | done]. }
  transitivity (zsum lo n (fun k => zsum 0 (Z.to_nat R) (fun t => box_pow R o (t + (k - (R - 1)))))).
  { apply zsum_ext. intros i _. cbn [box_pow]. rewrite <- zsum_shift. f_equal. }
  rewrite zsum_swap. rewrite Nat2Z.inj_succ, Z.pow_succ_r by lia.
  transitivity (zsum 0 (Z.to_nat R) (fun _ => R ^ Z.of_nat o)); [|rewrite zsum_const; lia].
  apply zsum_ext. intros t Ht. rewrite <- (IH (lo + (t - (R - 1))) n) by lia. rewrite zsum_shift.
  apply zsum_ext. intros i _. f_equal. lia.
Qed.

(** No weight is larger than the sum of the kernel of one order less. *)
Lemma box_pow_le R o k : 0 < R -> box_pow R (S o) k <= R ^ Z.of_nat o.
Proof.
  intros HR. rewrite <- (box_pow_total R o (Z.min 0 (k - (R - 1))) (Z.to_nat (Z.max (klen R o) (k + 1) - Z.min 0 (k - (R - 1))))) by lia.
  cbn [box_pow]. apply zsum_part; [lia | lia | apply box_pow_nonneg].
Qed.

(** The kernel is symmetric. *)
Lemma box_pow_sym R o k : 0 < R -> box_pow R o (Z.of_nat o * (R - 1) - k) = box_pow R o k.
Proof.
  intros HR. revert k; induction o as [|o IH]; intros k; [cbn; do 2 case_if; lia|]. cbn [box_pow]. rewrite zsum_rev.
  replace (1 - (Z.of_nat (S o) * (R - 1) - k - (R - 1)) - Z.of_nat (Z.to_nat R))
    with (k - (R - 1) + - (Z.of_nat o * (R - 1))) by lia.
  rewrite zsum_shift. apply zsum_ext. intros i _. rewrite <- IH. f_equal. lia.
Qed.

(** [kernel] holds [f] between two indices. *)
Definition holds (kernel : list Z) (lo hi : Z) (f : Z -> Z) : Prop :=
  forall i, lo <= i < hi -> kernel !! Z.to_nat i = Some (f i).

Lemma holds_st kernel lo hi f i v kernel' : 0 <= lo -> 0 <= i < len kernel -> st kernel i v = Ok kernel' ->
  (hi <= i \/ i < lo) -> holds kernel lo hi f -> holds kernel' lo hi f.
Proof.
  intros H0 Hi E Hout H j Hj. rewrite st_ok in E by done. injection E as <-.
  rewrite list_lookup_insert_ne by lia. by apply H.
Qed.

Lemma box_sum_ok f kernel : forall n j sum, 0 <= j -> holds kernel j (j + Z.of_nat n) f -> (forall i, 0 <= f i) ->
  0 <= sum -> sum + zsum j n f < 2 ^ 32 -> box_sum n kernel j sum = Ok (sum + zsum j n f).
Proof.
  induction n as [|n IH]; intros j sum Hj Hk Hf Hs Hb; cbn [box_sum zsum] in *; [f_equal; lia|].
  rewrite (ld_ok kernel j (f j)), bind_Ok by (done || apply Hk; lia). pose proof (Hf j).
  pose proof (zsum_nonneg (j + 1) n f (fun i _ => Hf i)).
  rewrite uwrap_small by (unfold is_u; lia). rewrite IH; [f_equal; lia | lia | | done | lia | lia].
  intros i Hi. apply Hk. lia.
Qed.

(** The loop runs downwards, so that it overwrites no weight that it still needs. *)
Lemma box_loop_ok f (kernel0 : list Z) length factor : 0 < factor -> 0 < length -> (forall i, 0 <= f i) ->
  (forall i, i < 0 \/ length <= i -> f i = 0) ->
  let g k := zsum (k - (factor - 1)) (Z.to_nat factor) f in
  (forall k, g k < 2 ^ 32) -> length + factor - 1 <= len kernel0 ->
  forall i kernel, len kernel = len kernel0 -> Z.of_nat i <= length + factor - 1 ->
  holds kernel 0 (Z.min (Z.of_nat i) length) f -> holds kernel (Z.of_nat i) (length + factor - 1) g ->
  exists kernel', box_loop i kernel length factor = Ok kernel' /\ len kernel' = len kernel0
    /\ holds kernel' 0 (length + factor - 1) g.
Proof.
  intros HR Hlen Hf Hout g Hg Hk0. induction i as [|i IH]; intros kernel Hk Hi Hlow Hhigh; cbn [box_loop].
  { exists kernel. done. }
  set (z := Z.of_nat i) in *. set (j_lo := if _ <=? z then _ else _). set (j_hi := if z <? length then _ else _).
  assert (Z.max 0 (z - (factor - 1)) = j_lo /\ Z.min z (length - 1) = j_hi) as [E1 E2]
    by (unfold j_lo, j_hi; split; case_if; lia).
  assert (zsum j_lo (Z.to_nat (j_hi - j_lo + 1)) f = g z) as Eg.
  { symmetry. apply zsum_trim; [lia | lia |]. intros k Hk1 Hk2. apply Hout. lia. }
  rewrite (box_sum_ok f); [|lia | | done | lia | rewrite Eg; apply Hg].
  2: { intros k Hk1. apply Hlow. lia. }
  rewrite bind_Ok, Eg. destruct (st kernel z (0 + g z)) as [kernel'|] eqn:E; [|rewrite st_ok in E by lia; done].
  rewrite bind_Ok. assert (len kernel' = len kernel) as El by (rewrite st_ok in E by lia; injection E as <-; apply len_insert).
  apply IH; [lia | lia | |].
  - eapply holds_st; [done | | apply E | |]; [lia | left; lia |]. intros k Hk1. apply Hlow. lia.
  - intros k Hk1. destruct (Z.eq_dec k z) as [->|Hne].
    + rewrite st_ok in E by lia. injection E as <-. rewrite list_lookup_insert_eq by (unfold len in *; lia). f_equal; lia.
    + apply (holds_st kernel (Z.of_nat (S i)) (length + factor - 1) g z (0 + g z) kernel'); [lia | lia | done | lia | done | lia].
Qed.

(** One pass of the box gives the kernel of the next order. *)
Lemma kernel_convolve_box_ok R o kernel : 0 < R <= FACTOR_MAX -> (o <= 2)%nat -> klen R (S o) <= len kernel ->
  holds kernel 0 (klen R o) (box_pow R o) ->
  exists kernel', kernel_convolve_box kernel (klen R o) R = Ok kernel' /\ len kernel' = len kernel
    /\ holds kernel' 0 (klen R (S o)) (box_pow R (S o)).
Proof.
  intros HR Ho Hk Hh. unfold kernel_convolve_box.
  assert (klen R (S o) = klen R o + R - 1) as El by lia. assert (0 < klen R o) by nia. rewrite El in *.
  apply (box_loop_ok (box_pow R o)); try done; try lia.
  - apply box_pow_nonneg.
  - intros i Hi. apply box_pow_outside; lia.
  - intros k. eapply Z.le_lt_trans; [apply (box_pow_le R o k); lia|]. unfold FACTOR_MAX in HR.
    assert (R ^ Z.of_nat o <= 1000 ^ Z.of_nat o) by (apply Z.pow_le_mono_l; lia).
    assert (1000 ^ Z.of_nat o <= 1000 ^ 2) by (apply Z.pow_le_mono_r; lia). lia.
  - intros i Hi. apply Hh. lia.
  - intros i Hi. lia.
Qed.

Lemma box_pow_one R k : 0 < R -> 0 <= k < R -> box_pow R 1 k = 1.
Proof.
  intros HR Hk. cbn [box_pow]. rewrite (zsum_trim _ _ 0 1); [done | lia | lia |].
  intros i Hi Hi'. case_if; [lia | done].
Qed.

Lemma ones_loop_ok : forall n (kernel : list Z) k, 0 <= k -> k + Z.of_nat n <= len kernel -> holds kernel 0 k (fun _ => 1) ->
  exists kernel', ones_loop n kernel k = Ok kernel' /\ len kernel' = len kernel /\ holds kernel' 0 (k + Z.of_nat n) (fun _ => 1).
Proof.
  induction n as [|n IH]; intros kernel k Hk Hn Hh; cbn [ones_loop].
  { exists kernel. by rewrite Z.add_0_r. }
  rewrite st_ok, bind_Ok by lia. destruct (IH (<[Z.to_nat k := 1]> kernel) (k + 1)) as (kernel' & E & El & Hh'); [lia | | |].
  - rewrite len_insert. lia.
  - intros i Hi. destruct (Z.eq_dec i k) as [->|].
    + by rewrite list_lookup_insert_eq by (unfold len in *; lia).
    + rewrite list_lookup_insert_ne by lia. apply Hh. lia.
  - exists kernel'. rewrite len_insert in El. split_and!; try done. intros i Hi. apply Hh'. lia.
Qed.

Lemma order_loop_ok R : FACTOR_MIN <= R <= FACTOR_MAX -> forall n o kernel, (o + n <= 3)%nat -> klen R (o + n) <= len kernel ->
  holds kernel 0 (klen R o) (box_pow R o) ->
  exists kernel', order_loop n kernel (klen R o) (R ^ Z.of_nat o) R = Ok (kernel', R ^ Z.of_nat (o + n))
    /\ len kernel' = len kernel /\ holds kernel' 0 (klen R (o + n)) (box_pow R (o + n)).
Proof.
  intros HR. unfold FACTOR_MIN, FACTOR_MAX in HR. induction n as [|n IH]; intros o kernel Ho Hk Hh; cbn [order_loop].
  { exists kernel. by rewrite !Nat.add_0_r. }
  destruct (kernel_convolve_box_ok R o kernel) as (k1 & -> & E1 & H1); [unfold FACTOR_MAX; lia | lia | | done |].
  { rewrite <- Nat.add_succ_comm in Hk. nia. }
  rewrite bind_Ok, <- Nat.add_succ_comm in *. destruct (IH (S o) k1) as (k2 & E2 & E3 & H2); [lia | by rewrite E1 | done |].
  replace (klen R o + (R - 1)) with (klen R (S o)) by lia. rewrite uwrap_small.
  - replace (R ^ Z.of_nat o * R) with (R ^ Z.of_nat (S o)) by (rewrite Nat2Z.inj_succ, Z.pow_succ_r by lia; lia).
    exists k2. by rewrite E3.
  - unfold is_u. assert (0 <= R ^ Z.of_nat o <= 1000 ^ Z.of_nat o) by (split; [apply Z.pow_nonneg | apply Z.pow_le_mono_l]; lia).
    assert (1000 ^ Z.of_nat o <= 1000 ^ 2) by (apply Z.pow_le_mono_r; lia). change (1000 ^ 2) with 1000000 in *. nia.
Qed.

(** ** The state *)

Record sinc_wf (s : jsdrv_downsample_sinc_s) : Prop := mk_sinc_wf {
  sw_factor : FACTOR_MIN <= ds_factor s <= FACTOR_MAX;
  sw_order : ORDER_MIN <= ds_order s <= ORDER_MAX;
  sw_length : ds_kernel_length s = ds_order s * (ds_factor s - 1) + 1;
  sw_norm : ds_norm s = ds_factor s ^ ds_order s;
  sw_kernel : holds (ds_kernel s) 0 (ds_kernel_length s) (box_pow (ds_factor s) (Z.to_nat (ds_order s)));
  sw_ring : len (ds_ring s) = ds_kernel_length s;
  sw_idx : 0 <= ds_ring_idx s < ds_kernel_length s;
}.

(** [jsdrv_downsample_sinc_alloc] accepts exactly the documented factors and orders, and its kernel
    is the box to the power of the order. *)
Lemma sinc_alloc_ok factor order :
  FACTOR_MIN <= factor <= FACTOR_MAX -> ORDER_MIN <= order <= ORDER_MAX ->
  exists s, jsdrv_downsample_sinc_alloc factor order = Ok (Some s) /\ sinc_wf s
    /\ ds_factor s = factor /\ ds_order s = order /\ ds_sample_count s = 0.
Proof.
  intros HF HO. unfold jsdrv_downsample_sinc_alloc. rewrite !(proj2 (Z.ltb_ge _ _)) by lia. cbn [orb]. cbv zeta.
  unfold FACTOR_MIN, FACTOR_MAX, ORDER_MIN, ORDER_MAX in *.
  set (K := order * (factor - 1) + 1). assert (factor <= K) by (unfold K; nia).
  assert (len (replicate (Z.to_nat K) 0) = K) as EK by (unfold len; rewrite length_replicate; lia).
  destruct (ones_loop_ok (Z.to_nat factor) (replicate (Z.to_nat K) 0) 0) as (k1 & -> & E1 & H1); [lia | rewrite EK; lia | intros i Hi; lia |].
  rewrite bind_Ok. destruct (order_loop_ok factor ltac:(done) (Z.to_nat (order - 1)) 1 k1) as (k2 & E2 & E3 & H2).
  - lia.
  - rewrite E1, EK. unfold K. nia.
  - intros i Hi. rewrite box_pow_one by lia. apply H1. lia.
  - change (Z.of_nat 1) with 1 in E2. rewrite Z.pow_1_r in E2. replace (1 * (factor - 1) + 1) with factor in E2 by lia.
    rewrite E2, bind_Ok. replace (1 + Z.to_nat (order - 1))%nat with (Z.to_nat order) in * by lia.
    rewrite Z2Nat.id in * by lia. fold K in H2. eexists. split; [done|]. split; [|done].
    constructor; cbn; done || lia.
Qed.

(** The samples in the ring, oldest first. *)
Definition sinc_window (s : jsdrv_downsample_sinc_s) : list Z :=
  window (ds_ring s) (ds_ring_idx s).

Lemma length_sinc_window s : sinc_wf s -> length (sinc_window s) = Z.to_nat (ds_kernel_length s).
Proof.
  intros Hs. pose proof (sw_ring s Hs). pose proof (sw_idx s Hs). unfold sinc_window, window, len in *.
  rewrite length_app, length_drop, length_take. lia.
Qed.

(** The ring index after [k] samples from the oldest on. *)
Definition sinc_pos (s : jsdrv_downsample_sinc_s) (k : Z) : Z :=
  if ds_kernel_length s <=? ds_ring_idx s + k then ds_ring_idx s + k - ds_kernel_length s else ds_ring_idx s + k.

Lemma sinc_window_lookup s k : sinc_wf s -> 0 <= k < ds_kernel_length s ->
  ds_ring s !! Z.to_nat (sinc_pos s k) = sinc_window s !! Z.to_nat k.
Proof.
  intros Hs Hk. pose proof (sw_ring s Hs). pose proof (sw_idx s Hs). unfold sinc_window, window, sinc_pos, len in *. case_if.
  - rewrite lookup_app_r by (rewrite length_drop; lia). rewrite length_drop, lookup_take_lt by lia. f_equal. lia.
  - rewrite lookup_app_l by (rewrite length_drop; lia). rewrite lookup_drop. f_equal. lia.
Qed.

(** ** The history *)

(** The newest [K] samples of a history that starts with [K] copies of its first. *)
Definition seeded (K : Z) (h : list Z) : list Z := history K (default 0 (head h)) h.

Lemma seeded_snoc K h x : 0 < K -> h <> [] -> seeded K (h ++ [x]) = drop 1 (seeded K h) ++ [x].
Proof. intros HK Hh. unfold seeded. rewrite history_snoc by done. by destruct h. Qed.

(** [s] has accepted the samples [h]. *)
Definition sinc_after (s : jsdrv_downsample_sinc_s) (h : list Z) : Prop :=
  sinc_wf s /\ ds_sample_count s = len h /\ (h <> [] -> sinc_window s = seeded (ds_kernel_length s) h).

Lemma sinc_length_pos s : sinc_wf s -> 1 < ds_kernel_length s < 2 ^ 32.
Proof.
  intros Hs. rewrite (sw_length s Hs). pose proof (sw_factor s Hs). pose proof (sw_order s Hs).
  unfold FACTOR_MIN, FACTOR_MAX, ORDER_MIN, ORDER_MAX in *. nia.
Qed.

Lemma sinc_store_ok s h x : sinc_after s h -> len h + 1 < 2 ^ 64 ->
  exists s', sinc_store s x = Ok s' /\ sinc_after s' (h ++ [x]) /\ ds_factor s' = ds_factor s /\ ds_order s' = ds_order s.
Proof.
  intros (Hs & Hc & Hw) Hn. pose proof (sinc_length_pos s Hs) as HK. pose proof (len_nonneg h).
  set (ring := if ds_sample_count s =? 0 then replicate (Z.to_nat (ds_kernel_length s)) x else ds_ring s).
  set (idx := if ds_sample_count s =? 0 then 0 else ds_ring_idx s).
  assert (len ring = ds_kernel_length s /\ 0 <= idx < ds_kernel_length s) as [Hr Hi].
  { unfold ring, idx. pose proof (sw_ring s Hs). pose proof (sw_idx s Hs).
    case_if; [|done]. unfold len. rewrite length_replicate. lia. }
  assert (drop 1 (window ring idx) ++ [x] = seeded (ds_kernel_length s) (h ++ [x])) as Es.
  { unfold ring, idx. destruct h as [|y h].
    - rewrite Hc, @len_nil, Z.eqb_refl, window_0, <- (history_nil _ x). symmetry. apply (history_snoc _ x []). lia.
    - rewrite len_cons in Hc. pose proof (len_nonneg h). rewrite (proj2 (Z.eqb_neq _ 0)) by lia.
      rewrite seeded_snoc by (done || lia). by rewrite <- Hw. }
  unfold sinc_store. replace (if ds_sample_count s =? 0 then _ else _) with (ring, idx) by (unfold ring, idx; by case_if).
  destruct (st ring idx x) as [ring'|] eqn:E; [|rewrite st_ok in E by lia; done]. rewrite bind_Ok. cbv zeta.
  rewrite uwrap_small, Hc, uwrap_small by (unfold is_u; lia).
  assert (len ring' = len ring) as El by (rewrite st_ok in E by lia; injection E as <-; apply len_insert).
  eexists. split; [done|]. split; [|done]. split; [|split].
  - destruct Hs. constructor; cbn; try done; [lia|]. case_if; lia.
  - cbn. by rewrite len_app.
  - intros _. cbn. rewrite <- Es. by apply window_step.
Qed.

(** ** The output *)

(** The quotient, rounded to the nearest integer, halves away from zero. *)
Definition round_half_away (a n : Z) : Z := Z.sgn a * ((Z.abs a + n / 2) / n).

(** [js220_i128_neg] is wrong where the low word is [2^63]. *)
Definition neg_safe (a : Z) : Prop := a < 0 -> a mod 2 ^ 64 <> 2 ^ 63.

Lemma i64_low q : is_s 64 q -> i64 (w0 (of_Z q)) = q.
Proof. intros Hq. cbn. unfold swrap, uwrap. rewrite Z.add_mod_idemp_l by done. by apply swrap_small. Qed.

Lemma sinc_round_ok a n : 0 < n < 2 ^ 62 -> Z.abs a < 2 ^ 62 * n -> neg_safe a ->
  sinc_round (of_Z a) n = Ok (round_half_away a n).
Proof.
  intros Hn Ha Hsafe. unfold sinc_round, round_half_away. assert (0 <= n / 2 < 2 ^ 62) as Hh by (split; [apply Z.div_pos; lia | apply Z.div_lt_upper_bound; lia]).
  rewrite swrap_small by (done || width_lia). rewrite init_of_Z by width_lia.
  assert (Z.abs a < 2 ^ 124) by (change (2 ^ 124) with (2 ^ 62 * 2 ^ 62); nia).
  rewrite is_neg_of_Z by (unfold is_s; change (2 ^ (128 - 1)) with (8 * 2 ^ 124); lia).
  assert ((if a <? 0 then js220_i128_neg (of_Z a) else of_Z a) = of_Z (Z.abs a)) as ->.
  { case_if; [rewrite neg_of_Z by (by apply Hsafe)|]; f_equal; lia. }
  rewrite add_of_Z, udiv_of_Z, bind_Ok by (change (2 ^ 128) with (16 * 2 ^ 124); lia).
  set (q := (Z.abs a + n / 2) / n).
  assert (0 <= q <= 2 ^ 62) as Hq.
  { split; [apply Z.div_pos; lia|]. apply Z.lt_succ_r, Z.div_lt_upper_bound; [lia|]. pose proof (Z.mul_div_le n 2). lia. }
  f_equal. case_if.
  - rewrite neg_of_Z by (rewrite Z.mod_small; lia). rewrite i64_low by width_lia. rewrite Z.sgn_neg; lia.
  - rewrite i64_low by width_lia. destruct (Z.eq_dec a 0) as [->|]; [|rewrite Z.sgn_pos; lia].
    cbn [Z.sgn]. unfold q. pose proof (Z.div_lt n 2). rewrite Z.abs_0, Z.div_small; lia.
Qed.

(** A sample is NaN, or small enough for the products. *)
Definition sample_ok (v : Z) : Prop := v = I64_MIN \/ Z.abs v <= 2 ^ 43.

Lemma sinc_weight s k : sinc_wf s -> 0 <= box_pow (ds_factor s) (Z.to_nat (ds_order s)) k <= 1000000.
Proof.
  intros Hs. split; [apply box_pow_nonneg|]. pose proof (sw_factor s Hs). pose proof (sw_order s Hs).
  unfold FACTOR_MIN, FACTOR_MAX, ORDER_MIN, ORDER_MAX in *. destruct (Z.to_nat (ds_order s)) as [|o] eqn:Eo; [lia|].
  etransitivity; [apply box_pow_le; lia|].
  etransitivity; [apply Z.pow_le_mono_l; split; [|apply H]; lia|].
  change 1000000 with (1000 ^ 2). apply Z.pow_le_mono_r; lia.
Qed.

(** One sample weighted: no overflow. *)
Lemma weight_small c v : 0 <= c <= 1000000 -> Z.abs v <= 2 ^ 43 -> is_s 64 (c * v).
Proof. intros Hc Hv. change (2 ^ 43) with 8796093022208 in Hv. widths. nia. Qed.

Lemma sinc_pos_next s k : sinc_wf s -> 0 <= k < ds_kernel_length s ->
  (if ds_kernel_length s <=? u32 (sinc_pos s k + 1) then 0 else u32 (sinc_pos s k + 1)) = sinc_pos s (k + 1).
Proof.
  intros Hs Hk. pose proof (sw_idx s Hs). pose proof (sinc_length_pos s Hs).
  rewrite uwrap_small by (unfold is_u, sinc_pos; case_if; lia). unfold sinc_pos.
  destruct (ds_kernel_length s <=? ds_ring_idx s + k) eqn:E1; bool_facts; repeat case_if; lia.
Qed.

Lemma sinc_accum_ok s : sinc_wf s -> Forall sample_ok (sinc_window s) ->
  let box := box_pow (ds_factor s) (Z.to_nat (ds_order s)) in
  forall n k a, 0 <= k -> k + Z.of_nat n = ds_kernel_length s ->
  sinc_accum n s k (sinc_pos s k) (of_Z a)
  = Ok (if nan_free (drop (Z.to_nat k) (sinc_window s))
        then Some (of_Z (a + zsum k n (fun j => box j * val (sinc_window s) j))) else None).
Proof.
  intros Hs Hw box. induction n as [|n IH]; intros k a Hk Hn; cbn [sinc_accum zsum].
  { rewrite drop_ge by (rewrite length_sinc_window by done; lia). cbn [nan_free forallb]. do 3 f_equal. lia. }
  destruct (lookup_lt_is_Some_2 (sinc_window s) (Z.to_nat k)) as [v Hv]; [rewrite length_sinc_window by done; lia|].
  pose proof (sw_idx s Hs). rewrite (ld_ok (ds_ring s) (sinc_pos s k) v), bind_Ok.
  2: { unfold sinc_pos. case_if; lia. }
  2: { rewrite sinc_window_lookup by (done || lia). done. }
  rewrite (drop_S _ v _ Hv). cbn [nan_free forallb]. case_if; cbn [negb andb]; [done|].
  rewrite (ld_ok _ _ (box k)), bind_Ok by (done || apply (sw_kernel s Hs); lia).
  assert (sample_ok v) as [->|Hok] by (by eapply Forall_lookup_1); [done|].
  assert (is_s 64 (box k * v)) as Hp by (apply weight_small; [apply sinc_weight|]; done).
  rewrite chk_i_ok, bind_Ok by done. cbv zeta. rewrite init_of_Z, add_of_Z by done. rewrite sinc_pos_next by (done || lia).
  rewrite IH by lia. replace (Z.to_nat (k + 1)) with (S (Z.to_nat k)) by lia. fold (nan_free (drop (S (Z.to_nat k)) (sinc_window s))).
  f_equal. case_if; [|done]. do 2 f_equal. unfold val at 2. rewrite Hv. cbn. lia.
Qed.

(** ** The filter *)

(** The convolution of the history with the kernel, at its newest sample. *)
Definition sinc_sum (R order : Z) (h : list Z) : Z :=
  let K := order * (R - 1) + 1 in
  zsum 0 (Z.to_nat K) (fun k => box_pow R (Z.to_nat order) k * val (seeded K h) (K - 1 - k)).

(** The output for a history; [None] is NaN. *)
Definition sinc_filter (R order : Z) (h : list Z) : option Z :=
  if nan_free (seeded (order * (R - 1) + 1) h) then Some (round_half_away (sinc_sum R order h) (R ^ order)) else None.

(** The kernel may be applied from either end. *)
Lemma sinc_sum_sym R order h : 0 < R -> 0 <= order ->
  let K := order * (R - 1) + 1 in
  zsum 0 (Z.to_nat K) (fun k => box_pow R (Z.to_nat order) k * val (seeded K h) k) = sinc_sum R order h.
Proof.
  intros HR Ho K. unfold sinc_sum. fold K. assert (0 < K) by (unfold K; nia).
  rewrite zsum_rev. replace (1 - 0 - Z.of_nat (Z.to_nat K)) with (0 + (1 - K)) by lia. rewrite zsum_shift.
  apply zsum_ext. intros i _. rewrite <- (box_pow_sym R (Z.to_nat order) (- (i + (1 - K)))) by done. f_equal; [f_equal; lia | f_equal; lia].
Qed.

Lemma seeded_ok K h : h <> [] -> Forall sample_ok h -> Forall sample_ok (seeded K h).
Proof.
  intros Hh H. unfold seeded, history, lastn. apply Forall_drop, Forall_app. split; [|done]. destruct h; [done|]. apply Forall_replicate.
  by inversion H.
Qed.

Lemma val_small w k : Forall sample_ok w -> nan_free w = true -> Z.abs (val w k) <= 2 ^ 43.
Proof.
  intros H Hn. unfold val. destruct (w !! Z.to_nat k) as [v|] eqn:E; cbn [default from_option id]; [|done].
  destruct (Forall_lookup_1 _ _ _ _ H E) as [->|]; [|done]. unfold nan_free in Hn. rewrite forallb_forall in Hn.
  specialize (Hn I64_MIN). rewrite Z.eqb_refl in Hn. discriminate Hn.
  apply list_elem_of_In. by eapply list_elem_of_lookup_2.
Qed.

(** The sum is at most the largest sample times the sum of the kernel. *)
Lemma sinc_sum_small R order h : 0 < R -> 0 <= order ->
  (forall k, Z.abs (val (seeded (order * (R - 1) + 1) h) k) <= 2 ^ 43) -> Z.abs (sinc_sum R order h) <= 2 ^ 43 * R ^ order.
Proof.
  intros HR Ho Hv. unfold sinc_sum. set (K := order * (R - 1) + 1) in *. assert (0 < K) by (unfold K; nia).
  etransitivity; [apply zsum_abs|]. replace (R ^ order) with (R ^ Z.of_nat (Z.to_nat order)) by (by rewrite Z2Nat.id).
  rewrite <- (box_pow_total R (Z.to_nat order) 0 (Z.to_nat K)) by lia. rewrite <- zsum_mul. apply zsum_le.
  intros i _. rewrite Z.abs_mul. pose proof (box_pow_nonneg R (Z.to_nat order) i). specialize (Hv (K - 1 - i)). nia.
Qed.

Lemma sinc_emit_ok s h : sinc_after s h -> h <> [] -> Forall sample_ok h -> neg_safe (sinc_sum (ds_factor s) (ds_order s) h) ->
  sinc_emit s = Ok (sinc_filter (ds_factor s) (ds_order s) h).
Proof.
  intros (Hs & _ & Hw) Hh Hok Hsafe. specialize (Hw Hh). pose proof (sw_factor s Hs). pose proof (sw_order s Hs).
  unfold FACTOR_MIN, FACTOR_MAX, ORDER_MIN, ORDER_MAX in *.
  pose proof (sinc_length_pos s Hs). unfold sinc_emit, sinc_filter. rewrite <- (sw_length s Hs).
  pose proof (sw_idx s Hs). assert (sinc_pos s 0 = ds_ring_idx s) as <- by (unfold sinc_pos; case_if; lia).
  pose proof (seeded_ok (ds_kernel_length s) h Hh Hok) as Hsd.
  rewrite init_of_Z, sinc_accum_ok, bind_Ok by (done || lia || by rewrite Hw). rewrite Hw. change (Z.to_nat 0) with 0%nat. rewrite drop_0.
  destruct (nan_free _) eqn:En; [|done]. rewrite Z.add_0_l, (sw_length s Hs) at 1.
  rewrite (sw_length s Hs), sinc_sum_sym by lia. rewrite (sw_norm s Hs).
  assert (0 < ds_factor s ^ ds_order s <= 1000 ^ 3) as Hpow.
  { split; [apply Z.pow_pos_nonneg; lia|]. etransitivity; [apply Z.pow_le_mono_l | apply Z.pow_le_mono_r]; lia. }
  rewrite sinc_round_ok; [done | lia | | done].
  assert (Z.abs (sinc_sum (ds_factor s) (ds_order s) h) <= 2 ^ 43 * ds_factor s ^ ds_order s); [|lia].
  apply sinc_sum_small; [lia | lia |]. intros k. rewrite <- (sw_length s Hs). by apply val_small.
Qed.

(** One more sample: the state holds it, and every [factor] samples the filter's output comes out. *)
Lemma sinc_add_ok s h id x v : sinc_after s h -> sinc_q30 x = Ok v -> len h + 1 < 2 ^ 64 ->
  (h = [] -> id mod ds_factor s = 0) -> Forall sample_ok (h ++ [v]) -> neg_safe (sinc_sum (ds_factor s) (ds_order s) (h ++ [v])) ->
  exists s', sinc_after s' (h ++ [v]) /\ ds_factor s' = ds_factor s /\ ds_order s' = ds_order s
    /\ jsdrv_downsample_sinc_add_f32 (Some s) id x
       = Ok (Some s', if (len h + 1) mod ds_factor s =? 0
                      then Some (sinc_float (sinc_filter (ds_factor s) (ds_order s) (h ++ [v]))) else None).
Proof.
  intros Hs Hx Hn Hid Hok Hsafe. pose proof Hs as (_ & Hc & _).
  destruct (sinc_store_ok s h v Hs Hn) as (s' & E & Hs' & Ef & Eo). exists s'. split_and!; try done.
  cbn [jsdrv_downsample_sinc_add_f32]. rewrite Hx, bind_Ok.
  assert ((ds_sample_count s =? 0) && negb (id mod ds_factor s =? 0) = false) as ->.
  { rewrite Hc. destruct h as [|y h]; [rewrite Hid by done; apply andb_false_r|].
    rewrite len_cons. pose proof (len_nonneg h). by rewrite (proj2 (Z.eqb_neq _ _)) by lia. }
  rewrite E, bind_Ok. pose proof Hs' as (_ & Hc' & _). rewrite Hc', len_app, Ef. change (len [v]) with 1.
  destruct ((len h + 1) mod ds_factor s =? 0); cbn [negb]; [|done].
  rewrite (sinc_emit_ok s' (h ++ [v])), bind_Ok, Ef, Eo; try done; [by destruct h | by rewrite Ef, Eo].
Qed.

(** Samples with consecutive ids. *)
Fixpoint sinc_run (self : option jsdrv_downsample_sinc_s) (sample_id : Z) (xs : list f32)
    : res (option jsdrv_downsample_sinc_s * list f32) :=
  match xs with
  | [] => Ok (self, [])
  | x :: xs =>
      '(self, y) ← jsdrv_downsample_sinc_add_f32 self sample_id x;
      '(self, ys) ← sinc_run self (u64 (sample_id + 1)) xs;
      Ok (self, match y with Some y => y :: ys | None => ys end)
  end.

(** The outputs after [n0 + 1], ..., [n0 + n] samples of [vs]. *)
Definition sinc_outputs (R order : Z) (vs : list Z) (n0 n : nat) : list f32 :=
  (fun m => sinc_float (sinc_filter R order (take m vs))) <$> filter (fun m => Z.of_nat m mod R = 0) (seq (S n0) n).

(** The samples as integers. *)
Definition q30_all (xs : list f32) (vs : list Z) : Prop := Forall2 (fun x v => sinc_q30 x = Ok v) xs vs.

Lemma sinc_run_ok R order : forall xs vs h s id, sinc_after s h -> ds_factor s = R -> ds_order s = order ->
  q30_all xs vs -> len (h ++ vs) < 2 ^ 64 -> (h = [] -> id mod R = 0) -> Forall sample_ok (h ++ vs) ->
  (forall n, (length h < n)%nat -> neg_safe (sinc_sum R order (take n (h ++ vs)))) ->
  exists s', sinc_run (Some s) id xs = Ok (Some s', sinc_outputs R order (h ++ vs) (length h) (length vs))
    /\ sinc_after s' (h ++ vs).
Proof.
  induction xs as [|x xs IH]; intros vs h s id Hs HR HO Hq Hlen Hid Hok Hsafe; inversion Hq as [|? v ? vs' Hx Hq' E1 E2]; subst.
  { exists s. by rewrite app_nil_r. }
  rewrite len_app, len_cons in Hlen. pose proof (len_nonneg vs'). cbn [sinc_run].
  assert (take (S (length h)) (h ++ v :: vs') = h ++ [v]) as Et.
  { rewrite take_app_ge by lia. by replace (S (length h) - length h)%nat with 1%nat by lia. }
  destruct (sinc_add_ok s h id x v) as (s1 & Hs1 & EF & EO & ->); try done; [lia | | |].
  { rewrite <- Et. by apply Forall_take. }
  { rewrite <- Et. apply Hsafe. lia. }
  rewrite bind_Ok. destruct (IH vs' (h ++ [v]) s1 (u64 (id + 1))) as (s2 & -> & Hs2); try done; rewrite <- ?app_assoc; try done.
  { rewrite !len_app, len_cons, len_nil. lia. }
  { by destruct h. }
  { intros n Hn. apply Hsafe. rewrite length_app in Hn. lia. }
  rewrite <- app_assoc in Hs2. exists s2. split; [|done]. rewrite bind_Ok. do 2 f_equal.
  unfold sinc_outputs. cbn [length]. rewrite <- cons_seq, filter_cons, length_app, Nat.add_1_r.
  replace (Z.of_nat (S (length h))) with (len h + 1) by (unfold len; lia).
  destruct (decide _) as [Ed|Ed]; [rewrite (proj2 (Z.eqb_eq _ _) Ed), fmap_cons, Et | rewrite (proj2 (Z.eqb_neq _ _) Ed)]; done.
Qed.

(** A filter stays a filter. *)
Lemma sinc_run_some xs : forall s id s' ys, sinc_run (Some s) id xs = Ok (s', ys) -> exists s1, s' = Some s1.
Proof.
  induction xs as [|x xs IH]; intros s id s' ys; cbn [sinc_run]; [intros [= <- <-]; eauto|].
  intros ([s1 y] & E1 & ([s2 ys2] & E2 & [= <- <-])%res_bind_Ok)%res_bind_Ok.
  assert (exists s3, s1 = Some s3) as [s3 ->]; [|by eapply IH].
  cbn [jsdrv_downsample_sinc_add_f32] in E1. apply res_bind_Ok in E1 as (x64 & _ & E1).
  destruct (_ && _); [injection E1; eauto|]. apply res_bind_Ok in E1 as (s3 & _ & E1).
  destruct (negb _); [injection E1; eauto|]. apply res_bind_Ok in E1 as (y' & _ & E1). injection E1; eauto.
Qed.

(** C6. Every factor from 2 to 1000 and order from 1 to 3 gives a filter, and when it is fed samples with consecutive
    ids from a multiple of the factor on, NaN or at most [2^13] in absolute value, it outputs one sample after
    each [factor] inputs: the convolution of the inputs so far (preceded by copies
    of the first) with the box of [factor] ones to the power of the order, divided by
    [factor ^ order] and rounded to the nearest Q30 value, halves away from zero; or NaN where
    the window has one.  There is no overflow and no access out of bounds.  The sums must avoid the
    negative values that [js220_i128_neg] gets wrong. *)
Theorem sinc_run_convolves factor order id xs vs :
  FACTOR_MIN <= factor <= FACTOR_MAX -> ORDER_MIN <= order <= ORDER_MAX ->
  id mod factor = 0 -> q30_all xs vs -> len vs < 2 ^ 64 -> Forall sample_ok vs ->
  (forall n, (0 < n)%nat -> neg_safe (sinc_sum factor order (take n vs))) ->
  exists s s', jsdrv_downsample_sinc_alloc factor order = Ok (Some s)
    /\ sinc_run (Some s) id xs = Ok (Some s', every factor (fun h => sinc_float (sinc_filter factor order h)) vs)
    /\ sinc_after s' vs.
Proof.
  intros HF HO Hid Hq Hlen Hok Hsafe. destruct (sinc_alloc_ok factor order HF HO) as (s & E & Hs & EF & EO & EC).
  destruct (sinc_run_ok factor order xs vs [] s id) as (s' & Er & Hs'); try done. by exists s, s'.
Qed.

Lemma sinc_run_convolves_witness : exists s s', jsdrv_downsample_sinc_alloc 2 2 = Ok (Some s)
  /\ sinc_run (Some s) 6 (f32_of_Z <$> [4; 8; -4; 4]) = Ok (Some s', f32_of_Z <$> [5; 1])
  /\ sinc_after s' ((fun z => z * 2 ^ 30) <$> [4; 8; -4; 4]).
Proof.
  destruct (sinc_run_convolves 2 2 6 (f32_of_Z <$> [4; 8; -4; 4]) ((fun z => z * 2 ^ 30) <$> [4; 8; -4; 4]))
    as (s & s' & E1 & E2 & E3).
  - done.
  - done.
  - done.
  - repeat constructor.
  - done.
  - apply Forall_fmap. repeat (apply Forall_cons; split; [right; by vm_compute|]). constructor.
  - intros n Hn Hneg. exfalso. revert Hneg. apply Z.le_ngt.
    destruct n as [|[|[|[|n]]]]; [lia | by vm_compute | by vm_compute | by vm_compute |].
    rewrite take_ge by (cbn; lia). by vm_compute.
  - exists s, s'. split_and!; [done | | done]. rewrite E2. by vm_compute.
Defined.

(** Within the documented input range, a filter with factor 128 and order 3 turns the constant -4096 into
    -12288: the accumulator is then [-2^63], whose negation by [js220_i128_neg] is off by [2^64]. *)
Lemma sinc_negative_wrong : exists s s' xs,
  jsdrv_downsample_sinc_alloc 128 3 = Ok (Some s) /\ Forall (fun x => x = f32_of_Z (-4096)) xs
  /\ sinc_run (Some s) 0 xs = Ok (Some s', [f32_of_Z (-12288)]).
Proof.
  destruct (sinc_alloc_ok 128 3) as (s & Es & _); [done | done |].
  assert ((s ← jsdrv_downsample_sinc_alloc 128 3; '(_, ys) ← sinc_run s 0 (replicate 128 (f32_of_Z (-4096))); Ok ys)
          = Ok [f32_of_Z (-12288)]) as H by (by vm_compute).
  rewrite Es, bind_Ok in H. apply res_bind_Ok in H as ([s' ys] & Er & [= ->]).
  destruct (sinc_run_some (replicate 128 (f32_of_Z (-4096))) s 0 s' [f32_of_Z (-12288)] Er) as [s1 ->].
  exists s, s1, (replicate 128 (f32_of_Z (-4096))). split_and!; [exact Es | by apply Forall_replicate | exact Er].
Qed.
