(* ===== verification/Downsample.v ===== *)
(** * Downsampling (src/downsample.c)

    Two ways to decimate one channel: the mean of each group of samples, or a cascade of
    half-band and fifth-band FIR filters, each with its own ring of 128 samples in Q30 fixed point.
    The code computes each filter from its center outwards, using the symmetry of the taps; the
    specification is a cascade of plain convolutions, each followed by taking every [M]-th sample. *)

From S2P Require Import Prelude Sums Float.

Definition BUFFER_SIZE : Z := 128.
Definition BUFFER_MASK : Z := BUFFER_SIZE - 1.
Definition COEF_2_SIZE : Z := 39.
Definition COEF_2_CENTER : Z := Z.shiftr COEF_2_SIZE 1.
Definition COEF_5_SIZE : Z := 89.
Definition COEF_5_CENTER : Z := Z.shiftr COEF_5_SIZE 1.

Definition coef_2 : list Z :=
  [
    754; (-593); (-5030); (-1156); 14685; 11700; (-28090); (-40657); 35742; 96944; (-17241);
    (-182873); (-60232); 289286; 249916; (-395287); (-692918); 474138; 2599603; 3691226; 2599603;
    474138; (-692918); (-395287); 249916; 289286; (-60232); (-182873); (-17241); 96944; 35742;
    (-40657); (-28090); 11700; 14685; (-1156); (-5030); (-593); 754
  ].

Definition coef_5 : list Z :=
  [
    (-259); (-587); (-862); (-823); (-226); 1000; 2617; 4030; 4420; 3040; (-389); (-5338); (-10366);
    (-13391); (-12343); (-6052); 4947; 18034; 28870; 32567; 25431; 6752; (-20049); (-47528);
    (-65874); (-65882); (-42474); 2391; 58598; 109371; 135433; 121005; 60011; (-39474); (-154307);
    (-249777); (-287196); (-233937); (-73317); 188510; 520909; 873334; 1185369; 1399935; 1476364;
    1399935; 1185369; 873334; 520909; 188510; (-73317); (-233937); (-287196); (-249777); (-154307);
    (-39474); 60011; 121005; 135433; 109371; 58598; 2391; (-42474); (-65882); (-65874); (-47528);
    (-20049); 6752; 25431; 32567; 28870; 18034; 4947; (-6052); (-12343); (-13391); (-10366);
    (-5338); (-389); 3040; 4420; 4030; 2617; 1000; (-226); (-823); (-862); (-587); (-259)
  ].

Definition f_scale_in : f32 := f32_lit 1 30.
Definition f_scale_out : f32 := f32_lit 1 (-30).

Record filter_s := mk_filter {
  fl_taps : list Z;             (* [] is NULL *)
  fl_taps_length : Z;           (* uint8_t *)
  fl_taps_center : Z;           (* uint8_t *)
  fl_buffer_idx : Z;            (* uint8_t *)
  fl_buffer : list Z;           (* int64_t[BUFFER_SIZE] *)
  fl_downsample_factor : Z;     (* uint32_t *)
  fl_downsample_count : Z;      (* uint32_t *)
}.

Inductive jsdrv_downsample_mode_e :=
  | JSDRV_DOWNSAMPLE_MODE_AVERAGE
  | JSDRV_DOWNSAMPLE_MODE_FLAT_PASSBAND.

Definition FILTERS : nat := 14.

Record jsdrv_downsample_s := mk_downsample {
  dn_mode : jsdrv_downsample_mode_e;
  dn_sample_rate_in : Z;        (* uint32_t *)
  dn_sample_rate_out : Z;       (* uint32_t *)
  dn_decimate_factor : Z;       (* uint32_t *)
  dn_sample_delay : Z;          (* uint32_t *)
  dn_filters : list filter_s;   (* [14] *)
  dn_sample_count : Z;          (* uint64_t *)
  dn_avg : Z;                   (* int64_t *)
}.

(** The zeroed filter of [jsdrv_alloc_clr]. *)
Definition filter0 : filter_s := mk_filter [] 0 0 0 (replicate (Z.to_nat BUFFER_SIZE) 0) 0 0.

(** ** Allocation *)

(** [while (decimate_factor > 1)]: the filters and the delay, or NULL. *)
Fixpoint alloc_loop (fuel : nat) (filters : list filter_s) (idx decimate_factor sample_delay : Z)
    : res (option (list filter_s * Z)) :=
  if 1 <? decimate_factor then
    match fuel with
    | O => Fault OutOfFuel
    | S fuel =>
        f ← ld filters idx;
        let d := decimate_factor / 5 in
        if Z.land decimate_factor 1 =? 0 then
          let f := mk_filter coef_2 COEF_2_SIZE COEF_2_CENTER (fl_buffer_idx f) (fl_buffer f) 2 (fl_downsample_count f) in
          filters ← st filters idx f;
          if Z.of_nat FILTERS <=? idx + 1 then Ok None
          else alloc_loop fuel filters (idx + 1) (Z.shiftr decimate_factor 1) (u32 (sample_delay + fl_taps_center f))
        else if negb (decimate_factor =? u32 (d * 5)) then Ok None
        else
          let f := mk_filter coef_5 COEF_5_SIZE COEF_5_CENTER (fl_buffer_idx f) (fl_buffer f) 5 (fl_downsample_count f) in
          filters ← st filters idx f;
          if Z.of_nat FILTERS <=? idx + 1 then Ok None
          else alloc_loop fuel filters (idx + 1) d (u32 (sample_delay + fl_taps_center f))
    end
  else Ok (Some (filters, sample_delay)).

(** [None] is NULL; the allocation itself succeeds. *)
Definition jsdrv_downsample_alloc (sample_rate_in sample_rate_out mode : Z) : res (option jsdrv_downsample_s) :=
  if sample_rate_in <? sample_rate_out then Ok None
  else if 0 =? sample_rate_out then Ok None
  else
    let decimate_factor := sample_rate_in / sample_rate_out in
    if negb (u32 (sample_rate_out * decimate_factor) =? sample_rate_in) then Ok None
    else
      let filters := replicate FILTERS filter0 in
      if mode =? 0 then
        Ok (Some (mk_downsample JSDRV_DOWNSAMPLE_MODE_AVERAGE sample_rate_in sample_rate_out decimate_factor
                    (decimate_factor / 2) filters 0 0))
      else if mode =? 1 then
        r ← alloc_loop FILTERS filters 0 decimate_factor 0;
        Ok (match r with
            | None => None
            | Some (filters, sample_delay) =>
                Some (mk_downsample JSDRV_DOWNSAMPLE_MODE_FLAT_PASSBAND sample_rate_in sample_rate_out decimate_factor
                        sample_delay filters 0 0)
            end)
      else Ok None.

(** [downsample_count] is left as it is: the next sample sets it. *)
Definition jsdrv_downsample_clear (self : option jsdrv_downsample_s) : option jsdrv_downsample_s :=
  match self with
  | None => None
  | Some d =>
      let clear f := mk_filter (fl_taps f) (fl_taps_length f) (fl_taps_center f) 0
                       (replicate (Z.to_nat BUFFER_SIZE) 0) (fl_downsample_factor f) (fl_downsample_count f) in
      Some (mk_downsample (dn_mode d) (dn_sample_rate_in d) (dn_sample_rate_out d) (dn_decimate_factor d)
              (dn_sample_delay d) (clear <$> dn_filters d) 0 0)
  end.

Definition jsdrv_downsample_decimate_factor (self : option jsdrv_downsample_s) : Z :=
  match self with None => 1 | Some d => dn_decimate_factor d end.

(** ** Adding a sample *)

Definition set_state (d : jsdrv_downsample_s) (filters : list filter_s) (sample_count avg : Z) : jsdrv_downsample_s :=
  mk_downsample (dn_mode d) (dn_sample_rate_in d) (dn_sample_rate_out d) (dn_decimate_factor d) (dn_sample_delay d)
    filters sample_count avg.

(** The average mode. *)
Definition add_average (self : jsdrv_downsample_s) (sample_id x_in : Z) : res (jsdrv_downsample_s * option Z) :=
  if (dn_sample_count self =? 0) && negb (sample_id mod dn_decimate_factor self =? 0) then Ok (self, None)
  else
    let avg := if dn_sample_count self =? 0 then 0 else dn_avg self in
    avg ← (if negb (I64_MIN =? avg) then
             if I64_MIN =? x_in then Ok I64_MIN else chk_i 64 (avg + x_in)
           else Ok avg);
    let sample_count := u64 (dn_sample_count self + 1) in
    if dn_decimate_factor self <=? sample_count then
      let x_out := if I64_MIN =? avg then I64_MIN else Z.quot avg (i64 sample_count) in
      Ok (set_state self (dn_filters self) 0 0, Some x_out)
    else Ok (set_state self (dn_filters self) sample_count avg, None).

(** Seed the filters in use with a value. *)
Fixpoint seed_filters (filters : list filter_s) (x_in : Z) : list filter_s :=
  match filters with
  | [] => []
  | f :: fs =>
      if fl_taps_length f =? 0 then f :: fs
      else mk_filter (fl_taps f) (fl_taps_length f) (fl_taps_center f) (fl_buffer_idx f)
             (replicate (Z.to_nat BUFFER_SIZE) x_in) (fl_downsample_factor f) (fl_downsample_factor f)
           :: seed_filters fs x_in
  end.

(** [for (tap_idx = taps_center + 1; tap_idx < taps_length; ++tap_idx)], [n] taps left. *)
Fixpoint fir_loop (n : nat) (f : filter_s) (tap_idx fwd_idx bwd_idx x_feed : Z) : res Z :=
  match n with
  | O => Ok x_feed
  | S n =>
      let fwd_idx := Z.land (u32 (fwd_idx + 1)) BUFFER_MASK in
      let bwd_idx := Z.land (u32 (bwd_idx - 1)) BUFFER_MASK in
      fwd ← ld (fl_buffer f) fwd_idx;
      bwd ← ld (fl_buffer f) bwd_idx;
      if (fwd =? I64_MIN) || (bwd =? I64_MIN) then Ok I64_MIN
      else
        x_sum ← chk_i 64 (fwd + bwd);
        tap ← ld (fl_taps f) tap_idx;
        p ← chk_i 64 (x_sum * tap);
        x_feed ← chk_i 64 (x_feed + p);
        fir_loop n f (tap_idx + 1) fwd_idx bwd_idx x_feed
  end.

(** The filter sample, centered [taps_center] before [buffer_idx]. *)
Definition fir (f : filter_s) (buffer_idx : Z) : res Z :=
  let fwd_idx := Z.land (u32 (buffer_idx - fl_taps_center f)) BUFFER_MASK in
  c ← ld (fl_buffer f) fwd_idx;
  x_feed ←
    (if c =? I64_MIN then Ok I64_MIN
     else
       tap ← ld (fl_taps f) (fl_taps_center f);
       x_feed ← chk_i 64 (tap * c);
       fir_loop (Z.to_nat (fl_taps_length f - (fl_taps_center f + 1))) f (fl_taps_center f + 1) fwd_idx fwd_idx x_feed);
  Ok (if negb (x_feed =? I64_MIN) then Z.shiftr x_feed 23 else x_feed).

(** One sample into one filter, and its output when it has one. *)
Definition filter_step (f : filter_s) (x_feed : Z) : res (filter_s * option Z) :=
  let buffer_idx := fl_buffer_idx f in
  buffer ← st (fl_buffer f) buffer_idx x_feed;
  let f := mk_filter (fl_taps f) (fl_taps_length f) (fl_taps_center f)
             (u8 (Z.land (buffer_idx + 1) BUFFER_MASK)) buffer (fl_downsample_factor f)
             (u32 (fl_downsample_count f - 1)) in
  if fl_downsample_count f =? 0 then
    y ← fir f buffer_idx;
    Ok (mk_filter (fl_taps f) (fl_taps_length f) (fl_taps_center f) (fl_buffer_idx f) (fl_buffer f)
          (fl_downsample_factor f) (fl_downsample_factor f), Some y)
  else Ok (f, None).

(** [for (filter_idx = 0; ...)]: a sample goes on to the next filter when the one before
    has an output; an unused filter ends the cascade. *)
Fixpoint filter_chain (filters : list filter_s) (x_feed : Z) : res (list filter_s * option Z) :=
  match filters with
  | [] => Ok ([], None)
  | f :: fs =>
      if fl_taps_length f =? 0 then Ok (f :: fs, Some x_feed)
      else
        '(f, y) ← filter_step f x_feed;
        match y with
        | None => Ok (f :: fs, None)
        | Some y => '(fs, x_out) ← filter_chain fs y; Ok (f :: fs, x_out)
        end
  end.

(** The flat passband mode. *)
Definition add_flat (self : jsdrv_downsample_s) (sample_id x_in : Z) : res (jsdrv_downsample_s * option Z) :=
  if (dn_sample_count self =? 0) && negb (sample_id mod dn_decimate_factor self =? 0) then Ok (self, None)
  else
    let filters := if dn_sample_count self =? 0 then seed_filters (dn_filters self) x_in else dn_filters self in
    '(filters, x_out) ← filter_chain filters x_in;
    Ok (set_state self filters (u64 (dn_sample_count self + 1)) (dn_avg self), x_out).

Definition jsdrv_downsample_add_i64q30 (self : jsdrv_downsample_s) (sample_id x_in : Z)
    : res (jsdrv_downsample_s * option Z) :=
  match dn_mode self with
  | JSDRV_DOWNSAMPLE_MODE_AVERAGE => add_average self sample_id x_in
  | JSDRV_DOWNSAMPLE_MODE_FLAT_PASSBAND => add_flat self sample_id x_in
  end.

Definition jsdrv_downsample_add_f32 (self : option jsdrv_downsample_s) (sample_id : Z) (x_in : f32)
    : res (option jsdrv_downsample_s * option f32) :=
  match self with
  | None => Ok (None, Some x_in)
  | Some d =>
      x64 ← (if f_is_nan x_in then Ok I64_MIN else f_to_i64 (f32_mul x_in f_scale_in));
      '(d, rv) ← jsdrv_downsample_add_i64q30 d sample_id x64;
      Ok (Some d, match rv with
                  | None => None
                  | Some x64 => Some (if x64 =? I64_MIN then S754_nan else f32_mul (f32_of_Z x64) f_scale_out)
                  end)
  end.

Definition jsdrv_downsample_add_u8 (self : option jsdrv_downsample_s) (sample_id x_in : Z)
    : res (option jsdrv_downsample_s * option Z) :=
  match self with
  | None => Ok (None, Some x_in)
  | Some d =>
      let x64 := Z.shiftl x_in 30 in
      '(d, rv) ← jsdrv_downsample_add_i64q30 d sample_id x64;
      match rv with
      | None => Ok (Some d, None)
      | Some x64 =>
          x64 ← chk_i 64 (x64 + 2 ^ 29);
          Ok (Some d, Some (if x64 <? 0 then 0 else u8 (Z.shiftr x64 30)))
      end
  end.

(** ** One filter *)

(** A sample is NaN, or within a bound. *)
Definition sample_ok (B v : Z) : Prop := v = I64_MIN \/ Z.abs v <= B.

(** An odd number of symmetric taps, which fit in the ring. *)
Record taps_wf (taps : list Z) (c : Z) : Prop := mk_taps_wf {
  tw_len : len taps = 2 * c + 1;
  tw_fit : 0 <= c < BUFFER_SIZE / 2;
  tw_sym : forall t, 0 <= t <= c -> val taps (c - t) = val taps (c + t);
}.

(** The sum of the magnitudes: the gain of the filter at worst, times [2^23]. *)
Definition taps_abs (taps : list Z) : Z := zsum 0 (length taps) (fun k => Z.abs (val taps k)).

(** The convolution of the taps with the newest samples of a window. *)
Definition fir_sum (taps w : list Z) : Z := zsum 0 (length taps) (fun k => val taps k * val w (BUFFER_SIZE - 1 - k)).

(** The output for a window. *)
Definition fir_ref (taps w : list Z) : Z :=
  if nan_free (lastn (len taps) w) then Z.shiftr (fir_sum taps w) 23 else I64_MIN.

(** A sum around the center. *)
Lemma zsum_center c f : 0 <= c ->
  zsum 0 (Z.to_nat (2 * c + 1)) f = f c + zsum 1 (Z.to_nat c) (fun t => f (c + t) + f (c - t)).
Proof.
  intros Hc. replace (Z.to_nat (2 * c + 1)) with (Z.to_nat c + (1 + Z.to_nat c))%nat by lia.
  rewrite !zsum_app. cbn [zsum]. rewrite zsum_plus.
  assert (zsum 0 (Z.to_nat c) f = zsum 1 (Z.to_nat c) (fun t => f (c - t))) as ->.
  { rewrite zsum_rev. replace (1 - 0 - Z.of_nat (Z.to_nat c)) with (1 + - c) by lia. rewrite zsum_shift.
    apply zsum_ext. intros i _. f_equal. lia. }
  assert (zsum (0 + Z.of_nat (Z.to_nat c) + Z.of_nat 1) (Z.to_nat c) f = zsum 1 (Z.to_nat c) (fun t => f (c + t))) as ->.
  { replace (0 + Z.of_nat (Z.to_nat c) + Z.of_nat 1) with (1 + c) by lia. rewrite zsum_shift.
    apply zsum_ext. intros i _. f_equal. lia. }
  replace (0 + Z.of_nat (Z.to_nat c)) with c by lia. lia.
Qed.

(** The code's sum, from the center outwards, is the convolution. *)
Lemma fir_sum_center taps c w : taps_wf taps c ->
  let x t := val w (BUFFER_SIZE - 1 - c + t) in
  fir_sum taps w = val taps c * x 0 + zsum 1 (Z.to_nat c) (fun t => (x t + x (- t)) * val taps (c + t)).
Proof.
  intros [Hl Hf Hs] x. unfold fir_sum. replace (length taps) with (Z.to_nat (2 * c + 1)) by (unfold len in Hl; lia).
  rewrite zsum_center by lia. f_equal; [unfold x; do 2 f_equal; lia|]. apply zsum_ext. intros t Ht.
  rewrite Hs by lia. unfold x. replace (BUFFER_SIZE - 1 - (c + t)) with (BUFFER_SIZE - 1 - c + - t) by lia.
  replace (BUFFER_SIZE - 1 - (c - t)) with (BUFFER_SIZE - 1 - c + t) by lia. lia.
Qed.

Lemma taps_abs_center taps c : taps_wf taps c ->
  taps_abs taps = Z.abs (val taps c) + zsum 1 (Z.to_nat c) (fun t => 2 * Z.abs (val taps (c + t))).
Proof.
  intros [Hl Hf Hs]. unfold taps_abs. replace (length taps) with (Z.to_nat (2 * c + 1)) by (unfold len in Hl; lia).
  rewrite zsum_center by lia. f_equal. apply zsum_ext. intros t Ht. rewrite Hs by lia. lia.
Qed.

Lemma land_buffer_mask z : Z.land z BUFFER_MASK = z mod BUFFER_SIZE.
Proof. change BUFFER_MASK with (Z.ones 7). by rewrite Z.land_ones. Qed.

Lemma buffer_mask_u32 z : Z.land (u32 z) BUFFER_MASK = z mod BUFFER_SIZE.
Proof. rewrite land_buffer_mask. apply Z.mod_mod_divide. by exists (2 ^ 25). Qed.

(** A load around the center of the newest samples. *)
Lemma buffer_at (b : list Z) bi c t : len b = BUFFER_SIZE -> 0 <= bi < BUFFER_SIZE -> 0 <= c < BUFFER_SIZE / 2 -> - c <= t <= c ->
  ld b ((bi - c + t) mod BUFFER_SIZE) = Ok (val (window b ((bi + 1) mod BUFFER_SIZE)) (BUFFER_SIZE - 1 - c + t)).
Proof.
  intros Hb Hbi Hc Ht. change (BUFFER_SIZE / 2) with 64 in Hc.
  pose proof (Z.mod_pos_bound (bi + 1) BUFFER_SIZE ltac:(done)) as Hm.
  pose proof (Z.mod_pos_bound (bi - c + t) BUFFER_SIZE ltac:(done)) as Hm'.
  destruct (ld_in_range b ((bi - c + t) mod BUFFER_SIZE)) as (v & -> & Hv); [lia|]. f_equal. symmetry. apply val_lookup.
  rewrite (window_lookup b _ BUFFER_SIZE) by (unfold BUFFER_SIZE in *; lia). rewrite <- Hv. do 2 f_equal.
  rewrite Z.add_mod_idemp_l by done.
  replace (bi + 1 + (BUFFER_SIZE - 1 - c + t)) with (bi - c + t + 1 * BUFFER_SIZE) by lia. by rewrite Z.mod_add.
Qed.

(** No NaN at the offsets after [t], [n] of them, on both sides. *)
Fixpoint clean (x : Z -> Z) (t : Z) (n : nat) : bool :=
  match n with
  | O => true
  | S n => negb ((x (t + 1) =? I64_MIN) || (x (- (t + 1)) =? I64_MIN)) && clean x (t + 1) n
  end.

Lemma fir_loop_ok f bi c B : taps_wf (fl_taps f) c -> len (fl_buffer f) = BUFFER_SIZE -> 0 <= bi < BUFFER_SIZE ->
  Forall (sample_ok B) (window (fl_buffer f) ((bi + 1) mod BUFFER_SIZE)) -> 0 <= B < 2 ^ 62 ->
  let x t := val (window (fl_buffer f) ((bi + 1) mod BUFFER_SIZE)) (BUFFER_SIZE - 1 - c + t) in
  let tap t := val (fl_taps f) (c + t) in
  forall n t acc, 0 <= t -> t + Z.of_nat n = c -> Z.abs acc + B * zsum (t + 1) n (fun s => 2 * Z.abs (tap s)) < 2 ^ 63 ->
  fir_loop n f (c + (t + 1)) ((bi - c + t) mod BUFFER_SIZE) ((bi - c - t) mod BUFFER_SIZE) acc
  = Ok (if clean x t n then acc + zsum (t + 1) n (fun s => (x s + x (- s)) * tap s) else I64_MIN).
Proof.
  intros Ht Hb Hbi Hw HB x tap. pose proof (tw_fit _ _ Ht) as Hc. pose proof (tw_len _ _ Ht) as Hl.
  assert (forall s, - c <= s <= c -> sample_ok B (x s)) as Hx.
  { intros s Hs. pose proof (buffer_at (fl_buffer f) bi c s Hb Hbi Hc Hs) as E. unfold x. 
    change (BUFFER_SIZE / 2) with 64 in Hc.
    destruct (lookup_lt_is_Some_2 (window (fl_buffer f) ((bi + 1) mod BUFFER_SIZE)) (Z.to_nat (BUFFER_SIZE - 1 - c + s))) as [v Hv].
    { rewrite length_window. unfold len, BUFFER_SIZE in *. lia. }
    rewrite (val_lookup _ _ _ Hv). by eapply Forall_lookup_1. }
  induction n as [|n IH]; intros t acc Ht0 Hn Hacc; cbn [fir_loop clean zsum] in *; [f_equal; lia|].
  rewrite !buffer_mask_u32, Z.add_mod_idemp_l, Zminus_mod_idemp_l by done.
  replace (bi - c + t + 1) with (bi - c + (t + 1)) by lia. replace (bi - c - t - 1) with (bi - c + - (t + 1)) by lia.
  rewrite !buffer_at, !bind_Ok by (done || lia). fold (x (t + 1)) (x (- (t + 1))). case_if; cbn [negb andb]; [done|].
  destruct (Hx (t + 1)) as [Ex1|Ex1]; [lia | congruence|]. destruct (Hx (- (t + 1))) as [Ex2|Ex2]; [lia | congruence|].
  set (s := x (t + 1) + x (- (t + 1))). assert (Z.abs s <= 2 * B) as Hs by lia.
  destruct (ld_in_range (fl_taps f) (c + (t + 1))) as (v & -> & Hv); [lia|].
  assert (tap (t + 1) = v) as <- by (by apply val_lookup).
  assert (Z.abs (s * tap (t + 1)) <= B * (2 * Z.abs (tap (t + 1)))) as Hp by (rewrite Z.abs_mul; nia).
  rewrite Z.mul_add_distr_l in Hacc. set (rest := B * zsum (t + 1 + 1) n _) in Hacc.
  assert (0 <= rest) by (apply Z.mul_nonneg_nonneg; [lia | apply zsum_nonneg; lia]).
  rewrite chk_i_ok, !bind_Ok by width_lia. rewrite chk_i_ok, bind_Ok by width_lia. rewrite chk_i_ok, bind_Ok by width_lia.
  replace (c + (t + 1) + 1) with (c + (t + 1 + 1)) by lia. replace (bi - c + - (t + 1)) with (bi - c - (t + 1)) by lia.
  rewrite IH by (fold rest; lia). f_equal. case_if; [|done]. lia.
Qed.

Lemma clean_iff x n : forall t, clean x t n = true <-> forall s, t < s <= t + Z.of_nat n -> x s <> I64_MIN /\ x (- s) <> I64_MIN.
Proof.
  induction n as [|n IH]; intros t; cbn [clean]; [split; [lia | done]|].
  rewrite andb_true_iff, negb_true_iff, orb_false_iff, !Z.eqb_neq, IH. split.
  - intros [H1 H2] s Hs. destruct (Z.eq_dec s (t + 1)) as [->|]; [done | apply H2; lia].
  - intros H. split; [apply H; lia | intros s Hs; apply H; lia].
Qed.

Lemma nan_free_iff w : nan_free w = true <-> forall i v, w !! i = Some v -> v <> I64_MIN.
Proof.
  unfold nan_free. rewrite forallb_forall. split.
  - intros H i v Hv. specialize (H v). rewrite negb_true_iff, Z.eqb_neq in H. apply H.
    apply list_elem_of_In. by eapply list_elem_of_lookup_2.
  - intros H v Hv. rewrite negb_true_iff, Z.eqb_neq. apply list_elem_of_In, list_elem_of_lookup in Hv as [i Hi]. by eapply H.
Qed.

(** The window has no NaN exactly when the code meets none. *)
Lemma nan_free_clean w c : length w = Z.to_nat BUFFER_SIZE -> 0 <= c < BUFFER_SIZE / 2 ->
  let x t := val w (BUFFER_SIZE - 1 - c + t) in
  nan_free (lastn (2 * c + 1) w) = negb (x 0 =? I64_MIN) && clean x 0 (Z.to_nat c).
Proof.
  intros Hw Hc x. change (BUFFER_SIZE / 2) with 64 in Hc. unfold BUFFER_SIZE in *.
  assert (forall s, - c <= s <= c -> lastn (2 * c + 1) w !! Z.to_nat (c + s) = Some (x s)) as Hx.
  { intros s Hs. unfold lastn, x, val. rewrite lookup_drop.
    replace (length w - Z.to_nat (2 * c + 1) + Z.to_nat (c + s))%nat with (Z.to_nat (128 - 1 - c + s)) by lia.
    destruct (lookup_lt_is_Some_2 w (Z.to_nat (128 - 1 - c + s))) as [v ->]; [lia | done]. }
  apply Bool.eq_iff_eq_true. rewrite andb_true_iff, negb_true_iff, Z.eqb_neq, clean_iff, nan_free_iff. split.
  - intros H. split; [eapply H, Hx; lia|]. intros s Hs. split; eapply H, Hx; lia.
  - intros [H0 H] i v Hv. assert (Z.of_nat i < 2 * c + 1) as Hi.
    { apply lookup_lt_Some in Hv. unfold lastn in Hv. rewrite length_drop in Hv. lia. }
    assert (v = x (Z.of_nat i - c)) as ->.
    { specialize (Hx (Z.of_nat i - c) ltac:(lia)). replace (Z.to_nat (c + (Z.of_nat i - c))) with i in Hx by lia. congruence. }
    destruct (Z.lt_trichotomy (Z.of_nat i - c) 0) as [Hlt|[->|Hgt]]; [|done|apply H; lia].
    replace (Z.of_nat i - c) with (- (c - Z.of_nat i)) by lia. apply H. lia.
Qed.

(** A filter in use. *)
Record filter_wf (f : filter_s) : Prop := mk_filter_wf {
  fw_taps : taps_wf (fl_taps f) (fl_taps_center f);
  fw_length : fl_taps_length f = len (fl_taps f);
  fw_buffer : len (fl_buffer f) = BUFFER_SIZE;
  fw_idx : 0 <= fl_buffer_idx f < BUFFER_SIZE;
  fw_factor : 0 < fl_downsample_factor f < 2 ^ 32;
}.

Lemma val_in w k B : Forall (sample_ok B) w -> 0 <= k < len w -> sample_ok B (val w k).
Proof.
  intros Hw Hk. destruct (lookup_lt_is_Some_2 w (Z.to_nat k)) as [v Hv]; [unfold len in Hk; lia|].
  rewrite (val_lookup _ _ _ Hv). by eapply Forall_lookup_1.
Qed.

Lemma fir_sum_small taps w B : Forall (sample_ok B) w -> len taps <= BUFFER_SIZE -> length w = Z.to_nat BUFFER_SIZE ->
  nan_free (lastn (len taps) w) = true -> Z.abs (fir_sum taps w) <= B * taps_abs taps.
Proof.
  intros Hw Ht Hl Hn. apply zsum_weighted. intros k Hk. unfold len, BUFFER_SIZE in *.
  destruct (val_in w (128 - 1 - k) B) as [E|]; [done | unfold len; lia | | done].
  exfalso. rewrite nan_free_iff in Hn. apply (Hn (Z.to_nat (Z.of_nat (length taps) - 1 - k)) I64_MIN); [|done].
  unfold lastn. rewrite lookup_drop, <- E. unfold val.
  replace (length w - Z.to_nat (Z.of_nat (length taps)) + Z.to_nat (Z.of_nat (length taps) - 1 - k))%nat
    with (Z.to_nat (128 - 1 - k)) by lia.
  by destruct (lookup_lt_is_Some_2 w (Z.to_nat (128 - 1 - k))) as [v ->]; [lia|].
Qed.

(** The code computes the convolution, or NaN where the window has one, without overflow. *)
Lemma fir_ok f bi B : filter_wf f -> 0 <= bi < BUFFER_SIZE -> 0 <= B < 2 ^ 62 -> B * taps_abs (fl_taps f) < 2 ^ 63 ->
  let w := window (fl_buffer f) ((bi + 1) mod BUFFER_SIZE) in
  Forall (sample_ok B) w -> fir f bi = Ok (fir_ref (fl_taps f) w).
Proof.
  intros Hf Hbi HB Habs w Hw. pose proof (fw_taps f Hf) as Ht. pose proof (tw_fit _ _ Ht) as Hc. pose proof (tw_len _ _ Ht) as Hl.
  pose proof (fw_buffer f Hf) as Hb. set (c := fl_taps_center f) in *.
  assert (length w = Z.to_nat BUFFER_SIZE) as Hlw by (unfold w; rewrite length_window; unfold len in Hb; lia).
  assert (nan_free (lastn (len (fl_taps f)) w) = true -> Z.abs (fir_sum (fl_taps f) w) < 2 ^ 63) as Hsmall.
  { intros Hn. change (BUFFER_SIZE / 2) with 64 in Hc.
    pose proof (fir_sum_small (fl_taps f) w B Hw ltac:(unfold BUFFER_SIZE; lia) Hlw Hn). lia. }
  unfold fir, fir_ref. fold c. rewrite buffer_mask_u32. replace (bi - c) with (bi - c + 0) by lia.
  rewrite buffer_at, bind_Ok by (done || lia). fold w. revert Hsmall. rewrite Hl, nan_free_clean by done.
  rewrite (taps_abs_center _ c Ht), Z.mul_add_distr_l in Habs. rewrite (fir_sum_center _ c w Ht).
  set (x := fun t => val w (BUFFER_SIZE - 1 - c + t)). fold (x 0). intros Hsmall.
  assert (sample_ok B (x 0)) as Hx0.
  { apply val_in; [done|]. change (BUFFER_SIZE / 2) with 64 in Hc. unfold len, BUFFER_SIZE in *. lia. }
  destruct (x 0 =? I64_MIN) eqn:E0; bool_facts; cbn [negb andb] in *; [done|]. destruct Hx0 as [|Hx0]; [done|].
  destruct (ld_in_range (fl_taps f) c) as (v & -> & Hv); [lia|]. rewrite bind_Ok. rewrite (val_lookup _ _ _ Hv) in *.
  set (rest := B * zsum 1 (Z.to_nat c) _) in Habs.
  assert (0 <= rest) by (apply Z.mul_nonneg_nonneg; [lia | apply zsum_nonneg; lia]).
  assert (Z.abs (v * x 0) <= B * Z.abs v) by (rewrite Z.abs_mul; nia).
  rewrite chk_i_ok, bind_Ok by width_lia. rewrite (fw_length f Hf), Hl.
  replace (Z.to_nat (2 * c + 1 - (c + 1))) with (Z.to_nat c) by lia.
  pose proof (fir_loop_ok f bi c B Ht Hb Hbi Hw HB (Z.to_nat c) 0 (v * x 0)) as Eloop. fold w x in Eloop.
  change (0 + 1) with 1 in Eloop. fold rest in Eloop.
  replace (bi - c - 0) with (bi - c + 0) in Eloop by lia. rewrite Eloop by lia. rewrite bind_Ok.
  destruct (clean x 0 (Z.to_nat c)); [|done]. rewrite (proj2 (Z.eqb_neq _ _)); [done|].
  match goal with |- ?a <> _ => assert (Z.abs a < 2 ^ 63) by exact (Hsmall eq_refl) end. lia.
Qed.

(** ** Filters and their histories *)

(** The output of a filter that was seeded with [x0] and then fed [h]. *)
Definition fir_out (taps : list Z) (x0 : Z) (h : list Z) : Z := fir_ref taps (history BUFFER_SIZE x0 h).

(** Filter, then keep every [M]-th sample. *)
Definition decimate (taps : list Z) (M x0 : Z) (h : list Z) : list Z := every M (fir_out taps x0) h.

(** [f] has taken the samples [h] since it was seeded with [x0]. *)
Definition filter_after (f : filter_s) (taps : list Z) (M x0 : Z) (h : list Z) : Prop :=
  filter_wf f /\ fl_taps f = taps /\ fl_downsample_factor f = M
  /\ window (fl_buffer f) (fl_buffer_idx f) = history BUFFER_SIZE x0 h
  /\ fl_downsample_count f = M - len h mod M.

Lemma history_ok K B x0 h : sample_ok B x0 -> Forall (sample_ok B) h -> Forall (sample_ok B) (history K x0 h).
Proof. intros H0 H. unfold history, lastn. apply Forall_drop, Forall_app. split; [by apply Forall_replicate | done]. Qed.

Lemma filter_step_ok f taps M x0 h x B : filter_after f taps M x0 h -> sample_ok B x0 -> Forall (sample_ok B) (h ++ [x]) ->
  0 <= B < 2 ^ 62 -> B * taps_abs taps < 2 ^ 63 ->
  exists f', filter_step f x = Ok (f', if (len h + 1) mod M =? 0 then Some (fir_out taps x0 (h ++ [x])) else None)
    /\ filter_after f' taps M x0 (h ++ [x]).
Proof.
  intros (Hf & <- & <- & Hw & Hc) H0 Hh HB Habs. pose proof (fw_idx f Hf) as Hi. pose proof (fw_buffer f Hf) as Hb.
  pose proof (fw_factor f Hf) as HM. set (M := fl_downsample_factor f) in *.
  pose proof (Z.mod_pos_bound (len h) M ltac:(lia)) as Hm.
  unfold filter_step. destruct (st (fl_buffer f) (fl_buffer_idx f) x) as [b|] eqn:E; [|rewrite st_ok in E by lia; done].
  rewrite bind_Ok. cbv zeta. cbn [fl_downsample_count fl_taps fl_taps_length fl_taps_center fl_buffer_idx fl_buffer fl_downsample_factor].
  assert (len b = BUFFER_SIZE) as Hb' by (rewrite st_ok in E by lia; injection E as <-; by rewrite len_insert).
  set (idx := (fl_buffer_idx f + 1) mod BUFFER_SIZE).
  assert (u8 (Z.land (fl_buffer_idx f + 1) BUFFER_MASK) = idx) as ->.
  { rewrite land_buffer_mask. apply uwrap_small. pose proof (Z.mod_pos_bound (fl_buffer_idx f + 1) BUFFER_SIZE ltac:(done)).
    unfold is_u, BUFFER_SIZE in *. lia. }
  assert (window b idx = history BUFFER_SIZE x0 (h ++ [x])) as Hw'.
  { rewrite history_snoc, <- Hw by done. rewrite <- (window_step _ _ _ BUFFER_SIZE b Hb Hi E). f_equal. unfold idx, BUFFER_SIZE in *.
    case_if; div_lia. }
  assert ((len h + 1) mod M = 0 <-> len h mod M = M - 1) as Hend.
  { rewrite <- Z.add_mod_idemp_l by lia. split; intros Hz.
    - destruct (Z.eq_dec (len h mod M) (M - 1)); [done|]. rewrite Z.mod_small in Hz; lia.
    - rewrite Hz, Z.sub_add. apply Z.mod_same. lia. }
  rewrite Hc, uwrap_small by (unfold is_u; lia).
  assert (forall n, filter_wf (mk_filter (fl_taps f) (fl_taps_length f) (fl_taps_center f) idx b M n)) as Hwf.
  { intros n. pose proof (Z.mod_pos_bound (fl_buffer_idx f + 1) BUFFER_SIZE ltac:(done)). by destruct Hf. }
  destruct (Z.eq_dec (len h mod M) (M - 1)) as [He|He].
  - rewrite (proj2 (Z.eqb_eq ((len h + 1) mod M) 0)) by (by apply Hend). rewrite (proj2 (Z.eqb_eq _ 0)) by lia.
    rewrite (fir_ok (mk_filter (fl_taps f) (fl_taps_length f) (fl_taps_center f) idx b M (M - len h mod M - 1)) _ B), bind_Ok; try done.
    + eexists. split; [unfold fir_out; by rewrite <- Hw'|]. split_and!; try done; try apply Hwf. cbn. fold M. rewrite len_app.
      change (len [x]) with 1. rewrite (proj2 Hend He). lia.
    + cbn. fold idx. rewrite Hw'. by apply history_ok.
  - rewrite (proj2 (Z.eqb_neq ((len h + 1) mod M) 0)) by (by rewrite Hend). rewrite (proj2 (Z.eqb_neq _ 0)) by lia.
    eexists. split; [done|]. split_and!; try done; try apply Hwf. cbn. fold M. rewrite len_app. change (len [x]) with 1.
    rewrite <- (Z.add_mod_idemp_l (len h)), (Z.mod_small (_ + 1)) by lia. lia.
Qed.

(** ** The cascade *)

Definition stage : Type := list Z * Z.   (* taps and decimation *)
Definition stage_2 : stage := (coef_2, 2).
Definition stage_5 : stage := (coef_5, 5).

(** What the cascade computes: each stage decimates the output of the one before; all
    are seeded with the first sample. *)
Fixpoint cascade (x0 : Z) (stages : list stage) (h : list Z) : list Z :=
  match stages with
  | [] => h
  | (taps, M) :: stages => cascade x0 stages (decimate taps M x0 h)
  end.

(** The filters have taken the samples [h]. *)
Fixpoint chain_after (x0 : Z) (fs : list filter_s) (stages : list stage) (h : list Z) : Prop :=
  match fs, stages with
  | f :: fs, (taps, M) :: stages => filter_after f taps M x0 h /\ chain_after x0 fs stages (decimate taps M x0 h)
  | f :: fs, [] => fl_taps_length f = 0
  | [], _ => False
  end.

(** The largest output for inputs of at most [B]. *)
Definition stage_bound (taps : list Z) (B : Z) : Z := B * taps_abs taps / 2 ^ 23 + 1.

(** No stage overflows when the inputs are at most [B]. *)
Fixpoint chain_safe (stages : list stage) (B : Z) : bool :=
  match stages with
  | [] => true
  | (taps, M) :: stages =>
      (B <? 2 ^ 62) && (B * taps_abs taps <? 2 ^ 63) && (B <=? stage_bound taps B) && chain_safe stages (stage_bound taps B)
  end.

Lemma sample_ok_mono B B' v : B <= B' -> sample_ok B v -> sample_ok B' v.
Proof. intros HB [->|H]; [by left | right; lia]. Qed.

(** The output of a stage is NaN or within its bound. *)
Lemma fir_out_ok taps c x0 h B : taps_wf taps c -> sample_ok B x0 -> Forall (sample_ok B) h -> sample_ok (stage_bound taps B) (fir_out taps x0 h).
Proof.
  intros Ht H0 Hh. unfold fir_out, fir_ref. case_if; [right | by left].
  pose proof (tw_len _ _ Ht). pose proof (tw_fit _ _ Ht) as Hc. change (BUFFER_SIZE / 2) with 64 in Hc.
  assert (Z.abs (fir_sum taps (history BUFFER_SIZE x0 h)) <= B * taps_abs taps) as Hs.
  { apply fir_sum_small; [by apply history_ok | unfold BUFFER_SIZE; lia | apply length_history | done]. }
  rewrite Z.shiftr_div_pow2 by lia. unfold stage_bound. change (2 ^ 23) with 8388608. div_lia.
Qed.

Lemma decimate_ok taps c M x0 h B : taps_wf taps c -> sample_ok B x0 -> Forall (sample_ok B) h ->
  Forall (sample_ok (stage_bound taps B)) (decimate taps M x0 h).
Proof.
  intros Ht H0 Hh. apply every_Forall. intros n. eapply fir_out_ok; [done | done | by apply Forall_take].
Qed.

(** One sample into the cascade. *)
Lemma filter_chain_ok x0 x stages : forall fs h B, chain_after x0 fs stages h -> chain_safe stages B = true -> 0 <= B ->
  sample_ok B x0 -> Forall (sample_ok B) (h ++ [x]) ->
  exists fs' out, filter_chain fs x = Ok (fs', out) /\ chain_after x0 fs' stages (h ++ [x])
    /\ cascade x0 stages (h ++ [x]) = cascade x0 stages h ++ option_list out.
Proof.
  revert x. induction stages as [|[taps M] stages IH]; intros x [|f fs] h B Hc Hs HB H0 Hh; cbn [chain_after chain_safe filter_chain cascade] in *;
    try done.
  { rewrite (proj2 (Z.eqb_eq _ _) Hc). eauto. }
  destruct Hc as [Hf Hc]. bool_facts. pose proof Hf as (Hwf & Et & _). pose proof (fw_taps f Hwf) as Ht. rewrite Et in Ht.
  rewrite (proj2 (Z.eqb_neq _ 0)) by (rewrite (fw_length f Hwf), Et, (tw_len _ _ Ht); pose proof (tw_fit _ _ Ht); lia).
  destruct (filter_step_ok f taps M x0 h x B) as (f' & -> & Hf'); try done. rewrite bind_Ok. unfold decimate. rewrite every_snoc. cbv zeta.
  destruct ((len h + 1) mod M =? 0) eqn:E.
  - destruct (IH (fir_out taps x0 (h ++ [x])) fs (decimate taps M x0 h) (stage_bound taps B)) as (fs' & out & -> & Hc' & Ho); try done.
    + lia.
    + by eapply sample_ok_mono.
    + apply Forall_app in Hh as Hh'. apply Forall_app. split; [eapply decimate_ok; naive_solver|].
      apply Forall_singleton. by eapply fir_out_ok.
    + rewrite bind_Ok. exists (f' :: fs'), out. split_and!; try done. cbn [chain_after]. unfold decimate. by rewrite every_snoc, E.
  - rewrite app_nil_r. exists (f' :: fs), None. split_and!; try done; [|by rewrite app_nil_r].
    cbn [chain_after]. unfold decimate. by rewrite every_snoc, E, app_nil_r.
Qed.

(** Filters that wait for their first sample. *)
Fixpoint chain_fresh (fs : list filter_s) (stages : list stage) : Prop :=
  match fs, stages with
  | f :: fs, (taps, M) :: stages => filter_wf f /\ fl_taps f = taps /\ fl_downsample_factor f = M /\ chain_fresh fs stages
  | f :: fs, [] => fl_taps_length f = 0
  | [], _ => False
  end.

Lemma window_replicate {A} n (x : A) idx : window (replicate n x) idx = replicate n x.
Proof. unfold window. rewrite drop_replicate, take_replicate, <- replicate_add. f_equal. lia. Qed.

Lemma seed_filters_ok x stages : forall fs, chain_fresh fs stages -> chain_after x (seed_filters fs x) stages [].
Proof.
  induction stages as [|[taps M] stages IH]; intros [|f fs]; cbn [chain_fresh chain_after seed_filters]; try done.
  { intros Hf. rewrite (proj2 (Z.eqb_eq _ _) Hf). done. }
  intros (Hf & Et & EM & Hfs). pose proof (fw_taps f Hf) as Ht. pose proof (tw_len _ _ Ht). pose proof (tw_fit _ _ Ht).
  rewrite (proj2 (Z.eqb_neq _ 0)) by (rewrite (fw_length f Hf); lia). cbn [chain_after]. split; [|by apply IH].
  split_and!; try done.
  - by destruct Hf.
  - cbn. by rewrite window_replicate, history_nil.
  - cbn. rewrite Z.mod_0_l; [lia|]. rewrite <- EM. pose proof (fw_factor f Hf). lia.
Qed.

(** ** Allocation *)

Definition filter_of (s : stage) : filter_s :=
  mk_filter s.1 (len s.1) (len s.1 / 2) 0 (replicate (Z.to_nat BUFFER_SIZE) 0) s.2 0.

(** The symmetry of taps, decided. *)
Definition taps_check (taps : list Z) : bool :=
  let c := len taps / 2 in
  (len taps =? 2 * c + 1) && (c <? BUFFER_SIZE / 2)
  && forallb (fun t => val taps (c - Z.of_nat t) =? val taps (c + Z.of_nat t)) (seq 0 (S (Z.to_nat c))).

Lemma taps_check_ok taps : taps_check taps = true -> taps_wf taps (len taps / 2).
Proof.
  unfold taps_check. intros H. bool_facts. pose proof (len_nonneg taps). constructor; [done | lia |].
  intros t Ht. match goal with H : forallb _ _ = true |- _ => rewrite forallb_forall in H; specialize (H (Z.to_nat t)) end.
  rewrite Z2Nat.id, Z.eqb_eq in * by lia.
  match goal with H : In _ _ -> _ |- _ => apply H end. apply in_seq. lia.
Qed.

Lemma filter_of_wf s : s = stage_2 \/ s = stage_5 -> filter_wf (filter_of s).
Proof.
  intros [-> | ->]; (constructor; [apply taps_check_ok; by vm_compute | done | done | done | done]).
Qed.

Lemma filters_fresh stages k : Forall (fun s => s = stage_2 \/ s = stage_5) stages ->
  chain_fresh ((filter_of <$> stages) ++ replicate (S k) filter0) stages.
Proof.
  induction 1 as [|[taps M] stages Hs Hst IH]; [done|]. cbn [fmap list_fmap app chain_fresh].
  split_and!; [by apply filter_of_wf | done | done | exact IH].
Qed.

(** [a] halvings, then [b] divisions by five. *)
Definition stages_of (a b : nat) : list stage := replicate a stage_2 ++ replicate b stage_5.

Lemma length_stages_of a b : length (stages_of a b) = (a + b)%nat.
Proof. unfold stages_of. by rewrite length_app, !length_replicate. Qed.

Lemma land_one d : Z.land d 1 = if Z.odd d then 1 else 0.
Proof. rewrite <- Zmod_odd. apply (Z.land_ones d 1). lia. Qed.

(** One pass of the loop. *)
Lemma alloc_loop_step fuel used d delay s d' : (length used + S fuel = FILTERS)%nat -> (0 < fuel)%nat -> 0 < d' ->
  (s = stage_2 /\ d = 2 * d') \/ (s = stage_5 /\ d = 5 * d' /\ Z.odd d = true /\ d < 2 ^ 32) ->
  alloc_loop (S fuel) (used ++ replicate (S fuel) filter0) (len used) d delay
  = alloc_loop fuel ((used ++ [filter_of s]) ++ replicate fuel filter0) (len (used ++ [filter_of s])) d'
      (u32 (delay + fl_taps_center (filter_of s))).
Proof.
  intros Hu Hf Hd' Hs. cbn [alloc_loop]. rewrite (proj2 (Z.ltb_lt _ _)) by lia.
  assert (ld (used ++ replicate (S fuel) filter0) (len used) = Ok filter0) as ->.
  { apply ld_ok; [apply len_nonneg|]. unfold len. rewrite lookup_app_r by lia. by rewrite Nat2Z.id, Nat.sub_diag. }
  rewrite bind_Ok, len_app. change (len [filter_of s]) with 1. cbn [replicate]. rewrite !st_middle, !bind_Ok by done. unfold len at 1 3.
  rewrite (proj2 (Z.leb_gt _ _)) by (unfold len, FILTERS in *; lia).
  rewrite <- app_assoc, land_one.
  destruct Hs as [[-> ->] | (-> & -> & Ho & Hmax)].
  - rewrite Z.odd_mul, Z.odd_2, andb_false_l, Z.eqb_refl. rewrite Z.shiftr_div_pow2, Z.pow_1_r, Z.mul_comm, Z.div_mul by lia. done.
  - rewrite Ho. cbn [Z.eqb]. rewrite (Z.mul_comm 5), Z.div_mul, uwrap_small, Z.eqb_refl by (unfold is_u; lia). done.
Qed.

Lemma alloc_loop_ok : forall fuel a b used delay, (length used + fuel = FILTERS)%nat -> (a + b < fuel)%nat ->
  exists delay', alloc_loop fuel (used ++ replicate fuel filter0) (len used) (2 ^ Z.of_nat a * 5 ^ Z.of_nat b) delay
    = Ok (Some (used ++ (filter_of <$> stages_of a b) ++ replicate (fuel - (a + b)) filter0, delay')).
Proof.
  induction fuel as [|fuel IH]; intros a b used delay Hu Hab; [lia|].
  assert (0 < 2 ^ Z.of_nat a) by (apply Z.pow_pos_nonneg; lia). assert (0 < 5 ^ Z.of_nat b) by (apply Z.pow_pos_nonneg; lia).
  assert (forall s a' b', s = stage_2 \/ s = stage_5 -> (S (a' + b') = a + b)%nat -> stages_of a b = s :: stages_of a' b' ->
    alloc_loop (S fuel) (used ++ replicate (S fuel) filter0) (len used) (2 ^ Z.of_nat a * 5 ^ Z.of_nat b) delay
    = alloc_loop fuel ((used ++ [filter_of s]) ++ replicate fuel filter0) (len (used ++ [filter_of s]))
        (2 ^ Z.of_nat a' * 5 ^ Z.of_nat b') (u32 (delay + fl_taps_center (filter_of s))) -> 
    exists delay', alloc_loop (S fuel) (used ++ replicate (S fuel) filter0) (len used) (2 ^ Z.of_nat a * 5 ^ Z.of_nat b) delay
    = Ok (Some (used ++ (filter_of <$> stages_of a b) ++ replicate (S fuel - (a + b)) filter0, delay'))) as Hnext.
  { intros s a' b' Hs Hn Es ->.
    destruct (IH a' b' (used ++ [filter_of s]) (u32 (delay + fl_taps_center (filter_of s)))) as [delay' ->];
      [rewrite length_app; cbn; lia | lia |].
    exists delay'. rewrite Es, fmap_cons, <- app_assoc. by replace (S fuel - (a + b))%nat with (fuel - (a' + b'))%nat by lia. }
  destruct a as [|a]; [destruct b as [|b]|].
  - exists delay. done.
  - apply (Hnext stage_5 0%nat b); [by right | lia | done |]. rewrite !Z.mul_1_l. apply alloc_loop_step; [done | lia | apply Z.pow_pos_nonneg; lia |].
    right. rewrite Nat2Z.inj_succ, Z.pow_succ_r in * by lia. split_and!; try done.
    + rewrite Z.odd_mul. destruct b; [done|]. by rewrite Z.odd_pow by lia.
    + assert (5 ^ Z.of_nat b <= 5 ^ 12) by (apply Z.pow_le_mono_r; unfold FILTERS in *; lia). lia.
  - apply (Hnext stage_2 a b); [by left | lia | done |]. apply alloc_loop_step; [done | lia | |].
    + assert (0 < 2 ^ Z.of_nat a) by (apply Z.pow_pos_nonneg; lia). lia.
    + left. split; [done|]. rewrite Nat2Z.inj_succ, Z.pow_succ_r by lia. lia.
Qed.

(** The loop finds such factors, or gives up. *)
Lemma alloc_loop_only : forall fuel filters idx d delay r, 1 <= d < 2 ^ 32 -> 0 <= idx < Z.of_nat FILTERS ->
  alloc_loop fuel filters idx d delay = Ok (Some r) ->
  exists a b : nat, d = 2 ^ Z.of_nat a * 5 ^ Z.of_nat b /\ Z.of_nat (a + b) + idx < Z.of_nat FILTERS.
Proof.
  induction fuel as [|fuel IH]; intros filters idx d delay r Hd Hi; cbn [alloc_loop]; case_if; try done.
  1, 3: intros _; exists 0%nat, 0%nat; cbn; split; lia.
  intros (f & _ & H)%res_bind_Ok. revert H. rewrite land_one. pose proof (Zmod_odd d) as Hodd. destruct (Z.odd d); cbn [Z.eqb].
  - case_if; [done|]. assert (d = 5 * (d / 5)) as Ed by (rewrite uwrap_small in E0 by (unfold is_u; div_lia); lia).
    intros (fs & _ & H)%res_bind_Ok. case_if_in H; [done|].
    apply IH in H as (a & b & Hab & Hn); [|div_lia | lia]. exists a, (S b). split; [|lia].
    rewrite Ed, Hab, (Nat2Z.inj_succ b), Z.pow_succ_r by lia. lia.
  - assert (d = 2 * Z.shiftr d 1) as Ed by (rewrite Z.shiftr_div_pow2, Z.pow_1_r by lia; div_lia).
    intros (fs & _ & H)%res_bind_Ok. case_if_in H; [done|].
    apply IH in H as (a & b & Hab & Hn); [|lia | lia]. exists (S a), b. split; [|lia].
    rewrite Ed, Hab, (Nat2Z.inj_succ a), Z.pow_succ_r by lia. lia.
Qed.

(** The flat passband filter for [2^a * 5^b]. *)
Lemma alloc_flat_ok a b rate_out : (a + b < FILTERS)%nat -> 0 < rate_out -> rate_out * (2 ^ Z.of_nat a * 5 ^ Z.of_nat b) < 2 ^ 32 ->
  exists d, jsdrv_downsample_alloc (rate_out * (2 ^ Z.of_nat a * 5 ^ Z.of_nat b)) rate_out 1 = Ok (Some d)
    /\ dn_mode d = JSDRV_DOWNSAMPLE_MODE_FLAT_PASSBAND /\ dn_decimate_factor d = 2 ^ Z.of_nat a * 5 ^ Z.of_nat b
    /\ dn_sample_count d = 0 /\ chain_fresh (dn_filters d) (stages_of a b).
Proof.
  intros Hab Hr Hmax. set (M := 2 ^ Z.of_nat a * 5 ^ Z.of_nat b) in *.
  assert (0 < M) by (apply Z.mul_pos_pos; apply Z.pow_pos_nonneg; lia).
  unfold jsdrv_downsample_alloc. rewrite (proj2 (Z.ltb_ge _ _)), (proj2 (Z.eqb_neq 0 _)) by nia.
  rewrite (Z.mul_comm rate_out M), Z.div_mul by lia. cbv zeta. rewrite (Z.mul_comm rate_out M), uwrap_small, Z.eqb_refl by (unfold is_u; lia).
  cbn [negb Z.eqb Pos.eqb]. destruct (alloc_loop_ok FILTERS a b [] 0) as (delay & E); [done | done |]. rewrite app_nil_l, @len_nil in E.
  fold M in E. rewrite E, bind_Ok. eexists. split; [done|]. split_and!; try done.
  cbn [dn_filters]. rewrite app_nil_l. replace (FILTERS - (a + b))%nat with (S (FILTERS - (a + b) - 1)) by lia. apply filters_fresh.
  apply Forall_app. split; apply Forall_replicate; eauto.
Qed.

(** [jsdrv_downsample_alloc] in the flat passband mode accepts exactly the rate pairs whose ratio is a product of at
    most 13 factors 2 and 5. *)
Lemma downsample_alloc_iff rate_in rate_out : 0 <= rate_in < 2 ^ 32 -> 0 <= rate_out < 2 ^ 32 ->
  (exists d, jsdrv_downsample_alloc rate_in rate_out 1 = Ok (Some d)) <->
  0 < rate_out /\ exists a b : nat, rate_in = rate_out * (2 ^ Z.of_nat a * 5 ^ Z.of_nat b) /\ (a + b <= 13)%nat.
Proof.
  intros Hi Ho. split.
  - intros [d H]. unfold jsdrv_downsample_alloc in H. case_if_in H; [done|]. case_if_in H; [done|]. cbv zeta in H.
    assert (0 < rate_out) by lia. assert (1 <= rate_in / rate_out) by (apply Z.div_le_lower_bound; lia).
    pose proof (Z.mul_div_le rate_in rate_out ltac:(lia)). case_if_in H; [done|].
    rewrite uwrap_small in E1 by (unfold is_u; nia). cbn [Z.eqb Pos.eqb] in H.
    apply res_bind_Ok in H as ([r|] & H & [=]). apply alloc_loop_only in H as (a & b & E2 & Hn); [| nia | done].
    split; [done|]. exists a, b. unfold FILTERS in Hn. split; [by rewrite <- E2 | lia].
  - intros (Hr & a & b & -> & Hab). destruct (alloc_flat_ok a b rate_out) as (d & E & _); [unfold FILTERS; lia | done | lia |].
    by exists d.
Qed.

Lemma downsample_alloc_iff_witness : (exists d, jsdrv_downsample_alloc 2000000 1 1 = Ok (Some d))
  /\ ~ (exists d, jsdrv_downsample_alloc 7 1 1 = Ok (Some d)).
Proof.
  split.
  - apply downsample_alloc_iff; [done | done |]. split; [done|]. exists 7%nat, 6%nat. split; [done | lia].
  - intros [d Hd]. assert (0 < 1 /\ exists a b : nat, 7 = 1 * (2 ^ Z.of_nat a * 5 ^ Z.of_nat b) /\ (a + b <= 13)%nat) as (_ & a & b & E & _).
    { apply downsample_alloc_iff; [done | done | by exists d]. }
    vm_compute in Hd. discriminate Hd.
Defined.

(** ** Runs *)

(** Q30 samples with consecutive ids. *)
Fixpoint downsample_run (d : jsdrv_downsample_s) (sample_id : Z) (vs : list Z) : res (jsdrv_downsample_s * list Z) :=
  match vs with
  | [] => Ok (d, [])
  | v :: vs =>
      '(d, y) ← jsdrv_downsample_add_i64q30 d sample_id v;
      '(d, ys) ← downsample_run d (sample_id + 1) vs;
      Ok (d, option_list y ++ ys)
  end.

(** The state after [h] accepted samples, the first of which was [x0]. *)
Definition flat_after (d : jsdrv_downsample_s) (stages : list stage) (x0 : Z) (h : list Z) : Prop :=
  dn_mode d = JSDRV_DOWNSAMPLE_MODE_FLAT_PASSBAND /\ dn_sample_count d = len h
  /\ if decide (h = []) then chain_fresh (dn_filters d) stages else chain_after x0 (dn_filters d) stages h.

Lemma add_flat_ok d stages x0 h id x B : flat_after d stages x0 h -> (h = [] -> x = x0 /\ id mod dn_decimate_factor d = 0) ->
  chain_safe stages B = true -> 0 <= B -> Forall (sample_ok B) (x0 :: h ++ [x]) -> len h + 1 < 2 ^ 64 ->
  exists d' out, jsdrv_downsample_add_i64q30 d id x = Ok (d', out) /\ flat_after d' stages x0 (h ++ [x])
    /\ cascade x0 stages (h ++ [x]) = cascade x0 stages h ++ option_list out.
Proof.
  intros (Hm & Hc & Hfs) Hid Hsafe HB Hok Hn. unfold jsdrv_downsample_add_i64q30, add_flat. rewrite Hm, Hc.
  inversion Hok as [|? ? Hx0 Hh]; subst. pose proof (len_nonneg h).
  set (fs := if len h =? 0 then seed_filters (dn_filters d) x else dn_filters d).
  assert (chain_after x0 fs stages h /\ (len h =? 0) && negb (id mod dn_decimate_factor d =? 0) = false) as [Hf ->].
  { unfold fs. destruct h as [|y h].
    - destruct Hid as [-> Hid]; [done|]. rewrite @len_nil, Hid. split; [by apply seed_filters_ok | done].
    - rewrite len_cons in *. pose proof (len_nonneg h). rewrite (proj2 (Z.eqb_neq _ 0)) by lia. done. }
  destruct (filter_chain_ok x0 x stages fs h B) as (fs' & out & -> & Hf' & Ho); try done.
  rewrite bind_Ok. exists (set_state d fs' (u64 (len h + 1)) (dn_avg d)), out. split_and!; [done | | done].
  split_and!; [done | |].
  - cbn. rewrite uwrap_small by (unfold is_u; lia). by rewrite len_app.
  - destruct (decide (h ++ [x] = [])) as [E|]; [by destruct h | done].
Qed.

Lemma downsample_run_flat stages x0 B : chain_safe stages B = true -> 0 <= B -> sample_ok B x0 ->
  forall vs h d id, flat_after d stages x0 h -> (h = [] -> head vs = Some x0 /\ id mod dn_decimate_factor d = 0) ->
  Forall (sample_ok B) (h ++ vs) -> len (h ++ vs) < 2 ^ 64 ->
  exists d' ys, downsample_run d id vs = Ok (d', ys) /\ flat_after d' stages x0 (h ++ vs)
    /\ cascade x0 stages (h ++ vs) = cascade x0 stages h ++ ys.
Proof.
  intros Hsafe HB Hx0. induction vs as [|v vs IH]; intros h d id Hd Hid Hok Hn; cbn [downsample_run].
  { exists d, []. by rewrite !app_nil_r. }
  rewrite len_app, len_cons in Hn. pose proof (len_nonneg vs). assert (Forall (sample_ok B) (h ++ [v])) as Hok1.
  { apply Forall_app in Hok as [H1 H2]. apply Forall_app. split; [done|]. inversion H2; subst. by apply Forall_singleton. }
  destruct (add_flat_ok d stages x0 h id v B) as (d1 & out & -> & Hd1 & E1); try done; [| by apply Forall_cons | lia |].
  { intros ->. destruct Hid as [[= <-] Hid]; done. }
  rewrite bind_Ok. destruct (IH (h ++ [v]) d1 (id + 1)) as (d2 & ys & -> & Hd2 & E2); try done;
    rewrite <- ?app_assoc; try done; [by destruct h | rewrite !len_app; change (len [v]) with 1; lia |].
  rewrite <- app_assoc in Hd2, E2. rewrite bind_Ok. exists d2, (option_list out ++ ys). split_and!; try done.
  change (h ++ v :: vs) with (h ++ [v] ++ vs). by rewrite E2, E1, <- app_assoc.
Qed.

(** Every legal cascade is safe for inputs of at most 1.0. *)
Definition safe_check (B : Z) : bool :=
  forallb (fun a => forallb (fun b => (13 <? Z.of_nat (a + b)) || chain_safe (stages_of a b) B) (seq 0 14)) (seq 0 14).

Lemma safe_check_ok B a b : safe_check B = true -> (a + b <= 13)%nat -> chain_safe (stages_of a b) B = true.
Proof.
  unfold safe_check. rewrite forallb_forall. intros H Hab. specialize (H a). rewrite forallb_forall in H.
  assert ((13 <? Z.of_nat (a + b)) || chain_safe (stages_of a b) B = true) as E by (apply H; apply in_seq; lia).
  rewrite (proj2 (Z.ltb_ge _ _)) in E by lia. done.
Qed.

Lemma cascade_nil x0 stages : cascade x0 stages [] = [].
Proof. induction stages as [|[taps M] stages IH]; [done | exact IH]. Qed.

Lemma cascade_len x0 stages : Forall (fun s => s = stage_2 \/ s = stage_5) stages -> forall h,
  len (cascade x0 stages h) = len h / foldr (fun s => Z.mul s.2) 1 stages.
Proof.
  assert (forall l, Forall (fun s => s = stage_2 \/ s = stage_5) l -> 0 < foldr (fun s => Z.mul s.2) 1 l) as Hpos.
  { induction 1 as [|s l [-> | ->] Hl IH]; cbn [foldr stage_2 stage_5 snd]; lia. }
  induction 1 as [|[taps M] stages Hs Hst IH]; intros h; cbn [cascade foldr snd]; [by rewrite Z.div_1_r|].
  assert (0 < M) by (destruct Hs as [[= _ ->] | [= _ ->]]; done). specialize (Hpos _ Hst).
  rewrite IH. unfold decimate. rewrite len_every by done. rewrite Z.div_div by lia. done.
Qed.

Lemma stages_of_factor a b : foldr (fun s => Z.mul s.2) 1 (stages_of a b) = 2 ^ Z.of_nat a * 5 ^ Z.of_nat b.
Proof.
  unfold stages_of. induction a as [|a IH]; cbn [replicate app foldr stage_2 snd].
  - induction b as [|b IH]; [done|]. cbn [replicate foldr stage_5 snd app] in *. rewrite IH, (Nat2Z.inj_succ b), Z.pow_succ_r by lia. lia.
  - rewrite IH, (Nat2Z.inj_succ a), Z.pow_succ_r by lia. lia.
Qed.

(** C3. In the flat passband mode, for every ratio [2^a * 5^b] that is accepted and every input of samples that are NaN or at most 1.0
    in absolute value, whose first id is a multiple of the ratio, the output is that of [a] half-band and then
    [b] fifth-band FIR filters in sequence, each a plain convolution followed by keeping every second or
    fifth sample, all seeded with the first sample; NaN comes out exactly where a window has one.
    There is one output for each ratio-many inputs, and nothing overflows. *)
Theorem downsample_flat_cascade a b rate_out id x0 vs :
  (a + b <= 13)%nat -> 0 < rate_out -> rate_out * (2 ^ Z.of_nat a * 5 ^ Z.of_nat b) < 2 ^ 32 ->
  id mod (2 ^ Z.of_nat a * 5 ^ Z.of_nat b) = 0 -> Forall (sample_ok (2 ^ 30)) (x0 :: vs) -> len (x0 :: vs) < 2 ^ 64 ->
  exists d d', jsdrv_downsample_alloc (rate_out * (2 ^ Z.of_nat a * 5 ^ Z.of_nat b)) rate_out 1 = Ok (Some d)
    /\ downsample_run d id (x0 :: vs) = Ok (d', cascade x0 (stages_of a b) (x0 :: vs))
    /\ len (cascade x0 (stages_of a b) (x0 :: vs)) = len (x0 :: vs) / (2 ^ Z.of_nat a * 5 ^ Z.of_nat b).
Proof.
  intros Hab Hr Hmax Hid Hok Hn. destruct (alloc_flat_ok a b rate_out) as (d & E & Hm & HM & Hc & Hf); [unfold FILTERS; lia | done | done |].
  destruct (downsample_run_flat (stages_of a b) x0 (2 ^ 30)) with (vs := x0 :: vs) (h := @nil Z) (d := d) (id := id)
    as (d' & ys & Er & Hd' & Ec); try done.
  - apply safe_check_ok; [by vm_compute | done].
  - by inversion Hok.
  - intros _. by rewrite HM.
  - exists d, d'. split_and!; [done | |].
    + rewrite app_nil_l, cascade_nil, app_nil_l in Ec. by rewrite Er, Ec.
    + rewrite cascade_len, stages_of_factor; [done|]. apply Forall_app. split; apply Forall_replicate; eauto.
Qed.

Lemma downsample_flat_cascade_witness : exists d d', jsdrv_downsample_alloc 20 2 1 = Ok (Some d)
  /\ downsample_run d 20 (replicate 25 (2 ^ 30)) = Ok (d', [2 ^ 30 + 256; 2 ^ 30 + 256]).
Proof.
  destruct (downsample_flat_cascade 1 1 2 20 (2 ^ 30) (replicate 24 (2 ^ 30))) as (d & d' & E1 & E2 & _);
    [lia | done | done | done | | done |].
  { apply Forall_cons; split; [by right | apply Forall_replicate; by right]. }
  exists d, d'. split; [exact E1|]. change (replicate 25 (2 ^ 30)) with (2 ^ 30 :: replicate 24 (2 ^ 30)). rewrite E2. by vm_compute.
Defined.

(** ** The average mode *)

Definition zsum_list (l : list Z) : Z := foldr Z.add 0 l.

(** The mean of a group, towards zero; NaN when the group has one. *)
Definition mean (l : list Z) : Z := if nan_free l then Z.quot (zsum_list l) (len l) else I64_MIN.

(** The accumulator for the samples of a group so far. *)
Definition partial (g : list Z) : Z := if nan_free g then zsum_list g else I64_MIN.

Lemma zsum_list_app l k : zsum_list (l ++ k) = zsum_list l + zsum_list k.
Proof. unfold zsum_list. induction l as [|x l IH]; cbn; [done|]. lia. Qed.

Lemma nan_free_app l k : nan_free (l ++ k) = nan_free l && nan_free k.
Proof. apply forallb_app. Qed.

Lemma zsum_list_small B g : 0 <= B -> Forall (sample_ok B) g -> nan_free g = true -> Z.abs (zsum_list g) <= B * len g.
Proof.
  intros HB. induction 1 as [|v g Hv Hg IH]; intros Hn; [rewrite @len_nil; cbn; lia|]. cbn [nan_free forallb] in Hn. bool_facts.
  destruct Hv as [|Hv]; [done|]. rewrite len_cons. cbn [zsum_list foldr]. specialize (IH ltac:(done)). unfold zsum_list in IH. lia.
Qed.

(** The state after [h] samples from an aligned id on; the group at hand is the tail of [h]. *)
Definition average_after (d : jsdrv_downsample_s) (h : list Z) : Prop :=
  dn_mode d = JSDRV_DOWNSAMPLE_MODE_AVERAGE /\ 0 < dn_decimate_factor d < 2 ^ 32
  /\ dn_sample_count d = len h mod dn_decimate_factor d
  /\ dn_avg d = partial (lastn (len h mod dn_decimate_factor d) h).

Lemma lastn_snoc {A} k (h : list A) x : 0 <= k -> lastn (k + 1) (h ++ [x]) = lastn k h ++ [x].
Proof.
  intros Hk. unfold lastn. rewrite length_app. cbn [length]. rewrite drop_app_le by lia. do 2 f_equal. lia.
Qed.

Lemma partial_snoc B g x : 0 <= B -> Forall (sample_ok B) (g ++ [x]) -> B * (len g + 1) < 2 ^ 63 ->
  (if negb (I64_MIN =? partial g) then if I64_MIN =? x then Ok I64_MIN else chk_i 64 (partial g + x) else Ok (partial g))
  = Ok (partial (g ++ [x])) /\ ((I64_MIN =? partial (g ++ [x])) = negb (nan_free (g ++ [x]))).
Proof.
  intros HB Hok Hmax. pose proof (len_nonneg g). pose proof Hok as [Hg Hx%Forall_singleton]%Forall_app.
  assert (forall l, Forall (sample_ok B) l -> len l <= len g + 1 -> nan_free l = true -> Z.abs (zsum_list l) < 2 ^ 63) as Hsm.
  { intros l Hl Hlen Hn. pose proof (zsum_list_small B l HB Hl Hn). nia. }
  assert ((I64_MIN =? partial g) = negb (nan_free g)) as ->.
  { unfold partial. destruct (nan_free g) eqn:En; [|done]. specialize (Hsm g Hg ltac:(lia) En). apply Z.eqb_neq. lia. }
  assert ((I64_MIN =? partial (g ++ [x])) = negb (nan_free (g ++ [x]))) as ->.
  { unfold partial. destruct (nan_free (g ++ [x])) eqn:En; [|done].
    specialize (Hsm (g ++ [x]) Hok ltac:(rewrite len_app; change (len [x]) with 1; lia) En). apply Z.eqb_neq. lia. }
  split; [|done]. rewrite negb_involutive. unfold partial. specialize (Hsm (g ++ [x]) Hok). rewrite len_app in Hsm.
  rewrite nan_free_app in *. destruct (nan_free g); [|done]. cbn [andb nan_free forallb] in *. rewrite (Z.eqb_sym x), andb_true_r in *.
  case_if; cbn [negb] in *; [done|]. specialize (Hsm ltac:(change (len [x]) with 1; lia) eq_refl).
  rewrite zsum_list_app in *. cbn [zsum_list foldr] in *. rewrite Z.add_0_r in *. apply chk_i_ok. width_lia.
Qed.

Lemma add_average_ok d h id x B : average_after d h -> (id - len h) mod dn_decimate_factor d = 0 ->
  0 <= B -> Forall (sample_ok B) (h ++ [x]) -> B * dn_decimate_factor d < 2 ^ 63 ->
  exists d', jsdrv_downsample_add_i64q30 d id x
      = Ok (d', if (len h + 1) mod dn_decimate_factor d =? 0 then Some (mean (lastn (dn_decimate_factor d) (h ++ [x]))) else None)
    /\ average_after d' (h ++ [x]) /\ dn_decimate_factor d' = dn_decimate_factor d.
Proof.
  intros (Hm & HM & Hc & Ha) Hid HB Hok Hmax. set (M := dn_decimate_factor d) in *. set (k := len h mod M) in *.
  pose proof (Z.mod_pos_bound (len h) M ltac:(lia)) as Hk. fold k in Hk. pose proof (len_nonneg h).
  set (g := lastn k h). assert (len g = k) as Hg.
  { unfold g, lastn, len. rewrite length_drop. assert (k <= len h) by (apply Z.mod_le; lia). unfold len in *. lia. }
  assert (Forall (sample_ok B) (g ++ [x])) as Hok'.
  { apply Forall_app in Hok as [H1 H2]. apply Forall_app. split; [|done]. unfold g, lastn. by apply Forall_drop. }
  destruct (partial_snoc B g x HB Hok') as [Ep En]; [nia|].
  unfold jsdrv_downsample_add_i64q30, add_average. rewrite Hm, Hc, Ha. fold M k g.
  assert ((k =? 0) && negb (id mod M =? 0) = false) as ->.
  { destruct (Z.eqb_spec k 0) as [Ek|]; [|done]. replace id with (id - len h + len h) by lia.
    rewrite Z.add_mod, Hid, Z.add_0_l, Z.mod_mod by lia. fold k. by rewrite Ek. }
  assert ((if k =? 0 then 0 else partial g) = partial g) as ->.
  { case_if; [|done]. unfold g, lastn. rewrite E, Nat.sub_0_r, drop_all. done. }
  rewrite Ep, bind_Ok. cbv zeta. rewrite uwrap_small by (unfold is_u; lia). rewrite En.
  assert (lastn (k + 1) (h ++ [x]) = g ++ [x]) as El by (apply lastn_snoc; lia).
  destruct (Z.eq_dec (k + 1) M) as [Ek|Ek].
  - assert ((len h + 1) mod M = 0) as Ez by (rewrite <- Z.add_mod_idemp_l by lia; fold k; rewrite Ek; apply Z.mod_same; lia).
    rewrite Ez, (proj2 (Z.leb_le _ _)) by lia. exists (set_state d (dn_filters d) 0 0). split; [|split; [|done]].
    + cbn [Z.eqb]. rewrite <- Ek at 1. rewrite El. unfold mean, partial. rewrite len_app, Hg. change (len [x]) with 1.
      rewrite swrap_small by (done || width_lia). by destruct (nan_free (g ++ [x])).
    + unfold average_after. cbn. fold M. rewrite len_app. change (len [x]) with 1. rewrite Ez. split_and!; try done; try lia.
      unfold lastn. rewrite Nat.sub_0_r, drop_all. done.
  - assert ((len h + 1) mod M = k + 1) as Ez by (rewrite <- Z.add_mod_idemp_l by lia; fold k; apply Z.mod_small; lia).
    rewrite Ez, (proj2 (Z.leb_gt _ _)), (proj2 (Z.eqb_neq _ 0)) by lia. eexists. split; [done|]. split; [|done].
    unfold average_after. cbn. fold M. rewrite len_app. change (len [x]) with 1. rewrite Ez, El. split_and!; done || lia.
Qed.

Lemma downsample_run_average B M : 0 <= B -> B * M < 2 ^ 63 -> forall vs h d id, average_after d h -> dn_decimate_factor d = M ->
  (id - len h) mod M = 0 -> Forall (sample_ok B) (h ++ vs) ->
  exists d' ys, downsample_run d id vs = Ok (d', ys) /\ average_after d' (h ++ vs)
    /\ every M (fun h => mean (lastn M h)) (h ++ vs) = every M (fun h => mean (lastn M h)) h ++ ys.
Proof.
  intros HB Hmax. induction vs as [|v vs IH]; intros h d id Hd HM Hid Hok; cbn [downsample_run].
  { exists d, []. by rewrite !app_nil_r. }
  change (h ++ v :: vs) with (h ++ [v] ++ vs) in *. rewrite app_assoc in Hok |- *.
  destruct (add_average_ok d h id v B) as (d1 & -> & Hd1 & HM1); rewrite ?HM; try done; [by apply Forall_app in Hok as [? _]|].
  rewrite bind_Ok. destruct (IH (h ++ [v]) d1 (id + 1)) as (d2 & ys & -> & Hd2 & E2); try done; [congruence | |].
  { rewrite len_app. change (len [v]) with 1. by replace (id + 1 - (len h + 1)) with (id - len h) by lia. }
  rewrite bind_Ok. eexists d2, _. split_and!; [done | done |]. rewrite E2, every_snoc, <- app_assoc. by case_if.
Qed.

(** C28. In the average mode, with ratio [M] and samples that are NaN or at most [B], [B * M < 2^63], from an id that is a multiple
    of [M] on, the output after each [M] samples is their mean, rounded towards zero, or NaN when one
    of them is; nothing overflows. *)
Theorem downsample_average_means rate_out M id vs B :
  0 < M -> 0 < rate_out -> rate_out * M < 2 ^ 32 -> id mod M = 0 -> 0 <= B -> B * M < 2 ^ 63 -> Forall (sample_ok B) vs ->
  exists d d', jsdrv_downsample_alloc (rate_out * M) rate_out 0 = Ok (Some d)
    /\ downsample_run d id vs = Ok (d', every M (fun h => mean (lastn M h)) vs).
Proof.
  intros HM Hr Hmax Hid HB HBM Hok. unfold jsdrv_downsample_alloc. rewrite (proj2 (Z.ltb_ge _ _)), (proj2 (Z.eqb_neq 0 _)) by nia.
  rewrite (Z.mul_comm rate_out M), Z.div_mul by lia. cbv zeta. rewrite (Z.mul_comm rate_out M), uwrap_small, Z.eqb_refl by (unfold is_u; lia).
  cbn [negb Z.eqb]. set (d := mk_downsample _ _ _ _ _ _ _ _). exists d.
  destruct (downsample_run_average B M HB HBM vs [] d id) as (d' & ys & E & _ & E2); try done.
  - unfold average_after. rewrite @len_nil, Z.mod_0_l by (cbn; lia). split_and!; try done; cbn; nia.
  - by rewrite @len_nil, Z.sub_0_r.
  - exists d'. split; [done|]. rewrite E. do 2 f_equal. symmetry. exact E2.
Qed.

Lemma downsample_average_means_witness : exists d d', jsdrv_downsample_alloc 6 2 0 = Ok (Some d)
  /\ downsample_run d 9 [1; 2; 6; -1; -1; -3; I64_MIN; 0; 0; 5] = Ok (d', [3; -1; I64_MIN]).
Proof.
  destruct (downsample_average_means 2 3 9 [1; 2; 6; -1; -1; -3; I64_MIN; 0; 0; 5] 6) as (d & d' & E1 & E2); try done.
  { repeat (apply Forall_cons; split; [(by right) || (by left)|]). constructor. }
  exists d, d'. split; [exact E1|]. rewrite E2. by vm_compute.
Defined.

(** 8-bit samples with consecutive ids. *)
Fixpoint downsample_run_u8 (d : option jsdrv_downsample_s) (sample_id : Z) (vs : list Z) : res (list Z) :=
  match vs with
  | [] => Ok []
  | v :: vs =>
      '(d, y) ← jsdrv_downsample_add_u8 d sample_id v;
      ys ← downsample_run_u8 d (sample_id + 1) vs;
      Ok (option_list y ++ ys)
  end.

(** [jsdrv_downsample_add_u8] clamps a negative filter output to 0 but not one above 255: where the filter overshoots
    after a step from 0 to 255 the output wraps around, here to 21 and to 4. *)
Lemma downsample_u8_wraps : exists d ys, jsdrv_downsample_alloc 4 2 1 = Ok (Some d)
  /\ downsample_run_u8 (Some d) 0 (replicate 40 0 ++ replicate 60 255) = Ok ys
  /\ ys !! 30%nat = Some 21 /\ ys !! 32%nat = Some 4 /\ ys !! 40%nat = Some 255.
Proof.
  destruct (alloc_flat_ok 1 0 2) as (d & Ed & _); [unfold FILTERS; lia | done | done |].
  assert ((d ← jsdrv_downsample_alloc 4 2 1; ys ← downsample_run_u8 d 0 (replicate 40 0 ++ replicate 60 255);
           Ok (ys !! 30%nat, ys !! 32%nat, ys !! 40%nat)) = Ok (Some 21, Some 4, Some 255)) as H by (by vm_compute).
  change (2 * (2 ^ Z.of_nat 1 * 5 ^ Z.of_nat 0)) with 4 in Ed. rewrite Ed, bind_Ok in H.
  apply res_bind_Ok in H as (ys & Er & Ey). injection Ey as E1 E2 E3. by exists d, ys.
Qed.
