(* ===== verification/Js110.v ===== *)
(** * The JS110 sample processor (src/devices/js110/js110_sample_processor.c)

    The processor decodes raw samples, applies the calibration and delays them through a ring of
    64 samples, so that the samples after a change of the current range can still be replaced: by
    a mean, by an interpolation, or by NaN. *)

From S2P Require Import Prelude Sums Float.

Definition JS110_SUPPRESS_SAMPLES_MAX : Z := 64.
Definition _SUPPRESS_SAMPLES_MASK : Z := JS110_SUPPRESS_SAMPLES_MAX - 1.
Definition JS110_SUPPRESS_PRE_MAX : Z := 8.
Definition JS110_SUPPRESS_WINDOW_MAX : Z := 31.
Definition JS110_SUPPRESS_POST_MAX : Z := 8.
Definition JS110_I_RANGE_OFF : Z := 7.
Definition JS110_I_RANGE_MISSING : Z := 8.
Definition JS110_SUPPRESS_MODE_OFF : Z := 0.
Definition JS110_SUPPRESS_MODE_MEAN : Z := 1.
Definition JS110_SUPPRESS_MODE_INTERP : Z := 2.
Definition JS110_SUPPRESS_MODE_NAN : Z := 3.

Record js110_sample_s := mk_sample {
  sm_i : f32;
  sm_v : f32;
  sm_p : f32;
  sm_current_range : Z;  (* uint8_t *)
  sm_gpi0 : Z;           (* uint8_t *)
  sm_gpi1 : Z;           (* uint8_t *)
}.

(** The rows of [cal] are four lists of nine; members that are never read are left out. *)
Record js110_sp_s := mk_sp {
  sp_cal_i_offset : list f64;
  sp_cal_i_gain : list f64;
  sp_cal_v_offset : list f64;
  sp_cal_v_gain : list f64;
  sp_samples : list js110_sample_s;
  sp_head : Z;                              (* uint8_t *)
  sp_start : Z;                             (* uint8_t *)
  sp_is_skipping : Z;                       (* int32_t *)
  sp_sample_missing_count : Z;              (* uint64_t *)
  sp_skip_count : Z;                        (* uint64_t *)
  sp_contiguous_count : Z;                  (* uint64_t *)
  sp_sample_count : Z;                      (* uint64_t *)
  sp_i_range_last : Z;                      (* uint8_t *)
  sp_suppress_samples_pre : Z;              (* int32_t *)
  sp_suppress_samples_window : Z;           (* int32_t *)
  sp_suppress_samples_post : Z;             (* int32_t *)
  sp_suppress_matrix : option (list (list Z));
  sp_suppress_samples_remaining : Z;        (* int32_t *)
  sp_suppress_mode : Z;                     (* uint8_t *)
}.

Definition ptr_incr (idx : Z) : Z := Z.land (idx + 1) _SUPPRESS_SAMPLES_MASK.
Definition ptr_decr (idx : Z) : Z := Z.land (u32 (idx - 1)) _SUPPRESS_SAMPLES_MASK.

(** As [js110_sp_initialize] leaves it. *)
Definition SAMPLE_MISSING : js110_sample_s := mk_sample S754_nan S754_nan S754_nan JS110_I_RANGE_MISSING 0 0.

(** [to][from] *)
Definition SUPPRESS_MATRIX_M : list (list Z) :=
  [[0; 5; 5; 5; 5; 5; 6; 6; 0];
   [3; 0; 5; 5; 5; 6; 7; 8; 0];
   [4; 4; 0; 6; 6; 7; 7; 8; 0];
   [4; 4; 4; 0; 6; 6; 7; 7; 0];
   [4; 4; 4; 4; 0; 6; 7; 6; 0];
   [4; 4; 4; 4; 4; 0; 7; 6; 0];
   [4; 4; 4; 4; 4; 4; 0; 6; 0];
   [0; 0; 0; 0; 0; 0; 0; 0; 0];
   [0; 0; 0; 0; 0; 0; 0; 0; 0]].

Definition SUPPRESS_MATRIX_N : list (list Z) :=
  [[0; 5; 7; 7; 7; 7; 7; 8; 0];
   [3; 0; 7; 7; 7; 7; 7; 8; 0];
   [5; 5; 0; 7; 7; 7; 7; 8; 0];
   [5; 5; 5; 0; 7; 7; 7; 8; 0];
   [5; 5; 5; 5; 0; 7; 7; 8; 0];
   [5; 5; 5; 5; 5; 0; 7; 8; 0];
   [5; 5; 5; 5; 5; 5; 0; 8; 0];
   [0; 0; 0; 0; 0; 0; 0; 0; 0];
   [0; 0; 0; 0; 0; 0; 0; 0; 0]].

Definition js110_sp_reset (s : js110_sp_s) : js110_sp_s :=
  mk_sp (sp_cal_i_offset s) (sp_cal_i_gain s) (sp_cal_v_offset s) (sp_cal_v_gain s)
    (replicate (Z.to_nat JS110_SUPPRESS_SAMPLES_MAX) SAMPLE_MISSING) (sp_head s) (sp_start s)
    1 0 0 0 0 JS110_I_RANGE_OFF
    (sp_suppress_samples_pre s) (sp_suppress_samples_window s) (sp_suppress_samples_post s)
    (sp_suppress_matrix s) 0 (sp_suppress_mode s).

(** The memory is cleared first, the calibration too. *)
Definition js110_sp_initialize : js110_sp_s :=
  let zeros := replicate 9 (S754_zero false) in
  js110_sp_reset (mk_sp zeros zeros zeros zeros [] 0 0 0 0 0 0 0 0 1 10 1 (Some SUPPRESS_MATRIX_N) 0 JS110_SUPPRESS_MODE_INTERP).

Definition js110_sp_suppress_win (s : js110_sp_s) (window : Z) : option js110_sp_s :=
  let set m := Some (mk_sp (sp_cal_i_offset s) (sp_cal_i_gain s) (sp_cal_v_offset s) (sp_cal_v_gain s)
    (sp_samples s) (sp_head s) (sp_start s) (sp_is_skipping s) (sp_sample_missing_count s) (sp_skip_count s)
    (sp_contiguous_count s) (sp_sample_count s) (sp_i_range_last s) (sp_suppress_samples_pre s)
    (sp_suppress_samples_window s) (sp_suppress_samples_post s) m (sp_suppress_samples_remaining s) (sp_suppress_mode s)) in
  if window =? 0 then set None
  else if window =? 1 then set (Some SUPPRESS_MATRIX_M)
  else if window =? 2 then set (Some SUPPRESS_MATRIX_N)
  else None.

(** ** One sample *)

Definition sample_range (sample_u32 : Z) : Z :=
  Z.lor (Z.land sample_u32 3) (Z.shiftl (Z.land (Z.shiftr sample_u32 16) 1) 2).

(** No sample: also a range above 7, which three bits cannot give. *)
Definition is_missing (sample_u32 : Z) : bool := (7 <? sample_range sample_u32) || (sample_u32 =? 0xffffffff).

(** Decode and calibrate. *)
Definition sample_decode (s : js110_sp_s) (sample_u32 v_range : Z) : res js110_sample_s :=
  let i_range := sample_range sample_u32 in
  if is_missing sample_u32 then Ok SAMPLE_MISSING
  else
    i_offset ← ld (sp_cal_i_offset s) i_range;
    i_gain ← ld (sp_cal_i_gain s) i_range;
    v_offset ← ld (sp_cal_v_offset s) v_range;
    v_gain ← ld (sp_cal_v_gain s) v_range;
    let i := f64_mul (f64_add (f64_of_Z (Z.land (Z.shiftr sample_u32 2) 0x3fff)) i_offset) i_gain in
    let v := f64_mul (f64_add (f64_of_Z (Z.land (Z.shiftr sample_u32 18) 0x3fff)) v_offset) v_gain in
    Ok (mk_sample (f32_of_f64 i) (f32_of_f64 v) (f32_of_f64 (f64_mul i v)) i_range
          (Z.land (Z.shiftr sample_u32 2) 1) (Z.land (Z.shiftr sample_u32 18) 1)).

(** The counters. *)
Definition sample_count_update (s : js110_sp_s) (missing : bool) : js110_sp_s :=
  let skip := missing && (sp_is_skipping s =? 0) in
  mk_sp (sp_cal_i_offset s) (sp_cal_i_gain s) (sp_cal_v_offset s) (sp_cal_v_gain s) (sp_samples s) (sp_head s) (sp_start s)
    (if missing then if skip then 1 else sp_is_skipping s else 0)
    (if missing then u64 (sp_sample_missing_count s + 1) else sp_sample_missing_count s)
    (if skip then u64 (sp_skip_count s + 1) else sp_skip_count s)
    (if missing then 0 else u64 (sp_contiguous_count s + 1))
    (u64 (sp_sample_count s + 1))
    (sp_i_range_last s) (sp_suppress_samples_pre s) (sp_suppress_samples_window s) (sp_suppress_samples_post s)
    (sp_suppress_matrix s) (sp_suppress_samples_remaining s) (sp_suppress_mode s).

Definition set_suppress (s : js110_sp_s) (start remaining : Z) : js110_sp_s :=
  mk_sp (sp_cal_i_offset s) (sp_cal_i_gain s) (sp_cal_v_offset s) (sp_cal_v_gain s) (sp_samples s) (sp_head s) start
    (sp_is_skipping s) (sp_sample_missing_count s) (sp_skip_count s) (sp_contiguous_count s) (sp_sample_count s)
    (sp_i_range_last s) (sp_suppress_samples_pre s) (sp_suppress_samples_window s) (sp_suppress_samples_post s)
    (sp_suppress_matrix s) remaining (sp_suppress_mode s).

Definition set_samples (s : js110_sp_s) (samples : list js110_sample_s) (head : Z) : js110_sp_s :=
  mk_sp (sp_cal_i_offset s) (sp_cal_i_gain s) (sp_cal_v_offset s) (sp_cal_v_gain s) samples head (sp_start s)
    (sp_is_skipping s) (sp_sample_missing_count s) (sp_skip_count s) (sp_contiguous_count s) (sp_sample_count s)
    (sp_i_range_last s) (sp_suppress_samples_pre s) (sp_suppress_samples_window s) (sp_suppress_samples_post s)
    (sp_suppress_matrix s) (sp_suppress_samples_remaining s) (sp_suppress_mode s).

Definition set_i_range_last (s : js110_sp_s) (i_range : Z) : js110_sp_s :=
  mk_sp (sp_cal_i_offset s) (sp_cal_i_gain s) (sp_cal_v_offset s) (sp_cal_v_gain s) (sp_samples s) (sp_head s) (sp_start s)
    (sp_is_skipping s) (sp_sample_missing_count s) (sp_skip_count s) (sp_contiguous_count s) (sp_sample_count s)
    i_range (sp_suppress_samples_pre s) (sp_suppress_samples_window s) (sp_suppress_samples_post s)
    (sp_suppress_matrix s) (sp_suppress_samples_remaining s) (sp_suppress_mode s).

(** A change of the range starts, or extends, the suppression. *)
Definition suppress_begin (s : js110_sp_s) (i_range : Z) : res js110_sp_s :=
  if negb (sp_i_range_last s =? i_range) && negb (sp_i_range_last s =? JS110_I_RANGE_MISSING) then
    suppress_window ← match sp_suppress_matrix s with
                      | Some m => row ← ld m i_range; ld row (sp_i_range_last s)
                      | None => Ok (u8 (sp_suppress_samples_window s))
                      end;
    if negb (suppress_window =? 0) then
      remaining ← chk_i 32 (suppress_window + sp_suppress_samples_post s);
      Ok (set_suppress s (if sp_suppress_samples_remaining s =? 0 then sp_head s else sp_start s) remaining)
    else Ok s
  else Ok s.

(** [for (k = 0; k < count; ++k)]: step back and add the current. *)
Fixpoint sum_back (count : nat) (samples : list js110_sample_s) (ptr : Z) (accum : f64) : res (Z * f64) :=
  match count with
  | O => Ok (ptr, accum)
  | S count =>
      let ptr := ptr_decr ptr in
      x ← ld samples ptr;
      sum_back count samples ptr (f64_add accum (f64_of_f32 (sm_i x)))
  end.

(** [while (ptr != ptr_end)]: replace the current by a function of the position, and the power. *)
Fixpoint replace_loop (fuel : nat) (samples : list js110_sample_s) (ptr ptr_end k : Z) (value : Z -> f32) : res (list js110_sample_s) :=
  if ptr =? ptr_end then Ok samples
  else match fuel with
  | O => Fault OutOfFuel
  | S fuel =>
      x ← ld samples ptr;
      let i := value k in
      samples ← st samples ptr (mk_sample i (sm_v x) (f32_mul i (sm_v x)) (sm_current_range x) (sm_gpi0 x) (sm_gpi1 x));
      replace_loop fuel samples (ptr_incr ptr) ptr_end (k + 1) value
  end.

Definition suppress_mean (s : js110_sp_s) : res js110_sp_s :=
  let ranged := sp_i_range_last s <? 7 in
  '(_, accum) ← (if ranged then sum_back (Z.to_nat (sp_suppress_samples_pre s)) (sp_samples s) (sp_start s) (S754_zero false)
                 else Ok (sp_start s, S754_zero false));
  '(ptr_end, accum) ← sum_back (Z.to_nat (sp_suppress_samples_post s)) (sp_samples s) (sp_head s) accum;
  let sample_count := u32 ((if ranged then u32 (sp_suppress_samples_pre s) else 0) + sp_suppress_samples_post s) in
  let mean := f32_of_f64 (f64_div accum (f64_of_Z sample_count)) in
  samples ← replace_loop (Z.to_nat JS110_SUPPRESS_SAMPLES_MAX) (sp_samples s) (sp_start s) ptr_end 0 (fun _ => mean);
  Ok (set_samples s samples (sp_head s)).

(** [count] is the difference of the pointers modulo 256, not modulo the ring. *)
Definition suppress_interp (s : js110_sp_s) : res js110_sp_s :=
  '(ptr, pre) ← sum_back (Z.to_nat (sp_suppress_samples_pre s)) (sp_samples s) (sp_start s) (S754_zero false);
  let pre := f64_div pre (f64_of_Z (sp_suppress_samples_pre s)) in
  '(ptr_end, post) ← sum_back (Z.to_nat (sp_suppress_samples_post s)) (sp_samples s) (sp_head s) (S754_zero false);
  let post := f64_div post (f64_of_Z (sp_suppress_samples_post s)) in
  let pre := if 7 <=? sp_i_range_last s then post else pre in
  let count := u8 (ptr_end - ptr) in
  let step := if negb (count =? 0) then f64_div (f64_sub post pre) (f64_of_Z count) else S754_zero false in
  samples ← replace_loop (Z.to_nat JS110_SUPPRESS_SAMPLES_MAX) (sp_samples s) (sp_start s) ptr_end 0
              (fun k => f32_of_f64 (f64_add pre (f64_mul step (f64_of_Z (k + 1)))));
  Ok (set_samples s samples (sp_head s)).

(** The end of a suppression replaces the samples. *)
Definition suppress_end (s : js110_sp_s) : res js110_sp_s :=
  if negb (sp_suppress_samples_remaining s =? 0) then
    remaining ← chk_i 32 (sp_suppress_samples_remaining s - 1);
    let s := set_suppress s (sp_start s) remaining in
    if remaining =? 0 then
      if sp_suppress_mode s =? JS110_SUPPRESS_MODE_MEAN then suppress_mean s
      else if sp_suppress_mode s =? JS110_SUPPRESS_MODE_INTERP then suppress_interp s
      else Ok s
    else Ok s
  else Ok s.

(** The new state and the delayed sample. *)
Definition js110_sp_process (self : js110_sp_s) (sample_u32 v_range : Z) : res (js110_sp_s * js110_sample_s) :=
  let i_range := sample_range sample_u32 in
  x ← sample_decode self sample_u32 v_range;
  let self := sample_count_update self (is_missing sample_u32) in
  self ← suppress_begin self i_range;
  let x := if (sp_suppress_mode self =? JS110_SUPPRESS_MODE_NAN)
              && (sp_suppress_samples_post self <? sp_suppress_samples_remaining self)
           then mk_sample S754_nan S754_nan S754_nan (sm_current_range x) (sm_gpi0 x) (sm_gpi1 x) else x in
  samples ← st (sp_samples self) (sp_head self) x;
  let self := set_samples self samples (ptr_incr (sp_head self)) in
  self ← suppress_end self;
  let self := set_i_range_last self i_range in
  out ← ld (sp_samples self) (sp_head self);
  Ok (self, out).

(** ** The state *)

Definition is_matrix (m : list (list Z)) : Prop := m = SUPPRESS_MATRIX_M \/ m = SUPPRESS_MATRIX_N.

Record sp_wf (s : js110_sp_s) : Prop := mk_sp_wf {
  pw_cal : len (sp_cal_i_offset s) = 9 /\ len (sp_cal_i_gain s) = 9 /\ len (sp_cal_v_offset s) = 9 /\ len (sp_cal_v_gain s) = 9;
  pw_samples : len (sp_samples s) = JS110_SUPPRESS_SAMPLES_MAX;
  pw_head : 0 <= sp_head s < JS110_SUPPRESS_SAMPLES_MAX;
  pw_start : 0 <= sp_start s < JS110_SUPPRESS_SAMPLES_MAX;
  pw_range : 0 <= sp_i_range_last s <= JS110_I_RANGE_OFF;
  pw_pre : 0 <= sp_suppress_samples_pre s <= JS110_SUPPRESS_PRE_MAX;
  pw_post : 0 <= sp_suppress_samples_post s <= JS110_SUPPRESS_POST_MAX;
  pw_matrix : forall m, sp_suppress_matrix s = Some m -> is_matrix m;
  pw_remaining : 0 <= sp_suppress_samples_remaining s < 2 ^ 9;
}.

(** The settings, which processing leaves alone. *)
Definition sp_settings (s : js110_sp_s) :=
  (sp_cal_i_offset s, sp_cal_i_gain s, sp_cal_v_offset s, sp_cal_v_gain s, sp_suppress_samples_pre s, sp_suppress_samples_window s,
   sp_suppress_samples_post s, sp_suppress_matrix s, sp_suppress_mode s).

(** The samples, oldest first. *)
Definition sp_window (s : js110_sp_s) : list js110_sample_s := window (sp_samples s) (sp_head s).

Lemma ptr_incr_spec i : 0 <= i < JS110_SUPPRESS_SAMPLES_MAX ->
  ptr_incr i = (if JS110_SUPPRESS_SAMPLES_MAX <=? i + 1 then 0 else i + 1) /\ 0 <= ptr_incr i < JS110_SUPPRESS_SAMPLES_MAX.
Proof.
  intros Hi. unfold ptr_incr. change _SUPPRESS_SAMPLES_MASK with (Z.ones 6). rewrite Z.land_ones by lia.
  unfold JS110_SUPPRESS_SAMPLES_MAX in *. change (2 ^ 6) with 64. case_if; div_lia.
Qed.

Lemma ptr_decr_range i : 0 <= ptr_decr i < JS110_SUPPRESS_SAMPLES_MAX.
Proof. unfold ptr_decr. change _SUPPRESS_SAMPLES_MASK with (Z.ones 6). rewrite Z.land_ones by lia. by apply Z.mod_pos_bound. Qed.

Lemma sample_range_range u : 0 <= sample_range u <= JS110_I_RANGE_OFF.
Proof.
  unfold sample_range. rewrite (Z.land_ones u 2 ltac:(lia) : Z.land u 3 = u mod 4).
  rewrite (Z.land_ones (Z.shiftr u 16) 1 ltac:(lia) : Z.land (Z.shiftr u 16) 1 = Z.shiftr u 16 mod 2), Z.shiftl_mul_pow2 by lia.
  pose proof (Z.mod_pos_bound u 4 ltac:(done)). pose proof (Z.mod_pos_bound (Z.shiftr u 16) 2 ltac:(done)).
  rewrite Z.lor_comm, lor_add_disjoint by lia. unfold JS110_I_RANGE_OFF. lia.
Qed.

Lemma sample_decode_ok s u v_range : sp_wf s -> 0 <= v_range < 9 -> exists x, sample_decode s u v_range = Ok x.
Proof.
  intros Hs Hv. destruct (pw_cal s Hs) as (H1 & H2 & H3 & H4). pose proof (sample_range_range u). unfold JS110_I_RANGE_OFF in *.
  unfold sample_decode. case_if; [eauto|].
  destruct (ld_in_range (sp_cal_i_offset s) (sample_range u)) as (a & -> & _); [lia|]. rewrite bind_Ok.
  destruct (ld_in_range (sp_cal_i_gain s) (sample_range u)) as (b & -> & _); [lia|]. rewrite bind_Ok.
  destruct (ld_in_range (sp_cal_v_offset s) v_range) as (c & -> & _); [lia|]. rewrite bind_Ok.
  destruct (ld_in_range (sp_cal_v_gain s) v_range) as (d & -> & _); [lia|]. rewrite bind_Ok. eauto.
Qed.

(** Every entry of a matrix is a small number. *)
Lemma matrix_ok m to from : is_matrix m -> 0 <= to <= JS110_I_RANGE_OFF -> 0 <= from <= JS110_I_RANGE_OFF ->
  exists w, (row ← ld m to; ld row from) = Ok w /\ 0 <= w <= JS110_SUPPRESS_WINDOW_MAX.
Proof.
  unfold JS110_I_RANGE_OFF, JS110_SUPPRESS_WINDOW_MAX. intros Hm Ht Hf.
  assert (len m = 9 /\ Forall (fun row => len row = 9 /\ Forall (fun w => 0 <= w <= 31) row) m) as [Hl Hall].
  { destruct Hm as [-> | ->]; (split; [done|]); repeat constructor; by vm_compute. }
  destruct (ld_in_range m to) as (row & -> & Hrow); [lia|]. destruct (Forall_lookup_1 _ _ _ _ Hall Hrow) as [Hlr Hw].
  rewrite bind_Ok. destruct (ld_in_range row from) as (w & -> & Hw'); [lia|]. exists w. split; [done|].
  by apply (Forall_lookup_1 _ _ _ _ Hw Hw').
Qed.

Lemma suppress_begin_ok s i_range : sp_wf s -> 0 <= i_range <= JS110_I_RANGE_OFF ->
  exists s', suppress_begin s i_range = Ok s' /\ sp_wf s' /\ sp_settings s' = sp_settings s
    /\ sp_samples s' = sp_samples s /\ sp_head s' = sp_head s.
Proof.
  intros Hs Hr. pose proof (pw_range s Hs) as Hl. pose proof (pw_post s Hs) as Hp. unfold JS110_SUPPRESS_POST_MAX in Hp.
  unfold suppress_begin. case_if; [|by exists s].
  assert (exists w, match sp_suppress_matrix s with
    | Some m => row ← ld m i_range; ld row (sp_i_range_last s)
    | None => Ok (u8 (sp_suppress_samples_window s)) end = Ok w /\ 0 <= w < 256) as (w & -> & Hw).
  { destruct (sp_suppress_matrix s) as [m|] eqn:Em.
    - destruct (matrix_ok m i_range (sp_i_range_last s) (pw_matrix s Hs m Em) Hr Hl) as (w & -> & Hw).
      exists w. unfold JS110_SUPPRESS_WINDOW_MAX in Hw. split; [done | lia].
    - eexists. split; [done|]. by apply (uwrap_range 8). }
  rewrite bind_Ok. case_if; [|by exists s]. rewrite chk_i_ok, bind_Ok by width_lia.
  eexists. split; [done|]. split; [|done]. destruct Hs. constructor; cbn; try done; [|lia].
  case_if; done.
Qed.

Lemma sum_back_ok samples : len samples = JS110_SUPPRESS_SAMPLES_MAX -> forall n ptr acc, 0 <= ptr < JS110_SUPPRESS_SAMPLES_MAX ->
  exists ptr' acc', sum_back n samples ptr acc = Ok (ptr', acc') /\ 0 <= ptr' < JS110_SUPPRESS_SAMPLES_MAX.
Proof.
  intros Hl. induction n as [|n IH]; intros ptr acc Hp; cbn [sum_back]; [eauto|].
  pose proof (ptr_decr_range ptr). destruct (ld_in_range samples (ptr_decr ptr)) as (x & -> & _); [lia|]. rewrite bind_Ok. by apply IH.
Qed.

(** Only the current and the power of a sample are replaced. *)
Definition ignores_current {A} (f : js110_sample_s -> A) : Prop :=
  forall x i p, f (mk_sample i (sm_v x) p (sm_current_range x) (sm_gpi0 x) (sm_gpi1 x)) = f x.

(** The loop ends within one turn of the ring. *)
Lemma replace_loop_ok ptr_end value : 0 <= ptr_end < JS110_SUPPRESS_SAMPLES_MAX -> forall fuel samples ptr k,
  len samples = JS110_SUPPRESS_SAMPLES_MAX -> 0 <= ptr < JS110_SUPPRESS_SAMPLES_MAX ->
  (ptr_end - ptr) mod JS110_SUPPRESS_SAMPLES_MAX <= Z.of_nat fuel ->
  exists samples', replace_loop fuel samples ptr ptr_end k value = Ok samples' /\ len samples' = JS110_SUPPRESS_SAMPLES_MAX
    /\ forall A (f : js110_sample_s -> A), ignores_current f -> f <$> samples' = f <$> samples.
Proof.
  intros He. induction fuel as [|fuel IH]; intros samples ptr k Hl Hp Hf; cbn [replace_loop]; case_if; try (by exists samples).
  - exfalso. unfold JS110_SUPPRESS_SAMPLES_MAX in *. div_lia.
  - destruct (ld_in_range samples ptr) as (x & -> & Hx); [lia|]. rewrite bind_Ok. cbv zeta. rewrite st_ok, bind_Ok by lia.
    destruct (ptr_incr_spec ptr Hp) as [Ei Hi]. set (y := mk_sample _ _ _ _ _ _).
    destruct (IH (<[Z.to_nat ptr := y]> samples) (ptr_incr ptr) (k + 1)) as (s' & -> & Hl' & Hk'); [by rewrite len_insert | done | |].
    + rewrite Ei. unfold JS110_SUPPRESS_SAMPLES_MAX in *. case_if; div_lia.
    + exists s'. split_and!; [done | done |]. intros A f Hfi. rewrite Hk' by done.
      rewrite list_fmap_insert, list_insert_id; [done|]. rewrite list_lookup_fmap, Hx. cbn. f_equal. symmetry. apply Hfi.
Qed.

Lemma ring_fuel a b : (a - b) mod JS110_SUPPRESS_SAMPLES_MAX <= Z.of_nat (Z.to_nat JS110_SUPPRESS_SAMPLES_MAX).
Proof. pose proof (Z.mod_pos_bound (a - b) JS110_SUPPRESS_SAMPLES_MAX ltac:(done)). unfold JS110_SUPPRESS_SAMPLES_MAX in *. lia. Qed.

(** What the suppression keeps of a state. *)
Definition kept (s s' : js110_sp_s) : Prop :=
  sp_wf s' /\ sp_settings s' = sp_settings s /\ sp_head s' = sp_head s
  /\ forall A (f : js110_sample_s -> A), ignores_current f -> f <$> sp_samples s' = f <$> sp_samples s.

Lemma set_samples_kept s samples : sp_wf s -> len samples = JS110_SUPPRESS_SAMPLES_MAX ->
  (forall A (f : js110_sample_s -> A), ignores_current f -> f <$> samples = f <$> sp_samples s) ->
  kept s (set_samples s samples (sp_head s)).
Proof. intros [] Hl Hk. split; [by constructor | done]. Qed.

Lemma suppress_mean_ok s : sp_wf s -> exists s', suppress_mean s = Ok s' /\ kept s s'.
Proof.
  intros Hs. pose proof (pw_samples s Hs) as Hl. pose proof (pw_start s Hs) as Hst. pose proof (pw_head s Hs) as Hh. unfold suppress_mean.
  assert (exists q acc, (if sp_i_range_last s <? 7 then sum_back (Z.to_nat (sp_suppress_samples_pre s)) (sp_samples s) (sp_start s) (S754_zero false)
    else Ok (sp_start s, S754_zero false)) = Ok (q, acc)) as (q & acc & E).
  { case_if; [|eauto]. destruct (sum_back_ok (sp_samples s) Hl (Z.to_nat (sp_suppress_samples_pre s)) (sp_start s) (S754_zero false) Hst)
      as (q & acc & E' & _). eauto. }
  cbv zeta. rewrite E, bind_Ok.
  destruct (sum_back_ok (sp_samples s) Hl (Z.to_nat (sp_suppress_samples_post s)) (sp_head s) acc Hh) as (pe & acc2 & -> & Hpe).
  rewrite bind_Ok. cbv zeta. set (value := fun _ : Z => _).
  destruct (replace_loop_ok pe value Hpe (Z.to_nat JS110_SUPPRESS_SAMPLES_MAX) (sp_samples s) (sp_start s) 0 Hl Hst (ring_fuel _ _))
    as (samples & -> & Hl' & Hk).
  rewrite bind_Ok. eexists. split; [done|]. by apply set_samples_kept.
Qed.

Lemma suppress_interp_ok s : sp_wf s -> exists s', suppress_interp s = Ok s' /\ kept s s'.
Proof.
  intros Hs. pose proof (pw_samples s Hs) as Hl. pose proof (pw_start s Hs) as Hst. pose proof (pw_head s Hs) as Hh. unfold suppress_interp.
  destruct (sum_back_ok (sp_samples s) Hl (Z.to_nat (sp_suppress_samples_pre s)) (sp_start s) (S754_zero false) Hst) as (p1 & pre & -> & Hp1).
  rewrite bind_Ok.
  destruct (sum_back_ok (sp_samples s) Hl (Z.to_nat (sp_suppress_samples_post s)) (sp_head s) (S754_zero false) Hh) as (pe & post & -> & Hpe).
  rewrite bind_Ok. cbv zeta. set (value := fun k : Z => _).
  destruct (replace_loop_ok pe value Hpe (Z.to_nat JS110_SUPPRESS_SAMPLES_MAX) (sp_samples s) (sp_start s) 0 Hl Hst (ring_fuel _ _))
    as (samples & -> & Hl' & Hk).
  rewrite bind_Ok. eexists. split; [done|]. by apply set_samples_kept.
Qed.

(** The modes that rewrite samples of the ring. *)
Definition rewrites (s : js110_sp_s) : bool :=
  (sp_suppress_mode s =? JS110_SUPPRESS_MODE_MEAN) || (sp_suppress_mode s =? JS110_SUPPRESS_MODE_INTERP).

Lemma suppress_end_ok s : sp_wf s -> exists s', suppress_end s = Ok s' /\ kept s s'
  /\ (rewrites s = false -> sp_samples s' = sp_samples s).
Proof.
  intros Hs. unfold suppress_end, rewrites. pose proof (pw_remaining s Hs) as Hr.
  assert (kept s s) as Hid by (by split_and!).
  case_if; [|eauto]. rewrite chk_i_ok, bind_Ok by width_lia. cbv zeta.
  set (s1 := set_suppress s (sp_start s) (sp_suppress_samples_remaining s - 1)).
  assert (kept s s1) as Hk1. { split; [|done]. destruct Hs. constructor; cbn; done || lia. }
  assert (sp_suppress_mode s1 = sp_suppress_mode s) as Em by done. rewrite Em.
  assert (forall s', kept s1 s' -> kept s s') as Htrans.
  { intros s' (H1 & H2 & H3 & H4). destruct Hk1 as (K1 & K2 & K3 & K4). split_and!; [done | congruence | congruence |].
    intros A f Hf. by rewrite H4, K4 by done. }
  case_if; [|by exists s1]. case_if; cbn [orb].
  - destruct (suppress_mean_ok s1 (proj1 Hk1)) as (s' & -> & Hk'). exists s'. split_and!; [done | by apply Htrans | done].
  - case_if; [|by exists s1]. destruct (suppress_interp_ok s1 (proj1 Hk1)) as (s' & -> & Hk').
    exists s'. split_and!; [done | by apply Htrans | done].
Qed.

(** ** The delay line *)

(** Processing in the mode at hand does not change what [f] sees of a sample. *)
Definition untouched {A} (f : js110_sample_s -> A) (s : js110_sp_s) : Prop :=
  sp_suppress_mode s <> JS110_SUPPRESS_MODE_NAN /\ (rewrites s = false \/ ignores_current f).

Lemma fmap_window {A B} (f : A -> B) l idx : f <$> window l idx = window (f <$> l) idx.
Proof. unfold window. by rewrite fmap_app, fmap_drop, fmap_take. Qed.

Lemma js110_sp_process_ok s u v_range : sp_wf s -> 0 <= v_range < 9 ->
  exists s' o x, js110_sp_process s u v_range = Ok (s', o) /\ sample_decode s u v_range = Ok x
    /\ sp_wf s' /\ sp_settings s' = sp_settings s /\ head (sp_window s') = Some o
    /\ forall A (f : js110_sample_s -> A), untouched f s -> f <$> sp_window s' = drop 1 (f <$> sp_window s) ++ [f x].
Proof.
  intros Hs Hv. destruct (sample_decode_ok s u v_range Hs Hv) as [x Hx]. unfold js110_sp_process. rewrite Hx, bind_Ok. cbv zeta.
  set (s0 := sample_count_update s (is_missing u)). pose proof (sample_range_range u) as Hr.
  assert (sp_wf s0) as Hs0 by (by destruct Hs).
  destruct (suppress_begin_ok s0 (sample_range u) Hs0 Hr) as (s1 & -> & Hs1 & Eset & Esam & Ehead). rewrite bind_Ok.
  set (y := if _ && _ then _ else x).
  pose proof (pw_samples s1 Hs1) as Hl. pose proof (pw_head s1 Hs1) as Hh.
  destruct (st (sp_samples s1) (sp_head s1) y) as [b|] eqn:Eb; [|rewrite st_ok in Eb by lia; done]. rewrite bind_Ok.
  assert (len b = JS110_SUPPRESS_SAMPLES_MAX) as Hlb by (rewrite st_ok in Eb by lia; injection Eb as <-; by rewrite len_insert).
  destruct (ptr_incr_spec (sp_head s1) Hh) as [Ei Hi]. set (s2 := set_samples s1 b _).
  assert (sp_wf s2) as Hs2 by (destruct Hs1; by constructor).
  destruct (suppress_end_ok s2 Hs2) as (s3 & -> & (Hs3 & Eset3 & Eh3 & Hk) & Hrew). rewrite bind_Ok.
  destruct (ld_in_range (sp_samples (set_i_range_last s3 (sample_range u))) (sp_head (set_i_range_last s3 (sample_range u)))) as (o & -> & Ho).
  { cbn. rewrite (pw_samples s3 Hs3). apply (pw_head s3 Hs3). }
  rewrite bind_Ok. eexists _, o, x. split; [done|]. split_and!; [done | | | |].
  - destruct Hs3. by constructor.
  - change (sp_settings s3 = sp_settings s). rewrite Eset3. change (sp_settings s1 = sp_settings s). by rewrite Eset.
  - unfold sp_window, window. cbn in Ho |- *. rewrite head_lookup, lookup_app_l, lookup_drop, Nat.add_0_r; [done|].
    rewrite length_drop. apply lookup_lt_Some in Ho. lia.
  - intros A f [Hm Hf]. pose proof (f_equal snd Eset : sp_suppress_mode s1 = sp_suppress_mode s) as Em.
    assert (y = x) as Ey by (unfold y; by rewrite Em, (proj2 (Z.eqb_neq _ _) Hm)).
    unfold sp_window. cbn [set_i_range_last sp_samples sp_head]. rewrite !fmap_window, Eh3.
    assert (f <$> sp_samples s3 = f <$> b) as ->.
    { destruct Hf as [Hf|Hf]; [|by apply Hk]. rewrite Hrew; [done|]. unfold rewrites in *. cbn. by rewrite Em. }
    rewrite <- !fmap_window. cbn [s2 set_samples sp_head]. rewrite Ei.
    rewrite (window_step (sp_samples s1) (sp_head s1) y _ b Hl Hh Eb), fmap_app, fmap_drop, Esam, Ehead, Ey. done.
Qed.

(** Raw samples, each with its voltage range. *)
Fixpoint sp_run (s : js110_sp_s) (xs : list (Z * Z)) : res (js110_sp_s * list js110_sample_s) :=
  match xs with
  | [] => Ok (s, [])
  | (u, v_range) :: xs =>
      '(s, o) ← js110_sp_process s u v_range;
      '(s, os) ← sp_run s xs;
      Ok (s, o :: os)
  end.

(** The calibrated samples. *)
Definition decodes (s : js110_sp_s) (xs : list (Z * Z)) (ds : list js110_sample_s) : Prop :=
  Forall2 (fun x d => sample_decode s x.1 x.2 = Ok d) xs ds.

Lemma sample_decode_settings s s' u v_range : sp_settings s = sp_settings s' -> sample_decode s u v_range = sample_decode s' u v_range.
Proof. intros E. unfold sp_settings in E. injection E as E1 E2 E3 E4 _ _ _ _ _. unfold sample_decode. by rewrite E1, E2, E3, E4. Qed.

Lemma untouched_settings {A} (f : js110_sample_s -> A) s s' : sp_settings s = sp_settings s' -> untouched f s -> untouched f s'.
Proof. intros E. pose proof (f_equal snd E : sp_suppress_mode s = sp_suppress_mode s') as Em. unfold untouched, rewrites. by rewrite Em. Qed.

Lemma length_sp_window s : sp_wf s -> length (sp_window s) = 64%nat.
Proof. intros Hs. unfold sp_window. rewrite length_window. pose proof (pw_samples s Hs). unfold len, JS110_SUPPRESS_SAMPLES_MAX in *. lia. Qed.

(** From a well-formed state, whatever the raw samples are (each with one of the nine voltage ranges), the JS110 sample processor does not
    access anything out of bounds, its loops end, and it is a delay line of 63 samples: in every mode but NaN, the voltage, the
    current range and the digital inputs that come out are those decoded from the sample 63 before
    (the first ones are those of the initial ring), and with the suppression off so are the current and the power. *)
Lemma js110_delay s xs : sp_wf s -> Forall (fun x => 0 <= x.2 < 9) xs ->
  exists s' os ds, sp_run s xs = Ok (s', os) /\ decodes s xs ds /\ sp_wf s' /\ sp_settings s' = sp_settings s
    /\ forall A (f : js110_sample_s -> A), untouched f s -> 
         f <$> os = take (length xs) (drop 1 ((f <$> sp_window s) ++ (f <$> ds))).
Proof.
  intros Hs Hx. revert s Hs. induction Hx as [|[u v] xs Hv Hx IH]; intros s Hs; cbn [sp_run].
  { exists s, [], []. split_and!; try done. constructor. }
  destruct (js110_sp_process_ok s u v Hs Hv) as (s1 & o & d & -> & Hd & Hs1 & E1 & Ho & Hw). rewrite bind_Ok.
  destruct (IH s1 Hs1) as (s2 & os & ds & -> & Hds & Hs2 & E2 & Hos). rewrite bind_Ok.
  exists s2, (o :: os), (d :: ds). split_and!; [done | | done | congruence |].
  - constructor; [done|]. eapply Forall2_impl; [apply Hds|]. intros x y Hxy. by rewrite (sample_decode_settings s s1) by done.
  - intros A f Hf. specialize (Hw A f Hf). specialize (Hos A f (untouched_settings f s s1 (eq_sym E1) Hf)).
    pose proof (length_sp_window s Hs) as Hl. rewrite fmap_cons, Hos, Hw. clear Hos.
    assert (f o = default (f o) (head (f <$> sp_window s1))) as Eo.
    { destruct (sp_window s1); [done|]. injection Ho as ->. done. }
    rewrite Hw in Eo. destruct (sp_window s) as [|w0 [|w1 w]]; cbn in Hl; try lia.
    cbn in Eo |- *. rewrite Eo. cbn. by rewrite <- app_assoc.
Qed.

(** A calibrated processor as [js110_sp_initialize] leaves it otherwise. *)
Definition sp_calibrated (i_offset i_gain v_offset v_gain : list f64) : js110_sp_s :=
  let s := js110_sp_initialize in
  mk_sp i_offset i_gain v_offset v_gain (sp_samples s) (sp_head s) (sp_start s) (sp_is_skipping s) (sp_sample_missing_count s)
    (sp_skip_count s) (sp_contiguous_count s) (sp_sample_count s) (sp_i_range_last s) (sp_suppress_samples_pre s)
    (sp_suppress_samples_window s) (sp_suppress_samples_post s) (sp_suppress_matrix s) (sp_suppress_samples_remaining s) (sp_suppress_mode s).

Lemma sp_calibrated_wf a b c d : len a = 9 -> len b = 9 -> len c = 9 -> len d = 9 -> sp_wf (sp_calibrated a b c d).
Proof. intros. constructor; cbn; try done. intros m [= <-]. by right. Qed.

Definition ex_sp : js110_sp_s :=
  let zeros := replicate 9 (f64_of_Z 0) in let ones := replicate 9 (f64_of_Z 1) in sp_calibrated zeros ones zeros ones.

(** The raw sample with a range and the two converter values. *)
Definition ex_raw (range i v : Z) : Z * Z :=
  (Z.lor (Z.lor (Z.land range 3) (Z.shiftl (Z.shiftr range 2) 16)) (Z.lor (Z.shiftl i 2) (Z.shiftl v 18)), 0).

Lemma js110_delay_witness : exists s' os ds, sp_run ex_sp (replicate 64 (ex_raw 1 100 5)) = Ok (s', os)
  /\ decodes ex_sp (replicate 64 (ex_raw 1 100 5)) ds
  /\ sm_v <$> os = take 64 (drop 1 ((sm_v <$> sp_window ex_sp) ++ (sm_v <$> ds))).
Proof.
  destruct (js110_delay ex_sp (replicate 64 (ex_raw 1 100 5))) as (s' & os & ds & E1 & E2 & _ & _ & E3).
  - by apply sp_calibrated_wf.
  - by apply Forall_replicate.
  - exists s', os, ds. split_and!; [exact E1 | exact E2 |]. apply (E3 _ sm_v). split; [done | right; intros ???; done].
Defined.

(** The currents that come out for [n] samples of 100 in range 1 and then samples of 1000 in range 0,
    from the last one before the change on. *)
Definition ex_change (n : nat) : res (list f32) :=
  '(_, os) ← sp_run ex_sp (replicate n (ex_raw 1 100 5) ++ replicate 80 (ex_raw 0 1000 5));
  Ok (take 8 (drop (62 + n) (sm_i <$> os))).

(** In the interpolation mode the samples that a range change suppresses are replaced by a straight line, here from 100 to
    1000 in steps of 150.  When they lie around the end of the 64-sample ring, the number of steps is computed modulo 256 instead of
    modulo 64, and the same change gives values near 100 followed by a jump. *)
Lemma js110_interp_seam :
  ex_change 20 = Ok (f32_of_Z <$> [100; 250; 400; 550; 700; 850; 1000; 1000])
  /\ exists l, ex_change 61 = Ok l /\ f_trunc <$> l = Some <$> [100; 104; 109; 113; 118; 122; 1000; 1000].
Proof. split; [by vm_compute|]. eexists. split; [vm_compute; reflexivity | by vm_compute]. Qed.
