(* ===== verification/DeviceStats.v ===== *)
(** * Statistics of the instruments (src/devices/js110/js110_stats.c, js220_stats.c, js320_stats.c)

    The JS110 driver accumulates blocks of samples itself; the JS220 and the JS320 send raw sums
    that the host converts.  Sums are integers, 64 bits per block and 128 bits for charge and
    energy, so that they are exact; the theorems say so, and when a conversion is defined at all. *)

From S2P Require Import Prelude Sums Float ErrorCode I128.

(** The time map is filled in elsewhere. *)
Record jsdrv_statistics_s := mk_stats {
  js_version : Z;             (* uint8_t *)
  js_decimate_factor : Z;     (* uint8_t *)
  js_block_sample_count : Z;  (* uint32_t *)
  js_sample_freq : Z;         (* uint32_t *)
  js_decimate_factor32 : Z;   (* uint32_t *)
  js_block_sample_id : Z;     (* uint64_t *)
  js_accum_sample_id : Z;     (* uint64_t *)
  js_i_avg : f64; js_i_std : f64; js_i_min : f64; js_i_max : f64;
  js_v_avg : f64; js_v_std : f64; js_v_min : f64; js_v_max : f64;
  js_p_avg : f64; js_p_std : f64; js_p_min : f64; js_p_max : f64;
  js_charge_f64 : f64;
  js_energy_f64 : f64;
  js_charge_i128 : js220_i128;
  js_energy_i128 : js220_i128;
}.

(** ** JS220 *)

Record js220_statistics_raw_s := mk_js220_raw {
  r2_header : Z;              (* uint32_t *)
  r2_sample_freq : Z;         (* uint32_t *)
  r2_block_sample_id : Z;     (* uint64_t *)
  r2_accum_sample_id : Z;     (* uint64_t *)
  r2_i_x1 : Z; r2_i_min : Z; r2_i_max : Z;  (* int64_t *)
  r2_v_x1 : Z; r2_v_min : Z; r2_v_max : Z;
  r2_p_x1 : Z; r2_p_min : Z; r2_p_max : Z;
  r2_i_x2 : js220_i128; r2_i_int : js220_i128;
  r2_v_x2 : js220_i128;
  r2_p_x2 : js220_i128; r2_p_int : js220_i128;
}.

Definition div_u (a b : Z) : res Z := if b =? 0 then Fault DivByZero else Ok (a / b).

(** The error code, or the converted statistics. *)
Definition js220_stats_convert (src : js220_statistics_raw_s) : res (jsdrv_error_code_e + jsdrv_statistics_s) :=
  if negb (0x92 =? Z.shiftr (r2_header src) 24) then Ok (inl MESSAGE_INTEGRITY)
  else
    let decimate_factor := Z.land (Z.shiftr (r2_header src) 24) 0x0f in
    let block_sample_count := Z.land (r2_header src) 0x00ffffff in
    sample_freq ← div_u (r2_sample_freq src) decimate_factor;
    let mm_scale := f64_lit 1 (-31) in
    let avg_scale := f64_div (f64_of_Z 1) (f64_of_Z (Z.shiftl block_sample_count 31)) in
    i_std ← js220_i128_compute_std (r2_i_x1 src) (r2_i_x2 src) block_sample_count 31;
    v_std ← js220_i128_compute_std (r2_v_x1 src) (r2_v_x2 src) block_sample_count 31;
    let mm_scale_p := f64_lit 1 (-27) in
    let avg_scale_p := f64_div (f64_of_Z 1) (f64_of_Z (Z.shiftl block_sample_count 27)) in
    p_std ← js220_i128_compute_std (r2_p_x1 src) (r2_p_x2 src) block_sample_count 27;
    charge_f ← js220_i128_to_f64 (r2_i_int src) 31;
    energy_f ← js220_i128_to_f64 (r2_p_int src) 31;
    charge ← js220_i128_compute_integral (r2_i_int src) sample_freq;
    energy ← js220_i128_compute_integral (r2_p_int src) sample_freq;
    Ok (inr (mk_stats 1 decimate_factor block_sample_count (r2_sample_freq src) decimate_factor
               (r2_block_sample_id src) (r2_accum_sample_id src)
               (f64_mul (f64_of_Z (r2_i_x1 src)) avg_scale) i_std
               (f64_mul (f64_of_Z (r2_i_min src)) mm_scale) (f64_mul (f64_of_Z (r2_i_max src)) mm_scale)
               (f64_mul (f64_of_Z (r2_v_x1 src)) avg_scale) v_std
               (f64_mul (f64_of_Z (r2_v_min src)) mm_scale) (f64_mul (f64_of_Z (r2_v_max src)) mm_scale)
               (f64_mul (f64_of_Z (r2_p_x1 src)) avg_scale_p) p_std
               (f64_mul (f64_of_Z (r2_p_min src)) mm_scale_p) (f64_mul (f64_of_Z (r2_p_max src)) mm_scale_p)
               (f64_div charge_f (f64_of_Z sample_freq)) (f64_div energy_f (f64_of_Z sample_freq))
               charge energy)).

(** ** JS320 *)

Definition JS320_STATS_Q : Z := 52.
Definition JS320_STATS_Q_X2 : Z := 72.

Record js320_channel_raw_s := mk_channel { ch_x1 : js220_i128; ch_x2 : js220_i128; ch_integ : js220_i128; ch_min : Z; ch_max : Z }.

Record js320_statistics_raw_s := mk_js320_raw {
  r3_header : Z;              (* uint32_t *)
  r3_decimate : Z;            (* uint32_t *)
  r3_sample_freq : Z;         (* uint32_t *)
  r3_sample_count : Z;        (* uint32_t *)
  r3_block_sample_id : Z;     (* uint64_t *)
  r3_accum_sample_id : Z;     (* uint64_t *)
  r3_i : js320_channel_raw_s;
  r3_v : js320_channel_raw_s;
  r3_p : js320_channel_raw_s;
}.

Definition js320_compute_std (x1 x2 : js220_i128) (n q q_x2 : Z) : res f64 :=
  if n <? 2 then Ok (S754_zero false)
  else
    m ← js220_i128_to_f64 x1 q;
    let mean := f64_div m (f64_of_Z n) in
    x2_f ← js220_i128_to_f64 x2 q_x2;
    let var := f64_sub (f64_div x2_f (f64_of_Z n)) (f64_mul mean mean) in
    Ok (if SFltb (S754_zero false) var then f64_sqrt var else S754_zero false).

(** One channel: average, deviation, extremes. *)
Definition js320_channel (c : js320_channel_raw_s) (n : Z) : res (f64 * f64 * f64 * f64) :=
  let mm_scale := f64_lit 1 (- JS320_STATS_Q) in
  x ← js220_i128_to_f64 (ch_x1 c) JS320_STATS_Q;
  std ← js320_compute_std (ch_x1 c) (ch_x2 c) n JS320_STATS_Q JS320_STATS_Q_X2;
  Ok (f64_div x (f64_of_Z n), std, f64_mul (f64_of_Z (ch_min c)) mm_scale, f64_mul (f64_of_Z (ch_max c)) mm_scale).

Definition js320_stats_convert (src : js320_statistics_raw_s) : res (jsdrv_error_code_e + jsdrv_statistics_s) :=
  let version := u8 (Z.shiftr (r3_header src) 24) in
  let type := u8 (Z.shiftr (r3_header src) 16) in
  if negb (version =? 1) || negb (type =? 1) then Ok (inl MESSAGE_INTEGRITY)
  else if 0 =? r3_decimate src then Ok (inl MESSAGE_INTEGRITY)
  else
    let dec8 := if U8_MAX <? r3_decimate src then U8_MAX else u8 (r3_decimate src) in
    let z := S754_zero false in
    let n := r3_sample_count src in
    if 0 =? n then
      Ok (inr (mk_stats 1 dec8 n (r3_sample_freq src) (r3_decimate src) (r3_block_sample_id src) (r3_accum_sample_id src)
                 z z z z z z z z z z z z z z (mk_i128 0 0) (mk_i128 0 0)))
    else
      decimated_freq ← div_u (r3_sample_freq src) (r3_decimate src);
      '(i_avg, i_std, i_min, i_max) ← js320_channel (r3_i src) n;
      '(v_avg, v_std, v_min, v_max) ← js320_channel (r3_v src) n;
      '(p_avg, p_std, p_min, p_max) ← js320_channel (r3_p src) n;
      charge_f ← js220_i128_to_f64 (ch_integ (r3_i src)) JS320_STATS_Q;
      energy_f ← js220_i128_to_f64 (ch_integ (r3_p src)) JS320_STATS_Q;
      charge ← js220_i128_compute_integral (ch_integ (r3_i src)) decimated_freq;
      energy ← js220_i128_compute_integral (ch_integ (r3_p src)) decimated_freq;
      Ok (inr (mk_stats 1 dec8 n (r3_sample_freq src) (r3_decimate src) (r3_block_sample_id src) (r3_accum_sample_id src)
                 i_avg i_std i_min i_max v_avg v_std v_min v_max p_avg p_std p_min p_max
                 (f64_div charge_f (f64_of_Z decimated_freq)) (f64_div energy_f (f64_of_Z decimated_freq)) charge energy)).

(** ** JS110 *)

Record js110_stats_field_s := mk_field {
  fd_avg : f64; fd_std : f64; fd_min : f64; fd_max : f64;
  fd_x1 : Z;              (* int64_t *)
  fd_x2 : js220_i128;
}.

Record js110_stats_s := mk_js110_stats {
  s1_statistics : jsdrv_statistics_s;
  s1_sample_count : Z;    (* uint32_t *)
  s1_valid_count : Z;     (* uint32_t *)
  s1_i : js110_stats_field_s;  (* fields[0] *)
  s1_v : js110_stats_field_s;  (* fields[1] *)
  s1_p : js110_stats_field_s;  (* fields[2] *)
  s1_charge : js220_i128;
  s1_energy : js220_i128;
}.

(** [(2 - 2^-23) * 2^127] *)
Definition FLT_MAX : f64 := f64_lit (2 ^ 24 - 1) 104.

(** One of the three fields of [clear]. *)
Definition field0 : js110_stats_field_s :=
  mk_field (S754_zero false) (S754_zero false) FLT_MAX (f64_opp FLT_MAX) 0 (mk_i128 0 0).

Definition stats_set (s : jsdrv_statistics_s) (block_sample_count : Z) : jsdrv_statistics_s :=
  mk_stats (js_version s) 1 block_sample_count (js_sample_freq s) 1 0 0
    (js_i_avg s) (js_i_std s) (js_i_min s) (js_i_max s) (js_v_avg s) (js_v_std s) (js_v_min s) (js_v_max s)
    (js_p_avg s) (js_p_std s) (js_p_min s) (js_p_max s) (js_charge_f64 s) (js_energy_f64 s) (js_charge_i128 s) (js_energy_i128 s).

Definition js110_stats_clear (self : js110_stats_s) : js110_stats_s :=
  mk_js110_stats (stats_set (s1_statistics self) (js_block_sample_count (s1_statistics self))) 0 0 field0 field0 field0
    (mk_i128 0 0) (mk_i128 0 0).

Definition js110_stats_initialize : js110_stats_s :=
  let z := S754_zero false in
  js110_stats_clear (mk_js110_stats (mk_stats 1 1 1000000 2000000 1 0 0 z z z z z z z z z z z z z z (mk_i128 0 0) (mk_i128 0 0))
    0 0 field0 field0 field0 (mk_i128 0 0) (mk_i128 0 0)).

Definition js110_stats_sample_count_set (self : js110_stats_s) (sample_count : Z) : js110_stats_s :=
  let self := js110_stats_clear self in
  mk_js110_stats (stats_set (s1_statistics self) sample_count) (s1_sample_count self) (s1_valid_count self) (s1_i self) (s1_v self) (s1_p self)
    (s1_charge self) (s1_energy self).

(** The Q31 value of a float. *)
Definition q31 (x : f32) : res Z := f_to_i64 (f32_mul x (f32_lit 1 31)).

Definition update (f : js110_stats_field_s) (x : f32) : res js110_stats_field_s :=
  let xd := f64_of_f32 x in
  x_i64 ← q31 x;
  x1 ← chk_i 64 (fd_x1 f + x_i64);
  r ← js220_i128_square_i64 x_i64;
  Ok (mk_field (f64_add (fd_avg f) xd) (fd_std f)
        (if SFltb xd (fd_min f) then xd else fd_min f)
        (if SFltb (fd_max f) xd then xd else fd_max f)
        x1 (js220_i128_add (fd_x2 f) r)).

Definition finalize (f : js110_stats_field_s) (sample_count : Z) : res js110_stats_field_s :=
  if 0 =? sample_count then Ok (mk_field S754_nan S754_nan S754_nan S754_nan (fd_x1 f) (fd_x2 f))
  else
    std ← js220_i128_compute_std (fd_x1 f) (fd_x2 f) sample_count 31;
    Ok (mk_field (f64_div (fd_avg f) (f64_of_Z sample_count)) std (fd_min f) (fd_max f) (fd_x1 f) (fd_x2 f)).

(** The end of a block. *)
Definition js110_stats_block (self : js110_stats_s) : res (js110_stats_s * jsdrv_statistics_s) :=
  let s := s1_statistics self in
  let charge := js220_i128_add (s1_charge self) (js220_i128_init_i64 (fd_x1 (s1_i self))) in
  let energy := js220_i128_add (s1_energy self) (js220_i128_init_i64 (fd_x1 (s1_p self))) in
  fi ← finalize (s1_i self) (s1_valid_count self);
  fv ← finalize (s1_v self) (s1_valid_count self);
  fp ← finalize (s1_p self) (s1_valid_count self);
  sampling_freq ← div_u (js_sample_freq s) (js_decimate_factor s);
  a ← js220_i128_compute_integral charge sampling_freq;
  charge_f ← js220_i128_to_f64 a 31;
  b ← js220_i128_compute_integral energy sampling_freq;
  energy_f ← js220_i128_to_f64 b 31;
  let s := mk_stats (js_version s) (js_decimate_factor s) (js_block_sample_count s) (js_sample_freq s) (js_decimate_factor32 s)
             (js_block_sample_id s) (js_accum_sample_id s)
             (fd_avg fi) (fd_std fi) (fd_min fi) (fd_max fi) (fd_avg fv) (fd_std fv) (fd_min fv) (fd_max fv)
             (fd_avg fp) (fd_std fp) (fd_min fp) (fd_max fp) charge_f energy_f a b in
  Ok (mk_js110_stats s 0 0 fi fv fp charge energy, s).

(** The new state, and the statistics at the end of a block. *)
Definition js110_stats_compute (self : js110_stats_s) (i v p : f32) : res (js110_stats_s * option jsdrv_statistics_s) :=
  let '(fi, fv, fp) := if 0 =? s1_sample_count self then (field0, field0, field0) else (s1_i self, s1_v self, s1_p self) in
  let sample_count := u32 (s1_sample_count self + 1) in
  '(valid_count, fi, fv, fp) ←
    (if negb (f_is_nan i) && negb (f_is_nan v) && negb (f_is_nan p) then
       fi ← update fi i;
       fv ← update fv v;
       fp ← update fp p;
       Ok (u32 (s1_valid_count self + 1), fi, fv, fp)
     else Ok (s1_valid_count self, fi, fv, fp));
  let self := mk_js110_stats (s1_statistics self) sample_count valid_count fi fv fp (s1_charge self) (s1_energy self) in
  if sample_count =? js_block_sample_count (s1_statistics self) then
    '(self, s) ← js110_stats_block self; Ok (self, Some s)
  else Ok (self, None).

Definition sample := (f32 * f32 * f32)%type.

(** The samples of a stream in turn; the statistics in the order they are returned. *)
Fixpoint js110_stats_run (self : js110_stats_s) (xs : list sample) : res (js110_stats_s * list jsdrv_statistics_s) :=
  match xs with
  | [] => Ok (self, [])
  | (i, v, p) :: xs =>
      '(self, o) ← js110_stats_compute self i v p;
      '(self, os) ← js110_stats_run self xs;
      Ok (self, option_list o ++ os)
  end.

(** ** Conversion of the raw statistics *)

Lemma div_u_ok a b : 0 < b -> div_u a b = Ok (a / b).
Proof. intros H. unfold div_u. by rewrite (proj2 (Z.eqb_neq b 0)) by lia. Qed.

Lemma udiv_0 x : js220_i128_udiv x 0 = Fault DivByZero.
Proof. reflexivity. Qed.

Lemma compute_integral_total x n : wf_i128 x -> 0 < n < 2 ^ 64 -> exists r, js220_i128_compute_integral x n = Ok r /\ wf_i128 r.
Proof.
  intros Hx Hn. unfold js220_i128_compute_integral.
  case_if; (rewrite udiv_spec; [rewrite bind_Ok; eexists; split; [done|] | | done]).
  - rewrite neg_spec by apply of_Z_wf. apply of_Z_wf.
  - rewrite neg_spec by done. apply of_Z_wf.
  - apply of_Z_wf.
  - done.
Qed.

(** What the conversion relies on: the sums are integers of their width. *)
Definition wf_js220 (r : js220_statistics_raw_s) : Prop :=
  is_u 32 (r2_sample_freq r) /\ Forall (fun x => I64_MIN < x <= I64_MAX) [r2_i_x1 r; r2_v_x1 r; r2_p_x1 r]
  /\ Forall wf_i128 [r2_i_x2 r; r2_v_x2 r; r2_p_x2 r; r2_i_int r; r2_p_int r].

Definition wf_channel (c : js320_channel_raw_s) : Prop := Forall wf_i128 [ch_x1 c; ch_x2 c; ch_integ c].

Definition wf_js320 (r : js320_statistics_raw_s) : Prop :=
  is_u 32 (r3_sample_freq r) /\ is_u 32 (r3_decimate r) /\ is_u 32 (r3_sample_count r)
  /\ Forall wf_channel [r3_i r; r3_v r; r3_p r].

Lemma js220_convert_ok r : wf_js220 r -> Z.shiftr (r2_header r) 24 = 0x92 ->
  0 < Z.land (r2_header r) 0x00ffffff -> 2 <= r2_sample_freq r ->
  exists s, js220_stats_convert r = Ok (inr s).
Proof.
  intros (Hf & Hx & Hw) Hh Hn H2. unfold js220_stats_convert. rewrite Hh. change (0x92 =? 0x92) with true. cbn [negb].
  change (Z.land 0x92 0x0f) with 2. rewrite div_u_ok, bind_Ok by lia.
  set (n := Z.land _ _) in *. assert (0 < n < 2 ^ 64) as Hn'.
  { split; [done|]. unfold n. change 0x00ffffff with (Z.ones 24). rewrite Z.land_ones by lia.
    pose proof (Z.mod_pos_bound (r2_header r) (2 ^ 24) ltac:(lia)). lia. }
  assert (0 < r2_sample_freq r / 2 < 2 ^ 64) as Hd by (unfold is_u in Hf; div_lia).
  rewrite !Forall_cons in Hx; rewrite !Forall_cons in Hw. destruct Hx as (X1 & X2 & X3 & _), Hw as (W1 & W2 & W3 & W4 & W5 & _).
  destruct (compute_std_total _ _ n 31 X1 W1 Hn') as [? ->]. rewrite bind_Ok.
  destruct (compute_std_total _ _ n 31 X2 W2 Hn') as [? ->]. rewrite bind_Ok.
  destruct (compute_std_total _ _ n 27 X3 W3 Hn') as [? ->]. rewrite bind_Ok.
  destruct (to_f64_total _ 31 W4) as [? ->]. rewrite bind_Ok. destruct (to_f64_total _ 31 W5) as [? ->]. rewrite bind_Ok.
  destruct (compute_integral_total _ _ W4 Hd) as (? & -> & _). rewrite bind_Ok.
  destruct (compute_integral_total _ _ W5 Hd) as (? & -> & _). rewrite bind_Ok. eauto.
Qed.

Lemma js320_channel_total c n : wf_channel c -> exists r, js320_channel c n = Ok r.
Proof.
  unfold wf_channel. rewrite !Forall_cons. intros (W1 & W2 & _). unfold js320_channel, js320_compute_std.
  destruct (to_f64_total _ JS320_STATS_Q W1) as [f E]. rewrite E, bind_Ok. case_if; rewrite bind_Ok; [eauto|].
  destruct (to_f64_total _ JS320_STATS_Q_X2 W2) as [g ->]. rewrite !bind_Ok. eauto.
Qed.

(** Past the checks of the header, the conversion is a division by the decimated frequency. *)
Lemma js320_convert_ok r : wf_js320 r -> 0 < r3_decimate r <= r3_sample_freq r ->
  exists s, js320_stats_convert r = Ok s.
Proof.
  intros (Hf & Hdec & Hn & Hc) Hd. unfold js320_stats_convert. case_if; [eauto|]. simpl_cmp. cbv zeta. case_if; [eauto|].
  rewrite div_u_ok, bind_Ok by lia. rewrite !Forall_cons in Hc. destruct Hc as (C1 & C2 & C3 & _).
  assert (0 < r3_sample_freq r / r3_decimate r < 2 ^ 64) as Hq.
  { unfold is_u in Hf. split; [apply Z.div_str_pos; lia|].
    apply Z.div_lt_upper_bound; [lia|]. etransitivity; [apply Hf|]. nia. }
  destruct (js320_channel_total _ (r3_sample_count r) C1) as [[[[? ?] ?] ?] ->]. rewrite bind_Ok.
  destruct (js320_channel_total _ (r3_sample_count r) C2) as [[[[? ?] ?] ?] ->]. rewrite bind_Ok.
  destruct (js320_channel_total _ (r3_sample_count r) C3) as [[[[? ?] ?] ?] ->]. rewrite bind_Ok.
  unfold wf_channel in C1, C3. rewrite !Forall_cons in C1; rewrite !Forall_cons in C3. destruct C1 as (_ & _ & W1 & _), C3 as (_ & _ & W2 & _).
  destruct (to_f64_total _ JS320_STATS_Q W1) as [? ->]. rewrite bind_Ok.
  destruct (to_f64_total _ JS320_STATS_Q W2) as [? ->]. rewrite bind_Ok.
  destruct (compute_integral_total _ _ W1 Hq) as (? & -> & _). rewrite bind_Ok.
  destruct (compute_integral_total _ _ W2 Hq) as (? & -> & _). rewrite bind_Ok. eauto.
Qed.

Lemma compute_integral_0 x r : js220_i128_compute_integral x 0 <> Ok r.
Proof. unfold js220_i128_compute_integral. by case_if. Qed.

Lemma compute_std_0 x1 x2 q f : js220_i128_compute_std x1 x2 0 q <> Ok f.
Proof.
  unfold js220_i128_compute_std. intros H. apply res_bind_Ok in H as (a & _ & H). apply res_bind_Ok in H as (b & _ & H). done.
Qed.

Lemma js220_convert_inv r s : 0 <= r2_sample_freq r -> Z.shiftr (r2_header r) 24 = 0x92 -> js220_stats_convert r = Ok s ->
  0 < Z.land (r2_header r) 0x00ffffff /\ 2 <= r2_sample_freq r.
Proof.
  intros Hf Hh. unfold js220_stats_convert. rewrite Hh. change (0x92 =? 0x92) with true. cbn [negb].
  change (Z.land 0x92 0x0f) with 2. rewrite div_u_ok, bind_Ok by lia. set (n := Z.land _ _). intros E.
  assert (0 <= n) as Hn by (apply Z.land_nonneg; lia).
  apply res_bind_Ok in E as (i_std & Hi & E). split.
  - destruct (Z.eq_dec n 0) as [Z0|]; [|lia]. rewrite Z0 in Hi. by apply compute_std_0 in Hi.
  - destruct (Z.lt_ge_cases (r2_sample_freq r) 2); [|lia]. rewrite Z.div_small in E by lia.
    do 4 apply res_bind_Ok in E as (? & _ & E). apply res_bind_Ok in E as (? & Hc & _). by apply compute_integral_0 in Hc.
Qed.

Lemma js320_convert_inv r s : is_u 32 (r3_sample_freq r) -> is_u 32 (r3_decimate r) -> js320_stats_convert r = Ok s ->
  u8 (Z.shiftr (r3_header r) 24) <> 1 \/ u8 (Z.shiftr (r3_header r) 16) <> 1
  \/ r3_decimate r = 0 \/ r3_sample_count r = 0 \/ r3_decimate r <= r3_sample_freq r.
Proof.
  intros [Hf _] [Hd _] E. destruct (Z.lt_ge_cases (r3_sample_freq r) (r3_decimate r)) as [Hlt|]; [|lia].
  unfold js320_stats_convert in E. case_if_in E; [lia|]. case_if_in E; [lia|]. cbv zeta in E. case_if_in E; [lia|].
  rewrite div_u_ok, bind_Ok, Z.div_small in E by lia.
  apply res_bind_Ok in E as ([[[? ?] ?] ?] & _ & E). apply res_bind_Ok in E as ([[[? ?] ?] ?] & _ & E).
  apply res_bind_Ok in E as ([[[? ?] ?] ?] & _ & E). do 2 apply res_bind_Ok in E as (? & _ & E).
  apply res_bind_Ok in E as (? & Hc & _). by apply compute_integral_0 in Hc.
Qed.


Definition raw2_ex : js220_statistics_raw_s :=
  let z := mk_i128 0 0 in mk_js220_raw 0x92000002 1000000 0 0 4 1 3 4 1 3 4 1 3 (of_Z 10) (of_Z 4) (of_Z 10) (of_Z 10) z.
Definition raw3_ex (freq : Z) : js320_statistics_raw_s :=
  let c := mk_channel (of_Z 8) (of_Z 40) (of_Z 8) 1 3 in mk_js320_raw 0x01010000 16 freq 2 0 0 c c c.

Lemma wf_raw2_ex : wf_js220 raw2_ex.
Proof.
  split; [vm_compute; split; congruence|]. split; [repeat constructor; vm_compute; congruence|].
  repeat apply List.Forall_cons; try apply of_Z_wf; [|apply List.Forall_nil]. vm_compute; repeat split; congruence.
Qed.
Lemma wf_raw3_ex : wf_js320 (raw3_ex 15).
Proof.
  split; [vm_compute; split; congruence|]. split; [vm_compute; split; congruence|]. split; [vm_compute; split; congruence|].
  repeat apply List.Forall_cons; try apply List.Forall_nil; try apply of_Z_wf.
Qed.


(** ** The JS110 accumulators *)

Definition valid (x : sample) : bool := let '(i, v, p) := x in negb (f_is_nan i) && negb (f_is_nan v) && negb (f_is_nan p).

Definition q31v (x : f32) : Z := match q31 x with Ok z => z | Fault _ => 0 end.

(** The sum of [g] over the Q31 values of a field, samples with a NaN left out. *)
Definition qsum (g : Z -> Z) (sel : sample -> f32) (h : list sample) : Z :=
  foldr (fun x a => (if valid x then g (q31v (sel x)) else 0) + a) 0 h.

Definition nvalid (h : list sample) : Z := foldr (fun x a => (if valid x then 1 else 0) + a) 0 h.

Definition sel_i (x : sample) : f32 := x.1.1.
Definition sel_v (x : sample) : f32 := x.1.2.
Definition sel_p (x : sample) : f32 := x.2.
Definition sq (z : Z) : Z := z * z.

(** A field of the statistics after a block [b]. *)
Definition field_ok (sel : sample -> f32) (b : list sample) (avg std mn mx : f64) : Prop :=
  if nvalid b =? 0 then avg = S754_nan /\ std = S754_nan /\ mn = S754_nan /\ mx = S754_nan
  else js220_i128_compute_std (qsum id sel b) (of_Z (qsum sq sel b)) (nvalid b) 31 = Ok std
       /\ mn = foldl (fun m x => if valid x && SFltb (f64_of_f32 (sel x)) m then f64_of_f32 (sel x) else m) FLT_MAX b
       /\ mx = foldl (fun m x => if valid x && SFltb m (f64_of_f32 (sel x)) then f64_of_f32 (sel x) else m) (f64_opp FLT_MAX) b.

(** The statistics returned with the last sample of the stream [h]. *)
Definition stats_ok (n : Z) (h : list sample) (s : jsdrv_statistics_s) : Prop :=
  js220_i128_compute_integral (of_Z (qsum id sel_i h)) 2000000 = Ok (js_charge_i128 s)
  /\ js220_i128_compute_integral (of_Z (qsum id sel_p h)) 2000000 = Ok (js_energy_i128 s)
  /\ field_ok sel_i (lastn n h) (js_i_avg s) (js_i_std s) (js_i_min s) (js_i_max s)
  /\ field_ok sel_v (lastn n h) (js_v_avg s) (js_v_std s) (js_v_min s) (js_v_max s)
  /\ field_ok sel_p (lastn n h) (js_p_avg s) (js_p_std s) (js_p_min s) (js_p_max s).

(** Samples whose Q31 values are below [2^40]: current, voltage and power below 512. *)
Definition small (x : sample) : Prop :=
  valid x = true -> Forall (fun y => exists z, q31 y = Ok z /\ Z.abs z <= 2 ^ 40) [sel_i x; sel_v x; sel_p x].

Lemma qsum_app g sel h k : qsum g sel (h ++ k) = qsum g sel h + qsum g sel k.
Proof. unfold qsum. induction h as [|x h IH]; cbn; [done|]. rewrite IH. lia. Qed.

Lemma nvalid_app h k : nvalid (h ++ k) = nvalid h + nvalid k.
Proof. unfold nvalid. induction h as [|x h IH]; cbn; [done|]. rewrite IH. lia. Qed.

Lemma nvalid_range h : 0 <= nvalid h <= len h.
Proof.
  induction h as [|x h IH]; [by cbn|]. rewrite len_cons. unfold nvalid in *. cbn [foldr]. destruct (valid x); lia.
Qed.

Lemma small_q31 x sel : small x -> valid x = true -> sel x ∈ [sel_i x; sel_v x; sel_p x] -> q31 (sel x) = Ok (q31v (sel x)) /\ Z.abs (q31v (sel x)) <= 2 ^ 40.
Proof.
  intros H Hv Hin. specialize (H Hv). rewrite Forall_forall in H. destruct (H _ Hin) as (z & E & Hz). unfold q31v. by rewrite E.
Qed.

(** The state of a field after the samples [b] of a block. *)
Definition field_inv (sel : sample -> f32) (b : list sample) (f : js110_stats_field_s) : Prop :=
  fd_x1 f = qsum id sel b /\ fd_x2 f = of_Z (qsum sq sel b)
  /\ Z.abs (qsum id sel b) <= 2 ^ 40 * len b
  /\ fd_min f = foldl (fun m x => if valid x && SFltb (f64_of_f32 (sel x)) m then f64_of_f32 (sel x) else m) FLT_MAX b
  /\ fd_max f = foldl (fun m x => if valid x && SFltb m (f64_of_f32 (sel x)) then f64_of_f32 (sel x) else m) (f64_opp FLT_MAX) b.

Lemma field0_inv sel : field_inv sel [] field0.
Proof. repeat split. by vm_compute. Qed.

Lemma field_inv_skip sel b f x : valid x = false -> field_inv sel b f -> field_inv sel (b ++ [x]) f.
Proof.
  intros Hv (H1 & H2 & H3 & H4 & H5). unfold field_inv. rewrite !qsum_app, !foldl_app, len_app. cbn. rewrite Hv.
  change (len [x]) with 1. rewrite ?Z.add_0_r. repeat split; auto. lia.
Qed.

Lemma update_inv sel b f x : small x -> valid x = true -> sel x ∈ [sel_i x; sel_v x; sel_p x] -> len b < 2 ^ 22 ->
  field_inv sel b f -> exists f', update f (sel x) = Ok f' /\ field_inv sel (b ++ [x]) f'.
Proof.
  intros Hs Hv Hin Hb (H1 & H2 & H3 & H4 & H5). destruct (small_q31 x sel Hs Hv Hin) as [Hq Ha].
  unfold update. rewrite Hq, bind_Ok, chk_i_ok, bind_Ok by width_lia. rewrite square_spec, bind_Ok by width_lia.
  eexists. split; [reflexivity|]. unfold field_inv. rewrite !qsum_app, !foldl_app, len_app. change (len [x]) with 1. cbn. rewrite Hv. cbn.
  rewrite <- H4, <- H5, H1, H2, add_of_Z, !Z.add_0_r. repeat split.
  clear -H3 Ha. change (2 ^ 40) with 1099511627776 in *. lia.
Qed.

Lemma field_finalize_inv sel b f : len b <= 2 ^ 22 -> field_inv sel b f ->
  exists f', finalize f (nvalid b) = Ok f' /\ field_ok sel b (fd_avg f') (fd_std f') (fd_min f') (fd_max f').
Proof.
  intros Hb (H1 & H2 & H3 & H4 & H5). unfold finalize, field_ok. rewrite (Z.eqb_sym (nvalid b)). case_if; [eauto 10|].
  pose proof (nvalid_range b). rewrite H1, H2.
  destruct (compute_std_total (qsum id sel b) (of_Z (qsum sq sel b)) (nvalid b) 31) as [s Hs]; [width_lia | apply of_Z_wf | lia|].
  rewrite Hs, bind_Ok. eexists. by split.
Qed.

(** The state after the samples [pre ++ b], of which [b] are in the current block. *)
Definition stats_inv (n : Z) (pre b : list sample) (s : js110_stats_s) : Prop :=
  len b < n /\ (b <> [] -> field_inv sel_i b (s1_i s) /\ field_inv sel_v b (s1_v s) /\ field_inv sel_p b (s1_p s))
  /\ s1_sample_count s = len b /\ s1_valid_count s = nvalid b
  /\ s1_charge s = of_Z (qsum id sel_i pre) /\ s1_energy s = of_Z (qsum id sel_p pre)
  /\ js_block_sample_count (s1_statistics s) = n /\ js_sample_freq (s1_statistics s) = 2000000
  /\ js_decimate_factor (s1_statistics s) = 1.

Lemma stats_init_inv n self : 0 < n -> js_sample_freq (s1_statistics self) = 2000000 ->
  stats_inv n [] [] (js110_stats_sample_count_set self n).
Proof. intros Hn Hf. split; [by cbn|]. by repeat split. Qed.

Lemma block_inv n pre b s : 0 < n <= 2 ^ 22 -> len b = n ->
  field_inv sel_i b (s1_i s) -> field_inv sel_v b (s1_v s) -> field_inv sel_p b (s1_p s) ->
  s1_valid_count s = nvalid b -> s1_charge s = of_Z (qsum id sel_i pre) -> s1_energy s = of_Z (qsum id sel_p pre) ->
  js_block_sample_count (s1_statistics s) = n -> js_sample_freq (s1_statistics s) = 2000000 ->
  js_decimate_factor (s1_statistics s) = 1 ->
  exists s' o, js110_stats_block s = Ok (s', o) /\ stats_inv n (pre ++ b) [] s' /\ stats_ok n (pre ++ b) o.
Proof.
  intros Hn Hb Hi Hv Hp Hvc Hc He Hbc Hf Hd. unfold js110_stats_block. rewrite Hvc, Hc, He, Hf, Hd.
  assert (forall sel f, field_inv sel b f -> js220_i128_init_i64 (fd_x1 f) = of_Z (qsum id sel b)) as Hx.
  { intros sel f (-> & _ & H & _). apply init_of_Z. width_lia. }
  rewrite (Hx _ _ Hi), (Hx _ _ Hp), !add_of_Z, <- !qsum_app.
  destruct (field_finalize_inv sel_i b _ ltac:(lia) Hi) as (fi & -> & Ki). rewrite bind_Ok.
  destruct (field_finalize_inv sel_v b _ ltac:(lia) Hv) as (fv & -> & Kv). rewrite bind_Ok.
  destruct (field_finalize_inv sel_p b _ ltac:(lia) Hp) as (fp & -> & Kp). rewrite bind_Ok.
  rewrite div_u_ok, bind_Ok by done. change (2000000 / 1) with 2000000.
  destruct (compute_integral_total (of_Z (qsum id sel_i (pre ++ b))) 2000000) as (a & Ha & Wa); [apply of_Z_wf | done|].
  destruct (compute_integral_total (of_Z (qsum id sel_p (pre ++ b))) 2000000) as (e & Hee & We); [apply of_Z_wf | done|].
  destruct (to_f64_total a 31 Wa) as [ca Hca]. destruct (to_f64_total e 31 We) as [ce Hce].
  rewrite Ha, bind_Ok, Hca, bind_Ok, Hee, bind_Ok, Hce, bind_Ok. eexists _, _. split; [reflexivity|].
  assert (lastn n (pre ++ b) = b) as Hl.
  { unfold lastn. rewrite length_app. replace (length pre + length b - Z.to_nat n)%nat with (length pre) by (unfold len in Hb; lia).
    apply drop_app_length. }
  split; [|unfold stats_ok; rewrite Hl; by repeat split]. split; [change (0 < n); apply Hn|]. by repeat split.
Qed.

Lemma sample_inv n pre b s x : 0 < n <= 2 ^ 22 -> small x -> stats_inv n pre b s ->
  exists s' o, js110_stats_compute s (sel_i x) (sel_v x) (sel_p x) = Ok (s', o)
    /\ if len b + 1 =? n then stats_inv n (pre ++ b ++ [x]) [] s' /\ exists r, o = Some r /\ stats_ok n (pre ++ b ++ [x]) r
       else stats_inv n pre (b ++ [x]) s' /\ o = None.
Proof.
  intros Hn Hs (Hl & Hf & Hsc & Hvc & Hc & He & Hbc & Hfr & Hd). unfold js110_stats_compute. rewrite Hsc, Hvc.
  set (t := if 0 =? len b then _ else _).
  assert (field_inv sel_i b t.1.1 /\ field_inv sel_v b t.1.2 /\ field_inv sel_p b t.2) as (Ki & Kv & Kp).
  { unfold t. destruct b; [repeat split; by vm_compute|]. rewrite len_cons. pose proof (len_nonneg b). simpl_cmp. by apply Hf. }
  destruct t as [[fi fv] fp]. cbn [fst snd] in Ki, Kv, Kp.
  assert (exists vc fi' fv' fp',
    (if negb (f_is_nan (sel_i x)) && negb (f_is_nan (sel_v x)) && negb (f_is_nan (sel_p x)) then
       fi ← update fi (sel_i x);
       fv ← update fv (sel_v x);
       fp ← update fp (sel_p x);
       Ok (u32 (nvalid b + 1), fi, fv, fp)
     else Ok (nvalid b, fi, fv, fp)) = Ok (vc, fi', fv', fp')
    /\ vc = nvalid (b ++ [x]) /\ field_inv sel_i (b ++ [x]) fi' /\ field_inv sel_v (b ++ [x]) fv' /\ field_inv sel_p (b ++ [x]) fp')
    as (vc & fi' & fv' & fp' & -> & -> & Ki' & Kv' & Kp').
  { assert (negb (f_is_nan (sel_i x)) && negb (f_is_nan (sel_v x)) && negb (f_is_nan (sel_p x)) = valid x) as -> by (by destruct x as [[? ?] ?]).
    pose proof (nvalid_range b). rewrite nvalid_app. change (nvalid [x]) with ((if valid x then 1 else 0) + 0).
    destruct (valid x) eqn:Hv.
    - destruct (update_inv sel_i b fi x) as (fi' & -> & ?); [done | done | repeat constructor | lia | done|]. rewrite bind_Ok.
      destruct (update_inv sel_v b fv x) as (fv' & -> & ?); [done | done | repeat constructor | lia | done|]. rewrite bind_Ok.
      destruct (update_inv sel_p b fp x) as (fp' & -> & ?); [done | done | repeat constructor | lia | done|]. rewrite bind_Ok.
      eexists _, _, _, _. split; [reflexivity|]. split; [|done]. rewrite uwrap_small by width_lia. lia.
    - exists (nvalid b), fi, fv, fp. split; [done|]. split; [lia|]. auto using field_inv_skip. }
  pose proof (len_nonneg b). rewrite bind_Ok. cbv zeta. cbn [s1_statistics]. rewrite Hbc, uwrap_small by width_lia.
  case_if.
  - destruct (block_inv n pre (b ++ [x]) (mk_js110_stats (s1_statistics s) (len b + 1) (nvalid (b ++ [x])) fi' fv' fp' (s1_charge s) (s1_energy s)))
      as (s' & o & -> & Hi & Ho); try done; [rewrite len_app; change (len [x]) with 1; lia|].
    rewrite bind_Ok. eauto 10.
  - eexists _, _. split; [reflexivity|]. split; [|done]. unfold stats_inv.
    cbn [s1_i s1_v s1_p s1_sample_count s1_valid_count s1_charge s1_energy s1_statistics].
    rewrite len_app. change (len [x]) with 1. split; [lia|]. split; [auto|]. auto 10.
Qed.

Lemma stats_run_app s xs ys : js110_stats_run s (xs ++ ys) =
  ('(s, os) ← js110_stats_run s xs; '(s, os') ← js110_stats_run s ys; Ok (s, os ++ os')).
Proof.
  revert s; induction xs as [|[[i v] p] xs IH]; intros s; cbn [js110_stats_run Datatypes.app].
  - rewrite bind_Ok. by destruct (js110_stats_run s ys) as [[? ?]|].
  - destruct (js110_stats_compute s i v p) as [[s1 o]|]; cbn [mbind res_bind]; [|done]. rewrite IH.
    destruct (js110_stats_run s1 xs) as [[s2 os]|]; cbn; [|done].
    destruct (js110_stats_run s2 ys) as [[s3 os']|]; cbn; [|done]. by rewrite <- app_assoc.
Qed.

Lemma run_inv n self h : 0 < n <= 2 ^ 22 -> js_sample_freq (s1_statistics self) = 2000000 -> Forall small h ->
  exists pre b s os, h = pre ++ b /\ len pre mod n = 0 /\ js110_stats_run (js110_stats_sample_count_set self n) h = Ok (s, os)
    /\ stats_inv n pre b s /\ Forall2 (stats_ok n) (every n id h) os.
Proof.
  intros Hn Hf. induction h as [|x h IH] using rev_ind; intros Hs.
  - exists [], [], (js110_stats_sample_count_set self n), []. split; [done|]. split; [by rewrite Z.mod_0_l by lia|].
    split; [done|]. split; [apply stats_init_inv; [lia | done] | constructor].
  - apply Forall_app in Hs as [Hs Hx]. apply (proj1 (Forall_singleton small x)) in Hx. destruct (IH Hs) as (pre & b & s & os & -> & Hp & E & Hi & Hos).
    destruct (sample_inv n pre b s x Hn Hx Hi) as (s' & o & E' & Hcase).
    assert (js110_stats_run (js110_stats_sample_count_set self n) ((pre ++ b) ++ [x]) = Ok (s', os ++ option_list o)) as Hrun.
    { rewrite stats_run_app, E, bind_Ok. destruct x as [[i v] p]. cbn [js110_stats_run]. unfold sel_i, sel_v, sel_p in E'.
      cbn [fst snd] in E'. by rewrite E', !bind_Ok, app_nil_r. }
    rewrite every_snoc, len_app. pose proof (Z.div_mod (len pre) n ltac:(lia)) as Hdm. rewrite Hp in Hdm.
    assert ((len pre + len b + 1) mod n = (len b + 1) mod n) as ->.
    { replace (len pre + len b + 1) with (len b + 1 + len pre / n * n) by lia. by rewrite Z.mod_add by lia. }
    pose proof (len_nonneg b). destruct Hi as [Hb Hi]. case_if_in Hcase.
    + destruct Hcase as [Hi' (r & -> & Hr)]. exists (pre ++ b ++ [x]), [], s', (os ++ [r]).
      rewrite E0, Z.mod_same by lia. split; [by rewrite app_nil_r, app_assoc|]. split; [|split; [done|split; [done|]]].
      * rewrite !len_app. change (len [x]) with 1. rewrite E0. replace (len pre + n) with ((len pre / n + 1) * n) by lia. by rewrite Z.mod_mul by lia.
      * apply Forall2_app; [done|]. constructor; [|constructor]. by rewrite <- app_assoc.
    + destruct Hcase as [Hi' ->]. exists pre, (b ++ [x]), s', os. rewrite (Z.mod_small (len b + 1)) by lia. simpl_cmp.
      rewrite app_nil_r. rewrite app_nil_r in Hrun. split; [by rewrite app_assoc|]. auto.
Qed.

(** C38. The statistics that the host computes for a JS110: whatever samples arrive, of up to 512 A,
    V and W, one result comes out for every [n] samples, for any block size up to [2^22], and
    nothing overflows.  Samples with a NaN count towards the block only.  The charge and the energy
    are the integrals of the exact sum of all valid samples since the start, in 128 bits; the
    deviation of a block comes from its exact sums, and the extremes are those of its samples; a
    block without a valid sample gives NaN. *)
Theorem js110_stats_exact n self h : 0 < n <= 2 ^ 22 -> js_sample_freq (s1_statistics self) = 2000000 -> Forall small h ->
  exists s os, js110_stats_run (js110_stats_sample_count_set self n) h = Ok (s, os)
    /\ Forall2 (stats_ok n) (every n id h) os.
Proof.
  intros Hn Hf Hs. destruct (run_inv n self h Hn Hf Hs) as (pre & b & s & os & _ & _ & E & _ & Hos). eauto.
Qed.

(** Two blocks of two samples, one of them invalid. *)
Definition samples_ex : list sample :=
  let f m e := f32_lit m e in
  [(f 1 0, f 3 0, f 3 0); (f (-1) (-1), f 3 0, f (-3) (-1)); (S754_nan, f 3 0, S754_nan); (f 1 (-2), f 3 0, f 3 (-2))].

Lemma samples_ex_small : Forall small samples_ex.
Proof.
  repeat (apply List.Forall_cons; [intros H; try discriminate H; clear H|]); [..|apply List.Forall_nil];
    repeat (apply List.Forall_cons; [eexists; split; [vm_compute; reflexivity | vm_compute; congruence]|]); apply List.Forall_nil.
Qed.

Lemma js110_stats_exact_witness : exists s os,
  js110_stats_run (js110_stats_sample_count_set js110_stats_initialize 2) samples_ex = Ok (s, os)
  /\ Forall2 (stats_ok 2) [take 2 samples_ex; samples_ex] os.
Proof. apply (js110_stats_exact 2 js110_stats_initialize samples_ex); [lia | reflexivity | apply samples_ex_small]. Defined.
