(* ===== verification/Effect.v ===== *)
(** * Operations with a state and calls to the outside

    Threads and drivers keep a state of their own and act on the rest of the library through a few
    calls: they publish, subscribe, send to the device, set a timeout.  An operation is a function on
    the state that also gives these calls in order, in the error monad: state, faults and output in
    one monad, with rules for total correctness. *)

From S2P Require Import Prelude.

Definition eff (E S A : Type) : Type := S -> res (A * S * list E).

#[global] Instance op_ret E S : MRet (eff E S) := fun A a s => Ok (a, s, []).
#[global] Instance op_bind E S : MBind (eff E S) := fun A B k m s =>
  match m s with
  | Ok (a, s', o) => match k a s' with Ok (b, s'', o') => Ok (b, s'', o ++ o') | Fault f => Fault f end
  | Fault f => Fault f
  end.

Definition get {E S} : eff E S S := fun s => Ok (s, s, []).
Definition modify {E S} (f : S -> S) : eff E S unit := fun s => Ok (tt, f s, []).
Definition lift {E S A} (m : res A) : eff E S A := fun s => match m with Ok a => Ok (a, s, []) | Fault f => Fault f end.

Lemma op_bind_Ok {E S A B} (m : eff E S A) (k : A -> eff E S B) s r s' o : (m ≫= k) s = Ok (r, s', o) <->
  exists a s1 o1 o2, m s = Ok (a, s1, o1) /\ k a s1 = Ok (r, s', o2) /\ o = o1 ++ o2.
Proof.
  unfold mbind, op_bind. split.
  - destruct (m s) as [[[a s1] o1]|] eqn:E1; [|done]. destruct (k a s1) as [[[b s2] o2]|] eqn:E2; [|done].
    intros [= -> -> <-]. eauto 10.
  - intros (a & s1 & o1 & o2 & -> & -> & ->). done.
Qed.

(** Running the first call of an operation. *)
Lemma run_ret {E S A B} (a : A) (k : A -> eff E S B) s : (mret a ≫= k) s = k a s.
Proof. unfold mbind, op_bind, mret, op_ret. by destruct (k a s) as [[[? ?] ?]|]. Qed.

Lemma run_get {E S B} (k : S -> eff E S B) s : (get ≫= k) s = k s s.
Proof. unfold mbind, op_bind, get. by destruct (k s s) as [[[? ?] ?]|]. Qed.

Lemma run_modify {E S B} (f : S -> S) (k : unit -> eff E S B) s : (modify f ≫= k) s = k tt (f s).
Proof. unfold mbind, op_bind, modify. by destruct (k tt (f s)) as [[[? ?] ?]|]. Qed.

Lemma run_lift_ok {E S A B} (a : A) (k : A -> eff E S B) s : (lift (Ok a) ≫= k) s = k a s.
Proof. unfold mbind, op_bind, lift. by destruct (k a s) as [[[? ?] ?]|]. Qed.

Lemma run_assoc {E S A B C} (m : eff E S A) (f : A -> eff E S B) (g : B -> eff E S C) s :
  ((m ≫= f) ≫= g) s = (m ≫= fun a => f a ≫= g) s.
Proof.
  unfold mbind, op_bind. destruct (m s) as [[[a s1] o1]|]; [|done]. destruct (f a s1) as [[[b s2] o2]|]; [|done].
  destruct (g b s2) as [[[c s3] o3]|]; [|done]. by rewrite app_assoc.
Qed.

Lemma run_bind {E S A B} (m : eff E S A) (k : A -> eff E S B) s a s1 o1 : m s = Ok (a, s1, o1) ->
  (m ≫= k) s = match k a s1 with Ok (b, s2, o2) => Ok (b, s2, o1 ++ o2) | Fault f => Fault f end.
Proof. intros Hm. unfold mbind, op_bind. by rewrite Hm. Qed.

Create Rewrite HintDb op.
#[export] Hint Rewrite @run_ret @run_get @run_modify @run_lift_ok @run_assoc : op.

(** ** Total correctness of operations *)

(** [m] runs from [s] without a fault, and what it leaves satisfies [Q]. *)
Definition wp {E S A} (m : eff E S A) (s : S) (Q : A -> S -> list E -> Prop) : Prop :=
  exists a s' o, m s = Ok (a, s', o) /\ Q a s' o.

Section Wp.
Context {E S : Type}.
Implicit Types s : S.

Lemma wp_ret {A} (a : A) s (Q : A -> S -> list E -> Prop) : Q a s [] -> wp (mret a) s Q.
Proof. intros HQ. by exists a, s, []. Qed.

Lemma wp_bind {A B} (m : eff E S A) (k : A -> eff E S B) s (Q : B -> S -> list E -> Prop) :
  wp m s (fun a s1 o1 => wp (k a) s1 (fun b s2 o2 => Q b s2 (o1 ++ o2))) -> wp (m ≫= k) s Q.
Proof.
  intros (a & s1 & o1 & E1 & b & s2 & o2 & E2 & HQ). exists b, s2, (o1 ++ o2). split; [|done]. rewrite (run_bind _ _ _ _ _ _ E1). by rewrite E2.
Qed.

Lemma wp_mono {A} (m : eff E S A) s (P Q : A -> S -> list E -> Prop) : wp m s P -> (forall a s' o, P a s' o -> Q a s' o) -> wp m s Q.
Proof. intros (a & s' & o & Hm & HP) HQ. exists a, s', o. auto. Qed.

Lemma wp_get s (Q : S -> S -> list E -> Prop) : Q s s [] -> wp get s Q.
Proof. intros HQ. by exists s, s, []. Qed.

Lemma wp_modify f s (Q : unit -> S -> list E -> Prop) : Q tt (f s) [] -> wp (modify f) s Q.
Proof. intros HQ. by exists tt, (f s), []. Qed.

Lemma wp_lift {A} (m : res A) s a (Q : A -> S -> list E -> Prop) : m = Ok a -> Q a s [] -> wp (lift m) s Q.
Proof. intros -> HQ. by exists a, s, []. Qed.
End Wp.

(** ** Partial correctness: what a run that does not fault leaves *)

Definition wlp {E S A} (m : eff E S A) (s : S) (Q : A -> S -> list E -> Prop) : Prop :=
  forall a s' o, m s = Ok (a, s', o) -> Q a s' o.

Section Wlp.
Context {E S : Type}.
Implicit Types s : S.

Lemma wlp_ret {A} (a : A) s (Q : A -> S -> list E -> Prop) : Q a s [] -> wlp (mret a) s Q.
Proof. intros HQ a' s' o Hm. injection Hm as <- <- <-. done. Qed.

Lemma wlp_bind {A B} (m : eff E S A) (k : A -> eff E S B) s (Q : B -> S -> list E -> Prop) :
  wlp m s (fun a s1 o1 => wlp (k a) s1 (fun b s2 o2 => Q b s2 (o1 ++ o2))) -> wlp (m ≫= k) s Q.
Proof. intros H b s2 o Hm. apply op_bind_Ok in Hm as (a & s1 & o1 & o2 & E1 & E2 & ->). by apply (H a s1 o1 E1). Qed.

Lemma wlp_mono {A} (m : eff E S A) s (P Q : A -> S -> list E -> Prop) : wlp m s P -> (forall a s' o, P a s' o -> Q a s' o) -> wlp m s Q.
Proof. intros HP HQ a s' o Hm. by apply HQ, HP. Qed.

Lemma wlp_get s (Q : S -> S -> list E -> Prop) : Q s s [] -> wlp get s Q.
Proof. intros HQ a s' o Hm. injection Hm as <- <- <-. done. Qed.

Lemma wlp_modify f s (Q : unit -> S -> list E -> Prop) : Q tt (f s) [] -> wlp (modify f) s Q.
Proof. intros HQ a s' o Hm. injection Hm as <- <- <-. done. Qed.

Lemma wlp_lift {A} (m : res A) s (Q : A -> S -> list E -> Prop) : (forall a, m = Ok a -> Q a s []) -> wlp (lift m) s Q.
Proof. intros HQ a s' o Hm. unfold lift in Hm. destruct m; [|done]. injection Hm as <- <- <-. by apply HQ. Qed.

Lemma wp_wlp {A} (m : eff E S A) s (P Q : A -> S -> list E -> Prop) : wp m s P -> wlp m s Q -> wp m s (fun a s' o => P a s' o /\ Q a s' o).
Proof. intros (a & s' & o & Hm & HP) HQ. exists a, s', o. split; [done|]. split; [done|]. by apply HQ. Qed.
End Wlp.
