(* ===== verification/MbDev.v ===== *)
(** * The interface of the upper drivers to a MiniBitty device
    (include_private/jsdrv_prv/devices/mb_device/mb_drv.h, include_private/mb/stdmsg.h)

    The JTAG, firmware update and calibration state machines run inside an upper driver.  They act
    on the world through three calls only, [jsdrvp_mb_dev_publish_to_device],
    [jsdrvp_mb_dev_send_to_frontend] and [jsdrvp_mb_dev_set_timeout]; an operation is a function on
    the state that also gives the calls in order.  The memory transactions are bytes, as sent. *)

From Stdlib Require Import Strings.String.
From S2P Require Import Prelude Effect.

(** ** Little-endian fields *)

Fixpoint le (n : nat) (z : Z) : list Z :=
  match n with
  | O => []
  | S n => z mod 256 :: le n (z / 256)
  end.

Fixpoint un_le (l : list Z) : Z :=
  match l with
  | [] => 0
  | b :: l => b + 256 * un_le l
  end.

(** The [n]-byte integer at byte [i]. *)
Definition ld_le (n : nat) (m : list Z) (i : Z) : res Z :=
  if (0 <=? i) && (i + Z.of_nat n <=? len m) then Ok (un_le (take n (drop (Z.to_nat i) m))) else Fault OutOfBounds.

Lemma length_le n z : length (le n z) = n.
Proof. revert z; induction n as [|n IH]; intros z; [done|]. cbn. by rewrite IH. Qed.

Lemma un_le_le n z : 0 <= z < 256 ^ Z.of_nat n -> un_le (le n z) = z.
Proof.
  revert z; induction n as [|n IH]; intros z Hz; cbn [le un_le]; [cbn in Hz; lia|].
  rewrite Nat2Z.inj_succ, Z.pow_succ_r in Hz by lia. rewrite IH; [|div_lia].
  pose proof (Z.div_mod z 256 ltac:(lia)). lia.
Qed.

Lemma un_le_range l : Forall (is_u 8) l -> 0 <= un_le l < 256 ^ len l.
Proof.
  induction 1 as [|b l [Hb1 Hb2] _ IH]; [change (0 <= 0 < 1); lia|]. rewrite len_cons. pose proof (len_nonneg l). rewrite Z.pow_add_r by lia. cbn [un_le].
  change (2 ^ 8) with 256 in Hb2. change (256 ^ 1) with 256. lia.
Qed.

(** ** Values *)

Inductive union_type := UNION_BIN | UNION_STDMSG | UNION_U8 | UNION_U32 | UNION_STR | UNION_OTHER.

#[global] Instance union_type_eq_dec : EqDecision union_type.
Proof. solve_decision. Defined.

(** A [jsdrv_union_s]: for the pointer types the bytes at [value.bin], [size] of them; for a number its value, with size 0. *)
Record value_s := mk_value { v_type : union_type; v_bin : list Z; v_int : Z }.

Definition v_size (v : value_s) : Z := len (v_bin v).
Definition is_type (t : union_type) (v : value_s) : bool := bool_decide (v_type v = t).

Definition jsdrv_union_bin (b : list Z) : value_s := mk_value UNION_BIN b 0.
Definition union_stdmsg (b : list Z) : value_s := mk_value UNION_STDMSG b 0.
Definition jsdrv_union_u8 (z : Z) : value_s := mk_value UNION_U8 [] (u8 z).
Definition jsdrv_union_u32 (z : Z) : value_s := mk_value UNION_U32 [] (u32 z).

(** ** Memory transactions *)

Definition MB_STDMSG_MEM : Z := 7.
Definition MB_STDMSG_MEM_OP_READ : Z := 1.
Definition MB_STDMSG_MEM_OP_WRITE : Z := 2.
Definition MB_STDMSG_MEM_OP_ERASE : Z := 3.
Definition MB_STDMSG_MEM_OP_CUSTOM_START : Z := 8.
Definition HDR_SIZE : Z := 8.
Definition MEM_SIZE : Z := 24.

Record mb_stdmsg_mem_s := mk_mem {
  mm_transaction_id : Z;  (* uint32_t *)
  mm_target : Z;          (* uint8_t *)
  mm_operation : Z;       (* uint8_t *)
  mm_flags : Z;           (* uint8_t *)
  mm_status : Z;          (* uint8_t *)
  mm_timeout_ms : Z;      (* uint16_t *)
  mm_offset : Z;          (* uint32_t *)
  mm_length : Z;          (* uint32_t *)
  mm_delay_us : Z;        (* uint32_t *)
  mm_data : list Z;
}.

(** version 0, the type, the origin prefix h, metadata 0 *)
Definition hdr_bytes : list Z := [0; 0; MB_STDMSG_MEM; 104; 0; 0; 0; 0].

Definition mem_bytes (m : mb_stdmsg_mem_s) : list Z :=
  le 4 (mm_transaction_id m) ++ [mm_target m; mm_operation m; mm_flags m; mm_status m]
  ++ le 2 (mm_timeout_ms m) ++ [0; 0] ++ le 4 (mm_offset m) ++ le 4 (mm_length m) ++ le 4 (mm_delay_us m) ++ mm_data m.

(** What a device reads back from the bytes. *)
Definition mem_parse (b : list Z) : option mb_stdmsg_mem_s :=
  match b with
  | t0 :: t1 :: t2 :: t3 :: tgt :: op :: fl :: st :: to0 :: to1 :: _ :: _ :: o0 :: o1 :: o2 :: o3 :: l0 :: l1 :: l2 :: l3
      :: d0 :: d1 :: d2 :: d3 :: data =>
      Some (mk_mem (un_le [t0; t1; t2; t3]) tgt op fl st (un_le [to0; to1]) (un_le [o0; o1; o2; o3]) (un_le [l0; l1; l2; l3])
              (un_le [d0; d1; d2; d3]) data)
  | _ => None
  end.

Definition mem_fits (m : mb_stdmsg_mem_s) : Prop :=
  is_u 32 (mm_transaction_id m) /\ is_u 16 (mm_timeout_ms m) /\ is_u 32 (mm_offset m) /\ is_u 32 (mm_length m) /\ is_u 32 (mm_delay_us m).

Lemma mem_parse_bytes m : mem_fits m -> mem_parse (mem_bytes m) = Some m.
Proof.
  intros (H1 & H2 & H3 & H4 & H5). destruct m as [t tgt op fl sta tmo o l d data]. cbn [mm_transaction_id mm_timeout_ms mm_offset mm_length mm_delay_us] in *.
  pose proof (un_le_le 4 t H1) as E1. pose proof (un_le_le 2 tmo H2) as E2. pose proof (un_le_le 4 o H3) as E3.
  pose proof (un_le_le 4 l H4) as E4. pose proof (un_le_le 4 d H5) as E5.
  unfold mem_bytes. cbn [le Datatypes.app mm_transaction_id mm_target mm_operation mm_flags mm_status mm_timeout_ms mm_offset mm_length mm_delay_us mm_data mem_parse].
  cbn [le] in *. by rewrite E1, E2, E3, E4, E5.
Qed.

(** ** Operations *)

Inductive action :=
  | ToDevice (topic : string) (v : value_s)
  | ToFrontend (topic : string) (v : value_s)
  | SetTimeout (timeout_utc : Z).

Abbreviation op := (eff action).

(** A driver that caches a device handle; a call through a null handle is undefined. *)
Class HasDev (S : Type) := dev_open : S -> bool.

Definition act {S} `{HasDev S} (a : action) : op S unit := fun s => if dev_open s then Ok (tt, s, [a]) else Fault OutOfBounds.
Definition to_device {S} `{HasDev S} (topic : string) (v : value_s) : op S unit := act (ToDevice topic v).
Definition to_frontend {S} `{HasDev S} (topic : string) (v : value_s) : op S unit := act (ToFrontend topic v).
Definition set_timeout {S} `{HasDev S} (t : Z) : op S unit := act (SetTimeout t).

Lemma run_act {S B} `{HasDev S} a (k : unit -> op S B) s : dev_open s = true ->
  (act a ≫= k) s = match k tt s with Ok (b, s', o) => Ok (b, s', a :: o) | Fault f => Fault f end.
Proof. intros E. unfold mbind, op_bind, act. by rewrite E. Qed.

Lemma wp_act {S} `{HasDev S} a (s : S) (Q : unit -> S -> list action -> Prop) : dev_open s = true -> Q tt s [a] -> wp (act a) s Q.
Proof. intros Hd HQ. exists tt, s, [a]. unfold act. by rewrite Hd. Qed.
