(* ===== verification/Jtag.v ===== *)
(** * JS320 JTAG: programming the AES key fuses of the FPGA (src/devices/js320/js320_jtag.c)

    A command starts a fixed dialogue with the ECP5 over JTAG: read the identifier, check the status
    and that the key fuses are blank, burn the key, then the encrypt-only and key-lock fuses that the
    command asks for, each read back, and answer.  Fuses cannot be unburned, so what matters is that
    nothing is burned unless every check passed, and that the answer tells the truth. *)

From Stdlib Require Import Strings.String.
From S2P Require Import Prelude ErrorCode Time Effect MbDev.

Definition TAP_TEST_LOGIC_RESET : Z := 0.
Definition TAP_RUN_TEST_IDLE : Z := 1.
Definition TAP_SHIFT_DR : Z := 4.
Definition TAP_SHIFT_IR : Z := 11.

Definition ECP5_LFE5U25_IDCODE : Z := 0x41111043.
Definition ECP5_READ_ID : Z := 0xE0.
Definition ECP5_ISC_ENABLE : Z := 0xC6.
Definition ECP5_ISC_DISABLE : Z := 0x26.
Definition ECP5_LSC_READ_STATUS : Z := 0x3C.
Definition ECP5_LSC_INIT_ADDRESS : Z := 0x46.
Definition ECP5_LSC_READ_CIPHER_KEY : Z := 0xF4.
Definition ECP5_LSC_PROG_CIPHER_KEY : Z := 0xF3.
Definition ECP5_LSC_PROG_FEABITS : Z := 0xF8.
Definition ECP5_LSC_READ_FEABITS : Z := 0xFB.

Definition ECP5_BLANK_CIPHER_KEY : list Z :=
  [0xD5; 0x53; 0x51; 0x69; 0x0F; 0xF2; 0x17; 0xAE; 0x6C; 0xEA; 0xA3; 0x45; 0xB4; 0xF1; 0x43; 0x00].

Definition ECP5_AES_FLAG_KEY_LOCK : Z := 1.
Definition ECP5_AES_FLAG_ENCRYPT_ONLY : Z := 2.

Definition JS320_JTAG_OP_GOTO_STATE : Z := MB_STDMSG_MEM_OP_CUSTOM_START.
Definition JS320_JTAG_OP_SHIFT : Z := MB_STDMSG_MEM_OP_CUSTOM_START + 1.

Inductive aes_state_e :=
  | AES_IDLE | AES_READ_IDCODE | AES_ISC_ENABLE | AES_READ_STATUS | AES_INIT_ADDRESS | AES_READ_CIPHER
  | AES_PROG_CIPHER | AES_KEY_BURN_WAIT | AES_PROG_EO | AES_EO_BURN_WAIT | AES_VERIFY_EO | AES_PROG_KL
  | AES_KL_BURN_WAIT | AES_VERIFY_KL | AES_ISC_DISABLE | AES_DONE.

#[global] Instance aes_state_eq_dec : EqDecision aes_state_e.
Proof. solve_decision. Defined.

Inductive aes_event_e := AES_EV_CMD | AES_EV_JTAG_RSP | AES_EV_TIMER.

#[global] Instance aes_event_eq_dec : EqDecision aes_event_e.
Proof. solve_decision. Defined.

Record js320_jtag_s := mk_jtag {
  jt_dev : bool;                     (* the handle is not null *)
  jt_state : aes_state_e;
  jt_transaction_id : Z;             (* uint32_t *)
  jt_cmd_id : Z;                     (* uint32_t *)
  jt_flags : Z;                      (* uint32_t *)
  jt_key : list Z;                   (* uint8_t[16] *)
  jt_error_code : Z;                 (* int32_t *)
  jt_expected_responses : Z;         (* uint8_t *)
  jt_current_response_idx : Z;       (* uint8_t *)
  jt_target_response_idx : Z;        (* uint8_t *)
  jt_response_buf : list Z;          (* uint8_t[16] *)
  jt_response_size : Z;              (* uint8_t *)
}.

#[global] Instance jtag_dev : HasDev js320_jtag_s := jt_dev.

Definition set_state (s : js320_jtag_s) (x : aes_state_e) : js320_jtag_s :=
  mk_jtag (jt_dev s) x (jt_transaction_id s) (jt_cmd_id s) (jt_flags s) (jt_key s) (jt_error_code s) (jt_expected_responses s)
    (jt_current_response_idx s) (jt_target_response_idx s) (jt_response_buf s) (jt_response_size s).
Definition set_ids (s : js320_jtag_s) (transaction_id cmd_id : Z) : js320_jtag_s :=
  mk_jtag (jt_dev s) (jt_state s) transaction_id cmd_id (jt_flags s) (jt_key s) (jt_error_code s) (jt_expected_responses s)
    (jt_current_response_idx s) (jt_target_response_idx s) (jt_response_buf s) (jt_response_size s).
Definition set_error (s : js320_jtag_s) (error_code : Z) : js320_jtag_s :=
  mk_jtag (jt_dev s) (jt_state s) (jt_transaction_id s) (jt_cmd_id s) (jt_flags s) (jt_key s) error_code (jt_expected_responses s)
    (jt_current_response_idx s) (jt_target_response_idx s) (jt_response_buf s) (jt_response_size s).
Definition set_responses (s : js320_jtag_s) (expected current target : Z) (buf : list Z) (size : Z) : js320_jtag_s :=
  mk_jtag (jt_dev s) (jt_state s) (jt_transaction_id s) (jt_cmd_id s) (jt_flags s) (jt_key s) (jt_error_code s) expected current target buf size.
Definition set_expected (s : js320_jtag_s) (expected : Z) : js320_jtag_s :=
  set_responses s expected (jt_current_response_idx s) (jt_target_response_idx s) (jt_response_buf s) (jt_response_size s).

(** ** Commands to the TAP *)

(** [++self->aes_jtag_cmd_id] *)
Definition next_cmd_id : op js320_jtag_s Z :=
  s ← get;
  let id := u32 (jt_cmd_id s + 1) in
  modify (fun s => set_ids s (jt_transaction_id s) id) ;; mret id.

Definition jtag_send (operation flags offset length delay_us : Z) (data : list Z) : op js320_jtag_s unit :=
  id ← next_cmd_id;
  to_device "c/jtag/!cmd" (union_stdmsg (hdr_bytes ++ mem_bytes (mk_mem id 0 operation flags 0 0 offset length delay_us data))).

Definition jtag_goto (state : Z) : op js320_jtag_s unit := jtag_send JS320_JTAG_OP_GOTO_STATE 0 state 0 0 [].

Definition jtag_wait_us (microseconds : Z) : op js320_jtag_s unit :=
  jtag_send JS320_JTAG_OP_GOTO_STATE 0 TAP_RUN_TEST_IDLE 0 microseconds [].

(** The bytes of [data], whose length is [(bits + 7) / 8]. *)
Definition jtag_shift (data : list Z) (bits : Z) (must_end : bool) : op js320_jtag_s unit :=
  jtag_send JS320_JTAG_OP_SHIFT (if must_end then 1 else 0) 0 bits 0 data ;;
  modify (fun s => set_expected s (u8 (jt_expected_responses s + 1))).

Definition aes_begin_batch (target_idx target_size : Z) : op js320_jtag_s unit :=
  modify (fun s => set_responses s 0 0 target_idx (replicate 16 0) target_size).

Definition ecp_jtag_cmd (cmd : Z) : op js320_jtag_s unit :=
  jtag_goto TAP_SHIFT_IR ;;
  jtag_shift [cmd] 8 true ;;
  jtag_goto TAP_RUN_TEST_IDLE ;;
  jtag_shift (replicate 4 0) 32 false.

Definition ecp_jtag_cmd8 (cmd operand : Z) : op js320_jtag_s unit :=
  jtag_goto TAP_SHIFT_IR ;;
  jtag_shift [cmd] 8 true ;;
  jtag_goto TAP_SHIFT_DR ;;
  jtag_shift [operand] 8 true ;;
  jtag_goto TAP_RUN_TEST_IDLE ;;
  jtag_shift (replicate 4 0) 32 false.

(** ** Entering a state *)

Definition on_read_idcode : op js320_jtag_s unit :=
  aes_begin_batch 1 4 ;;
  jtag_goto TAP_TEST_LOGIC_RESET ;;
  jtag_goto TAP_SHIFT_IR ;;
  jtag_shift [ECP5_READ_ID] 8 true ;;
  jtag_goto TAP_SHIFT_DR ;;
  jtag_shift (replicate 4 0) 32 true.

Definition on_isc_enable : op js320_jtag_s unit :=
  aes_begin_batch 0xFF 0 ;;
  ecp_jtag_cmd8 ECP5_ISC_ENABLE 0x02 ;;
  jtag_wait_us 10000.

(** The read-outs of the status, the cipher key and the feature bits. *)
Definition on_read (ir idle_bits size : Z) : op js320_jtag_s unit :=
  aes_begin_batch 2 size ;;
  jtag_goto TAP_SHIFT_IR ;;
  jtag_shift [ir] 8 true ;;
  jtag_goto TAP_RUN_TEST_IDLE ;;
  jtag_shift [0] idle_bits false ;;
  jtag_wait_us 1000 ;;
  jtag_goto TAP_SHIFT_DR ;;
  jtag_shift (replicate (Z.to_nat size) 0) (8 * size) true.

Definition on_read_status : op js320_jtag_s unit := on_read ECP5_LSC_READ_STATUS 2 4.

Definition on_init_address : op js320_jtag_s unit :=
  aes_begin_batch 0xFF 0 ;;
  ecp_jtag_cmd8 ECP5_LSC_INIT_ADDRESS 0x00 ;;
  jtag_wait_us 10000.

Definition on_read_cipher : op js320_jtag_s unit := on_read ECP5_LSC_READ_CIPHER_KEY 5 16.

Definition on_prog_cipher : op js320_jtag_s unit :=
  aes_begin_batch 0xFF 0 ;;
  jtag_goto TAP_SHIFT_IR ;;
  jtag_shift [ECP5_LSC_PROG_CIPHER_KEY] 8 true ;;
  s ← get;
  jtag_goto TAP_SHIFT_DR ;;
  jtag_shift (reverse (jt_key s)) 128 true ;;
  jtag_goto TAP_RUN_TEST_IDLE ;;
  jtag_shift (replicate 13 0) 100 false.

(** [now] is what [jsdrv_time_utc] returns. *)
Definition on_burn_wait (now seconds : Z) : op js320_jtag_s unit := set_timeout (now + seconds * JSDRV_TIME_SECOND).

Definition on_prog_feabits (feabits_value : Z) : op js320_jtag_s unit :=
  aes_begin_batch 0xFF 0 ;;
  jtag_goto TAP_SHIFT_IR ;;
  jtag_shift [ECP5_LSC_PROG_FEABITS] 8 true ;;
  jtag_goto TAP_SHIFT_DR ;;
  jtag_shift [feabits_value; 0x00] 16 true ;;
  jtag_goto TAP_RUN_TEST_IDLE ;;
  jtag_shift [0] 2 false.

Definition on_read_feabits : op js320_jtag_s unit := on_read ECP5_LSC_READ_FEABITS 2 2.

Definition on_isc_disable : op js320_jtag_s unit :=
  aes_begin_batch 0xFF 0 ;;
  ecp_jtag_cmd ECP5_ISC_DISABLE ;;
  jtag_wait_us 50000 ;; jtag_wait_us 50000 ;; jtag_wait_us 50000 ;; jtag_wait_us 50000 ;;
  ecp_jtag_cmd 0xFF ;;
  jtag_wait_us 1000.

Definition aes_send_rsp (status : Z) : op js320_jtag_s unit :=
  s ← get;
  to_frontend "h/jtag/aes/!rsp" (jsdrv_union_bin (le 4 (jt_transaction_id s) ++ le 4 status)).

Definition on_done : op js320_jtag_s unit :=
  s ← get;
  aes_send_rsp (jt_error_code s) ;;
  modify (fun s => set_state s AES_IDLE).

(** ** Guards: the condition, and the state with the error code that a failed check leaves *)

Definition fail_io (s : js320_jtag_s) : bool * js320_jtag_s := (false, set_error s (ec_code IO)).

(** The first four bytes of the response. *)
Definition response_u32 (s : js320_jtag_s) : Z := un_le (take 4 (jt_response_buf s)).

Definition guard_idcode_ok (s : js320_jtag_s) : bool * js320_jtag_s :=
  if response_u32 s =? ECP5_LFE5U25_IDCODE then (true, s) else fail_io s.

Definition guard_status_ok (s : js320_jtag_s) : bool * js320_jtag_s :=
  let status := response_u32 s in
  if negb (Z.land status 0x00024040 =? 0) then fail_io s
  else if negb (Z.land status 0x00003C00 =? 0x00000C00) then fail_io s
  else (true, s).

Definition guard_cipher_blank (s : js320_jtag_s) : bool * js320_jtag_s :=
  if bool_decide (jt_response_buf s = ECP5_BLANK_CIPHER_KEY) then (true, s) else fail_io s.

Definition guard_encrypt_only (s : js320_jtag_s) : bool * js320_jtag_s :=
  (negb (Z.land (jt_flags s) ECP5_AES_FLAG_ENCRYPT_ONLY =? 0), s).

Definition guard_key_lock (s : js320_jtag_s) : bool * js320_jtag_s :=
  (negb (Z.land (jt_flags s) ECP5_AES_FLAG_KEY_LOCK =? 0), s).

(** The low byte of the feature bits. *)
Definition feabits (s : js320_jtag_s) : Z := nth 0 (jt_response_buf s) 0.

Definition guard_eo_ok_and_kl (s : js320_jtag_s) : bool * js320_jtag_s :=
  if negb (Z.land (feabits s) 0x02 =? 0x02) then fail_io s
  else (negb (Z.land (jt_flags s) ECP5_AES_FLAG_KEY_LOCK =? 0), s).

Definition guard_eo_ok (s : js320_jtag_s) : bool * js320_jtag_s :=
  if negb (Z.land (feabits s) 0x02 =? 0x02) then fail_io s else (true, s).

Definition guard_kl_ok (s : js320_jtag_s) : bool * js320_jtag_s :=
  if negb (Z.land (feabits s) 0x01 =? 0x01) then fail_io s else (true, s).

(** ** The tables *)

Definition guard_t : Type := option (js320_jtag_s -> bool * js320_jtag_s).

Record aes_transition_s := mk_transition { tr_event : aes_event_e; tr_state_next : aes_state_e; tr_guard : guard_t }.

(** The transition lists, by state, up to their terminator. *)
Definition aes_transitions (state : aes_state_e) : list aes_transition_s :=
  match state with
  | AES_IDLE => [mk_transition AES_EV_CMD AES_READ_IDCODE None]
  | AES_READ_IDCODE => [mk_transition AES_EV_JTAG_RSP AES_ISC_ENABLE (Some guard_idcode_ok); mk_transition AES_EV_JTAG_RSP AES_DONE None]
  | AES_ISC_ENABLE => [mk_transition AES_EV_JTAG_RSP AES_READ_STATUS None]
  | AES_READ_STATUS => [mk_transition AES_EV_JTAG_RSP AES_INIT_ADDRESS (Some guard_status_ok); mk_transition AES_EV_JTAG_RSP AES_ISC_DISABLE None]
  | AES_INIT_ADDRESS => [mk_transition AES_EV_JTAG_RSP AES_READ_CIPHER None]
  | AES_READ_CIPHER => [mk_transition AES_EV_JTAG_RSP AES_PROG_CIPHER (Some guard_cipher_blank); mk_transition AES_EV_JTAG_RSP AES_ISC_DISABLE None]
  | AES_PROG_CIPHER => [mk_transition AES_EV_JTAG_RSP AES_KEY_BURN_WAIT None]
  | AES_KEY_BURN_WAIT =>
      [mk_transition AES_EV_TIMER AES_PROG_EO (Some guard_encrypt_only); mk_transition AES_EV_TIMER AES_PROG_KL (Some guard_key_lock);
       mk_transition AES_EV_TIMER AES_ISC_DISABLE None]
  | AES_PROG_EO => [mk_transition AES_EV_JTAG_RSP AES_EO_BURN_WAIT None]
  | AES_EO_BURN_WAIT => [mk_transition AES_EV_TIMER AES_VERIFY_EO None]
  | AES_VERIFY_EO =>
      [mk_transition AES_EV_JTAG_RSP AES_PROG_KL (Some guard_eo_ok_and_kl); mk_transition AES_EV_JTAG_RSP AES_ISC_DISABLE (Some guard_eo_ok);
       mk_transition AES_EV_JTAG_RSP AES_ISC_DISABLE None]
  | AES_PROG_KL => [mk_transition AES_EV_JTAG_RSP AES_KL_BURN_WAIT None]
  | AES_KL_BURN_WAIT => [mk_transition AES_EV_TIMER AES_VERIFY_KL None]
  | AES_VERIFY_KL => [mk_transition AES_EV_JTAG_RSP AES_ISC_DISABLE (Some guard_kl_ok); mk_transition AES_EV_JTAG_RSP AES_ISC_DISABLE None]
  | AES_ISC_DISABLE => [mk_transition AES_EV_JTAG_RSP AES_DONE None]
  | AES_DONE => []
  end.

(** The [on_enter] column of [aes_states]; the [on_exit] column is empty. *)
Definition aes_on_enter (now : Z) (state : aes_state_e) : op js320_jtag_s unit :=
  match state with
  | AES_IDLE => mret tt
  | AES_READ_IDCODE => on_read_idcode
  | AES_ISC_ENABLE => on_isc_enable
  | AES_READ_STATUS => on_read_status
  | AES_INIT_ADDRESS => on_init_address
  | AES_READ_CIPHER => on_read_cipher
  | AES_PROG_CIPHER => on_prog_cipher
  | AES_KEY_BURN_WAIT => on_burn_wait now 5
  | AES_PROG_EO => on_prog_feabits 0x02
  | AES_EO_BURN_WAIT => on_burn_wait now 2
  | AES_VERIFY_EO => on_read_feabits
  | AES_PROG_KL => on_prog_feabits 0x01
  | AES_KL_BURN_WAIT => on_burn_wait now 2
  | AES_VERIFY_KL => on_read_feabits
  | AES_ISC_DISABLE => on_isc_disable
  | AES_DONE => on_done
  end.

(** ** The engine *)

Definition aes_state_transition (now : Z) (state_next : aes_state_e) : op js320_jtag_s unit :=
  modify (fun s => set_state s state_next) ;;
  aes_on_enter now state_next.

Fixpoint aes_transitions_evaluate (now : Z) (ts : list aes_transition_s) (event : aes_event_e) : op js320_jtag_s bool :=
  match ts with
  | [] => mret false
  | t :: ts =>
      if bool_decide (tr_event t = event) then
        s ← get;
        let '(ok, s) := match tr_guard t with None => (true, s) | Some g => g s end in
        modify (fun _ => s) ;;
        if ok then aes_state_transition now (tr_state_next t) ;; mret true
        else aes_transitions_evaluate now ts event
      else aes_transitions_evaluate now ts event
  end.

Definition aes_process (now : Z) (event : aes_event_e) : op js320_jtag_s unit :=
  s ← get;
  aes_transitions_evaluate now (aes_transitions (jt_state s)) event ;; mret tt.

(** ** Public API *)

Definition js320_jtag_alloc : js320_jtag_s := mk_jtag false AES_IDLE 0 0 0 (replicate 16 0) 0 0 0 0 (replicate 16 0) 0.

Definition set_dev (s : js320_jtag_s) (dev : bool) : js320_jtag_s :=
  mk_jtag dev (jt_state s) (jt_transaction_id s) (jt_cmd_id s) (jt_flags s) (jt_key s) (jt_error_code s) (jt_expected_responses s)
    (jt_current_response_idx s) (jt_target_response_idx s) (jt_response_buf s) (jt_response_size s).

Definition js320_jtag_on_open : op js320_jtag_s unit := modify (fun s => set_dev s true).

Definition js320_jtag_on_close : op js320_jtag_s unit :=
  s ← get;
  (if bool_decide (jt_state s = AES_IDLE) then mret tt
   else set_timeout 0 ;; modify (fun s => set_state s AES_IDLE)) ;;
  modify (fun s => set_dev s false).

(** [jtag_aes_cmd_s]: the transaction, the flags, the key. *)
Definition AES_CMD_SIZE : Z := 24.

Definition cmd_start (s : js320_jtag_s) (transaction_id flags : Z) (key : list Z) : js320_jtag_s :=
  mk_jtag (jt_dev s) (jt_state s) transaction_id 0 flags key 0 (jt_expected_responses s) (jt_current_response_idx s)
    (jt_target_response_idx s) (jt_response_buf s) (jt_response_size s).

Definition js320_jtag_handle_cmd (now : Z) (subtopic : string) (value : value_s) : op js320_jtag_s bool :=
  if negb (String.eqb subtopic "h/jtag/aes/!cmd") then mret false
  else
    s ← get;
    if negb (bool_decide (jt_state s = AES_IDLE)) then
      (if is_type UNION_BIN value && (4 <=? v_size value) then
         id ← lift (ld_le 4 (v_bin value) 0);
         modify (fun s => set_ids s id (jt_cmd_id s))
       else mret tt) ;;
      aes_send_rsp (ec_code BUSY) ;; mret true
    else if negb (is_type UNION_BIN value) || (v_size value <? AES_CMD_SIZE) then
      aes_send_rsp (ec_code PARAMETER_INVALID) ;; mret true
    else
      id ← lift (ld_le 4 (v_bin value) 0);
      flags ← lift (ld_le 4 (v_bin value) 4);
      key ← lift (mem_copy (jt_key s) 0 (v_bin value) 8 16);
      modify (fun s => cmd_start s id flags key) ;;
      aes_process now AES_EV_CMD ;; mret true.

Definition js320_jtag_handle_publish (now : Z) (subtopic : string) (value : value_s) : op js320_jtag_s bool :=
  s ← get;
  if bool_decide (jt_state s = AES_IDLE) then mret false
  else if negb (String.eqb subtopic "h/!rsp") then mret false
  else
    let hdr_offset := if is_type UNION_STDMSG value then HDR_SIZE else 0 in
    if v_size value <? hdr_offset + MEM_SIZE then mret true
    else
      (if jt_current_response_idx s =? jt_target_response_idx s then
         let data_size := u32 (v_size value - hdr_offset - MEM_SIZE) in
         let copy_size := if data_size <? jt_response_size s then data_size else jt_response_size s in
         buf ← lift (mem_copy (jt_response_buf s) 0 (v_bin value) (hdr_offset + MEM_SIZE) copy_size);
         modify (fun s => set_responses s (jt_expected_responses s) (jt_current_response_idx s) (jt_target_response_idx s) buf (jt_response_size s))
       else mret tt) ;;
      modify (fun s => set_responses s (u8 (jt_expected_responses s - 1)) (u8 (jt_current_response_idx s + 1))
                         (jt_target_response_idx s) (jt_response_buf s) (jt_response_size s)) ;;
      s ← get;
      (if jt_expected_responses s =? 0 then aes_process now AES_EV_JTAG_RSP else mret tt) ;;
      mret true.

Definition js320_jtag_on_timeout (now : Z) : op js320_jtag_s unit := aes_process now AES_EV_TIMER.

(** ** Runs *)

(** What the upper driver passes on, with the time it does. *)
Inductive jtag_input :=
  | In_open | In_close
  | In_cmd (now : Z) (subtopic : string) (value : value_s)
  | In_publish (now : Z) (subtopic : string) (value : value_s)
  | In_timeout (now : Z).

Definition jtag_step (x : jtag_input) : op js320_jtag_s unit :=
  match x with
  | In_open => js320_jtag_on_open
  | In_close => js320_jtag_on_close
  | In_cmd now t v => js320_jtag_handle_cmd now t v ;; mret tt
  | In_publish now t v => js320_jtag_handle_publish now t v ;; mret tt
  | In_timeout now => js320_jtag_on_timeout now
  end.

(** ** The instructions that reach the TAP *)

(** The messages of a list of calls to the device. *)
Definition to_tap (a : action) : option mb_stdmsg_mem_s :=
  match a with
  | ToDevice _ v => mem_parse (drop (Z.to_nat HDR_SIZE) (v_bin v))
  | _ => None
  end.

(** Instructions, each with the data that follows into the data register; [tap] is the state of the TAP, [cur] the instruction. *)
Fixpoint instr_log (tap : Z) (cur : option (Z * list Z)) (ms : list mb_stdmsg_mem_s) : list (Z * list Z) :=
  match ms with
  | [] => option_list cur
  | m :: ms =>
      if mm_operation m =? JS320_JTAG_OP_GOTO_STATE then instr_log (mm_offset m) cur ms
      else if tap =? TAP_SHIFT_IR then option_list cur ++ instr_log tap (Some (nth 0 (mm_data m) 0, [])) ms
      else if tap =? TAP_SHIFT_DR then
        instr_log tap (match cur with Some (ir, d) => Some (ir, d ++ mm_data m) | None => None end) ms
      else instr_log tap cur ms
  end.

Definition instrs (o : list action) : list (Z * list Z) := instr_log TAP_TEST_LOGIC_RESET None (omap to_tap o).

(** The answers to commands: transaction and status. *)
Definition answer (a : action) : option (Z * Z) :=
  match a with
  | ToFrontend _ v => Some (un_le (take 4 (v_bin v)), un_le (drop 4 (v_bin v)))
  | _ => None
  end.
Definition answers (o : list action) : list (Z * Z) := omap answer o.

(** What entering a state sends. *)
Definition enter_instrs (state : aes_state_e) (key : list Z) : list (Z * list Z) :=
  match state with
  | AES_READ_IDCODE => [(ECP5_READ_ID, replicate 4 0)]
  | AES_ISC_ENABLE => [(ECP5_ISC_ENABLE, [2])]
  | AES_READ_STATUS => [(ECP5_LSC_READ_STATUS, replicate 4 0)]
  | AES_INIT_ADDRESS => [(ECP5_LSC_INIT_ADDRESS, [0])]
  | AES_READ_CIPHER => [(ECP5_LSC_READ_CIPHER_KEY, replicate 16 0)]
  | AES_PROG_CIPHER => [(ECP5_LSC_PROG_CIPHER_KEY, reverse key)]
  | AES_PROG_EO => [(ECP5_LSC_PROG_FEABITS, [2; 0])]
  | AES_PROG_KL => [(ECP5_LSC_PROG_FEABITS, [1; 0])]
  | AES_VERIFY_EO | AES_VERIFY_KL => [(ECP5_LSC_READ_FEABITS, [0; 0])]
  | AES_ISC_DISABLE => [(ECP5_ISC_DISABLE, []); (255, [])]
  | _ => []
  end.

(** Responses that a state waits for, which of them is kept, and how much of it. *)
Definition batch (state : aes_state_e) : option (Z * Z * Z) :=
  match state with
  | AES_READ_IDCODE => Some (2, 1, 4)
  | AES_ISC_ENABLE | AES_INIT_ADDRESS | AES_PROG_CIPHER | AES_PROG_EO | AES_PROG_KL => Some (3, 255, 0)
  | AES_READ_STATUS => Some (3, 2, 4)
  | AES_READ_CIPHER => Some (3, 2, 16)
  | AES_VERIFY_EO | AES_VERIFY_KL => Some (3, 2, 2)
  | AES_ISC_DISABLE => Some (4, 255, 0)
  | _ => None
  end.

Definition kept_fields (s s' : js320_jtag_s) : Prop :=
  jt_dev s' = jt_dev s /\ jt_transaction_id s' = jt_transaction_id s /\ jt_flags s' = jt_flags s /\ jt_key s' = jt_key s
  /\ jt_error_code s' = jt_error_code s.

(** What entering a state does to the responses. *)
Definition responses_of (x : aes_state_e) (s : js320_jtag_s) : Z * Z * Z * list Z * Z :=
  match batch x with
  | Some (n, target, size) => (n, 0, target, replicate 16 0, size)
  | None => (jt_expected_responses s, jt_current_response_idx s, jt_target_response_idx s, jt_response_buf s, jt_response_size s)
  end.

Definition responses (s : js320_jtag_s) : Z * Z * Z * list Z * Z :=
  (jt_expected_responses s, jt_current_response_idx s, jt_target_response_idx s, jt_response_buf s, jt_response_size s).

Definition next_state (x : aes_state_e) (s : js320_jtag_s) : aes_state_e :=
  match x with AES_DONE => AES_IDLE | _ => jt_state s end.

Definition enter_answers (x : aes_state_e) (s : js320_jtag_s) : list (Z * Z) :=
  match x with AES_DONE => [(un_le (le 4 (jt_transaction_id s)), un_le (le 4 (jt_error_code s)))] | _ => [] end.

Lemma enter_spec now x s : jt_dev s = true -> exists s' o, aes_on_enter now x s = Ok (tt, s', o)
  /\ instrs o = enter_instrs x (jt_key s) /\ answers o = enter_answers x s /\ kept_fields s s' /\ jt_state s' = next_state x s
  /\ responses s' = responses_of x s.
Proof.
  destruct s as [dev st tid cid fl key err ex cur tgt buf sz]. cbn [jt_dev]. intros ->.
  destruct x; eexists _, _; (split; [lazy -[uwrap Z.modulo Z.div Z.add reverse]; reflexivity|]); by repeat split.
Qed.

(** ** The abstract dialogue *)

Definition id_ok (buf : list Z) : bool := un_le (take 4 buf) =? ECP5_LFE5U25_IDCODE.
(** No one-time-programmable bit is set, and the device is idle and enabled. *)
Definition status_ok (buf : list Z) : bool :=
  (Z.land (un_le (take 4 buf)) 0x00024040 =? 0) && (Z.land (un_le (take 4 buf)) 0x00003C00 =? 0x00000C00).
Definition blank (buf : list Z) : bool := bool_decide (buf = ECP5_BLANK_CIPHER_KEY).
Definition eo_set (buf : list Z) : bool := Z.land (nth 0 buf 0) 0x02 =? 0x02.
Definition kl_set (buf : list Z) : bool := Z.land (nth 0 buf 0) 0x01 =? 0x01.
Definition eo_flag (flags : Z) : bool := negb (Z.land flags ECP5_AES_FLAG_ENCRYPT_ONLY =? 0).
Definition kl_flag (flags : Z) : bool := negb (Z.land flags ECP5_AES_FLAG_KEY_LOCK =? 0).

(** The next state, and whether a check has failed; [buf] is the response that was kept. *)
Definition aes_next (state : aes_state_e) (event : aes_event_e) (flags : Z) (buf : list Z) : option (aes_state_e * bool) :=
  match state, event with
  | AES_IDLE, AES_EV_CMD => Some (AES_READ_IDCODE, false)
  | AES_READ_IDCODE, AES_EV_JTAG_RSP => Some (if id_ok buf then (AES_ISC_ENABLE, false) else (AES_DONE, true))
  | AES_ISC_ENABLE, AES_EV_JTAG_RSP => Some (AES_READ_STATUS, false)
  | AES_READ_STATUS, AES_EV_JTAG_RSP => Some (if status_ok buf then (AES_INIT_ADDRESS, false) else (AES_ISC_DISABLE, true))
  | AES_INIT_ADDRESS, AES_EV_JTAG_RSP => Some (AES_READ_CIPHER, false)
  | AES_READ_CIPHER, AES_EV_JTAG_RSP => Some (if blank buf then (AES_PROG_CIPHER, false) else (AES_ISC_DISABLE, true))
  | AES_PROG_CIPHER, AES_EV_JTAG_RSP => Some (AES_KEY_BURN_WAIT, false)
  | AES_KEY_BURN_WAIT, AES_EV_TIMER =>
      Some (if eo_flag flags then AES_PROG_EO else if kl_flag flags then AES_PROG_KL else AES_ISC_DISABLE, false)
  | AES_PROG_EO, AES_EV_JTAG_RSP => Some (AES_EO_BURN_WAIT, false)
  | AES_EO_BURN_WAIT, AES_EV_TIMER => Some (AES_VERIFY_EO, false)
  | AES_VERIFY_EO, AES_EV_JTAG_RSP =>
      Some (if eo_set buf then (if kl_flag flags then AES_PROG_KL else AES_ISC_DISABLE, false) else (AES_ISC_DISABLE, true))
  | AES_PROG_KL, AES_EV_JTAG_RSP => Some (AES_KL_BURN_WAIT, false)
  | AES_KL_BURN_WAIT, AES_EV_TIMER => Some (AES_VERIFY_KL, false)
  | AES_VERIFY_KL, AES_EV_JTAG_RSP => Some (AES_ISC_DISABLE, negb (kl_set buf))
  | AES_ISC_DISABLE, AES_EV_JTAG_RSP => Some (AES_DONE, false)
  | _, _ => None
  end.

(** The state on entering [x]. *)
Definition moved (s : js320_jtag_s) (x : aes_state_e) (failed : bool) : js320_jtag_s :=
  set_state (if failed then set_error s (ec_code IO) else s) x.

Lemma guards_spec s :
  guard_idcode_ok s = (if id_ok (jt_response_buf s) then (true, s) else fail_io s)
  /\ guard_status_ok s = (if status_ok (jt_response_buf s) then (true, s) else fail_io s)
  /\ guard_cipher_blank s = (if blank (jt_response_buf s) then (true, s) else fail_io s)
  /\ guard_eo_ok_and_kl s = (if eo_set (jt_response_buf s) then (kl_flag (jt_flags s), s) else fail_io s)
  /\ guard_eo_ok s = (if eo_set (jt_response_buf s) then (true, s) else fail_io s)
  /\ guard_kl_ok s = (if kl_set (jt_response_buf s) then (true, s) else fail_io s).
Proof.
  unfold guard_idcode_ok, guard_status_ok, guard_cipher_blank, guard_eo_ok_and_kl, guard_eo_ok, guard_kl_ok, id_ok, status_ok,
    blank, eo_set, kl_set, kl_flag, response_u32, feabits. repeat split.
  - by destruct (Z.land _ 0x00024040 =? 0), (Z.land _ 0x00003C00 =? 0x00000C00).
  - by destruct (Z.land _ 2 =? 2).
  - by destruct (Z.land _ 2 =? 2).
  - by destruct (Z.land _ 1 =? 1).
Qed.

Lemma transition_eq now x s :
  (aes_state_transition now x ≫= fun _ => mret true ≫= fun _ : bool => mret tt) s = aes_on_enter now x (set_state s x).
Proof.
  unfold aes_state_transition. autorewrite with op. unfold mbind, op_bind.
  destruct (aes_on_enter now x (set_state s x)) as [[[[] ?] ?]|]; [|done]. cbn. by rewrite app_nil_r.
Qed.

(** The tables and the engine implement the dialogue. *)
Lemma process_eq now ev s : aes_process now ev s =
  match aes_next (jt_state s) ev (jt_flags s) (jt_response_buf s) with
  | None => Ok (tt, s, [])
  | Some (x, failed) => aes_on_enter now x (moved s x failed)
  end.
Proof.
  unfold aes_process. rewrite run_get. generalize (jt_state s) as st. intros st.
  destruct (guards_spec s) as (G1 & G2 & G3 & G4 & G5 & G6).
  pose proof (guards_spec (set_error s (ec_code IO))) as (_ & _ & _ & _ & G5' & _).
  destruct st, ev; cbn [aes_transitions aes_transitions_evaluate aes_next tr_event tr_state_next tr_guard];
    repeat rewrite bool_decide_eq_false_2 by done; repeat rewrite bool_decide_eq_true_2 by done; try reflexivity;
    autorewrite with op; rewrite ?transition_eq; try reflexivity; rewrite ?G1, ?G2, ?G3, ?G4, ?G6;
    unfold guard_encrypt_only, guard_key_lock; fold (eo_flag (jt_flags s)).
  all: try (match goal with |- context [if ?b then (true, _) else fail_io _] => destruct b end;
    unfold fail_io; autorewrite with op; rewrite ?transition_eq; reflexivity).
  - destruct (eo_flag (jt_flags s)); autorewrite with op; rewrite ?transition_eq; try reflexivity.
    fold (kl_flag (jt_flags s)). destruct (kl_flag (jt_flags s)); autorewrite with op; by rewrite ?transition_eq.
  - destruct (eo_set (jt_response_buf s)) eqn:Eo; unfold fail_io; autorewrite with op; rewrite ?transition_eq.
    + destruct (kl_flag (jt_flags s)); autorewrite with op; rewrite ?transition_eq; try reflexivity.
      rewrite G5. autorewrite with op. by rewrite transition_eq.
    + rewrite G5'. change (jt_response_buf (set_error s (ec_code IO))) with (jt_response_buf s). rewrite Eo.
      unfold fail_io. autorewrite with op. by rewrite transition_eq.
Qed.

(** ** Responses *)

Definition hdr_offset (v : value_s) : Z := if is_type UNION_STDMSG v then HDR_SIZE else 0.
Definition valid_rsp (v : value_s) : bool := hdr_offset v + MEM_SIZE <=? v_size v.
Definition payload (v : value_s) : list Z := drop (Z.to_nat (hdr_offset v + MEM_SIZE)) (v_bin v).

(** The first [size] bytes of a response over what the buffer held. *)
Definition keep (size : Z) (d buf : list Z) : list Z :=
  let d := take (Z.to_nat size) d in d ++ drop (length d) buf.

Definition absorb (s : js320_jtag_s) (d : list Z) : js320_jtag_s :=
  set_responses s (u8 (jt_expected_responses s - 1)) (u8 (jt_current_response_idx s + 1)) (jt_target_response_idx s)
    (if jt_current_response_idx s =? jt_target_response_idx s then keep (jt_response_size s) d (jt_response_buf s) else jt_response_buf s)
    (jt_response_size s).

Definition buf_ok (s : js320_jtag_s) : Prop :=
  length (jt_response_buf s) = 16%nat /\ 0 <= jt_response_size s <= 16 /\ length (jt_key s) = 16%nat.

Lemma publish_eq now v s : buf_ok s -> v_size v < 2 ^ 32 -> jt_state s <> AES_IDLE ->
  js320_jtag_handle_publish now "h/!rsp" v s =
  if valid_rsp v then
    if jt_expected_responses (absorb s (payload v)) =? 0 then
      match aes_process now AES_EV_JTAG_RSP (absorb s (payload v)) with Ok (_, s', o) => Ok (true, s', o) | Fault f => Fault f end
    else Ok (true, absorb s (payload v), [])
  else Ok (true, s, []).
Proof.
  intros (Hb & Hsz & _) Hv Hst. unfold js320_jtag_handle_publish. rewrite run_get, bool_decide_eq_false_2 by done.
  change (negb (String.eqb "h/!rsp" "h/!rsp")) with false. cbn [negb]. cbv zeta. fold (hdr_offset v).
  unfold valid_rsp. rewrite Z.ltb_antisym. destruct (hdr_offset v + MEM_SIZE <=? v_size v) eqn:E; cbn [negb]; [|done].
  bool_facts. autorewrite with op.
  assert (0 <= hdr_offset v) by (unfold hdr_offset; by case_match).
  assert (u32 (v_size v - hdr_offset v - MEM_SIZE) = len (payload v)) as ->.
  { unfold payload, len. rewrite length_drop. unfold v_size, len, MEM_SIZE in *. rewrite uwrap_small by width_lia. lia. }
  set (n := if len (payload v) <? jt_response_size s then _ else _).
  assert (mem_copy (jt_response_buf s) 0 (v_bin v) (hdr_offset v + MEM_SIZE) n
          = Ok (keep (jt_response_size s) (payload v) (jt_response_buf s))) as Hc.
  { assert (Z.to_nat n = length (take (Z.to_nat (jt_response_size s)) (payload v))) as Hn.
    { unfold n. rewrite length_take. case_if; unfold len in *; lia. }
    assert (0 <= n <= 16 /\ n <= len (payload v)) as Hr by (unfold n; pose proof (len_nonneg (payload v)); case_if; lia).
    assert (hdr_offset v + MEM_SIZE + n <= len (v_bin v)).
    { unfold payload, len in Hr. rewrite length_drop in Hr. unfold v_size, len, MEM_SIZE in *. lia. }
    unfold mem_copy, MEM_SIZE in *. assert (0 + n <= len (jt_response_buf s)) by (unfold len; lia). simpl_cmp. cbn [andb].
    rewrite Z.add_0_l, Hn. unfold keep. change (Z.to_nat 0) with 0%nat. rewrite take_0. cbn [Datatypes.app].
    do 2 f_equal. fold (payload v). rewrite length_take.
    rewrite <- (firstn_firstn (payload v)). rewrite (take_ge _ (length (payload v))) by done. done. }
  rewrite Hc. unfold absorb.
  destruct (jt_current_response_idx s =? jt_target_response_idx s); autorewrite with op;
    cbn [jt_expected_responses set_responses jt_current_response_idx jt_target_response_idx jt_response_buf jt_response_size];
    (case_if; autorewrite with op; [|done]); unfold mbind, op_bind, mret, op_ret;
    (destruct (aes_process _ _ _) as [[[[] ?] ?]|]; [by rewrite app_nil_r | done]).
Qed.

Lemma publish_step_eq now v s : buf_ok s -> v_size v < 2 ^ 32 -> jt_state s <> AES_IDLE ->
  jtag_step (In_publish now "h/!rsp" v) s =
  if valid_rsp v then
    if jt_expected_responses (absorb s (payload v)) =? 0 then aes_process now AES_EV_JTAG_RSP (absorb s (payload v))
    else Ok (tt, absorb s (payload v), [])
  else Ok (tt, s, []).
Proof.
  intros Hb Hv Hst. pose proof (publish_eq now v s Hb Hv Hst) as E. cbn [jtag_step].
  transitivity (match js320_jtag_handle_publish now "h/!rsp" v s with Ok (_, s', o) => Ok (tt, s', o) | Fault f => Fault f end).
  - unfold mbind, op_bind. destruct (js320_jtag_handle_publish now "h/!rsp" v s) as [[[? ?] ?]|]; [|done]. cbn. by rewrite app_nil_r.
  - rewrite E. repeat case_if; try done. by destruct (aes_process _ _ _) as [[[[] ?] ?]|].
Qed.

(** ** The invariant of a run *)

Definition check5 : list Z := [ECP5_READ_ID; ECP5_ISC_ENABLE; ECP5_LSC_READ_STATUS; ECP5_LSC_INIT_ADDRESS; ECP5_LSC_READ_CIPHER_KEY].
Definition burn6 : list Z := check5 ++ [ECP5_LSC_PROG_CIPHER_KEY].

(** The instructions that lead to a state. *)
Definition paths (x : aes_state_e) : list (list Z) :=
  match x with
  | AES_READ_IDCODE => [take 1 check5]
  | AES_ISC_ENABLE => [take 2 check5]
  | AES_READ_STATUS => [take 3 check5]
  | AES_INIT_ADDRESS => [take 4 check5]
  | AES_READ_CIPHER => [check5]
  | AES_PROG_CIPHER | AES_KEY_BURN_WAIT => [burn6]
  | AES_PROG_EO | AES_EO_BURN_WAIT => [burn6 ++ [ECP5_LSC_PROG_FEABITS]]
  | AES_VERIFY_EO => [burn6 ++ [ECP5_LSC_PROG_FEABITS; ECP5_LSC_READ_FEABITS]]
  | AES_PROG_KL | AES_KL_BURN_WAIT =>
      [burn6 ++ [ECP5_LSC_PROG_FEABITS]; burn6 ++ [ECP5_LSC_PROG_FEABITS; ECP5_LSC_READ_FEABITS; ECP5_LSC_PROG_FEABITS]]
  | AES_VERIFY_KL =>
      [burn6 ++ [ECP5_LSC_PROG_FEABITS; ECP5_LSC_READ_FEABITS];
       burn6 ++ [ECP5_LSC_PROG_FEABITS; ECP5_LSC_READ_FEABITS; ECP5_LSC_PROG_FEABITS; ECP5_LSC_READ_FEABITS]]
  | AES_IDLE | AES_ISC_DISABLE | AES_DONE => [[]]
  end.

(** [irs]: all the instructions so far. *)
Record jtag_inv (s : js320_jtag_s) (irs : list Z) : Prop := mk_inv {
  inv_buf : buf_ok s;
  inv_open : jt_state s <> AES_IDLE -> jt_dev s = true;
  inv_path : exists p, p ∈ paths (jt_state s) /\ p `suffix_of` irs;
  inv_eo : jt_state s ∈ [AES_PROG_EO; AES_EO_BURN_WAIT; AES_VERIFY_EO] -> eo_flag (jt_flags s) = true;
  inv_done : jt_state s <> AES_DONE;
}.

Lemma kept_buf_ok x s s' : kept_fields s s' -> responses s' = responses_of x s -> buf_ok s -> buf_ok s'.
Proof.
  intros (_ & _ & _ & Hk & _) Hr (H1 & H2 & H3). unfold buf_ok. rewrite Hk. unfold responses, responses_of in Hr.
  destruct x; cbn [batch] in Hr; injection Hr as _ _ _ -> ->; done || (repeat split; done || lia).
Qed.

Lemma paths_next s irs ev x failed : jt_state s <> AES_IDLE -> jtag_inv s irs ->
  aes_next (jt_state s) ev (jt_flags s) (jt_response_buf s) = Some (x, failed) ->
  exists p, p ∈ paths (next_state x (moved s x failed)) /\ p `suffix_of` irs ++ (enter_instrs x (jt_key s)).*1.
Proof.
  intros Hi [_ _ (p & Hp & k & ->) _ _] Hn. revert Hp.
  destruct (jt_state s) eqn:Es, ev; cbn [aes_next] in Hn; try discriminate; try done;
    repeat case_match; simplify_eq; cbn [paths next_state moved set_state set_error jt_state enter_instrs]; intros Hp;
    repeat (apply elem_of_cons in Hp as [->|Hp]); try (by apply elem_of_nil in Hp);
    rewrite <- app_assoc;
    first [exists []; split; [by left | apply suffix_nil]
          | eexists; split; [left | by exists k]
          | eexists; split; [right; left | by exists k]].
Qed.

(** The buffer once an input has been taken in. *)
Definition readout (s : js320_jtag_s) (x : jtag_input) : list Z :=
  match x with
  | In_publish _ _ v => if valid_rsp v then jt_response_buf (absorb s (payload v)) else jt_response_buf s
  | _ => jt_response_buf s
  end.

(** Why an instruction may be sent; [irs] are the earlier ones. *)
Definition justified (s : js320_jtag_s) (buf : list Z) (irs : list Z) (i : Z * list Z) : Prop :=
  (i.1 = ECP5_ISC_ENABLE -> id_ok buf = true /\ take 1 check5 `suffix_of` irs)
  /\ (i.1 = ECP5_LSC_INIT_ADDRESS -> status_ok buf = true /\ take 3 check5 `suffix_of` irs)
  /\ (i.1 = ECP5_LSC_PROG_CIPHER_KEY -> blank buf = true /\ i.2 = reverse (jt_key s) /\ check5 `suffix_of` irs)
  /\ (i.1 = ECP5_LSC_PROG_FEABITS ->
        (i.2 = [2; 0] /\ eo_flag (jt_flags s) = true /\ burn6 `suffix_of` irs)
        \/ (i.2 = [1; 0] /\ kl_flag (jt_flags s) = true /\ eo_flag (jt_flags s) = false /\ burn6 `suffix_of` irs)
        \/ (i.2 = [1; 0] /\ kl_flag (jt_flags s) = true /\ eo_set buf = true
            /\ burn6 ++ [ECP5_LSC_PROG_FEABITS; ECP5_LSC_READ_FEABITS] `suffix_of` irs)).

Lemma justified_next s irs ev x failed : jt_state s <> AES_IDLE -> jtag_inv s irs ->
  aes_next (jt_state s) ev (jt_flags s) (jt_response_buf s) = Some (x, failed) ->
  Forall (justified s (jt_response_buf s) irs) (enter_instrs x (jt_key s)).
Proof.
  intros Hi [_ _ (p & Hp & Hsuf) _ _] Hn. revert Hp.
  destruct (jt_state s) eqn:Es, ev; cbn [aes_next] in Hn; try discriminate; try done;
    repeat case_match; simplify_eq; cbn [paths enter_instrs]; intros Hp;
    repeat (apply elem_of_cons in Hp as [->|Hp]); try (by apply elem_of_nil in Hp);
    repeat (apply List.Forall_cons || apply List.Forall_nil).
  all: unfold justified; cbn [fst snd]; split_and!; intros Hx; try discriminate Hx; clear Hx.
  1-3: done.
  - by left.
  - by right; left.
  - by right; right.
Qed.

Lemma moved_instrs x s failed : enter_instrs x (jt_key (moved s x failed)) = enter_instrs x (jt_key s).
Proof. by destruct failed. Qed.

Lemma enter_inv now x failed s irs : jt_dev s = true -> buf_ok s -> next_state x (moved s x failed) <> AES_DONE ->
  (x ∈ [AES_PROG_EO; AES_EO_BURN_WAIT; AES_VERIFY_EO] -> eo_flag (jt_flags s) = true) ->
  (exists p, p ∈ paths (next_state x (moved s x failed)) /\ p `suffix_of` irs ++ (enter_instrs x (jt_key s)).*1) ->
  exists s' o, aes_on_enter now x (moved s x failed) = Ok (tt, s', o) /\ instrs o = enter_instrs x (jt_key s) /\ jtag_inv s' (irs ++ (instrs o).*1)
    /\ jt_dev s' = jt_dev s.
Proof.
  intros Hd Hb Hdone Heo Hp. destruct (enter_spec now x (moved s x failed)) as (s' & o & E & Hi & _ & Hk & Hst & Hr); [by destruct failed|].
  rewrite moved_instrs in Hi. exists s', o. split; [done|]. split; [done|]. rewrite Hi. pose proof Hk as (K1 & K2 & K3 & K4 & _).
  split; [|rewrite K1; by destruct failed]. split.
  - eapply kept_buf_ok; [done | done|]. by destruct failed.
  - intros _. rewrite K1. by destruct failed.
  - by rewrite Hst.
  - rewrite Hst, K3. replace (jt_flags (moved s x failed)) with (jt_flags s) by (by destruct failed).
    intros Hx. apply Heo. destruct x; try done; exfalso; cbn in Hx; inversion Hx; subst; repeat match goal with H : _ ∈ _ |- _ => inversion H; clear H; subst end.
  - by rewrite Hst.
Qed.

Lemma process_inv now ev s irs : jt_state s <> AES_IDLE -> jtag_inv s irs ->
  exists s' o, aes_process now ev s = Ok (tt, s', o) /\ jtag_inv s' (irs ++ (instrs o).*1)
    /\ Forall (justified s (jt_response_buf s) irs) (instrs o) /\ jt_dev s' = jt_dev s.
Proof.
  intros Hst Hinv. rewrite process_eq. destruct (aes_next _ _ _ _) as [[x failed]|] eqn:En.
  - pose proof (justified_next _ _ _ _ _ Hst Hinv En) as Hj. pose proof (paths_next _ _ _ _ _ Hst Hinv En) as Hp.
    pose proof Hinv as [Hb Ho _ He Hd]. destruct (enter_inv now x failed s irs) as (s' & o & E & Hi & Hinv' & Hdev'); auto.
    + by destruct x.
    + destruct (jt_state s) eqn:Es, ev; cbn in En; try discriminate; repeat case_match; simplify_eq; intros Hx; try done;
        try (apply He; repeat constructor); try (exfalso; repeat (apply elem_of_cons in Hx as [Hx|Hx]; [done|]); by apply elem_of_nil in Hx).
    + exists s', o. split; [done|]. split; [done|]. by rewrite Hi.
  - exists s, []. split; [done|]. cbn. rewrite app_nil_r. split; [done|]. by split; [constructor|].
Qed.

Lemma absorb_inv s d irs : jtag_inv s irs -> jtag_inv (absorb s d) irs.
Proof.
  intros [(B1 & B2 & B3) Ho Hp He Hd]. split; try done. split; [|done]. cbn. case_if; [|done]. unfold keep.
  rewrite length_app, length_drop, !length_take. lia.
Qed.

(** Inputs of the upper driver: sizes are 32-bit, and a command comes while the device is open. *)
Definition input_ok (s : js320_jtag_s) (x : jtag_input) : Prop :=
  match x with
  | In_cmd _ _ v => v_size v < 2 ^ 32 /\ jt_dev s = true
  | In_publish _ _ v => v_size v < 2 ^ 32
  | In_close => jt_dev s = true
  | _ => True
  end.

Lemma instrs_front t v : instrs [ToFrontend t v] = [].
Proof. done. Qed.

Lemma cmd_inv now t v s irs : jtag_inv s irs -> v_size v < 2 ^ 32 -> jt_dev s = true ->
  exists r s' o, js320_jtag_handle_cmd now t v s = Ok (r, s', o) /\ jtag_inv s' (irs ++ (instrs o).*1)
    /\ Forall (justified s (jt_response_buf s) irs) (instrs o) /\ jt_dev s' = jt_dev s.
Proof.
  intros Hinv Hv Hd. pose proof Hinv as [(B1 & B2 & B3) Ho Hp He Hdn]. unfold js320_jtag_handle_cmd.
  destruct (negb (String.eqb t "h/jtag/aes/!cmd")).
  { exists false, s, []. split; [done|]. cbn. by rewrite app_nil_r. }
  rewrite run_get. case_bool_decide as Hst; cbn [negb].
  - case_if.
    + unfold aes_send_rsp, to_frontend. autorewrite with op. rewrite run_act by done. eexists _, _, _. split; [reflexivity|].
      rewrite instrs_front. cbn [fmap list_fmap]. by rewrite app_nil_r.
    + assert (24 <= v_size v) as Hsz by (bool_facts; unfold AES_CMD_SIZE in *; lia). unfold v_size in Hsz.
      assert (ld_le 4 (v_bin v) 0 = Ok (un_le (take 4 (v_bin v)))) as -> by (unfold ld_le; by simpl_cmp).
      assert (exists f, ld_le 4 (v_bin v) 4 = Ok f) as [f ->] by (unfold ld_le; simpl_cmp; eauto).
      destruct (mem_copy_ok (jt_key s) 0 (v_bin v) 8 16) as (key & Ek & Hkl & _); [lia | lia | lia | lia | unfold len; lia|].
      rewrite Ek. autorewrite with op.
      set (s1 := cmd_start s _ f key).
      destruct (enter_inv now AES_READ_IDCODE false s1 irs) as (s' & o & E' & Hi & Hinv' & Hdev').
      { done. }
      { unfold s1, buf_ok. cbn. repeat split; try done; try lia. unfold len in Hkl. lia. }
      { done. }
      { intros Hx. exfalso. repeat (apply elem_of_cons in Hx as [Hx|Hx]; [done|]). by apply elem_of_nil in Hx. }
      { eexists. split; [left | by exists irs]. }
      assert (aes_process now AES_EV_CMD s1 = Ok (tt, s', o)) as Ep.
      { rewrite process_eq. change (jt_state s1) with (jt_state s). by rewrite Hst. }
      rewrite (run_bind _ _ _ _ _ _ Ep). cbn [mret op_ret]. exists true, s', (o ++ []). rewrite app_nil_r. split; [done|]. split; [done|].
      split; [|done]. rewrite Hi. constructor; [|constructor]. by repeat split.
  - assert (forall m, m = (if is_type UNION_BIN v && (4 <=? v_size v)
      then (id ← lift (ld_le 4 (v_bin v) 0); modify (fun s => set_ids s id (jt_cmd_id s))) : op js320_jtag_s unit else mret tt) ->
      exists id, m s = Ok (tt, set_ids s id (jt_cmd_id s), [])) as Hm.
    { intros m ->. case_if; [|exists (jt_transaction_id s); by destruct s].
      assert (exists id, ld_le 4 (v_bin v) 0 = Ok id) as [id ->] by (unfold ld_le, v_size in *; bool_facts; simpl_cmp; eauto).
      exists id. by autorewrite with op. }
    destruct (Hm _ eq_refl) as [id E1]. rewrite (run_bind _ _ _ _ _ _ E1).
    unfold aes_send_rsp, to_frontend. autorewrite with op. rewrite run_act by done. eexists _, _, _. split; [reflexivity|].
    cbn [Datatypes.app mret op_ret]. rewrite instrs_front. cbn [fmap list_fmap]. rewrite app_nil_r. done.
Qed.

Lemma step_inv x s irs : jtag_inv s irs -> input_ok s x ->
  exists s' o, jtag_step x s = Ok (tt, s', o) /\ jtag_inv s' (irs ++ (instrs o).*1)
    /\ Forall (justified s (readout s x) irs) (instrs o)
    /\ jt_dev s' = match x with In_open => true | In_close => false | _ => jt_dev s end.
Proof.
  intros Hinv Hx. pose proof Hinv as [Hb Ho Hp He Hd].
  assert (jtag_inv s (irs ++ (instrs []).*1) /\ Forall (justified s (readout s x) irs) (instrs []) /\ jt_dev s = jt_dev s) as Hnil.
  { cbn. rewrite app_nil_r. split; [done|]. by split; [constructor|]. }
  destruct x as [| |now t v|now t v|now]; cbn [input_ok jtag_step] in *.
  - exists (set_dev s true), []. split; [done|]. split; [|by split; [constructor|]]. cbn. rewrite app_nil_r. by split.
  - unfold js320_jtag_on_close. rewrite run_get. case_bool_decide as Hst.
    + autorewrite with op. exists (set_dev s false), []. split; [done|]. split; [|by split; [constructor|]]. cbn. rewrite app_nil_r. by split.
    + unfold set_timeout. autorewrite with op. rewrite run_act by done. autorewrite with op. eexists _, _. split; [reflexivity|].
      split; [|by split; [constructor|]]. cbn. rewrite app_nil_r. split; try done; [exists []; split; [by left | apply suffix_nil] |].
      intros H. exfalso. cbn in H. repeat (apply elem_of_cons in H as [H|H]; [done|]). by apply elem_of_nil in H.
  - destruct Hx as [Hv Hdev]. destruct (cmd_inv now t v s irs Hinv Hv Hdev) as (r & s' & o & E & Hi & Hj & Hdv).
    rewrite (run_bind _ _ _ _ _ _ E). cbn [mret op_ret]. exists s', (o ++ []). by rewrite app_nil_r.
  - destruct (decide (jt_state s = AES_IDLE)) as [Hst|Hst].
    { unfold js320_jtag_handle_publish. autorewrite with op. rewrite bool_decide_eq_true_2 by done. autorewrite with op. eauto. }
    destruct (string_dec t "h/!rsp") as [->|Ht].
    2: { unfold js320_jtag_handle_publish. autorewrite with op. rewrite bool_decide_eq_false_2 by done.
         rewrite (proj2 (String.eqb_neq _ _) Ht). cbn [negb]. autorewrite with op. eauto. }
    pose proof (publish_step_eq now v s Hb Hx Hst) as E. cbn [jtag_step] in E. rewrite E. clear E.
    destruct (valid_rsp v) eqn:Ev; [|by exists s, []].
    pose proof (absorb_inv s (payload v) irs Hinv) as Ha. case_if.
    + destruct (process_inv now AES_EV_JTAG_RSP (absorb s (payload v)) irs Hst Ha) as (s' & o & Ep & Hi & Hj & Hdv).
      rewrite Ep. exists s', o. cbn [readout]. by rewrite Ev.
    + exists (absorb s (payload v)), []. split; [done|]. split; [|by split; [constructor|]]. cbn. by rewrite app_nil_r.
  - destruct (decide (jt_state s = AES_IDLE)) as [Hst|Hst].
    { unfold js320_jtag_on_timeout. rewrite process_eq, Hst. cbn. eauto. }
    destruct (process_inv now AES_EV_TIMER s irs Hst Hinv) as (s' & o & Ep & Hi & Hj & Hdv). by exists s', o.
Qed.

(** The inputs in turn; with each, the state before it and the calls it makes. *)
Fixpoint jtag_run (s : js320_jtag_s) (xs : list jtag_input) : res (js320_jtag_s * list (js320_jtag_s * jtag_input * list action)) :=
  match xs with
  | [] => Ok (s, [])
  | x :: xs =>
      '(_, s', o) ← jtag_step x s;
      '(s', tr) ← jtag_run s' xs;
      Ok (s', (s, x, o) :: tr)
  end.

(** The instructions of a run. *)
Definition run_irs (tr : list (js320_jtag_s * jtag_input * list action)) : list Z := concat (map (fun t => (instrs t.2).*1) tr).

(** The device is opened, used and closed in this order. *)
Fixpoint inputs_ok (dev : bool) (xs : list jtag_input) : Prop :=
  match xs with
  | [] => True
  | In_open :: xs => inputs_ok true xs
  | In_close :: xs => dev = true /\ inputs_ok false xs
  | In_cmd _ _ v :: xs => v_size v < 2 ^ 32 /\ dev = true /\ inputs_ok dev xs
  | In_publish _ _ v :: xs => v_size v < 2 ^ 32 /\ inputs_ok dev xs
  | In_timeout _ :: xs => inputs_ok dev xs
  end.

Lemma run_inv_jtag xs : forall s irs, jtag_inv s irs -> inputs_ok (jt_dev s) xs ->
  exists s' tr, jtag_run s xs = Ok (s', tr)
    /\ forall tr1 s0 x o tr2, tr = tr1 ++ (s0, x, o) :: tr2 -> Forall (justified s0 (readout s0 x) (irs ++ run_irs tr1)) (instrs o).
Proof.
  induction xs as [|x xs IH]; intros s irs Hinv Hok.
  { exists s, []. split; [done|]. intros [|] ? ? ? ? [=]. }
  assert (input_ok s x) as Hx by (destruct x; cbn in *; tauto).
  destruct (step_inv x s irs Hinv Hx) as (s1 & o1 & E & Hi & Hj & Hd).
  destruct (IH s1 _ Hi) as (s' & tr & Er & Hall); [destruct x; cbn in *; rewrite Hd; tauto|].
  exists s', ((s, x, o1) :: tr). cbn [jtag_run]. rewrite E, bind_Ok, Er. split; [done|].
  intros [|t tr1] s0 x0 o tr2 Heq; injection Heq.
  - intros _ <- <- <-. cbn. by rewrite app_nil_r.
  - intros Ht <-. unfold run_irs. cbn [map concat snd]. rewrite app_assoc. by eapply Hall.
Qed.


(** ** A command, answered *)

Definition waits (x : aes_state_e) : bool :=
  match x with AES_KEY_BURN_WAIT | AES_EO_BURN_WAIT | AES_KL_BURN_WAIT => true | _ => false end.

(** The device answers every shift in turn, the [k]-th with [rsp k], and the timers expire, until the
    operation is over: the instructions that were sent and the answers to the front end. *)
Fixpoint answered (fuel : nat) (now : Z) (rsp : nat -> value_s) (k : nat) (s : js320_jtag_s)
    : res (js320_jtag_s * list (Z * list Z) * list (Z * Z)) :=
  if bool_decide (jt_state s = AES_IDLE) then Ok (s, [], [])
  else match fuel with
  | O => Fault OutOfFuel
  | S fuel =>
      let '(x, k) := if waits (jt_state s) then (In_timeout now, k) else (In_publish now "h/!rsp" (rsp k), S k) in
      '(_, s, o) ← jtag_step x s;
      '(s, l, a) ← answered fuel now rsp k s;
      Ok (s, instrs o ++ l, answers o ++ a)
  end.

(** What a command with these flags and key sends and answers, when the kept responses are [rd]: the
    second response to the identifier, then every third, is the one that is read. *)
Definition aes_outcome (flags : Z) (key : list Z) (rd : nat -> Z -> list Z) : list (Z * list Z) * Z :=
  let start := [(ECP5_READ_ID, replicate 4 0)] in
  let enabled := start ++ [(ECP5_ISC_ENABLE, [2]); (ECP5_LSC_READ_STATUS, replicate 4 0)] in
  let read := enabled ++ [(ECP5_LSC_INIT_ADDRESS, [0]); (ECP5_LSC_READ_CIPHER_KEY, replicate 16 0)] in
  let burnt := read ++ [(ECP5_LSC_PROG_CIPHER_KEY, reverse key)] in
  let eo := [(ECP5_LSC_PROG_FEABITS, [2; 0]); (ECP5_LSC_READ_FEABITS, [0; 0])] in
  let kl := [(ECP5_LSC_PROG_FEABITS, [1; 0]); (ECP5_LSC_READ_FEABITS, [0; 0])] in
  let stop := [(ECP5_ISC_DISABLE, []); (255, [])] in
  if negb (id_ok (rd 1%nat 4)) then (start, ec_code IO)
  else if negb (status_ok (rd 7%nat 4)) then (enabled ++ stop, ec_code IO)
  else if negb (blank (rd 13%nat 16)) then (read ++ stop, ec_code IO)
  else if eo_flag flags then
    if negb (eo_set (rd 22%nat 2)) then (burnt ++ eo ++ stop, ec_code IO)
    else if kl_flag flags then (burnt ++ eo ++ kl ++ stop, if kl_set (rd 28%nat 2) then 0 else ec_code IO)
    else (burnt ++ eo ++ stop, 0)
  else if kl_flag flags then (burnt ++ kl ++ stop, if kl_set (rd 22%nat 2) then 0 else ec_code IO)
  else (burnt ++ stop, 0).

(** The state [s] has entered [x] and waits for its responses. *)
Record entered (x : aes_state_e) (tid flags : Z) (key : list Z) (err : Z) (s : js320_jtag_s) : Prop := mk_entered {
  en_state : jt_state s = x;
  en_dev : jt_dev s = true;
  en_tid : jt_transaction_id s = tid;
  en_flags : jt_flags s = flags;
  en_key : jt_key s = key;
  en_err : jt_error_code s = err;
  en_buf : buf_ok s;
  en_rsp : match batch x with Some (n, target, size) => responses s = (n, 0, target, replicate 16 0, size) | None => True end;
}.

Section Answered.
Context (now : Z) (rsp : nat -> value_s).
Hypothesis rsp_valid : forall k, valid_rsp (rsp k) = true /\ v_size (rsp k) < 2 ^ 32.

(** The kept part of a response. *)
Definition rd (k : nat) (size : Z) : list Z := keep size (payload (rsp k)) (replicate 16 0).

Lemma answered_publish fuel k s : jt_state s <> AES_IDLE -> waits (jt_state s) = false -> buf_ok s -> jt_dev s = true ->
  answered (S fuel) now rsp k s =
  if jt_expected_responses (absorb s (payload (rsp k))) =? 0 then
    '(_, s', o) ← aes_process now AES_EV_JTAG_RSP (absorb s (payload (rsp k)));
    '(s', l, a) ← answered fuel now rsp (S k) s'; Ok (s', instrs o ++ l, answers o ++ a)
  else answered fuel now rsp (S k) (absorb s (payload (rsp k))).
Proof.
  intros Hst Hw Hb Hd. cbn [answered]. rewrite bool_decide_eq_false_2 by done. rewrite Hw. cbn [jtag_step].
  destruct (rsp_valid k) as [Hv Hs]. pose proof (publish_step_eq now (rsp k) s Hb Hs Hst) as E. cbn [jtag_step] in E. rewrite E, Hv. case_if; [done|].
  rewrite bind_Ok. by destruct (answered fuel now rsp (S k) _) as [[[? ?] ?]|].
Qed.

(** The response that is kept of a batch that starts with response [k]. *)
Definition batch_read (x : aes_state_e) (k : nat) : list Z :=
  match batch x with
  | Some (_, 255, _) | None => replicate 16 0
  | Some (_, target, size) => rd (Z.to_nat target + k) size
  end.

Definition batch_count (x : aes_state_e) : nat := match batch x with Some (n, _, _) => Z.to_nat n | None => 0 end.

Lemma answered_batch x tid flags key err fuel k s : entered x tid flags key err s -> batch x <> None ->
  exists s1, answered (batch_count x + fuel) now rsp k s =
      ('(_, s', o) ← aes_process now AES_EV_JTAG_RSP s1;
       '(s', l, a) ← answered fuel now rsp (batch_count x + k) s'; Ok (s', instrs o ++ l, answers o ++ a))
    /\ jt_response_buf s1 = batch_read x k /\ kept_fields s s1 /\ jt_state s1 = x /\ buf_ok s1.
Proof.
  intros [Hst Hd Ht Hf Hk He Hb Hr] Hx. destruct s as [dev st t c f ky e ex cur tgt buf sz]. unfold responses in Hr. cbn in *.
  subst st dev t f ky e.
  assert (forall m d, buf_ok m -> buf_ok (absorb m d)) as Hab.
  { intros m d (B1 & B2 & B3). split; [|done]. cbn. case_if; [|done]. unfold keep. rewrite length_app, length_drop, !length_take. lia. }
  destruct x; cbn in Hx, Hr; try done; injection Hr as -> -> -> -> ->;
    match goal with |- context [batch_count ?y] => let n := eval vm_compute in (batch_count y) in change (batch_count y) with n end;
    cbn [Nat.add]; repeat (rewrite answered_publish by (done || auto 10); match goal with
      |- context [jt_expected_responses (absorb ?m ?d) =? 0] => let b := eval vm_compute in (jt_expected_responses (absorb m d) =? 0) in
        change (jt_expected_responses (absorb m d) =? 0) with b; cbv iota end);
    eexists; (split; [reflexivity|]); (split; [reflexivity|]); (split; [by repeat split|]); (split; [reflexivity | auto 10]).
Qed.

(** The end of a batch enters the next state. *)
Lemma answered_next x tid flags key err fuel k s x' failed : entered x tid flags key err s -> batch x <> None ->
  aes_next x AES_EV_JTAG_RSP flags (batch_read x k) = Some (x', failed) -> x' <> AES_DONE ->
  exists s', entered x' tid flags key (if failed then ec_code IO else err) s'
    /\ answered (batch_count x + fuel) now rsp k s =
       ('(s2, l, a) ← answered fuel now rsp (batch_count x + k) s'; Ok (s2, enter_instrs x' (jt_key s) ++ l, a)).
Proof.
  intros He Hx Hn Hd. pose proof He as [_ E1 E2 E3 E4 E5 _ _].
  destruct (answered_batch x tid flags key err fuel k s He Hx) as (s1 & E & Hbuf & (K1 & K2 & K3 & K4 & K5) & Hst & Hb).
  rewrite process_eq, Hst, K3, E3, Hbuf, Hn in E.
  destruct (enter_spec now x' (moved s1 x' failed)) as (s' & o & Eo & Hi & Ha & Hk & Hs' & Hr); [destruct failed; cbn; congruence|].
  pose proof Hk as (M1 & M2 & M3 & M4 & M5).
  exists s'. split.
  - split; try (destruct failed; cbn in *; congruence).
    + rewrite Hs'. destruct x', failed; done.
    + eapply kept_buf_ok; [done | done|]. by destruct failed.
    + rewrite Hr. unfold responses_of. by destruct (batch x') as [[[? ?] ?]|].
  - rewrite E, Eo, bind_Ok. assert (enter_instrs x' (jt_key s) = instrs o) as ->.
    { by rewrite Hi, moved_instrs, K4. }
    assert (answers o = []) as -> by (rewrite Ha; by destruct x'). done.
Qed.

(** The end of the operation: one answer. *)
Lemma answered_done x tid flags key err fuel k s failed : entered x tid flags key err s -> batch x <> None ->
  aes_next x AES_EV_JTAG_RSP flags (batch_read x k) = Some (AES_DONE, failed) ->
  exists s', jt_state s' = AES_IDLE /\ answered (batch_count x + fuel) now rsp k s =
    Ok (s', [], [(un_le (le 4 tid), un_le (le 4 (if failed then ec_code IO else err)))]).
Proof.
  intros He Hx Hn. pose proof He as [_ E1 E2 E3 E4 E5 _ _].
  destruct (answered_batch x tid flags key err fuel k s He Hx) as (s1 & E & Hbuf & (K1 & K2 & K3 & K4 & K5) & Hst & Hb).
  rewrite process_eq, Hst, K3, E3, Hbuf, Hn in E.
  destruct (enter_spec now AES_DONE (moved s1 AES_DONE failed)) as (s' & o & Eo & Hi & Ha & Hk & Hs' & Hr); [destruct failed; cbn; congruence|].
  exists s'. split; [done|]. rewrite E, Eo, bind_Ok.
  assert (answered fuel now rsp (batch_count x + k) s' = Ok (s', [], [])) as ->.
  { destruct fuel; cbn [answered]; by rewrite bool_decide_eq_true_2. }
  rewrite bind_Ok, Hi, Ha. cbn [enter_answers enter_instrs Datatypes.app]. do 2 f_equal. f_equal.
  destruct failed; cbn; congruence.
Qed.

(** A timer. *)
Lemma answered_wait x tid flags key err fuel k s x' failed : entered x tid flags key err s -> waits x = true ->
  aes_next x AES_EV_TIMER flags (jt_response_buf s) = Some (x', failed) -> x' <> AES_DONE ->
  exists s', entered x' tid flags key (if failed then ec_code IO else err) s'
    /\ answered (S fuel) now rsp k s = ('(s2, l, a) ← answered fuel now rsp k s'; Ok (s2, enter_instrs x' (jt_key s) ++ l, a)).
Proof.
  intros [Hst E1 E2 E3 E4 E5 Hb _] Hw Hn Hd. cbn [answered]. rewrite bool_decide_eq_false_2 by (rewrite Hst; by destruct x).
  rewrite Hst, Hw. cbn [jtag_step]. unfold js320_jtag_on_timeout. rewrite process_eq, Hst, E3, Hn.
  destruct (enter_spec now x' (moved s x' failed)) as (s' & o & Eo & Hi & Ha & Hk & Hs' & Hr); [by destruct failed|].
  pose proof Hk as (M1 & M2 & M3 & M4 & M5). exists s'. split.
  - split; try (destruct failed; cbn in *; congruence).
    + rewrite Hs'. destruct x', failed; done.
    + eapply kept_buf_ok; [done | done|]. by destruct failed.
    + rewrite Hr. unfold responses_of. by destruct (batch x') as [[[? ?] ?]|].
  - rewrite Eo, bind_Ok, Hi, moved_instrs. assert (answers o = []) as -> by (rewrite Ha; by destruct x'). done.
Qed.

(** From [s] on, the operation sends [l] and answers with [status]. *)
Definition ends (tid : Z) (fuel k : nat) (s : js320_jtag_s) (l : list (Z * list Z)) (status : Z) : Prop :=
  exists s', answered fuel now rsp k s = Ok (s', l, [(un_le (le 4 tid), un_le (le 4 status))]) /\ jt_state s' = AES_IDLE.

Lemma ends_next x' failed x tid flags key err fuel k s l status : entered x tid flags key err s -> batch x <> None ->
  aes_next x AES_EV_JTAG_RSP flags (batch_read x k) = Some (x', failed) -> x' <> AES_DONE ->
  (forall s', entered x' tid flags key (if failed then ec_code IO else err) s' -> ends tid fuel (batch_count x + k) s' l status) ->
  ends tid (batch_count x + fuel) k s (enter_instrs x' key ++ l) status.
Proof.
  intros He Hx Hn Hd Hk. destruct (answered_next x tid flags key err fuel k s x' failed He Hx Hn Hd) as (s' & He' & E).
  destruct (Hk s' He') as (s2 & E2 & Hs2). exists s2. split; [|done]. rewrite E, E2, bind_Ok. by rewrite (en_key _ _ _ _ _ _ He).
Qed.

Lemma ends_wait x' x tid flags key err fuel k s l status : entered x tid flags key err s -> waits x = true ->
  aes_next x AES_EV_TIMER flags (jt_response_buf s) = Some (x', false) -> x' <> AES_DONE ->
  (forall s', entered x' tid flags key err s' -> ends tid fuel k s' l status) ->
  ends tid (S fuel) k s (enter_instrs x' key ++ l) status.
Proof.
  intros He Hx Hn Hd Hk. destruct (answered_wait x tid flags key err fuel k s x' false He Hx Hn Hd) as (s' & He' & E).
  destruct (Hk s' He') as (s2 & E2 & Hs2). exists s2. split; [|done]. rewrite E, E2, bind_Ok. by rewrite (en_key _ _ _ _ _ _ He).
Qed.

Lemma ends_stop tid flags key err fuel k s : entered AES_ISC_DISABLE tid flags key err s -> ends tid (4 + fuel) k s [] err.
Proof.
  intros He. destruct (answered_done AES_ISC_DISABLE tid flags key err fuel k s false He) as (s' & Hs & E); [done | done|]. by exists s'.
Qed.

(** The key-lock fuse, from its programming to the end. *)
Lemma ends_kl tid flags key fuel k s : entered AES_PROG_KL tid flags key 0 s ->
  ends tid (11 + fuel) k s ([(ECP5_LSC_READ_FEABITS, [0; 0]); (ECP5_ISC_DISABLE, []); (255, [])])
    (if kl_set (rd (5 + k) 2) then 0 else ec_code IO).
Proof.
  intros He. apply (ends_next AES_KL_BURN_WAIT false AES_PROG_KL tid flags key 0 (8 + fuel) k s _ _ He); [done | done | done|].
  intros s1 H1. apply (ends_wait AES_VERIFY_KL AES_KL_BURN_WAIT tid flags key 0 (7 + fuel) _ s1 _ _ H1); [done | done | done|].
  intros s2 H2. apply (ends_next AES_ISC_DISABLE (negb (kl_set (rd (5 + k) 2))) AES_VERIFY_KL tid flags key 0 (4 + fuel) _ s2 [] _ H2); [done | done | done|].
  intros s3 H3. pose proof (ends_stop _ _ _ _ fuel (batch_count AES_VERIFY_KL + (batch_count AES_PROG_KL + k)) s3 H3) as Hs. by destruct (kl_set _).
Qed.

(** From the burned key to the end. *)
Lemma ends_burnt tid flags key s : entered AES_PROG_CIPHER tid flags key 0 s ->
  let eo := [(ECP5_LSC_PROG_FEABITS, [2; 0]); (ECP5_LSC_READ_FEABITS, [0; 0])] in
  let kl := [(ECP5_LSC_PROG_FEABITS, [1; 0]); (ECP5_LSC_READ_FEABITS, [0; 0])] in
  let stop := [(ECP5_ISC_DISABLE, []); (255, [])] in
  exists l status, ends tid 26 14 s l status
    /\ (l, status) = (if eo_flag flags then
                        if negb (eo_set (rd 22 2)) then (eo ++ stop, ec_code IO)
                        else if kl_flag flags then (eo ++ kl ++ stop, if kl_set (rd 28 2) then 0 else ec_code IO)
                        else (eo ++ stop, 0)
                      else if kl_flag flags then (kl ++ stop, if kl_set (rd 22 2) then 0 else ec_code IO)
                      else (stop, 0)).
Proof.
  intros He eo kl stop.
  assert (forall l status, (forall s', entered AES_KEY_BURN_WAIT tid flags key 0 s' -> ends tid 23 17 s' l status) -> ends tid 26 14 s l status) as Hstart.
  { intros l status H. by apply (ends_next AES_KEY_BURN_WAIT false AES_PROG_CIPHER tid flags key 0 23 14 s l status He). }
  destruct (eo_flag flags) eqn:Eo.
  - assert (forall l status, (forall s', entered AES_VERIFY_EO tid flags key 0 s' -> ends tid 18 20 s' l status) ->
      ends tid 26 14 s (eo ++ l) status) as Heo.
    { intros l status H. apply Hstart. intros s1 H1.
      apply (ends_wait AES_PROG_EO AES_KEY_BURN_WAIT tid flags key 0 22 17 s1 _ status H1); [done | by cbn; rewrite Eo | done|].
      intros s2 H2. apply (ends_next AES_EO_BURN_WAIT false AES_PROG_EO tid flags key 0 19 17 s2 _ status H2); [done | done | done|].
      intros s3 H3. by apply (ends_wait AES_VERIFY_EO AES_EO_BURN_WAIT tid flags key 0 18 20 s3 l status H3). }
    destruct (eo_set (rd 22 2)) eqn:Ev; cbn [negb]; [destruct (kl_flag flags) eqn:Ek|]; eexists _, _; (split; [apply Heo | reflexivity]); intros s' H'.
    + apply (ends_next AES_PROG_KL false AES_VERIFY_EO tid flags key 0 15 20 s' _ _ H'); [done | | done |].
      * cbn [aes_next]. change (batch_read AES_VERIFY_EO 20) with (rd 22 2). by rewrite Ev, Ek.
      * intros s2 H2. exact (ends_kl tid flags key 4 23 s2 H2).
    + apply (ends_next AES_ISC_DISABLE false AES_VERIFY_EO tid flags key 0 15 20 s' [] 0 H'); [done | | done |].
      * cbn [aes_next]. change (batch_read AES_VERIFY_EO 20) with (rd 22 2). by rewrite Ev, Ek.
      * intros s2 H2. exact (ends_stop tid flags key 0 11 23 s2 H2).
    + apply (ends_next AES_ISC_DISABLE true AES_VERIFY_EO tid flags key 0 15 20 s' [] _ H'); [done | | done |].
      * cbn [aes_next]. change (batch_read AES_VERIFY_EO 20) with (rd 22 2). by rewrite Ev.
      * intros s2 H2. exact (ends_stop tid flags key _ 11 23 s2 H2).
  - destruct (kl_flag flags) eqn:Ek; eexists _, _; (split; [apply Hstart | reflexivity]); intros s1 H1.
    + apply (ends_wait AES_PROG_KL AES_KEY_BURN_WAIT tid flags key 0 22 17 s1 _ _ H1); [done | by cbn; rewrite Eo, Ek | done|].
      intros s2 H2. exact (ends_kl tid flags key 11 17 s2 H2).
    + apply (ends_wait AES_ISC_DISABLE AES_KEY_BURN_WAIT tid flags key 0 22 17 s1 [] 0 H1); [done | by cbn; rewrite Eo, Ek | done|].
      intros s2 H2. exact (ends_stop tid flags key 0 18 17 s2 H2).
Qed.

Lemma outcome_all tid flags key s : entered AES_READ_IDCODE tid flags key 0 s ->
  exists l, ends tid 40 0 s l (aes_outcome flags key rd).2 /\ [(ECP5_READ_ID, replicate 4 0)] ++ l = (aes_outcome flags key rd).1.
Proof.
  intros He. unfold aes_outcome. destruct (id_ok (rd 1 4)) eqn:E1; cbn [negb].
  2: { destruct (answered_done AES_READ_IDCODE tid flags key 0 38 0 s true He) as (s' & Hs' & Ed); [done | | exists []; split; [by exists s' | done]].
       cbn [aes_next]. change (batch_read AES_READ_IDCODE 0) with (rd 1 4). by rewrite E1. }
  assert (forall l status, (forall s', entered AES_READ_STATUS tid flags key 0 s' -> ends tid 35 5 s' l status) ->
    ends tid 40 0 s ([(ECP5_ISC_ENABLE, [2]); (ECP5_LSC_READ_STATUS, replicate 4 0)] ++ l) status) as H1.
  { intros l status H. apply (ends_next AES_ISC_ENABLE false AES_READ_IDCODE tid flags key 0 38 0 s _ status He); [done | | done |].
    - cbn [aes_next]. change (batch_read AES_READ_IDCODE 0) with (rd 1 4). by rewrite E1.
    - intros s1 Hs1. by apply (ends_next AES_READ_STATUS false AES_ISC_ENABLE tid flags key 0 35 2 s1 l status Hs1). }
  destruct (status_ok (rd 7 4)) eqn:E2; cbn [negb].
  2: { eexists. split; [apply H1 | reflexivity]. intros s' Hs'. apply (ends_next AES_ISC_DISABLE true AES_READ_STATUS tid flags key 0 32 5 s' [] _ Hs'); [done | | done |].
       - cbn [aes_next]. change (batch_read AES_READ_STATUS 5) with (rd 7 4). by rewrite E2.
       - intros s2 Hs2. exact (ends_stop tid flags key _ 28 8 s2 Hs2). }
  assert (forall l status, (forall s', entered AES_READ_CIPHER tid flags key 0 s' -> ends tid 29 11 s' l status) ->
    ends tid 40 0 s ([(ECP5_ISC_ENABLE, [2]); (ECP5_LSC_READ_STATUS, replicate 4 0)] ++
      [(ECP5_LSC_INIT_ADDRESS, [0]); (ECP5_LSC_READ_CIPHER_KEY, replicate 16 0)] ++ l) status) as H2.
  { intros l status H. apply H1. intros s1 Hs1. apply (ends_next AES_INIT_ADDRESS false AES_READ_STATUS tid flags key 0 32 5 s1 _ status Hs1); [done | | done |].
    - cbn [aes_next]. change (batch_read AES_READ_STATUS 5) with (rd 7 4). by rewrite E2.
    - intros s2 Hs2. by apply (ends_next AES_READ_CIPHER false AES_INIT_ADDRESS tid flags key 0 29 8 s2 l status Hs2). }
  destruct (blank (rd 13 16)) eqn:E3; cbn [negb].
  2: { eexists. split; [apply H2 | reflexivity]. intros s' Hs'. apply (ends_next AES_ISC_DISABLE true AES_READ_CIPHER tid flags key 0 26 11 s' [] _ Hs'); [done | | done |].
       - cbn [aes_next]. change (batch_read AES_READ_CIPHER 11) with (rd 13 16). by rewrite E3.
       - intros s2 Hs2. exact (ends_stop tid flags key _ 22 14 s2 Hs2). }
  assert (exists l status, (forall s', entered AES_PROG_CIPHER tid flags key 0 s' -> ends tid 26 14 s' l status)
    /\ ([(ECP5_READ_ID, replicate 4 0)] ++ [(ECP5_ISC_ENABLE, [2]); (ECP5_LSC_READ_STATUS, replicate 4 0)] ++
      [(ECP5_LSC_INIT_ADDRESS, [0]); (ECP5_LSC_READ_CIPHER_KEY, replicate 16 0)] ++ [(ECP5_LSC_PROG_CIPHER_KEY, reverse key)] ++ l, status)
       = aes_outcome flags key rd) as (l' & status & H3 & Heq).
  { unfold aes_outcome. rewrite E1, E2, E3. cbn [negb].
    destruct (eo_flag flags) eqn:Eo; [destruct (eo_set (rd 22 2)) eqn:Ev|]; cbn [negb]; try destruct (kl_flag flags) eqn:Ek;
      eexists _, _; (split; [|reflexivity]); intros s' Hs'; destruct (ends_burnt tid flags key s' Hs') as (l0 & st0 & He0 & Hq);
      rewrite ?Eo, ?Ev, ?Ek in Hq; cbn [negb] in Hq; injection Hq as -> ->; exact He0. }
  unfold aes_outcome in Heq. rewrite E1, E2, E3 in Heq. cbn [negb] in Heq. rewrite <- Heq. cbn [fst snd].
  eexists. split; [apply H2 | reflexivity]. intros s' Hs'.
  apply (ends_next AES_PROG_CIPHER false AES_READ_CIPHER tid flags key 0 26 11 s' l' status Hs'); [done | | done | done].
  cbn [aes_next]. change (batch_read AES_READ_CIPHER 11) with (rd 13 16). by rewrite E3.
Qed.
End Answered.

(** The fields of a command. *)
Definition cmd_tid (v : value_s) : Z := un_le (take 4 (v_bin v)).
Definition cmd_flags (v : value_s) : Z := un_le (take 4 (drop 4 (v_bin v))).
Definition cmd_key (v : value_s) : list Z := take 16 (drop 8 (v_bin v)).

Definition is_cmd (v : value_s) : Prop :=
  v_type v = UNION_BIN /\ AES_CMD_SIZE <= v_size v < 2 ^ 32 /\ Forall (is_u 8) (v_bin v).

Lemma cmd_accept now v s : jt_state s = AES_IDLE -> jt_dev s = true -> buf_ok s -> is_cmd v ->
  exists s' o, js320_jtag_handle_cmd now "h/jtag/aes/!cmd" v s = Ok (true, s', o)
    /\ entered AES_READ_IDCODE (cmd_tid v) (cmd_flags v) (cmd_key v) 0 s'
    /\ instrs o = [(ECP5_READ_ID, replicate 4 0)] /\ answers o = [].
Proof.
  intros Hst Hd (B1 & B2 & B3) (Hty & [Hsz _] & _). unfold js320_jtag_handle_cmd, is_type, AES_CMD_SIZE in *.
  change (negb (String.eqb "h/jtag/aes/!cmd" "h/jtag/aes/!cmd")) with false. cbv iota. rewrite run_get, bool_decide_eq_true_2 by done. cbn [negb].
  rewrite bool_decide_eq_true_2 by done. cbn [negb orb]. unfold v_size in *. simpl_cmp.
  assert (ld_le 4 (v_bin v) 0 = Ok (cmd_tid v)) as -> by (unfold ld_le; by simpl_cmp).
  assert (ld_le 4 (v_bin v) 4 = Ok (cmd_flags v)) as -> by (unfold ld_le; by simpl_cmp).
  assert (mem_copy (jt_key s) 0 (v_bin v) 8 16 = Ok (cmd_key v)) as ->.
  { unfold mem_copy. assert (0 + 16 <= len (jt_key s)) by (unfold len; lia). simpl_cmp. cbn [andb]. f_equal.
    change (Z.to_nat (0 + 16)) with 16%nat. rewrite (drop_ge (jt_key s)) by lia. rewrite app_nil_r. done. }
  autorewrite with op. set (s1 := cmd_start s (cmd_tid v) (cmd_flags v) (cmd_key v)).
  assert (buf_ok s1) as Hb1.
  { unfold buf_ok, s1. cbn. split; [done|]. split; [lia|]. unfold cmd_key. rewrite length_take, length_drop. unfold len in Hsz. lia. }
  destruct (enter_spec now AES_READ_IDCODE (moved s1 AES_READ_IDCODE false)) as (s' & o & Eo & Hi & Ha & Hk & Hs' & Hr); [done|].
  assert (aes_process now AES_EV_CMD s1 = Ok (tt, s', o)) as Ep by (rewrite process_eq; change (jt_state s1) with (jt_state s); by rewrite Hst).
  rewrite (run_bind _ _ _ _ _ _ Ep). exists s', o. cbn [mret op_ret]. rewrite app_nil_r. split; [done|]. split; [|done].
  pose proof Hk as (M1 & M2 & M3 & M4 & M5). split; try done; [by rewrite M1 | by eapply kept_buf_ok].
Qed.


(** ** Examples *)

Definition ex_cmd (tid flags : Z) : value_s := jsdrv_union_bin (le 4 tid ++ le 4 flags ++ seqZ 1 16).

Definition ex_mem_rsp (d : list Z) : value_s := union_stdmsg (hdr_bytes ++ mem_bytes (mk_mem 0 0 JS320_JTAG_OP_SHIFT 0 0 0 0 0 0 d)).

(** A blank device that takes every fuse. *)
Definition ex_rsp (k : nat) : value_s :=
  ex_mem_rsp (match k with
              | 1%nat => le 4 ECP5_LFE5U25_IDCODE
              | 7%nat => [0; 0x0C; 0; 0]
              | 13%nat => ECP5_BLANK_CIPHER_KEY
              | 22%nat | 28%nat => [3; 0]
              | _ => []
              end).

Lemma ex_rsp_valid k : valid_rsp (ex_rsp k) = true /\ v_size (ex_rsp k) < 2 ^ 32.
Proof. do 29 (destruct k as [|k]; [by vm_compute|]). by vm_compute. Qed.

Definition ex_jtag : js320_jtag_s := set_dev js320_jtag_alloc true.


Definition ex_inputs : list jtag_input :=
  In_open :: In_cmd 0 "h/jtag/aes/!cmd" (ex_cmd 7 3) :: In_timeout 0 ::
  map (fun k => In_publish 0 "h/!rsp" (ex_rsp k)) (seq 0 17) ++ [In_timeout 0; In_close].

Example ex_run : (t ← jtag_run js320_jtag_alloc ex_inputs; Ok (run_irs t.2)) = Ok (burn6 ++ [ECP5_LSC_PROG_FEABITS]).
Proof. by vm_compute. Qed.


(** A command while another one runs is refused, but its transaction replaces the one that runs: the
    answer at the end carries it. *)
Lemma busy_takes_transaction now v s : jt_state s <> AES_IDLE -> jt_dev s = true -> is_cmd v ->
  exists o, js320_jtag_handle_cmd now "h/jtag/aes/!cmd" v s = Ok (true, set_ids s (cmd_tid v) (jt_cmd_id s), o)
    /\ answers o = [(un_le (le 4 (cmd_tid v)), ec_code BUSY)].
Proof.
  intros Hst Hd (Hty & [Hsz _] & _). unfold js320_jtag_handle_cmd, is_type.
  change (negb (String.eqb "h/jtag/aes/!cmd" "h/jtag/aes/!cmd")) with false. cbv iota.
  rewrite run_get, bool_decide_eq_false_2 by done. cbn [negb]. rewrite bool_decide_eq_true_2 by done. unfold AES_CMD_SIZE, v_size in *.
  assert (ld_le 4 (v_bin v) 0 = Ok (cmd_tid v)) as -> by (unfold ld_le; by simpl_cmp). simpl_cmp. cbn [andb]. autorewrite with op.
  unfold aes_send_rsp, to_frontend. autorewrite with op. rewrite run_act by done. eexists. split; [reflexivity|]. reflexivity.
Qed.
