(* ===== verification/Fwup.v ===== *)
(** * JS320 firmware update: controller image and FPGA bitstream (src/devices/js320/js320_fwup.c)

    Two state machines of the upper driver, over one shared image buffer: the controller update
    stages an image page by page, reads it back and commits it; the FPGA programming opens the flash
    over JTAG, erases, writes, reads back, closes and restores the mode.  Pages travel in a pipeline
    of up to 16 commands. *)

From Stdlib Require Import Strings.String.
From S2P Require Import Prelude ErrorCode Time Effect MbDev.

Definition FW_PAGE_SIZE : Z := 256.
Definition PIPELINE_DEFAULT : Z := 4.
Definition PIPELINE_MAX : Z := 16.
Definition FLASH_BLOCK_64K : Z := 65536.
Definition FPGA_PROGRESS_PAGE_INTERVAL : Z := 256.
Definition UPDATE_TARGET_SLOT : Z := 0.
Definition FWUP_DEV_OP_READ : Z := MB_STDMSG_MEM_OP_READ.
Definition FWUP_DEV_OP_WRITE : Z := MB_STDMSG_MEM_OP_WRITE.
Definition FWUP_DEV_OP_ERASE : Z := MB_STDMSG_MEM_OP_ERASE.
Definition FWUP_DEV_OP_ALLOCATE : Z := MB_STDMSG_MEM_OP_CUSTOM_START.
Definition FWUP_DEV_OP_UPDATE : Z := MB_STDMSG_MEM_OP_CUSTOM_START + 1.
Definition FWUP_DEV_OP_LAUNCH : Z := MB_STDMSG_MEM_OP_CUSTOM_START + 2.
Definition JTAG_MEM_DELAY_US : Z := 100.
Definition JS320_JTAG_OP_MEM_OPEN : Z := MB_STDMSG_MEM_OP_CUSTOM_START + 2.
Definition JS320_JTAG_OP_MEM_CLOSE : Z := MB_STDMSG_MEM_OP_CUSTOM_START + 3.
Definition FWUP_CTRL_OP_UPDATE : Z := 1.
Definition FWUP_CTRL_OP_LAUNCH : Z := 2.
Definition FWUP_CTRL_OP_ERASE : Z := 3.
Definition FWUP_FPGA_OP_PROGRAM : Z := 1.
Definition FWUP_FPGA_PROGRESS_PHASE_ERASE : Z := 0.
Definition FWUP_FPGA_PROGRESS_PHASE_WRITE : Z := 1.
Definition FWUP_FPGA_PROGRESS_PHASE_VERIFY : Z := 2.
Definition CMD_SIZE : Z := 8.  (* sizeof(struct fwup_ctrl_cmd_s), sizeof(struct fwup_fpga_cmd_s) *)

Inductive ctrl_state_e := CTRL_IDLE | CTRL_ALLOCATE | CTRL_WRITE | CTRL_VERIFY | CTRL_UPDATE | CTRL_LAUNCH | CTRL_ERASE | CTRL_DONE.
Inductive fpga_state_e :=
  | FPGA_IDLE | FPGA_MODE_SWITCH | FPGA_OPEN | FPGA_ERASE | FPGA_WRITE | FPGA_VERIFY | FPGA_CLOSE | FPGA_MODE_RESTORE | FPGA_DONE.

#[global] Instance ctrl_state_eq_dec : EqDecision ctrl_state_e.
Proof. solve_decision. Defined.
#[global] Instance fpga_state_eq_dec : EqDecision fpga_state_e.
Proof. solve_decision. Defined.

Record js320_fwup_s := mk_fwup {
  fw_dev : bool;                  (* the handle is not null *)
  fw_ctrl_state : ctrl_state_e;
  fw_ctrl_transaction_id : Z;     (* uint32_t *)
  fw_ctrl_image_slot : Z;         (* uint8_t *)
  fw_fpga_state : fpga_state_e;
  fw_fpga_transaction_id : Z;     (* uint32_t *)
  fw_image : list Z;              (* the allocated bytes; none for a null pointer *)
  fw_image_size : Z;              (* uint32_t *)
  fw_device_cmd_id : Z;           (* uint32_t *)
  fw_pipeline_depth : Z;          (* uint32_t *)
  fw_page_count : Z;              (* uint32_t *)
  fw_send_idx : Z;                (* uint32_t *)
  fw_recv_idx : Z;                (* uint32_t *)
  fw_error_count : Z;             (* uint32_t *)
  fw_error_code : Z;              (* int32_t *)
  fw_erase_block_count : Z;       (* uint32_t *)
  fw_erase_block_idx : Z;         (* uint32_t *)
}.

#[global] Instance fwup_dev : HasDev js320_fwup_s := fw_dev.

Abbreviation M := (op js320_fwup_s).

(** ** Updates of the record *)

Definition set_ctrl (s : js320_fwup_s) (x : ctrl_state_e) : js320_fwup_s :=
  mk_fwup (fw_dev s) x (fw_ctrl_transaction_id s) (fw_ctrl_image_slot s) (fw_fpga_state s) (fw_fpga_transaction_id s) (fw_image s)
    (fw_image_size s) (fw_device_cmd_id s) (fw_pipeline_depth s) (fw_page_count s) (fw_send_idx s) (fw_recv_idx s) (fw_error_count s)
    (fw_error_code s) (fw_erase_block_count s) (fw_erase_block_idx s).
Definition set_fpga (s : js320_fwup_s) (x : fpga_state_e) : js320_fwup_s :=
  mk_fwup (fw_dev s) (fw_ctrl_state s) (fw_ctrl_transaction_id s) (fw_ctrl_image_slot s) x (fw_fpga_transaction_id s) (fw_image s)
    (fw_image_size s) (fw_device_cmd_id s) (fw_pipeline_depth s) (fw_page_count s) (fw_send_idx s) (fw_recv_idx s) (fw_error_count s)
    (fw_error_code s) (fw_erase_block_count s) (fw_erase_block_idx s).
Definition set_cmd_id (s : js320_fwup_s) (id : Z) : js320_fwup_s :=
  mk_fwup (fw_dev s) (fw_ctrl_state s) (fw_ctrl_transaction_id s) (fw_ctrl_image_slot s) (fw_fpga_state s) (fw_fpga_transaction_id s) (fw_image s)
    (fw_image_size s) id (fw_pipeline_depth s) (fw_page_count s) (fw_send_idx s) (fw_recv_idx s) (fw_error_count s)
    (fw_error_code s) (fw_erase_block_count s) (fw_erase_block_idx s).
Definition set_idx (s : js320_fwup_s) (send recv : Z) : js320_fwup_s :=
  mk_fwup (fw_dev s) (fw_ctrl_state s) (fw_ctrl_transaction_id s) (fw_ctrl_image_slot s) (fw_fpga_state s) (fw_fpga_transaction_id s) (fw_image s)
    (fw_image_size s) (fw_device_cmd_id s) (fw_pipeline_depth s) (fw_page_count s) send recv (fw_error_count s)
    (fw_error_code s) (fw_erase_block_count s) (fw_erase_block_idx s).
Definition set_err (s : js320_fwup_s) (count code : Z) : js320_fwup_s :=
  mk_fwup (fw_dev s) (fw_ctrl_state s) (fw_ctrl_transaction_id s) (fw_ctrl_image_slot s) (fw_fpga_state s) (fw_fpga_transaction_id s) (fw_image s)
    (fw_image_size s) (fw_device_cmd_id s) (fw_pipeline_depth s) (fw_page_count s) (fw_send_idx s) (fw_recv_idx s) count
    code (fw_erase_block_count s) (fw_erase_block_idx s).
Definition set_erase (s : js320_fwup_s) (count idx : Z) : js320_fwup_s :=
  mk_fwup (fw_dev s) (fw_ctrl_state s) (fw_ctrl_transaction_id s) (fw_ctrl_image_slot s) (fw_fpga_state s) (fw_fpga_transaction_id s) (fw_image s)
    (fw_image_size s) (fw_device_cmd_id s) (fw_pipeline_depth s) (fw_page_count s) (fw_send_idx s) (fw_recv_idx s) (fw_error_count s)
    (fw_error_code s) count idx.
Definition set_image (s : js320_fwup_s) (image : list Z) (size pages : Z) : js320_fwup_s :=
  mk_fwup (fw_dev s) (fw_ctrl_state s) (fw_ctrl_transaction_id s) (fw_ctrl_image_slot s) (fw_fpga_state s) (fw_fpga_transaction_id s) image
    size (fw_device_cmd_id s) (fw_pipeline_depth s) pages (fw_send_idx s) (fw_recv_idx s) (fw_error_count s)
    (fw_error_code s) (fw_erase_block_count s) (fw_erase_block_idx s).
Definition set_ctrl_cmd (s : js320_fwup_s) (tid slot depth : Z) : js320_fwup_s :=
  mk_fwup (fw_dev s) (fw_ctrl_state s) tid slot (fw_fpga_state s) (fw_fpga_transaction_id s) (fw_image s)
    (fw_image_size s) (fw_device_cmd_id s) depth (fw_page_count s) (fw_send_idx s) (fw_recv_idx s) (fw_error_count s)
    0 (fw_erase_block_count s) (fw_erase_block_idx s).
Definition set_fpga_cmd (s : js320_fwup_s) (tid depth : Z) : js320_fwup_s :=
  mk_fwup (fw_dev s) (fw_ctrl_state s) (fw_ctrl_transaction_id s) (fw_ctrl_image_slot s) (fw_fpga_state s) tid (fw_image s)
    (fw_image_size s) (fw_device_cmd_id s) depth (fw_page_count s) (fw_send_idx s) (fw_recv_idx s) (fw_error_count s)
    0 (fw_erase_block_count s) (fw_erase_block_idx s).
Definition set_tids (s : js320_fwup_s) (ctrl fpga : Z) : js320_fwup_s :=
  mk_fwup (fw_dev s) (fw_ctrl_state s) ctrl (fw_ctrl_image_slot s) (fw_fpga_state s) fpga (fw_image s)
    (fw_image_size s) (fw_device_cmd_id s) (fw_pipeline_depth s) (fw_page_count s) (fw_send_idx s) (fw_recv_idx s) (fw_error_count s)
    (fw_error_code s) (fw_erase_block_count s) (fw_erase_block_idx s).
Definition set_dev (s : js320_fwup_s) (dev : bool) : js320_fwup_s :=
  mk_fwup dev (fw_ctrl_state s) (fw_ctrl_transaction_id s) (fw_ctrl_image_slot s) (fw_fpga_state s) (fw_fpga_transaction_id s) (fw_image s)
    (fw_image_size s) (fw_device_cmd_id s) (fw_pipeline_depth s) (fw_page_count s) (fw_send_idx s) (fw_recv_idx s) (fw_error_count s)
    (fw_error_code s) (fw_erase_block_count s) (fw_erase_block_idx s).

(** ** Helpers *)

Definition fwup_cleanup : M unit := modify (fun s => set_err (set_idx (set_image s [] 0 0) 0 0) 0 0).

Definition ctrl_send_rsp (status : Z) : M unit :=
  s ← get;
  to_frontend "h/fwup/ctrl/!rsp" (jsdrv_union_bin (le 4 (fw_ctrl_transaction_id s) ++ le 4 status)).

Definition fpga_send_rsp (status : Z) : M unit :=
  s ← get;
  to_frontend "h/fwup/fpga/!rsp" (jsdrv_union_bin (le 4 (fw_fpga_transaction_id s) ++ le 4 status)).

Definition fpga_send_progress (phase current total : Z) : M unit :=
  to_frontend "h/fwup/fpga/!prog" (jsdrv_union_bin ([phase; 0; 0; 0] ++ le 4 current ++ le 4 total)).

Definition pipeline_depth_validate (depth : Z) : Z :=
  if depth =? 0 then PIPELINE_DEFAULT else if PIPELINE_MAX <? depth then PIPELINE_MAX else depth.

(** A memory command on [topic]; [data] is empty for a null pointer. *)
Definition send_mem (topic : string) (target operation timeout_ms offset length delay_us : Z) (data : list Z) : M unit :=
  s ← get;
  let id := u32 (fw_device_cmd_id s + 1) in
  modify (fun s => set_cmd_id s id) ;;
  to_device topic (union_stdmsg (hdr_bytes ++ mem_bytes (mk_mem id target operation 0 0 timeout_ms offset length delay_us data))).

Definition ctrl_send_fw_cmd (operation image offset length : Z) (data : list Z) : M unit :=
  send_mem "c/fwup/!cmd" image operation 0 offset length 0 data.

(** [ctrl_get_page_data] and [fpga_get_page_data]: a page of the image, filled up with 0xFF. *)
Definition get_page_data (s : js320_fwup_s) (page_idx : Z) : res (list Z) :=
  let offset := u32 (page_idx * FW_PAGE_SIZE) in
  let remaining := u32 (fw_image_size s - offset) in
  let chunk := if FW_PAGE_SIZE <? remaining then FW_PAGE_SIZE else remaining in
  mem_copy (replicate (Z.to_nat FW_PAGE_SIZE) 0xFF) 0 (fw_image s) offset chunk.

(** The loop of [ctrl_send_writes], [ctrl_send_reads], [fpga_send_writes] and [fpga_send_reads]: [send]
    is its body for the page [send_idx]; at most [page_count - send_idx] rounds. *)
Fixpoint send_loop (fuel : nat) (send : Z -> M unit) : M unit :=
  s ← get;
  if (fw_send_idx s <? fw_page_count s) && (u32 (fw_send_idx s - fw_recv_idx s) <? fw_pipeline_depth s) then
    match fuel with
    | O => lift (Fault OutOfFuel)
    | S fuel =>
        send (fw_send_idx s) ;;
        modify (fun s => set_idx s (u32 (fw_send_idx s + 1)) (fw_recv_idx s)) ;;
        send_loop fuel send
    end
  else mret tt.

Definition send_pages (send : Z -> M unit) : M unit :=
  s ← get; send_loop (Z.to_nat (fw_page_count s - fw_send_idx s)) send.

(** ** Controller firmware update *)

Definition ctrl_send_write (i : Z) : M unit :=
  s ← get;
  page ← lift (get_page_data s i);
  ctrl_send_fw_cmd FWUP_DEV_OP_WRITE 0 (u32 (i * FW_PAGE_SIZE)) FW_PAGE_SIZE page.

Definition ctrl_send_writes : M unit := send_pages ctrl_send_write.

Definition ctrl_send_reads : M unit :=
  send_pages (fun i => ctrl_send_fw_cmd FWUP_DEV_OP_READ 0 (u32 (i * FW_PAGE_SIZE)) FW_PAGE_SIZE []).

(** The reset at the start of a phase. *)
Definition phase_reset (s : js320_fwup_s) : js320_fwup_s := set_err (set_idx s 0 0) 0 (fw_error_code s).

Definition ctrl_enter_write : M unit := modify (fun s => phase_reset (set_ctrl s CTRL_WRITE)) ;; ctrl_send_writes.

Definition ctrl_enter_verify : M unit := modify (fun s => phase_reset (set_ctrl s CTRL_VERIFY)) ;; ctrl_send_reads.

Definition ctrl_finish (status : Z) : M unit :=
  ctrl_send_rsp status ;; fwup_cleanup ;; modify (fun s => set_ctrl s CTRL_IDLE).

(** The number of pages of an image. *)
Definition pages_of (image_size : Z) : Z := u32 (u32 (image_size + FW_PAGE_SIZE) - 1) / FW_PAGE_SIZE.

Definition ctrl_on_cmd (value : value_s) : M unit :=
  s ← get;
  if negb (bool_decide (fw_ctrl_state s = CTRL_IDLE)) then
    (if is_type UNION_BIN value && (4 <=? v_size value) then
       id ← lift (ld_le 4 (v_bin value) 0);
       modify (fun s => set_tids s id (fw_fpga_transaction_id s))
     else mret tt) ;;
    ctrl_send_rsp (ec_code BUSY)
  else if negb (is_type UNION_BIN value) || (v_size value <? CMD_SIZE) then
    ctrl_send_rsp (ec_code PARAMETER_INVALID)
  else
    id ← lift (ld_le 4 (v_bin value) 0);
    operation ← lift (ld (v_bin value) 4);
    slot ← lift (ld (v_bin value) 5);
    depth ← lift (ld (v_bin value) 6);
    modify (fun s => set_ctrl_cmd s id slot (pipeline_depth_validate depth)) ;;
    let image_size := u32 (v_size value - CMD_SIZE) in
    if operation =? FWUP_CTRL_OP_UPDATE then
      if image_size =? 0 then ctrl_send_rsp (ec_code PARAMETER_INVALID)
      else
        modify (fun s => set_ctrl (set_image s (drop (Z.to_nat CMD_SIZE) (v_bin value)) image_size (pages_of image_size)) CTRL_ALLOCATE) ;;
        ctrl_send_fw_cmd FWUP_DEV_OP_ALLOCATE 0 0 image_size []
    else if operation =? FWUP_CTRL_OP_LAUNCH then
      modify (fun s => set_ctrl s CTRL_LAUNCH) ;; ctrl_send_fw_cmd FWUP_DEV_OP_LAUNCH slot 0 0 []
    else if operation =? FWUP_CTRL_OP_ERASE then
      modify (fun s => set_ctrl s CTRL_ERASE) ;; ctrl_send_fw_cmd FWUP_DEV_OP_ERASE slot 0 0 []
    else ctrl_send_rsp (ec_code PARAMETER_INVALID).

(** A response: the offset of its header, the status and the offset of the memory transaction. *)
Definition rsp_hdr (value : value_s) : Z := if is_type UNION_STDMSG value then HDR_SIZE else 0.
Definition rsp_short (value : value_s) : bool := v_size value <? rsp_hdr value + MEM_SIZE.
Definition rsp_status (value : value_s) : res Z := ld (v_bin value) (rsp_hdr value + 7).
Definition rsp_offset (value : value_s) : res Z := ld_le 4 (v_bin value) (rsp_hdr value + 12).
Definition rsp_data (value : value_s) : list Z := drop (Z.to_nat (rsp_hdr value + MEM_SIZE)) (v_bin value).

Definition count_error (status : Z) : M unit :=
  if negb (status =? 0) then
    modify (fun s => set_err s (u32 (fw_error_count s + 1)) (if fw_error_code s =? 0 then ec_code IO else fw_error_code s))
  else mret tt.

Definition recv_incr : M unit := modify (fun s => set_idx s (fw_send_idx s) (u32 (fw_recv_idx s + 1))).

(** The comparison of a page that was read back, in both machines. *)
Definition verify_page (value : value_s) (status : Z) : M unit :=
  s ← get;
  if (status =? 0) && (fw_error_code s =? 0) then
    offset ← lift (rsp_offset value);
    expected ← lift (get_page_data s (offset / FW_PAGE_SIZE));
    if (FW_PAGE_SIZE <=? len (rsp_data value)) && negb (bool_decide (take (Z.to_nat FW_PAGE_SIZE) (rsp_data value) = expected)) then
      modify (fun s => set_err s (u32 (fw_error_count s + 1)) (ec_code IO))
    else mret tt
  else mret tt.

Definition ctrl_on_dev_rsp (value : value_s) : M unit :=
  if rsp_short value then mret tt
  else
    status ← lift (rsp_status value);
    count_error status ;;
    s ← get;
    match fw_ctrl_state s with
    | CTRL_ALLOCATE => if 0 <? fw_error_count s then ctrl_finish (fw_error_code s) else ctrl_enter_write
    | CTRL_WRITE =>
        recv_incr ;;
        s ← get;
        if 0 <? fw_error_count s then (if fw_send_idx s <=? fw_recv_idx s then ctrl_finish (fw_error_code s) else mret tt)
        else if fw_page_count s <=? fw_recv_idx s then ctrl_enter_verify
        else ctrl_send_writes
    | CTRL_VERIFY =>
        recv_incr ;;
        verify_page value status ;;
        s ← get;
        if 0 <? fw_error_count s then (if fw_send_idx s <=? fw_recv_idx s then ctrl_finish (fw_error_code s) else mret tt)
        else if fw_page_count s <=? fw_recv_idx s then
          modify (fun s => set_ctrl s CTRL_UPDATE) ;; ctrl_send_fw_cmd FWUP_DEV_OP_UPDATE UPDATE_TARGET_SLOT 0 0 []
        else ctrl_send_reads
    | CTRL_UPDATE | CTRL_LAUNCH | CTRL_ERASE => ctrl_finish (fw_error_code s)
    | CTRL_IDLE | CTRL_DONE => mret tt
    end.

(** ** FPGA programming *)

Definition fpga_send_jtag_mem_cmd (operation offset length : Z) (data : list Z) (timeout_ms : Z) : M unit :=
  send_mem "c/jtag/!cmd" 0 operation timeout_ms offset length JTAG_MEM_DELAY_US data.

Definition fpga_send_write (i : Z) : M unit :=
  s ← get;
  page ← lift (get_page_data s i);
  fpga_send_jtag_mem_cmd MB_STDMSG_MEM_OP_WRITE (u32 (i * FW_PAGE_SIZE)) FW_PAGE_SIZE page 1000.

Definition fpga_send_writes : M unit := send_pages fpga_send_write.

Definition fpga_send_reads : M unit :=
  send_pages (fun i => fpga_send_jtag_mem_cmd MB_STDMSG_MEM_OP_READ (u32 (i * FW_PAGE_SIZE)) FW_PAGE_SIZE [] 1000).

Definition fpga_finish (status : Z) : M unit :=
  fpga_send_rsp status ;; fwup_cleanup ;; modify (fun s => set_fpga s FPGA_IDLE).

Definition fpga_enter_close : M unit :=
  modify (fun s => set_fpga s FPGA_CLOSE) ;; fpga_send_jtag_mem_cmd JS320_JTAG_OP_MEM_CLOSE 0 0 [] 5000.

Definition fpga_enter_error_cleanup : M unit :=
  s ← get;
  match fw_fpga_state s with
  | FPGA_OPEN | FPGA_ERASE | FPGA_WRITE | FPGA_VERIFY => fpga_enter_close
  | FPGA_CLOSE => mret tt
  | _ => fpga_finish (fw_error_code s)
  end.

Definition fpga_enter_erase : M unit :=
  modify (fun s => set_fpga (phase_reset (set_erase s (u32 (u32 (fw_image_size s + FLASH_BLOCK_64K) - 1) / FLASH_BLOCK_64K) 0)) FPGA_ERASE) ;;
  fpga_send_jtag_mem_cmd MB_STDMSG_MEM_OP_ERASE 0 FLASH_BLOCK_64K [] 5000.

Definition fpga_enter_write : M unit := modify (fun s => phase_reset (set_fpga s FPGA_WRITE)) ;; fpga_send_writes.

Definition fpga_enter_verify : M unit := modify (fun s => phase_reset (set_fpga s FPGA_VERIFY)) ;; fpga_send_reads.

(** [now] is what [jsdrv_time_utc] returns. *)
Definition fpga_on_cmd (now : Z) (value : value_s) : M unit :=
  s ← get;
  if negb (bool_decide (fw_fpga_state s = FPGA_IDLE)) then
    (if is_type UNION_BIN value && (4 <=? v_size value) then
       id ← lift (ld_le 4 (v_bin value) 0);
       modify (fun s => set_tids s (fw_ctrl_transaction_id s) id)
     else mret tt) ;;
    fpga_send_rsp (ec_code BUSY)
  else if negb (is_type UNION_BIN value) || (v_size value <? CMD_SIZE) then
    fpga_send_rsp (ec_code PARAMETER_INVALID)
  else
    id ← lift (ld_le 4 (v_bin value) 0);
    operation ← lift (ld (v_bin value) 4);
    depth ← lift (ld (v_bin value) 5);
    modify (fun s => set_fpga_cmd s id (pipeline_depth_validate depth)) ;;
    let image_size := u32 (v_size value - CMD_SIZE) in
    if operation =? FWUP_FPGA_OP_PROGRAM then
      if image_size =? 0 then fpga_send_rsp (ec_code PARAMETER_INVALID)
      else
        modify (fun s => set_image s (drop (Z.to_nat CMD_SIZE) (v_bin value)) image_size (pages_of image_size)) ;;
        to_device "c/comm/sensor/!req" (jsdrv_union_u8 0) ;;
        modify (fun s => set_fpga s FPGA_MODE_SWITCH) ;;
        to_device "c/mode" (jsdrv_union_u32 2) ;;
        set_timeout (now + JSDRV_TIME_MILLISECOND * 100)
    else fpga_send_rsp (ec_code PARAMETER_INVALID).

Definition fpga_on_dev_rsp (now : Z) (value : value_s) : M unit :=
  if rsp_short value then mret tt
  else
    status ← lift (rsp_status value);
    count_error status ;;
    s ← get;
    match fw_fpga_state s with
    | FPGA_OPEN => if 0 <? fw_error_count s then fpga_enter_error_cleanup else fpga_enter_erase
    | FPGA_ERASE =>
        if 0 <? fw_error_count s then fpga_enter_error_cleanup
        else
          modify (fun s => set_erase s (fw_erase_block_count s) (u32 (fw_erase_block_idx s + 1))) ;;
          s ← get;
          fpga_send_progress FWUP_FPGA_PROGRESS_PHASE_ERASE (fw_erase_block_idx s) (fw_erase_block_count s) ;;
          if fw_erase_block_count s <=? fw_erase_block_idx s then fpga_enter_write
          else fpga_send_jtag_mem_cmd MB_STDMSG_MEM_OP_ERASE (u32 (fw_erase_block_idx s * FLASH_BLOCK_64K)) FLASH_BLOCK_64K [] 5000
    | FPGA_WRITE =>
        recv_incr ;;
        s ← get;
        if 0 <? fw_error_count s then (if fw_send_idx s <=? fw_recv_idx s then fpga_enter_error_cleanup else mret tt)
        else if fw_page_count s <=? fw_recv_idx s then
          fpga_send_progress FWUP_FPGA_PROGRESS_PHASE_WRITE (fw_recv_idx s) (fw_page_count s) ;;
          fpga_enter_verify
        else
          (if fw_recv_idx s mod FPGA_PROGRESS_PAGE_INTERVAL =? 0 then
             fpga_send_progress FWUP_FPGA_PROGRESS_PHASE_WRITE (fw_recv_idx s) (fw_page_count s)
           else mret tt) ;;
          fpga_send_writes
    | FPGA_VERIFY =>
        recv_incr ;;
        verify_page value status ;;
        s ← get;
        if 0 <? fw_error_count s then (if fw_send_idx s <=? fw_recv_idx s then fpga_enter_error_cleanup else mret tt)
        else if fw_page_count s <=? fw_recv_idx s then
          fpga_send_progress FWUP_FPGA_PROGRESS_PHASE_VERIFY (fw_recv_idx s) (fw_page_count s) ;;
          fpga_enter_close
        else
          (if fw_recv_idx s mod FPGA_PROGRESS_PAGE_INTERVAL =? 0 then
             fpga_send_progress FWUP_FPGA_PROGRESS_PHASE_VERIFY (fw_recv_idx s) (fw_page_count s)
           else mret tt) ;;
          fpga_send_reads
    | FPGA_CLOSE =>
        modify (fun s => set_fpga s FPGA_MODE_RESTORE) ;;
        to_device "c/mode" (jsdrv_union_u32 0) ;;
        set_timeout (now + JSDRV_TIME_MILLISECOND * 100)
    | FPGA_IDLE | FPGA_MODE_SWITCH | FPGA_MODE_RESTORE | FPGA_DONE => mret tt
    end.

Definition fpga_on_timeout : M unit :=
  s ← get;
  match fw_fpga_state s with
  | FPGA_MODE_SWITCH =>
      modify (fun s => set_fpga s FPGA_OPEN) ;;
      fpga_send_jtag_mem_cmd JS320_JTAG_OP_MEM_OPEN 0 0 [] 5000
  | FPGA_MODE_RESTORE =>
      to_device "c/comm/sensor/!req" (jsdrv_union_u8 1) ;;
      fpga_finish (fw_error_code s)
  | _ => mret tt
  end.

(** ** Public API *)

Definition js320_fwup_alloc : js320_fwup_s := mk_fwup false CTRL_IDLE 0 0 FPGA_IDLE 0 [] 0 0 0 0 0 0 0 0 0 0.

Definition js320_fwup_on_open : M unit := modify (fun s => set_dev s true).

Definition js320_fwup_on_close : M unit :=
  modify (fun s => set_ctrl s CTRL_IDLE) ;;
  s ← get;
  (if bool_decide (fw_fpga_state s = FPGA_IDLE) then mret tt
   else set_timeout 0 ;; modify (fun s => set_fpga s FPGA_IDLE)) ;;
  fwup_cleanup ;;
  modify (fun s => set_dev s false).

Definition js320_fwup_handle_cmd (now : Z) (subtopic : string) (value : value_s) : M bool :=
  if String.eqb subtopic "h/fwup/ctrl/!cmd" then ctrl_on_cmd value ;; mret true
  else if String.eqb subtopic "h/fwup/fpga/!cmd" then fpga_on_cmd now value ;; mret true
  else mret false.

Definition js320_fwup_handle_publish (now : Z) (subtopic : string) (value : value_s) : M bool :=
  s ← get;
  if negb (bool_decide (fw_ctrl_state s = CTRL_IDLE)) && String.eqb subtopic "h/!rsp" then ctrl_on_dev_rsp value ;; mret true
  else if negb (bool_decide (fw_fpga_state s = FPGA_IDLE)) && String.eqb subtopic "h/!rsp" then fpga_on_dev_rsp now value ;; mret true
  else mret false.

Definition js320_fwup_on_timeout : M unit :=
  s ← get; if bool_decide (fw_fpga_state s = FPGA_IDLE) then mret tt else fpga_on_timeout.

(** ** Images and pages *)

(** Page [i] of an image, filled up with 0xFF. *)
Definition page (img : list Z) (i : Z) : list Z :=
  let d := take 256 (drop (Z.to_nat (i * FW_PAGE_SIZE)) img) in d ++ replicate (256 - length d) 0xFF.

(** Sizes that a command can carry: the message and the rounding stay below [2^32]. *)
Definition image_ok (img : list Z) : Prop := 0 < len img /\ len img + FW_PAGE_SIZE < 2 ^ 32.

Definition pages (img : list Z) : Z := (len img + 255) / 256.

Lemma pages_of_len img : image_ok img -> pages_of (len img) = pages img.
Proof.
  intros [H1 H2]. unfold pages_of, FW_PAGE_SIZE, pages in *. rewrite (uwrap_small 32 (len img + 256)) by width_lia.
  rewrite uwrap_small by width_lia. f_equal. lia.
Qed.

Lemma pages_bound img : image_ok img -> 0 < pages img /\ (pages img - 1) * 256 < len img <= pages img * 256 /\ pages img * 256 < 2 ^ 32.
Proof. intros [H1 H2]. unfold pages, FW_PAGE_SIZE in *. div_lia. Qed.

Lemma get_page_ok s img i : fw_image s = img -> fw_image_size s = len img -> image_ok img -> 0 <= i < pages img ->
  get_page_data s i = Ok (page img i).
Proof.
  intros Hi Hs Hok Hr. pose proof (pages_bound img Hok) as (P1 & P2 & P3). unfold get_page_data. rewrite Hi, Hs.
  assert (i * 256 < len img) by nia.
  unfold FW_PAGE_SIZE in *. rewrite (uwrap_small 32 (i * 256)) by width_lia. destruct Hok as [O1 O2]. unfold FW_PAGE_SIZE in O2.
  rewrite (uwrap_small 32 (len img - i * 256)) by width_lia.
  set (chunk := if 256 <? len img - i * 256 then 256 else len img - i * 256).
  assert (0 <= chunk <= 256 /\ chunk <= len img - i * 256) as Hc by (unfold chunk; case_if; lia).
  assert (length (take 256 (drop (Z.to_nat (i * 256)) img)) = Z.to_nat chunk) as Hl.
  { rewrite length_take, length_drop. unfold chunk, len in *. case_if; lia. }
  unfold mem_copy. assert (len (replicate (Z.to_nat 256) 255) = 256) as -> by done. simpl_cmp. cbn [andb]. f_equal.
  change (Z.to_nat 0) with 0%nat. rewrite take_0. cbn [Datatypes.app]. unfold page, FW_PAGE_SIZE. rewrite Hl. f_equal.
  - rewrite <- Hl, length_take, <- firstn_firstn. by rewrite (take_ge (drop _ img)).
  - rewrite drop_replicate. by f_equal.
Qed.

(** ** Commands and replies *)

Definition to_cmd (a : action) : option mb_stdmsg_mem_s :=
  match a with
  | ToDevice _ v => mem_parse (drop (Z.to_nat HDR_SIZE) (v_bin v))
  | _ => None
  end.
Definition dev_cmds (o : list action) : list mb_stdmsg_mem_s := omap to_cmd o.

Definition rsp_of (topic : string) (a : action) : option (Z * Z) :=
  match a with
  | ToFrontend t v => if String.eqb t topic then Some (un_le (take 4 (v_bin v)), un_le (drop 4 (v_bin v))) else None
  | _ => None
  end.
(** The answers, transaction and status, on a topic. *)
Definition answers_on (topic : string) (o : list action) : list (Z * Z) := omap (rsp_of topic) o.

(** A command without its transaction. *)
Definition mkey (m : mb_stdmsg_mem_s) : Z * Z * Z * Z * list Z := (mm_target m, mm_operation m, mm_offset m, mm_length m, mm_data m).

(** The response of a device to the command [m]. *)
Definition reply (m : mb_stdmsg_mem_s) (status : Z) (data : list Z) : value_s :=
  union_stdmsg (hdr_bytes ++ mem_bytes (mk_mem (mm_transaction_id m) (mm_target m) (mm_operation m) 0 status 0 (mm_offset m) (mm_length m) 0 data)).

Lemma reply_spec m status data : is_u 32 (mm_offset m) ->
  rsp_short (reply m status data) = false /\ rsp_status (reply m status data) = Ok status
  /\ rsp_offset (reply m status data) = Ok (mm_offset m) /\ rsp_data (reply m status data) = data.
Proof.
  intros Ho. split; [|split; [reflexivity | split; [|reflexivity]]].
  - unfold rsp_short, v_size. cbn [v_bin reply union_stdmsg]. unfold rsp_hdr. change (is_type UNION_STDMSG (reply m status data)) with true.
    apply Z.ltb_ge. change (HDR_SIZE + MEM_SIZE) with 32. unfold mem_bytes, hdr_bytes. cbn. autorewrite with len.
    pose proof (len_nonneg data). lia.
  - unfold rsp_offset, rsp_hdr. change (is_type UNION_STDMSG (reply m status data)) with true. unfold ld_le.
    assert ((20 + Z.of_nat 4 <=? len (v_bin (reply m status data))) = true) as E.
    { apply Z.leb_le. cbn [v_bin reply union_stdmsg]. unfold mem_bytes, hdr_bytes. cbn. autorewrite with len. pose proof (len_nonneg data). lia. }
    change (HDR_SIZE + 12) with 20. rewrite E. cbn [andb Z.leb]. f_equal. exact (un_le_le 4 (mm_offset m) Ho).
Qed.

Lemma send_mem_eq topic target operation timeout_ms offset length delay_us data s : fw_dev s = true ->
  let id := u32 (fw_device_cmd_id s + 1) in
  send_mem topic target operation timeout_ms offset length delay_us data s =
  Ok (tt, set_cmd_id s id,
      [ToDevice topic (union_stdmsg (hdr_bytes ++ mem_bytes (mk_mem id target operation 0 0 timeout_ms offset length delay_us data)))]).
Proof.
  intros Hd id. unfold send_mem, to_device. autorewrite with op. cbv zeta. autorewrite with op. unfold act.
  change (dev_open (set_cmd_id s (u32 (fw_device_cmd_id s + 1)))) with (fw_dev s). by rewrite Hd.
Qed.

Lemma dev_cmds_send topic m : mem_fits m -> dev_cmds [ToDevice topic (union_stdmsg (hdr_bytes ++ mem_bytes m))] = [m].
Proof.
  intros Hm. unfold dev_cmds. cbn [omap list_omap to_cmd v_bin union_stdmsg].
  change (drop (Z.to_nat HDR_SIZE) (hdr_bytes ++ mem_bytes m)) with (mem_bytes m). by rewrite mem_parse_bytes.
Qed.

Lemma send_mem_one topic target operation timeout_ms offset length delay_us data s : fw_dev s = true ->
  is_u 16 timeout_ms -> is_u 32 offset -> is_u 32 length -> is_u 32 delay_us ->
  exists id o, send_mem topic target operation timeout_ms offset length delay_us data s = Ok (tt, set_cmd_id s id, o)
    /\ mkey <$> dev_cmds o = [(target, operation, offset, length, data)] /\ Forall mem_fits (dev_cmds o)
    /\ (forall topic, answers_on topic o = []).
Proof.
  intros Hd Ht Ho Hl Hy. rewrite send_mem_eq by done. eexists _, _. split; [reflexivity|].
  assert (mem_fits (mk_mem (u32 (fw_device_cmd_id s + 1)) target operation 0 0 timeout_ms offset length delay_us data)) as Hm.
  { split; [by apply uwrap_range|]. done. }
  rewrite dev_cmds_send by done. split; [done|]. by split; [constructor|].
Qed.

(** A range of pages. *)
Definition range (a b : Z) : list Z := seqZ a (b - a).

Lemma range_nil a b : b <= a -> range a b = [].
Proof. intros H. unfold range. apply seqZ_nil. lia. Qed.

Lemma range_cons a b : a < b -> range a b = a :: range (a + 1) b.
Proof. intros H. unfold range. rewrite seqZ_cons by lia. do 2 f_equal; lia. Qed.

Lemma range_app a b c : a <= b <= c -> range a c = range a b ++ range b c.
Proof. intros H. unfold range. replace (c - a) with ((b - a) + (c - b)) by lia. rewrite seqZ_app by lia. do 2 f_equal; lia. Qed.

(** The same state up to the counter of commands. *)
Definition same_but_id (s s' : js320_fwup_s) : Prop := exists id, s' = set_cmd_id s id.

(** What a loop over pages needs of its body: one command, nothing else changed. *)
Definition sends (send : Z -> M unit) (key : Z -> Z * Z * Z * Z * list Z) (ok : js320_fwup_s -> Prop) (n : Z) : Prop :=
  forall s i, ok s -> 0 <= i < n ->
    exists id o, send i s = Ok (tt, set_cmd_id s id, o) /\ mkey <$> dev_cmds o = [key i] /\ Forall mem_fits (dev_cmds o)
      /\ (forall topic, answers_on topic o = []).

Lemma send_loop_spec send key ok n fuel : forall s a r d,
  sends send key ok n -> (forall s id x y, ok s -> ok (set_idx (set_cmd_id s id) x y)) -> ok s ->
  fw_page_count s = n -> fw_send_idx s = a -> fw_recv_idx s = r -> fw_pipeline_depth s = d ->
  0 <= r <= a -> a <= n < 2 ^ 31 -> 0 < d <= 16 -> (Z.to_nat (n - a) <= fuel)%nat ->
  let e := Z.max a (Z.min n (r + d)) in
  exists id o, send_loop fuel send s = Ok (tt, set_idx (set_cmd_id s id) e r, o) /\ mkey <$> dev_cmds o = key <$> range a e
    /\ Forall mem_fits (dev_cmds o) /\ (forall topic, answers_on topic o = []).
Proof.
  induction fuel as [|fuel IH]; intros s a r d Hsend Hok Hs Hn Ha Hr Hd Hra Han Hdd Hf e.
  - cbn [send_loop]. rewrite run_get. rewrite Hn, Ha. simpl_cmp. cbn [andb]. exists (fw_device_cmd_id s), [].
    assert (e = a) as -> by lia. rewrite range_nil by lia. repeat split; try constructor. rewrite <- Ha, <- Hr. by destruct s.
  - cbn [send_loop]. rewrite run_get, Hn, Ha, Hr, Hd. rewrite uwrap_small by width_lia. case_if.
    + destruct (Hsend s a Hs ltac:(lia)) as (id & o & E1 & Hk & Hf1 & Hans). rewrite (run_bind _ _ _ _ _ _ E1), run_modify.
      change (fw_send_idx (set_cmd_id s id)) with (fw_send_idx s). change (fw_recv_idx (set_cmd_id s id)) with (fw_recv_idx s).
      rewrite Ha, Hr, uwrap_small by width_lia.
      destruct (IH (set_idx (set_cmd_id s id) (a + 1) r) (a + 1) r d) as (id' & o' & E' & Hk' & Hf' & Ha'); try done; auto; try lia.
      assert (Z.max (a + 1) (Z.min n (r + d)) = e) as He by lia. rewrite He in *.
      rewrite E'. exists id', (o ++ o'). split; [done|]. unfold dev_cmds, answers_on in *. rewrite omap_app, fmap_app, Hk, Hk', (range_cons a e) by lia.
      split; [done|]. split; [by apply Forall_app|]. intros topic. by rewrite omap_app, Hans, Ha'.
    + exists (fw_device_cmd_id s), []. assert (e = a) as -> by lia. rewrite range_nil by lia. repeat split; try constructor.
      rewrite <- Ha, <- Hr. by destruct s.
Qed.

(** The pages of the pipeline that are not on their way yet. *)
Lemma send_pages_spec send key ok s n a r d :
  sends send key ok n -> (forall s id x y, ok s -> ok (set_idx (set_cmd_id s id) x y)) -> ok s ->
  fw_page_count s = n -> fw_send_idx s = a -> fw_recv_idx s = r -> fw_pipeline_depth s = d ->
  0 <= r <= a -> a <= n < 2 ^ 31 -> 0 < d <= 16 ->
  let e := Z.max a (Z.min n (r + d)) in
  exists id o, send_pages send s = Ok (tt, set_idx (set_cmd_id s id) e r, o) /\ mkey <$> dev_cmds o = key <$> range a e
    /\ Forall mem_fits (dev_cmds o) /\ (forall topic, answers_on topic o = []).
Proof.
  intros Hsend Hok Hs Hn Ha Hr Hd Hra Han Hdd. unfold send_pages. rewrite run_get. rewrite Hn, Ha.
  by apply (send_loop_spec send key ok n (Z.to_nat (n - a)) s a r d).
Qed.

(** ** The controller update with a device that answers every command *)

Definition CTRL_RSP : string := "h/fwup/ctrl/!rsp".

(** The device takes commands into a queue of [PIPELINE_MAX] places and answers them in order, the
    [k]-th with the status and the data [rsp k]; until its queue is empty: the commands that follow
    and the answers to the front end. *)
Fixpoint ctrl_dialogue (fuel : nat) (rsp : nat -> Z * list Z) (k : nat) (q : list mb_stdmsg_mem_s) (s : js320_fwup_s)
    : res (js320_fwup_s * list mb_stdmsg_mem_s * list (Z * Z)) :=
  if PIPELINE_MAX <? len q then Fault AssertFail
  else match q with
  | [] => Ok (s, [], [])
  | m :: q =>
      match fuel with
      | O => Fault OutOfFuel
      | S fuel =>
          '(_, s, o) ← js320_fwup_handle_publish 0 "h/!rsp" (reply m (rsp k).1 (rsp k).2) s;
          '(s, l, a) ← ctrl_dialogue fuel rsp (S k) (q ++ dev_cmds o) s;
          Ok (s, dev_cmds o ++ l, answers_on CTRL_RSP o ++ a)
      end
  end.

Section CtrlUpdate.
Context (img : list Z) (tid d : Z) (rsp : nat -> Z * list Z).
Hypothesis img_ok : image_ok img.
Hypothesis depth_ok : 0 < d <= 16.
Hypothesis tid_ok : is_u 32 tid.
(** A page that is read comes in full. *)
Hypothesis rsp_ok : forall k, FW_PAGE_SIZE <= len (rsp k).2.

Let n := pages img.

(** The four kinds of commands. *)
Definition k_alloc : Z * Z * Z * Z * list Z := (0, FWUP_DEV_OP_ALLOCATE, 0, len img, []).
Definition k_write (i : Z) : Z * Z * Z * Z * list Z := (0, FWUP_DEV_OP_WRITE, i * FW_PAGE_SIZE, FW_PAGE_SIZE, page img i).
Definition k_read (i : Z) : Z * Z * Z * Z * list Z := (0, FWUP_DEV_OP_READ, i * FW_PAGE_SIZE, FW_PAGE_SIZE, []).
Definition k_update : Z * Z * Z * Z * list Z := (UPDATE_TARGET_SLOT, FWUP_DEV_OP_UPDATE, 0, 0, []).

(** The commands of an update without an error. *)
Definition script : list (Z * Z * Z * Z * list Z) :=
  [k_alloc] ++ (k_write <$> range 0 n) ++ (k_read <$> range 0 n) ++ [k_update].

(** Response [k] is good: no error, and the page that was read is the page of the image. *)
Definition good (k : nat) : bool :=
  ((rsp k).1 =? 0) &&
  (if (n <? Z.of_nat k) && (Z.of_nat k <=? 2 * n) then bool_decide (take 256 (rsp k).2 = page img (Z.of_nat k - n - 1)) else true).

Record ctrl_at (st : ctrl_state_e) (send recv ec code : Z) (s : js320_fwup_s) : Prop := mk_at {
  at_dev : fw_dev s = true;
  at_state : fw_ctrl_state s = st;
  at_tid : fw_ctrl_transaction_id s = tid;
  at_fpga : fw_fpga_state s = FPGA_IDLE;
  at_image : fw_image s = img;
  at_size : fw_image_size s = len img;
  at_depth : fw_pipeline_depth s = d;
  at_pages : fw_page_count s = n;
  at_send : fw_send_idx s = send;
  at_recv : fw_recv_idx s = recv;
  at_ec : fw_error_count s = ec;
  at_code : fw_error_code s = code;
}.

Definition holds_image (s : js320_fwup_s) : Prop := fw_dev s = true /\ fw_image s = img /\ fw_image_size s = len img.

Lemma n_bound : 0 < n /\ n * 256 < 2 ^ 32.
Proof. pose proof (pages_bound img img_ok). unfold n. lia. Qed.

Lemma holds_set s id x y : holds_image s -> holds_image (set_idx (set_cmd_id s id) x y).
Proof. done. Qed.

Lemma ctrl_writes_send : sends ctrl_send_write k_write holds_image n.
Proof.
  intros s i (Hd & Hi & Hs) Hr. pose proof n_bound as [_ Hn]. unfold ctrl_send_write. rewrite run_get, (get_page_ok s img) by done.
  rewrite run_lift_ok. unfold FW_PAGE_SIZE. rewrite uwrap_small by width_lia.
  unfold ctrl_send_fw_cmd. apply send_mem_one; [done | unfold is_u; lia ..].
Qed.

Lemma ctrl_reads_send : sends (fun i => ctrl_send_fw_cmd FWUP_DEV_OP_READ 0 (u32 (i * FW_PAGE_SIZE)) FW_PAGE_SIZE []) k_read holds_image n.
Proof.
  intros s i (Hd & Hi & Hs) Hr. pose proof n_bound as [_ Hn]. unfold FW_PAGE_SIZE. rewrite uwrap_small by width_lia.
  unfold ctrl_send_fw_cmd. apply send_mem_one; [done | unfold is_u; lia ..].
Qed.

Lemma at_holds st a r ec code s : ctrl_at st a r ec code s -> holds_image s.
Proof. by intros []. Qed.

Lemma at_id st a r ec code s id : ctrl_at st a r ec code s -> ctrl_at st a r ec code (set_cmd_id s id).
Proof. by intros []. Qed.

(** The responses of the loop of a phase. *)
Lemma pages_at st send key a r s : sends send key holds_image n -> ctrl_at st a r 0 0 s -> 0 <= r <= a -> a <= n ->
  let e := Z.max a (Z.min n (r + d)) in
  exists s' o, send_pages send s = Ok (tt, s', o) /\ ctrl_at st e r 0 0 s' /\ mkey <$> dev_cmds o = key <$> range a e
    /\ Forall mem_fits (dev_cmds o) /\ answers_on CTRL_RSP o = [].
Proof.
  intros Hsend Hat Hra Ha e. pose proof n_bound as [_ Hn]. pose proof Hat as [A1 A2 A3 A4 A5 A6 A7 A8 A9 A10 A11 A12].
  destruct (send_pages_spec send key holds_image s n a r d Hsend holds_set (at_holds _ _ _ _ _ _ Hat)) as (id & o & E & Hk & Hf & Hans); try done; try lia.
  exists (set_idx (set_cmd_id s id) e r), o. split; [done|]. split; [by split|]. auto.
Qed.

(** The end of an operation. *)
Definition finished (s : js320_fwup_s) : Prop :=
  fw_dev s = true /\ fw_ctrl_state s = CTRL_IDLE /\ fw_fpga_state s = FPGA_IDLE /\ fw_image s = [] /\ fw_error_count s = 0 /\ fw_error_code s = 0.

Lemma finish_at st a r ec code status s : ctrl_at st a r ec code s ->
  exists s' o, ctrl_finish status s = Ok (tt, s', o) /\ finished s' /\ dev_cmds o = [] /\ answers_on CTRL_RSP o = [(tid, un_le (le 4 status))].
Proof.
  intros [A1 A2 A3 A4 A5 A6 A7 A8 A9 A10 A11 A12]. unfold ctrl_finish, ctrl_send_rsp, to_frontend, fwup_cleanup. autorewrite with op.
  rewrite run_act by done. autorewrite with op. eexists _, _. split; [reflexivity|]. split; [done|]. split; [done|].
  transitivity [(un_le (le 4 tid), un_le (le 4 status))]; [by rewrite <- A3 | by rewrite (un_le_le 4 tid)].
Qed.

(** A response reaches the state machine of the controller. *)
Lemma publish_ctrl v s : fw_ctrl_state s <> CTRL_IDLE ->
  js320_fwup_handle_publish 0 "h/!rsp" v s = match ctrl_on_dev_rsp v s with Ok (_, s', o) => Ok (true, s', o) | Fault f => Fault f end.
Proof.
  intros Hs. unfold js320_fwup_handle_publish. rewrite run_get, bool_decide_eq_false_2 by done. change (negb false && String.eqb "h/!rsp" "h/!rsp") with true.
  cbv iota. unfold mbind, op_bind. destruct (ctrl_on_dev_rsp v s) as [[[? ?] ?]|]; [|done]. cbn. by rewrite app_nil_r.
Qed.

(** The error after a response with [status]. *)
Definition ec_after (ec status : Z) : Z := if status =? 0 then ec else u32 (ec + 1).
Definition code_after (code status : Z) : Z := if status =? 0 then code else if code =? 0 then ec_code IO else code.

Lemma count_error_at st a r ec code status s : ctrl_at st a r ec code s ->
  exists s', count_error status s = Ok (tt, s', []) /\ ctrl_at st a r (ec_after ec status) (code_after code status) s'.
Proof.
  intros [A1 A2 A3 A4 A5 A6 A7 A8 A9 A10 A11 A12]. unfold count_error, ec_after, code_after. destruct (status =? 0); cbn [negb].
  - exists s. by split.
  - eexists. split; [reflexivity|]. split; try done; cbn; [by rewrite A11 | by rewrite A12].
Qed.

Lemma recv_incr_at st a r ec code s : ctrl_at st a r ec code s -> 0 <= r < 2 ^ 31 ->
  exists s', recv_incr s = Ok (tt, s', []) /\ ctrl_at st a (r + 1) ec code s'.
Proof.
  intros [A1 A2 A3 A4 A5 A6 A7 A8 A9 A10 A11 A12] Hr. eexists. split; [reflexivity|]. split; try done. cbn. rewrite A10. apply uwrap_small. width_lia.
Qed.

(** Response [k] to the read of page [i]. *)
Lemma verify_page_at a r ec code s m status data i : ctrl_at CTRL_VERIFY a r ec code s -> 0 <= i < n -> mm_offset m = i * FW_PAGE_SIZE ->
  FW_PAGE_SIZE <= len data -> 0 <= ec < 2 ^ 31 ->
  exists s', verify_page (reply m status data) status s = Ok (tt, s', [])
    /\ (if (status =? 0) && (code =? 0) && negb (bool_decide (take 256 data = page img i))
        then ctrl_at CTRL_VERIFY a r (ec + 1) (ec_code IO) s' else s' = s).
Proof.
  intros Hat Hi Ho Hd He. pose proof Hat as [A1 A2 A3 A4 A5 A6 A7 A8 A9 A10 A11 A12]. pose proof n_bound as [_ Hn].
  unfold verify_page. rewrite run_get, A12. destruct ((status =? 0) && (code =? 0)) eqn:E; cbn [andb]; [|by exists s].
  destruct (reply_spec m status data) as (_ & _ & R3 & R4); [rewrite Ho; unfold FW_PAGE_SIZE; width_lia|].
  rewrite R3, R4, run_lift_ok, Ho, Z.div_mul by done. rewrite (get_page_ok s img) by done. rewrite run_lift_ok.
  rewrite (proj2 (Z.leb_le _ _) Hd). change (Z.to_nat FW_PAGE_SIZE) with 256%nat. cbn [andb].
  destruct (bool_decide (take 256 data = page img i)); cbn [negb]; [by exists s|].
  eexists. split; [reflexivity|]. split; try done. cbn. rewrite A11. apply uwrap_small. width_lia.
Qed.

(** The head of the handler: past the checks of the message. *)
Lemma on_rsp_at st a r ec code s m status data : ctrl_at st a r ec code s -> is_u 32 (mm_offset m) ->
  exists s', ctrl_at st a r (ec_after ec status) (code_after code status) s' /\
    ctrl_on_dev_rsp (reply m status data) s =
    (match st with
     | CTRL_ALLOCATE => if 0 <? ec_after ec status then ctrl_finish (code_after code status) else ctrl_enter_write
     | CTRL_WRITE =>
         recv_incr ;; s ← get;
         if 0 <? fw_error_count s then (if fw_send_idx s <=? fw_recv_idx s then ctrl_finish (fw_error_code s) else mret tt)
         else if fw_page_count s <=? fw_recv_idx s then ctrl_enter_verify else ctrl_send_writes
     | CTRL_VERIFY =>
         recv_incr ;; verify_page (reply m status data) status ;; s ← get;
         if 0 <? fw_error_count s then (if fw_send_idx s <=? fw_recv_idx s then ctrl_finish (fw_error_code s) else mret tt)
         else if fw_page_count s <=? fw_recv_idx s then
           modify (fun s => set_ctrl s CTRL_UPDATE) ;; ctrl_send_fw_cmd FWUP_DEV_OP_UPDATE UPDATE_TARGET_SLOT 0 0 []
         else ctrl_send_reads
     | CTRL_UPDATE | CTRL_LAUNCH | CTRL_ERASE => ctrl_finish (code_after code status)
     | CTRL_IDLE | CTRL_DONE => mret tt
     end) s'.
Proof.
  intros Hat Ho. destruct (reply_spec m status data Ho) as (R1 & R2 & _). unfold ctrl_on_dev_rsp. rewrite R1, R2, run_lift_ok.
  destruct (count_error_at st a r ec code status s Hat) as (s' & E & Hat'). exists s'. split; [done|].
  rewrite (run_bind _ _ _ _ _ _ E), run_get. destruct Hat' as [A1 A2 A3 A4 A5 A6 A7 A8 A9 A10 A11 A12]. rewrite A2, A11, A12.
  match goal with |- match ?x with _ => _ end = _ => set (y := x) end.
  assert (forall z : res (unit * js320_fwup_s * list action),
    match z with Ok (b, s2, o2) => Ok (b, s2, [] ++ o2) | Fault f => Fault f end = z) as Hz by (by intros [[[? ?] ?]|]).
  rewrite Hz. unfold y. by destruct st.
Qed.

Lemma error_after ec code status : 0 <= ec < 2 ^ 30 -> (ec = 0 /\ code = 0 \/ 0 < ec /\ code = ec_code IO) ->
  0 <= ec_after ec status <= ec + 1 /\ (ec_after ec status = 0 -> status = 0 /\ ec = 0) /\
  (0 < ec_after ec status -> code_after code status = ec_code IO) /\ (ec_after ec status = 0 -> code_after code status = 0).
Proof.
  intros He Hc. unfold ec_after, code_after. destruct (Z.eqb_spec status 0) as [->|Hs].
  - split; [lia|]. destruct Hc as [[-> ->]|[? ->]]; (split; [lia|]); split; done || lia.
  - rewrite uwrap_small by width_lia. split; [lia|]. split; [lia|]. split; [|lia]. intros _. by destruct Hc as [[-> ->]|[? ->]].
Qed.

(** The body of the two page phases: the response is counted, and compared when it is a page that was read. *)
Definition phase_body (st : ctrl_state_e) (value : value_s) (status : Z) : M unit :=
  match st with CTRL_VERIFY => recv_incr ;; verify_page value status | _ => recv_incr end.

Definition bad (st : ctrl_state_e) (status : Z) (data : list Z) (i : Z) : bool :=
  negb (status =? 0) || match st with CTRL_VERIFY => negb (bool_decide (take 256 data = page img i)) | _ => false end.

(** Errors are counted once per response, and remembered. *)
Lemma phase_body_at st a r ec code s m status data : (st = CTRL_WRITE \/ st = CTRL_VERIFY) ->
  ctrl_at st a r (ec_after ec status) (code_after code status) s ->
  0 <= r < n -> mm_offset m = r * FW_PAGE_SIZE -> FW_PAGE_SIZE <= len data -> 0 <= ec < 2 ^ 30 ->
  (ec = 0 /\ code = 0 \/ 0 < ec /\ code = ec_code IO) ->
  exists s' ec', phase_body st (reply m status data) status s = Ok (tt, s', [])
    /\ ctrl_at st a (r + 1) ec' (if 0 <? ec' then ec_code IO else 0) s' /\ 0 <= ec' <= ec + 1
    /\ (0 < ec' <-> 0 < ec \/ bad st status data r = true).
Proof.
  intros Hst Hat Hr Ho Hd Hec Hcode. pose proof n_bound as [_ Hn].
  destruct (error_after ec code status Hec Hcode) as (H1 & H2 & H3 & H4).
  assert (code_after code status = if 0 <? ec_after ec status then ec_code IO else 0) as Hc by (case_if; [apply H3; lia | apply H4; lia]).
  assert (status <> 0 -> 0 < ec_after ec status) as Hpos.
  { intros Hs. destruct (Z.eq_dec (ec_after ec status) 0) as [E|]; [|lia]. by destruct (H2 E). }
  assert (status = 0 -> ec_after ec status = ec) as Hz by (by intros ->).
  rewrite Hc in Hat. destruct (recv_incr_at _ _ _ _ _ _ Hat) as (s2 & E2 & Hat2); [lia|].
  unfold bad. destruct Hst as [-> | ->]; cbn [phase_body].
  - exists s2, (ec_after ec status). split; [done|]. split; [done|]. split; [lia|]. rewrite orb_false_r.
    destruct (Z.eqb_spec status 0) as [Es|Es]; cbn [negb]; [rewrite (Hz Es); intuition done | intuition].
  - rewrite (run_bind _ _ _ _ _ _ E2).
    destruct (verify_page_at _ _ _ _ _ m status data r Hat2) as (s3 & E3 & H5); [lia | done | done | lia|]. rewrite E3.
    destruct (Z.eqb_spec status 0) as [Es|Es]; cbn [andb negb orb] in *.
    + rewrite (Hz Es) in *. destruct (Z.eq_dec ec 0) as [E0|E0].
      * rewrite E0 in *. destruct (bool_decide (take 256 data = page img r)); cbn [negb Z.ltb Z.eqb Z.compare andb] in *.
        -- exists s2, 0. subst s3. split; [done|]. split; [done|]. split; [lia|]. intuition (done || lia).
        -- exists s3, 1. split; [done|]. split; [done|]. split; [lia|]. intuition (done || lia).
      * rewrite (proj2 (Z.ltb_lt 0 ec)) in * by lia. change (ec_code IO =? 0) with false in H5. cbn [andb] in H5. subst s3.
        exists s2, ec. rewrite (proj2 (Z.ltb_lt 0 ec)) by lia. split; [done|]. split; [done|]. split; [lia|]. intuition (done || lia).
    + subst s3. exists s2, (ec_after ec status). split; [done|]. split; [done|]. split; [lia|]. intuition (done || lia).
Qed.

(** What follows when all pages of a phase are done, and when some are not. *)
Definition phase_end (st : ctrl_state_e) : M unit :=
  match st with
  | CTRL_VERIFY => modify (fun s => set_ctrl s CTRL_UPDATE) ;; ctrl_send_fw_cmd FWUP_DEV_OP_UPDATE UPDATE_TARGET_SLOT 0 0 []
  | _ => ctrl_enter_verify
  end.
Definition phase_more (st : ctrl_state_e) : M unit := match st with CTRL_VERIFY => ctrl_send_reads | _ => ctrl_send_writes end.

Lemma phase_step st a r ec code s m status data : (st = CTRL_WRITE \/ st = CTRL_VERIFY) -> ctrl_at st a r ec code s ->
  0 <= r < n -> mm_offset m = r * FW_PAGE_SIZE -> FW_PAGE_SIZE <= len data -> 0 <= ec < 2 ^ 30 ->
  (ec = 0 /\ code = 0 \/ 0 < ec /\ code = ec_code IO) ->
  exists s' ec', ctrl_at st a (r + 1) ec' (if 0 <? ec' then ec_code IO else 0) s' /\ 0 <= ec' <= ec + 1
    /\ (0 < ec' <-> 0 < ec \/ bad st status data r = true)
    /\ js320_fwup_handle_publish 0 "h/!rsp" (reply m status data) s =
       match (if 0 <? ec' then (if a <=? r + 1 then ctrl_finish (ec_code IO) else mret tt)
              else if n <=? r + 1 then phase_end st else phase_more st) s' with
       | Ok (_, s', o) => Ok (true, s', o)
       | Fault f => Fault f
       end.
Proof.
  intros Hst Hat Hr Ho Hd Hec Hcode. pose proof n_bound as [_ Hn].
  destruct (on_rsp_at st a r ec code s m status data Hat) as (s1 & Hat1 & E); [rewrite Ho; unfold FW_PAGE_SIZE; width_lia|].
  destruct (phase_body_at st a r ec code s1 m status data Hst Hat1 Hr Ho Hd Hec Hcode) as (s' & ec' & E' & Hat' & H1 & H2).
  exists s', ec'. split; [done|]. split; [done|]. split; [done|].
  rewrite publish_ctrl by (rewrite (at_state _ _ _ _ _ _ Hat); by destruct Hst as [-> | ->]). rewrite E.
  assert (forall k : M unit, ((phase_body st (reply m status data) status ;; k) s1) = k s') as Hk.
  { intros k. rewrite (run_bind _ _ _ _ _ _ E'). by destruct (k s') as [[[? ?] ?]|]. }
  pose proof Hat' as [A1 A2 A3 A4 A5 A6 A7 A8 A9 A10 A11 A12].
  destruct Hst as [-> | ->]; cbn [phase_body phase_end phase_more] in *.
  - rewrite Hk, run_get, A8, A9, A10, A11, A12. case_if; done.
  - rewrite <- run_assoc. rewrite Hk, run_get, A8, A9, A10, A11, A12. case_if; done.
Qed.

Lemma dialogue_nil fuel k s : ctrl_dialogue fuel rsp k [] s = Ok (s, [], []).
Proof. by destruct fuel. Qed.

Lemma dialogue_cons fuel k m q s s1 o : len q < PIPELINE_MAX ->
  js320_fwup_handle_publish 0 "h/!rsp" (reply m (rsp k).1 (rsp k).2) s = Ok (true, s1, o) ->
  ctrl_dialogue (S fuel) rsp k (m :: q) s =
  ('(s, l, a) ← ctrl_dialogue fuel rsp (S k) (q ++ dev_cmds o) s1; Ok (s, dev_cmds o ++ l, answers_on CTRL_RSP o ++ a)).
Proof. intros Hq E. cbn [ctrl_dialogue]. rewrite len_cons. unfold PIPELINE_MAX in *. simpl_cmp. by rewrite E. Qed.

(** The pages in flight. *)
Definition in_flight (key : Z -> Z * Z * Z * Z * list Z) (q : list mb_stdmsg_mem_s) (r a : Z) : Prop :=
  mkey <$> q = key <$> range r a /\ Forall mem_fits q.

Definition page_key (key : Z -> Z * Z * Z * Z * list Z) : Prop := key = k_write \/ key = k_read.

Lemma in_flight_head key q r a : page_key key -> in_flight key q r a -> r < a ->
  exists m q', q = m :: q' /\ mm_offset m = r * FW_PAGE_SIZE /\ in_flight key q' (r + 1) a /\ len q' = a - r - 1.
Proof.
  intros Hk [Hq Hf] Hr. rewrite range_cons in Hq by done. destruct q as [|m q']; [done|]. injection Hq as Hm Hq. exists m, q'.
  apply Forall_cons in Hf as [_ Hf]. split; [done|]. split; [|split; [done|]].
  - unfold mkey in Hm. destruct Hk as [-> | ->]; injection Hm; auto.
  - apply (f_equal length) in Hq. rewrite !length_fmap in Hq. unfold len, range in *. rewrite length_seqZ in Hq. lia.
Qed.

(** After an error the commands in flight are waited for, nothing more is sent, and the error is answered. *)
Lemma drain st key fuel : forall a r ec s q k, (st = CTRL_WRITE \/ st = CTRL_VERIFY) -> page_key key ->
  ctrl_at st a r ec (ec_code IO) s -> in_flight key q r a -> 0 <= r < a -> a <= n -> a - r <= 16 -> 0 < ec -> ec + (a - r) < 2 ^ 30 ->
  (Z.to_nat (a - r) <= fuel)%nat ->
  exists s', ctrl_dialogue fuel rsp k q s = Ok (s', [], [(tid, ec_code IO)]) /\ finished s'.
Proof.
  induction fuel as [|fuel IH]; intros a r ec s q k Hst Hk Hat Hq Hr Ha Hw He Hec Hf; [lia|].
  destruct (in_flight_head key q r a Hk Hq) as (m & q' & -> & Ho & Hq' & Hl); [lia|].
  destruct (phase_step st a r ec (ec_code IO) s m (rsp k).1 (rsp k).2 Hst Hat) as (s1 & ec1 & Hat1 & He1 & Hb & E); [lia | done | apply rsp_ok | lia | by right|].
  assert (0 < ec1) as Hp by (apply Hb; by left). rewrite (proj2 (Z.ltb_lt 0 ec1)) in * by done.
  assert (len q' < PIPELINE_MAX) as Hq16 by (unfold PIPELINE_MAX; lia).
  destruct (Z.lt_ge_cases (r + 1) a) as [Hlt|Hge].
  - rewrite (proj2 (Z.leb_gt _ _)) in E by lia. cbn [mret op_ret] in E. rewrite (dialogue_cons _ _ _ _ _ _ _ Hq16 E).
    cbn [dev_cmds omap list_omap]. rewrite app_nil_r.
    destruct (IH a (r + 1) ec1 s1 q' (S k) Hst Hk Hat1 Hq') as (s' & E' & Hfin); [lia ..|]. rewrite E', bind_Ok. by exists s'.
  - rewrite (proj2 (Z.leb_le _ _)) in E by lia. destruct (finish_at _ _ _ _ _ (ec_code IO) _ Hat1) as (s' & o & Ef & Hfin & Hc & Hans).
    rewrite Ef in E. rewrite (dialogue_cons _ _ _ _ _ _ _ Hq16 E). rewrite Hc, Hans.
    destruct q' as [|]; [|rewrite len_cons in Hl; pose proof (len_nonneg q'); lia]. cbn [Datatypes.app]. rewrite dialogue_nil, bind_Ok. by exists s'.
Qed.

(** Every response from [k] to the last page that is read is good. *)
Definition all_good (k : nat) : bool := forallb good (seq k (Z.to_nat (2 * n + 1) - k)).

Lemma all_good_S k : (k < Z.to_nat (2 * n + 1))%nat -> all_good k = good k && all_good (S k).
Proof.
  intros H. unfold all_good. replace (Z.to_nat (2 * n + 1) - k)%nat with (S (Z.to_nat (2 * n + 1) - S k)) by lia. done.
Qed.

(** What the rest of an update sends, [rem] being what it would send, and what it answers. *)
Definition outcome (k : nat) (rem : list (Z * Z * Z * Z * list Z)) (l : list mb_stdmsg_mem_s) (ans : list (Z * Z)) : Prop :=
  if all_good k then mkey <$> l = rem /\ ans = [(tid, if (rsp (Z.to_nat (2 * n + 1))).1 =? 0 then 0 else ec_code IO)]
  else (exists p, (p < length rem)%nat /\ mkey <$> l = take p rem) /\ ans = [(tid, ec_code IO)].

Lemma outcome_app k cmds rem l ans : outcome k rem l ans -> outcome k ((mkey <$> cmds) ++ rem) (cmds ++ l) ans.
Proof.
  unfold outcome. destruct (all_good k).
  - intros [<- ->]. by rewrite fmap_app.
  - intros [(p & Hp & Hl) ->]. split; [|done]. exists (length (mkey <$> cmds) + p)%nat. rewrite length_app. split; [lia|].
    by rewrite fmap_app, Hl, firstn_app_2.
Qed.

(** The commit. *)
Lemma update_phase fuel s m : ctrl_at CTRL_UPDATE n n 0 0 s -> is_u 32 (mm_offset m) ->
  exists s', ctrl_dialogue (S fuel) rsp (Z.to_nat (2 * n + 1)) [m] s =
    Ok (s', [], [(tid, if (rsp (Z.to_nat (2 * n + 1))).1 =? 0 then 0 else ec_code IO)]) /\ finished s'.
Proof.
  intros Hat Hm. set (k := Z.to_nat (2 * n + 1)). destruct (on_rsp_at _ _ _ _ _ s m (rsp k).1 (rsp k).2 Hat Hm) as (s1 & Hat1 & E).
  destruct (finish_at _ _ _ _ _ (code_after 0 (rsp k).1) _ Hat1) as (s' & o & Ef & Hfin & Hc & Hans).
  rewrite Ef in E. assert (js320_fwup_handle_publish 0 "h/!rsp" (reply m (rsp k).1 (rsp k).2) s = Ok (true, s', o)) as Ep.
  { rewrite publish_ctrl by (by rewrite (at_state _ _ _ _ _ _ Hat)). by rewrite E. }
  rewrite (dialogue_cons _ _ _ [] _ _ _ eq_refl Ep), Hc, Hans. cbn [Datatypes.app]. rewrite dialogue_nil, bind_Ok. exists s'. split; [|done].
  unfold code_after. by destruct ((rsp k).1 =? 0).
Qed.

Section Phase.
Context (st : ctrl_state_e) (key : Z -> Z * Z * Z * Z * list Z) (base : Z) (rest : list (Z * Z * Z * Z * list Z)) (fend : nat).
Hypothesis st_page : st = CTRL_WRITE \/ st = CTRL_VERIFY.
Hypothesis key_page : page_key key.
Hypothesis base_range : 0 <= base <= n + 1.
Hypothesis rest_some : rest <> [].
Hypothesis good_bad : forall r, 0 <= r < n -> good (Z.to_nat (base + r)) = negb (bad st (rsp (Z.to_nat (base + r))).1 (rsp (Z.to_nat (base + r))).2 r).
Hypothesis more_sends : exists send, phase_more st = send_pages send /\ sends send key holds_image n.
Hypothesis end_ok : forall s, ctrl_at st n n 0 0 s -> exists s1 o s' l ans,
  phase_end st s = Ok (tt, s1, o) /\ answers_on CTRL_RSP o = []
  /\ ctrl_dialogue fend rsp (Z.to_nat (base + n)) (dev_cmds o) s1 = Ok (s', l, ans)
  /\ finished s' /\ outcome (Z.to_nat (base + n)) rest (dev_cmds o ++ l) ans.

(** A bad response: nothing more is sent. *)
Lemma outcome_bad k rem : all_good k = false -> rem <> [] -> outcome k rem [] [(tid, ec_code IO)].
Proof. intros H Hr. unfold outcome. rewrite H. split; [|done]. exists 0%nat. split; [|done]. destruct rem; [done | cbn; lia]. Qed.

Lemma outcome_more k cmds rem l ans : good k = true -> (k < Z.to_nat (2 * n + 1))%nat -> outcome (S k) rem l ans ->
  outcome k ((mkey <$> cmds) ++ rem) (cmds ++ l) ans.
Proof.
  intros Hg Hk H%(outcome_app _ cmds). unfold outcome in *. by rewrite (all_good_S k Hk), Hg.
Qed.

(** One response of the phase: an error, the end of the phase, or more pages. *)
Lemma page_round fuel r a s q : 0 <= r < n -> a = Z.min n (r + d) -> ctrl_at st a r 0 0 s -> in_flight key q r a ->
  (Z.to_nat (a - r - 1) <= fuel)%nat ->
  (r + 1 = n -> fuel = fend) ->
  (forall s1 a1 q1, r + 1 < n -> a1 = Z.min n (r + 1 + d) -> ctrl_at st a1 (r + 1) 0 0 s1 -> in_flight key q1 (r + 1) a1 ->
     exists s' l ans, ctrl_dialogue fuel rsp (Z.to_nat (base + (r + 1))) q1 s1 = Ok (s', l, ans) /\ finished s'
       /\ outcome (Z.to_nat (base + (r + 1))) ((key <$> range a1 n) ++ rest) l ans) ->
  exists s' l ans, ctrl_dialogue (S fuel) rsp (Z.to_nat (base + r)) q s = Ok (s', l, ans) /\ finished s'
    /\ outcome (Z.to_nat (base + r)) ((key <$> range a n) ++ rest) l ans.
Proof.
  intros Hr Ha Hat Hq Hf Hfe Hmore. pose proof n_bound as [_ Hn].
  destruct (in_flight_head key q r a key_page Hq) as (m & q' & -> & Ho & Hq' & Hl); [lia|].
  set (k := Z.to_nat (base + r)) in *.
  destruct (phase_step st a r 0 0 s m (rsp k).1 (rsp k).2 st_page Hat) as (s1 & ec1 & Hat1 & He1 & Hb & E); [lia | done | apply rsp_ok | lia | by left|].
  assert (len q' < PIPELINE_MAX) as Hq16 by (unfold PIPELINE_MAX; lia).
  assert (S k = Z.to_nat (base + (r + 1))) as HSk by lia. assert (k < Z.to_nat (2 * n + 1))%nat as Hk by lia.
  pose proof (good_bad r ltac:(lia)) as Hgb. fold k in Hgb.
  assert ((key <$> range a n) ++ rest <> []) as Hne by (intros Hx; apply app_nil in Hx; tauto).
  destruct (bad st (rsp k).1 (rsp k).2 r) eqn:Ebad; cbn [negb] in Hgb.
  - assert (0 < ec1) as Hp by (apply Hb; by right). rewrite (proj2 (Z.ltb_lt 0 ec1)) in * by done.
    assert (all_good k = false) as Hng by (by rewrite all_good_S, Hgb).
    destruct (Z.lt_ge_cases (r + 1) a) as [Hlt|Hge].
    + rewrite (proj2 (Z.leb_gt _ _)) in E by lia. cbn [mret op_ret] in E. rewrite (dialogue_cons _ _ _ _ _ _ _ Hq16 E).
      cbn [dev_cmds omap list_omap]. rewrite app_nil_r.
      destruct (drain st key fuel a (r + 1) ec1 s1 q' (S k) st_page key_page Hat1 Hq') as (s' & E' & Hfin); [lia ..|].
      rewrite E', bind_Ok. exists s', [], [(tid, ec_code IO)]. split; [done|]. split; [done|]. by apply outcome_bad.
    + rewrite (proj2 (Z.leb_le _ _)) in E by lia. destruct (finish_at _ _ _ _ _ (ec_code IO) _ Hat1) as (s' & o & Ef & Hfin & Hc & Hans).
      rewrite Ef in E. rewrite (dialogue_cons _ _ _ _ _ _ _ Hq16 E), Hc, Hans.
      destruct q' as [|]; [|rewrite len_cons in Hl; pose proof (len_nonneg q'); lia]. cbn [Datatypes.app]. rewrite dialogue_nil, bind_Ok.
      exists s', [], [(tid, ec_code IO)]. split; [done|]. split; [done|]. by apply outcome_bad.
  - assert (ec1 = 0) as -> by (destruct (Z.eq_dec ec1 0); [done|]; exfalso; destruct (proj1 Hb ltac:(lia)); [lia | done]).
    cbn [Z.ltb Z.compare] in *. destruct (Z.lt_ge_cases (r + 1) n) as [Hlt|Hge].
    + rewrite (proj2 (Z.leb_gt n _)) in E by lia. destruct more_sends as (send & Hsm & Hsend). rewrite Hsm in E.
      destruct (pages_at st send key a (r + 1) s1 Hsend Hat1) as (s2 & o & Es & Hat2 & Hk2 & Hf2 & Hans); [lia | lia|].
      rewrite Es in E. rewrite (dialogue_cons _ _ _ _ _ _ _ Hq16 E), Hans, HSk.
      assert (Z.max a (Z.min n (r + 1 + d)) = Z.min n (r + 1 + d)) as Hm by lia. rewrite Hm in *.
      destruct (Hmore s2 (Z.min n (r + 1 + d)) (q' ++ dev_cmds o)) as (s' & l & ans & E' & Hfin & Hout); [lia | done | done | |].
      { destruct Hq' as [Hq1 Hq2]. split; [|by apply Forall_app]. rewrite fmap_app, Hq1, Hk2, <- fmap_app, <- range_app by lia. done. }
      rewrite E', bind_Ok. exists s', (dev_cmds o ++ l), ans. split; [done|]. split; [done|].
      rewrite (range_app a (Z.min n (r + 1 + d)) n), fmap_app, <- app_assoc, <- Hk2 by lia. apply outcome_more; [done | done | by rewrite HSk].
    + rewrite (proj2 (Z.leb_le n _)) in E by lia. assert (r + 1 = n) as Hrn by lia. assert (a = n) as Han by lia. rewrite Han in *.
      rewrite Hrn in Hat1. destruct (end_ok s1 Hat1) as (s2 & o & s' & l & ans & Ee & Hans & Ed & Hfin & Hout).
      rewrite Ee in E. rewrite (dialogue_cons _ _ _ _ _ _ _ Hq16 E), Hans, HSk, Hrn.
      destruct q' as [|]; [|rewrite len_cons in Hl; pose proof (len_nonneg q'); lia]. cbn [Datatypes.app].
      rewrite (Hfe Hrn), Ed, bind_Ok. exists s', (dev_cmds o ++ l), ans. split; [done|]. split; [done|].
      rewrite range_nil by lia. cbn [fmap list_fmap Datatypes.app]. unfold outcome in *. rewrite all_good_S, Hgb, HSk, Hrn by done. exact Hout.
Qed.

Lemma page_phase j : forall r a s q, n - r = Z.of_nat (S j) -> 0 <= r -> a = Z.min n (r + d) ->
  ctrl_at st a r 0 0 s -> in_flight key q r a ->
  exists s' l ans, ctrl_dialogue (S j + fend) rsp (Z.to_nat (base + r)) q s = Ok (s', l, ans) /\ finished s'
    /\ outcome (Z.to_nat (base + r)) ((key <$> range a n) ++ rest) l ans.
Proof.
  induction j as [|j IH]; intros r a s q Hj Hr Ha Hat Hq; cbn [Nat.add]; (eapply page_round; [lia | done | done | done | lia | lia |]);
    intros s1 a1 q1 Hlt Ha1 Hat1 Hq1; [lia|]. apply (IH (r + 1) a1 s1 q1); [lia | lia | done | done | done].
Qed.
End Phase.

Lemma enter_phase st send key a r ec code s : sends send key holds_image n -> ctrl_at st a r ec code s -> code = 0 ->
  exists s' o, send_pages send (phase_reset s) = Ok (tt, s', o) /\ ctrl_at st (Z.min n d) 0 0 0 s' /\ in_flight key (dev_cmds o) 0 (Z.min n d)
    /\ answers_on CTRL_RSP o = [].
Proof.
  intros Hsend [A1 A2 A3 A4 A5 A6 A7 A8 A9 A10 A11 A12] ->. pose proof n_bound as [Hn _].
  destruct (pages_at st send key 0 0 (phase_reset s) Hsend) as (s' & o & E & Hat & Hk & Hf & Hans); [by split | lia | lia|].
  assert (Z.max 0 (Z.min n (0 + d)) = Z.min n d) as Hm by lia. rewrite Hm in Hat, Hk. exists s', o. split; [done|]. split; [done|]. by split.
Qed.

Lemma verify_phase a s q : a = Z.min n d -> ctrl_at CTRL_VERIFY a 0 0 0 s -> in_flight k_read q 0 a ->
  exists s' l ans, ctrl_dialogue (Z.to_nat n + 1) rsp (Z.to_nat (n + 1)) q s = Ok (s', l, ans) /\ finished s'
    /\ outcome (Z.to_nat (n + 1)) ((k_read <$> range a n) ++ [k_update]) l ans.
Proof.
  intros Ha Hat Hq. pose proof n_bound as [Hn _].
  pose proof (page_phase CTRL_VERIFY k_read (n + 1) [k_update] 1) as H.
  replace (Z.to_nat n) with (S (Z.to_nat (n - 1))) by lia. replace (Z.to_nat (n + 1)) with (Z.to_nat (n + 1 + 0)) by lia.
  apply H; try done; try lia; clear H.
  - by right.
  - by right.
  - intros r Hr. unfold good, bad. rewrite Z2Nat.id by lia. assert ((n <? n + 1 + r) && (n + 1 + r <=? 2 * n) = true) as -> by (apply andb_true_iff; lia).
    replace (n + 1 + r - n - 1) with r by lia. rewrite negb_orb, !negb_involutive. done.
  - eexists. split; [reflexivity|]. apply ctrl_reads_send.
  - intros s0 Hat0. cbn [phase_end]. pose proof Hat0 as [A1 A2 A3 A4 A5 A6 A7 A8 A9 A10 A11 A12].
    destruct (send_mem_one "c/fwup/!cmd" UPDATE_TARGET_SLOT FWUP_DEV_OP_UPDATE 0 0 0 0 [] (set_ctrl s0 CTRL_UPDATE)) as (id & o & E & Hk & Hf & Hans); try done.
    rewrite run_modify. unfold ctrl_send_fw_cmd. rewrite E.
    destruct (dev_cmds o) as [|m [|]] eqn:Eo; try discriminate Hk.
    change ([mkey m] = [k_update]) in Hk. assert (mkey m = k_update) as Hm by congruence.
    destruct (update_phase 0 (set_cmd_id (set_ctrl s0 CTRL_UPDATE) id) m) as (s' & Ed & Hfin); [by split | by apply Forall_cons in Hf as [(_ & _ & ? & _) _]|].
    replace (Z.to_nat (n + 1 + n)) with (Z.to_nat (2 * n + 1)) by lia.
    eexists _, o, s', [], _. split; [reflexivity|]. split; [apply Hans|]. rewrite Eo. split; [exact Ed|]. split; [done|].
    unfold outcome, all_good. rewrite Nat.sub_diag. split; [|done]. by rewrite <- Hm.
Qed.

Lemma write_phase a s q : a = Z.min n d -> ctrl_at CTRL_WRITE a 0 0 0 s -> in_flight k_write q 0 a ->
  exists s' l ans, ctrl_dialogue (Z.to_nat n + (Z.to_nat n + 1)) rsp 1 q s = Ok (s', l, ans) /\ finished s'
    /\ outcome 1 ((k_write <$> range a n) ++ (k_read <$> range 0 n) ++ [k_update]) l ans.
Proof.
  intros Ha Hat Hq. pose proof n_bound as [Hn _].
  pose proof (page_phase CTRL_WRITE k_write 1 ((k_read <$> range 0 n) ++ [k_update]) (Z.to_nat n + 1)) as H.
  replace (Z.to_nat n + (Z.to_nat n + 1))%nat with (S (Z.to_nat (n - 1)) + (Z.to_nat n + 1))%nat by lia.
  change 1%nat with (Z.to_nat (1 + 0)) at 2 3. apply H; try done; try lia; clear H.
  - by left.
  - by left.
  - intros Hx. apply app_nil in Hx as [_ Hx]. done.
  - intros r Hr. unfold good, bad. rewrite Z2Nat.id by lia. rewrite (proj2 (Z.ltb_ge n (1 + r))) by lia. cbn [andb].
    by rewrite andb_true_r, orb_false_r, negb_involutive.
  - eexists. split; [reflexivity|]. apply ctrl_writes_send.
  - intros s0 Hat0. cbn [phase_end]. unfold ctrl_enter_verify. rewrite run_modify.
    destruct (enter_phase CTRL_VERIFY _ k_read n n 0 0 (set_ctrl s0 CTRL_VERIFY) ctrl_reads_send) as (s1 & o & E & Hat1 & Hq1 & Hans).
    { by destruct Hat0; split. }
    { done. }
    unfold ctrl_send_reads. rewrite E. destruct (verify_phase (Z.min n d) s1 (dev_cmds o)) as (s' & l & ans & Ed & Hfin & Hout); [done | done | done|].
    exists s1, o, s', l, ans. split; [done|]. split; [done|]. rewrite (Z.add_comm 1 n). split; [done|]. split; [done|].
    rewrite (range_app 0 (Z.min n d) n), fmap_app, <- app_assoc by lia. destruct Hq1 as [Hk1 _]. rewrite <- Hk1.
    by apply outcome_app.
Qed.

(** The command of an update. *)
Definition update_cmd (slot depth rsv : Z) : value_s := jsdrv_union_bin (le 4 tid ++ [FWUP_CTRL_OP_UPDATE; slot; depth; rsv] ++ img).

Lemma update_cmd_accept now slot depth rsv s : fw_dev s = true -> fw_ctrl_state s = CTRL_IDLE -> fw_fpga_state s = FPGA_IDLE ->
  fw_error_count s = 0 -> pipeline_depth_validate depth = d ->
  exists s1 o, js320_fwup_handle_cmd now "h/fwup/ctrl/!cmd" (update_cmd slot depth rsv) s = Ok (true, s1, o)
    /\ ctrl_at CTRL_ALLOCATE (fw_send_idx s) (fw_recv_idx s) 0 0 s1 /\ mkey <$> dev_cmds o = [k_alloc] /\ Forall mem_fits (dev_cmds o)
    /\ answers_on CTRL_RSP o = [].
Proof.
  intros Hd Hc Hf He Hdep. pose proof img_ok as [O1 O2]. unfold FW_PAGE_SIZE in O2.
  assert (v_size (update_cmd slot depth rsv) = len img + 8) as Hsz.
  { unfold v_size, update_cmd. cbn [v_bin jsdrv_union_bin]. autorewrite with len. unfold len at 1. rewrite length_le. lia. }
  unfold js320_fwup_handle_cmd. change (String.eqb "h/fwup/ctrl/!cmd" "h/fwup/ctrl/!cmd") with true. cbv iota.
  unfold ctrl_on_cmd. rewrite run_assoc, run_get, bool_decide_eq_true_2 by done. cbn [negb]. rewrite Hsz. unfold CMD_SIZE.
  change (is_type UNION_BIN (update_cmd slot depth rsv)) with true. cbn [negb orb]. rewrite (proj2 (Z.ltb_ge _ _)) by lia.
  assert (ld_le 4 (v_bin (update_cmd slot depth rsv)) 0 = Ok tid) as ->.
  { unfold ld_le. unfold v_size in Hsz. rewrite Hsz. cbn [Z.leb Z.compare andb]. rewrite (proj2 (Z.leb_le _ _)) by lia. f_equal. exact (un_le_le 4 tid tid_ok). }
  change (ld (v_bin (update_cmd slot depth rsv)) 4) with (Ok FWUP_CTRL_OP_UPDATE).
  change (ld (v_bin (update_cmd slot depth rsv)) 5) with (Ok slot). change (ld (v_bin (update_cmd slot depth rsv)) 6) with (Ok depth).
  autorewrite with op. rewrite Hdep. change (FWUP_CTRL_OP_UPDATE =? FWUP_CTRL_OP_UPDATE) with true. cbv iota zeta.
  replace (len img + 8 - 8) with (len img) by lia. rewrite uwrap_small by width_lia. rewrite (proj2 (Z.eqb_neq (len img) 0)) by lia.
  change (drop (Z.to_nat 8) (v_bin (update_cmd slot depth rsv))) with img. rewrite pages_of_len by done. autorewrite with op.
  unfold ctrl_send_fw_cmd.
  set (s0 := set_ctrl _ CTRL_ALLOCATE).
  destruct (send_mem_one "c/fwup/!cmd" 0 FWUP_DEV_OP_ALLOCATE 0 0 (len img) 0 [] s0) as (id & o & E & Hk & Hm & Ha); [done | done | done | width_lia | done |].
  rewrite (run_bind _ _ _ _ _ _ E). cbn [mret op_ret]. rewrite app_nil_r. exists (set_cmd_id s0 id), o. split; [done|]. split; [by split|]. auto.
Qed.
End CtrlUpdate.


(** An image of two pages, and a device that reads back what was written. *)
Definition ex_img : list Z := replicate 300 7.
Definition ex_dev (k : nat) : Z * list Z := (0, if Nat.eqb k 3 then page ex_img 0 else if Nat.eqb k 4 then page ex_img 1 else replicate 256 0).
Definition ex_opened : js320_fwup_s := set_dev js320_fwup_alloc true.


(** ** Where the update relies on the device and on the front end *)

(** The offset of a page that was read back is the device's; beyond the image the comparison reads outside it. *)
Lemma verify_beyond_image v s o : rsp_offset v = Ok o -> o mod FW_PAGE_SIZE = 0 -> 0 <= o < 2 ^ 32 -> fw_error_code s = 0 ->
  fw_image_size s = len (fw_image s) -> len (fw_image s) < o -> verify_page v 0 s = Fault OutOfBounds.
Proof.
  intros Ho Hm Hr He Hs Hl. unfold verify_page. rewrite run_get, He. cbn [Z.eqb andb]. rewrite Ho, run_lift_ok.
  assert (get_page_data s (o / FW_PAGE_SIZE) = Fault OutOfBounds) as ->; [|done].
  unfold get_page_data, FW_PAGE_SIZE in *. replace (o / 256 * 256) with o by div_lia. rewrite (uwrap_small 32 o) by width_lia.
  set (chunk := if _ <? _ then _ else _). assert (0 <= chunk) as Hc.
  { unfold chunk. case_if; [lia|]. pose proof (uwrap_range 32 (fw_image_size s - o) ltac:(lia)) as Hu. unfold is_u in Hu. lia. }
  unfold mem_copy. assert ((o + chunk <=? len (fw_image s)) = false) as -> by (apply Z.leb_gt; lia). by rewrite !andb_false_r.
Qed.

(** The two machines share the image: a launch of the controller that ends during an FPGA write frees it. *)
Definition shared_image : M unit :=
  js320_fwup_handle_cmd 0 "h/fwup/fpga/!cmd" (jsdrv_union_bin ([1; 0; 0; 0; FWUP_FPGA_OP_PROGRAM; 1; 0; 0] ++ replicate 512 5)) ;;
  js320_fwup_on_timeout ;;
  js320_fwup_handle_publish 0 "h/!rsp" (reply (mk_mem 1 0 JS320_JTAG_OP_MEM_OPEN 0 0 0 0 0 0 []) 0 []) ;;
  js320_fwup_handle_publish 0 "h/!rsp" (reply (mk_mem 2 0 MB_STDMSG_MEM_OP_ERASE 0 0 0 0 0 0 []) 0 []) ;;
  js320_fwup_handle_cmd 0 "h/fwup/ctrl/!cmd" (jsdrv_union_bin [2; 0; 0; 0; FWUP_CTRL_OP_LAUNCH; 0; 0; 0]) ;;
  js320_fwup_handle_publish 0 "h/!rsp" (reply (mk_mem 3 0 MB_STDMSG_MEM_OP_WRITE 0 0 0 0 256 0 []) 0 []) ;;
  mret tt.

Lemma launch_frees_fpga_image : exists s o, shared_image ex_opened = Ok (tt, s, o)
  /\ fw_fpga_state s = FPGA_WRITE /\ fw_image s = [] /\ answers_on CTRL_RSP o = [(2, 0)].
Proof.
  destruct (shared_image ex_opened) as [[[[] s] o]|f] eqn:E; [|vm_compute in E; discriminate E].
  exists s, o. vm_compute in E. injection E as <- <-. done.
Qed.
