(* ===== verification/FwupFpga.v ===== *)
(** * FPGA programming: the device is always left in its normal mode
    (src/devices/js320/js320_fwup.c)

    Programming the FPGA disconnects the sensor and puts the controller into JTAG mode.  Whatever
    fails in between, the flash access is closed, the mode restored and the sensor reconnected
    before the operation is over. *)

From Stdlib Require Import Strings.String.
From S2P Require Import Prelude ErrorCode Effect MbDev Fwup.

(** The commands that change the mode of the device. *)
Inductive mode_ev := EvSensor (on : Z) | EvMode (mode : Z) | EvOpen | EvClose.

Definition mode_of (a : action) : option mode_ev :=
  match a with
  | ToDevice t v =>
      if String.eqb t "c/mode" then Some (EvMode (v_int v))
      else if String.eqb t "c/comm/sensor/!req" then Some (EvSensor (v_int v))
      else if String.eqb t "c/jtag/!cmd" then
        match mem_parse (drop (Z.to_nat HDR_SIZE) (v_bin v)) with
        | Some m => if mm_operation m =? JS320_JTAG_OP_MEM_OPEN then Some EvOpen
                    else if mm_operation m =? JS320_JTAG_OP_MEM_CLOSE then Some EvClose else None
        | None => None
        end
      else None
  | _ => None
  end.
Definition mode_log (o : list action) : list mode_ev := omap mode_of o.

(** A whole operation, and its part up to a state. *)
Definition cycle : list mode_ev := [EvSensor 0; EvMode 2; EvOpen; EvClose; EvMode 0; EvSensor 1].

Definition fpga_path (st : fpga_state_e) : list mode_ev :=
  match st with
  | FPGA_IDLE | FPGA_DONE => []
  | FPGA_MODE_SWITCH => take 2 cycle
  | FPGA_OPEN | FPGA_ERASE | FPGA_WRITE | FPGA_VERIFY => take 3 cycle
  | FPGA_CLOSE => take 4 cycle
  | FPGA_MODE_RESTORE => take 5 cycle
  end.

(** What an input may do from [st]: go on in the operation, or complete it. *)
Definition moves (st : fpga_state_e) (log : list mode_ev) (st' : fpga_state_e) : Prop :=
  st' <> FPGA_DONE /\ (fpga_path st ++ log = fpga_path st' \/ (st' = FPGA_IDLE /\ fpga_path st ++ log = cycle)).

(** An image in transfer. *)
Definition transfer_ok (s : js320_fwup_s) : Prop :=
  image_ok (fw_image s) /\ fw_image_size s = len (fw_image s) /\ fw_page_count s = pages (fw_image s) /\ 0 <= fw_send_idx s <= fw_page_count s.

Record fpga_inv (s : js320_fwup_s) : Prop := mk_fpga_inv {
  fi_dev : fw_dev s = true;
  fi_ctrl : fw_ctrl_state s = CTRL_IDLE;
  fi_done : fw_fpga_state s <> FPGA_DONE;
  fi_transfer : fw_fpga_state s <> FPGA_IDLE -> transfer_ok s;
  fi_send : fw_fpga_state s = FPGA_IDLE -> fw_send_idx s = 0;
}.

Inductive fpga_input :=
  | F_cmd (now : Z) (v : value_s)
  | F_rsp (now : Z) (v : value_s)
  | F_timeout.

Definition fpga_step (x : fpga_input) : M unit :=
  match x with
  | F_cmd now v => js320_fwup_handle_cmd now "h/fwup/fpga/!cmd" v ;; mret tt
  | F_rsp now v => js320_fwup_handle_publish now "h/!rsp" v ;; mret tt
  | F_timeout => js320_fwup_on_timeout
  end.

(** Sizes are 32 bits; a page that is read back belongs to the image. *)
Definition fpga_input_ok (s : js320_fwup_s) (x : fpga_input) : Prop :=
  match x with
  | F_cmd _ v => v_size v + FW_PAGE_SIZE < 2 ^ 32
  | F_rsp _ v => fw_fpga_state s = FPGA_VERIFY -> rsp_short v = false ->
      exists o, rsp_offset v = Ok o /\ 0 <= o / FW_PAGE_SIZE < fw_page_count s
  | F_timeout => True
  end.

(** ** The operations of the machine *)

(** An operation that keeps the invariant and makes a move from [st]. *)
Definition post (st : fpga_state_e) (s' : js320_fwup_s) (o : list action) : Prop :=
  fpga_inv s' /\ moves st (mode_log o) (fw_fpga_state s').

Lemma mode_log_app a b : mode_log (a ++ b) = mode_log a ++ mode_log b.
Proof. apply omap_app. Qed.

Lemma wp_send_mem topic target operation timeout_ms offset length delay_us data s (Q : unit -> js320_fwup_s -> list action -> Prop) : fw_dev s = true ->
  (forall id, Q tt (set_cmd_id s id)
     [ToDevice topic (union_stdmsg (hdr_bytes ++ mem_bytes (mk_mem id target operation 0 0 timeout_ms offset length delay_us data)))]) ->
  wp (send_mem topic target operation timeout_ms offset length delay_us data) s Q.
Proof. intros Hd HQ. eexists _, _, _. split; [by apply send_mem_eq | apply HQ]. Qed.

Lemma wp_jtag_mem operation offset length data timeout_ms s (Q : unit -> js320_fwup_s -> list action -> Prop) : fw_dev s = true ->
  (forall id, Q tt (set_cmd_id s id) [ToDevice "c/jtag/!cmd"
     (union_stdmsg (hdr_bytes ++ mem_bytes (mk_mem id 0 operation 0 0 timeout_ms offset length JTAG_MEM_DELAY_US data)))]) ->
  wp (fpga_send_jtag_mem_cmd operation offset length data timeout_ms) s Q.
Proof. exact (wp_send_mem "c/jtag/!cmd" 0 operation timeout_ms offset length JTAG_MEM_DELAY_US data s Q). Qed.

(** The loop over pages ends, keeps the transfer and changes no mode. *)
Lemma send_loop_wp send fuel : forall s,
  (forall s i, fw_dev s = true -> transfer_ok s -> 0 <= i < fw_page_count s ->
     wp (send i) s (fun _ s' o => (exists id, s' = set_cmd_id s id) /\ mode_log o = [])) ->
  fw_dev s = true -> transfer_ok s -> (Z.to_nat (fw_page_count s - fw_send_idx s) <= fuel)%nat ->
  wp (send_loop fuel send) s (fun _ s' o => (exists id a, s' = set_idx (set_cmd_id s id) a (fw_recv_idx s) /\ 0 <= a <= fw_page_count s) /\ mode_log o = []).
Proof.
  induction fuel as [|fuel IH]; intros s Hsend Hd Ht Hf; cbn [send_loop]; apply wp_bind, wp_get; pose proof Ht as (T1 & T2 & T3 & T4).
  - simpl_cmp. cbn [andb]. apply wp_ret. split; [|done]. exists (fw_device_cmd_id s), (fw_send_idx s). split; [by destruct s | lia].
  - case_if.
    + apply wp_bind. eapply wp_mono; [apply Hsend; [done | done | lia]|]. intros _ s1 o1 [(id & ->) Ho1]. apply wp_bind, wp_modify.
      change (fw_send_idx (set_cmd_id s id)) with (fw_send_idx s). change (fw_recv_idx (set_cmd_id s id)) with (fw_recv_idx s).
      pose proof (pages_bound _ T1) as (_ & _ & Hp). rewrite uwrap_small by width_lia.
      eapply wp_mono; [apply IH; [done | done | | cbn; lia]|].
      { split; [done|]. split; [done|]. split; [done|]. cbn. lia. }
      intros _ s2 o2 [(id' & a & -> & Ha) Ho2]. split; [by exists id', a|]. by rewrite !mode_log_app, Ho1, Ho2.
    + apply wp_ret. split; [|done]. exists (fw_device_cmd_id s), (fw_send_idx s). split; [by destruct s | lia].
Qed.

Lemma write_wp s i : fw_dev s = true -> transfer_ok s -> 0 <= i < fw_page_count s ->
  wp (fpga_send_write i) s (fun _ s' o => (exists id, s' = set_cmd_id s id) /\ mode_log o = []).
Proof.
  intros Hd (T1 & T2 & T3 & T4) Hi. apply wp_bind, wp_get, wp_bind.
  eapply wp_lift; [apply (get_page_ok s (fw_image s)); [done | done | done | lia]|].
  apply wp_jtag_mem; [done|]. intros id. split; [by exists id | done].
Qed.

Lemma read_wp s i : fw_dev s = true -> transfer_ok s -> 0 <= i < fw_page_count s ->
  wp (fpga_send_jtag_mem_cmd MB_STDMSG_MEM_OP_READ (u32 (i * FW_PAGE_SIZE)) FW_PAGE_SIZE [] 1000) s
    (fun _ s' o => (exists id, s' = set_cmd_id s id) /\ mode_log o = []).
Proof. intros Hd _ Hi. apply wp_jtag_mem; [done|]. intros id. split; [by exists id | done]. Qed.

(** More pages, in a state [st] of the transfer. *)
Lemma pages_wp send s : fpga_inv s -> fw_fpga_state s <> FPGA_IDLE ->
  (forall s i, fw_dev s = true -> transfer_ok s -> 0 <= i < fw_page_count s ->
     wp (send i) s (fun _ s' o => (exists id, s' = set_cmd_id s id) /\ mode_log o = [])) ->
  wp (send_pages send) s (fun _ s' o => fpga_inv s' /\ fw_fpga_state s' = fw_fpga_state s /\ mode_log o = []).
Proof.
  intros [H1 H2 H3 H4 H5] Hst Hsend. apply wp_bind, wp_get.
  eapply wp_mono; [by apply send_loop_wp; [|  | apply H4 |]|]. intros _ s' o [(id & a & -> & Ha) Ho].
  split; [|done]. destruct (H4 Hst) as (T1 & T2 & T3 & T4). by split.
Qed.

(** Entering a phase of the transfer resets its counters. *)
Lemma inv_phase s st : fpga_inv s -> fw_fpga_state s <> FPGA_IDLE -> st <> FPGA_DONE -> st <> FPGA_IDLE ->
  fpga_inv (phase_reset (set_fpga s st)).
Proof.
  intros [H1 H2 H3 H4 H5] Hst Hd Hi. destruct (H4 Hst) as (T1 & T2 & T3 & T4). split; try done. intros _. split; [done|]. split; [done|].
  split; [done|]. cbn. lia.
Qed.

Lemma enter_wp send s st : fpga_inv s -> fw_fpga_state s <> FPGA_IDLE -> st <> FPGA_DONE -> st <> FPGA_IDLE ->
  (forall s i, fw_dev s = true -> transfer_ok s -> 0 <= i < fw_page_count s ->
     wp (send i) s (fun _ s' o => (exists id, s' = set_cmd_id s id) /\ mode_log o = [])) ->
  wp (modify (fun s => phase_reset (set_fpga s st)) ;; send_pages send) s (fun _ s' o => fpga_inv s' /\ fw_fpga_state s' = st /\ mode_log o = []).
Proof.
  intros Hinv Hst Hd Hi Hsend. apply wp_bind, wp_modify. by apply (pages_wp send (phase_reset (set_fpga s st))); [apply inv_phase | | ].
Qed.

Lemma close_wp s : fpga_inv s -> fpga_path (fw_fpga_state s) = take 3 cycle ->
  wp fpga_enter_close s (fun _ s' o => post (fw_fpga_state s) s' o).
Proof.
  intros [H1 H2 H3 H4 H5] Hp. apply wp_bind, wp_modify, wp_jtag_mem; [done|]. intros id.
  split; [|split; [done | left; by rewrite Hp]]. split; try done. intros _. apply H4. by destruct (fw_fpga_state s).
Qed.

Lemma error_wp s : fpga_inv s -> fpga_path (fw_fpga_state s) = take 3 cycle ->
  wp fpga_enter_error_cleanup s (fun _ s' o => post (fw_fpga_state s) s' o).
Proof.
  intros Hinv Hp. apply wp_bind, wp_get. pose proof (close_wp s Hinv Hp) as H. cbn [Datatypes.app].
  by destruct (fw_fpga_state s) eqn:E.
Qed.

Lemma inv_err s a b : fpga_inv s -> fpga_inv (set_err s a b).
Proof. by intros []. Qed.

Lemma count_error_wp status s (Q : unit -> js320_fwup_s -> list action -> Prop) :
  (forall ec code, Q tt (set_err s ec code) []) -> wp (count_error status) s Q.
Proof.
  intros HQ. unfold count_error. case_if; [apply wp_modify, HQ|]. apply wp_ret. specialize (HQ (fw_error_count s) (fw_error_code s)). by destruct s.
Qed.

Lemma recv_incr_wp s (Q : unit -> js320_fwup_s -> list action -> Prop) :
  Q tt (set_idx s (fw_send_idx s) (u32 (fw_recv_idx s + 1))) [] -> wp recv_incr s Q.
Proof. intros HQ. by apply wp_modify. Qed.

Lemma inv_recv s r : fpga_inv s -> fpga_inv (set_idx s (fw_send_idx s) r).
Proof. by intros []. Qed.

Lemma verify_page_wp v status s (Q : unit -> js320_fwup_s -> list action -> Prop) : transfer_ok s ->
  (exists o, rsp_offset v = Ok o /\ 0 <= o / FW_PAGE_SIZE < fw_page_count s) ->
  (forall ec code, Q tt (set_err s ec code) []) -> wp (verify_page v status) s Q.
Proof.
  intros (T1 & T2 & T3 & T4) (o & Eo & Ho) HQ. apply wp_bind, wp_get.
  assert (Q tt s []) as Hs by (specialize (HQ (fw_error_count s) (fw_error_code s)); by destruct s).
  case_if; [|by apply wp_ret]. apply wp_bind. eapply wp_lift; [done|]. apply wp_bind.
  eapply wp_lift; [apply (get_page_ok s (fw_image s)); [done | done | done | lia]|]. case_if; [apply wp_modify, HQ | by apply wp_ret].
Qed.


(** A message to the front end changes no mode. *)
Lemma wp_progress phase current total s (Q : unit -> js320_fwup_s -> list action -> Prop) : fw_dev s = true ->
  (forall o, mode_log o = [] -> Q tt s o) -> wp (fpga_send_progress phase current total) s Q.
Proof. intros Hd HQ. apply wp_act; [done|]. by apply HQ. Qed.

Lemma post_silent st o1 s' o2 : mode_log o1 = [] -> post st s' o2 -> post st s' (o1 ++ o2).
Proof. intros E [H1 H2]. split; [done|]. by rewrite mode_log_app, E. Qed.

Lemma post_stay s o : fpga_inv s -> mode_log o = [] -> post (fw_fpga_state s) s o.
Proof. intros Hinv E. split; [done|]. split; [by apply fi_done|]. left. by rewrite E, app_nil_r. Qed.

Lemma post_moved st s o : fpga_inv s -> fpga_path st = fpga_path (fw_fpga_state s) -> mode_log o = [] -> post st s o.
Proof. intros Hinv Hp E. split; [done|]. split; [by apply fi_done|]. left. by rewrite E, app_nil_r. Qed.

(** The end of a round of a page phase: on an error wait for the pages on their way, then close;
    after the last page go on; else send more. *)
Lemma round_wp s (phase : Z) (next more : M unit) :
  fpga_inv s -> fpga_path (fw_fpga_state s) = take 3 cycle ->
  wp next s (fun _ s' o => post (fw_fpga_state s) s' o) -> wp more s (fun _ s' o => post (fw_fpga_state s) s' o) ->
  wp (if 0 <? fw_error_count s then (if fw_send_idx s <=? fw_recv_idx s then fpga_enter_error_cleanup else mret tt)
      else if fw_page_count s <=? fw_recv_idx s then fpga_send_progress phase (fw_recv_idx s) (fw_page_count s) ;; next
      else (if fw_recv_idx s mod FPGA_PROGRESS_PAGE_INTERVAL =? 0 then fpga_send_progress phase (fw_recv_idx s) (fw_page_count s)
            else mret tt) ;; more) s (fun _ s' o => post (fw_fpga_state s) s' o).
Proof.
  intros Hinv Hp Hnext Hmore. pose proof (fi_dev _ Hinv) as Hd.
  case_if; [case_if; [by apply error_wp | by apply wp_ret, post_stay]|].
  case_if; [|case_if]; apply wp_bind.
  - apply wp_progress; [done|]. intros o Ho. eapply wp_mono; [exact Hnext|]. intros ? ? ? HP. by apply post_silent.
  - apply wp_progress; [done|]. intros o Ho. eapply wp_mono; [exact Hmore|]. intros ? ? ? HP. by apply post_silent.
  - by apply wp_ret.
Qed.

Lemma writes_post s : fpga_inv s -> fw_fpga_state s <> FPGA_IDLE -> wp fpga_send_writes s (fun _ s' o => post (fw_fpga_state s) s' o).
Proof.
  intros Hinv Hst. eapply wp_mono; [apply pages_wp; [done | done | apply write_wp]|].
  intros _ s' o (H1 & H2 & H3). apply post_moved; [done | by rewrite H2 | done].
Qed.

Lemma reads_post s : fpga_inv s -> fw_fpga_state s <> FPGA_IDLE -> wp fpga_send_reads s (fun _ s' o => post (fw_fpga_state s) s' o).
Proof.
  intros Hinv Hst. eapply wp_mono; [apply pages_wp; [done | done | apply read_wp]|].
  intros _ s' o (H1 & H2 & H3). apply post_moved; [done | by rewrite H2 | done].
Qed.

Lemma enter_write_post s : fpga_inv s -> fpga_path (fw_fpga_state s) = take 3 cycle ->
  wp fpga_enter_write s (fun _ s' o => post (fw_fpga_state s) s' o).
Proof.
  intros Hinv Hp. eapply wp_mono; [apply enter_wp; [done | by intros E; rewrite E in Hp | done | done | apply write_wp]|].
  intros _ s' o (H1 & H2 & H3). apply post_moved; [done | by rewrite H2 | done].
Qed.

Lemma enter_verify_post s : fpga_inv s -> fpga_path (fw_fpga_state s) = take 3 cycle ->
  wp fpga_enter_verify s (fun _ s' o => post (fw_fpga_state s) s' o).
Proof.
  intros Hinv Hp. eapply wp_mono; [apply enter_wp; [done | by intros E; rewrite E in Hp | done | done | apply read_wp]|].
  intros _ s' o (H1 & H2 & H3). apply post_moved; [done | by rewrite H2 | done].
Qed.

Lemma post_from st s s' o : fw_fpga_state s = st -> post (fw_fpga_state s) s' o -> post st s' o.
Proof. by intros <-. Qed.

Lemma erase_post s : fpga_inv s -> fpga_path (fw_fpga_state s) = take 3 cycle ->
  wp fpga_enter_erase s (fun _ s' o => post (fw_fpga_state s) s' o).
Proof.
  intros [H1 H2 H3 H4 H5] Hp. apply wp_bind, wp_modify, wp_jtag_mem; [done|]. intros id. apply post_moved; [|done | done].
  assert (fw_fpga_state s <> FPGA_IDLE) as Hi by (intros E; by rewrite E in Hp).
  destruct (H4 Hi) as (T1 & T2 & T3 & T4). split; try done. intros _. split; [done|]. split; [done|]. split; [done|]. cbn. lia.
Qed.

Lemma status_ok v : rsp_short v = false -> exists status, rsp_status v = Ok status.
Proof.
  unfold rsp_short, rsp_status, ld, v_size, rsp_hdr, MEM_SIZE, HDR_SIZE. intros Hs. apply Z.ltb_ge in Hs.
  destruct (lookup_lt_is_Some_2 (v_bin v) (Z.to_nat ((if is_type UNION_STDMSG v then 8 else 0) + 7))) as [x Hx].
  { unfold len in Hs. case_if; lia. }
  exists x. rewrite Hx. by destruct (is_type UNION_STDMSG v).
Qed.

Lemma dev_rsp_wp now v s : fpga_inv s -> fpga_input_ok s (F_rsp now v) ->
  wp (fpga_on_dev_rsp now v) s (fun _ s' o => post (fw_fpga_state s) s' o).
Proof.
  intros Hinv Hv. cbn [fpga_input_ok] in Hv. unfold fpga_on_dev_rsp. destruct (rsp_short v) eqn:Hs; [by apply wp_ret, post_stay|].
  destruct (status_ok v Hs) as [status Es]. apply wp_bind. eapply wp_lift; [exact Es|]. apply wp_bind, count_error_wp. intros ec code.
  apply wp_bind, wp_get. cbn [Datatypes.app].
  pose proof (inv_err s ec code Hinv) as Hinv1. set (s1 := set_err s ec code) in *.
  change (fw_fpga_state s) with (fw_fpga_state s1) in *. change (fw_page_count s) with (fw_page_count s1) in Hv.
  assert (fw_fpga_state s1 <> FPGA_IDLE -> transfer_ok s1) as Ht by apply Hinv1. pose proof (fi_dev _ Hinv1) as Hd.
  clearbody s1. clear Hinv s. destruct (fw_fpga_state s1) eqn:E; rewrite <- ?E; try (apply wp_ret, post_stay; done).
  - case_if; [apply error_wp | apply erase_post]; first [done | by rewrite E].
  - case_if; [apply error_wp; [done | by rewrite E]|]. apply wp_bind, wp_modify, wp_bind, wp_get, wp_bind. set (s2 := set_erase _ _ _).
    assert (fpga_inv s2) as Hinv2 by (destruct Hinv1; by split).
    apply wp_progress; [done|]. intros o Ho. case_if.
    + eapply wp_mono; [apply enter_write_post; [done | by cbn; rewrite E]|]. intros ? ? ? HP. by apply (post_silent _ o).
    + apply wp_jtag_mem; [done|]. intros id. cbn [Datatypes.app]. apply (post_silent _ o); [done|]. apply post_moved; [by destruct Hinv2; split | by cbn; rewrite E | reflexivity].
  - apply wp_bind, recv_incr_wp, wp_bind, wp_get. pose proof (inv_recv s1 (u32 (fw_recv_idx s1 + 1)) Hinv1) as Hinv2.
    apply (round_wp _ _ _ _ Hinv2); [by cbn; rewrite E | |].
    + apply enter_verify_post; [done | by cbn; rewrite E].
    + apply writes_post; [done | by cbn; rewrite E].
  - apply wp_bind, recv_incr_wp, wp_bind. pose proof (inv_recv s1 (u32 (fw_recv_idx s1 + 1)) Hinv1) as Hinv2.
    apply verify_page_wp; [by apply Hinv2; cbn; rewrite E | by apply Hv|]. intros ec' code'. apply wp_bind, wp_get.
    pose proof (inv_err _ ec' code' Hinv2) as Hinv3. cbn [Datatypes.app].
    apply (round_wp _ _ _ _ Hinv3); [by cbn; rewrite E | |].
    + apply close_wp; [done | by cbn; rewrite E].
    + apply reads_post; [done | by cbn; rewrite E].
  - apply wp_bind, wp_modify, wp_bind, wp_act; [done|]. apply wp_act; [done|].
    destruct Hinv1. split; [split; try done; intros _; apply Ht; done|]. split; [done|]. left. by rewrite E.
Qed.

Lemma ld_le_ok v n : Z.of_nat n <= v_size v -> exists z, ld_le n (v_bin v) 0 = Ok z.
Proof. intros H. unfold ld_le, v_size in *. eexists. simpl_cmp. done. Qed.

Lemma ld_val_ok v i : 0 <= i < v_size v -> exists z, ld (v_bin v) i = Ok z.
Proof.
  intros H. destruct (lookup_lt_is_Some_2 (v_bin v) (Z.to_nat i)) as [x Hx]; [unfold v_size, len in H; lia|].
  exists x. unfold ld. simpl_cmp. by rewrite Hx.
Qed.

Lemma rsp_post status s0 s : fpga_inv s -> fw_fpga_state s = s0 -> wp (fpga_send_rsp status) s (fun _ s' o => post s0 s' o).
Proof. intros Hinv <-. apply wp_bind, wp_get, wp_act; [by apply fi_dev|]. by apply post_stay. Qed.

(** A program command: accepted when idle, with an image; anything else is answered at once. *)
Lemma cmd_wp now v s : fpga_inv s -> fpga_input_ok s (F_cmd now v) -> wp (fpga_on_cmd now v) s (fun _ s' o => post (fw_fpga_state s) s' o).
Proof.
  intros Hinv Hsz. cbn [fpga_input_ok] in Hsz. pose proof Hinv as [H1 H2 H3 H4 H5]. apply wp_bind, wp_get. cbn [Datatypes.app]. case_if.
  - apply wp_bind. case_if; [|apply wp_ret, rsp_post; done].
    destruct (ld_le_ok v 4) as [id Eid]; [unfold v_size in *; lia|]. apply wp_bind. eapply wp_lift; [exact Eid|]. apply wp_modify, rsp_post; [|done].
    by split.
  - assert (fw_fpga_state s = FPGA_IDLE) as Hidle by (by eapply bool_decide_eq_true).
    case_if; [by apply rsp_post|]. unfold CMD_SIZE in *.
    destruct (ld_le_ok v 4) as [id Eid]; [lia|]. destruct (ld_val_ok v 4) as [oper Eo]; [lia|]. destruct (ld_val_ok v 5) as [dep Ed]; [lia|].
    apply wp_bind. eapply wp_lift; [exact Eid|]. apply wp_bind. eapply wp_lift; [exact Eo|]. apply wp_bind. eapply wp_lift; [exact Ed|].
    apply wp_bind, wp_modify. cbv zeta. set (s1 := set_fpga_cmd _ _ _). assert (fpga_inv s1) as Hinv1 by (by split).
    case_if; [|by apply rsp_post]. case_if; [by apply rsp_post|].
    apply wp_bind, wp_modify, wp_bind, wp_act; [done|]. apply wp_bind, wp_modify, wp_bind, wp_act; [done|]. apply wp_act; [done|].
    unfold FW_PAGE_SIZE in *. rewrite (uwrap_small 32 (v_size v - 8)) in * by width_lia.
    assert (len (drop (Z.to_nat 8) (v_bin v)) = v_size v - 8) as Hl by (unfold v_size, len in *; rewrite length_drop; lia).
    assert (image_ok (drop (Z.to_nat 8) (v_bin v))) as Hi by (unfold image_ok, FW_PAGE_SIZE; lia).
    split; [|split; [done | left; by rewrite Hidle]]. split; try done. intros _. split; [done|]. split; [done|].
    cbn. rewrite <- Hl, pages_of_len by done. split; [done|]. rewrite H5 by done. pose proof (pages_bound _ Hi). lia.
Qed.

Lemma timeout_wp s : fpga_inv s -> wp js320_fwup_on_timeout s (fun _ s' o => post (fw_fpga_state s) s' o).
Proof.
  intros Hinv. pose proof Hinv as [H1 H2 H3 H4 H5]. apply wp_bind, wp_get. cbn [Datatypes.app].
  case_if; [by apply wp_ret, post_stay|]. apply wp_bind, wp_get. cbn [Datatypes.app].
  destruct (fw_fpga_state s) eqn:Est; rewrite <- ?Est; try (by apply wp_ret, post_stay).
  - apply wp_bind, wp_modify, wp_jtag_mem; [done|]. intros id. split; [|split; [done | left; by rewrite Est]].
    split; try done. intros _. by apply H4.
  - apply wp_bind, wp_act; [done|]. apply wp_bind, wp_bind, wp_get, wp_act; [done|]. apply wp_bind, wp_modify, wp_modify.
    split; [by split|]. split; [done|]. right. split; [done|]. by rewrite Est.
Qed.

Lemma step_wp x s : fpga_inv s -> fpga_input_ok s x -> wp (fpga_step x) s (fun _ s' o => post (fw_fpga_state s) s' o).
Proof.
  intros Hinv Hok. destruct x as [now v|now v|]; [| |by apply timeout_wp]; cbn [fpga_step]; apply wp_bind.
  - unfold js320_fwup_handle_cmd. cbn [String.eqb]. apply wp_bind. eapply wp_mono; [by apply cmd_wp|].
    intros ? s' o HP. apply wp_ret, wp_ret. by rewrite !app_nil_r.
  - apply wp_bind, wp_get. rewrite bool_decide_eq_true_2 by apply Hinv. cbn [negb andb Datatypes.app]. case_if.
    + apply wp_bind. eapply wp_mono; [by apply dev_rsp_wp|]. intros ? s' o HP. apply wp_ret, wp_ret. by rewrite !app_nil_r.
    + apply wp_ret, wp_ret. by apply post_stay.
Qed.

(** ** Runs *)

Fixpoint fpga_run (xs : list fpga_input) : M unit :=
  match xs with
  | [] => mret tt
  | x :: xs => fpga_step x ;; fpga_run xs
  end.

Fixpoint inputs_ok (s : js320_fwup_s) (xs : list fpga_input) : Prop :=
  match xs with
  | [] => True
  | x :: xs => fpga_input_ok s x /\ (forall s' o, fpga_step x s = Ok (tt, s', o) -> inputs_ok s' xs)
  end.

Lemma run_wp xs : forall s, fpga_inv s -> inputs_ok s xs ->
  wp (fpga_run xs) s (fun _ s' o => fpga_inv s' /\ exists k, fpga_path (fw_fpga_state s) ++ mode_log o = concat (replicate k cycle) ++ fpga_path (fw_fpga_state s')).
Proof.
  induction xs as [|x xs IH]; intros s Hinv Hok; cbn [fpga_run].
  - apply wp_ret. split; [done|]. exists 0%nat. by rewrite app_nil_r.
  - destruct Hok as [Hx Hxs]. apply wp_bind. destruct (step_wp x s Hinv Hx) as ([] & s1 & o1 & E1 & Hinv1 & Hd & Hm). exists tt, s1, o1. split; [done|].
    eapply wp_mono; [apply IH; [done | by eapply Hxs]|]. intros _ s' o [Hinv' (k & Hk)]. split; [done|]. rewrite mode_log_app, app_assoc.
    destruct Hm as [Hm|[Hi Hm]]; rewrite Hm.
    + by exists k.
    + exists (S k). cbn [replicate concat]. rewrite Hi in Hk. cbn [fpga_path Datatypes.app] in Hk. by rewrite Hk, app_assoc.
Qed.

(** C35. From an idle driver, while no controller update is under way, for any sequence of program commands, device responses with any status
    (pages of the image when read back), and timeouts, in any order: no step faults, and the commands that change the mode of the device are whole
    cycles - sensor off, JTAG mode, flash open, flash close, normal mode, sensor on - followed by a
    prefix of a cycle that depends on the state reached; so a driver that is idle again has closed
    the flash, restored the mode and reconnected the sensor, however the operation failed. *)
Theorem fpga_restores xs s : fpga_inv s -> fw_fpga_state s = FPGA_IDLE -> inputs_ok s xs ->
  exists s' o k, fpga_run xs s = Ok (tt, s', o) /\ fpga_inv s'
    /\ mode_log o = concat (replicate k cycle) ++ fpga_path (fw_fpga_state s')
    /\ (fw_fpga_state s' = FPGA_IDLE -> mode_log o = concat (replicate k cycle)).
Proof.
  intros Hinv Hi Hok. destruct (run_wp xs s Hinv Hok) as ([] & s' & o & E & Hinv' & k & Hk).
  rewrite Hi in Hk. cbn [fpga_path Datatypes.app] in Hk. exists s', o, k. split; [done|]. split; [done|]. split; [done|].
  intros Hi'. by rewrite Hk, Hi', app_nil_r.
Qed.

(** A command with an image of two bytes; a response with a status. *)
Definition ex_program : value_s := jsdrv_union_bin [7; 0; 0; 0; FWUP_FPGA_OP_PROGRAM; 0; 0; 0; 171; 205].
Definition ex_rsp (status : Z) : value_s := reply (mk_mem 1 0 0 0 0 0 0 0 0 []) status [].

(** The flash does not open: one whole cycle all the same. *)
Lemma fpga_restores_witness : exists s' o k,
  fpga_run [F_cmd 0 ex_program; F_timeout; F_rsp 0 (ex_rsp 1); F_rsp 0 (ex_rsp 0); F_timeout] ex_opened = Ok (tt, s', o) /\ fpga_inv s'
    /\ mode_log o = concat (replicate k cycle) ++ fpga_path (fw_fpga_state s')
    /\ (fw_fpga_state s' = FPGA_IDLE -> mode_log o = concat (replicate k cycle)).
Proof.
  apply (fpga_restores [F_cmd 0 ex_program; F_timeout; F_rsp 0 (ex_rsp 1); F_rsp 0 (ex_rsp 0); F_timeout] ex_opened); [by split | done|].
  split; [vm_compute; reflexivity|]. intros s1 o1 E1. vm_compute in E1. injection E1 as <- <-.
  split; [done|]. intros s2 o2 E2. vm_compute in E2. injection E2 as <- <-.
  split; [discriminate|]. intros s3 o3 E3. vm_compute in E3. injection E3 as <- <-.
  split; [discriminate|]. intros s4 o4 E4. vm_compute in E4. injection E4 as <- <-.
  split; [done|]. intros s5 o5 E5. done.
Defined.
