(* ===== verification/Statistics.v ===== *)
(** * Running statistics (src/statistics.c, include_private/jsdrv_prv/statistics.h)

    The accumulators work on an abstract arithmetic, so that the same text runs on IEEE
    doubles, as compiled, and on exact rationals, where the algorithms are proved to
    compute the mean, the sum of squared deviations, the minimum and the maximum. *)

From Stdlib Require Import Field Lqa QArith.QArith_base QArith.Qreduction QArith.Qcanon.
From S2P Require Import Prelude Float.

(** The operations on [double] that the accumulators use; [fofZ] is the conversion of an integer. *)
Class Arith (F : Type) := {
  fadd : F -> F -> F;
  fsub : F -> F -> F;
  fmul : F -> F -> F;
  fdiv : F -> F -> F;
  fopp : F -> F;
  fltb : F -> F -> bool;
  fofZ : Z -> F;
  DBL_MAX : F;
}.

#[global] Instance f64_arith : Arith f64 := {|
  fadd := f64_add; fsub := f64_sub; fmul := f64_mul; fdiv := f64_div; fopp := f64_opp;
  fltb := SFltb; fofZ := f64_of_Z;
  DBL_MAX := f64_lit (2 ^ 53 - 1) 971;
|}.

Record jsdrv_statistics_accum_s {F : Type} := mk_accum {
  st_k : Z;
  st_mean : F;
  st_s : F;
  st_min : F;
  st_max : F;
}.
Arguments jsdrv_statistics_accum_s : clear implicits.

Section Accum.
Context {F : Type} `{Arith F}.
Let accum := jsdrv_statistics_accum_s F.

Definition jsdrv_statistics_reset : accum := mk_accum _ 0 (fofZ 0) (fofZ 0) DBL_MAX (fopp DBL_MAX).

Definition jsdrv_statistics_adjust_k (a : accum) (k' : Z) : accum :=
  let s' := if 0 <? st_k a then fmul (fdiv (st_s a) (fofZ (st_k a))) (fofZ k') else st_s a in
  mk_accum _ k' (st_mean a) s' (st_min a) (st_max a).

(** The two passes over an array, from the initial extremes of the element type. *)
Definition compute (limit : F) (x : list F) : accum :=
  if len x <=? 0 then jsdrv_statistics_reset
  else
    let '(v_mean, v_min, v_max) :=
      fold_left (fun '(m, lo, hi) v =>
        (fadd m v, (if fltb v lo then v else lo), (if fltb hi v then v else hi)))
        x (fofZ 0, limit, fopp limit) in
    let v_mean := fdiv v_mean (fofZ (len x)) in
    let v_var := fold_left (fun v_var v => let m := fsub v v_mean in fadd v_var (fmul m m)) x (fofZ 0) in
    mk_accum _ (len x) v_mean v_var v_min v_max.

Definition jsdrv_statistics_compute_f64 (x : list F) : accum := compute DBL_MAX x.

Definition jsdrv_statistics_add (a : accum) (x : F) : accum :=
  let k' := u64 (st_k a + 1) in
  let m_old := st_mean a in
  let m_new := fadd (st_mean a) (fdiv (fsub x (st_mean a)) (fofZ k')) in
  mk_accum _ k' m_new (fadd (st_s a) (fmul (fsub x m_old) (fsub x m_new)))
    (if fltb x (st_min a) then x else st_min a) (if fltb (st_max a) x then x else st_max a).

Definition jsdrv_statistics_var (a : accum) : F :=
  if st_k a <=? 1 then fofZ 0 else fdiv (st_s a) (fofZ (st_k a - 1)).

Definition jsdrv_statistics_copy (src : accum) : accum :=
  mk_accum _ (st_k src) (st_mean src) (st_s src) (st_min src) (st_max src).

Definition jsdrv_statistics_combine (a b : accum) : accum :=
  let kt := u64 (st_k a + st_k b) in
  if kt =? 0 then jsdrv_statistics_reset
  else if st_k a =? 0 then jsdrv_statistics_copy b
  else if st_k b =? 0 then jsdrv_statistics_copy a
  else
    let f1 := fdiv (fofZ (st_k a)) (fofZ kt) in
    let mean_new := fadd (fmul f1 (st_mean a)) (fmul (fsub (fofZ 1) f1) (st_mean b)) in
    let m1_diff := fsub (st_mean a) mean_new in
    let m2_diff := fsub (st_mean b) mean_new in
    mk_accum _ kt mean_new
      (fadd (fadd (st_s a) (fmul (fmul (fofZ (st_k a)) m1_diff) m1_diff))
            (fadd (st_s b) (fmul (fmul (fofZ (st_k b)) m2_diff) m2_diff)))
      (if fltb (st_min a) (st_min b) then st_min a else st_min b)
      (if fltb (st_max b) (st_max a) then st_max a else st_max b).
End Accum.

Definition jsdrv_statistics_invalid (a : jsdrv_statistics_accum_s f64) : jsdrv_statistics_accum_s f64 :=
  mk_accum _ (st_k a) S754_nan S754_nan S754_nan S754_nan.

Definition FLT_MAX : f32 := binary_normalize 24 128 (2 ^ 24 - 1) 104 false.

(** Conversions from [float] to [double] are exact, so the comparisons agree. *)
Definition jsdrv_statistics_compute_f32 (x : list f32) : jsdrv_statistics_accum_s f64 :=
  compute (f64_of_f32 FLT_MAX) (map f64_of_f32 x).

(** A summary entry: the four [float]s of an aggregated window. *)
Record jsdrv_summary_entry_s := mk_entry { e_avg : f32; e_std : f32; e_min : f32; e_max : f32 }.

Definition jsdrv_statistics_from_entry (e : jsdrv_summary_entry_s) (n : Z) : jsdrv_statistics_accum_s f64 :=
  let std := f64_of_f32 (e_std e) in
  mk_accum _ n (f64_of_f32 (e_avg e)) (f64_mul (f64_mul std std) (f64_of_Z n))
    (f64_of_f32 (e_min e)) (f64_of_f32 (e_max e)).

Definition jsdrv_statistics_to_entry (a : jsdrv_statistics_accum_s f64) : jsdrv_summary_entry_s :=
  mk_entry (f32_of_f64 (st_mean a))
    (if 1 <? st_k a then f32_of_f64 (f64_sqrt (f64_div (st_s a) (f64_of_Z (st_k a - 1)))) else S754_zero false)
    (f32_of_f64 (st_min a)) (f32_of_f64 (st_max a)).

(** ** Exact arithmetic *)

Definition Qc_of_Z (z : Z) : Qc := Q2Qc (inject_Z z).
Definition Qc_ltb (a b : Qc) : bool := negb (Qle_bool b a).
#[global] Instance Qc_arith : Arith Qc := {|
  fadd := Qcplus; fsub := Qcminus; fmul := Qcmult; fdiv := Qcdiv; fopp := Qcopp;
  fltb := Qc_ltb; fofZ := Qc_of_Z;
  DBL_MAX := Qc_of_Z ((2 ^ 53 - 1) * 2 ^ 971);
|}.

Example statistics_doubles :
  jsdrv_statistics_compute_f64 [f64_of_Z 1; f64_of_Z 2; f64_of_Z 6]
  = mk_accum _ 3 (f64_of_Z 3) (f64_of_Z 14) (f64_of_Z 1) (f64_of_Z 6).
Proof. by vm_compute. Qed.

Lemma Qc_of_Z_add a b : Qc_of_Z (a + b) = (Qc_of_Z a + Qc_of_Z b)%Qc.
Proof. unfold Qc_of_Z. apply Qc_is_canon. rewrite inject_Z_plus. cbn. by rewrite !Qred_correct. Qed.

Lemma Qc_of_Z_pos z : 0 < z -> Qc_of_Z z <> Qc_of_Z 0.
Proof.
  intros Hz E. assert (Qc_of_Z z == Qc_of_Z 0)%Q as E' by (by rewrite E). unfold Qc_of_Z in E'. cbn in E'.
  rewrite !Qred_correct in E'. apply (inject_Z_injective z 0) in E'. lia.
Qed.

Lemma Qc_of_Z_0 : Qc_of_Z 0 = 0%Qc.
Proof. by apply Qc_is_canon. Qed.
Lemma Qc_of_Z_1 : Qc_of_Z 1 = 1%Qc.
Proof. by apply Qc_is_canon. Qed.

Lemma Qc_ltb_lt a b : Qc_ltb a b = true <-> (a < b)%Qc.
Proof.
  unfold Qc_ltb. rewrite negb_true_iff, <- not_true_iff_false, Qle_bool_iff. unfold Qclt.
  split; [apply Qnot_le_lt | apply Qlt_not_le].
Qed.

(** Sum, and sum of squared deviations from [m]. *)
Definition total (x : list Qc) : Qc := fold_right Qcplus 0%Qc x.
Definition spread (m : Qc) (x : list Qc) : Qc := fold_right (fun v a => (a + (v - m) * (v - m))%Qc) 0%Qc x.
Definition n_of (x : list Qc) : Qc := Qc_of_Z (len x).
Definition lowest (lo : Qc) (x : list Qc) : Qc := fold_left (fun lo v => if Qc_ltb v lo then v else lo) x lo.
Definition highest (hi : Qc) (x : list Qc) : Qc := fold_left (fun hi v => if Qc_ltb hi v then v else hi) x hi.

Lemma total_cons v x : total (v :: x) = (v + total x)%Qc.
Proof. reflexivity. Qed.
Lemma spread_cons m v x : spread m (v :: x) = (spread m x + (v - m) * (v - m))%Qc.
Proof. reflexivity. Qed.
Lemma total_nil : total [] = 0%Qc.
Proof. reflexivity. Qed.
Lemma spread_nil m : spread m [] = 0%Qc.
Proof. reflexivity. Qed.

Lemma total_app x y : total (x ++ y) = (total x + total y)%Qc.
Proof. induction x as [|v x IH]; cbn [app]; rewrite ?total_nil, ?total_cons, ?IH; ring. Qed.

Lemma n_of_app x y : n_of (x ++ y) = (n_of x + n_of y)%Qc.
Proof. unfold n_of. by rewrite len_app, Qc_of_Z_add. Qed.

Lemma spread_app m x y : spread m (x ++ y) = (spread m x + spread m y)%Qc.
Proof. induction x as [|v x IH]; cbn [app]; rewrite ?spread_nil, ?spread_cons, ?IH; ring. Qed.

(** Moving the reference point. *)
Lemma spread_shift m m' x :
  spread m' x = (spread m x + (m - m') * ((1 + 1) * (total x - n_of x * m) + n_of x * (m - m')))%Qc.
Proof.
  induction x as [|v x IH].
  - rewrite !spread_nil, total_nil. unfold n_of. change (len []) with 0. rewrite Qc_of_Z_0. ring.
  - assert (n_of (v :: x) = 1 + n_of x)%Qc as -> by (unfold n_of; by rewrite len_cons, Qc_of_Z_add, Qc_of_Z_1).
    rewrite !spread_cons, total_cons, IH. ring.
Qed.

(** *** Minimum and maximum *)

Lemma Qc_ltb_ge a b : Qc_ltb a b = false -> (b <= a)%Q.
Proof. unfold Qc_ltb. rewrite negb_false_iff. apply Qle_bool_iff. Qed.
Lemma Qc_ltb_gt a b : Qc_ltb a b = true -> (a < b)%Q.
Proof. apply Qc_ltb_lt. Qed.

Ltac qc_order :=
  repeat match goal with
  | |- context [if Qc_ltb ?a ?b then _ else _] => destruct (Qc_ltb a b) eqn:?
  end;
  repeat match goal with
  | H : Qc_ltb _ _ = true |- _ => apply Qc_ltb_gt in H
  | H : Qc_ltb _ _ = false |- _ => apply Qc_ltb_ge in H
  end;
  first [reflexivity | exfalso; lra | apply Qc_is_canon; lra | lra].

Definition qmin (a b : Qc) : Qc := if Qc_ltb a b then a else b.
Definition qmax (a b : Qc) : Qc := if Qc_ltb b a then a else b.

Lemma lowest_qmin a b x : lowest (qmin a b) x = qmin a (lowest b x).
Proof.
  revert a b. induction x as [|v x IH]; intros a b; [done|]. cbn [lowest fold_left].
  fold (lowest (if Qc_ltb v (qmin a b) then v else qmin a b) x) (lowest (if Qc_ltb v b then v else b) x).
  rewrite <- IH. f_equal. unfold qmin.
  destruct (Qc_ltb a b) eqn:?, (Qc_ltb v b) eqn:?; qc_order.
Qed.

Lemma highest_qmax a b x : highest (qmax a b) x = qmax a (highest b x).
Proof.
  revert a b. induction x as [|v x IH]; intros a b; [done|]. cbn [highest fold_left].
  fold (highest (if Qc_ltb (qmax a b) v then v else qmax a b) x) (highest (if Qc_ltb b v then v else b) x).
  rewrite <- IH. f_equal. unfold qmax.
  destruct (Qc_ltb b a) eqn:?, (Qc_ltb b v) eqn:?; qc_order.
Qed.

Lemma lowest_le (lo : Qc) x : (lowest lo x <= lo)%Q.
Proof.
  revert lo. induction x as [|v x IH]; intros lo; [cbn; lra|]. cbn [lowest fold_left].
  specialize (IH (if Qc_ltb v lo then v else lo)). unfold lowest in IH.
  eapply Qle_trans; [apply IH|]. qc_order.
Qed.

Lemma highest_ge (hi : Qc) x : (hi <= highest hi x)%Q.
Proof.
  revert hi. induction x as [|v x IH]; intros hi; [cbn; lra|]. cbn [highest fold_left].
  specialize (IH (if Qc_ltb hi v then v else hi)). unfold highest in IH.
  eapply Qle_trans; [|apply IH]. qc_order.
Qed.

Lemma lowest_app lo x y : lowest lo (x ++ y) = qmin (lowest lo x) (lowest lo y).
Proof.
  unfold lowest at 1. rewrite fold_left_app. fold (lowest lo x). fold (lowest (lowest lo x) y).
  rewrite <- lowest_qmin. f_equal. pose proof (lowest_le lo x). unfold qmin. qc_order.
Qed.

Lemma highest_app hi x y : highest hi (x ++ y) = qmax (highest hi x) (highest hi y).
Proof.
  unfold highest at 1. rewrite fold_left_app. fold (highest hi x). fold (highest (highest hi x) y).
  rewrite <- highest_qmax. f_equal. pose proof (highest_ge hi x). unfold qmax. qc_order.
Qed.

(** *** The statistics of a list *)

Definition average (x : list Qc) : Qc := (total x / n_of x)%Qc.
Definition exact (x : list Qc) : jsdrv_statistics_accum_s Qc :=
  match x with
  | [] => jsdrv_statistics_reset
  | _ => mk_accum _ (len x) (average x) (spread (average x) x) (lowest DBL_MAX x) (highest (- DBL_MAX)%Qc x)
  end.

Lemma compute_exact x : jsdrv_statistics_compute_f64 x = exact x.
Proof.
  unfold jsdrv_statistics_compute_f64, compute. destruct x as [|v x]; [done|].
  set (l := v :: x). assert (0 < len l) by (unfold l; rewrite len_cons; pose proof (len_nonneg x); lia). simpl_cmp.
  assert (forall l m lo hi,
    fold_left (fun '(m, lo, hi) v =>
      (fadd m v, (if fltb v lo then v else lo), (if fltb hi v then v else hi))) l (m, lo, hi)
    = ((m + total l)%Qc, lowest lo l, highest hi l)) as ->.
  { clear. induction l as [|v l IH]; intros m lo hi; cbn [fold_left].
    - rewrite total_nil. cbn [lowest highest fold_left]. do 2 f_equal. ring.
    - rewrite IH, total_cons. cbn. do 2 f_equal. ring. }
  assert (forall l a m, fold_left (fun a v => let d := fsub v m in fadd a (fmul d d)) l a = (a + spread m l)%Qc) as Hs.
  { clear. induction l as [|v l IH]; intros a m; cbn [fold_left].
    - rewrite spread_nil. ring.
    - rewrite IH, spread_cons. cbn. ring. }
  cbv beta iota. rewrite Hs. cbn [fofZ fdiv Qc_arith]. rewrite Qc_of_Z_0.
  fold (n_of l). replace (0 + total l)%Qc with (total l) by ring. fold (average l).
  change (exact l) with (mk_accum _ (len l) (average l) (spread (average l) l) (lowest DBL_MAX l) (highest (- DBL_MAX)%Qc l)).
  cbn [fopp Qc_arith]. f_equal. ring.
Qed.

Lemma n_of_nonzero v x : n_of (v :: x) <> 0%Qc.
Proof. rewrite <- Qc_of_Z_0. apply Qc_of_Z_pos. rewrite len_cons. pose proof (len_nonneg x). lia. Qed.

Lemma exact_cons v x : exact (v :: x) =
  mk_accum _ (len (v :: x)) (average (v :: x)) (spread (average (v :: x)) (v :: x))
    (lowest DBL_MAX (v :: x)) (highest (- DBL_MAX)%Qc (v :: x)).
Proof. reflexivity. Qed.

(** The spread around any point, from the spread around the average. *)
Lemma spread_average m x : n_of x <> 0%Qc ->
  spread m x = (spread (average x) x + n_of x * (average x - m) * (average x - m))%Qc.
Proof. intros Hn. rewrite (spread_shift (average x) m). unfold average. field. done. Qed.

Lemma combine_exact x y : len (x ++ y) < 2 ^ 64 ->
  jsdrv_statistics_combine (exact x) (exact y) = exact (x ++ y).
Proof.
  intros Hl. rewrite len_app in Hl. pose proof (len_nonneg x). pose proof (len_nonneg y).
  destruct y as [|w y].
  { rewrite app_nil_r. destruct x as [|v x]; [done|]. unfold jsdrv_statistics_combine.
    rewrite exact_cons. cbn [st_k jsdrv_statistics_reset exact]. rewrite Z.add_0_r, uwrap_small by width_lia.
    rewrite len_cons in *. pose proof (len_nonneg x). by simpl_cmp. }
  destruct x as [|v x].
  { unfold jsdrv_statistics_combine. cbn [app]. rewrite exact_cons. cbn [st_k jsdrv_statistics_reset exact].
    rewrite Z.add_0_l, uwrap_small by width_lia. rewrite len_cons in *. pose proof (len_nonneg y). by simpl_cmp. }
  pose proof (n_of_nonzero v x) as Hx. pose proof (n_of_nonzero w y) as Hy.
  assert (n_of ((v :: x) ++ w :: y) <> 0%Qc) as Hxy by apply (n_of_nonzero v).
  change ((v :: x) ++ w :: y) with (v :: x ++ w :: y) at 1. rewrite !exact_cons.
  change (v :: x ++ w :: y) with ((v :: x) ++ w :: y). unfold jsdrv_statistics_combine. cbn [st_k st_mean st_s st_min st_max].
  assert (0 < len (v :: x) /\ 0 < len (w :: y)) by (rewrite !len_cons; pose proof (len_nonneg x); pose proof (len_nonneg y); lia).
  rewrite uwrap_small by width_lia. simpl_cmp.
  set (a := v :: x) in *. set (b := w :: y) in *. clearbody a b. cbn [fadd fsub fmul fdiv fltb fofZ Qc_arith].
  rewrite <- len_app. fold (n_of (a ++ b)) (n_of a) (n_of b). rewrite Qc_of_Z_1.
  rewrite n_of_app in Hxy |- *.
  assert (n_of a / (n_of a + n_of b) * average a + (1 - n_of a / (n_of a + n_of b)) * average b = average (a ++ b))%Qc as ->.
  { unfold average. rewrite total_app, n_of_app. field. done. }
  f_equal.
  - by rewrite spread_app, (spread_average (average (a ++ b)) a), (spread_average (average (a ++ b)) b).
  - rewrite lowest_app. reflexivity.
  - rewrite highest_app. reflexivity.
Qed.

Lemma n_of_1 x : n_of [x] = 1%Qc.
Proof. apply Qc_of_Z_1. Qed.

Lemma add_one x l : len l + 1 < 2 ^ 64 -> jsdrv_statistics_add (exact l) x = exact (l ++ [x]).
Proof.
  intros Hl. assert (n_of (l ++ [x]) <> 0%Qc) as Hn by (destruct l; apply n_of_nonzero).
  pose proof (len_nonneg l). unfold jsdrv_statistics_add.
  assert (st_k (exact l) = len l) as -> by (by destruct l). rewrite uwrap_small by width_lia.
  assert (exact (l ++ [x]) = mk_accum _ (len l + 1) (average (l ++ [x])) (spread (average (l ++ [x])) (l ++ [x]))
    (lowest DBL_MAX (l ++ [x])) (highest (- DBL_MAX)%Qc (l ++ [x]))) as ->.
  { change (len l + 1) with (len l + len [x]). rewrite <- len_app. by destruct l. }
  assert (Qc_of_Z (len l + 1) = n_of (l ++ [x])) as En by (unfold n_of; by rewrite len_app).
  cbn [fadd fsub fmul fdiv fltb fofZ Qc_arith]. rewrite En.
  rewrite spread_app, spread_cons, spread_nil.
  rewrite (lowest_app DBL_MAX l [x]), (highest_app (- DBL_MAX)%Qc l [x]).
  rewrite n_of_app, n_of_1 in Hn |- *.
  destruct l as [|v l].
  - cbn [exact st_mean st_s st_min st_max jsdrv_statistics_reset fofZ fopp Qc_arith]. rewrite spread_nil.
    unfold average. cbn [app]. rewrite n_of_1, total_cons, total_nil. unfold n_of. change (len []) with 0.
    rewrite Qc_of_Z_0. cbn [lowest highest fold_left qmin qmax].
    f_equal; [by field | by field | unfold qmin; by qc_order | unfold qmax; by qc_order].
  - pose proof (n_of_nonzero v l) as Hv. rewrite exact_cons. cbn [st_mean st_s st_min st_max]. set (a := v :: l) in *. clearbody a.
    assert (average a + (x - average a) / (n_of a + 1) = average (a ++ [x]))%Qc as Hm.
    { unfold average. rewrite total_app, n_of_app, n_of_1, total_cons, total_nil. field. done. }
    rewrite Hm. f_equal.
    + rewrite (spread_average (average (a ++ [x])) a) by done. rewrite <- Hm. field. done.
    + change (lowest DBL_MAX [x]) with (if Qc_ltb x DBL_MAX then x else DBL_MAX).
      pose proof (lowest_le DBL_MAX a) as Hlo. revert Hlo. generalize (lowest DBL_MAX a) (DBL_MAX (F := Qc)).
      intros lo m Hlo. unfold qmin. destruct (Qc_ltb x m) eqn:?; qc_order.
    + change (highest (- DBL_MAX)%Qc [x]) with (if Qc_ltb (- DBL_MAX)%Qc x then x else (- DBL_MAX)%Qc).
      pose proof (highest_ge (- DBL_MAX)%Qc a) as Hhi. revert Hhi.
      generalize (highest (- DBL_MAX)%Qc a) (- DBL_MAX (F := Qc))%Qc.
      intros hi m Hhi. unfold qmax. destruct (Qc_ltb m x) eqn:?; qc_order.
Qed.

Lemma add_exact l : len l < 2 ^ 64 -> fold_left jsdrv_statistics_add l jsdrv_statistics_reset = exact l.
Proof.
  induction l as [|x l IH] using rev_ind; intros Hl; [done|]. rewrite len_app in Hl. change (len [x]) with 1 in Hl.
  rewrite fold_left_app, IH by lia. cbn [fold_left]. apply add_one. lia.
Qed.

(** C29. In exact arithmetic the three ways to the statistics agree, and are what they are called:
    adding the samples one at a time to a reset accumulator, computing over the whole array in
    two passes, and combining the statistics of the two parts of any split all give the number
    of samples, their mean, the sum of the squared deviations from it, the least and the
    greatest sample. *)
Theorem statistics_agree x y :
  len (x ++ y) < 2 ^ 64 ->
  jsdrv_statistics_compute_f64 (x ++ y) = exact (x ++ y)
  /\ fold_left jsdrv_statistics_add (x ++ y) jsdrv_statistics_reset = exact (x ++ y)
  /\ jsdrv_statistics_combine (jsdrv_statistics_compute_f64 x) (jsdrv_statistics_compute_f64 y) = exact (x ++ y).
Proof.
  intros Hl. split; [apply compute_exact|]. split; [|by rewrite !compute_exact, combine_exact].
  apply add_exact, Hl.
Qed.

Lemma statistics_agree_witness :
  let x := [Qc_of_Z 1; Qc_of_Z 2] in let y := [Qc_of_Z 6] in
  jsdrv_statistics_compute_f64 (x ++ y) = exact (x ++ y)
  /\ fold_left jsdrv_statistics_add (x ++ y) jsdrv_statistics_reset = exact (x ++ y)
  /\ jsdrv_statistics_combine (jsdrv_statistics_compute_f64 x) (jsdrv_statistics_compute_f64 y) = exact (x ++ y).
Proof. apply (statistics_agree [Qc_of_Z 1; Qc_of_Z 2] [Qc_of_Z 6]). by vm_compute. Defined.

(** A level of the reduction scales the deviation: an entry of [n] samples is read back with
    weight [n] and written with weight [n - 1], so a copy through the accumulator grows. *)
Example entry_roundtrip_grows :
  e_std (jsdrv_statistics_to_entry (jsdrv_statistics_from_entry
    (mk_entry (f32_of_Z 0) (f32_of_Z 1) (f32_of_Z 0) (f32_of_Z 0)) 2))
  <> f32_of_Z 1.
Proof. by vm_compute. Qed.
