(* ===== verification/BufferBits.v ===== *)
(** * Packed bits (the bit copies of src/buffer_signal.c)

    Samples of one and four bits are packed LSB first into bytes.  The copies work a byte at a
    time where both sides are aligned and a bit at a time otherwise; the theorems give their
    meaning on single bits, [get_bit], whatever the alignment. *)

From S2P Require Import Prelude.

(** The byte [d] with the bit at [sh] replaced by [b]. *)
Definition put_bit (b : bool) (d sh : Z) : Z :=
  let mask := u8 (Z.shiftl 1 sh) in
  if b then Z.lor d mask else Z.land d (u8 (Z.lnot mask)).

(** Each round of the loop moves at least a bit: [bit_count] is enough fuel. *)
Fixpoint bits_copy_loop (fuel : nat) (dst : list Z) (dst_bit : Z) (src : list Z) (src_bit bit_count : Z)
  : res (list Z) :=
  if bit_count =? 0 then Ok dst
  else match fuel with
  | O => Fault OutOfFuel
  | S fuel' =>
      if (Z.land dst_bit 7 =? 0) && (Z.land src_bit 7 =? 0) && (8 <=? bit_count) then
        let byte_count := Z.shiftr bit_count 3 in
        dst ← mem_copy dst (Z.shiftr dst_bit 3) src (Z.shiftr src_bit 3) byte_count;
        let n := u64 (Z.shiftl byte_count 3) in
        bits_copy_loop fuel' dst (u64 (dst_bit + n)) src (u64 (src_bit + n)) (u64 (bit_count - n))
      else
        v ← ld src (Z.shiftr src_bit 3);
        let b := Z.land (Z.shiftr v (Z.land src_bit 7)) 1 in
        d ← ld dst (Z.shiftr dst_bit 3);
        dst ← st dst (Z.shiftr dst_bit 3) (put_bit (negb (b =? 0)) d (Z.land dst_bit 7));
        bits_copy_loop fuel' dst (u64 (dst_bit + 1)) src (u64 (src_bit + 1)) (u64 (bit_count - 1))
  end.
Definition bits_copy (dst : list Z) (dst_bit : Z) (src : list Z) (src_bit bit_count : Z) : res (list Z) :=
  bits_copy_loop (Z.to_nat bit_count) dst dst_bit src src_bit bit_count.

Fixpoint bits_zero_loop (fuel : nat) (dst : list Z) (dst_bit bit_count : Z) : res (list Z) :=
  if bit_count =? 0 then Ok dst
  else match fuel with
  | O => Fault OutOfFuel
  | S fuel' =>
      if (Z.land dst_bit 7 =? 0) && (8 <=? bit_count) then
        let byte_count := Z.shiftr bit_count 3 in
        dst ← mem_copy dst (Z.shiftr dst_bit 3) (replicate (Z.to_nat byte_count) 0) 0 byte_count;
        let n := u64 (Z.shiftl byte_count 3) in
        bits_zero_loop fuel' dst (u64 (dst_bit + n)) (u64 (bit_count - n))
      else
        d ← ld dst (Z.shiftr dst_bit 3);
        dst ← st dst (Z.shiftr dst_bit 3) (Z.land d (u8 (Z.lnot (Z.shiftl 1 (Z.land dst_bit 7)))));
        bits_zero_loop fuel' dst (u64 (dst_bit + 1)) (u64 (bit_count - 1))
  end.
Definition bits_zero (dst : list Z) (dst_bit bit_count : Z) : res (list Z) :=
  bits_zero_loop (Z.to_nat bit_count) dst dst_bit bit_count.

(** ** Single bits *)

Definition get_bit (m : list Z) (i : Z) : bool :=
  match m !! Z.to_nat (i / 8) with Some v => Z.testbit v (i mod 8) | None => false end.

Definition bits8 (m : list Z) : Z := 8 * len m.

(** [m'] is [m] with the bits from [d] to [d + n] replaced by [f 0], [f 1], ... *)
Definition bits_set (m m' : list Z) (d n : Z) (f : Z -> bool) : Prop :=
  len m' = len m /\ forall j, 0 <= j -> get_bit m' j = if (d <=? j) && (j <? d + n) then f (j - d) else get_bit m j.

Lemma land7 i : Z.land i 7 = i mod 8.
Proof. apply (Z.land_ones i 3). lia. Qed.
Lemma shiftr3 i : Z.shiftr i 3 = i / 8.
Proof. apply (Z.shiftr_div_pow2 i 3). lia. Qed.
Lemma shiftl3 i : Z.shiftl i 3 = i * 8.
Proof. apply (Z.shiftl_mul_pow2 i 3). lia. Qed.

Lemma byte_bit_eq a b : 0 <= a -> 0 <= b -> Z.to_nat (a / 8) = Z.to_nat (b / 8) -> a mod 8 = b mod 8 -> a = b.
Proof. intros. pose proof (Z.div_mod a 8). pose proof (Z.div_mod b 8). pose proof (Z.div_pos a 8). pose proof (Z.div_pos b 8). lia. Qed.

(** A store that changes one bit of one byte. *)
Lemma store_bit m d v v' b : 0 <= d -> m !! Z.to_nat (d / 8) = Some v ->
  (forall j, 0 <= j < 8 -> Z.testbit v' j = if j =? d mod 8 then b else Z.testbit v j) ->
  bits_set m (<[Z.to_nat (d / 8) := v']> m) d 1 (fun _ => b).
Proof.
  intros Hd Hv Hb. split; [apply len_insert|]. intros j Hj. unfold get_bit.
  pose proof (Z.mod_pos_bound j 8 ltac:(lia)). destruct (decide (Z.to_nat (j / 8) = Z.to_nat (d / 8))) as [E|E].
  - rewrite E, list_lookup_insert_eq by (by eapply lookup_lt_Some). rewrite Hb, Hv by done.
    destruct (j mod 8 =? d mod 8) eqn:E1; bool_facts.
    + assert (j = d) as -> by (by apply byte_bit_eq). by simpl_cmp.
    + destruct ((d <=? j) && _) eqn:E2; [|done]. bool_facts. assert (j = d) by lia. by subst.
  - rewrite list_lookup_insert_ne by done. destruct ((d <=? j) && _) eqn:E2; [|done]. bool_facts.
    assert (j = d) by lia. by subst.
Qed.

Lemma bits_set_trans m1 m2 m3 d n n' f g h :
  bits_set m1 m2 d n f -> bits_set m2 m3 (d + n) n' g -> 0 <= n -> 0 <= n' ->
  (forall j, 0 <= j < n -> h j = f j) -> (forall j, 0 <= j < n' -> h (n + j) = g j) ->
  bits_set m1 m3 d (n + n') h.
Proof.
  intros [L1 H1] [L2 H2] Hn Hn' Hf Hg. split; [congruence|]. intros j Hj. rewrite H2, H1 by done.
  destruct ((d + n <=? j) && (j <? d + n + n')) eqn:E1; bool_facts.
  - simpl_cmp. cbn [andb]. rewrite <- Hg by lia. f_equal. lia.
  - destruct ((d <=? j) && (j <? d + n)) eqn:E2; bool_facts.
    + simpl_cmp. cbn [andb]. rewrite Hf by lia. done.
    + destruct ((d <=? j) && (j <? d + (n + n'))) eqn:E3; [|done]. bool_facts. lia.
Qed.

Lemma bits_set_nil m d f : bits_set m m d 0 f.
Proof. split; [done|]. intros j Hj. destruct ((d <=? j) && _) eqn:E; [|done]. bool_facts. lia. Qed.

(** Copies of whole bytes. *)
Lemma mem_copy_bits dst d src s n :
  0 <= n -> 0 <= s -> s + n <= len src -> 0 <= d -> d + n <= len dst ->
  exists dst', mem_copy dst d src s n = Ok dst'
    /\ bits_set dst dst' (8 * d) (8 * n) (fun j => get_bit src (8 * s + j)).
Proof.
  intros Hn Hs Hsrc Hd Hdst. destruct (mem_copy_ok dst d src s n) as (e & -> & Hl & Hin & Hout); [done..|].
  exists e. split; [done|]. split; [done|]. intros j Hj. unfold get_bit.
  destruct ((8 * d <=? j) && (j <? 8 * d + 8 * n)) eqn:E; bool_facts.
  - rewrite Hin by div_lia. replace ((8 * s + (j - 8 * d)) mod 8) with (j mod 8) by div_lia.
    replace (Z.to_nat s + (Z.to_nat (j / 8) - Z.to_nat d))%nat with (Z.to_nat ((8 * s + (j - 8 * d)) / 8)) by div_lia.
    done.
  - rewrite Hout by div_lia. done.
Qed.

Lemma lookup_bit m i : 0 <= i -> i < bits8 m ->
  exists v, ld m (i / 8) = Ok v /\ m !! Z.to_nat (i / 8) = Some v /\ get_bit m i = Z.testbit v (i mod 8).
Proof.
  intros Hi Hl. unfold bits8 in Hl. destruct (ld_in_range m (i / 8)) as (v & Hv & Hm); [div_lia|].
  exists v. split_and!; [done | done |]. unfold get_bit. by rewrite Hm.
Qed.

Lemma testbit_not_mask sh j : 0 <= sh < 8 -> 0 <= j < 8 ->
  Z.testbit (u8 (Z.lnot (Z.shiftl 1 sh))) j = negb (j =? sh).
Proof.
  intros Hs Hj. unfold uwrap. rewrite Z.mod_pow2_bits_low by lia. rewrite Z.lnot_spec by lia.
  rewrite Z.shiftl_spec by lia. f_equal. destruct (j =? sh) eqn:E; bool_facts.
  - subst. by rewrite Z.sub_diag.
  - destruct (Z.lt_ge_cases j sh); [by rewrite Z.testbit_neg_r by lia|]. change 1 with (2 ^ 0).
    by rewrite Z.pow2_bits_false by lia.
Qed.

Lemma testbit_mask sh j : 0 <= sh < 8 -> 0 <= j < 8 -> Z.testbit (u8 (Z.shiftl 1 sh)) j = (j =? sh).
Proof.
  intros Hs Hj. unfold uwrap. rewrite Z.mod_pow2_bits_low by lia. rewrite Z.shiftl_1_l.
  rewrite Z.pow2_bits_eqb by lia. apply Z.eqb_sym.
Qed.

Lemma put_bit_spec b d sh j : 0 <= sh < 8 -> 0 <= j < 8 ->
  Z.testbit (put_bit b d sh) j = if j =? sh then b else Z.testbit d j.
Proof.
  intros Hs Hj. unfold put_bit.
  assert (u8 (Z.lnot (u8 (Z.shiftl 1 sh))) = u8 (Z.lnot (Z.shiftl 1 sh))) as ->.
  { apply Z.bits_inj'. intros i Hi. unfold uwrap. rewrite !Z.testbit_mod_pow2 by lia.
    rewrite !Z.lnot_spec by lia. rewrite !Z.testbit_mod_pow2 by lia. by destruct (i <? 8). }
  destruct b.
  - rewrite Z.lor_spec, testbit_mask by done. destruct (j =? sh); [apply orb_true_r | apply orb_false_r].
  - rewrite Z.land_spec, testbit_not_mask by done. destruct (j =? sh); [apply andb_false_r | apply andb_true_r].
Qed.

Lemma odd_bit v i : 0 <= i -> negb (Z.land (Z.shiftr v i) 1 =? 0) = Z.testbit v i.
Proof.
  intros Hi. rewrite (Z.land_ones _ 1) by lia. change (2 ^ 1) with 2. rewrite <- Z.bit0_mod, Z.shiftr_spec by lia.
  rewrite Z.add_0_l. by destruct (Z.testbit v i).
Qed.

(** ** The copies *)

Lemma bits_copy_loop_spec fuel : forall dst d src s n,
  0 <= n <= Z.of_nat fuel -> 0 <= d -> 0 <= s -> d + n <= bits8 dst -> s + n <= bits8 src ->
  bits8 dst < 2 ^ 64 -> bits8 src < 2 ^ 64 ->
  exists dst', bits_copy_loop fuel dst d src s n = Ok dst'
    /\ bits_set dst dst' d n (fun j => get_bit src (s + j)).
Proof.
  induction fuel as [|fuel IH]; intros dst d src s n Hn Hd Hs Hdn Hsn Hld Hls; cbn [bits_copy_loop]; case_if.
  - subst n. exists dst. split; [done|]. apply bits_set_nil.
  - lia.
  - subst n. exists dst. split; [done|]. apply bits_set_nil.
  - rewrite !land7, !shiftr3. destruct ((d mod 8 =? 0) && (s mod 8 =? 0) && (8 <=? n)) eqn:E1.
    + bool_facts. unfold bits8 in *.
      destruct (mem_copy_bits dst (d / 8) src (s / 8) (n / 8)) as (d1 & -> & Hset); [div_lia..|].
      rewrite bind_Ok, shiftl3. pose proof Hset as [Hl1 _].
      rewrite (uwrap_small 64 (n / 8 * 8)), !uwrap_small by div_lia.
      destruct (IH d1 (d + n / 8 * 8) src (s + n / 8 * 8) (n - n / 8 * 8)) as (d2 & -> & Hset2); unfold bits8; [rewrite ?Hl1; div_lia..|].
      exists d2. split; [done|]. replace n with (8 * (n / 8) + (n - n / 8 * 8)) at 1 by lia.
      replace (8 * (d / 8)) with d in Hset by div_lia.
      eapply bits_set_trans; [exact Hset | | div_lia | div_lia | |].
      * replace (d + 8 * (n / 8)) with (d + n / 8 * 8) by lia. exact Hset2.
      * intros j Hj. cbn beta. f_equal. div_lia.
      * intros j Hj. cbn beta. f_equal. lia.
    + destruct (lookup_bit src s) as (v & -> & _ & Hv); [lia | lia |]. rewrite bind_Ok.
      destruct (lookup_bit dst d) as (w & -> & Hw & _); [lia | lia |]. rewrite bind_Ok.
      rewrite st_ok, bind_Ok by (unfold bits8 in *; div_lia).
      pose proof (Z.mod_pos_bound d 8 ltac:(lia)). pose proof (Z.mod_pos_bound s 8 ltac:(lia)).
      rewrite odd_bit, <- Hv by lia. rewrite !uwrap_small by width_lia.
      assert (bits_set dst (<[Z.to_nat (d / 8):=put_bit (get_bit src s) w (d mod 8)]> dst) d 1 (fun _ => get_bit src s)) as Hset.
      { apply (store_bit dst d w); [lia | done |]. intros j Hj. by apply put_bit_spec. }
      pose proof Hset as [Hl1 _].
      destruct (IH (<[Z.to_nat (d / 8):=put_bit (get_bit src s) w (d mod 8)]> dst) (d + 1) src (s + 1) (n - 1))
        as (d2 & -> & Hset2); unfold bits8 in *; [rewrite ?Hl1; lia..|].
      exists d2. split; [done|]. replace n with (1 + (n - 1)) at 1 by lia.
      eapply bits_set_trans; [exact Hset | exact Hset2 | lia | lia | |].
      * intros j Hj. cbn beta. f_equal. lia.
      * intros j Hj. cbn beta. f_equal. lia.
Qed.

(** Copying packed bits moves exactly the requested bits, for every pair of alignments, on the
    byte-wise fast path and the bit-wise slow path alike: bit [dst_bit + j] becomes bit
    [src_bit + j] for each [j < bit_count], every other bit of the destination is kept, and no
    byte outside of the two buffers is touched. *)
Lemma bits_copy_spec dst dst_bit src src_bit bit_count :
  0 <= bit_count -> 0 <= dst_bit -> 0 <= src_bit ->
  dst_bit + bit_count <= bits8 dst < 2 ^ 64 -> src_bit + bit_count <= bits8 src < 2 ^ 64 ->
  exists dst', bits_copy dst dst_bit src src_bit bit_count = Ok dst' /\ len dst' = len dst
    /\ forall j, 0 <= j -> get_bit dst' j =
         if (dst_bit <=? j) && (j <? dst_bit + bit_count) then get_bit src (src_bit + (j - dst_bit))
         else get_bit dst j.
Proof. intros. apply bits_copy_loop_spec; lia. Qed.

Lemma bits_copy_spec_witness :
  exists dst', bits_copy [0; 0] 3 [255; 1] 1 9 = Ok dst' /\ len dst' = 2
    /\ forall j, 0 <= j -> get_bit dst' j =
         if (3 <=? j) && (j <? 3 + 9) then get_bit [255; 1] (1 + (j - 3)) else get_bit [0; 0] j.
Proof. apply (bits_copy_spec [0; 0] 3 [255; 1] 1 9); by vm_compute. Defined.

Lemma bits_zero_loop_spec fuel : forall dst d n,
  0 <= n <= Z.of_nat fuel -> 0 <= d -> d + n <= bits8 dst -> bits8 dst < 2 ^ 64 ->
  exists dst', bits_zero_loop fuel dst d n = Ok dst' /\ bits_set dst dst' d n (fun _ => false).
Proof.
  induction fuel as [|fuel IH]; intros dst d n Hn Hd Hdn Hld; cbn [bits_zero_loop]; case_if.
  - subst n. exists dst. split; [done|]. apply bits_set_nil.
  - lia.
  - subst n. exists dst. split; [done|]. apply bits_set_nil.
  - rewrite !land7, !shiftr3. destruct ((d mod 8 =? 0) && (8 <=? n)) eqn:E1.
    + bool_facts. unfold bits8 in *.
      assert (len (replicate (Z.to_nat (n / 8)) 0) = n / 8) as Hlr by (unfold len; rewrite length_replicate; div_lia).
      destruct (mem_copy_bits dst (d / 8) (replicate (Z.to_nat (n / 8)) 0) 0 (n / 8)) as (d1 & -> & Hset); [div_lia..|].
      rewrite bind_Ok, shiftl3. pose proof Hset as [Hl1 _].
      rewrite (uwrap_small 64 (n / 8 * 8)), !uwrap_small by div_lia.
      destruct (IH d1 (d + n / 8 * 8) (n - n / 8 * 8)) as (d2 & -> & Hset2); unfold bits8; [rewrite ?Hl1; div_lia..|].
      exists d2. split; [done|]. replace n with (8 * (n / 8) + (n - n / 8 * 8)) at 1 by lia.
      replace (8 * (d / 8)) with d in Hset by div_lia.
      eapply bits_set_trans; [exact Hset | | div_lia | div_lia | |].
      * replace (d + 8 * (n / 8)) with (d + n / 8 * 8) by lia. exact Hset2.
      * intros j Hj. cbn beta. unfold get_bit. destruct (_ !! _) as [v|] eqn:Ev; [|done].
        apply lookup_replicate_1 in Ev as [-> _]. by rewrite Z.testbit_0_l.
      * done.
    + destruct (lookup_bit dst d) as (w & -> & Hw & _); [lia | lia |]. rewrite bind_Ok.
      rewrite st_ok, bind_Ok by (unfold bits8 in *; div_lia).
      pose proof (Z.mod_pos_bound d 8 ltac:(lia)). rewrite !uwrap_small with (w := 64) by width_lia.
      set (w' := Z.land w _).
      assert (bits_set dst (<[Z.to_nat (d / 8):=w']> dst) d 1 (fun _ => false)) as Hset.
      { apply (store_bit dst d w); [lia | done |]. intros j Hj. unfold w'.
        rewrite Z.land_spec, testbit_not_mask by lia. destruct (j =? d mod 8); [apply andb_false_r | apply andb_true_r]. }
      pose proof Hset as [Hl1 _].
      destruct (IH (<[Z.to_nat (d / 8):=w']> dst) (d + 1) (n - 1)) as (d2 & -> & Hset2); unfold bits8 in *; [rewrite ?Hl1; lia..|].
      exists d2. split; [done|]. replace n with (1 + (n - 1)) at 1 by lia.
      by eapply bits_set_trans; [exact Hset | exact Hset2 | lia | lia | |].
Qed.
