(* ===== verification/BufferSignal.v ===== *)
(** * The sample buffer of one signal (src/buffer_signal.c)

    A ring of [N] samples, packed into bytes, with a pyramid of summary levels over it.
    The time map is used through its interface, the class [TmapImpl]; the instance is the
    ring of the file Tmap.  Addresses into the level arrays are indices, the response data
    is a byte object of its own, and the memory that [jsdrv_alloc] leaves uninitialised is a
    parameter. *)

From S2P Require Import Prelude Float Cstr ErrorCode Time Tmap I128 Statistics BufferBits.

(** ** The time map interface *)

Class TmapImpl (T : Type) := {
  tm_alloc : T;                                      (* jsdrv_tmap_alloc(0) *)
  tm_clear : option T -> option T;
  tm_add : option T -> jsdrv_time_map_s -> res (option T);
  tm_expire : option T -> Z -> res (option T);
  tm_to_timestamp : option T -> Z -> res (Z * Z);    (* return code, time *)
  tm_to_sample_id : option T -> Z -> res (Z * Z);
  tm_length : option T -> Z;
  tm_get : option T -> Z -> jsdrv_time_map_s -> res (Z * jsdrv_time_map_s);
  tm_copy : option T -> res (option T);
}.

(** What the buffer relies on: an instance stays usable, as long as the times are of the
    documented 34Q30 format and the allocation is not astronomical. *)
Class TmapLaws (T : Type) `{TmapImpl T} := {
  tm_ok : T -> Prop;
  tm_room : T -> Prop;
  tm_alloc_ok : tm_ok tm_alloc;
  tm_clear_ok t : tm_ok t -> exists t', tm_clear (Some t) = Some t' /\ tm_ok t' /\ (tm_room t -> tm_room t');
  tm_add_ok t m : tm_ok t -> tm_room t -> - 2 ^ 62 <= offset_time m < 2 ^ 62 ->
    exists t', tm_add (Some t) m = Ok (Some t') /\ tm_ok t';
  tm_expire_ok t id : tm_ok t -> exists t', tm_expire (Some t) id = Ok (Some t') /\ tm_ok t';
}.

(** ** Data *)

Definition JSDRV_BUFSIG_LEVELS_MAX : Z := 32.
Definition JSDRV_DATA_TYPE_UINT : Z := 3.
Definition JSDRV_DATA_TYPE_FLOAT : Z := 4.
Definition JSDRV_TIME_UTC : Z := 0.
Definition JSDRV_TIME_SAMPLES : Z := 1.
Definition JSDRV_BUFFER_RESPONSE_SAMPLES : Z := 1.
Definition JSDRV_BUFFER_RESPONSE_SUMMARY : Z := 2.

(** [sizeof(struct jsdrv_stream_signal_s)], [sizeof(struct jsdrv_buffer_response_s)] (64-bit
    pointers), and the extra space for shift and overrun. *)
Definition DATA_SIZE_MAX : Z := (1024 * 256 + 56) - 192 - 8 * 8.
Definition SUMMARY_LENGTH_MAX : Z := DATA_SIZE_MAX / 16.

Record bufsig_stream_header_s := mk_hdr {
  h_sample_id : Z; h_field_id : Z; h_index : Z; h_element_type : Z; h_element_size_bits : Z;
  h_element_count : Z; h_sample_rate : Z; h_decimate_factor : Z;
}.

Record bufsig_level_s := mk_level {
  l_k : Z;                                      (* number of reduction entries *)
  l_r : Z;                                      (* reduction from the previous level *)
  samples_per_entry : Z;
  l_data : option (list jsdrv_summary_entry_s);
}.
Definition level_zero : bufsig_level_s := mk_level 0 0 0 None.

Record bufsig_s {T : Type} := mk_bufsig {
  active : bool;
  b_topic : cstr;
  hdr : bufsig_stream_header_s;
  tmap : option T;
  bN : Z;                                       (* size in samples *)
  size_in_utc : Z;
  r0 : Z;
  rN : Z;
  b_k : Z;
  level_count : Z;
  levels : list bufsig_level_s;
  level0_head : Z;                              (* next insert point *)
  level0_size : Z;                              (* number of valid entries *)
  sample_id_head : Z;                           (* next expected sample id *)
  level0_data : option (list Z);                (* bytes *)
}.
Arguments bufsig_s : clear implicits.

Record jsdrv_stream_signal_s := mk_signal {
  s_sample_id : Z; s_field_id : Z; s_index : Z; s_element_type : Z; s_element_size_bits : Z;
  s_element_count : Z; s_sample_rate : Z; s_decimate_factor : Z;
  s_time_map : jsdrv_time_map_s;
  s_data : list Z;
}.

Record jsdrv_time_range_s := mk_range { start : Z; end_ : Z; length_ : Z }.
Definition range_zero : jsdrv_time_range_s := mk_range 0 0 0.

Record jsdrv_buffer_info_s {T : Type} := mk_info {
  i_version : Z; i_field_id : Z; i_index : Z; i_element_type : Z; i_element_size_bits : Z;
  i_topic : cstr;
  i_size_in_utc : Z;
  i_size_in_samples : Z;
  time_range_utc : jsdrv_time_range_s;
  time_range_samples : jsdrv_time_range_s;
  i_time_map : jsdrv_time_map_s;
  i_decimate_factor : Z;
  i_tmap : option T;
}.
Arguments jsdrv_buffer_info_s : clear implicits.

Record jsdrv_buffer_response_s {T : Type} := mk_rsp {
  response_type : Z;
  rsp_id : Z;
  info : jsdrv_buffer_info_s T;
  data : list Z;                               (* bytes *)
  entries : list jsdrv_summary_entry_s;        (* the same storage read as summary entries *)
}.
Arguments jsdrv_buffer_response_s : clear implicits.

Record jsdrv_buffer_request_s := mk_req {
  time_type : Z;
  req_time : jsdrv_time_range_s;               (* the union of both ranges *)
  req_rsp_id : Z;
}.

(** ** Operations *)

Definition udiv (a b : Z) : res Z := if b =? 0 then Fault DivByZero else Ok (a / b).
Definition umod (a b : Z) : res Z := if b =? 0 then Fault DivByZero else Ok (a mod b).
Definition assert (b : bool) : res unit := if b then Ok tt else Fault AssertFail.

Definition entry_clear : jsdrv_summary_entry_s := mk_entry S754_nan S754_nan S754_nan S754_nan.

Definition jsdrv_bufsig_element_type_is_supported (element_type element_size_bits : Z) : bool :=
  if JSDRV_DATA_TYPE_FLOAT =? element_type then 32 =? element_size_bits
  else if JSDRV_DATA_TYPE_UINT =? element_type then (1 =? element_size_bits) || (4 =? element_size_bits)
  else false.

(** [f32[i]] of a byte object, little endian. *)
Definition ld32 (m : list Z) (i : Z) : res Z :=
  b0 ← ld m (4 * i); b1 ← ld m (4 * i + 1); b2 ← ld m (4 * i + 2); b3 ← ld m (4 * i + 3);
  Ok (u8 b0 + 2 ^ 8 * (u8 b1 + 2 ^ 8 * (u8 b2 + 2 ^ 8 * u8 b3))).
Definition st32 (m : list Z) (i v : Z) : res (list Z) :=
  m ← st m (4 * i) (u8 v); m ← st m (4 * i + 1) (u8 (v / 2 ^ 8));
  m ← st m (4 * i + 2) (u8 (v / 2 ^ 16)); st m (4 * i + 3) (u8 (v / 2 ^ 24)).

(** [p[i]] of the same bytes as [uint64_t]. *)
Definition ld64 (m : list Z) (i : Z) : res Z :=
  lo ← ld32 m (2 * i); hi ← ld32 m (2 * i + 1); Ok (lo + 2 ^ 32 * hi).
Definition st64 (m : list Z) (i v : Z) : res (list Z) :=
  m ← st32 m (2 * i) (u32 v); st32 m (2 * i + 1) (u32 (v / 2 ^ 32)).

Section Bufsig.
Context {T : Type} `{TmapImpl T}.
Context (fresh_byte : Z) (fresh_entry : jsdrv_summary_entry_s).   (* uninitialised memory *)
Let bufsig := bufsig_s T.

(** Assignments to the members. *)
Definition with_levels (b : bufsig) (l : list bufsig_level_s) : bufsig :=
  mk_bufsig _ (active b) (b_topic b) (hdr b) (tmap b) (bN b) (size_in_utc b) (r0 b) (rN b) (b_k b)
    (level_count b) l (level0_head b) (level0_size b) (sample_id_head b) (level0_data b).
Definition with_ring (b : bufsig) (head size id : Z) (d : option (list Z)) : bufsig :=
  mk_bufsig _ (active b) (b_topic b) (hdr b) (tmap b) (bN b) (size_in_utc b) (r0 b) (rN b) (b_k b)
    (level_count b) (levels b) head size id d.
Definition with_tmap (b : bufsig) (t : option T) : bufsig :=
  mk_bufsig _ (active b) (b_topic b) (hdr b) t (bN b) (size_in_utc b) (r0 b) (rN b) (b_k b)
    (level_count b) (levels b) (level0_head b) (level0_size b) (sample_id_head b) (level0_data b).
Definition with_hdr (b : bufsig) (h : bufsig_stream_header_s) : bufsig :=
  mk_bufsig _ (active b) (b_topic b) h (tmap b) (bN b) (size_in_utc b) (r0 b) (rN b) (b_k b)
    (level_count b) (levels b) (level0_head b) (level0_size b) (sample_id_head b) (level0_data b).

Definition bits (b : bufsig) : Z := h_element_size_bits (hdr b).
Definition level0 (b : bufsig) : res (list Z) :=
  match level0_data b with Some d => Ok d | None => Fault OutOfBounds end.

(** The place of a summary entry: [None] is NULL, else the index into [levels] and [data]. *)
Definition level_entry (b : bufsig) (level idx : Z) : res (option (Z * Z)) :=
  _ ← assert (0 <? level);
  _ ← assert (level <? JSDRV_BUFSIG_LEVELS_MAX);
  lvl ← ld (levels b) (level - 1);
  Ok (if l_k lvl <=? idx then None else Some (level - 1, idx)).

Definition entry_read (b : bufsig) (p : option (Z * Z)) : res jsdrv_summary_entry_s :=
  match p with
  | None => Fault OutOfBounds
  | Some (i, idx) =>
      lvl ← ld (levels b) i;
      match l_data lvl with Some d => ld d idx | None => Fault OutOfBounds end
  end.
Definition entry_write (b : bufsig) (p : option (Z * Z)) (e : jsdrv_summary_entry_s) : res bufsig :=
  match p with
  | None => Fault OutOfBounds
  | Some (i, idx) =>
      lvl ← ld (levels b) i;
      match l_data lvl with
      | Some d =>
          d ← st d idx e;
          l ← st (levels b) i (mk_level (l_k lvl) (l_r lvl) (samples_per_entry lvl) (Some d));
          Ok (with_levels b l)
      | None => Fault OutOfBounds
      end
  end.

(** *** Allocation *)

(** [while (k >= rN * rN)]: the division shrinks [k] unless [rN <= 1]. *)
Fixpoint level_count_loop (fuel : nat) (k rN level_count : Z) : res (Z * Z) :=
  if k <? u64 (rN * rN) then Ok (k, level_count)
  else match fuel with
  | O => Fault OutOfFuel
  | S fuel' => k ← udiv k rN; level_count_loop fuel' k rN (u8 (level_count + 1))
  end.

(** The levels from [i] on, [n] rounds. *)
Fixpoint alloc_levels (n : nat) (i N r0 rN spe : Z) (l : list bufsig_level_s) : res (list bufsig_level_s) :=
  match n with
  | O => Ok l
  | S n' =>
      let r := if i =? 0 then r0 else rN in
      let spe := u64 (spe * r) in
      k ← udiv N spe;
      if k <=? 1 then Ok l
      else
        l ← st l i (mk_level k r spe (Some (replicate (Z.to_nat k) fresh_entry)));
        alloc_levels n' (i + 1) N r0 rN spe l
  end.

Definition jsdrv_bufsig_alloc (b : bufsig) (N r0 rN : Z) : res (bufsig * Z) :=
  if negb (jsdrv_bufsig_element_type_is_supported (h_element_type (hdr b)) (bits b))
  then Ok (b, ec_code NOT_SUPPORTED)
  else
    k ← udiv N r0;
    '(k, level_count) ← level_count_loop 64 k rN 1;
    let tmap := match tmap b with None => Some tm_alloc | t => tm_clear t end in
    rate ← udiv (h_sample_rate (hdr b)) (h_decimate_factor (hdr b));
    size_in_utc ← JSDRV_F64_TO_TIME (f64_div (f64_of_Z N) (f64_of_Z rate));
    let bytes := if JSDRV_DATA_TYPE_FLOAT =? h_element_type (hdr b) then u64 (N * 4)
                 else u64 (u64 (N * bits b) + 7) / 8 in
    l ← alloc_levels 32 0 N r0 rN 1 (levels b);
    Ok (mk_bufsig _ (active b) (b_topic b) (hdr b) tmap N size_in_utc r0 rN k level_count l 0 0
          (sample_id_head b) (Some (replicate (Z.to_nat bytes) fresh_byte)), 0).

Definition jsdrv_bufsig_free (b : bufsig) : bufsig :=
  mk_bufsig _ (active b) (b_topic b) (mk_hdr 0 0 0 0 0 0 0 0) None 0 (size_in_utc b) (r0 b) (rN b) (b_k b)
    0 (replicate 32 level_zero) (level0_head b) (level0_size b) 0 None.

Definition clear (b : bufsig) (sample_id : Z) : bufsig :=
  with_tmap (with_ring b 0 0 sample_id (level0_data b)) (tm_clear (tmap b)).
Definition jsdrv_bufsig_clear (b : bufsig) : bufsig := clear b 0.

(** *** Information *)

Definition samples_to_utc (b : bufsig) (samples : jsdrv_time_range_s) : res jsdrv_time_range_s :=
  '(_, ts) ← tm_to_timestamp (tmap b) (start samples);
  te ← (if end_ samples =? 0 then Ok 0 else '(_, te) ← tm_to_timestamp (tmap b) (end_ samples); Ok te);
  Ok (mk_range ts te (length_ samples)).

Definition utc_to_samples (b : bufsig) (utc : jsdrv_time_range_s) : res jsdrv_time_range_s :=
  '(_, ns) ← tm_to_sample_id (tmap b) (start utc);
  ne ← (if end_ utc =? 0 then Ok 0 else '(_, ne) ← tm_to_sample_id (tmap b) (end_ utc); Ok ne);
  Ok (mk_range ns ne (length_ utc)).

Definition info_zero : jsdrv_buffer_info_s T :=
  mk_info _ 0 0 0 0 0 [] 0 0 range_zero range_zero time_map_zero 0 None.

Definition jsdrv_bufsig_info (b : bufsig) : res (bool * jsdrv_buffer_info_s T) :=
  if 0 =? bits b then Ok (false, info_zero)
  else
    let samples :=
      if level0_size b =? 0 then range_zero
      else mk_range (u64 (sample_id_head b - level0_size b)) (u64 (sample_id_head b - 1)) (level0_size b) in
    utc ← (if level0_size b =? 0 then Ok range_zero else samples_to_utc b samples);
    '(tm, t) ←
      match tmap b with
      | None => Ok (time_map_zero, None)
      | Some _ =>
          let tmap_sz := tm_length (tmap b) in
          if tmap_sz =? 0 then Ok (time_map_zero, None)
          else
            '(_, tm) ← tm_get (tmap b) (u64 (tmap_sz - 1)) time_map_zero;
            t ← tm_copy (tmap b);
            Ok (tm, t)
      end;
    let h := hdr b in
    (* both topics are arrays of JSDRV_TOPIC_LENGTH_MAX characters *)
    Ok (true, mk_info _ 1 (h_field_id h) (h_index h) (h_element_type h) (h_element_size_bits h)
                (take 63 (b_topic b)) (size_in_utc b) (bN b) utc samples tm (h_decimate_factor h) t).

(** *** Summaries of level 0 *)

Definition Q : Z := 40.
Definition Q_SCALE : f64 := f64_of_Z (2 ^ Q).

(** The loop of the float branch: index, sums, count, extremes. *)
Record f32_acc := mk_f32_acc {
  fa_index : Z; fa_x1 : Z; fa_x2 : js220_i128; fa_count : Z; fa_min : f32; fa_max : f32 }.
Definition f32_step (N : Z) (src : list Z) (a : f32_acc) : res f32_acc :=
  index ← (if N <=? fa_index a then umod (fa_index a) N else Ok (fa_index a));
  w ← ld32 src index;
  let f := f32_of_bits w in
  let index := u64 (index + 1) in
  if f_is_nan f then Ok (mk_f32_acc index (fa_x1 a) (fa_x2 a) (fa_count a) (fa_min a) (fa_max a))
  else
    x ← f_to_i64 (f64_mul (f64_of_f32 f) Q_SCALE);
    x1 ← chk_i 64 (fa_x1 a + x);
    sq ← js220_i128_square_i64 x;
    Ok (mk_f32_acc index x1 (js220_i128_add (fa_x2 a) sq) (u64 (fa_count a + 1))
          (if SFltb f (fa_min a) then f else fa_min a) (if SFltb (fa_max a) f then f else fa_max a)).

(** The loop of the integer branch. *)
Record u8_acc := mk_u8_acc { ua_index : Z; ua_x1 : Z; ua_x2 : js220_i128; ua_min : Z; ua_max : Z }.
Definition u8_sample (width : Z) (src : list Z) (index : Z) : res Z :=
  if 1 =? width then
    v ← ld src (Z.shiftr index 3); Ok (Z.land (Z.shiftr v (Z.land index 7)) 1)
  else if 4 =? width then
    v ← ld src (Z.shiftr index 1);
    Ok (Z.land (if negb (Z.land index 1 =? 0) then Z.shiftr v 4 else v) 15)
  else Ok 0.
Definition u8_step (N width : Z) (src : list Z) (a : u8_acc) : res u8_acc :=
  index ← (if N <=? ua_index a then umod (ua_index a) N else Ok (ua_index a));
  x ← u8_sample width src index;
  sq ← js220_i128_square_i64 x;
  Ok (mk_u8_acc (u64 (index + 1)) (u64 (ua_x1 a + x)) (js220_i128_add (ua_x2 a) sq)
        (if x <? ua_min a then x else ua_min a) (if ua_max a <? x then x else ua_max a)).

(** The result: the number of samples, and the entry. *)
Definition summary_level0_get_by_idx (b : bufsig) (index incr : Z) : res (Z * jsdrv_summary_entry_s) :=
  _ ← assert (index <? bN b);
  _ ← assert (incr <=? bN b);
  if 0 =? incr then Ok (0, entry_clear)
  else if JSDRV_DATA_TYPE_FLOAT =? h_element_type (hdr b) then
    src ← level0 b;
    a ← iter_res (Z.to_nat incr) (f32_step (bN b) src)
          (mk_f32_acc index 0 (mk_i128 0 0) 0 FLT_MAX (SFopp FLT_MAX));
    if fa_count a =? 0 then Ok (0, entry_clear)
    else
      std ← js220_i128_compute_std (fa_x1 a) (fa_x2 a) (fa_count a) Q;
      Ok (fa_count a,
          mk_entry (f32_of_f64 (f64_div (f64_of_Z (fa_x1 a)) (f64_mul (f64_of_Z (fa_count a)) Q_SCALE)))
            (f32_of_f64 std) (fa_min a) (fa_max a))
  else
    src ← level0 b;
    a ← iter_res (Z.to_nat incr) (u8_step (bN b) (bits b) src)
          (mk_u8_acc index 0 (mk_i128 0 0) (u8 (Z.shiftl 1 (bits b) - 1)) 0);
    std ← js220_i128_compute_std (i64 (ua_x1 a)) (ua_x2 a) incr 0;
    Ok (incr, mk_entry (f32_of_f64 (f64_div (f64_of_Z (ua_x1 a)) (f64_of_Z incr))) (f32_of_f64 std)
                (f32_of_Z (ua_min a)) (f32_of_Z (ua_max a))).

(** *** The levels above *)

(** One entry of level [level + 1] from [r] entries of [level], starting at [lvl_dn_idx]. *)
Fixpoint combine_entries (n : nat) (b : bufsig) (level idx spe : Z)
    (acc : jsdrv_statistics_accum_s f64) : res (jsdrv_statistics_accum_s f64) :=
  match n with
  | O => Ok acc
  | S n' =>
      src ← level_entry b level idx;
      e ← entry_read b src;
      combine_entries n' b level (u64 (idx + 1)) spe
        (jsdrv_statistics_combine acc (jsdrv_statistics_from_entry e spe))
  end.

(** The [while] of one level; each round takes [samples_per_entry >= 1] off [length]. *)
Fixpoint summarizeN_loop (fuel : nat) (b : bufsig) (level : Z) (dn up : bufsig_level_s)
    (up_idx dn_idx length : Z) : res bufsig :=
  if length <? samples_per_entry up then Ok b
  else match fuel with
  | O => Fault OutOfFuel
  | S fuel' =>
      acc ← combine_entries (Z.to_nat (l_r up)) b level dn_idx (samples_per_entry dn) jsdrv_statistics_reset;
      dst ← level_entry b (level + 1) up_idx;
      b ← entry_write b dst (jsdrv_statistics_to_entry acc);
      up_idx ← umod (u64 (up_idx + 1)) (l_k up);
      dn_idx ← umod (u64 (dn_idx + l_r up)) (l_k dn);
      summarizeN_loop fuel' b level dn up up_idx dn_idx (length - samples_per_entry up)
  end.

(** The recursion ends at the first level that is not allocated. *)
Fixpoint summarizeN (fuel : nat) (b : bufsig) (level start_idx length : Z) : res bufsig :=
  match fuel with
  | O => Fault OutOfFuel
  | S fuel' =>
      dn ← ld (levels b) (level - 1);
      up ← ld (levels b) level;
      match l_data up with
      | None => Ok b
      | Some _ =>
          up_idx ← udiv start_idx (samples_per_entry up);
          let level0_idx := u64 (up_idx * samples_per_entry up) in
          dn_idx ← udiv level0_idx (samples_per_entry dn);
          let len' := u64 (length + u64 (start_idx - level0_idx)) in
          b ← summarizeN_loop (Z.to_nat len') b level dn up up_idx dn_idx len';
          summarizeN fuel' b (level + 1) start_idx length
      end
  end.

Fixpoint summarize_loop (fuel : nat) (b : bufsig) (lvl1 : bufsig_level_s) (level1_idx level0_idx length : Z)
  : res bufsig :=
  if length <? r0 b then Ok b
  else match fuel with
  | O => Fault OutOfFuel
  | S fuel' =>
      y ← level_entry b 1 level1_idx;
      '(_, e) ← summary_level0_get_by_idx b level0_idx (r0 b);
      b ← entry_write b y e;
      level1_idx ← umod (u64 (level1_idx + 1)) (l_k lvl1);
      level0_idx ← umod (u64 (level0_idx + r0 b)) (bN b);
      summarize_loop fuel' b lvl1 level1_idx level0_idx (length - r0 b)
  end.

Definition summarize (b : bufsig) (start_idx length : Z) : res bufsig :=
  lvl1 ← ld (levels b) 0;
  match l_data lvl1 with
  | None => Ok b
  | Some _ =>
      level1_idx ← udiv start_idx (r0 b);
      let level0_idx := u64 (level1_idx * r0 b) in
      let len' := u64 (length + u64 (start_idx - level0_idx)) in
      b ← summarize_loop (Z.to_nat len') b lvl1 level1_idx level0_idx len';
      summarizeN 33 b 1 start_idx length
  end.

(** *** Receiving *)

(** The float fill of a gap: [n] samples from [idx]. *)
Definition F32_NAN : Z := 0x7FC00000.
Fixpoint fill_nan (n : nat) (N : Z) (m : list Z) (idx : Z) : res (list Z) :=
  match n with
  | O => Ok m
  | S n' =>
      idx ← (if N <=? idx then umod idx N else Ok idx);
      m ← st32 m idx F32_NAN;
      fill_nan n' N m (u64 (idx + 1))
  end.

Definition fill_zero (N width : Z) (m : list Z) (head k : Z) : res (list Z) :=
  if N <? u64 (head + k) then
    let k1 := u64 (N - head) in
    m ← bits_zero m (u64 (head * width)) (u64 (k1 * width));
    bits_zero m 0 (u64 (u64 (k - k1) * width))
  else bits_zero m (u64 (head * width)) (u64 (k * width)).

Definition size_add (b : bufsig) (k : Z) : Z :=
  let size := u64 (level0_size b + k) in if bN b <? size then bN b else size.

(** The store of the message, from byte [off] or bit [src_bit] of its data; the first round can
    be empty, every other one moves a sample. *)
Fixpoint recv_loop (fuel : nat) (b : bufsig) (src : list Z) (off src_bit length : Z) : res bufsig :=
  if length =? 0 then Ok b
  else match fuel with
  | O => Fault OutOfFuel
  | S fuel' =>
      let head := level0_head b in
      let width := bits b in
      let head_next := u64 (head + length) in
      let '(k, head_next) :=
        if bN b <? head_next then (u64 (bN b - head), 0) else (length, head_next) in
      dst ← level0 b;
      '(dst, off, src_bit) ←
        (if Z.land width 7 =? 0 then
           let copy_size := u64 (k * width) / 8 in
           dst ← mem_copy dst (u64 (head * width) / 8) src off copy_size;
           Ok (dst, off + copy_size, src_bit)
         else
           dst ← bits_copy dst (u64 (head * width)) src src_bit (u64 (k * width));
           Ok (dst, off, u64 (src_bit + u64 (k * width))));
      let b := with_ring b head_next (size_add b k) (u64 (sample_id_head b + k)) (Some dst) in
      b ← summarize b head k;
      recv_loop fuel' b src off src_bit (u64 (length - k))
  end.

(** A skip of [k] samples that the ring can still hold. *)
Definition recv_gap (b : bufsig) (element_type k : Z) : res bufsig :=
  dst ← level0 b;
  dst ← (if element_type =? JSDRV_DATA_TYPE_FLOAT then fill_nan (Z.to_nat k) (bN b) dst (level0_head b)
         else fill_zero (bN b) (bits b) dst (level0_head b) k);
  let start_idx := level0_head b in
  head ← umod (u64 (level0_head b + k)) (bN b);
  summarize (with_ring b head (size_add b k) (sample_id_head b) (Some dst)) start_idx k.

(** The time map and the samples, once the position is settled. *)
Definition recv_store (b : bufsig) (s : jsdrv_stream_signal_s) (sample_id : Z) : res bufsig :=
  counter ← udiv (offset_counter (s_time_map s)) (s_decimate_factor s);
  let time_map := mk_time_map (offset_time (s_time_map s)) counter
                    (f64_div (counter_rate (s_time_map s)) (f64_of_Z (s_decimate_factor s))) in
  t ← tm_add (tmap b) time_map;
  let b := with_tmap b t in
  let b := with_ring b (level0_head b) (level0_size b) sample_id (level0_data b) in
  b ← recv_loop (S (Z.to_nat (s_element_count s))) b (s_data s) 0 0 (s_element_count s);
  t ← tm_expire (tmap b) (u64 (sample_id_head b - level0_size b));
  Ok (with_tmap b t).

Definition recv_header (s : jsdrv_stream_signal_s) : bufsig_stream_header_s :=
  mk_hdr (s_sample_id s) (s_field_id s) (s_index s) (s_element_type s) (s_element_size_bits s)
    (s_element_count s) (s_sample_rate s) (s_decimate_factor s).

Definition jsdrv_bufsig_recv_data (b : bufsig) (s : jsdrv_stream_signal_s) : res bufsig :=
  let b := with_hdr b (recv_header s) in
  match level0_data b with
  | None => Ok b
  | Some _ =>
      let length := s_element_count s in
      sample_id ← udiv (s_sample_id s) (h_decimate_factor (hdr b));
      let sample_id_end := u64 (u64 (sample_id + length) - 1) in
      let expect := sample_id_head b in
      if expect =? 0 then recv_store (clear b sample_id) s sample_id
      else if sample_id_end <? expect then
        Ok (if u64 (expect - sample_id_end) <? bN b then clear b sample_id else b)
      else if sample_id <? expect then Ok b
      else if expect <? sample_id then
        let k := u64 (sample_id - expect) in
        if bN b <? k then recv_store (clear b sample_id) s sample_id
        else b ← recv_gap b (s_element_type s) k; recv_store b s sample_id
      else recv_store b s sample_id
  end.

(** *** Requests for samples *)

Definition level0_tail (b : bufsig) : Z := if negb (level0_size b =? bN b) then 0 else level0_head b.

Let response := jsdrv_buffer_response_s T.
Definition with_info (r : response) (rt : Z) (samples utc : jsdrv_time_range_s) (d : list Z)
    (e : list jsdrv_summary_entry_s) : response :=
  let i := info r in
  mk_rsp _ rt (rsp_id r)
    (mk_info _ (i_version i) (i_field_id i) (i_index i) (i_element_type i) (i_element_size_bits i) (i_topic i)
       (i_size_in_utc i) (i_size_in_samples i) utc samples (i_time_map i) (i_decimate_factor i) (i_tmap i)) d e.

(** [rsp_empty] and [rsp_clear] have the same body. *)
Definition rsp_empty (rt : Z) (r : response) : response := with_info r rt range_zero range_zero (data r) (entries r).
Definition rsp_clear (r : response) : response := rsp_empty (response_type r) r.

(** The range that is sent: [None] when there is nothing in it.  [r] is the requested range, the
    result is the number of samples copied and the range reported. *)
Definition samples_range (b : bufsig) (r : jsdrv_time_range_s) : res (option (Z * Z * jsdrv_time_range_s)) :=
  let sample_id := start r in
  let length := length_ r in
  let tail := u64 (sample_id_head b - level0_size b) in
  length_max ← udiv (DATA_SIZE_MAX * 8) (bits b);
  if level0_size b =? 0 then Ok None
  else
    let k := u64 (tail - sample_id) in
    if (sample_id <? tail) && (length <=? k) then Ok None
    else
      let '(length, sample_id, r) :=
        if sample_id <? tail
        then (u64 (length - k), tail, mk_range tail (end_ r) (u64 (length - k)))
        else (length, sample_id, r) in
      if sample_id_head b <=? sample_id then Ok None
      else
        let '(length, r) :=
          if sample_id_head b <=? u64 (u64 (sample_id + length) - 1)
          then (u64 (sample_id_head b - sample_id), mk_range (start r) (u64 (sample_id_head b - 1)) (length_ r))
          else (length, r) in
        let '(length, r) :=
          if length_max <? length
          then (length_max, mk_range (start r) (u64 (u64 (sample_id + length_max) - 1)) length_max)
          else (length, r) in
        Ok (Some (sample_id, length, r)).

(** The copy out of the ring, at most two rounds; [d] is the position in the response. *)
Fixpoint samples_copy (fuel : nat) (N width shift : Z) (buf : list Z) (rsp : list Z) (d idx length : Z)
  : res (list Z) :=
  if length =? 0 then Ok rsp
  else match fuel with
  | O => Fault OutOfFuel
  | S fuel' =>
      let idx_next := u64 (idx + length) in
      let '(k, idx_next) := if N <=? idx_next then (u64 (N - idx), 0) else (length, idx_next) in
      let copy_size := u64 (u64 (u64 (k * width) + shift) + 7) / 8 in
      rsp ← mem_copy rsp d buf (u64 (idx * width) / 8) copy_size;
      samples_copy fuel' N width shift buf rsp (d + copy_size) idx_next (u64 (length - k))
  end.

(** The shift of the response by whole words: [n] words left from word [i]. *)
Fixpoint shift_loop (n : nat) (p : list Z) (i fwd shift : Z) : res (list Z * Z) :=
  match n with
  | O => Ok (p, fwd)
  | S n' =>
      z ← ld64 p i;
      p ← st64 p (i - 1) (Z.lor (Z.shiftr fwd shift) (u64 (Z.shiftl z (64 - shift))));
      shift_loop n' p (i + 1) z shift
  end.
Definition shift_words (p : list Z) (u64_length shift : Z) : res (list Z) :=
  fwd ← ld64 p 0;
  '(p, fwd) ← shift_loop (Z.to_nat (u64_length - 1)) p 1 fwd shift;
  st64 p (u64 (u64_length - 1)) (Z.shiftr fwd shift).

Definition samples_get (b : bufsig) (rsp : response) : res response :=
  o ← samples_range b (time_range_samples (info rsp));
  match o with
  | None => Ok (rsp_empty JSDRV_BUFFER_RESPONSE_SAMPLES rsp)
  | Some (sample_id, length, r) =>
      buf ← level0 b;
      let tail := u64 (sample_id_head b - level0_size b) in
      idx ← umod (u64 (u64 (sample_id - tail) + level0_tail b)) (bN b);
      let shift := if 1 =? bits b then Z.land idx 7
                   else if 4 =? bits b then u8 (Z.shiftl (Z.land idx 1) 2) else 0 in
      d ← samples_copy (Z.to_nat length) (bN b) (bits b) shift buf (data rsp) 0 idx length;
      d ← (if shift =? 0 then Ok d
           else shift_words d (u64 (u64 (u64 (length_ r * bits b) + shift) + 63) / 64) shift);
      utc ← samples_to_utc b r;
      Ok (with_info rsp JSDRV_BUFFER_RESPONSE_SAMPLES r utc d (entries rsp))
  end.

(** *** Requests for summaries *)

Definition summary_level0_get (b : bufsig) (sample_id incr : Z) : res (Z * jsdrv_summary_entry_s) :=
  let tail := level0_tail b in
  let sample_id_tail := u64 (sample_id_head b - level0_size b) in
  let sample_id_end := u64 (sample_id + incr) in
  if (incr =? 0) || (sample_id_end <=? sample_id_tail) || (sample_id_head b <=? sample_id)
  then Ok (0, entry_clear)
  else
    let '(sample_id, incr) :=
      if sample_id <? sample_id_tail
      then (u64 (sample_id + u64 (sample_id_tail - sample_id)), u64 (incr - u64 (sample_id_tail - sample_id)))
      else (sample_id, incr) in
    let incr := if sample_id_head b <? sample_id_end then u64 (incr - u64 (sample_id_end - sample_id_head b)) else incr in
    if incr =? 0 then Ok (0, entry_clear)
    else
      _ ← assert (sample_id_tail <=? sample_id);
      _ ← assert (u64 (sample_id + incr) <=? sample_id_head b);
      src_idx ← umod (u64 (tail + u64 (sample_id - sample_id_tail))) (bN b);
      summary_level0_get_by_idx b src_idx incr.

(** Combine the accumulator with an entry of a level. *)
Definition accum_entry (b : bufsig) (level idx spe : Z) (acc : jsdrv_statistics_accum_s f64)
  : res (jsdrv_statistics_accum_s f64) :=
  src ← level_entry b level idx;
  e ← entry_read b src;
  Ok (jsdrv_statistics_combine acc (jsdrv_statistics_from_entry e spe)).

(** The first level whose entries are longer than [incr], or that is not there. *)
Fixpoint target_level (l : list bufsig_level_s) (incr tgt : Z) : Z :=
  match l with
  | [] => tgt
  | lvl :: l' =>
      if l_k lvl =? 0 then tgt
      else if incr <? samples_per_entry lvl then tgt
      else target_level l' incr (tgt + 1)
  end.

(** Climbing to the target level from an aligned index.  Each round climbs a level, takes an
    entry off [remaining], or ends. *)
Fixpoint align_loop (fuel : nat) (b : bufsig) (tgt level lvl_dn_step lvl_up_step idx remaining : Z)
    (acc : jsdrv_statistics_accum_s f64) : res (Z * Z * Z * jsdrv_statistics_accum_s f64) :=
  if tgt <? level then Ok (level, idx, remaining, acc)
  else match fuel with
  | O => Fault OutOfFuel
  | S fuel' =>
      idx_lvl_dn ← udiv (u64 (u64 (idx + lvl_dn_step) - 1)) lvl_dn_step;
      idx_lvl_up ← udiv (u64 (u64 (idx + lvl_up_step) - 1)) lvl_up_step;
      if u64 (idx_lvl_dn * lvl_dn_step) =? u64 (idx_lvl_up * lvl_up_step) then
        let level := u8 (level + 1) in
        if tgt <=? level then Ok (tgt, idx, remaining, acc)
        else
          dn ← ld (levels b) (level - 1);
          up ← ld (levels b) level;
          align_loop fuel' b tgt level (samples_per_entry dn) (samples_per_entry up) idx remaining acc
      else if remaining <? lvl_dn_step then Ok (level, idx, remaining, acc)
      else if level =? 0 then Ok (level, idx, remaining, acc)
      else
        acc ← accum_entry b level idx_lvl_dn lvl_dn_step acc;
        _ ← assert (lvl_dn_step <=? remaining);
        idx ← umod (u64 (idx + lvl_dn_step)) (bN b);
        align_loop fuel' b tgt level lvl_dn_step lvl_up_step idx (remaining - lvl_dn_step) acc
  end.

(** Whole entries of the level. *)
Fixpoint entries_loop (fuel : nat) (b : bufsig) (level lvl_k lvl_step lvl_idx remaining : Z)
    (acc : jsdrv_statistics_accum_s f64) : res (Z * Z * jsdrv_statistics_accum_s f64) :=
  if remaining <? lvl_step then Ok (lvl_idx, remaining, acc)
  else match fuel with
  | O => Fault OutOfFuel
  | S fuel' =>
      acc ← accum_entry b level lvl_idx lvl_step acc;
      lvl_idx ← umod (u64 (lvl_idx + 1)) lvl_k;
      _ ← assert (lvl_step <=? remaining);
      entries_loop fuel' b level lvl_k lvl_step lvl_idx (remaining - lvl_step) acc
  end.

(** The exact end of the last entry: descending to level 0. *)
Fixpoint final_loop (fuel : nat) (b : bufsig) (s_end level lvl_idx remaining : Z)
    (acc : jsdrv_statistics_accum_s f64) : res (jsdrv_statistics_accum_s f64) :=
  if remaining =? 0 then Ok acc
  else match fuel with
  | O => Fault OutOfFuel
  | S fuel' =>
      if level =? 0 then
        '(_, e) ← summary_level0_get b (u64 (s_end - remaining)) remaining;
        Ok (jsdrv_statistics_combine acc (jsdrv_statistics_from_entry e remaining))
      else
        lvl ← ld (levels b) (level - 1);
        let lvl_step := samples_per_entry lvl in
        if remaining <? lvl_step then final_loop fuel' b s_end (level - 1) (u64 (lvl_idx * l_r lvl)) remaining acc
        else
          acc ← accum_entry b level lvl_idx lvl_step acc;
          _ ← assert (lvl_step <=? remaining);
          lvl_idx ← umod (u64 (lvl_idx + 1)) (l_k lvl);
          final_loop fuel' b s_end level lvl_idx (remaining - lvl_step) acc
  end.

(** What the [for] over the entries carries along. *)
Record summary_state := mk_sum {
  ss_level : Z; ss_remaining : Z; ss_valid : Z;
  ss_accum : jsdrv_statistics_accum_s f64;
  ss_entries : list jsdrv_summary_entry_s;
}.

Definition rounds (remaining : Z) : nat := Z.to_nat remaining + 64.

(** The first valid entry: the samples up to the first boundary of level 1, then the climb. *)
Definition summary_first (b : bufsig) (tgt s_start idx : Z) (st : summary_state)
  : res (Z * Z * Z * jsdrv_statistics_accum_s f64) :=
  lvl1 ← ld (levels b) 0;
  let step := samples_per_entry lvl1 in
  lvl1_idx ← udiv (u64 (u64 (idx + step) - 1)) step;
  let idx_aligned := u64 (lvl1_idx * step) in
  '(idx, remaining, acc) ←
    (if idx =? idx_aligned then Ok (idx, ss_remaining st, ss_accum st)
     else
       let sz0 := u64 (idx_aligned - idx) in
       let sz0 := if ss_remaining st <? sz0 then ss_remaining st else sz0 in
       '(_, e) ← summary_level0_get b s_start sz0;
       idx ← umod idx_aligned (bN b);
       Ok (idx, u64 (ss_remaining st - sz0), jsdrv_statistics_from_entry e sz0));
  align_loop (rounds remaining) b tgt (ss_level st) 1 (r0 b) idx remaining acc.

Definition summary_entry (b : bufsig) (tgt sample_id incr entries_length entry_idx : Z) (st : summary_state)
  : res summary_state :=
  let tail := u64 (sample_id_head b - level0_size b) in
  let s_start := u64 (sample_id + u64 (incr * entry_idx)) in
  let s_end := u64 (s_start + incr) in
  let dsize := u64 (s_end - sample_id_head b) in
  let '(remaining, s_end) :=
    if sample_id_head b <? s_end
    then ((if ss_remaining st <? dsize then 0 else ss_remaining st - dsize), u64 (s_end - dsize))
    else (ss_remaining st, s_end) in
  let put e level remaining valid acc :=
    l ← Prelude.st (ss_entries st) entry_idx e; Ok (mk_sum level remaining valid acc l) in
  if (s_end <=? tail) || (sample_id_head b <=? s_start)
  then put entry_clear (ss_level st) remaining (ss_valid st) (ss_accum st)
  else if 0 =? tgt then
    '(_, e) ← summary_level0_get b s_start incr;
    put e (ss_level st) remaining (ss_valid st) (ss_accum st)
  else
    idx ← umod (u64 (u64 (level0_head b + bN b) - u64 (sample_id_head b - s_start))) (bN b);
    let valid := u64 (ss_valid st + 1) in
    let st := mk_sum (ss_level st) remaining (ss_valid st) (ss_accum st) (ss_entries st) in
    '(level, idx, remaining, acc) ←
      (if 0 =? ss_valid st then summary_first b tgt s_start idx st
       else Ok (ss_level st, idx, remaining, ss_accum st));
    lvl ← ld (levels b) (level - 1);
    let lvl_step := samples_per_entry lvl in
    lvl_idx ← udiv idx lvl_step;
    '(lvl_idx, remaining, acc) ← entries_loop (rounds remaining) b level (l_k lvl) lvl_step lvl_idx remaining acc;
    if entries_length <=? u64 (entry_idx + 1) then
      (* final, get exact ending statistics; nothing of the state is used again *)
      acc ← final_loop (rounds remaining) b s_end level lvl_idx remaining acc;
      put (jsdrv_statistics_to_entry acc) level 0 valid acc
    else
      src ← level_entry b level lvl_idx;
      e ← entry_read b src;
      let tmp := jsdrv_statistics_from_entry e lvl_step in
      let done := jsdrv_statistics_combine acc (jsdrv_statistics_adjust_k tmp remaining) in
      let next := jsdrv_statistics_adjust_k tmp (u64 (lvl_step - remaining)) in
      _ ← assert (st_k next <=? incr);
      put (jsdrv_statistics_to_entry done) level (u64 (incr - st_k next)) valid (jsdrv_statistics_copy next).

Fixpoint summary_entries (n : nat) (b : bufsig) (tgt sample_id incr entries_length entry_idx : Z) (st : summary_state)
  : res summary_state :=
  match n with
  | O => Ok st
  | S n' =>
      st ← summary_entry b tgt sample_id incr entries_length entry_idx st;
      summary_entries n' b tgt sample_id incr entries_length (entry_idx + 1) st
  end.

Definition summary_get (b : bufsig) (rsp : response) : res response :=
  let r := time_range_samples (info rsp) in
  let range_req := u64 (u64 (end_ r + 1) - start r) in
  incr ← udiv range_req (length_ r);
  entries_length ← udiv range_req incr;
  let r := mk_range (start r) (u64 (u64 (start r + u64 (incr * entries_length)) - 1)) entries_length in
  if (level0_size b =? 0) || (entries_length =? 0) || (SUMMARY_LENGTH_MAX <? entries_length)
  then Ok (rsp_empty JSDRV_BUFFER_RESPONSE_SUMMARY rsp)
  else
    st ← summary_entries (Z.to_nat entries_length) b (target_level (levels b) incr 0) (start r) incr entries_length 0
           (mk_sum 0 incr 0 jsdrv_statistics_reset (entries rsp));
    utc ← samples_to_utc b r;
    Ok (with_info rsp JSDRV_BUFFER_RESPONSE_SUMMARY r utc (data rsp) (ss_entries st)).

(** *** Requests *)

(** The result: code, the request (its range is converted in place), the response. *)
Definition jsdrv_bufsig_process_request (b : bufsig) (req : jsdrv_buffer_request_s) (rsp : response)
  : res (Z * jsdrv_buffer_request_s * response) :=
  '(ok, i) ← jsdrv_bufsig_info b;
  let rsp := mk_rsp _ 0 (req_rsp_id req) i (data rsp) (entries rsp) in
  if negb ok then Ok (ec_code UNAVAILABLE, req, rsp)
  else if negb (active b) then Ok (ec_code UNAVAILABLE, req, rsp)
  else match level0_data b with
  | None => Ok (ec_code UNAVAILABLE, req, rsp)
  | Some _ =>
      let t := req_time req in
      let go (t : jsdrv_time_range_s) :=
        let req := mk_req (time_type req) t (req_rsp_id req) in
        utc ← samples_to_utc b t;
        let interval := u64 (u64 (end_ t - start t) + 1) in
        let answer get r := rsp ← get b (with_info rsp 0 r utc (data rsp) (entries rsp)); Ok (0, req, rsp) in
        if negb (length_ t =? 0) && negb (end_ t =? 0) then
          if interval <? u64 (length_ t * 2) then answer samples_get (mk_range (start t) (end_ t) interval)
          else answer summary_get t
        else if negb (length_ t =? 0) then
          answer samples_get (mk_range (start t) (u64 (u64 (start t + length_ t) - 1)) (length_ t))
        else answer samples_get (mk_range (start t) (end_ t) interval) in
      if JSDRV_TIME_SAMPLES =? time_type req then
        if negb (end_ t =? 0) && (end_ t <? start t) then Ok (ec_code PARAMETER_INVALID, req, rsp_clear rsp)
        else go t
      else if JSDRV_TIME_UTC =? time_type req then
        if negb (end_ t =? 0) && (end_ t <? start t) then Ok (ec_code PARAMETER_INVALID, req, rsp_clear rsp)
        else t ← utc_to_samples b t; go t
      else Ok (ec_code PARAMETER_INVALID, req, rsp)
  end.
End Bufsig.
