(* ===== verification/BufferSummary.v ===== *)
(** * The summary levels stay in bounds (theorems on src/buffer_signal.c)

    [summarize] touches nothing but the entries of the levels, keeps their shape, and on a
    buffer whose levels divide the ring reaches no assert, no NULL entry and no access outside
    of the arrays; the only faults left are the conversions of [float] samples out of the
    fixed-point range. *)

From S2P Require Import Prelude Float Cstr ErrorCode Time Tmap I128 Statistics BufferBits BufferSignal.

(** The faults of the fixed-point conversion. *)
Definition soft (fl : bool) (f : fault) : Prop := fl = true /\ (f = BadCast \/ f = SignedOverflow).

(** [P] of the result, or a conversion fault. *)
Definition safe {A} (fl : bool) (r : res A) (P : A -> Prop) : Prop :=
  match r with Ok a => P a | Fault f => soft fl f end.

Lemma safe_bind {A B} fl (r : res A) (k : A -> res B) P Q :
  safe fl r P -> (forall a, P a -> safe fl (k a) Q) -> safe fl (r ≫= k) Q.
Proof. destruct r; cbn; auto. Qed.

Lemma safe_mono {A} fl (r : res A) (P Q : A -> Prop) : safe fl r P -> (forall a, P a -> Q a) -> safe fl r Q.
Proof. destruct r; cbn; auto. Qed.

Lemma safe_ok {A} fl (r : res A) a (P : A -> Prop) : r = Ok a -> P a -> safe fl r P.
Proof. by intros ->. Qed.

Lemma safe_iter {A} fl (f : A -> res A) (P : nat -> A -> Prop) n :
  (forall i a, P (S i) a -> safe fl (f a) (P i)) -> forall a, P n a -> safe fl (iter_res n f a) (P 0%nat).
Proof.
  intros Hf. induction n as [|n IH]; intros a Ha; [done|]. cbn [iter_res].
  eapply safe_bind; [by apply Hf|]. done.
Qed.

Lemma chk_i_safe w z : safe true (chk_i w z) (fun r => r = z /\ is_s w z).
Proof. unfold chk_i. case_if; cbn; [split; [done | split; lia] | split; [done | by right]]. Qed.

Lemma f_cast_safe lo hi x : safe true (f_cast lo hi x) (fun r => lo <= r <= hi).
Proof. destruct x; cbn; [|split; [done | by left]]. case_if; cbn; [lia | split; [done | by left]]. Qed.

Lemma square_safe x : I64_MIN <= x <= I64_MAX -> safe true (js220_i128_square_i64 x) wf_i128.
Proof.
  intros Hx. destruct (Z.eq_dec x I64_MIN) as [->|].
  - unfold js220_i128_square_i64. change (-9223372036854775808 <? 0) with true. cbn.
    split; [done | by right].
  - rewrite square_spec by lia. apply of_Z_wf.
Qed.

Lemma std_safe x1 x2 n q : is_s 64 x1 -> wf_i128 x2 -> 0 < n < 2 ^ 64 ->
  safe true (js220_i128_compute_std x1 x2 n q) (fun _ => True).
Proof.
  intros Hx Hw Hn. destruct (Z.eq_dec x1 I64_MIN) as [->|].
  - unfold js220_i128_compute_std. change (-9223372036854775808 <? 0) with true. cbn. split; [done | by right].
  - destruct (compute_std_total x1 x2 n q) as [f ->]; [width_lia | done | done | done].
Qed.

(** ** The shape of the levels *)

Definition shape (l : bufsig_level_s) : Z * Z * Z * option Z :=
  (l_k l, l_r l, samples_per_entry l, len <$> l_data l).

(** An allocated level has [k] entries of [samples_per_entry] samples, [r] entries of the level
    below each, and covers the ring of [N] samples. *)
Definition level_wf (N r0 : Z) (l : list (Z * Z * Z * option Z)) (i : nat) (lvl : Z * Z * Z * option Z) : Prop :=
  let '(k, r, spe, d) := lvl in
  match d with
  | None => True
  | Some n => n = k /\ 0 < k /\ 0 < r /\ 0 < spe /\ k * spe = N
      /\ match i with
         | O => spe = r0
         | S i' => exists k' r' spe' n', l !! i' = Some (k', r', spe', Some n') /\ spe = r * spe'
         end
  end.

Definition levels_wf (N r0 : Z) (l : list (Z * Z * Z * option Z)) : Prop :=
  len l = 32 /\ (forall k r spe d, l !! 31%nat = Some (k, r, spe, d) -> d = None)
  /\ forall i lvl, l !! i = Some lvl -> level_wf N r0 l i lvl.

Section Summary.
Context {T : Type} `{TmapImpl T}.
Abbreviation bufsig := (bufsig_s T).

(** The result differs in the entries of the levels only. *)
Definition relevel (b b' : bufsig) : Prop := b' = with_levels b (levels b') /\ shape <$> levels b' = shape <$> levels b.

Lemma relevel_refl b : relevel b b.
Proof. split; [by destruct b | done]. Qed.

Lemma relevel_trans b1 b2 b3 : relevel b1 b2 -> relevel b2 b3 -> relevel b1 b3.
Proof. intros [E1 S1] [E2 S2]. split; [|congruence]. rewrite E2, E1. done. Qed.

Lemma relevel_fields b b' : relevel b b' ->
  bN b' = bN b /\ r0 b' = r0 b /\ hdr b' = hdr b /\ level0_data b' = level0_data b
  /\ level0_head b' = level0_head b /\ level0_size b' = level0_size b /\ sample_id_head b' = sample_id_head b
  /\ tmap b' = tmap b /\ active b' = active b /\ shape <$> levels b' = shape <$> levels b.
Proof. intros [-> Hs]. cbn in *. done. Qed.

(** The geometry that the summaries rely on. *)
Definition geometry (b : bufsig) : Prop :=
  0 < bN b < 2 ^ 59 /\ 0 < r0 b
  /\ levels_wf (bN b) (r0 b) (shape <$> levels b)
  /\ (exists d, level0_data b = Some d /\ bN b * bits b <= bits8 d)
  /\ ((h_element_type (hdr b) = JSDRV_DATA_TYPE_FLOAT /\ bits b = 32)
      \/ (h_element_type (hdr b) = JSDRV_DATA_TYPE_UINT /\ (bits b = 1 \/ bits b = 4))).
Definition is_float (b : bufsig) : bool := JSDRV_DATA_TYPE_FLOAT =? h_element_type (hdr b).

Lemma geometry_relevel b b' : relevel b b' -> geometry b -> geometry b'.
Proof. intros [-> Hs] Hg. cbn in Hs. unfold geometry, bits in *. cbn. by rewrite Hs. Qed.
Lemma is_float_relevel b b' : relevel b b' -> is_float b' = is_float b.
Proof. by intros [-> _]. Qed.

Lemma lookup_level b i : geometry b -> 0 <= i < 32 ->
  exists lvl, ld (levels b) i = Ok lvl /\ levels b !! Z.to_nat i = Some lvl
    /\ (shape <$> levels b) !! Z.to_nat i = Some (shape lvl)
    /\ level_wf (bN b) (r0 b) (shape <$> levels b) (Z.to_nat i) (shape lvl).
Proof.
  intros (_ & _ & (Hl & _ & Hw) & _) Hi. unfold len in Hl. rewrite length_fmap in Hl.
  destruct (ld_in_range (levels b) i) as (lvl & -> & Hlk); [unfold len; lia|].
  assert ((shape <$> levels b) !! Z.to_nat i = Some (shape lvl)) as Hs by (by rewrite list_lookup_fmap, Hlk).
  exists lvl. split_and!; [done | done | done |]. by apply Hw.
Qed.

(** *** One entry of level 0 *)

Lemma ld_bounded (m : list Z) i : 0 <= i < len m -> exists v, ld m i = Ok v.
Proof. intros Hi. destruct (ld_in_range (A := Z) m i Hi) as (v & Hv & _). eauto. Qed.

Lemma ld32_ok m i : 0 <= i -> 4 * i + 4 <= len m -> exists v, ld32 m i = Ok v.
Proof.
  intros Hi Hm. unfold ld32.
  destruct (ld_bounded m (4 * i)) as [? ->]; [lia|]. destruct (ld_bounded m (4 * i + 1)) as [? ->]; [lia|].
  destruct (ld_bounded m (4 * i + 2)) as [? ->]; [lia|]. destruct (ld_bounded m (4 * i + 3)) as [? ->]; [lia|].
  cbn. eauto.
Qed.

Lemma f32_step_safe N src a : 0 < N < 2 ^ 59 -> N * 32 <= bits8 src ->
  0 <= fa_index a <= N -> is_s 64 (fa_x1 a) -> wf_i128 (fa_x2 a) ->
  safe true (f32_step N src a) (fun a' => 0 <= fa_index a' <= N /\ is_s 64 (fa_x1 a') /\ wf_i128 (fa_x2 a')
    /\ (fa_count a' = fa_count a \/ fa_count a' = u64 (fa_count a + 1))).
Proof.
  intros HN Hsrc Hi Hx1 Hx2. unfold f32_step.
  eapply (safe_bind _ _ _ (fun i => 0 <= i < N)).
  { case_if; [|cbn; lia]. unfold umod. simpl_cmp. cbn. apply Z.mod_pos_bound. lia. }
  intros i Hi'. unfold bits8 in Hsrc. destruct (ld32_ok src i) as [w ->]; [lia | lia |]. rewrite bind_Ok. cbn beta zeta.
  rewrite (uwrap_small 64 (i + 1)) by width_lia.
  destruct (f_is_nan _); [cbn [safe fa_index fa_x1 fa_x2 fa_count]; split; [lia|]; split; [done|]; split; [done | by left]|].
  eapply safe_bind; [apply f_cast_safe|]. intros x Hx. cbn beta in *.
  eapply safe_bind; [apply chk_i_safe|]. intros x1 [-> Hs]. cbn beta.
  eapply safe_bind; [apply square_safe; lia|]. intros sq Hsq. cbn [safe fa_index fa_x1 fa_x2 fa_count].
  rewrite add_spec by done. split; [lia|]. split; [done|]. split; [apply of_Z_wf | by right].
Qed.

Lemma u8_sample_ok width src i N : width = 1 \/ width = 4 -> 0 <= i < N -> N * width <= bits8 src ->
  exists x, u8_sample width src i = Ok x /\ 0 <= x <= 15.
Proof.
  intros [-> | ->] Hi Hb; unfold u8_sample, bits8 in *; cbn [Z.eqb Pos.eqb].
  - rewrite shiftr3, land7. destruct (ld_bounded src (i / 8)) as [v ->]; [div_lia|]. rewrite bind_Ok.
    eexists; split; [done|]. rewrite (Z.land_ones _ 1) by lia. change (2 ^ 1) with 2. div_lia.
  - rewrite (Z.shiftr_div_pow2 i 1) by lia. change (2 ^ 1) with 2.
    destruct (ld_bounded src (i / 2)) as [v ->]; [div_lia|]. rewrite bind_Ok.
    eexists; split; [done|]. rewrite (Z.land_ones _ 4) by lia. change (2 ^ 4) with 16. div_lia.
Qed.

Lemma u8_step_ok N width src a : width = 1 \/ width = 4 -> 0 < N < 2 ^ 59 -> N * width <= bits8 src ->
  0 <= ua_index a <= N -> 0 <= ua_x1 a < 2 ^ 63 - 15 -> wf_i128 (ua_x2 a) ->
  safe false (u8_step N width src a) (fun a' => 0 <= ua_index a' <= N /\ ua_x1 a <= ua_x1 a' <= ua_x1 a + 15 /\ wf_i128 (ua_x2 a')).
Proof.
  intros Hw HN Hsrc Hi Hx1 Hx2. unfold u8_step.
  eapply (safe_bind _ _ _ (fun i => 0 <= i < N)).
  { case_if; [|cbn; lia]. unfold umod. simpl_cmp. cbn. apply Z.mod_pos_bound. lia. }
  intros i Hi'. destruct (u8_sample_ok width src i N Hw Hi' Hsrc) as (x & -> & Hx). rewrite bind_Ok.
  rewrite square_spec, bind_Ok by lia. cbn [safe ua_index ua_x1 ua_x2]. rewrite !uwrap_small by width_lia.
  rewrite add_spec by (done || apply of_Z_wf). split; [lia|]. split; [lia | apply of_Z_wf].
Qed.

Lemma get_by_idx_safe b index incr : geometry b -> 0 <= index < bN b -> 0 < incr <= bN b ->
  safe (is_float b) (summary_level0_get_by_idx b index incr) (fun _ => True).
Proof.
  intros (HN & _ & _ & (d & Hd & Hb) & Hty) Hi Hinc. unfold summary_level0_get_by_idx, assert.
  simpl_cmp. rewrite !bind_Ok. simpl_cmp. unfold level0. rewrite Hd. unfold is_float.
  destruct Hty as [[Ht Hw]|[Ht Hw]]; rewrite Ht.
  - change (JSDRV_DATA_TYPE_FLOAT =? JSDRV_DATA_TYPE_FLOAT) with true. cbv iota. rewrite bind_Ok. rewrite Hw in Hb.
    eapply (safe_bind _ _ _ (fun a => 0 <= fa_index a <= bN b /\ is_s 64 (fa_x1 a) /\ wf_i128 (fa_x2 a) /\ 0 <= fa_count a <= incr)).
    + eapply safe_mono; [apply (safe_iter true (f32_step (bN b) d)
        (fun i a => 0 <= fa_index a <= bN b /\ is_s 64 (fa_x1 a) /\ wf_i128 (fa_x2 a) /\ 0 <= fa_count a <= incr - Z.of_nat i))|].
      * intros i a (H1 & H2 & H3 & H4). eapply safe_mono; [by apply f32_step_safe|]. cbn beta.
        intros a' (H1' & H2' & H3' & H4'). split; [done|]. split; [done|]. split; [done|].
        destruct H4' as [-> | ->]; [lia|]. rewrite uwrap_small by width_lia. lia.
      * cbn [fa_index fa_x1 fa_x2 fa_count]. split; [lia|]. split; [width_lia|]. split; [by apply (of_Z_wf 0)|]. lia.
      * cbn beta. intros a (H1 & H2 & H3 & H4). split; [done|]. split; [done|]. split; [done | lia].
    + cbn beta. intros a (H1 & H2 & H3 & H4). case_if; [done|].
      eapply safe_bind; [apply std_safe; [done | done | width_lia]|]. done.
  - change (JSDRV_DATA_TYPE_FLOAT =? JSDRV_DATA_TYPE_UINT) with false. cbv iota. rewrite bind_Ok.
    eapply (safe_bind _ _ _ (fun a => 0 <= ua_index a <= bN b /\ 0 <= ua_x1 a < 2 ^ 63 /\ wf_i128 (ua_x2 a))).
    + eapply safe_mono; [apply (safe_iter false (u8_step (bN b) (bits b) d)
        (fun i a => 0 <= ua_index a <= bN b /\ 0 <= ua_x1 a <= 15 * (incr - Z.of_nat i) /\ wf_i128 (ua_x2 a)))|].
      * intros i a (H1 & H2 & H3). eapply safe_mono; [apply u8_step_ok; done || lia|]. cbn beta.
        intros a' (H1' & H2' & H3'). split; [done|]. split; [lia | done].
      * cbn [ua_index ua_x1 ua_x2]. split; [lia|]. split; [lia|]. by apply (of_Z_wf 0).
      * cbn beta. intros a (H1 & H2 & H3). split; [done|]. split; [lia | done].
    + cbn beta. intros a (H1 & H2 & H3). rewrite swrap_small by width_lia.
      destruct (compute_std_total (ua_x1 a) (ua_x2 a) incr 0) as [f ->]; [lia | done | width_lia | done].
Qed.

(** *** Entries of the levels *)

(** An allocated level, by its shape. *)
Lemma shape_lookup (b : bufsig) i k r spe n : (shape <$> levels b) !! i = Some (k, r, spe, Some n) ->
  exists lvl d, levels b !! i = Some lvl /\ l_k lvl = k /\ l_r lvl = r /\ samples_per_entry lvl = spe
    /\ l_data lvl = Some d /\ len d = n.
Proof.
  rewrite list_lookup_fmap. destruct (levels b !! i) as [lvl|]; [|done]. cbn. unfold shape.
  destruct (l_data lvl) as [d|] eqn:E; cbn; intros Hs; [|discriminate]. injection Hs as <- <- <- <-. eauto 9.
Qed.

Lemma level_entry_ok (b : bufsig) level idx k r spe n : 0 < level < 32 ->
  (shape <$> levels b) !! Z.to_nat (level - 1) = Some (k, r, spe, Some n) ->
  idx < k -> level_entry b level idx = Ok (Some (level - 1, idx)).
Proof.
  intros Hl Hs Hidx. apply shape_lookup in Hs as (lvl & d & Hlk & <- & _).
  unfold level_entry, assert, JSDRV_BUFSIG_LEVELS_MAX. simpl_cmp. rewrite !bind_Ok.
  rewrite (ld_ok _ _ lvl) by (done || lia). rewrite bind_Ok. by simpl_cmp.
Qed.

Lemma entry_write_ok (b : bufsig) i idx e k r spe n : 0 <= i ->
  (shape <$> levels b) !! Z.to_nat i = Some (k, r, spe, Some n) -> 0 <= idx < n ->
  exists b', entry_write b (Some (i, idx)) e = Ok b' /\ relevel b b'.
Proof.
  intros Hi Hs Hidx. apply shape_lookup in Hs as (lvl & d & Hlk & <- & <- & <- & Hd & <-).
  unfold entry_write. rewrite (ld_ok _ _ lvl) by done. rewrite bind_Ok, Hd, st_ok, bind_Ok by done.
  rewrite st_ok, bind_Ok by (split; [done|]; apply lookup_lt_Some in Hlk; unfold len; lia).
  eexists; split; [done|]. split; [done|]. cbn [levels with_levels]. rewrite list_fmap_insert.
  apply list_insert_id. rewrite list_lookup_fmap, Hlk. unfold shape. cbn [l_k l_r samples_per_entry l_data fmap option_fmap option_map].
  rewrite Hd. cbn. by rewrite len_insert.
Qed.

Lemma entry_read_ok (b : bufsig) i idx k r spe n : 0 <= i ->
  (shape <$> levels b) !! Z.to_nat i = Some (k, r, spe, Some n) -> 0 <= idx < n ->
  exists e, entry_read b (Some (i, idx)) = Ok e.
Proof.
  intros Hi Hs Hidx. apply shape_lookup in Hs as (lvl & d & Hlk & <- & <- & <- & Hd & <-).
  unfold entry_read. rewrite (ld_ok _ _ lvl) by done. rewrite bind_Ok, Hd.
  destruct (ld_in_range d idx Hidx) as (e & -> & _). eauto.
Qed.

Lemma summarize_loop_safe fuel : forall b lvl1 i len',
  geometry b -> (shape <$> levels b) !! 0%nat = Some (l_k lvl1, l_r lvl1, r0 b, Some (l_k lvl1)) ->
  l_k lvl1 * r0 b = bN b -> 0 <= i < l_k lvl1 -> 0 <= len' <= Z.of_nat fuel ->
  safe (is_float b) (summarize_loop fuel b lvl1 i (i * r0 b) len') (relevel b).
Proof.
  induction fuel as [|fuel IH]; intros b lvl1 i len' Hg Hsh HN Hi Hf; cbn [summarize_loop]; case_if.
  - apply relevel_refl.
  - destruct Hg as (_ & Hr & _). lia.
  - apply relevel_refl.
  - pose proof Hg as (HNb & Hr & _). assert (i * r0 b + r0 b <= bN b) by nia.
    rewrite (level_entry_ok b 1 i _ _ _ _ ltac:(lia) Hsh), bind_Ok by lia.
    eapply safe_bind; [apply get_by_idx_safe; [done | nia | nia]|]. intros [cnt e] _. cbn beta iota.
    destruct (entry_write_ok b (1 - 1) i e _ _ _ _ ltac:(lia) Hsh) as (b1 & -> & Hre); [lia |]. rewrite bind_Ok.
    pose proof (relevel_fields _ _ Hre) as (EN & Er & _ & _ & _ & _ & _ & _ & _ & Hs1).
    unfold umod. rewrite (proj2 (Z.eqb_neq (l_k lvl1) 0)), EN, (proj2 (Z.eqb_neq (bN b) 0)) by lia. rewrite !bind_Ok.
    rewrite (uwrap_small 64 (i + 1)), Er, (uwrap_small 64 (i * r0 b + r0 b)) by width_lia.
    rewrite <- (is_float_relevel _ _ Hre).
    eapply (safe_mono _ _ (relevel b1)); [|intros b2 H2; by eapply relevel_trans].
    replace ((i * r0 b + r0 b) mod bN b) with ((i + 1) mod l_k lvl1 * r0 b).
    2: { rewrite <- HN. replace (i * r0 b + r0 b) with ((i + 1) * r0 b) by lia. symmetry. apply Z.mul_mod_distr_r; lia. }
    rewrite <- Er. apply IH; rewrite ?Hs1, ?Er, ?EN; [by eapply geometry_relevel | done | done | | lia].
    apply Z.mod_pos_bound. lia.
Qed.

Lemma combine_entries_ok n : forall (b : bufsig) level idx spe acc k r s,
  0 < level < 32 -> (shape <$> levels b) !! Z.to_nat (level - 1) = Some (k, r, s, Some k) ->
  k < 2 ^ 63 -> 0 <= idx -> idx + Z.of_nat n <= k -> exists acc', combine_entries n b level idx spe acc = Ok acc'.
Proof.
  induction n as [|n IH]; intros b level idx spe acc k r s Hl Hs Hk Hi Hn; cbn [combine_entries]; [eauto|].
  rewrite (level_entry_ok b level idx _ _ _ _ Hl Hs), bind_Ok by lia.
  destruct (entry_read_ok b (level - 1) idx _ _ _ _ ltac:(lia) Hs) as [e ->]; [lia|]. rewrite bind_Ok.
  rewrite uwrap_small by width_lia. eapply IH; [done | exact Hs | lia..].
Qed.

Lemma summarizeN_loop_safe fl fuel : forall (b : bufsig) level dn up i len',
  0 < level < 31 -> 0 < bN b < 2 ^ 59 ->
  (shape <$> levels b) !! Z.to_nat (level - 1) = Some (l_k dn, l_r dn, samples_per_entry dn, Some (l_k dn)) ->
  (shape <$> levels b) !! Z.to_nat level = Some (l_k up, l_r up, samples_per_entry up, Some (l_k up)) ->
  0 < l_r up -> 0 < samples_per_entry dn -> 0 < l_k up ->
  samples_per_entry up = l_r up * samples_per_entry dn ->
  l_k dn * samples_per_entry dn = bN b -> l_k up * samples_per_entry up = bN b ->
  0 <= i < l_k up -> 0 <= len' <= Z.of_nat fuel ->
  safe fl (summarizeN_loop fuel b level dn up i (i * l_r up) len') (relevel b).
Proof.
  induction fuel as [|fuel IH]; intros b level dn up i len' Hl HN Hsd Hsu Hr Hd Hk Hsp Hkd Hku Hi Hf;
    cbn [summarizeN_loop]; case_if.
  - apply relevel_refl.
  - nia.
  - apply relevel_refl.
  - assert (l_k dn = l_k up * l_r up) as Ek by (rewrite Hsp in Hku; nia).
    assert (l_k dn < 2 ^ 59) by nia. assert (i * l_r up + l_r up <= l_k dn) by nia.
    destruct (combine_entries_ok (Z.to_nat (l_r up)) b level (i * l_r up) (samples_per_entry dn) jsdrv_statistics_reset
      _ _ _ ltac:(lia) Hsd) as [acc ->]; [lia | nia | lia |]. rewrite bind_Ok.
    assert (level = level + 1 - 1) as El by lia. rewrite El in Hsu.
    rewrite (level_entry_ok b (level + 1) i _ _ _ _ ltac:(lia) Hsu), bind_Ok by lia.
    destruct (entry_write_ok b (level + 1 - 1) i (jsdrv_statistics_to_entry acc) _ _ _ _ ltac:(lia) Hsu) as (b1 & -> & Hre); [lia|].
    rewrite bind_Ok. rewrite <- El in Hsu.
    pose proof (relevel_fields _ _ Hre) as (EN & _ & _ & _ & _ & _ & _ & _ & _ & Hs1).
    unfold umod. rewrite (proj2 (Z.eqb_neq (l_k up) 0)), (proj2 (Z.eqb_neq (l_k dn) 0)) by nia. rewrite !bind_Ok.
    rewrite (uwrap_small 64 (i + 1)), (uwrap_small 64 (i * l_r up + l_r up)) by width_lia.
    replace ((i * l_r up + l_r up) mod l_k dn) with ((i + 1) mod l_k up * l_r up).
    2: { rewrite Ek. replace (i * l_r up + l_r up) with ((i + 1) * l_r up) by lia. symmetry. apply Z.mul_mod_distr_r; lia. }
    eapply (safe_mono _ _ (relevel b1)); [|intros b2 H2; by eapply relevel_trans].
    apply IH; rewrite ?Hs1, ?EN; try done; [apply Z.mod_pos_bound; lia | nia].
Qed.

Lemma level_wf_some N r l i lvl d : level_wf N r l i (shape lvl) -> l_data lvl = Some d ->
  shape lvl = (l_k lvl, l_r lvl, samples_per_entry lvl, Some (l_k lvl))
  /\ 0 < l_k lvl /\ 0 < l_r lvl /\ 0 < samples_per_entry lvl /\ l_k lvl * samples_per_entry lvl = N
  /\ match i with
     | O => samples_per_entry lvl = r
     | S i' => exists k' r' spe' n', l !! i' = Some (k', r', spe', Some n') /\ samples_per_entry lvl = l_r lvl * spe'
     end.
Proof. unfold shape. intros Hw Hd. rewrite Hd in *. destruct Hw as (E & Hw). cbn. rewrite E. done. Qed.

(** The levels above the first, from [level] on. *)
Lemma summarizeN_safe fl fuel : forall (b : bufsig) level start length,
  0 < level <= 31 -> 32 - level <= Z.of_nat fuel -> geometry b ->
  (exists k r s n, (shape <$> levels b) !! Z.to_nat (level - 1) = Some (k, r, s, Some n) /\ r0 b <= s) ->
  0 <= length <= bN b -> 0 <= start -> start < bN b \/ (start = bN b /\ length < r0 b) ->
  safe fl (summarizeN fuel b level start length) (relevel b).
Proof.
  induction fuel as [|fuel IH]; intros b level start length Hl Hf Hg Hprev Hlen Hst Hend; [lia|]. cbn [summarizeN].
  destruct (lookup_level b (level - 1) Hg) as (dn & -> & _ & Hsd & Hwd); [lia|].
  destruct (lookup_level b level Hg) as (up & -> & _ & Hsu & Hwu); [lia|]. rewrite !bind_Ok.
  destruct (l_data up) as [du|] eqn:Edu; [|apply relevel_refl].
  destruct Hprev as (k & r & s & n & Hp & Hs). rewrite Hsd in Hp. injection Hp as _ _ <- Hdata.
  assert (exists dd, l_data dn = Some dd) as [dd Edd] by (destruct (l_data dn); [eauto | done]).
  destruct (level_wf_some _ _ _ _ _ _ Hwd Edd) as (Ed & Hkd0 & Hrd & Hspd & HNd & _).
  destruct (level_wf_some _ _ _ _ _ _ Hwu Edu) as (Eu & Hku0 & Hru & Hspu & HNu & Hpu).
  replace (Z.to_nat level) with (S (Z.to_nat (level - 1))) in Hpu by lia. destruct Hpu as (k' & r' & s' & n' & Hlk & Esp).
  rewrite Hsd in Hlk. assert (samples_per_entry dn = s') as <- by (rewrite Ed in Hlk; congruence).
  assert (level < 31) as Hl31.
  { destruct Hg as (_ & _ & (_ & H31 & _) & _). destruct (Z.eq_dec level 31) as [->|]; [|lia].
    rewrite Eu in Hsu. by specialize (H31 _ _ _ _ Hsu). }
  pose proof Hg as (HN & Hr0 & _).
  unfold udiv. rewrite (proj2 (Z.eqb_neq (samples_per_entry up) 0)), (proj2 (Z.eqb_neq (samples_per_entry dn) 0)) by lia.
  rewrite !bind_Ok. set (i := start / samples_per_entry up).
  assert (0 <= i /\ i * samples_per_entry up <= start < i * samples_per_entry up + samples_per_entry up) as [Hi0 Hi].
  { unfold i. pose proof (Z.div_mod start (samples_per_entry up) ltac:(lia)).
    pose proof (Z.mod_pos_bound start (samples_per_entry up) ltac:(lia)). pose proof (Z.div_pos start (samples_per_entry up)). lia. }
  clearbody i. rewrite (uwrap_small 64 (i * _)) by width_lia.
  rewrite (uwrap_small 64 (start - _)), (uwrap_small 64 (length + _)) by width_lia.
  assert (i * samples_per_entry up / samples_per_entry dn = i * l_r up) as ->.
  { rewrite Esp, Z.mul_assoc. apply Z.div_mul. lia. }
  eapply (safe_bind _ _ _ (relevel b)).
  - destruct Hend as [Hlt|[-> Hlt]].
    + eapply summarizeN_loop_safe; rewrite <- ?Ed, <- ?Eu; try done; nia.
    + assert (samples_per_entry up * l_k up = bN b) by lia.
      assert (i = l_k up) as -> by nia.
      assert (length < samples_per_entry up) by nia.
      match goal with |- context [summarizeN_loop ?f] => destruct f end; cbn [summarizeN_loop]; simpl_cmp; apply relevel_refl.
  - intros b1 Hre. pose proof (relevel_fields _ _ Hre) as (EN & Er & _ & _ & _ & _ & _ & _ & _ & Hs1).
    eapply (safe_mono _ _ (relevel b1)); [|intros b2 H2; by eapply relevel_trans].
    apply IH; rewrite ?EN, ?Er; try done; [lia | lia | by eapply geometry_relevel |].
    rewrite Hs1. replace (level + 1 - 1) with level by lia. rewrite Hsu, Eu. do 4 eexists. split; [done | nia].
Qed.

(** Summarizing [length] samples from a place of the ring.  A start behind the last sample is
    what a ring that was filled to its end exactly leaves; it is harmless for fewer samples
    than a level 1 entry has. *)
Lemma summarize_safe (b : bufsig) start length : geometry b -> 0 <= length <= bN b -> 0 <= start ->
  start < bN b \/ (start = bN b /\ length < r0 b) ->
  safe (is_float b) (summarize b start length) (relevel b).
Proof.
  intros Hg Hlen Hst Hend. unfold summarize.
  destruct (lookup_level b 0 Hg) as (lvl1 & -> & _ & Hs & Hw); [lia|]. rewrite bind_Ok.
  destruct (l_data lvl1) as [d|] eqn:Ed; [|apply relevel_refl].
  destruct (level_wf_some _ _ _ _ _ _ Hw Ed) as (Es & Hk & Hr & Hsp & HN & E0). change (Z.to_nat 0) with 0%nat in *. cbv iota in E0.
  rewrite E0 in *. pose proof Hg as (HNb & Hr0 & _). unfold udiv. simpl_cmp. rewrite bind_Ok. cbn beta zeta.
  set (i := start / r0 b).
  assert (0 <= i /\ i * r0 b <= start < i * r0 b + r0 b) as [Hi0 Hi].
  { unfold i. pose proof (Z.div_mod start (r0 b) ltac:(lia)).
    pose proof (Z.mod_pos_bound start (r0 b) ltac:(lia)). pose proof (Z.div_pos start (r0 b)). lia. }
  clearbody i. rewrite (uwrap_small 64 (i * _)), (uwrap_small 64 (start - _)), (uwrap_small 64 (length + _)) by width_lia.
  rewrite Es in Hs.
  eapply (safe_bind _ _ _ (relevel b)).
  - destruct Hend as [Hlt|[-> Hlt]].
    + apply summarize_loop_safe; done || nia.
    + assert (i = l_k lvl1) as -> by nia.
      match goal with |- context [summarize_loop ?f] => destruct f end; cbn [summarize_loop]; simpl_cmp; apply relevel_refl.
  - intros b1 Hre. pose proof (relevel_fields _ _ Hre) as (EN & Er & _ & _ & _ & _ & _ & _ & _ & Hs1).
    eapply (safe_mono _ _ (relevel b1)); [|intros b2 H2; by eapply relevel_trans].
    apply summarizeN_safe; rewrite ?EN, ?Er; try done; [by eapply geometry_relevel |].
    rewrite Hs1. change (Z.to_nat (1 - 1)) with 0%nat. rewrite Hs. do 4 eexists. split; [done | lia].
Qed.
End Summary.
