(* ===== verification/BufferRing.v ===== *)
(** * What the sample buffer holds (theorems on src/buffer_signal.c)

    The abstraction of the buffer is the list of the samples it holds, oldest first, and the
    next sample id.  Receiving a message refines an operation on that list, and a request for
    samples returns a part of it. *)

From S2P Require Import Prelude Float Cstr ErrorCode Time Tmap I128 Statistics BufferBits BufferSignal BufferSummary.

(** A sample is its bits. *)
Definition sample (m : list Z) (width i : Z) : list bool :=
  (fun j => get_bit m (i * width + Z.of_nat j)) <$> seq 0 (Z.to_nat width).

Definition samples_of (m : list Z) (width n : Z) : list (list bool) :=
  (fun i => sample m width (Z.of_nat i)) <$> seq 0 (Z.to_nat n).

Lemma sample_ext m m' width i i' : (forall j, 0 <= j < width -> get_bit m (i * width + j) = get_bit m' (i' * width + j)) ->
  sample m width i = sample m' width i'.
Proof. intros H. apply list_fmap_ext. intros j x Hx. apply lookup_seq in Hx as [-> ?]. apply H. lia. Qed.

(** ** The ring *)

(** [width] bits each, [n] places. *)
Record ring := mk_ring { g_data : list Z; g_N : Z; g_width : Z; g_head : Z; g_size : Z }.

Definition ring_wf (g : ring) : Prop :=
  0 < g_N g /\ 0 < g_width g /\ g_N g * g_width g <= bits8 (g_data g) /\ bits8 (g_data g) < 2 ^ 63
  /\ 0 <= g_size g <= g_N g /\ 0 <= g_head g <= g_N g /\ (g_size g < g_N g -> g_head g = g_size g).

Definition ring_tail (g : ring) : Z := if negb (g_size g =? g_N g) then 0 else g_head g.
Definition ring_list (g : ring) : list (list bool) :=
  (fun i => sample (g_data g) (g_width g) ((ring_tail g + Z.of_nat i) mod g_N g)) <$> seq 0 (Z.to_nat (g_size g)).

(** [new] written from [head] on, around the end. *)
Definition ring_written (N width head : Z) (m m' : list Z) (new : list (list bool)) : Prop :=
  len m' = len m
  /\ (forall i x, new !! i = Some x -> sample m' width ((head + Z.of_nat i) mod N) = x)
  /\ (forall p, 0 <= p < N -> (forall i, 0 <= i < len new -> p <> (head + i) mod N) ->
        sample m' width p = sample m width p).

Lemma ring_pos g i : ring_wf g -> 0 <= i < g_size g ->
  (ring_tail g + i) mod g_N g = (g_head g + (g_N g - g_size g + i)) mod g_N g.
Proof.
  intros (HN & _ & _ & _ & Hs & Hh & Hz) Hi. unfold ring_tail. destruct (g_size g =? g_N g) eqn:E; bool_facts; cbn [negb].
  - f_equal. lia.
  - rewrite Hz by lia. replace (g_size g + (g_N g - g_size g + i)) with (i + 1 * g_N g) by lia.
    by rewrite Z.mod_add by lia.
Qed.

Lemma ring_list_lookup g i : ring_wf g -> (i < Z.to_nat (g_size g))%nat ->
  ring_list g !! i = Some (sample (g_data g) (g_width g) ((g_head g + (g_N g - g_size g + Z.of_nat i)) mod g_N g)).
Proof.
  intros Hw Hi. unfold ring_list. rewrite list_lookup_fmap, lookup_seq_lt by done. cbn [fmap option_fmap option_map].
  do 2 f_equal. rewrite Nat.add_0_l. apply ring_pos; [done | lia].
Qed.

Lemma length_ring_list g : length (ring_list g) = Z.to_nat (g_size g).
Proof. unfold ring_list. by rewrite length_fmap, length_seq. Qed.

Lemma mod_neq N a b : 0 < N -> 0 < b - a < N -> a mod N <> b mod N.
Proof.
  intros HN H E. assert ((b - a) mod N = 0) as E0.
  { rewrite Zminus_mod, E, Z.sub_diag. by rewrite Z.mod_0_l by lia. }
  rewrite Z.mod_small in E0; lia.
Qed.

(** Writing [new] at the head appends it to the list, and the oldest samples give way. *)
Lemma ring_push g m' new head' :
  ring_wf g -> len new <= g_N g -> ring_written (g_N g) (g_width g) (g_head g) (g_data g) m' new ->
  0 <= head' <= g_N g -> head' mod g_N g = (g_head g + len new) mod g_N g ->
  (g_size g + len new < g_N g -> head' = g_head g + len new) ->
  let g' := mk_ring m' (g_N g) (g_width g) head' (Z.min (g_N g) (g_size g + len new)) in
  ring_wf g' /\ ring_list g' = lastn (g_N g) (ring_list g ++ new).
Proof.
  intros Hw Hk (Hl & Hnew & Hold) Hh' Hmod Hsm g'.
  pose proof Hw as (HN & Hwd & Hd & Hb & Hs & Hh & Hz). pose proof (len_nonneg new).
  assert (ring_wf g') as Hw'.
  { unfold ring_wf, g', bits8 in *; cbn. rewrite Hl. split_and!; try lia. }
  split; [done|]. apply list_eq. intros i. unfold lastn. rewrite lookup_drop, length_app, length_ring_list.
  unfold len in *. destruct (decide (i < Z.to_nat (g_size g'))%nat) as [Hi|Hi].
  - rewrite ring_list_lookup by done. unfold g' in *; cbn [g_data g_N g_width g_head g_size] in *.
    set (j := (Z.to_nat (g_size g) + length new - Z.to_nat (g_N g) + i)%nat).
    assert (Z.of_nat j = g_size g + Z.of_nat (length new) - Z.min (g_N g) (g_size g + Z.of_nat (length new)) + Z.of_nat i) as Ej by lia.
    assert ((head' + (g_N g - Z.min (g_N g) (g_size g + Z.of_nat (length new)) + Z.of_nat i)) mod g_N g
            = (g_head g + (g_N g - g_size g + Z.of_nat j)) mod g_N g) as ->.
    { rewrite <- (Z.add_mod_idemp_l head'), Hmod, Z.add_mod_idemp_l by lia. f_equal. lia. }
    destruct (decide (j < Z.to_nat (g_size g))%nat) as [Hj|Hj].
    + rewrite lookup_app_l by (rewrite length_ring_list; done). rewrite ring_list_lookup by done. f_equal.
      apply Hold; [apply Z.mod_pos_bound; lia|]. intros i' Hi'. apply not_eq_sym, mod_neq; lia.
    + rewrite lookup_app_r by (rewrite length_ring_list; lia). rewrite length_ring_list.
      destruct (lookup_lt_is_Some_2 new (j - Z.to_nat (g_size g))) as [x Hx]; [lia|]. rewrite Hx. f_equal.
      rewrite <- (Hnew _ _ Hx). f_equal.
      replace (g_head g + (g_N g - g_size g + Z.of_nat j)) with (g_head g + Z.of_nat (j - Z.to_nat (g_size g)) + 1 * g_N g) by lia.
      by rewrite Z.mod_add by lia.
  - rewrite !lookup_ge_None_2; [done | |].
    + rewrite length_app, length_ring_list. unfold g' in Hi; cbn in Hi. lia.
    + rewrite length_ring_list. lia.
Qed.

(** The list depends on the head only up to the size of the ring. *)
Lemma ring_rebase g head' : ring_wf g -> 0 <= head' <= g_N g -> head' mod g_N g = g_head g mod g_N g ->
  (g_size g < g_N g -> head' = g_size g) ->
  let g' := mk_ring (g_data g) (g_N g) (g_width g) head' (g_size g) in
  ring_wf g' /\ ring_list g' = ring_list g.
Proof.
  intros Hw Hh Hm Hs g'. pose proof Hw as (HN & Hwd & Hd & Hb & Hsz & Hhd & Hz).
  assert (ring_wf g') as Hw' by (unfold ring_wf, g'; cbn; split_and!; lia || done).
  split; [done|]. apply list_eq. intros i. destruct (decide (i < Z.to_nat (g_size g))%nat).
  - rewrite !ring_list_lookup by done. unfold g'; cbn. do 2 f_equal.
    by rewrite <- Z.add_mod_idemp_l, Hm, Z.add_mod_idemp_l by lia.
  - rewrite !lookup_ge_None_2; rewrite ?length_ring_list; unfold g'; cbn [g_size]; done || lia.
Qed.

(** ** Writes, as samples *)

Definition slice (m : list Z) (width o n : Z) : list (list bool) :=
  (fun i => sample m width (o + Z.of_nat i)) <$> seq 0 (Z.to_nat n).

Lemma len_slice m width o n : 0 <= n -> len (slice m width o n) = n.
Proof. intros Hn. unfold len, slice. rewrite length_fmap, length_seq. lia. Qed.

Lemma len_slice_nat m width o n : 0 <= n -> length (slice m width o n) = Z.to_nat n.
Proof. intros Hn. unfold slice. by rewrite length_fmap, length_seq. Qed.

Lemma samples_of_slice m width n : samples_of m width n = slice m width 0 n.
Proof. reflexivity. Qed.

Lemma slice_app m width o n k : 0 <= n -> 0 <= k -> slice m width o n ++ slice m width (o + n) k = slice m width o (n + k).
Proof.
  intros Hn Hk. unfold slice. rewrite Z2Nat.inj_add, seq_app, fmap_app by lia. f_equal.
  rewrite Nat.add_0_l. rewrite <- (Nat.add_0_r (Z.to_nat n)). rewrite <- fmap_add_seq, <- list_fmap_compose.
  apply list_fmap_ext. intros i x _. cbn. f_equal. lia.
Qed.

Lemma bits_set_sample_out m m' d n f width p : bits_set m m' d n f -> 0 <= p -> 0 < width ->
  p * width + width <= d \/ d + n <= p * width -> sample m' width p = sample m width p.
Proof.
  intros [_ H] Hp Hw Hd. apply sample_ext. intros j Hj. rewrite H by nia.
  destruct ((d <=? p * width + j) && _) eqn:E; [|done]. bool_facts. lia.
Qed.

(** Bits that come from [src], at whole samples. *)
Lemma written_copy N width head m m' src o k :
  0 < N -> 0 < width -> 0 <= head -> 0 <= k -> head + k <= N -> 0 <= o ->
  bits_set m m' (head * width) (k * width) (fun j => get_bit src (o * width + j)) ->
  ring_written N width head m m' (slice src width o k).
Proof.
  intros HN Hw Hh Hk HkN Ho Hset. pose proof Hset as [Hl Hb]. split; [done|]. split.
  - intros i x Hx. unfold slice in Hx. rewrite list_lookup_fmap in Hx.
    destruct (seq 0 (Z.to_nat k) !! i) as [i'|] eqn:Ei; [|done]. apply lookup_seq in Ei as [-> Hi].
    cbn in Hx. simplify_eq. rewrite Z.mod_small by lia. apply sample_ext. intros j Hj.
    rewrite Hb by nia. rewrite (proj2 (Z.leb_le _ _)), (proj2 (Z.ltb_lt _ _)) by nia. cbn [andb]. f_equal. lia.
  - intros p Hp Hout. rewrite len_slice in Hout by done.
    eapply bits_set_sample_out; [done | lia | done |].
    destruct (Z.lt_ge_cases p head); [left; nia|]. right.
    destruct (Z.lt_ge_cases p (head + k)) as [Hlt|]; [|nia].
    exfalso. apply (Hout (p - head)); [lia|]. rewrite Z.mod_small by lia. lia.
Qed.

Definition repeated (x : list bool) (n : Z) : list (list bool) := replicate (Z.to_nat n) x.
Lemma len_repeated x n : 0 <= n -> len (repeated x n) = n.
Proof. intros. unfold len, repeated. rewrite length_replicate. lia. Qed.

(** The same bits for each sample. *)
Lemma written_fill N width head m m' f k :
  0 < N -> 0 < width -> 0 <= head -> 0 <= k -> head + k <= N ->
  (forall i j, 0 <= i -> 0 <= j < width -> f (i * width + j) = f j) ->
  bits_set m m' (head * width) (k * width) f ->
  ring_written N width head m m' (repeated ((fun j => f (Z.of_nat j)) <$> seq 0 (Z.to_nat width)) k).
Proof.
  intros HN Hw Hh Hk HkN Hf Hset. pose proof Hset as [Hl Hb]. split; [done|]. split.
  - intros i x Hx. apply lookup_replicate in Hx as [-> Hi]. rewrite Z.mod_small by lia. unfold sample.
    apply list_fmap_ext. intros j y Hy. apply lookup_seq in Hy as [-> Hj]. rewrite Nat.add_0_l.
    rewrite Hb by nia. rewrite (proj2 (Z.leb_le _ _)), (proj2 (Z.ltb_lt _ _)) by nia. cbn [andb].
    rewrite <- (Hf (Z.of_nat i) (Z.of_nat j)) by lia. f_equal. lia.
  - intros p Hp Hout. rewrite len_repeated in Hout by done.
    eapply bits_set_sample_out; [done | lia | done |].
    destruct (Z.lt_ge_cases p head); [left; nia|]. right.
    destruct (Z.lt_ge_cases p (head + k)) as [Hlt|]; [|nia].
    exfalso. apply (Hout (p - head)); [lia|]. rewrite Z.mod_small by lia. lia.
Qed.

(** ** Bytes and words *)

Lemma st_byte m i v : 0 <= i < len m ->
  exists m', st m i (u8 v) = Ok m' /\ bits_set m m' (8 * i) 8 (Z.testbit v).
Proof.
  intros Hi. rewrite st_ok by done. eexists; split; [done|]. split; [apply len_insert|].
  intros j Hj. unfold get_bit. destruct (decide (Z.to_nat (j / 8) = Z.to_nat i)) as [E|E].
  - rewrite E, list_lookup_insert_eq by (unfold len in *; lia).
    assert (j / 8 = i) by (pose proof (Z.div_pos j 8); lia). pose proof (Z.div_mod j 8 ltac:(lia)).
    pose proof (Z.mod_pos_bound j 8 ltac:(lia)). simpl_cmp. cbn [andb].
    unfold uwrap. rewrite Z.mod_pow2_bits_low by lia. f_equal. lia.
  - rewrite list_lookup_insert_ne by done. destruct ((8 * i <=? j) && _) eqn:E1; [|done]. bool_facts. div_lia.
Qed.

Lemma testbit_div v n j : 0 <= n -> 0 <= j -> Z.testbit (v / 2 ^ n) j = Z.testbit v (n + j).
Proof. intros. rewrite <- Z.shiftr_div_pow2, Z.shiftr_spec by lia. f_equal. lia. Qed.

Lemma bits_set_ext m m' d n f g : (forall j, 0 <= j < n -> f j = g j) -> bits_set m m' d n f -> bits_set m m' d n g.
Proof.
  intros H [Hl Hb]. split; [done|]. intros j Hj. rewrite Hb by done.
  destruct ((d <=? j) && _) eqn:E; [|done]. bool_facts. apply H. lia.
Qed.

Lemma bits_set_join m1 m2 m3 d n n' v : 0 <= n -> 0 <= n' ->
  bits_set m1 m2 d n (Z.testbit v) -> bits_set m2 m3 (d + n) n' (Z.testbit (v / 2 ^ n)) ->
  bits_set m1 m3 d (n + n') (Z.testbit v).
Proof. intros Hn Hn' S1 S2. apply (bits_set_trans _ _ _ _ _ _ _ _ _ S1 S2); [done | done | done |]. intros j Hj. symmetry. apply testbit_div; lia. Qed.

Lemma st32_bits m i v : 0 <= i -> 4 * i + 4 <= len m ->
  exists m', st32 m i v = Ok m' /\ bits_set m m' (32 * i) 32 (Z.testbit v).
Proof.
  intros Hi Hm. unfold st32.
  destruct (st_byte m (4 * i) v) as (m1 & -> & S1); [lia|]. rewrite bind_Ok. pose proof S1 as [L1 _].
  destruct (st_byte m1 (4 * i + 1) (v / 2 ^ 8)) as (m2 & -> & S2); [lia|]. rewrite bind_Ok. pose proof S2 as [L2 _].
  destruct (st_byte m2 (4 * i + 2) (v / 2 ^ 16)) as (m3 & -> & S3); [lia|]. rewrite bind_Ok. pose proof S3 as [L3 _].
  destruct (st_byte m3 (4 * i + 3) (v / 2 ^ 24)) as (m4 & -> & S4); [lia|]. exists m4. split; [done|].
  replace (32 * i) with (8 * (4 * i)) by lia.
  apply (bits_set_join m m2 m4 _ 16 16); [lia | lia | |].
  - apply (bits_set_join m m1 m2 _ 8 8); [lia | lia | done |].
    by replace (8 * (4 * i) + 8) with (8 * (4 * i + 1)) by lia.
  - replace (8 * (4 * i) + 16) with (8 * (4 * i + 2)) by lia.
    apply (bits_set_join m2 m3 m4 _ 8 8); [lia | lia | done |]. rewrite Z.div_div by lia.
    by replace (8 * (4 * i + 2) + 8) with (8 * (4 * i + 3)) by lia.
Qed.

(** ** Receiving *)

Definition nan_sample : list bool := (fun j => Z.testbit F32_NAN (Z.of_nat j)) <$> seq 0 32.
Definition zero_sample (width : Z) : list bool := (fun _ => false) <$> seq 0 (Z.to_nat width).
(** What a skipped sample is replaced by. *)
Definition fill_sample (fl : bool) (width : Z) : list bool := if fl then nan_sample else zero_sample width.

(** *** Filling a gap *)

(** [m'] holds the ring with [k] samples [x] appended, for some head. *)
Definition filled (g : ring) (m' : list Z) (x : list bool) (k : Z) : Prop :=
  exists h', h' mod g_N g = (g_head g + k) mod g_N g
    /\ let g' := mk_ring m' (g_N g) (g_width g) h' (Z.min (g_N g) (g_size g + k)) in
       ring_wf g' /\ ring_list g' = lastn (g_N g) (ring_list g ++ repeated x k).

Lemma len_ring_list g : ring_wf g -> len (ring_list g) = g_size g.
Proof. intros (_ & _ & _ & _ & Hs & _). unfold len. rewrite length_ring_list. lia. Qed.

Lemma filled_0 g x : ring_wf g -> filled g (g_data g) x 0.
Proof.
  intros Hw. exists (g_head g). rewrite !Z.add_0_r. split; [done|]. pose proof Hw as (_ & _ & _ & _ & Hs & _).
  rewrite Z.min_r by lia. destruct g. cbn in *. split; [done|]. rewrite app_nil_r, lastn_all; [done|].
  rewrite len_ring_list by done. cbn. lia.
Qed.

Lemma repeated_app x n k : 0 <= n -> 0 <= k -> repeated x n ++ repeated x k = repeated x (n + k).
Proof. intros. unfold repeated. by rewrite Z2Nat.inj_add, replicate_add by lia. Qed.

(** A write of [k] samples that ends at most at the end of the ring, then more. *)
Lemma filled_step g m1 m' x k n h1 : ring_wf g -> 0 <= k <= g_N g -> 0 <= n ->
  ring_written (g_N g) (g_width g) (g_head g) (g_data g) m1 (repeated x k) ->
  0 <= h1 <= g_N g -> h1 mod g_N g = (g_head g + k) mod g_N g -> (g_size g + k < g_N g -> h1 = g_head g + k) ->
  (ring_wf (mk_ring m1 (g_N g) (g_width g) h1 (Z.min (g_N g) (g_size g + k))) ->
   filled (mk_ring m1 (g_N g) (g_width g) h1 (Z.min (g_N g) (g_size g + k))) m' x n) ->
  filled g m' x (k + n).
Proof.
  intros Hw Hk Hn Hwr Hh1 Hm1 Hs1 Hmore. pose proof Hw as (HN & _).
  assert (len (repeated x k) = k) as Hl by (apply len_repeated; lia).
  destruct (ring_push g m1 (repeated x k) h1) as [Hw1 Hl1]; rewrite ?Hl; try done; [lia|]. rewrite Hl in Hw1, Hl1.
  destruct (Hmore Hw1) as (h' & Hm & Hw' & Hl'). cbn [g_N g_data g_width g_head g_size] in *.
  exists h'. split; [rewrite Hm, <- Z.add_mod_idemp_l, Hm1, Z.add_mod_idemp_l by lia; f_equal; lia|].
  replace (Z.min (g_N g) (g_size g + (k + n))) with (Z.min (g_N g) (Z.min (g_N g) (g_size g + k) + n)) by lia.
  split; [done|]. rewrite Hl', Hl1, lastn_app, <- app_assoc, repeated_app by lia. done.
Qed.

Lemma fill_nan_spec n : forall g, ring_wf g -> g_width g = 32 -> g_N g < 2 ^ 59 ->
  exists m', fill_nan n (g_N g) (g_data g) (g_head g) = Ok m' /\ len m' = len (g_data g)
    /\ filled g m' nan_sample (Z.of_nat n).
Proof.
  induction n as [|n IH]; intros g Hw H32 HN59; cbn [fill_nan].
  - exists (g_data g). split; [done|]. split; [done|]. by apply filled_0.
  - pose proof Hw as (HN & _ & Hb & Hb63 & Hs & Hh & Hz).
    set (i := if g_N g <=? g_head g then 0 else g_head g).
    assert (0 <= i < g_N g) as Hi by (unfold i; case_if; lia).
    assert (i mod g_N g = g_head g mod g_N g) as Him.
    { unfold i. case_if; [|done]. assert (g_head g = g_N g) as -> by lia. by rewrite Z_mod_same_full, Z.mod_0_l by lia. }
    assert ((if g_N g <=? g_head g then umod (g_head g) (g_N g) else Ok (g_head g)) = Ok i) as ->.
    { unfold i, umod. case_if; [|done]. simpl_cmp. assert (g_head g = g_N g) as -> by lia. by rewrite Z_mod_same_full. }
    rewrite bind_Ok. unfold bits8 in Hb.
    destruct (st32_bits (g_data g) i F32_NAN) as (m1 & -> & Hset); [lia | nia |]. rewrite bind_Ok.
    pose proof Hset as [Hl1 _]. rewrite uwrap_small by width_lia.
    destruct (ring_rebase g i) as [Hwi Hli]; [done | lia | done | unfold i; case_if; lia |].
    set (gi := mk_ring (g_data g) (g_N g) (g_width g) i (g_size g)) in *.
    assert (ring_written (g_N g) (g_width g) i (g_data g) m1 (repeated nan_sample 1)) as Hwr.
    { rewrite H32. apply (written_fill (g_N g) 32 i (g_data g) m1 (fun j => Z.testbit F32_NAN (j mod 32)) 1); try lia.
      - intros a j Ha Hj. f_equal. rewrite Z.add_comm, Z.mod_add by lia. done.
      - replace (i * 32) with (32 * i) by lia. eapply bits_set_ext, Hset. intros j Hj. f_equal. rewrite Z.mod_small; lia. }
    assert (ring_wf (mk_ring m1 (g_N g) (g_width g) (i + 1) (Z.min (g_N g) (g_size g + 1)))) as Hw1.
    { apply (ring_push gi m1 (repeated nan_sample 1) (i + 1)); change (len (repeated nan_sample 1)) with 1;
        cbn [gi g_N g_data g_width g_head g_size]; done || lia. }
    destruct (IH (mk_ring m1 (g_N g) (g_width g) (i + 1) (Z.min (g_N g) (g_size g + 1))) Hw1 H32 HN59) as (m' & Hm' & Hl' & Hf').
    cbn [g_N g_data g_width g_head g_size] in *. exists m'. split; [done|]. split; [congruence|].
    assert (filled gi m' nan_sample (1 + Z.of_nat n)) as (h' & Hm2 & Hw2 & Hl2).
    { eapply (filled_step gi m1 m' nan_sample 1 (Z.of_nat n) (i + 1)); cbn [gi g_N g_data g_width g_head g_size]; done || lia. }
    replace (Z.of_nat (S n)) with (1 + Z.of_nat n) by lia. exists h'. cbn [gi g_N g_data g_width g_head g_size] in *.
    split; [rewrite Hm2, <- Z.add_mod_idemp_l, Him, Z.add_mod_idemp_l by lia; done|]. split; [done|]. by rewrite Hl2, Hli.
Qed.

Lemma fill_zero_spec g k : ring_wf g -> g_N g < 2 ^ 59 -> 0 <= k <= g_N g ->
  exists m', fill_zero (g_N g) (g_width g) (g_data g) (g_head g) k = Ok m' /\ len m' = len (g_data g)
    /\ filled g m' (zero_sample (g_width g)) k.
Proof.
  intros Hw HN59 Hk. pose proof Hw as (HN & Hwd & Hb & Hb63 & Hs & Hh & Hz). unfold fill_zero.
  assert (forall m m' h n, 0 <= h -> 0 <= n -> h + n <= g_N g -> bits_set m m' (h * g_width g) (n * g_width g) (fun _ => false) ->
    ring_written (g_N g) (g_width g) h m m' (repeated (zero_sample (g_width g)) n)) as Hwr.
  { intros m m' h n Hh0 Hn0 Hhn Hset. by apply (written_fill _ _ _ _ _ (fun _ => false)). }
  rewrite (uwrap_small 64 (g_head g + k)) by width_lia.
  assert (forall n, 0 <= n <= g_N g -> u64 (n * g_width g) = n * g_width g) as Hu.
  { intros n Hn. apply uwrap_small. widths. nia. }
  destruct (g_N g <? g_head g + k) eqn:E; bool_facts.
  - set (k1 := g_N g - g_head g). rewrite (uwrap_small 64 k1), (uwrap_small 64 (k - k1)) by (unfold k1; width_lia).
    rewrite !Hu by (unfold k1; lia).
    destruct (bits_zero_loop_spec (Z.to_nat (k1 * g_width g)) (g_data g) (g_head g * g_width g) (k1 * g_width g))
      as (m1 & Hm1 & Hset1); [unfold k1; nia.. | width_lia |]. unfold bits_zero. rewrite Hm1, bind_Ok.
    pose proof Hset1 as [Hl1 _].
    destruct (bits_zero_loop_spec (Z.to_nat ((k - k1) * g_width g)) m1 0 ((k - k1) * g_width g))
      as (m2 & Hm2 & Hset2); unfold bits8; rewrite ?Hl1; [unfold k1, bits8 in *; nia.. | unfold bits8 in *; width_lia |].
    rewrite Hm2. exists m2. pose proof Hset2 as [Hl2 _]. split; [done|]. split; [congruence|].
    replace k with (k1 + (k - k1)) by lia.
    eapply (filled_step g m1 m2 _ k1 (k - k1) 0); try done; try (unfold k1 in *; lia).
    + apply Hwr; try (unfold k1; lia). done.
    + unfold k1. replace (g_head g + (g_N g - g_head g)) with (g_N g) by lia. by rewrite Z_mod_same_full, Z.mod_0_l by lia.
    + intros Hw1. replace (k - k1) with ((k - k1) + 0) by lia.
      eapply (filled_step _ m2 m2 _ (k - k1) 0 (k - k1)); cbn [g_N g_data g_width g_head g_size]; try done; try (unfold k1 in *; lia).
      * apply Hwr; try (unfold k1; lia). done.
      * intros Hw2. by apply (filled_0 _ _ Hw2).
  - rewrite !Hu by lia.
    destruct (bits_zero_loop_spec (Z.to_nat (k * g_width g)) (g_data g) (g_head g * g_width g) (k * g_width g))
      as (m1 & Hm1 & Hset1); [nia.. | width_lia |]. unfold bits_zero. rewrite Hm1.
    pose proof Hset1 as [Hl1 _]. exists m1. split; [done|]. split; [done|]. replace k with (k + 0) by lia.
    eapply (filled_step g m1 m1 _ k 0 (g_head g + k)); try done; try lia.
    + apply Hwr; try lia. done.
    + intros Hw1. by apply (filled_0 _ _ Hw1).
Qed.

Section Recv.
Context {T : Type} `{TmapImpl T}.
Abbreviation bufsig := (bufsig_s T).

Definition ring_of (b : bufsig) (d : list Z) : ring := mk_ring d (bN b) (bits b) (level0_head b) (level0_size b).
Definition contents (b : bufsig) : list (list bool) :=
  match level0_data b with Some d => ring_list (ring_of b d) | None => [] end.

(** The ring of a buffer, with its geometry. *)
Definition holds (b : bufsig) (l : list (list bool)) : Prop :=
  geometry b /\ exists d, level0_data b = Some d /\ ring_wf (ring_of b d) /\ ring_list (ring_of b d) = l.

Lemma holds_contents b l : holds b l -> contents b = l.
Proof. intros (_ & d & Hd & _ & Hl). unfold contents. by rewrite Hd. Qed.

Lemma holds_len b l : holds b l -> len l = level0_size b /\ level0_size b <= bN b.
Proof.
  intros (_ & d & _ & Hw & <-). unfold len. rewrite length_ring_list. destruct Hw as (_ & _ & _ & _ & Hs & _). cbn in *. lia.
Qed.

Lemma holds_relevel b b' l : relevel b b' -> holds b l -> holds b' l.
Proof.
  intros Hr (Hg & d & Hd & Hw & Hl). split; [by eapply geometry_relevel|].
  pose proof (relevel_fields _ _ Hr) as (EN & _ & Eh & Ed & Ehd & Es & _).
  exists d. unfold ring_of, bits in *. rewrite Ed, EN, Eh, Ehd, Es. done.
Qed.

(** Assigning the result of a push to the members. *)
Lemma holds_push b d d' new head' size' id' l :
  holds b l -> level0_data b = Some d -> len new <= bN b ->
  ring_written (bN b) (bits b) (level0_head b) d d' new ->
  0 <= head' <= bN b -> head' mod bN b = (level0_head b + len new) mod bN b ->
  (level0_size b + len new < bN b -> head' = level0_head b + len new) ->
  size' = Z.min (bN b) (level0_size b + len new) ->
  holds (with_ring b head' size' id' (Some d')) (lastn (bN b) (l ++ new)).
Proof.
  intros (Hg & d0 & Hd & Hw & Hl) Hd' Hk Hwr Hh Hm Hs ->. rewrite Hd in Hd'. simplify_eq.
  destruct (ring_push (ring_of b d) d' new head' Hw Hk Hwr Hh Hm Hs) as [Hw' Hl'].
  split; [|exists d'; split; [done|]; split; [exact Hw' | exact Hl']].
  destruct Hg as (HN & Hr & Hlv & (d1 & Hd1 & Hb1) & Hty). unfold geometry, bits in *. cbn.
  split; [done|]. split; [done|]. split; [done|]. split; [|done].
  exists d'. split; [done|]. destruct Hwr as [Hlen _]. unfold bits8 in *. rewrite Hlen. by simplify_eq.
Qed.

Lemma size_add_min (b : bufsig) k : 0 <= level0_size b <= bN b -> 0 <= k -> bN b < 2 ^ 59 -> k < 2 ^ 62 ->
  size_add b k = Z.min (bN b) (level0_size b + k).
Proof. intros. unfold size_add. rewrite uwrap_small by width_lia. case_if; lia. Qed.

Definition src_ok (src : list Z) (width o n : Z) : Prop := (o + n) * width <= bits8 src /\ bits8 src < 2 ^ 62.

(** The position in the message after [o] samples. *)
Definition at_sample (width o off src_bit : Z) : Prop :=
  if Z.land width 7 =? 0 then off = o * width / 8 else src_bit = o * width.

(** The copy of one round, for byte and bit wide samples. *)
Lemma recv_copy (b : bufsig) d src o off src_bit k :
  geometry b -> level0_data b = Some d -> ring_wf (ring_of b d) -> 0 <= o -> 0 <= k -> level0_head b + k <= bN b ->
  src_ok src (bits b) o k -> at_sample (bits b) o off src_bit ->
  exists d' off' src_bit', (if Z.land (bits b) 7 =? 0
     then dst ← mem_copy d (u64 (level0_head b * bits b) / 8) src off (u64 (k * bits b) / 8);
          Ok (dst, off + u64 (k * bits b) / 8, src_bit)
     else dst ← bits_copy d (u64 (level0_head b * bits b)) src src_bit (u64 (k * bits b));
          Ok (dst, off, u64 (src_bit + u64 (k * bits b))))
    = Ok (d', off', src_bit') /\ at_sample (bits b) (o + k) off' src_bit'
    /\ ring_written (bN b) (bits b) (level0_head b) d d' (slice src (bits b) o k).
Proof.
  intros (HN & _ & _ & _ & Hty) Hd Hw Ho Hk Hhk [Hs1 Hs2] Hat. unfold at_sample in *.
  destruct Hw as (_ & Hw0 & Hb & Hb63 & _ & Hh & _). cbn [g_N g_data g_width g_head g_size ring_of] in *.
  unfold bits8 in *. rewrite (uwrap_small 64 (level0_head b * bits b)), (uwrap_small 64 (k * bits b)) by (widths; nia).
  destruct Hty as [[_ E]|[_ E]].
  - rewrite E in *. change (Z.land 32 7 =? 0) with true in *. cbv iota in *. subst off.
    destruct (mem_copy_bits d (level0_head b * 32 / 8) src (o * 32 / 8) (k * 32 / 8)) as (d' & -> & Hset); [div_lia..|].
    rewrite bind_Ok. eexists d', _, _. split; [done|]. split; [div_lia|].
    replace (8 * (level0_head b * 32 / 8)) with (level0_head b * 32) in Hset by div_lia.
    replace (8 * (k * 32 / 8)) with (k * 32) in Hset by div_lia.
    apply written_copy; try lia. eapply bits_set_ext, Hset. intros j Hj. cbn beta. f_equal. div_lia.
  - assert ((Z.land (bits b) 7 =? 0) = false) as Eb by (by destruct E as [-> | ->]). rewrite Eb in *. subst src_bit.
    unfold bits_copy. destruct (bits_copy_loop_spec (Z.to_nat (k * bits b)) d (level0_head b * bits b) src (o * bits b) (k * bits b))
      as (d' & -> & Hset); unfold bits8; [nia | nia | nia | nia | nia | widths; nia | widths; nia |].
    rewrite bind_Ok. eexists d', _, _. split; [done|]. rewrite uwrap_small by (widths; nia). split; [lia|].
    apply written_copy; done || lia.
Qed.

Lemma recv_loop_safe fuel : forall (b : bufsig) src o off src_bit length l,
  holds b l -> 0 <= o -> 0 <= length < 2 ^ 32 -> src_ok src (bits b) o length -> at_sample (bits b) o off src_bit ->
  0 <= sample_id_head b < 2 ^ 62 -> sample_id_head b + length < 2 ^ 62 ->
  length = 0 \/ length + (if level0_head b =? bN b then 1 else 0) <= Z.of_nat fuel ->
  safe (is_float b) (recv_loop fuel b src off src_bit length)
    (fun b' => holds b' (lastn (bN b) (l ++ slice src (bits b) o length))
       /\ sample_id_head b' = sample_id_head b + length /\ bN b' = bN b /\ r0 b' = r0 b /\ hdr b' = hdr b /\ tmap b' = tmap b).
Proof.
  induction fuel as [|fuel IH]; intros b src o off src_bit length l Hh Ho Hlen Hsrc Hat Hid Hid2 Hf; cbn [recv_loop];
    (destruct (length =? 0) eqn:E0; bool_facts;
     [subst length; rewrite app_nil_r, Z.add_0_r; destruct (holds_len b l Hh);
      cbn [safe]; rewrite lastn_all by lia; done|]).
  - destruct (level0_head b =? bN b); lia.
  - pose proof Hh as (Hg & d & Hd & Hw & Hl). pose proof Hg as (HN & Hr0 & _).
    pose proof Hw as (_ & Hw0 & Hb & Hb63 & Hsz & Hhd & Hz). cbn [g_N g_data g_width g_head g_size ring_of] in *.
    rewrite (uwrap_small 64 (level0_head b + length)) by width_lia.
    assert (exists k head', (if bN b <? level0_head b + length then (u64 (bN b - level0_head b), 0) else (length, level0_head b + length))
      = (k, head') /\ 0 <= k <= length /\ level0_head b + k <= bN b /\ 0 <= head' <= bN b
        /\ head' mod bN b = (level0_head b + k) mod bN b /\ (level0_size b + k < bN b -> head' = level0_head b + k)
        /\ (length - k = 0 \/ length - k + (if head' =? bN b then 1 else 0) <= Z.of_nat fuel)
        /\ (level0_head b = bN b -> k = 0)) as (k & head' & -> & Hk & Hhk & Hh' & Hmod & Hsm & Hfu & HkN).
    { case_if; eexists _, _; (split; [done|]).
      - rewrite uwrap_small by width_lia. replace (level0_head b + (bN b - level0_head b)) with (bN b) by lia.
        rewrite Z_mod_same_full, Z.mod_0_l by lia. simpl_cmp.
        destruct (level0_head b =? bN b) eqn:E1; bool_facts; lia.
      - destruct (level0_head b =? bN b) eqn:E1; bool_facts; lia. }
    unfold level0. rewrite Hd, bind_Ok. cbv iota beta.
    destruct (recv_copy b d src o off src_bit k Hg Hd Hw Ho) as (d' & off' & sb' & -> & Hat' & Hwr); [lia | lia | | done |].
    { destruct Hsrc. split; [nia | done]. }
    rewrite bind_Ok. cbn beta iota zeta.
    assert (len (slice src (bits b) o k) = k) as Hls by (apply len_slice; lia).
    assert (holds (with_ring b head' (size_add b k) (u64 (sample_id_head b + k)) (Some d')) (lastn (bN b) (l ++ slice src (bits b) o k))) as Hh1.
    { eapply holds_push; rewrite ?Hls; try done; [lia|]. apply size_add_min; lia. }
    set (b1 := with_ring b _ _ _ _) in *.
    eapply (safe_bind _ _ _ (relevel b1)).
    { apply (summarize_safe b1); [apply Hh1 | cbn; lia | lia |]. cbn.
      destruct (Z.eq_dec (level0_head b) (bN b)); [right; split; [done|]; lia | left; lia]. }
    intros b2 Hre. pose proof (relevel_fields _ _ Hre) as (EN & Er & Ehd & Ed & Ehe & Es & Eid & Et & _).
    pose proof (holds_relevel _ _ _ Hre Hh1) as Hh2.
    assert (is_float b2 = is_float b) as <- by (unfold is_float; by rewrite Ehd).
    assert (bits b2 = bits b) as Eb by (unfold bits; by rewrite Ehd).
    assert (sample_id_head b2 = sample_id_head b + k) as Eid2 by (rewrite Eid; cbn; rewrite uwrap_small by width_lia; done).
    rewrite (uwrap_small 64 (length - k)) by width_lia.
    eapply safe_mono.
    + apply (IH b2 src (o + k) off' sb' (length - k) _ Hh2); rewrite ?Eb, ?Eid2; try lia; [| done |].
      * destruct Hsrc. split; [nia | done].
      * rewrite Ehe, EN. exact Hfu.
    + cbn beta. rewrite Eb, EN, Eid2. cbn [bN with_ring b1]. intros b3 (H3 & Hid3 & EN3 & Er3 & Ehd3 & Et3).
      rewrite lastn_app, <- app_assoc, slice_app in H3 by lia.
      replace (k + (length - k)) with length in H3 by lia.
      split; [exact H3|]. split; [lia|]. rewrite EN3, Er3, Ehd3, Et3, Er, Ehd, Et. done.
Qed.

Lemma recv_gap_safe (b : bufsig) k l : holds b l -> 0 < k <= bN b -> (level0_head b = bN b -> k < r0 b) ->
  safe (is_float b) (recv_gap b (h_element_type (hdr b)) k)
    (fun b' => holds b' (lastn (bN b) (l ++ repeated (fill_sample (is_float b) (bits b)) k))
       /\ sample_id_head b' = sample_id_head b /\ bN b' = bN b /\ r0 b' = r0 b /\ hdr b' = hdr b /\ tmap b' = tmap b).
Proof.
  intros Hh Hk Hseam. pose proof Hh as (Hg & d & Hd & Hw & Hl). unfold recv_gap, level0. rewrite Hd, bind_Ok.
  pose proof Hg as (HN & Hr0 & Hlv & _ & Hty). pose proof Hw as (_ & Hw0 & Hb & Hb63 & Hsz & Hhd & Hz).
  cbn [g_N g_data g_width g_head g_size ring_of] in *.
  assert (exists d', (if h_element_type (hdr b) =? JSDRV_DATA_TYPE_FLOAT then fill_nan (Z.to_nat k) (bN b) d (level0_head b)
      else fill_zero (bN b) (bits b) d (level0_head b) k) = Ok d' /\ len d' = len d
      /\ filled (ring_of b d) d' (fill_sample (is_float b) (bits b)) k) as (d' & -> & Hld & Hfill).
  { unfold is_float. destruct Hty as [[-> E]|[-> E]].
    - destruct (fill_nan_spec (Z.to_nat k) (ring_of b d) Hw E) as (d' & Hf & Hld & Hfill); [cbn; lia|].
      rewrite Z2Nat.id in Hfill by lia. eauto.
    - destruct (fill_zero_spec (ring_of b d) k Hw) as (d' & Hf & Hld & Hfill); cbn; [lia | lia | eauto]. }
  rewrite bind_Ok. cbn beta zeta. rewrite (uwrap_small 64 (level0_head b + k)) by width_lia.
  unfold umod. simpl_cmp. rewrite bind_Ok.
  destruct Hfill as (h' & Hm & Hw' & Hl'). cbn [g_N g_data g_width g_head g_size ring_of] in *.
  pose proof (Z.mod_pos_bound (level0_head b + k) (bN b) ltac:(lia)).
  edestruct (ring_rebase _ ((level0_head b + k) mod bN b) Hw') as [Hw2 Hl2]; cbn [g_N g_data g_width g_head g_size] in *.
  { lia. } { rewrite Hm. by rewrite Z.mod_mod by lia. }
  { intros Hlt. rewrite Z.min_r in Hlt |- * by lia. rewrite Z.mod_small; lia. }
  rewrite size_add_min by lia.
  set (b1 := with_ring b _ _ _ _).
  assert (holds b1 (lastn (bN b) (l ++ repeated (fill_sample (is_float b) (bits b)) k))) as Hh1.
  { split.
    - unfold geometry, b1, bits in *. cbn. split; [done|]. split; [done|]. split; [done|]. split; [|done].
      exists d'. split; [done|]. unfold bits8 in *. by rewrite Hld.
    - exists d'. split; [done|]. split; [exact Hw2|]. etransitivity; [exact Hl2|]. rewrite Hl'. by rewrite Hl. }
  eapply safe_mono; [apply (summarize_safe b1); [apply Hh1 | cbn; lia | lia |]|].
  { cbn. destruct (Z.eq_dec (level0_head b) (bN b)); [right; auto | left; lia]. }
  intros b2 Hre. pose proof (relevel_fields _ _ Hre) as (EN & Er & Ehd & Ed & Ehe & Es & Eid & Et & _).
  split; [by eapply holds_relevel|]. by rewrite Eid, EN, Er, Ehd, Et.
Qed.

Context `{!TmapLaws T}.

(** The state of a buffer that holds [l]. *)
Definition buf_ok (b : bufsig) (l : list (list bool)) : Prop :=
  holds b l /\ level0_size b <= sample_id_head b < 2 ^ 62 /\ exists t, tmap b = Some t /\ tm_ok t.

(** A message of the buffer's element type, with its data. *)
Definition msg_id (s : jsdrv_stream_signal_s) : Z := s_sample_id s / s_decimate_factor s.
Definition msg_ok (b : bufsig) (s : jsdrv_stream_signal_s) : Prop :=
  s_element_type s = h_element_type (hdr b) /\ s_element_size_bits s = bits b
  /\ 0 < s_element_count s < 2 ^ 32 /\ src_ok (s_data s) (bits b) 0 (s_element_count s)
  /\ 0 < s_decimate_factor s < 2 ^ 32 /\ 0 <= s_sample_id s < 2 ^ 61
  /\ - 2 ^ 62 <= offset_time (s_time_map s) < 2 ^ 62.
Definition msg_samples (s : jsdrv_stream_signal_s) : list (list bool) :=
  samples_of (s_data s) (s_element_size_bits s) (s_element_count s).

Lemma recv_store_safe (b : bufsig) s l t : holds b l -> msg_ok b s -> tmap b = Some t -> tm_ok t -> tm_room t ->
  level0_size b <= msg_id s ->
  safe (is_float b) (recv_store b s (msg_id s))
    (fun b' => buf_ok b' (lastn (bN b) (l ++ msg_samples s)) /\ sample_id_head b' = msg_id s + s_element_count s).
Proof.
  intros Hh (_ & Ew & Hcnt & Hsrc & Hdec & Hid & Htime) Ht Htok Hroom Hsize. unfold recv_store.
  assert (0 <= msg_id s < 2 ^ 61) as Hmid.
  { unfold msg_id. split; [apply Z.div_pos; lia | apply Z.div_lt_upper_bound; nia]. }
  unfold udiv. rewrite (proj2 (Z.eqb_neq (s_decimate_factor s) 0)) by lia. rewrite bind_Ok, Ht. cbn beta zeta.
  match goal with |- context [tm_add (Some t) ?m] => destruct (tm_add_ok t m Htok Hroom) as (t1 & -> & Hok1); [done|] end.
  rewrite bind_Ok. cbn beta zeta. cbn [level0_head level0_size level0_data with_tmap with_ring].
  set (b1 := with_ring _ _ _ _ _).
  assert (holds b1 l) as Hh1 by exact Hh.
  eapply safe_bind.
  { apply (recv_loop_safe _ b1 (s_data s) 0 0 0 (s_element_count s) l Hh1); try lia; cbn [sample_id_head b1 with_ring]; try lia.
    - exact Hsrc.
    - unfold at_sample. by destruct (_ =? 0).
    - right. destruct (_ =? _); lia. }
  cbn beta. intros b2 (Hh2 & Hid2 & EN & Er & Ehd & Et).
  assert (tmap b2 = Some t1) as -> by (rewrite Et; reflexivity).
  destruct (tm_expire_ok t1 (u64 (sample_id_head b2 - level0_size b2)) Hok1) as (t2 & -> & Hok2). rewrite bind_Ok. cbn [safe].
  assert (sample_id_head b2 = msg_id s + s_element_count s) as Hid3 by (rewrite Hid2; reflexivity).
  split; [|exact Hid3].
  assert (msg_samples s = slice (s_data s) (bits b1) 0 (s_element_count s)) as ->.
  { unfold msg_samples. rewrite Ew. apply samples_of_slice. }
  split; [exact Hh2|]. split; [|by exists t2]. cbn [level0_size sample_id_head with_tmap]. rewrite Hid3.
  pose proof (holds_len _ _ Hh2) as [Hl2 _]. rewrite <- Hl2. split; [|lia].
  destruct (holds_len _ _ Hh) as [Hl1 _]. unfold lastn, len in *. rewrite length_drop, length_app in *.
  rewrite len_slice_nat by lia. lia.
Qed.

Lemma clear_ok (b : bufsig) l t id : holds b l -> tmap b = Some t -> tm_ok t ->
  holds (clear b id) [] /\ sample_id_head (clear b id) = id /\ level0_size (clear b id) = 0
  /\ exists t', tmap (clear b id) = Some t' /\ tm_ok t' /\ (tm_room t -> tm_room t').
Proof.
  intros (Hg & d & Hd & Hw & _) Ht Hok. unfold clear. rewrite Ht.
  destruct (tm_clear_ok t Hok) as (t' & -> & Hok' & Hroom). split_and!; [ | done | done | by exists t'].
  split; [exact Hg|]. exists d. split; [done|]. split; [|done].
  destruct Hw as (HN & Hw0 & Hb & Hb63 & _). unfold ring_wf. cbn in *. split_and!; done || lia.
Qed.

(** The specification: the next sample id and the samples, oldest first. *)
Definition spec_recv (N : Z) (fill : list bool) (expect : Z) (l : list (list bool)) (id : Z) (new : list (list bool))
  : Z * list (list bool) :=
  let last := id + len new - 1 in
  if expect =? 0 then (last + 1, lastn N new)                        (* first message *)
  else if last <? expect then if expect - last <? N then (id, []) else (expect, l)
  else if id <? expect then (expect, l)                              (* overlap: ignored *)
  else if N <? id - expect then (last + 1, lastn N new)              (* gap larger than the ring *)
  else (last + 1, lastn N (l ++ repeated fill (id - expect) ++ new)).

Lemma recv_refines (b : bufsig) s l t :
  buf_ok b l -> tmap b = Some t -> tm_room t -> msg_ok b s ->
  (level0_head b = bN b -> msg_id s - sample_id_head b < r0 b) ->
  safe (is_float b) (jsdrv_bufsig_recv_data b s) (fun b' =>
    let '(id, l') := spec_recv (bN b) (fill_sample (is_float b) (bits b)) (sample_id_head b) l (msg_id s) (msg_samples s) in
    sample_id_head b' = id /\ buf_ok b' l').
Proof.
  intros (Hh & Hid & t0 & Ht0 & Hok) Ht Hroom Hmsg Hseam. rewrite Ht in Ht0. simplify_eq.
  pose proof Hmsg as (Ety & Ew & Hcnt & Hsrc & Hdec & Hsid & Htime).
  assert (0 <= msg_id s < 2 ^ 61) as Hmid.
  { unfold msg_id. split; [apply Z.div_pos; lia | apply Z.div_lt_upper_bound; nia]. }
  assert (len (msg_samples s) = s_element_count s) as Hlen.
  { unfold msg_samples. rewrite samples_of_slice. apply len_slice. lia. }
  unfold jsdrv_bufsig_recv_data. set (b0 := with_hdr b (recv_header s)).
  assert (bits b0 = bits b /\ is_float b0 = is_float b) as [Eb Ef].
  { unfold bits, is_float, b0. cbn. by rewrite Ew, Ety. }
  assert (holds b0 l) as Hh0.
  { destruct Hh as (Hg & d & Hd & Hw & Hl). split.
    - unfold geometry in *. rewrite Eb. cbn. rewrite Ety. exact Hg.
    - exists d. unfold ring_of in *. rewrite Eb. done. }
  
  assert (tmap b0 = Some t0) as Ht1 by exact Ht.
  pose proof Hh0 as (_ & d & Hd & Hw & _). rewrite Hd. cbn [level0_data b0 with_hdr].
  unfold udiv. cbn [hdr b0 with_hdr recv_header h_decimate_factor].
  rewrite (proj2 (Z.eqb_neq (s_decimate_factor s) 0)) by lia. rewrite bind_Ok. fold b0. fold (msg_id s).
  rewrite (uwrap_small 64 (msg_id s + _)), (uwrap_small 64 (_ - 1)) by width_lia.
  change (sample_id_head b0) with (sample_id_head b). change (bN b0) with (bN b).
  assert (forall b1 l1 t1, holds b1 l1 -> bits b1 = bits b -> hdr b1 = hdr b0 -> bN b1 = bN b -> tmap b1 = Some t1 -> tm_ok t1 -> tm_room t1 ->
    level0_size b1 <= msg_id s ->
    safe (is_float b) (recv_store b1 s (msg_id s)) (fun b' => sample_id_head b' = msg_id s + len (msg_samples s) - 1 + 1
       /\ buf_ok b' (lastn (bN b) (l1 ++ msg_samples s)))) as Hstore.
  { intros b1 l1 t1 Hh1 Eb1 Ehd1 EN1 Ht1' Hok1 Hroom1 Hs1. rewrite <- Ef. replace (is_float b0) with (is_float b1) by (unfold is_float; by rewrite Ehd1).
    eapply safe_mono; [eapply (recv_store_safe b1 s l1 t1)|]; try done.
    - unfold msg_ok. rewrite Eb1, Ehd1. cbn. done.
    - cbn beta. rewrite EN1, Hlen. intros b' [Hb' Hid']. split; [lia | done]. }
  destruct (clear_ok b0 l t0 (msg_id s) Hh0 Ht1 Hok) as (Hc & Hcid & Hcs & tc & Htc & Hokc & Hroomc).
  unfold spec_recv. rewrite Hlen.
  destruct (holds_len _ _ Hh) as [Hll _]. pose proof (len_nonneg l).
  destruct (sample_id_head b =? 0) eqn:E0; bool_facts.
  { eapply safe_mono; [apply (Hstore _ [] tc Hc); auto; lia|]. cbn beta. rewrite Hlen. done. }
  destruct (msg_id s + s_element_count s - 1 <? sample_id_head b) eqn:E1; bool_facts.
  { rewrite uwrap_small by width_lia. destruct (sample_id_head b - _ <? bN b); cbn [safe].
    - split; [done|]. split; [done|]. rewrite Hcs, Hcid. split; [lia|]. eauto.
    - split; [done|]. split; [done|]. split; [exact Hid|]. eauto. }
  destruct (msg_id s <? sample_id_head b) eqn:E2; bool_facts.
  { cbn [safe]. split; [done|]. split; [done|]. split; [exact Hid|]. eauto. }
  destruct (sample_id_head b <? msg_id s) eqn:E3; bool_facts.
  - rewrite (uwrap_small 64 (msg_id s - sample_id_head b)) by width_lia. destruct (bN b <? msg_id s - sample_id_head b) eqn:E4; bool_facts.
    + eapply safe_mono; [apply (Hstore _ [] tc Hc); auto; lia|]. cbn beta. rewrite Hlen. done.
    + rewrite <- Ef, Ety. change (h_element_type (hdr b)) with (h_element_type (hdr b)).
      replace (h_element_type (hdr b)) with (h_element_type (hdr b0)) by (cbn; done).
      eapply safe_bind; [apply (recv_gap_safe b0 (msg_id s - sample_id_head b) l Hh0); [cbn; lia | cbn; auto]|].
      cbn beta. rewrite Eb. intros b1 (Hh1 & Hid1 & EN1 & _ & Ehd1 & Et1).
      rewrite Ef. eapply safe_mono; [apply (Hstore b1 _ t0 Hh1); try done|].
      * unfold bits. by rewrite Ehd1.
      * by rewrite Et1.
      * destruct (holds_len _ _ Hh1) as [Hl1 Hs1]. rewrite <- Hl1. etransitivity; [apply len_lastn_le|].
        rewrite len_app, len_repeated by lia. lia.
      * cbn beta. rewrite Hlen. intros b' [Hid' Hb']. split; [done|]. change (bN b0) with (bN b) in Hb'.
        rewrite lastn_app, <- app_assoc in Hb'. rewrite Ef in Hb'. exact Hb'.
  - assert (msg_id s = sample_id_head b) as Eid by lia.
    rewrite (proj2 (Z.ltb_ge (bN b) _)) by (destruct Hw as (? & _); cbn in *; lia).
    assert (forall x, repeated x (msg_id s - sample_id_head b) = []) as -> by (intros x; by rewrite Eid, Z.sub_diag).
    cbn [app].
    eapply safe_mono; [apply (Hstore b0 l t0 Hh0); try done|]; [change (level0_size b0) with (level0_size b); lia|].
    cbn beta. rewrite Hlen. done.
Qed.

End Recv.

(** ** The time map of the driver *)

#[global] Instance tmap_impl : TmapImpl jsdrv_tmap_s := {|
  tm_alloc := jsdrv_tmap_alloc 0;
  tm_clear := jsdrv_tmap_clear;
  tm_add t m := jsdrv_tmap_add time_map_zero t (Some m);
  tm_expire t id := jsdrv_tmap_expire_by_sample_id
                      (match t with Some t => Z.to_nat (alloc_size t) | None => 0%nat end) t id;
  tm_to_timestamp := jsdrv_tmap_sample_id_to_timestamp;
  tm_to_sample_id := jsdrv_tmap_timestamp_to_sample_id;
  tm_length := jsdrv_tmap_length;
  tm_get := jsdrv_tmap_get;
  tm_copy := jsdrv_tmap_copy;
|}.

Definition times_ok (l : list jsdrv_time_map_s) : Prop := Forall (fun e => - 2 ^ 62 <= offset_time e < 2 ^ 62) l.

Lemma tmap_clear_law t : wf_ring t /\ times_ok (tmap_abs t) ->
  exists t', jsdrv_tmap_clear (Some t) = Some t' /\ (wf_ring t' /\ times_ok (tmap_abs t'))
    /\ (alloc_size t < 2 ^ 62 -> alloc_size t' < 2 ^ 62).
Proof.
  intros [[Hw _] _]. destruct (jsdrv_tmap_clear_spec t Hw) as (t' & E & Hr & Ha).
  exists t'. rewrite Ha. split; [done|]. split; [split; [done | constructor]|]. injection E as <-. done.
Qed.

Lemma tmap_add_law t m : wf_ring t /\ times_ok (tmap_abs t) -> alloc_size t < 2 ^ 62 ->
  - 2 ^ 62 <= offset_time m < 2 ^ 62 ->
  exists t', jsdrv_tmap_add time_map_zero (Some t) (Some m) = Ok (Some t') /\ wf_ring t' /\ times_ok (tmap_abs t').
Proof.
  intros [Hr Ht] Hroom Hm. pose proof Hr as [Hw Hlt].
  destruct (tmap_add_spec time_map_zero t m Hw Hroom) as (t' & Ha & Hw' & Habs & Hor).
  - lia.
  - intros e He. unfold times_ok in Ht. rewrite Forall_forall in Ht.
    specialize (Ht e (last_Some_elem_of _ _ He)). unfold is_s. change (2 ^ 62) with 4611686018427387904 in *. width_lia.
  - exists t'. cbn [jsdrv_tmap_add]. rewrite Ha, bind_Ok. split; [done|]. split; [by destruct Hor as [-> |]|].
    rewrite Habs. unfold TmapSpec.add. destruct (TmapSpec.accepts _ _ _); [|done].
    apply Forall_app; split; [done|]. by constructor.
Qed.

Lemma tmap_expire_law t id : wf_ring t /\ times_ok (tmap_abs t) ->
  exists t', jsdrv_tmap_expire_by_sample_id (Z.to_nat (alloc_size t)) (Some t) id = Ok (Some t')
    /\ wf_ring t' /\ times_ok (tmap_abs t').
Proof.
  intros [Hr Ht]. destruct (expire_spec t id (Z.to_nat (alloc_size t)) Hr) as (t' & -> & Hr' & Ha); [lia|].
  exists t'. split; [done|]. split; [done|]. rewrite Ha.
  destruct (expire_suffix id (tmap_abs t)) as (k & -> & _). by apply Forall_drop.
Qed.

Lemma tmap_alloc_law : wf_ring (jsdrv_tmap_alloc 0) /\ times_ok (tmap_abs (jsdrv_tmap_alloc 0)).
Proof. destruct (jsdrv_tmap_alloc_wf 0) as (Hr & Ha & _); [lia|]. split; [exact Hr|]. rewrite Ha. constructor. Qed.

#[global] Instance tmap_laws : TmapLaws jsdrv_tmap_s := {|
  tm_ok t := wf_ring t /\ times_ok (tmap_abs t);
  tm_room t := alloc_size t < 2 ^ 62;
  tm_alloc_ok := tmap_alloc_law;
  tm_clear_ok := tmap_clear_law;
  tm_add_ok := tmap_add_law;
  tm_expire_ok := tmap_expire_law;
|}.

(** ** Allocation *)

Section Alloc.
Context {T : Type} `{TmapImpl T} `{!TmapLaws T}.
Context (fresh_byte : Z) (fresh_entry : jsdrv_summary_entry_s).

(** The loop over the levels: the first [i] are allocated, the others are not. *)
Definition levels_upto (N r0 : Z) (i : nat) (l : list bufsig_level_s) : Prop :=
  len l = 32
  /\ (forall j lvl, l !! j = Some lvl -> (i <= j)%nat -> l_data lvl = None)
  /\ (forall j lvl, l !! j = Some lvl -> (j < i)%nat -> level_wf N r0 (shape <$> l) j (shape lvl) /\ l_data lvl <> None).

Lemma levels_upto_wf N r0 i l : levels_upto N r0 i l -> (i <= 31)%nat -> levels_wf N r0 (shape <$> l).
Proof.
  intros (Hl & Hno & Hyes) Hi. split_and!.
  - unfold len. rewrite length_fmap. exact Hl.
  - intros k r spe d E. rewrite list_lookup_fmap in E. destruct (l !! 31%nat) as [lvl|] eqn:E1; [|done].
    cbn in E. unfold shape in E. rewrite (Hno _ _ E1 Hi) in E. cbn in E. congruence.
  - intros j lvl E. rewrite list_lookup_fmap in E. destruct (l !! j) as [lv|] eqn:E1; [|done]. cbn in E. simplify_eq.
    destruct (decide (j < i)%nat) as [Hj|Hj]; [by apply Hyes|].
    unfold level_wf, shape. rewrite (Hno _ _ E1 ltac:(lia)). done.
Qed.

(** What the loop has multiplied so far: the samples of an entry of the last level. *)
Definition spe_upto (l : list bufsig_level_s) (i : nat) (spe : Z) : Prop :=
  match i with
  | O => spe = 1
  | S i' => exists lvl, l !! i' = Some lvl /\ samples_per_entry lvl = spe
  end.

(** One more level. *)
Lemma levels_upto_step N r0 (i : nat) l k r spe : levels_upto N r0 i l -> (i < 32)%nat ->
  spe_upto l i spe -> 0 < k -> 0 < r -> 0 < spe -> k * (spe * r) = N -> (i = 0%nat -> r = r0) ->
  let l' := <[i := mk_level k r (spe * r) (Some (replicate (Z.to_nat k) fresh_entry))]> l in
  levels_upto N r0 (S i) l' /\ spe_upto l' (S i) (spe * r).
Proof.
  intros (Hl & Hno & Hyes) Hi Hspe Hk Hr Hsp HN H0 l'.
  assert (l' !! i = Some (mk_level k r (spe * r) (Some (replicate (Z.to_nat k) fresh_entry)))) as Hli.
  { apply list_lookup_insert_eq. unfold len in Hl. lia. }
  assert (forall j, j <> i -> l' !! j = l !! j) as Hne by (intros j Hj; by apply list_lookup_insert_ne).
  split; [|by eexists]. split_and!.
  - unfold l'. by rewrite len_insert.
  - intros j lvl E Hj. rewrite Hne in E by lia. apply (Hno _ _ E). lia.
  - intros j lvl E Hj. destruct (decide (j = i)) as [->|Hji].
    + rewrite Hli in E. injection E as <-. split; [|done]. unfold shape. cbn [l_k l_r samples_per_entry l_data fmap option_fmap option_map].
      assert (len (replicate (Z.to_nat k) fresh_entry) = k) as -> by (unfold len; rewrite length_replicate; lia).
      cbn [level_wf]. split_and!; try done; [nia|]. destruct i as [|i'].
      * unfold spe_upto in Hspe. subst spe. rewrite H0 by done. lia.
      * destruct Hspe as (lv & Hlv & Esp). destruct (Hyes i' lv Hlv ltac:(lia)) as [_ Hd].
        destruct (l_data lv) as [dd|] eqn:Edd; [|done].
        exists (l_k lv), (l_r lv), spe, (len dd). split; [|lia].
        rewrite list_lookup_fmap, Hne, Hlv by lia. cbn. unfold shape. by rewrite Edd, Esp.
    + rewrite Hne in E by done. destruct (Hyes j lvl E ltac:(lia)) as [Hwf Hd]. split; [|done].
      unfold level_wf, shape in *. destruct (len <$> l_data lvl) as [n|]; [|done].
      destruct Hwf as (? & ? & ? & ? & ? & Hprev). split_and!; try done. destruct j as [|j']; [done|].
      destruct Hprev as (k' & r' & s' & n' & Hp & Es). exists k', r', s', n'. split; [|done].
      rewrite list_lookup_fmap in Hp |- *. rewrite Hne; [done | lia].
Qed.

Lemma alloc_levels_wf N r0 rN : 0 < N < 2 ^ 59 -> 0 < r0 < 2 ^ 59 -> 4 <= rN <= 32 ->
  (forall i, 0 <= i -> 1 < N / (r0 * rN ^ i) -> (r0 * rN ^ i | N)) ->
  forall n (i : nat) spe l, (n + i = 32)%nat -> levels_upto N r0 i l -> spe_upto l i spe ->
  (spe = if (i =? 0)%nat then 1 else r0 * rN ^ (Z.of_nat i - 1)) -> 2 * spe <= Z.max 2 N ->
  exists l', alloc_levels fresh_entry n (Z.of_nat i) N r0 rN spe l = Ok l' /\ levels_wf N r0 (shape <$> l').
Proof.
  intros HN Hr0 HrN Hdiv. induction n as [|n IH]; intros i spe l Hni Hup Hsp Espe Hbound; cbn [alloc_levels].
  - assert (i = 32)%nat as -> by lia. exfalso. change ((32 =? 0)%nat) with false in Espe. cbv iota in Espe.
    assert (4 ^ 31 <= rN ^ 31) by (apply Z.pow_le_mono_l; lia). change (4 ^ 31) with (2 ^ 62) in *.
    change (Z.of_nat 32 - 1) with 31 in Espe. nia.
  - set (r := if Z.of_nat i =? 0 then r0 else rN).
    assert (spe * r = r0 * rN ^ Z.of_nat i) as Enext.
    { unfold r. destruct i as [|i']; [subst spe; change (Z.of_nat 0 =? 0) with true; change (rN ^ Z.of_nat 0) with 1; cbn [Nat.eqb]; lia|].
      cbn [Nat.eqb] in Espe. subst spe. rewrite (proj2 (Z.eqb_neq _ 0)) by lia.
      replace (Z.of_nat (S i') - 1) with (Z.of_nat i') by lia. rewrite Nat2Z.inj_succ, Z.pow_succ_r by lia. lia. }
    assert (0 < r <= Z.max r0 32) as Hr by (unfold r; case_if; lia).
    assert (0 < spe) as Hsp0 by (subst spe; clear -Hr0 HrN; destruct i; cbn [Nat.eqb]; [lia|]; apply Z.mul_pos_pos; [lia | apply Z.pow_pos_nonneg; lia]).
    assert (spe * r < 2 ^ 64) as Hw.
    { unfold r. destruct i as [|i']; [subst spe; change (Z.of_nat 0 =? 0) with true; cbn [Nat.eqb]; lia|].
      rewrite (proj2 (Z.eqb_neq _ 0)) by lia. nia. }
    rewrite uwrap_small by (widths; nia). unfold udiv. rewrite (proj2 (Z.eqb_neq (spe * r) 0)) by nia. rewrite bind_Ok.
    destruct (N / (spe * r) <=? 1) eqn:Ek; bool_facts.
    + exists l. split; [done|]. destruct (decide (i <= 31)%nat) as [Hi|Hi]; [|lia]. by eapply levels_upto_wf.
    + rewrite Enext in Ek. specialize (Hdiv (Z.of_nat i) ltac:(lia) Ek). rewrite <- Enext in *.
      destruct Hdiv as [q Hq]. assert (N / (spe * r) = q) as Eq by (rewrite Hq; apply Z.div_mul; nia). rewrite Eq in *.
      assert (i < 31)%nat.
      { assert (4 ^ Z.of_nat i <= rN ^ Z.of_nat i) by (apply Z.pow_le_mono_l; lia).
        destruct (decide (i < 31)%nat); [done|]. assert (i = 31)%nat as -> by lia. change (4 ^ Z.of_nat 31) with (2 ^ 62) in *. nia. }
      destruct (levels_upto_step N r0 i l q r spe Hup ltac:(lia) Hsp ltac:(lia) ltac:(lia) Hsp0 ltac:(lia)) as [Hup' Hsp'].
      { intros ->. done. }
      pose proof Hup as (Hl32 & _). rewrite st_ok, bind_Ok by lia. rewrite Nat2Z.id.
      replace (Z.of_nat i + 1) with (Z.of_nat (S i)) by lia.
      apply IH; [lia | done | done | | nia]. cbn [Nat.eqb]. rewrite Enext. do 2 f_equal. lia.
Qed.

Lemma level_count_loop_ok rN : 4 <= rN <= 32 -> forall fuel k n, 0 <= k < 2 ^ (Z.of_nat fuel) ->
  exists k' n', level_count_loop fuel k rN n = Ok (k', n').
Proof.
  intros HrN. induction fuel as [|fuel IH]; intros k n Hk; cbn [level_count_loop]; rewrite uwrap_small by (widths; nia); case_if;
    try (by eexists _, _).
  - change (2 ^ Z.of_nat 0) with 1 in Hk. nia.
  - unfold udiv. simpl_cmp. rewrite bind_Ok. apply IH. split; [apply Z.div_pos; lia|].
    rewrite Nat2Z.inj_succ, Z.pow_succ_r in Hk by lia. apply Z.div_lt_upper_bound; nia.
Qed.

(** The sizes that the buffer manager asks for: each level that gets entries divides the ring. *)
Definition sizes_ok (N r0 rN : Z) : Prop :=
  0 < N < 2 ^ 57 /\ 0 < r0 < 2 ^ 57 /\ 4 <= rN <= 32
  /\ forall i, 0 <= i -> 1 < N / (r0 * rN ^ i) -> (r0 * rN ^ i | N).

Lemma alloc_ok (b : bufsig_s T) N r0 rN utc :
  sizes_ok N r0 rN -> levels b = replicate 32 level_zero -> 0 <= sample_id_head b < 2 ^ 62 ->
  (forall t, tmap b = Some t -> tm_ok t) ->
  0 < h_decimate_factor (hdr b) ->
  JSDRV_F64_TO_TIME (f64_div (f64_of_Z N) (f64_of_Z (h_sample_rate (hdr b) / h_decimate_factor (hdr b)))) = Ok utc ->
  exists b', jsdrv_bufsig_alloc fresh_byte fresh_entry b N r0 rN
      = Ok (if jsdrv_bufsig_element_type_is_supported (h_element_type (hdr b)) (bits b) then (b', 0)
            else (b, ec_code NOT_SUPPORTED))
    /\ (jsdrv_bufsig_element_type_is_supported (h_element_type (hdr b)) (bits b) = true ->
        buf_ok b' [] /\ bN b' = N /\ level0_head b' = 0 /\ sample_id_head b' = sample_id_head b).
Proof.
  intros (HN & Hr0 & HrN & Hdiv) Hlv Hid Htm Hdec Hutc. unfold jsdrv_bufsig_alloc.
  destruct (jsdrv_bufsig_element_type_is_supported _ _) eqn:Esup; cbn [negb]; [|by exists b].
  assert ((h_element_type (hdr b) = JSDRV_DATA_TYPE_FLOAT /\ bits b = 32)
      \/ (h_element_type (hdr b) = JSDRV_DATA_TYPE_UINT /\ (bits b = 1 \/ bits b = 4))) as Hty.
  { unfold jsdrv_bufsig_element_type_is_supported in Esup. case_if_in Esup; bool_facts; [left; split; congruence|].
    case_if_in Esup; [|done]. right. split; [done|]. lia. }
  unfold udiv. rewrite (proj2 (Z.eqb_neq r0 0)) by lia. rewrite bind_Ok.
  destruct (level_count_loop_ok rN HrN 64 (N / r0) 1) as (k' & n' & ->).
  { split; [apply Z.div_pos; lia|]. apply Z.div_lt_upper_bound; [lia|]. change (2 ^ Z.of_nat 64) with (2 ^ 64). nia. }
  rewrite bind_Ok. rewrite (proj2 (Z.eqb_neq (h_decimate_factor _) 0)) by lia. rewrite bind_Ok, Hutc, bind_Ok.
  destruct (alloc_levels_wf N r0 rN) with (n := 32%nat) (i := 0%nat) (spe := 1) (l := levels b) as (l' & Hal & Hwf);
    [lia | lia | done | done | done | | done | done | lia |].
  { rewrite Hlv. split_and!; [done | | lia]. intros j lvl E _. by apply lookup_replicate_1 in E as [-> _]. }
  change (Z.of_nat 0) with 0 in Hal. rewrite Hal, bind_Ok. eexists. split; [done|]. intros _.
  match goal with |- context [replicate (Z.to_nat ?e) fresh_byte] => set (bytes := e) end.
  assert (N * bits b <= 8 * bytes < 2 ^ 63) as Hbytes.
  { unfold bytes. destruct Hty as [[-> ->]|[-> Hw]].
    - change (JSDRV_DATA_TYPE_FLOAT =? JSDRV_DATA_TYPE_FLOAT) with true. cbv iota. rewrite uwrap_small by width_lia. lia.
    - change (JSDRV_DATA_TYPE_FLOAT =? JSDRV_DATA_TYPE_UINT) with false. cbv iota.
      rewrite (uwrap_small 64 (N * bits b)), uwrap_small by (widths; nia). destruct Hw as [-> | ->]; div_lia. }
  clearbody bytes.
  assert (bits8 (replicate (Z.to_nat bytes) fresh_byte) = 8 * bytes) as Hb8.
  { unfold bits8, len. rewrite length_replicate. destruct Hty as [[_ E]|[_ E]]; lia. }
  split; [|done]. split; [split|split; [exact Hid|]].
  - unfold geometry, bits in *. cbn [bN BufferSignal.r0 hdr levels level0_data level0_head level0_size].
    split; [lia|]. split; [lia|]. split; [done|]. split; [|done].
    eexists. split; [done|]. rewrite Hb8. lia.
  - eexists. split; [done|]. split; [|done]. unfold ring_wf, ring_of, bits in *.
    cbn [bN hdr level0_head level0_size g_data g_N g_width g_head g_size]. rewrite Hb8.
    split_and!; try lia; destruct Hty as [[_ E]|[_ E]]; lia.
  - cbn. destruct (tmap b) as [t|] eqn:Et.
    + destruct (tm_clear_ok t (Htm t eq_refl)) as (t' & -> & Hok & _). by exists t'.
    + exists tm_alloc. split; [done|]. apply tm_alloc_ok.
Qed.

(** Allocation establishes the invariant: for a supported element type and sizes whose levels
    divide the ring it succeeds within the bound of the level loop, the levels cover the ring, the
    data has a place for each of the [N] samples, and the buffer is empty; for any other element type
    it reports so and changes nothing. *)
Lemma bufsig_alloc_ok (b : bufsig_s T) N r0 rN utc :
  sizes_ok N r0 rN -> levels b = replicate 32 level_zero -> 0 <= sample_id_head b < 2 ^ 62 ->
  (forall t, tmap b = Some t -> tm_ok t) ->
  0 < h_decimate_factor (hdr b) ->
  JSDRV_F64_TO_TIME (f64_div (f64_of_Z N) (f64_of_Z (h_sample_rate (hdr b) / h_decimate_factor (hdr b)))) = Ok utc ->
  exists b', jsdrv_bufsig_alloc fresh_byte fresh_entry b N r0 rN
      = Ok (if jsdrv_bufsig_element_type_is_supported (h_element_type (hdr b)) (bits b) then (b', 0)
            else (b, ec_code NOT_SUPPORTED))
    /\ (jsdrv_bufsig_element_type_is_supported (h_element_type (hdr b)) (bits b) = true ->
        buf_ok b' [] /\ bN b' = N /\ level0_head b' = 0 /\ sample_id_head b' = sample_id_head b).
Proof. apply alloc_ok. Qed.
End Alloc.

(** *** A buffer of 32 one-bit samples with two levels *)

Definition entry0 : jsdrv_summary_entry_s := mk_entry S754_nan S754_nan S754_nan S754_nan.
Definition example_new (ty width : Z) : bufsig_s jsdrv_tmap_s :=
  mk_bufsig _ true [] (mk_hdr 0 0 0 ty width 0 1000 1) None 0 0 0 0 0 0 (replicate 32 level_zero) 0 0 0 None.
Definition example_buf (ty width : Z) : bufsig_s jsdrv_tmap_s :=
  match jsdrv_bufsig_alloc 0 entry0 (example_new ty width) 32 4 4 with Ok (b, _) => b | _ => example_new ty width end.
Definition example_msg (ty width id n : Z) (d : list Z) : jsdrv_stream_signal_s :=
  mk_signal id 0 0 ty width n 1000 1 (mk_time_map 0 0 (f64_of_Z 1000)) d.

Lemma example_sizes : sizes_ok 32 4 4.
Proof.
  unfold sizes_ok. split; [lia|]. split; [lia|]. split; [lia|]. intros i Hi Hk.
  destruct (Z.le_gt_cases i 1) as [H|H].
  - assert (i = 0 \/ i = 1) as [-> | ->] by lia; [by exists 8 | by exists 2].
  - exfalso. assert (4 ^ 2 <= 4 ^ i) by (apply Z.pow_le_mono_r; lia).
    assert (32 / (4 * 4 ^ i) <= 0); [|lia]. apply Z.lt_succ_r, Z.div_lt_upper_bound; lia.
Qed.

Lemma bufsig_alloc_ok_witness :
  exists b', jsdrv_bufsig_alloc 0 entry0 (example_new 3 1) 32 4 4 = Ok (b', 0)
    /\ (true = true -> buf_ok b' [] /\ bN b' = 32 /\ level0_head b' = 0 /\ sample_id_head b' = 0).
Proof.
  apply (bufsig_alloc_ok 0 entry0 (example_new 3 1) 32 4 4 34359738);
    [apply example_sizes | reflexivity | cbn; lia | done | cbn; lia | vm_compute; reflexivity].
Defined.

Lemma example_ok : buf_ok (example_buf 3 1) [] /\ is_float (example_buf 3 1) = false.
Proof.
  destruct (alloc_ok 0 entry0 (example_new 3 1) 32 4 4 34359738) as (b' & Hal & Hok);
    [apply example_sizes | reflexivity | cbn; lia | done | cbn; lia | vm_compute; reflexivity |].
  change (jsdrv_bufsig_element_type_is_supported _ _) with true in Hal, Hok.
  split; [|by vm_compute]. unfold example_buf. rewrite Hal. by apply Hok.
Qed.

Lemma example_msg_ok (b : bufsig_s jsdrv_tmap_s) id n d : h_element_type (hdr b) = 3 -> bits b = 1 ->
  0 < n <= bits8 d -> bits8 d < 2 ^ 32 -> 0 <= id < 2 ^ 61 -> msg_ok b (example_msg 3 1 id n d).
Proof.
  intros Ety Eb Hn Hd Hid. unfold msg_ok, src_ok. cbn [s_element_type s_element_size_bits s_element_count s_data
    s_decimate_factor s_sample_id s_time_map example_msg offset_time]. rewrite Ety, Eb.
  split; [done|]. split; [done|]. split; [lia|]. split; [lia|]. split; [lia|]. split; [done|]. lia.
Qed.


Section Seam.
Context {T : Type} `{TmapImpl T} `{!TmapLaws T}.

(** The exception of the refinement is real: when a message has filled the ring exactly to its
    end, the head is left at [N]; a gap of at least [r0] samples received next is summarized from there,
    and the summary of level 0 asserts.  The assert is fatal. *)
Lemma recv_gap_at_seam (b : bufsig_s T) s l lvl1 :
  buf_ok b l -> msg_ok b s -> level0_head b = bN b -> sample_id_head b <> 0 ->
  levels b !! 0%nat = Some lvl1 -> l_data lvl1 <> None ->
  r0 b <= msg_id s - sample_id_head b <= bN b ->
  jsdrv_bufsig_recv_data b s = Fault AssertFail.
Proof.
  intros (Hh & Hid & _) (Ety & Ew & Hcnt & Hsrc & Hdec & Hsid & _) Hhead Hne Hl1 Hd1 Hgap.
  pose proof Hh as (Hg & d & Hd & Hw & Hl). pose proof Hg as (HN & Hr0 & Hlv & _ & Hty).
  destruct (holds_len _ _ Hh) as [Hll _]. pose proof (len_nonneg l).
  assert (msg_id s < 2 ^ 61) as Hmid by (apply Z.div_lt_upper_bound; nia).
  unfold jsdrv_bufsig_recv_data. set (b0 := with_hdr b (recv_header s)).
  assert (bits b0 = bits b) as Eb by (unfold bits, b0; cbn; by rewrite Ew).
  change (level0_data b0) with (level0_data b). rewrite Hd. unfold udiv.
  change (h_decimate_factor (hdr b0)) with (s_decimate_factor s).
  rewrite (proj2 (Z.eqb_neq (s_decimate_factor s) 0)) by lia. rewrite bind_Ok. fold (msg_id s).
  change (sample_id_head b0) with (sample_id_head b). change (bN b0) with (bN b). cbn beta zeta.
  rewrite (uwrap_small 64 (msg_id s + _)), (uwrap_small 64 (_ - 1)), (uwrap_small 64 (msg_id s - _)) by width_lia.
  simpl_cmp. set (k := msg_id s - sample_id_head b) in *.
  unfold recv_gap, level0. change (level0_data b0) with (level0_data b). rewrite Hd, bind_Ok, Eb.
  change (bN b0) with (bN b). change (level0_head b0) with (level0_head b).
  assert (exists d', (if s_element_type s =? JSDRV_DATA_TYPE_FLOAT then fill_nan (Z.to_nat k) (bN b) d (level0_head b)
      else fill_zero (bN b) (bits b) d (level0_head b) k) = Ok d') as (d' & ->).
  { rewrite Ety. destruct Hty as [[-> E]|[-> E]].
    - destruct (fill_nan_spec (Z.to_nat k) (ring_of b d) Hw E) as (d' & Hf & _); [cbn; lia | eauto].
    - destruct (fill_zero_spec (ring_of b d) k Hw) as (d' & Hf & _); cbn; [lia | lia | eauto]. }
  rewrite bind_Ok. unfold umod. rewrite (proj2 (Z.eqb_neq (bN b) 0)), bind_Ok by lia. cbn beta zeta.
  set (b1 := with_ring _ _ _ _ _). unfold summarize. change (levels b1) with (levels b).
  rewrite (ld_ok _ _ lvl1), bind_Ok by (done || lia). destruct (l_data lvl1) as [dd|] eqn:Edd; [|done].
  assert (level_wf (bN b) (r0 b) (shape <$> levels b) 0 (shape lvl1)) as Hw1 by (apply Hlv; by rewrite list_lookup_fmap, Hl1).
  destruct (level_wf_some _ _ _ _ _ _ Hw1 Edd) as (Es & Hk1 & Hr1 & Hsp & HNk & E0). cbv iota in E0.
  change (r0 b1) with (r0 b). unfold udiv. rewrite (proj2 (Z.eqb_neq (r0 b) 0)), bind_Ok by lia. cbn beta zeta.
  rewrite Hhead. assert (bN b / r0 b = l_k lvl1) as -> by (rewrite <- HNk, E0; apply Z.div_mul; lia).
  rewrite E0 in HNk. rewrite HNk, (uwrap_small 64 (bN b)), Z.sub_diag by width_lia. change (u64 0) with 0.
  rewrite Z.add_0_r, (uwrap_small 64 k) by width_lia.
  assert (exists f, Z.to_nat k = S f) as [f ->] by (exists (Nat.pred (Z.to_nat k)); lia).
  cbn [summarize_loop]. change (r0 b1) with (r0 b). rewrite (proj2 (Z.ltb_ge k (r0 b))) by lia.
  assert (level_entry b1 1 (l_k lvl1) = Ok None) as ->.
  { unfold level_entry, assert, JSDRV_BUFSIG_LEVELS_MAX. simpl_cmp. rewrite !bind_Ok.
    change (levels b1) with (levels b). rewrite (ld_ok _ _ lvl1), bind_Ok by (done || lia). by simpl_cmp. }
  rewrite bind_Ok. unfold summary_level0_get_by_idx, assert. change (bN b1) with (bN b). by rewrite Z.ltb_irrefl.
Qed.
End Seam.

(** The example buffer, filled exactly. *)
Definition example_full : bufsig_s jsdrv_tmap_s :=
  match jsdrv_bufsig_recv_data (example_buf 3 1) (example_msg 3 1 100 32 [1; 2; 3; 4]) with Ok b => b | Fault _ => example_buf 3 1 end.

Lemma example_full_ok : exists l, buf_ok example_full l.
Proof.
  destruct example_ok as [Hok Hfl].
  assert (exists b, jsdrv_bufsig_recv_data (example_buf 3 1) (example_msg 3 1 100 32 [1; 2; 3; 4]) = Ok b) as [b Hb].
  { destruct (jsdrv_bufsig_recv_data (example_buf 3 1) _) as [b|f] eqn:E; [eauto|]. vm_compute in E. discriminate. }
  pose proof (recv_refines (example_buf 3 1) (example_msg 3 1 100 32 [1; 2; 3; 4]) [] (jsdrv_tmap_alloc 0) Hok) as Hs.
  unfold example_full. rewrite Hb in *. cbn [safe] in Hs. destruct (spec_recv _ _ _ _ _ _) as [id l']. exists l'. apply Hs.
  - vm_compute. reflexivity.
  - vm_compute. reflexivity.
  - apply example_msg_ok; [vm_compute; reflexivity | vm_compute; reflexivity | change (0 < 32 <= 32); lia | change (32 < 2 ^ 32); lia | lia].
  - vm_compute. discriminate.
Qed.

Lemma recv_gap_at_seam_witness :
  level0_head example_full = 32
  /\ jsdrv_bufsig_recv_data example_full (example_msg 3 1 136 1 [1]) = Fault AssertFail.
Proof.
  split; [vm_compute; reflexivity|]. destruct example_full_ok as [l Hok].
  destruct (levels example_full !! 0%nat) as [lvl1|] eqn:E1; [|vm_compute in E1; discriminate].
  apply (recv_gap_at_seam example_full (example_msg 3 1 136 1 [1]) l lvl1 Hok).
  - apply example_msg_ok; [vm_compute; reflexivity | vm_compute; reflexivity | change (0 < 1 <= 8); lia | change (8 < 2 ^ 32); lia | lia].
  - vm_compute. reflexivity.
  - vm_compute. discriminate.
  - exact E1.
  - vm_compute in E1. injection E1 as <-. discriminate.
  - vm_compute. split; discriminate.
Defined.
