(* ===== verification/BufferRequest.v ===== *)
(** * Requests for samples (theorems on src/buffer_signal.c)

    The response to a request is packed from bit 0, while the samples start at any bit of the
    ring: the bytes are copied, around the end of the ring if need be, and shifted down by words. *)

From S2P Require Import Prelude Float Cstr ErrorCode Time Tmap I128 Statistics BufferBits BufferSignal BufferSummary BufferRing.

(** ** Words of a byte object, as bits *)

Lemma testbit_cat n a v j : 0 <= n -> 0 <= j ->
  Z.testbit (uwrap n a + 2 ^ n * v) j = if j <? n then Z.testbit a j else Z.testbit v (j - n).
Proof.
  intros Hn Hj. pose proof (Z.mod_pos_bound a (2 ^ n) ltac:(apply Z.pow_pos_nonneg; lia)) as Hm. unfold uwrap. case_if.
  - rewrite <- (Z.mod_pow2_bits_low _ n j) by lia. rewrite Z.mul_comm, Z.mod_add by lia.
    rewrite Z.mod_mod by lia. by rewrite Z.mod_pow2_bits_low by lia.
  - assert (v = (a mod 2 ^ n + 2 ^ n * v) / 2 ^ n) as Ev.
    { rewrite Z.mul_comm, Z.div_add, Z.div_small by lia. lia. }
    rewrite Ev at 2. rewrite testbit_div by lia. f_equal. lia.
Qed.

(** A value that has the [n] bits of [m] from [o] on. *)
Definition bits_at (m : list Z) (o n v : Z) : Prop :=
  0 <= v < 2 ^ n /\ forall j, 0 <= j < n -> Z.testbit v j = get_bit m (o + j).

Lemma byte_at m i : 0 <= i < len m -> exists b, ld m i = Ok b /\ bits_at m (8 * i) 8 (u8 b).
Proof.
  intros Hi. destruct (ld_in_range m i Hi) as (b & Hb & Hl). exists b. split; [done|]. split; [by apply uwrap_range|].
  intros j Hj. unfold get_bit. replace ((8 * i + j) / 8) with i by div_lia. replace ((8 * i + j) mod 8) with j by div_lia.
  rewrite Hl. unfold uwrap. by rewrite Z.mod_pow2_bits_low by lia.
Qed.

Lemma bits_at_cat m o n n' a v : 0 <= n -> 0 <= n' -> bits_at m o n a -> bits_at m (o + n) n' v ->
  bits_at m o (n + n') (a + 2 ^ n * v).
Proof.
  intros Hn Hn' [Ha Hba] [Hv Hbv]. split; [rewrite Z.pow_add_r by lia; nia|]. intros j Hj.
  rewrite <- (uwrap_small n a) by done. rewrite testbit_cat by lia. case_if; [apply Hba; lia|].
  rewrite Hbv by lia. f_equal. lia.
Qed.

Lemma ld32_bits m i : 0 <= i -> 4 * i + 4 <= len m -> exists v, ld32 m i = Ok v /\ bits_at m (32 * i) 32 v.
Proof.
  intros Hi Hm. unfold ld32.
  destruct (byte_at m (4 * i)) as (b0 & -> & H0); [lia|]. destruct (byte_at m (4 * i + 1)) as (b1 & -> & H1); [lia|].
  destruct (byte_at m (4 * i + 2)) as (b2 & -> & H2); [lia|]. destruct (byte_at m (4 * i + 3)) as (b3 & -> & H3); [lia|].
  rewrite !bind_Ok. eexists; split; [done|]. replace (32 * i) with (8 * (4 * i)) by lia.
  apply (bits_at_cat m _ 8 24); [lia | lia | done |]. apply (bits_at_cat m _ 8 16); [lia | lia | |].
  { by replace (8 * (4 * i) + 8) with (8 * (4 * i + 1)) by lia. }
  apply (bits_at_cat m _ 8 8); [lia | lia | |].
  { by replace (8 * (4 * i) + 8 + 8) with (8 * (4 * i + 2)) by lia. }
  by replace (8 * (4 * i) + 8 + 8 + 8) with (8 * (4 * i + 3)) by lia.
Qed.

Lemma ld64_bits m i : 0 <= i -> 8 * i + 8 <= len m -> exists v, ld64 m i = Ok v /\ bits_at m (64 * i) 64 v.
Proof.
  intros Hi Hm. unfold ld64.
  destruct (ld32_bits m (2 * i)) as (a & -> & Ha); [lia | lia |]. destruct (ld32_bits m (2 * i + 1)) as (c & -> & Hc); [lia | lia |].
  rewrite !bind_Ok. eexists; split; [done|]. apply (bits_at_cat m _ 32 32); [lia | lia | |].
  - by replace (64 * i) with (32 * (2 * i)) by lia.
  - by replace (64 * i + 32) with (32 * (2 * i + 1)) by lia.
Qed.

Lemma st64_bits m i v : 0 <= i -> 8 * i + 8 <= len m ->
  exists m', st64 m i v = Ok m' /\ bits_set m m' (64 * i) 64 (Z.testbit v).
Proof.
  intros Hi Hm. unfold st64.
  destruct (st32_bits m (2 * i) (u32 v)) as (m1 & -> & S1); [lia | lia |]. rewrite bind_Ok. pose proof S1 as [L1 _].
  destruct (st32_bits m1 (2 * i + 1) (u32 (v / 2 ^ 32))) as (m2 & -> & S2); [lia | lia |]. exists m2. split; [done|].
  replace (64 * i) with (32 * (2 * i)) by lia. apply (bits_set_join m m1 m2 _ 32 32); [lia | lia | |].
  - eapply bits_set_ext, S1. intros j Hj. unfold uwrap. by rewrite Z.mod_pow2_bits_low by lia.
  - replace (32 * (2 * i) + 32) with (32 * (2 * i + 1)) by lia. eapply bits_set_ext, S2. intros j Hj.
    unfold uwrap. by rewrite Z.mod_pow2_bits_low by lia.
Qed.

(** ** The shift by words *)

Lemma funnel fwd z shift j : 0 < shift < 64 -> 0 <= fwd < 2 ^ 64 -> 0 <= j < 64 ->
  Z.testbit (Z.lor (Z.shiftr fwd shift) (u64 (Z.shiftl z (64 - shift)))) j
  = if j + shift <? 64 then Z.testbit fwd (j + shift) else Z.testbit z (j + shift - 64).
Proof.
  intros Hs Hf Hj. rewrite Z.lor_spec, Z.shiftr_spec by lia. unfold uwrap. rewrite Z.mod_pow2_bits_low, Z.shiftl_spec by lia.
  case_if.
  - rewrite (Z.testbit_neg_r z) by lia. apply orb_false_r.
  - assert (Z.testbit fwd (j + shift) = false) as ->
      by (rewrite <- (Z.mod_small fwd (2 ^ 64)) by lia; apply Z.mod_pow2_bits_high; lia).
    cbn [orb]. f_equal. lia.
Qed.

(** [n] words from word [i] on; [fwd] is word [i - 1], which is not written yet. *)
Lemma shift_loop_spec n : forall p i fwd shift, 0 < shift < 64 -> 0 < i -> 8 * (i + Z.of_nat n) <= len p ->
  bits_at p (64 * (i - 1)) 64 fwd ->
  exists p' fwd', shift_loop n p i fwd shift = Ok (p', fwd') /\ len p' = len p
    /\ bits_at p (64 * (i - 1 + Z.of_nat n)) 64 fwd'
    /\ (forall j, 0 <= j -> get_bit p' j =
          if (64 * (i - 1) <=? j) && (j <? 64 * (i - 1 + Z.of_nat n)) then get_bit p (j + shift) else get_bit p j).
Proof.
  induction n as [|n IH]; intros p i fwd shift Hs Hi Hl Hfwd; cbn [shift_loop].
  - exists p, fwd. split; [done|]. split; [done|]. rewrite Z.add_0_r. split; [done|]. intros j Hj. case_if; [lia | done].
  - destruct (ld64_bits p i) as (z & -> & Hz); [lia | lia |]. rewrite bind_Ok.
    set (w := Z.lor _ _). destruct (st64_bits p (i - 1) w) as (p1 & -> & Hset); [lia | lia |]. rewrite bind_Ok.
    pose proof Hset as [Hl1 Hb1].
    assert (forall o v, 64 * i <= o -> bits_at p o 64 v <-> bits_at p1 o 64 v) as Hsame.
    { intros o v Ho. unfold bits_at. split; intros [? Hv]; (split; [done|]; intros j Hj; rewrite Hv by done; rewrite ?Hb1 by lia; case_if; [lia | done]). }
    destruct (IH p1 (i + 1) z shift Hs ltac:(lia)) as (p' & fwd' & -> & Hl' & Hf' & Hb'); [lia | |].
    { replace (i + 1 - 1) with i by lia. apply Hsame; [lia | done]. }
    exists p', fwd'. split; [done|]. split; [lia|]. split.
    { replace (64 * (i - 1 + Z.of_nat (S n))) with (64 * (i + 1 - 1 + Z.of_nat n)) by lia. apply Hsame; [lia | done]. }
    intros j Hj. rewrite Hb' by done. destruct ((64 * (i + 1 - 1) <=? j) && (j <? 64 * (i + 1 - 1 + Z.of_nat n))) eqn:E1; bool_facts.
    + simpl_cmp. cbn [andb]. rewrite Hb1 by lia. case_if; [lia | done].
    + rewrite Hb1 by lia. destruct ((64 * (i - 1) <=? j) && (j <? 64 * (i - 1) + 64)) eqn:E2; bool_facts.
      * simpl_cmp. cbn [andb]. unfold w. rewrite funnel by (done || lia || apply Hfwd).
        destruct Hfwd as [_ Hfwd]. destruct Hz as [_ Hz]. case_if.
        -- rewrite Hfwd by lia. f_equal. lia.
        -- rewrite Hz by lia. f_equal. lia.
      * destruct ((64 * (i - 1) <=? j) && (j <? 64 * (i - 1 + Z.of_nat (S n)))) eqn:E3; bool_facts; [lia | done].
Qed.

Lemma shift_words_spec p n shift : 0 < shift < 64 -> 0 < n < 2 ^ 60 -> 8 * n <= len p ->
  exists p', shift_words p n shift = Ok p' /\ len p' = len p
    /\ forall j, 0 <= j -> j + shift < 64 * n -> get_bit p' j = get_bit p (j + shift).
Proof.
  intros Hs Hn Hl. unfold shift_words. destruct (ld64_bits p 0) as (fwd & -> & Hf); [lia | lia |]. rewrite bind_Ok.
  destruct (shift_loop_spec (Z.to_nat (n - 1)) p 1 fwd shift Hs) as (p1 & fwd' & -> & Hl1 & Hf' & Hb1); [lia | lia | done |].
  rewrite bind_Ok. rewrite uwrap_small by width_lia. rewrite Z2Nat.id in * by lia.
  destruct (st64_bits p1 (n - 1) (Z.shiftr fwd' shift)) as (p2 & -> & Hl2 & Hb2); [lia | lia |].
  exists p2. split; [done|]. split; [congruence|]. intros j Hj Hjn. rewrite Hb2 by done.
  destruct Hf' as [_ Hf']. replace (64 * (1 - 1 + (n - 1))) with (64 * (n - 1)) in * by lia.
  destruct ((64 * (n - 1) <=? j) && (j <? 64 * (n - 1) + 64)) eqn:E; bool_facts.
  - rewrite Z.shiftr_spec, Hf' by lia. f_equal. lia.
  - rewrite Hb1 by done. case_if; [done | lia].
Qed.

(** ** The copy out of the ring *)

(** One round: [n] samples from [idx] to byte [d] of the response. *)
Lemma copy_round w buf rsp d idx n shift :
  0 < w -> 0 <= idx -> 0 <= n -> 0 <= shift <= 7 -> 0 <= d -> idx * w < 2 ^ 63 -> n * w < 2 ^ 63 ->
  let copy_size := u64 (u64 (u64 (n * w) + shift) + 7) / 8 in
  idx * w / 8 + (n * w + shift + 7) / 8 <= len buf -> d + (n * w + shift + 7) / 8 <= len rsp ->
  copy_size = (n * w + shift + 7) / 8
  /\ exists rsp', mem_copy rsp d buf (u64 (idx * w) / 8) copy_size = Ok rsp' /\ len rsp' = len rsp
    /\ forall j, 0 <= j -> get_bit rsp' j =
         if (8 * d <=? j) && (j <? 8 * d + 8 * ((n * w + shift + 7) / 8)) then get_bit buf (8 * (idx * w / 8) + (j - 8 * d))
         else get_bit rsp j.
Proof.
  intros Hw Hidx Hn Hs Hd Hi63 Hn63 cs Hbuf Hrsp.
  assert (cs = (n * w + shift + 7) / 8) as ->.
  { unfold cs. rewrite (uwrap_small 64 (n * w)), (uwrap_small 64 (n * w + shift)), uwrap_small by (widths; nia). done. }
  split; [done|]. rewrite uwrap_small by (widths; nia).
  destruct (mem_copy_bits rsp d buf (idx * w / 8) ((n * w + shift + 7) / 8)) as (rsp' & -> & Hl & Hb);
    [apply Z.div_pos; nia | apply Z.div_pos; nia | done | done | done |].
  exists rsp'. done.
Qed.

Lemma samples_copy_spec N w buf rsp idx n fuel :
  0 < w <= 32 -> 0 <= idx < N -> 0 < n <= N -> N * w <= bits8 buf -> bits8 buf < 2 ^ 63 -> (N * w) mod 8 = 0 ->
  let shift := (idx * w) mod 8 in
  (idx + n - N) * w + shift <= bits8 buf ->
  n * w + 32 <= bits8 rsp -> n <= Z.of_nat fuel ->
  exists rsp', samples_copy fuel N w shift buf rsp 0 idx n = Ok rsp' /\ len rsp' = len rsp
    /\ forall j, 0 <= j < n * w -> get_bit rsp' (shift + j) = get_bit buf ((idx * w + j) mod (N * w)).
Proof.
  intros Hw Hidx Hn Hbuf Hb62 Hdiv shift Hover Hrsp Hf.
  assert (N < 2 ^ 63) by nia.
  assert (0 <= idx * w /\ idx * w + w <= N * w /\ w <= n * w <= N * w) as (HA & HAC & HB) by nia.
  replace ((idx + n - N) * w) with (idx * w + n * w - N * w) in Hover by ring.
  pose proof (Z.mod_pos_bound (idx * w) 8 ltac:(lia)) as Hsh. fold shift in Hsh.
  assert (idx * w = 8 * (idx * w / 8) + shift) as Eidx by (unfold shift; pose proof (Z.div_mod (idx * w) 8); lia).
  unfold bits8 in *.
  destruct fuel as [|fuel]; [lia|]. cbn [samples_copy]. rewrite (proj2 (Z.eqb_neq n 0)) by lia. cbn beta zeta.
  rewrite (uwrap_small 64 (idx + n)) by width_lia.
  destruct (N <=? idx + n) eqn:EN; bool_facts.
  - rewrite (uwrap_small 64 (N - idx)) by width_lia.
    assert ((N - idx) * w = N * w - idx * w) as Ek by ring.
    set (k := N - idx) in *. assert (0 < k <= n /\ n - k < N) as [Hk HkN] by lia.
    assert ((n - k) * w = n * w - (N * w - idx * w)) as Enk by (rewrite <- Ek; ring).
    assert (exists c, k * w + shift = 8 * c) as [c Hc].
    { exists (N * w / 8 - idx * w / 8). pose proof (Z.div_mod (N * w) 8). lia. }
    assert ((k * w + shift + 7) / 8 = c) as Ec by (rewrite Hc; div_lia).
    assert (0 <= k * w /\ 0 <= (n - k) * w) as [Hkw Hnkw] by nia.
    destruct (copy_round w buf rsp 0 idx k shift) as (-> & r1 & -> & Hl1 & Hb1); rewrite ?Ec; try lia.
    rewrite bind_Ok, Z.add_0_l. rewrite Ec in Hb1. rewrite (uwrap_small 64 (n - k)) by width_lia.
    destruct (Z.eq_dec (n - k) 0) as [Ez|Enz].
    + exists r1. rewrite Ez. split; [by destruct fuel|]. split; [done|]. intros j Hj.
      assert (n * w = k * w) as Enkw by (f_equal; lia).
      rewrite Hb1 by lia. rewrite (proj2 (Z.leb_le _ _)), (proj2 (Z.ltb_lt _ _)) by lia. cbn [andb].
      rewrite Z.mod_small by lia. f_equal. lia.
    + destruct fuel as [|fuel]; [lia|]. cbn [samples_copy].
      rewrite (proj2 (Z.eqb_neq (n - k) 0)) by lia. cbn beta zeta. rewrite Z.add_0_l.
      rewrite (uwrap_small 64 (n - k)) by width_lia.
      rewrite (proj2 (Z.leb_gt N (n - k))) by lia. cbv iota.
      destruct (copy_round w buf r1 c 0 (n - k) shift) as (-> & r2 & -> & Hl2 & Hb2); try lia.
      { rewrite Z.mul_0_l. change (0 / 8) with 0. assert ((n - k) * w + shift <= 8 * len buf) by lia. div_lia. }
      { rewrite Hl1. assert (8 * c + ((n - k) * w + shift + 7) <= 8 * len rsp) by lia. div_lia. }
      rewrite bind_Ok. rewrite Z.sub_diag. change (u64 0) with 0. exists r2. split; [by destruct fuel|]. split; [congruence|].
      intros j Hj. rewrite Hb2 by lia. set (cs2 := ((n - k) * w + shift + 7) / 8).
      assert ((n - k) * w <= 8 * cs2) by (unfold cs2; div_lia).
      destruct (Z.lt_ge_cases j (k * w)) as [Hjk|Hjk].
      * rewrite (proj2 (Z.leb_gt (8 * c) _)) by lia. cbn [andb]. rewrite Hb1 by lia.
        rewrite (proj2 (Z.leb_le _ _)), (proj2 (Z.ltb_lt _ _)) by lia. cbn [andb].
        rewrite Z.mod_small by lia. f_equal. lia.
      * rewrite (proj2 (Z.leb_le (8 * c) _)), (proj2 (Z.ltb_lt _ _)) by lia. cbn [andb]. rewrite Z.mul_0_l. change (8 * (0 / 8)) with 0.
        replace ((idx * w + j) mod (N * w)) with (idx * w + j - N * w); [f_equal; lia|].
        apply Z.mod_unique with 1; [left; lia | lia].
  - assert (idx * w + n * w <= N * w) by nia.
    destruct (copy_round w buf rsp 0 idx n shift) as (-> & r1 & -> & Hl1 & Hb1); try lia.
    { assert (8 * (idx * w / 8) + (n * w + shift) <= 8 * len buf) by lia. div_lia. }
    { div_lia. }
    rewrite bind_Ok, Z.sub_diag. change (u64 0) with 0. exists r1. split; [by destruct fuel|]. split; [done|].
    intros j Hj. rewrite Hb1 by lia. assert (n * w + shift <= 8 * ((n * w + shift + 7) / 8)) by div_lia.
    rewrite (proj2 (Z.leb_le _ _)), (proj2 (Z.ltb_lt _ _)) by lia. cbn [andb].
    rewrite Z.mod_small by lia. f_equal. lia.
Qed.

(** ** The response *)

Lemma ld_fault (m : list Z) i f : ld m i = Fault f -> f = OutOfBounds.
Proof. unfold ld. case_if; [destruct (m !! _)|]; congruence. Qed.
Lemma ld_inside (m : list Z) i v : ld m i = Ok v -> 0 <= i < len m.
Proof.
  unfold ld. case_if; [|discriminate]. destruct (m !! _) eqn:El; [|discriminate]. intros _.
  apply lookup_lt_Some in El. unfold len. lia.
Qed.

Lemma ld32_oob m i : ld32 m i = Fault OutOfBounds \/ (exists v, ld32 m i = Ok v) /\ 4 * i + 4 <= len m.
Proof.
  unfold ld32. repeat match goal with |- context [ld m ?j] => destruct (ld m j) eqn:?; cbn end;
    try (left; f_equal; by eapply ld_fault). right. split; [eauto|].
  match goal with E : ld m (4 * i + 3) = Ok _ |- _ => apply ld_inside in E end. lia.
Qed.
Lemma ld64_oob m i : len m < 8 * i + 8 -> ld64 m i = Fault OutOfBounds.
Proof.
  intros Hl. unfold ld64. destruct (ld32_oob m (2 * i)) as [-> | [[v ->] _]]; [done|]. rewrite bind_Ok.
  destruct (ld32_oob m (2 * i + 1)) as [-> | [_ H]]; [done | lia].
Qed.

Lemma shift_loop_oob n : forall p i fwd shift, 0 < i -> 8 * i <= len p -> len p < 8 * (i + Z.of_nat n) ->
  shift_loop n p i fwd shift = Fault OutOfBounds.
Proof.
  induction n as [|n IH]; intros p i fwd shift Hi Hip Hl; [lia|]. cbn [shift_loop].
  destruct (Z.lt_ge_cases (len p) (8 * i + 8)) as [H|H]; [by rewrite ld64_oob|].
  destruct (ld64_bits p i) as (z & -> & _); [lia | lia |]. rewrite bind_Ok.
  destruct (st64_bits p (i - 1) (Z.lor (Z.shiftr fwd shift) (u64 (Z.shiftl z (64 - shift))))) as (p1 & -> & Hl1 & _); [lia | lia |].
  rewrite bind_Ok. apply IH; lia.
Qed.

Section Request.
Context {T : Type} `{TmapImpl T}.
Abbreviation bufsig := (bufsig_s T).

Definition oldest_id (b : bufsig) : Z := sample_id_head b - level0_size b.

(** A request that starts before the oldest sample begins there. *)
Definition clip_start (tail : Z) (r : jsdrv_time_range_s) : jsdrv_time_range_s :=
  if start r <? tail then mk_range tail (end_ r) (length_ r - (tail - start r)) else r.

Lemma samples_range_in (b : bufsig) r :
  0 < bits b -> 0 < level0_size b <= sample_id_head b -> sample_id_head b < 2 ^ 62 ->
  0 <= start r -> 0 < length_ r < 2 ^ 63 ->
  let r' := clip_start (oldest_id b) r in
  0 < length_ r' -> start r' + length_ r' <= sample_id_head b -> length_ r' <= DATA_SIZE_MAX * 8 / bits b ->
  samples_range b r = Ok (Some (start r', length_ r', r')).
Proof.
  intros Hb Hs Hid Hst Hlen r' Hpos Hend Hmax. unfold samples_range, udiv. rewrite (proj2 (Z.eqb_neq (bits b) 0)) by lia.
  rewrite bind_Ok. rewrite (proj2 (Z.eqb_neq (level0_size b) 0)) by lia. cbn beta zeta.
  rewrite (uwrap_small 64 (sample_id_head b - level0_size b)) by width_lia. fold (oldest_id b).
  unfold r', clip_start, oldest_id in *. clear r'. destruct (start r <? sample_id_head b - level0_size b) eqn:E; cbn [start end_ length_] in *; bool_facts.
  - rewrite (uwrap_small 64 (_ - start r)) by width_lia. rewrite (proj2 (Z.leb_gt (length_ r) _)) by lia. cbn [andb].
    rewrite (uwrap_small 64 (length_ r - _)) by width_lia. rewrite (proj2 (Z.leb_gt (sample_id_head b) _)) by lia.
    rewrite (uwrap_small 64 (_ + _)), (uwrap_small 64 (_ - 1)) by width_lia.
    rewrite (proj2 (Z.leb_gt (sample_id_head b) _)) by lia. by rewrite (proj2 (Z.ltb_ge (DATA_SIZE_MAX * 8 / bits b) _)) by lia.
  - cbn [andb]. rewrite (proj2 (Z.leb_gt (sample_id_head b) (start r))) by lia.
    rewrite (uwrap_small 64 (start r + _)), (uwrap_small 64 (_ - 1)) by width_lia.
    rewrite (proj2 (Z.leb_gt (sample_id_head b) _)) by lia. by rewrite (proj2 (Z.ltb_ge (DATA_SIZE_MAX * 8 / bits b) _)) by lia.
Qed.

(** The bit offset of the first sample in its byte. *)
Lemma shift_eq idx w : w = 1 \/ w = 4 \/ w = 32 ->
  (if 1 =? w then Z.land idx 7 else if 4 =? w then u8 (Z.shiftl (Z.land idx 1) 2) else 0) = (idx * w) mod 8.
Proof.
  intros [-> | [-> | ->]].
  - rewrite land7. change (1 =? 1) with true. by rewrite Z.mul_1_r.
  - change (1 =? 4) with false. change (4 =? 4) with true. cbv iota.
    assert (Z.land idx 1 = idx mod 2) as -> by (apply (Z.land_ones idx 1); lia).
    rewrite Z.shiftl_mul_pow2 by lia. change (2 ^ 2) with 4. rewrite uwrap_small by div_lia. div_lia.
  - change (1 =? 32) with false. change (4 =? 32) with false. cbv iota. div_lia.
Qed.

(** C2. A request for samples that the buffer holds returns exactly them: the response packs the
    requested part of the list of samples from bit 0, in order, wherever in the ring it starts, for
    1, 4 and 32 bit samples, around the end of the ring, with a start before the oldest sample
    clipped and the range reported; nothing outside of the ring or of the response is touched.  A
    request of sub-byte samples must leave a byte of the ring out. *)
Theorem samples_get_contents (b : bufsig) l rsp utc :
  holds b l -> level0_size b <= sample_id_head b < 2 ^ 62 -> (bN b * bits b) mod 8 = 0 ->
  let r := time_range_samples (info rsp) in let r' := clip_start (oldest_id b) r in
  0 <= start r -> 0 < length_ r < 2 ^ 63 -> 0 < length_ r' -> start r' + length_ r' <= sample_id_head b ->
  length_ r' <= DATA_SIZE_MAX * 8 / bits b -> length_ r' * bits b + 128 <= bits8 (data rsp) ->
  length_ r' + 8 <= bN b \/ bits b = 32 ->
  samples_to_utc b r' = Ok utc ->
  exists d, samples_get b rsp = Ok (with_info rsp JSDRV_BUFFER_RESPONSE_SAMPLES r' utc d (entries rsp))
    /\ samples_of d (bits b) (length_ r') = take (Z.to_nat (length_ r')) (drop (Z.to_nat (start r' - oldest_id b)) l).
Proof.
  intros Hh Hid Hal r r' Hst Hlen Hpos Hend Hmax Hroom Hover Hutc.
  pose proof Hh as (Hg & d & Hd & Hw & Hl). pose proof Hg as (HN & _ & _ & _ & Hty).
  assert (bits b = 1 \/ bits b = 4 \/ bits b = 32) as Hb3 by tauto.
  pose proof Hw as (_ & Hw0 & Hb & Hb63 & Hsz & Hhd & Hz). cbn [g_N g_data g_width g_head g_size ring_of] in *.
  assert (oldest_id b <= start r') as Hold by (unfold r', clip_start; case_if; cbn; lia).
  assert (0 < level0_size b) by (unfold oldest_id in *; lia).
  unfold samples_get. fold r. rewrite samples_range_in by (done || lia). fold r'. rewrite bind_Ok. cbn beta iota zeta.
  unfold level0. rewrite Hd, bind_Ok. rewrite (uwrap_small 64 (sample_id_head b - level0_size b)) by width_lia. fold (oldest_id b).
  assert (level0_tail b = ring_tail (ring_of b d)) as -> by reflexivity.
  set (o := start r' - oldest_id b) in *. assert (0 <= o /\ o + length_ r' <= level0_size b) as [Ho Hol] by (unfold o, oldest_id in *; lia).
  assert (0 <= ring_tail (ring_of b d) <= bN b) as Htl by (unfold ring_tail; cbn; case_if; lia).
  rewrite (uwrap_small 64 o), (uwrap_small 64 (o + _)) by width_lia.
  unfold umod. rewrite (proj2 (Z.eqb_neq (bN b) 0)) by lia. rewrite bind_Ok. rewrite shift_eq by done.
  set (idx := (o + ring_tail (ring_of b d)) mod bN b).
  assert (0 <= idx < bN b) as Hidx by (apply Z.mod_pos_bound; lia).
  pose proof (Z.mod_pos_bound (idx * bits b) 8 ltac:(lia)) as Hsh.
  set (shift := (idx * bits b) mod 8) in *. set (n := length_ r') in *.
  destruct (samples_copy_spec (bN b) (bits b) d (data rsp) idx n (Z.to_nat n)) as (rsp1 & Hcp & Hl1 & Hcopy); try lia; try done.
  fold shift in Hcp, Hcopy. rewrite Hcp, bind_Ok.
  assert (exists rsp2, (if shift =? 0 then Ok rsp1 else shift_words rsp1 (u64 (u64 (u64 (n * bits b) + shift) + 63) / 64) shift) = Ok rsp2
    /\ forall j, 0 <= j < n * bits b -> get_bit rsp2 j = get_bit d ((idx * bits b + j) mod (bN b * bits b))) as (rsp2 & -> & Hbits).
  { destruct (shift =? 0) eqn:E0; bool_facts.
    - exists rsp1. split; [done|]. intros j Hj. rewrite <- Hcopy by done. f_equal. lia.
    - assert (0 < n * bits b < 2 ^ 63) as Hnb by (split; [nia|]; assert (n * bits b <= bN b * bits b) by (apply Z.mul_le_mono_nonneg_r; lia); lia).
      rewrite (uwrap_small 64 (n * bits b)), (uwrap_small 64 (_ + shift)), (uwrap_small 64 (_ + 63)) by width_lia.
      destruct (shift_words_spec rsp1 ((n * bits b + shift + 63) / 64) shift) as (rsp2 & -> & _ & Hsw);
        [lia | div_lia | rewrite Hl1; unfold bits8 in *; div_lia |].
      exists rsp2. split; [done|]. intros j Hj. rewrite Hsw by div_lia. rewrite <- Hcopy by done. f_equal. lia. }
  rewrite bind_Ok, Hutc, bind_Ok. exists rsp2. split; [done|].
  subst l. apply list_eq. intros i. destruct (decide (i < Z.to_nat n)%nat) as [Hi|Hi].
  - rewrite lookup_take_lt, lookup_drop by done. unfold samples_of, ring_list. rewrite !list_lookup_fmap, !lookup_seq_lt by (cbn; lia).
    cbn [fmap option_fmap option_map g_data g_width g_N ring_of]. f_equal. rewrite !Nat.add_0_l.
    apply sample_ext. intros j Hj. rewrite Hbits by nia. f_equal.
    assert ((ring_tail (ring_of b d) + Z.of_nat (Z.to_nat o + i)) mod bN b = (idx + Z.of_nat i) mod bN b) as ->.
    { unfold idx. rewrite Z.add_mod_idemp_l by lia. f_equal. lia. }
    replace (idx * bits b + (Z.of_nat i * bits b + j)) with (j + (idx + Z.of_nat i) * bits b) by ring.
    pose proof (Z.mod_pos_bound (idx + Z.of_nat i) (bN b) ltac:(lia)).
    pose proof (Z.div_mod (idx + Z.of_nat i) (bN b) ltac:(lia)) as Hdm.
    symmetry. apply Z.mod_unique with ((idx + Z.of_nat i) / bN b); [left; nia|]. rewrite Hdm at 1. ring.
  - rewrite !lookup_ge_None_2; [done | |].
    + rewrite length_take. lia.
    + unfold samples_of. rewrite length_fmap, length_seq. lia.
Qed.

Lemma samples_range_late (b : bufsig) r :
  0 < bits b -> 0 < level0_size b <= sample_id_head b -> sample_id_head b < 2 ^ 62 ->
  oldest_id b <= start r < sample_id_head b -> sample_id_head b < start r + length_ r < 2 ^ 64 ->
  sample_id_head b - start r <= DATA_SIZE_MAX * 8 / bits b ->
  samples_range b r = Ok (Some (start r, sample_id_head b - start r, mk_range (start r) (sample_id_head b - 1) (length_ r))).
Proof.
  intros Hb Hs Hid Hst Hend Hmax. unfold samples_range, udiv, oldest_id in *. rewrite (proj2 (Z.eqb_neq (bits b) 0)) by lia.
  rewrite bind_Ok. rewrite (proj2 (Z.eqb_neq (level0_size b) 0)) by lia. cbn beta zeta.
  rewrite (uwrap_small 64 (sample_id_head b - level0_size b)) by width_lia.
  rewrite (proj2 (Z.ltb_ge (start r) _)) by lia. cbn [andb]. rewrite (proj2 (Z.leb_gt (sample_id_head b) (start r))) by lia.
  rewrite (uwrap_small 64 (start r + _)), (uwrap_small 64 (_ - 1)) by width_lia.
  rewrite (proj2 (Z.leb_le (sample_id_head b) _)) by lia. cbn [start end_ length_].
  rewrite (uwrap_small 64 (sample_id_head b - start r)), (uwrap_small 64 (sample_id_head b - 1)) by width_lia.
  by rewrite (proj2 (Z.ltb_ge (DATA_SIZE_MAX * 8 / bits b) _)) by lia.
Qed.

(** C40. A request that runs past the newest sample keeps its length in the response: only the end of
    the range is corrected.  For 1 and 4 bit samples that do not start on a byte of the ring the shift
    of the response then runs over the requested length, and so leaves the response as soon as the
    requested length does, however few samples are sent. *)
Theorem samples_get_late_overrun (b : bufsig) l rsp :
  holds b l -> level0_size b <= sample_id_head b < 2 ^ 62 -> (bN b * bits b) mod 8 = 0 ->
  let r := time_range_samples (info rsp) in
  oldest_id b <= start r < sample_id_head b -> sample_id_head b < start r + length_ r < 2 ^ 58 ->
  sample_id_head b - start r <= DATA_SIZE_MAX * 8 / bits b ->
  (sample_id_head b - start r) * bits b + 128 <= bits8 (data rsp) ->
  sample_id_head b - start r + 8 <= bN b ->
  ((start r - oldest_id b + level0_tail b) mod bN b * bits b) mod 8 <> 0 ->
  len (data rsp) < 8 * (length_ r * bits b / 64) ->
  samples_get b rsp = Fault OutOfBounds.
Proof.
  intros Hh Hid Hal r Hst Hlate Hmax Hroom Hover Hshift Hlong.
  pose proof Hh as (Hg & d & Hd & Hw & Hl). pose proof Hg as (HN & _ & _ & _ & Hty).
  assert (bits b = 1 \/ bits b = 4 \/ bits b = 32) as Hb3 by tauto.
  pose proof Hw as (_ & Hw0 & Hb & Hb63 & Hsz & Hhd & Hz). cbn [g_N g_data g_width g_head g_size ring_of] in *.
  assert (0 < level0_size b) by (unfold oldest_id in *; lia).
  unfold samples_get. fold r. rewrite samples_range_late by (done || lia). rewrite bind_Ok. cbn beta iota zeta. cbn [length_].
  unfold level0. rewrite Hd, bind_Ok. rewrite (uwrap_small 64 (sample_id_head b - level0_size b)) by width_lia. fold (oldest_id b).
  assert (0 <= level0_tail b <= bN b) as Htl by (unfold level0_tail; case_if; lia).
  assert (0 <= start r - oldest_id b /\ start r - oldest_id b < bN b) as [Ho HoN] by (unfold oldest_id in *; lia).
  rewrite (uwrap_small 64 (start r - oldest_id b)), (uwrap_small 64 (_ + level0_tail b)) by width_lia.
  unfold umod. rewrite (proj2 (Z.eqb_neq (bN b) 0)) by lia. rewrite bind_Ok. rewrite shift_eq by done.
  set (idx := (_ + level0_tail b) mod bN b) in *. assert (0 <= idx < bN b) as Hidx by (apply Z.mod_pos_bound; lia).
  pose proof (Z.mod_pos_bound (idx * bits b) 8 ltac:(lia)) as Hsh. set (n := sample_id_head b - start r) in *.
  destruct (samples_copy_spec (bN b) (bits b) d (data rsp) idx n (Z.to_nat n)) as (rsp1 & -> & Hl1 & _); try lia.
  rewrite bind_Ok, (proj2 (Z.eqb_neq _ 0)) by done. set (shift := (idx * bits b) mod 8) in *. clearbody shift idx.
  assert (0 < length_ r * bits b < 2 ^ 63) as Hlb by (unfold oldest_id, n in *; nia).
  rewrite (uwrap_small 64 (length_ r * bits b)), (uwrap_small 64 (_ + shift)), (uwrap_small 64 (_ + 63)) by width_lia.
  set (words := (length_ r * bits b + shift + 63) / 64).
  assert (length_ r * bits b / 64 <= words) by (unfold words; div_lia).
  unfold shift_words. unfold bits8 in *.
  destruct (ld64_bits rsp1 0) as (fwd & -> & _); [lia | nia |]. rewrite bind_Ok.
  rewrite shift_loop_oob; [done | lia | nia | lia].
Qed.
End Request.

(** *** Requests to the example buffer *)

Definition example_rsp (s e n size : Z) : jsdrv_buffer_response_s jsdrv_tmap_s :=
  mk_rsp _ 0 0 (mk_info _ 0 0 0 0 0 [] 0 0 range_zero (mk_range s e n) time_map_zero 0 None)
    (replicate (Z.to_nat size) 0) [].

Lemma samples_get_contents_witness :
  exists l d utc, buf_ok example_full l
    /\ samples_get example_full (example_rsp 101 110 10 64)
       = Ok (with_info (example_rsp 101 110 10 64) JSDRV_BUFFER_RESPONSE_SAMPLES (mk_range 101 110 10) utc d [])
    /\ samples_of d 1 10 = take 10 (drop 1 l).
Proof.
  destruct example_full_ok as [l Hok]. pose proof Hok as (Hh & Hid & _).
  destruct (samples_to_utc example_full (mk_range 101 110 10)) as [utc|f] eqn:Eu; [|vm_compute in Eu; discriminate].
  destruct (samples_get_contents example_full l (example_rsp 101 110 10 64) utc Hh Hid) as (d & Hd & Hs);
    [vm_compute; reflexivity | cbn; lia | cbn; lia | vm_compute; reflexivity | vm_compute; discriminate | vm_compute; discriminate
    | vm_compute; discriminate | left; vm_compute; discriminate | exact Eu |].
  exists l, d, utc. split; [exact Hok|]. split; [exact Hd | exact Hs].
Defined.

Lemma samples_get_late_overrun_witness :
  samples_get example_full (example_rsp 125 0 100000 64) = Fault OutOfBounds.
Proof.
  destruct example_full_ok as [l (Hh & Hid & _)].
  apply (samples_get_late_overrun example_full l (example_rsp 125 0 100000 64) Hh Hid);
    first [vm_compute; reflexivity | vm_compute; discriminate | vm_compute; split; (reflexivity || discriminate)].
Defined.

(** A request for the whole ring of 1 bit samples reads a byte behind the ring, when the oldest
    sample is not the first of its byte: the rounding of the second copy counts the shift again. *)
Definition example_wrapped : bufsig_s jsdrv_tmap_s :=
  match jsdrv_bufsig_recv_data example_full (example_msg 3 1 132 31 [1; 2; 3; 4]) with Ok b => b | Fault _ => example_full end.
Example samples_get_overread :
  level0_head example_wrapped = 31
  /\ samples_get example_wrapped (example_rsp 131 162 32 64) = Fault OutOfBounds
  /\ (exists r, samples_get example_wrapped (example_rsp 131 152 22 64) = Ok r).
Proof. split; [vm_compute; reflexivity|]. split; [vm_compute; reflexivity | eexists; vm_compute; reflexivity]. Qed.

(** A length of [2^63] wraps to zero when doubled, is taken for a summary request, and divides by zero. *)
Example request_length_wraps :
  jsdrv_bufsig_process_request example_full (mk_req JSDRV_TIME_SAMPLES (mk_range 100 131 (2 ^ 63)) 1) (example_rsp 0 0 0 64)
  = Fault DivByZero.
Proof. vm_compute. reflexivity. Qed.
