(* ===== verification/Union.v ===== *)
(** * Tagged values (include/jsdrv/union.h, src/union.c)

    [value] is the eight bytes of the union as one little-endian word, or, for the
    pointer types, the memory object pointed to ([None] is NULL).  A store through a
    narrower member replaces the low bytes of the word.  Reading a pointer through a
    word, or beyond its object, is a fault.  The theorems speak of [int_value], the
    number that an integer-typed value stands for. *)

From Stdlib Require Import Strings.String.
From S2P Require Import Prelude Float Cstr ErrorCode Time.

(** ** Types and flags *)

Definition JSDRV_UNION_NULL : Z := 0.
Definition JSDRV_UNION_STR : Z := 1.
Definition JSDRV_UNION_JSON : Z := 2.
Definition JSDRV_UNION_BIN : Z := 3.
Definition JSDRV_UNION_STDMSG : Z := 4.
Definition JSDRV_UNION_FRAME : Z := 5.
Definition JSDRV_UNION_F32 : Z := 6.
Definition JSDRV_UNION_F64 : Z := 7.
Definition JSDRV_UNION_U8 : Z := 8.
Definition JSDRV_UNION_U16 : Z := 9.
Definition JSDRV_UNION_U32 : Z := 10.
Definition JSDRV_UNION_U64 : Z := 11.
Definition JSDRV_UNION_I8 : Z := 12.
Definition JSDRV_UNION_I16 : Z := 13.
Definition JSDRV_UNION_I32 : Z := 14.
Definition JSDRV_UNION_I64 : Z := 15.

Definition JSDRV_UNION_FLAG_RETAIN : Z := 1.
Definition JSDRV_UNION_FLAG_CONST : Z := 2.
Definition JSDRV_UNION_FLAG_HEAP_MEMORY : Z := 128.

Inductive jsdrv_union_inner_u :=
  | Word (b : Z)                    (* the eight bytes *)
  | Mem (p : option (list Z)).      (* a pointer: NULL or the object behind it *)

Record jsdrv_union_s := mk_union {
  type : Z;
  flags : Z;
  op : Z;
  app : Z;
  size : Z;
  value : jsdrv_union_inner_u;
}.

#[global] Instance inner_eq_dec : EqDecision jsdrv_union_inner_u.
Proof. solve_decision. Defined.
#[global] Instance union_eq_dec : EqDecision jsdrv_union_s.
Proof. solve_decision. Defined.

Definition set_type (x : jsdrv_union_s) (t : Z) : jsdrv_union_s :=
  mk_union t (flags x) (op x) (app x) (size x) (value x).
Definition set_value (x : jsdrv_union_s) (v : jsdrv_union_inner_u) : jsdrv_union_s :=
  mk_union (type x) (flags x) (op x) (app x) (size x) v.

(** Word access: the eight bytes, and a store of [w] bits through a narrower member. *)
Definition word (x : jsdrv_union_s) : res Z :=
  match value x with Word b => Ok b | Mem _ => Fault OutOfBounds end.
Definition put (w b v : Z) : Z := Z.shiftr b w * 2 ^ w + v mod 2 ^ w.

(** Pointer access. *)
Definition object (x : jsdrv_union_s) : res (list Z) :=
  match value x with Mem (Some m) => Ok m | _ => Fault OutOfBounds end.
(** [strlen] of the object. *)
Definition obj_strlen (m : list Z) : res Z :=
  match cstr_at m with Some s => Ok (len s) | None => Fault OutOfBounds end.
(** [memcmp(a, b, n) == 0] *)
Definition mem_eq (a b : list Z) (n : Z) : res bool :=
  if (n <=? len a) && (n <=? len b)
  then Ok (bool_decide (take (Z.to_nat n) a = take (Z.to_nat n) b)) else Fault OutOfBounds.

Definition jsdrv_union_null : jsdrv_union_s := mk_union JSDRV_UNION_NULL 0 0 0 0 (Word 0).
Definition jsdrv_union_i32 (v : Z) : jsdrv_union_s :=
  mk_union JSDRV_UNION_I32 0 0 0 0 (Word (u64 (i32 v))).
Definition jsdrv_union_u32 (v : Z) : jsdrv_union_s :=
  mk_union JSDRV_UNION_U32 0 0 0 0 (Word (u32 v)).
Definition jsdrv_union_str (m : list Z) : jsdrv_union_s :=
  mk_union JSDRV_UNION_STR 0 0 0 0 (Mem (Some m)).

(** ** Comparison *)

(** Equality of the integer members: read at the width and signedness of the type. *)
Definition read_int (t b : Z) : option Z :=
  if t =? JSDRV_UNION_U8 then Some (u8 b) else if t =? JSDRV_UNION_U16 then Some (u16 b)
  else if t =? JSDRV_UNION_U32 then Some (u32 b) else if t =? JSDRV_UNION_U64 then Some (u64 b)
  else if t =? JSDRV_UNION_I8 then Some (i8 b) else if t =? JSDRV_UNION_I16 then Some (i16 b)
  else if t =? JSDRV_UNION_I32 then Some (i32 b) else if t =? JSDRV_UNION_I64 then Some (i64 b)
  else None.

(** [v->size ? v->size : strlen(v->value.str) + 1] *)
Definition str_size (x : jsdrv_union_s) (m : list Z) : res Z :=
  if size x =? 0 then n ← obj_strlen m; Ok (n + 1) else Ok (size x).

Definition jsdrv_union_eq (v1 v2 : jsdrv_union_s) : res bool :=
  let t := type v1 in
  if negb (t =? type v2) then Ok false
  else if t =? JSDRV_UNION_NULL then Ok true
  else if (t =? JSDRV_UNION_JSON) || (t =? JSDRV_UNION_STR) then
    m1 ← object v1; m2 ← object v2;
    sz1 ← str_size v1 m1; sz2 ← str_size v2 m2;
    if negb (sz1 =? sz2) then Ok false else mem_eq m1 m2 (sz1 - 1)
  else if (t =? JSDRV_UNION_BIN) || (t =? JSDRV_UNION_STDMSG) || (t =? JSDRV_UNION_FRAME) then
    if negb (size v1 =? size v2) then Ok false
    else m1 ← object v1; m2 ← object v2; mem_eq m1 m2 (size v1)
  else if t =? JSDRV_UNION_F32 then
    b1 ← word v1; b2 ← word v2; Ok (SFeqb (f32_of_bits (u32 b1)) (f32_of_bits (u32 b2)))
  else if t =? JSDRV_UNION_F64 then
    b1 ← word v1; b2 ← word v2; Ok (SFeqb (f64_of_bits (u64 b1)) (f64_of_bits (u64 b2)))
  else
    match read_int t 0 with
    | Some _ => b1 ← word v1; b2 ← word v2; Ok (bool_decide (read_int t b1 = read_int t b2))
    | None => Ok false
    end.

Definition jsdrv_union_eq_exact (v1 v2 : jsdrv_union_s) : res bool :=
  if negb (flags v1 =? flags v2) || negb (op v1 =? op v2) || negb (app v1 =? app v2)
     || negb (size v1 =? size v2) then Ok false
  else jsdrv_union_eq v1 v2.

(** ** Widening and equivalence *)

Definition jsdrv_union_widen (v : jsdrv_union_s) : res jsdrv_union_s :=
  let t := type v in
  let to_u (w : Z) := b ← word v; Ok (set_value (set_type v JSDRV_UNION_U64) (Word (uwrap w b))) in
  let to_i (w : Z) := b ← word v; Ok (set_value (set_type v JSDRV_UNION_I64) (Word (u64 (swrap w b)))) in
  if t =? JSDRV_UNION_F32 then
    b ← word v;
    Ok (set_value (set_type v JSDRV_UNION_F64) (Word (bits_of_f64 (f64_of_f32 (f32_of_bits (u32 b))))))
  else if t =? JSDRV_UNION_U8 then to_u 8 else if t =? JSDRV_UNION_U16 then to_u 16
  else if t =? JSDRV_UNION_U32 then to_u 32
  else if t =? JSDRV_UNION_I8 then to_i 8 else if t =? JSDRV_UNION_I16 then to_i 16
  else if t =? JSDRV_UNION_I32 then to_i 32
  else Ok v.

Definition jsdrv_union_equiv (v1 v2 : jsdrv_union_s) : res bool :=
  x ← jsdrv_union_widen v1;
  y ← jsdrv_union_widen v2;
  e ← jsdrv_union_eq x y;
  let mixed :=
    bx ← word x; by' ← word y;
    let xi := i64 bx in let yi := i64 by' in
    Ok ((xi =? yi) && (0 <=? xi) && (yi <=? I64_MAX)) in
  if e : bool then Ok true
  else if type x =? JSDRV_UNION_U64 then
    if type y =? JSDRV_UNION_U64 then bx ← word x; by' ← word y; Ok (u64 bx =? u64 by')
    else if type y =? JSDRV_UNION_I64 then mixed else Ok false
  else if type x =? JSDRV_UNION_I64 then
    if type y =? JSDRV_UNION_U64 then mixed
    else if type y =? JSDRV_UNION_I64 then bx ← word x; by' ← word y; Ok (i64 bx =? i64 by')
    else Ok false
  else Ok false.

(** ** Conversion to a type *)

Definition EC_PARAMETER_INVALID : Z := ec_code PARAMETER_INVALID.
Definition EC_TOO_SMALL : Z := ec_code TOO_SMALL.

(** The integer range of a type. *)
Definition int_range (t : Z) : option (Z * Z) :=
  if t =? JSDRV_UNION_U8 then Some (0, U8_MAX) else if t =? JSDRV_UNION_U16 then Some (0, U16_MAX)
  else if t =? JSDRV_UNION_U32 then Some (0, U32_MAX) else if t =? JSDRV_UNION_U64 then Some (0, U64_MAX)
  else if t =? JSDRV_UNION_I8 then Some (I8_MIN, I8_MAX) else if t =? JSDRV_UNION_I16 then Some (I16_MIN, I16_MAX)
  else if t =? JSDRV_UNION_I32 then Some (I32_MIN, I32_MAX) else if t =? JSDRV_UNION_I64 then Some (I64_MIN, I64_MAX)
  else None.

(** The widths of the integer members, in bits. *)
Definition int_width (t : Z) : Z :=
  if (t =? JSDRV_UNION_U8) || (t =? JSDRV_UNION_I8) then 8
  else if (t =? JSDRV_UNION_U16) || (t =? JSDRV_UNION_I16) then 16
  else if (t =? JSDRV_UNION_U32) || (t =? JSDRV_UNION_I32) then 32 else 64.

(** The tests of the double are [v < lo] and [v > hi] for the types up to 32 bits, and
    [v < lo], [v >= hi + 1] for the 64-bit ones. *)
Definition f64_out_of_range (v : f64) (t lo hi : Z) : bool :=
  SFltb v (f64_of_Z lo)
  || (if int_width t =? 64 then SFleb (f64_of_Z (hi + 1)) v else SFltb (f64_of_Z hi) v).

Definition jsdrv_union_as_type (x : jsdrv_union_s) (t : Z) : res (Z * jsdrv_union_s) :=
  x ← jsdrv_union_widen x;
  if type x =? t then Ok (0, x)
  else if (type x =? JSDRV_UNION_U64) || (type x =? JSDRV_UNION_I64) then
    b ← word x;
    let v := if type x =? JSDRV_UNION_U64 then u64 b else i64 b in
    if t =? JSDRV_UNION_F32 then
      Ok (0, set_type (set_value x (Word (put 32 b (bits_of_f32 (f32_of_Z v))))) t)
    else if t =? JSDRV_UNION_F64 then
      Ok (0, set_type (set_value x (Word (bits_of_f64 (f64_of_Z v)))) t)
    else
      match int_range t with
      | Some (lo, hi) => if (v <? lo) || (hi <? v) then Ok (EC_PARAMETER_INVALID, x)
                         else Ok (0, set_type x t)
      | None => Ok (EC_PARAMETER_INVALID, x)
      end
  else if type x =? JSDRV_UNION_F64 then
    b ← word x;
    let v := f64_of_bits (u64 b) in
    if t =? JSDRV_UNION_F32 then
      Ok (0, set_type (set_value x (Word (put 32 b (bits_of_f32 (f32_of_f64 v))))) t)
    else
      match int_range t with
      | Some (lo, hi) =>
          if f64_out_of_range v t lo hi then Ok (EC_PARAMETER_INVALID, x)
          else n ← f_cast lo hi (f_trunc v);
               Ok (0, set_type (set_value x (Word (put (int_width t) b n))) t)
      | None => Ok (EC_PARAMETER_INVALID, x)
      end
  else Ok (EC_PARAMETER_INVALID, x).

(** ** Booleans, names *)

(** [rv] is the old value of the output; [buffer] the scratch buffer of the parser. *)
Definition jsdrv_union_to_bool (buffer : list Z) (x : jsdrv_union_s) (rv : bool) : res (Z * bool) :=
  let t := type x in
  if t =? JSDRV_UNION_NULL then Ok (0, false)
  else if (t =? JSDRV_UNION_STR) || (t =? JSDRV_UNION_JSON) then
    m ← object x;
    match cstr_at m with
    | None => Fault OutOfBounds
    | Some s =>
        '(rc, v) ← jsdrv_cstr_to_bool buffer (Some s) (Some rv);
        Ok (if rc =? 0 then 0 else EC_PARAMETER_INVALID, default rv v)
    end
  else if t =? JSDRV_UNION_F32 then
    b ← word x; Ok (0, negb (SFeqb (f32_of_bits (u32 b)) (S754_zero false)))
  else if t =? JSDRV_UNION_F64 then
    b ← word x; Ok (0, negb (SFeqb (f64_of_bits (u64 b)) (S754_zero false)))
  else
    match read_int t 0 with
    | Some _ => b ← word x; Ok (0, negb (bool_decide (read_int t b = Some 0)))
    | None => Ok (EC_PARAMETER_INVALID, false)
    end.

Definition jsdrv_union_type_to_str (t : Z) : cstr :=
  if t =? JSDRV_UNION_NULL then str "nul" else if t =? JSDRV_UNION_STR then str "str"
  else if t =? JSDRV_UNION_JSON then str "jsn" else if t =? JSDRV_UNION_BIN then str "bin"
  else if t =? JSDRV_UNION_STDMSG then str "std" else if t =? JSDRV_UNION_FRAME then str "frm"
  else if t =? JSDRV_UNION_F32 then str "f32" else if t =? JSDRV_UNION_F64 then str "f64"
  else if t =? JSDRV_UNION_U8 then str " u8" else if t =? JSDRV_UNION_U16 then str "u16"
  else if t =? JSDRV_UNION_U32 then str "u32" else if t =? JSDRV_UNION_U64 then str "u64"
  else if t =? JSDRV_UNION_I8 then str " i8" else if t =? JSDRV_UNION_I16 then str "i16"
  else if t =? JSDRV_UNION_I32 then str "i32" else if t =? JSDRV_UNION_I64 then str "i64"
  else str "inv".

Definition flags_to_str (f : Z) : cstr :=
  let f := Z.land f (Z.lor JSDRV_UNION_FLAG_RETAIN JSDRV_UNION_FLAG_CONST) in
  if f =? 1 then str ".R " else if f =? 2 then str ".C " else if f =? 3 then str ".RC" else str "   ".

(** ** Copy *)

Definition jsdrv_union_is_type_ptr (x : jsdrv_union_s) : bool :=
  (type x =? JSDRV_UNION_STR) || (type x =? JSDRV_UNION_JSON) || (type x =? JSDRV_UNION_BIN).

(** The result code, the destination and the buffer; the destination's payload, when
    it is copied, is the buffer itself. *)
Definition jsdrv_union_copy (dst src : option jsdrv_union_s) (buffer : option (list Z)) (buffer_size : Z)
  : res (Z * option jsdrv_union_s * option (list Z)) :=
  match dst, src with
  | Some _, Some src =>
      let d := mk_union (type src) (Z.land (flags src) (Z.lnot JSDRV_UNION_FLAG_HEAP_MEMORY))
                 (op src) (app src) (size src) (value src) in
      if jsdrv_union_is_type_ptr src || (type src =? JSDRV_UNION_STDMSG) || (type src =? JSDRV_UNION_FRAME) then
        payload ← (match value src with Mem p => Ok p | Word _ => Fault OutOfBounds end);
        sz ← (match payload with
              | Some m =>
                  if ((type src =? JSDRV_UNION_STR) || (type src =? JSDRV_UNION_JSON)) && (size src =? 0)
                  then n ← obj_strlen m; Ok (u32 (n + 1)) else Ok (size src)
              | None => Ok (size src)
              end);
        match payload with
        | Some m =>
            if sz =? 0 then Ok (0, Some (mk_union (type d) (flags d) (op d) (app d) 0 (Mem None)), buffer)
            else
              match buffer with
              | Some buf =>
                  if buffer_size <? sz then Ok (EC_TOO_SMALL, Some d, buffer)
                  else if (len m <? sz) || (len buf <? sz) then Fault OutOfBounds
                  else
                    let buf := take (Z.to_nat sz) m ++ drop (Z.to_nat sz) buf in
                    Ok (0, Some (mk_union (type d) (flags d) (op d) (app d) sz (Mem (Some buf))), Some buf)
              | None => Ok (EC_TOO_SMALL, Some d, buffer)
              end
        | None => Ok (0, Some (mk_union (type d) (flags d) (op d) (app d) 0 (Mem None)), buffer)
        end
      else Ok (0, Some d, buffer)
  | _, _ => Ok (EC_PARAMETER_INVALID, dst, buffer)
  end.

(** ** Text *)

(** [%d], [%u], [%lld] and [%llu]: sign and digits. *)
Definition fmt_d (v : Z) : cstr :=
  if v <? 0 then 45 :: dec_digits 20 (- v) [] else dec_digits 20 v [].

(** [snprintf(&buf[off], n, text)]: at most [n - 1] characters and the terminator. *)
Definition snprintf_at (buf : list Z) (off n : Z) (text : cstr) : res (list Z) :=
  store_all (take (Z.to_nat (n - 1)) text) buf off.

(** [jsdrv_cstr_copy(&buf[off], s, n)] *)
Definition copy_at (buf : list Z) (off n : Z) (s : cstr) : res (list Z) :=
  '(m, _) ← jsdrv_cstr_copy (Some (drop (Z.to_nat off) buf)) (Some s) n;
  Ok (take (Z.to_nat off) buf ++ default [] m).

(** The two normalisation loops: [v /= 10] while [v >= 10], [v *= 10] while [v < 1]. *)
Fixpoint scale_down (fuel : nat) (v : f64) (exponent : Z) : res (f64 * Z) :=
  if SFleb (f64_of_Z 10) v then
    match fuel with
    | O => Fault OutOfFuel
    | S fuel' => scale_down fuel' (f64_div v (f64_of_Z 10)) (exponent + 1)
    end
  else Ok (v, exponent).
Fixpoint scale_up (fuel : nat) (v : f64) (exponent : Z) : res (f64 * Z) :=
  if SFltb v (f64_of_Z 1) then
    match fuel with
    | O => Fault OutOfFuel
    | S fuel' => scale_up fuel' (f64_mul v (f64_of_Z 10)) (exponent - 1)
    end
  else Ok (v, exponent).

(** The text of [f64_to_str]; 400 rounds cover the exponents of a double. *)
Definition f64_text (v : f64) : res cstr :=
  if f_is_nan v then Ok (str "nan")
  else
    let neg := SFltb v (S754_zero false) in
    let v := if neg then f64_opp v else v in
    if (match v with S754_infinity _ => true | _ => false end)
    then Ok (if neg then str "-inf" else str "inf")
    else
      '(v, exponent) ←
        (if SFeqb v (S754_zero false) then Ok (v, 0)
         else '(v, e) ← scale_down 400 v 0; scale_up 400 v e);
      digits ← f_to_u64 (f64_add (f64_mul v (f64_of_Z 100000000)) (f64_lit 1 (-1)));
      let '(digits, exponent) :=
        if 1000000000 <=? digits then (digits / 10, exponent + 1) else (digits, exponent) in
      Ok ((if neg then str "-" else []) ++ dec_digits 20 (u32 (digits / 100000000)) []
          ++ str "." ++ fmt_u0 8 (u32 (digits mod 100000000)) ++ str "e" ++ fmt_d exponent).

(** What is printed for a value, before truncation to the buffer. *)
Definition value_text (x : jsdrv_union_s) : res cstr :=
  let t := type x in
  if (t =? JSDRV_UNION_STR) || (t =? JSDRV_UNION_JSON) then
    m ← object x; match cstr_at m with Some s => Ok s | None => Fault OutOfBounds end
  else if (t =? JSDRV_UNION_BIN) || (t =? JSDRV_UNION_STDMSG) || (t =? JSDRV_UNION_FRAME) then
    Ok (str "size=" ++ fmt_d (i32 (size x)))
  else if t =? JSDRV_UNION_F32 then b ← word x; f64_text (f64_of_f32 (f32_of_bits (u32 b)))
  else if t =? JSDRV_UNION_F64 then b ← word x; f64_text (f64_of_bits (u64 b))
  else
    match read_int t 0 with
    | Some _ => b ← word x; Ok (fmt_d (default 0 (read_int t b)))
    | None => Ok []
    end.

(** Strings are copied, everything else is printed; both leave the longest prefix that
    fits behind the optional 7-character heading. *)
Definition jsdrv_union_value_to_str (x : jsdrv_union_s) (buf : option (list Z)) (str_len opts : Z)
  : res (Z * option (list Z)) :=
  match buf with
  | None => if str_len <? 8 then Ok (EC_TOO_SMALL, None) else Fault OutOfBounds
  | Some m =>
      if str_len <? 8 then
        if str_len =? 0 then Ok (EC_TOO_SMALL, Some m) else m ← st m 0 0; Ok (EC_TOO_SMALL, Some m)
      else
        '(m, off) ←
          (if opts =? 0 then Ok (m, 0)
           else
             m ← store_all (jsdrv_union_type_to_str (type x) ++ flags_to_str (flags x) ++ str " ") m 0;
             Ok (m, 7));
        text ← value_text x;
        m ← (if (type x =? JSDRV_UNION_STR) || (type x =? JSDRV_UNION_JSON)
             then copy_at m off (str_len - off) text
             else snprintf_at m off (str_len - off) text);
        Ok (0, Some m)
  end.

Example value_to_str_f64 :
  ('(_, m) ← jsdrv_union_value_to_str (mk_union JSDRV_UNION_F64 1 0 0 0 (Word (bits_of_f64 (f64_lit (-3) (-1)))))
     (Some (replicate 32 88)) 32 1;
   Ok (cstr_at (default [] m))) = Ok (Some (str "f64.R  -1.50000000e0")).
Proof. vm_compute. reflexivity. Qed.

(** ** The number an integer value stands for *)

Definition int_value (x : jsdrv_union_s) : option Z :=
  match value x with Word b => read_int (type x) b | Mem _ => None end.

(** A value of one of the eight integer types. *)
Definition is_int (x : jsdrv_union_s) : Prop :=
  JSDRV_UNION_U8 <= type x <= JSDRV_UNION_I64 /\ exists b, value x = Word b /\ is_u 64 b.

(** Case analysis on an integer type. *)
Ltac int_cases H :=
  match type of H with
  | JSDRV_UNION_U8 <= ?t <= JSDRV_UNION_I64 =>
      let K := fresh "Ht" in
      assert (t = 8 \/ t = 9 \/ t = 10 \/ t = 11 \/ t = 12 \/ t = 13 \/ t = 14 \/ t = 15) as K
        by (unfold JSDRV_UNION_U8, JSDRV_UNION_I64 in H; lia);
      destruct K as [K|[K|[K|[K|[K|[K|[K|K]]]]]]]; rewrite ?K in *
  end.

(** Wrapping twice at increasing widths. *)
Lemma u64_of_signed w b : 0 < w <= 64 -> i64 (u64 (swrap w b)) = swrap w b.
Proof.
  intros Hw. pose proof (swrap_range w b ltac:(lia)) as Hr.
  assert (2 ^ (w - 1) <= 2 ^ 63) by (apply Z.pow_le_mono_r; lia).
  unfold is_s in Hr. unfold uwrap. unfold swrap at 1. rewrite Zplus_mod_idemp_l.
  change (64 - 1) with 63. rewrite Z.mod_small; [lia|]. change (2 ^ 64) with (2 * 2 ^ 63). lia.
Qed.

Lemma u64_of_unsigned w b : 0 <= w <= 64 -> u64 (uwrap w b) = uwrap w b.
Proof.
  intros Hw. apply uwrap_small. pose proof (uwrap_range w b ltac:(lia)) as [H1 H2].
  assert (2 ^ w <= 2 ^ 64) by (apply Z.pow_le_mono_r; lia). split; lia.
Qed.

Lemma uwrap_is_u64 w b : 0 <= w <= 64 -> is_u 64 (uwrap w b).
Proof. intros Hw. rewrite <- u64_of_unsigned by done. by apply uwrap_range. Qed.

(** Widening keeps the number and ends in one of the two 64-bit types. *)
Lemma widen_int x : is_int x ->
  exists y b, jsdrv_union_widen x = Ok y /\ value y = Word b /\ is_u 64 b
    /\ (type y = JSDRV_UNION_U64 \/ type y = JSDRV_UNION_I64)
    /\ int_value y = int_value x
    /\ flags y = flags x /\ size y = size x /\ op y = op x /\ app y = app x.
Proof.
  destruct x as [t fl o a sz v]. intros [Ht (b & Hv & Hb)]. cbn in *. subst v.
  unfold jsdrv_union_widen, word, int_value; cbn [type value flags size op app set_type set_value].
  int_cases Ht; cbn; eexists _, _; (split; [reflexivity|]); cbn;
    (split; [reflexivity|]);
    (split; [first [exact Hb | by apply uwrap_range | by apply uwrap_is_u64]|]);
    (split; [by auto|]); (split; [|done]); unfold read_int; cbn; f_equal;
    first [done | by apply u64_of_unsigned | by apply u64_of_signed].
Qed.

(** Narrow reads depend on the word modulo [2^64] only. *)
Lemma mod_narrow w b v : 0 <= w <= 64 -> b mod 2 ^ 64 = v mod 2 ^ 64 -> b mod 2 ^ w = v mod 2 ^ w.
Proof.
  intros Hw H. assert (2 ^ 64 = 2 ^ (64 - w) * 2 ^ w) as E by (rewrite <- Z.pow_add_r by lia; f_equal; lia).
  assert (forall a, a mod 2 ^ w = (a mod 2 ^ 64) mod 2 ^ w) as Hm.
  { intros a. symmetry. apply Z.mod_mod_divide. exists (2 ^ (64 - w)). exact E. }
  by rewrite Hm, H, <- Hm.
Qed.

Lemma uwrap_narrow w b v : 0 <= w <= 64 -> b mod 2 ^ 64 = v mod 2 ^ 64 -> is_u w v -> uwrap w b = v.
Proof. intros Hw H Hv. unfold uwrap. rewrite (mod_narrow w b v) by done. by apply Z.mod_small. Qed.

Lemma swrap_narrow w b v : 0 < w <= 64 -> b mod 2 ^ 64 = v mod 2 ^ 64 -> is_s w v -> swrap w b = v.
Proof.
  intros Hw H Hv. rewrite <- (swrap_small w v) by (done || lia). unfold swrap. f_equal.
  rewrite Zplus_mod, (mod_narrow w b v), <- Zplus_mod by (done || lia). done.
Qed.

Lemma swrap_mod w b : 0 < w -> swrap w b mod 2 ^ w = b mod 2 ^ w.
Proof. intros Hw. unfold swrap. rewrite Zminus_mod_idemp_l. f_equal. lia. Qed.

(** A word that stands for [v] modulo [2^64] reads as [v] through every integer type
    whose range holds [v]. *)
Lemma read_int_of_value t b v lo hi :
  int_range t = Some (lo, hi) -> b mod 2 ^ 64 = v mod 2 ^ 64 -> lo <= v <= hi -> read_int t b = Some v.
Proof.
  unfold int_range, read_int. intros Hr Hb Hv.
  repeat (case_if_in Hr; [injection Hr as <- <-; f_equal;
    first [apply uwrap_narrow | apply swrap_narrow]; [lia | done | width_lia]|]).
  discriminate.
Qed.

Lemma int_range_total t : JSDRV_UNION_U8 <= t <= JSDRV_UNION_I64 -> exists lo hi, int_range t = Some (lo, hi).
Proof. intros Ht. int_cases Ht; cbn; eauto. Qed.

(** The two 64-bit types. *)
Lemma wide_value y b : value y = Word b -> is_u 64 b ->
  type y = JSDRV_UNION_U64 \/ type y = JSDRV_UNION_I64 ->
  exists v, int_value y = Some v /\ (if type y =? JSDRV_UNION_U64 then u64 b else i64 b) = v
    /\ b mod 2 ^ 64 = v mod 2 ^ 64 /\ I64_MIN <= v <= U64_MAX
    /\ (type y = JSDRV_UNION_U64 -> 0 <= v) /\ (type y = JSDRV_UNION_I64 -> v <= I64_MAX).
Proof.
  intros Hv Hb Ht. unfold int_value. rewrite Hv. pose proof (swrap_range 64 b ltac:(lia)) as Hs.
  destruct Ht as [->| ->]; cbn.
  - exists (u64 b). rewrite uwrap_small by done. split_and!; try done; width_lia.
  - exists (i64 b). rewrite swrap_mod by lia. split_and!; try done; width_lia.
Qed.

(** An integer is converted when it is in range, and refused otherwise. *)
Lemma as_type_int x t v lo hi :
  is_int x -> int_range t = Some (lo, hi) -> int_value x = Some v ->
  exists y, jsdrv_union_as_type x t = Ok (if (lo <=? v) && (v <=? hi) then 0 else EC_PARAMETER_INVALID, y)
    /\ int_value y = Some v /\ (lo <= v <= hi -> type y = t).
Proof.
  intros Hx Hr Hv. destruct (widen_int x Hx) as (y & b & Hw & Hy & Hb & Ht & Hiv & _).
  destruct (wide_value y b Hy Hb Ht) as (v' & Hv' & Hif & Hmod & Hrange & Hu & Hi).
  assert (v' = v) as -> by congruence. clear Hiv. unfold jsdrv_union_as_type. rewrite Hw, bind_Ok.
  assert (t <> JSDRV_UNION_F32 /\ t <> JSDRV_UNION_F64) as [Hf1 Hf2].
  { split; intros ->; discriminate. }
  destruct (type y =? t) eqn:Heq; bool_facts.
  - assert (lo <= v <= hi) as Hin.
    { subst t. destruct Ht as [E|E]; rewrite E in Hr; injection Hr as <- <-; [specialize (Hu E) | specialize (Hi E)]; lia. }
    simpl_cmp. exists y. done.
  - assert ((type y =? JSDRV_UNION_U64) || (type y =? JSDRV_UNION_I64) = true) as ->.
    { apply orb_true_iff. rewrite !Z.eqb_eq. done. }
    unfold word. rewrite Hy, bind_Ok, Hif.
    rewrite (proj2 (Z.eqb_neq t _) Hf1), (proj2 (Z.eqb_neq t _) Hf2), Hr.
    assert ((v <? lo) || (hi <? v) = negb ((lo <=? v) && (v <=? hi))) as ->.
    { apply Bool.eq_iff_eq_true. rewrite orb_true_iff, negb_true_iff, andb_false_iff, !Z.ltb_lt, !Z.leb_gt. done. }
    destruct ((lo <=? v) && (v <=? hi)) eqn:E; cbn [negb].
    + exists (set_type y t). split; [done|]. split; [|done]. unfold int_value, set_type; cbn [value type].
      rewrite Hy. apply (read_int_of_value t b v lo hi); [done | done |]. bool_facts. lia.
    + exists y. split_and!; [done | done |]. intros Hin. bool_facts. lia.
Qed.

(** Converting between the eight integer types succeeds exactly when the number fits
    the target, and never changes the number; the failing conversion reports
    PARAMETER_INVALID and keeps the number in a 64-bit type. *)
Lemma jsdrv_union_as_type_int x t v lo hi :
  is_int x -> int_range t = Some (lo, hi) -> int_value x = Some v ->
  exists y, jsdrv_union_as_type x t = Ok (if (lo <=? v) && (v <=? hi) then 0 else EC_PARAMETER_INVALID, y)
    /\ int_value y = Some v /\ (lo <= v <= hi -> type y = t).
Proof. apply as_type_int. Qed.

Lemma eq_int x y : is_int x -> is_int y ->
  jsdrv_union_eq x y = Ok (bool_decide (type x = type y /\ int_value x = int_value y)).
Proof.
  destruct x as [t fl o a sz v], y as [t' fl' o' a' sz' v'].
  intros [Ht (b & Hv & Hb)] [Ht' (b' & Hv' & Hb')]. cbn in *. subst v v'.
  unfold jsdrv_union_eq, word, int_value; cbn [type value size].
  destruct (t =? t') eqn:E; bool_facts; cbn [negb].
  - subst t'. clear Ht'. int_cases Ht; cbn; f_equal; apply bool_decide_ext; tauto.
  - symmetry. f_equal. apply bool_decide_false. tauto.
Qed.

Lemma equiv_int x y : is_int x -> is_int y ->
  jsdrv_union_equiv x y = Ok (bool_decide (int_value x = int_value y)).
Proof.
  intros Hx Hy. destruct (widen_int x Hx) as (x' & b & Wx & Vx & Bx & Tx & Ix & _).
  destruct (widen_int y Hy) as (y' & b' & Wy & Vy & By & Ty & Iy & _).
  destruct (wide_value x' b Vx Bx Tx) as (v & Hv & _ & Mv & Rv & Uv & Sv).
  destruct (wide_value y' b' Vy By Ty) as (v' & Hv' & _ & Mv' & Rv' & Uv' & Sv').
  assert (forall z, type z = JSDRV_UNION_U64 \/ type z = JSDRV_UNION_I64 -> JSDRV_UNION_U8 <= type z <= JSDRV_UNION_I64) as Hr.
  { intros z [->| ->]; split; by vm_compute. }
  unfold jsdrv_union_equiv. rewrite Wx, Wy, !bind_Ok, eq_int, bind_Ok
    by (split; [by apply Hr | eauto]).
  rewrite <- Ix, <- Iy, Hv, Hv'.
  assert (forall z w, is_u 64 z -> z mod 2 ^ 64 = w mod 2 ^ 64 -> z = u64 w) as Hu64.
  { intros z w Hz Hm. unfold uwrap. by rewrite <- Hm, Z.mod_small. }
  pose proof (Hu64 b v Bx Mv) as ->. pose proof (Hu64 b' v' By Mv') as ->. unfold word. rewrite Vx, Vy, !bind_Ok.
  assert (forall w, I64_MIN <= w <= U64_MAX -> i64 (u64 w) = if w <=? I64_MAX then w else w - 2 ^ 64) as Hi64.
  { intros w Hw. case_if.
    - rewrite <- (swrap_small 64 w) at 1 by width_lia. rewrite u64_of_signed, swrap_small by width_lia. done.
    - rewrite uwrap_small by width_lia. unfold swrap. symmetry. apply Z.sub_move_r. div_lia. }
  assert (bool_decide (Some v = Some v') = (v =? v')) as ->.
  { apply Bool.eq_iff_eq_true. rewrite bool_decide_eq_true, Z.eqb_eq. split; congruence. }
  case_bool_decide as Hc; [destruct Hc as [_ [= ->]]; by rewrite Z.eqb_refl|].
  destruct Tx as [Tx|Tx], Ty as [Ty|Ty]; rewrite Tx, Ty in *; cbn [Z.eqb] in *; f_equal;
    repeat match goal with H : ?a = ?a -> _ |- _ => specialize (H eq_refl) end;
    rewrite ?Hi64, ?u64_of_unsigned, ?(uwrap_small 64 v), ?(uwrap_small 64 v') by width_lia;
    change (2 ^ 64) with 18446744073709551616;
    apply Bool.eq_iff_eq_true; rewrite ?andb_true_iff, ?Z.leb_le, ?Z.eqb_eq; repeat case_if; lia.
Qed.

(** ** Properties *)

Lemma jsdrv_union_as_type_int_witness :
  exists y, jsdrv_union_as_type (jsdrv_union_i32 (-5)) JSDRV_UNION_I8 = Ok (0, y)
    /\ int_value y = Some (-5) /\ (-128 <= -5 <= 127 -> type y = JSDRV_UNION_I8).
Proof.
  apply (jsdrv_union_as_type_int (jsdrv_union_i32 (-5)) JSDRV_UNION_I8 (-5) (-128) 127);
    [|reflexivity|reflexivity].
  split; [by vm_compute|]. eexists; split; [reflexivity | by vm_compute].
Defined.

(** Two integer values are equivalent exactly when they stand for the same number,
    whatever their widths and signedness; they are equal exactly when their types
    agree as well. *)
Lemma jsdrv_union_equiv_int x y :
  is_int x -> is_int y ->
  jsdrv_union_equiv x y = Ok (bool_decide (int_value x = int_value y))
  /\ jsdrv_union_eq x y = Ok (bool_decide (type x = type y /\ int_value x = int_value y)).
Proof. intros Hx Hy. split; [by apply equiv_int | by apply eq_int]. Qed.

Lemma jsdrv_union_equiv_int_witness :
  jsdrv_union_equiv (jsdrv_union_i32 7) (jsdrv_union_u32 7) = Ok true
  /\ jsdrv_union_eq (jsdrv_union_i32 7) (jsdrv_union_u32 7) = Ok false.
Proof.
  destruct (jsdrv_union_equiv_int (jsdrv_union_i32 7) (jsdrv_union_u32 7)) as [-> ->];
    [| |split; reflexivity]; (split; [by vm_compute|]; eexists; split; [reflexivity | by vm_compute]).
Defined.

(** Converting a NaN to any integer type passes both range tests, since every
    comparison with NaN is false, and reaches the undefined cast. *)
Lemma jsdrv_union_as_type_nan t lo hi :
  int_range t = Some (lo, hi) ->
  jsdrv_union_as_type (mk_union JSDRV_UNION_F64 0 0 0 0 (Word (bits_of_f64 S754_nan))) t = Fault BadCast.
Proof.
  intros Hr. assert (JSDRV_UNION_U8 <= t <= JSDRV_UNION_I64) as Ht.
  { unfold int_range in Hr. repeat (case_if_in Hr; [subst; by vm_compute|]). discriminate. }
  int_cases Ht; vm_compute; reflexivity.
Qed.

Lemma jsdrv_union_as_type_nan_witness :
  jsdrv_union_as_type (mk_union JSDRV_UNION_F64 0 0 0 0 (Word (bits_of_f64 S754_nan))) JSDRV_UNION_I32
  = Fault BadCast.
Proof. apply (jsdrv_union_as_type_nan JSDRV_UNION_I32 I32_MIN I32_MAX). reflexivity. Defined.

(** A copy of a string into a large enough buffer holds the same string in the buffer,
    compares equal to its source, and no longer carries the heap-memory flag. *)
Lemma jsdrv_union_copy_str src d s rest buf n :
  type src = JSDRV_UNION_STR -> size src = 0 -> value src = Mem (Some (s ++ 0 :: rest)) ->
  wf_cstr s -> len s + 1 <= n -> n <= len buf -> n < 2 ^ 32 ->
  exists y buf', jsdrv_union_copy (Some d) (Some src) (Some buf) n = Ok (0, Some y, Some buf')
    /\ value y = Mem (Some buf') /\ cstr_at buf' = Some s /\ len buf' = len buf
    /\ Z.testbit (flags y) 7 = false
    /\ jsdrv_union_eq y src = Ok true.
Proof.
  intros Ht Hsz Hv Hw Hn Hb Hmax. pose proof (len_nonneg s). unfold jsdrv_union_copy, jsdrv_union_is_type_ptr.
  rewrite Ht. change (JSDRV_UNION_STR =? JSDRV_UNION_STR) with true.
  cbn [orb andb]. rewrite Hv, bind_Ok, Hsz. change (0 =? 0) with true. cbn [andb]. unfold obj_strlen at 1.
  rewrite cstr_at_app, !bind_Ok, uwrap_small by (done || width_lia).
  rewrite (proj2 (Z.eqb_neq (len s + 1) 0)), (proj2 (Z.ltb_ge n _)) by lia.
  pose proof (len_nonneg rest).
  rewrite (proj2 (Z.ltb_ge (len (s ++ 0 :: rest)) _)) by (rewrite len_app, len_cons; lia).
  rewrite (proj2 (Z.ltb_ge (len buf) _)) by lia. cbn [orb].
  set (buf' := take _ _ ++ drop _ _).
  assert (buf' = s ++ 0 :: drop (Z.to_nat (len s + 1)) buf) as Hbuf.
  { unfold buf'. replace (Z.to_nat (len s + 1)) with (length (s ++ [0])) by (rewrite length_app; unfold len; cbn; lia).
    assert (s ++ 0 :: rest = (s ++ [0]) ++ rest) as -> by (by rewrite <- app_assoc).
    by rewrite take_app_length, <- app_assoc. }
  eexists _, buf'. split; [done|]. cbn [value flags]. split_and!; [done | | | |].
  - rewrite Hbuf. by apply cstr_at_app.
  - rewrite Hbuf, len_app, len_cons. unfold len in *. rewrite length_drop. lia.
  - unfold JSDRV_UNION_FLAG_HEAP_MEMORY. rewrite Z.land_spec, Z.lnot_spec by lia. by rewrite andb_false_r.
  - unfold jsdrv_union_eq, object, str_size, obj_strlen. cbn [type value size]. rewrite Ht, Hv, Hsz, !bind_Ok.
    change (0 =? 0) with true. change (JSDRV_UNION_STR =? JSDRV_UNION_STR) with true.
    change (JSDRV_UNION_STR =? JSDRV_UNION_NULL) with false. change (JSDRV_UNION_STR =? JSDRV_UNION_JSON) with false.
    rewrite (proj2 (Z.eqb_neq (len s + 1) 0)), cstr_at_app by (done || lia). cbn [negb orb].
    rewrite !bind_Ok, Z.eqb_refl. cbn [negb]. replace (len s + 1 - 1) with (len s) by lia.
    unfold mem_eq. rewrite Hbuf, !len_app, !len_cons.
    pose proof (len_nonneg (drop (Z.to_nat (len s + 1)) buf)). simpl_cmp. cbn [andb]. f_equal.
    apply bool_decide_true. unfold len. rewrite Nat2Z.id, !take_app_length. done.
Qed.
