(* ===== verification/Js320Cal.v ===== *)
(** * JS320 calibration: slots and offset sweeps (src/devices/js320/js320_cal.c)

    The calibration records of the instrument are kept in slots of its flash memory.  A command reads
    a slot, copies one, or measures the offsets of the converters: it stops the other streams, reads
    the active record, steps the input multiplexer through its positions, averages samples at each,
    puts the averages into the record, signs it, and erases, writes and verifies the active slot.
    Each step waits for an answer of the device, a timer or samples; the handlers below are the steps.

    [now] is what [jsdrv_time_utc] returns during a call, and [prefix] the topic prefix of the device. *)

From Stdlib Require Import Strings.String.
From S2P Require Import Prelude Cstr ErrorCode Time Effect MbDev Union Hash.

Definition JSDRV_CAL_RECORD_SIZE : Z := 1024.

Definition JSDRV_CAL_OP_SLOT_READ : Z := 0.
Definition JSDRV_CAL_OP_SLOT_COPY : Z := 1.
Definition JSDRV_CAL_OP_CURRENT_OFFSET : Z := 2.
Definition JSDRV_CAL_OP_VOLTAGE_OFFSET : Z := 3.

Definition JSDRV_CAL_SLOT_ACTIVE : Z := 0.
Definition JSDRV_CAL_SLOT_TRIM2 : Z := 1.
Definition JSDRV_CAL_SLOT_TRIM1 : Z := 2.
Definition JSDRV_CAL_SLOT_FIELD : Z := 3.
Definition JSDRV_CAL_SLOT_LAB : Z := 4.
Definition JSDRV_CAL_SLOT_FACTORY : Z := 5.
Definition JSDRV_CAL_SLOT_COUNT : Z := 6.

Definition FLASH_BLOCK_SHIFT : Z := 16.
Definition FLASH_PAGE_SIZE : Z := 256.
Definition FLASH_PAGES_PER_RECORD : Z := JSDRV_CAL_RECORD_SIZE / FLASH_PAGE_SIZE.
Definition FLASH_BLOCK_SIZE : Z := 65536.
Definition CAL_MEM_TOPIC : string := "s/flash/!cmd".
Definition MEM_OP_TIMEOUT_MS : Z := 2000.
Definition ERASE_OP_TIMEOUT_MS : Z := 10000.

(** The flash blocks of the slots, in the order of their numbers. *)
Definition SLOT_TO_BLOCK : list Z := [24; 25; 26; 27; 28; 29].

Definition CAL_OFFSET_CREATE_TIME : Z := 32.
Definition CAL_OFFSET_OFFSETS : Z := 88.
Definition CAL_OFFSET_SIGNATURE : Z := 952.
Definition CAL_OFFSET_SIGNATURE_SIZE : Z := 64.
Definition CAL_OFFSET_CHECK32 : Z := 1020.
Definition CAL_POINTS_PER_CURRENT_CHAN : Z := 24.
Definition CAL_VOLTAGE_IDX : Z := 70.

Definition CAL_HEADER_MAGIC : list Z :=
  [0x4a; 0x53; 0x33; 0x32; 0x30; 0x63; 0x61; 0x6c; 0x0d; 0x0a; 0x20; 0x0a; 0x1a; 0xb2; 0x1c; 0x00].

Definition JSDRV_CAL_SIGNATURE_MAGIC : cstr := str "JSDRV_OFFSET_CAL".

(** Version 2.4.1, as [JSDRV_VERSION_ENCODE_U32] packs it. *)
Definition JSDRV_VERSION_U32 : Z := 2 * 2 ^ 24 + 4 * 2 ^ 16 + 1.

Definition IDX_UNUSED : Z := 0xFF.
Definition CAL_INDEX_MAP : list Z :=
  [0;          1;          2;          3;          4;          5;
   IDX_UNUSED; 6;          7;          8;          9;          10;
   IDX_UNUSED; IDX_UNUSED; 11;         12;         13;         14;
   IDX_UNUSED; IDX_UNUSED; IDX_UNUSED; 15;         16;         17;
   IDX_UNUSED; IDX_UNUSED; IDX_UNUSED; IDX_UNUSED; 18;         19;
   IDX_UNUSED; IDX_UNUSED; IDX_UNUSED; IDX_UNUSED; IDX_UNUSED; 20].

Definition DEFAULT_SAMPLES_PER_POINT : Z := 200000.
Definition MUX_SETTLE_MS : Z := 20.
Definition STREAM_DISABLE_SETTLE_MS : Z := 100.

Definition SAVE_TOPIC_COUNT : Z := 20.
Definition SAVE_STREAM_BEGIN : Z := 11.
Definition SAVE_TOPICS : list string :=
  ["s/i/range/mode"; "s/i/range/select"; "s/i/i0_sel"; "s/i/i1_sel"; "s/i/i2_sel"; "s/v/range/mode"; "s/v/range/select";
   "s/adc/0/sel"; "s/adc/0/ctrl"; "s/adc/1/sel"; "s/adc/1/ctrl";
   "s/i/ctrl"; "s/v/ctrl"; "s/p/ctrl"; "s/i/range/ctrl"; "s/gpi/0/ctrl"; "s/gpi/1/ctrl"; "s/gpi/2/ctrl"; "s/gpi/3/ctrl"; "s/gpi/7/ctrl"]%string.

(** ** State *)

Inductive cal_state_e :=
  | CAL_IDLE | CAL_DISABLE_SETTLE | CAL_READ | CAL_ERASE | CAL_WRITE | CAL_VERIFY | CAL_SWEEP_SETTLE | CAL_SWEEP_CAPTURE.

#[global] Instance cal_state_eq_dec : EqDecision cal_state_e.
Proof. solve_decision. Defined.

(** The fields of [struct js320_cal_s], in groups.  Values of the topics that a sweep changes: *)
Record topics_s := mk_topics { tp_value : list Z; tp_known : list bool }.

(** The command that runs. *)
Record cal_run_s := mk_run {
  cr_op : Z;                  (* uint8_t *)
  cr_transaction_id : Z;      (* uint32_t *)
  cr_src_slot : Z;            (* uint8_t *)
  cr_dst_slot : Z;            (* uint8_t *)
  cr_samples_per_point : Z;   (* uint32_t *)
}.

Record flash_s := mk_flash {
  fl_mem_cmd_id : Z;          (* uint32_t *)
  fl_page_idx : Z;            (* uint8_t *)
  fl_page_count : Z;          (* uint8_t *)
  fl_offset_base : Z;         (* uint32_t *)
}.

Record sweep_s := mk_sweep {
  sw_i_select : Z;            (* uint8_t *)
  sw_i_mux : Z;               (* uint8_t *)
  sw_pass : Z;                (* uint8_t *)
  sw_v_select : Z;            (* uint8_t: voltage_v_select *)
}.

Record adc_s := mk_adc {
  ad_sum : list Z;            (* int64_t[2] *)
  ad_count : list Z;          (* uint32_t[2] *)
  ad_need : list Z;           (* uint32_t[2] *)
}.

Record js320_cal_s := mk_cal {
  ca_dev : bool;              (* the handle is not null *)
  ca_saved : topics_s;
  ca_prior : topics_s;
  ca_restore_pending : bool;
  ca_state : cal_state_e;
  ca_run : cal_run_s;
  ca_record : list Z;         (* uint8_t[1024] *)
  ca_flash : flash_s;
  ca_sweep : sweep_s;
  ca_adc : adc_s;
  ca_stream_active : bool;
  ca_stream_dual : bool;
}.

Definition set_dev (s : js320_cal_s) (dev : bool) : js320_cal_s :=
  mk_cal dev (ca_saved s) (ca_prior s) (ca_restore_pending s) (ca_state s) (ca_run s) (ca_record s) (ca_flash s) (ca_sweep s) (ca_adc s)
    (ca_stream_active s) (ca_stream_dual s).
Definition set_saved (s : js320_cal_s) (x : topics_s) : js320_cal_s :=
  mk_cal (ca_dev s) x (ca_prior s) (ca_restore_pending s) (ca_state s) (ca_run s) (ca_record s) (ca_flash s) (ca_sweep s) (ca_adc s)
    (ca_stream_active s) (ca_stream_dual s).
Definition set_prior (s : js320_cal_s) (x : topics_s) (pending : bool) : js320_cal_s :=
  mk_cal (ca_dev s) (ca_saved s) x pending (ca_state s) (ca_run s) (ca_record s) (ca_flash s) (ca_sweep s) (ca_adc s)
    (ca_stream_active s) (ca_stream_dual s).
Definition set_state (s : js320_cal_s) (x : cal_state_e) : js320_cal_s :=
  mk_cal (ca_dev s) (ca_saved s) (ca_prior s) (ca_restore_pending s) x (ca_run s) (ca_record s) (ca_flash s) (ca_sweep s) (ca_adc s)
    (ca_stream_active s) (ca_stream_dual s).
Definition set_run (s : js320_cal_s) (x : cal_run_s) : js320_cal_s :=
  mk_cal (ca_dev s) (ca_saved s) (ca_prior s) (ca_restore_pending s) (ca_state s) x (ca_record s) (ca_flash s) (ca_sweep s) (ca_adc s)
    (ca_stream_active s) (ca_stream_dual s).
Definition set_record (s : js320_cal_s) (x : list Z) : js320_cal_s :=
  mk_cal (ca_dev s) (ca_saved s) (ca_prior s) (ca_restore_pending s) (ca_state s) (ca_run s) x (ca_flash s) (ca_sweep s) (ca_adc s)
    (ca_stream_active s) (ca_stream_dual s).
Definition set_flash (s : js320_cal_s) (x : flash_s) : js320_cal_s :=
  mk_cal (ca_dev s) (ca_saved s) (ca_prior s) (ca_restore_pending s) (ca_state s) (ca_run s) (ca_record s) x (ca_sweep s) (ca_adc s)
    (ca_stream_active s) (ca_stream_dual s).
Definition set_sweep (s : js320_cal_s) (x : sweep_s) : js320_cal_s :=
  mk_cal (ca_dev s) (ca_saved s) (ca_prior s) (ca_restore_pending s) (ca_state s) (ca_run s) (ca_record s) (ca_flash s) x (ca_adc s)
    (ca_stream_active s) (ca_stream_dual s).
Definition set_adc (s : js320_cal_s) (x : adc_s) : js320_cal_s :=
  mk_cal (ca_dev s) (ca_saved s) (ca_prior s) (ca_restore_pending s) (ca_state s) (ca_run s) (ca_record s) (ca_flash s) (ca_sweep s) x
    (ca_stream_active s) (ca_stream_dual s).
Definition set_stream (s : js320_cal_s) (active dual : bool) : js320_cal_s :=
  mk_cal (ca_dev s) (ca_saved s) (ca_prior s) (ca_restore_pending s) (ca_state s) (ca_run s) (ca_record s) (ca_flash s) (ca_sweep s) (ca_adc s)
    active dual.

Definition set_op (s : js320_cal_s) (op : Z) : js320_cal_s :=
  let r := ca_run s in set_run s (mk_run op (cr_transaction_id r) (cr_src_slot r) (cr_dst_slot r) (cr_samples_per_point r)).
Definition set_page (s : js320_cal_s) (idx count : Z) : js320_cal_s :=
  let f := ca_flash s in set_flash s (mk_flash (fl_mem_cmd_id f) idx count (fl_offset_base f)).
Definition set_base (s : js320_cal_s) (base : Z) : js320_cal_s :=
  let f := ca_flash s in set_flash s (mk_flash (fl_mem_cmd_id f) (fl_page_idx f) (fl_page_count f) base).
Definition set_cmd_id (s : js320_cal_s) (id : Z) : js320_cal_s :=
  let f := ca_flash s in set_flash s (mk_flash id (fl_page_idx f) (fl_page_count f) (fl_offset_base f)).
Definition set_point (s : js320_cal_s) (i_select i_mux : Z) : js320_cal_s :=
  let w := ca_sweep s in set_sweep s (mk_sweep i_select i_mux (sw_pass w) (sw_v_select w)).
Definition set_pass (s : js320_cal_s) (pass : Z) : js320_cal_s :=
  let w := ca_sweep s in set_sweep s (mk_sweep (sw_i_select w) (sw_i_mux w) pass (sw_v_select w)).
Definition set_v_select (s : js320_cal_s) (v_select : Z) : js320_cal_s :=
  let w := ca_sweep s in set_sweep s (mk_sweep (sw_i_select w) (sw_i_mux w) (sw_pass w) v_select).

(** ** Calls to the outside *)

(** Calls of the device library, of the host publish-subscribe, and the two subscriptions, by the slot of their callback. *)
Inductive cal_action :=
  | PublishToDevice (topic : string) (v : jsdrv_union_s)
  | SendToFrontend (topic : string) (v : jsdrv_union_s)
  | SetTimeout (timeout_utc : Z)
  | HostPublish (topic : string) (v : jsdrv_union_s)
  | Subscribe (topic : string) (slot : Z)
  | Unsubscribe (topic : string) (slot : Z).

Abbreviation M := (eff cal_action js320_cal_s).

(** A call through a null handle is undefined. *)
Definition call (a : cal_action) : M unit := fun s => if ca_dev s then Ok (tt, s, [a]) else Fault OutOfBounds.

Definition union_ptr (t flags : Z) (m : list Z) (size : Z) : jsdrv_union_s := mk_union t flags 0 0 size (Mem (Some m)).
Definition jsdrv_union_cstr (s : cstr) : jsdrv_union_s := union_ptr JSDRV_UNION_STR JSDRV_UNION_FLAG_CONST (s ++ [0]) 0.
Definition jsdrv_union_bin (m : list Z) : jsdrv_union_s := union_ptr JSDRV_UNION_BIN 0 m (len m).
Definition jsdrv_union_cbin_r (m : list Z) : jsdrv_union_s :=
  union_ptr JSDRV_UNION_BIN (Z.lor JSDRV_UNION_FLAG_CONST JSDRV_UNION_FLAG_RETAIN) m (len m).
Definition jsdrv_union_u8 (v : Z) : jsdrv_union_s := mk_union JSDRV_UNION_U8 0 0 0 0 (Word (u8 v)).
Definition jsdrv_union_u32_r (v : Z) : jsdrv_union_s := mk_union JSDRV_UNION_U32 JSDRV_UNION_FLAG_RETAIN 0 0 0 (Word (u32 v)).

Definition to_device (topic : string) (v : jsdrv_union_s) : M unit := call (PublishToDevice topic v).

(** ** Utility *)

Definition slot_to_offset (slot : Z) : res Z := b ← ld SLOT_TO_BLOCK slot; Ok (u32 (Z.shiftl b FLASH_BLOCK_SHIFT)).

Definition op_name (op : Z) : string :=
  if op =? JSDRV_CAL_OP_SLOT_READ then "slot_read"
  else if op =? JSDRV_CAL_OP_SLOT_COPY then "slot_copy"
  else if op =? JSDRV_CAL_OP_CURRENT_OFFSET then "current_offset"
  else if op =? JSDRV_CAL_OP_VOLTAGE_OFFSET then "voltage_offset"
  else "?".

Definition state_name (state : cal_state_e) : string :=
  match state with
  | CAL_DISABLE_SETTLE => "disable"
  | CAL_READ => "read"
  | CAL_ERASE => "erase"
  | CAL_WRITE => "write"
  | CAL_VERIFY => "verify"
  | CAL_SWEEP_SETTLE => "settle"
  | CAL_SWEEP_CAPTURE => "capture"
  | CAL_IDLE => "?"
  end.

Fixpoint save_loop (subtopic : string) (topics : list string) (i : Z) : Z :=
  match topics with
  | [] => -1
  | t :: topics => if String.eqb subtopic t then i else save_loop subtopic topics (i + 1)
  end.
Definition save_index (subtopic : string) : Z := save_loop subtopic SAVE_TOPICS 0.

(** [None]: the conversion failed. *)
Definition union_as_u32 (value : jsdrv_union_s) : res (option Z) :=
  '(rc, v) ← jsdrv_union_as_type value JSDRV_UNION_U32;
  if negb (rc =? 0) then Ok None else b ← word v; Ok (Some (u32 b)).

(** ** Records *)

(** Bytes [v] at offset [i]: the stores of the packers, of [memset] and [memcpy]. *)
Definition put_bytes (rec : list Z) (i : Z) (v : list Z) : res (list Z) := mem_copy rec i v 0 (len v).

Definition pack_u32_le (rec : list Z) (i v : Z) : res (list Z) := put_bytes rec i (le 4 v).
Definition pack_i64_le (rec : list Z) (i v : Z) : res (list Z) := put_bytes rec i (le 8 (u64 v)).

Definition cal_set_offset (rec : list Z) (idx q31 : Z) : res (list Z) :=
  pack_u32_le rec (u32 (CAL_OFFSET_OFFSETS + idx * 4)) (u32 q31).

(** [(const uint32_t * ) rec]: the first [n] words. *)
Fixpoint rec_words (n : nat) (rec : list Z) (i : Z) : res (list Z) :=
  match n with
  | O => Ok []
  | S n => w ← ld_le 4 rec i; ws ← rec_words n rec (i + 4); Ok (w :: ws)
  end.

(** [jsdrv_check32_xxhash((const uint32_t * ) rec, 255)] *)
Definition rec_check (rec : list Z) : res Z := ws ← rec_words 255 rec 0; jsdrv_check32_xxhash ws 255.

Definition cal_validate (rec : list Z) : res Z :=
  same ← mem_eq rec CAL_HEADER_MAGIC 16;
  if negb same then Ok (ec_code MESSAGE_INTEGRITY)
  else
    expected ← ld_le 4 rec CAL_OFFSET_CHECK32;
    actual ← rec_check rec;
    if negb (expected =? actual) then Ok (ec_code MESSAGE_INTEGRITY) else Ok 0.

Definition cal_stamp_signature_and_check (now : Z) (rec : list Z) : res (list Z) :=
  rec ← pack_i64_le rec CAL_OFFSET_CREATE_TIME now;
  rec ← put_bytes rec CAL_OFFSET_SIGNATURE (replicate (Z.to_nat CAL_OFFSET_SIGNATURE_SIZE) 0);
  rec ← put_bytes rec CAL_OFFSET_SIGNATURE JSDRV_CAL_SIGNATURE_MAGIC;
  rec ← pack_u32_le rec (CAL_OFFSET_SIGNATURE + 16) JSDRV_VERSION_U32;
  check ← rec_check rec;
  pack_u32_le rec CAL_OFFSET_CHECK32 check.

(** ** Status and response *)

Definition quoted (s : string) : cstr := [34] ++ str s ++ [34].

(** The text of [tfp_snprintf(buf, n, ...)]: what fits with the terminator. *)
Definition fitted (n : nat) (text : cstr) : cstr := take (n - 1) text.

Definition cal_send_status (pct_x10 : Z) (msg : cstr) : M unit :=
  s ← get;
  let text := str "{" ++ quoted "op" ++ str ":" ++ quoted (op_name (cr_op (ca_run s)))
    ++ str "," ++ quoted "state" ++ str ":" ++ quoted (state_name (ca_state s))
    ++ str "," ++ quoted "pct" ++ str ":" ++ fmt_d (pct_x10 / 10) ++ str "." ++ fmt_d (pct_x10 mod 10)
    ++ str "," ++ quoted "msg" ++ str ":" ++ [34] ++ msg ++ [34] ++ str "}" in
  call (SendToFrontend "h/cal/!status" (jsdrv_union_cstr (fitted 192 text))).

(** The bytes of a [jsdrv_cal_rsp_s]. *)
Definition rsp_bytes (transaction_id status : Z) : list Z := le 4 transaction_id ++ le 4 (u32 status).

Definition cal_send_rsp (status : Z) : M unit :=
  s ← get;
  call (SendToFrontend "h/cal/!rsp" (jsdrv_union_bin (rsp_bytes (cr_transaction_id (ca_run s)) status))).

(** ** Memory operations *)

(** The message buffer has room for one page. *)
Definition cal_send_mem_op (op offset length : Z) (data : list Z) : M unit :=
  modify (fun s => set_cmd_id s (u32 (fl_mem_cmd_id (ca_flash s) + 1))) ;;
  s ← get;
  let timeout_ms := if op =? MB_STDMSG_MEM_OP_ERASE then ERASE_OP_TIMEOUT_MS else MEM_OP_TIMEOUT_MS in
  let msg := hdr_bytes ++ mem_bytes (mk_mem (fl_mem_cmd_id (ca_flash s)) 0 op 0 0 timeout_ms offset length 0 data) in
  (if len data <=? FLASH_PAGE_SIZE then mret tt else lift (Fault OutOfBounds)) ;;
  to_device CAL_MEM_TOPIC (union_ptr JSDRV_UNION_STDMSG 0 msg (len msg)).

Definition page_offset (s : js320_cal_s) : Z := u32 (fl_offset_base (ca_flash s) + fl_page_idx (ca_flash s) * FLASH_PAGE_SIZE).

Definition cal_send_read_page : M unit :=
  s ← get;
  cal_send_mem_op MB_STDMSG_MEM_OP_READ (page_offset s) FLASH_PAGE_SIZE [].

(** [n] bytes at offset [i]. *)
Definition bytes_at (m : list Z) (i n : Z) : res (list Z) :=
  if (0 <=? i) && (0 <=? n) && (i + n <=? len m) then Ok (take (Z.to_nat n) (drop (Z.to_nat i) m)) else Fault OutOfBounds.

Definition cal_send_write_page : M unit :=
  s ← get;
  data ← lift (bytes_at (ca_record s) (fl_page_idx (ca_flash s) * FLASH_PAGE_SIZE) FLASH_PAGE_SIZE);
  cal_send_mem_op MB_STDMSG_MEM_OP_WRITE (page_offset s) FLASH_PAGE_SIZE data.

Definition cal_send_erase : M unit :=
  s ← get;
  cal_send_mem_op MB_STDMSG_MEM_OP_ERASE (fl_offset_base (ca_flash s)) FLASH_BLOCK_SIZE [].

Section Device.
Context (prefix : string).

(** The topic that [tfp_snprintf] leaves in a buffer of 64. *)
Definition device_topic (subtopic : string) : string := String.substring 0 63 (String.append prefix (String.append "/" subtopic)).

(** ** Save and restore *)

Definition cal_host_publish_u32 (subtopic : string) (v : Z) : M unit := call (HostPublish (device_topic subtopic) (jsdrv_union_u32_r v)).

Definition cal_snapshot_prior : M unit := modify (fun s => set_prior s (ca_saved s) true).

Fixpoint each_topic (ts : list string) (f : string -> M unit) : M unit :=
  match ts with
  | [] => mret tt
  | t :: ts => f t ;; each_topic ts f
  end.

Definition cal_streams_disable : M unit :=
  each_topic (drop (Z.to_nat SAVE_STREAM_BEGIN) SAVE_TOPICS) (fun t => cal_host_publish_u32 t 0).

(** The loop of [cal_restore_prior], at topic [i]. *)
Fixpoint restore_loop (ts : list string) (i : Z) : M unit :=
  match ts with
  | [] => mret tt
  | t :: ts =>
      s ← get;
      known ← lift (ld (tp_known (ca_prior s)) i);
      v ← lift (ld (tp_value (ca_prior s)) i);
      (if negb known then mret tt
       else if SAVE_STREAM_BEGIN <=? i then cal_host_publish_u32 t v
       else to_device t (Union.jsdrv_union_u32 v)) ;;
      restore_loop ts (i + 1)
  end.

Definition cal_restore_prior : M unit :=
  s ← get;
  if negb (ca_restore_pending s) then mret tt
  else
    modify (fun s => set_prior s (ca_prior s) false) ;;
    restore_loop SAVE_TOPICS 0.

(** ** Streams *)

Definition cal_subscribe (subtopic : string) (slot : Z) : M unit := call (Subscribe (device_topic subtopic) slot).
Definition cal_unsubscribe (subtopic : string) (slot : Z) : M unit := call (Unsubscribe (device_topic subtopic) slot).

Definition cal_stream_setup (dual : bool) : M unit :=
  modify (fun s => set_stream s true dual) ;;
  cal_subscribe "s/adc/0/!data" 0 ;;
  to_device "s/adc/0/ctrl" (Union.jsdrv_union_u32 1) ;;
  if dual then
    to_device "s/adc/1/sel" (Union.jsdrv_union_u32 1) ;;
    cal_subscribe "s/adc/1/!data" 1 ;;
    to_device "s/adc/1/ctrl" (Union.jsdrv_union_u32 1)
  else mret tt.

Definition cal_stream_teardown : M unit :=
  s ← get;
  if negb (ca_stream_active s) then mret tt
  else
    modify (fun s => set_stream s false (ca_stream_dual s)) ;;
    to_device "s/adc/0/ctrl" (Union.jsdrv_union_u32 0) ;;
    to_device "s/adc/0/sel" (Union.jsdrv_union_u32 0) ;;
    cal_unsubscribe "s/adc/0/!data" 0 ;;
    if ca_stream_dual s then
      to_device "s/adc/1/ctrl" (Union.jsdrv_union_u32 0) ;;
      to_device "s/adc/1/sel" (Union.jsdrv_union_u32 0) ;;
      cal_unsubscribe "s/adc/1/!data" 1
    else mret tt.

Definition cal_finish (status : Z) : M unit :=
  cal_stream_teardown ;;
  cal_restore_prior ;;
  call (SetTimeout 0) ;;
  cal_send_rsp status ;;
  modify (fun s => set_op (set_state s CAL_IDLE) 0xFF).

(** ** Captures *)

Definition adc_mean_to_q31 (sum count : Z) : Z := if count =? 0 then 0 else i32 (Z.quot sum count).

Definition cal_begin_capture (use_slot0 use_slot1 : bool) : M unit :=
  s ← get;
  let need := cr_samples_per_point (ca_run s) in
  let need := if need =? 0 then DEFAULT_SAMPLES_PER_POINT else need in
  modify (fun s => set_adc s (mk_adc [0; 0] [0; 0] [if use_slot0 then need else 0; if use_slot1 then need else 0])).

Definition slot_complete (a : adc_s) (i : Z) : res bool :=
  need ← ld (ad_need a) i; count ← ld (ad_count a) i;
  Ok (negb (negb (need =? 0) && (count <? need))).

Definition capture_complete (a : adc_s) : res bool :=
  c ← slot_complete a 0;
  if negb c then Ok false else slot_complete a 1.

(** The loop of [next_sweep_point], which tries at most the rows [i .. 5]; [None]: no more points. *)
Fixpoint next_loop (n : nat) (i mux : Z) : res (option (Z * Z)) :=
  match n with
  | O => Ok None
  | S n =>
      if mux <? 6 then
        idx ← ld CAL_INDEX_MAP (i * 6 + mux);
        if negb (idx =? IDX_UNUSED) then Ok (Some (i, mux)) else next_loop n (i + 1) (i + 1)
      else next_loop n (i + 1) (i + 1)
  end.
Definition next_sweep_point (cur_i cur_mux : Z) : res (option (Z * Z)) := next_loop (Z.to_nat (6 - cur_i)) cur_i (u8 (cur_mux + 1)).

(** ** Entries to the phases *)

Definition cal_begin_read (slot : Z) (status_msg : string) : M unit :=
  modify (fun s => set_state s CAL_READ) ;;
  base ← lift (slot_to_offset slot);
  modify (fun s => set_page (set_base s base) 0 FLASH_PAGES_PER_RECORD) ;;
  cal_send_status 50 (str status_msg) ;;
  cal_send_read_page.

Definition cal_begin_erase_active : M unit :=
  modify (fun s => set_state s CAL_ERASE) ;;
  base ← lift (slot_to_offset JSDRV_CAL_SLOT_ACTIVE);
  modify (fun s => set_base s base) ;;
  cal_send_status 900 (str "erasing cal") ;;
  cal_send_erase.

Definition cal_begin_write : M unit :=
  modify (fun s => set_page (set_state s CAL_WRITE) 0 FLASH_PAGES_PER_RECORD) ;;
  cal_send_status 930 (str "writing cal") ;;
  cal_send_write_page.

Definition cal_begin_verify : M unit :=
  modify (fun s => set_page (set_state s CAL_VERIFY) 0 FLASH_PAGES_PER_RECORD) ;;
  cal_send_status 970 (str "verifying cal") ;;
  cal_send_read_page.

Definition cal_arm_settle (now : Z) : M unit :=
  modify (fun s => set_state s CAL_SWEEP_SETTLE) ;;
  call (SetTimeout (now + MUX_SETTLE_MS * JSDRV_TIME_MILLISECOND)).

(** ** The current sweep *)

Definition cal_current_arm_mux : M unit :=
  s ← get;
  to_device "s/i/range/select" (Union.jsdrv_union_u32 (Z.lor 0x80 (Z.shiftl 1 (sw_i_select (ca_sweep s))))) ;;
  let mux := sw_i_mux (ca_sweep s) in
  to_device "s/i/i0_sel" (Union.jsdrv_union_u32 mux) ;;
  to_device "s/i/i1_sel" (Union.jsdrv_union_u32 mux) ;;
  to_device "s/i/i2_sel" (Union.jsdrv_union_u32 mux).

Definition cal_current_pass_config (now : Z) : M unit :=
  s ← get;
  to_device "s/adc/0/sel" (Union.jsdrv_union_u32 (if sw_pass (ca_sweep s) =? 0 then 0 else 2)) ;;
  cal_arm_settle now.

Definition cal_current_capture_begin : M unit :=
  s ← get;
  cal_begin_capture true (sw_pass (ca_sweep s) =? 0) ;;
  modify (fun s => set_state s CAL_SWEEP_CAPTURE).

(** [n] times [captures_done += 2]. *)
Definition add2 (n : Z) (captures_done : Z) : Z := Nat.iter (Z.to_nat n) (fun d => u8 (d + 2)) captures_done.

Definition cal_current_pct (w : sweep_s) : Z :=
  let done := fold_left (fun d i => add2 (6 - i) d) (seqZ 0 (sw_i_select w)) 0 in
  let done := add2 (sw_i_mux w - sw_i_select w) done in
  let done := if sw_pass w =? 1 then u8 (done + 1) else done in
  u16 (100 + done * 780 / 42).

Definition cal_current_point_start (now : Z) : M unit :=
  cal_current_arm_mux ;;
  modify (fun s => set_pass s 0) ;;
  cal_current_pass_config now.

(** [adc_mean_to_q31(self->adc_sum[i], self->adc_count[i])] *)
Definition slot_mean (a : adc_s) (i : Z) : res Z :=
  sum ← ld (ad_sum a) i; count ← ld (ad_count a) i; Ok (adc_mean_to_q31 sum count).

Definition put_offset (idx q31 : Z) : M unit :=
  s ← get; rec ← lift (cal_set_offset (ca_record s) idx q31); modify (fun s => set_record s rec).

Definition point_text (w : sweep_s) : cstr := str "i_sel=" ++ fmt_d (sw_i_select w) ++ str " mux=" ++ fmt_d (sw_i_mux w).

(** The end of an offset sweep: sign the record, start to write it. *)
Definition cal_stamp (now : Z) : M unit :=
  s ← get; rec ← lift (cal_stamp_signature_and_check now (ca_record s)); modify (fun s => set_record s rec).

Definition cal_current_after_capture (now : Z) : M unit :=
  s ← get;
  let w := ca_sweep s in
  idx ← lift (ld CAL_INDEX_MAP (sw_i_select w * 6 + sw_i_mux w));
  mean0 ← lift (slot_mean (ca_adc s) 0);
  mean1 ← lift (slot_mean (ca_adc s) 1);
  if sw_pass w =? 0 then
    put_offset (0 * CAL_POINTS_PER_CURRENT_CHAN + idx) mean0 ;;
    put_offset (1 * CAL_POINTS_PER_CURRENT_CHAN + idx) mean1 ;;
    modify (fun s => set_pass s 1) ;;
    s ← get;
    cal_send_status (cal_current_pct (ca_sweep s))
      (fitted 80 (point_text w ++ str " adc0=" ++ fmt_d mean0 ++ str " adc1=" ++ fmt_d mean1)) ;;
    cal_current_pass_config now
  else
    put_offset (2 * CAL_POINTS_PER_CURRENT_CHAN + idx) mean0 ;;
    cal_send_status (cal_current_pct w) (fitted 80 (point_text w ++ str " adc2=" ++ fmt_d mean0)) ;;
    next ← lift (next_sweep_point (sw_i_select w) (sw_i_mux w));
    match next with
    | None => cal_stamp now ;; cal_begin_erase_active
    | Some (next_i, next_mux) => modify (fun s => set_point s next_i next_mux) ;; cal_current_point_start now
    end.

Definition cal_current_after_active_read (now : Z) : M unit :=
  s ← get;
  rc ← lift (cal_validate (ca_record s));
  if negb (rc =? 0) then cal_finish (ec_code MESSAGE_INTEGRITY)
  else
    to_device "s/i/range/mode" (Union.jsdrv_union_u32 5) ;;
    cal_stream_setup true ;;
    modify (fun s => set_point s 0 0) ;;
    cal_send_status 100 (str "sweeping current offsets") ;;
    cal_current_point_start now.

(** ** The voltage sweep *)

Definition cal_voltage_pass_config (now : Z) : M unit :=
  s ← get;
  to_device "s/v/range/select" (Union.jsdrv_union_u32 (sw_v_select (ca_sweep s))) ;;
  cal_arm_settle now.

Definition cal_voltage_capture_begin : M unit :=
  cal_begin_capture true false ;;
  modify (fun s => set_state s CAL_SWEEP_CAPTURE).

Definition cal_voltage_after_capture (now : Z) : M unit :=
  s ← get;
  let v_select := sw_v_select (ca_sweep s) in
  mean ← lift (slot_mean (ca_adc s) 0);
  put_offset (CAL_VOLTAGE_IDX + v_select) mean ;;
  cal_send_status (u16 (100 + 400 * (v_select + 1))) (fitted 64 (str "v_sel=" ++ fmt_d v_select ++ str " adc3=" ++ fmt_d mean)) ;;
  if v_select =? 0 then
    modify (fun s => set_v_select s 1) ;;
    cal_voltage_pass_config now
  else cal_stamp now ;; cal_begin_erase_active.

Definition cal_voltage_after_active_read (now : Z) : M unit :=
  s ← get;
  rc ← lift (cal_validate (ca_record s));
  if negb (rc =? 0) then cal_finish (ec_code MESSAGE_INTEGRITY)
  else
    to_device "s/v/range/mode" (Union.jsdrv_union_u32 1) ;;
    to_device "s/adc/0/sel" (Union.jsdrv_union_u32 3) ;;
    cal_stream_setup false ;;
    modify (fun s => set_v_select s 0) ;;
    cal_send_status 100 (str "sweeping voltage offsets") ;;
    cal_voltage_pass_config now.

Definition slot_copy_policy (src dst : Z) : Z :=
  if (JSDRV_CAL_SLOT_COUNT <=? src) || (JSDRV_CAL_SLOT_COUNT <=? dst) then ec_code PARAMETER_INVALID
  else if src =? dst then ec_code PARAMETER_INVALID
  else if dst =? JSDRV_CAL_SLOT_ACTIVE then 0
  else if (dst =? JSDRV_CAL_SLOT_TRIM1) || (dst =? JSDRV_CAL_SLOT_TRIM2) then
    (if src =? JSDRV_CAL_SLOT_ACTIVE then 0 else ec_code PARAMETER_INVALID)
  else ec_code PARAMETER_INVALID.

(** ** Responses *)

(** [data]: the bytes from [value.bin + offset] to the end of the object. *)
Definition on_read_done (now : Z) (data : list Z) (data_size : Z) : M unit :=
  if data_size <? FLASH_PAGE_SIZE then cal_finish (ec_code IO)
  else
    s ← get;
    let f := ca_flash s in
    rec ← lift (mem_copy (ca_record s) (fl_page_idx f * FLASH_PAGE_SIZE) data 0 FLASH_PAGE_SIZE);
    modify (fun s => set_page (set_record s rec) (u8 (fl_page_idx f + 1)) (fl_page_count f)) ;;
    s ← get;
    if fl_page_idx (ca_flash s) <? fl_page_count (ca_flash s) then cal_send_read_page
    else
      let op := cr_op (ca_run s) in
      if op =? JSDRV_CAL_OP_SLOT_READ then
        call (SendToFrontend "h/cal/!data" (jsdrv_union_cbin_r (ca_record s))) ;; cal_finish 0
      else if op =? JSDRV_CAL_OP_SLOT_COPY then
        same ← lift (mem_eq (ca_record s) CAL_HEADER_MAGIC 16);
        if negb same then cal_finish (ec_code MESSAGE_INTEGRITY)
        else
          base ← lift (slot_to_offset (cr_dst_slot (ca_run s)));
          modify (fun s => set_state (set_base s base) CAL_ERASE) ;;
          cal_send_status 500 (str "erasing destination") ;;
          cal_send_erase
      else if op =? JSDRV_CAL_OP_CURRENT_OFFSET then cal_current_after_active_read now
      else if op =? JSDRV_CAL_OP_VOLTAGE_OFFSET then cal_voltage_after_active_read now
      else cal_finish (ec_code UNSPECIFIED).

Definition on_erase_done : M unit := cal_begin_write.

Definition on_write_done : M unit :=
  modify (fun s => set_page s (u8 (fl_page_idx (ca_flash s) + 1)) (fl_page_count (ca_flash s))) ;;
  s ← get;
  if fl_page_idx (ca_flash s) <? fl_page_count (ca_flash s) then cal_send_write_page else cal_begin_verify.

Definition cal_request_reload : M unit := to_device "s/cal/!reload" (jsdrv_union_u8 1).

Definition cal_wrote_active (r : cal_run_s) : bool :=
  (cr_op r =? JSDRV_CAL_OP_CURRENT_OFFSET) || (cr_op r =? JSDRV_CAL_OP_VOLTAGE_OFFSET)
  || ((cr_op r =? JSDRV_CAL_OP_SLOT_COPY) && (cr_dst_slot r =? JSDRV_CAL_SLOT_ACTIVE)).

Definition on_verify_done (rsp_offset : Z) (data : list Z) (data_size : Z) : M unit :=
  if data_size <? FLASH_PAGE_SIZE then cal_finish (ec_code IO)
  else
    s ← get;
    let page := u32 (rsp_offset - fl_offset_base (ca_flash s)) / FLASH_PAGE_SIZE in
    expected ← lift (bytes_at (ca_record s) (page * FLASH_PAGE_SIZE) FLASH_PAGE_SIZE);
    got ← lift (bytes_at data 0 FLASH_PAGE_SIZE);
    if negb (bool_decide (got = expected)) then cal_finish (ec_code IO)
    else
      modify (fun s => set_page s (u8 (fl_page_idx (ca_flash s) + 1)) (fl_page_count (ca_flash s))) ;;
      s ← get;
      if fl_page_idx (ca_flash s) <? fl_page_count (ca_flash s) then cal_send_read_page
      else
        (if cal_wrote_active (ca_run s) then cal_request_reload else mret tt) ;;
        cal_finish 0.

Definition on_mem_response (now : Z) (value : jsdrv_union_s) : M unit :=
  let hdr_offset := if type value =? JSDRV_UNION_STDMSG then HDR_SIZE else 0 in
  if size value <? hdr_offset + MEM_SIZE then cal_finish (ec_code MESSAGE_INTEGRITY)
  else
    s ← get;
    m ← lift (object value);
    transaction_id ← lift (ld_le 4 m hdr_offset);
    if negb (transaction_id =? fl_mem_cmd_id (ca_flash s)) then mret tt
    else
      status ← lift (ld m (hdr_offset + 7));
      if negb (status =? 0) then cal_finish (ec_code IO)
      else
        let data := drop (Z.to_nat (hdr_offset + MEM_SIZE)) m in
        let data_size := u32 (size value - hdr_offset - MEM_SIZE) in
        match ca_state s with
        | CAL_READ => on_read_done now data data_size
        | CAL_ERASE => on_erase_done
        | CAL_WRITE => on_write_done
        | CAL_VERIFY => offset ← lift (ld_le 4 m (hdr_offset + 12)); on_verify_done offset data data_size
        | _ => mret tt
        end.

(** ** Samples *)

Definition JSDRV_STREAM_HEADER_SIZE : Z := 56.

(** The fields of a [jsdrv_stream_signal_s] that are read. *)
Definition sig_version (m : list Z) : res Z := ld m 0.
Definition sig_element_size_bits (m : list Z) : res Z := ld m 19.
Definition sig_element_count (m : list Z) : res Z := ld_le 4 m 20.
Definition sig_sample (m : list Z) (i : Z) : res Z := x ← ld_le 4 m (JSDRV_STREAM_HEADER_SIZE + 4 * i); Ok (i32 x).

(** [s += samples[i]] for the next [n] samples. *)
Fixpoint sum_loop (n : nat) (m : list Z) (i s : Z) : res Z :=
  match n with
  | O => Ok s
  | S n => x ← sig_sample m i; s ← chk_i 64 (s + x); sum_loop n m (i + 1) s
  end.

(** The accumulators with the samples of a message. *)
Definition adc_add (a : adc_s) (slot : Z) (m : list Z) : res adc_s :=
  have ← ld (ad_count a) slot;
  need ← ld (ad_need a) slot;
  element_count ← sig_element_count m;
  let n := if need - have <? element_count then need - have else element_count in
  sum ← ld (ad_sum a) slot;
  sum ← sum_loop (Z.to_nat n) m 0 sum;
  sums ← st (ad_sum a) slot sum;
  counts ← st (ad_count a) slot (u32 (have + n));
  Ok (mk_adc sums counts (ad_need a)).

Definition on_adc_data (now slot : Z) (value : jsdrv_union_s) : M unit :=
  s ← get;
  if negb (bool_decide (ca_state s = CAL_SWEEP_CAPTURE)) then mret tt
  else
    need ← lift (ld (ad_need (ca_adc s)) slot);
    if need =? 0 then mret tt
    else if negb (type value =? JSDRV_UNION_BIN) || (size value <? JSDRV_STREAM_HEADER_SIZE) then mret tt
    else
      m ← lift (object value);
      version ← lift (sig_version m);
      bits ← lift (sig_element_size_bits m);
      if negb (version =? 1) || negb (bits =? 32) then mret tt
      else
        have ← lift (ld (ad_count (ca_adc s)) slot);
        if need <=? have then mret tt
        else
          a ← lift (adc_add (ca_adc s) slot m);
          modify (fun s => set_adc s a) ;;
          c ← lift (capture_complete a);
          if negb c then mret tt
          else if cr_op (ca_run s) =? JSDRV_CAL_OP_CURRENT_OFFSET then cal_current_after_capture now
          else cal_voltage_after_capture now.

(** ** Commands *)

(** [jsdrv_cal_cmd_s] *)
Record jsdrv_cal_cmd_s := mk_cmd {
  cmd_transaction_id : Z;
  cmd_op : Z;
  cmd_src_slot : Z;
  cmd_dst_slot : Z;
  cmd_samples_per_point : Z;
}.
Definition CAL_CMD_SIZE : Z := 12.

Definition cmd_parse (m : list Z) : res jsdrv_cal_cmd_s :=
  id ← ld_le 4 m 0; op ← ld m 4; src ← ld m 5; dst ← ld m 6; n ← ld_le 4 m 8; Ok (mk_cmd id op src dst n).

Definition cal_start (now : Z) (cmd : jsdrv_cal_cmd_s) : M unit :=
  modify (fun s => set_run s (mk_run (cmd_op cmd) (cmd_transaction_id cmd) (cmd_src_slot cmd) (cmd_dst_slot cmd) (cmd_samples_per_point cmd))) ;;
  modify (fun s => set_stream (set_prior (set_cmd_id s 0) (ca_prior s) false) false (ca_stream_dual s)) ;;
  let op := cmd_op cmd in
  if op =? JSDRV_CAL_OP_SLOT_READ then
    if JSDRV_CAL_SLOT_COUNT <=? cmd_src_slot cmd then cal_finish (ec_code PARAMETER_INVALID)
    else cal_begin_read (cmd_src_slot cmd) "reading slot"
  else if op =? JSDRV_CAL_OP_SLOT_COPY then
    let rc := slot_copy_policy (cmd_src_slot cmd) (cmd_dst_slot cmd) in
    if negb (rc =? 0) then cal_finish rc
    else cal_begin_read (cmd_src_slot cmd) "reading source slot"
  else if (op =? JSDRV_CAL_OP_CURRENT_OFFSET) || (op =? JSDRV_CAL_OP_VOLTAGE_OFFSET) then
    cal_snapshot_prior ;;
    cal_streams_disable ;;
    modify (fun s => set_state s CAL_DISABLE_SETTLE) ;;
    cal_send_status 20 (str "disabling streams") ;;
    call (SetTimeout (now + STREAM_DISABLE_SETTLE_MS * JSDRV_TIME_MILLISECOND))
  else cal_finish (ec_code PARAMETER_INVALID).

(** ** Public API *)

Definition no_topics : topics_s := mk_topics (replicate (Z.to_nat SAVE_TOPIC_COUNT) 0) (replicate (Z.to_nat SAVE_TOPIC_COUNT) false).

Definition js320_cal_alloc : js320_cal_s :=
  mk_cal false no_topics no_topics false CAL_IDLE (mk_run 0xFF 0 0 0 0) (replicate (Z.to_nat JSDRV_CAL_RECORD_SIZE) 0)
    (mk_flash 0 0 0 0) (mk_sweep 0 0 0 0) (mk_adc [0; 0] [0; 0] [0; 0]) false false.

(** [memset(known, 0, sizeof(known))] *)
Definition forget (t : topics_s) : topics_s := mk_topics (tp_value t) (replicate (Z.to_nat SAVE_TOPIC_COUNT) false).

Definition js320_cal_on_open : M unit :=
  modify (fun s => set_stream (set_prior (set_saved (set_op (set_state (set_dev s true) CAL_IDLE) 0xFF) (forget (ca_saved s))) (forget (ca_prior s)) false)
                     false (ca_stream_dual s)).

Definition js320_cal_on_close : M unit :=
  s ← get;
  (if bool_decide (ca_state s = CAL_IDLE) then mret tt
   else
     call (SetTimeout 0) ;;
     cal_stream_teardown ;;
     modify (fun s => set_prior (set_op (set_state s CAL_IDLE) 0xFF) (ca_prior s) false)) ;;
  modify (fun s => set_dev s false).

(** The observation of a saved topic, in both handlers. *)
Definition cal_observe (idx : Z) (value : jsdrv_union_s) : M unit :=
  v ← lift (union_as_u32 value);
  match v with
  | None => mret tt
  | Some v =>
      s ← get;
      values ← lift (st (tp_value (ca_saved s)) idx v);
      known ← lift (st (tp_known (ca_saved s)) idx true);
      modify (fun s => set_saved s (mk_topics values known))
  end.

Definition js320_cal_handle_cmd (now : Z) (subtopic : string) (value : jsdrv_union_s) : M bool :=
  let idx := save_index subtopic in
  if 0 <=? idx then cal_observe idx value ;; mret false
  else if negb (String.eqb subtopic "h/cal/!cmd") then mret false
  else
    s ← get;
    if negb (bool_decide (ca_state s = CAL_IDLE)) then
      id ← (if (type value =? JSDRV_UNION_BIN) && (4 <=? size value) then m ← lift (object value); lift (ld_le 4 m 0) else mret 0);
      call (SendToFrontend "h/cal/!rsp" (jsdrv_union_bin (rsp_bytes id (ec_code BUSY)))) ;; mret true
    else if negb (type value =? JSDRV_UNION_BIN) || (size value <? CAL_CMD_SIZE) then
      call (SendToFrontend "h/cal/!rsp" (jsdrv_union_bin (rsp_bytes 0 (ec_code PARAMETER_INVALID)))) ;; mret true
    else
      m ← lift (object value);
      cmd ← lift (cmd_parse m);
      cal_start now cmd ;; mret true.

Definition js320_cal_handle_publish (now : Z) (subtopic : string) (value : jsdrv_union_s) : M bool :=
  let idx := save_index subtopic in
  if 0 <=? idx then cal_observe idx value ;; mret false
  else
    s ← get;
    if bool_decide (ca_state s = CAL_IDLE) then mret false
    else if String.eqb subtopic "h/!rsp" then on_mem_response now value ;; mret true
    else mret false.

Definition js320_cal_on_timeout : M unit :=
  s ← get;
  match ca_state s with
  | CAL_DISABLE_SETTLE => cal_begin_read JSDRV_CAL_SLOT_ACTIVE "reading ACTIVE"
  | CAL_SWEEP_SETTLE =>
      let op := cr_op (ca_run s) in
      if op =? JSDRV_CAL_OP_CURRENT_OFFSET then cal_current_capture_begin
      else if op =? JSDRV_CAL_OP_VOLTAGE_OFFSET then cal_voltage_capture_begin
      else mret tt
  | _ => mret tt
  end.

(** ** Runs *)

(** What the upper driver and the subscriptions pass on, with the time they do. *)
Inductive cal_input :=
  | C_open | C_close
  | C_cmd (now : Z) (subtopic : string) (value : jsdrv_union_s)
  | C_publish (now : Z) (subtopic : string) (value : jsdrv_union_s)
  | C_adc (now slot : Z) (value : jsdrv_union_s)
  | C_timeout.

Definition cal_step (x : cal_input) : M unit :=
  match x with
  | C_open => js320_cal_on_open
  | C_close => js320_cal_on_close
  | C_cmd now t v => js320_cal_handle_cmd now t v ;; mret tt
  | C_publish now t v => js320_cal_handle_publish now t v ;; mret tt
  | C_adc now slot v => on_adc_data now slot v
  | C_timeout => js320_cal_on_timeout
  end.

Fixpoint cal_steps (xs : list cal_input) : M unit :=
  match xs with
  | [] => mret tt
  | x :: xs => cal_step x ;; cal_steps xs
  end.
End Device.
