(* ===== verification/Js320CalSafe.v ===== *)
(** * JS320 calibration: what is never overwritten (src/devices/js320/js320_cal.c)

    The records of the factory, of the laboratory and of the field calibration are to be read only.
    The invariant of the state machine, and that from any state that satisfies it every input runs
    without undefined behaviour and erases and writes only the active slot and the two trim slots. *)

From Stdlib Require Import Strings.String.
From S2P Require Import Prelude Cstr ErrorCode Time Effect MbDev Union Hash Js320Cal.

(** ** The memory operations of a call *)

Definition mem_op (a : cal_action) : option mb_stdmsg_mem_s :=
  match a with
  | PublishToDevice topic v =>
      if String.eqb topic CAL_MEM_TOPIC then
        match value v with Mem (Some m) => mem_parse (drop (Z.to_nat HDR_SIZE) m) | _ => None end
      else None
  | _ => None
  end.

(** Erase and write, the two operations that change the memory. *)
Definition changes (m : mb_stdmsg_mem_s) : bool :=
  (mm_operation m =? MB_STDMSG_MEM_OP_WRITE) || (mm_operation m =? MB_STDMSG_MEM_OP_ERASE).

(** The offsets of the slots that may be written. *)
Definition writable : list Z := [24 * 65536; 25 * 65536; 26 * 65536].

Definition within (base : Z) (m : mb_stdmsg_mem_s) : Prop := base <= mm_offset m /\ mm_offset m + mm_length m <= base + FLASH_BLOCK_SIZE.

Definition safe_op (m : mb_stdmsg_mem_s) : Prop := changes m = true -> exists base, base ∈ writable /\ within base m.
Definition safe (a : cal_action) : Prop := forall m, mem_op a = Some m -> safe_op m.

(** ** Runs that only make safe calls *)

Definition swp {A} (m : M A) (s : js320_cal_s) (Q : A -> js320_cal_s -> Prop) : Prop :=
  wp m s (fun a s' o => Forall safe o /\ Q a s').

Lemma swp_ret {A} (a : A) s (Q : A -> js320_cal_s -> Prop) : Q a s -> swp (mret a) s Q.
Proof. intros. apply wp_ret. done. Qed.

Lemma swp_bind {A B} (m : M A) (k : A -> M B) s (Q : B -> js320_cal_s -> Prop) : swp m s (fun a s1 => swp (k a) s1 Q) -> swp (m ≫= k) s Q.
Proof.
  intros H. apply wp_bind. eapply wp_mono; [exact H|]. intros a s1 o1 [Ho1 H1]. eapply wp_mono; [exact H1|].
  intros b s2 o2 [Ho2 HQ]. split; [by apply Forall_app | done].
Qed.

Lemma swp_mono {A} (m : M A) s (P Q : A -> js320_cal_s -> Prop) : swp m s P -> (forall a s', P a s' -> Q a s') -> swp m s Q.
Proof. intros H HQ. eapply wp_mono; [exact H|]. intros a s' o [Ho HP]. auto. Qed.

Lemma swp_get s (Q : js320_cal_s -> js320_cal_s -> Prop) : Q s s -> swp get s Q.
Proof. intros. by apply wp_get. Qed.

Lemma swp_modify f s (Q : unit -> js320_cal_s -> Prop) : Q tt (f s) -> swp (modify f) s Q.
Proof. intros. by apply wp_modify. Qed.

Lemma swp_lift {A} (m : res A) a s (Q : A -> js320_cal_s -> Prop) : m = Ok a -> Q a s -> swp (lift m) s Q.
Proof. intros E HQ. by apply (wp_lift _ _ _ _ E). Qed.

Lemma swp_call a s (Q : unit -> js320_cal_s -> Prop) : ca_dev s = true -> safe a -> Q tt s -> swp (call a) s Q.
Proof. intros Hd Ha HQ. exists tt, s, [a]. unfold call. rewrite Hd. split; [done|]. split; [by apply Forall_singleton | done]. Qed.

(** A call that is no memory operation. *)
Lemma swp_plain a s (Q : unit -> js320_cal_s -> Prop) : ca_dev s = true -> mem_op a = None -> Q tt s -> swp (call a) s Q.
Proof. intros Hd Ha. apply swp_call; [done|]. intros m Hm. congruence. Qed.

Lemma swp_to_device t v s (Q : unit -> js320_cal_s -> Prop) : ca_dev s = true -> String.eqb t CAL_MEM_TOPIC = false -> Q tt s -> swp (to_device t v) s Q.
Proof. intros Hd Ht. apply swp_plain; [done|]. unfold mem_op. by rewrite Ht. Qed.

Lemma swp_status pct msg s (Q : unit -> js320_cal_s -> Prop) : ca_dev s = true -> Q tt s -> swp (cal_send_status pct msg) s Q.
Proof. intros Hd HQ. apply swp_bind, swp_get, swp_plain; done. Qed.

Lemma swp_rsp status s (Q : unit -> js320_cal_s -> Prop) : ca_dev s = true -> Q tt s -> swp (cal_send_rsp status) s Q.
Proof. intros Hd HQ. apply swp_bind, swp_get, swp_plain; done. Qed.

(** ** The invariant *)

Definition topics_ok (t : topics_s) : Prop := length (tp_value t) = 20%nat /\ length (tp_known t) = 20%nat.
Definition offset_op (op : Z) : Prop := op = JSDRV_CAL_OP_CURRENT_OFFSET \/ op = JSDRV_CAL_OP_VOLTAGE_OFFSET.
(** What a record that is read may be read for. *)
Definition read_op (r : cal_run_s) : Prop :=
  cr_op r = JSDRV_CAL_OP_SLOT_READ
  \/ (cr_op r = JSDRV_CAL_OP_SLOT_COPY /\ slot_copy_policy (cr_src_slot r) (cr_dst_slot r) = 0 /\ 0 <= cr_dst_slot r)
  \/ offset_op (cr_op r).
Definition slots : list Z := map (fun b => b * 65536) SLOT_TO_BLOCK.
Definition page_ok (f : flash_s) : Prop := 0 <= fl_page_idx f < 4 /\ fl_page_count f = 4.
Definition point_ok (w : sweep_s) : Prop :=
  0 <= sw_i_select w /\ sw_i_select w <= sw_i_mux w < 6 /\ (sw_pass w = 0 \/ sw_pass w = 1).
Definition sweep_ok (op : Z) (w : sweep_s) : Prop :=
  if op =? JSDRV_CAL_OP_CURRENT_OFFSET then point_ok w else sw_v_select w = 0 \/ sw_v_select w = 1.

(** One accumulator: never more samples than asked for, each in the range of an [int32_t]. *)
Definition slot_ok (a : adc_s) (i : nat) : Prop := exists sum count need,
  ad_sum a !! i = Some sum /\ ad_count a !! i = Some count /\ ad_need a !! i = Some need
  /\ 0 <= count <= need /\ need < 2 ^ 32 /\ - 2 ^ 31 * count <= sum <= 2 ^ 31 * count.
Definition adc_ok (a : adc_s) : Prop := slot_ok a 0 /\ slot_ok a 1.

Record base_ok (s : js320_cal_s) : Prop := mk_base_ok {
  ok_record : length (ca_record s) = 1024%nat;
  ok_saved : topics_ok (ca_saved s);
  ok_prior : topics_ok (ca_prior s);
  ok_cmd_id : is_u 32 (fl_mem_cmd_id (ca_flash s));
  ok_samples : is_u 32 (cr_samples_per_point (ca_run s));
  ok_adc : adc_ok (ca_adc s);
}.

Definition phase_ok (s : js320_cal_s) : Prop :=
  match ca_state s with
  | CAL_IDLE => True
  | CAL_DISABLE_SETTLE => offset_op (cr_op (ca_run s))
  | CAL_READ => read_op (ca_run s) /\ fl_offset_base (ca_flash s) ∈ slots /\ page_ok (ca_flash s)
  | CAL_ERASE => fl_offset_base (ca_flash s) ∈ writable
  | CAL_WRITE | CAL_VERIFY => fl_offset_base (ca_flash s) ∈ writable /\ page_ok (ca_flash s)
  | CAL_SWEEP_SETTLE | CAL_SWEEP_CAPTURE => offset_op (cr_op (ca_run s)) /\ sweep_ok (cr_op (ca_run s)) (ca_sweep s)
  end.

Record cal_inv (s : js320_cal_s) : Prop := mk_cal_inv {
  inv_base : base_ok s;
  inv_dev : ca_state s <> CAL_IDLE -> ca_dev s = true;
  inv_phase : phase_ok s;
}.

(** ** Memory operations *)

Definition sent_op (s : js320_cal_s) : js320_cal_s := set_cmd_id s (u32 (fl_mem_cmd_id (ca_flash s) + 1)).

Lemma base_sent s : base_ok s -> base_ok (sent_op s).
Proof. intros []. split; try done. cbn. by apply uwrap_range. Qed.

Lemma mem_op_sent id op to off n data : is_u 32 id -> is_u 16 to -> is_u 32 off -> is_u 32 n ->
  let msg := hdr_bytes ++ mem_bytes (mk_mem id 0 op 0 0 to off n 0 data) in
  mem_op (PublishToDevice CAL_MEM_TOPIC (union_ptr JSDRV_UNION_STDMSG 0 msg (len msg))) = Some (mk_mem id 0 op 0 0 to off n 0 data).
Proof. intros. unfold mem_op. cbn [value union_ptr]. change (drop (Z.to_nat HDR_SIZE) msg) with (mem_bytes (mk_mem id 0 op 0 0 to off n 0 data)). by apply mem_parse_bytes. Qed.

Lemma swp_mem_op op off n data s (Q : unit -> js320_cal_s -> Prop) : ca_dev s = true -> is_u 32 off -> is_u 32 n -> len data <= 256 ->
  (op = MB_STDMSG_MEM_OP_READ \/ exists base, base ∈ writable /\ base <= off /\ off + n <= base + FLASH_BLOCK_SIZE) ->
  Q tt (sent_op s) -> swp (cal_send_mem_op op off n data) s Q.
Proof.
  intros Hd Hoff Hn Hlen Hop HQ. apply swp_bind, swp_modify, swp_bind, swp_get. cbv zeta.
  assert ((len data <=? FLASH_PAGE_SIZE) = true) as -> by (by apply Z.leb_le). apply swp_bind, swp_ret, swp_call; [done| |done].
  intros m Hm. rewrite mem_op_sent in Hm; [|by apply uwrap_range|by case_if; vm_compute|done|done]. injection Hm as <-.
  intros Hc. destruct Hop as [->|(base & Hb & H1 & H2)]; [done|]. exists base. done.
Qed.

Lemma slots_range b : b ∈ slots -> 0 <= b <= 29 * 65536.
Proof. unfold slots, SLOT_TO_BLOCK. cbn [map]. rewrite !elem_of_cons, elem_of_nil. lia. Qed.

Lemma writable_slots b : b ∈ writable -> b ∈ slots.
Proof. unfold slots, SLOT_TO_BLOCK, writable. cbn [map]. rewrite !elem_of_cons, !elem_of_nil. intros [->|[->|[->|[]]]]; tauto. Qed.

Lemma page_offset_eq s : fl_offset_base (ca_flash s) ∈ slots -> page_ok (ca_flash s) ->
  page_offset s = fl_offset_base (ca_flash s) + fl_page_idx (ca_flash s) * 256.
Proof. intros Hb%slots_range [Hp _]. unfold page_offset, FLASH_PAGE_SIZE. rewrite uwrap_small; [done|]. unfold is_u. width_lia. Qed.

Lemma swp_read_page s (Q : unit -> js320_cal_s -> Prop) : ca_dev s = true -> fl_offset_base (ca_flash s) ∈ slots -> page_ok (ca_flash s) ->
  Q tt (sent_op s) -> swp cal_send_read_page s Q.
Proof.
  intros Hd Hb Hp HQ. apply swp_bind, swp_get, swp_mem_op; try done; [|by left]. rewrite page_offset_eq by done.
  apply slots_range in Hb. destruct Hp. unfold is_u. width_lia.
Qed.

Lemma bytes_at_ok m i n : 0 <= i -> 0 <= n -> i + n <= len m -> exists d, bytes_at m i n = Ok d /\ len d = n.
Proof.
  intros. unfold bytes_at. simpl_cmp. cbn [andb]. eexists. split; [done|]. unfold len in *. rewrite length_take, length_drop. lia.
Qed.

Lemma swp_write_page s (Q : unit -> js320_cal_s -> Prop) : ca_dev s = true -> length (ca_record s) = 1024%nat ->
  fl_offset_base (ca_flash s) ∈ writable -> page_ok (ca_flash s) -> Q tt (sent_op s) -> swp cal_send_write_page s Q.
Proof.
  intros Hd Hr Hb Hp HQ. apply swp_bind, swp_get, swp_bind.
  destruct (bytes_at_ok (ca_record s) (fl_page_idx (ca_flash s) * FLASH_PAGE_SIZE) FLASH_PAGE_SIZE) as (d & Ed & Hd'); try done.
  1,2: destruct Hp; unfold FLASH_PAGE_SIZE, len; lia.
  apply (swp_lift _ d); [done|]. pose proof (page_offset_eq s (writable_slots _ Hb) Hp) as Ho. pose proof (slots_range _ (writable_slots _ Hb)).
  destruct Hp as [Hp _]. apply swp_mem_op; try done.
  - rewrite Ho. unfold is_u. width_lia.
  - by rewrite Hd'.
  - right. eexists. split; [exact Hb|]. rewrite Ho. unfold FLASH_PAGE_SIZE, FLASH_BLOCK_SIZE. lia.
Qed.

Lemma swp_erase s (Q : unit -> js320_cal_s -> Prop) : ca_dev s = true -> fl_offset_base (ca_flash s) ∈ writable -> Q tt (sent_op s) -> swp cal_send_erase s Q.
Proof.
  intros Hd Hb HQ. pose proof (slots_range _ (writable_slots _ Hb)). apply swp_bind, swp_get, swp_mem_op; try done.
  - unfold is_u. width_lia.
  - right. eexists. split; [exact Hb|]. lia.
Qed.

(** ** The end of a command *)

Lemma swp_teardown prefix s (Q : unit -> js320_cal_s -> Prop) : ca_dev s = true -> Q tt (set_stream s false (ca_stream_dual s)) ->
  swp (cal_stream_teardown prefix) s Q.
Proof.
  intros Hd HQ. apply swp_bind, swp_get. destruct (ca_stream_active s) eqn:E; cbn [negb].
  - apply swp_bind, swp_modify. do 2 (apply swp_bind, swp_to_device; [done|done|]). apply swp_bind, swp_plain; [done|done|].
    destruct (ca_stream_dual s) eqn:Ed; [|by apply swp_ret]. do 2 (apply swp_bind, swp_to_device; [done|done|]). by apply swp_plain.
  - apply swp_ret. replace s with (set_stream s false (ca_stream_dual s)); [done|]. destruct s; cbn in *. by subst.
Qed.

Lemma swp_restore_loop prefix ts i s (Q : unit -> js320_cal_s -> Prop) : ca_dev s = true -> topics_ok (ca_prior s) -> Forall (fun t => String.eqb t CAL_MEM_TOPIC = false) ts ->
  0 <= i -> i + len ts = 20 -> Q tt s -> swp (restore_loop prefix ts i) s Q.
Proof.
  intros Hd [Hv Hk] Hts. revert i. induction Hts as [|t ts Ht _ IH]; intros i Hi Hl HQ; [by apply swp_ret|].
  rewrite len_cons in Hl. pose proof (len_nonneg ts). cbn [restore_loop]. apply swp_bind, swp_get, swp_bind.
  destruct (ld_in_range (tp_known (ca_prior s)) i) as (k & Ek & _); [unfold len in *; lia|]. apply (swp_lift _ k); [done|].
  destruct (ld_in_range (tp_value (ca_prior s)) i) as (v & Ev & _); [unfold len in *; lia|]. apply swp_bind, (swp_lift _ v); [done|].
  apply swp_bind. assert (swp (restore_loop prefix ts (i + 1)) s Q) as Hrest by (apply IH; done || lia).
  destruct k; cbn [negb]; [|by apply swp_ret]. case_if; [by apply swp_plain | by apply swp_to_device].
Qed.

Definition finished (s : js320_cal_s) : js320_cal_s :=
  set_op (set_state (set_prior (set_stream s false (ca_stream_dual s)) (ca_prior s) false) CAL_IDLE) 0xFF.

Lemma swp_finish prefix status s (Q : unit -> js320_cal_s -> Prop) : ca_dev s = true -> base_ok s -> Q tt (finished s) -> swp (cal_finish prefix status) s Q.
Proof.
  intros Hd Hb HQ. apply swp_bind, swp_teardown; [done|]. set (s1 := set_stream s false (ca_stream_dual s)).
  assert (forall Q' : unit -> js320_cal_s -> Prop, Q' tt (set_prior s1 (ca_prior s) false) -> swp (cal_restore_prior prefix) s1 Q') as Hr.
  { intros Q' HQ'. apply swp_bind, swp_get. change (ca_restore_pending s1) with (ca_restore_pending s). destruct (ca_restore_pending s) eqn:E; cbn [negb].
    - apply swp_bind, swp_modify, swp_restore_loop; try done; [apply Hb|]. repeat (apply List.Forall_cons; [done|]). apply List.Forall_nil.
    - apply swp_ret. replace s1 with (set_prior s1 (ca_prior s) false); [done|]. subst s1. destruct s; cbn in *. by subst. }
  apply swp_bind, Hr, swp_bind, swp_plain; [done..|]. apply swp_bind, swp_rsp; [done|]. by apply swp_modify.
Qed.

Lemma inv_finished s : base_ok s -> cal_inv (finished s).
Proof. intros []. split; [by split | done | done]. Qed.

Lemma finish_inv prefix status s : ca_dev s = true -> base_ok s -> swp (cal_finish prefix status) s (fun _ => cal_inv).
Proof. intros. apply swp_finish; [done..|]. by apply inv_finished. Qed.

(** ** Flash phases *)

Lemma slot_offset_ok slot : 0 <= slot < 6 -> exists b, slot_to_offset slot = Ok b /\ b ∈ slots /\ (slot < 3 -> b ∈ writable).
Proof.
  intros H. assert (slot = 0 \/ slot = 1 \/ slot = 2 \/ slot = 3 \/ slot = 4 \/ slot = 5) as [->|[->|[->|[->|[->| ->]]]]] by lia;
    eexists; (split; [reflexivity|]); unfold slots, writable; cbn [map SLOT_TO_BLOCK]; rewrite !elem_of_cons; (split; [by vm_compute; tauto | try lia; intros _; by vm_compute; tauto]).
Qed.

Lemma begin_read_inv slot msg s : ca_dev s = true -> base_ok s -> 0 <= slot < 6 -> read_op (ca_run s) -> swp (cal_begin_read slot msg) s (fun _ => cal_inv).
Proof.
  intros Hd Hb Hs Hr. destruct (slot_offset_ok slot Hs) as (b & Eb & Hin & _). apply swp_bind, swp_modify, swp_bind, (swp_lift _ b); [done|].
  apply swp_bind, swp_modify, swp_bind, swp_status; [done|]. apply swp_read_page; [done|done|done|].
  split; [apply base_sent; destruct Hb; by split | done | done].
Qed.

Lemma begin_erase_inv s : ca_dev s = true -> base_ok s -> swp cal_begin_erase_active s (fun _ => cal_inv).
Proof.
  intros Hd Hb. apply swp_bind, swp_modify, swp_bind, (swp_lift _ (24 * 65536)); [done|].
  apply swp_bind, swp_modify, swp_bind, swp_status; [done|]. assert (24 * 65536 ∈ writable) by left. apply swp_erase; [done|done|].
  split; [apply base_sent; destruct Hb; by split | done | done].
Qed.

Lemma begin_write_inv s : ca_dev s = true -> base_ok s -> fl_offset_base (ca_flash s) ∈ writable -> swp cal_begin_write s (fun _ => cal_inv).
Proof.
  intros Hd Hb Hw. apply swp_bind, swp_modify, swp_bind, swp_status; [done|]. apply swp_write_page; [done|apply Hb|done|done|].
  split; [apply base_sent; destruct Hb; by split | done | done].
Qed.

Lemma begin_verify_inv s : ca_dev s = true -> base_ok s -> fl_offset_base (ca_flash s) ∈ writable -> swp cal_begin_verify s (fun _ => cal_inv).
Proof.
  intros Hd Hb Hw. apply swp_bind, swp_modify, swp_bind, swp_status; [done|]. apply swp_read_page; [done|by apply writable_slots|done|].
  split; [apply base_sent; destruct Hb; by split | done | done].
Qed.

(** ** Records *)

Lemma put_bytes_ok rec i v : 0 <= i -> i + len v <= len rec -> exists rec', put_bytes rec i v = Ok rec' /\ length rec' = length rec.
Proof.
  intros Hi Hl. pose proof (len_nonneg v). destruct (mem_copy_ok rec i v 0 (len v)) as (e & E & He & _); try lia. exists e. split; [done|]. unfold len in He. lia.
Qed.

Lemma rec_words_ok n rec i : 0 <= i -> i + 4 * Z.of_nat n <= len rec -> exists ws, rec_words n rec i = Ok ws /\ length ws = n.
Proof.
  revert i; induction n as [|n IH]; intros i Hi Hl; [by exists []|]. cbn [rec_words]. unfold ld_le. simpl_cmp. cbn [andb]. rewrite bind_Ok.
  destruct (IH (i + 4)) as (ws & -> & Hw); [lia..|]. rewrite bind_Ok. eexists. split; [done|]. cbn. by rewrite Hw.
Qed.

Lemma rec_check_ok rec : length rec = 1024%nat -> exists c, rec_check rec = Ok c /\ is_u 32 c.
Proof.
  intros Hl. unfold rec_check. destruct (rec_words_ok 255 rec 0) as (ws & -> & Hw); [done|unfold len; lia|]. rewrite bind_Ok.
  assert (255 = len ws) as -> by (unfold len; lia). rewrite check32_fold. eexists. split; [done|]. by apply check32_fold_range.
Qed.

Lemma stamp_ok now rec : length rec = 1024%nat -> exists rec', cal_stamp_signature_and_check now rec = Ok rec' /\ length rec' = 1024%nat.
Proof.
  intros Hl. unfold cal_stamp_signature_and_check, pack_i64_le, pack_u32_le.
  destruct (put_bytes_ok rec CAL_OFFSET_CREATE_TIME (le 8 (u64 now))) as (r1 & -> & L1); [done | unfold len; rewrite length_le, Hl; done |]. rewrite bind_Ok.
  destruct (put_bytes_ok r1 CAL_OFFSET_SIGNATURE (replicate (Z.to_nat CAL_OFFSET_SIGNATURE_SIZE) 0)) as (r2 & -> & L2); [done | unfold len; rewrite length_replicate, L1, Hl; done |].
  rewrite bind_Ok. destruct (put_bytes_ok r2 CAL_OFFSET_SIGNATURE JSDRV_CAL_SIGNATURE_MAGIC) as (r3 & -> & L3); [done | unfold len; rewrite L2, L1, Hl; done |].
  rewrite bind_Ok. destruct (put_bytes_ok r3 (CAL_OFFSET_SIGNATURE + 16) (le 4 JSDRV_VERSION_U32)) as (r4 & -> & L4); [done | unfold len; rewrite length_le, L3, L2, L1, Hl; done |].
  rewrite bind_Ok. destruct (rec_check_ok r4) as (c & -> & _); [lia|]. rewrite bind_Ok.
  destruct (put_bytes_ok r4 CAL_OFFSET_CHECK32 (le 4 c)) as (r5 & -> & L5); [done | unfold len; rewrite length_le, L4, L3, L2, L1, Hl; done |].
  eexists. split; [done|]. lia.
Qed.

Lemma set_offset_ok rec idx q : length rec = 1024%nat -> 0 <= idx < 72 -> exists rec', cal_set_offset rec idx q = Ok rec' /\ length rec' = 1024%nat.
Proof.
  intros Hl Hi. unfold cal_set_offset, pack_u32_le. rewrite uwrap_small by (unfold is_u, CAL_OFFSET_OFFSETS; width_lia).
  destruct (put_bytes_ok rec (CAL_OFFSET_OFFSETS + idx * 4) (le 4 (u32 q))) as (r & -> & L); [unfold CAL_OFFSET_OFFSETS; lia | unfold len, CAL_OFFSET_OFFSETS; rewrite length_le; lia |].
  eexists. split; [done|]. lia.
Qed.

Lemma base_record s rec : base_ok s -> length rec = 1024%nat -> base_ok (set_record s rec).
Proof. intros [] Hr. by split. Qed.

Lemma swp_put_offset idx q s (Q : unit -> js320_cal_s -> Prop) : base_ok s -> 0 <= idx < 72 ->
  (forall rec, length rec = 1024%nat -> Q tt (set_record s rec)) -> swp (put_offset idx q) s Q.
Proof.
  intros Hb Hi HQ. destruct (set_offset_ok (ca_record s) idx q) as (rec & E & Hl); [apply Hb | done |].
  apply swp_bind, swp_get, swp_bind, (swp_lift _ rec); [done|]. apply swp_modify. by apply HQ.
Qed.

Lemma swp_stamp now s (Q : unit -> js320_cal_s -> Prop) : base_ok s ->
  (forall rec, length rec = 1024%nat -> Q tt (set_record s rec)) -> swp (cal_stamp now) s Q.
Proof.
  intros Hb HQ. destruct (stamp_ok now (ca_record s)) as (rec & E & Hl); [apply Hb|].
  apply swp_bind, swp_get, swp_bind, (swp_lift _ rec); [done|]. apply swp_modify. by apply HQ.
Qed.

(** ** Sweeps *)

(** The points of the sweep, in its order: the pairs of [i_select] and [i_mux] on and above the diagonal. *)
Definition points : list (Z * Z) := flat_map (fun i => map (fun m => (i, m)) (seqZ i (6 - i))) (seqZ 0 6).

Lemma points_elem i m : 0 <= i -> i <= m < 6 -> exists k : nat, (k < 21)%nat /\ points !! k = Some (i, m).
Proof.
  intros Hi Hm. assert ((i, m) ∈ points) as Hin.
  { unfold points. apply list_elem_of_In, in_flat_map. exists i. rewrite <- list_elem_of_In, elem_of_seqZ. split; [lia|].
    apply in_map_iff. exists m. split; [done|]. rewrite <- list_elem_of_In, elem_of_seqZ. lia. }
  apply list_elem_of_lookup in Hin as [k Hk]. exists k. split; [|done]. apply lookup_lt_Some in Hk. exact Hk.
Qed.

(** The table numbers the points in this order, and the search goes from each to the next. *)
Definition point_check (k : nat) : bool :=
  match points !! k with
  | None => false
  | Some (i, m) =>
      bool_decide (0 <= i) && bool_decide (i <= m < 6)
      && bool_decide (ld CAL_INDEX_MAP (i * 6 + m) = Ok (Z.of_nat k)) && bool_decide (next_sweep_point i m = Ok (points !! S k))
  end.

Lemma points_checked : forallb point_check (seq 0 21) = true.
Proof. by vm_compute. Qed.

Lemma point_at k i m : points !! k = Some (i, m) ->
  0 <= i /\ i <= m < 6 /\ (k < 21)%nat /\ ld CAL_INDEX_MAP (i * 6 + m) = Ok (Z.of_nat k) /\ next_sweep_point i m = Ok (points !! S k).
Proof.
  intros Hk. assert (k < 21)%nat as Hlt by (apply lookup_lt_Some in Hk; exact Hk).
  pose proof (proj1 (forallb_forall point_check (seq 0 21)) points_checked k) as Hc. specialize (Hc (proj2 (in_seq 21 0 k) ltac:(lia))).
  unfold point_check in Hc. rewrite Hk in Hc. rewrite !andb_true_iff, !bool_decide_eq_true in Hc. tauto.
Qed.

Lemma slot_mean_ok a (i : nat) : slot_ok a i -> exists mean, slot_mean a (Z.of_nat i) = Ok mean.
Proof.
  intros (sum & count & need & E1 & E2 & _). unfold slot_mean. rewrite (ld_ok (ad_sum a) (Z.of_nat i) sum), bind_Ok by (rewrite ?Nat2Z.id; lia || done).
  rewrite (ld_ok (ad_count a) (Z.of_nat i) count), bind_Ok by (rewrite ?Nat2Z.id; lia || done). eauto.
Qed.

Lemma settle_inv now s : ca_dev s = true -> base_ok s -> offset_op (cr_op (ca_run s)) -> sweep_ok (cr_op (ca_run s)) (ca_sweep s) ->
  swp (cal_arm_settle now) s (fun _ => cal_inv).
Proof. intros Hd Hb Ho Hw. apply swp_bind, swp_modify, swp_plain; [done..|]. split; [destruct Hb; by split | done | done]. Qed.

Lemma pass_config_inv now s : ca_dev s = true -> base_ok s -> cr_op (ca_run s) = JSDRV_CAL_OP_CURRENT_OFFSET -> point_ok (ca_sweep s) ->
  swp (cal_current_pass_config now) s (fun _ => cal_inv).
Proof.
  intros Hd Hb Ho Hw. apply swp_bind, swp_get, swp_bind, swp_to_device; [done..|]. apply settle_inv; try done; rewrite Ho; [by left | done].
Qed.

Lemma point_start_inv now s : ca_dev s = true -> base_ok s -> cr_op (ca_run s) = JSDRV_CAL_OP_CURRENT_OFFSET ->
  0 <= sw_i_select (ca_sweep s) -> sw_i_select (ca_sweep s) <= sw_i_mux (ca_sweep s) < 6 -> swp (cal_current_point_start now) s (fun _ => cal_inv).
Proof.
  intros Hd Hb Ho H1 H2. apply swp_bind, swp_bind, swp_get. do 3 (apply swp_bind, swp_to_device; [done..|]). apply swp_to_device; [done..|].
  apply swp_bind, swp_modify, pass_config_inv; [done | destruct Hb; by split | done |]. split; [done|]. split; [done|]. by left.
Qed.

Lemma current_capture_inv now s : ca_dev s = true -> base_ok s -> cr_op (ca_run s) = JSDRV_CAL_OP_CURRENT_OFFSET -> point_ok (ca_sweep s) ->
  swp (cal_current_after_capture now) s (fun _ => cal_inv).
Proof.
  intros Hd Hb Ho (H1 & H2 & Hp). destruct (points_elem _ _ H1 H2) as (k & Hk & Ek). destruct (point_at _ _ _ Ek) as (_ & _ & _ & Ei & En).
  destruct (slot_mean_ok (ca_adc s) 0 (proj1 (ok_adc _ Hb))) as (mean0 & E0). destruct (slot_mean_ok (ca_adc s) 1 (proj2 (ok_adc _ Hb))) as (mean1 & E1).
  apply swp_bind, swp_get. cbv zeta. apply swp_bind, (swp_lift _ (Z.of_nat k)); [done|]. apply swp_bind, (swp_lift _ mean0); [done|].
  apply swp_bind, (swp_lift _ mean1); [done|]. unfold CAL_POINTS_PER_CURRENT_CHAN. case_if.
  - apply swp_bind, swp_put_offset; [done | lia |]. intros r1 L1. apply swp_bind, swp_put_offset; [by apply base_record | lia |]. intros r2 L2.
    apply swp_bind, swp_modify, swp_bind, swp_get, swp_bind, swp_status; [done|].
    apply pass_config_inv; try done; [destruct Hb; by split |]. split; [done|]. split; [done|]. by right.
  - apply swp_bind, swp_put_offset; [done | lia |]. intros r1 L1. apply swp_bind, swp_status; [done|]. apply swp_bind, (swp_lift _ (points !! S k)); [done|].
    destruct (points !! S k) as [[i' m']|] eqn:E'.
    + destruct (point_at _ _ _ E') as (? & ? & _). apply swp_bind, swp_modify, point_start_inv; try done. destruct Hb; by split.
    + apply swp_bind, swp_stamp; [by apply base_record|]. intros r2 L2. apply begin_erase_inv; [done|]. by do 2 (apply base_record; [|done]).
Qed.

Lemma voltage_config_inv now s : ca_dev s = true -> base_ok s -> cr_op (ca_run s) = JSDRV_CAL_OP_VOLTAGE_OFFSET ->
  sw_v_select (ca_sweep s) = 0 \/ sw_v_select (ca_sweep s) = 1 -> swp (cal_voltage_pass_config now) s (fun _ => cal_inv).
Proof.
  intros Hd Hb Ho Hw. apply swp_bind, swp_get, swp_bind, swp_to_device; [done..|]. apply settle_inv; try done; rewrite Ho; [by right | done].
Qed.

Lemma voltage_capture_inv now s : ca_dev s = true -> base_ok s -> cr_op (ca_run s) = JSDRV_CAL_OP_VOLTAGE_OFFSET ->
  sw_v_select (ca_sweep s) = 0 \/ sw_v_select (ca_sweep s) = 1 -> swp (cal_voltage_after_capture now) s (fun _ => cal_inv).
Proof.
  intros Hd Hb Ho Hv. destruct (slot_mean_ok (ca_adc s) 0 (proj1 (ok_adc _ Hb))) as (mean0 & E0).
  apply swp_bind, swp_get. cbv zeta. apply swp_bind, (swp_lift _ mean0); [done|]. unfold CAL_VOLTAGE_IDX.
  apply swp_bind, swp_put_offset; [done | lia |]. intros r1 L1. apply swp_bind, swp_status; [done|]. case_if.
  - apply swp_bind, swp_modify, voltage_config_inv; try done; [destruct Hb; by split | by right].
  - apply swp_bind, swp_stamp; [by apply base_record|]. intros r2 L2. apply begin_erase_inv; [done|]. by do 2 (apply base_record; [|done]).
Qed.

(** ** Samples *)

(** The [i]-th sample of a message. *)
Definition sample_at (m : list Z) (i : Z) : Z := i32 (un_le (take 4 (drop (Z.to_nat (JSDRV_STREAM_HEADER_SIZE + 4 * i)) m))).
Definition total (l : list Z) : Z := foldr Z.add 0 l.

Lemma sample_range m i : - 2 ^ 31 <= sample_at m i < 2 ^ 31.
Proof. apply (swrap_range 32). lia. Qed.

Lemma total_range l : Forall (fun x => - 2 ^ 31 <= x < 2 ^ 31) l -> - 2 ^ 31 * len l <= total l <= 2 ^ 31 * len l.
Proof. induction 1 as [|x l Hx _ IH]; [done|]. rewrite len_cons. cbn [total foldr]. fold (total l). change (2 ^ 31) with 2147483648 in *. lia. Qed.

Lemma samples_range m i n : - 2 ^ 31 * Z.of_nat n <= total (map (sample_at m) (seqZ i (Z.of_nat n))) <= 2 ^ 31 * Z.of_nat n.
Proof.
  assert (Z.of_nat n = len (map (sample_at m) (seqZ i (Z.of_nat n)))) as E by (unfold len; rewrite length_map, length_seqZ; lia).
  rewrite E at 1 4. apply total_range, Forall_map, Forall_true. intros. apply sample_range.
Qed.

Lemma sum_loop_eq n m i s : 0 <= i -> JSDRV_STREAM_HEADER_SIZE + 4 * (i + Z.of_nat n) <= len m -> - 2 ^ 63 + 2 ^ 31 * Z.of_nat n <= s < 2 ^ 63 - 2 ^ 31 * Z.of_nat n ->
  sum_loop n m i s = Ok (s + total (map (sample_at m) (seqZ i (Z.of_nat n)))).
Proof.
  revert i s. induction n as [|n IH]; intros i s Hi Hl Hs; [cbn; by rewrite Z.add_0_r|]. cbn [sum_loop].
  assert (0 <= JSDRV_STREAM_HEADER_SIZE) by done. unfold sig_sample, ld_le. simpl_cmp. cbn [andb].
  rewrite !bind_Ok. change (i32 (un_le _)) with (sample_at m i). pose proof (sample_range m i).
  rewrite chk_i_ok by (unfold is_s; change (2 ^ (64 - 1)) with (2 ^ 63); lia). rewrite bind_Ok, IH by lia.
  rewrite (seqZ_cons i (Z.of_nat (S n))) by lia. replace (Z.pred (Z.of_nat (S n))) with (Z.of_nat n) by lia. change (Z.succ i) with (i + 1).
  cbn [map total foldr]. unfold total. f_equal. lia.
Qed.

(** A message whose samples are all there. *)
Definition sig_fits (m : list Z) : Prop :=
  JSDRV_STREAM_HEADER_SIZE <= len m /\ forall c, sig_element_count m = Ok c -> 0 <= c /\ JSDRV_STREAM_HEADER_SIZE + 4 * c <= len m.

Definition msg_count (m : list Z) : Z := un_le (take 4 (drop 20 m)).

Lemma sig_count_eq m : sig_fits m -> sig_element_count m = Ok (msg_count m) /\ 0 <= msg_count m /\ JSDRV_STREAM_HEADER_SIZE + 4 * msg_count m <= len m.
Proof.
  intros [Hl Hc]. assert (sig_element_count m = Ok (msg_count m)) as E.
  { unfold sig_element_count, ld_le, JSDRV_STREAM_HEADER_SIZE in *. by simpl_cmp. }
  split; [done|]. by apply Hc.
Qed.

(** What [adc_add] takes from a message. *)
Definition taken (have need : Z) (m : list Z) : Z := Z.min (need - have) (msg_count m).

Lemma adc_add_eq a (i : nat) sum count need m : (i < 2)%nat -> sig_fits m -> ad_sum a !! i = Some sum -> ad_count a !! i = Some count -> ad_need a !! i = Some need ->
  0 <= count <= need -> need < 2 ^ 32 -> - 2 ^ 31 * count <= sum <= 2 ^ 31 * count ->
  adc_add a (Z.of_nat i) m = Ok (mk_adc (<[i := sum + total (map (sample_at m) (seqZ 0 (taken count need m)))]> (ad_sum a))
                                   (<[i := count + taken count need m]> (ad_count a)) (ad_need a)).
Proof.
  intros Hi Hm E1 E2 E3 Hc Hn Hs. destruct (sig_count_eq m Hm) as (Ec & Hc0 & Hcl). unfold adc_add.
  rewrite (ld_ok (ad_count a) (Z.of_nat i) count), bind_Ok by (rewrite ?Nat2Z.id; lia || done).
  rewrite (ld_ok (ad_need a) (Z.of_nat i) need), bind_Ok by (rewrite ?Nat2Z.id; lia || done). rewrite Ec, bind_Ok.
  assert ((if need - count <? msg_count m then need - count else msg_count m) = taken count need m) as -> by (unfold taken; case_if; lia).
  rewrite (ld_ok (ad_sum a) (Z.of_nat i) sum), bind_Ok by (rewrite ?Nat2Z.id; lia || done).
  assert (0 <= taken count need m <= msg_count m /\ taken count need m <= need - count) as Ht by (unfold taken; lia).
  change (2 ^ 32) with 4294967296 in Hn. change (2 ^ 31) with 2147483648 in Hs.
  rewrite sum_loop_eq; [|lia | rewrite Z2Nat.id by lia; unfold JSDRV_STREAM_HEADER_SIZE in *; lia
    | rewrite Z2Nat.id by lia; change (2 ^ 63) with 9223372036854775808; change (2 ^ 31) with 2147483648; lia].
  rewrite Z2Nat.id by lia. rewrite bind_Ok. rewrite (st_ok (ad_sum a)) by (apply lookup_lt_Some in E1; unfold len; lia). rewrite bind_Ok.
  rewrite (st_ok (ad_count a)) by (apply lookup_lt_Some in E2; unfold len; lia). rewrite bind_Ok, uwrap_small by (unfold is_u; width_lia). by rewrite !Nat2Z.id.
Qed.

Lemma adc_add_ok a (i : nat) m : (i < 2)%nat -> adc_ok a -> sig_fits m -> exists a', adc_add a (Z.of_nat i) m = Ok a' /\ adc_ok a'.
Proof.
  intros Hi Ha Hm. assert (slot_ok a i) as Hs by (destruct Ha; destruct i as [|[|i]]; [done|done|lia]).
  destruct Hs as (sum & count & need & E1 & E2 & E3 & Hc & Hn & Hs). destruct (sig_count_eq m Hm) as (Ec & Hc0 & Hcl).
  rewrite (adc_add_eq a i sum count need m) by done. eexists. split; [done|].
  assert (0 <= taken count need m <= need - count) as Ht by (unfold taken; lia).
  pose proof (samples_range m 0 (Z.to_nat (taken count need m))) as Hr. rewrite Z2Nat.id in Hr by lia.
  assert (forall j, slot_ok a j -> slot_ok (mk_adc (<[i := sum + total (map (sample_at m) (seqZ 0 (taken count need m)))]> (ad_sum a))
                                   (<[i := count + taken count need m]> (ad_count a)) (ad_need a)) j) as Hj.
  { intros j (sum' & count' & need' & F1 & F2 & F3 & G). unfold slot_ok. cbn [ad_sum ad_count ad_need]. destruct (decide (i = j)) as [->|Hne].
    - rewrite !list_lookup_insert_eq by (by eapply lookup_lt_Some). exists (sum + total (map (sample_at m) (seqZ 0 (taken count need m)))), (count + taken count need m), need.
      split_and!; try done; lia.
    - rewrite !list_lookup_insert_ne by done. by exists sum', count', need'. }
  destruct Ha. split; by apply Hj.
Qed.

(** ** Inputs *)

(** A value with a size has that many bytes. *)
Definition ptr_ok (v : jsdrv_union_s) : Prop :=
  0 < size v -> exists m, object v = Ok m /\ len m = size v /\ size v < 2 ^ 32 /\ Forall (is_u 8) m.

(** The value of an observed topic converts or is refused; a double that is not a number does neither. *)
Definition observable (v : jsdrv_union_s) : Prop := exists r, union_as_u32 v = Ok r.

Definition rsp_hdr (v : jsdrv_union_s) : Z := if type v =? JSDRV_UNION_STDMSG then HDR_SIZE else 0.

(** While a record is verified, a response names an offset of the slot that is read. *)
Definition echo_ok (s : js320_cal_s) (v : jsdrv_union_s) : Prop := ca_state s = CAL_VERIFY ->
  forall m off, object v = Ok m -> ld_le 4 m (rsp_hdr v + 12) = Ok off -> u32 (off - fl_offset_base (ca_flash s)) < 1024.

Definition input_ok (s : js320_cal_s) (x : cal_input) : Prop :=
  match x with
  | C_open | C_close | C_timeout => True
  | C_cmd _ t v => ca_dev s = true /\ ptr_ok v /\ (0 <= save_index t -> observable v)
  | C_publish _ t v => ptr_ok v /\ (0 <= save_index t -> observable v) /\ echo_ok s v
  | C_adc _ slot v => (slot = 0 \/ slot = 1) /\ ptr_ok v /\ forall m, object v = Ok m -> JSDRV_STREAM_HEADER_SIZE <= len m -> sig_fits m
  end.

(** ** The handlers keep the invariant *)

Section Handlers.
Context (prefix : string).

Lemma validate_ok rec : length rec = 1024%nat -> exists rc, cal_validate rec = Ok rc.
Proof.
  intros Hl. unfold cal_validate, mem_eq. assert (16 <= len rec) by (unfold len; lia). simpl_cmp. cbn [andb].
  change (16 <=? len CAL_HEADER_MAGIC) with true. cbv iota. rewrite bind_Ok. case_if; [eauto|]. unfold ld_le, CAL_OFFSET_CHECK32.
  assert (1020 + Z.of_nat 4 <= len rec) by (unfold len; lia). simpl_cmp. cbn [andb]. rewrite bind_Ok.
  destruct (rec_check_ok rec Hl) as (c & -> & _). rewrite bind_Ok. case_if; eauto.
Qed.

Lemma swp_stream_setup dual s (Q : unit -> js320_cal_s -> Prop) : ca_dev s = true -> Q tt (set_stream s true dual) -> swp (cal_stream_setup prefix dual) s Q.
Proof.
  intros Hd HQ. apply swp_bind, swp_modify, swp_bind, swp_plain; [done..|]. apply swp_bind, swp_to_device; [done..|].
  destruct dual; [|by apply swp_ret]. apply swp_bind, swp_to_device; [done..|]. apply swp_bind, swp_plain; [done..|]. by apply swp_to_device.
Qed.

Lemma current_read_inv now s : ca_dev s = true -> base_ok s -> cr_op (ca_run s) = JSDRV_CAL_OP_CURRENT_OFFSET ->
  swp (cal_current_after_active_read prefix now) s (fun _ => cal_inv).
Proof.
  intros Hd Hb Ho. destruct (validate_ok (ca_record s)) as (rc & E); [apply Hb|]. apply swp_bind, swp_get, swp_bind, (swp_lift _ rc); [done|].
  case_if; [by apply finish_inv|]. apply swp_bind, swp_to_device; [done..|]. apply swp_bind, swp_stream_setup; [done|]. apply swp_bind, swp_modify.
  apply swp_bind, swp_status; [done|]. apply point_start_inv; try done. destruct Hb; by split.
Qed.

Lemma voltage_read_inv now s : ca_dev s = true -> base_ok s -> cr_op (ca_run s) = JSDRV_CAL_OP_VOLTAGE_OFFSET ->
  swp (cal_voltage_after_active_read prefix now) s (fun _ => cal_inv).
Proof.
  intros Hd Hb Ho. destruct (validate_ok (ca_record s)) as (rc & E); [apply Hb|]. apply swp_bind, swp_get, swp_bind, (swp_lift _ rc); [done|].
  case_if; [by apply finish_inv|]. do 2 (apply swp_bind, swp_to_device; [done..|]). apply swp_bind, swp_stream_setup; [done|]. apply swp_bind, swp_modify.
  apply swp_bind, swp_status; [done|]. apply voltage_config_inv; try done; [destruct Hb; by split | by left].
Qed.

Lemma copy_policy_dst src dst : slot_copy_policy src dst = 0 -> dst < 3.
Proof.
  unfold slot_copy_policy, JSDRV_CAL_SLOT_COUNT, JSDRV_CAL_SLOT_ACTIVE, JSDRV_CAL_SLOT_TRIM1, JSDRV_CAL_SLOT_TRIM2.
  repeat case_if; bool_facts; done || lia.
Qed.

Lemma read_done_inv now d n s : ca_dev s = true -> base_ok s -> read_op (ca_run s) -> fl_offset_base (ca_flash s) ∈ slots -> page_ok (ca_flash s) ->
  n <= len d -> ca_state s = CAL_READ -> swp (on_read_done prefix now d n) s (fun _ => cal_inv).
Proof.
  intros Hd Hb Hr Hs [Hp1 Hp2] Hn Hst. unfold on_read_done, FLASH_PAGE_SIZE. case_if; [by apply finish_inv|].
  apply swp_bind, swp_get. cbv zeta. pose proof (ok_record _ Hb) as Hl.
  destruct (mem_copy_ok (ca_record s) (fl_page_idx (ca_flash s) * 256) d 0 256) as (rec & Ecp & HL & _); try lia; [unfold len; lia|].
  apply swp_bind, (swp_lift _ rec); [done|]. apply swp_bind, swp_modify, swp_bind, swp_get.
  assert (length rec = 1024%nat) as Hrec by (unfold len in HL; lia).
  set (s1 := set_page _ _ _). assert (base_ok s1) as Hb1 by (destruct Hb; by split).
  assert (fl_page_idx (ca_flash s1) = fl_page_idx (ca_flash s) + 1) as Ei by (cbn; rewrite uwrap_small; [done|unfold is_u; width_lia]).
  change (fl_page_count (ca_flash s1)) with (fl_page_count (ca_flash s)). change (ca_run s1) with (ca_run s). cbv zeta. rewrite Ei, Hp2. case_if.
  - apply swp_read_page; [done|done|split; [rewrite Ei; lia | done]|].
    split; [by apply base_sent | done |]. unfold phase_ok. change (ca_state (sent_op s1)) with (ca_state s). rewrite Hst. split; [done|]. split; [done|].
    split; [change (fl_page_idx (ca_flash (sent_op s1))) with (fl_page_idx (ca_flash s1)); rewrite Ei; lia | done].
  - case_if; [apply swp_bind, swp_plain; [done..|]; by apply finish_inv|]. case_if.
    + unfold mem_eq. assert (16 <= len (ca_record s1)) by (unfold len; cbn; lia). simpl_cmp. change (16 <=? len CAL_HEADER_MAGIC) with true. cbn [andb].
      apply swp_bind, (swp_lift _ (bool_decide (take (Z.to_nat 16) (ca_record s1) = take (Z.to_nat 16) CAL_HEADER_MAGIC))); [done|]. case_if; [by apply finish_inv|].
      destruct Hr as [Hr|[(_ & Hpol & Hdst)|[Hr|Hr]]];
        try match goal with H : cr_op (ca_run s) = JSDRV_CAL_OP_SLOT_COPY |- _ => rewrite Hr in H; discriminate H end.
      pose proof (copy_policy_dst _ _ Hpol). destruct (slot_offset_ok (cr_dst_slot (ca_run s))) as (b & Eb & _ & Hw); [lia|]. specialize (Hw ltac:(lia)).
      apply swp_bind, (swp_lift _ b); [done|]. apply swp_bind, swp_modify, swp_bind, swp_status; [done|]. apply swp_erase; [done|done|].
      split; [apply base_sent; destruct Hb1; by split | done | done].
    + case_if; [by apply current_read_inv|]. case_if; [by apply voltage_read_inv|]. by apply finish_inv.
Qed.

Lemma write_done_inv s : ca_dev s = true -> base_ok s -> fl_offset_base (ca_flash s) ∈ writable -> page_ok (ca_flash s) -> ca_state s = CAL_WRITE ->
  swp on_write_done s (fun _ => cal_inv).
Proof.
  intros Hd Hb Hw [Hp1 Hp2] Hst. apply swp_bind, swp_modify, swp_bind, swp_get. set (s1 := set_page _ _ _). assert (base_ok s1) as Hb1 by (destruct Hb; by split).
  assert (fl_page_idx (ca_flash s1) = fl_page_idx (ca_flash s) + 1) as Ei by (cbn; rewrite uwrap_small; [done|unfold is_u; width_lia]).
  change (fl_page_count (ca_flash s1)) with (fl_page_count (ca_flash s)). rewrite Ei, Hp2. case_if; [|by apply begin_verify_inv].
  assert (page_ok (ca_flash s1)) as Hp by (split; [rewrite Ei; lia | done]). apply swp_write_page; [done|apply Hb1|done|done|].
  split; [by apply base_sent | done |]. unfold phase_ok. change (ca_state (sent_op s1)) with (ca_state s). by rewrite Hst.
Qed.

Lemma verify_done_inv off d n s : ca_dev s = true -> base_ok s -> fl_offset_base (ca_flash s) ∈ writable -> page_ok (ca_flash s) -> ca_state s = CAL_VERIFY ->
  n <= len d -> u32 (off - fl_offset_base (ca_flash s)) < 1024 -> swp (on_verify_done prefix off d n) s (fun _ => cal_inv).
Proof.
  intros Hd Hb Hw [Hp1 Hp2] Hst Hn Hoff. unfold on_verify_done. case_if; [by apply finish_inv|]. unfold FLASH_PAGE_SIZE in *. pose proof (ok_record _ Hb) as Hl.
  apply swp_bind, swp_get. cbv zeta. pose proof (uwrap_range 32 (off - fl_offset_base (ca_flash s)) ltac:(lia)) as [Hu _].
  set (page := _ / 256). assert (0 <= page < 4) as Hpage by (subst page; split; [by apply Z.div_pos | apply Z.div_lt_upper_bound; lia]).
  destruct (bytes_at_ok (ca_record s) (page * 256) 256) as (e & Ee & _); try lia; [unfold len; lia|]. apply swp_bind, (swp_lift _ e); [done|].
  destruct (bytes_at_ok d 0 256) as (g & Eg & _); try lia. apply swp_bind, (swp_lift _ g); [done|]. case_if; [by apply finish_inv|].
  apply swp_bind, swp_modify, swp_bind, swp_get. set (s1 := set_page _ _ _). assert (base_ok s1) as Hb1 by (destruct Hb; by split).
  assert (fl_page_idx (ca_flash s1) = fl_page_idx (ca_flash s) + 1) as Ei by (cbn; rewrite uwrap_small; [done|unfold is_u; width_lia]).
  change (fl_page_count (ca_flash s1)) with (fl_page_count (ca_flash s)). rewrite Ei, Hp2. case_if.
  - assert (page_ok (ca_flash s1)) as Hp by (split; [rewrite Ei; lia | done]). apply swp_read_page; [done|by apply writable_slots|done|].
    split; [by apply base_sent | done |]. unfold phase_ok. change (ca_state (sent_op s1)) with (ca_state s). by rewrite Hst.
  - apply swp_bind. case_if; [apply swp_to_device; [done..|] | apply swp_ret]; by apply finish_inv.
Qed.

Lemma mem_response_inv now v s : cal_inv s -> ca_state s <> CAL_IDLE -> ptr_ok v -> echo_ok s v -> swp (on_mem_response prefix now v) s (fun _ => cal_inv).
Proof.
  intros Hi Hst Hv He. pose proof (inv_dev _ Hi Hst) as Hd. pose proof (inv_base _ Hi) as Hb. unfold on_mem_response. fold (rsp_hdr v). cbv zeta.
  assert (0 <= rsp_hdr v <= 8) as Hh by (unfold rsp_hdr, HDR_SIZE; case_if; lia). unfold MEM_SIZE. case_if; [by apply finish_inv|].
  destruct Hv as (m & Em & Hm & H32 & _); [lia|]. apply swp_bind, swp_get, swp_bind, (swp_lift _ m); [done|].
  assert (ld_le 4 m (rsp_hdr v) = Ok (un_le (take 4 (drop (Z.to_nat (rsp_hdr v)) m)))) as El by (unfold ld_le; by simpl_cmp).
  apply swp_bind, (swp_lift _ _ _ _ El). case_if; [by apply swp_ret|].
  destruct (ld_in_range m (rsp_hdr v + 7)) as (st' & Es & _); [lia|]. apply swp_bind, (swp_lift _ st'); [done|]. case_if; [by apply finish_inv|].
  assert (u32 (size v - rsp_hdr v - 24) <= len (drop (Z.to_nat (rsp_hdr v + 24)) m)) as Hn.
  { rewrite uwrap_small by (unfold is_u; lia). unfold len in *. rewrite length_drop. lia. }
  pose proof (inv_phase _ Hi) as Hp. unfold phase_ok in Hp. destruct (ca_state s) eqn:Es'; try by apply swp_ret.
  - destruct Hp as (? & ? & ?). by apply read_done_inv.
  - by apply begin_write_inv.
  - destruct Hp as [? ?]. by apply write_done_inv.
  - destruct Hp as [? ?]. assert (ld_le 4 m (rsp_hdr v + 12) = Ok (un_le (take 4 (drop (Z.to_nat (rsp_hdr v + 12)) m)))) as Eo by (unfold ld_le; by simpl_cmp).
    apply swp_bind, (swp_lift _ _ _ _ Eo). apply verify_done_inv; try done. by apply (He Es' m).
Qed.

Lemma complete_ok a : adc_ok a -> exists c, capture_complete a = Ok c.
Proof.
  intros [(? & ? & ? & _ & E2 & E3 & _) (? & ? & ? & _ & F2 & F3 & _)]. unfold capture_complete, slot_complete.
  rewrite (ld_ok (ad_need a) 0 _ ltac:(lia) E3), (ld_ok (ad_count a) 0 _ ltac:(lia) E2), !bind_Ok. case_if; [eauto|].
  rewrite (ld_ok (ad_need a) 1 _ ltac:(lia) F3), (ld_ok (ad_count a) 1 _ ltac:(lia) F2), !bind_Ok. eauto.
Qed.

Lemma adc_data_inv now slot v s : cal_inv s -> slot = 0 \/ slot = 1 -> ptr_ok v ->
  (forall m, object v = Ok m -> JSDRV_STREAM_HEADER_SIZE <= len m -> sig_fits m) -> swp (on_adc_data now slot v) s (fun _ => cal_inv).
Proof.
  intros Hi Hslot Hv Hfit. unfold on_adc_data. apply swp_bind, swp_get. case_bool_decide as Hst; cbn [negb]; [|by apply swp_ret].
  assert (ca_state s <> CAL_IDLE) as Hne by congruence. pose proof (inv_dev _ Hi Hne) as Hd. pose proof (inv_base _ Hi) as Hb. pose proof (ok_adc _ Hb) as Ha.
  assert (exists i : nat, slot = Z.of_nat i /\ (i < 2)%nat /\ slot_ok (ca_adc s) i) as (i & -> & Hi2 & Hs)
    by (destruct Hslot as [->| ->]; [exists 0%nat | exists 1%nat]; (split; [done|]; split; [lia|]; apply Ha)).
  destruct Hs as (sum & count & need & E1 & E2 & E3 & Hc & Hn & Hs).
  apply swp_bind, (swp_lift _ need); [apply ld_ok; [lia|by rewrite Nat2Z.id]|]. case_if; [by apply swp_ret|]. case_if; [by apply swp_ret|].
  assert (56 <= size v) as Hsz by done.
  destruct Hv as (m & Em & Hm & _); [lia|]. assert (sig_fits m) as Hf by (apply Hfit; [done|unfold JSDRV_STREAM_HEADER_SIZE; lia]).
  apply swp_bind, (swp_lift _ m); [done|]. destruct (ld_in_range m 0) as (ver & Ev & _); [lia|]. apply swp_bind, (swp_lift _ ver); [done|].
  destruct (ld_in_range m 19) as (bits & Eb & _); [lia|]. apply swp_bind, (swp_lift _ bits); [done|]. case_if; [by apply swp_ret|].
  apply swp_bind, (swp_lift _ count); [apply ld_ok; [lia|by rewrite Nat2Z.id]|]. case_if; [by apply swp_ret|].
  destruct (adc_add_ok (ca_adc s) i m Hi2 Ha Hf) as (a' & Ea' & Ha'). apply swp_bind, (swp_lift _ a'); [done|]. apply swp_bind, swp_modify.
  destruct (complete_ok a' Ha') as (c & Ec). apply swp_bind, (swp_lift _ c); [done|].
  assert (base_ok (set_adc s a')) as Hb' by (destruct Hb; by split). pose proof (inv_phase _ Hi) as Hp. unfold phase_ok in Hp. rewrite Hst in Hp.
  destruct Hp as [Ho Hw]. destruct c; cbn [negb].
  - unfold sweep_ok in Hw. case_if; [by apply current_capture_inv|]. destruct Ho as [Ho|Ho]; [done|]. by apply voltage_capture_inv.
  - apply swp_ret. split; [done | done |]. unfold phase_ok. change (ca_state (set_adc s a')) with (ca_state s). by rewrite Hst.
Qed.

Lemma copy_policy_src src dst : slot_copy_policy src dst = 0 -> src < 6.
Proof. unfold slot_copy_policy, JSDRV_CAL_SLOT_COUNT. repeat case_if; bool_facts; done || lia. Qed.

Lemma swp_streams_disable s (Q : unit -> js320_cal_s -> Prop) : ca_dev s = true -> Q tt s -> swp (cal_streams_disable prefix) s Q.
Proof.
  intros Hd HQ. unfold cal_streams_disable. generalize (drop (Z.to_nat SAVE_STREAM_BEGIN) SAVE_TOPICS) as ts. intros ts.
  induction ts as [|t ts IH]; [by apply swp_ret|]. by apply swp_bind, swp_plain.
Qed.

Lemma start_inv now cmd s : ca_dev s = true -> base_ok s -> is_u 32 (cmd_samples_per_point cmd) -> 0 <= cmd_src_slot cmd -> 0 <= cmd_dst_slot cmd ->
  swp (cal_start prefix now cmd) s (fun _ => cal_inv).
Proof.
  intros Hd Hb Hn Hsrc Hdst. apply swp_bind, swp_modify, swp_bind, swp_modify. set (s1 := set_stream _ _ _). cbv zeta.
  assert (base_ok s1) as Hb1 by (destruct Hb; by split). unfold JSDRV_CAL_SLOT_COUNT. case_if.
  - case_if; [by apply finish_inv|]. apply begin_read_inv; [done|done|lia|by left].
  - case_if.
    + case_if; [by apply finish_inv|]. bool_facts. pose proof (copy_policy_src (cmd_src_slot cmd) (cmd_dst_slot cmd)). apply begin_read_inv; [done|done|lia|].
      right. left. done.
    + case_if; [|by apply finish_inv]. apply swp_bind, swp_modify. apply swp_bind, swp_streams_disable; [done|]. apply swp_bind, swp_modify, swp_bind, swp_status; [done|].
      apply swp_plain; [done..|]. split; [destruct Hb1; by split | done |]. unfold phase_ok, offset_op. cbn. done.
Qed.

Lemma observe_inv idx v s : cal_inv s -> 0 <= idx < 20 -> observable v -> swp (cal_observe idx v) s (fun _ => cal_inv).
Proof.
  intros [Hb Hd Hp] Hi [r Er]. apply swp_bind, (swp_lift _ r); [done|]. destruct r as [x|]; [|by apply swp_ret].
  destruct (ok_saved _ Hb) as [L1 L2]. apply swp_bind, swp_get, swp_bind. rewrite st_ok by (unfold len; lia).
  eapply swp_lift; [done|]. apply swp_bind. rewrite st_ok by (unfold len; lia). eapply swp_lift; [done|]. apply swp_modify.
  split; [|done|done]. destruct Hb. split; try done. split; cbn; by rewrite length_insert.
Qed.

Lemma save_loop_range t ts i : 0 <= save_loop t ts i -> 0 <= i -> i <= save_loop t ts i < i + len ts.
Proof.
  revert i. induction ts as [|x ts IH]; intros i; [cbn; lia|]. cbn [save_loop]. rewrite len_cons. pose proof (len_nonneg ts). case_if; [lia|].
  intros H1 H2. specialize (IH (i + 1) H1). lia.
Qed.

Lemma save_index_range t : 0 <= save_index t -> save_index t < 20.
Proof. intros H. pose proof (save_loop_range t SAVE_TOPICS 0 H ltac:(lia)) as Hr. change (len SAVE_TOPICS) with 20 in Hr. unfold save_index. lia. Qed.

Lemma ld_le4_ok m i : 0 <= i -> i + 4 <= len m -> Forall (is_u 8) m -> exists x, ld_le 4 m i = Ok x /\ is_u 32 x.
Proof.
  intros Hi Hl Hm. unfold ld_le. simpl_cmp. cbn [andb]. eexists. split; [done|]. set (d := take 4 _).
  assert (len d = 4) as Hd by (subst d; unfold len in *; rewrite length_take, length_drop; lia).
  pose proof (un_le_range d ltac:(by apply Forall_take, Forall_drop)) as Hr. rewrite Hd in Hr. exact Hr.
Qed.

Lemma byte_ok m i : 0 <= i < len m -> Forall (is_u 8) m -> exists x, ld m i = Ok x /\ 0 <= x.
Proof. intros Hi Hm. destruct (ld_in_range m i Hi) as (x & E & Hx). exists x. split; [done|]. by apply (Forall_lookup_1 _ _ _ _ Hm) in Hx as []. Qed.

Lemma cal_cmd_inv now t v s : cal_inv s -> input_ok s (C_cmd now t v) -> swp (js320_cal_handle_cmd prefix now t v) s (fun _ => cal_inv).
Proof.
  intros Hi (Hd & Hv & Ho). unfold js320_cal_handle_cmd. cbv zeta. case_if.
  { apply swp_bind. eapply swp_mono; [apply observe_inv; [done | split; [done|by apply save_index_range] | by apply Ho]|]. intros ? s' Hs'. by apply swp_ret. }
  case_if; [by apply swp_ret|]. apply swp_bind, swp_get. case_bool_decide as Hst; cbn [negb].
  - case_if.
    + apply swp_bind, swp_plain; [done..|]. by apply swp_ret.
    + match goal with H : _ /\ _ |- _ => destruct H as [_ Hsz] | _ => idtac end. unfold CAL_CMD_SIZE in *.
      destruct Hv as (m & Em & Hm & H32 & Hby); [lia|]. apply swp_bind, (swp_lift _ m); [done|].
      destruct (ld_le4_ok m 0) as (id & Eid & _); [lia|lia|done|]. destruct (byte_ok m 4) as (op & Eop & _); [lia|done|].
      destruct (byte_ok m 5) as (src & Esrc & Hsrc); [lia|done|]. destruct (byte_ok m 6) as (dst & Edst & Hdst); [lia|done|].
      destruct (ld_le4_ok m 8) as (n & En & Hn); [lia|lia|done|].
      assert (cmd_parse m = Ok (mk_cmd id op src dst n)) as Ec by (unfold cmd_parse; by rewrite Eid, Eop, Esrc, Edst, En).
      apply swp_bind, (swp_lift _ _ _ _ Ec), swp_bind. eapply swp_mono; [apply start_inv; [done|apply Hi|done..]|]. intros ? s' Hs'. by apply swp_ret.
  - apply swp_bind. assert (forall id, swp (call (SendToFrontend "h/cal/!rsp" (Js320Cal.jsdrv_union_bin (rsp_bytes id (ec_code BUSY)))) ≫= fun _ => mret true) s (fun _ => cal_inv)) as Hr
      by (intros id; apply swp_bind, swp_plain; [done..|]; by apply swp_ret).
    case_if; [|by apply swp_ret]. destruct Hv as (m & Em & Hm & H32 & Hby); [lia|]. apply swp_bind, (swp_lift _ m); [done|].
    destruct (ld_le4_ok m 0) as (id & Eid & _); [lia|lia|done|]. by apply (swp_lift _ id).
Qed.

Lemma cal_publish_inv now t v s : cal_inv s -> input_ok s (C_publish now t v) -> swp (js320_cal_handle_publish prefix now t v) s (fun _ => cal_inv).
Proof.
  intros Hi (Hv & Ho & He). unfold js320_cal_handle_publish. cbv zeta. case_if.
  { apply swp_bind. eapply swp_mono; [apply observe_inv; [done | split; [done|by apply save_index_range] | by apply Ho]|]. intros ? s' Hs'. by apply swp_ret. }
  apply swp_bind, swp_get. case_bool_decide as Hst; [by apply swp_ret|]. case_if; [|by apply swp_ret].
  apply swp_bind. eapply swp_mono; [by apply mem_response_inv|]. intros ? s' Hs'. by apply swp_ret.
Qed.

Lemma begin_capture_ok u0 u1 s (Q : unit -> js320_cal_s -> Prop) : base_ok s ->
  (forall a, adc_ok a -> Q tt (set_adc s a)) -> swp (cal_begin_capture u0 u1) s Q.
Proof.
  intros Hb HQ. apply swp_bind, swp_get. cbv zeta. apply swp_modify, HQ. pose proof (ok_samples _ Hb) as Hn. unfold is_u in Hn.
  set (need := if _ =? 0 then _ else _). assert (0 <= need < 2 ^ 32) as Hneed by (subst need; unfold DEFAULT_SAMPLES_PER_POINT; case_if; width_lia).
  split; eexists _, _, _; (split; [done|]; split; [done|]; split; [done|]); destruct u0, u1; lia.
Qed.

Lemma cal_timeout_inv s : cal_inv s -> swp js320_cal_on_timeout s (fun _ => cal_inv).
Proof.
  intros [Hb Hd Hp]. apply swp_bind, swp_get. unfold phase_ok in Hp. destruct (ca_state s) eqn:Hst; try by (apply swp_ret; split; [done|rewrite Hst; done|unfold phase_ok; by rewrite Hst]).
  - apply begin_read_inv; [by apply Hd|done|done|]. by right; right.
  - destruct Hp as [Ho Hw]. cbv zeta. assert (forall a, adc_ok a -> cal_inv (set_state (set_adc s a) CAL_SWEEP_CAPTURE)) as Hc.
    { intros a Ha. split; [destruct Hb; by split | by intros _; apply Hd | done]. }
    case_if; [|case_if].
    + apply swp_bind, swp_get, swp_bind, begin_capture_ok; [done|]. intros a Ha. apply swp_modify. by apply Hc.
    + apply swp_bind, begin_capture_ok; [done|]. intros a Ha. apply swp_modify. by apply Hc.
    + by destruct Ho.
Qed.

Lemma cal_step_inv x s : cal_inv s -> input_ok s x -> swp (cal_step prefix x) s (fun _ => cal_inv).
Proof.
  intros Hi Hx. destruct x as [| |now t v|now t v|now slot v|]; cbn [cal_step].
  - apply swp_modify. destruct Hi as [[] _ _]. split; [|done|done]. split; try done; (split; [by apply ok_saved0 || by apply ok_prior0 | done]).
  - destruct Hi as [Hb Hd Hp]. apply swp_bind, swp_get, swp_bind. case_bool_decide as Hst.
    + apply swp_ret, swp_modify. split; [destruct Hb; by split | done |]. unfold phase_ok. change (ca_state (set_dev s false)) with (ca_state s). by rewrite Hst.
    + specialize (Hd Hst). apply swp_bind, swp_plain; [done..|]. apply swp_bind, swp_teardown; [done|]. apply swp_modify, swp_modify. split; [destruct Hb; by split | done | done].
  - apply swp_bind. eapply swp_mono; [by apply cal_cmd_inv|]. intros ? s' Hs'. by apply swp_ret.
  - apply swp_bind. eapply swp_mono; [by apply cal_publish_inv|]. intros ? s' Hs'. by apply swp_ret.
  - destruct Hx as (H1 & H2 & H3). by apply adc_data_inv.
  - by apply cal_timeout_inv.
Qed.

(** Inputs that are acceptable in the states in which they arrive. *)
Fixpoint run_ok (s : js320_cal_s) (xs : list cal_input) : Prop :=
  match xs with
  | [] => True
  | x :: xs => input_ok s x /\ forall s' o, cal_step prefix x s = Ok (tt, s', o) -> run_ok s' xs
  end.

Lemma steps_inv xs s : cal_inv s -> run_ok s xs -> swp (cal_steps prefix xs) s (fun _ => cal_inv).
Proof.
  revert s. induction xs as [|x xs IH]; intros s Hi Hr; [by apply swp_ret|]. destruct Hr as [Hx Hr]. apply wp_bind.
  destruct (cal_step_inv x s Hi Hx) as ([] & s' & o & E & Ho & Hi'). exists tt, s', o. split; [done|].
  eapply wp_mono; [apply (IH s' Hi' (Hr s' o E))|]. intros _ s2 o2 [Ho2 H2]. split; [by apply Forall_app | done].
Qed.
End Handlers.

Lemma cal_alloc_inv : cal_inv js320_cal_alloc.
Proof. split; [|done|done]. split; try done; split; by eexists _, _, _. Qed.

(** C17. The calibration never changes a protected record.  Whatever commands, responses, samples and
    timeouts arrive, in any order, from the allocation on, as long as the values that they carry have
    the sizes they claim and a verify response names an offset of its slot, every handler runs without
    undefined behaviour, and each erase and write that is sent to the device lies inside the flash
    block of the active slot or of one of the two trim slots: the field, laboratory and factory
    records are only read. *)
Theorem cal_protects_slots prefix xs : run_ok prefix js320_cal_alloc xs ->
  exists s o, cal_steps prefix xs js320_cal_alloc = Ok (tt, s, o) /\
    forall a m, a ∈ o -> mem_op a = Some m -> changes m = true -> exists base, base ∈ writable /\ within base m.
Proof.
  intros Hr. destruct (steps_inv prefix xs _ cal_alloc_inv Hr) as ([] & s & o & E & Ho & _). exists s, o. split; [done|].
  intros a m Ha Hm Hc. rewrite Forall_forall in Ho. by apply (Ho a Ha m).
Qed.

(** ** Examples *)

Definition ex_cmd (id op src dst n : Z) : jsdrv_union_s := Js320Cal.jsdrv_union_bin (le 4 id ++ [op; src; dst; 0] ++ le 4 n).

(** A read response: the [id]-th operation, at [off]. *)
Definition ex_rsp (id off : Z) (data : list Z) : jsdrv_union_s :=
  let m := hdr_bytes ++ mem_bytes (mk_mem id 0 MB_STDMSG_MEM_OP_READ 0 0 0 off 256 0 data) in union_ptr JSDRV_UNION_STDMSG 0 m (len m).

Definition ex_page : list Z := CAL_HEADER_MAGIC ++ replicate 240 7.

(** A copy of the active record to a trim slot, up to the erase. *)
Definition ex_inputs : list cal_input :=
  C_open :: C_cmd 0 "s/i/ctrl" (Union.jsdrv_union_u32 1) :: C_cmd 0 "h/cal/!cmd" (ex_cmd 9 JSDRV_CAL_OP_SLOT_COPY 0 2 0)
  :: map (fun k => C_publish 0 "h/!rsp" (ex_rsp (k + 1) (24 * 65536 + 256 * k) ex_page)) (seqZ 0 4).

Definition ptr_okb (v : jsdrv_union_s) : bool :=
  match object v with Ok m => (len m =? size v) && (size v <? 2 ^ 32) && forallb (fun b => (0 <=? b) && (b <? 256)) m | Fault _ => size v <=? 0 end.

Lemma ptr_okb_ok v : ptr_okb v = true -> ptr_ok v.
Proof.
  unfold ptr_okb, ptr_ok. intros H Hs. destruct (object v) as [m|] eqn:E; [|lia]. rewrite !andb_true_iff in H. destruct H as [[H1 H2] H3]. exists m.
  split; [done|]. split; [lia|]. split; [lia|]. apply Forall_forall. intros b Hb. rewrite forallb_forall in H3. apply list_elem_of_In in Hb.
  specialize (H3 b Hb). unfold is_u. change (2 ^ 8) with 256. lia.
Qed.

Definition observableb (v : jsdrv_union_s) : bool := match union_as_u32 v with Ok _ => true | Fault _ => false end.

(** The conditions on inputs, as far as the example needs them: no samples, and no response in the verify state. *)
Definition input_okb (s : js320_cal_s) (x : cal_input) : bool :=
  match x with
  | C_open | C_close | C_timeout => true
  | C_cmd _ t v => ca_dev s && ptr_okb v && ((save_index t <? 0) || observableb v)
  | C_publish _ t v => ptr_okb v && ((save_index t <? 0) || observableb v) && negb (bool_decide (ca_state s = CAL_VERIFY))
  | C_adc _ _ _ => false
  end.

Lemma input_okb_ok s x : input_okb s x = true -> input_ok s x.
Proof.
  assert (forall t v, (save_index t <? 0) || observableb v = true -> 0 <= save_index t -> observable v) as Hobs.
  { intros t v H Ht. apply orb_true_iff in H as [H|H]; [lia|]. unfold observableb in H. unfold observable. destruct (union_as_u32 v); [eauto|done]. }
  destruct x as [| |now t v|now t v|now slot v|]; try done; cbn [input_okb input_ok]; rewrite !andb_true_iff.
  - intros [[H1 H2] H3]. split; [done|]. split; [by apply ptr_okb_ok | by apply Hobs].
  - intros [[H1 H2] H3]. split; [by apply ptr_okb_ok|]. split; [by apply Hobs|]. intros Hv. by rewrite bool_decide_eq_true_2 in H3.
Qed.

Fixpoint run_okb (prefix : string) (s : js320_cal_s) (xs : list cal_input) : bool :=
  match xs with
  | [] => true
  | x :: xs => input_okb s x && match cal_step prefix x s with Ok (_, s', _) => run_okb prefix s' xs | Fault _ => false end
  end.

Lemma run_okb_ok prefix xs s : run_okb prefix s xs = true -> run_ok prefix s xs.
Proof.
  revert s. induction xs as [|x xs IH]; intros s H; [done|]. cbn [run_okb] in H. apply andb_true_iff in H as [H1 H2].
  split; [by apply input_okb_ok|]. intros s' o E. rewrite E in H2. by apply IH.
Qed.

Lemma cal_protects_slots_witness : exists s o, cal_steps "u/js320/000001" ex_inputs js320_cal_alloc = Ok (tt, s, o) /\
  forall a m, a ∈ o -> mem_op a = Some m -> changes m = true -> exists base, base ∈ writable /\ within base m.
Proof. apply (cal_protects_slots "u/js320/000001" ex_inputs). apply run_okb_ok. vm_compute. reflexivity. Defined.

(** The example erases the trim slot. *)
Example ex_erases : (match cal_steps "u/js320/000001" ex_inputs js320_cal_alloc with
                     | Ok (_, s, o) => Some (ca_state s, map (fun m => (mm_operation m, mm_offset m)) (List.filter changes (omap mem_op o)))
                     | Fault _ => None end) = Some (CAL_ERASE, [(MB_STDMSG_MEM_OP_ERASE, 26 * 65536)]).
Proof. by vm_compute. Qed.

(** ** Where the conditions on inputs are needed, and what the timer does not do *)

(** In the states that wait for the flash memory or for samples the timer does nothing, and none is armed: a device that does not answer leaves the machine busy. *)
Lemma timeout_ignored s : ca_state s ∈ [CAL_READ; CAL_ERASE; CAL_WRITE; CAL_VERIFY; CAL_SWEEP_CAPTURE] -> js320_cal_on_timeout s = Ok (tt, s, []).
Proof. intros H. unfold js320_cal_on_timeout. rewrite run_get. rewrite !elem_of_cons, elem_of_nil in H. by destruct_or! H; rewrite H. Qed.

(** A response that is shorter than a header ends the command, whoever it is for: the transaction is not compared. *)
Lemma short_response_ends prefix now v s : cal_inv s -> ca_state s <> CAL_IDLE -> size v < rsp_hdr v + MEM_SIZE ->
  exists s' o, js320_cal_handle_publish prefix now "h/!rsp" v s = Ok (true, s', o) /\ ca_state s' = CAL_IDLE.
Proof.
  intros Hi Hst Hsz. pose proof (inv_dev _ Hi Hst) as Hd.
  assert (swp (js320_cal_handle_publish prefix now "h/!rsp" v) s (fun b s' => b = true /\ ca_state s' = CAL_IDLE)) as (b & s' & o & E & _ & -> & Hs').
  { unfold js320_cal_handle_publish. change (0 <=? save_index "h/!rsp") with false. cbv zeta. cbv iota. apply swp_bind, swp_get. rewrite bool_decide_eq_false_2 by done.
    change (String.eqb "h/!rsp" "h/!rsp") with true. cbv iota. apply swp_bind. unfold on_mem_response. fold (rsp_hdr v). cbv zeta. simpl_cmp.
    apply swp_finish; [done|apply Hi|]. by apply swp_ret. }
  eauto.
Qed.

(** A response is taken from the others even while no memory operation is outstanding. *)
Lemma capture_takes_response prefix now v s : ca_state s = CAL_SWEEP_CAPTURE -> rsp_hdr v + MEM_SIZE <= size v ->
  (exists m, object v = Ok m /\ ld_le 4 m (rsp_hdr v) = Ok (fl_mem_cmd_id (ca_flash s) + 1)) ->
  js320_cal_handle_publish prefix now "h/!rsp" v s = Ok (true, s, []).
Proof.
  intros Hst Hsz (m & Em & Eid). unfold js320_cal_handle_publish. change (0 <=? save_index "h/!rsp") with false. cbv zeta. cbv iota. rewrite run_get.
  rewrite bool_decide_eq_false_2 by congruence. change (String.eqb "h/!rsp" "h/!rsp") with true. cbv iota. unfold on_mem_response. fold (rsp_hdr v). cbv zeta. simpl_cmp.
  autorewrite with op. rewrite Em. autorewrite with op. rewrite Eid. autorewrite with op.
  assert ((fl_mem_cmd_id (ca_flash s) + 1 =? fl_mem_cmd_id (ca_flash s)) = false) as -> by (apply Z.eqb_neq; lia). cbn [negb]. by autorewrite with op.
Qed.

(** A verify response with an offset outside its slot is compared with what lies beyond the record. *)
Lemma verify_offset_unchecked prefix off d s : length (ca_record s) = 1024%nat -> 1024 <= u32 (off - fl_offset_base (ca_flash s)) ->
  on_verify_done prefix off d 256 s = Fault OutOfBounds.
Proof.
  intros Hl Ho. unfold on_verify_done, FLASH_PAGE_SIZE. change (256 <? 256) with false. cbv iota. rewrite run_get. cbv zeta.
  set (p := _ / 256). assert (4 <= p) as Hp by (subst p; apply Z.div_le_lower_bound; lia).
  assert (bytes_at (ca_record s) (p * 256) 256 = Fault OutOfBounds) as ->; [|done]. unfold bytes_at, len. rewrite Hl.
  assert ((p * 256 + 256 <=? Z.of_nat 1024) = false) as -> by (apply Z.leb_gt; lia). by rewrite andb_false_r.
Qed.

(** A stream message that counts more samples than it has is read beyond its end. *)
Lemma sample_count_unchecked : adc_add (mk_adc [0; 0] [0; 0] [4; 0]) 0 ([1] ++ replicate 18 0 ++ [32] ++ le 4 2 ++ replicate 32 0 ++ le 4 7) = Fault OutOfBounds.
Proof. by vm_compute. Qed.

(** Closing the device during a sweep gives up the streams that it stopped: nothing is published to the host. *)
Lemma close_does_not_restore prefix s : ca_dev s = true -> ca_state s <> CAL_IDLE ->
  exists s' o, js320_cal_on_close prefix s = Ok (tt, s', o) /\ ca_restore_pending s' = false /\ Forall (fun a => match a with HostPublish _ _ => False | _ => True end) o.
Proof.
  intros Hd Hst. unfold js320_cal_on_close. rewrite run_get, bool_decide_eq_false_2 by done. destruct s as [dev sv pr pe st ru re fl sw ad act dual]. cbn [ca_dev] in Hd. subst dev.
  destruct act, dual; eexists _, _; (split; [reflexivity|]); (split; [reflexivity|]); repeat (apply List.Forall_cons; [exact I|]); apply List.Forall_nil.
Qed.
