(* ===== verification/Js320CalRun.v ===== *)
(** * JS320 calibration: a whole offset sweep (src/devices/js320/js320_cal.c)

    The calibration with a device that does what it is told: a flash memory that answers reads,
    writes and erases, and converters that deliver samples.  A current sweep ends with the active slot
    holding the averages that were measured, signed and valid, with the streams of the host restored
    and one answer. *)

From Stdlib Require Import Strings.String.
From S2P Require Import Prelude Cstr ErrorCode Time Effect MbDev Union Hash Js320Cal Js320CalSafe.

(** ** What the outside sees *)

Inductive report :=
  | RMem (m : mb_stdmsg_mem_s)                    (* a memory operation *)
  | RHost (topic : string) (v : jsdrv_union_s)    (* a publish to the host *)
  | RAnswer (v : jsdrv_union_s).                  (* the response to a command *)

Definition report_of (a : cal_action) : option report :=
  match a with
  | PublishToDevice _ _ => RMem <$> mem_op a
  | HostPublish t v => Some (RHost t v)
  | SendToFrontend t v => if String.eqb t "h/cal/!rsp" then Some (RAnswer v) else None
  | _ => None
  end.

Definition reports (o : list cal_action) : list report := omap report_of o.

Lemma reports_app o o' : reports (o ++ o') = reports o ++ reports o'.
Proof. apply omap_app. Qed.

Definition owp {A} (m : M A) (s : js320_cal_s) (Q : A -> js320_cal_s -> list report -> Prop) : Prop :=
  wp m s (fun a s' o => Q a s' (reports o)).

Lemma owp_ret {A} (a : A) s (Q : A -> js320_cal_s -> list report -> Prop) : Q a s [] -> owp (mret a) s Q.
Proof. intros. by apply wp_ret. Qed.

Lemma owp_bind {A B} (m : M A) (k : A -> M B) s (Q : B -> js320_cal_s -> list report -> Prop) :
  owp m s (fun a s1 r1 => owp (k a) s1 (fun b s2 r2 => Q b s2 (r1 ++ r2))) -> owp (m ≫= k) s Q.
Proof.
  intros H. apply wp_bind. eapply wp_mono; [exact H|]. intros a s1 o1 H1. eapply wp_mono; [exact H1|]. intros b s2 o2 HQ. by rewrite reports_app.
Qed.

Lemma owp_mono {A} (m : M A) s (P Q : A -> js320_cal_s -> list report -> Prop) : owp m s P -> (forall a s' r, P a s' r -> Q a s' r) -> owp m s Q.
Proof. intros H HQ. eapply wp_mono; [exact H|]. auto. Qed.

Lemma owp_get s (Q : js320_cal_s -> js320_cal_s -> list report -> Prop) : Q s s [] -> owp get s Q.
Proof. intros. by apply wp_get. Qed.

Lemma owp_modify f s (Q : unit -> js320_cal_s -> list report -> Prop) : Q tt (f s) [] -> owp (modify f) s Q.
Proof. intros. by apply wp_modify. Qed.

Lemma owp_lift {A} (m : res A) a s (Q : A -> js320_cal_s -> list report -> Prop) : m = Ok a -> Q a s [] -> owp (lift m) s Q.
Proof. intros E HQ. by apply (wp_lift _ _ _ _ E). Qed.

Lemma owp_call a s (Q : unit -> js320_cal_s -> list report -> Prop) : ca_dev s = true -> Q tt s (reports [a]) -> owp (call a) s Q.
Proof. intros Hd HQ. exists tt, s, [a]. unfold call. by rewrite Hd. Qed.

Lemma owp_to_device t v s (Q : unit -> js320_cal_s -> list report -> Prop) : ca_dev s = true -> String.eqb t CAL_MEM_TOPIC = false -> Q tt s [] -> owp (to_device t v) s Q.
Proof. intros Hd Ht HQ. apply owp_call; [done|]. cbn [reports omap list_omap report_of mem_op]. by rewrite Ht. Qed.

Lemma owp_status pct msg s (Q : unit -> js320_cal_s -> list report -> Prop) : ca_dev s = true -> Q tt s [] -> owp (cal_send_status pct msg) s Q.
Proof. intros Hd HQ. apply owp_bind, owp_get, owp_call; done. Qed.

Lemma owp_mem_op op off n data s (Q : unit -> js320_cal_s -> list report -> Prop) : ca_dev s = true -> is_u 32 off -> is_u 32 n -> len data <= 256 ->
  let id := u32 (fl_mem_cmd_id (ca_flash s) + 1) in
  let timeout_ms := if op =? MB_STDMSG_MEM_OP_ERASE then ERASE_OP_TIMEOUT_MS else MEM_OP_TIMEOUT_MS in
  Q tt (sent_op s) [RMem (mk_mem id 0 op 0 0 timeout_ms off n 0 data)] -> owp (cal_send_mem_op op off n data) s Q.
Proof.
  intros Hd Hoff Hn Hlen id to HQ. apply owp_bind, owp_modify, owp_bind, owp_get. cbv zeta.
  assert ((len data <=? FLASH_PAGE_SIZE) = true) as -> by (by apply Z.leb_le). apply owp_bind, owp_ret, owp_call; [done|].
  cbn [reports omap list_omap report_of]. rewrite mem_op_sent; [done|by apply uwrap_range|by case_if; vm_compute|done|done].
Qed.

(** ** The device *)

(** A flash memory: its bytes by address. *)
Definition flash_mem : Type := Z -> Z.

Definition flash_read (f : flash_mem) (off n : Z) : list Z := map (fun i => f (off + i)) (seqZ 0 n).
Definition flash_write (f : flash_mem) (off : Z) (data : list Z) : flash_mem :=
  fun a => if (off <=? a) && (a <? off + len data) then nth (Z.to_nat (a - off)) data 0 else f a.
Definition flash_erase (f : flash_mem) (off n : Z) : flash_mem := fun a => if (off <=? a) && (a <? off + n) then 0xFF else f a.

(** The memory after an operation, and the response. *)
Definition flash_serve (f : flash_mem) (m : mb_stdmsg_mem_s) : flash_mem * jsdrv_union_s :=
  let off := mm_offset m in
  let '(f, data) :=
    if mm_operation m =? MB_STDMSG_MEM_OP_READ then (f, flash_read f off (mm_length m))
    else if mm_operation m =? MB_STDMSG_MEM_OP_WRITE then (flash_write f off (mm_data m), [])
    else if mm_operation m =? MB_STDMSG_MEM_OP_ERASE then (flash_erase f off (mm_length m), [])
    else (f, []) in
  let b := hdr_bytes ++ mem_bytes (mk_mem (mm_transaction_id m) (mm_target m) (mm_operation m) 0 0 0 off (mm_length m) 0 data) in
  (f, union_ptr JSDRV_UNION_STDMSG 0 b (len b)).

(** The calibration and its device: captures so far, the memory, operations in flight, the state. *)
Record cfg := mk_cfg { cf_k : nat; cf_flash : flash_mem; cf_pend : list mb_stdmsg_mem_s; cf_s : js320_cal_s }.

Definition mem_of (r : report) : option mb_stdmsg_mem_s := match r with RMem m => Some m | _ => None end.
Definition not_mem (r : report) : bool := match r with RMem _ => false | _ => true end.

Section Served.
Context (prefix : string) (now : Z).

(** The messages of the two converter streams during a capture, with their slots. *)
Context (adc : nat -> list (Z * jsdrv_union_s)).

Definition advance (k : nat) (f : flash_mem) (pend : list mb_stdmsg_mem_s) (r : res (unit * js320_cal_s * list cal_action)) : res (cfg * list report) :=
  '(_, s, o) ← r;
  Ok (mk_cfg k f (pend ++ omap mem_of (reports o)) s, List.filter not_mem (reports o)).

(** One turn: the oldest operation is answered; with none in flight, the timer fires or a capture gets its samples. *)
Definition turn (c : cfg) : res (cfg * list report) :=
  match cf_pend c with
  | m :: pend =>
      let '(f, v) := flash_serve (cf_flash c) m in
      advance (cf_k c) f pend (cal_step prefix (C_publish now "h/!rsp" v) (cf_s c))
  | [] =>
      match ca_state (cf_s c) with
      | CAL_DISABLE_SETTLE | CAL_SWEEP_SETTLE => advance (cf_k c) (cf_flash c) [] (cal_step prefix C_timeout (cf_s c))
      | CAL_SWEEP_CAPTURE =>
          advance (S (cf_k c)) (cf_flash c) [] (cal_steps prefix (map (fun '(slot, v) => C_adc now slot v) (adc (cf_k c))) (cf_s c))
      | _ => Ok (c, [])
      end
  end.

Fixpoint turns (n : nat) (c : cfg) : res (cfg * list report) :=
  match n with
  | O => Ok (c, [])
  | S n => '(c1, r1) ← turn c; '(c2, r2) ← turns n c1; Ok (c2, r1 ++ r2)
  end.

Lemma turns_trans n m c c1 r1 c2 r2 : turns n c = Ok (c1, r1) -> turns m c1 = Ok (c2, r2) -> turns (n + m) c = Ok (c2, r1 ++ r2).
Proof.
  revert c r1. induction n as [|n IH]; intros c r1 H1 H2; [injection H1 as -> <-; done|]. cbn [turns Nat.add] in *.
  apply res_bind_Ok in H1 as ([c' r'] & E & H1). rewrite E, bind_Ok. apply res_bind_Ok in H1 as ([c'' r''] & E' & [= -> <-]).
  rewrite (IH _ _ E' H2), bind_Ok. by rewrite app_assoc.
Qed.

Lemma turns_one c c1 r1 : turn c = Ok (c1, r1) -> turns 1 c = Ok (c1, r1).
Proof. intros H. cbn [turns]. rewrite H, bind_Ok. by rewrite bind_Ok, app_nil_r. Qed.

(** A turn from what the step does. *)
Lemma advance_owp k f pend (m : M unit) s (P : js320_cal_s -> list report -> Prop) :
  owp m s (fun _ => P) -> exists s' r, P s' r /\ advance k f pend (m s) = Ok (mk_cfg k f (pend ++ omap mem_of r) s', List.filter not_mem r).
Proof. intros ([] & s' & o & E & HP). exists s', (reports o). split; [done|]. unfold advance. by rewrite E, bind_Ok. Qed.
End Served.

(** ** Responses *)

Definition rsp_msg (m : mb_stdmsg_mem_s) (d : list Z) : list Z :=
  hdr_bytes ++ mem_bytes (mk_mem (mm_transaction_id m) (mm_target m) (mm_operation m) 0 0 0 (mm_offset m) (mm_length m) 0 d).
Definition rsp_val (m : mb_stdmsg_mem_s) (d : list Z) : jsdrv_union_s := union_ptr JSDRV_UNION_STDMSG 0 (rsp_msg m d) (len (rsp_msg m d)).

Lemma rsp_msg_fields m d : is_u 32 (mm_transaction_id m) -> is_u 32 (mm_offset m) ->
  len (rsp_msg m d) = 32 + len d /\ ld_le 4 (rsp_msg m d) 8 = Ok (mm_transaction_id m) /\ ld (rsp_msg m d) 15 = Ok 0
  /\ ld_le 4 (rsp_msg m d) 20 = Ok (mm_offset m) /\ drop 32 (rsp_msg m d) = d.
Proof.
  intros Hid Hoff. pose proof (un_le_le 4 (mm_transaction_id m) Hid) as E1. pose proof (un_le_le 4 (mm_offset m) Hoff) as E2. cbn [le] in E1, E2.
  assert (len (rsp_msg m d) = 32 + len d) as HL by (unfold len, rsp_msg, mem_bytes; rewrite !length_app, !length_le; cbn [length hdr_bytes mm_data]; lia).
  pose proof (len_nonneg d). split_and!; [done| | | |done].
  - unfold ld_le. rewrite HL. simpl_cmp. cbn [andb]. f_equal. exact E1.
  - unfold ld. done.
  - unfold ld_le. rewrite HL. simpl_cmp. cbn [andb]. f_equal. exact E2.
Qed.

Section Phases.
Context (prefix : string) (now : Z) (adc : nat -> list (Z * jsdrv_union_s)).
Abbreviation turn := (turn prefix now adc).
Abbreviation turns := (turns prefix now adc).

(** What the handler does with the response to the operation in flight. *)
Definition on_response (s : js320_cal_s) (m : mb_stdmsg_mem_s) (d : list Z) : M unit :=
  match ca_state s with
  | CAL_READ => on_read_done prefix now d (len d)
  | CAL_ERASE => on_erase_done
  | CAL_WRITE => on_write_done
  | CAL_VERIFY => on_verify_done prefix (mm_offset m) d (len d)
  | _ => mret tt
  end.

Lemma owp_response s m d (Q : unit -> js320_cal_s -> list report -> Prop) : ca_state s <> CAL_IDLE -> is_u 32 (mm_transaction_id m) -> is_u 32 (mm_offset m) ->
  mm_transaction_id m = fl_mem_cmd_id (ca_flash s) -> 32 + len d < 2 ^ 32 -> owp (on_response s m d) s Q ->
  owp (cal_step prefix (C_publish now "h/!rsp" (rsp_val m d))) s Q.
Proof.
  intros Hst Hid Hoff Heq Hlen H. destruct (rsp_msg_fields m d Hid Hoff) as (HL & E1 & E2 & E3 & E4). pose proof (len_nonneg d).
  apply owp_bind. unfold js320_cal_handle_publish. change (0 <=? save_index "h/!rsp") with false. cbv zeta. cbv iota. apply owp_bind, owp_get.
  rewrite bool_decide_eq_false_2 by done. change (String.eqb "h/!rsp" "h/!rsp") with true. cbv iota. apply owp_bind. unfold on_mem_response.
  change (type (rsp_val m d) =? JSDRV_UNION_STDMSG) with true. cbv zeta. cbv iota. change (size (rsp_val m d)) with (len (rsp_msg m d)). rewrite HL.
  unfold HDR_SIZE, MEM_SIZE. simpl_cmp. apply owp_bind, owp_get. apply owp_bind, (owp_lift _ (rsp_msg m d)); [done|]. apply owp_bind, (owp_lift _ _ _ _ E1).
  rewrite Heq, Z.eqb_refl. cbn [negb]. apply owp_bind, (owp_lift _ 0); [exact E2|]. cbn [Z.eqb negb]. change (Z.to_nat (8 + 24)) with 32%nat. rewrite E4.
  assert (u32 (32 + len d - 8 - 24) = len d) as -> by (rewrite uwrap_small; [lia|unfold is_u; lia]).
  assert (forall Q' : unit -> js320_cal_s -> list report -> Prop, owp (on_response s m d) s Q' ->
    owp (match ca_state s with
         | CAL_READ => on_read_done prefix now d (len d) | CAL_ERASE => on_erase_done | CAL_WRITE => on_write_done
         | CAL_VERIFY => offset ← lift (ld_le 4 (rsp_msg m d) (8 + 12)); on_verify_done prefix offset d (len d)
         | _ => mret tt end) s Q') as Hm.
  { intros Q' HQ'. unfold on_response in HQ'. destruct (ca_state s); try done. apply owp_bind, (owp_lift _ (mm_offset m)); [exact E3|]. done. }
  apply Hm. eapply owp_mono; [exact H|]. intros [] s' r HQ. do 2 apply owp_ret. by rewrite !app_nil_r.
Qed.

(** A turn that answers the one operation in flight. *)
Lemma turn_response k f m s f' d (P : js320_cal_s -> list report -> Prop) : flash_serve f m = (f', rsp_val m d) -> ca_state s <> CAL_IDLE ->
  is_u 32 (mm_transaction_id m) -> is_u 32 (mm_offset m) -> mm_transaction_id m = fl_mem_cmd_id (ca_flash s) -> 32 + len d < 2 ^ 32 ->
  owp (on_response s m d) s (fun _ => P) ->
  exists s' r, P s' r /\ turns 1 (mk_cfg k f [m] s) = Ok (mk_cfg k f' (omap mem_of r) s', List.filter not_mem r).
Proof.
  intros Hf Hst Hid Hoff Heq Hlen H. pose proof (owp_response s m d _ Hst Hid Hoff Heq Hlen H) as Hw.
  destruct (advance_owp k f' [] _ _ _ Hw) as (s' & r & HP & E). exists s', r. split; [done|]. apply turns_one. unfold turn. cbn [cf_pend cf_k cf_flash cf_s].
  rewrite Hf. exact E.
Qed.

(** ** Reading a record *)

(** The fields of a command that no phase changes. *)
Record held (s0 s : js320_cal_s) : Prop := mk_held {
  he_dev : ca_dev s = true;
  he_run : ca_run s = ca_run s0;
  he_prior : ca_prior s = ca_prior s0;
  he_pending : ca_restore_pending s = ca_restore_pending s0;
  he_id : is_u 32 (fl_mem_cmd_id (ca_flash s));
}.

Definition rec_of (f : flash_mem) (base : Z) : list Z := flash_read f base 1024.

(** The record with its first [p] pages read. *)
Definition read_upto (f : flash_mem) (base : Z) (r0 : list Z) (p : Z) : list Z :=
  take (Z.to_nat (256 * p)) (rec_of f base) ++ drop (Z.to_nat (256 * p)) r0.

Definition mem_cmd (s : js320_cal_s) (op timeout_ms off n : Z) (data : list Z) : mb_stdmsg_mem_s :=
  mk_mem (fl_mem_cmd_id (ca_flash s)) 0 op 0 0 timeout_ms off n 0 data.

(** Page [p] of a record is in flight. *)
Record reading (s0 : js320_cal_s) (f : flash_mem) (base : Z) (r0 : list Z) (p : Z) (k : nat) (c : cfg) (s : js320_cal_s) : Prop := mk_reading {
  rd_held : held s0 s;
  rd_state : ca_state s = CAL_READ;
  rd_page : fl_page_idx (ca_flash s) = p /\ fl_page_count (ca_flash s) = 4;
  rd_base : fl_offset_base (ca_flash s) = base;
  rd_record : ca_record s = read_upto f base r0 p;
  rd_stream : ca_stream_active s = false;
  rd_cfg : c = mk_cfg k f [mem_cmd s MB_STDMSG_MEM_OP_READ MEM_OP_TIMEOUT_MS (base + p * 256) 256 []] s;
}.

Lemma len_flash_read f off n : 0 <= n -> len (flash_read f off n) = n.
Proof. intros. unfold flash_read, len. rewrite length_map, length_seqZ. lia. Qed.

Lemma flash_read_take f off n m : 0 <= n <= m -> take (Z.to_nat n) (flash_read f off m) = flash_read f off n.
Proof.
  intros H. unfold flash_read. rewrite <- fmap_take. f_equal. replace m with (n + (m - n)) by lia. rewrite seqZ_app by lia.
  rewrite take_app_length'; [done|]. rewrite length_seqZ. done.
Qed.

Lemma flash_read_app f off n m : 0 <= n -> 0 <= m -> flash_read f off (n + m) = flash_read f off n ++ flash_read f (off + n) m.
Proof.
  intros. unfold flash_read. rewrite seqZ_app, map_app by lia. f_equal. replace (0 + n) with (n + 0) by lia. rewrite <- (fmap_add_seqZ n 0 m). rewrite <- list_fmap_compose.
  apply list_fmap_ext. intros _ i _. cbn. f_equal. lia.
Qed.

Lemma copy_page f base r0 p : 0 <= p < 4 -> length r0 = 1024%nat ->
  mem_copy (read_upto f base r0 p) (p * FLASH_PAGE_SIZE) (flash_read f (base + p * 256) 256) 0 FLASH_PAGE_SIZE = Ok (read_upto f base r0 (p + 1)).
Proof.
  intros Hp Hr. unfold mem_copy, FLASH_PAGE_SIZE.
  assert (len (read_upto f base r0 p) = 1024) as HL.
  { unfold read_upto, rec_of. rewrite flash_read_take, len_app by lia. rewrite len_flash_read by lia. unfold len. rewrite length_drop. lia. }
  rewrite HL, len_flash_read by lia. simpl_cmp. cbn [andb]. f_equal. unfold read_upto, rec_of. rewrite !flash_read_take by lia.
  replace (256 * (p + 1)) with (256 * p + 256) by lia. rewrite flash_read_app, <- app_assoc by lia.
  pose proof (len_flash_read f base (256 * p) ltac:(lia)) as L1. unfold len in L1.
  rewrite take_app_length' by lia. f_equal. rewrite drop_0. replace (base + p * 256) with (base + 256 * p) by lia. pose proof (len_flash_read f (base + 256 * p) 256 ltac:(lia)) as L2. unfold len in L2.
  rewrite take_ge by lia. f_equal. rewrite drop_app_ge by lia. rewrite drop_drop. f_equal. lia.
Qed.

Lemma serve_read f m : mm_operation m = MB_STDMSG_MEM_OP_READ -> flash_serve f m = (f, rsp_val m (flash_read f (mm_offset m) (mm_length m))).
Proof. intros E. unfold flash_serve, rsp_val, rsp_msg. by rewrite E. Qed.
Lemma serve_write f m : mm_operation m = MB_STDMSG_MEM_OP_WRITE -> flash_serve f m = (flash_write f (mm_offset m) (mm_data m), rsp_val m []).
Proof. intros E. unfold flash_serve, rsp_val, rsp_msg. by rewrite E. Qed.
Lemma serve_erase f m : mm_operation m = MB_STDMSG_MEM_OP_ERASE -> flash_serve f m = (flash_erase f (mm_offset m) (mm_length m), rsp_val m []).
Proof. intros E. unfold flash_serve, rsp_val, rsp_msg. by rewrite E. Qed.

Lemma base_u32 base p : base ∈ slots -> 0 <= p < 4 -> is_u 32 (base + p * 256).
Proof. intros Hb%slots_range Hp. unfold is_u. width_lia. Qed.

(** Asking for page [p]. *)
Lemma owp_read_page base p s (Q : unit -> js320_cal_s -> list report -> Prop) : ca_dev s = true -> base ∈ slots -> 0 <= p < 4 ->
  fl_offset_base (ca_flash s) = base -> fl_page_idx (ca_flash s) = p ->
  Q tt (sent_op s) [RMem (mem_cmd (sent_op s) MB_STDMSG_MEM_OP_READ MEM_OP_TIMEOUT_MS (base + p * 256) 256 [])] -> owp cal_send_read_page s Q.
Proof.
  intros Hd Hb Hp E1 E2 HQ. apply owp_bind, owp_get. assert (page_offset s = base + p * 256) as ->.
  { unfold page_offset, FLASH_PAGE_SIZE. rewrite E1, E2. apply uwrap_small. by apply base_u32. }
  apply owp_mem_op; [done|by apply base_u32|done|done|]. exact HQ.
Qed.

Lemma held_sent s0 s : held s0 s -> held s0 (sent_op s).
Proof. intros []. split; try done. cbn. by apply uwrap_range. Qed.

(** A page of a record arrives: its bytes are kept, and what follows is [k]. *)
Definition page_read (s : js320_cal_s) (rec : list Z) (p : Z) : js320_cal_s := set_page (set_record s rec) (p + 1) 4.

Lemma owp_read_done s0 f base r0 p k c s (Q : unit -> js320_cal_s -> list report -> Prop) : reading s0 f base r0 p k c s -> 0 <= p < 4 -> length r0 = 1024%nat ->
  let s1 := page_read s (read_upto f base r0 (p + 1)) p in
  owp (if p + 1 <? 4 then cal_send_read_page
       else
         let op := cr_op (ca_run s1) in
         if op =? JSDRV_CAL_OP_SLOT_READ then
           call (SendToFrontend "h/cal/!data" (jsdrv_union_cbin_r (ca_record s1))) ;; cal_finish prefix 0
         else if op =? JSDRV_CAL_OP_SLOT_COPY then
           same ← lift (mem_eq (ca_record s1) CAL_HEADER_MAGIC 16);
           if negb same then cal_finish prefix (ec_code MESSAGE_INTEGRITY)
           else
             base ← lift (slot_to_offset (cr_dst_slot (ca_run s1)));
             modify (fun s => set_state (set_base s base) CAL_ERASE) ;;
             cal_send_status 500 (str "erasing destination") ;;
             cal_send_erase
         else if op =? JSDRV_CAL_OP_CURRENT_OFFSET then cal_current_after_active_read prefix now
         else if op =? JSDRV_CAL_OP_VOLTAGE_OFFSET then cal_voltage_after_active_read prefix now
         else cal_finish prefix (ec_code UNSPECIFIED)) s1 Q ->
  owp (on_read_done prefix now (flash_read f (base + p * 256) 256) 256) s Q.
Proof.
  intros [Hh Hst [Ep Ec] Eb Er _ _] Hp Hr s1 H. unfold on_read_done. change (256 <? FLASH_PAGE_SIZE) with false. cbv iota. apply owp_bind, owp_get. cbv zeta.
  rewrite Er, Ep, copy_page by done. apply owp_bind, (owp_lift _ (read_upto f base r0 (p + 1))); [done|]. apply owp_bind, owp_modify.
  rewrite Ec, uwrap_small by (unfold is_u; width_lia). apply owp_bind, owp_get. exact H.
Qed.

Lemma turn_read s0 f base r0 p k c s (P : js320_cal_s -> list report -> Prop) : reading s0 f base r0 p k c s -> base ∈ slots -> 0 <= p < 4 ->
  owp (on_read_done prefix now (flash_read f (base + p * 256) 256) 256) s (fun _ => P) ->
  exists s' r, P s' r /\ turns 1 c = Ok (mk_cfg k f (omap mem_of r) s', List.filter not_mem r).
Proof.
  intros [Hh Hst [Ep Ec] Eb Er _ ->] Hb Hp H. eapply turn_response.
  - by rewrite serve_read.
  - congruence.
  - apply Hh.
  - by apply base_u32.
  - done.
  - cbn [mem_cmd mm_offset mm_length]. rewrite len_flash_read by lia. done.
  - unfold on_response. rewrite Hst. cbn [mem_cmd mm_offset mm_length]. rewrite len_flash_read by lia. exact H.
Qed.

Lemma read_next s0 f base r0 p k c s : reading s0 f base r0 p k c s -> base ∈ slots -> 0 <= p < 3 -> length r0 = 1024%nat ->
  exists c' s', turns 1 c = Ok (c', []) /\ reading s0 f base r0 (p + 1) k c' s'.
Proof.
  intros Hr Hb Hp Hl. pose proof Hr as [Hh Hst [Ep Ec] Eb Er Hs _].
  destruct (turn_read s0 f base r0 p k c s (fun s' r => s' = sent_op (page_read s (read_upto f base r0 (p + 1)) p) /\
    r = [RMem (mem_cmd s' MB_STDMSG_MEM_OP_READ MEM_OP_TIMEOUT_MS (base + (p + 1) * 256) 256 [])]) Hr Hb) as (s' & r & [-> ->] & E); [lia| |].
  - eapply owp_read_done; [exact Hr|lia|done|]. cbv zeta. assert ((p + 1 <? 4) = true) as -> by (apply Z.ltb_lt; lia). cbv iota.
    apply (owp_read_page base (p + 1)); [apply Hh|exact Hb|lia|exact Eb|done|done].
  - eexists _, (sent_op (page_read s (read_upto f base r0 (p + 1)) p)). split; [exact E|]. split; try done. apply held_sent. by destruct Hh.
Qed.

(** The first three pages. *)
Lemma read_three s0 f base r0 k c s : reading s0 f base r0 0 k c s -> base ∈ slots -> length r0 = 1024%nat ->
  exists c' s', turns 3 c = Ok (c', []) /\ reading s0 f base r0 3 k c' s'.
Proof.
  intros H0 Hb Hl. destruct (read_next _ _ _ _ _ _ _ _ H0 Hb) as (c1 & s1 & E1 & H1); [lia|done|]. destruct (read_next _ _ _ _ _ _ _ _ H1 Hb) as (c2 & s2 & E2 & H2); [lia|done|].
  destruct (read_next _ _ _ _ _ _ _ _ H2 Hb) as (c3 & s3 & E3 & H3); [lia|done|]. exists c3, s3. split; [|done].
  exact (turns_trans _ _ _ 1 2 _ _ _ _ _ E1 (turns_trans _ _ _ 1 1 _ _ _ _ _ E2 E3)).
Qed.

(** ** The end of a command *)

(** The publish that restores topic [i], if its value was known. *)
Definition restore_of (t : topics_s) (i : nat) : option report :=
  match tp_known t !! i, tp_value t !! i, SAVE_TOPICS !! i with
  | Some true, Some v, Some topic => if SAVE_STREAM_BEGIN <=? Z.of_nat i then Some (RHost (device_topic prefix topic) (jsdrv_union_u32_r v)) else None
  | _, _, _ => None
  end.

(** The publishes that restore the streams: those of topics 11 to 19 that were known. *)
Definition restored (t : topics_s) : list report := omap (restore_of t) (seq 11 9).

Lemma owp_teardown s (Q : unit -> js320_cal_s -> list report -> Prop) : ca_dev s = true -> Q tt (set_stream s false (ca_stream_dual s)) [] ->
  owp (cal_stream_teardown prefix) s Q.
Proof.
  intros Hd HQ. apply owp_bind, owp_get. destruct (ca_stream_active s) eqn:E; cbn [negb].
  - apply owp_bind, owp_modify. do 2 (apply owp_bind, owp_to_device; [done|done|]). apply owp_bind, owp_call; [done|].
    destruct (ca_stream_dual s) eqn:Ed; [|by apply owp_ret]. do 2 (apply owp_bind, owp_to_device; [done|done|]). by apply owp_call.
  - apply owp_ret. replace s with (set_stream s false (ca_stream_dual s)); [done|]. destruct s; cbn in *. by subst.
Qed.

Lemma owp_restore_loop n (i : nat) s (Q : unit -> js320_cal_s -> list report -> Prop) : ca_dev s = true -> topics_ok (ca_prior s) -> (i + n = 20)%nat ->
  Q tt s (omap (restore_of (ca_prior s)) (seq i n)) -> owp (restore_loop prefix (drop i SAVE_TOPICS) (Z.of_nat i)) s Q.
Proof.
  intros Hd [Hv Hk]. revert i Q. induction n as [|n IH]; intros i Q Hi HQ; [rewrite drop_ge by (cbn; lia); by apply owp_ret|].
  destruct (lookup_lt_is_Some_2 SAVE_TOPICS i) as [t Et]; [cbn; lia|]. rewrite (drop_S _ _ _ Et). cbn [restore_loop]. apply owp_bind, owp_get, owp_bind.
  destruct (lookup_lt_is_Some_2 (tp_known (ca_prior s)) i) as [kn Ek]; [lia|]. destruct (lookup_lt_is_Some_2 (tp_value (ca_prior s)) i) as [v Ev]; [lia|].
  apply (owp_lift _ kn); [apply ld_ok; [lia|by rewrite Nat2Z.id]|]. apply owp_bind, (owp_lift _ v); [apply ld_ok; [lia|by rewrite Nat2Z.id]|].
  cbn [seq omap list_omap] in HQ. apply owp_bind. assert (forall Q' : unit -> js320_cal_s -> list report -> Prop, Q' tt s (omap (restore_of (ca_prior s)) (seq (S i) n)) ->
    owp (restore_loop prefix (drop (S i) SAVE_TOPICS) (Z.of_nat i + 1)) s Q') as Hrest.
  { intros Q' HQ'. replace (Z.of_nat i + 1) with (Z.of_nat (S i)) by lia. apply IH; [lia|done]. }
  unfold restore_of in HQ at 1. rewrite Ek, Ev, Et in HQ. destruct kn; cbn [negb]; [|apply owp_ret, Hrest, HQ].
  destruct (SAVE_STREAM_BEGIN <=? Z.of_nat i) eqn:Es.
  - apply owp_call; [done|]. apply Hrest. exact HQ.
  - apply owp_to_device; [done| |apply Hrest; exact HQ]. apply list_elem_of_lookup_2 in Et. unfold SAVE_TOPICS in Et. rewrite !elem_of_cons, elem_of_nil in Et. by destruct_or! Et; subst.
Qed.

Lemma restored_all t : omap (restore_of t) (seq 0 20) = restored t.
Proof.
  unfold restored. change (seq 0 20) with (seq 0 11 ++ seq 11 9). rewrite omap_app.
  assert (omap (restore_of t) (seq 0 11) = []) as ->; [|done]. assert (forall i, (i < 11)%nat -> restore_of t i = None) as Hn.
  { intros i Hi. unfold restore_of. destruct (tp_known t !! i) as [[]|], (tp_value t !! i), (SAVE_TOPICS !! i); try done.
    assert ((SAVE_STREAM_BEGIN <=? Z.of_nat i) = false) as ->; [|done]. apply Z.leb_gt. unfold SAVE_STREAM_BEGIN. lia. }
  cbn [seq omap list_omap]. by rewrite !Hn by lia.
Qed.

Definition answer_of (s : js320_cal_s) (status : Z) : report := RAnswer (Js320Cal.jsdrv_union_bin (rsp_bytes (cr_transaction_id (ca_run s)) status)).

Lemma owp_finish status s (Q : unit -> js320_cal_s -> list report -> Prop) : ca_dev s = true -> topics_ok (ca_prior s) ->
  Q tt (finished s) ((if ca_restore_pending s then restored (ca_prior s) else []) ++ [answer_of s status]) -> owp (cal_finish prefix status) s Q.
Proof.
  intros Hd Ht HQ. apply owp_bind, owp_teardown; [done|]. set (s1 := set_stream s false (ca_stream_dual s)).
  assert (forall Q' : unit -> js320_cal_s -> list report -> Prop, Q' tt (set_prior s1 (ca_prior s) false) (if ca_restore_pending s then restored (ca_prior s) else []) ->
    owp (cal_restore_prior prefix) s1 Q') as Hr.
  { intros Q' HQ'. apply owp_bind, owp_get. change (ca_restore_pending s1) with (ca_restore_pending s). destruct (ca_restore_pending s) eqn:E; cbn [negb].
    - apply owp_bind, owp_modify. apply (owp_restore_loop 20 0); [done|done|done|]. cbn [ca_prior set_prior]. rewrite restored_all. exact HQ'.
    - apply owp_ret. replace s1 with (set_prior s1 (ca_prior s) false); [done|]. subst s1. destruct s; cbn in *. by subst. }
  apply owp_bind, Hr, owp_bind, owp_call; [done|]. apply owp_bind, owp_bind, owp_get, owp_call; [done|]. apply owp_modify.
  cbn [reports omap list_omap report_of]. exact HQ.
Qed.

(** ** Erasing, writing and verifying a slot *)

Definition page (r : list Z) (p : Z) : list Z := take 256 (drop (Z.to_nat (p * 256)) r).

(** The memory after the erase and the first [n] pages of [r]. *)
Fixpoint written (f : flash_mem) (base : Z) (r : list Z) (n : nat) : flash_mem :=
  match n with
  | O => flash_erase f base FLASH_BLOCK_SIZE
  | S n => flash_write (written f base r n) (base + Z.of_nat n * 256) (page r (Z.of_nat n))
  end.

Lemma len_page r p : length r = 1024%nat -> 0 <= p < 4 -> len (page r p) = 256.
Proof. intros Hr Hp. unfold page, len. rewrite length_take, length_drop. lia. Qed.

Lemma page_nth r p i : 0 <= p -> 0 <= i < 256 -> nth (Z.to_nat i) (page r p) 0 = nth (Z.to_nat (p * 256 + i)) r 0.
Proof.
  intros Hp Hi. unfold page. rewrite !nth_lookup. rewrite lookup_take_lt by lia. rewrite lookup_drop. do 2 f_equal. lia.
Qed.

Lemma written_at f base r n a : (n <= 4)%nat -> length r = 1024%nat -> written f base r n a =
  if (base <=? a) && (a <? base + FLASH_BLOCK_SIZE) then
    if a <? base + 256 * Z.of_nat n then nth (Z.to_nat (a - base)) r 0 else 0xFF
  else f a.
Proof.
  intros Hn Hr. induction n as [|n IH].
  - cbn [written]. unfold flash_erase. destruct (base <=? a) eqn:E1; [|done]. cbn [andb]. case_if; [|done]. simpl_cmp. done.
  - cbn [written]. unfold flash_write. rewrite len_page by lia. rewrite IH by lia. unfold FLASH_BLOCK_SIZE.
    destruct (base + Z.of_nat n * 256 <=? a) eqn:E1, (a <? base + Z.of_nat n * 256 + 256) eqn:E2; bool_facts; cbn [andb].
    + simpl_cmp. cbn [andb]. rewrite page_nth by lia. f_equal. lia.
    + destruct (base <=? a) eqn:E3, (a <? base + 65536) eqn:E4; bool_facts; cbn [andb]; try done. simpl_cmp. done.
    + destruct (base <=? a) eqn:E3, (a <? base + 65536) eqn:E4; bool_facts; cbn [andb]; try done. simpl_cmp. done.
    + lia.
Qed.

Lemma written_read f base r p : length r = 1024%nat -> 0 <= p < 4 -> flash_read (written f base r 4) (base + p * 256) 256 = page r p.
Proof.
  intros Hr Hp. apply list_eq. intros i. pose proof (len_page r p Hr Hp) as Hl. unfold len in Hl. unfold flash_read.
  destruct (decide (i < 256)%nat) as [Hi|Hi].
  - rewrite list_lookup_fmap, lookup_seqZ_lt by lia. cbn [fmap option_fmap option_map]. rewrite written_at by (lia || done). unfold FLASH_BLOCK_SIZE. simpl_cmp. cbn [andb].
    destruct (lookup_lt_is_Some_2 (page r p) i) as [x Hx]; [lia|]. rewrite Hx. f_equal.
    pose proof (page_nth r p (Z.of_nat i)) as Hn. rewrite Nat2Z.id in Hn. rewrite (nth_lookup_Some _ _ _ _ Hx) in Hn. rewrite Hn by lia. f_equal. lia.
  - rewrite !lookup_ge_None_2; [done|lia|]. rewrite length_fmap, length_seqZ. lia.
Qed.

(** Page [p] of record [r] is being written, or read back, in the slot at [base]. *)
Record paging (st : cal_state_e) (s0 : js320_cal_s) (f : flash_mem) (base : Z) (r : list Z) (p : Z) (s : js320_cal_s) : Prop := mk_paging {
  pg_held : held s0 s;
  pg_state : ca_state s = st;
  pg_page : fl_page_idx (ca_flash s) = p /\ fl_page_count (ca_flash s) = 4;
  pg_base : fl_offset_base (ca_flash s) = base;
  pg_record : ca_record s = r;
}.

Definition writing s0 f base r p k c s : Prop := paging CAL_WRITE s0 f base r p s /\
  c = mk_cfg k (written f base r (Z.to_nat p)) [mem_cmd s MB_STDMSG_MEM_OP_WRITE MEM_OP_TIMEOUT_MS (base + p * 256) 256 (page r p)] s.
Definition verifying s0 f base r p k c s : Prop := paging CAL_VERIFY s0 f base r p s /\
  c = mk_cfg k (written f base r 4) [mem_cmd s MB_STDMSG_MEM_OP_READ MEM_OP_TIMEOUT_MS (base + p * 256) 256 []] s.

Record erasing (s0 : js320_cal_s) (f : flash_mem) (base : Z) (r : list Z) (k : nat) (c : cfg) (s : js320_cal_s) : Prop := mk_erasing {
  er_held : held s0 s;
  er_state : ca_state s = CAL_ERASE;
  er_base : fl_offset_base (ca_flash s) = base;
  er_record : ca_record s = r;
  er_cfg : c = mk_cfg k f [mem_cmd s MB_STDMSG_MEM_OP_ERASE ERASE_OP_TIMEOUT_MS base FLASH_BLOCK_SIZE []] s;
}.

Lemma owp_write_page base p r s (Q : unit -> js320_cal_s -> list report -> Prop) : ca_dev s = true -> base ∈ slots -> 0 <= p < 4 -> length r = 1024%nat ->
  fl_offset_base (ca_flash s) = base -> fl_page_idx (ca_flash s) = p -> ca_record s = r ->
  Q tt (sent_op s) [RMem (mem_cmd (sent_op s) MB_STDMSG_MEM_OP_WRITE MEM_OP_TIMEOUT_MS (base + p * 256) 256 (page r p))] -> owp cal_send_write_page s Q.
Proof.
  intros Hd Hb Hp Hr E1 E2 E3 HQ. apply owp_bind, owp_get. assert (page_offset s = base + p * 256) as ->.
  { unfold page_offset, FLASH_PAGE_SIZE. rewrite E1, E2. apply uwrap_small. by apply base_u32. }
  apply owp_bind, (owp_lift _ (page r p)).
  { rewrite E2, E3. unfold bytes_at, FLASH_PAGE_SIZE. assert (len r = 1024) by (unfold len; lia). simpl_cmp. done. }
  apply owp_mem_op; [done|by apply base_u32|done|by rewrite len_page|]. exact HQ.
Qed.

(** The erase is done: the first page is written. *)
Lemma erase_done s0 f base r k c s : erasing s0 f base r k c s -> base ∈ slots -> length r = 1024%nat ->
  exists c' s', turns 1 c = Ok (c', []) /\ writing s0 f base r 0 k c' s'.
Proof.
  intros [Hh Hst Eb Er ->] Hb Hr. set (s1 := sent_op (set_page (set_state s CAL_WRITE) 0 FLASH_PAGES_PER_RECORD)).
  destruct (turn_response k f (mem_cmd s MB_STDMSG_MEM_OP_ERASE ERASE_OP_TIMEOUT_MS base FLASH_BLOCK_SIZE []) s (flash_erase f base FLASH_BLOCK_SIZE) []
    (fun s' rr => s' = s1 /\ rr = [RMem (mem_cmd s' MB_STDMSG_MEM_OP_WRITE MEM_OP_TIMEOUT_MS (base + 0 * 256) 256 (page r 0))])) as (s' & rr & [-> ->] & E).
  - by rewrite serve_erase.
  - congruence.
  - apply Hh.
  - pose proof (base_u32 base 0 Hb ltac:(lia)) as Hu. by rewrite Z.add_0_r in Hu.
  - done.
  - done.
  - unfold on_response. rewrite Hst. apply owp_bind, owp_modify, owp_bind, owp_status; [apply Hh|].
    apply (owp_write_page base 0 r); try done. apply Hh.
  - eexists _, s1. split; [exact E|]. split; [|done]. split; try done. apply held_sent. by destruct Hh.
Qed.

Lemma turn_write s0 f base r p k c s (P : js320_cal_s -> list report -> Prop) : writing s0 f base r p k c s -> base ∈ slots -> 0 <= p < 4 -> length r = 1024%nat ->
  owp on_write_done s (fun _ => P) ->
  exists s' rr, P s' rr /\ turns 1 c = Ok (mk_cfg k (written f base r (Z.to_nat (p + 1))) (omap mem_of rr) s', List.filter not_mem rr).
Proof.
  intros [[Hh Hst [Ep Ec] Eb Er] ->] Hb Hp Hr H. eapply turn_response.
  - rewrite serve_write by done. cbn [mem_cmd mm_offset mm_data]. replace (Z.to_nat (p + 1)) with (S (Z.to_nat p)) by lia. cbn [written].
    rewrite Z2Nat.id by lia. reflexivity.
  - congruence.
  - apply Hh.
  - by apply base_u32.
  - done.
  - done.
  - unfold on_response. rewrite Hst. exact H.
Qed.

Lemma write_next s0 f base r p k c s : writing s0 f base r p k c s -> base ∈ slots -> 0 <= p < 3 -> length r = 1024%nat ->
  exists c' s', turns 1 c = Ok (c', []) /\ writing s0 f base r (p + 1) k c' s'.
Proof.
  intros Hw Hb Hp Hr. pose proof Hw as [[Hh Hst [Ep Ec] Eb Er] _]. set (s1 := sent_op (set_page s (p + 1) 4)).
  destruct (turn_write s0 f base r p k c s (fun s' rr => s' = s1 /\
    rr = [RMem (mem_cmd s' MB_STDMSG_MEM_OP_WRITE MEM_OP_TIMEOUT_MS (base + (p + 1) * 256) 256 (page r (p + 1)))]) Hw Hb) as (s' & rr & [-> ->] & E); [lia|done| |].
  - apply owp_bind, owp_modify. rewrite Ep, Ec, uwrap_small by (unfold is_u; width_lia). apply owp_bind, owp_get. cbn [fl_page_idx fl_page_count ca_flash set_page set_flash].
    assert ((p + 1 <? 4) = true) as -> by (apply Z.ltb_lt; lia). cbv iota. apply (owp_write_page base (p + 1) r); try done; [apply Hh|lia].
  - eexists _, s1. split; [exact E|]. split; [|done]. split; try done. apply held_sent. by destruct Hh.
Qed.

Lemma write_last s0 f base r k c s : writing s0 f base r 3 k c s -> base ∈ slots -> length r = 1024%nat ->
  exists c' s', turns 1 c = Ok (c', []) /\ verifying s0 f base r 0 k c' s'.
Proof.
  intros Hw Hb Hr. pose proof Hw as [[Hh Hst [Ep Ec] Eb Er] _]. set (s1 := sent_op (set_page (set_state (set_page s 4 4) CAL_VERIFY) 0 FLASH_PAGES_PER_RECORD)).
  destruct (turn_write s0 f base r 3 k c s (fun s' rr => s' = s1 /\
    rr = [RMem (mem_cmd s' MB_STDMSG_MEM_OP_READ MEM_OP_TIMEOUT_MS (base + 0 * 256) 256 [])]) Hw Hb) as (s' & rr & [-> ->] & E); [lia|done| |].
  - apply owp_bind, owp_modify. rewrite Ep, Ec. change (u8 (3 + 1)) with 4. apply owp_bind, owp_get. cbn [fl_page_idx fl_page_count ca_flash set_page set_flash].
    change (4 <? 4) with false. cbv iota. apply owp_bind, owp_modify, owp_bind, owp_status; [apply Hh|]. apply (owp_read_page base 0); try done. apply Hh.
  - eexists _, s1. split; [exact E|]. split; [|done]. split; try done. apply held_sent. by destruct Hh.
Qed.

(** A page is read back: it is the one that was written. *)
Lemma turn_verify s0 f base r p k c s (P : js320_cal_s -> list report -> Prop) : verifying s0 f base r p k c s -> base ∈ slots -> 0 <= p < 4 -> length r = 1024%nat ->
  owp (if p + 1 <? 4 then cal_send_read_page
       else (if cal_wrote_active (ca_run s) then cal_request_reload else mret tt) ;; cal_finish prefix 0) (set_page s (p + 1) 4) (fun _ => P) ->
  exists s' rr, P s' rr /\ turns 1 c = Ok (mk_cfg k (written f base r 4) (omap mem_of rr) s', List.filter not_mem rr).
Proof.
  intros [[Hh Hst [Ep Ec] Eb Er] ->] Hb Hp Hr H. eapply turn_response.
  - by rewrite serve_read.
  - congruence.
  - apply Hh.
  - by apply base_u32.
  - done.
  - cbn [mem_cmd mm_offset mm_length]. rewrite len_flash_read by lia. done.
  - unfold on_response. rewrite Hst. cbn [mem_cmd mm_offset mm_length]. rewrite len_flash_read, written_read by (lia || done).
    unfold on_verify_done. change (256 <? FLASH_PAGE_SIZE) with false. cbv iota. apply owp_bind, owp_get. cbv zeta. rewrite Eb, Er.
    replace (base + p * 256 - base) with (p * 256) by lia. rewrite uwrap_small by (unfold is_u; width_lia). unfold FLASH_PAGE_SIZE. rewrite Z.div_mul by lia.
    assert (bytes_at r (p * 256) 256 = Ok (page r p)) as -> by (unfold bytes_at; assert (len r = 1024) by (unfold len; lia); simpl_cmp; done).
    assert (bytes_at (page r p) 0 256 = Ok (page r p)) as ->.
    { unfold bytes_at. rewrite len_page by done. cbn [Z.leb andb Z.add]. pose proof (len_page r p Hr Hp) as Hl. unfold len in Hl. f_equal. rewrite drop_0. apply take_ge. lia. }
    apply owp_bind, (owp_lift _ (page r p)); [done|]. apply owp_bind, (owp_lift _ (page r p)); [done|]. rewrite bool_decide_eq_true_2 by done. cbn [negb].
    apply owp_bind, owp_modify. rewrite Ep, Ec, uwrap_small by (unfold is_u; width_lia). apply owp_bind, owp_get. exact H.
Qed.

Lemma verify_next s0 f base r p k c s : verifying s0 f base r p k c s -> base ∈ slots -> 0 <= p < 3 -> length r = 1024%nat ->
  exists c' s', turns 1 c = Ok (c', []) /\ verifying s0 f base r (p + 1) k c' s'.
Proof.
  intros Hw Hb Hp Hr. pose proof Hw as [[Hh Hst [Ep Ec] Eb Er] _]. set (s1 := sent_op (set_page s (p + 1) 4)).
  destruct (turn_verify s0 f base r p k c s (fun s' rr => s' = s1 /\
    rr = [RMem (mem_cmd s' MB_STDMSG_MEM_OP_READ MEM_OP_TIMEOUT_MS (base + (p + 1) * 256) 256 [])]) Hw Hb) as (s' & rr & [-> ->] & E); [lia|done| |].
  - assert ((p + 1 <? 4) = true) as -> by (apply Z.ltb_lt; lia). cbv iota. apply (owp_read_page base (p + 1)); try done; [apply Hh|lia].
  - eexists _, s1. split; [exact E|]. split; [|done]. split; try done. apply held_sent. by destruct Hh.
Qed.

Definition done_reports (s0 : js320_cal_s) (status : Z) : list report :=
  (if ca_restore_pending s0 then restored (ca_prior s0) else []) ++ [answer_of s0 status].

Lemma done_not_mem s0 status : List.filter not_mem (done_reports s0 status) = done_reports s0 status /\ omap mem_of (done_reports s0 status) = [].
Proof.
  assert (forall l : list nat, List.filter not_mem (omap (restore_of (ca_prior s0)) l) = omap (restore_of (ca_prior s0)) l /\ omap mem_of (omap (restore_of (ca_prior s0)) l) = []) as H.
  { induction l as [|i l [IH1 IH2]]; [done|]. cbn [omap list_omap]. destruct (restore_of (ca_prior s0) i) as [x|] eqn:E; [|done].
    assert (not_mem x = true /\ mem_of x = None) as [H1 H2].
    { unfold restore_of in E. repeat case_match; try done; by injection E as <-. }
    cbn [List.filter omap list_omap]. rewrite H1, H2. split; [f_equal; exact IH1 | exact IH2]. }
  unfold done_reports. rewrite List.filter_app, omap_app. destruct (ca_restore_pending s0); [|done].
  destruct (H (seq 11 9)) as [H1 H2]. fold (restored (ca_prior s0)) in H1, H2. rewrite H1, H2. done.
Qed.

Lemma verify_last s0 f base r k c s : verifying s0 f base r 3 k c s -> base ∈ slots -> length r = 1024%nat -> topics_ok (ca_prior s0) ->
  exists s', turns 1 c = Ok (mk_cfg k (written f base r 4) [] s', done_reports s0 0) /\ ca_state s' = CAL_IDLE.
Proof.
  intros Hw Hb Hr Ht. pose proof Hw as [[Hh Hst [Ep Ec] Eb Er] _]. pose proof Hh as [Hd Hrun Hpri Hpend _].
  destruct (turn_verify s0 f base r 3 k c s (fun s' rr => ca_state s' = CAL_IDLE /\ rr = done_reports s0 0) Hw Hb) as (s' & rr & [Hs ->] & E); [lia|done| |].
  - change (3 + 1 <? 4) with false. cbv iota. apply owp_bind. assert (forall Q' : unit -> js320_cal_s -> list report -> Prop, Q' tt (finished (set_page s (3 + 1) 4)) (done_reports s0 0) ->
      owp (cal_finish prefix 0) (set_page s (3 + 1) 4) Q') as Hf.
    { intros Q' HQ'. apply owp_finish; [done|cbn; by rewrite Hpri|]. cbn [ca_restore_pending ca_prior set_page set_flash]. rewrite Hpend, Hpri.
      unfold answer_of. cbn [ca_run set_page set_flash]. rewrite Hrun. exact HQ'. }
    case_if; [apply owp_to_device; [done|done|] | apply owp_ret]; by apply Hf.
  - destruct (done_not_mem s0 0) as [N1 N2]. rewrite N1, N2 in E. eauto.
Qed.

(** From the erase to the answer. *)
Lemma store_slot s0 f base r k c s : erasing s0 f base r k c s -> base ∈ slots -> length r = 1024%nat -> topics_ok (ca_prior s0) ->
  exists s', turns 9 c = Ok (mk_cfg k (written f base r 4) [] s', done_reports s0 0) /\ ca_state s' = CAL_IDLE.
Proof.
  intros He Hb Hr Ht. destruct (erase_done _ _ _ _ _ _ _ He Hb Hr) as (c1 & s1 & E1 & H1).
  destruct (write_next _ _ _ _ _ _ _ _ H1 Hb) as (c2 & s2 & E2 & H2); [lia|done|]. destruct (write_next _ _ _ _ _ _ _ _ H2 Hb) as (c3 & s3 & E3 & H3); [lia|done|].
  destruct (write_next _ _ _ _ _ _ _ _ H3 Hb) as (c4 & s4 & E4 & H4); [lia|done|]. destruct (write_last _ _ _ _ _ _ _ H4 Hb Hr) as (c5 & s5 & E5 & H5).
  destruct (verify_next _ _ _ _ _ _ _ _ H5 Hb) as (c6 & s6 & E6 & H6); [lia|done|]. destruct (verify_next _ _ _ _ _ _ _ _ H6 Hb) as (c7 & s7 & E7 & H7); [lia|done|].
  destruct (verify_next _ _ _ _ _ _ _ _ H7 Hb) as (c8 & s8 & E8 & H8); [lia|done|]. destruct (verify_last _ _ _ _ _ _ _ H8 Hb Hr Ht) as (s9 & E9 & H9).
  exists s9. split; [|done].
  pose proof (turns_trans _ _ _ 1 1 _ _ _ _ _ E8 E9) as T. pose proof (turns_trans _ _ _ 1 2 _ _ _ _ _ E7 T) as T2. pose proof (turns_trans _ _ _ 1 3 _ _ _ _ _ E6 T2) as T3.
  pose proof (turns_trans _ _ _ 1 4 _ _ _ _ _ E5 T3) as T4. pose proof (turns_trans _ _ _ 1 5 _ _ _ _ _ E4 T4) as T5. pose proof (turns_trans _ _ _ 1 6 _ _ _ _ _ E3 T5) as T6.
  pose proof (turns_trans _ _ _ 1 7 _ _ _ _ _ E2 T6) as T7. exact (turns_trans _ _ _ 1 8 _ _ _ _ _ E1 T7).
Qed.

(** ** Captures *)

(** The accumulators when the streams have delivered [l0] and [l1], of which [n0] and [n1] samples are asked for. *)
Definition acc (n0 n1 : Z) (l0 l1 : list Z) : adc_s :=
  mk_adc [total (take (Z.to_nat n0) l0); total (take (Z.to_nat n1) l1)] [Z.min n0 (len l0); Z.min n1 (len l1)] [n0; n1].

Definition complete (n0 n1 : Z) (l0 l1 : list Z) : bool := (n0 <=? len l0) && (n1 <=? len l1).

Definition msg_samples (m : list Z) : list Z := map (sample_at m) (seqZ 0 (msg_count m)).

(** A message of a converter stream: its slot and its bytes. *)
Record adc_msg_ok (slot : Z) (v : jsdrv_union_s) (m : list Z) : Prop := mk_adc_msg_ok {
  am_slot : slot = 0 \/ slot = 1;
  am_type : type v = JSDRV_UNION_BIN;
  am_object : object v = Ok m;
  am_size : JSDRV_STREAM_HEADER_SIZE <= size v;
  am_version : ld m 0 = Ok 1;
  am_bits : ld m 19 = Ok 32;
  am_fits : sig_fits m;
}.

Lemma total_concat l k : total (l ++ k) = total l + total k.
Proof. induction l as [|x l IH]; [done|]. change (x + total (l ++ k) = x + total l + total k). lia. Qed.

Lemma acc_step n l m : 0 <= n -> sig_fits m -> 0 <= n - Z.min n (len l) ->
  total (take (Z.to_nat n) l) + total (map (sample_at m) (seqZ 0 (taken (Z.min n (len l)) n m))) = total (take (Z.to_nat n) (l ++ msg_samples m))
  /\ Z.min n (len l) + taken (Z.min n (len l)) n m = Z.min n (len (l ++ msg_samples m)).
Proof.
  intros Hn Hf Hd. destruct (sig_count_eq m Hf) as (_ & Hc & _). pose proof (len_nonneg l).
  assert (len (msg_samples m) = msg_count m) as Hl by (unfold msg_samples, len; rewrite length_map, length_seqZ; lia). rewrite len_app, Hl. unfold taken.
  split; [|lia]. rewrite firstn_app, total_concat. f_equal. unfold msg_samples. rewrite firstn_map. do 2 f_equal.
  replace (msg_count m) with (Z.min (n - Z.min n (len l)) (msg_count m) + (msg_count m - Z.min (n - Z.min n (len l)) (msg_count m))) at 2 by lia.
  rewrite seqZ_app by lia. destruct (decide (n <= len l)) as [Hle|Hgt].
  - replace (Z.min (n - Z.min n (len l)) (msg_count m)) with 0 by lia. replace (Z.to_nat n - length l)%nat with 0%nat by (unfold len in Hle; lia). done.
  - destruct (decide (n - len l <= msg_count m)).
    + rewrite take_app_length'; [done|]. rewrite length_seqZ. unfold len in *. lia.
    + replace (msg_count m - Z.min (n - Z.min n (len l)) (msg_count m)) with 0 by lia. rewrite (seqZ_nil _ 0 ltac:(lia)), app_nil_r, take_ge; [done|].
      rewrite length_seqZ. unfold len in *. lia.
Qed.

Definition in_i32 (x : Z) : Prop := - 2 ^ 31 <= x < 2 ^ 31.

Lemma msg_samples_range m : Forall in_i32 (msg_samples m).
Proof. apply Forall_map, Forall_true. intros. apply sample_range. Qed.

Lemma take_total n l : 0 <= n -> Forall in_i32 l -> - 2 ^ 31 * Z.min n (len l) <= total (take (Z.to_nat n) l) <= 2 ^ 31 * Z.min n (len l).
Proof.
  intros Hn Hl. pose proof (total_range _ (Forall_take _ (Z.to_nat n) _ Hl)) as H.
  assert (len (take (Z.to_nat n) l) = Z.min n (len l)) as E by (unfold len; rewrite length_take; lia). by rewrite E in H.
Qed.

(** The lists after a message of slot [slot]. *)
Definition fed0 (slot : Z) (m l0 : list Z) : list Z := if slot =? 0 then l0 ++ msg_samples m else l0.
Definition fed1 (slot : Z) (m l1 : list Z) : list Z := if slot =? 0 then l1 else l1 ++ msg_samples m.

Definition after_capture (s : js320_cal_s) : M unit :=
  if cr_op (ca_run s) =? JSDRV_CAL_OP_CURRENT_OFFSET then cal_current_after_capture now else cal_voltage_after_capture now.

Lemma capture_complete_acc n0 n1 l0 l1 : 0 <= n0 -> 0 <= n1 -> capture_complete (acc n0 n1 l0 l1) = Ok (complete n0 n1 l0 l1).
Proof.
  intros H0 H1. assert (forall (n : Z) (l : list Z), 0 <= n -> negb (negb (n =? 0) && (Z.min n (len l) <? n)) = (n <=? len l)) as H.
  { intros n l Hn. pose proof (len_nonneg l). destruct (n =? 0) eqn:E; bool_facts; cbn [negb andb]; [simpl_cmp; done|].
    destruct (decide (n <= len l)); simpl_cmp; done. }
  unfold capture_complete, slot_complete, acc, complete. cbn [ad_need ad_count].
  assert (forall x y : Z, ld [x; y] 0 = Ok x /\ ld [x; y] 1 = Ok y) as Hld by done. rewrite !(proj1 (Hld _ _)), !(proj2 (Hld _ _)), !bind_Ok.
  rewrite (H n0 l0 H0), (H n1 l1 H1). by destruct (n0 <=? len l0).
Qed.

Lemma take_full n (l k : list Z) : n <= len l -> take (Z.to_nat n) (l ++ k) = take (Z.to_nat n) l.
Proof. intros H. apply take_app_le. unfold len in H. lia. Qed.

(** A slot that has what it needs takes no more. *)
Lemma acc_full0 n0 n1 l0 l1 k : n0 <= len l0 -> acc n0 n1 (l0 ++ k) l1 = acc n0 n1 l0 l1.
Proof. intros H. unfold acc. rewrite take_full, len_app by done. pose proof (len_nonneg k). do 2 f_equal. lia. Qed.
Lemma acc_full1 n0 n1 l0 l1 k : n1 <= len l1 -> acc n0 n1 l0 (l1 ++ k) = acc n0 n1 l0 l1.
Proof. intros H. unfold acc. rewrite take_full, len_app by done. pose proof (len_nonneg k). do 3 f_equal. lia. Qed.

Lemma adc_add_acc slot v m n0 n1 l0 l1 : adc_msg_ok slot v m -> 0 <= n0 < 2 ^ 32 -> 0 <= n1 < 2 ^ 32 -> Forall in_i32 l0 -> Forall in_i32 l1 ->
  adc_add (acc n0 n1 l0 l1) slot m = Ok (acc n0 n1 (fed0 slot m l0) (fed1 slot m l1)).
Proof.
  intros Hm Hn0 Hn1 R0 R1. pose proof (len_nonneg l0). pose proof (len_nonneg l1). unfold fed0, fed1. destruct (am_slot _ _ _ Hm) as [->| ->]; cbn [Z.eqb].
  - change 0 with (Z.of_nat 0) at 1. rewrite (adc_add_eq (acc n0 n1 l0 l1) 0 (total (take (Z.to_nat n0) l0)) (Z.min n0 (len l0)) n0 m);
      [|lia|apply Hm|done|done|done|lia|lia|apply take_total; [lia|done]].
    destruct (acc_step n0 l0 m) as [E1 E2]; [lia|apply Hm|lia|]. rewrite E1, E2. reflexivity.
  - change 1 with (Z.of_nat 1) at 1. rewrite (adc_add_eq (acc n0 n1 l0 l1) 1 (total (take (Z.to_nat n1) l1)) (Z.min n1 (len l1)) n1 m);
      [|lia|apply Hm|done|done|done|lia|lia|apply take_total; [lia|done]].
    destruct (acc_step n1 l1 m) as [E1 E2]; [lia|apply Hm|lia|]. rewrite E1, E2. reflexivity.
Qed.

Lemma set_adc_same s a : ca_adc s = a -> set_adc s a = s.
Proof. intros <-. by destruct s. Qed.

Lemma owp_feed slot v m s n0 n1 l0 l1 (Q : unit -> js320_cal_s -> list report -> Prop) : ca_state s = CAL_SWEEP_CAPTURE -> ca_adc s = acc n0 n1 l0 l1 ->
  adc_msg_ok slot v m -> 0 <= n0 < 2 ^ 32 -> 0 <= n1 < 2 ^ 32 -> Forall in_i32 l0 -> Forall in_i32 l1 -> complete n0 n1 l0 l1 = false ->
  (let s' := set_adc s (acc n0 n1 (fed0 slot m l0) (fed1 slot m l1)) in
   if complete n0 n1 (fed0 slot m l0) (fed1 slot m l1) then owp (after_capture s) s' Q else Q tt s' []) ->
  owp (on_adc_data now slot v) s Q.
Proof.
  intros Hst Ha Hm Hn0 Hn1 R0 R1 Hc H. unfold on_adc_data. apply owp_bind, owp_get. rewrite bool_decide_eq_true_2 by done. cbn [negb]. rewrite Ha.
  set (n := if slot =? 0 then n0 else n1). set (l := if slot =? 0 then l0 else l1). pose proof (len_nonneg l0). pose proof (len_nonneg l1).
  assert (ld (ad_need (acc n0 n1 l0 l1)) slot = Ok n) as En by (subst n; by destruct (am_slot _ _ _ Hm) as [->| ->]).
  assert (ld (ad_count (acc n0 n1 l0 l1)) slot = Ok (Z.min n (len l))) as Ec by (subst n l; by destruct (am_slot _ _ _ Hm) as [->| ->]).
  assert (0 <= n) as Hn by (subst n; case_if; lia).
  (* a slot that needs nothing more *)
  assert (n <= len l -> owp (mret tt) s Q) as Hfull.
  { intros Hle. apply owp_ret. assert (acc n0 n1 (fed0 slot m l0) (fed1 slot m l1) = acc n0 n1 l0 l1) as Eacc.
    { subst n l. unfold fed0, fed1. destruct (slot =? 0); [by apply acc_full0 | by apply acc_full1]. }
    assert (complete n0 n1 (fed0 slot m l0) (fed1 slot m l1) = false) as Ecm.
    { unfold complete, fed0, fed1 in *. subst n l. pose proof (len_nonneg (msg_samples m)). destruct (slot =? 0); rewrite len_app;
        apply andb_false_iff; apply andb_false_iff in Hc as [Hc|Hc]; apply Z.leb_gt in Hc; first [exfalso; lia | left; apply Z.leb_gt; lia | right; apply Z.leb_gt; lia]. }
    cbv zeta in H. rewrite Ecm, Eacc, set_adc_same in H by done. exact H. }
  apply owp_bind, (owp_lift _ n); [done|]. destruct (n =? 0) eqn:E0; [apply Hfull; bool_facts; pose proof (len_nonneg l); lia|].
  rewrite (am_type _ _ _ Hm). change (JSDRV_UNION_BIN =? JSDRV_UNION_BIN) with true. pose proof (am_size _ _ _ Hm). simpl_cmp. cbn [negb orb].
  apply owp_bind, (owp_lift _ m); [apply Hm|]. apply owp_bind, (owp_lift _ 1); [apply Hm|]. apply owp_bind, (owp_lift _ 32); [apply Hm|]. cbn [Z.eqb Pos.eqb negb orb].
  apply owp_bind, (owp_lift _ (Z.min n (len l))); [done|]. destruct (n <=? Z.min n (len l)) eqn:E1; [apply Hfull; bool_facts; lia|].
  rewrite (adc_add_acc _ _ _ _ _ _ _ Hm Hn0 Hn1 R0 R1). apply owp_bind. eapply owp_lift; [done|]. apply owp_bind, owp_modify, owp_bind.
  rewrite capture_complete_acc by lia. eapply owp_lift; [done|]. cbv zeta in H. destruct (complete _ _ (fed0 _ _ _) _); cbn [negb]; [exact H|by apply owp_ret].
Qed.

(** The samples that a list of messages brings to each slot. *)
Definition samples_of (v : jsdrv_union_s) : list Z := match object v with Ok m => msg_samples m | Fault _ => [] end.
Definition stream (i : Z) (msgs : list (Z * jsdrv_union_s)) : list Z :=
  flat_map (fun '(slot, v) => if slot =? i then samples_of v else []) msgs.

Definition msgs_ok (msgs : list (Z * jsdrv_union_s)) : Prop := Forall (fun '(slot, v) => exists m, adc_msg_ok slot v m) msgs.
Definition adc_inputs (msgs : list (Z * jsdrv_union_s)) : list cal_input := map (fun '(slot, v) => C_adc now slot v) msgs.

Lemma owp_ignored msgs s (Q : unit -> js320_cal_s -> list report -> Prop) : ca_state s <> CAL_SWEEP_CAPTURE -> Q tt s [] -> owp (cal_steps prefix (adc_inputs msgs)) s Q.
Proof.
  intros Hst HQ. induction msgs as [|[slot v] msgs IH]; [by apply owp_ret|]. apply owp_bind. cbn [cal_step]. unfold on_adc_data. apply owp_bind, owp_get.
  rewrite bool_decide_eq_false_2 by done. cbn [negb]. apply owp_ret. exact IH.
Qed.

Lemma acc_complete n0 n1 l0 l1 k0 k1 : complete n0 n1 l0 l1 = true -> acc n0 n1 (l0 ++ k0) (l1 ++ k1) = acc n0 n1 l0 l1.
Proof. intros [H0%Z.leb_le H1%Z.leb_le]%andb_true_iff. by rewrite acc_full0, acc_full1. Qed.

Lemma owp_feed_all msgs s n0 n1 l0 l1 (Q : unit -> js320_cal_s -> list report -> Prop) : msgs_ok msgs -> ca_state s = CAL_SWEEP_CAPTURE -> ca_adc s = acc n0 n1 l0 l1 ->
  0 <= n0 < 2 ^ 32 -> 0 <= n1 < 2 ^ 32 -> Forall in_i32 l0 -> Forall in_i32 l1 -> complete n0 n1 l0 l1 = false ->
  complete n0 n1 (l0 ++ stream 0 msgs) (l1 ++ stream 1 msgs) = true ->
  owp (after_capture s) (set_adc s (acc n0 n1 (l0 ++ stream 0 msgs) (l1 ++ stream 1 msgs))) (fun u s' r => ca_state s' <> CAL_SWEEP_CAPTURE /\ Q u s' r) ->
  owp (cal_steps prefix (adc_inputs msgs)) s Q.
Proof.
  intros Hm Hst Ha Hn0 Hn1 R0 R1 Hc. revert s l0 l1 Hst Ha R0 R1 Hc Q. induction Hm as [|[slot v] msgs [m Hm] _ IH]; intros s l0 l1 Hst Ha R0 R1 Hc Q Hfull H.
  { cbn [stream flat_map] in Hfull. rewrite !app_nil_r in Hfull. congruence. }
  assert (fed0 slot m l0 ++ stream 0 msgs = l0 ++ stream 0 ((slot, v) :: msgs) /\ fed1 slot m l1 ++ stream 1 msgs = l1 ++ stream 1 ((slot, v) :: msgs)) as [F0 F1].
  { unfold stream, fed0, fed1, samples_of. cbn [flat_map]. rewrite (am_object _ _ _ Hm). destruct (am_slot _ _ _ Hm) as [->| ->]; cbn [Z.eqb Datatypes.app]; by rewrite <- ?app_assoc. }
  rewrite <- F0, <- F1 in *. apply owp_bind. cbn [cal_step]. apply (owp_feed slot v m s n0 n1 l0 l1); try done. cbv zeta.
  assert (Forall in_i32 (fed0 slot m l0) /\ Forall in_i32 (fed1 slot m l1)) as [R0' R1'].
  { pose proof (msg_samples_range m). unfold fed0, fed1. destruct (slot =? 0); rewrite ?Forall_app; done. }
  destruct (complete n0 n1 (fed0 slot m l0) (fed1 slot m l1)) eqn:Ec.
  - rewrite acc_complete in H by done. eapply owp_mono; [exact H|]. intros [] s' r [Hs' HQ]. apply owp_ignored; [done|]. by rewrite app_nil_r.
  - by apply (IH _ (fed0 slot m l0) (fed1 slot m l1)).
Qed.

(** ** The current sweep *)

Definition need_of (s0 : js320_cal_s) : Z :=
  if cr_samples_per_point (ca_run s0) =? 0 then DEFAULT_SAMPLES_PER_POINT else cr_samples_per_point (ca_run s0).

(** The mean of the first [n] samples of a stream. *)
Definition mean_of (n : Z) (l : list Z) : Z := Z.quot (total (take (Z.to_nat n) l)) n.

Lemma mean_range n l : 0 < n -> n <= len l -> Forall in_i32 l -> in_i32 (mean_of n l).
Proof.
  intros Hn Hl Hr. pose proof (Forall_take _ (Z.to_nat n) _ Hr) as Ht. unfold mean_of.
  assert (len (take (Z.to_nat n) l) = n) as EL by (unfold len in *; rewrite length_take; lia).
  assert (- 2 ^ 31 * n <= total (take (Z.to_nat n) l) <= (2 ^ 31 - 1) * n) as Hb.
  { rewrite <- EL at 1 4. clear EL. induction Ht as [|x k Hx _ IH]; [done|]. rewrite len_cons. unfold in_i32 in Hx. change (total (x :: k)) with (x + total k).
    change (2 ^ 31) with 2147483648 in *. lia. }
  unfold in_i32. change (2 ^ 31) with 2147483648 in *. split.
  - apply Z.opp_le_mono. rewrite <- Z.quot_opp_l by lia. rewrite Z.opp_involutive. destruct (Z.le_gt_cases 0 (total (take (Z.to_nat n) l))).
    + rewrite Z.quot_opp_l by lia. pose proof (Z.quot_pos (total (take (Z.to_nat n) l)) n). lia.
    + apply Z.quot_le_upper_bound; lia.
  - apply Z.lt_le_trans with (2147483647 + 1); [|lia]. apply Z.le_lt_trans with 2147483647; [|lia]. destruct (Z.le_gt_cases 0 (total (take (Z.to_nat n) l))).
    + apply Z.quot_le_upper_bound; lia.
    + pose proof (Z.quot_opp_l (- total (take (Z.to_nat n) l)) n). rewrite Z.opp_involutive in *. pose proof (Z.quot_pos (- total (take (Z.to_nat n) l)) n). lia.
Qed.

Lemma slot_mean_acc n0 n1 l0 l1 : 0 < n0 <= len l0 -> Forall in_i32 l0 -> slot_mean (acc n0 n1 l0 l1) 0 = Ok (mean_of n0 l0).
Proof.
  intros Hn Hr. unfold slot_mean, acc. cbn [ad_sum ad_count].
  assert (forall x y : Z, ld [x; y] 0 = Ok x) as Hld by done. rewrite !Hld, !bind_Ok. unfold adc_mean_to_q31. rewrite Z.min_l by lia.
  assert ((n0 =? 0) = false) as -> by (apply Z.eqb_neq; lia). fold (mean_of n0 l0). rewrite swrap_small; [done|lia|]. apply mean_range; [lia|lia|done].
Qed.

Lemma slot_mean_acc1 n0 n1 l0 l1 : 0 < n1 <= len l1 -> Forall in_i32 l1 -> slot_mean (acc n0 n1 l0 l1) 1 = Ok (mean_of n1 l1).
Proof.
  intros Hn Hr. unfold slot_mean, acc. cbn [ad_sum ad_count].
  assert (forall x y : Z, ld [x; y] 1 = Ok y) as Hld by done. rewrite !Hld, !bind_Ok. unfold adc_mean_to_q31. rewrite Z.min_l by lia.
  assert ((n1 =? 0) = false) as -> by (apply Z.eqb_neq; lia). fold (mean_of n1 l1). rewrite swrap_small; [done|lia|]. apply mean_range; [lia|lia|done].
Qed.

(** A record with the bytes [b] at [i]. *)
Definition patch (r : list Z) (i : Z) (b : list Z) : list Z := take (Z.to_nat i) r ++ b ++ drop (Z.to_nat (i + len b)) r.

Lemma put_bytes_patch r i b : 0 <= i -> i + len b <= len r -> put_bytes r i b = Ok (patch r i b).
Proof.
  intros Hi Hl. pose proof (len_nonneg b). unfold put_bytes, mem_copy. simpl_cmp. cbn [andb]. unfold patch. rewrite drop_0. change (Z.to_nat (len b)) with (Z.to_nat (Z.of_nat (length b))).
  rewrite Nat2Z.id, firstn_all. done.
Qed.

Lemma length_patch r i b : 0 <= i -> i + len b <= len r -> length (patch r i b) = length r.
Proof. intros Hi Hl. unfold patch, len in *. rewrite !length_app, length_take, length_drop. lia. Qed.

Lemma patch_lookup r i b j : 0 <= i -> i + len b <= len r ->
  patch r i b !! j = if decide (Z.to_nat i <= j < Z.to_nat (i + len b))%nat then b !! (j - Z.to_nat i)%nat else r !! j.
Proof.
  intros Hi Hl. unfold len in *. unfold patch, len. assert (length (take (Z.to_nat i) r) = Z.to_nat i) as L by (rewrite length_take; lia). case_decide as Hj.
  - rewrite lookup_app_r by lia. rewrite L. by rewrite lookup_app_l by lia.
  - destruct (decide (j < Z.to_nat i)%nat).
    + rewrite lookup_app_l by lia. by rewrite lookup_take_lt by lia.
    + rewrite lookup_app_r by lia. rewrite lookup_app_r by lia. rewrite lookup_drop. f_equal. lia.
Qed.

(** A record with offset [idx] set. *)
Definition with_offset (r : list Z) (idx q31 : Z) : list Z := patch r (CAL_OFFSET_OFFSETS + idx * 4) (le 4 (u32 q31)).

Lemma len_le4 z : len (le 4 z) = 4.
Proof. unfold len. by rewrite length_le. Qed.

Lemma set_offset_eq r idx q : length r = 1024%nat -> 0 <= idx < 72 -> cal_set_offset r idx q = Ok (with_offset r idx q).
Proof.
  intros Hl Hi. unfold cal_set_offset, pack_u32_le, with_offset, CAL_OFFSET_OFFSETS. rewrite uwrap_small by (unfold is_u; width_lia).
  apply put_bytes_patch; [lia|]. rewrite len_le4. unfold len. lia.
Qed.

Lemma length_with_offset r idx q : length r = 1024%nat -> 0 <= idx < 72 -> length (with_offset r idx q) = 1024%nat.
Proof. intros Hl Hi. unfold with_offset, CAL_OFFSET_OFFSETS. rewrite length_patch; [done|lia|]. rewrite len_le4. unfold len. lia. Qed.

Lemma owp_put_offset idx q s (Q : unit -> js320_cal_s -> list report -> Prop) : length (ca_record s) = 1024%nat -> 0 <= idx < 72 ->
  Q tt (set_record s (with_offset (ca_record s) idx q)) [] -> owp (put_offset idx q) s Q.
Proof.
  intros Hl Hi HQ. apply owp_bind, owp_get, owp_bind. eapply owp_lift; [by apply set_offset_eq|]. by apply owp_modify.
Qed.

(** The settle time before the pass [pass] at a point runs. *)
Record settled (s0 : js320_cal_s) (f : flash_mem) (r : list Z) (pt : Z * Z) (pass : Z) (k : nat) (c : cfg) (s : js320_cal_s) : Prop := mk_settled {
  se_held : held s0 s;
  se_state : ca_state s = CAL_SWEEP_SETTLE;
  se_record : ca_record s = r;
  se_point : (sw_i_select (ca_sweep s), sw_i_mux (ca_sweep s)) = pt;
  se_pass : sw_pass (ca_sweep s) = pass;
  se_cfg : c = mk_cfg k f [] s;
}.

(** What the converters deliver during capture [k] is enough. *)
Definition supplied (n : Z) (k : nat) : Prop :=
  msgs_ok (adc k) /\ n <= len (stream 0 (adc k)) /\ (Nat.even k = true -> n <= len (stream 1 (adc k))).

Lemma stream_range i msgs : Forall in_i32 (stream i msgs).
Proof.
  unfold stream. induction msgs as [|[slot v] msgs IH]; [apply List.Forall_nil|]. cbn [flat_map]. apply Forall_app. split; [|done].
  unfold samples_of. case_if; [|apply List.Forall_nil]. destruct (object v); [apply msg_samples_range|apply List.Forall_nil].
Qed.

Definition captures (n : Z) (k : nat) (pass : Z) : adc_s :=
  acc n (if pass =? 0 then n else 0) (stream 0 (adc k)) (stream 1 (adc k)).

(** A timer and the samples of a capture: what comes after is [cal_current_after_capture]. *)
Lemma turn_capture s0 f r pt pass k c s (P : js320_cal_s -> list report -> Prop) : settled s0 f r pt pass k c s ->
  cr_op (ca_run s0) = JSDRV_CAL_OP_CURRENT_OFFSET -> is_u 32 (cr_samples_per_point (ca_run s0)) -> (pass = 0 -> Nat.even k = true) -> supplied (need_of s0) k ->
  (forall s1, held s0 s1 -> ca_record s1 = r -> (sw_i_select (ca_sweep s1), sw_i_mux (ca_sweep s1)) = pt -> sw_pass (ca_sweep s1) = pass ->
    ca_adc s1 = captures (need_of s0) k pass ->
    owp (cal_current_after_capture now) s1 (fun u s' rr => ca_state s' <> CAL_SWEEP_CAPTURE /\ P s' rr)) ->
  exists s' rr, P s' rr /\ turns 2 c = Ok (mk_cfg (S k) f (omap mem_of rr) s', List.filter not_mem rr).
Proof.
  intros [Hh Hst Er Ept Epass ->] Hop Hn Hev (Hm & Hs0 & Hs1) H. pose proof Hh as [Hd Hrun Hpri Hpend Hid].
  assert (0 < need_of s0 < 2 ^ 32) as Hneed by (unfold need_of, DEFAULT_SAMPLES_PER_POINT, is_u in *; case_if; width_lia).
  set (n1 := if pass =? 0 then need_of s0 else 0). set (s1 := set_state (set_adc s (acc (need_of s0) n1 [] [])) CAL_SWEEP_CAPTURE).
  assert (turns 1 (mk_cfg k f [] s) = Ok (mk_cfg k f [] s1, [])) as E1.
  { assert (owp (cal_step prefix C_timeout) s (fun _ s' rr => s' = s1 /\ rr = [])) as Hw.
    { cbn [cal_step]. apply owp_bind, owp_get. rewrite Hst. cbv zeta. rewrite Hrun, Hop. change (JSDRV_CAL_OP_CURRENT_OFFSET =? JSDRV_CAL_OP_CURRENT_OFFSET) with true. cbv iota.
      apply owp_bind, owp_get, owp_bind, owp_bind, owp_get, owp_modify, owp_modify. split; [|done]. subst s1 n1. rewrite Hrun, Epass. fold (need_of s0). unfold acc.
      rewrite !take_nil. change (len []) with 0. rewrite !Z.min_r by (repeat case_if; lia). done. }
    destruct (advance_owp k f [] _ _ _ Hw) as (s' & rr & [-> ->] & E). apply turns_one. unfold turn. cbn [cf_pend cf_s cf_k cf_flash]. rewrite Hst. exact E. }
  assert (owp (cal_steps prefix (adc_inputs (adc k))) s1 (fun _ => P)) as Hw.
  { eapply (owp_feed_all (adc k) s1 (need_of s0) n1 [] []); try done; try lia.
    - subst n1. case_if; lia.
    - unfold complete. change (len []) with 0. apply andb_false_iff. left. apply Z.leb_gt. lia.
    - unfold complete. apply andb_true_iff. split; apply Z.leb_le; [done|]. subst n1. case_if; [by apply Hs1, Hev|]. pose proof (len_nonneg ([] ++ stream 1 (adc k))). lia.
    - unfold after_capture. change (ca_run s1) with (ca_run s). rewrite Hrun, Hop. change (JSDRV_CAL_OP_CURRENT_OFFSET =? JSDRV_CAL_OP_CURRENT_OFFSET) with true. cbv iota.
      apply H; try done. }
  destruct (advance_owp (S k) f [] _ _ _ Hw) as (s' & rr & HP & E). exists s', rr. split; [done|]. change 2%nat with (1 + 1)%nat.
  rewrite <- (app_nil_l (List.filter not_mem rr)). apply (turns_trans _ _ _ 1 1 _ _ _ _ _ E1). apply turns_one. unfold turn. cbn [cf_pend cf_s cf_k cf_flash]. change (ca_state s1) with CAL_SWEEP_CAPTURE. exact E.
Qed.

(** The three means of point [k], and the record with them. *)
Definition mean0 (n : Z) (k : nat) : Z := mean_of n (stream 0 (adc (2 * k))).
Definition mean1 (n : Z) (k : nat) : Z := mean_of n (stream 1 (adc (2 * k))).
Definition mean2 (n : Z) (k : nat) : Z := mean_of n (stream 0 (adc (2 * k + 1))).
Definition with_pass0 (n : Z) (r : list Z) (k : nat) : list Z := with_offset (with_offset r (Z.of_nat k) (mean0 n k)) (24 + Z.of_nat k) (mean1 n k).
Definition with_point (n : Z) (r : list Z) (k : nat) : list Z := with_offset (with_pass0 n r k) (48 + Z.of_nat k) (mean2 n k).
(** The record after [k] points. *)
Fixpoint swept (n : Z) (r : list Z) (k : nat) : list Z :=
  match k with
  | O => r
  | S k => with_point n (swept n r k) k
  end.

Lemma swept_S n r k : swept n r (S k) = with_point n (swept n r k) k.
Proof. done. Qed.

Lemma length_pass0 n r k : length r = 1024%nat -> (k < 21)%nat -> length (with_pass0 n r k) = 1024%nat.
Proof. intros Hl Hk. unfold with_pass0. by repeat (rewrite length_with_offset by (rewrite ?length_with_offset by (lia || done); lia || done)). Qed.

Lemma length_point n r k : length r = 1024%nat -> (k < 21)%nat -> length (with_point n r k) = 1024%nat.
Proof. intros Hl Hk. unfold with_point. apply length_with_offset; [by apply length_pass0 | lia]. Qed.

Lemma length_swept n r k : length r = 1024%nat -> (k <= 21)%nat -> length (swept n r k) = 1024%nat.
Proof. intros Hl. induction k as [|k IH]; intros Hk; [done|]. cbn [swept]. apply length_point; [apply IH|]; lia. Qed.

Lemma owp_settle s (Q : unit -> js320_cal_s -> list report -> Prop) : ca_dev s = true -> Q tt (set_state s CAL_SWEEP_SETTLE) [] -> owp (cal_arm_settle now) s Q.
Proof. intros Hd HQ. apply owp_bind, owp_modify, owp_call; done. Qed.

Lemma owp_pass_config s (Q : unit -> js320_cal_s -> list report -> Prop) : ca_dev s = true -> Q tt (set_state s CAL_SWEEP_SETTLE) [] -> owp (cal_current_pass_config now) s Q.
Proof. intros Hd HQ. apply owp_bind, owp_get, owp_bind, owp_to_device; [done|done|]. by apply owp_settle. Qed.

Lemma owp_point_start s (Q : unit -> js320_cal_s -> list report -> Prop) : ca_dev s = true -> Q tt (set_state (set_pass s 0) CAL_SWEEP_SETTLE) [] -> owp (cal_current_point_start now) s Q.
Proof.
  intros Hd HQ. apply owp_bind, owp_bind, owp_get. do 3 (apply owp_bind, owp_to_device; [done|done|]). apply owp_to_device; [done|done|].
  apply owp_bind, owp_modify. by apply owp_pass_config.
Qed.

Section Sweep.
Context (s0 : js320_cal_s) (f : flash_mem).
Context (Hop : cr_op (ca_run s0) = JSDRV_CAL_OP_CURRENT_OFFSET) (Hn : is_u 32 (cr_samples_per_point (ca_run s0))).
Context (Hadc : forall k, (k < 42)%nat -> supplied (need_of s0) k).
Abbreviation n := (need_of s0).

Lemma need_pos : 0 < n < 2 ^ 32.
Proof. unfold need_of, DEFAULT_SAMPLES_PER_POINT, is_u in *. case_if; width_lia. Qed.

Lemma first_pass r k pt c s : settled s0 f r pt 0 (2 * k) c s -> points !! k = Some pt -> length r = 1024%nat ->
  exists c' s', turns 2 c = Ok (c', []) /\ settled s0 f (with_pass0 n r k) pt 1 (2 * k + 1) c' s'.
Proof.
  intros Hs Hk Hl. destruct pt as [i m]. destruct (point_at _ _ _ Hk) as (H1 & H2 & Hk21 & Ei & En). pose proof need_pos as Hn0.
  assert (Nat.even (2 * k) = true) as Hev by (rewrite Nat.even_mul; done). pose proof (Hadc (2 * k) ltac:(lia)) as Hsup. pose proof Hsup as (_ & L0 & L1). specialize (L1 Hev).
  destruct (turn_capture s0 f r (i, m) 0 (2 * k) c s (fun s' rr => rr = [] /\ held s0 s' /\ ca_state s' = CAL_SWEEP_SETTLE /\ ca_record s' = with_pass0 n r k
    /\ (sw_i_select (ca_sweep s'), sw_i_mux (ca_sweep s')) = (i, m) /\ sw_pass (ca_sweep s') = 1) Hs Hop Hn) as (s' & rr & (-> & Hh' & Hst' & Er' & Ept' & Ep') & E); try done.
  - intros s1 Hh Er Ept Ep Ea. injection Ept as E1 E2. pose proof Hh as [Hd _ _ _ _]. unfold cal_current_after_capture. apply owp_bind, owp_get. cbv zeta.
    rewrite E1, E2, Ep, Ea. apply owp_bind, (owp_lift _ _ _ _ Ei). unfold captures. cbn [Z.eqb].
    apply owp_bind. eapply owp_lift; [apply slot_mean_acc; [lia|apply stream_range]|]. apply owp_bind. eapply owp_lift; [apply slot_mean_acc1; [lia|apply stream_range]|].
    unfold CAL_POINTS_PER_CURRENT_CHAN. rewrite Z.mul_0_l, Z.mul_1_l, Z.add_0_l. apply owp_bind, owp_put_offset; [by rewrite Er|lia|].
    apply owp_bind, owp_put_offset; [cbn; rewrite Er; apply length_with_offset; [done|lia]|lia|]. apply owp_bind, owp_modify, owp_bind, owp_get, owp_bind, owp_status; [done|].
    apply owp_pass_config; [done|]. split; [done|]. split; [done|]. split; [by destruct Hh|]. split; [done|]. cbn [ca_record set_record set_state set_pass set_sweep]. rewrite Er.
    split; [done|]. cbn. by rewrite E1, E2.
  - eexists _, s'. split; [exact E|]. split; try done. by replace (S (2 * k)) with (2 * k + 1)%nat by lia.
Qed.

Lemma second_pass (P : js320_cal_s -> list report -> Prop) r k pt c s : settled s0 f (with_pass0 n r k) pt 1 (2 * k + 1) c s -> points !! k = Some pt -> length r = 1024%nat ->
  (forall s1, held s0 s1 -> ca_record s1 = with_point n r k -> owp (match points !! S k with
     | None => cal_stamp now ;; cal_begin_erase_active
     | Some (next_i, next_mux) => modify (fun s => set_point s next_i next_mux) ;; cal_current_point_start now
     end) s1 (fun _ s' rr => ca_state s' <> CAL_SWEEP_CAPTURE /\ P s' rr)) ->
  exists s' rr, P s' rr /\ turns 2 c = Ok (mk_cfg (2 * S k) f (omap mem_of rr) s', List.filter not_mem rr).
Proof.
  intros Hs Hk Hl H. destruct pt as [i m]. destruct (point_at _ _ _ Hk) as (H1 & H2 & Hk21 & Ei & En). pose proof need_pos as Hn0.
  pose proof (Hadc (2 * k + 1) ltac:(lia)) as Hsup. pose proof Hsup as (_ & L0 & _). replace (2 * S k)%nat with (S (2 * k + 1)) by lia.
  eapply turn_capture; [exact Hs|done|done|done|done|]. intros s1 Hh Er Ept Ep Ea. injection Ept as E1 E2. pose proof Hh as [Hd _ _ _ _].
  unfold cal_current_after_capture. apply owp_bind, owp_get. cbv zeta.
  rewrite E1, E2, Ep, Ea. apply owp_bind, (owp_lift _ _ _ _ Ei). unfold captures. cbn [Z.eqb].
  apply owp_bind. eapply owp_lift; [apply slot_mean_acc; [lia|apply stream_range]|]. apply owp_bind. eapply owp_lift; [reflexivity|].
  change (Z.pos 1 =? 0) with false. cbv iota. unfold CAL_POINTS_PER_CURRENT_CHAN. change (2 * 24) with 48.
  apply owp_bind, owp_put_offset; [rewrite Er; by apply length_pass0|lia|].
  apply owp_bind, owp_status; [done|]. apply owp_bind. eapply owp_lift; [exact En|]. rewrite Er. cbn [Datatypes.app].
  eapply owp_mono; [apply (H (set_record s1 (with_offset (with_pass0 n r k) (48 + Z.of_nat k) (mean2 n k)))); [by destruct Hh|done]|]. done.
Qed.

(** From one point to the next. *)
Lemma point_next r k pt pt' c s : settled s0 f r pt 0 (2 * k) c s -> points !! k = Some pt -> points !! S k = Some pt' -> length r = 1024%nat ->
  exists c' s', turns 4 c = Ok (c', []) /\ settled s0 f (with_point n r k) pt' 0 (2 * S k) c' s'.
Proof.
  intros Hs Hk Hk' Hl. destruct (first_pass r k pt c s Hs Hk Hl) as (c1 & s1 & E1 & H1). destruct pt' as [i' m'].
  destruct (second_pass (fun s' rr => rr = [] /\ held s0 s' /\ ca_state s' = CAL_SWEEP_SETTLE /\ ca_record s' = with_point n r k
    /\ (sw_i_select (ca_sweep s'), sw_i_mux (ca_sweep s')) = (i', m') /\ sw_pass (ca_sweep s') = 0) r k pt c1 s1 H1 Hk Hl) as (s2 & rr & (-> & Hh' & Hst' & Er' & Ept' & Ep') & E2).
  - intros s2 Hh Er. rewrite Hk'. pose proof Hh as [Hd _ _ _ _]. apply owp_bind, owp_modify, owp_point_start; [done|]. split; [done|]. split; [done|]. split; [by destruct Hh|]. done.
  - eexists _, s2. split; [exact (turns_trans _ _ _ 2 2 _ _ _ _ _ E1 E2)|]. by split.
Qed.

(** The first twenty points. *)
Lemma sweep_upto r k c s : settled s0 f r (0, 0) 0 0 c s -> length r = 1024%nat -> (k <= 20)%nat ->
  exists pt c' s', points !! k = Some pt /\ turns (4 * k) c = Ok (c', []) /\ settled s0 f (swept n r k) pt 0 (2 * k) c' s'.
Proof.
  intros Hs Hl. induction k as [|k IH]; intros Hk; [by exists (0, 0), c, s|]. destruct IH as (pt & c1 & s1 & Ept & E1 & H1); [lia|].
  destruct (lookup_lt_is_Some_2 points (S k)) as [pt' Ept']; [change (length points) with 21%nat; lia|].
  destruct (point_next (swept n r k) k pt pt' c1 s1 H1 Ept Ept') as (c2 & s2 & E2 & H2); [apply length_swept; [done|lia]|].
  exists pt', c2, s2. split; [done|]. split; [|done]. replace (4 * S k)%nat with (4 * k + 4)%nat by lia. exact (turns_trans _ _ _ (4 * k) 4 _ _ _ _ _ E1 E2).
Qed.

(** The whole sweep: eighty-four turns, and the signed record is on its way to the active slot. *)
Lemma sweep_all r c s rec : settled s0 f r (0, 0) 0 0 c s -> length r = 1024%nat -> cal_stamp_signature_and_check now (swept n r 21) = Ok rec ->
  exists c' s', turns 84 c = Ok (c', []) /\ erasing s0 f (24 * 65536) rec 42 c' s'.
Proof.
  intros Hs Hl Hrec. rewrite (swept_S n r 20) in Hrec. destruct (sweep_upto r 20 c s Hs Hl) as (pt & c1 & s1 & Ept & E1 & H1); [lia|].
  destruct (first_pass (swept n r 20) 20 pt c1 s1 H1 Ept) as (c2 & s2 & E2 & H2); [apply length_swept; [done|lia]|].
  destruct (second_pass (fun s' rr => rr = [RMem (mem_cmd s' MB_STDMSG_MEM_OP_ERASE ERASE_OP_TIMEOUT_MS (24 * 65536) FLASH_BLOCK_SIZE [])] /\ held s0 s' /\ ca_state s' = CAL_ERASE
    /\ ca_record s' = rec /\ fl_offset_base (ca_flash s') = 24 * 65536) (swept n r 20) 20 pt c2 s2 H2 Ept) as (s3 & rr & (-> & Hh' & Hst' & Er' & Eb') & E3); [apply length_swept; [done|lia]| |].
  - intros s3 Hh Er. change (points !! 21%nat) with (@None (Z * Z)). cbv iota. pose proof Hh as [Hd _ _ _ _]. apply owp_bind, owp_bind, owp_get, owp_bind.
    rewrite Er. eapply owp_lift; [exact Hrec|]. apply owp_modify, owp_bind, owp_modify, owp_bind, (owp_lift _ (24 * 65536)); [done|].
    apply owp_bind, owp_modify, owp_bind, owp_status; [done|]. apply owp_bind, owp_get, owp_mem_op; [done|done|done|done|]. split; [done|]. split; [done|]. split; [|done].
    apply held_sent. by destruct Hh.
  - eexists _, s3. split; [|by split]. exact (turns_trans _ _ _ 80 4 _ _ _ _ _ E1 (turns_trans _ _ _ 2 2 _ _ _ _ _ E2 E3)).
Qed.
End Sweep.
End Phases.

(** ** Records, byte by byte *)

Lemma seg_ext (l l' : list Z) k n : (forall t, (k <= t < k + n)%nat -> l !! t = l' !! t) -> take n (drop k l) = take n (drop k l').
Proof.
  intros H. apply list_eq. intros t. destruct (decide (t < n)%nat) as [Ht|Ht].
  - rewrite !lookup_take_lt, !lookup_drop by lia. apply H. lia.
  - rewrite !lookup_ge_None_2; [done| |]; rewrite length_take; lia.
Qed.

Lemma ld_le_ext (l l' : list Z) i : 0 <= i -> len l = len l' -> (forall t, (Z.to_nat i <= t < Z.to_nat i + 4)%nat -> l !! t = l' !! t) -> ld_le 4 l i = ld_le 4 l' i.
Proof. intros Hi HL H. unfold ld_le. rewrite HL. destruct (_ && _); [|done]. by rewrite (seg_ext l l' _ 4 H). Qed.

Lemma patch_other r i b j : 0 <= i -> i + len b <= len r -> (j < Z.to_nat i \/ Z.to_nat (i + len b) <= j)%nat -> patch r i b !! j = r !! j.
Proof. intros Hi Hl Hj. rewrite patch_lookup by done. by rewrite decide_False by lia. Qed.

Lemma patch_word r i z : 0 <= i -> i + 4 <= len r -> is_u 32 z -> ld_le 4 (patch r i (le 4 z)) i = Ok z.
Proof.
  intros Hi Hl Hz. unfold ld_le. assert (len (patch r i (le 4 z)) = len r) as -> by (unfold len in *; rewrite length_patch; [done|done|rewrite len_le4; unfold len; lia]).
  simpl_cmp. cbn [andb]. f_equal. unfold patch. rewrite drop_app_length' by (unfold len in *; rewrite length_take; lia).
  rewrite take_app_length' by (by rewrite length_le). by apply un_le_le.
Qed.

Lemma rec_words_ext n r r' i : 0 <= i -> len r = len r' -> (forall t, (Z.to_nat i <= t < Z.to_nat i + 4 * n)%nat -> r !! t = r' !! t) -> rec_words n r i = rec_words n r' i.
Proof.
  revert i; induction n as [|n IH]; intros i Hi HL H; [done|]. cbn [rec_words]. rewrite (ld_le_ext r r' i) by (done || (intros; apply H; lia)).
  rewrite (IH (i + 4)); [done|lia|done|]. intros t Ht. apply H. lia.
Qed.

(** The bytes that [cal_stamp_signature_and_check] writes. *)
Definition stamped (j : nat) : Prop := (32 <= j < 40 \/ 952 <= j < 1016 \/ 1020 <= j < 1024)%nat.

Lemma stamp_spec now r : length r = 1024%nat -> take 16 r = CAL_HEADER_MAGIC ->
  exists rec, cal_stamp_signature_and_check now r = Ok rec /\ length rec = 1024%nat /\ cal_validate rec = Ok 0 /\ forall j, ~ stamped j -> rec !! j = r !! j.
Proof.
  intros Hl Hmagic. unfold cal_stamp_signature_and_check, pack_i64_le, pack_u32_le, CAL_OFFSET_CREATE_TIME, CAL_OFFSET_SIGNATURE, CAL_OFFSET_SIGNATURE_SIZE, CAL_OFFSET_CHECK32.
  set (sg := JSDRV_CAL_SIGNATURE_MAGIC). assert (len r = 1024) as HL by (unfold len; lia).
  assert (len (le 8 (u64 now)) = 8) as L1 by (unfold len; by rewrite length_le). rewrite put_bytes_patch, bind_Ok by (rewrite ?L1; lia). set (r1 := patch r 32 _).
  assert (len r1 = 1024) as HL1 by (subst r1; unfold len; rewrite length_patch; lia).
  assert (len (replicate (Z.to_nat 64) 0) = 64) as L2 by done. rewrite put_bytes_patch, bind_Ok by (rewrite ?L2; lia). set (r2 := patch r1 952 _).
  assert (len r2 = 1024) as HL2 by (subst r2; unfold len; rewrite length_patch; unfold len in *; lia).
  assert (len sg = 16) as L3 by done. rewrite put_bytes_patch, bind_Ok by (rewrite ?L3; lia). set (r3 := patch r2 952 _).
  assert (len r3 = 1024) as HL3 by (subst r3; unfold len; rewrite length_patch; unfold len in *; lia).
  assert (len (le 4 JSDRV_VERSION_U32) = 4) as L4 by done. rewrite put_bytes_patch, bind_Ok by (rewrite ?L4; lia). set (r4 := patch r3 (952 + 16) _).
  assert (len r4 = 1024) as HL4 by (subst r4; unfold len; rewrite length_patch; unfold len in *; lia).
  destruct (rec_check_ok r4) as (ck & Eck & Hck); [unfold len in HL4; lia|]. rewrite Eck, bind_Ok.
  pose proof (len_le4 ck) as L5. rewrite put_bytes_patch by (rewrite ?L5; lia). set (r5 := patch r4 1020 _).
  assert (len r5 = 1024) as HL5 by (subst r5; unfold len; rewrite length_patch; unfold len in *; lia).
  assert (forall j, ~ stamped j -> r5 !! j = r !! j) as Hother.
  { intros j Hj. unfold stamped in Hj. subst r5. rewrite patch_other by lia. subst r4. rewrite patch_other by lia. subst r3. rewrite patch_other by lia.
    subst r2. rewrite patch_other by (try lia). subst r1. rewrite patch_other by lia. done. }
  exists r5. split; [done|]. split; [unfold len in HL5; lia|]. split; [|done].
  unfold cal_validate, mem_eq. rewrite HL5. change (len CAL_HEADER_MAGIC) with 16. cbn [Z.leb andb Z.compare Pos.compare Pos.compare_cont]. rewrite bind_Ok.
  assert (take (Z.to_nat 16) r5 = take (Z.to_nat 16) CAL_HEADER_MAGIC) as ->.
  { change (take (Z.to_nat 16) CAL_HEADER_MAGIC) with CAL_HEADER_MAGIC. rewrite <- Hmagic. change (Z.to_nat 16) with 16%nat.
    rewrite <- (drop_0 r5), <- (drop_0 r) at 1. apply seg_ext. intros t Ht. apply Hother. unfold stamped. lia. }
  rewrite bool_decide_eq_true_2 by done. cbn [negb]. unfold CAL_OFFSET_CHECK32. subst r5. rewrite patch_word by (lia || done). rewrite bind_Ok.
  assert (rec_check (patch r4 1020 (le 4 ck)) = rec_check r4) as ->.
  { unfold rec_check. rewrite (rec_words_ext 255 _ r4 0); [done|lia|lia|]. intros t Ht. apply patch_other; lia. }
  rewrite Eck, bind_Ok, Z.eqb_refl. done.
Qed.

(** ** The offsets of a swept record *)

Definition offset_at (r : list Z) (idx : Z) : res Z := ld_le 4 r (CAL_OFFSET_OFFSETS + idx * 4).

Lemma with_offset_at r i j q : length r = 1024%nat -> 0 <= i < 72 -> 0 <= j < 72 -> offset_at (with_offset r i q) j = if i =? j then Ok (u32 q) else offset_at r j.
Proof.
  intros Hl Hi Hj. assert (len r = 1024) as HL by (unfold len; lia). unfold offset_at, with_offset, CAL_OFFSET_OFFSETS. destruct (i =? j) eqn:E; bool_facts; subst.
  - apply patch_word; [lia|lia|]. by apply uwrap_range.
  - pose proof (len_le4 (u32 q)) as L. apply ld_le_ext; [lia|unfold len; rewrite length_patch; lia|]. intros t Ht. apply patch_other; lia.
Qed.

Lemma with_offset_other r i q t : length r = 1024%nat -> 0 <= i < 72 -> ~ (88 + 4 * i <= Z.of_nat t < 88 + 4 * i + 4) -> with_offset r i q !! t = r !! t.
Proof.
  intros Hl Hi Ht. assert (len r = 1024) as HL by (unfold len; lia). unfold with_offset, CAL_OFFSET_OFFSETS. pose proof (len_le4 (u32 q)). apply patch_other; lia.
Qed.

(** Index of channel [ch] at point [k], and the mean that belongs there. *)
Definition point_idx (ch k : nat) : Z := 24 * Z.of_nat ch + Z.of_nat k.
Definition point_mean (adc : nat -> list (Z * jsdrv_union_s)) (n : Z) (ch k : nat) : Z :=
  match ch with O => mean0 adc n k | S O => mean1 adc n k | _ => mean2 adc n k end.

Lemma swept_offsets adc n r m ch k : length r = 1024%nat -> (k < m <= 21)%nat -> (ch < 3)%nat ->
  offset_at (swept adc n r m) (point_idx ch k) = Ok (u32 (point_mean adc n ch k)).
Proof.
  intros Hl. induction m as [|m IH]; intros Hk Hch; [lia|]. rewrite swept_S. pose proof (length_swept adc n r m Hl ltac:(lia)) as Hm.
  pose proof (length_pass0 adc n _ m Hm ltac:(lia)) as Hm0. unfold with_point, point_idx.
  rewrite with_offset_at by (done || lia). unfold with_pass0.
  rewrite with_offset_at by (lia || (apply length_with_offset; [done|lia])). rewrite with_offset_at by (done || lia).
  destruct (decide (k = m)) as [->|Hne].
  - destruct ch as [|[|[|ch]]]; [| | |lia]; cbn [point_mean]; simpl_cmp; try done.
    all: repeat match goal with |- context [?a =? ?b] => destruct (a =? b) eqn:?; bool_facts; try lia end; done.
  - repeat match goal with |- context [?a =? ?b] => destruct (a =? b) eqn:?; bool_facts; try lia end. apply IH; lia.
Qed.

(** The bytes of the measured offsets. *)
Definition measured (t : nat) : Prop := exists ch k, (ch < 3)%nat /\ (k < 21)%nat /\ 88 + 4 * point_idx ch k <= Z.of_nat t < 88 + 4 * point_idx ch k + 4.

Lemma swept_other adc n r m t : length r = 1024%nat -> (m <= 21)%nat -> ~ measured t -> swept adc n r m !! t = r !! t.
Proof.
  intros Hl Hm Ht. induction m as [|m IH]; [done|]. rewrite swept_S. pose proof (length_swept adc n r m Hl ltac:(lia)) as Lm.
  pose proof (length_pass0 adc n _ m Lm ltac:(lia)) as Lm0. unfold with_point, with_pass0.
  assert (forall ch, (ch < 3)%nat -> ~ (88 + 4 * point_idx ch m <= Z.of_nat t < 88 + 4 * point_idx ch m + 4)) as Hch.
  { intros ch Hch Hin. apply Ht. exists ch, m. split; [done|]. split; [lia|done]. }
  pose proof (Hch 0%nat ltac:(lia)) as C0. pose proof (Hch 1%nat ltac:(lia)) as C1. pose proof (Hch 2%nat ltac:(lia)) as C2. unfold point_idx in *.
  rewrite with_offset_other by (done || lia). rewrite with_offset_other by (lia || (apply length_with_offset; [done|lia])).
  rewrite with_offset_other by (done || lia). apply IH. lia.
Qed.

Lemma swept_head adc n r m : length r = 1024%nat -> (m <= 21)%nat -> take 16 (swept adc n r m) = take 16 r.
Proof.
  intros Hr Hm. apply (seg_ext (swept adc n r m) r 0 16). intros t Ht. apply swept_other; [done|done|].
  intros (ch & k & ? & ? & ?). unfold point_idx in *. lia.
Qed.

(** ** A current offset command *)

(** A well-formed command value. *)
Record is_cmd (v : jsdrv_union_s) (cmd : jsdrv_cal_cmd_s) : Prop := mk_is_cmd {
  ic_type : type v = JSDRV_UNION_BIN;
  ic_size : CAL_CMD_SIZE <= size v;
  ic_parse : exists m, object v = Ok m /\ cmd_parse m = Ok cmd;
  ic_samples : is_u 32 (cmd_samples_per_point cmd);
}.

Definition disabled (prefix : string) : list report :=
  map (fun t => RHost (device_topic prefix t) (jsdrv_union_u32_r 0)) (drop (Z.to_nat SAVE_STREAM_BEGIN) SAVE_TOPICS).

(** The state that the command leaves. *)
Definition started (s : js320_cal_s) (cmd : jsdrv_cal_cmd_s) : js320_cal_s :=
  set_state (set_prior (set_stream (set_prior (set_cmd_id (set_run s (mk_run (cmd_op cmd) (cmd_transaction_id cmd) (cmd_src_slot cmd) (cmd_dst_slot cmd)
    (cmd_samples_per_point cmd))) 0) (ca_prior s) false) false (ca_stream_dual s)) (ca_saved s) true) CAL_DISABLE_SETTLE.

Section Current.
Context (prefix : string) (now : Z) (adc : nat -> list (Z * jsdrv_union_s)).
Context (s : js320_cal_s) (cmd : jsdrv_cal_cmd_s) (f : flash_mem).
Context (Hst : ca_state s = CAL_IDLE) (Hd : ca_dev s = true) (Hb : base_ok s).
Context (Hop : cmd_op cmd = JSDRV_CAL_OP_CURRENT_OFFSET) (Hsam : is_u 32 (cmd_samples_per_point cmd)).

Lemma owp_disable s1 (Q : unit -> js320_cal_s -> list report -> Prop) : ca_dev s1 = true -> Q tt s1 (disabled prefix) -> owp (cal_streams_disable prefix) s1 Q.
Proof.
  intros Hd1. unfold cal_streams_disable, disabled. generalize (drop (Z.to_nat SAVE_STREAM_BEGIN) SAVE_TOPICS) as ts. intros ts. revert Q.
  induction ts as [|t ts IH]; intros Q HQ; [by apply owp_ret|]. apply owp_bind, owp_call; [done|]. apply IH. exact HQ.
Qed.

Lemma start_current v : is_cmd v cmd ->
  owp (js320_cal_handle_cmd prefix now "h/cal/!cmd" v) s (fun b s' rr => b = true /\ s' = started s cmd /\ rr = disabled prefix).
Proof.
  intros [Ht Hsz (m & Em & Ecm) _]. unfold js320_cal_handle_cmd. change (0 <=? save_index "h/cal/!cmd") with false. cbv zeta. cbv iota.
  change (negb (String.eqb "h/cal/!cmd" "h/cal/!cmd")) with false. cbv iota. apply owp_bind, owp_get. rewrite bool_decide_eq_true_2 by done. cbn [negb].
  rewrite Ht. change (JSDRV_UNION_BIN =? JSDRV_UNION_BIN) with true. simpl_cmp. cbn [negb orb]. apply owp_bind, (owp_lift _ m); [done|].
  apply owp_bind, (owp_lift _ cmd); [done|]. apply owp_bind. unfold cal_start. apply owp_bind, owp_modify, owp_bind, owp_modify. rewrite Hop. cbv zeta.
  change (JSDRV_CAL_OP_CURRENT_OFFSET =? JSDRV_CAL_OP_SLOT_READ) with false. change (JSDRV_CAL_OP_CURRENT_OFFSET =? JSDRV_CAL_OP_SLOT_COPY) with false.
  change (JSDRV_CAL_OP_CURRENT_OFFSET =? JSDRV_CAL_OP_CURRENT_OFFSET) with true. cbn [orb]. cbv iota.
  apply owp_bind, owp_modify, owp_bind, owp_disable; [done|]. apply owp_bind, owp_modify, owp_bind, owp_status; [done|]. apply owp_call; [done|].
  apply owp_ret. split; [done|]. split; [|by rewrite !app_nil_r]. unfold started. by rewrite Hop.
Qed.

Abbreviation s0 := (started s cmd).
Abbreviation base := (24 * 65536).

Lemma started_held : held s0 s0.
Proof. by split. Qed.

(** The settle time is over: the active record is read. *)
Lemma disable_over : exists c1 s1, turns prefix now adc 1 (mk_cfg 0 f [] s0) = Ok (c1, []) /\ reading s0 f base (ca_record s) 0 0 c1 s1.
Proof.
  set (s1 := sent_op (set_page (set_base (set_state s0 CAL_READ) base) 0 FLASH_PAGES_PER_RECORD)).
  assert (owp (cal_step prefix C_timeout) s0 (fun _ s' rr => s' = s1 /\ rr = [RMem (mem_cmd s' MB_STDMSG_MEM_OP_READ MEM_OP_TIMEOUT_MS (base + 0 * 256) 256 [])])) as Hw.
  { cbn [cal_step]. apply owp_bind, owp_get. change (ca_state s0) with CAL_DISABLE_SETTLE. cbv iota. apply owp_bind, owp_modify, owp_bind, (owp_lift _ base); [done|].
    apply owp_bind, owp_modify, owp_bind, owp_status; [done|]. apply (owp_read_page base 0); try done. apply writable_slots. left. }
  destruct (advance_owp 0 f [] _ _ _ Hw) as (s' & rr & [-> ->] & E). eexists _, s1. split; [apply turns_one; exact E|].
  by split.
Qed.

(** The last page: the record is valid and the sweep starts. *)
Lemma sweep_starts c1 s1 : reading s0 f base (ca_record s) 3 0 c1 s1 -> cal_validate (rec_of f base) = Ok 0 ->
  exists c2 s2, turns prefix now adc 1 c1 = Ok (c2, []) /\ settled s0 f (rec_of f base) (0, 0) 0 0 c2 s2.
Proof.
  intros Hr Hval. pose proof Hr as [Hh Hst1 [Ep Ec] Eb Er Hs _]. pose proof Hh as [Hd1 Hrun _ _ _]. pose proof (ok_record _ Hb) as Hl.
  assert (base ∈ slots) as Hin by (apply writable_slots; left).
  assert (read_upto f base (ca_record s) (3 + 1) = rec_of f base) as Efull.
  { unfold read_upto. change (Z.to_nat (256 * (3 + 1))) with 1024%nat. rewrite (drop_ge (ca_record s)) by lia. rewrite app_nil_r. apply take_ge.
    pose proof (len_flash_read f base 1024 ltac:(lia)) as L. unfold rec_of, len in *. lia. }
  destruct (turn_read prefix now adc s0 f base (ca_record s) 3 0 c1 s1 (fun s' rr => rr = [] /\ held s0 s' /\ ca_state s' = CAL_SWEEP_SETTLE /\ ca_record s' = rec_of f base
    /\ (sw_i_select (ca_sweep s'), sw_i_mux (ca_sweep s')) = (0, 0) /\ sw_pass (ca_sweep s') = 0) Hr Hin) as (s2 & rr & (-> & Hh' & Hst' & Er' & Ept' & Ep') & E); [lia| |].
  - eapply owp_read_done; [exact Hr|lia|done|]. cbv zeta. change (3 + 1 <? 4) with false. cbv iota. rewrite Efull.
    change (ca_run (page_read s1 (rec_of f base) 3)) with (ca_run s1). rewrite Hrun. cbn [started ca_run set_state set_prior set_stream set_cmd_id set_run set_flash cr_op]. rewrite Hop.
    change (JSDRV_CAL_OP_CURRENT_OFFSET =? JSDRV_CAL_OP_SLOT_READ) with false. change (JSDRV_CAL_OP_CURRENT_OFFSET =? JSDRV_CAL_OP_SLOT_COPY) with false.
    change (JSDRV_CAL_OP_CURRENT_OFFSET =? JSDRV_CAL_OP_CURRENT_OFFSET) with true. cbv iota. apply owp_bind, owp_get, owp_bind, (owp_lift _ 0); [exact Hval|].
    cbn [Z.eqb negb]. apply owp_bind, owp_to_device; [done|done|]. apply owp_bind. unfold cal_stream_setup. apply owp_bind, owp_modify, owp_bind, owp_call; [done|].
    apply owp_bind, owp_to_device; [done|done|]. apply owp_bind, owp_to_device; [done|done|]. apply owp_bind, owp_call; [done|]. apply owp_to_device; [done|done|].
    apply owp_bind, owp_modify, owp_bind, owp_status; [done|]. apply owp_point_start; [done|]. split; [done|]. split; [|done]. by destruct Hh.
  - eexists _, s2. split; [exact E|]. by split.
Qed.
End Current.

Lemma validate_magic r : cal_validate r = Ok 0 -> take 16 r = CAL_HEADER_MAGIC.
Proof.
  unfold cal_validate. intros H. apply res_bind_Ok in H as (same & E & H). unfold mem_eq in E. destruct (_ && _); [|done]. injection E as <-.
  case_bool_decide as Hm; [exact Hm|]. done.
Qed.


(** ** Example *)

Definition ex_cal : js320_cal_s := set_dev js320_cal_alloc true.

(** A stream message with one sample. *)
Definition ex_msg (x : Z) : list Z := [1] ++ replicate 18 0 ++ [32] ++ le 4 1 ++ replicate 32 0 ++ le 4 (u32 x).
Definition ex_adc (k : nat) : list (Z * jsdrv_union_s) :=
  [(1, Js320Cal.jsdrv_union_bin (ex_msg (-5))); (0, Js320Cal.jsdrv_union_bin (ex_msg (Z.of_nat k)))].

Definition ex_record : list Z := match cal_stamp_signature_and_check 0 (CAL_HEADER_MAGIC ++ replicate 1008 0) with Ok r => r | Fault _ => [] end.
Definition ex_flash : flash_mem := fun a => nth (Z.to_nat (a - 24 * 65536)) ex_record 0xFF.

Lemma ex_valid : cal_validate (rec_of ex_flash (24 * 65536)) = Ok 0.
Proof. vm_compute. reflexivity. Qed.

Lemma ex_msg_ok slot x : slot = 0 \/ slot = 1 -> adc_msg_ok slot (Js320Cal.jsdrv_union_bin (ex_msg x)) (ex_msg x).
Proof.
  intros Hs. split; try done. split; [done|]. intros c Hc. change (sig_element_count (ex_msg x)) with (Ok 1 : res Z) in Hc. injection Hc as <-. done.
Qed.

Lemma ex_supplied k : supplied ex_adc 1 k.
Proof.
  split; [|split; [done|done]]. apply List.Forall_cons; [eexists; apply ex_msg_ok; lia|]. apply List.Forall_cons; [eexists; apply ex_msg_ok; lia|]. apply List.Forall_nil.
Qed.

Definition ex_command : jsdrv_cal_cmd_s := mk_cmd 77 JSDRV_CAL_OP_CURRENT_OFFSET 0 0 1.
Definition ex_value : jsdrv_union_s := ex_cmd 77 JSDRV_CAL_OP_CURRENT_OFFSET 0 0 1.


(** What that run measures at the first point, first channel, and at the last point, third channel. *)
Example ex_means : point_mean ex_adc 1 0 0 = 0 /\ point_mean ex_adc 1 1 0 = -5 /\ point_mean ex_adc 1 2 20 = 41.
Proof. by vm_compute. Qed.
