(* ===== verification/Js320Drv.v ===== *)
(** * The JS320 driver (src/devices/js320/js320_drv.c)

    The driver of the JS320 between the generic MiniBitty device and the host.  It collects the
    frames of each stream into messages, applies the scales and, below 1 kHz, a decimating filter,
    computes power from current and voltage at the full rate, translates sample rates to the
    registers of the instrument and hides the samples around a change of rate; commands and
    publishes that are not its own go to the calibration, the firmware update and the JTAG parts.

    The calls into the device layer and into the parts are the values of [drv_action].  What the
    device layer answers is [mb_dev_s].  [self->dev] and [self->identity] are not read by this file.
    The payload of a frame is scaled in place there; here the scaled samples are a list. *)

From Stdlib Require Import Strings.String.
From S2P Require Import Prelude Cstr ErrorCode Topic Float Time I128 SampleBuffer DownsampleSinc DeviceStats.
From S2P Require Import Effect MbDev Jtag Fwup BufferSignal Union Js320Cal.

Definition JS320_PUB_RATE_DEFAULT : Z := 20.
Definition JS320_FS_DEFAULT : Z := 1000000.
Definition JS320_CH_COUNT : Z := 16.
Definition JS320_NATIVE_RATE : Z := 16000000.
Definition JS320_DECIMATE : Z := 16.
Definition JSDRV_STREAM_DATA_SIZE : Z := 1024 * 256.
Definition JS320_STREAM_PAYLOAD_FULL : Z := JSDRV_STREAM_DATA_SIZE - JSDRV_STREAM_HEADER_SIZE - 1024.
Definition JS320_DEFAULT_SIGNAL_DWN_N : Z := 0.
Definition JS320_DEFAULT_SIGNAL_DWN_MODE : Z := 1.
Definition JS320_DEFAULT_GPI_DWN_MODE : Z := 2.
Definition JS320_DEFAULT_GPI_DWN_N : Z := 16.
Definition JS320_SIGNAL_RATE_AFTER_DECIMATE : Z := 1000000.
Definition JS320_MIN_ON_INSTRUMENT_FS : Z := JS320_SIGNAL_RATE_AFTER_DECIMATE / 1000.
Definition JS320_DWNN_ACK_TIMEOUT : Z := 2 * JSDRV_TIME_SECOND.
Definition JS320_SENSOR_READY_TIMEOUT_NS : Z := JSDRV_TIME_SECOND / 2.
Definition JS320_CTRL_UNKNOWN : Z := 0xFF.

Definition JS320_GROUP_NONE : Z := 0.
Definition JS320_GROUP_IVP : Z := 1.
Definition JS320_GROUP_GPIT : Z := 2.

Definition JSDRV_DATA_TYPE_INT : Z := 2.
Definition JSDRV_FIELD_CURRENT : Z := 1.
Definition JSDRV_FIELD_VOLTAGE : Z := 2.
Definition JSDRV_FIELD_POWER : Z := 3.
Definition JSDRV_FIELD_RANGE : Z := 4.
Definition JSDRV_FIELD_GPI : Z := 5.
Definition JSDRV_FIELD_UART : Z := 6.
Definition JSDRV_FIELD_RAW : Z := 7.

(** ** Channels *)

(** A topic that is NULL is [None]. *)
Record js320_port_def_s := mk_def {
  pd_data_topic : option string;
  pd_ctrl_topic : option string;
  pd_field_id : Z;            (* uint8_t *)
  pd_index : Z;               (* uint8_t *)
  pd_element_type : Z;        (* uint8_t *)
  pd_element_size_bits : Z;   (* uint8_t *)
  pd_group : Z;               (* uint8_t *)
  pd_samples_per_u32 : Z;     (* uint8_t *)
  pd_sample_rate : Z;         (* uint32_t *)
  pd_decimate_factor : Z;     (* uint32_t *)
}.

Definition unused_def : js320_port_def_s := mk_def None None 0 0 0 0 0 0 0 0.

Definition PORT_DEFS : list js320_port_def_s := [
  mk_def (Some "s/adc/0/!data") (Some "s/adc/0/ctrl") JSDRV_FIELD_RAW 0x00 JSDRV_DATA_TYPE_INT 32 JS320_GROUP_NONE 1 JS320_NATIVE_RATE JS320_DECIMATE;
  mk_def (Some "s/adc/1/!data") (Some "s/adc/1/ctrl") JSDRV_FIELD_RAW 0x10 JSDRV_DATA_TYPE_INT 32 JS320_GROUP_NONE 1 JS320_NATIVE_RATE JS320_DECIMATE;
  mk_def (Some "s/i/range/!data") (Some "s/i/range/ctrl") JSDRV_FIELD_RANGE 0 JSDRV_DATA_TYPE_UINT 4 JS320_GROUP_NONE 8 JS320_NATIVE_RATE JS320_DECIMATE;
  unused_def;
  unused_def;
  mk_def (Some "s/i/!data") (Some "s/i/ctrl") JSDRV_FIELD_CURRENT 0 JSDRV_DATA_TYPE_FLOAT 32 JS320_GROUP_IVP 1 JS320_NATIVE_RATE JS320_DECIMATE;
  mk_def (Some "s/v/!data") (Some "s/v/ctrl") JSDRV_FIELD_VOLTAGE 0 JSDRV_DATA_TYPE_FLOAT 32 JS320_GROUP_IVP 1 JS320_NATIVE_RATE JS320_DECIMATE;
  mk_def (Some "s/p/!data") (Some "s/p/ctrl") JSDRV_FIELD_POWER 0 JSDRV_DATA_TYPE_FLOAT 32 JS320_GROUP_IVP 1 JS320_NATIVE_RATE JS320_DECIMATE;
  mk_def (Some "s/gpi/0/!data") (Some "s/gpi/0/ctrl") JSDRV_FIELD_GPI 0 JSDRV_DATA_TYPE_UINT 1 JS320_GROUP_GPIT 32 JS320_NATIVE_RATE JS320_DECIMATE;
  mk_def (Some "s/gpi/1/!data") (Some "s/gpi/1/ctrl") JSDRV_FIELD_GPI 1 JSDRV_DATA_TYPE_UINT 1 JS320_GROUP_GPIT 32 JS320_NATIVE_RATE JS320_DECIMATE;
  mk_def (Some "s/gpi/2/!data") (Some "s/gpi/2/ctrl") JSDRV_FIELD_GPI 2 JSDRV_DATA_TYPE_UINT 1 JS320_GROUP_GPIT 32 JS320_NATIVE_RATE JS320_DECIMATE;
  mk_def (Some "s/gpi/3/!data") (Some "s/gpi/3/ctrl") JSDRV_FIELD_GPI 3 JSDRV_DATA_TYPE_UINT 1 JS320_GROUP_GPIT 32 JS320_NATIVE_RATE JS320_DECIMATE;
  mk_def (Some "s/gpi/7/!data") (Some "s/gpi/7/ctrl") JSDRV_FIELD_GPI 7 JSDRV_DATA_TYPE_UINT 1 JS320_GROUP_GPIT 32 JS320_NATIVE_RATE JS320_DECIMATE;
  mk_def (Some "s/uart/!data") None JSDRV_FIELD_UART 0 JSDRV_DATA_TYPE_UINT 8 JS320_GROUP_NONE 4 0 1;
  unused_def;
  unused_def]%string.

(** A stream message: its topic and the signal in its payload.  The size of its value is that of the header and of the data. *)
Record stream_msg_s := mk_stream_msg { sm_topic : cstr; sm_signal : jsdrv_stream_signal_s }.

Record js320_port_s := mk_port {
  po_msg_in : option stream_msg_s;
  po_sample_id_next : Z;      (* uint64_t *)
  po_current_index : Z;       (* uint8_t *)
  po_enabled : bool;
  po_host_filter : option jsdrv_downsample_sinc_s;
  po_filter_in_next : Z;      (* uint64_t *)
}.

Definition port_clear : js320_port_s := mk_port None 0 0 false None 0.

(** ** Metadata *)

(** The texts of the source, with an apostrophe for each quotation mark. *)
Definition json_text (s : string) : cstr := (fun c => if c =? 39 then 34 else c) <$> str s.

Definition js320_sampling_frequency_meta : cstr := json_text (
  "{'dtype': 'u32','brief': 'The sampling frequency.','default': 1000000,'options': [" ++
  "[1000000, '1 MHz'],[200000, '200 kHz'],[100000, '100 kHz'],[50000, '50 kHz'],[20000, '20 kHz'],[10000, '10 kHz']," ++
  "[5000, '5 kHz'],[2000, '2 kHz'],[1000, '1 kHz'],[500, '500 Hz'],[200, '200 Hz'],[100, '100 Hz'],[50, '50 Hz'],[20, '20 Hz']," ++
  "[10, '10 Hz'],[5, '5 Hz'],[2, '2 Hz'],[1, '1 Hz']]}")%string.

Definition js320_publish_rate_meta : cstr := json_text (
  "{'dtype': 'u32','brief': 'The approximate sample publish frequency.','default': 20,'options': [" ++
  "[100000, '100 kHz'],[50000, '50 kHz'],[20000, '20 kHz'],[10000, '10 kHz'],[5000, '5 kHz'],[2000, '2 kHz'],[1000, '1 kHz']," ++
  "[500, '500 Hz'],[200, '200 Hz'],[100, '100 Hz'],[50, '50 Hz'],[20, '20 Hz'],[10, '10 Hz'],[5, '5 Hz'],[2, '2 Hz'],[1, '1 Hz']]}")%string.

Definition js320_i_scale_meta : cstr := json_text "{'dtype': 'f32','brief': 'The current signal scale factor.','default': 1.0}".
Definition js320_v_scale_meta : cstr := json_text "{'dtype': 'f32','brief': 'The voltage signal scale factor.','default': 1.0}".

(** ** State *)

Record js320_ack_state_s := mk_ack {
  ak_acks_outstanding : Z;      (* uint32_t *)
  ak_dropping : bool;
  ak_drop_until_sample_id : Z;  (* uint64_t *)
  ak_drop_timeout_utc : Z;      (* int64_t *)
}.

Definition ack_clear : js320_ack_state_s := mk_ack 0 false 0 0.

(** The fields of [struct js320_drv_s], in groups: the registers that decide the rates, *)
Record dwn_s := mk_dwn {
  dw_signal_dwn_n : Z;        (* uint32_t *)
  dw_signal_dwn_mode : Z;     (* uint32_t *)
  dw_signal_host_factor : Z;  (* uint32_t *)
  dw_gpi_dwn_mode : Z;        (* uint32_t *)
  dw_gpi_dwn_n : Z;           (* uint32_t *)
}.

(** the buffers of the power computation, *)
Record sbufs_s := mk_sbufs { sb_i : sbuf_f32_s; sb_v : sbuf_f32_s; sb_p : sbuf_f32_s }.

(** the parts. *)
Record parts_s := mk_parts { pt_jtag : js320_jtag_s; pt_fwup : js320_fwup_s; pt_cal : js320_cal_s }.

Record js320_drv_s := mk_drv {
  dr_parts : parts_s;
  dr_i_scale : f64;
  dr_v_scale : f64;
  dr_fs : Z;                  (* uint32_t *)
  dr_publish_rate : Z;        (* uint32_t *)
  dr_ports : list js320_port_s;
  dr_dwn : dwn_s;
  dr_sbufs : sbufs_s;
  dr_power_compute_on_host : bool;
  dr_last_sent_ctrl : list Z; (* uint8_t[16] *)
  dr_signal_ack : js320_ack_state_s;
  dr_gpi_ack : js320_ack_state_s;
  dr_waiting_for_sensor : bool;
  dr_sensor_link_up : bool;
}.

Definition set_parts (s : js320_drv_s) (x : parts_s) : js320_drv_s :=
  mk_drv x (dr_i_scale s) (dr_v_scale s) (dr_fs s) (dr_publish_rate s) (dr_ports s) (dr_dwn s) (dr_sbufs s) (dr_power_compute_on_host s)
    (dr_last_sent_ctrl s) (dr_signal_ack s) (dr_gpi_ack s) (dr_waiting_for_sensor s) (dr_sensor_link_up s).
Definition set_scales (s : js320_drv_s) (i v : f64) : js320_drv_s :=
  mk_drv (dr_parts s) i v (dr_fs s) (dr_publish_rate s) (dr_ports s) (dr_dwn s) (dr_sbufs s) (dr_power_compute_on_host s)
    (dr_last_sent_ctrl s) (dr_signal_ack s) (dr_gpi_ack s) (dr_waiting_for_sensor s) (dr_sensor_link_up s).
Definition set_fs (s : js320_drv_s) (x : Z) : js320_drv_s :=
  mk_drv (dr_parts s) (dr_i_scale s) (dr_v_scale s) x (dr_publish_rate s) (dr_ports s) (dr_dwn s) (dr_sbufs s) (dr_power_compute_on_host s)
    (dr_last_sent_ctrl s) (dr_signal_ack s) (dr_gpi_ack s) (dr_waiting_for_sensor s) (dr_sensor_link_up s).
Definition set_publish_rate (s : js320_drv_s) (x : Z) : js320_drv_s :=
  mk_drv (dr_parts s) (dr_i_scale s) (dr_v_scale s) (dr_fs s) x (dr_ports s) (dr_dwn s) (dr_sbufs s) (dr_power_compute_on_host s)
    (dr_last_sent_ctrl s) (dr_signal_ack s) (dr_gpi_ack s) (dr_waiting_for_sensor s) (dr_sensor_link_up s).
Definition set_ports (s : js320_drv_s) (x : list js320_port_s) : js320_drv_s :=
  mk_drv (dr_parts s) (dr_i_scale s) (dr_v_scale s) (dr_fs s) (dr_publish_rate s) x (dr_dwn s) (dr_sbufs s) (dr_power_compute_on_host s)
    (dr_last_sent_ctrl s) (dr_signal_ack s) (dr_gpi_ack s) (dr_waiting_for_sensor s) (dr_sensor_link_up s).
Definition set_dwn (s : js320_drv_s) (x : dwn_s) : js320_drv_s :=
  mk_drv (dr_parts s) (dr_i_scale s) (dr_v_scale s) (dr_fs s) (dr_publish_rate s) (dr_ports s) x (dr_sbufs s) (dr_power_compute_on_host s)
    (dr_last_sent_ctrl s) (dr_signal_ack s) (dr_gpi_ack s) (dr_waiting_for_sensor s) (dr_sensor_link_up s).
Definition set_sbufs (s : js320_drv_s) (x : sbufs_s) : js320_drv_s :=
  mk_drv (dr_parts s) (dr_i_scale s) (dr_v_scale s) (dr_fs s) (dr_publish_rate s) (dr_ports s) (dr_dwn s) x (dr_power_compute_on_host s)
    (dr_last_sent_ctrl s) (dr_signal_ack s) (dr_gpi_ack s) (dr_waiting_for_sensor s) (dr_sensor_link_up s).
Definition set_power (s : js320_drv_s) (x : bool) : js320_drv_s :=
  mk_drv (dr_parts s) (dr_i_scale s) (dr_v_scale s) (dr_fs s) (dr_publish_rate s) (dr_ports s) (dr_dwn s) (dr_sbufs s) x
    (dr_last_sent_ctrl s) (dr_signal_ack s) (dr_gpi_ack s) (dr_waiting_for_sensor s) (dr_sensor_link_up s).
Definition set_last_sent (s : js320_drv_s) (x : list Z) : js320_drv_s :=
  mk_drv (dr_parts s) (dr_i_scale s) (dr_v_scale s) (dr_fs s) (dr_publish_rate s) (dr_ports s) (dr_dwn s) (dr_sbufs s) (dr_power_compute_on_host s)
    x (dr_signal_ack s) (dr_gpi_ack s) (dr_waiting_for_sensor s) (dr_sensor_link_up s).
Definition set_acks (s : js320_drv_s) (signal gpi : js320_ack_state_s) : js320_drv_s :=
  mk_drv (dr_parts s) (dr_i_scale s) (dr_v_scale s) (dr_fs s) (dr_publish_rate s) (dr_ports s) (dr_dwn s) (dr_sbufs s) (dr_power_compute_on_host s)
    (dr_last_sent_ctrl s) signal gpi (dr_waiting_for_sensor s) (dr_sensor_link_up s).
Definition set_waiting (s : js320_drv_s) (x : bool) : js320_drv_s :=
  mk_drv (dr_parts s) (dr_i_scale s) (dr_v_scale s) (dr_fs s) (dr_publish_rate s) (dr_ports s) (dr_dwn s) (dr_sbufs s) (dr_power_compute_on_host s)
    (dr_last_sent_ctrl s) (dr_signal_ack s) (dr_gpi_ack s) x (dr_sensor_link_up s).
Definition set_link (s : js320_drv_s) (x : bool) : js320_drv_s :=
  mk_drv (dr_parts s) (dr_i_scale s) (dr_v_scale s) (dr_fs s) (dr_publish_rate s) (dr_ports s) (dr_dwn s) (dr_sbufs s) (dr_power_compute_on_host s)
    (dr_last_sent_ctrl s) (dr_signal_ack s) (dr_gpi_ack s) (dr_waiting_for_sensor s) x.

(** ** The device layer *)

(** What it answers during a call: the topic prefix, the time, the map of the sensor's instance, the open mode, whether a
    sequence of the open can start. *)
Record mb_dev_s := mk_mb_dev {
  md_prefix : string;
  md_now : Z;
  md_time_map : option jsdrv_time_map_s;
  md_open_mode : Z;
  md_idle : bool;
}.

Inductive drv_action :=
  | DevPublish (topic : string) (v : jsdrv_union_s)
  | DevFrontend (topic : string) (v : jsdrv_union_s)
  | DevReturnCode (subtopic : string) (rc : Z)
  | DevTimeout (timeout_utc : Z)
  | DevSend (m : stream_msg_s)
  | DevSendStats (topic : cstr) (v : jsdrv_statistics_s) (time_map : jsdrv_time_map_s)
  | DevSync (prefix : string) (emit_open : bool)
  | DevReplay (subtopic : string)
  | DevOpenComplete
  | OfJtag (a : action)
  | OfFwup (a : action)
  | OfCal (a : cal_action).

Abbreviation D := (eff drv_action js320_drv_s).

Definition dev_call (a : drv_action) : D unit := fun s => Ok (tt, s, [a]).

(** A call of a part: its state is in the driver, its calls are passed on. *)
Definition part {E S A} (proj : parts_s -> S) (upd : parts_s -> S -> parts_s) (wrap : E -> drv_action) (m : eff E S A) : D A := fun s =>
  match m (proj (dr_parts s)) with
  | Ok (a, x, o) => Ok (a, set_parts s (upd (dr_parts s) x), wrap <$> o)
  | Fault f => Fault f
  end.
Definition jtag {A} (m : eff action js320_jtag_s A) : D A := part pt_jtag (fun p x => mk_parts x (pt_fwup p) (pt_cal p)) OfJtag m.
Definition fwup {A} (m : eff action js320_fwup_s A) : D A := part pt_fwup (fun p x => mk_parts (pt_jtag p) x (pt_cal p)) OfFwup m.
Definition cal {A} (m : eff cal_action js320_cal_s A) : D A := part pt_cal (fun p x => mk_parts (pt_jtag p) (pt_fwup p) x) OfCal m.

(** The value as the JTAG and firmware update parts see it. *)
Definition value_of (v : jsdrv_union_s) : value_s :=
  let t := type v in
  mk_value (if t =? JSDRV_UNION_BIN then UNION_BIN else if t =? JSDRV_UNION_STDMSG then UNION_STDMSG else if t =? JSDRV_UNION_U8 then UNION_U8
            else if t =? JSDRV_UNION_U32 then UNION_U32 else if t =? JSDRV_UNION_STR then UNION_STR else UNION_OTHER)
    (match value v with Mem (Some m) => take (Z.to_nat (size v)) m | _ => [] end)
    (match value v with Word b => b | Mem _ => 0 end).

Definition jsdrv_union_u8_r (v : Z) : jsdrv_union_s := mk_union JSDRV_UNION_U8 JSDRV_UNION_FLAG_RETAIN 0 0 0 (Word (u8 v)).
Definition jsdrv_union_cjson_r (s : cstr) : jsdrv_union_s :=
  mk_union JSDRV_UNION_JSON (Z.lor JSDRV_UNION_FLAG_CONST JSDRV_UNION_FLAG_RETAIN) 0 0 0 (Mem (Some (s ++ [0]))).

(** [jsdrv_union_as_type(&v, t)]: the return code, and the word of the converted value. *)
Definition as_word (v : jsdrv_union_s) (t : Z) : res (Z * Z) :=
  '(rc, v) ← jsdrv_union_as_type v t;
  if negb (rc =? 0) then Ok (rc, 0) else b ← word v; Ok (0, b).

(** ** Rates *)

Definition js320_signal_extra_factor (n : Z) : Z := if n <=? 1 then 1 else if n <=? 3 then 4 else n.

Definition js320_signal_device_factor (d : dwn_s) : Z :=
  if 0 =? dw_signal_dwn_mode d then 1 else js320_signal_extra_factor (dw_signal_dwn_n d).

Definition js320_signal_host_factor_active (d : dwn_s) : Z :=
  if 0 =? dw_signal_dwn_mode d then 1
  else if negb (dw_signal_host_factor d =? 0) then dw_signal_host_factor d else 1.

Definition js320_gpi_factor (mode n : Z) : Z := if (mode =? 0) || (n <=? 1) then 1 else n.

Definition js320_is_ivp_field (def : js320_port_def_s) : bool :=
  (pd_field_id def =? JSDRV_FIELD_CURRENT) || (pd_field_id def =? JSDRV_FIELD_VOLTAGE) || (pd_field_id def =? JSDRV_FIELD_POWER).

Definition js320_device_decimate (d : dwn_s) (ch : Z) : res Z :=
  def ← ld PORT_DEFS ch;
  Ok (if js320_is_ivp_field def then u32 (JS320_DECIMATE * js320_signal_device_factor d)
      else if pd_field_id def =? JSDRV_FIELD_GPI then js320_gpi_factor (dw_gpi_dwn_mode d) (dw_gpi_dwn_n d)
      else if negb (pd_decimate_factor def =? 0) then pd_decimate_factor def else 1).

Definition js320_runtime_decimate (d : dwn_s) (ch : Z) : res Z :=
  x ← js320_device_decimate d ch;
  def ← ld PORT_DEFS ch;
  Ok (if js320_is_ivp_field def then u32 (x * js320_signal_host_factor_active d) else x).

Definition js320_signal_init (def : js320_port_def_s) (index sample_id decimate_runtime : Z) (time_map : jsdrv_time_map_s) : jsdrv_stream_signal_s :=
  mk_signal sample_id (pd_field_id def) index (pd_element_type def) (pd_element_size_bits def) 0 (pd_sample_rate def) decimate_runtime time_map [].

(** The topic in [m->topic], which has the size of the topic structure. *)
Definition device_topic (dev : mb_dev_s) (subtopic : string) : res cstr :=
  t ← jsdrv_topic_set JSDRV_TOPIC_INIT (str (md_prefix dev));
  t ← jsdrv_topic_append t (str subtopic);
  match cstr_at (topic t) with Some s => Ok s | None => Fault OutOfBounds end.

(** [jsdrv_topic_append] of a NULL topic is undefined. *)
Definition js320_stream_msg_alloc (dev : mb_dev_s) (def : js320_port_def_s) (data_topic_override : option string)
    (index sample_id decimate_runtime : Z) : res (option stream_msg_s) :=
  match md_time_map dev with
  | None => Ok None
  | Some mtmap =>
      let signal := js320_signal_init def index sample_id decimate_runtime mtmap in
      match (match data_topic_override with Some t => Some t | None => pd_data_topic def end) with
      | Some dt => t ← device_topic dev dt; Ok (Some (mk_stream_msg t signal))
      | None => Fault OutOfBounds
      end
  end.

(** ** Ports *)

Definition port_at (ch : Z) : D js320_port_s := s ← get; lift (ld (dr_ports s) ch).
Definition set_port (ch : Z) (p : js320_port_s) : D unit := s ← get; ps ← lift (st (dr_ports s) ch p); modify (fun s => set_ports s ps).

Definition port_msg (p : js320_port_s) (m : option stream_msg_s) : js320_port_s :=
  mk_port m (po_sample_id_next p) (po_current_index p) (po_enabled p) (po_host_filter p) (po_filter_in_next p).
Definition port_next (p : js320_port_s) (id : Z) : js320_port_s :=
  mk_port (po_msg_in p) id (po_current_index p) (po_enabled p) (po_host_filter p) (po_filter_in_next p).
Definition port_start (p : js320_port_s) (m : stream_msg_s) (id index : Z) : js320_port_s :=
  mk_port (Some m) id index (po_enabled p) (po_host_filter p) (po_filter_in_next p).
Definition port_filter (p : js320_port_s) (f : option jsdrv_downsample_sinc_s) (next : Z) : js320_port_s :=
  mk_port (po_msg_in p) (po_sample_id_next p) (po_current_index p) (po_enabled p) f next.
Definition port_enable (p : js320_port_s) (enabled : bool) : js320_port_s :=
  mk_port (po_msg_in p) (po_sample_id_next p) (po_current_index p) enabled (po_host_filter p) (po_filter_in_next p).

Definition js320_port_flush (ch : Z) : D unit :=
  port ← port_at ch;
  match po_msg_in port with
  | None => mret tt
  | Some m => set_port ch (port_msg port None) ;; dev_call (DevSend m)
  end.

(** [for (ch = 0; ch < JS320_CH_COUNT; ++ch)], from [ch] on. *)
Fixpoint group_loop (n : nat) (group ch : Z) : D unit :=
  match n with
  | O => mret tt
  | S n =>
      def ← lift (ld PORT_DEFS ch);
      port ← port_at ch;
      (if (pd_group def =? group) && bool_decide (is_Some (po_msg_in port)) then js320_port_flush ch else mret tt) ;;
      group_loop n group (ch + 1)
  end.

Definition js320_group_flush (group : Z) : D unit :=
  if group =? JS320_GROUP_NONE then mret tt else group_loop (Z.to_nat JS320_CH_COUNT) group 0.

(** A rate of zero is one. *)
Definition nonzero (x : Z) : Z := if x =? 0 then 1 else x.

(** [memcpy], the assert in front of it, and the counts. *)
Definition signal_extend (g : jsdrv_stream_signal_s) (bits : Z) (data : list Z) (sample_count : Z) : res jsdrv_stream_signal_s :=
  let bit_count := u32 (sample_count * bits) in
  let byte_count := u32 (bit_count + 7) / 8 in
  if JSDRV_STREAM_HEADER_SIZE + len (s_data g) + byte_count <=? JSDRV_STREAM_HEADER_SIZE + JSDRV_STREAM_DATA_SIZE then
    bytes ← bytes_at data 0 byte_count;
    Ok (mk_signal (s_sample_id g) (s_field_id g) (s_index g) (s_element_type g) (s_element_size_bits g) (u32 (s_element_count g + sample_count))
          (s_sample_rate g) (s_decimate_factor g) (s_time_map g) (s_data g ++ bytes))
  else Fault AssertFail.

Section Device.
Context (dev : mb_dev_s).

(** A message that waits and does not go on with this frame is sent. *)
Definition port_align (ch index sample_id : Z) : D unit :=
  port ← port_at ch;
  match po_msg_in port with
  | None => mret tt
  | Some _ =>
      if negb (sample_id =? po_sample_id_next port) then js320_port_flush ch
      else if negb (index =? po_current_index port) then js320_port_flush ch
      else mret tt
  end.

Definition js320_port_append (ch index : Z) (data_topic_override : option string) (sample_id : Z) (data : list Z) (sample_count : Z) : D unit :=
  def ← lift (ld PORT_DEFS ch);
  port_align ch index sample_id ;;
  s ← get;
  decimate_runtime ← lift (js320_runtime_decimate (dr_dwn s) ch);
  let decimate_runtime := nonzero decimate_runtime in
  port ← port_at ch;
  m ← (match po_msg_in port with
       | Some m => mret (Some (m, port))
       | None =>
           m ← lift (js320_stream_msg_alloc dev def data_topic_override index sample_id decimate_runtime);
           mret (match m with None => None | Some m => Some (m, port_start port m sample_id index) end)
       end);
  match m with
  | None => mret tt
  | Some (m, port) =>
      g ← lift (signal_extend (sm_signal m) (pd_element_size_bits def) data sample_count);
      set_port ch (port_next (port_msg port (Some (mk_stream_msg (sm_topic m) g)))
                     (u64 (sample_id + u64 (sample_count * decimate_runtime))))
  end.

Definition js320_port_evaluate_flush (ch : Z) : D unit :=
  def ← lift (ld PORT_DEFS ch);
  port ← port_at ch;
  match po_msg_in port with
  | None => mret tt
  | Some m =>
      if pd_sample_rate def =? 0 then js320_port_flush ch
      else
        let count := s_element_count (sm_signal m) in
        let byte_count := u32 (u32 (count * pd_element_size_bits def) + 7) / 8 in
        if JS320_STREAM_PAYLOAD_FULL <=? byte_count then js320_port_flush ch
        else
          s ← get;
          decimate_runtime ← lift (js320_runtime_decimate (dr_dwn s) ch);
          let effective_rate := pd_sample_rate def / nonzero decimate_runtime in
          let element_count_max := Z.max 1 (effective_rate / nonzero (dr_publish_rate s)) in
          if element_count_max <=? count then
            if negb (pd_group def =? JS320_GROUP_NONE) then js320_group_flush (pd_group def) else js320_port_flush ch
          else mret tt
  end.

(** The bytes of float samples. *)
Definition f32_bytes (l : list f32) : list Z := concat (le 4 ∘ bits_of_f32 <$> l).

(** [for (i = 0; i < sample_count; ++i)], from [i] on: the filter, the outputs, their count, the id of the first. *)
Fixpoint filter_loop (n : nat) (i : Z) (filter : option jsdrv_downsample_sinc_s) (sample_id in_step r : Z) (data : list f32)
    (out : list f32) (out_count out_id : Z) : res (option jsdrv_downsample_sinc_s * list f32 * Z * Z) :=
  match n with
  | O => Ok (filter, out, out_count, out_id)
  | S n =>
      let in_id := u64 (sample_id + u64 (i * in_step)) in
      x ← ld data i;
      '(filter, y) ← jsdrv_downsample_sinc_add_f32 filter (in_id / in_step) x;
      match y with
      | None => filter_loop n (i + 1) filter sample_id in_step r data out out_count out_id
      | Some y =>
          let out_id := if 0 =? out_count then u64 (in_id - u64 (u32 (r - 1) * in_step)) else out_id in
          out ← st out out_count y;
          filter_loop n (i + 1) filter sample_id in_step r data out (u32 (out_count + 1)) out_id
      end
  end.

Definition js320_signal_append_filtered (ch sample_id : Z) (data : list f32) (sample_count : Z) : D unit :=
  port ← port_at ch;
  match po_host_filter port with
  | None => js320_port_append ch 0 None sample_id (f32_bytes data) sample_count
  | Some _ =>
      s ← get;
      in_step ← lift (js320_device_decimate (dr_dwn s) ch);
      let in_step := nonzero in_step in
      let r := jsdrv_downsample_sinc_decimate_factor (po_host_filter port) in
      (if negb (0 =? po_filter_in_next port) && negb (sample_id =? po_filter_in_next port) then
         js320_port_flush ch ;;
         port ← port_at ch;
         set_port ch (port_filter port (jsdrv_downsample_sinc_clear (po_host_filter port)) (po_filter_in_next port))
       else mret tt) ;;
      port ← port_at ch;
      '(filter, out, out_count, out_id) ←
        lift (filter_loop (Z.to_nat sample_count) 0 (po_host_filter port) sample_id in_step r data (replicate 256 S754_nan) 0 0);
      set_port ch (port_filter port filter (u64 (sample_id + u64 (sample_count * in_step)))) ;;
      if negb (out_count =? 0) then js320_port_append ch 0 None out_id (f32_bytes out) out_count else mret tt
  end.

(** ** Power *)

Definition js320_port_reset (ch : Z) : D unit :=
  port ← port_at ch;
  set_port ch (mk_port None 0 0 (po_enabled port) (jsdrv_downsample_sinc_clear (po_host_filter port)) 0).

Fixpoint reset_ports (chs : list Z) : D unit :=
  match chs with
  | [] => mret tt
  | ch :: chs => js320_port_reset ch ;; reset_ports chs
  end.

(** The filter of a channel for factor [r] and an order. *)
Definition filter_update (f : option jsdrv_downsample_sinc_s) (r order : Z) : res (option jsdrv_downsample_sinc_s) :=
  if r <=? 1 then Ok None
  else
    match f with
    | None => jsdrv_downsample_sinc_alloc r order
    | Some _ =>
        if negb (jsdrv_downsample_sinc_decimate_factor f =? r) || negb (jsdrv_downsample_sinc_order f =? order)
        then jsdrv_downsample_sinc_alloc r order
        else Ok (jsdrv_downsample_sinc_clear f)
    end.

Fixpoint filters_loop (chs : list Z) (r order : Z) : D unit :=
  match chs with
  | [] => mret tt
  | ch :: chs =>
      port ← port_at ch;
      f ← lift (filter_update (po_host_filter port) r order);
      set_port ch (port_filter port f 0) ;;
      filters_loop chs r order
  end.

Definition js320_signal_filters_update : D unit :=
  s ← get;
  filters_loop [5; 6; 7] (js320_signal_host_factor_active (dr_dwn s)) (dw_signal_dwn_mode (dr_dwn s)).

Definition sbuf_restart (b : sbuf_f32_s) : sbuf_f32_s :=
  let b := sbuf_f32_clear b in
  mk_sbuf (sb_head_sample_id b) (sb_head b) (sb_tail b) (u8 JS320_DECIMATE) (sb_msg_sample_id b) (sb_buffer b).

Definition js320_sbufs_clear (s : js320_drv_s) : js320_drv_s :=
  let b := dr_sbufs s in set_sbufs s (mk_sbufs (sbuf_restart (sb_i b)) (sbuf_restart (sb_v b)) (sbuf_restart (sb_p b))).

(** [for (k = 0; k < 3; ++k)] *)
Fixpoint reconcile_loop (wants : list (Z * bool)) : D unit :=
  match wants with
  | [] => mret tt
  | (ch, want) :: wants =>
      let want_u8 := if want : bool then 1 else 0 in
      s ← get;
      sent ← lift (ld (dr_last_sent_ctrl s) ch);
      def ← lift (ld PORT_DEFS ch);
      (if negb (sent =? want_u8) then
         sent ← lift (st (dr_last_sent_ctrl s) ch want_u8);
         modify (fun s => set_last_sent s sent) ;;
         match pd_ctrl_topic def with
         | Some t => dev_call (DevPublish t (jsdrv_union_u32_r want_u8))
         | None => lift (Fault OutOfBounds)
         end
       else mret tt) ;;
      reconcile_loop wants
  end.

Definition js320_reconcile_power : D unit :=
  i ← port_at 5; v ← port_at 6; p ← port_at 7;
  s ← get;
  let host_compute := (JS320_FS_DEFAULT <=? dr_fs s) && po_enabled i && po_enabled v && po_enabled p in
  let want_p_dev := if host_compute then false else po_enabled p in
  (if negb (Bool.eqb host_compute (dr_power_compute_on_host s)) then modify (fun s => set_power (js320_sbufs_clear s) host_compute)
   else mret tt) ;;
  reconcile_loop [(5, po_enabled i); (6, po_enabled v); (7, want_p_dev)].

Definition js320_compute_power : D unit :=
  s ← get;
  if negb (dr_power_compute_on_host s) then mret tt
  else
    let b := dr_sbufs s in
    if (sbuf_f32_length (sb_i b) =? 0) || (sbuf_f32_length (sb_v b) =? 0) then mret tt
    else
      '(p, i, v) ← lift (sbuf_f32_mult (sb_p b) (sb_i b) (sb_v b));
      modify (fun s => set_sbufs s (mk_sbufs i v p)) ;;
      let n := sbuf_f32_length p in
      if n =? 0 then mret tt
      else
        let start := u64 (sb_head_sample_id p - u64 (n * sb_sample_id_decimate p)) in
        js320_port_append 7 0 None start (f32_bytes (sb_buffer p)) n ;;
        js320_port_evaluate_flush 7.

Definition js320_handle_stream_ctrl (ch : Z) (value : jsdrv_union_s) : D Z :=
  '(rc, b) ← lift (as_word value JSDRV_UNION_U32);
  if negb (0 =? rc) then mret rc
  else
    port ← port_at ch;
    set_port ch (port_enable port (negb (u32 b =? 0))) ;;
    js320_port_reset ch ;;
    modify (fun s =>
      let x := dr_sbufs s in
      set_sbufs s (if ch =? 5 then mk_sbufs (sbuf_restart (sb_i x)) (sb_v x) (sb_p x)
                   else if ch =? 6 then mk_sbufs (sb_i x) (sbuf_restart (sb_v x)) (sb_p x)
                   else if ch =? 7 then mk_sbufs (sb_i x) (sb_v x) (sbuf_restart (sb_p x)) else x)) ;;
    js320_reconcile_power ;;
    mret 0.

(** ** Drop windows *)

(** The two families of channels: current, voltage and power; the inputs and the trigger. *)
Inductive family := Signal | Gpi.

Definition ack_of (f : family) (s : js320_drv_s) : js320_ack_state_s := match f with Signal => dr_signal_ack s | Gpi => dr_gpi_ack s end.
Definition set_ack (f : family) (s : js320_drv_s) (a : js320_ack_state_s) : js320_drv_s :=
  match f with Signal => set_acks s a (dr_gpi_ack s) | Gpi => set_acks s (dr_signal_ack s) a end.

Definition js320_ack_begin (f : family) : D unit :=
  let timeout := md_now dev + JS320_DWNN_ACK_TIMEOUT in
  modify (fun s => let a := ack_of f s in set_ack f s (mk_ack (u32 (ak_acks_outstanding a + 1)) true (ak_drop_until_sample_id a) timeout)) ;;
  dev_call (DevTimeout timeout).

Definition js320_ack_received (a : js320_ack_state_s) (sample_id : Z) : js320_ack_state_s :=
  if 0 <? ak_acks_outstanding a then mk_ack (u32 (ak_acks_outstanding a - 1)) (ak_dropping a) sample_id (ak_drop_timeout_utc a) else a.

(** The new state, and whether the frame is dropped. *)
Definition js320_ack_should_drop (a : js320_ack_state_s) (sample_id : Z) : js320_ack_state_s * bool :=
  if negb (ak_dropping a) then (a, false)
  else if 0 <? ak_acks_outstanding a then (a, true)
  else if sample_id <? ak_drop_until_sample_id a then (a, true)
  else (mk_ack (ak_acks_outstanding a) false (ak_drop_until_sample_id a) (ak_drop_timeout_utc a), false).

Definition ack_drop (f : family) (sample_id : Z) : D bool :=
  s ← get;
  let '(a, drop) := js320_ack_should_drop (ack_of f s) sample_id in
  modify (fun s => set_ack f s a) ;; mret drop.

Definition js320_ack_timeout_check (f : family) : D unit :=
  s ← get;
  let a := ack_of f s in
  if negb (ak_dropping a) then mret tt
  else if ak_drop_timeout_utc a <=? md_now dev then modify (fun s => set_ack f s (mk_ack 0 false 0 (ak_drop_timeout_utc a)))
  else dev_call (DevTimeout (ak_drop_timeout_utc a)).

(** ** Open and close *)

Definition js320_on_open : D unit :=
  jtag js320_jtag_on_open ;;
  fwup js320_fwup_on_open ;;
  cal js320_cal_on_open ;;
  if negb (0xFF =? md_open_mode dev) then
    dev_call (DevFrontend "h/fs$" (jsdrv_union_cjson_r js320_sampling_frequency_meta)) ;;
    dev_call (DevFrontend "h/fp$" (jsdrv_union_cjson_r js320_publish_rate_meta)) ;;
    dev_call (DevFrontend "h/i_scale$" (jsdrv_union_cjson_r js320_i_scale_meta)) ;;
    dev_call (DevFrontend "h/v_scale$" (jsdrv_union_cjson_r js320_v_scale_meta))
  else mret tt.

Definition js320_sensor_sync_start : D bool :=
  dev_call (DevSync "s" false) ;;
  if negb (md_idle dev) then mret false
  else
    modify (fun s => set_waiting s false) ;;
    dev_call (DevTimeout 0) ;;
    dev_call (DevPublish "s/ts/!resync" (jsdrv_union_u8_r 1)) ;;
    mret true.

Definition js320_open_children : D bool :=
  modify (fun s => set_waiting s true) ;;
  dev_call (DevTimeout (md_now dev + JS320_SENSOR_READY_TIMEOUT_NS)) ;;
  s ← get;
  (if dr_sensor_link_up s then js320_sensor_sync_start ;; mret tt else mret tt) ;;
  mret true.

Definition all_channels : list Z := [0; 1; 2; 3; 4; 5; 6; 7; 8; 9; 10; 11; 12; 13; 14; 15].

Fixpoint drop_filters (chs : list Z) : D unit :=
  match chs with
  | [] => mret tt
  | ch :: chs => port ← port_at ch; set_port ch (port_filter port None (po_filter_in_next port)) ;; drop_filters chs
  end.

Definition dwn_default : dwn_s :=
  mk_dwn JS320_DEFAULT_SIGNAL_DWN_N JS320_DEFAULT_SIGNAL_DWN_MODE 1 JS320_DEFAULT_GPI_DWN_MODE JS320_DEFAULT_GPI_DWN_N.
Definition sent_unknown : list Z := replicate (Z.to_nat JS320_CH_COUNT) JS320_CTRL_UNKNOWN.

Definition js320_on_close : D unit :=
  reset_ports all_channels ;;
  drop_filters [5; 6; 7] ;;
  modify (fun s => set_power (js320_sbufs_clear s) false) ;;
  modify (fun s => set_last_sent (set_acks (set_dwn s dwn_default) ack_clear ack_clear) sent_unknown) ;;
  modify (fun s => set_link (set_waiting s false) false) ;;
  fwup js320_fwup_on_close ;;
  jtag js320_jtag_on_close ;;
  cal (js320_cal_on_close (md_prefix dev)).

(** ** Statistics *)

Definition u64_at (data : list Z) (k : Z) : res Z := lo ← ld data k; hi ← ld data (k + 1); Ok (lo + 2 ^ 32 * hi).
Definition i128_at (data : list Z) (k : Z) : res js220_i128 := lo ← u64_at data k; hi ← u64_at data (k + 2); Ok (mk_i128 lo hi).

(** [memcpy(&src, data, sizeof(src))]: the fields of the structures at their words. *)
Definition channel_at (data : list Z) (k : Z) : res js320_channel_raw_s :=
  x1 ← i128_at data k; x2 ← i128_at data (k + 4); integ ← i128_at data (k + 8);
  mi ← u64_at data (k + 12); ma ← u64_at data (k + 14);
  Ok (mk_channel x1 x2 integ (i64 mi) (i64 ma)).

Definition statistics_raw_at (data : list Z) : res js320_statistics_raw_s :=
  h ← ld data 0; d ← ld data 1; f ← ld data 2; n ← ld data 3;
  b ← u64_at data 4; a ← u64_at data 6;
  i ← channel_at data 8; v ← channel_at data 24; p ← channel_at data 40;
  Ok (mk_js320_raw h d f n b a i v p).

Definition STATISTICS_RAW_SIZE : Z := 224.

Definition stats_scale (i_scale v_scale : f64) (x : jsdrv_statistics_s) : jsdrv_statistics_s :=
  let i := fun y => f64_mul y i_scale in
  let v := fun y => f64_mul y v_scale in
  let p_scale := f64_mul i_scale v_scale in
  let p := fun y => f64_mul y p_scale in
  mk_stats (js_version x) (js_decimate_factor x) (js_block_sample_count x) (js_sample_freq x) (js_decimate_factor32 x)
    (js_block_sample_id x) (js_accum_sample_id x)
    (i (js_i_avg x)) (i (js_i_std x)) (i (js_i_min x)) (i (js_i_max x))
    (v (js_v_avg x)) (v (js_v_std x)) (v (js_v_min x)) (v (js_v_max x))
    (p (js_p_avg x)) (p (js_p_std x)) (p (js_p_min x)) (p (js_p_max x))
    (i (js_charge_f64 x)) (p (js_energy_f64 x)) (js_charge_i128 x) (js_energy_i128 x).

Definition js320_handle_statistics (data : list Z) (length : Z) : D unit :=
  let size := length * 4 in
  if negb (size =? STATISTICS_RAW_SIZE) then mret tt
  else
    t ← lift (device_topic dev "s/stats/value");
    src ← lift (statistics_raw_at data);
    dst ← lift (js320_stats_convert src);
    match dst with
    | inl _ => mret tt
    | inr dst =>
        s ← get;
        match md_time_map dev with
        | Some mtmap => dev_call (DevSendStats t (stats_scale (dr_i_scale s) (dr_v_scale s) dst) mtmap)
        | None => mret tt
        end
    end.

(** ** Frames *)

Definition words_at (data : list Z) (i n : Z) : res (list Z) :=
  if (0 <=? i) && (0 <=? n) && (i + n <=? len data) then Ok (take (Z.to_nat n) (drop (Z.to_nat i) data)) else Fault OutOfBounds.

(** The topic and the index of a frame; [None]: an unsupported source. *)
Definition frame_target (channel source : Z) (def : js320_port_def_s) : option (option string * Z) :=
  if (channel =? 0) || (channel =? 1) then Some (None, Z.lor (pd_index def) source)
  else if channel =? 2 then
    if 1 <? source then None
    else Some (Some (if source =? 0 then "s/i/range/!data"%string else "s/v/range/!data"%string), source)
  else Some (None, pd_index def).

Definition frame_scale (s : js320_drv_s) (channel : Z) : f32 :=
  f32_of_f64 (if channel =? 5 then dr_i_scale s else if channel =? 6 then dr_v_scale s else f64_mul (dr_i_scale s) (dr_v_scale s)).

(** Current or voltage into its buffer for the power computation. *)
Definition power_feed (channel sample_id : Z) (samples : list f32) (sample_count : Z) : D unit :=
  s ← get;
  let b := dr_sbufs s in
  let sbuf := if channel =? 5 then sb_i b else sb_v b in
  let sbuf := if sb_head_sample_id sbuf =? 0 then set_head_sample_id sample_id sbuf else sbuf in
  sbuf ← lift (sbuf_f32_add sbuf sample_id samples sample_count);
  modify (fun s => set_sbufs s (if channel =? 5 then mk_sbufs sbuf (sb_v b) (sb_p b) else mk_sbufs (sb_i b) sbuf (sb_p b))).

(** Frames of current, voltage and power, from the scaling on. *)
Definition handle_signal (channel sample_id : Z) (payload : list Z) (sample_count : Z) : D unit :=
  s ← get;
  let samples := (fun w => f32_mul (f32_of_bits w) (frame_scale s channel)) <$> payload in
  let on_host := dr_power_compute_on_host s in
  if (channel =? 7) && on_host then mret tt
  else
    (if on_host && ((channel =? 5) || (channel =? 6)) then power_feed channel sample_id samples sample_count else mret tt) ;;
    js320_signal_append_filtered channel sample_id samples sample_count ;;
    js320_port_evaluate_flush channel ;;
    if on_host && ((channel =? 5) || (channel =? 6)) then js320_compute_power else mret tt.

(** The drop windows, and the path of the channel. *)
Definition handle_stream (channel index : Z) (topic_override : option string) (sample_id : Z) (payload : list Z) (sample_count : Z) : D unit :=
  if (5 <=? channel) && (channel <=? 7) then
    drop ← ack_drop Signal sample_id;
    if drop : bool then mret tt else handle_signal channel sample_id payload sample_count
  else
    drop ← (if (8 <=? channel) && (channel <=? 12) then ack_drop Gpi sample_id else mret false);
    if drop : bool then mret tt
    else
      js320_port_append channel index topic_override sample_id (concat (le 4 <$> payload)) sample_count ;;
      js320_port_evaluate_flush channel.

Definition js320_handle_app (metadata : Z) (data : list Z) (length : Z) : D unit :=
  let channel := Z.land metadata 0x000f in
  let source := Z.land (Z.shiftr metadata 4) 0x000f in
  if channel =? 14 then js320_handle_statistics data length
  else if length <? 2 then mret tt
  else if JS320_CH_COUNT <=? channel then mret tt
  else
    def ← lift (ld PORT_DEFS channel);
    match pd_data_topic def with
    | None => mret tt
    | Some _ =>
        match frame_target channel source def with
        | None => mret tt
        | Some (topic_override, index) =>
            sample_id ← lift (u64_at data 0);
            let length_u32 := length - 2 in
            let sample_count := u32 (length_u32 * pd_samples_per_u32 def) in
            payload ← lift (words_at data 2 length_u32);
            handle_stream channel index topic_override sample_id payload sample_count
        end
    end.

(** ** Rate changes *)

Definition js320_signal_family_streaming (s : js320_drv_s) : res bool :=
  i ← ld (dr_ports s) 5; v ← ld (dr_ports s) 6; p ← ld (dr_ports s) 7; Ok (po_enabled i || po_enabled v || po_enabled p).

(** [for (ch = 8; ch <= 12; ++ch)], from [ch] on. *)
Fixpoint gpi_streaming_loop (n : nat) (ch : Z) (s : js320_drv_s) : res bool :=
  match n with
  | O => Ok false
  | S n => p ← ld (dr_ports s) ch; if po_enabled p then Ok true else gpi_streaming_loop n (ch + 1) s
  end.
Definition js320_gpi_family_streaming (s : js320_drv_s) : res bool := gpi_streaming_loop 5 8 s.

Definition js320_signal_dwn_changed : D unit :=
  s ← get;
  let d := dr_dwn s in
  modify (fun s => set_fs s (JS320_SIGNAL_RATE_AFTER_DECIMATE / js320_signal_device_factor d / js320_signal_host_factor_active d)) ;;
  reset_ports [5; 6; 7] ;;
  js320_signal_filters_update ;;
  modify js320_sbufs_clear ;;
  s ← get;
  streaming ← lift (js320_signal_family_streaming s);
  if streaming : bool then js320_ack_begin Signal else mret tt.

Definition js320_apply_signal_dwn_n (n : Z) : D unit :=
  modify (fun s => let d := dr_dwn s in
    set_dwn s (mk_dwn n (dw_signal_dwn_mode d) (dw_signal_host_factor d) (dw_gpi_dwn_mode d) (dw_gpi_dwn_n d))) ;;
  js320_signal_dwn_changed ;;
  dev_call (DevPublish "s/dwnN/N" (jsdrv_union_u32_r n)) ;;
  js320_reconcile_power.

Definition js320_apply_signal_dwn_mode (mode : Z) : D unit :=
  modify (fun s => let d := dr_dwn s in
    set_dwn s (mk_dwn (dw_signal_dwn_n d) mode (dw_signal_host_factor d) (dw_gpi_dwn_mode d) (dw_gpi_dwn_n d))) ;;
  js320_signal_dwn_changed ;;
  dev_call (DevPublish "s/dwnN/mode" (jsdrv_union_u32_r mode)) ;;
  js320_reconcile_power.

(** The part of the two functions below that they share. *)
Definition gpi_dwn_changed : D unit :=
  reset_ports [8; 9; 10; 11; 12] ;;
  s ← get;
  streaming ← lift (js320_gpi_family_streaming s);
  if streaming : bool then js320_ack_begin Gpi else mret tt.

Definition js320_apply_gpi_dwn_mode (mode : Z) : D unit :=
  modify (fun s => let d := dr_dwn s in
    set_dwn s (mk_dwn (dw_signal_dwn_n d) (dw_signal_dwn_mode d) (dw_signal_host_factor d) mode (dw_gpi_dwn_n d))) ;;
  gpi_dwn_changed ;;
  dev_call (DevPublish "s/gpi/+/dwnN/mode" (jsdrv_union_u32_r mode)).

Definition js320_apply_gpi_dwn_n (n : Z) : D unit :=
  modify (fun s => let d := dr_dwn s in
    set_dwn s (mk_dwn (dw_signal_dwn_n d) (dw_signal_dwn_mode d) (dw_signal_host_factor d) (dw_gpi_dwn_mode d) n)) ;;
  gpi_dwn_changed ;;
  dev_call (DevPublish "s/gpi/+/dwnN/N" (jsdrv_union_u32_r n)).

(** The error code, or the register and the factor of the host. *)
Definition js320_fs_to_decimation (fs : Z) : Z + Z * Z :=
  if (fs =? 0) || (JS320_SIGNAL_RATE_AFTER_DECIMATE <? fs) then inl (ec_code PARAMETER_INVALID)
  else if fs <? JS320_MIN_ON_INSTRUMENT_FS then
    if negb (JS320_MIN_ON_INSTRUMENT_FS mod fs =? 0) then inl (ec_code PARAMETER_INVALID)
    else inr (JS320_SIGNAL_RATE_AFTER_DECIMATE / JS320_MIN_ON_INSTRUMENT_FS, JS320_MIN_ON_INSTRUMENT_FS / fs)
  else if negb (JS320_SIGNAL_RATE_AFTER_DECIMATE mod fs =? 0) then inl (ec_code PARAMETER_INVALID)
  else
    let extra := JS320_SIGNAL_RATE_AFTER_DECIMATE / fs in
    if extra =? 1 then inr (0, 1)
    else if extra <=? 3 then inl (ec_code PARAMETER_INVALID)
    else inr (extra, 1).

(** ** Commands *)

(** A conversion to 32 bits, a bound on the value, the handler, and the return code that is sent. *)
Definition cmd_u32 (subtopic : string) (value : jsdrv_union_s) (max : Z) (k : Z -> D unit) : D bool :=
  '(rc, b) ← lift (as_word value JSDRV_UNION_U32);
  let rc := if (0 =? rc) && (max <? u32 b) then ec_code PARAMETER_INVALID else rc in
  (if 0 =? rc then k (u32 b) else mret tt) ;;
  dev_call (DevReturnCode subtopic rc) ;;
  mret true.

Definition cmd_ctrl (subtopic : string) (ch : Z) (value : jsdrv_union_s) : D bool :=
  rc ← js320_handle_stream_ctrl ch value;
  dev_call (DevReturnCode subtopic rc) ;;
  mret true.

Definition cmd_fs (subtopic : string) (value : jsdrv_union_s) : D bool :=
  '(rc, b) ← lift (as_word value JSDRV_UNION_U32);
  rc ← (if 0 =? rc then
          match js320_fs_to_decimation (u32 b) with
          | inl rc => mret rc
          | inr (n, host_r) =>
              modify (fun s => let d := dr_dwn s in
                set_dwn s (mk_dwn (dw_signal_dwn_n d) (dw_signal_dwn_mode d) host_r (dw_gpi_dwn_mode d) (dw_gpi_dwn_n d))) ;;
              js320_apply_signal_dwn_n n ;;
              mret 0
          end
        else mret rc);
  dev_call (DevReturnCode subtopic rc) ;;
  mret true.

(** The scale that a value gives: a float of either width, else the old one. *)
Definition scale_of (value : jsdrv_union_s) (old : f64) : res f64 :=
  if type value =? JSDRV_UNION_F64 then b ← word value; Ok (f64_of_bits (u64 b))
  else if type value =? JSDRV_UNION_F32 then b ← word value; Ok (f64_of_f32 (f32_of_bits (u32 b)))
  else Ok old.

Definition handle_cmd (subtopic : string) (value : jsdrv_union_s) : D bool :=
  if String.eqb subtopic "s/i/ctrl" then cmd_ctrl subtopic 5 value
  else if String.eqb subtopic "s/v/ctrl" then cmd_ctrl subtopic 6 value
  else if String.eqb subtopic "s/p/ctrl" then cmd_ctrl subtopic 7 value
  else if String.eqb subtopic "h/fs" then cmd_fs subtopic value
  else if String.eqb subtopic "h/fp" then cmd_u32 subtopic value U32_MAX (fun fp => modify (fun s => set_publish_rate s (if fp <? 1 then 1 else fp)))
  else if String.eqb subtopic "h/i_scale" then
    s ← get;
    x ← lift (scale_of value (dr_i_scale s));
    modify (fun s => set_scales s x (dr_v_scale s)) ;;
    dev_call (DevReturnCode subtopic 0) ;; mret true
  else if String.eqb subtopic "h/v_scale" then
    s ← get;
    x ← lift (scale_of value (dr_v_scale s));
    modify (fun s => set_scales s (dr_i_scale s) x) ;;
    dev_call (DevReturnCode subtopic 0) ;; mret true
  else if String.eqb subtopic "s/dwnN/N" then
    cmd_u32 subtopic value 1000 (fun n =>
      modify (fun s => let d := dr_dwn s in
        set_dwn s (mk_dwn (dw_signal_dwn_n d) (dw_signal_dwn_mode d) 1 (dw_gpi_dwn_mode d) (dw_gpi_dwn_n d))) ;;
      js320_apply_signal_dwn_n n)
  else if String.eqb subtopic "s/dwnN/mode" then cmd_u32 subtopic value 3 js320_apply_signal_dwn_mode
  else if String.eqb subtopic "s/gpi/+/dwnN/mode" then cmd_u32 subtopic value 3 js320_apply_gpi_dwn_mode
  else if String.eqb subtopic "s/gpi/+/dwnN/N" then cmd_u32 subtopic value U32_MAX js320_apply_gpi_dwn_n
  else mret false.

(** [a || b] *)
Definition or_else (a b : D bool) : D bool := done ← a; if done : bool then mret true else b.

Definition js320_handle_cmd (subtopic : string) (value : jsdrv_union_s) : D bool :=
  or_else (cal (js320_cal_handle_cmd (md_prefix dev) (md_now dev) subtopic value))
  (or_else (handle_cmd subtopic value)
  (or_else (fwup (js320_fwup_handle_cmd (md_now dev) subtopic (value_of value)))
     (jtag (js320_jtag_handle_cmd (md_now dev) subtopic (value_of value))))).

(** ** Publishes of the device *)

Definition sensor_state (value : jsdrv_union_s) : D unit :=
  '(rc, b) ← lift (as_word value JSDRV_UNION_U32);
  if 0 =? rc then
    modify (fun s => set_link s (negb (u32 b =? 0))) ;;
    s ← get;
    if dr_waiting_for_sensor s && dr_sensor_link_up s then js320_sensor_sync_start ;; mret tt else mret tt
  else mret tt.

Definition ack_publish (f : family) (value : jsdrv_union_s) : D bool :=
  '(rc, b) ← lift (as_word value JSDRV_UNION_U64);
  (if 0 =? rc then modify (fun s => set_ack f s (js320_ack_received (ack_of f s) (u64 b))) else mret tt) ;;
  mret true.

Definition js320_handle_publish (subtopic : string) (value : jsdrv_union_s) : D bool :=
  (if String.eqb subtopic "c/comm/sensor/state" then sensor_state value else mret tt) ;;
  if String.eqb subtopic "s/dwnN/!ack" then ack_publish Signal value
  else if String.eqb subtopic "s/gpi/+/dwnN/!ack" then ack_publish Gpi value
  else
    or_else (fwup (js320_fwup_handle_publish (md_now dev) subtopic (value_of value)))
    (or_else (jtag (js320_jtag_handle_publish (md_now dev) subtopic (value_of value)))
       (cal (js320_cal_handle_publish (md_prefix dev) (md_now dev) subtopic value))).

Definition js320_on_instance_synced (prefix : string) : D unit :=
  if String.eqb prefix "s" then
    dev_call (DevReplay "s/dwnN") ;;
    dev_call (DevReplay "h") ;;
    dev_call DevOpenComplete
  else mret tt.

Definition js320_on_timeout : D unit :=
  s ← get;
  (if dr_waiting_for_sensor s then
     modify (fun s => set_waiting s false) ;;
     dev_call (DevReplay "h") ;;
     dev_call DevOpenComplete
   else mret tt) ;;
  js320_ack_timeout_check Signal ;;
  js320_ack_timeout_check Gpi ;;
  fwup js320_fwup_on_timeout ;;
  jtag (js320_jtag_on_timeout (md_now dev)) ;;
  cal (js320_cal_on_timeout).
End Device.

(** ** Factory *)

Definition sbuf_zero : sbuf_f32_s := mk_sbuf 0 0 0 0 0 (replicate (Z.to_nat SAMPLE_BUFFER_LENGTH) (S754_zero false)).

Definition js320_drv_factory : js320_drv_s :=
  js320_sbufs_clear
    (mk_drv (mk_parts js320_jtag_alloc js320_fwup_alloc js320_cal_alloc) (f64_of_Z 1) (f64_of_Z 1) JS320_FS_DEFAULT JS320_PUB_RATE_DEFAULT
       (replicate (Z.to_nat JS320_CH_COUNT) port_clear) dwn_default (mk_sbufs sbuf_zero sbuf_zero sbuf_zero) false sent_unknown
       ack_clear ack_clear false false).

(** ** Runs *)

(** What the device layer passes on. *)
Inductive drv_input :=
  | D_open | D_close | D_children | D_timeout
  | D_app (metadata : Z) (data : list Z)
  | D_cmd (subtopic : string) (value : jsdrv_union_s)
  | D_publish (subtopic : string) (value : jsdrv_union_s)
  | D_synced (prefix : string).

(** The length of a frame is that of its data. *)
Definition drv_step (dev : mb_dev_s) (x : drv_input) : D unit :=
  match x with
  | D_open => js320_on_open dev
  | D_close => js320_on_close dev
  | D_children => js320_open_children dev ;; mret tt
  | D_timeout => js320_on_timeout dev
  | D_app metadata data => js320_handle_app dev metadata data (len data)
  | D_cmd t v => js320_handle_cmd dev t v ;; mret tt
  | D_publish t v => js320_handle_publish dev t v ;; mret tt
  | D_synced p => js320_on_instance_synced p
  end.

Fixpoint drv_steps (xs : list (mb_dev_s * drv_input)) : D unit :=
  match xs with
  | [] => mret tt
  | (dev, x) :: xs => drv_step dev x ;; drv_steps xs
  end.
