(* ===== verification/Js320DrvStream.v ===== *)
(** * The streams of the JS320 driver (src/devices/js320/js320_drv.c)

    The frames of a channel are collected into messages, which are sent when enough samples wait, when
    a message is full, together with the other channels of the group, or when a frame does not go on
    where the last one ended.  However the frames of the channels mix, what has been sent on a channel
    and what still waits are together the samples that arrived on it: each once, in order, and with its
    own sample id. *)

From Stdlib Require Import Strings.String.
From S2P Require Import Prelude Cstr ErrorCode Topic Float Time I128 SampleBuffer DownsampleSinc DeviceStats.
From S2P Require Import Effect MbDev Jtag Fwup BufferSignal Union Js320Cal Js320Drv.

(** ** What a message says *)

(** One 32-bit word of a stream: topic, index, the id of its first sample, its bytes. *)
Abbreviation item := (cstr * Z * Z * list Z)%type.

Fixpoint items (topic : cstr) (index step id : Z) (ws : list (list Z)) : list item :=
  match ws with
  | [] => []
  | w :: ws => (topic, index, u64 id, w) :: items topic index step (id + step) ws
  end.

(** The first [n] 32-bit words of a byte string. *)
Fixpoint chunks (n : nat) (l : list Z) : list (list Z) :=
  match n with
  | O => []
  | S n => take 4 l :: chunks n (drop 4 l)
  end.

(** What the header and the data of a message mean to a reader. *)
Definition signal_items (topic : cstr) (g : jsdrv_stream_signal_s) : list item :=
  items topic (s_index g) (32 / s_element_size_bits g * s_decimate_factor g) (s_sample_id g)
    (chunks (Z.to_nat (s_element_count g * s_element_size_bits g / 32)) (s_data g)).
Definition msg_items (m : stream_msg_s) : list item := signal_items (sm_topic m) (sm_signal m).

(** The channel of a signal, from its header. *)
Definition signal_channel (g : jsdrv_stream_signal_s) : Z :=
  let f := s_field_id g in
  if f =? JSDRV_FIELD_RAW then s_index g / 16
  else if f =? JSDRV_FIELD_RANGE then 2
  else if f =? JSDRV_FIELD_CURRENT then 5
  else if f =? JSDRV_FIELD_VOLTAGE then 6
  else if f =? JSDRV_FIELD_POWER then 7
  else if f =? JSDRV_FIELD_GPI then (if s_index g =? 7 then 12 else 8 + s_index g)
  else 13.

(** What was sent on a channel, and what waits. *)
Definition action_items (ch : Z) (a : drv_action) : list item :=
  match a with DevSend m => if signal_channel (sm_signal m) =? ch then msg_items m else [] | _ => [] end.
Definition sent (ch : Z) (o : list drv_action) : list item := concat (action_items ch <$> o).

Definition port_items (p : js320_port_s) : list item := match po_msg_in p with None => [] | Some m => msg_items m end.
Definition pending (ch : Z) (ps : list js320_port_s) : list item :=
  match ps !! Z.to_nat ch with None => [] | Some p => port_items p end.

(** ** What a frame brings *)

Definition frame_channel (metadata : Z) : Z := Z.land metadata 0x000f.
Definition frame_source (metadata : Z) : Z := Z.land (Z.shiftr metadata 4) 0x000f.
Definition frame_id (data : list Z) : Z := default 0 (data !! 0%nat) + 2 ^ 32 * default 0 (data !! 1%nat).

(** The topic and the index, for a frame that is long enough on a channel that is in use. *)
Definition frame_head (metadata : Z) (data : list Z) : option (string * Z) :=
  if len data <? 2 then None
  else
    match PORT_DEFS !! Z.to_nat (frame_channel metadata) with
    | None => None
    | Some def =>
        match pd_data_topic def, frame_target (frame_channel metadata) (frame_source metadata) def with
        | Some dt, Some (override, index) => Some (default dt override, index)
        | _, _ => None
        end
    end.

Definition channel_def (ch : Z) : js320_port_def_s := default unused_def (PORT_DEFS !! Z.to_nat ch).

(** The samples of a channel are scaled when they are current, voltage or power. *)
Definition is_ivp (ch : Z) : bool := (5 <=? ch) && (ch <=? 7).
Definition sample_bytes (s : js320_drv_s) (ch w : Z) : list Z :=
  le 4 (if is_ivp ch then bits_of_f32 (f32_mul (f32_of_bits w) (frame_scale s ch)) else w).

Definition channel_decimate (d : dwn_s) (ch : Z) : Z := match js320_runtime_decimate d ch with Ok x => nonzero x | Fault _ => 1 end.

Definition frame_items (dev : mb_dev_s) (s : js320_drv_s) (metadata : Z) (data : list Z) : list item :=
  let ch := frame_channel metadata in
  match frame_head metadata data with
  | None => []
  | Some (dt, index) =>
      items (joined (str (md_prefix dev)) (str dt)) index (pd_samples_per_u32 (channel_def ch) * channel_decimate (dr_dwn s) ch)
        (frame_id data) (sample_bytes s ch <$> drop 2 data)
  end.

(** The family of a channel, and the drop window of the frame's family. *)
Definition channel_family (ch : Z) : option family :=
  if is_ivp ch then Some Signal else if (8 <=? ch) && (ch <=? 12) then Some Gpi else None.

Definition frame_drop (s : js320_drv_s) (metadata : Z) (data : list Z) : js320_drv_s * bool :=
  match frame_head metadata data, channel_family (frame_channel metadata) with
  | Some _, Some f => let '(a, drop) := js320_ack_should_drop (ack_of f s) (frame_id data) in (set_ack f s a, drop)
  | _, _ => (s, false)
  end.

(** The samples that arrive on a channel outside of the drop windows. *)
Fixpoint arrived (ch : Z) (s : js320_drv_s) (frames : list (mb_dev_s * (Z * list Z))) : list item :=
  match frames with
  | [] => []
  | (dev, (metadata, data)) :: frames =>
      let '(s', drop) := frame_drop s metadata data in
      (if (frame_channel metadata =? ch) && negb drop then frame_items dev s metadata data else []) ++ arrived ch s' frames
  end.

(** ** Lists of items *)

Lemma items_app t i step a b : forall id, items t i step id (a ++ b) = items t i step id a ++ items t i step (id + step * len a) b.
Proof.
  induction a as [|w a IH]; intros id; cbn [Datatypes.app items].
  - rewrite len_nil. f_equal. lia.
  - f_equal. rewrite IH, len_cons. do 2 f_equal. lia.
Qed.

Lemma items_u64 t i step ws : forall a b, u64 a = u64 b -> items t i step a ws = items t i step b ws.
Proof.
  induction ws as [|w ws IH]; intros a b E; [done|]. cbn [items]. f_equal; [by rewrite E|]. apply IH.
  unfold uwrap in *. rewrite Zplus_mod, E, <- Zplus_mod. done.
Qed.

Lemma chunks_concat ws : Forall (fun w => length w = 4%nat) ws -> chunks (length ws) (concat ws) = ws.
Proof.
  induction 1 as [|w ws Hw _ IH]; [done|]. cbn [length chunks concat].
  rewrite take_app_length' by done. rewrite drop_app_length' by done. by rewrite IH.
Qed.

Lemma length_concat4 ws : Forall (fun w => length w = 4%nat) ws -> length (@concat Z ws) = (4 * length ws)%nat.
Proof. induction 1 as [|w ws Hw _ IH]; [done|]. cbn [length concat]. rewrite length_app. lia. Qed.

Lemma sent_app ch a b : sent ch (a ++ b) = sent ch a ++ sent ch b.
Proof. unfold sent. by rewrite fmap_app, concat_app. Qed.

(** ** The channels *)

Definition channels : list Z := [0; 1; 2; 5; 6; 7; 8; 9; 10; 11; 12; 13].

Ltac channel_cases H :=
  unfold channels in H; rewrite !elem_of_cons, elem_of_nil in H; destruct_or! H; subst; try done.

(** Membership in a list of constants. *)
Ltac in_list := unfold channels; rewrite ?elem_of_cons; tauto.

Lemma channel_range ch : ch ∈ channels -> 0 <= ch < 16.
Proof. intros H. channel_cases H; lia. Qed.

Abbreviation spw ch := (pd_samples_per_u32 (channel_def ch)).
Abbreviation bits ch := (pd_element_size_bits (channel_def ch)).

Lemma channel_def_ok ch : ch ∈ channels -> ld PORT_DEFS ch = Ok (channel_def ch).
Proof. intros H. channel_cases H; reflexivity. Qed.

(** A word is filled by its samples. *)
Lemma channel_layout ch : ch ∈ channels -> 0 < spw ch <= 32 /\ bits ch * spw ch = 32 /\ 32 / bits ch = spw ch.
Proof. intros H. channel_cases H; vm_compute; repeat split; discriminate. Qed.

Lemma channel_decimate_ok d ch : ch ∈ channels ->
  exists x, js320_runtime_decimate d ch = Ok x /\ channel_decimate d ch = nonzero x.
Proof.
  intros H. unfold channel_decimate, js320_runtime_decimate, js320_device_decimate. rewrite (channel_def_ok _ H), !bind_Ok. eauto.
Qed.

(** The topic of a channel and index. *)
Definition port_topic (prefix : string) (ch index : Z) : cstr :=
  joined (str prefix)
    (str (if ch =? 2 then (if index =? 0 then "s/i/range/!data"%string else "s/v/range/!data"%string)
          else default EmptyString (pd_data_topic (channel_def ch)))).

(** ** The invariant of a port *)

(** The message that waits consists of [ws]. *)
Record msg_ok (prefix : string) (d : dwn_s) (ch : Z) (p : js320_port_s) (m : stream_msg_s) (ws : list (list Z)) : Prop := mk_msg_ok {
  mo_words : Forall (fun w => length w = 4%nat) ws;
  mo_data : s_data (sm_signal m) = concat ws;
  mo_count : s_element_count (sm_signal m) = len ws * spw ch;
  mo_bits : s_element_size_bits (sm_signal m) = bits ch;
  mo_decimate : s_decimate_factor (sm_signal m) = channel_decimate d ch;
  mo_channel : signal_channel (sm_signal m) = ch;
  mo_index : s_index (sm_signal m) = po_current_index p;
  mo_next : po_sample_id_next p = u64 (s_sample_id (sm_signal m) + len ws * spw ch * channel_decimate d ch);
  mo_topic : sm_topic m = port_topic prefix ch (po_current_index p);
}.

(** Less than [limit] bytes wait. *)
Definition port_ok (prefix : string) (d : dwn_s) (limit ch : Z) (p : js320_port_s) : Prop :=
  match po_msg_in p with
  | None => True
  | Some m => exists ws, msg_ok prefix d ch p m ws /\ 4 * len ws < limit
  end.

Lemma msg_items_ok prefix d ch p m ws : ch ∈ channels -> msg_ok prefix d ch p m ws ->
  msg_items m = items (sm_topic m) (po_current_index p) (spw ch * channel_decimate d ch) (s_sample_id (sm_signal m)) ws.
Proof.
  intros Hch [H1 H2 H3 H4 H5 H6 H7 H8 H9]. destruct (channel_layout ch Hch) as (_ & Hl & Hd). unfold msg_items, signal_items. rewrite H2, H3, H4, H5, H7, Hd.
  replace (len ws * spw ch * bits ch) with (len ws * (bits ch * spw ch)) by lia. rewrite Hl, Z.div_mul by done. unfold len. by rewrite Nat2Z.id, chunks_concat.
Qed.

(** Adding words to a message. *)
Lemma extend_ok prefix d ch p m ws vs rest id : ch ∈ channels -> msg_ok prefix d ch p m ws -> Forall (fun w => length w = 4%nat) vs ->
  4 * (len ws + len vs) <= JSDRV_STREAM_DATA_SIZE -> u64 id = po_sample_id_next p ->
  exists g, signal_extend (sm_signal m) (bits ch) (concat vs ++ rest) (u32 (len vs * spw ch)) = Ok g
    /\ msg_ok prefix d ch (port_next (port_msg p (Some (mk_stream_msg (sm_topic m) g))) (u64 (id + u64 (u32 (len vs * spw ch) * channel_decimate d ch))))
         (mk_stream_msg (sm_topic m) g) (ws ++ vs)
    /\ msg_items (mk_stream_msg (sm_topic m) g) =
         msg_items m ++ items (sm_topic m) (po_current_index p) (spw ch * channel_decimate d ch) id vs.
Proof.
  intros Hch Hm Hvs Hb Hid. pose proof Hm as [H1 H2 H3 H4 H5 H6 H7 H8 H9]. destruct (channel_layout ch Hch) as (Hs & Hl & Hd).
  unfold JSDRV_STREAM_DATA_SIZE in Hb. pose proof (len_nonneg ws). pose proof (len_nonneg vs).
  assert (len (concat ws) = 4 * len ws) as Lw by (unfold len; rewrite length_concat4 by done; lia).
  assert (len (concat vs) = 4 * len vs) as Lv by (unfold len; rewrite length_concat4 by done; lia).
  assert (u32 (len vs * spw ch) = len vs * spw ch) as En by (apply uwrap_small; widths; nia).
  unfold signal_extend. rewrite En, H2, Lw.
  assert (u32 (u32 (len vs * spw ch * bits ch) + 7) / 8 = 4 * len vs) as ->.
  { replace (len vs * spw ch * bits ch) with (32 * len vs) by nia. rewrite (uwrap_small 32 (32 * len vs)), uwrap_small by width_lia.
    symmetry. apply (Z.div_unique _ _ _ 7); lia. }
  unfold JSDRV_STREAM_HEADER_SIZE, JSDRV_STREAM_DATA_SIZE. simpl_cmp.
  unfold bytes_at. rewrite len_app, Lv. pose proof (len_nonneg rest). simpl_cmp. cbn [andb]. rewrite bind_Ok. change (Z.to_nat 0) with 0%nat.
  rewrite drop_0, take_app_length' by (unfold len in *; lia).
  match goal with |- exists g, Ok ?x = Ok g /\ _ => set (g' := x); exists g'; split; [done|] end.
  match goal with |- ?P /\ _ => assert P as Hm' end.
  { split; cbn [g' sm_signal sm_topic s_data s_element_count s_element_size_bits s_decimate_factor s_index s_sample_id po_current_index
      port_next port_msg po_sample_id_next]; try done.
    - by apply Forall_app.
    - by rewrite concat_app.
    - rewrite H3, len_app, uwrap_small; [lia|]. widths; nia.
    - rewrite len_app. unfold uwrap in Hid |- *. rewrite H8 in Hid. unfold uwrap in Hid. rewrite Zplus_mod_idemp_r, Zplus_mod, Hid, <- Zplus_mod.
      f_equal. lia. }
  split; [done|]. rewrite (msg_items_ok _ _ _ _ _ _ Hch Hm'), (msg_items_ok _ _ _ _ _ _ Hch Hm). rewrite items_app.
  cbn [sm_topic sm_signal s_sample_id port_next port_msg po_current_index]. f_equal. apply items_u64.
  rewrite Hid, H8. cbn [g' s_sample_id]. f_equal. lia.
Qed.

(** ** Operations on ports *)

Lemma wp_port_at ch p s (Q : js320_port_s -> js320_drv_s -> list drv_action -> Prop) :
  0 <= ch -> dr_ports s !! Z.to_nat ch = Some p -> Q p s [] -> wp (port_at ch) s Q.
Proof.
  intros Hch Hp HQ. apply wp_bind, wp_get. eapply wp_lift; [by apply ld_ok | done].
Qed.

Lemma wp_set_port ch p p0 s (Q : unit -> js320_drv_s -> list drv_action -> Prop) :
  0 <= ch -> dr_ports s !! Z.to_nat ch = Some p0 -> Q tt (set_ports s (<[Z.to_nat ch := p]> (dr_ports s))) [] -> wp (set_port ch p) s Q.
Proof.
  intros Hch Hp HQ. apply lookup_lt_Some in Hp. apply wp_bind, wp_get, wp_bind. eapply (wp_lift _ s); [apply st_ok; unfold len; lia|].
  by apply wp_modify.
Qed.

Lemma wp_dev_call a s (Q : unit -> js320_drv_s -> list drv_action -> Prop) : Q tt s [a] -> wp (dev_call a) s Q.
Proof. intros HQ. by exists tt, s, [a]. Qed.

Lemma set_ports_same s : set_ports s (dr_ports s) = s.
Proof. by destruct s. Qed.

Lemma port_msg_none p : po_msg_in p = None -> port_msg p None = p.
Proof. destruct p as [[m|] ? ? ? ? ?]; done. Qed.

Definition flush_calls (p : js320_port_s) : list drv_action := match po_msg_in p with None => [] | Some m => [DevSend m] end.

Lemma wp_flush ch p s (Q : unit -> js320_drv_s -> list drv_action -> Prop) : 0 <= ch -> dr_ports s !! Z.to_nat ch = Some p ->
  Q tt (set_ports s (<[Z.to_nat ch := port_msg p None]> (dr_ports s))) (flush_calls p) -> wp (js320_port_flush ch) s Q.
Proof.
  intros Hch Hp HQ. apply wp_bind, (wp_port_at ch p); [done | done |]. unfold flush_calls in HQ. destruct (po_msg_in p) as [m|] eqn:E.
  - apply wp_bind, (wp_set_port ch _ p); [done | done |]. by apply wp_dev_call.
  - apply wp_ret. rewrite port_msg_none, list_insert_id, set_ports_same in HQ by done. done.
Qed.

(** ** What flushing keeps *)

Abbreviation FULL := JS320_STREAM_PAYLOAD_FULL.

Section Invariant.
Context (prefix : string) (d : dwn_s).

(** Every message that waits is sound, and there are less than [limit ch] bytes on channel [ch]. *)
Definition ports_ok (limit : Z -> Z) (ps : list js320_port_s) : Prop :=
  length ps = 16%nat
  /\ forall ch p, 0 <= ch -> ps !! Z.to_nat ch = Some p -> if decide (ch ∈ channels) then port_ok prefix d (limit ch) ch p else po_msg_in p = None.

(** Some ports were flushed: nothing is lost. *)
Definition flushed (ps ps' : list js320_port_s) (o : list drv_action) : Prop :=
  length ps' = length ps
  /\ (forall k p, ps !! k = Some p -> exists p', ps' !! k = Some p' /\ (p' = p \/ p' = port_msg p None))
  /\ forall ch, ch ∈ channels -> sent ch o ++ pending ch ps' = pending ch ps.

Lemma flushed_refl ps : flushed ps ps [].
Proof. split; [done|]. split; [eauto|]. done. Qed.

Lemma flushed_trans a b c o o' : flushed a b o -> flushed b c o' -> flushed a c (o ++ o').
Proof.
  intros (L1 & P1 & S1) (L2 & P2 & S2). split; [congruence|]. split.
  - intros k p Hp. destruct (P1 k p Hp) as (q & Hq & Eq). destruct (P2 k q Hq) as (r & Hr & Er). exists r. split; [done|].
    destruct Eq as [-> | ->], Er as [-> | ->]; auto.
  - intros ch Hch. by rewrite sent_app, <- app_assoc, S2, S1.
Qed.

Lemma flushed_ok limit ps ps' o : flushed ps ps' o -> ports_ok limit ps -> ports_ok limit ps'.
Proof.
  intros (L & P & _) [Hl H]. split; [congruence|]. intros ch p' Hch Hp'.
  destruct (ps !! Z.to_nat ch) as [p|] eqn:Ep; [|apply lookup_lt_Some in Hp'; apply lookup_ge_None in Ep; lia].
  destruct (P _ p Ep) as (q & Hq & Eq). assert (q = p') as -> by congruence. specialize (H ch p Hch Ep).
  destruct Eq as [-> | ->]; [done|]. by destruct (decide (ch ∈ channels)).
Qed.

Lemma pending_insert ch ch' ps (p p' : js320_port_s) : 0 <= ch -> 0 <= ch' -> ps !! Z.to_nat ch = Some p ->
  pending ch' (<[Z.to_nat ch := p']> ps) = if ch' =? ch then port_items p' else pending ch' ps.
Proof.
  intros H1 H2 Hp. unfold pending. destruct (ch' =? ch) eqn:E; bool_facts.
  - subst. rewrite list_lookup_insert_eq; [done|]. by apply lookup_lt_Some in Hp.
  - rewrite list_lookup_insert_ne; [done|]. lia.
Qed.

Lemma sent_flush ch c p limit : c ∈ channels -> port_ok prefix d limit c p ->
  sent ch (flush_calls p) = if ch =? c then port_items p else [].
Proof.
  intros Hc Hp. unfold sent, flush_calls, port_items, port_ok in *. destruct (po_msg_in p) as [m|]; [|by case_if].
  destruct Hp as (ws & Hm & _). cbn [fmap list_fmap concat action_items]. rewrite (mo_channel _ _ _ _ _ _ Hm), Z.eqb_sym.
  case_if; by rewrite ?app_nil_r.
Qed.

Lemma flush_one limit ch p ps : ports_ok limit ps -> 0 <= ch -> ps !! Z.to_nat ch = Some p ->
  flushed ps (<[Z.to_nat ch := port_msg p None]> ps) (flush_calls p).
Proof.
  intros [Hl H] Hch Hp. specialize (H ch p Hch Hp). split; [by rewrite length_insert|]. split.
  - intros k q Hq. destruct (decide (k = Z.to_nat ch)) as [-> | Hne].
    + rewrite list_lookup_insert_eq by (by apply lookup_lt_Some in Hp). assert (q = p) as -> by congruence. eauto.
    + rewrite list_lookup_insert_ne by done. eauto.
  - intros c Hc. pose proof (channel_range c Hc). rewrite (pending_insert ch c ps p) by (done || lia).
    destruct (decide (ch ∈ channels)) as [Hin | Hin].
    + rewrite (sent_flush c ch p _ Hin H). case_if; subst; [|done]. unfold pending. by rewrite Hp, app_nil_r.
    + unfold flush_calls. rewrite H. cbn. case_if; [|done]. subst. done.
Qed.

Lemma wp_group_loop limit group : forall n ch s, ports_ok limit (dr_ports s) -> 0 <= ch -> ch + Z.of_nat n = 16 ->
  wp (group_loop n group ch) s (fun _ s' o => exists ps', s' = set_ports s ps' /\ flushed (dr_ports s) ps' o
    /\ forall c p, ch <= c < 16 -> pd_group (channel_def c) = group -> ps' !! Z.to_nat c = Some p -> po_msg_in p = None).
Proof.
  induction n as [|n IH]; intros ch s Hok Hch Hn; cbn [group_loop].
  { apply wp_ret. exists (dr_ports s). rewrite set_ports_same. split; [done|]. split; [apply flushed_refl|]. intros. lia. }
  assert (ld PORT_DEFS ch = Ok (channel_def ch)) as Hd.
  { destruct (ld_in_range PORT_DEFS ch) as (v & E & Ev); [change (len PORT_DEFS) with 16; lia|]. unfold channel_def. by rewrite Ev. }
  apply wp_bind, (wp_lift _ s _ _ Hd). destruct (lookup_lt_is_Some_2 (dr_ports s) (Z.to_nat ch)) as [p Hp]; [destruct Hok; lia|].
  apply wp_bind, (wp_port_at ch p); [done | done |]. apply wp_bind.
  assert (exists ps1 o1, flushed (dr_ports s) ps1 o1 /\ (pd_group (channel_def ch) = group -> forall q, ps1 !! Z.to_nat ch = Some q -> po_msg_in q = None)
    /\ wp (if (pd_group (channel_def ch) =? group) && bool_decide (is_Some (po_msg_in p)) then js320_port_flush ch else mret tt) s
         (fun _ s1 o => s1 = set_ports s ps1 /\ o = o1)) as (ps1 & o1 & F1 & G1 & W1).
  { case_if.
    - exists (<[Z.to_nat ch := port_msg p None]> (dr_ports s)), (flush_calls p). split; [by apply (flush_one limit)|]. split.
      + intros _ q. rewrite list_lookup_insert_eq by (by apply lookup_lt_Some in Hp). by intros [= <-].
      + by apply (wp_flush ch p).
    - exists (dr_ports s), []. split; [apply flushed_refl|]. split.
      + intros Hg q Hq. assert (q = p) as -> by congruence. destruct E as [E | E]; [done|].
        apply bool_decide_eq_false in E. by apply eq_None_not_Some.
      + apply wp_ret. by rewrite set_ports_same. }
  eapply wp_mono; [exact W1|]. intros _ s1 o [-> ->]. eapply wp_mono; [apply (IH (ch + 1)); [by apply (flushed_ok limit (dr_ports s) _ o1) | lia | lia]|].
  intros _ s' o (ps' & -> & F2 & G2). exists ps'. split; [done|]. cbn [dr_ports set_ports] in F2. split; [exact (flushed_trans _ _ _ _ _ F1 F2)|].
  intros c q Hc Hg Hq. destruct (decide (c = ch)) as [-> | Hne]; [|apply (G2 c q); [lia | done | done]].
  destruct (lookup_lt_is_Some_2 ps1 (Z.to_nat ch)) as [q1 Hq1]; [destruct F1 as [-> _]; destruct Hok; lia|].
  destruct F2 as (_ & P2 & _). destruct (P2 _ _ Hq1) as (q2 & Hq2 & Eq2). assert (q2 = q) as -> by congruence. specialize (G1 Hg _ Hq1).
  destruct Eq2 as [-> | ->]; done.
Qed.

(** The bounds while channel [ch] has taken one more frame, of at most 253 words. *)
Definition after_frame (ch c : Z) : Z := if c =? ch then FULL + 1012 else FULL.

Lemma ports_ok_tight ch ps : ports_ok (after_frame ch) ps -> 0 <= ch ->
  (forall p, ps !! Z.to_nat ch = Some p -> ch ∈ channels -> port_ok prefix d FULL ch p) -> ports_ok (fun _ => FULL) ps.
Proof.
  intros [Hl H] Hch Hp. split; [done|]. intros c p Hc Ep. specialize (H c p Hc Ep). destruct (decide (c ∈ channels)) as [Hin|]; [|done].
  unfold after_frame in H. destruct (c =? ch) eqn:E; bool_facts; [subst; by apply Hp | done].
Qed.

Lemma flushed_tight ch ps ps' o : ports_ok (after_frame ch) ps -> 0 <= ch -> flushed ps ps' o ->
  (forall p, ps' !! Z.to_nat ch = Some p -> po_msg_in p = None) -> ports_ok (fun _ => FULL) ps'.
Proof.
  intros Hok Hch F Hn. apply (ports_ok_tight ch); [exact (flushed_ok _ _ _ _ F Hok) | done |].
  intros p Hp _. unfold port_ok. by rewrite (Hn p Hp).
Qed.

Lemma wp_evaluate ch s : ch ∈ channels -> dr_dwn s = d -> ports_ok (after_frame ch) (dr_ports s) ->
  wp (js320_port_evaluate_flush ch) s (fun _ s' o => exists ps', s' = set_ports s ps' /\ flushed (dr_ports s) ps' o /\ ports_ok (fun _ => FULL) ps').
Proof.
  intros Hch Hd Hok. pose proof (channel_range ch Hch) as Hr. destruct (channel_layout ch Hch) as (Hs & Hl & _).
  destruct (lookup_lt_is_Some_2 (dr_ports s) (Z.to_nat ch)) as [p Hp]; [destruct Hok; lia|].
  assert (wp (js320_port_flush ch) s (fun _ s' o => exists ps', s' = set_ports s ps' /\ flushed (dr_ports s) ps' o /\ ports_ok (fun _ => FULL) ps')) as Hflush.
  { apply (wp_flush ch p); [lia | done |]. eexists. split; [done|].
    assert (flushed (dr_ports s) (<[Z.to_nat ch := port_msg p None]> (dr_ports s)) (flush_calls p)) as F by (apply (flush_one (after_frame ch)); done || lia).
    split; [done|]. apply (flushed_tight ch _ _ _ Hok ltac:(lia) F). intros q.
    rewrite list_lookup_insert_eq by (by apply lookup_lt_Some in Hp). by intros [= <-]. }
  assert (port_ok prefix d FULL ch p -> wp (mret tt) s (fun _ s' o => exists ps', s' = set_ports s ps' /\ flushed (dr_ports s) ps' o /\ ports_ok (fun _ => FULL) ps')) as Hkeep.
  { intros Hpo. apply wp_ret. exists (dr_ports s). rewrite set_ports_same. split; [done|]. split; [apply flushed_refl|].
    apply (ports_ok_tight ch _ Hok); [lia|]. intros q Hq _. by assert (q = p) as -> by congruence. }
  unfold js320_port_evaluate_flush. apply wp_bind, (wp_lift _ s _ _ (channel_def_ok ch Hch)).
  apply wp_bind, (wp_port_at ch p); [lia | done |]. destruct (po_msg_in p) as [m|] eqn:Em; [|apply Hkeep; unfold port_ok; by rewrite Em].
  case_if; [exact Hflush|]. pose proof Hok as [_ H]. specialize (H ch p ltac:(lia) Hp). rewrite decide_True in H by done.
  unfold port_ok in H. rewrite Em in H. destruct H as (ws & Hm & Hb). unfold after_frame in Hb. rewrite Z.eqb_refl in Hb.
  pose proof (len_nonneg ws). unfold JS320_STREAM_PAYLOAD_FULL, JSDRV_STREAM_DATA_SIZE, JSDRV_STREAM_HEADER_SIZE in Hb. cbv zeta.
  assert (u32 (u32 (s_element_count (sm_signal m) * bits ch) + 7) / 8 = 4 * len ws) as ->.
  { rewrite (mo_count _ _ _ _ _ _ Hm). replace (len ws * spw ch * bits ch) with (32 * len ws) by nia.
    rewrite (uwrap_small 32 (32 * len ws)), uwrap_small by width_lia. symmetry. apply (Z.div_unique _ _ _ 7); lia. }
  case_if; [exact Hflush|]. apply wp_bind, wp_get. rewrite Hd. destruct (channel_decimate_ok d ch Hch) as (x & Ex & _).
  apply wp_bind, (wp_lift _ s _ _ Ex). cbv zeta. assert (port_ok prefix d FULL ch p) as Hpo by (unfold port_ok; rewrite Em; eauto).
  case_if; [|by apply Hkeep]. case_if; [|exact Hflush]. unfold js320_group_flush. destruct (_ =? JS320_GROUP_NONE); [by apply Hkeep|].
  eapply wp_mono; [apply (wp_group_loop (after_frame ch)); done|]. intros _ s' o (ps' & -> & F & G). exists ps'. split; [done|].
  split; [done|]. apply (flushed_tight ch _ _ _ Hok ltac:(lia) F). intros q Hq. apply (G ch q); [lia | done | done].
Qed.

(** ** Appending a frame *)

Section Append.
Context (dev : mb_dev_s) (tm : jsdrv_time_map_s) (ch index : Z) (override : option string) (dt : string).
Context (Hch : ch ∈ channels) (Htm : md_time_map dev = Some tm).
Context (Hdt : (match override with Some t => Some t | None => pd_data_topic (channel_def ch) end) = Some dt).
Context (Htopic : device_topic dev dt = Ok (port_topic prefix ch index)).
Context (Hsignal : forall id x, signal_channel (js320_signal_init (channel_def ch) index id x tm) = ch).

(** A message that starts with the frame. *)
Lemma start_ok p id : is_u 64 id ->
  msg_ok prefix d ch (port_start p (mk_stream_msg (port_topic prefix ch index) (js320_signal_init (channel_def ch) index id (channel_decimate d ch) tm)) id index)
    (mk_stream_msg (port_topic prefix ch index) (js320_signal_init (channel_def ch) index id (channel_decimate d ch) tm)) [].
Proof.
  intros Hid. split; cbn [sm_signal sm_topic port_start po_current_index po_sample_id_next]; try done.
  cbn [js320_signal_init s_sample_id]. change (len []) with 0. rewrite !Z.mul_0_l, Z.add_0_r. by rewrite uwrap_small.
Qed.

(** What the append leaves in the port. *)
Definition appended (p p' : js320_port_s) : Prop :=
  po_enabled p' = po_enabled p /\ po_host_filter p' = po_host_filter p /\ po_filter_in_next p' = po_filter_in_next p.

Lemma put_ok p m ws vs rest id s o1 : msg_ok prefix d ch p m ws -> po_msg_in p = Some m -> Forall (fun w => length w = 4%nat) vs -> 4 * len ws < FULL ->
  len vs <= 253 -> u64 id = po_sample_id_next p -> is_Some (dr_ports s !! Z.to_nat ch) ->
  wp (g ← lift (signal_extend (sm_signal m) (bits ch) (concat vs ++ rest) (u32 (len vs * spw ch)));
      set_port ch (port_next (port_msg p (Some (mk_stream_msg (sm_topic m) g))) (u64 (id + u64 (u32 (len vs * spw ch) * channel_decimate d ch)))))
     s (fun _ s' o => exists p', s' = set_ports s (<[Z.to_nat ch := p']> (dr_ports s)) /\ o = [] /\ appended p p' /\ port_ok prefix d (FULL + 1012) ch p'
          /\ o1 ++ port_items p' = o1 ++ port_items p ++ items (sm_topic m) (po_current_index p) (spw ch * channel_decimate d ch) id vs).
Proof.
  intros Hm Em Hvs Hb Hn Hid [q Hq]. pose proof (len_nonneg vs). unfold JS320_STREAM_PAYLOAD_FULL, JSDRV_STREAM_DATA_SIZE, JSDRV_STREAM_HEADER_SIZE in Hb.
  destruct (extend_ok prefix d ch p m ws vs rest id Hch Hm Hvs) as (g & Eg & Hg & Hi); [unfold JSDRV_STREAM_DATA_SIZE; lia | done |].
  pose proof (channel_range ch Hch). apply wp_bind, (wp_lift _ s _ _ Eg), (wp_set_port ch _ q); [lia | done |].
  eexists. split; [done|]. split; [done|]. split; [done|]. split.
  - unfold port_ok. cbn [po_msg_in port_next port_msg]. exists (ws ++ vs). split; [done|]. rewrite len_app.
    unfold JS320_STREAM_PAYLOAD_FULL, JSDRV_STREAM_DATA_SIZE, JSDRV_STREAM_HEADER_SIZE. lia.
  - unfold port_items. rewrite Em. cbn [po_msg_in port_next port_msg]. by rewrite Hi.
Qed.

Lemma wp_append p vs rest id s : dr_dwn s = d -> ports_ok (fun _ => FULL) (dr_ports s) -> dr_ports s !! Z.to_nat ch = Some p ->
  Forall (fun w => length w = 4%nat) vs -> len vs <= 253 -> is_u 64 id ->
  wp (js320_port_append dev ch index override id (concat vs ++ rest) (u32 (len vs * spw ch))) s (fun _ s' o => exists p',
    s' = set_ports s (<[Z.to_nat ch := p']> (dr_ports s)) /\ appended p p' /\ port_ok prefix d (FULL + 1012) ch p'
    /\ (forall c, sent c o = if c =? ch then sent ch o else [])
    /\ sent ch o ++ port_items p' = port_items p ++ items (port_topic prefix ch index) index (spw ch * channel_decimate d ch) id vs).
Proof.
  intros Hd Hok Hp Hvs Hn Hid. pose proof (channel_range ch Hch) as Hr. pose proof Hok as [Hl H]. specialize (H ch p ltac:(lia) Hp).
  rewrite decide_True in H by done. unfold js320_port_append. apply wp_bind, (wp_lift _ s _ _ (channel_def_ok ch Hch)).
  destruct (channel_decimate_ok d ch Hch) as (x & Ex & Ed).
  (* the message goes on, or the port is empty *)
  assert (wp (port_align ch index id) s (fun _ s1 o1 =>
      (s1 = s /\ o1 = [] /\ exists m ws, po_msg_in p = Some m /\ msg_ok prefix d ch p m ws /\ 4 * len ws < FULL /\ id = po_sample_id_next p /\ index = po_current_index p)
      \/ s1 = set_ports s (<[Z.to_nat ch := port_msg p None]> (dr_ports s)) /\ o1 = flush_calls p)) as Halign.
  { apply wp_bind, (wp_port_at ch p); [lia | done |]. unfold port_ok in H. destruct (po_msg_in p) as [m|] eqn:Em.
    - case_if; [apply (wp_flush ch p); [lia | done | by right]|]. case_if; [apply (wp_flush ch p); [lia | done | by right]|].
      apply wp_ret. left. split; [done|]. split; [done|]. destruct H as (ws & Hm & Hb). eauto 10.
    - apply wp_ret. right. unfold flush_calls. rewrite Em, port_msg_none, list_insert_id, set_ports_same by done. done. }
  apply wp_bind. eapply wp_mono; [exact Halign|]. intros _ s1 o1 [(-> & -> & m & ws & Em & Hm & Hb & E1 & E2) | [-> ->]].
  - apply wp_bind, wp_get. rewrite Hd. apply wp_bind, (wp_lift _ s _ _ Ex). cbv zeta. rewrite <- Ed.
    apply wp_bind, (wp_port_at ch p); [lia | done |]. rewrite Em. apply wp_bind, wp_ret.
    eapply wp_mono; [apply (put_ok p m ws vs rest id s []); [done | done | done | done | done | subst id; by rewrite uwrap_small | eauto]|].
    intros _ s' o (p' & -> & -> & Ha & Hpo & Hi). exists p'. split; [done|]. split; [done|]. split; [done|].
    cbn [Datatypes.app] in *. split; [intros c; by case_if|]. rewrite (mo_topic _ _ _ _ _ _ Hm), <- E2 in Hi. done.
  - apply wp_bind, wp_get. cbn [dr_dwn set_ports]. rewrite Hd. apply wp_bind, (wp_lift _ _ _ _ Ex). cbv zeta. rewrite <- Ed.
    assert (dr_ports (set_ports s (<[Z.to_nat ch := port_msg p None]> (dr_ports s))) !! Z.to_nat ch = Some (port_msg p None)) as Hp1.
    { cbn [dr_ports set_ports]. apply list_lookup_insert_eq. by apply lookup_lt_Some in Hp. }
    apply wp_bind, (wp_port_at ch (port_msg p None)); [lia | done |]. cbn [po_msg_in port_msg]. apply wp_bind, wp_bind.
    eapply wp_lift.
    { unfold js320_stream_msg_alloc. rewrite Htm, Hdt, Htopic, bind_Ok. done. }
    apply wp_ret. pose proof (start_ok (port_msg p None) id Hid) as Hm0.
    eapply wp_mono; [apply (put_ok _ _ _ vs rest id _ (sent ch (flush_calls p)) Hm0); [done | done | done | done | by rewrite uwrap_small | by eexists]|].
    intros _ s' o (p' & -> & -> & Ha & Hpo & Hi). exists p'. split.
    { cbn [dr_ports set_ports]. by rewrite list_insert_insert_eq. }
    split; [done|]. split; [done|]. rewrite !app_nil_r, !app_nil_l. split.
    { intros c. rewrite (sent_flush c ch p FULL), (sent_flush ch ch p FULL) by done. rewrite Z.eqb_refl. done. }
    rewrite Hi. rewrite (sent_flush ch ch p FULL), Z.eqb_refl by done. unfold port_items at 2. cbn [po_msg_in port_start].
    unfold msg_items at 1, signal_items. cbn [sm_signal js320_signal_init s_data s_element_count Z.mul Z.div Z.div_eucl Z.to_nat chunks items Datatypes.app].
    done.
Qed.
End Append.
End Invariant.

(** ** One frame *)

(** The longest data topic has 15 characters. *)
Definition prefix_ok (prefix : string) : Prop := wf_cstr (str prefix) /\ len (str prefix) <= 47.
Definition dev_ok (prefix : string) (dev : mb_dev_s) : Prop := md_prefix dev = prefix /\ is_Some (md_time_map dev).

(** Everything but statistics; the length of a frame is a byte. *)
Definition frame_ok (metadata : Z) (data : list Z) : Prop :=
  frame_channel metadata <> 14 /\ len data <= 255 /\ Forall (is_u 32) data.

(** No filter of the host is in use and power comes from the instrument. *)
Definition plain (s : js320_drv_s) : Prop :=
  dr_power_compute_on_host s = false /\ Forall (fun p => po_host_filter p = None) (dr_ports s).

Definition stream_inv (prefix : string) (s : js320_drv_s) : Prop :=
  ports_ok prefix (dr_dwn s) (fun _ => FULL) (dr_ports s) /\ plain s.

Lemma device_topic_ok prefix dev dt : prefix_ok prefix -> md_prefix dev = prefix -> wf_cstr (str dt) -> len (str dt) <= 15 ->
  device_topic dev dt = Ok (joined (str prefix) (str dt)).
Proof.
  intros [Hw Hl] Hp Hdt Hlen. unfold device_topic. rewrite Hp.
  assert (topic_holds JSDRV_TOPIC_INIT []) as H0 by (repeat split; [constructor|]; exists (replicate 63 0); reflexivity).
  pose proof (jsdrv_topic_set_spec JSDRV_TOPIC_INIT [] (str prefix) H0 Hw) as H1. unfold JSDRV_TOPIC_LENGTH_MAX in H1.
  rewrite (proj2 (Z.ltb_lt _ _)) in H1 by lia. destruct H1 as (t1 & -> & H1). rewrite bind_Ok.
  pose proof (jsdrv_topic_append_spec t1 (str prefix) (str dt) H1 Hdt) as H2.
  assert (len (joined (str prefix) (str dt)) < JSDRV_TOPIC_LENGTH_MAX) as H3.
  { unfold joined, JSDRV_TOPIC_LENGTH_MAX. destruct (last (str prefix)); [|lia]. case_if; rewrite len_app, ?len_cons; lia. }
  rewrite (proj2 (Z.ltb_lt _ _) H3) in H2. destruct H2 as (t2 & -> & H2). rewrite bind_Ok. by rewrite (topic_holds_content _ _ H2).
Qed.

Lemma frame_channel_range metadata : 0 <= frame_channel metadata < 16.
Proof. unfold frame_channel. change 15 with (Z.ones 4). rewrite Z.land_ones by lia. apply Z.mod_pos_bound. lia. Qed.

Lemma frame_source_range metadata : 0 <= frame_source metadata < 16.
Proof. unfold frame_source. change 15 with (Z.ones 4). rewrite Z.land_ones by lia. apply Z.mod_pos_bound. lia. Qed.

(** Channels in use, and the others. *)
Lemma channel_split ch : 0 <= ch < 16 -> ch ∈ channels \/ pd_data_topic (channel_def ch) = None.
Proof.
  intros H. assert (ch = 0 \/ ch = 1 \/ ch = 2 \/ ch = 3 \/ ch = 4 \/ ch = 5 \/ ch = 6 \/ ch = 7 \/ ch = 8 \/ ch = 9 \/ ch = 10 \/ ch = 11
    \/ ch = 12 \/ ch = 13 \/ ch = 14 \/ ch = 15) as Hc by lia.
  destruct_or! Hc; subst; first [by right | left; in_list].
Qed.

(** The index of a converter frame names its channel. *)
Lemma adc_index ch source : ch = 0 \/ ch = 1 -> 0 <= source < 16 -> Z.lor (pd_index (channel_def ch)) source / 16 = ch.
Proof.
  intros Hc Hs. rewrite <- (Z.shiftr_div_pow2 _ 4) by lia. rewrite Z.shiftr_lor. rewrite (Z.shiftr_div_pow2 source) by lia.
  rewrite (Z.div_small source) by lia. destruct Hc as [-> | ->]; done.
Qed.

Lemma frame_target_ok prefix ch source override index : ch ∈ channels -> 0 <= source < 16 ->
  frame_target ch source (channel_def ch) = Some (override, index) ->
  exists dt dt0, pd_data_topic (channel_def ch) = Some dt0 /\ default dt0 override = dt
    /\ (match override with Some t => Some t | None => pd_data_topic (channel_def ch) end) = Some dt
    /\ wf_cstr (str dt) /\ len (str dt) <= 15 /\ port_topic prefix ch index = joined (str prefix) (str dt)
    /\ forall tm id x, signal_channel (js320_signal_init (channel_def ch) index id x tm) = ch.
Proof.
  intros Hch Hs E.
  unfold frame_target in E. channel_cases Hch; cbn [Z.eqb orb Pos.eqb] in E;
    try (injection E as <- <-; eexists _, _; (split; [reflexivity|]); (split; [reflexivity|]); (split; [reflexivity|]);
         (split; [vm_compute; repeat constructor; discriminate|]); (split; [by vm_compute|]); (split; [reflexivity|]);
         first [by intros | intros tm id x; apply (adc_index 0 source); auto | intros tm id x; apply (adc_index 1 source); auto]).
  case_if_in E; [done|]. injection E as <- <-. assert (source = 0 \/ source = 1) as [-> | ->] by lia;
    (eexists _, _; (split; [reflexivity|]); (split; [reflexivity|]); (split; [reflexivity|]);
         (split; [vm_compute; repeat constructor; discriminate|]); (split; [by vm_compute|]); (split; [reflexivity|]); by intros).
Qed.

Definition no_filters (ps : list js320_port_s) : Prop := Forall (fun p => po_host_filter p = None) ps.

Lemma flushed_no_filters ps ps' o : flushed ps ps' o -> no_filters ps -> no_filters ps'.
Proof.
  intros (L & P & _) H. apply Forall_lookup_2. intros k p' Hp'.
  destruct (ps !! k) as [p|] eqn:Ep; [|apply lookup_lt_Some in Hp'; apply lookup_ge_None in Ep; lia].
  destruct (P k p Ep) as (q & Hq & Eq). assert (q = p') as -> by congruence. pose proof (Forall_lookup_1 _ _ _ _ H Ep).
  by destruct Eq as [-> | ->].
Qed.

(** An append and the decision to send. *)
Lemma wp_deliver prefix dev tm ch index override dt vs rest id s :
  ch ∈ channels -> md_time_map dev = Some tm ->
  (match override with Some t => Some t | None => pd_data_topic (channel_def ch) end) = Some dt ->
  device_topic dev dt = Ok (port_topic prefix ch index) ->
  (forall id x, signal_channel (js320_signal_init (channel_def ch) index id x tm) = ch) ->
  ports_ok prefix (dr_dwn s) (fun _ => FULL) (dr_ports s) -> no_filters (dr_ports s) ->
  Forall (fun w => length w = 4%nat) vs -> len vs <= 253 -> is_u 64 id ->
  wp (js320_port_append dev ch index override id (concat vs ++ rest) (u32 (len vs * spw ch)) ;; js320_port_evaluate_flush ch) s
    (fun _ s' o => exists ps', s' = set_ports s ps' /\ ports_ok prefix (dr_dwn s) (fun _ => FULL) ps' /\ no_filters ps'
       /\ forall c, c ∈ channels -> sent c o ++ pending c ps' = pending c (dr_ports s)
            ++ (if c =? ch then items (port_topic prefix ch index) index (spw ch * channel_decimate (dr_dwn s) ch) id vs else [])).
Proof.
  intros Hch Htm Hdt Htopic Hsig Hok Hf Hvs Hn Hid. pose proof (channel_range ch Hch) as Hr.
  destruct (lookup_lt_is_Some_2 (dr_ports s) (Z.to_nat ch)) as [p Hp]; [destruct Hok; lia|].
  apply wp_bind. eapply wp_mono; [by apply (wp_append prefix (dr_dwn s) dev tm ch index override dt Hch Htm Hdt Htopic Hsig p vs rest id s)|].
  intros _ s1 o1 (p1 & -> & (A1 & A2 & A3) & Hpo & Ho & Hi). cbn [dr_ports dr_dwn set_ports].
  assert (ports_ok prefix (dr_dwn s) (after_frame ch) (<[Z.to_nat ch := p1]> (dr_ports s))) as Hok1.
  { destruct Hok as [Hl H]. split; [by rewrite length_insert|]. intros c q Hc Eq. unfold after_frame. destruct (c =? ch) eqn:E; bool_facts.
    - subst c. rewrite list_lookup_insert_eq in Eq by lia. injection Eq as <-. by rewrite decide_True.
    - rewrite list_lookup_insert_ne in Eq by lia. by apply H. }
  eapply wp_mono; [by apply (wp_evaluate prefix (dr_dwn s) ch)|]. intros _ s2 o2 (ps' & -> & F & Hok2). exists ps'. split; [done|]. split; [done|].
  split.
  { apply (flushed_no_filters _ _ _ F). apply Forall_insert; [done|]. rewrite A2. exact (Forall_lookup_1 _ _ _ _ Hf Hp). }
  intros c Hc. pose proof (channel_range c Hc). destruct F as (_ & _ & S2). cbn [dr_ports set_ports] in S2.
  rewrite sent_app, <- app_assoc, S2 by done. rewrite (pending_insert ch c _ p p1), Ho by (done || lia).
  case_if; [|by rewrite app_nil_r]. subst c. rewrite Hi. unfold pending. by rewrite Hp.
Qed.

(** The state and the verdict of the drop window. *)
Lemma wp_ack_drop f id s (Q : bool -> js320_drv_s -> list drv_action -> Prop) :
  (let '(a, drop) := js320_ack_should_drop (ack_of f s) id in Q drop (set_ack f s a) []) -> wp (ack_drop f id) s Q.
Proof.
  intros H. apply wp_bind, wp_get. destruct (js320_ack_should_drop (ack_of f s) id) as [a b]. apply wp_bind, wp_modify. by apply wp_ret.
Qed.

Lemma drop_2_length (data : list Z) : 2 <= len data -> len (drop 2 data) = len data - 2.
Proof. unfold len. rewrite length_drop. lia. Qed.

Lemma frame_id_ok data : 2 <= len data -> Forall (is_u 32) data -> u64_at data 0 = Ok (frame_id data) /\ is_u 64 (frame_id data).
Proof.
  intros Hl Hu. destruct data as [|a [|b data]]; [by vm_compute in Hl .. |]. unfold u64_at, frame_id. split; [done|].
  apply Forall_cons in Hu as [Ha Hu]. apply Forall_cons in Hu as [Hb _]. cbn. width_lia.
Qed.

Lemma frame_words_ok (data : list Z) : 2 <= len data -> words_at data 2 (len data - 2) = Ok (drop 2 data).
Proof.
  intros Hl. unfold words_at. simpl_cmp. cbn [andb]. change (Z.to_nat 2) with 2%nat.
  rewrite take_ge; [done|]. rewrite length_drop. unfold len. lia.
Qed.

Lemma f32_bytes_items s ch data : is_ivp ch = true ->
  f32_bytes ((fun w => f32_mul (f32_of_bits w) (frame_scale s ch)) <$> data) = concat (sample_bytes s ch <$> data).
Proof. intros E. unfold f32_bytes. rewrite <- list_fmap_compose. f_equal. apply list_fmap_ext. intros i w _. unfold sample_bytes. by rewrite E. Qed.

Lemma sample_bytes_4 s ch data : Forall (fun w => length w = 4%nat) (sample_bytes s ch <$> data).
Proof. apply Forall_fmap, Forall_forall. intros w _. apply length_le. Qed.

Section Frame.
Context (prefix : string) (dev : mb_dev_s) (metadata : Z) (data : list Z) (s : js320_drv_s).
Abbreviation ch := (frame_channel metadata).

(** What a frame leaves: the state but for ports and drop windows, and on each channel what was sent and what waits. *)
Definition frame_post (_ : unit) (s' : js320_drv_s) (o : list drv_action) : Prop :=
  exists ps', s' = set_ports (frame_drop s metadata data).1 ps' /\ stream_inv prefix s'
    /\ forall c, c ∈ channels -> sent c o ++ pending c ps' = pending c (dr_ports s)
         ++ (if (ch =? c) && negb (frame_drop s metadata data).2 then frame_items dev s metadata data else []).

Lemma frame_drop_same : let s0 := (frame_drop s metadata data).1 in
  dr_dwn s0 = dr_dwn s /\ dr_ports s0 = dr_ports s /\ dr_power_compute_on_host s0 = dr_power_compute_on_host s
  /\ (forall c, frame_scale s0 c = frame_scale s c).
Proof.
  unfold frame_drop. destruct (frame_head metadata data); [|done]. destruct (channel_family ch) as [[]|]; [..|done];
    by destruct (js320_ack_should_drop _ _).
Qed.

Lemma frame_none : stream_inv prefix s -> frame_head metadata data = None -> wp (mret tt : D unit) s frame_post.
Proof.
  intros Hs E. apply wp_ret. unfold frame_post, frame_drop, frame_items. rewrite E. exists (dr_ports s). rewrite set_ports_same. split; [done|].
  split; [done|]. intros c _. by case_if; rewrite app_nil_r.
Qed.

Lemma frame_dropped : stream_inv prefix s -> (frame_drop s metadata data).2 = true -> wp (mret tt : D unit) (frame_drop s metadata data).1 frame_post.
Proof.
  intros Hs E. destruct frame_drop_same as (D1 & D2 & D3 & _). apply wp_ret. exists (dr_ports s). rewrite <- D2, set_ports_same. split; [done|].
  split; [unfold stream_inv, plain; by rewrite D1, D2, D3|]. intros c _. by rewrite E, andb_false_r, app_nil_r.
Qed.

Lemma frame_accepted override index dt : prefix_ok prefix -> dev_ok prefix dev -> frame_ok metadata data -> stream_inv prefix s ->
  ch ∈ channels -> frame_head metadata data = Some (dt, index) -> is_u 64 (frame_id data) ->
  (match override with Some t => Some t | None => pd_data_topic (channel_def ch) end) = Some dt ->
  wf_cstr (str dt) -> len (str dt) <= 15 -> port_topic prefix ch index = joined (str prefix) (str dt) ->
  (forall tm id x, signal_channel (js320_signal_init (channel_def ch) index id x tm) = ch) -> (frame_drop s metadata data).2 = false ->
  wp (js320_port_append dev ch index override (frame_id data) (concat (sample_bytes s ch <$> drop 2 data))
        (u32 (len (sample_bytes s ch <$> drop 2 data) * spw ch)) ;; js320_port_evaluate_flush ch) (frame_drop s metadata data).1 frame_post.
Proof.
  intros Hpre [Hdp [tm Htm]] (_ & Hlen & _) [Hok [Hpw Hf]] Hch Hhead Hid Hov Hwf Hl15 Etop Hsig Ed. destruct frame_drop_same as (D1 & D2 & D3 & _).
  rewrite <- (app_nil_r (concat _)). eapply wp_mono.
  - apply (wp_deliver prefix dev tm ch index override dt); rewrite ?D1, ?D2; try done.
    + rewrite Etop. by apply device_topic_ok.
    + apply sample_bytes_4.
    + unfold len. rewrite length_fmap, length_drop. unfold len in Hlen. lia.
  - intros ? s' o (ps' & -> & Hok' & Hf' & Hs'). exists ps'. split; [done|]. split.
    { split; [exact Hok'|]. split; [by rewrite <- Hpw, <- D3 | done]. }
    intros c Hc. rewrite (Hs' c Hc), D1, D2, Ed, andb_true_r, Z.eqb_sym. f_equal. destruct (ch =? c); [|done].
    unfold frame_items. by rewrite Hhead, Etop, Hdp.
Qed.
End Frame.

(** ** The handler *)

Lemma wp_bind_inv {E S A B} (m : eff E S A) (k : A -> eff E S B) s (Q : B -> S -> list E -> Prop) :
  wp (m ≫= k) s Q -> wp m s (fun a s1 o1 => wp (k a) s1 (fun b s2 o2 => Q b s2 (o1 ++ o2))).
Proof. intros (b & s2 & o & Hm & HQ). apply op_bind_Ok in Hm as (a & s1 & o1 & o2 & E1 & E2 & ->). exists a, s1, o1. split; [done|]. by exists b, s2, o2. Qed.

Lemma wp_then_ret (m : D unit) s (Q : unit -> js320_drv_s -> list drv_action -> Prop) : wp m s Q -> wp (m ;; mret tt) s Q.
Proof. intros H. apply wp_bind. eapply wp_mono; [exact H|]. intros [] s' o HQ. apply wp_ret. by rewrite app_nil_r. Qed.

(** Current, voltage and power without filter and host computation. *)
Lemma wp_signal_plain dev ch id data s (Q : unit -> js320_drv_s -> list drv_action -> Prop) :
  is_ivp ch = true -> plain s -> length (dr_ports s) = 16%nat ->
  wp (js320_port_append dev ch 0 None id (concat (sample_bytes s ch <$> data)) (u32 (len (sample_bytes s ch <$> data) * spw ch)) ;;
      js320_port_evaluate_flush ch) s Q ->
  wp (handle_signal dev ch id data (u32 (len data * spw ch))) s Q.
Proof.
  intros Hi [Hp Hf] Hl H. unfold handle_signal. apply wp_bind, wp_get. cbv zeta. rewrite Hp, andb_false_r. cbn [andb]. apply wp_bind, wp_ret.
  destruct (lookup_lt_is_Some_2 (dr_ports s) (Z.to_nat ch)) as [p Hpp]; [unfold is_ivp in Hi; bool_facts; lia|].
  assert (po_host_filter p = None) as Hn by exact (Forall_lookup_1 _ _ _ _ Hf Hpp).
  assert (len (sample_bytes s ch <$> data) = len data) as El by (unfold len; by rewrite length_fmap). rewrite El in H.
  apply wp_bind, wp_bind, (wp_port_at ch p); [unfold is_ivp in Hi; bool_facts; lia | done |]. rewrite Hn, f32_bytes_items by done.
  apply wp_bind_inv in H. eapply wp_mono; [exact H|]. intros [] s1 o1 H1. apply wp_then_ret. exact H1.
Qed.

Lemma ivp_target ch source override index : is_ivp ch = true -> frame_target ch source (channel_def ch) = Some (override, index) ->
  override = None /\ index = 0.
Proof.
  intros Hi. unfold is_ivp in Hi. bool_facts. assert (ch = 5 \/ ch = 6 \/ ch = 7) as Hc by lia. destruct_or! Hc; subst; by intros [= <- <-].
Qed.

(** The drop window decides between the two outcomes. *)
Lemma wp_stream prefix dev metadata data s override index dt : prefix_ok prefix -> dev_ok prefix dev -> frame_ok metadata data -> stream_inv prefix s ->
  frame_channel metadata ∈ channels -> 2 <= len data -> frame_target (frame_channel metadata) (frame_source metadata) (channel_def (frame_channel metadata)) = Some (override, index) ->
  frame_head metadata data = Some (dt, index) -> is_u 64 (frame_id data) ->
  (match override with Some t => Some t | None => pd_data_topic (channel_def (frame_channel metadata)) end) = Some dt ->
  wf_cstr (str dt) -> len (str dt) <= 15 -> port_topic prefix (frame_channel metadata) index = joined (str prefix) (str dt) ->
  (forall tm id x, signal_channel (js320_signal_init (channel_def (frame_channel metadata)) index id x tm) = frame_channel metadata) ->
  wp (handle_stream dev (frame_channel metadata) index override (frame_id data) (drop 2 data) (u32 (len (drop 2 data) * spw (frame_channel metadata)))) s
    (frame_post prefix dev metadata data s).
Proof.
  intros Hpre Hdev Hfr Hs Hch E2 Et Hhead Hid Eov Hwf Hl15 Etop Hsig.
  pose proof (frame_accepted prefix dev metadata data s override index dt Hpre Hdev Hfr Hs Hch Hhead Hid Eov Hwf Hl15 Etop Hsig) as Hacc.
  pose proof (frame_dropped prefix dev metadata data s Hs) as Hdrop. destruct (frame_drop_same metadata data s) as (D1 & D2 & D3 & D4).
  destruct Hs as [[Hl16 _] Hplain].
  assert (is_ivp (frame_channel metadata) = false -> forall l, concat (le 4 <$> l) = concat (sample_bytes s (frame_channel metadata) <$> l)) as Hraw.
  { intros E l. f_equal. apply list_fmap_ext. intros i w _. unfold sample_bytes. by rewrite E. }
  assert (len (sample_bytes s (frame_channel metadata) <$> drop 2 data) = len (drop 2 data)) as El by (unfold len; by rewrite length_fmap).
  rewrite El in Hacc. unfold handle_stream. fold (is_ivp (frame_channel metadata)).
  unfold frame_drop in Hacc, Hdrop, D1, D2, D3, D4. rewrite Hhead in Hacc, Hdrop, D1, D2, D3, D4. unfold channel_family in Hacc, Hdrop, D1, D2, D3, D4.
  destruct (is_ivp (frame_channel metadata)) eqn:Ei.
  - destruct (ivp_target _ _ _ _ Ei Et) as [-> ->]. apply wp_bind, wp_ack_drop. destruct (js320_ack_should_drop _ _) as [a b]. cbn [fst snd] in *.
    destruct b; [by apply Hdrop|]. apply wp_signal_plain; [done | unfold plain; by rewrite D2, D3 | by rewrite D2 |].
    assert (forall l, sample_bytes (set_ack Signal s a) (frame_channel metadata) <$> l = sample_bytes s (frame_channel metadata) <$> l) as ->.
    { intros l. apply list_fmap_ext. intros i w _. unfold sample_bytes. by rewrite D4. }
    rewrite El. by apply Hacc.
  - rewrite (Hraw eq_refl). destruct ((8 <=? _) && _).
    + apply wp_bind, wp_ack_drop. destruct (js320_ack_should_drop _ _) as [a b]. cbn [fst snd] in *. destruct b; [by apply Hdrop | by apply Hacc].
    + apply wp_bind, wp_ret. by apply Hacc.
Qed.

Lemma wp_frame prefix dev metadata data s : prefix_ok prefix -> dev_ok prefix dev -> frame_ok metadata data -> stream_inv prefix s ->
  wp (js320_handle_app dev metadata data (len data)) s (frame_post prefix dev metadata data s).
Proof.
  intros Hpre Hdev Hfr Hs. pose proof Hfr as (Hns & Hlen & Hu). pose proof (frame_channel_range metadata) as Hr. pose proof (frame_source_range metadata) as Hsr.
  unfold js320_handle_app. change (Z.land metadata 15) with (frame_channel metadata). change (Z.land (Z.shiftr metadata 4) 15) with (frame_source metadata).
  cbv zeta. rewrite (proj2 (Z.eqb_neq _ _) Hns).
  destruct (len data <? 2) eqn:E2; [apply frame_none; [done|]; unfold frame_head; by rewrite E2|]. apply Z.ltb_ge in E2. unfold JS320_CH_COUNT. simpl_cmp.
  assert (PORT_DEFS !! Z.to_nat (frame_channel metadata) = Some (channel_def (frame_channel metadata))) as Hdef.
  { destruct (ld_in_range PORT_DEFS (frame_channel metadata)) as (v & _ & Ev); [exact Hr|]. unfold channel_def. by rewrite Ev. }
  apply wp_bind, (wp_lift _ s (channel_def (frame_channel metadata))); [by apply ld_ok; [lia|]|].
  assert (frame_head metadata data = match pd_data_topic (channel_def (frame_channel metadata)),
      frame_target (frame_channel metadata) (frame_source metadata) (channel_def (frame_channel metadata)) with
      Some dt, Some (override, index) => Some (default dt override, index) | _, _ => None end) as Hhead.
  { unfold frame_head. by rewrite Hdef, (proj2 (Z.ltb_ge _ _) E2). }
  destruct (pd_data_topic (channel_def (frame_channel metadata))) as [dt0|] eqn:Edt; [|by apply frame_none].
  assert (frame_channel metadata ∈ channels) as Hch by (destruct (channel_split _ Hr) as [? | ?]; [done | congruence]).
  destruct (frame_target _ (frame_source metadata) _) as [[override index]|] eqn:Et; [|by apply frame_none].
  destruct (frame_target_ok prefix _ _ _ _ Hch Hsr Et) as (dt & dt' & E0 & Edef & Eov & Hwf & Hl15 & Etop & Hsig).
  assert (dt' = dt0) as -> by congruence. rewrite Edef in Hhead. destruct (frame_id_ok data E2 Hu) as [Eid Hid].
  apply wp_bind, (wp_lift _ s _ _ Eid). cbv zeta. apply wp_bind, (wp_lift _ s _ _ (frame_words_ok data E2)). rewrite <- (drop_2_length data E2).
  by apply (wp_stream prefix dev metadata data s override index dt).
Qed.

(** ** Runs *)

Lemma arrived_ports ch frames : forall s ps, arrived ch (set_ports s ps) frames = arrived ch s frames.
Proof.
  induction frames as [|[dev [metadata data]] frames IH]; intros s ps; [done|]. cbn [arrived].
  assert (frame_drop (set_ports s ps) metadata data = (set_ports (frame_drop s metadata data).1 ps, (frame_drop s metadata data).2)) as ->.
  { unfold frame_drop. destruct (frame_head metadata data); [|done]. destruct (channel_family _) as [[]|]; [..|done]; cbn;
      by destruct (js320_ack_should_drop _ _). }
  destruct (frame_drop s metadata data) as [s' b]. cbn [fst snd]. by rewrite IH.
Qed.

Definition app_inputs (frames : list (mb_dev_s * (Z * list Z))) : list (mb_dev_s * drv_input) :=
  (fun '(dev, (metadata, data)) => (dev, D_app metadata data)) <$> frames.
Definition frames_ok (prefix : string) (frames : list (mb_dev_s * (Z * list Z))) : Prop :=
  Forall (fun '(dev, (metadata, data)) => dev_ok prefix dev /\ frame_ok metadata data) frames.

Lemma wp_frames prefix frames : prefix_ok prefix -> frames_ok prefix frames -> forall s, stream_inv prefix s ->
  wp (drv_steps (app_inputs frames)) s (fun _ s' o => stream_inv prefix s'
    /\ forall ch, ch ∈ channels -> sent ch o ++ pending ch (dr_ports s') = pending ch (dr_ports s) ++ arrived ch s frames).
Proof.
  intros Hpre Hfr. induction Hfr as [|[dev [metadata data]] frames [Hdev Hf] _ IH]; intros s Hs.
  - apply wp_ret. split; [done|]. intros ch _. by rewrite app_nil_r.
  - cbn [app_inputs fmap list_fmap drv_steps drv_step]. apply wp_bind. eapply wp_mono; [by apply (wp_frame prefix)|].
    intros ? s1 o1 (ps1 & Es1 & Hs1 & H1). eapply wp_mono; [by apply IH|]. intros ? s2 o2 [Hs2 H2]. split; [done|].
    intros ch Hch. cbn [arrived]. rewrite sent_app, <- app_assoc, (H2 ch Hch). subst s1. cbn [dr_ports set_ports]. rewrite arrived_ports, app_assoc, (H1 ch Hch).
    destruct (frame_drop s metadata data) as [s' b]. cbn [fst snd]. by rewrite <- app_assoc.
Qed.

(** ** Properties *)

(** C19. Frames of any channels but statistics, in any mix, from any state in which every message that waits is
    sound, no filter of the host is in use and power comes from the instrument: the driver runs without
    a fault, the same holds afterwards, and on each channel what was sent and what waits are together
    what waited before and the samples that arrived outside of drop windows: each once, in order,
    under the topic and index of its frame and with its own sample id, whatever was sent early
    because of a gap, a full message or the rate of another channel of the group. *)
Theorem frames_delivered prefix frames s : prefix_ok prefix -> frames_ok prefix frames -> stream_inv prefix s ->
  exists s' o, drv_steps (app_inputs frames) s = Ok (tt, s', o) /\ stream_inv prefix s'
    /\ forall ch, ch ∈ channels -> sent ch o ++ pending ch (dr_ports s') = pending ch (dr_ports s) ++ arrived ch s frames.
Proof. intros Hp Hf Hs. destruct (wp_frames prefix frames Hp Hf s Hs) as ([] & s' & o & E & H1 & H2). by exists s', o. Qed.

(** Ports without messages and filters. *)
Lemma stream_inv_idle prefix s : dr_power_compute_on_host s = false -> length (dr_ports s) = 16%nat ->
  Forall (fun p => po_msg_in p = None /\ po_host_filter p = None) (dr_ports s) -> stream_inv prefix s.
Proof.
  intros Hp Hl Hf. split; [split; [done|] | split; [done|]].
  - intros ch p _ Hlk. destruct (Forall_lookup_1 _ _ _ _ Hf Hlk) as [Hm _]. case_decide; [|done]. unfold port_ok. by rewrite Hm.
  - eapply Forall_impl; [exact Hf|]. by intros p [_ ?].
Qed.

Definition ex_prefix : string := "u/js320/000123".
Definition ex_dev : mb_dev_s := mk_mb_dev ex_prefix 0 (Some (mk_time_map 0 0 (f64_of_Z 16000000))) 0 true.

(** Current, an input, current after a gap, a converter, a range of voltage. *)
Definition ex_frames : list (mb_dev_s * (Z * list Z)) :=
  (ex_dev,.) <$> [(5, [160; 0; 1065353216; 1073741824]); (8, [160; 0; 5]); (5, [320; 0; 1077936128]); (0x31, [0; 1; 7; 8]); (0x12, [64; 0; 3])].

Example ex_arrived : arrived 5 js320_drv_factory ex_frames =
  items (joined (str ex_prefix) (str "s/i/!data")) 0 16 160 [le 4 1065353216; le 4 1073741824]
  ++ items (joined (str ex_prefix) (str "s/i/!data")) 0 16 320 [le 4 1077936128].
Proof. vm_compute. reflexivity. Qed.

Lemma frames_delivered_witness : exists s' o, drv_steps (app_inputs ex_frames) js320_drv_factory = Ok (tt, s', o) /\ stream_inv ex_prefix s'
  /\ forall ch, ch ∈ channels -> sent ch o ++ pending ch (dr_ports s') = pending ch (dr_ports js320_drv_factory) ++ arrived ch js320_drv_factory ex_frames.
Proof.
  apply (frames_delivered ex_prefix ex_frames js320_drv_factory).
  - split; [|by vm_compute]. repeat constructor; discriminate.
  - repeat constructor; (done || by vm_compute).
  - apply stream_inv_idle; [done | done |]. by repeat constructor.
Defined.
