(* ===== verification/Js320DrvRate.v ===== *)
(** * Rates and power of the JS320 driver (src/devices/js320/js320_drv.c)

    A command for the sample rate sets a register of the instrument and, below 1 kHz, a filter of the
    host.  What the driver reports, what it filters, where power is computed and which streams the
    instrument was told to send follow from the registers and the enables; this is the invariant of
    the commands.  A rate is accepted exactly when it can be had. *)

From Stdlib Require Import Strings.String.
From S2P Require Import Prelude Cstr ErrorCode Topic Float Time I128 SampleBuffer DownsampleSinc DeviceStats.
From S2P Require Import Effect MbDev Jtag Fwup BufferSignal Union Js320Cal Js320Drv Js320DrvStream.

(** ** What the state says *)

Abbreviation ivp := [5; 6; 7].

Definition enabled (s : js320_drv_s) (ch : Z) : bool := match dr_ports s !! Z.to_nat ch with Some p => po_enabled p | None => false end.
Definition host_filter (s : js320_drv_s) (ch : Z) : option jsdrv_downsample_sinc_s := dr_ports s !! Z.to_nat ch ≫= po_host_filter.
Definition sent_ctrl (s : js320_drv_s) (ch : Z) : Z := default JS320_CTRL_UNKNOWN (dr_last_sent_ctrl s !! Z.to_nat ch).

(** The rate of current, voltage and power. *)
Definition signal_rate (d : dwn_s) : Z :=
  JS320_SIGNAL_RATE_AFTER_DECIMATE / js320_signal_device_factor d / js320_signal_host_factor_active d.

(** The host computes power at the full rate when all three streams are on; then the instrument does not send it. *)
Definition host_power (s : js320_drv_s) : bool := (JS320_FS_DEFAULT <=? dr_fs s) && enabled s 5 && enabled s 6 && enabled s 7.
Definition wanted (s : js320_drv_s) (ch : Z) : Z := if (ch =? 7) && host_power s then 0 else if enabled s ch then 1 else 0.

(** The last control of channel [ch] that was published to the instrument. *)
Definition ctrl_of (ch : Z) (a : drv_action) : option Z :=
  match a, pd_ctrl_topic (channel_def ch) with
  | DevPublish t v, Some t' => if String.eqb t t' then int_value v else None
  | _, _ => None
  end.
Definition told (ch : Z) (o : list drv_action) : option Z := last (omap (ctrl_of ch) o).

(** The filter of the host finishes what the instrument leaves. *)
Definition filter_fits (d : dwn_s) (f : option jsdrv_downsample_sinc_s) : Prop :=
  let r := js320_signal_host_factor_active d in
  if r <=? 1 then f = None else exists x, f = Some x /\ ds_factor x = r /\ ds_order x = dw_signal_dwn_mode d /\ sinc_wf x.

Definition dwn_ok (d : dwn_s) : Prop :=
  0 <= dw_signal_dwn_n d <= 1000 /\ 0 <= dw_signal_dwn_mode d <= 3 /\ 1 <= dw_signal_host_factor d <= 1000.

(** The lists of the state have their lengths. *)
Definition lengths_ok (s : js320_drv_s) : Prop :=
  length (dr_ports s) = 16%nat /\ length (dr_last_sent_ctrl s) = 16%nat
  /\ length (tp_value (ca_saved (pt_cal (dr_parts s)))) = 20%nat /\ length (tp_known (ca_saved (pt_cal (dr_parts s)))) = 20%nat.

(** What was sent so far is [o]. *)
Record coherent (s : js320_drv_s) (o : list drv_action) : Prop := mk_coherent {
  co_lengths : lengths_ok s;
  co_dwn : dwn_ok (dr_dwn s);
  co_rate : dr_fs s = signal_rate (dr_dwn s);
  co_filter : forall ch, ch ∈ ivp -> filter_fits (dr_dwn s) (host_filter s ch);
  co_power : dr_power_compute_on_host s = host_power s;
  co_sent : forall ch, ch ∈ ivp -> sent_ctrl s ch = default JS320_CTRL_UNKNOWN (told ch o);
  co_told : forall ch, ch ∈ ivp -> told ch o = Some (wanted s ch) \/ told ch o = None /\ enabled s ch = false;
}.

Ltac ivp_cases H := rewrite !elem_of_cons, elem_of_nil in H; destruct_or! H; subst; try done.

(** ** Traces *)

Lemma told_app ch a b : told ch (a ++ b) = match told ch b with Some x => Some x | None => told ch a end.
Proof. unfold told. rewrite omap_app, last_app. by destruct (last (omap (ctrl_of ch) b)). Qed.

Lemma told_none ch o : Forall (fun a => ctrl_of ch a = None) o -> told ch o = None.
Proof. intros H. unfold told. induction H as [|a o Ha _ IH]; [done|]. cbn. by rewrite Ha. Qed.

(** No control of the three streams. *)
Definition quiet (o : list drv_action) : Prop := forall ch, ch ∈ ivp -> Forall (fun a => ctrl_of ch a = None) o.

Lemma quiet_nil : quiet [].
Proof. intros ch _. constructor. Qed.

Lemma quiet_app a b : quiet a -> quiet b -> quiet (a ++ b).
Proof. intros Ha Hb ch Hch. apply Forall_app. auto. Qed.

Lemma quiet_told ch a b : quiet b -> ch ∈ ivp -> told ch (a ++ b) = told ch a.
Proof. intros Hb Hch. by rewrite told_app, (told_none ch b (Hb ch Hch)). Qed.

Lemma quiet_one a : (forall ch, ch ∈ ivp -> ctrl_of ch a = None) -> quiet [a].
Proof. intros H ch Hch. by apply Forall_singleton, H. Qed.

(** ** Where power is computed *)

Abbreviation b2z b := (if b : bool then 1 else 0).

Definition ctrl_call (s : js320_drv_s) (ch w : Z) : list drv_action :=
  if sent_ctrl s ch =? w then [] else [DevPublish (default EmptyString (pd_ctrl_topic (channel_def ch))) (jsdrv_union_u32_r w)].

Lemma told_ctrl_call s ch c w : ch ∈ ivp -> c ∈ ivp -> w = 0 \/ w = 1 ->
  told ch (ctrl_call s c w) = if (ch =? c) && negb (sent_ctrl s c =? w) then Some w else None.
Proof.
  intros H1 H2 Hw. unfold ctrl_call. destruct (sent_ctrl s c =? w); [by rewrite andb_false_r|]. cbn [negb]. rewrite andb_true_r.
  destruct Hw as [-> | ->]; ivp_cases H1; ivp_cases H2.
Qed.

Lemma set_last_sent_same s : set_last_sent s (dr_last_sent_ctrl s) = s.
Proof. by destruct s. Qed.

Lemma wp_reconcile_one ch want wants s (Q : unit -> js320_drv_s -> list drv_action -> Prop) :
  ch ∈ ivp -> length (dr_last_sent_ctrl s) = 16%nat ->
  wp (reconcile_loop wants) (set_last_sent s (<[Z.to_nat ch := b2z want]> (dr_last_sent_ctrl s))) (fun a s' o => Q a s' (ctrl_call s ch (b2z want) ++ o)) ->
  wp (reconcile_loop ((ch, want) :: wants)) s Q.
Proof.
  intros Hch Hl H. cbn [reconcile_loop]. apply wp_bind, wp_get. assert (0 <= ch < 16) as Hr by (ivp_cases Hch; lia).
  destruct (lookup_lt_is_Some_2 (dr_last_sent_ctrl s) (Z.to_nat ch)) as [x Hx]; [lia|].
  apply wp_bind, (wp_lift _ s x); [apply ld_ok; [lia | done]|]. apply wp_bind, (wp_lift _ s (channel_def ch)).
  { apply channel_def_ok. clear -Hch. ivp_cases Hch; in_list. }
  unfold ctrl_call in H. assert (sent_ctrl s ch = x) as Es by (unfold sent_ctrl; by rewrite Hx). rewrite Es in H.
  apply wp_bind. destruct (x =? b2z want) eqn:E; cbn [negb].
  - apply Z.eqb_eq in E. rewrite <- E, list_insert_id, set_last_sent_same in H by done. by apply wp_ret.
  - apply wp_bind, (wp_lift _ s (<[Z.to_nat ch := b2z want]> (dr_last_sent_ctrl s))); [apply st_ok; unfold len; lia|].
    apply wp_bind, wp_modify. assert (pd_ctrl_topic (channel_def ch) = Some (default EmptyString (pd_ctrl_topic (channel_def ch)))) as Et.
    { clear -Hch. ivp_cases Hch. }
    rewrite Et. by apply wp_dev_call.
Qed.

Lemma port_exists s ch : length (dr_ports s) = 16%nat -> 0 <= ch < 16 -> exists p, dr_ports s !! Z.to_nat ch = Some p /\ po_enabled p = enabled s ch
  /\ po_host_filter p = host_filter s ch.
Proof.
  intros Hl Hr. destruct (lookup_lt_is_Some_2 (dr_ports s) (Z.to_nat ch)) as [p Hp]; [lia|]. exists p. unfold enabled, host_filter. by rewrite Hp.
Qed.

Lemma set_power_same s : set_power (set_sbufs s (dr_sbufs s)) (dr_power_compute_on_host s) = s.
Proof. by destruct s. Qed.

(** The controls that were sent, after one for each stream that differs. *)
Lemma told_after s o0 ch w5 w6 w7 : ch ∈ ivp -> (forall c, c ∈ ivp -> sent_ctrl s c = default JS320_CTRL_UNKNOWN (told c o0)) ->
  Forall (fun w => w = 0 \/ w = 1) [w5; w6; w7] ->
  told ch (o0 ++ ctrl_call s 5 w5 ++ ctrl_call s 6 w6 ++ ctrl_call s 7 w7) = Some (if ch =? 5 then w5 else if ch =? 6 then w6 else w7).
Proof.
  intros Hch Hs Hw. apply Forall_cons in Hw as [H5 Hw]. apply Forall_cons in Hw as [H6 Hw]. apply Forall_cons in Hw as [H7 _].
  rewrite !told_app, !told_ctrl_call by (done || in_list). specialize (Hs ch Hch).
  assert (forall w, (w = 0 \/ w = 1) -> sent_ctrl s ch = w -> told ch o0 = Some w) as Hd.
  { intros w Hw E. rewrite Hs in E. destruct (told ch o0); cbn in E; [by subst|]. unfold JS320_CTRL_UNKNOWN in E. lia. }
  ivp_cases Hch; cbn [Z.eqb Pos.eqb andb]; destruct (sent_ctrl s _ =? _) eqn:E; cbn [negb]; try done; apply Z.eqb_eq in E; by apply Hd.
Qed.

Lemma b2z_01 a b c : Forall (fun w => w = 0 \/ w = 1) [b2z a; b2z b; b2z c].
Proof. rewrite !Forall_cons. destruct a, b, c; auto 10. Qed.

Lemma ctrl_call_ne s c x ls ch w : Z.to_nat c <> Z.to_nat ch -> ls !! Z.to_nat ch = dr_last_sent_ctrl s !! Z.to_nat ch ->
  ctrl_call (set_last_sent s (<[Z.to_nat c := x]> ls)) ch w = ctrl_call s ch w.
Proof. intros Hne E. unfold ctrl_call, sent_ctrl. cbn [dr_last_sent_ctrl set_last_sent]. by rewrite list_lookup_insert_ne, E. Qed.

Lemma wp_reconcile_loop a b c s : length (dr_last_sent_ctrl s) = 16%nat ->
  wp (reconcile_loop [(5, a); (6, b); (7, c)]) s (fun _ s' o =>
    s' = set_last_sent s (<[Z.to_nat 7 := b2z c]> (<[Z.to_nat 6 := b2z b]> (<[Z.to_nat 5 := b2z a]> (dr_last_sent_ctrl s))))
    /\ o = ctrl_call s 5 (b2z a) ++ ctrl_call s 6 (b2z b) ++ ctrl_call s 7 (b2z c)).
Proof.
  intros Hl. apply wp_reconcile_one; [in_list | done |]. apply wp_reconcile_one; [in_list | by cbn [dr_last_sent_ctrl set_last_sent]; rewrite length_insert |].
  apply wp_reconcile_one; [in_list | by cbn [dr_last_sent_ctrl set_last_sent]; rewrite !length_insert |]. apply wp_ret.
  split; [done|]. rewrite app_nil_r. f_equal. f_equal; [by apply ctrl_call_ne|].
  cbn [dr_last_sent_ctrl set_last_sent]. unfold ctrl_call, sent_ctrl. cbn [dr_last_sent_ctrl set_last_sent]. by rewrite !list_lookup_insert_ne.
Qed.

Lemma wp_reconcile s o0 : lengths_ok s -> (forall c, c ∈ ivp -> sent_ctrl s c = default JS320_CTRL_UNKNOWN (told c o0)) ->
  wp js320_reconcile_power s (fun _ s' o => exists b ls, s' = set_last_sent (set_power (set_sbufs s b) (host_power s)) ls /\ length ls = 16%nat
    /\ forall ch, ch ∈ ivp -> told ch (o0 ++ o) = Some (wanted s ch) /\ sent_ctrl s' ch = wanted s ch).
Proof.
  intros (Hl & Hls & _) Hs. destruct (port_exists s 5 Hl) as (p5 & P5 & E5 & _); [lia|]. destruct (port_exists s 6 Hl) as (p6 & P6 & E6 & _); [lia|].
  destruct (port_exists s 7 Hl) as (p7 & P7 & E7 & _); [lia|]. unfold js320_reconcile_power.
  apply wp_bind, (wp_port_at 5 p5); [lia | done |]. apply wp_bind, (wp_port_at 6 p6); [lia | done |]. apply wp_bind, (wp_port_at 7 p7); [lia | done |].
  apply wp_bind, wp_get. cbv zeta. rewrite E5, E6, E7. change ((JS320_FS_DEFAULT <=? dr_fs s) && enabled s 5 && enabled s 6 && enabled s 7) with (host_power s).
  apply wp_bind. assert (wp (if negb (Bool.eqb (host_power s) (dr_power_compute_on_host s)) then modify (fun s0 => set_power (js320_sbufs_clear s0) (host_power s))
       else mret tt : D unit) s (fun _ s1 o1 => o1 = [] /\ exists b, s1 = set_power (set_sbufs s b) (host_power s))) as H1.
  { destruct (Bool.eqb (host_power s) (dr_power_compute_on_host s)) eqn:E; cbn [negb].
    - apply wp_ret. split; [done|]. exists (dr_sbufs s). apply Bool.eqb_prop in E. by rewrite E, set_power_same.
    - apply wp_modify. split; [done|]. by eexists. }
  eapply wp_mono; [exact H1|]. intros _ s1 o1 (-> & b & ->). eapply wp_mono; [by apply wp_reconcile_loop|]. intros _ s' o [-> ->].
  eexists b, _. split; [done|]. split; [by rewrite !length_insert|]. intros ch Hch. rewrite !app_nil_l.
  assert (forall c w, ctrl_call (set_power (set_sbufs s b) (host_power s)) c w = ctrl_call s c w) as Ec by done. rewrite !Ec. rewrite (told_after s o0 ch) by (done || apply b2z_01).
  unfold wanted, sent_ctrl. cbn [dr_last_sent_ctrl set_last_sent set_power set_sbufs].
  ivp_cases Hch; (split; [by destruct (host_power s)|]); rewrite ?list_lookup_insert_ne, list_lookup_insert_eq by (done || (rewrite ?length_insert; lia));
    by destruct (host_power s).
Qed.

(** ** Ports and filters under a change of rate *)

Definition filter_wf (f : option jsdrv_downsample_sinc_s) : Prop := forall x, f = Some x -> sinc_wf x.

Lemma fits_wf d f : filter_fits d f -> filter_wf f.
Proof. unfold filter_fits. intros H x ->. case_if_in H; [done|]. by destruct H as (y & [= ->] & _ & _ & H). Qed.

Lemma clear_wf x : sinc_wf x -> exists y, jsdrv_downsample_sinc_clear (Some x) = Some y /\ sinc_wf y /\ ds_factor y = ds_factor x /\ ds_order y = ds_order x.
Proof.
  intros [H1 H2 H3 H4 H5 H6 H7]. eexists. split; [done|]. split; [|done]. split; cbn; done || lia.
Qed.

Lemma clear_fits d f : filter_fits d f -> filter_fits d (jsdrv_downsample_sinc_clear f).
Proof.
  unfold filter_fits. cbv zeta. case_if; [by intros ->|]. intros (x & -> & H1 & H2 & H3). destruct (clear_wf x H3) as (y & -> & H4 & H5 & H6).
  exists y. split; [done|]. split; [by rewrite H5|]. by split; [rewrite H6|].
Qed.

Lemma clear_filter_wf f : filter_wf f -> filter_wf (jsdrv_downsample_sinc_clear f).
Proof. intros H y. destruct f as [x|]; [|done]. destruct (clear_wf x (H x eq_refl)) as (z & -> & Hz & _). by intros [= <-]. Qed.

Lemma filter_update_ok d f : dwn_ok d -> filter_wf f ->
  exists f', filter_update f (js320_signal_host_factor_active d) (dw_signal_dwn_mode d) = Ok f' /\ filter_fits d f'.
Proof.
  intros (_ & Hm & Hh) Hf. unfold filter_update, filter_fits. cbv zeta. case_if; [by eexists|].
  assert (FACTOR_MIN <= js320_signal_host_factor_active d <= FACTOR_MAX /\ ORDER_MIN <= dw_signal_dwn_mode d <= ORDER_MAX) as [Hr Ho].
  { unfold js320_signal_host_factor_active, FACTOR_MIN, FACTOR_MAX, ORDER_MIN, ORDER_MAX in *. repeat case_if; lia. }
  destruct (sinc_alloc_ok _ _ Hr Ho) as (x & Ex & Hx & Fx & Ox & _). destruct f as [y|]; [|exists (Some x); split; [done|]; eauto].
  case_if; [exists (Some x); split; [done|]; eauto|]. eexists. split; [done|]. destruct (clear_wf y (Hf y eq_refl)) as (z & -> & Hz & Fz & Oz).
  exists z. cbn in *. split; [done|]. split; [congruence|]. split; [congruence | done].
Qed.

(** Only the messages, the positions and the filters of ports change. *)
Definition same_enables (ps ps' : list js320_port_s) : Prop := length ps' = length ps /\ forall k, po_enabled <$> ps' !! k = po_enabled <$> ps !! k.

Lemma same_enables_refl ps : same_enables ps ps.
Proof. done. Qed.

Lemma same_enables_trans a b c : same_enables a b -> same_enables b c -> same_enables a c.
Proof. intros [L1 H1] [L2 H2]. split; [congruence|]. intros k. by rewrite H2. Qed.

Lemma same_enables_insert ps k p p' : ps !! k = Some p -> po_enabled p' = po_enabled p -> same_enables ps (<[k := p']> ps).
Proof.
  intros Hp E. split; [by rewrite length_insert|]. intros j. destruct (decide (j = k)) as [-> | Hne].
  - rewrite list_lookup_insert_eq by (by apply lookup_lt_Some in Hp). rewrite Hp. cbn. by rewrite E.
  - by rewrite list_lookup_insert_ne.
Qed.

Lemma same_enables_enabled s ps ch : same_enables (dr_ports s) ps -> enabled (set_ports s ps) ch = enabled s ch.
Proof.
  intros [_ H]. unfold enabled. cbn [dr_ports set_ports]. specialize (H (Z.to_nat ch)). destruct (ps !! _), (dr_ports s !! _); cbn in H; by simplify_eq.
Qed.

(** A filter of the host in a list of ports. *)
Abbreviation filter_at ps ch := (ps !! Z.to_nat ch ≫= po_host_filter).

Lemma filter_at_insert (ps : list js320_port_s) c (p p' : js320_port_s) ch : ps !! Z.to_nat c = Some p -> 0 <= c -> 0 <= ch ->
  filter_at (<[Z.to_nat c := p']> ps) ch = if ch =? c then po_host_filter p' else filter_at ps ch.
Proof.
  intros Hp Hc Hch. destruct (ch =? c) eqn:E; bool_facts.
  - subst. by rewrite list_lookup_insert_eq by (by apply lookup_lt_Some in Hp).
  - rewrite list_lookup_insert_ne by lia. done.
Qed.

Lemma wp_reset_ports chs : Forall (fun c => 0 <= c < 16) chs -> forall s, length (dr_ports s) = 16%nat ->
  wp (reset_ports chs) s (fun _ s' o => o = [] /\ exists ps, s' = set_ports s ps /\ same_enables (dr_ports s) ps
    /\ forall ch, 0 <= ch -> filter_at ps ch = filter_at (dr_ports s) ch \/ filter_at ps ch = jsdrv_downsample_sinc_clear (filter_at (dr_ports s) ch)).
Proof.
  induction 1 as [|c chs Hc _ IH]; intros s Hl; cbn [reset_ports].
  { apply wp_ret. split; [done|]. exists (dr_ports s). rewrite set_ports_same. split; [done|]. split; [apply same_enables_refl|]. auto. }
  destruct (port_exists s c Hl Hc) as (p & Hp & _). apply wp_bind, wp_bind, (wp_port_at c p); [lia | done |]. apply (wp_set_port c _ p); [lia | done |].
  eapply wp_mono; [apply IH; cbn [dr_ports set_ports]; by rewrite length_insert|]. intros _ s' o (-> & ps & -> & Hse & Hf). split; [done|]. exists ps. split; [done|].
  cbn [dr_ports set_ports] in *. split; [eapply same_enables_trans; [|exact Hse]; by eapply same_enables_insert|].
  intros ch Hch. specialize (Hf ch Hch). rewrite (filter_at_insert _ c p) in Hf by (done || lia). case_if_in Hf; [|done]. subst c. rewrite Hp. cbn in *.
  right. destruct Hf as [-> | ->]; [done|]. by destruct (po_host_filter p).
Qed.

Lemma wp_filters_loop d chs : dwn_ok d -> Forall (fun c => 0 <= c < 16) chs -> NoDup chs -> forall s, length (dr_ports s) = 16%nat ->
  (forall c, c ∈ chs -> filter_wf (filter_at (dr_ports s) c)) ->
  wp (filters_loop chs (js320_signal_host_factor_active d) (dw_signal_dwn_mode d)) s (fun _ s' o => o = [] /\ exists ps, s' = set_ports s ps
    /\ same_enables (dr_ports s) ps /\ forall c, 0 <= c -> if decide (c ∈ chs) then filter_fits d (filter_at ps c) else filter_at ps c = filter_at (dr_ports s) c).
Proof.
  intros Hd Hc. induction Hc as [|c chs Hc Hcs IH]; intros Hnd s Hl Hwf; cbn [filters_loop].
  { apply wp_ret. split; [done|]. exists (dr_ports s). rewrite set_ports_same. split; [done|]. split; [apply same_enables_refl|]. intros c _. done. }
  apply NoDup_cons in Hnd as [Hni Hnd]. destruct (port_exists s c Hl Hc) as (p & Hp & _). apply wp_bind, (wp_port_at c p); [lia | done |].
  destruct (filter_update_ok d (po_host_filter p) Hd) as (f & Ef & Hf); [pose proof (Hwf c ltac:(by left)) as H; rewrite Hp in H; exact H|].
  apply wp_bind, (wp_lift _ s _ _ Ef), wp_bind, (wp_set_port c _ p); [lia | done |].
  eapply wp_mono; [apply IH; [done | by cbn [dr_ports set_ports]; rewrite length_insert|]|].
  - intros c' Hc'. cbn [dr_ports set_ports]. assert (0 <= c' < 16) by (rewrite Forall_forall in Hcs; by apply Hcs).
    rewrite (filter_at_insert _ c p) by (done || lia). case_if; [subst; done|]. apply Hwf. by right.
  - intros _ s' o (-> & ps & -> & Hse & Hfl). split; [done|]. exists ps. split; [done|]. cbn [dr_ports set_ports] in *.
    split; [eapply same_enables_trans; [|exact Hse]; by eapply same_enables_insert|]. intros c' Hc'. specialize (Hfl c' Hc').
    rewrite (filter_at_insert _ c p) in Hfl by (done || lia). destruct (decide (c' ∈ chs)) as [Hin|Hin].
    + rewrite decide_True by (by right). done.
    + destruct (c' =? c) eqn:E; bool_facts; [subst; rewrite decide_True by (by left); by rewrite Hfl|].
      rewrite decide_False; [done|]. by intros [|]%elem_of_cons.
Qed.

(** ** A change of rate *)

(** What a change of rate or of the inputs' rate leaves alone. *)
Record calm (s s' : js320_drv_s) : Prop := mk_calm {
  cm_parts : dr_parts s' = dr_parts s;
  cm_dwn : dr_dwn s' = dr_dwn s;
  cm_power : dr_power_compute_on_host s' = dr_power_compute_on_host s;
  cm_sent : dr_last_sent_ctrl s' = dr_last_sent_ctrl s;
  cm_enables : same_enables (dr_ports s) (dr_ports s');
}.

Lemma calm_lengths s s' : calm s s' -> lengths_ok s -> lengths_ok s'.
Proof. intros [E1 E2 E3 E4 [E5 _]] (H1 & H2 & H3). unfold lengths_ok. rewrite E1, E4, E5. done. Qed.

Lemma calm_enabled s s' ch : calm s s' -> enabled s' ch = enabled s ch.
Proof. intros [_ _ _ _ E]. rewrite <- (same_enables_enabled s _ ch E). done. Qed.

Lemma wp_ack_begin dev f s (Q : unit -> js320_drv_s -> list drv_action -> Prop) :
  (forall a b o, quiet o -> Q tt (set_acks s a b) o) -> wp (js320_ack_begin dev f) s Q.
Proof.
  intros H. unfold js320_ack_begin. cbv zeta. apply wp_bind, wp_modify. apply wp_dev_call. destruct f; apply H; apply quiet_one; intros ch _; done.
Qed.

Lemma signal_streaming_ok s : length (dr_ports s) = 16%nat -> exists b, js320_signal_family_streaming s = Ok b.
Proof.
  intros Hl. unfold js320_signal_family_streaming. destruct (port_exists s 5 Hl) as (p5 & P5 & _); [lia|].
  destruct (port_exists s 6 Hl) as (p6 & P6 & _); [lia|]. destruct (port_exists s 7 Hl) as (p7 & P7 & _); [lia|].
  rewrite (ld_ok _ 5 p5), bind_Ok, (ld_ok _ 6 p6), bind_Ok, (ld_ok _ 7 p7), bind_Ok by (done || lia). eauto.
Qed.

Lemma gpi_streaming_ok s n : forall ch, length (dr_ports s) = 16%nat -> 0 <= ch -> ch + Z.of_nat n <= 16 -> exists b, gpi_streaming_loop n ch s = Ok b.
Proof.
  induction n as [|n IH]; intros ch Hl Hc Hn; [by eexists|]. cbn [gpi_streaming_loop]. destruct (port_exists s ch Hl) as (p & P & _); [lia|].
  rewrite (ld_ok _ ch p), bind_Ok by (done || lia). case_if; [by eexists|]. apply IH; [done | lia | lia].
Qed.

Lemma wp_dwn_changed dev s : lengths_ok s -> dwn_ok (dr_dwn s) -> (forall ch, ch ∈ ivp -> filter_wf (host_filter s ch)) ->
  wp (js320_signal_dwn_changed dev) s (fun _ s' o => calm s s' /\ quiet o /\ dr_fs s' = signal_rate (dr_dwn s)
    /\ forall ch, ch ∈ ivp -> filter_fits (dr_dwn s) (host_filter s' ch)).
Proof.
  intros (Hl & _) Hd Hw. unfold js320_signal_dwn_changed. apply wp_bind, wp_get. cbv zeta. apply wp_bind, wp_modify, wp_bind.
  assert (forall c, c ∈ ivp -> 0 <= c < 16) as Hr by (intros c Hc; ivp_cases Hc; lia). assert (Forall (fun c => 0 <= c < 16) ivp) as Hr' by (by apply Forall_forall).
  eapply wp_mono; [by apply wp_reset_ports|]. intros _ s1 o1 (-> & ps1 & -> & Hse1 & Hf1). cbn [dr_ports set_fs] in Hse1, Hf1.
  apply wp_bind. unfold js320_signal_filters_update. apply wp_bind, wp_get. cbn [dr_dwn set_ports set_fs].
  eapply wp_mono.
  { apply wp_filters_loop; [done | done | by apply (bool_decide_unpack _) | cbn [dr_ports set_ports]; destruct Hse1; congruence |].
    intros c Hc. cbn [dr_ports set_ports]. destruct (Hf1 c ltac:(by apply Hr)) as [-> | ->]; [by apply Hw | by apply clear_filter_wf, Hw]. }
  intros _ s2 o2 (-> & ps2 & -> & Hse2 & Hf2). cbn [dr_ports set_ports] in Hse2, Hf2. apply wp_bind, wp_modify, wp_bind, wp_get.
  match goal with |- context [js320_signal_family_streaming ?x] => set (s3 := x) end.
  assert (same_enables (dr_ports s) ps2) as Hse by (by eapply same_enables_trans).
  destruct (signal_streaming_ok s3) as [b Eb]; [change (dr_ports s3) with ps2; destruct Hse; congruence|].
  apply wp_bind, (wp_lift _ s3 _ _ Eb). assert (calm s s3 /\ dr_fs s3 = signal_rate (dr_dwn s) /\ forall ch, ch ∈ ivp -> filter_fits (dr_dwn s) (host_filter s3 ch)) as (H1 & H2 & H3).
  { split; [by split|]. split; [done|]. intros ch Hch. specialize (Hf2 ch ltac:(by apply Hr)). rewrite decide_True in Hf2 by done. exact Hf2. }
  destruct b; [apply wp_ack_begin; intros a b o Ho | apply wp_ret].
  - split; [destruct H1; by split|]. split; [|by split]. by rewrite !app_nil_l.
  - split; [done|]. split; [apply quiet_nil | by split].
Qed.

Lemma wp_gpi_changed dev s : lengths_ok s -> wp (gpi_dwn_changed dev) s (fun _ s' o => calm s s' /\ quiet o /\ dr_fs s' = dr_fs s
    /\ forall ch, ch ∈ ivp -> host_filter s' ch = host_filter s ch \/ host_filter s' ch = jsdrv_downsample_sinc_clear (host_filter s ch)).
Proof.
  intros (Hl & _). unfold gpi_dwn_changed. apply wp_bind. eapply wp_mono; [apply wp_reset_ports; [repeat constructor; lia | done]|].
  intros _ s1 o1 (-> & ps & -> & Hse & Hf). apply wp_bind, wp_get. destruct (gpi_streaming_ok (set_ports s ps) 5 8) as [b Eb]; [destruct Hse; cbn; congruence | lia | lia |].
  apply wp_bind, (wp_lift _ _ _ _ Eb). assert (forall ch, ch ∈ ivp -> host_filter (set_ports s ps) ch = host_filter s ch \/ host_filter (set_ports s ps) ch = jsdrv_downsample_sinc_clear (host_filter s ch)) as H3.
  { intros ch Hch. apply Hf. ivp_cases Hch; lia. }
  destruct b; [apply wp_ack_begin; intros a b o Ho | apply wp_ret].
  - split; [by split|]. split; [|by split]. by rewrite !app_nil_l.
  - split; [by split|]. split; [apply quiet_nil | by split].
Qed.

(** ** Commands *)

(** Everything but power and controls, which the next reconciliation settles. *)
Record settled (s : js320_drv_s) (o : list drv_action) : Prop := mk_settled {
  se_lengths : lengths_ok s;
  se_dwn : dwn_ok (dr_dwn s);
  se_rate : dr_fs s = signal_rate (dr_dwn s);
  se_filter : forall ch, ch ∈ ivp -> filter_fits (dr_dwn s) (host_filter s ch);
  se_sent : forall ch, ch ∈ ivp -> sent_ctrl s ch = default JS320_CTRL_UNKNOWN (told ch o);
}.

Lemma wp_reconcile_coherent s o0 : settled s o0 -> wp js320_reconcile_power s (fun _ s' o => coherent s' (o0 ++ o) /\ dr_dwn s' = dr_dwn s /\ dr_fs s' = dr_fs s).
Proof.
  intros [Hl Hd Hr Hf Hs]. eapply wp_mono; [by apply (wp_reconcile s o0)|]. intros _ s' o (b & ls & -> & Hls & Ht). split; [|done]. split; try done.
  - destruct Hl as (H1 & _ & H3). done.
  - intros ch Hch. by rewrite (proj1 (Ht ch Hch)), (proj2 (Ht ch Hch)).
  - intros ch Hch. left. by rewrite (proj1 (Ht ch Hch)).
Qed.

(** After the registers have their new values. *)
Lemma wp_changed_then dev a s o0 : lengths_ok s -> dwn_ok (dr_dwn s) -> (forall ch, ch ∈ ivp -> filter_wf (host_filter s ch)) ->
  (forall ch, ch ∈ ivp -> sent_ctrl s ch = default JS320_CTRL_UNKNOWN (told ch o0)) -> quiet [a] ->
  wp (js320_signal_dwn_changed dev ;; dev_call a ;; js320_reconcile_power) s (fun _ s' o => coherent s' (o0 ++ o) /\ dr_dwn s' = dr_dwn s).
Proof.
  intros Hl Hd Hw Hs Hq. apply wp_bind. eapply wp_mono; [by apply wp_dwn_changed|]. intros _ s1 o1 (Hc & Ho1 & Hr & Hf).
  apply wp_bind, wp_dev_call. eapply wp_mono; [apply (wp_reconcile_coherent s1 (o0 ++ o1 ++ [a]))|].
  - split; [by eapply calm_lengths | by rewrite (cm_dwn _ _ Hc) .. |].
    intros ch Hch. unfold sent_ctrl. rewrite (cm_sent _ _ Hc). rewrite quiet_told by (done || by apply quiet_app). by apply Hs.
  - intros _ s' o (H & E & _). rewrite <- !app_assoc in *. split; [done|]. by rewrite E, (cm_dwn _ _ Hc).
Qed.

Definition dwn_with_n (d : dwn_s) (n : Z) : dwn_s := mk_dwn n (dw_signal_dwn_mode d) (dw_signal_host_factor d) (dw_gpi_dwn_mode d) (dw_gpi_dwn_n d).
Definition dwn_with_mode (d : dwn_s) (mode : Z) : dwn_s := mk_dwn (dw_signal_dwn_n d) mode (dw_signal_host_factor d) (dw_gpi_dwn_mode d) (dw_gpi_dwn_n d).
Definition dwn_with_host (d : dwn_s) (r : Z) : dwn_s := mk_dwn (dw_signal_dwn_n d) (dw_signal_dwn_mode d) r (dw_gpi_dwn_mode d) (dw_gpi_dwn_n d).

Lemma quiet_publish t v : t ∈ ["s/dwnN/N"; "s/dwnN/mode"; "s/gpi/+/dwnN/mode"; "s/gpi/+/dwnN/N"]%string -> quiet [DevPublish t v].
Proof.
  intros Ht. apply quiet_one. intros ch Hch. rewrite !elem_of_cons, elem_of_nil in Ht. ivp_cases Hch; destruct_or! Ht; try done; by subst.
Qed.

Lemma wp_apply_n dev n s o0 : lengths_ok s -> dwn_ok (dwn_with_n (dr_dwn s) n) -> (forall ch, ch ∈ ivp -> filter_wf (host_filter s ch)) ->
  (forall ch, ch ∈ ivp -> sent_ctrl s ch = default JS320_CTRL_UNKNOWN (told ch o0)) ->
  wp (js320_apply_signal_dwn_n dev n) s (fun _ s' o => coherent s' (o0 ++ o) /\ dr_dwn s' = dwn_with_n (dr_dwn s) n).
Proof.
  intros Hl Hd Hw Hs. unfold js320_apply_signal_dwn_n. apply wp_bind, wp_modify.
  eapply wp_mono; [apply (wp_changed_then dev _ _ o0); [done | done | done | done | by apply quiet_publish; in_list]|]. intros ? s' o H. exact H.
Qed.

Lemma wp_apply_mode dev mode s o0 : lengths_ok s -> dwn_ok (dwn_with_mode (dr_dwn s) mode) -> (forall ch, ch ∈ ivp -> filter_wf (host_filter s ch)) ->
  (forall ch, ch ∈ ivp -> sent_ctrl s ch = default JS320_CTRL_UNKNOWN (told ch o0)) ->
  wp (js320_apply_signal_dwn_mode dev mode) s (fun _ s' o => coherent s' (o0 ++ o)).
Proof.
  intros Hl Hd Hw Hs. unfold js320_apply_signal_dwn_mode. apply wp_bind, wp_modify.
  eapply wp_mono; [apply (wp_changed_then dev _ _ o0); [done | done | done | done | by apply quiet_publish; in_list]|]. intros ? s' o [H _]. exact H.
Qed.

(** A change that the invariant does not see. *)
Lemma coherent_calm s s' o o' : coherent s o -> calm s s' -> dr_fs s' = dr_fs s -> quiet o' ->
  (forall ch, ch ∈ ivp -> host_filter s' ch = host_filter s ch \/ host_filter s' ch = jsdrv_downsample_sinc_clear (host_filter s ch)) -> coherent s' (o ++ o').
Proof.
  intros [H1 H2 H3 H4 H5 H6 H7] Hc Ef Hq Hf. assert (forall ch, enabled s' ch = enabled s ch) as Ee by (intros ch; by apply calm_enabled).
  assert (host_power s' = host_power s) as Ep by (unfold host_power; by rewrite Ef, !Ee). split.
  - by eapply calm_lengths.
  - by rewrite (cm_dwn _ _ Hc).
  - by rewrite Ef, (cm_dwn _ _ Hc).
  - intros ch Hch. rewrite (cm_dwn _ _ Hc). destruct (Hf ch Hch) as [-> | ->]; [by apply H4 | by apply clear_fits, H4].
  - by rewrite (cm_power _ _ Hc), Ep.
  - intros ch Hch. unfold sent_ctrl. rewrite (cm_sent _ _ Hc), quiet_told by done. by apply H6.
  - intros ch Hch. unfold wanted. rewrite quiet_told, Ep, Ee by done. by apply H7.
Qed.

Lemma wp_apply_gpi dev (m : Z -> D unit) n s o0 : coherent s o0 -> m = js320_apply_gpi_dwn_mode dev \/ m = js320_apply_gpi_dwn_n dev ->
  wp (m n) s (fun _ s' o => coherent s' (o0 ++ o)).
Proof.
  intros H Hm. assert (forall d t, dw_signal_dwn_n d = dw_signal_dwn_n (dr_dwn s) -> dw_signal_dwn_mode d = dw_signal_dwn_mode (dr_dwn s) ->
     dw_signal_host_factor d = dw_signal_host_factor (dr_dwn s) -> t ∈ ["s/gpi/+/dwnN/mode"; "s/gpi/+/dwnN/N"]%string ->
     wp (gpi_dwn_changed dev ;; dev_call (DevPublish t (jsdrv_union_u32_r n))) (set_dwn s d) (fun _ s' o => coherent s' (o0 ++ o))) as Hg.
  { intros d t E1 E2 E3 Ht. apply wp_bind. eapply wp_mono; [apply wp_gpi_changed; apply H|]. intros _ s1 o1 (Hc & Hq & Ef & Hf). apply wp_dev_call.
    apply (coherent_calm (set_dwn s d)); [| done | done | | done].
    - destruct H as [H1 H2 H3 H4 H5 H6 H7]. unfold dwn_ok, signal_rate, filter_fits, js320_signal_device_factor, js320_signal_host_factor_active in *.
      split; try done; cbn [dr_dwn dr_fs set_dwn]; unfold dwn_ok, signal_rate, filter_fits, js320_signal_device_factor, js320_signal_host_factor_active; by rewrite E1, E2, E3 || by rewrite E2, E3.
    - apply quiet_app; [done|]. apply quiet_publish. rewrite !elem_of_cons, elem_of_nil in Ht. destruct_or! Ht; try done; subst; in_list. }
  destruct Hm as [-> | ->]; unfold js320_apply_gpi_dwn_mode, js320_apply_gpi_dwn_n; apply wp_bind, wp_modify;
    (eapply wp_mono; [apply Hg; try done; in_list|]; by intros).
Qed.

(** ** Values *)

Lemma as_word_u32 x v : is_int x -> int_value x = Some v ->
  exists b, as_word x JSDRV_UNION_U32 = Ok (if (0 <=? v) && (v <=? U32_MAX) then (0, b) else (EC_PARAMETER_INVALID, 0)) /\ (0 <= v <= U32_MAX -> u32 b = v).
Proof.
  intros Hx Hv. destruct (as_type_int x JSDRV_UNION_U32 v 0 U32_MAX Hx eq_refl Hv) as (y & Ey & Hy & Ht). unfold as_word. rewrite Ey, bind_Ok.
  destruct ((0 <=? v) && (v <=? U32_MAX)) eqn:E; cbn [negb].
  - bool_facts. specialize (Ht ltac:(lia)). unfold int_value in Hy. unfold word. destruct (value y) as [b|]; [|done]. rewrite bind_Ok.
    exists b. split; [done|]. intros _. rewrite Ht in Hy. by injection Hy.
  - exists 0. split; [done|]. intros ?. bool_facts. lia.
Qed.

Lemma union_as_u32_ok x : is_int x -> exists r, union_as_u32 x = Ok r.
Proof.
  intros Hx. pose proof Hx as [Ht (b & Hb & _)]. assert (exists v, int_value x = Some v) as [v Hv].
  { unfold int_value. rewrite Hb. int_cases Ht; cbn; eauto. }
  destruct (as_word_u32 x v Hx Hv) as (w & Ew & _). revert Ew. unfold as_word, union_as_u32. destruct (jsdrv_union_as_type x JSDRV_UNION_U32) as [[rc y]|]; [|done].
  rewrite !bind_Ok. destruct (negb (rc =? 0)); [by eexists|]. destruct (word y); [by eexists | done].
Qed.

(** ** The calibration part only looks at the commands of the driver *)

Definition own_topics : list string :=
  ["s/i/ctrl"; "s/v/ctrl"; "s/p/ctrl"; "h/fs"; "h/fp"; "h/i_scale"; "h/v_scale"; "s/dwnN/N"; "s/dwnN/mode"; "s/gpi/+/dwnN/mode"; "s/gpi/+/dwnN/N"]%string.

Ltac topic_cases Ht := unfold own_topics in Ht; rewrite !elem_of_cons, elem_of_nil in Ht; destruct_or! Ht; try done; subst.

Lemma wp_cal_looks prefix now t v s : t ∈ own_topics -> is_int v -> lengths_ok s ->
  wp (cal (js320_cal_handle_cmd prefix now t v)) s (fun r s' o => r = false /\ o = [] /\ lengths_ok s'
    /\ exists x, s' = set_parts s (mk_parts (pt_jtag (dr_parts s)) (pt_fwup (dr_parts s)) x)).
Proof.
  intros Ht Hv (H1 & H2 & H3 & H4).
  assert (wp (js320_cal_handle_cmd prefix now t v) (pt_cal (dr_parts s)) (fun r x o => r = false /\ o = []
    /\ length (tp_value (ca_saved x)) = 20%nat /\ length (tp_known (ca_saved x)) = 20%nat)) as (r & x & o & E & -> & -> & L1 & L2).
  { unfold js320_cal_handle_cmd. cbv zeta. destruct (0 <=? save_index t) eqn:Ei.
    - assert (0 <= save_index t < 20) as Hi.
      { split; [by apply Z.leb_le|]. topic_cases Ht; done. }
      apply wp_bind. unfold cal_observe. destruct (union_as_u32_ok v Hv) as [r Er]. apply wp_bind, (wp_lift _ _ _ _ Er).
      destruct r as [n|]; [|by repeat apply wp_ret]. apply wp_bind, wp_get.
      apply wp_bind. eapply wp_lift; [apply st_ok; unfold len; lia|]. apply wp_bind. eapply wp_lift; [apply st_ok; unfold len; lia|].
      apply wp_modify, wp_ret. cbn. by rewrite !length_insert.
    - assert (String.eqb t "h/cal/!cmd" = false) as ->; [|by apply wp_ret].
      topic_cases Ht; done. }
  exists false, (set_parts s (mk_parts (pt_jtag (dr_parts s)) (pt_fwup (dr_parts s)) x)), []. unfold cal, part. rewrite E. split; [done|].
  split; [done|]. split; [done|]. split; [done|]. by eexists.
Qed.

(** ** The handlers *)

Lemma coherent_settled s o : coherent s o -> settled s o.
Proof. intros [H1 H2 H3 H4 H5 H6 H7]. by split. Qed.

Lemma wp_stream_ctrl ch value v s o0 : ch ∈ ivp -> is_int value -> int_value value = Some v -> coherent s o0 ->
  wp (js320_handle_stream_ctrl ch value) s (fun _ s' o => coherent s' (o0 ++ o)).
Proof.
  intros Hch Hi Hv H. destruct (as_word_u32 value v Hi Hv) as (b & Eb & _). unfold js320_handle_stream_ctrl.
  apply wp_bind, (wp_lift _ s _ _ Eb). case_if; cbn [fst snd]; [|apply wp_ret; by rewrite !app_nil_r].
  cbn [Z.eqb negb]. assert (0 <= ch < 16) as Hr by (ivp_cases Hch; lia). pose proof (coherent_settled _ _ H) as [(Hl & Hl2) Hd Hrt Hf Hs].
  destruct (port_exists s ch Hl Hr) as (p & Hp & _). apply wp_bind, (wp_port_at ch p); [lia | done |]. apply wp_bind, (wp_set_port ch _ p); [lia | done |].
  apply wp_bind, wp_bind, (wp_port_at ch (port_enable p (negb (u32 b =? 0)))); [lia | by cbn; rewrite list_lookup_insert_eq by lia |].
  apply (wp_set_port ch _ (port_enable p (negb (u32 b =? 0)))); [lia | by cbn; rewrite list_lookup_insert_eq by lia |]. apply wp_bind, wp_modify, wp_bind.
  cbn [dr_ports set_ports]. rewrite list_insert_insert_eq.
  eapply wp_mono; [apply (wp_reconcile_coherent _ o0)|].
  - split; cbn [dr_dwn dr_fs set_sbufs set_ports]; try done.
    + split; [by cbn; rewrite length_insert | done].
    + intros c Hc. unfold host_filter. cbn [dr_ports set_sbufs set_ports]. rewrite (filter_at_insert _ ch p) by (done || (ivp_cases Hc; lia)).
      case_if; [|by apply Hf]. subst c. cbn [po_host_filter port_enable]. apply clear_fits. specialize (Hf ch Hch). unfold host_filter in Hf. by rewrite Hp in Hf.
  - intros ? s' o (Hc & _ & _). apply wp_ret. rewrite !app_nil_l, app_nil_r. done.
Qed.

(** ** Sample rates *)

(** The rates that the instrument, with the filters of the host, can deliver exactly: the gateware has no factor of two. *)
Definition fs_supported (v : Z) : Prop := 0 < v /\ ((v | 1000) \/ 1000 <= v /\ (v | 1000000) /\ v <> 500000).

Lemma fs_to_decimation_spec v : 0 <= v ->
  (exists n r, js320_fs_to_decimation v = inr (n, r) /\ fs_supported v /\ 0 <= n <= 1000 /\ 1 <= r <= 1000
     /\ js320_signal_extra_factor n * r * v = 1000000)
  \/ js320_fs_to_decimation v = inl EC_PARAMETER_INVALID /\ ~ fs_supported v.
Proof.
  intros Hv. unfold js320_fs_to_decimation, fs_supported. change JS320_SIGNAL_RATE_AFTER_DECIMATE with 1000000. change JS320_MIN_ON_INSTRUMENT_FS with 1000. cbv zeta.
  assert (forall a, 0 < v -> a mod v = 0 -> a = v * (a / v)) as Hdm by (intros a Hp E; pose proof (Z.div_mod a v ltac:(lia)); lia).
  case_if; [right; split; [done|]; intros [Hp [Hd | (_ & Hd & _)]]; apply Z.divide_pos_le in Hd; destruct E; lia|].
  destruct (v <? 1000) eqn:E1; bool_facts; case_if.
  - right. split; [done|]. intros [_ [Hd | ?]]; [|lia]. apply Z.mod_divide in Hd; [done | lia].
  - left. pose proof (Hdm 1000 ltac:(lia) ltac:(done)) as Em. eexists _, _. split; [done|]. change (1000000 / 1000) with 1000.
    split; [split; [lia|]; left; by exists (1000 / v); lia|]. split; [lia|]. split; [nia|]. change (js320_signal_extra_factor 1000) with 1000. lia.
  - right. split; [done|]. intros [_ [Hd | (_ & Hd & _)]].
    + match goal with H : _ mod _ <> 0 |- _ => apply H end. apply Z.mod_divide; [lia|]. etransitivity; [exact Hd|]. by exists 1000.
    + apply Z.mod_divide in Hd; [done | lia].
  - pose proof (Hdm 1000000 ltac:(lia) ltac:(done)) as Em. set (x := 1000000 / v) in *. assert (1 <= x <= 1000) by nia.
    assert ((v | 1000000)) as Hd by (exists x; lia). case_if; [|case_if].
    + left. exists 0, 1. split; [done|]. split; [split; [lia|]; right; split; [lia|]; split; [done | lia]|]. split; [lia|]. split; [lia|].
      change (js320_signal_extra_factor 0) with 1. lia.
    + right. split; [done|]. assert (x = 2) as Hx2 by (assert (x = 2 \/ x = 3) as [Hx | Hx] by lia; [done | rewrite Hx in Em; lia]). rewrite Hx2 in Em. intros [_ [Hd' | (_ & _ & Hne)]]; [apply Z.divide_pos_le in Hd'; lia | lia].
    + left. exists x, 1. split; [done|]. split; [split; [lia|]; right; split; [lia|]; split; [done | nia]|]. split; [lia|]. split; [lia|].
      unfold js320_signal_extra_factor. simpl_cmp. lia.
Qed.

(** The reported factors multiply to the native rate. *)
Lemma rate_exact d v : dw_signal_dwn_mode d <> 0 -> 0 <= dw_signal_dwn_n d <= 1000 -> 1 <= dw_signal_host_factor d <= 1000 -> 0 < v ->
  js320_signal_extra_factor (dw_signal_dwn_n d) * dw_signal_host_factor d * v = 1000000 ->
  signal_rate d = v /\ forall ch, ch ∈ ivp -> channel_decimate d ch * v = JS320_NATIVE_RATE.
Proof.
  intros Hm Hn Hr Hv E. set (x := js320_signal_extra_factor (dw_signal_dwn_n d)) in *. set (r := dw_signal_host_factor d) in *.
  assert (js320_signal_device_factor d = x) as Ex by (unfold js320_signal_device_factor; by case_if; [lia|]).
  assert (js320_signal_host_factor_active d = r) as Er by (unfold js320_signal_host_factor_active; repeat case_if; [lia | done | lia]).
  assert (1 <= x <= 1000) as Hx by (unfold x, js320_signal_extra_factor; repeat case_if; lia).
  split.
  - unfold signal_rate. rewrite Ex, Er. change JS320_SIGNAL_RATE_AFTER_DECIMATE with 1000000. rewrite <- E, Z.div_div by lia. symmetry. apply Z.div_unique_exact; lia.
  - intros ch Hch. unfold channel_decimate, js320_runtime_decimate, js320_device_decimate.
    assert (ld PORT_DEFS ch = Ok (channel_def ch) /\ js320_is_ivp_field (channel_def ch) = true) as [-> Ei] by (ivp_cases Hch).
    rewrite !bind_Ok, Ei, Ex, Er. change JS320_DECIMATE with 16. rewrite (uwrap_small 32 (16 * x)) by width_lia. rewrite uwrap_small by (widths; nia).
    unfold nonzero. case_if; [nia|]. change JS320_NATIVE_RATE with 16000000. nia.
Qed.

Lemma coherent_reply s o0 o t rc : coherent s (o0 ++ o) -> coherent s (o0 ++ o ++ [DevReturnCode t rc]).
Proof.
  intros Hc. rewrite app_assoc. apply (coherent_calm s); [done | by split; try apply same_enables_refl | done | by apply quiet_one | auto].
Qed.

(** The handler behind the topics that take a number: the bound, and what the value does. *)
Lemma wp_cmd_u32 t value v max k s o0 : is_int value -> int_value value = Some v -> coherent s o0 ->
  (forall n, 0 <= n <= max -> n <= U32_MAX -> wp (k n) s (fun _ s' o => coherent s' (o0 ++ o))) ->
  wp (cmd_u32 t value max k) s (fun r s' o => r = true /\ coherent s' (o0 ++ o)).
Proof.
  intros Hi Hv H Hk. destruct (as_word_u32 value v Hi Hv) as (b & Eb & Hb). unfold cmd_u32. apply wp_bind, (wp_lift _ s _ _ Eb).
  assert (wp (mret tt : D unit) s (fun _ s' o => coherent s' (o0 ++ o))) as Hret by (apply wp_ret; by rewrite app_nil_r).
  case_if; cbn [fst snd]; cbv zeta.
  - rewrite (Hb ltac:(lia)). change (0 =? 0) with true. cbn [andb]. destruct (max <? v) eqn:Em; bool_facts.
    + change (0 =? ec_code PARAMETER_INVALID) with false. apply wp_bind. eapply wp_mono; [exact Hret|]. intros ? s' o Hc. apply wp_bind, wp_dev_call, wp_ret.
      split; [done|]. rewrite app_nil_l, app_nil_r. by apply coherent_reply.
    + change (0 =? 0) with true. apply wp_bind. eapply wp_mono; [apply Hk; lia|]. intros ? s' o Hc. apply wp_bind, wp_dev_call, wp_ret.
      split; [done|]. rewrite app_nil_l, app_nil_r. by apply coherent_reply.
  - change (0 =? EC_PARAMETER_INVALID) with false. cbn [andb]. change (0 =? EC_PARAMETER_INVALID) with false. apply wp_bind. eapply wp_mono; [exact Hret|].
    intros ? s' o Hc. apply wp_bind, wp_dev_call, wp_ret. split; [done|]. rewrite app_nil_l, app_nil_r. by apply coherent_reply.
Qed.

(** What [h/fs] does, whichever rate is asked for. *)
Definition fs_post (v : Z) (s : js320_drv_s) (o0 : list drv_action) (r : bool) (s' : js320_drv_s) (o : list drv_action) : Prop :=
  r = true
  /\ (fs_supported v /\ last o = Some (DevReturnCode "h/fs" 0) /\ coherent s' (o0 ++ o) /\ dw_signal_dwn_mode (dr_dwn s') = dw_signal_dwn_mode (dr_dwn s)
        /\ (dw_signal_dwn_mode (dr_dwn s) <> 0 -> dr_fs s' = v /\ forall ch, ch ∈ ivp -> channel_decimate (dr_dwn s') ch * v = JS320_NATIVE_RATE)
      \/ ~ fs_supported v /\ s' = s /\ o = [DevReturnCode "h/fs" EC_PARAMETER_INVALID]).

Lemma wp_cmd_fs dev value v s o0 : is_int value -> int_value value = Some v -> coherent s o0 -> wp (cmd_fs dev "h/fs" value) s (fs_post v s o0).
Proof.
  intros Hi Hv H. destruct (as_word_u32 value v Hi Hv) as (b & Eb & Hb). unfold cmd_fs. apply wp_bind, (wp_lift _ s _ _ Eb).
  assert (~ fs_supported v -> wp (rc ← mret EC_PARAMETER_INVALID; dev_call (DevReturnCode "h/fs" rc) ;; mret true : D bool) s (fs_post v s o0)) as Hbad.
  { intros Hn. apply wp_bind, wp_ret, wp_bind, wp_dev_call, wp_ret. split; [done|]. by right. }
  case_if; cbn [fst snd].
  2: { apply Hbad. intros [Hp [Hd | (_ & Hd & _)]]; apply Z.divide_pos_le in Hd; destruct E; lia. }
  rewrite (Hb ltac:(lia)). change (0 =? 0) with true. destruct (fs_to_decimation_spec v ltac:(lia)) as [(n & r & -> & Hsup & Hn & Hr & Ex) | [-> Hn]]; [|by apply Hbad].
  apply wp_bind, wp_bind, wp_modify, wp_bind. destruct H as [K1 K2 K3 K4 K5 K6 K7].
  eapply wp_mono; [apply (wp_apply_n dev n _ o0); cbn [dr_dwn set_dwn]; [done | by destruct K2 as (_ & Hm & _) | intros ch Hch; by eapply fits_wf, K4 | done]|].
  intros ? s' o [Hc Ed]. cbn [dr_dwn set_dwn] in Ed. apply wp_ret, wp_bind, wp_dev_call, wp_ret. rewrite !app_nil_l, !app_nil_r. split; [done|]. left. split; [done|].
  split; [by rewrite last_snoc|]. split.
  { by apply coherent_reply. }
  split; [by rewrite Ed|]. intros Hm. rewrite (co_rate _ _ Hc), Ed. apply rate_exact; cbn; done || (destruct Hsup; lia).
Qed.

Lemma wp_handle_cmd dev t value v s o0 : t ∈ own_topics -> is_int value -> int_value value = Some v -> coherent s o0 ->
  wp (handle_cmd dev t value) s (fun r s' o => r = true /\ coherent s' (o0 ++ o)).
Proof.
  intros Ht Hi Hv H.
  assert (forall s', calm s s' -> dr_fs s' = dr_fs s -> dr_ports s' = dr_ports s -> coherent s' o0) as Hcalm.
  { intros s' Hc Ef Ep. rewrite <- (app_nil_r o0). apply (coherent_calm s); [done | done | done | apply quiet_nil |]. intros ch _. left. unfold host_filter. by rewrite Ep. }
  assert (forall ch, ch ∈ ivp -> wp (cmd_ctrl t ch value) s (fun r s' o => r = true /\ coherent s' (o0 ++ o))) as Hctrl.
  { intros ch Hch. apply wp_bind. eapply wp_mono; [by apply (wp_stream_ctrl ch value v s o0)|]. intros rc s' o Hc. apply wp_bind, wp_dev_call, wp_ret.
    split; [done|]. rewrite app_nil_r. by apply coherent_reply. }
  assert (forall old, scale_of value old = Ok old) as Hscale.
  { intros old. destruct Hi as [Ht' _]. unfold scale_of. rewrite !(proj2 (Z.eqb_neq _ _)); [done | unfold JSDRV_UNION_F32, JSDRV_UNION_U8 in *; lia | unfold JSDRV_UNION_F64, JSDRV_UNION_U8 in *; lia]. }
  assert (forall ch, ch ∈ ivp -> filter_wf (host_filter s ch)) as Hw by (intros ch Hch; by eapply fits_wf, (co_filter _ _ H)).
  topic_cases Ht; unfold handle_cmd; cbn [String.eqb Ascii.eqb Bool.eqb].
  all: try (apply Hctrl; in_list).
  - eapply wp_mono; [by apply (wp_cmd_fs dev value v s o0)|]. intros r s' o [-> [(_ & _ & Hc & _) | (_ & -> & ->)]]; [done|]. split; [done|].
    apply (coherent_reply _ _ []). by rewrite app_nil_r.
  - eapply wp_cmd_u32; [done | done | done |]. intros n _ _. apply wp_modify. rewrite app_nil_r. apply Hcalm; [by split; try apply same_enables_refl | done | done].
  - apply wp_bind, wp_get, wp_bind, (wp_lift _ _ _ _ (Hscale _)), wp_bind, wp_modify, wp_bind, wp_dev_call, wp_ret. split; [done|]. rewrite !app_nil_l.
    apply (coherent_reply _ _ []). rewrite app_nil_r. apply Hcalm; [by split; try apply same_enables_refl | done | done].
  - apply wp_bind, wp_get, wp_bind, (wp_lift _ _ _ _ (Hscale _)), wp_bind, wp_modify, wp_bind, wp_dev_call, wp_ret. split; [done|]. rewrite !app_nil_l.
    apply (coherent_reply _ _ []). rewrite app_nil_r. apply Hcalm; [by split; try apply same_enables_refl | done | done].
  - eapply wp_cmd_u32; [done | done | done |]. intros n Hn _. apply wp_bind, wp_modify.
    eapply wp_mono; [apply (wp_apply_n dev n _ o0); [apply H | cbn; destruct (co_dwn _ _ H) as (_ & ? & _); repeat split; cbn; lia | exact Hw | apply H]|].
    by intros ? s' o [? _].
  - eapply wp_cmd_u32; [done | done | done |]. intros n Hn _. apply wp_apply_mode; [apply H | destruct (co_dwn _ _ H) as (? & _ & ?); repeat split; cbn; lia | exact Hw | apply H].
  - eapply wp_cmd_u32; [done | done | done |]. intros n Hn _. apply (wp_apply_gpi dev); auto.
  - eapply wp_cmd_u32; [done | done | done |]. intros n Hn _. apply (wp_apply_gpi dev); auto.
Qed.

Lemma coherent_parts s x o : coherent s o -> lengths_ok (set_parts s x) -> coherent (set_parts s x) o.
Proof. intros [H1 H2 H3 H4 H5 H6 H7] Hl. by split. Qed.

Lemma wp_own_cmd dev t value v s o0 : t ∈ own_topics -> is_int value -> int_value value = Some v -> coherent s o0 ->
  wp (js320_handle_cmd dev t value) s (fun r s' o => r = true /\ coherent s' (o0 ++ o)).
Proof.
  intros Ht Hi Hv H. unfold js320_handle_cmd, or_else. apply wp_bind. eapply wp_mono; [apply wp_cal_looks; [done | done | apply H]|].
  intros r s1 o1 (-> & -> & Hl & x & ->). apply wp_bind. eapply wp_mono; [apply (wp_handle_cmd dev t value v _ o0); [done | done | done | by apply coherent_parts]|].
  intros r s2 o2 [-> Hc]. apply wp_ret. split; [done|]. by rewrite app_nil_r.
Qed.

Lemma wp_on_open dev s o0 : coherent s o0 -> wp (js320_on_open dev) s (fun _ s' o => coherent s' (o0 ++ o)).
Proof.
  intros H. unfold js320_on_open. pose proof (co_lengths _ _ H) as (H1 & H2 & H3 & H4).
  assert (forall x o, lengths_ok (set_parts s x) -> quiet o -> coherent (set_parts s x) (o0 ++ o)) as Hc.
  { intros x o Hl Ho. apply (coherent_calm (set_parts s x)); [by apply coherent_parts | by split; try apply same_enables_refl | done | done | auto]. }
  do 3 (apply wp_bind; eexists _, _, _; split; [reflexivity|]). case_if.
  - repeat (apply wp_bind, wp_dev_call). apply wp_dev_call. apply Hc; [by repeat split|]. intros ch Hch. by repeat constructor.
  - apply wp_ret. apply Hc; [by repeat split|]. apply quiet_nil.
Qed.

(** ** Properties *)

(** The opening of a session and the commands that are the driver's own, with integers of any type and value. *)
Definition own_input (x : mb_dev_s * drv_input) : Prop :=
  match x.2 with D_open => True | D_cmd t v => t ∈ own_topics /\ is_int v | _ => False end.

Lemma own_inputs_coherent xs : Forall own_input xs -> forall s o0, coherent s o0 -> wp (drv_steps xs) s (fun _ s' o => coherent s' (o0 ++ o)).
Proof.
  induction 1 as [|[dev x] xs Hx _ IH]; intros s o0 Hs; cbn [drv_steps].
  - apply wp_ret. by rewrite app_nil_r.
  - assert (wp (drv_step dev x) s (fun _ s' o => coherent s' (o0 ++ o))) as H1.
    { destruct x as [| | | | |t v| |]; cbn in Hx; try done; cbn [drv_step]; [by apply wp_on_open|]. destruct Hx as [Ht Hi].
      assert (exists n, int_value v = Some n) as [n Hn].
      { pose proof Hi as [Hty (b & Hb & _)]. unfold int_value. rewrite Hb. int_cases Hty; cbn; eauto. }
      apply wp_bind. eapply wp_mono; [by apply (wp_own_cmd dev t v n s o0)|]. intros r s' o [_ Hc]. apply wp_ret. by rewrite app_nil_r. }
    apply wp_bind. eapply wp_mono; [exact H1|]. intros ? s1 o1 Hc. eapply wp_mono; [by apply (IH s1 (o0 ++ o1))|].
    intros ? s2 o2 Hc2. by rewrite app_assoc.
Qed.

Lemma factory_coherent : coherent js320_drv_factory [].
Proof.
  split; [done | by vm_compute | done | intros ch Hch; ivp_cases Hch | done | intros ch Hch; ivp_cases Hch | intros ch Hch; right; ivp_cases Hch].
Qed.

(** C20. From the factory on, any sequence of openings and of the driver's own commands, with integers
    of any type and value, runs without a fault, and afterwards the parts of the state agree: the rate
    that is reported is the one that the registers and the host's factor give, the filters of the host
    have that factor and the order of the mode, power is computed on the host exactly at the full rate
    with current, voltage and power on, and the last control that was published to the instrument for
    each of the three streams is the one wanted, power being off there when the host computes it. *)
Theorem commands_coherent xs : Forall own_input xs ->
  exists s o, drv_steps xs js320_drv_factory = Ok (tt, s, o) /\ coherent s o.
Proof.
  intros H. destruct (own_inputs_coherent xs H js320_drv_factory [] factory_coherent) as ([] & s & o & E & Hc). by exists s, o.
Qed.

(** C37. A command for a sample rate, in any state that the commands lead to: it is accepted exactly when
    the rate divides 1 kHz, or divides 1 MHz from 1 kHz on and is not 500 kHz, for which the gateware has
    no factor; then, unless decimation is bypassed, the driver reports this very rate, and the
    decimation factor that it puts into the messages, times the rate, is the native 16 MHz.  Otherwise
    PARAMETER_INVALID is returned and the state is as before. *)
Theorem fs_command_exact dev value v s o0 : coherent s o0 -> is_int value -> int_value value = Some v ->
  exists s' o, js320_handle_cmd dev "h/fs" value s = Ok (true, s', o)
    /\ (fs_supported v /\ last o = Some (DevReturnCode "h/fs" 0) /\ coherent s' (o0 ++ o) /\ dw_signal_dwn_mode (dr_dwn s') = dw_signal_dwn_mode (dr_dwn s)
          /\ (dw_signal_dwn_mode (dr_dwn s) <> 0 -> dr_fs s' = v /\ forall ch, ch ∈ ivp -> channel_decimate (dr_dwn s') ch * v = JS320_NATIVE_RATE)
        \/ ~ fs_supported v /\ s' = s /\ o = [DevReturnCode "h/fs" EC_PARAMETER_INVALID]).
Proof.
  intros H Hi Hv. assert (wp (js320_handle_cmd dev "h/fs" value) s (fs_post v s o0)) as (r & s' & o & E & -> & Hp); [|by exists s', o].
  unfold js320_handle_cmd, or_else. apply wp_bind. eexists false, s, []. split; [by destruct s as [[]]|]. apply wp_bind.
  eapply wp_mono; [by apply (wp_cmd_fs dev value v s o0)|]. intros r s1 o1 [-> Hf]. apply wp_ret. rewrite app_nil_l, app_nil_r. by split.
Qed.

Definition ex_cmd_on (t : string) (v : Z) : mb_dev_s * drv_input := (ex_dev, D_cmd t (Union.jsdrv_union_u32 v)).

(** All three streams on, then a rate that needs a filter of the host, then another order. *)
Definition ex_cmds : list (mb_dev_s * drv_input) :=
  [(ex_dev, D_open); ex_cmd_on "s/i/ctrl" 1; ex_cmd_on "s/v/ctrl" 1; ex_cmd_on "s/p/ctrl" 1; ex_cmd_on "h/fs" 100; ex_cmd_on "s/dwnN/mode" 2].

Definition ex_summary (xs : list (mb_dev_s * drv_input)) : option (Z * bool * list (option Z)) :=
  match drv_steps xs js320_drv_factory with
  | Ok (_, s, o) => Some (dr_fs s, dr_power_compute_on_host s, (fun ch => told ch o) <$> ivp)
  | Fault _ => None
  end.

Example ex_full_rate : ex_summary (take 4 ex_cmds) = Some (1000000, true, [Some 1; Some 1; Some 0]).
Proof. vm_compute. reflexivity. Qed.
Example ex_low_rate : ex_summary ex_cmds = Some (100, false, [Some 1; Some 1; Some 1]).
Proof. vm_compute. reflexivity. Qed.

Lemma own_cmd_ok t v : t ∈ own_topics -> own_input (ex_cmd_on t v).
Proof. intros Ht. split; [done|]. split; [by vm_compute|]. eexists. split; [done|]. apply uwrap_is_u64. lia. Qed.

Lemma commands_coherent_witness : exists s o, drv_steps ex_cmds js320_drv_factory = Ok (tt, s, o) /\ coherent s o.
Proof.
  apply (commands_coherent ex_cmds). apply Forall_cons; split; [done|]. repeat (apply Forall_cons; split; [apply own_cmd_ok; unfold own_topics; in_list|]). constructor.
Defined.

Lemma fs_command_exact_witness :
  let value := Union.jsdrv_union_u32 200 in
  exists s' o, js320_handle_cmd ex_dev "h/fs" value js320_drv_factory = Ok (true, s', o)
    /\ (fs_supported 200 /\ last o = Some (DevReturnCode "h/fs" 0) /\ coherent s' ([] ++ o)
          /\ dw_signal_dwn_mode (dr_dwn s') = dw_signal_dwn_mode (dr_dwn js320_drv_factory)
          /\ (dw_signal_dwn_mode (dr_dwn js320_drv_factory) <> 0 -> dr_fs s' = 200 /\ forall ch, ch ∈ ivp -> channel_decimate (dr_dwn s') ch * 200 = JS320_NATIVE_RATE)
        \/ ~ fs_supported 200 /\ s' = js320_drv_factory /\ o = [DevReturnCode "h/fs" EC_PARAMETER_INVALID]).
Proof.
  intros value. apply (fs_command_exact ex_dev value 200 js320_drv_factory []).
  - apply factory_coherent.
  - split; [by vm_compute|]. eexists. split; [done|]. apply uwrap_is_u64. lia.
  - reflexivity.
Defined.
