(* ===== verification/Js320DrvPower.v ===== *)
(** * Power computed by the host (src/devices/js320/js320_drv.c)

    At the full rate the instrument sends current and voltage, and the driver multiplies them through
    its three sample buffers.  As long as the frames of the two streams go on in step, power is
    published at every sample id as the product of the two samples with that id.  After a gap in both
    streams, however, the product is as long as the gap, and a message that is nearly full does not
    take it: the assert fails. *)

From Stdlib Require Import Strings.String.
From S2P Require Import Prelude Cstr ErrorCode Topic Float Time I128 SampleBuffer DownsampleSinc DeviceStats.
From S2P Require Import Effect MbDev Jtag Fwup BufferSignal Union Js320Cal Js320Drv Js320DrvStream.

(** ** Buffers *)

(** An empty buffer that goes on at [h], or that was restarted. *)
Definition sbuf_idle (h : Z) (b : sbuf_f32_s) : Prop :=
  sbuf_wf b /\ sb_sample_id_decimate b = 16 /\ sbuf_samples b = [] /\ (sb_head_sample_id b = h \/ sb_head_sample_id b = 0).

(** A buffer that holds [xs] from [h] on. *)
Definition sbuf_holds (h : Z) (xs : list f32) (b : sbuf_f32_s) : Prop :=
  sbuf_wf b /\ sb_sample_id_decimate b = 16 /\ sbuf_samples b = xs /\ sb_head_sample_id b = h + 16 * len xs.

Definition feed_start (h : Z) (b : sbuf_f32_s) : sbuf_f32_s := if sb_head_sample_id b =? 0 then set_head_sample_id h b else b.

Lemma sbuf_feed_ok h b xs : sbuf_idle h b -> 0 <= h -> len xs < SAMPLE_BUFFER_LENGTH -> h + (len xs + 1) * 16 <= 2 ^ 64 ->
  exists b', sbuf_f32_add (feed_start h b) h xs (len xs) = Ok b' /\ sbuf_holds h xs b'.
Proof.
  intros ([Hr Hid] & Hd & Hs & Hh) H0 Hn Hmax. pose proof (len_nonneg xs). pose proof (sbuf_length_range b) as HL.
  assert (sbuf_f32_length b = 0) as EL by (rewrite <- len_sbuf_samples, Hs; done).
  assert (sb_head_sample_id (feed_start h b) = h) as Eh by (unfold feed_start; case_if; [done | destruct Hh; lia]).
  assert (sb_sample_id_decimate (feed_start h b) = 16) as Ed by (unfold feed_start; by case_if).
  assert (sbuf_samples (feed_start h b) = []) as Es by (unfold feed_start; case_if; [by rewrite sbuf_samples_set_id | done]).
  assert (sbuf_wf (feed_start h b)) as Hw.
  { split; [unfold feed_start; by case_if|]. rewrite Eh, Ed, <- len_sbuf_samples, Es. change (len (@nil f32)) with 0. lia. }
  unfold sbuf_f32_add. rewrite Eh, Z.ltb_irrefl.
  destruct (sbuf_append_ok (feed_start h b) h xs 0 (len xs)) as (b' & -> & Hw' & E1 & E2 & E3); try done; rewrite ?Eh, ?Ed; try lia.
  { unfold sbuf_dup. rewrite Eh, Ed, Z.sub_diag. done. }
  exists b'. split; [done|]. split; [done|]. split; [by rewrite E3, Ed|]. split.
  - rewrite E1, Es, sbuf_missing_none by (rewrite ?Eh, ?Ed; lia). cbn [Z.to_nat replicate]. rewrite !app_nil_l, drop_0.
    rewrite take_ge by (unfold len; lia). apply lastn_all. unfold SAMPLE_BUFFER_MASK. lia.
  - rewrite E2, Ed; [lia|]. rewrite Eh, Z.sub_diag. apply Z.divide_0_r.
Qed.

(** The product of two buffers in step. *)
Lemma sbuf_power_ok h xs ys i v p : sbuf_holds h xs i -> sbuf_holds h ys v -> length ys = length xs ->
  len (sb_buffer p) = SAMPLE_BUFFER_LENGTH -> 0 <= sb_head_sample_id p <= h -> h + SAMPLE_BUFFER_LENGTH * 16 <= 2 ^ 64 ->
  exists p' i' v', sbuf_f32_mult p i v = Ok (p', i', v') /\ sbuf_idle (h + 16 * len xs) i' /\ sbuf_idle (h + 16 * len xs) v'
    /\ len (sb_buffer p') = SAMPLE_BUFFER_LENGTH /\ sb_head_sample_id p' = h + 16 * len xs /\ sb_sample_id_decimate p' = 16
    /\ sbuf_f32_length p' = len xs /\ exists rest, sb_buffer p' = zip_with f32_mul xs ys ++ rest.
Proof.
  intros (Wi & Di & Si & Hi) (Wv & Dv & Sv & Hv) Hlen Hb Hp Hmax. pose proof (len_nonneg xs).
  assert (len ys = len xs) as El by (unfold len; lia).
  assert (sbuf_tail_sample_id i = h) as Ti by (rewrite (sbuf_tail_id i Wi), <- len_sbuf_samples, Si, Hi, Di; lia).
  assert (sbuf_tail_sample_id v = h) as Tv by (rewrite (sbuf_tail_id v Wv), <- len_sbuf_samples, Sv, Hv, Dv; lia).
  assert (mult_start p i v = h) as Em by (unfold mult_start; lia).
  destruct (sbuf_mult_ok p i v Wi Wv Hb) as (p' & i' & v' & E & Wp & Wi' & Wv' & Sp & Si' & Sv' & Tp & Hp' & Dp & _ & (Hi' & Di') & (Hv' & Dv')); [lia | rewrite Em, Di; done|].
  rewrite Em in *. unfold sbuf_older in *. rewrite Ti, Tv, Z.sub_diag, Di, Dv in *. change (Z.to_nat (Z.max 0 0 / 16)) with 0%nat in *. rewrite !drop_0 in *.
  rewrite Si, Sv in *. assert (length (zip_with f32_mul xs ys) = length xs) as Ez by (rewrite length_zip_with; lia).
  assert (len (zip_with f32_mul xs ys) = len xs) as Ez' by (unfold len; lia). rewrite Ez in Si', Sv'. rewrite Ez' in Hp'.
  rewrite drop_ge in Si' by lia. rewrite drop_ge in Sv' by lia.
  exists p', i', v'. split; [done|]. split; [split_and!; try done; left; lia|]. split; [split_and!; try done; left; lia|].
  pose proof Wp as [(Lb & Hh & Ht & _) _]. split; [done|]. split; [lia|]. split; [by rewrite Dp|].
  assert (sbuf_f32_length p' = len xs) as EL by (by rewrite <- len_sbuf_samples, Sp). split; [done|].
  exists (drop (length xs) (sb_buffer p')). rewrite <- (take_drop (length xs) (sb_buffer p')) at 1. f_equal. rewrite <- Sp.
  apply list_eq. intros k. destruct (decide (k < length xs)%nat) as [Hk|Hk].
  - rewrite lookup_take_lt by done. rewrite sbuf_samples_lookup by (unfold len in EL; lia). unfold sbuf_at. rewrite Tp, Z.add_0_l.
    pose proof (sbuf_length_range p') as HL. rewrite EL in HL. unfold len in HL. rewrite Z.mod_small by lia. rewrite Nat2Z.id.
    destruct (sb_buffer p' !! k) eqn:Ek; [done|]. apply lookup_ge_None in Ek. unfold len in Lb. lia.
  - rewrite lookup_take_ge by lia. symmetry. apply lookup_ge_None. rewrite length_sbuf_samples, EL. unfold len. lia.
Qed.

(** ** One frame *)

(** The samples of a frame as floats. *)
Definition scaled (s : js320_drv_s) (ch : Z) (ws : list Z) : list f32 := (fun w => f32_mul (f32_of_bits w) (frame_scale s ch)) <$> ws.

Definition set_sbuf (ch : Z) (b : sbufs_s) (x : sbuf_f32_s) : sbufs_s := if ch =? 5 then mk_sbufs x (sb_v b) (sb_p b) else mk_sbufs (sb_i b) x (sb_p b).
Definition get_sbuf (ch : Z) (b : sbufs_s) : sbuf_f32_s := if ch =? 5 then sb_i b else sb_v b.

Definition header (h : Z) : list Z := [h mod 2 ^ 32; h / 2 ^ 32].

Lemma frame_id_header h ws : frame_id (header h ++ ws) = h.
Proof.
  unfold frame_id, header. pose proof (Z.div_mod h (2 ^ 32) ltac:(done)) as E.
  transitivity (h mod 2 ^ 32 + 2 ^ 32 * (h / 2 ^ 32)); [done | lia].
Qed.

Lemma set_ack_same s : set_ack Signal s (dr_signal_ack s) = s.
Proof. by destruct s. Qed.

(** A frame of current or voltage outside of a drop window. *)
Lemma wp_app_signal dev ch h ws s (Q : unit -> js320_drv_s -> list drv_action -> Prop) : ch = 5 \/ ch = 6 -> is_u 64 h -> len ws <= 253 -> Forall (is_u 32) ws ->
  ak_dropping (dr_signal_ack s) = false -> wp (handle_signal dev ch h ws (u32 (len ws * spw ch))) s Q ->
  wp (js320_handle_app dev ch (header h ++ ws) (len (header h ++ ws))) s Q.
Proof.
  intros Hch Hh Hl Hu Hd H. pose proof (len_nonneg ws). assert (len (header h ++ ws) = len ws + 2) as El by (rewrite len_app; change (len (header h)) with 2; lia).
  assert (Forall (is_u 32) (header h ++ ws)) as Hu'.
  { apply Forall_app. split; [|done]. unfold header. repeat constructor; div_lia. }
  unfold js320_handle_app. rewrite El. cbv zeta.
  assert (Z.land ch 15 = ch /\ ld PORT_DEFS ch = Ok (channel_def ch) /\ (exists t, pd_data_topic (channel_def ch) = Some t)
    /\ frame_target ch (Z.land (Z.shiftr ch 4) 15) (channel_def ch) = Some (None, 0) /\ is_ivp ch = true /\ (ch =? 14) = false /\ (JS320_CH_COUNT <=? ch) = false)
    as (-> & Ed & (t & Et) & Ef & Ei & -> & ->) by (destruct Hch as [-> | ->]; repeat split; try done; by eexists).
  rewrite (proj2 (Z.ltb_ge (len ws + 2) 2)) by lia. apply wp_bind, (wp_lift _ s _ _ Ed). rewrite Et, Ef.
  destruct (frame_id_ok (header h ++ ws)) as [Eid _]; [lia | done |]. rewrite frame_id_header in Eid. apply wp_bind, (wp_lift _ s _ _ Eid).
  assert (words_at (header h ++ ws) 2 (len ws + 2 - 2) = Ok ws) as Ew.
  { replace (len ws + 2 - 2) with (len (header h ++ ws) - 2) by lia. rewrite frame_words_ok by lia. done. }
  cbv zeta. apply wp_bind, (wp_lift _ s _ _ Ew). replace (len ws + 2 - 2) with (len ws) by lia.
  unfold handle_stream. change ((5 <=? ch) && (ch <=? 7)) with (is_ivp ch). rewrite Ei. apply wp_bind, wp_ack_drop.
  unfold js320_ack_should_drop, ack_of. rewrite Hd. cbn [negb]. rewrite set_ack_same. exact H.
Qed.

(** The same frame while power is computed here: into its buffer, into its message, then the product. *)
Lemma wp_signal_host dev ch h ws b s (Q : unit -> js320_drv_s -> list drv_action -> Prop) : ch = 5 \/ ch = 6 -> dr_power_compute_on_host s = true ->
  length (dr_ports s) = 16%nat -> no_filters (dr_ports s) -> len ws <= 253 ->
  sbuf_f32_add (feed_start h (get_sbuf ch (dr_sbufs s))) h (scaled s ch ws) (len ws) = Ok b ->
  wp (js320_port_append dev ch 0 None h (concat (sample_bytes s ch <$> ws)) (u32 (len (sample_bytes s ch <$> ws) * spw ch)) ;; js320_port_evaluate_flush ch)
    (set_sbufs s (set_sbuf ch (dr_sbufs s) b)) (fun _ s1 o1 => wp (js320_compute_power dev) s1 (fun a s2 o2 => Q a s2 (o1 ++ o2))) ->
  wp (handle_signal dev ch h ws (u32 (len ws * spw ch))) s Q.
Proof.
  intros Hch Hp Hl Hf Hn Hb H. pose proof (len_nonneg ws).
  assert (is_ivp ch = true /\ 0 <= ch < 16 /\ (ch =? 7) = false /\ (ch =? 5) || (ch =? 6) = true /\ spw ch = 1) as (Ei & Hr & E7 & E56 & Esp)
    by (destruct Hch as [-> | ->]; repeat split; done || lia).
  unfold handle_signal. apply wp_bind, wp_get. cbv zeta. rewrite Hp, E7, E56. cbn [andb]. fold (scaled s ch ws).
  apply wp_bind. unfold power_feed. apply wp_bind, wp_get. cbv zeta. fold (get_sbuf ch (dr_sbufs s)). fold (feed_start h (get_sbuf ch (dr_sbufs s))).
  rewrite Esp, Z.mul_1_r, (uwrap_small 32 (len ws)) by width_lia. apply wp_bind, (wp_lift _ s _ _ Hb), wp_modify. fold (set_sbuf ch (dr_sbufs s) b).
  destruct (lookup_lt_is_Some_2 (dr_ports s) (Z.to_nat ch)) as [p Hpp]; [lia|].
  assert (po_host_filter p = None) as Hnf by exact (Forall_lookup_1 _ _ _ _ Hf Hpp).
  assert (len (sample_bytes s ch <$> ws) = len ws) as El by (unfold len; by rewrite length_fmap). rewrite El in H.
  apply wp_bind, wp_bind, (wp_port_at ch p); [lia | done |]. rewrite Hnf. unfold scaled. rewrite f32_bytes_items by done.
  rewrite Esp, Z.mul_1_r, (uwrap_small 32 (len ws)) in H by width_lia. apply wp_bind_inv in H. eapply wp_mono; [exact H|]. intros ? s1 o1 H1. apply wp_bind.
  eapply wp_mono; [exact H1|]. intros ? s2 o2 H2. eapply wp_mono; [exact H2|]. intros ? s3 o3 HQ. by rewrite !app_nil_l, app_assoc.
Qed.

(** ** The product *)

Definition power_bytes (xs ys : list f32) : list (list Z) := le 4 ∘ bits_of_f32 <$> zip_with f32_mul xs ys.

Lemma f32_bytes_app a b : f32_bytes (a ++ b) = f32_bytes a ++ f32_bytes b.
Proof. unfold f32_bytes. by rewrite fmap_app, concat_app. Qed.

(** The streams, and where the product is next. *)
Record power_inv (prefix : string) (h : Z) (s : js320_drv_s) : Prop := mk_power_inv {
  pi_ports : ports_ok prefix (dr_dwn s) (fun _ => FULL) (dr_ports s);
  pi_filters : no_filters (dr_ports s);
  pi_power : dr_power_compute_on_host s = true;
  pi_ack : ak_dropping (dr_signal_ack s) = false;
  pi_rate : forall ch, 5 <= ch <= 7 -> channel_decimate (dr_dwn s) ch = 16;
  pi_product : len (sb_buffer (sb_p (dr_sbufs s))) = SAMPLE_BUFFER_LENGTH /\ 0 <= sb_head_sample_id (sb_p (dr_sbufs s)) <= h;
}.

(** Topic and header of current, voltage and power. *)
Lemma ivp_target_ok prefix dev ch : 5 <= ch <= 7 -> prefix_ok prefix -> md_prefix dev = prefix ->
  exists dt, pd_data_topic (channel_def ch) = Some dt /\ device_topic dev dt = Ok (port_topic prefix ch 0)
    /\ ch ∈ channels /\ spw ch = 1 /\ forall tm id x, signal_channel (js320_signal_init (channel_def ch) 0 id x tm) = ch.
Proof.
  intros Hc Hp Hd. assert (ch = 5 \/ ch = 6 \/ ch = 7) as H by lia.
  destruct (frame_target_ok prefix ch 0 None 0) as (dt & dt0 & E1 & E2 & E3 & W & L & Et & Hs);
    [destruct_or! H; subst; in_list | lia | destruct_or! H; by subst |].
  cbn in E2. subst dt0. exists dt. split; [done|]. split; [by rewrite Et; apply device_topic_ok|].
  split; [destruct_or! H; subst; in_list|]. split; [destruct_or! H; by subst|]. exact Hs.
Qed.

Lemma wp_power prefix dev h xs ys s : prefix_ok prefix -> dev_ok prefix dev -> power_inv prefix h s ->
  sbuf_holds h xs (sb_i (dr_sbufs s)) -> sbuf_holds h ys (sb_v (dr_sbufs s)) -> length ys = length xs -> 0 < len xs <= 253 ->
  0 <= h -> h + SAMPLE_BUFFER_LENGTH * 16 <= 2 ^ 64 ->
  wp (js320_compute_power dev) s (fun _ s' o => exists ps b, s' = set_ports (set_sbufs s b) ps /\ power_inv prefix (h + 16 * len xs) s'
    /\ sbuf_idle (h + 16 * len xs) (sb_i b) /\ sbuf_idle (h + 16 * len xs) (sb_v b)
    /\ forall c, c ∈ channels -> sent c o ++ pending c ps = pending c (dr_ports s)
         ++ (if c =? 7 then items (port_topic prefix 7 0) 0 16 h (power_bytes xs ys) else [])).
Proof.
  intros Hpre [Hdp [tm Htm]] [P1 P2 P3 P4 P5 [P6 P7]] Hi Hv Hlen Hn Hh Hmax. unfold SAMPLE_BUFFER_LENGTH in Hmax.
  destruct (sbuf_power_ok h xs ys _ _ _ Hi Hv Hlen P6 P7) as (p' & i' & v' & Em & Ii & Iv & Lb & Hp & Dp & Lp & rest & Er); [unfold SAMPLE_BUFFER_LENGTH; lia|].
  destruct (ivp_target_ok prefix dev 7 ltac:(lia) Hpre Hdp) as (dt & Edt & Etp & Hch & Esp & Hsig).
  assert (len ys = len xs) as El by (unfold len; lia). unfold js320_compute_power. apply wp_bind, wp_get. rewrite P3. cbn [negb]. cbv zeta.
  assert (sbuf_f32_length (sb_i (dr_sbufs s)) = len xs /\ sbuf_f32_length (sb_v (dr_sbufs s)) = len xs) as [-> ->].
  { destruct Hi as (_ & _ & Si & _), Hv as (_ & _ & Sv & _). by rewrite <- !len_sbuf_samples, Si, Sv. }
  rewrite (proj2 (Z.eqb_neq (len xs) 0)) by lia. cbn [orb]. apply wp_bind, (wp_lift _ s _ _ Em), wp_bind, wp_modify.
  rewrite Lp, (proj2 (Z.eqb_neq (len xs) 0)) by lia. rewrite Hp, Dp.
  assert (u64 (h + 16 * len xs - u64 (len xs * 16)) = h) as ->.
  { rewrite (uwrap_small 64 (len xs * 16)) by width_lia. replace (_ - _) with h by lia. apply uwrap_small. width_lia. }
  assert (len (power_bytes xs ys) = len xs) as Elp.
  { unfold power_bytes, len. rewrite length_fmap, length_zip_with. unfold len in *. lia. }
  set (s1 := set_sbufs s (mk_sbufs i' v' p')).
  eapply wp_mono.
  - rewrite Er, f32_bytes_app. change (f32_bytes (zip_with f32_mul xs ys)) with (concat (power_bytes xs ys)).
    replace (len xs) with (u32 (len (power_bytes xs ys) * spw 7)) by (rewrite Esp, Z.mul_1_r, Elp; apply uwrap_small; width_lia).
    apply (wp_deliver prefix dev tm 7 0 None dt (power_bytes xs ys) (f32_bytes rest) h s1); try done.
    + apply Forall_fmap, Forall_forall. intros w _. apply length_le.
    + lia.
    + width_lia.
  - intros ? s' o (ps & -> & Hok & Hf & Hs'). exists ps, (mk_sbufs i' v' p'). split; [done|]. split; [|split; [done|]; split; [done|]].
    + split; try done. cbn. lia.
    + intros c Hc. rewrite !app_nil_l, (Hs' c Hc). change (dr_dwn s1) with (dr_dwn s). rewrite P5, Esp by lia. done.
Qed.

(** ** A round: a frame of current and one of voltage *)

Lemma power_inv_sbufs prefix h s b ps : power_inv prefix h s -> ports_ok prefix (dr_dwn s) (fun _ => FULL) ps -> no_filters ps -> sb_p b = sb_p (dr_sbufs s) ->
  power_inv prefix h (set_ports (set_sbufs s b) ps).
Proof. intros [P1 P2 P3 P4 P5 P6] Hok Hf Eb. split; try done. cbn [dr_sbufs set_ports set_sbufs]. by rewrite Eb. Qed.

Lemma wp_feed prefix dev ch h ws s (Q : unit -> js320_drv_s -> list drv_action -> Prop) : ch = 5 \/ ch = 6 -> prefix_ok prefix -> dev_ok prefix dev ->
  power_inv prefix h s -> sbuf_idle h (get_sbuf ch (dr_sbufs s)) -> len ws <= 253 -> Forall (is_u 32) ws -> 0 <= h -> h + SAMPLE_BUFFER_LENGTH * 16 <= 2 ^ 64 ->
  (forall b ps o1, sbuf_holds h (scaled s ch ws) b -> power_inv prefix h (set_ports (set_sbufs s (set_sbuf ch (dr_sbufs s) b)) ps) ->
     (forall c, c ∈ channels -> sent c o1 ++ pending c ps = pending c (dr_ports s)
        ++ (if c =? ch then items (port_topic prefix ch 0) 0 16 h (sample_bytes s ch <$> ws) else [])) ->
     wp (js320_compute_power dev) (set_ports (set_sbufs s (set_sbuf ch (dr_sbufs s) b)) ps) (fun a s2 o2 => Q a s2 (o1 ++ o2))) ->
  wp (js320_handle_app dev ch (header h ++ ws) (len (header h ++ ws))) s Q.
Proof.
  intros Hch Hpre Hdev Hs Hidle Hn Hu Hh Hmax HQ. pose proof Hdev as [Hdp [tm Htm]]. pose proof Hs as [P1 P2 P3 P4 P5 P6]. unfold SAMPLE_BUFFER_LENGTH in Hmax.
  pose proof (len_nonneg ws). assert (len (scaled s ch ws) = len ws) as El by (unfold len, scaled; by rewrite length_fmap).
  assert (len (sample_bytes s ch <$> ws) = len ws) as El' by (unfold len; by rewrite length_fmap).
  destruct (sbuf_feed_ok h _ (scaled s ch ws) Hidle Hh) as (b & Eb & Hb); [rewrite El; unfold SAMPLE_BUFFER_LENGTH; lia | lia |]. rewrite El in Eb.
  assert (5 <= ch <= 7) as Hc by lia. destruct (ivp_target_ok prefix dev ch Hc Hpre Hdp) as (dt & Edt & Etp & Hin & Esp & Hsig).
  apply wp_app_signal; [done | width_lia | done | done | done |]. apply (wp_signal_host dev ch h ws b); [done | done | apply P1 | done | done | done |].
  set (s1 := set_sbufs s (set_sbuf ch (dr_sbufs s) b)). rewrite <- (app_nil_r (concat _)). eapply wp_mono.
  - apply (wp_deliver prefix dev tm ch 0 None dt (sample_bytes s ch <$> ws) [] h s1); try done; [apply sample_bytes_4 | lia | width_lia].
  - intros ? s' o (ps & -> & Hok & Hf & Hs'). apply HQ; [done | |].
    + apply power_inv_sbufs; [done | done | done | unfold set_sbuf; by case_if].
    + intros c Hc'. rewrite (Hs' c Hc'). change (dr_dwn s1) with (dr_dwn s). rewrite P5, Esp by lia. done.
Qed.

Definition power_ready (prefix : string) (h : Z) (s : js320_drv_s) : Prop :=
  power_inv prefix h s /\ sbuf_idle h (sb_i (dr_sbufs s)) /\ sbuf_idle h (sb_v (dr_sbufs s)).

(** What a round brings. *)
Definition round_items (prefix : string) (s : js320_drv_s) (h : Z) (xs ys : list Z) (c : Z) : list item :=
  items (port_topic prefix c 0) 0 16 h
    (if c =? 5 then sample_bytes s 5 <$> xs else if c =? 6 then sample_bytes s 6 <$> ys
     else if c =? 7 then power_bytes (scaled s 5 xs) (scaled s 6 ys) else []).

Definition round_ok (xs ys : list Z) : Prop := length ys = length xs /\ 0 < len xs <= 253 /\ Forall (is_u 32) xs /\ Forall (is_u 32) ys.

Lemma wp_round prefix dev h xs ys s : prefix_ok prefix -> dev_ok prefix dev -> power_ready prefix h s -> round_ok xs ys ->
  0 <= h -> h + SAMPLE_BUFFER_LENGTH * 16 <= 2 ^ 64 ->
  wp (drv_steps [(dev, D_app 5 (header h ++ xs)); (dev, D_app 6 (header h ++ ys))]) s (fun _ s' o => power_ready prefix (h + 16 * len xs) s'
    /\ (forall c, frame_scale s' c = frame_scale s c)
    /\ forall c, c ∈ channels -> sent c o ++ pending c (dr_ports s') = pending c (dr_ports s) ++ round_items prefix s h xs ys c).
Proof.
  intros Hpre Hdev (Hs & Hi & Hv) (Hlen & Hn & Hx & Hy) Hh Hmax. cbn [drv_steps drv_step]. assert (len ys = len xs) as El by (unfold len; lia).
  apply wp_bind, (wp_feed prefix dev 5 h xs s); try done; [by left | lia |]. intros bi ps1 o1 Hbi Hs1 C1. set (s1 := set_ports _ ps1) in *.
  assert (sbuf_f32_length (sb_v (dr_sbufs s1)) = 0) as Ev.
  { change (sb_v (dr_sbufs s1)) with (sb_v (dr_sbufs s)). destruct Hv as (_ & _ & Sv & _). by rewrite <- len_sbuf_samples, Sv. }
  unfold js320_compute_power at 1. apply wp_bind, wp_get. rewrite (pi_power _ _ _ Hs1), Ev. cbn [negb]. cbv zeta. rewrite orb_true_r. apply wp_ret.
  apply wp_bind, (wp_feed prefix dev 6 h ys s1); try done; [by right | lia |]. intros bv ps2 o2 Hbv Hs2 C2. set (s2 := set_ports _ ps2) in *.
  assert (len (scaled s 5 xs) = len xs) as Es by (unfold len, scaled; by rewrite length_fmap).
  eapply wp_mono; [apply (wp_power prefix dev h (scaled s 5 xs) (scaled s1 6 ys) s2); try done; [unfold scaled; by rewrite !length_fmap | lia]|].
  intros ? s3 o3 (ps3 & b3 & -> & Hs3 & Hi3 & Hv3 & C3). apply wp_ret. rewrite Es in *. split; [by split_and!|]. split; [done|].
  intros c Hc. cbn [dr_ports set_ports]. rewrite ?app_nil_l, ?app_nil_r, !sent_app, <- !app_assoc, (C3 c Hc).
  change (dr_ports s2) with ps2. rewrite (app_assoc (sent c o2)), (C2 c Hc). change (dr_ports s1) with ps1. rewrite !app_assoc, (C1 c Hc), <- !app_assoc. f_equal.
  unfold round_items. clear -Hc. channel_cases Hc; cbn [Z.eqb Pos.eqb items Datatypes.app]; rewrite ?app_nil_r; done.
Qed.

(** ** Runs *)

Lemma wp_steps_app a b s (Q : unit -> js320_drv_s -> list drv_action -> Prop) :
  wp (drv_steps a) s (fun _ s1 o1 => wp (drv_steps b) s1 (fun x s2 o2 => Q x s2 (o1 ++ o2))) -> wp (drv_steps (a ++ b)) s Q.
Proof.
  revert s Q. induction a as [|[dev x] a IH]; intros s Q H; cbn [drv_steps Datatypes.app].
  - destruct H as ([] & s1 & o1 & E & H). injection E as <- <-. exact H.
  - cbn [drv_steps] in H. apply wp_bind_inv in H. apply wp_bind. eapply wp_mono; [exact H|]. intros ? s1 o1 H1. apply IH.
    eapply wp_mono; [exact H1|]. intros ? s2 o2 H2. eapply wp_mono; [exact H2|]. intros ? s3 o3 H3. by rewrite app_assoc.
Qed.

(** Rounds in step, from sample id [h] on. *)
Fixpoint round_inputs (h : Z) (rounds : list (mb_dev_s * (list Z * list Z))) : list (mb_dev_s * drv_input) :=
  match rounds with
  | [] => []
  | (dev, (xs, ys)) :: rounds => [(dev, D_app 5 (header h ++ xs)); (dev, D_app 6 (header h ++ ys))] ++ round_inputs (h + 16 * len xs) rounds
  end.

Definition rounds_ok (prefix : string) (rounds : list (mb_dev_s * (list Z * list Z))) : Prop :=
  Forall (fun '(dev, (xs, ys)) => dev_ok prefix dev /\ round_ok xs ys) rounds.

(** The products of all samples. *)
Definition all_power (s : js320_drv_s) (rounds : list (mb_dev_s * (list Z * list Z))) : list (list Z) :=
  power_bytes (scaled s 5 (concat ((fun r => r.2.1) <$> rounds))) (scaled s 6 (concat ((fun r => r.2.2) <$> rounds))).

Lemma all_power_cons s dev xs ys rounds : length ys = length xs ->
  all_power s ((dev, (xs, ys)) :: rounds) = power_bytes (scaled s 5 xs) (scaled s 6 ys) ++ all_power s rounds.
Proof.
  intros Hl. unfold all_power, power_bytes, scaled. cbn [fmap list_fmap concat fst snd]. rewrite !fmap_app, zip_with_app by (by rewrite !length_fmap).
  by rewrite fmap_app.
Qed.

Lemma all_power_scale s s' rounds : (forall c, frame_scale s' c = frame_scale s c) -> all_power s' rounds = all_power s rounds.
Proof. intros E. unfold all_power, scaled. by rewrite !E. Qed.

Lemma rounds_power prefix rounds : prefix_ok prefix -> rounds_ok prefix rounds -> forall h s, power_ready prefix h s -> 0 <= h ->
  h + 16 * (len (concat ((fun r => r.2.1) <$> rounds)) + SAMPLE_BUFFER_LENGTH) <= 2 ^ 64 ->
  wp (drv_steps (round_inputs h rounds)) s (fun _ s' o =>
    sent 7 o ++ pending 7 (dr_ports s') = pending 7 (dr_ports s) ++ items (port_topic prefix 7 0) 0 16 h (all_power s rounds)).
Proof.
  intros Hpre Hr. induction Hr as [|[dev [xs ys]] rounds [Hdev Hro] _ IH]; intros h s Hs Hh Hmax.
  - apply wp_ret. by rewrite app_nil_r.
  - cbn [round_inputs fmap list_fmap concat fst snd] in *. rewrite len_app in Hmax. pose proof Hro as (Hl & Hn & _).
    pose proof (len_nonneg (concat ((fun r : mb_dev_s * (list Z * list Z) => r.2.1) <$> rounds))). apply wp_steps_app.
    eapply wp_mono; [apply (wp_round prefix dev h xs ys s); try done; lia|]. intros ? s1 o1 (Hs1 & Hsc & C1).
    eapply wp_mono; [apply (IH (h + 16 * len xs) s1); [done | lia | lia]|]. intros ? s2 o2 C2.
    rewrite sent_app, <- app_assoc, C2, app_assoc, (C1 7) by in_list. rewrite <- app_assoc, all_power_cons, items_app, (all_power_scale s s1) by done.
    f_equal. unfold round_items. cbn [Z.eqb Pos.eqb]. f_equal. f_equal.
    unfold power_bytes, scaled, len. rewrite length_fmap, length_zip_with, !length_fmap, Hl. lia.
Qed.

(** C21. While power is computed by the host, and current and voltage arrive in step (frame after frame with
    the same sample ids and lengths, none missing), every round runs without a fault, and what was
    published on the power stream and what waits there are together, at each sample id in order, the
    float product of the scaled current and voltage with that id: none missing, none twice. *)
Theorem host_power_products prefix rounds h s : prefix_ok prefix -> rounds_ok prefix rounds -> power_ready prefix h s -> 0 <= h ->
  h + 16 * (len (concat ((fun r => r.2.1) <$> rounds)) + SAMPLE_BUFFER_LENGTH) <= 2 ^ 64 ->
  exists s' o, drv_steps (round_inputs h rounds) s = Ok (tt, s', o)
    /\ sent 7 o ++ pending 7 (dr_ports s') = pending 7 (dr_ports s) ++ items (port_topic prefix 7 0) 0 16 h (all_power s rounds).
Proof.
  intros Hpre Hr Hs Hh Hmax. destruct (rounds_power prefix rounds Hpre Hr h s Hs Hh Hmax) as ([] & s' & o & E & H). by exists s', o.
Qed.

(** ** A gap in both streams *)

(** The product is longer than what is left in the message: [JSDRV_ASSERT] in [js320_port_append] fails. *)
Lemma power_gap_asserts prefix dev h xs ys s p m ws : power_inv prefix h s ->
  sbuf_holds h xs (sb_i (dr_sbufs s)) -> sbuf_holds h ys (sb_v (dr_sbufs s)) -> length ys = length xs -> 0 < len xs -> 0 <= h -> h + SAMPLE_BUFFER_LENGTH * 16 <= 2 ^ 64 ->
  dr_ports s !! 7%nat = Some p -> po_msg_in p = Some m -> msg_ok prefix (dr_dwn s) 7 p m ws -> po_sample_id_next p = h -> po_current_index p = 0 ->
  JSDRV_STREAM_DATA_SIZE < 4 * (len ws + len xs) -> js320_compute_power dev s = Fault AssertFail.
Proof.
  intros [P1 P2 P3 P4 P5 [P6 P7]] Hi Hv Hlen Hn Hh Hmax Hp Em Hm En Ei Hbig. unfold SAMPLE_BUFFER_LENGTH in Hmax.
  destruct (sbuf_power_ok h xs ys _ _ _ Hi Hv Hlen P6 P7) as (p' & i' & v' & Emu & _ & _ & Lb & Hp' & Dp & Lp & rest & Er); [unfold SAMPLE_BUFFER_LENGTH; lia|].
  assert (len xs < 1024) as Hn2 by (rewrite <- Lp; pose proof (sbuf_length_range p'); unfold SAMPLE_BUFFER_LENGTH in *; lia).
  assert (len ys = len xs) as El by (unfold len; lia). unfold js320_compute_power. rewrite run_get, P3. cbn [negb]. cbv zeta.
  assert (sbuf_f32_length (sb_i (dr_sbufs s)) = len xs /\ sbuf_f32_length (sb_v (dr_sbufs s)) = len xs) as [-> ->].
  { destruct Hi as (_ & _ & Si & _), Hv as (_ & _ & Sv & _). by rewrite <- !len_sbuf_samples, Si, Sv. }
  rewrite (proj2 (Z.eqb_neq (len xs) 0)) by lia. cbn [orb]. rewrite Emu, run_lift_ok, run_modify, Lp, (proj2 (Z.eqb_neq (len xs) 0)) by lia. rewrite Hp', Dp.
  assert (u64 (h + 16 * len xs - u64 (len xs * 16)) = h) as ->.
  { rewrite (uwrap_small 64 (len xs * 16)) by width_lia. replace (_ - _) with h by lia. apply uwrap_small. width_lia. }
  unfold mbind at 1, op_bind at 1. set (s1 := set_sbufs s _).
  assert (js320_port_append dev 7 0 None h (f32_bytes (sb_buffer p')) (len xs) s1 = Fault AssertFail) as ->; [|done].
  assert (port_at 7 s1 = Ok (p, s1, [])) as Hpa by (unfold port_at; rewrite run_get; unfold lift; by rewrite (ld_ok _ 7 p)).
  unfold js320_port_append. rewrite (channel_def_ok 7) by in_list. rewrite run_lift_ok.
  assert (port_align 7 0 h s1 = Ok (tt, s1, [])) as Ha.
  { unfold port_align. rewrite (run_bind _ _ _ _ _ _ Hpa), Em, En, Ei, Z.eqb_refl. done. }
  rewrite (run_bind _ _ _ _ _ _ Ha), run_get. destruct (channel_decimate_ok (dr_dwn s) 7) as (x & Ex & _); [in_list|].
  change (dr_dwn s1) with (dr_dwn s). rewrite Ex, run_lift_ok, (run_bind _ _ _ _ _ _ Hpa), Em, run_ret. unfold mbind at 1, op_bind at 1, lift at 1.
  assert (signal_extend (sm_signal m) (bits 7) (f32_bytes (sb_buffer p')) (len xs) = Fault AssertFail) as ->; [|done].
  unfold signal_extend. change (bits 7) with 32. rewrite (mo_data _ _ _ _ _ _ Hm). rewrite (uwrap_small 32 (len xs * 32)), uwrap_small by width_lia.
  replace ((len xs * 32 + 7) / 8) with (4 * len xs) by (apply (Z.div_unique _ _ _ 7); lia).
  assert (len (concat ws) = 4 * len ws) as -> by (unfold len; rewrite (length_concat4 ws) by apply Hm; lia).
  unfold JSDRV_STREAM_DATA_SIZE, JSDRV_STREAM_HEADER_SIZE in *. simpl_cmp. done.
Qed.

(** ** Examples *)

(** Empty ports and restarted buffers, at any id. *)
Lemma power_ready_fresh prefix h s : 0 <= h -> dr_power_compute_on_host s = true -> length (dr_ports s) = 16%nat ->
  Forall (fun p => po_msg_in p = None /\ po_host_filter p = None) (dr_ports s) -> ak_dropping (dr_signal_ack s) = false ->
  (forall ch, 5 <= ch <= 7 -> channel_decimate (dr_dwn s) ch = 16) ->
  (forall b, b ∈ [sb_i (dr_sbufs s); sb_v (dr_sbufs s); sb_p (dr_sbufs s)] -> exists b0, b = sbuf_restart b0 /\ len (sb_buffer b0) = SAMPLE_BUFFER_LENGTH) ->
  power_ready prefix h s.
Proof.
  intros Hh Hp Hl Hf Ha Hr Hb.
  assert (forall b0, len (sb_buffer b0) = SAMPLE_BUFFER_LENGTH -> sbuf_idle h (sbuf_restart b0)) as Hi.
  { intros b0 Hlb. split; [split; [split_and!; by cbn | by vm_compute]|]. split; [done|]. split; [done|]. by right. }
  destruct (Hb (sb_i (dr_sbufs s)) ltac:(by left)) as (bi & Ei & Li). destruct (Hb (sb_v (dr_sbufs s)) ltac:(by right; left)) as (bv & Ev & Lv).
  destruct (Hb (sb_p (dr_sbufs s)) ltac:(by right; right; left)) as (bp & Ep & Lp). split; [|rewrite Ei, Ev; by split; apply Hi]. split; try done.
  - split; [done|]. intros ch p _ Hlk. destruct (Forall_lookup_1 _ _ _ _ Hf Hlk) as [Hm _]. case_decide; [|done]. unfold port_ok. by rewrite Hm.
  - eapply Forall_impl; [exact Hf|]. by intros p [_ ?].
  - rewrite Ep. split; [done|]. cbn. lia.
Qed.

(** The state after the three streams were switched on. *)
Definition ex_on (t : string) : mb_dev_s * drv_input := (ex_dev, D_cmd t (Union.jsdrv_union_u32 1)).
Definition ex_power : js320_drv_s :=
  match drv_steps [ex_on "s/i/ctrl"; ex_on "s/v/ctrl"; ex_on "s/p/ctrl"] js320_drv_factory with Ok (_, s, _) => s | Fault _ => js320_drv_factory end.

(** 1.0 and 2.0 times 3.0 and 4.0; then 5.0 times 0.5. *)
Definition ex_rounds : list (mb_dev_s * (list Z * list Z)) :=
  (ex_dev,.) <$> [([1065353216; 1073741824], [1077936128; 1082130432]); ([1084227584], [1056964608])].

Example ex_products : all_power ex_power ex_rounds = le 4 <$> [1077936128; 1090519040; 1075838976].
Proof. vm_compute. reflexivity. Qed.

Lemma ex_power_ready : power_ready ex_prefix 3200 ex_power.
Proof.
  apply power_ready_fresh; try done.
  - vm_compute. by repeat constructor.
  - intros ch Hc. assert (ch = 5 \/ ch = 6 \/ ch = 7) as H by lia. destruct_or! H; subst; by vm_compute.
  - intros b Hb. exists sbuf_zero. rewrite !elem_of_cons, elem_of_nil in Hb.
    destruct Hb as [-> | [-> | [-> | []]]]; (split; [vm_compute; reflexivity | reflexivity]).
Qed.

Lemma host_power_products_witness : exists s' o, drv_steps (round_inputs 3200 ex_rounds) ex_power = Ok (tt, s', o)
  /\ sent 7 o ++ pending 7 (dr_ports s') = pending 7 (dr_ports ex_power) ++ items (port_topic ex_prefix 7 0) 0 16 3200 (all_power ex_power ex_rounds).
Proof.
  apply (host_power_products ex_prefix ex_rounds 3200 ex_power).
  - split; [|by vm_compute]. repeat constructor; discriminate.
  - repeat constructor; (done || by vm_compute).
  - apply ex_power_ready.
  - lia.
  - by vm_compute.
Defined.

(** After 700 missing samples the next frame leaves 953 samples in a buffer, more than the room for one
    more frame of 253 that a message keeps. *)
Example gap_length :
  (b ← sbuf_f32_add (set_head_sample_id 3200 (sbuf_restart sbuf_zero)) (3200 + 16 * 700) (replicate 253 (f32_of_Z 1)) 253; Ok (sbuf_f32_length b)) = Ok 953.
Proof. vm_compute. reflexivity. Qed.
