(* ===== verification/Buffer.v ===== *)
(** * The buffer manager (src/buffer.c)

    The manager keeps up to sixteen buffers; each has a thread with a queue of messages, the signal
    buffers of BufferSignal, and the requests that wait for an answer.  The state of a thread is a
    record, what it does to the rest of the library - subscriptions, messages to the front end - is
    the output of the monad of Effect.  Functions of the C library whose rounding is not specified
    ([pow], [log2]) are parameters, as is the memory that an allocation leaves uninitialised. *)

From Stdlib Require Import Strings.String.
From S2P Require Import Prelude Float Cstr ErrorCode Time Tmap Statistics BufferSignal Union Effect.

Definition JSDRV_BUFFER_COUNT_MAX : Z := 16.
Definition JSDRV_BUFSIG_COUNT_MAX : Z := 255.
Definition JSDRV_TOPIC_LENGTH_MAX : Z := 64.
Definition JSDRV_MSG_FINALIZE : cstr := Eval cbv in str "@/!final".
Definition JSDRV_BUFFER_MGR_MSG_ACTION_ADD : cstr := Eval cbv in str "m/@/!add".
Definition JSDRV_BUFFER_MGR_MSG_ACTION_REMOVE : cstr := Eval cbv in str "m/@/!remove".
Definition JSDRV_BUFFER_MGR_MSG_ACTION_LIST : cstr := Eval cbv in str "m/@/list".
Definition JSDRV_BUFFER_MSG_LIST : cstr := Eval cbv in str "g/list".

(** [ceil()] as an integer; the result of [ceil] is an integer, so that the cast is of that. *)
Definition f_ceil (x : spec_float) : option Z :=
  match x with
  | S754_zero _ => Some 0
  | S754_finite s m e =>
      let a := if s then Zneg m else Zpos m in
      Some (if 0 <=? e then Z.shiftl a e else - (Z.shiftr (- a) (- e)))
  | _ => None
  end.

(** [enum buffer_state_s] *)
Inductive buffer_state_s := ST_IDLE | ST_AWAIT | ST_ACTIVE.
#[global] Instance buffer_state_eq_dec : EqDecision buffer_state_s.
Proof. solve_decision. Defined.

(** A request: the answer's topic, and the members that the signal buffer uses. *)
Record req_s := mk_reqs { rq_signal_id : Z; rq_topic : cstr; rq_req : jsdrv_buffer_request_s }.

(** What the bytes behind [value.bin] are: the sender wrote a stream message, a request, or
    something else, which cannot be read as either. *)
Inductive struct_s :=
  | DNone
  | DSignal (s : jsdrv_stream_signal_s)
  | DRequest (topic : cstr) (r : jsdrv_buffer_request_s).

Record msg_s := mk_bmsg { m_topic : cstr; m_u32_a : Z; m_value : jsdrv_union_s; m_struct : struct_s }.

(** The functions that are subscribed. *)
Inductive fn_e := FN_buffer_recv | FN_buffer_recv_data | FN_buffer_add | FN_buffer_remove.
#[global] Instance fn_eq_dec : EqDecision fn_e.
Proof. solve_decision. Defined.

(** Messages to the front end.  [user] is the argument of a subscribed function. *)
Inductive out {T : Type} :=
  | OSub (topic : cstr) (fn : fn_e) (user : Z)
  | OUnsub (topic : cstr) (fn : fn_e) (user : Z)
  | OList (topic : cstr) (ids : list Z)
  | OInfo (topic : cstr) (info : jsdrv_buffer_info_s T)
  | OResponse (topic : cstr) (rsp : jsdrv_buffer_response_s T)
  | OReturn (topic : cstr) (rc : Z) (fn : fn_e)
  | OMeta (topic : cstr).
Arguments out : clear implicits.

Record buffer_s {T : Type} := mk_buffer {
  bf_idx : Z;                        (* uint8_t *)
  bf_hold : bool;
  bf_state : buffer_state_s;
  bf_topic : cstr;
  bf_size : Z;                       (* uint64_t *)
  bf_cmd_q : option (list msg_s);    (* [None] for a null pointer *)
  bf_pending : list req_s;
  bf_free : list req_s;
  bf_do_exit : bool;
  bf_signals : list (bufsig_s T);    (* 0 is reserved *)
}.
Arguments buffer_s : clear implicits.

(** A signal of a buffer that was cleared with [memset]. *)
Definition bufsig_zero {T : Type} : bufsig_s T :=
  mk_bufsig _ false [] (mk_hdr 0 0 0 0 0 0 0 0) None 0 0 0 0 0 0 (replicate 32 level_zero) 0 0 0 None.

Section Buffer.
Context {T : Type} `{TmapImpl T}.
Context (fresh_byte : Z) (fresh_entry : jsdrv_summary_entry_s) (fresh_rsp : jsdrv_buffer_response_s T) (fresh_text : list Z).
Context (pow : f64 -> f64 -> f64) (log2 : f64 -> f64).
Abbreviation M := (eff (out T) (buffer_s T)).

(** ** The members *)

Definition with_signals (s : buffer_s T) (l : list (bufsig_s T)) : buffer_s T :=
  mk_buffer _ (bf_idx s) (bf_hold s) (bf_state s) (bf_topic s) (bf_size s) (bf_cmd_q s) (bf_pending s) (bf_free s) (bf_do_exit s) l.
Definition with_state (s : buffer_s T) (x : buffer_state_s) : buffer_s T :=
  mk_buffer _ (bf_idx s) (bf_hold s) x (bf_topic s) (bf_size s) (bf_cmd_q s) (bf_pending s) (bf_free s) (bf_do_exit s) (bf_signals s).
Definition with_size (s : buffer_s T) (x : Z) : buffer_s T :=
  mk_buffer _ (bf_idx s) (bf_hold s) (bf_state s) (bf_topic s) x (bf_cmd_q s) (bf_pending s) (bf_free s) (bf_do_exit s) (bf_signals s).
Definition with_hold (s : buffer_s T) (x : bool) : buffer_s T :=
  mk_buffer _ (bf_idx s) x (bf_state s) (bf_topic s) (bf_size s) (bf_cmd_q s) (bf_pending s) (bf_free s) (bf_do_exit s) (bf_signals s).
Definition with_q (s : buffer_s T) (q : option (list msg_s)) : buffer_s T :=
  mk_buffer _ (bf_idx s) (bf_hold s) (bf_state s) (bf_topic s) (bf_size s) q (bf_pending s) (bf_free s) (bf_do_exit s) (bf_signals s).
Definition with_reqs (s : buffer_s T) (pending free : list req_s) : buffer_s T :=
  mk_buffer _ (bf_idx s) (bf_hold s) (bf_state s) (bf_topic s) (bf_size s) (bf_cmd_q s) pending free (bf_do_exit s) (bf_signals s).
Definition with_exit (s : buffer_s T) : buffer_s T :=
  mk_buffer _ (bf_idx s) (bf_hold s) (bf_state s) (bf_topic s) (bf_size s) (bf_cmd_q s) (bf_pending s) (bf_free s) true (bf_signals s).

Definition with_active (b : bufsig_s T) (x : bool) : bufsig_s T :=
  mk_bufsig _ x (b_topic b) (hdr b) (tmap b) (bN b) (size_in_utc b) (r0 b) (rN b) (b_k b)
    (level_count b) (levels b) (level0_head b) (level0_size b) (sample_id_head b) (level0_data b).
Definition with_topic (b : bufsig_s T) (x : cstr) : bufsig_s T :=
  mk_bufsig _ (active b) x (hdr b) (tmap b) (bN b) (size_in_utc b) (r0 b) (rN b) (b_k b)
    (level_count b) (levels b) (level0_head b) (level0_size b) (sample_id_head b) (level0_data b).

Definition signal (idx : Z) : M (bufsig_s T) := s ← get; lift (ld (bf_signals s) idx).
Definition set_signal (idx : Z) (b : bufsig_s T) : M unit :=
  s ← get; l ← lift (st (bf_signals s) idx b); modify (fun s => with_signals s l).
Definition emit (o : out T) : M unit := fun s => Ok (tt, s, [o]).

(** [for (idx = first; ...; ++idx)], [n] rounds. *)
Fixpoint for_signals (n : nat) (idx : Z) (body : Z -> M unit) : M unit :=
  match n with
  | O => mret tt
  | S n => body idx ;; for_signals n (idx + 1) body
  end.
(** [for (idx = 1; idx < JSDRV_BUFSIG_COUNT_MAX; ++idx)] *)
Definition each_signal (body : Z -> M unit) : M unit := for_signals 254 1 body.

(** A print of at most the size of a topic. *)
Definition topic_print (t : cstr) : cstr := take 63 t.

(** ** Subscriptions *)

Definition bufsig_user (idx : Z) (s : buffer_s T) : Z := Z.lor (Z.shiftl (Z.land idx 0xffff) 16) (Z.land (bf_idx s) 0xffff).

Definition bufsig_unsub (idx : Z) : M unit :=
  b ← signal idx;
  match b_topic b with
  | [] => mret tt
  | t => s ← get; emit (OUnsub t FN_buffer_recv_data (bufsig_user idx s)) ;; set_signal idx (with_topic b [])
  end.

Definition bufsig_sub (idx : Z) (topic : cstr) : M unit :=
  bufsig_unsub idx ;;
  b ← signal idx;
  let b := with_topic b (topic_print topic) in
  set_signal idx b ;;
  s ← get;
  emit (OSub (b_topic b) FN_buffer_recv_data (bufsig_user idx s)).

(** ** Published state *)

Definition is_active (l : list (bufsig_s T)) (i : Z) : bool :=
  match l !! Z.to_nat i with Some b => active b | None => false end.
(** The loop of the list: the ids of the active signals. *)
Definition active_ids (s : buffer_s T) : list Z := List.filter (is_active (bf_signals s)) (seqZ 1 254).

Definition buf_publish_signal_list : M unit :=
  s ← get;
  emit (OList (topic_print (bf_topic s ++ 47 :: JSDRV_BUFFER_MSG_LIST)) (active_ids s ++ [0])).

Definition await_check (s : buffer_s T) : bool :=
  forallb (fun i => match bf_signals s !! Z.to_nat i with
                    | Some b => negb (active b) || negb (0 =? h_sample_rate (hdr b))
                    | None => true
                    end) (seqZ 1 254).

(** [m/%03d/s/%03d/info] *)
Definition info_topic (buffer idx : Z) : cstr :=
  topic_print (str "m/" ++ fmt_u0 3 buffer ++ str "/s/" ++ fmt_u0 3 idx ++ str "/info").

Definition bufsig_publish_info (idx : Z) : M unit :=
  b ← signal idx;
  '(ok, info) ← lift (jsdrv_bufsig_info b);
  if ok : bool then s ← get; emit (OInfo (info_topic (bf_idx s) idx) info) else mret tt.

(** ** Allocation *)

Definition is_f32 (b : bufsig_s T) : bool :=
  (h_element_type (hdr b) =? JSDRV_DATA_TYPE_FLOAT) && (h_element_size_bits (hdr b) =? 32).

(** [coef += 16 / (r0 * pow(32, lvl - 1))] for the levels 1 to 7. *)
Fixpoint coef_loop (n : nat) (lvl : Z) (r0 : Z) (coef : f64) : f64 :=
  match n with
  | O => coef
  | S n =>
      let pow_lvl := pow (f64_of_Z 32) (f64_of_Z (lvl - 1)) in
      coef_loop n (lvl + 1) r0 (f64_add coef (f64_div (f64_of_Z 16) (f64_mul (f64_of_Z r0) pow_lvl)))
  end.
Definition coef_f32 : f64 := coef_loop 7 1 128 (f64_of_Z 4).
Definition coef_u : f64 := coef_loop 7 1 1024 (f64_of_Z 0).

Definition sample_rate_of (b : bufsig_s T) : res Z := udiv (h_sample_rate (hdr b)) (h_decimate_factor (hdr b)).

(** Bytes per second over the signals [l]. *)
Fixpoint sz_per_s_loop (l : list (bufsig_s T)) (sz : f64) : res f64 :=
  match l with
  | [] => Ok sz
  | b :: l =>
      if active b then
        rate ← sample_rate_of b;
        sz_per_s_loop l
          (f64_add sz (f64_mul (f64_of_Z rate)
             (if is_f32 b then coef_f32 else f64_add (f64_div (f64_of_Z (h_element_size_bits (hdr b))) (f64_of_Z 8)) coef_u)))
      else sz_per_s_loop l sz
  end.

Fixpoint rZ_loop (n : nat) (rN rZ : Z) : Z :=
  match n with
  | O => rZ
  | S n => rZ_loop n rN (u64 (rZ * rN))
  end.

(** The number of samples for a signal, and its reductions. *)
Definition signal_length (b : bufsig_s T) (duration : f64) : res (Z * Z * Z) :=
  rate ← sample_rate_of b;
  let N := f64_mul duration (f64_of_Z rate) in
  let rN := 32 in
  let r0 := if is_f32 b then 128 else 1024 in
  level ← f_cast I64_MIN I64_MAX
    (f_ceil (f64_add (f64_div (log2 (f64_div N (f64_of_Z (r0 * (rN * rN - 1))))) (log2 (f64_of_Z rN))) (f64_of_Z 1)));
  let level := if level <? 1 then 1 else level in
  let rZ := rZ_loop (Z.to_nat level) rN r0 in
  k ← f_cast 0 U64_MAX (f_round (f64_div N (f64_of_Z rZ)));
  let k := if k =? 0 then 1 else k in
  Ok (u64 (k * rZ), r0, rN).

(** [bufsig_unsub(b); b->active = false;] *)
Definition signal_off (idx : Z) : M unit := bufsig_unsub idx ;; b ← signal idx; set_signal idx (with_active b false).

(** The first loop of [buffer_alloc]: signals whose elements cannot be stored are removed. *)
Fixpoint remove_unsupported (n : nat) (idx : Z) (signal_list_changed : bool) : M bool :=
  match n with
  | O => mret signal_list_changed
  | S n =>
      b ← signal idx;
      if active b && negb (jsdrv_bufsig_element_type_is_supported (h_element_type (hdr b)) (h_element_size_bits (hdr b))) then
        signal_off idx ;;
        remove_unsupported n (idx + 1) true
      else remove_unsupported n (idx + 1) signal_list_changed
  end.

Definition alloc_signal (duration : f64) (idx : Z) : M unit :=
  b ← signal idx;
  if active b then
    '(Np, r0, rN) ← lift (signal_length b duration);
    '(b, rc) ← lift (jsdrv_bufsig_alloc fresh_byte fresh_entry b Np r0 rN);
    set_signal idx b ;;
    if negb (rc =? 0) then
      signal_off idx ;;
      buf_publish_signal_list
    else bufsig_publish_info idx
  else mret tt.

Definition buffer_alloc : M unit :=
  signal_list_changed ← remove_unsupported 254 1 false;
  (if signal_list_changed : bool then buf_publish_signal_list else mret tt) ;;
  s ← get;
  sz_per_s ← lift (sz_per_s_loop (drop 1 (bf_signals s)) (f64_of_Z 0));
  let duration := f64_div (f64_of_Z (bf_size s)) sz_per_s in
  each_signal (alloc_signal duration).

Definition free_signal (idx : Z) : M unit :=
  b ← signal idx;
  set_signal idx (jsdrv_bufsig_clear b) ;;
  bufsig_publish_info idx ;;
  b ← signal idx;
  set_signal idx (jsdrv_bufsig_free b).

Definition buffer_free : M unit :=
  modify (fun s => if bool_decide (bf_state s = ST_ACTIVE) then with_state s ST_AWAIT else s) ;;
  for_signals 255 0 free_signal.

(** ** Requests *)

Definition same_request (signal_id : Z) (topic : cstr) (r : jsdrv_buffer_request_s) (x : req_s) : bool :=
  (rq_signal_id x =? signal_id) && (req_rsp_id (rq_req x) =? req_rsp_id r) && bool_decide (rq_topic x = topic).

(** The search over the pending requests: the first match takes the new request. *)
Fixpoint req_update (signal_id : Z) (topic : cstr) (r : jsdrv_buffer_request_s) (l : list req_s) : option (list req_s) :=
  match l with
  | [] => None
  | x :: l =>
      if same_request signal_id topic r x then Some (mk_reqs (rq_signal_id x) topic r :: l)
      else cons x <$> req_update signal_id topic r l
  end.

Definition req_post (bufsig_idx : Z) (topic : cstr) (r : jsdrv_buffer_request_s) : M unit :=
  modify (fun s =>
    match req_update bufsig_idx topic r (bf_pending s) with
    | Some l => with_reqs s l (bf_free s)
    | None => with_reqs s (bf_pending s ++ [mk_reqs bufsig_idx topic r]) (List.tl (bf_free s))
    end).

Definition req_handle_one : M bool :=
  s ← get;
  match bf_pending s with
  | [] => mret false
  | req :: pending =>
      modify (fun s => with_reqs s pending (bf_free s)) ;;
      b ← signal (rq_signal_id req);
      if negb (active b) then modify (fun s => with_reqs s (bf_pending s) (bf_free s ++ [req])) ;; mret false
      else
        '(rc, r, rsp) ← lift (jsdrv_bufsig_process_request b (rq_req req) fresh_rsp);
        (if negb (rc =? 0) then mret tt else emit (OResponse (topic_print (rq_topic req)) rsp)) ;;
        modify (fun s => with_reqs s (bf_pending s) (bf_free s ++ [mk_reqs (rq_signal_id req) (rq_topic req) r])) ;;
        mret true
  end.

(** The requests that are left when the thread ends. *)
Definition req_list_free : M unit := modify (fun s => with_reqs s [] []).

(** ** Messages to the thread *)

Definition buffer_recv_complete (subtopic : cstr) (rc : Z) : M unit :=
  if 0 <=? rc then
    s ← get; emit (OReturn (topic_print (str "m/" ++ fmt_u0 3 (bf_idx s) ++ 47 :: subtopic ++ [35])) rc FN_buffer_recv)
  else mret tt.

(** The widened value read through a member of the union. *)
Definition value_word (v : jsdrv_union_s) : res Z := v ← jsdrv_union_widen v; word v.

(** [while ( *s != '/') *p++ = *s++]: nothing ends the loop but a slash; without one it leaves the
    text of the topic. *)
Fixpoint until_slash (s : cstr) : res (cstr * cstr) :=
  match s with
  | [] => Fault OutOfBounds
  | c :: s => if c =? 47 then Ok ([], s) else '(a, r) ← until_slash s; Ok (c :: a, r)
  end.

(** A data message for signal [idx]. *)
Definition on_data (idx : Z) (msg : msg_s) : M unit :=
  s ← get;
  if bool_decide (bf_state s = ST_IDLE) then mret tt
  else
    b ← signal idx;
    x ← lift (match m_struct msg with DSignal x => Ok x | _ => Fault OutOfBounds end);
    b ← lift (jsdrv_bufsig_recv_data b x);
    set_signal idx b ;;
    if bool_decide (bf_state s = ST_AWAIT) then
      s ← get;
      if await_check s then buffer_alloc ;; modify (fun s => with_state s ST_ACTIVE) else mret tt
    else bufsig_publish_info idx.

(** a/...: add or remove a signal. *)
Definition on_action (s : cstr) (msg : msg_s) : M Z :=
  v ← lift (value_word (m_value msg));
  let idx := u32 v in
  if (idx <=? 0) || (JSDRV_BUFSIG_COUNT_MAX <=? idx) then mret (ec_code NOT_FOUND)
  else if bool_decide (s = str "!add") then
    b ← signal idx;
    if active b then mret (ec_code BUSY)
    else
      buffer_free ;;
      b ← signal idx;
      set_signal idx (with_active b true) ;;
      buf_publish_signal_list ;;
      mret 0
  else if bool_decide (s = str "!remove") then
    signal_off idx ;;
    buffer_free ;;
    buf_publish_signal_list ;;
    mret 0
  else mret (ec_code NOT_FOUND).

(** s/NNN/...: a request, or the topic of a signal; -1 sends no return code. *)
Definition on_signal (s : cstr) (msg : msg_s) : M Z :=
  '(idx_str, s) ← lift (until_slash s);
  let '(rc, idx) := jsdrv_cstr_to_u32 (Some idx_str) (Some 0) in
  let idx := default 0 idx in
  if negb (rc =? 0) then mret (ec_code PARAMETER_INVALID)
  else if (idx <=? 0) || (JSDRV_BUFSIG_COUNT_MAX <=? idx) then mret (ec_code NOT_FOUND)
  else if bool_decide (s = str "!req") then
    '(topic, r) ← lift (match m_struct msg with DRequest topic r => Ok (topic, r) | _ => Fault OutOfBounds end);
    req_post idx topic r ;;
    mret 0
  else if bool_decide (s = str "topic") then
    m ← lift (object (m_value msg));
    t ← lift (match cstr_at m with Some t => Ok t | None => Fault OutOfBounds end);
    bufsig_sub idx t ;;
    mret 0
  else if bool_decide (s = str "info") then mret (-1)
  else mret (ec_code PARAMETER_INVALID).

(** g/...: the size, the hold flag, clear. *)
Definition on_global (s : cstr) (msg : msg_s) : M Z :=
  if bool_decide (s = str "size") then
    sz ← lift (value_word (m_value msg));
    buffer_free ;;
    modify (fun s => with_state (with_size s sz) (if 0 =? sz then ST_IDLE else ST_AWAIT)) ;;
    mret 0
  else if bool_decide (s = str "list") then mret (-1)
  else if bool_decide (s = str "hold") then
    '(_, v) ← lift (jsdrv_union_to_bool fresh_text (m_value msg) false);
    s ← get;
    modify (fun s => with_hold s v) ;;
    (if bf_hold s && negb v then buffer_free else mret tt) ;;
    mret 0
  else if bool_decide (s = str "!clear") then buffer_free ;; mret 0
  else mret (ec_code PARAMETER_INVALID).

(** [(s[0] == c) && (s[1] == '/')] *)
Definition has_prefix (c : Z) (s : cstr) : bool := match s with a :: b :: _ => (a =? c) && (b =? 47) | _ => false end.

(** The commands: the result of the handler, and the return code. *)
Definition on_command (msg : msg_s) : M (bool * Z) :=
  let s := m_topic msg in
  if has_prefix 97 s then rc ← on_action (drop 2 s) msg; mret (true, rc)
  else if has_prefix 115 s then rc ← on_signal (drop 2 s) msg; mret (true, rc)
  else if has_prefix 103 s then rc ← on_global (drop 2 s) msg; mret (true, rc)
  else if bool_decide (s = JSDRV_MSG_FINALIZE) then modify with_exit ;; mret (false, 0)
  else mret (true, ec_code PARAMETER_INVALID).

Definition handle_msg (msg : msg_s) : M bool :=
  '(rv, rc) ←
    (if (0 <? m_u32_a msg) && (m_u32_a msg <? JSDRV_BUFSIG_COUNT_MAX) then on_data (m_u32_a msg) msg ;; mret (true, -1)
     else if negb (m_u32_a msg =? 0) then mret (true, ec_code NOT_FOUND)
     else on_command msg);
  buffer_recv_complete (m_topic msg) rc ;;
  mret rv.

Definition handle_cmd_q : M bool :=
  s ← get;
  match bf_cmd_q s with
  | Some (msg :: q) => modify (fun s => with_q s (Some q)) ;; handle_msg msg
  | Some [] => mret false
  | None => lift (Fault OutOfBounds)
  end.

(** ** The thread *)

(** [while (handle_cmd_q(self))]: each round takes a message off the queue. *)
Fixpoint handle_all (fuel : nat) : M unit :=
  r ← handle_cmd_q;
  if r : bool then match fuel with O => lift (Fault OutOfFuel) | S fuel => handle_all fuel end else mret tt.

(** The inner [do]: each round after the first takes a request. *)
Fixpoint tick_loop (fuel : nat) : M unit :=
  s ← get;
  handle_all (length (default [] (bf_cmd_q s))) ;;
  _ ← req_handle_one;
  s ← get;
  if negb (bf_do_exit s) && negb (bool_decide (bf_pending s = [])) then
    match fuel with O => lift (Fault OutOfFuel) | S fuel => tick_loop fuel end
  else mret tt.

(** What a thread does once it wakes up; no message adds more than one request. *)
Definition buffer_tick : M unit :=
  s ← get; tick_loop (length (default [] (bf_cmd_q s)) + length (bf_pending s)).

(** The end of a thread. *)
Definition exit_signal (idx : Z) : M unit :=
  b ← signal idx;
  match b_topic b with
  | [] => mret tt
  | _ =>
      bufsig_unsub idx ;;
      b ← signal idx;
      set_signal idx (jsdrv_bufsig_free (jsdrv_bufsig_clear b))
  end.

Definition buffer_thread_exit : M unit := for_signals 255 0 exit_signal ;; req_list_free.

(** ** The manager *)

Record buffer_mgr_s := mk_mgr {
  mg_context : bool;                 (* the context is not null *)
  mg_buffers : list (buffer_s T);
}.
Abbreviation G := (eff (out T) buffer_mgr_s).

Definition mgr_emit (o : out T) : G unit := fun s => Ok (tt, s, [o]).

(** The buffer [i] of the array, and an operation on it. *)
Definition buffer_at (i : Z) : G (buffer_s T) := s ← get; lift (ld (mg_buffers s) i).
Definition set_buffer (i : Z) (b : buffer_s T) : G unit :=
  s ← get; l ← lift (st (mg_buffers s) i b); modify (fun s => mk_mgr (mg_context s) l).
Definition on_buffer {A} (i : Z) (m : M A) : G A := fun s =>
  match ld (mg_buffers s) i with
  | Ok b =>
      match m b with
      | Ok (a, b, o) => match st (mg_buffers s) i b with Ok l => Ok (a, mk_mgr (mg_context s) l, o) | Fault f => Fault f end
      | Fault f => Fault f
      end
  | Fault f => Fault f
  end.

Definition is_buffer_idx_valid (buffer_idx : Z) : bool := (1 <=? buffer_idx) && (buffer_idx <=? JSDRV_BUFFER_COUNT_MAX).
Definition is_signal_idx_valid (signal_idx : Z) : bool := (1 <=? signal_idx) && (signal_idx <=? JSDRV_BUFSIG_COUNT_MAX).

Definition send_return_code_to_frontend (topic : cstr) (rc : Z) (fn : fn_e) : G Z :=
  mgr_emit (OReturn (topic_print (topic ++ [35])) rc fn) ;; mret rc.

Definition buffer_exists (l : list (buffer_s T)) (id : Z) : bool :=
  match l !! Z.to_nat (id - 1) with Some b => bool_decide (is_Some (bf_cmd_q b)) | None => false end.
Definition _send_buffer_list : G unit :=
  s ← get; mgr_emit (OList JSDRV_BUFFER_MGR_MSG_ACTION_LIST (List.filter (buffer_exists (mg_buffers s)) (seqZ 1 16) ++ [0])).

(** The digits behind m/, up to a slash or the end. *)
Fixpoint parse_idx (p : cstr) (buffer_idx : Z) : option Z :=
  match p with
  | [] => Some buffer_idx
  | c :: p =>
      if c =? 47 then Some buffer_idx
      else if (48 <=? c) && (c <=? 57) then parse_idx p (u32 (buffer_idx * 10 + (c - 48)))
      else None
  end.

Definition _buffer_recv (msg : msg_s) : G Z :=
  match jsdrv_cstr_starts_with (Some (m_topic msg)) (Some (str "m/")) with
  | None => mret 1
  | Some p =>
      match parse_idx p 0 with
      | None => mret 1
      | Some buffer_idx =>
          if negb (is_buffer_idx_valid buffer_idx) then mret 1
          else
            b ← buffer_at (buffer_idx - 1);
            if bool_decide (is_Some (jsdrv_cstr_ends_with (Some (m_topic msg)) (Some (str "!rsp")))) then mret 0
            else if bool_decide (jsdrv_cstr_starts_with (Some (m_topic msg)) (Some (bf_topic b)) = None) then mret 1
            else match bf_cmd_q b with
            | None => mret 0
            | Some q =>
                (* topic + 6 *)
                t ← lift (if len (m_topic msg) <? 6 then Fault OutOfBounds else Ok (drop 6 (m_topic msg)));
                set_buffer (buffer_idx - 1) (with_q b (Some (q ++ [mk_bmsg t 0 (m_value msg) (m_struct msg)]))) ;;
                mret 0
            end
      end
  end.

Definition _buffer_recv_data (user_data : Z) (msg : msg_s) : G Z :=
  let buffer_idx := Z.land user_data 0xffff in
  let signal_idx := Z.land (Z.shiftr user_data 16) 0xffff in
  if negb (is_buffer_idx_valid buffer_idx) then mret 1
  else if negb (is_signal_idx_valid signal_idx) then mret 1
  else
    b ← buffer_at (buffer_idx - 1);
    _ ← lift (ld (bf_signals b) signal_idx);
    x ← lift (match m_struct msg with DSignal x => Ok x | _ => Fault OutOfBounds end);
    if s_element_count x =? 0 then mret 0
    else match bf_cmd_q b with
    | None => mret 0
    | Some q =>
        (if negb (bf_hold b) then
           set_buffer (buffer_idx - 1) (with_q b (Some (q ++ [mk_bmsg (m_topic msg) signal_idx (m_value msg) (m_struct msg)])))
         else mret tt) ;;
        mret 0
    end.

(** A buffer after [memset] and its members were set. *)
Definition buffer_new (id : Z) : buffer_s T :=
  mk_buffer _ id false ST_IDLE (topic_print (str "m/" ++ fmt_u0 3 id)) 0 (Some []) [] [] false
    (replicate (Z.to_nat JSDRV_BUFSIG_COUNT_MAX) bufsig_zero).

(** [thread_rc] is what [jsdrv_thread_create] returns. *)
Definition _buffer_add (thread_rc : Z) (msg : msg_s) : G Z :=
  id ← lift (value_word (m_value msg));
  if negb (is_buffer_idx_valid id) then
    send_return_code_to_frontend JSDRV_BUFFER_MGR_MSG_ACTION_ADD (ec_code PARAMETER_INVALID) FN_buffer_add
  else
    b ← buffer_at (id - 1);
    if bool_decide (is_Some (bf_cmd_q b)) then
      send_return_code_to_frontend JSDRV_BUFFER_MGR_MSG_ACTION_ADD (ec_code ALREADY_EXISTS) FN_buffer_add
    else
      let b := buffer_new id in
      set_buffer (id - 1) b ;;
      mgr_emit (OSub (bf_topic b) FN_buffer_recv id) ;;
      if negb (thread_rc =? 0) then
        send_return_code_to_frontend JSDRV_BUFFER_MGR_MSG_ACTION_ADD (ec_code UNSPECIFIED) FN_buffer_add
      else
        _send_buffer_list ;;
        send_return_code_to_frontend JSDRV_BUFFER_MGR_MSG_ACTION_ADD 0 FN_buffer_add.

(** The thread takes the last message and ends within the time of the join. *)
Definition _buffer_remove_inner (id : Z) : G unit :=
  b ← buffer_at (id - 1);
  match bf_cmd_q b with
  | None => mret tt
  | Some q =>
      mgr_emit (OUnsub (bf_topic b) FN_buffer_recv id) ;;
      set_buffer (id - 1) (with_q b (Some (q ++ [mk_bmsg JSDRV_MSG_FINALIZE 0 (mk_union JSDRV_UNION_U8 0 0 0 0 (Word 0)) DNone]))) ;;
      on_buffer (id - 1) (buffer_tick ;; buffer_thread_exit ;; modify (fun b => with_q b None)) ;;
      _send_buffer_list
  end.

Definition _buffer_remove (msg : msg_s) : G Z :=
  id ← lift (value_word (m_value msg));
  if negb (is_buffer_idx_valid id) then
    send_return_code_to_frontend JSDRV_BUFFER_MGR_MSG_ACTION_REMOVE (ec_code NOT_FOUND) FN_buffer_remove
  else
    _buffer_remove_inner id ;;
    send_return_code_to_frontend JSDRV_BUFFER_MGR_MSG_ACTION_REMOVE 0 FN_buffer_remove.

(** A buffer of the cleared array. *)
Definition buffer_zero : buffer_s T := mk_buffer _ 0 false ST_IDLE [] 0 None [] [] false (replicate (Z.to_nat JSDRV_BUFSIG_COUNT_MAX) bufsig_zero).

Definition jsdrv_buffer_initialize : G Z :=
  s ← get;
  if mg_context s then mret (ec_code IN_USE)
  else
    modify (fun _ => mk_mgr true (replicate (Z.to_nat JSDRV_BUFFER_COUNT_MAX) buffer_zero)) ;;
    mgr_emit (OMeta (JSDRV_BUFFER_MGR_MSG_ACTION_ADD ++ [36])) ;;
    mgr_emit (OMeta (JSDRV_BUFFER_MGR_MSG_ACTION_REMOVE ++ [36])) ;;
    mgr_emit (OMeta (JSDRV_BUFFER_MGR_MSG_ACTION_LIST ++ [36])) ;;
    mgr_emit (OSub JSDRV_BUFFER_MGR_MSG_ACTION_ADD FN_buffer_add 0) ;;
    mgr_emit (OSub JSDRV_BUFFER_MGR_MSG_ACTION_REMOVE FN_buffer_remove 0) ;;
    _send_buffer_list ;;
    mret 0.

Fixpoint finalize_loop (n : nat) (id : Z) : G unit :=
  match n with
  | O => mret tt
  | S n =>
      b ← buffer_at (id - 1);
      (if bool_decide (is_Some (bf_cmd_q b)) then _buffer_remove_inner id else mret tt) ;;
      finalize_loop n (id + 1)
  end.

Definition jsdrv_buffer_finalize : G unit :=
  s ← get;
  if mg_context s then
    mgr_emit (OUnsub JSDRV_BUFFER_MGR_MSG_ACTION_ADD FN_buffer_add 0) ;;
    mgr_emit (OUnsub JSDRV_BUFFER_MGR_MSG_ACTION_REMOVE FN_buffer_remove 0) ;;
    finalize_loop 16 1 ;;
    modify (fun s => mk_mgr false (mg_buffers s))
  else mret tt.
End Buffer.
