(* ===== verification/BufferThread.v ===== *)
(** * The thread of a buffer stays in step with the rest of the library (src/buffer.c)

    What the others know of a buffer is what its thread has sent: the list of its signals, and the
    subscriptions to the data of the signals.  The invariant says that both agree with the state of
    the thread after every message, that samples are allocated exactly for the active signals of a
    buffer that is active, and that no two requests that wait are for the same answer. *)

From Stdlib Require Import Strings.String.
From stdpp Require Import gmap.
From S2P Require Import Prelude Float Cstr ErrorCode Time Tmap Statistics BufferSignal BufferRing Union Effect Buffer.

(** What the thread relies on of the time map: a cleared one is empty. *)
Class TmapClears (T : Type) `{TmapImpl T} := tm_clear_length : forall o t, tm_clear o = Some t -> tm_length (Some t) = 0.
#[global] Instance tmap_clears : TmapClears jsdrv_tmap_s.
Proof.
  intros [s|] t Hc; [|done]. injection Hc as <-. cbn. unfold tmap_size. cbn. by repeat case_if.
Qed.

(** ** What the operations on a signal keep *)

Section Kept.
Context {T : Type} `{TmapImpl T}.
Implicit Types b : bufsig_s T.

Definition kept b b' : Prop := active b' = active b /\ b_topic b' = b_topic b /\ (level0_data b' = None <-> level0_data b = None).

Lemma kept_refl b : kept b b.
Proof. done. Qed.

Lemma kept_trans b1 b2 b3 : kept b1 b2 -> kept b2 b3 -> kept b1 b3.
Proof. intros (A1 & A2 & A3) (B1 & B2 & B3). split; [congruence|]. split; [congruence|]. tauto. Qed.

Lemma entry_write_kept b p e b' : entry_write b p e = Ok b' -> kept b b'.
Proof.
  intros E. destruct p as [[i idx]|]; [|done]. cbn [entry_write] in E. apply res_bind_Ok in E as (lvl & _ & E). destruct (l_data lvl); [|done].
  apply res_bind_Ok in E as (d & _ & E). apply res_bind_Ok in E as (l' & _ & [= <-]). done.
Qed.

Lemma summarizeN_loop_kept level dn up fuel : forall b ui di len' b', summarizeN_loop fuel b level dn up ui di len' = Ok b' -> kept b b'.
Proof.
  induction fuel as [|fuel IH]; intros b ui di len' b' E; cbn [summarizeN_loop] in E; case_if_in E; try done; try (by injection E as <-).
  repeat (apply res_bind_Ok in E as (? & ? & E)). eapply kept_trans; [by eapply entry_write_kept | eapply IH, E].
Qed.

Lemma summarizeN_kept fuel : forall b level s len' b', summarizeN fuel b level s len' = Ok b' -> kept b b'.
Proof.
  induction fuel as [|fuel IH]; intros b level s len' b' E; cbn [summarizeN] in E; [done|].
  apply res_bind_Ok in E as (dn & _ & E). apply res_bind_Ok in E as (up & _ & E). destruct (l_data up); [|by injection E as <-].
  repeat (apply res_bind_Ok in E as (? & ? & E)). eapply kept_trans; [by eapply summarizeN_loop_kept | eapply IH, E].
Qed.

Lemma summarize_loop_kept lvl1 fuel : forall b i1 i0 len' b', summarize_loop fuel b lvl1 i1 i0 len' = Ok b' -> kept b b'.
Proof.
  induction fuel as [|fuel IH]; intros b i1 i0 len' b' E; cbn [summarize_loop] in E; case_if_in E; try done; try (by injection E as <-).
  apply res_bind_Ok in E as (y & _ & E). apply res_bind_Ok in E as ([n e] & _ & E). cbn in E.
  repeat (apply res_bind_Ok in E as (? & ? & E)). eapply kept_trans; [by eapply entry_write_kept | eapply IH, E].
Qed.

Lemma summarize_kept b s len' b' : summarize b s len' = Ok b' -> kept b b'.
Proof.
  intros E. unfold summarize in E. apply res_bind_Ok in E as (lvl & _ & E). destruct (l_data lvl); [|by injection E as <-].
  do 2 apply res_bind_Ok in E as (? & ? & E). eapply kept_trans; [by eapply summarize_loop_kept | eapply summarizeN_kept, E].
Qed.

Lemma level0_some b d : level0 b = Ok d -> level0_data b <> None.
Proof. unfold level0. by destruct (level0_data b). Qed.

Lemma recv_loop_kept src fuel : forall b off bit len' b', recv_loop fuel b src off bit len' = Ok b' -> kept b b'.
Proof.
  induction fuel as [|fuel IH]; intros b off bit len' b' E; cbn [recv_loop] in E; case_if_in E; try done; try (by injection E as <-).
  cbv zeta in E. destruct (if bN b <? _ then _ else _) as [k hn]. apply res_bind_Ok in E as (d & Hd & E).
  apply res_bind_Ok in E as ([[d' off'] bit'] & _ & E). apply res_bind_Ok in E as (b1 & Es & E).
  apply summarize_kept in Es. apply IH in E. eapply kept_trans; [|exact E]. eapply kept_trans; [|exact Es].
  split; [done|]. split; [done|]. cbn. apply level0_some in Hd. split; [done | intros; done].
Qed.

Lemma recv_store_kept b s id b' : recv_store b s id = Ok b' -> kept b b'.
Proof.
  intros E. unfold recv_store in E. repeat (apply res_bind_Ok in E as (? & ? & E)). injection E as <-.
  match goal with H : recv_loop _ _ _ _ _ _ = Ok _ |- _ => apply recv_loop_kept in H; exact H end.
Qed.

Lemma recv_gap_kept b ty k b' : recv_gap b ty k = Ok b' -> kept b b'.
Proof.
  intros E. unfold recv_gap in E. apply res_bind_Ok in E as (d & Hd & E). do 2 apply res_bind_Ok in E as (? & ? & E).
  apply summarize_kept in E. eapply kept_trans; [|exact E]. apply level0_some in Hd. split; [done|]. split; [done|]. by cbn.
Qed.

Lemma recv_data_kept b s b' : jsdrv_bufsig_recv_data b s = Ok b' -> kept b b'.
Proof.
  intros E. unfold jsdrv_bufsig_recv_data in E. cbn zeta in E. destruct (level0_data (with_hdr b _)) eqn:Ed; [|injection E as <-; done].
  apply res_bind_Ok in E as (id & _ & E).
  assert (forall i, kept b (clear (with_hdr b (recv_header s)) i)) as Hc by done.
  repeat case_if_in E;
    first [ apply recv_store_kept in E; exact E
          | injection E as <-; done
          | idtac ].
  apply res_bind_Ok in E as (b1 & Eg & E). apply recv_gap_kept in Eg. apply recv_store_kept in E.
  eapply kept_trans; [exact Eg | exact E].
Qed.
End Kept.

(** ** What the others know *)

Section Known.
Context {T : Type}.
Implicit Types (s : buffer_s T) (h o : list (out T)).

(** The subscriptions to data: one is made where there is none, and withdrawn where it is. *)
Definition sub_step (m : gmap Z cstr) (x : out T) : option (gmap Z cstr) :=
  match x with
  | OSub t FN_buffer_recv_data u => match m !! u with None => Some (<[u := t]> m) | Some _ => None end
  | OUnsub t FN_buffer_recv_data u => if bool_decide (m !! u = Some t) then Some (delete u m) else None
  | _ => Some m
  end.
Fixpoint subs_after (m : gmap Z cstr) h : option (gmap Z cstr) :=
  match h with
  | [] => Some m
  | x :: h => m ← sub_step m x; subs_after m h
  end.

(** The last list that was published. *)
Definition list_step (l : list Z) (x : out T) : list Z := match x with OList _ ids => ids | _ => l end.
Definition last_list (l : list Z) h : list Z := foldl list_step l h.

(** The subscription that the thread holds with the argument [u]. *)
Definition sub_topic s (u : Z) : option cstr :=
  if (0 <=? u) && (u mod 65536 =? bf_idx s) then
    match bf_signals s !! Z.to_nat (u / 65536) with
    | Some b => match b_topic b with [] => None | t => Some t end
    | None => None
    end
  else None.

Definition req_key (r : req_s) : Z * Z * cstr := (rq_signal_id r, req_rsp_id (rq_req r), rq_topic r).

Record base s h : Prop := mk_base {
  ba_len : length (bf_signals s) = 255%nat;
  ba_idx : 1 <= bf_idx s <= 16;
  ba_subs : exists m, subs_after ∅ h = Some m /\ forall u, m !! u = sub_topic s u;
  ba_zero : forall b, bf_signals s !! 0%nat = Some b -> active b = false;
  ba_keys : NoDup (req_key <$> bf_pending s);
  ba_ids : Forall (fun r => 1 <= rq_signal_id r < 255) (bf_pending s);
  ba_size : bf_state s = ST_IDLE <-> bf_size s = 0;
}.

Definition listed s h : Prop := last_list [0] h = active_ids s ++ [0].
Definition unallocated s : Prop := Forall (fun b => level0_data b = None) (bf_signals s).
Definition allocated s : Prop := Forall (fun b => active b = true -> level0_data b <> None) (bf_signals s).

(** The invariant of the thread; [h] is all that it has sent. *)
Definition in_sync s h : Prop :=
  base s h /\ listed s h /\ (if bool_decide (bf_state s = ST_ACTIVE) then allocated s else unallocated s).

Lemma subs_after_app m h o : subs_after m (h ++ o) = (m ← subs_after m h; subs_after m o).
Proof.
  revert m; induction h as [|x h IH]; intros m; [done|]. cbn [Datatypes.app subs_after]. destruct (sub_step m x); [apply IH | done].
Qed.

Lemma last_list_app l h o : last_list l (h ++ o) = last_list (last_list l h) o.
Proof. apply foldl_app. Qed.

Lemma bufsig_user_eq idx s : 0 <= idx < 255 -> 1 <= bf_idx s <= 16 -> bufsig_user idx s = idx * 65536 + bf_idx s.
Proof.
  intros Hi Hb. unfold bufsig_user. change 65535 with (Z.ones 16). rewrite !Z.land_ones, !Z.mod_small by lia.
  rewrite Z.shiftl_mul_pow2 by lia. change 65536 with (2 ^ 16). apply lor_add_disjoint; lia.
Qed.
End Known.

(** ** Subscriptions and signals *)

Section Ops.
Context {T : Type} `{TmapImpl T} `{!TmapClears T}.
Implicit Types (s : buffer_s T) (h o : list (out T)) (b : bufsig_s T).
Abbreviation M := (eff (out T) (buffer_s T)).

Definition put_signal s (idx : Z) b : buffer_s T := with_signals s (<[Z.to_nat idx := b]> (bf_signals s)).
Definition topic_opt b : option cstr := match b_topic b with [] => None | t => Some t end.

Lemma sub_topic_put s idx b u : length (bf_signals s) = 255%nat -> 0 <= idx < 255 -> 1 <= bf_idx s <= 16 ->
  sub_topic (put_signal s idx b) u = if decide (u = bufsig_user idx s) then topic_opt b else sub_topic s u.
Proof.
  intros Hl Hi Hb. rewrite bufsig_user_eq by done. unfold sub_topic. cbn [put_signal with_signals bf_idx bf_signals].
  destruct (decide _) as [->|Hne].
  - assert ((idx * 65536 + bf_idx s) mod 65536 = bf_idx s) as -> by (rewrite Z.add_comm, Z_mod_plus_full, Z.mod_small by lia; done).
    assert ((idx * 65536 + bf_idx s) / 65536 = idx) as -> by (rewrite Z.div_add_l, Z.div_small by lia; lia). simpl_cmp. cbn [andb].
    by rewrite list_lookup_insert_eq by lia.
  - case_if; [|done]. rewrite list_lookup_insert_ne; [done|]. intros E1.
    pose proof (Z.div_mod u 65536 ltac:(lia)). assert (0 <= u / 65536) by (apply Z.div_pos; lia). lia.
Qed.

Lemma sub_topic_get s idx b : bf_signals s !! Z.to_nat idx = Some b -> 0 <= idx < 255 -> 1 <= bf_idx s <= 16 ->
  sub_topic s (bufsig_user idx s) = topic_opt b.
Proof.
  intros Hs Hi Hb. rewrite bufsig_user_eq by done. unfold sub_topic.
  assert ((idx * 65536 + bf_idx s) mod 65536 = bf_idx s) as -> by (rewrite Z.add_comm, Z_mod_plus_full, Z.mod_small by lia; done).
  assert ((idx * 65536 + bf_idx s) / 65536 = idx) as -> by (rewrite Z.div_add_l, Z.div_small by lia; lia). simpl_cmp. cbn [andb].
  by rewrite Hs.
Qed.

(** A change of the signal that keeps its subscription. *)
Lemma base_put s h idx b b' : base s h -> bf_signals s !! Z.to_nat idx = Some b -> 0 <= idx < 255 ->
  b_topic b' = b_topic b -> (idx = 0 -> active b' = false) -> base (put_signal s idx b') h.
Proof.
  intros [B1 B2 (m & B3 & B3') B4 B5 B6 B7] Hs Hi Ht Hz. split; try done.
  - cbn. by rewrite length_insert.
  - exists m. split; [done|]. intros u. rewrite B3', sub_topic_put by done. destruct (decide _) as [->|]; [|done].
    rewrite (sub_topic_get s idx b) by done. unfold topic_opt. by rewrite Ht.
  - intros b0 Hb0. cbn in Hb0. destruct (Z.eq_dec idx 0) as [E|Hne].
    + rewrite E, list_lookup_insert_eq in Hb0 by (rewrite B1; lia). injection Hb0 as <-. auto.
    + rewrite list_lookup_insert_ne in Hb0 by lia. auto.
Qed.

Lemma wlp_signal idx s (Q : bufsig_s T -> buffer_s T -> list (out T) -> Prop) :
  (forall b, bf_signals s !! Z.to_nat idx = Some b -> 0 <= idx -> Q b s []) -> wlp (signal idx) s Q.
Proof.
  intros HQ. apply wlp_bind, wlp_get, wlp_lift. intros b Hb. unfold ld in Hb. case_if_in Hb; [|done].
  destruct (bf_signals s !! Z.to_nat idx) eqn:E'; [|done]. injection Hb as ->. by apply HQ.
Qed.

Lemma wlp_set_signal idx b s (Q : unit -> buffer_s T -> list (out T) -> Prop) : Q tt (put_signal s idx b) [] -> wlp (set_signal idx b) s Q.
Proof.
  intros HQ. apply wlp_bind, wlp_get, wlp_bind, wlp_lift. intros l Hl. apply wlp_modify.
  unfold st in Hl. case_if_in Hl; [|done]. injection Hl as <-. exact HQ.
Qed.

Lemma wlp_emit x s (Q : unit -> buffer_s T -> list (out T) -> Prop) : Q tt s [x] -> wlp (emit x) s Q.
Proof. intros HQ a s' o Hm. injection Hm as <- <- <-. done. Qed.

Lemma put_get s idx b : bf_signals s !! Z.to_nat idx = Some b -> put_signal s idx b = s.
Proof. intros Hs. unfold put_signal. rewrite list_insert_id by done. by destruct s. Qed.

Lemma put_put s idx b b' : put_signal (put_signal s idx b) idx b' = put_signal s idx b'.
Proof. unfold put_signal. cbn. by rewrite list_insert_insert_eq. Qed.

(** A message that is not a list of signals, nor a subscription to data. *)
Definition quiet (x : out T) : Prop :=
  match x with OSub _ FN_buffer_recv_data _ | OUnsub _ FN_buffer_recv_data _ | OList _ _ => False | _ => True end.

Lemma subs_quiet m x : quiet x -> subs_after m [x] = Some m.
Proof. destruct x as [? []|? []| | | | |]; done. Qed.

Lemma base_quiet s h x : base s h -> quiet x -> base s (h ++ [x]).
Proof.
  intros [B1 B2 (m & B3 & B3') B4 B5 B6 B7] Hq. split; try done. exists m. split; [|done]. rewrite subs_after_app, B3. cbn [mbind option_bind].
  by apply subs_quiet.
Qed.

Lemma last_quiet l h x : quiet x -> last_list l (h ++ [x]) = last_list l h.
Proof. intros Hq. rewrite last_list_app. by destruct x. Qed.

(** No list of signals is among the messages. *)
Definition no_list (o : list (out T)) : Prop := forall l, last_list l o = l.

Lemma unsub_wlp idx s h : base s h -> 0 <= idx < 255 ->
  wlp (bufsig_unsub idx) s (fun _ s' o => base s' (h ++ o) /\ no_list o /\
    exists b, bf_signals s !! Z.to_nat idx = Some b /\ s' = put_signal s idx (with_topic b [])).
Proof.
  intros HB Hi. pose proof HB as [B1 B2 (m & B3 & B3') B4 B5 B6 B7]. apply wlp_bind, wlp_signal. intros b Hb _.
  destruct (b_topic b) as [|c t] eqn:Et.
  - apply wlp_ret. rewrite app_nil_r. split; [done|]. split; [done|]. exists b. split; [done|].
    rewrite put_get; [done|]. rewrite Hb. f_equal. rewrite <- Et. by destruct b.
  - apply wlp_bind, wlp_get, wlp_bind, wlp_emit, wlp_set_signal. cbn [Datatypes.app]. split; [|split; [done | by exists b]].
    split; try done.
    + cbn. by rewrite length_insert.
    + exists (delete (bufsig_user idx s) m). rewrite subs_after_app, B3. cbn [mbind option_bind subs_after sub_step].
      rewrite B3', (sub_topic_get s idx b) by done. unfold topic_opt. rewrite Et, bool_decide_eq_true_2 by done. split; [done|].
      intros u. rewrite sub_topic_put by done. destruct (decide _) as [->|Hne]; [by rewrite lookup_delete_eq|].
      by rewrite lookup_delete_ne.
    + intros b0 Hb0. cbn in Hb0. destruct (Z.eq_dec idx 0) as [E|Hne].
      * rewrite E, list_lookup_insert_eq in Hb0 by (rewrite B1; lia). injection Hb0 as <-. cbn. apply B4. by rewrite <- Hb, E.
      * rewrite list_lookup_insert_ne in Hb0 by lia. auto.
Qed.

Lemma sub_wlp idx topic s h : base s h -> 0 <= idx < 255 -> topic <> [] ->
  wlp (bufsig_sub idx topic) s (fun _ s' o => base s' (h ++ o) /\ no_list o /\
    exists b, bf_signals s !! Z.to_nat idx = Some b /\ s' = put_signal s idx (with_topic b (topic_print topic))).
Proof.
  intros HB Hi Ht. apply wlp_bind. eapply wlp_mono; [by apply unsub_wlp|]. intros _ s1 o1 (HB1 & Hl & b & Hb & ->).
  pose proof HB1 as [B1 B2 (m & B3 & B3') B4 B5 B6 B7].
  assert (bf_signals (put_signal s idx (with_topic b [])) !! Z.to_nat idx = Some (with_topic b [])) as Hg.
  { cbn. apply list_lookup_insert_eq. apply lookup_lt_Some in Hb. lia. }
  apply wlp_bind, wlp_signal. intros b1 Hb1 _. rewrite Hg in Hb1. injection Hb1 as <-. apply wlp_bind, wlp_set_signal, wlp_bind, wlp_get, wlp_emit.
  rewrite put_put. cbn [Datatypes.app]. change (with_topic (with_topic b []) (topic_print topic)) with (with_topic b (topic_print topic)).
  set (bt := with_topic b (topic_print topic)). assert (topic_opt bt = Some (b_topic bt)) as Hto by (by destruct topic).
  split; [|split; [|by exists b]].
  2: { intros l. rewrite last_list_app, Hl. done. }
  assert (put_signal s idx bt = put_signal (put_signal s idx (with_topic b [])) idx bt) as -> by (by rewrite put_put).
  set (s1 := put_signal s idx (with_topic b [])) in *. split; try done.
  - cbn. by rewrite length_insert.
  - exists (<[bufsig_user idx s1 := b_topic bt]> m). rewrite app_assoc, subs_after_app, B3. cbn [mbind option_bind subs_after sub_step].
    change (bufsig_user idx (put_signal s1 idx bt)) with (bufsig_user idx s1).
    rewrite B3', (sub_topic_get s1 idx _ Hg) by done. cbn [topic_opt b_topic with_topic]. split; [done|].
    intros u. rewrite sub_topic_put by done. destruct (decide _) as [->|Hne]; [by rewrite lookup_insert_eq, Hto|].
    by rewrite lookup_insert_ne.
  - intros b0 Hb0. cbn in Hb0. destruct (Z.eq_dec idx 0) as [E|Hne].
    + rewrite E in *. rewrite list_lookup_insert_eq in Hb0 by (rewrite length_insert; apply lookup_lt_Some in Hb; done). injection Hb0 as <-.
      cbn. apply (B4 (with_topic b [])). exact Hg.
    + rewrite list_lookup_insert_ne in Hb0 by lia. auto.
Qed.

(** ** Loops over the signals *)

Lemma wlp_for body (I : Z -> buffer_s T -> list (out T) -> Prop) n : forall idx s h, I idx s h ->
  (forall i s h, idx <= i < idx + Z.of_nat n -> I i s h -> wlp (body i) s (fun _ s' o => I (i + 1) s' (h ++ o))) ->
  wlp (for_signals n idx body) s (fun _ s' o => I (idx + Z.of_nat n) s' (h ++ o)).
Proof.
  induction n as [|n IH]; intros idx s h H0 Hstep; cbn [for_signals].
  - apply wlp_ret. rewrite app_nil_r. by rewrite Z.add_0_r.
  - apply wlp_bind. eapply wlp_mono; [apply (Hstep idx s h); [lia | done]|]. intros ? s1 o1 H1.
    eapply wlp_mono; [apply (IH (idx + 1) s1 (h ++ o1) H1); intros; apply Hstep; [lia | done]|]. intros ? s2 o2 H2.
    rewrite app_assoc. replace (idx + Z.of_nat (S n)) with (idx + 1 + Z.of_nat n) by lia. done.
Qed.

(** Nothing but the signals changes. *)
Definition only_signals s s' : Prop := s' = with_signals s (bf_signals s').

Lemma only_signals_put s s' idx b : only_signals s s' -> only_signals s (put_signal s' idx b).
Proof. unfold only_signals. intros ->. done. Qed.

Lemma active_ids_ext s s' : active <$> bf_signals s' = active <$> bf_signals s -> active_ids s' = active_ids s.
Proof.
  intros E. unfold active_ids. apply List.filter_ext. intros i. unfold is_active.
  assert ((active <$> bf_signals s') !! Z.to_nat i = (active <$> bf_signals s) !! Z.to_nat i) as El by (by rewrite E).
  rewrite !list_lookup_fmap in El. destruct (bf_signals s' !! Z.to_nat i), (bf_signals s !! Z.to_nat i); try done. by injection El.
Qed.

Lemma fmap_put {A} (f : bufsig_s T -> A) s idx b b' : bf_signals s !! Z.to_nat idx = Some b -> f b' = f b ->
  f <$> bf_signals (put_signal s idx b') = f <$> bf_signals s.
Proof.
  intros Hs Hf. cbn. rewrite list_fmap_insert, list_insert_id; [done|]. by rewrite list_lookup_fmap, Hs, Hf.
Qed.

Lemma info_wlp idx s h : base s h ->
  wlp (bufsig_publish_info idx) s (fun _ s' o => s' = s /\ base s (h ++ o) /\ no_list o).
Proof.
  intros HB. apply wlp_bind, wlp_signal. intros b Hb _. apply wlp_bind, wlp_lift. intros [ok i] _. destruct ok.
  - apply wlp_bind, wlp_get, wlp_emit. cbn [Datatypes.app]. split; [done|]. split; [by apply base_quiet | done].
  - apply wlp_ret. by rewrite app_nil_r.
Qed.

Lemma list_wlp s h : base s h -> wlp buf_publish_signal_list s (fun _ s' o => s' = s /\ base s (h ++ o) /\ listed s (h ++ o)).
Proof.
  intros HB. pose proof HB as [B1 B2 (m & B3 & B3') B4 B5 B6 B7]. apply wlp_bind, wlp_get, wlp_emit. cbn [Datatypes.app].
  split; [done|]. split; [|unfold listed; by rewrite last_list_app].
  split; try done. exists m. split; [|done]. rewrite subs_after_app, B3. done.
Qed.

Lemma free_signal_wlp idx s h : base s h -> 0 <= idx < 255 ->
  wlp (free_signal idx) s (fun _ s' o => base s' (h ++ o) /\ no_list o /\
    exists b, bf_signals s !! Z.to_nat idx = Some b /\ s' = put_signal s idx (jsdrv_bufsig_free (jsdrv_bufsig_clear b))).
Proof.
  intros HB Hi. apply wlp_bind, wlp_signal. intros b Hb _. apply wlp_bind, wlp_set_signal, wlp_bind.
  assert (Z.to_nat idx < length (bf_signals s))%nat as Hlt by (apply lookup_lt_Some in Hb; lia).
  assert (idx = 0 -> active b = false) as Hz by (intros E; apply (ba_zero s h HB); by rewrite <- Hb, E).
  assert (base (put_signal s idx (jsdrv_bufsig_clear b)) h) as HB1 by (by apply (base_put s h idx b)).
  eapply wlp_mono; [by apply info_wlp|]. intros ? s1 o1 (-> & HB2 & Hl). apply wlp_bind, wlp_signal. intros b1 Hb1 _. cbn in Hb1.
  rewrite list_lookup_insert_eq in Hb1 by lia. injection Hb1 as <-. apply wlp_set_signal. rewrite put_put. cbn [Datatypes.app]. rewrite app_nil_r.
  split; [|split; [done | by exists b]].
  assert (put_signal s idx (jsdrv_bufsig_free (jsdrv_bufsig_clear b)) =
          put_signal (put_signal s idx (jsdrv_bufsig_clear b)) idx (jsdrv_bufsig_free (jsdrv_bufsig_clear b))) as -> by (by rewrite put_put).
  apply (base_put _ _ idx (jsdrv_bufsig_clear b)); try done. cbn. by rewrite list_lookup_insert_eq by lia.
Qed.

Lemma free_wlp s h : base s h ->
  wlp buffer_free s (fun _ s' o => base s' (h ++ o) /\ no_list o /\ active <$> bf_signals s' = active <$> bf_signals s /\ unallocated s'
    /\ only_signals (if bool_decide (bf_state s = ST_ACTIVE) then with_state s ST_AWAIT else s) s').
Proof.
  intros HB. apply wlp_bind, wlp_modify. set (s0 := if bool_decide _ then _ else _).
  assert (bf_signals s0 = bf_signals s) as Hs0 by (unfold s0; by destruct (bool_decide _)).
  assert (base s0 h) as HB0.
  { unfold s0. destruct (bool_decide (bf_state s = ST_ACTIVE)) eqn:E; [|done]. apply bool_decide_eq_true in E.
    destruct HB as [B1 B2 (m & B3 & B3') B4 B5 B6 B7]. split; try done; [by exists m|]. cbn. rewrite <- B7, E. done. }
  cbn [Datatypes.app]. eapply wlp_mono.
  - apply (wlp_for free_signal (fun i s' h' => base s' h' /\ last_list [0] h' = last_list [0] h /\ (exists o, h' = h ++ o /\ no_list o)
      /\ active <$> bf_signals s' = active <$> bf_signals s0 /\ only_signals s0 s'
      /\ forall j b, (j < Z.to_nat i)%nat -> bf_signals s' !! j = Some b -> level0_data b = None) 255 0 s0 h).
    + split; [done|]. split; [done|]. split; [by exists []; rewrite app_nil_r|]. split; [done|]. split; [by destruct s0|]. intros j b Hj. lia.
    + intros i s1 h1 Hi (HB1 & Hl & (o1 & -> & Hn) & Ha & Ho & Hd). eapply wlp_mono; [apply free_signal_wlp; [done | lia]|].
      intros ? s2 o2 (HB2 & Hn2 & b & Hb & ->). split; [done|]. split; [by rewrite last_list_app, Hn2|].
      split; [exists (o1 ++ o2); split; [by rewrite app_assoc | intros l; by rewrite last_list_app, Hn, Hn2]|].
      split; [rewrite <- Ha; by apply (fmap_put active s1 i b)|]. split; [by apply only_signals_put|].
      intros j b' Hj Hb'. cbn in Hb'. destruct (decide (j = Z.to_nat i)) as [->|Hne].
      * rewrite list_lookup_insert_eq in Hb' by (by apply lookup_lt_Some in Hb). injection Hb' as <-. done.
      * rewrite list_lookup_insert_ne in Hb' by done. apply (Hd j); [lia | done].
  - intros ? s' o (HB1 & Hl & (o1 & Eo & Hn) & Ha & Ho & Hd). apply app_inv_head in Eo as <-. rewrite Hs0 in Ha.
    split; [done|]. split; [done|]. split; [done|]. split; [|done]. apply Forall_lookup. intros j b Hb. apply (Hd j); [|done].
    apply lookup_lt_Some in Hb. rewrite (ba_len _ _ HB1) in Hb. lia.
Qed.

(** ** Allocation *)

Lemma only_signals_trans s1 s2 s3 : only_signals s1 s2 -> only_signals s2 s3 -> only_signals s1 s3.
Proof. unfold only_signals. intros -> ->. done. Qed.

Lemma unallocated_put s idx b : unallocated s -> level0_data b = None -> unallocated (put_signal s idx b).
Proof. intros Hu Hb. by apply Forall_insert. Qed.

Lemma unallocated_at s idx b : unallocated s -> bf_signals s !! Z.to_nat idx = Some b -> level0_data b = None.
Proof. intros Hu Hb. by eapply Forall_lookup_1 in Hu. Qed.

(** A signal is switched off. *)
Lemma off_wlp idx s h : base s h -> 0 <= idx < 255 ->
  wlp (signal_off idx) s (fun _ s' o => base s' (h ++ o) /\ no_list o /\
    exists b, bf_signals s !! Z.to_nat idx = Some b /\ s' = put_signal s idx (with_active (with_topic b []) false)).
Proof.
  intros HB Hi. apply wlp_bind. eapply wlp_mono; [by apply unsub_wlp|]. intros ? s1 o1 (HB1 & Hn & b & Hb & ->).
  apply wlp_bind, wlp_signal. intros b1 Hb1 _. apply wlp_set_signal. cbn [Datatypes.app]. rewrite app_nil_r, put_put.
  pose proof Hb1 as Hb2. cbn in Hb1. rewrite list_lookup_insert_eq in Hb1 by (by apply lookup_lt_Some in Hb). injection Hb1 as <-.
  split; [|split; [done | by exists b]]. rewrite <- (put_put s idx (with_topic b [])). by apply (base_put _ _ idx (with_topic b [])).
Qed.

Lemma remove_wlp n : forall idx changed s h, base s h -> unallocated s -> 1 <= idx -> idx + Z.of_nat n <= 255 -> (changed = false -> listed s h) ->
  wlp (remove_unsupported n idx changed) s (fun c s' o =>
    base s' (h ++ o) /\ unallocated s' /\ only_signals s s' /\ (c = false -> listed s' (h ++ o))).
Proof.
  induction n as [|n IH]; intros idx changed s h HB Hu H1 Hn Hl; cbn [remove_unsupported].
  - apply wlp_ret. rewrite app_nil_r. split; [done|]. split; [done|]. split; [by destruct s | done].
  - apply wlp_bind, wlp_signal. intros b Hb _. case_if.
    + apply wlp_bind. eapply wlp_mono; [apply off_wlp; [done | lia]|]. intros ? s1 o1 (HB1 & Hn1 & b1 & Hb1 & ->).
      rewrite Hb in Hb1. injection Hb1 as <-. cbn [Datatypes.app].
      eapply wlp_mono; [apply (IH (idx + 1) true _ (h ++ o1)); [done | | lia | lia | done]|].
      { apply unallocated_put; [done|]. cbn. by eapply unallocated_at. }
      intros c s2 o2 (HB2 & Hu2 & Ho2 & Hl2). rewrite !app_assoc. split; [done|]. split; [done|]. split; [|done].
      eapply only_signals_trans; [|done]. by apply only_signals_put; destruct s.
    + eapply wlp_mono; [apply (IH (idx + 1) changed s h); [done | done | lia | lia | done]|]. done.
Qed.

Lemma alloc_fields fb fe b Np r0 rN b' rc : jsdrv_bufsig_alloc fb fe b Np r0 rN = Ok (b', rc) ->
  active b' = active b /\ b_topic b' = b_topic b /\ (rc = 0 -> level0_data b' <> None).
Proof.
  intros E. unfold jsdrv_bufsig_alloc in E. case_if_in E; [injection E as <- <-; done|].
  apply res_bind_Ok in E as (k & _ & E). apply res_bind_Ok in E as ([k' lc] & _ & E).
  repeat (apply res_bind_Ok in E as (? & _ & E)). injection E as <- <-. done.
Qed.

Section Alloc.
Context (fresh_byte : Z) (fresh_entry : jsdrv_summary_entry_s) (pow : f64 -> f64 -> f64) (log2 : f64 -> f64).

Lemma alloc_signal_wlp duration idx s h : base s h -> listed s h -> 1 <= idx < 255 ->
  wlp (alloc_signal fresh_byte fresh_entry log2 duration idx) s (fun _ s' o => base s' (h ++ o) /\ listed s' (h ++ o) /\
    exists b, s' = put_signal s idx b /\ (active b = true -> level0_data b <> None)).
Proof.
  intros HB Hl Hi. apply wlp_bind, wlp_signal. intros b Hb _. cbn [Datatypes.app]. destruct (active b) eqn:Ea.
  2: { apply wlp_ret. rewrite app_nil_r. split; [done|]. split; [done|]. exists b. rewrite put_get by done. split; [done | by rewrite Ea]. }
  apply wlp_bind, wlp_lift. intros [[Np r0'] rN'] _. apply wlp_bind, wlp_lift. intros [b1 rc] Hal.
  apply alloc_fields in Hal as (Ha & Ht & Hd). apply wlp_bind, wlp_set_signal. cbn [Datatypes.app].
  assert (base (put_signal s idx b1) h) as HB1 by (apply (base_put s h idx b); [done | done | lia | done | lia]).
  assert (listed (put_signal s idx b1) h) as Hl1.
  { unfold listed. rewrite Hl. f_equal. symmetry. apply active_ids_ext. by apply (fmap_put active s idx b). }
  case_if.
  - apply wlp_bind. eapply wlp_mono; [apply off_wlp; [done | lia]|]. intros ? s2 o2 (HB2 & Hn2 & b2 & Hb2 & ->).
    eapply wlp_mono; [by apply list_wlp|]. intros ? s3 o3 (-> & HB3 & Hl3). rewrite !app_assoc. split; [done|]. split; [done|].
    eexists. split; [apply put_put | done].
  - eapply wlp_mono; [by apply info_wlp|]. intros ? s3 o3 (-> & HB3 & Hn3). split; [done|].
    split; [unfold listed; rewrite last_list_app, Hn3; exact Hl1|]. exists b1. split; [done|]. intros _. apply Hd. lia.
Qed.

Lemma buffer_alloc_wlp s h : base s h -> listed s h -> unallocated s ->
  wlp (buffer_alloc fresh_byte fresh_entry pow log2) s (fun _ s' o => base s' (h ++ o) /\ listed s' (h ++ o) /\ allocated s' /\ only_signals s s').
Proof.
  intros HB Hl Hu. apply wlp_bind. eapply wlp_mono; [apply (remove_wlp 254 1 false s h); try done; lia|].
  intros c s1 o1 (HB1 & Hu1 & Ho1 & Hl1). apply wlp_bind.
  assert (wlp (if c : bool then buf_publish_signal_list else mret tt) s1 (fun _ s' o => s' = s1 /\ base s1 ((h ++ o1) ++ o) /\ listed s1 ((h ++ o1) ++ o))) as Hp.
  { destruct c; [by apply list_wlp|]. apply wlp_ret. rewrite app_nil_r. auto. }
  eapply wlp_mono; [exact Hp|]. intros ? s2 o2 (-> & HB2 & Hl2). apply wlp_bind, wlp_get, wlp_bind, wlp_lift. intros sz _.
  cbn [Datatypes.app]. unfold each_signal. eapply wlp_mono.
  - apply (wlp_for (alloc_signal fresh_byte fresh_entry log2 (f64_div (f64_of_Z (bf_size s1)) sz)) (fun i s' h' =>
      base s' h' /\ listed s' h' /\ only_signals s1 s' /\
      forall j b, (j < Z.to_nat i)%nat -> bf_signals s' !! j = Some b -> active b = true -> level0_data b <> None) 254 1 s1 ((h ++ o1) ++ o2)).
    + split; [done|]. split; [done|]. split; [by destruct s1|]. intros j b Hj Hb. assert (j = 0%nat) as -> by lia.
      by rewrite (ba_zero _ _ HB1 b Hb).
    + intros i s3 h3 Hi (HB3 & Hl3 & Ho3 & Hd3). eapply wlp_mono; [apply alloc_signal_wlp; [done | done | lia]|].
      intros ? s4 o4 (HB4 & Hl4 & b4 & -> & Hd4). split; [done|]. split; [done|]. split; [by apply only_signals_put|].
      intros j b Hj Hb. cbn in Hb. destruct (decide (j = Z.to_nat i)) as [->|Hne].
      * destruct (decide (Z.to_nat i < length (bf_signals s3))%nat) as [Hlt|Hge].
        -- rewrite list_lookup_insert_eq in Hb by done. by injection Hb as <-.
        -- rewrite list_insert_ge in Hb by lia. apply lookup_lt_Some in Hb. lia.
      * rewrite list_lookup_insert_ne in Hb by done. apply (Hd3 j); [lia | done].
  - intros ? s' o (HB3 & Hl3 & Ho3 & Hd3). rewrite !app_assoc. split; [done|]. split; [done|]. split; [|by eapply only_signals_trans].
    apply Forall_lookup. intros j b Hb. apply (Hd3 j b); [|done]. apply lookup_lt_Some in Hb. rewrite (ba_len _ _ HB3) in Hb. lia.
Qed.
End Alloc.

(** ** Requests *)

Lemma req_update_some sid topic r l : forall l', req_update sid topic r l = Some l' -> req_key <$> l' = req_key <$> l.
Proof.
  induction l as [|x l IH]; intros l' E; [done|]. cbn [req_update] in E. destruct (same_request sid topic r x) eqn:Es.
  - injection E as <-. unfold same_request in Es. apply andb_true_iff in Es as [Es1%andb_true_iff Es2%bool_decide_eq_true].
    destruct Es1 as [_ Es1]. cbn [fmap list_fmap]. f_equal. unfold req_key. cbn [rq_signal_id rq_req rq_topic].
    assert (req_rsp_id (rq_req x) = req_rsp_id r) as -> by lia. by rewrite Es2.
  - destruct (req_update sid topic r l) as [l1|]; [|done]. injection E as <-. cbn [fmap list_fmap]. f_equal. by apply IH.
Qed.

Lemma req_update_none sid topic r l : req_update sid topic r l = None -> (sid, req_rsp_id r, topic) ∉ req_key <$> l.
Proof.
  induction l as [|x l IH]; intros E; [apply not_elem_of_nil|]. cbn [req_update] in E. destruct (same_request sid topic r x) eqn:Es; [done|].
  destruct (req_update sid topic r l) eqn:El; [done|]. cbn [fmap list_fmap]. apply not_elem_of_cons. split; [|by apply IH].
  intros [= -> Er ->]. unfold same_request in Es. rewrite Er, !Z.eqb_refl, bool_decide_eq_true_2 in Es by done. done.
Qed.

Lemma keys_ids (l l' : list req_s) : req_key <$> l' = req_key <$> l ->
  Forall (fun r => 1 <= rq_signal_id r < 255) l -> Forall (fun r => 1 <= rq_signal_id r < 255) l'.
Proof.
  intros E Hl. assert (Forall (fun k : Z * Z * cstr => 1 <= k.1.1 < 255) (req_key <$> l')) as Hf.
  { rewrite E. apply Forall_fmap. eapply Forall_impl; [exact Hl|]. done. }
  by apply Forall_fmap in Hf.
Qed.

Lemma post_wlp idx topic r s h : in_sync s h -> 1 <= idx < 255 -> wlp (req_post idx topic r) s (fun _ s' o => in_sync s' (h ++ o)).
Proof.
  intros ([B1 B2 B3 B4 B5 B6 B7] & Hl & Ha) Hi. apply wlp_modify. rewrite app_nil_r.
  destruct (req_update idx topic r (bf_pending s)) as [l|] eqn:E; (split; [|by split]); split; try done; cbn [bf_pending with_reqs].
  - by rewrite (req_update_some _ _ _ _ _ E).
  - by eapply keys_ids; [eapply req_update_some|].
  - rewrite fmap_app. apply NoDup_app. split; [done|]. split; [|apply NoDup_singleton].
    intros k Hk Hk'. apply list_elem_of_singleton in Hk'. cbn in Hk'. subst k. by apply req_update_none in E.
  - apply Forall_app. split; [done|]. by constructor; [|constructor].
Qed.

Lemma base_reqs s h p f : base s h -> NoDup (req_key <$> p) -> Forall (fun r => 1 <= rq_signal_id r < 255) p -> base (with_reqs s p f) h.
Proof. intros [B1 B2 B3 B4 B5 B6 B7] Hn Hf. by split. Qed.

Lemma handle_one_wlp fresh_rsp s h : in_sync s h -> wlp (req_handle_one fresh_rsp) s (fun _ s' o => in_sync s' (h ++ o)).
Proof.
  intros (HB & Hl & Ha). apply wlp_bind, wlp_get. cbn [Datatypes.app]. destruct (bf_pending s) as [|req pending] eqn:Ep; [apply wlp_ret; by rewrite app_nil_r|].
  pose proof (ba_keys _ _ HB) as Hk. pose proof (ba_ids _ _ HB) as Hids. rewrite Ep in Hk, Hids. cbn [fmap list_fmap] in Hk.
  apply NoDup_cons in Hk as [_ Hk]. apply Forall_cons in Hids as [_ Hids].
  apply wlp_bind, wlp_modify, wlp_bind, wlp_signal. intros b Hb _. cbn [Datatypes.app].
  assert (forall f, in_sync (with_reqs s pending f) h) as Hs by (intros f; split; [by apply base_reqs | by split]). case_if.
  - apply wlp_bind, wlp_modify, wlp_ret. rewrite app_nil_r. apply (Hs (bf_free s ++ [req])).
  - apply wlp_bind, wlp_lift. intros [[rc r] rsp] _. apply wlp_bind. case_if.
    + apply wlp_ret, wlp_bind, wlp_modify, wlp_ret. cbn [Datatypes.app]. rewrite app_nil_r. apply (Hs (bf_free s ++ [mk_reqs (rq_signal_id req) (rq_topic req) r])).
    + apply wlp_emit, wlp_bind, wlp_modify, wlp_ret. cbn [Datatypes.app].
      destruct (Hs (bf_free s ++ [mk_reqs (rq_signal_id req) (rq_topic req) r])) as (HB' & Hl' & Ha').
      split; [by apply base_quiet|]. split; [|done]. unfold listed. by rewrite last_quiet.
Qed.

(** ** Messages *)

Section Messages.
Context (fresh_byte : Z) (fresh_entry : jsdrv_summary_entry_s) (fresh_text : list Z) (pow : f64 -> f64 -> f64) (log2 : f64 -> f64).

Lemma base_state s h st : base s h -> (st = ST_IDLE <-> bf_size s = 0) -> base (with_state s st) h.
Proof. intros [B1 B2 B3 B4 B5 B6 B7] Hs. by split. Qed.

Lemma in_sync_idle s h : base s h -> listed s h -> unallocated s -> bf_state s <> ST_ACTIVE -> in_sync s h.
Proof. intros HB Hl Hu Hs. split; [done|]. split; [done|]. by rewrite bool_decide_eq_false_2. Qed.

Lemma in_sync_active s h : base s h -> listed s h -> allocated s -> bf_state s = ST_ACTIVE -> in_sync s h.
Proof. intros HB Hl Hu Hs. split; [done|]. split; [done|]. by rewrite bool_decide_eq_true_2. Qed.

(** A message of data: recorded until every active signal has one, then allocate; stored after that. *)
Lemma data_wlp idx msg s h : in_sync s h -> 1 <= idx < 255 ->
  wlp (on_data fresh_byte fresh_entry pow log2 idx msg) s (fun _ s' o => in_sync s' (h ++ o)).
Proof.
  intros Hsync Hi. pose proof Hsync as (HB & Hl & Ha). apply wlp_bind, wlp_get. cbn [Datatypes.app]. case_if; [apply wlp_ret; by rewrite app_nil_r|].
  assert (bf_state s <> ST_IDLE) as Hni by (by eapply bool_decide_eq_false).
  apply wlp_bind, wlp_signal. intros b Hb _. apply wlp_bind, wlp_lift. intros x _. apply wlp_bind, wlp_lift. intros b' Hr.
  apply recv_data_kept in Hr as (K1 & K2 & K3). apply wlp_bind, wlp_set_signal. cbn [Datatypes.app].
  assert (base (put_signal s idx b') h) as HB1 by (apply (base_put s h idx b); [done | done | lia | done | lia]).
  assert (listed (put_signal s idx b') h) as Hl1.
  { unfold listed. rewrite Hl. f_equal. symmetry. apply active_ids_ext. by apply (fmap_put active s idx b). }
  case_if.
  - assert (bf_state s = ST_AWAIT) as Hst by (by eapply bool_decide_eq_true). rewrite bool_decide_eq_false_2 in Ha by (by rewrite Hst).
    assert (unallocated (put_signal s idx b')) as Hu1 by (apply unallocated_put; [done|]; apply K3; by eapply unallocated_at).
    apply wlp_bind, wlp_get. cbn [Datatypes.app]. case_if.
    + apply wlp_bind. eapply wlp_mono; [by apply buffer_alloc_wlp|]. intros ? s2 o2 (HB2 & Hl2 & Ha2 & Ho2). apply wlp_modify.
      rewrite app_nil_r. apply in_sync_active; [|done | done | done]. apply base_state; [done|]. split; [done|]. intros Hz.
      apply (ba_size _ _ HB2) in Hz. rewrite Ho2 in Hz. cbn in Hz. by rewrite Hst in Hz.
    + apply wlp_ret. rewrite app_nil_r. apply in_sync_idle; [done | done | done|]. cbn. by rewrite Hst.
  - assert (bf_state s = ST_ACTIVE) as Hst by (assert (bf_state s <> ST_AWAIT) by (by eapply bool_decide_eq_false); by destruct (bf_state s)).
    rewrite bool_decide_eq_true_2 in Ha by done.
    assert (allocated (put_signal s idx b')) as Ha1.
    { apply Forall_insert; [done|]. intros Hact Hn. apply K3 in Hn. eapply Forall_lookup_1 in Ha; [|exact Hb]. apply Ha; [congruence | done]. }
    eapply wlp_mono; [by apply info_wlp|]. intros ? s2 o2 (-> & HB2 & Hn2). apply in_sync_active; [done | | done | done].
    unfold listed. by rewrite last_list_app, Hn2.
Qed.

Lemma freed_state s s' : only_signals (if bool_decide (bf_state s = ST_ACTIVE) then with_state s ST_AWAIT else s) s' -> bf_state s' <> ST_ACTIVE.
Proof. intros ->. cbn. destruct (bool_decide (bf_state s = ST_ACTIVE)) eqn:E; [done|]. by apply bool_decide_eq_false in E. Qed.

(** [buffer_free], and what is left. *)
Lemma free_in_sync s h : base s h -> listed s h ->
  wlp buffer_free s (fun _ s' o => in_sync s' (h ++ o) /\ bf_state s' <> ST_ACTIVE /\ active <$> bf_signals s' = active <$> bf_signals s
    /\ bf_hold s' = bf_hold s).
Proof.
  intros HB Hl. eapply wlp_mono; [by apply free_wlp|]. intros ? s1 o1 (HB1 & Hn1 & Ha1 & Hu1 & Ho1).
  assert (bf_state s1 <> ST_ACTIVE) as Hst by (by eapply freed_state).
  split; [|split; [done|]; split; [done|]; rewrite Ho1; by destruct (bool_decide _)].
  apply in_sync_idle; [done | | done | done]. unfold listed. rewrite last_list_app, Hn1, Hl. f_equal. symmetry. by apply active_ids_ext.
Qed.

Lemma action_wlp t msg s h : in_sync s h -> wlp (on_action t msg) s (fun _ s' o => in_sync s' (h ++ o)).
Proof.
  intros Hsync. pose proof Hsync as (HB & Hl & Ha). apply wlp_bind, wlp_lift. intros v _. cbv zeta. cbn [Datatypes.app].
  set (idx := u32 v). case_if; [apply wlp_ret; by rewrite app_nil_r|]. unfold JSDRV_BUFSIG_COUNT_MAX in *. case_if; [|case_if].
  - apply wlp_bind, wlp_signal. intros b Hb _. cbn [Datatypes.app]. destruct (active b); [apply wlp_ret; by rewrite app_nil_r|].
    apply wlp_bind. eapply wlp_mono; [by apply free_in_sync|]. intros ? s1 o1 ((HB1 & Hl1 & Ha1) & Hst & _ & _).
    rewrite bool_decide_eq_false_2 in Ha1 by done. apply wlp_bind, wlp_signal. intros b1 Hb1 _. apply wlp_bind, wlp_set_signal, wlp_bind.
    assert (base (put_signal s1 idx (with_active b1 true)) (h ++ o1)) as HB2 by (apply (base_put _ _ idx b1); [done | done | lia | done | lia]).
    eapply wlp_mono; [by apply list_wlp|]. intros ? s2 o2 (-> & HB3 & Hl3). apply wlp_ret. cbn [Datatypes.app]. rewrite app_nil_r, app_assoc.
    apply in_sync_idle; [done | done | | done]. apply unallocated_put; [done|]. cbn. by eapply unallocated_at.
  - apply wlp_bind. eapply wlp_mono; [apply off_wlp; [done | lia]|]. intros ? s1 o1 (HB1 & Hn1 & b1 & Hb1 & ->).
    apply wlp_bind. eapply wlp_mono; [by apply free_wlp|]. intros ? s2 o2 (HB2 & Hn2 & Ha2 & Hu2 & Ho2). apply wlp_bind.
    eapply wlp_mono; [by apply list_wlp|]. intros ? s3 o3 (-> & HB3 & Hl3). apply wlp_ret. rewrite app_nil_r, !app_assoc.
    apply in_sync_idle; [done | done | done | by eapply freed_state].
  - apply wlp_ret. by rewrite app_nil_r.
Qed.

Lemma until_slash_eq t : forall a r, until_slash t = Ok (a, r) -> t = a ++ 47 :: r.
Proof.
  induction t as [|c t IH]; intros a r E; [done|]. cbn [until_slash] in E. case_if_in E.
  - injection E as <- <-. match goal with H : c = 47 |- _ => by rewrite H end.
  - apply res_bind_Ok in E as ([a' r'] & E' & E). injection E as <- <-. cbn. by rewrite (IH a' r').
Qed.

(** The topic that a signal is given is not empty. *)
Definition msg_ok (msg : msg_s) : Prop := forall a m,
  m_topic msg = str "s/" ++ a ++ str "/topic" -> object (m_value msg) = Ok m -> cstr_at m <> Some [].

Lemma put_topic_sync s h s' o idx b t : in_sync s h -> bf_signals s !! Z.to_nat idx = Some b -> base s' (h ++ o) -> no_list o ->
  s' = put_signal s idx (with_topic b t) -> in_sync s' (h ++ o).
Proof.
  intros (HB & Hl & Ha) Hb HB' Hn ->. split; [done|]. split.
  - unfold listed. rewrite last_list_app, Hn, Hl. f_equal. symmetry. apply active_ids_ext. by apply (fmap_put active s idx b).
  - cbn [bf_state put_signal with_signals]. destruct (bool_decide (bf_state s = ST_ACTIVE)).
    + apply Forall_insert; [done|]. cbn. by eapply Forall_lookup_1 in Ha.
    + apply Forall_insert; [done|]. cbn. by eapply Forall_lookup_1 in Ha.
Qed.

Lemma signal_wlp t msg s h : in_sync s h -> msg_ok msg -> m_topic msg = 115 :: 47 :: t -> wlp (on_signal t msg) s (fun _ s' o => in_sync s' (h ++ o)).
Proof.
  intros Hsync Hm Ht. pose proof Hsync as (HB & Hl & Ha). apply wlp_bind, wlp_lift. intros [idx_str t'] Hu.
  destruct (jsdrv_cstr_to_u32 (Some idx_str) (Some 0)) as [rc o0]. cbv zeta. cbn [Datatypes.app]. set (idx := default 0 o0). unfold JSDRV_BUFSIG_COUNT_MAX.
  case_if; [apply wlp_ret; by rewrite app_nil_r|]. case_if; [apply wlp_ret; by rewrite app_nil_r|]. case_if; [|case_if; [|case_if]].
  - apply wlp_bind, wlp_lift. intros [topic r] _. apply wlp_bind. eapply wlp_mono; [apply post_wlp; [done | lia]|].
    intros ? s1 o1 Hs1. apply wlp_ret. by rewrite app_nil_r.
  - assert (t' = str "topic") as Et by (by eapply bool_decide_eq_true). apply wlp_bind, wlp_lift. intros m Hobj. apply wlp_bind, wlp_lift. intros tx Htx.
    destruct (cstr_at m) as [tx'|] eqn:Ec; [|done]. injection Htx as ->.
    assert (tx <> []) as Hne.
    { intros ->. apply (Hm idx_str m); [|done|done]. apply until_slash_eq in Hu. rewrite Ht, Hu, Et. done. }
    apply wlp_bind. eapply wlp_mono; [apply sub_wlp; [done | lia | done]|]. intros ? s1 o1 (HB1 & Hn1 & b & Hb & Hs1). apply wlp_ret.
    cbn [Datatypes.app]. rewrite app_nil_r. by eapply put_topic_sync.
  - apply wlp_ret. by rewrite app_nil_r.
  - apply wlp_ret. by rewrite app_nil_r.
Qed.

Lemma global_wlp t msg s h : in_sync s h -> wlp (on_global fresh_text t msg) s (fun _ s' o => in_sync s' (h ++ o)).
Proof.
  intros Hsync. pose proof Hsync as (HB & Hl & Ha). unfold on_global. case_if; [|case_if; [|case_if; [|case_if]]].
  - apply wlp_bind, wlp_lift. intros sz _. apply wlp_bind. eapply wlp_mono; [by apply free_in_sync|].
    intros ? s1 o1 ((HB1 & Hl1 & Ha1) & Hst & _ & _). rewrite bool_decide_eq_false_2 in Ha1 by done. apply wlp_bind, wlp_modify, wlp_ret.
    cbn [Datatypes.app]. rewrite app_nil_r. apply in_sync_idle; [| done | done |].
    + destruct HB1 as [B1 B2 B3 B4 B5 B6 B7]. split; try done. cbn [bf_state bf_size with_state with_size]. destruct (Z.eqb_spec 0 sz); split; intros; try done; lia.
    + cbn. by case_if.
  - apply wlp_ret. by rewrite app_nil_r.
  - apply wlp_bind, wlp_lift. intros [rc v] _. apply wlp_bind, wlp_get, wlp_bind, wlp_modify, wlp_bind. cbn [Datatypes.app].
    assert (in_sync (with_hold s v) h) as Hs1 by (destruct HB as [B1 B2 B3 B4 B5 B6 B7]; split; [by split | by split]). case_if.
    + eapply wlp_mono; [apply free_in_sync; apply Hs1|]. intros ? s1 o1 (Hs2 & _). apply wlp_ret. by rewrite app_nil_r.
    + apply wlp_ret, wlp_ret. by rewrite app_nil_r.
  - apply wlp_bind. eapply wlp_mono; [by apply free_in_sync|]. intros ? s1 o1 (Hs2 & _). apply wlp_ret. by rewrite app_nil_r.
  - apply wlp_ret. by rewrite app_nil_r.
Qed.

Lemma has_prefix_eq c t : has_prefix c t = true -> t = c :: 47 :: drop 2 t.
Proof. destruct t as [|a [|b t]]; try done. cbn. intros E. apply andb_true_iff in E as [?%Z.eqb_eq ?%Z.eqb_eq]. by subst. Qed.

Lemma wlp_sync_ret {A B} (m : M A) (f : A -> B) s h : wlp m s (fun _ s' o => in_sync s' (h ++ o)) ->
  wlp (x ← m; mret (f x)) s (fun _ s' o => in_sync s' (h ++ o)).
Proof. intros Hm. apply wlp_bind. eapply wlp_mono; [exact Hm|]. intros ? s1 o1 Hs. apply wlp_ret. by rewrite app_nil_r. Qed.

Lemma command_wlp msg s h : in_sync s h -> msg_ok msg -> wlp (on_command fresh_text msg) s (fun _ s' o => in_sync s' (h ++ o)).
Proof.
  intros Hs Hm. unfold on_command. cbv zeta. case_if; [|case_if; [|case_if; [|case_if]]].
  - by apply wlp_sync_ret, action_wlp.
  - apply wlp_sync_ret, signal_wlp; [done | done | by apply has_prefix_eq].
  - by apply wlp_sync_ret, global_wlp.
  - apply wlp_bind, wlp_modify, wlp_ret. rewrite app_nil_r. destruct Hs as ([B1 B2 B3 B4 B5 B6 B7] & Hl & Ha). by split; [split|].
  - apply wlp_ret. by rewrite app_nil_r.
Qed.

Lemma complete_wlp t rc s h : in_sync s h -> wlp (buffer_recv_complete t rc) s (fun _ s' o => in_sync s' (h ++ o)).
Proof.
  intros (HB & Hl & Ha). unfold buffer_recv_complete. case_if; [|apply wlp_ret; by rewrite app_nil_r].
  apply wlp_bind, wlp_get, wlp_emit. cbn [Datatypes.app]. split; [by apply base_quiet|]. split; [|done]. unfold listed. by rewrite last_quiet.
Qed.

Lemma handle_wlp msg s h : in_sync s h -> msg_ok msg ->
  wlp (handle_msg fresh_byte fresh_entry fresh_text pow log2 msg) s (fun _ s' o => in_sync s' (h ++ o)).
Proof.
  intros Hs Hm. apply wlp_bind. eapply wlp_mono with (P := fun (_ : bool * Z) s' o => in_sync s' (h ++ o)).
  - unfold JSDRV_BUFSIG_COUNT_MAX. case_if; [|case_if].
    + apply wlp_bind. eapply wlp_mono; [apply data_wlp; [done | lia]|]. intros ? s1 o1 Hs1. apply wlp_ret. by rewrite app_nil_r.
    + apply wlp_ret. by rewrite app_nil_r.
    + by apply command_wlp.
  - intros [rv rc] s1 o1 Hs1. apply wlp_bind. eapply wlp_mono; [by apply complete_wlp|]. intros ? s2 o2 Hs2. apply wlp_ret.
    by rewrite app_nil_r, app_assoc.
Qed.

(** ** A command never faults *)

Definition fits s : Prop := length (bf_signals s) = 255%nat.
Definition total {A} (m : M A) : Prop := forall s, fits s -> wp m s (fun _ s' _ => fits s').

Lemma total_ret {A} (a : A) : total (mret a).
Proof. intros s Hs. by apply wp_ret. Qed.
Lemma total_bind {A B} (m : M A) (k : A -> M B) : total m -> (forall a, total (k a)) -> total (m ≫= k).
Proof. intros Hm Hk s Hs. apply wp_bind. eapply wp_mono; [by apply Hm|]. intros a s1 o1 Hs1. by apply Hk. Qed.
Lemma total_get {B} (k : buffer_s T -> M B) : (forall s, total (k s)) -> total (get ≫= k).
Proof. intros Hk s Hs. apply wp_bind, wp_get. by apply Hk. Qed.
Lemma total_modify f : (forall s, bf_signals (f s) = bf_signals s) -> total (modify f).
Proof. intros Hf s Hs. apply wp_modify. unfold fits. by rewrite Hf. Qed.
Lemma total_lift {A} (m : res A) a : m = Ok a -> total (lift m).
Proof. intros E s Hs. by eapply wp_lift. Qed.
Lemma total_emit x : total (emit x).
Proof. intros s Hs. by exists tt, s, [x]. Qed.
Lemma total_signal idx : 0 <= idx < 255 -> total (signal idx).
Proof.
  intros Hi s Hs. apply wp_bind, wp_get. destruct (lookup_lt_is_Some_2 (bf_signals s) (Z.to_nat idx)) as [b Hb]; [rewrite Hs; lia|].
  eapply wp_lift; [|done]. unfold ld. simpl_cmp. by rewrite Hb.
Qed.
Lemma total_set idx b : 0 <= idx < 255 -> total (set_signal idx b).
Proof.
  intros Hi s Hs. apply wp_bind, wp_get, wp_bind. eapply wp_lift; [unfold st, len; rewrite Hs; simpl_cmp; done|].
  apply wp_modify. unfold fits. cbn. by rewrite length_insert.
Qed.
Lemma total_for body n : forall idx, 0 <= idx -> idx + Z.of_nat n <= 255 -> (forall i, 0 <= i < 255 -> total (body i)) -> total (for_signals n idx body).
Proof.
  induction n as [|n IH]; intros idx H0 Hn Hb; cbn [for_signals]; [apply total_ret|].
  apply total_bind; [apply Hb; lia|]. intros _. apply IH; [lia | lia | done].
Qed.

Create HintDb total.
Hint Resolve total_ret total_emit total_signal total_set : total.

(** The information on a signal that was cleared. *)
Lemma info_clear_ok b : exists r, jsdrv_bufsig_info (jsdrv_bufsig_clear b) = Ok r.
Proof.
  unfold jsdrv_bufsig_info. case_if; [by eexists|]. cbn [level0_size jsdrv_bufsig_clear clear with_tmap with_ring tmap]. cbv zeta. cbn [Z.eqb].
  rewrite bind_Ok. destruct (tm_clear (tmap b)) as [t|] eqn:Et.
  - rewrite (tm_clear_length _ _ Et). cbn [Z.eqb]. rewrite bind_Ok. by eexists.
  - rewrite bind_Ok. by eexists.
Qed.

Lemma total_free_signal idx : 0 <= idx < 255 -> total (free_signal idx).
Proof.
  intros Hi s Hs. apply wp_bind. apply wp_bind, wp_get. destruct (lookup_lt_is_Some_2 (bf_signals s) (Z.to_nat idx)) as [b Hb]; [rewrite Hs; lia|].
  eapply wp_lift; [unfold ld; simpl_cmp; by rewrite Hb|]. apply wp_bind, wp_bind, wp_get, wp_bind.
  eapply wp_lift; [unfold st, len; rewrite Hs; simpl_cmp; done|]. apply wp_modify.
  set (s1 := with_signals s _). assert (fits s1) as Hs1 by (unfold fits; cbn; by rewrite length_insert).
  assert (bf_signals s1 !! Z.to_nat idx = Some (jsdrv_bufsig_clear b)) as Hb1 by (apply list_lookup_insert_eq; rewrite Hs; lia).
  apply wp_bind. destruct (info_clear_ok b) as [[ok i] Ei].
  assert (wp (bufsig_publish_info idx) s1 (fun _ s' _ => fits s')) as Hp.
  { apply wp_bind, wp_bind, wp_get. eapply wp_lift; [unfold ld; simpl_cmp; by rewrite Hb1|]. apply wp_bind. eapply wp_lift; [exact Ei|].
    destruct ok; [|by apply wp_ret]. apply wp_bind, wp_get. by apply total_emit. }
  eapply wp_mono; [exact Hp|]. intros ? s2 o2 Hs2. cbn beta.
  apply (total_bind (signal idx) (fun b => set_signal idx (jsdrv_bufsig_free b))); auto with total.
Qed.

Lemma total_unsub idx : 0 <= idx < 255 -> total (bufsig_unsub idx).
Proof.
  intros Hi. apply total_bind; [auto with total|]. intros b. destruct (b_topic b); [auto with total|]. apply total_get. intros s.
  apply total_bind; auto with total.
Qed.

Lemma total_buffer_free : total buffer_free.
Proof.
  apply total_bind; [apply total_modify; intros s; by destruct (bool_decide _)|]. intros _. apply total_for; [lia | lia|].
  intros i Hi. by apply total_free_signal.
Qed.

Lemma total_list : total buf_publish_signal_list.
Proof. apply total_get. auto with total. Qed.

Lemma total_off idx : 0 <= idx < 255 -> total (signal_off idx).
Proof. intros Hi. apply total_bind; [by apply total_unsub|]. intros _. apply total_bind; auto with total. Qed.

Hint Resolve total_unsub total_buffer_free total_list total_off : total.

(** A command that carries what its topic promises. *)
Definition command_ok (msg : msg_s) : Prop :=
  (m_u32_a msg = 0 \/ 255 <= m_u32_a msg) /\
  let t := drop 2 (m_topic msg) in
  if has_prefix 97 (m_topic msg) then exists w, value_word (m_value msg) = Ok w
  else if has_prefix 115 (m_topic msg) then
    exists a r, until_slash t = Ok (a, r)
      /\ (r = str "!req" -> exists topic q, m_struct msg = DRequest topic q)
      /\ (r = str "topic" -> exists m c, object (m_value msg) = Ok m /\ cstr_at m = Some c)
  else if has_prefix 103 (m_topic msg) then
    (t = str "size" -> exists w, value_word (m_value msg) = Ok w)
    /\ (t = str "hold" -> exists r, jsdrv_union_to_bool fresh_text (m_value msg) false = Ok r)
  else True.

Lemma total_action t msg : (exists w, value_word (m_value msg) = Ok w) -> total (on_action t msg).
Proof.
  intros [w Hw]. apply total_bind; [by eapply total_lift|]. intros v. cbv zeta. unfold JSDRV_BUFSIG_COUNT_MAX.
  case_if; [auto with total|]. case_if; [|case_if; [|auto with total]].
  - apply total_bind; [apply total_signal; lia|]. intros b. destruct (active b); [auto with total|].
    apply total_bind; [auto with total|]. intros _. apply total_bind; [apply total_signal; lia|]. intros b1.
    apply total_bind; [apply total_set; lia|]. intros _. apply total_bind; auto with total.
  - apply total_bind; [apply total_off; lia|]. intros _. apply total_bind; [auto with total|]. intros _. apply total_bind; auto with total.
Qed.

Lemma total_sub idx topic : 0 <= idx < 255 -> total (bufsig_sub idx topic).
Proof.
  intros Hi. apply total_bind; [auto with total|]. intros _. apply total_bind; [auto with total|]. intros b.
  apply total_bind; [auto with total|]. intros _. apply total_get. auto with total.
Qed.

Lemma total_on_signal t msg a r : until_slash t = Ok (a, r) -> (r = str "!req" -> exists topic q, m_struct msg = DRequest topic q) ->
  (r = str "topic" -> exists m c, object (m_value msg) = Ok m /\ cstr_at m = Some c) -> total (on_signal t msg).
Proof.
  intros Hu Hr Ht. unfold on_signal. rewrite Hu. intros s Hs. apply wp_bind. eapply wp_lift; [done|]. cbn beta. revert s Hs.
  change (total (let '(rc, idx) := jsdrv_cstr_to_u32 (Some a) (Some 0) in let idx := default 0 idx in
    if negb (rc =? 0) then mret (ec_code PARAMETER_INVALID)
    else if (idx <=? 0) || (JSDRV_BUFSIG_COUNT_MAX <=? idx) then mret (ec_code NOT_FOUND)
    else if bool_decide (r = str "!req") then
      '(topic, r) ← lift (match m_struct msg with DRequest topic r => Ok (topic, r) | _ => Fault OutOfBounds end);
      req_post idx topic r ;; mret 0
    else if bool_decide (r = str "topic") then
      m ← lift (object (m_value msg));
      t ← lift (match cstr_at m with Some t => Ok t | None => Fault OutOfBounds end);
      bufsig_sub idx t ;; mret 0
    else if bool_decide (r = str "info") then mret (-1) else mret (ec_code PARAMETER_INVALID))).
  destruct (jsdrv_cstr_to_u32 (Some a) (Some 0)) as [rc o0]. cbv zeta. unfold JSDRV_BUFSIG_COUNT_MAX.
  case_if; [auto with total|]. case_if; [auto with total|]. destruct (bool_decide_reflect (r = str "!req")) as [E2|_].
  { destruct (Hr E2) as (topic & q & ->). apply total_bind; [by eapply total_lift|]. intros [t1 q1].
    apply total_bind; [|auto with total]. apply total_modify. intros s. by destruct (req_update _ _ _ _). }
  destruct (bool_decide_reflect (r = str "topic")) as [E3|_]; [|case_if; auto with total].
  destruct (Ht E3) as (m & c & Ho & Hc). intros s Hs. apply wp_bind. eapply wp_lift; [exact Ho|]. apply wp_bind.
  eapply wp_lift; [by rewrite Hc|]. revert s Hs. change (total (bufsig_sub (default 0 o0) c ;; mret 0)).
  apply total_bind; [apply total_sub; lia|]. auto with total.
Qed.

Lemma total_global t msg : (t = str "size" -> exists w, value_word (m_value msg) = Ok w) ->
  (t = str "hold" -> exists r, jsdrv_union_to_bool fresh_text (m_value msg) false = Ok r) -> total (on_global fresh_text t msg).
Proof.
  intros Hz Hh. unfold on_global. destruct (bool_decide_reflect (t = str "size")) as [E|_].
  { destruct (Hz E) as [w Hw]. apply total_bind; [by eapply total_lift|]. intros v. apply total_bind; [auto with total|]. intros _.
    apply total_bind; [by apply total_modify|]. auto with total. }
  case_if; [auto with total|]. destruct (bool_decide_reflect (t = str "hold")) as [E'|_].
  { destruct (Hh E') as [r Hr]. apply total_bind; [by eapply total_lift|]. intros [rc v]. apply total_get. intros s.
    apply total_bind; [by apply total_modify|]. intros _. apply total_bind; [case_if; auto with total|]. auto with total. }
  case_if; [|auto with total]. apply total_bind; auto with total.
Qed.

Lemma total_command msg : command_ok msg -> total (handle_msg fresh_byte fresh_entry fresh_text pow log2 msg).
Proof.
  intros [Ha Hc]. apply total_bind.
  - unfold JSDRV_BUFSIG_COUNT_MAX. case_if; [lia|]. case_if; [auto with total|]. unfold on_command. cbv zeta in Hc |- *.
    destruct (has_prefix 97 (m_topic msg)); [apply total_bind; [by apply total_action | auto with total]|].
    destruct (has_prefix 115 (m_topic msg)).
    { destruct Hc as (a & r & Hu & Hr & Ht). apply total_bind; [by eapply total_on_signal | auto with total]. }
    destruct (has_prefix 103 (m_topic msg)); [destruct Hc as [H1 H2]; apply total_bind; [by apply total_global | auto with total]|].
    case_if; [|auto with total]. apply total_bind; [by apply total_modify | auto with total].
  - intros [rv rc]. apply total_bind; [|auto with total]. unfold buffer_recv_complete. case_if; [|auto with total]. apply total_get. auto with total.
Qed.

(** ** Runs of the thread *)

Inductive thread_input := T_msg (msg : msg_s) | T_req.

Context (fresh_rsp : jsdrv_buffer_response_s T).

Definition thread_step (x : thread_input) : M unit :=
  match x with
  | T_msg msg => handle_msg fresh_byte fresh_entry fresh_text pow log2 msg ;; mret tt
  | T_req => req_handle_one fresh_rsp ;; mret tt
  end.
Fixpoint thread_run (xs : list thread_input) : M unit :=
  match xs with
  | [] => mret tt
  | x :: xs => thread_step x ;; thread_run xs
  end.

Definition input_ok (x : thread_input) : Prop := match x with T_msg msg => msg_ok msg | T_req => True end.

Lemma run_in_sync xs : forall s h, in_sync s h -> Forall input_ok xs -> wlp (thread_run xs) s (fun _ s' o => in_sync s' (h ++ o)).
Proof.
  induction xs as [|x xs IH]; intros s h Hs Hok; cbn [thread_run]; [apply wlp_ret; by rewrite app_nil_r|].
  apply Forall_cons in Hok as [Hx Hxs]. apply wlp_bind. eapply wlp_mono with (P := fun (_ : unit) s' o => in_sync s' (h ++ o)).
  - destruct x as [msg|]; apply (wlp_sync_ret _ (fun _ => tt)); [by apply handle_wlp | by apply handle_one_wlp].
  - intros ? s1 o1 Hs1. eapply wlp_mono; [by apply IH|]. intros ? s2 o2 Hs2. by rewrite app_assoc.
Qed.

Lemma new_lookup id (i : nat) b : bf_signals (buffer_new id : buffer_s T) !! i = Some b -> b = bufsig_zero.
Proof. intros Hb. apply lookup_replicate in Hb as [-> _]. done. Qed.

Lemma new_in_sync id : 1 <= id <= 16 -> in_sync (buffer_new id : buffer_s T) [].
Proof.
  intros Hid. split; [|split].
  - split; try done; [|intros b Hb; by apply new_lookup in Hb as -> | constructor].
    exists ∅. split; [done|]. intros u. rewrite lookup_empty. unfold sub_topic. case_if; [|done].
    destruct (bf_signals _ !! _) as [b|] eqn:Eb; [|done]. by apply new_lookup in Eb as ->.
  - unfold listed. cbn [last_list foldl]. assert (active_ids (buffer_new id : buffer_s T) = []) as ->; [|done].
    unfold active_ids. induction (seqZ 1 254) as [|i l IHl]; [done|]. cbn [List.filter]. unfold is_active at 1.
    destruct (bf_signals _ !! _) as [b|] eqn:Eb; [apply new_lookup in Eb as ->|]; done.
  - cbn. apply Forall_lookup. intros i b Hb. by apply new_lookup in Hb as ->.
Qed.

(** The end of the thread withdraws every subscription. *)
Lemma exit_wlp s h : base s h -> wlp buffer_thread_exit s (fun _ s' o => subs_after ∅ (h ++ o) = Some ∅).
Proof.
  intros HB. apply wlp_bind. eapply wlp_mono.
  - apply (wlp_for exit_signal (fun i s' h' => base s' h' /\
      forall j b, (j < Z.to_nat i)%nat -> bf_signals s' !! j = Some b -> b_topic b = []) 255 0 s h).
    + split; [done|]. intros j b Hj. lia.
    + intros i s1 h1 Hi (HB1 & Hd). apply wlp_bind, wlp_signal. intros b Hb _. cbn [Datatypes.app]. destruct (b_topic b) as [|c t] eqn:Et.
      * apply wlp_ret. rewrite app_nil_r. split; [done|]. intros j b' Hj Hb'. destruct (decide (j = Z.to_nat i)) as [->|Hne]; [congruence|].
        apply (Hd j); [lia | done].
      * apply wlp_bind. eapply wlp_mono; [apply unsub_wlp; [done | lia]|]. intros ? s2 o2 (HB2 & _ & b2 & Hb2 & ->).
        rewrite Hb in Hb2. injection Hb2 as <-. apply wlp_bind, wlp_signal. intros b3 Hb3 _. apply wlp_set_signal. cbn [Datatypes.app]. rewrite app_nil_r.
        pose proof Hb3 as Hb3'. cbn in Hb3'. rewrite list_lookup_insert_eq in Hb3' by (by apply lookup_lt_Some in Hb). injection Hb3' as <-.
        split.
        -- apply (base_put _ _ i (with_topic b [])); [done | done | lia | done|]. intros ->. by apply (ba_zero _ _ HB1 b).
        -- rewrite put_put. intros j b' Hj Hb'. cbn in Hb'. destruct (decide (j = Z.to_nat i)) as [->|Hne].
           ++ rewrite list_lookup_insert_eq in Hb' by (by apply lookup_lt_Some in Hb). by injection Hb' as <-.
           ++ rewrite list_lookup_insert_ne in Hb' by done. apply (Hd j); [lia | done].
  - intros ? s1 o1 (HB1 & Hd). apply wlp_modify. rewrite app_nil_r. destruct (ba_subs _ _ HB1) as (m & Hm & Hu).
    rewrite Hm. f_equal. apply map_eq. intros u. rewrite Hu, lookup_empty. unfold sub_topic. case_if; [|done].
    destruct (bf_signals s1 !! Z.to_nat (u / 65536)) as [b|] eqn:Eb; [|done].
    assert (Z.to_nat (u / 65536) < Z.to_nat (0 + Z.of_nat 255))%nat as Hj.
    { change (Z.to_nat (0 + Z.of_nat 255)) with 255%nat. rewrite <- (ba_len _ _ HB1). by apply lookup_lt_Some in Eb. }
    by rewrite (Hd _ b Hj Eb).
Qed.

Lemma total_exit : total buffer_thread_exit.
Proof.
  apply total_bind; [|intros _; by apply total_modify]. apply total_for; [lia | lia|]. intros i Hi.
  apply total_bind; [auto with total|]. intros b. destruct (b_topic b); [auto with total|]. apply total_bind; [auto with total|]. intros _.
  apply total_bind; auto with total.
Qed.

End Messages.
End Ops.

(** ** A buffer with one signal *)

Definition ex_num (v : Z) : jsdrv_union_s := mk_union JSDRV_UNION_U32 0 0 0 0 (Word v).
Definition ex_str (t : string) : jsdrv_union_s := mk_union JSDRV_UNION_STR 0 0 0 0 (Mem (Some (str t ++ [0]))).
Definition ex_cmd (t : string) (v : jsdrv_union_s) : thread_input := T_msg (mk_bmsg (str t) 0 v DNone).
Definition ex_data : jsdrv_stream_signal_s := mk_signal 100 0 0 JSDRV_DATA_TYPE_UINT 1 8 1000 1 (mk_time_map 0 0 (f64_of_Z 1000)) [171].
Definition ex_request (id : Z) : msg_s := mk_bmsg (str "s/001/!req") 0 (ex_num 0) (DRequest (str "x/!rsp") (mk_req JSDRV_TIME_SAMPLES (mk_range 100 107 0) id)).
Definition ex_inputs : list thread_input :=
  [ex_cmd "g/size" (ex_num 1); ex_cmd "a/!add" (ex_num 1); ex_cmd "s/001/topic" (ex_str "u/js220/s/gpi/0/!data");
   T_msg (mk_bmsg (str "u/js220/s/gpi/0/!data") 1 (ex_num 0) (DSignal ex_data));
   T_msg (mk_bmsg (str "u/js220/s/gpi/0/!data") 1 (ex_num 0) (DSignal ex_data)); T_msg (ex_request 7); T_msg (ex_request 7)].

(** Any functions will do where the size is small. *)
Definition ex_pow (x y : f64) : f64 := f64_of_Z 1.
Definition ex_log2 (x : f64) : f64 := f64_of_Z 1.
Definition ex_rsp : jsdrv_buffer_response_s jsdrv_tmap_s := mk_rsp _ 0 0 info_zero [] [].
Definition ex_run (xs : list thread_input) := thread_run 0 entry0 (replicate 64 0) ex_pow ex_log2 ex_rsp xs (buffer_new 1).

Example ex_run_active :
  match ex_run ex_inputs with
  | Ok (_, s, _) => bool_decide (bf_state s = ST_ACTIVE) && (Z.of_nat (List.length (bf_pending s)) =? 1)
  | Fault _ => false
  end = true.
Proof. vm_compute. reflexivity. Qed.

Lemma ex_run_ok : exists s h, ex_run ex_inputs = Ok (tt, s, h).
Proof.
  pose proof ex_run_active as Hc. destruct (ex_run ex_inputs) as [[[[] s] h]|f]; [by eexists _, _ | discriminate Hc].
Qed.

Lemma ex_run_eq xs : ex_run xs = thread_run 0 entry0 (replicate 64 0) ex_pow ex_log2 ex_rsp xs (buffer_new 1).
Proof. reflexivity. Qed.

Lemma ex_inputs_ok : Forall input_ok ex_inputs.
Proof.
  repeat constructor; intros a m Ht Hm Hn; try discriminate Ht; try discriminate Hm. vm_compute in Hm. injection Hm as <-. discriminate Hn.
Qed.

