(* ===== verification/BufferTick.v ===== *)
(** * The rounds of a buffer thread, and the manager of the buffers (src/buffer.c)

    A thread that wakes up handles every message of its queue, then answers the requests one by
    one, looking at the queue between any two; the loops end because a round takes a message or a
    request and a message posts at most one request.  The manager is the set of the buffers that
    exist, which it publishes after every change. *)

From Stdlib Require Import Strings.String.
From stdpp Require Import gmap.
From S2P Require Import Prelude Float Cstr ErrorCode Time Tmap Statistics BufferSignal BufferRing Union Effect Buffer.

Section Frame.
Context {T : Type}.
Abbreviation M := (eff (out T) (buffer_s T)).

(** An operation on the signals leaves the queue, the requests and the exit flag alone. *)
Definition kept_q (s s' : buffer_s T) : Prop :=
  bf_cmd_q s' = bf_cmd_q s /\ bf_do_exit s' = bf_do_exit s /\ bf_pending s' = bf_pending s.
Definition frame {A} (m : M A) : Prop := forall s, wlp m s (fun _ s' _ => kept_q s s').

Lemma frame_ret {A} (a : A) : frame (mret a).
Proof. intros s. by apply wlp_ret. Qed.
Lemma frame_bind {A B} (m : M A) (k : A -> M B) : frame m -> (forall a, frame (k a)) -> frame (m ≫= k).
Proof.
  intros Hm Hk s. apply wlp_bind. eapply wlp_mono; [apply Hm|]. intros a s1 o1 (K1 & K2 & K3).
  eapply wlp_mono; [apply Hk|]. intros b s2 o2 (L1 & L2 & L3). split; [congruence|]. split; congruence.
Qed.
Lemma frame_get : frame (get : M (buffer_s T)).
Proof. intros s. by apply wlp_get. Qed.
Lemma frame_modify f : (forall s, kept_q s (f s)) -> frame (modify f : M unit).
Proof. intros Hf s. by apply wlp_modify. Qed.
Lemma frame_lift {A} (m : res A) : frame (lift m : M A).
Proof. intros s. by apply wlp_lift. Qed.
Lemma frame_emit x : frame (emit x : M unit).
Proof. intros s a s' o Hm. by injection Hm as <- <- <-. Qed.
Lemma frame_signal idx : frame (signal idx : M (bufsig_s T)).
Proof. apply frame_bind; [apply frame_get|]. intros s. apply frame_lift. Qed.
Lemma frame_set idx b : frame (set_signal idx b : M unit).
Proof.
  apply frame_bind; [apply frame_get|]. intros s. apply frame_bind; [apply frame_lift|]. intros l. by apply frame_modify.
Qed.
Lemma frame_for (body : Z -> M unit) n : (forall i, frame (body i)) -> forall idx, frame (for_signals n idx body).
Proof.
  intros Hb. induction n as [|n IH]; intros idx; cbn [for_signals]; [apply frame_ret|]. apply frame_bind; [apply Hb|]. intros _. apply IH.
Qed.
End Frame.

Create HintDb frame.
#[export] Hint Resolve frame_ret frame_get frame_lift frame_emit frame_signal frame_set : frame.

(** Split an operation into its calls. *)
Ltac frames :=
  repeat first
    [ solve [auto with frame]
    | progress intros
    | progress cbv zeta
    | apply frame_for
    | apply frame_bind
    | apply frame_modify; intros ?; try done
    | match goal with
      | |- frame (if ?c then _ else _) => destruct c
      | |- frame (match ?x with _ => _ end) => destruct x
      | |- kept_q _ (if ?c then _ else _) => destruct c; try done
      end ].

Section Tick.
Context {T : Type} `{TmapImpl T}.
Context (fresh_byte : Z) (fresh_entry : jsdrv_summary_entry_s) (fresh_rsp : jsdrv_buffer_response_s T) (fresh_text : list Z).
Context (pow : f64 -> f64 -> f64) (log2 : f64 -> f64).
Abbreviation M := (eff (out T) (buffer_s T)).

Lemma frame_unsub idx : frame (bufsig_unsub idx : M unit).
Proof. unfold bufsig_unsub. frames. Qed.
Lemma frame_list : frame (buf_publish_signal_list : M unit).
Proof. unfold buf_publish_signal_list. frames. Qed.
Lemma frame_info idx : frame (bufsig_publish_info idx : M unit).
Proof. unfold bufsig_publish_info. frames. Qed.
Hint Resolve frame_unsub frame_list frame_info : frame.

Lemma frame_off idx : frame (signal_off idx : M unit).
Proof. unfold signal_off. frames. Qed.
Lemma frame_free : frame (buffer_free : M unit).
Proof. unfold buffer_free, free_signal. frames. Qed.
Hint Resolve frame_off frame_free : frame.

Lemma frame_remove n : forall idx c, frame (remove_unsupported n idx c : M bool).
Proof. induction n as [|n IH]; intros idx c; cbn [remove_unsupported]; frames; apply IH. Qed.
Hint Resolve frame_remove : frame.

Lemma frame_alloc : frame (buffer_alloc fresh_byte fresh_entry pow log2 : M unit).
Proof. unfold buffer_alloc, each_signal, alloc_signal. frames. Qed.
Hint Resolve frame_alloc : frame.

Lemma frame_data idx msg : frame (on_data fresh_byte fresh_entry pow log2 idx msg : M unit).
Proof. unfold on_data. frames. Qed.
Lemma frame_action t msg : frame (on_action t msg : M Z).
Proof. unfold on_action. frames. Qed.
Lemma frame_global t msg : frame (on_global fresh_text t msg : M Z).
Proof. unfold on_global. frames. Qed.
Lemma frame_sub idx t : frame (bufsig_sub idx t : M unit).
Proof. unfold bufsig_sub. frames. Qed.
Lemma frame_complete t rc : frame (buffer_recv_complete t rc : M unit).
Proof. unfold buffer_recv_complete. frames. Qed.

(** ** One message, one request *)

Definition is_final (msg : msg_s) : bool := (m_u32_a msg =? 0) && bool_decide (m_topic msg = JSDRV_MSG_FINALIZE).

(** What a message does to the queue, the exit flag and the number of requests. *)
Definition msg_post (msg : msg_s) (s : buffer_s T) (r : bool) (s' : buffer_s T) : Prop :=
  bf_cmd_q s' = bf_cmd_q s /\ (length (bf_pending s') <= S (length (bf_pending s)))%nat
  /\ r = negb (is_final msg) /\ bf_do_exit s' = (if r then bf_do_exit s else true).

Lemma post_frame msg s s' : kept_q s s' -> is_final msg = false -> msg_post msg s true s'.
Proof. intros (K1 & K2 & K3) Hf. split; [done|]. split; [rewrite K3; lia|]. by rewrite Hf. Qed.

Lemma req_update_length sid topic r l : forall l', req_update sid topic r l = Some l' -> length l' = length l.
Proof.
  induction l as [|x l IH]; intros l' E; [done|]. cbn [req_update] in E. destruct (same_request sid topic r x); [by injection E as <-|].
  destruct (req_update sid topic r l) as [l1|]; [|done]. injection E as <-. cbn. by rewrite (IH l1).
Qed.

Lemma on_signal_q t msg (s : buffer_s T) : wlp (on_signal t msg) s (fun _ s' _ =>
  bf_cmd_q s' = bf_cmd_q s /\ bf_do_exit s' = bf_do_exit s /\ (length (bf_pending s') <= S (length (bf_pending s)))%nat).
Proof.
  assert (forall A (m : M A), frame m -> wlp m s (fun _ s' _ =>
    bf_cmd_q s' = bf_cmd_q s /\ bf_do_exit s' = bf_do_exit s /\ (length (bf_pending s') <= S (length (bf_pending s)))%nat)) as Hfr.
  { intros A m Hm. eapply wlp_mono; [apply Hm|]. intros a s1 o1 (K1 & K2 & K3). rewrite K3. auto with lia. }
  apply wlp_bind, wlp_lift. intros [a r] _. destruct (jsdrv_cstr_to_u32 (Some a) (Some 0)) as [rc o0]. cbv zeta.
  case_if; [apply Hfr; frames|]. case_if; [apply Hfr; frames|]. case_if; [|apply Hfr; pose proof frame_sub; frames].
  apply wlp_bind, wlp_lift. intros [topic q] _. apply wlp_bind, wlp_modify, wlp_ret.
  destruct (req_update _ _ _ _) as [l|] eqn:Eu; (split; [done|]; split; [done|]); cbn [bf_pending with_reqs].
  - apply req_update_length in Eu. lia.
  - rewrite length_app. cbn. lia.
Qed.

Lemma has_prefix_final c : has_prefix c JSDRV_MSG_FINALIZE = (64 =? c).
Proof. cbn. by rewrite andb_true_r. Qed.

Lemma handle_q msg (s : buffer_s T) : wlp (handle_msg fresh_byte fresh_entry fresh_text pow log2 msg) s (fun r s' _ => msg_post msg s r s').
Proof.
  apply wlp_bind. eapply wlp_mono with (P := fun (x : bool * Z) s' _ => msg_post msg s x.1 s').
  2: { intros [r rc] s1 o1 (K1 & K2 & K3 & K4). apply wlp_bind. eapply wlp_mono; [apply frame_complete|].
       intros ? s2 o2 (L1 & L2 & L3). apply wlp_ret. cbn [fst] in *. split; [congruence|]. rewrite L3, L2. auto. }
  case_if; [|case_if].
  - apply wlp_bind. eapply wlp_mono; [apply frame_data|]. intros ? s1 o1 Hk. apply wlp_ret. apply post_frame; [done|].
    unfold is_final. by simpl_cmp.
  - apply wlp_ret. apply post_frame; [done|]. unfold is_final. by simpl_cmp.
  - unfold on_command. cbv zeta.
    assert (forall c (m : M Z), c <> 64 -> has_prefix c (m_topic msg) = true ->
      wlp m s (fun _ s' _ => bf_cmd_q s' = bf_cmd_q s /\ bf_do_exit s' = bf_do_exit s /\ (length (bf_pending s') <= S (length (bf_pending s)))%nat) ->
      wlp (rc ← m; mret (true, rc)) s (fun x s' _ => msg_post msg s x.1 s')) as Hp.
    { intros c m Hc Hpre Hm. apply wlp_bind. eapply wlp_mono; [exact Hm|]. intros rc s1 o1 (K1 & K2 & K3). apply wlp_ret.
      assert (is_final msg = false) as Hf.
      { unfold is_final. destruct (bool_decide_reflect (m_topic msg = JSDRV_MSG_FINALIZE)) as [Eq|]; [|by rewrite andb_false_r].
        rewrite Eq, has_prefix_final in Hpre. lia. }
      split; [done|]. split; [done|]. by rewrite Hf. }
    assert (forall (m : M Z), frame m ->
      wlp m s (fun _ s' _ => bf_cmd_q s' = bf_cmd_q s /\ bf_do_exit s' = bf_do_exit s /\ (length (bf_pending s') <= S (length (bf_pending s)))%nat)) as Hfr.
    { intros m Hm. eapply wlp_mono; [apply Hm|]. intros a s1 o1 (K1 & K2 & K3). rewrite K3. auto with lia. }
    destruct (has_prefix 97 (m_topic msg)) eqn:E97; [eapply (Hp 97); [lia | done | apply Hfr, frame_action]|].
    destruct (has_prefix 115 (m_topic msg)) eqn:E115; [eapply (Hp 115); [lia | done | apply on_signal_q]|].
    destruct (has_prefix 103 (m_topic msg)) eqn:E103; [eapply (Hp 103); [lia | done | apply Hfr, frame_global]|].
    unfold msg_post, is_final. simpl_cmp. case_if.
    + apply wlp_bind, wlp_modify, wlp_ret. cbn. auto with lia.
    + apply wlp_ret. cbn. auto with lia.
Qed.

Lemma handle_one_q (s : buffer_s T) : wlp (req_handle_one fresh_rsp) s (fun _ s' _ =>
  bf_cmd_q s' = bf_cmd_q s /\ bf_do_exit s' = bf_do_exit s /\ bf_pending s' = List.tl (bf_pending s)).
Proof.
  apply wlp_bind, wlp_get. destruct (bf_pending s) as [|r l] eqn:E; [by apply wlp_ret|]. apply wlp_bind, wlp_modify, wlp_bind.
  eapply wlp_mono; [apply frame_signal|]. intros b s1 o1 (K1 & K2 & K3). case_if; [by apply wlp_bind, wlp_modify, wlp_ret|].
  apply wlp_bind, wlp_lift. intros [[rc q] rsp] _. apply wlp_bind. eapply wlp_mono with (P := fun (_ : unit) s' _ => s' = s1).
  - case_if; [by apply wlp_ret|]. intros ? ? ? Hm. by injection Hm as <- <- <-.
  - intros ? s2 o2 ->. by apply wlp_bind, wlp_modify, wlp_ret.
Qed.

(** ** The loops *)

Abbreviation run_all := (handle_all fresh_byte fresh_entry fresh_text pow log2).
Abbreviation run_ticks := (tick_loop fresh_byte fresh_entry fresh_rsp fresh_text pow log2).
Abbreviation run_cmd := (handle_cmd_q fresh_byte fresh_entry fresh_text pow log2).

Lemma handle_cmd_q_cons (s : buffer_s T) msg q : bf_cmd_q s = Some (msg :: q) ->
  wlp run_cmd s (fun r s' _ => msg_post msg (with_q s (Some q)) r s').
Proof.
  intros Hq. apply wlp_bind, wlp_get. rewrite Hq. apply wlp_bind, wlp_modify. eapply wlp_mono; [apply handle_q|]. intros r s1 o1 (K1 & K2 & K3 & K4). done.
Qed.

(** After the loop the thread leaves, or the queue is empty; each message has posted a request at most. *)
Lemma handle_all_q q : forall (s : buffer_s T) fuel, bf_cmd_q s = Some q ->
  wlp (run_all fuel) s (fun _ s' _ => is_Some (bf_cmd_q s') /\ (bf_do_exit s' = true \/ (bf_cmd_q s' = Some [] /\ bf_do_exit s' = bf_do_exit s))
    /\ (length (bf_pending s') <= length q + length (bf_pending s))%nat
    /\ (forallb (negb ∘ is_final) q = true -> bf_cmd_q s' = Some [] /\ bf_do_exit s' = bf_do_exit s)).
Proof.
  induction q as [|msg q IH]; intros s fuel Hq; destruct fuel as [|fuel]; cbn [Buffer.handle_all]; apply wlp_bind.
  1,2: apply wlp_bind, wlp_get; rewrite Hq; apply wlp_ret, wlp_ret; rewrite Hq; split; [done|]; split; [by right|]; split; [cbn; lia | done].
  all: eapply wlp_mono; [by apply handle_cmd_q_cons|]; intros r s1 o1 (K1 & K2 & K3 & K4); cbn [bf_cmd_q with_q bf_do_exit bf_pending] in *.
  - destruct r; [by apply wlp_lift|]. apply wlp_ret. rewrite K1, K4. cbn [forallb length].
    split; [done|]. split; [by left|]. split; [cbn; lia|]. unfold compose. by rewrite <- K3.
  - destruct r.
    + eapply wlp_mono; [by apply IH|]. intros ? s2 o2 (L1 & L2 & L3 & L4). rewrite K4 in *. split; [done|]. split; [done|].
      split; [cbn [length]; lia|]. cbn [forallb]. intros [_ Hf]%andb_true_iff. auto.
    + apply wlp_ret. rewrite K1, K4. cbn [forallb length]. split; [done|]. split; [by left|]. split; [cbn; lia|]. unfold compose. by rewrite <- K3.
Qed.

Lemma handle_all_fuel q : forall (s : buffer_s T) n n', bf_cmd_q s = Some q -> (length q <= n)%nat -> (length q <= n')%nat ->
  run_all n s = run_all n' s.
Proof.
  induction q as [|msg q IH]; intros s n n' Hq Hn Hn'.
  - destruct n, n'; cbn [Buffer.handle_all]; unfold Buffer.handle_cmd_q; rewrite !run_assoc, !run_get, Hq, !run_ret; done.
  - destruct n as [|n], n' as [|n']; cbn [length] in *; [lia | lia | lia|]. cbn [Buffer.handle_all]. unfold mbind, op_bind.
    pose proof (handle_cmd_q_cons s msg q Hq) as Hw. destruct (run_cmd s) as [[[r s1] o1]|f] eqn:Ec; [|done].
    destruct (Hw r s1 o1 Ec) as (K1 & _). destruct r; [|done]. rewrite (IH s1 n n'); [done | done | lia | lia].
Qed.

(** A round of the inner loop. *)
Definition tick_round : M unit :=
  s ← get; run_all (length (default [] (bf_cmd_q s))) ;; _ ← req_handle_one fresh_rsp; mret tt.

Lemma tick_round_q (s : buffer_s T) q : bf_cmd_q s = Some q ->
  wlp tick_round s (fun _ s' _ => is_Some (bf_cmd_q s') /\ (bf_do_exit s' = true \/ (bf_cmd_q s' = Some [] /\ bf_do_exit s' = bf_do_exit s))
    /\ (length (bf_pending s') <= length q + length (bf_pending s) - 1)%nat
    /\ (forallb (negb ∘ is_final) q = true -> bf_cmd_q s' = Some [] /\ bf_do_exit s' = bf_do_exit s)).
Proof.
  intros Hq. apply wlp_bind, wlp_get. rewrite Hq. cbn [default from_option id]. apply wlp_bind. eapply wlp_mono; [by apply handle_all_q|].
  intros ? s1 o1 (K1 & K2 & K3 & K4). apply wlp_bind. eapply wlp_mono; [apply handle_one_q|]. intros ? s2 o2 (L1 & L2 & L3). apply wlp_ret.
  rewrite L1, L2, L3. split; [done|]. split; [done|]. split; [|done]. destruct (bf_pending s1); cbn in *; lia.
Qed.

Lemma tick_loop_eq fuel (s : buffer_s T) : run_ticks fuel s = (tick_round ;; s ← get;
  if negb (bf_do_exit s) && negb (bool_decide (bf_pending s = [])) then
    match fuel with O => lift (Fault OutOfFuel) | S fuel => run_ticks fuel end
  else mret tt) s.
Proof.
  unfold tick_round. destruct fuel; cbn [Buffer.tick_loop]; rewrite run_assoc, !run_get, run_assoc; unfold mbind, op_bind;
    (destruct (run_all _ s) as [[[? s1] ?]|]; [|done]); (destruct (req_handle_one fresh_rsp s1) as [[[? s2] ?]|]; [|done]);
    cbn [mret op_ret]; rewrite ?app_nil_r; reflexivity.
Qed.

(** More fuel than messages and requests changes nothing. *)
Lemma tick_fuel n : forall (s : buffer_s T) q n', bf_cmd_q s = Some q -> (length q + length (bf_pending s) <= n)%nat -> (n <= n')%nat ->
  run_ticks n s = run_ticks n' s.
Proof.
  induction n as [|n IH]; intros s q n' Hq Hn Hn'; rewrite !tick_loop_eq; unfold mbind at 1 3, op_bind at 1 3;
    pose proof (tick_round_q s q Hq) as Hw; (destruct (tick_round s) as [[[[] s1] o1]|f] eqn:Ec; [|done]);
    destruct (Hw tt s1 o1 Ec) as ([q1 K1] & K2 & K3 & _); rewrite !run_get.
  - destruct (bf_pending s1) eqn:Ep; [|cbn in K3; lia]. rewrite bool_decide_eq_true_2, andb_false_r by done. done.
  - destruct (bf_do_exit s1) eqn:Ee; cbn [negb andb]; [done|]. destruct (bool_decide_reflect (bf_pending s1 = [])) as [|Hne]; [done|]. cbn [negb].
    destruct n' as [|n']; [lia|]. destruct K2 as [K2|[K2 _]]; [done|].
    rewrite (IH s1 [] n'); [done | done | cbn; lia | lia].
Qed.

Lemma wlp_eq {A} (m m' : M A) s Q : m s = m' s -> wlp m' s Q -> wlp m s Q.
Proof. intros E Hm a s' o Hr. apply Hm. by rewrite <- E. Qed.

(** Without a message to leave, the queue and the requests are done. *)
Lemma tick_done n : forall (s : buffer_s T) q, bf_cmd_q s = Some q -> forallb (negb ∘ is_final) q = true -> bf_do_exit s = false ->
  wlp (run_ticks n) s (fun _ s' _ => bf_cmd_q s' = Some [] /\ bf_pending s' = [] /\ bf_do_exit s' = false).
Proof.
  induction n as [|n IH]; intros s q Hq Hf He; (eapply wlp_eq; [apply tick_loop_eq|]);
    apply wlp_bind; (eapply wlp_mono; [by apply tick_round_q|]); intros ? s1 o1 (_ & _ & _ & K4); destruct (K4 Hf) as [K1 K2];
    apply wlp_bind, wlp_get; rewrite K2, He; cbn [negb andb]; (destruct (bool_decide_reflect (bf_pending s1 = [])) as [|Hne]; [by apply wlp_ret; rewrite K2|]); cbn [negb].
  - by apply wlp_lift.
  - eapply wlp_mono; [apply (IH s1 []); [done | done | congruence]|]. done.
Qed.

End Tick.

(** ** A thread with a command and a request in its queue *)

Definition ex_word (v : Z) : jsdrv_union_s := mk_union JSDRV_UNION_U32 0 0 0 0 (Word v).
Definition ex_queue : list msg_s :=
  [mk_bmsg (str "a/!add") 0 (ex_word 3) DNone;
   mk_bmsg (str "s/003/!req") 0 (ex_word 0) (DRequest (str "x/!rsp") (mk_req JSDRV_TIME_SAMPLES (mk_range 0 9 0) 7))].
Definition ex_thread : buffer_s jsdrv_tmap_s := with_q (buffer_new 1) (Some ex_queue).
Definition ex_tick (s : buffer_s jsdrv_tmap_s) : res (unit * buffer_s jsdrv_tmap_s * list (out jsdrv_tmap_s)) :=
  buffer_tick 0 entry0 (mk_rsp _ 0 0 info_zero [] []) [] (fun x _ => x) (fun x => x) s.

Lemma ex_tick_eq s : ex_tick s = buffer_tick 0 entry0 (mk_rsp _ 0 0 info_zero [] []) [] (fun x _ => x) (fun x => x) s.
Proof. reflexivity. Qed.

Lemma ex_tick_check : match ex_tick ex_thread with Ok _ => true | Fault _ => false end = true.
Proof. vm_compute. reflexivity. Qed.

Lemma ex_tick_ok : exists s o, ex_tick ex_thread = Ok (tt, s, o).
Proof.
  pose proof ex_tick_check as Hc. destruct (ex_tick ex_thread) as [[[[] s] o]|f]; [by eexists _, _ | discriminate Hc].
Qed.


(** ** Where the messages are trusted *)

Definition ex_handle (m : msg_s) : res (bool * buffer_s jsdrv_tmap_s * list (out jsdrv_tmap_s)) :=
  handle_msg 0 entry0 [] (fun x _ => x) (fun x => x) m (buffer_new 1).
Definition ex_mgr : buffer_mgr_s := mk_mgr true (replicate 16 (buffer_zero : buffer_s jsdrv_tmap_s)).

(** The loop over the signal number needs a second slash. *)
Lemma signal_number_overrun : ex_handle (mk_bmsg (str "s/001") 0 (ex_word 0) DNone) = Fault OutOfBounds.
Proof. vm_compute. reflexivity. Qed.

(** The value of a request is read as a request whatever its type. *)
Lemma request_not_checked : ex_handle (mk_bmsg (str "s/001/!req") 0 (ex_word 5) DNone) = Fault OutOfBounds.
Proof. vm_compute. reflexivity. Qed.

(** A topic that ends behind the number of the buffer is cut behind its end. *)
Lemma short_topic_overrun : match _buffer_add 0 (mk_bmsg [] 0 (ex_word 1) DNone) ex_mgr with
  | Ok (_, s, _) => _buffer_recv (mk_bmsg (str "m/001") 0 (ex_word 0) DNone) s
  | Fault f => Fault f
  end = Fault OutOfBounds.
Proof. vm_compute. reflexivity. Qed.

(** Signal 255 passes the test of the range and is outside of the array. *)
Lemma signal_255_out_of_bounds : _buffer_recv_data (255 * 65536 + 1) (mk_bmsg [] 0 (ex_word 0) DNone) ex_mgr = Fault OutOfBounds.
Proof. vm_compute. reflexivity. Qed.

(** A buffer whose thread could not be created exists: it cannot be added again. *)
Lemma add_without_thread : match _buffer_add 1 (mk_bmsg [] 0 (ex_word 1) DNone) ex_mgr with
  | Ok (_, s, _) => match _buffer_add 0 (mk_bmsg [] 0 (ex_word 1) DNone) s with Ok (rc, _, _) => rc =? ec_code ALREADY_EXISTS | Fault _ => false end
  | Fault _ => false
  end = true.
Proof. vm_compute. reflexivity. Qed.
