(* ===== verification/Json.v ===== *)
(** * The streaming JSON parser (src/json.c, include_private/jsdrv_prv/json.h)

    The parser state keeps the part of the text that is left ([NEXT] is its first
    character, or the terminator), the nesting depth, and the state [S] of the callback,
    which receives each token and may stop the parse with a non-zero code.  Moving past
    the terminator is a fault, so that a result [Ok _] reads inside the text only.
    [fuel] bounds the recursion; [parse_fuel] is enough for every text.  [pow] of the C
    library is a parameter: its rounding is not specified. *)

From Stdlib Require Import Strings.String.
From S2P Require Import Prelude Float Cstr ErrorCode Time Union.

Definition JSDRV_JSON_VALUE : Z := 0.
Definition JSDRV_JSON_KEY : Z := 1.
Definition JSDRV_JSON_OBJ_START : Z := 2.
Definition JSDRV_JSON_OBJ_END : Z := 3.
Definition JSDRV_JSON_ARRAY_START : Z := 4.
Definition JSDRV_JSON_ARRAY_END : Z := 5.

Definition EC_SYNTAX_ERROR : Z := ec_code SYNTAX_ERROR.
Definition EC_ABORTED : Z := ec_code ABORTED.
Definition DEPTH_MAX : Z := 64.

Definition delim (o : Z) : jsdrv_union_s := mk_union JSDRV_UNION_NULL 0 o 0 0 (Word 0).
Definition jsdrv_union_i64 (v : Z) : jsdrv_union_s := mk_union JSDRV_UNION_I64 0 0 0 0 (Word (u64 v)).
Definition jsdrv_union_f64 (v : f64) : jsdrv_union_s :=
  mk_union JSDRV_UNION_F64 0 0 0 0 (Word (bits_of_f64 v)).

Definition WHITESPACE : cstr := [32; 10; 9; 13].
Definition ESCAPE : cstr := [34; 92; 47; 98; 102; 110; 114; 116; 117].

Definition is_in (ch : Z) (l : cstr) : bool := existsb (Z.eqb ch) l.
Definition is_whitespace (ch : Z) : bool := is_in ch WHITESPACE.
Definition is_escape (ch : Z) : bool := is_in ch ESCAPE.

Definition to_hex (v : Z) : Z :=
  if (48 <=? v) && (v <=? 57) then v - 48
  else if (97 <=? v) && (v <=? 102) then v - 97 + 10
  else if (65 <=? v) && (v <=? 70) then v - 65 + 10
  else -1.

Section Parser.
Context {S : Type} (cbk_fn : S -> jsdrv_union_s -> Z * S).
Context (pow : f64 -> f64 -> f64).

Record parse_s := mk_parse { rest : cstr; depth : Z; user : S }.

Definition NEXT (s : parse_s) : Z := hd 0 (rest s).
Definition ADVANCE (s : parse_s) : res parse_s :=
  match rest s with
  | [] => Fault OutOfBounds
  | _ :: r => Ok (mk_parse r (depth s) (user s))
  end.

(** A result code and the state; ROE and [emit] return early on a non-zero code. *)
Definition outcome := res (Z * parse_s).
Definition ROE (x : outcome) (k : parse_s -> outcome) : outcome :=
  '(rc, s) ← x; if rc =? 0 then k s else Ok (rc, s).
Definition emit (s : parse_s) (token : jsdrv_union_s) : outcome :=
  let '(rc, u) := cbk_fn (user s) token in Ok (rc, mk_parse (rest s) (depth s) u).
Definition syntax_error (s : parse_s) : outcome := Ok (EC_SYNTAX_ERROR, s).

Fixpoint drop_whitespace (l : cstr) : cstr :=
  match l with
  | c :: l' => if is_whitespace c then drop_whitespace l' else l
  | [] => []
  end.
Definition skip_whitespace (s : parse_s) : parse_s := mk_parse (drop_whitespace (rest s)) (depth s) (user s).

(** *** Strings *)

(** The four hexadecimal digits of an escape. *)
Fixpoint escape_hex (n : nat) (l : cstr) : option cstr :=
  match n with
  | O => Some l
  | Datatypes.S n' => match l with
             | _ :: l' => if to_hex (hd 0 l') <? 0 then None else escape_hex n' l'
             | [] => None
             end
  end.

(** The [while (1)] of the string: the text from the closing quote on, or an error.
    [fuel] is the length of the text. *)
Fixpoint string_loop (fuel : nat) (l : cstr) : res (option cstr) :=
  match fuel with
  | O => Fault OutOfFuel
  | Datatypes.S fuel' =>
      match l with
      | [] => Ok None
      | ch :: l1 =>
          if ch =? 34 then Ok (Some l)
          else if ch =? 92 then
            if is_escape (hd 0 l1) then
              match (if hd 0 l1 =? 117 then escape_hex 4 l1 else Some l1) with
              | None => Ok None
              | Some [] => Fault OutOfBounds
              | Some (_ :: l2) => string_loop fuel' l2
              end
            else Ok None
          else string_loop fuel' l1
      end
  end.

Definition parse_string (s : parse_s) (op : Z) : outcome :=
  if negb (NEXT s =? 34) then syntax_error s
  else
    s ← ADVANCE s;
    let start := rest s in
    e ← string_loop (Datatypes.S (length start)) start;
    match e with
    | None => syntax_error s
    | Some l =>
        let sz := len start - len l + 1 in
        let s := mk_parse l (depth s) (user s) in
        ROE (emit s (mk_union JSDRV_UNION_STR JSDRV_UNION_FLAG_CONST op 0 (u32 sz) (Mem (Some (start ++ [0])))))
          (fun s => s ← ADVANCE s; Ok (0, skip_whitespace s))
    end.

(** *** Literals and numbers *)

Fixpoint literal_loop (literal l : cstr) : option cstr :=
  match literal with
  | [] => Some l
  | c :: literal' => if hd 0 l =? c then literal_loop literal' (tl l) else None
  end.

Definition parse_literal (s : parse_s) (literal : cstr) (value : jsdrv_union_s) : outcome :=
  match literal_loop literal (rest s) with
  | None => syntax_error s
  | Some l => emit (mk_parse l (depth s) (user s)) value
  end.

Definition is_digit (ch : Z) : bool := (48 <=? ch) && (ch <=? 57).

(** The digits of the whole part: value, overflow flag, rest; [ch] ends as [NEXT]. *)
Fixpoint whole_loop (l : cstr) (whole : Z) (is_overflow : bool) : Z * bool * cstr :=
  match l with
  | ch :: l' =>
      if is_digit ch then
        if Z.quot (I64_MAX - (ch - 48)) 10 <? whole then whole_loop l' whole true
        else whole_loop l' (whole * 10 + (ch - 48)) is_overflow
      else (whole, is_overflow, l)
  | [] => (whole, is_overflow, l)
  end.

(** The digits behind the point: fraction as a double, number of digits. *)
Fixpoint fract_loop (l : cstr) (fract : f64) (n : Z) : f64 * Z * cstr :=
  match l with
  | ch :: l' =>
      if is_digit ch
      then fract_loop l' (f64_add (f64_mul fract (f64_of_Z 10)) (f64_of_Z (ch - 48))) (n + 1)
      else (fract, n, l)
  | [] => (fract, n, l)
  end.

(** The digits of the exponent, clamped. *)
Fixpoint exp_loop (l : cstr) (whole : Z) : Z * cstr :=
  match l with
  | ch :: l' =>
      if is_digit ch then
        let whole := whole * 10 + (ch - 48) in
        exp_loop l' (if 100000 <? whole then 100000 else whole)
      else (whole, l)
  | [] => (whole, l)
  end.

(** [pow10 *= 10] for each of [n] digits, in [int32_t]. *)
Fixpoint pow10_loop (n : nat) (pow10 : Z) : res Z :=
  match n with
  | O => Ok pow10
  | Datatypes.S n' => p ← chk_i 32 (pow10 * 10); pow10_loop n' p
  end.

(** The exponent part, from the character behind 'e'. *)
Definition parse_exponent (l : cstr) (f : f64) : res (option (f64 * cstr)) :=
  let '(is_neg, l) :=
    if hd 0 l =? 43 then (false, tl l) else if hd 0 l =? 45 then (true, tl l) else (false, l) in
  if negb (is_digit (hd 0 l)) then Ok None
  else
    let '(whole, l) := exp_loop l 0 in
    let e := f64_of_Z whole in
    '(e, l) ←
      (if hd 0 l =? 46 then
         let '(fract, n, l) := fract_loop (tl l) (S754_zero false) 0 in
         pow10 ← pow10_loop (Z.to_nat n) 1;
         Ok (f64_add e (f64_div fract (f64_of_Z pow10)), l)
       else Ok (e, l));
    let e := if is_neg then f64_opp e else e in
    Ok (Some (f64_mul f (pow (f64_of_Z 10) e), l)).

Definition parse_number (s : parse_s) : outcome :=
  let l := rest s in
  let '(is_neg, l) :=
    if NEXT s =? 45 then (true, tl l) else if NEXT s =? 43 then (false, tl l) else (false, l) in
  let c := hd 0 l in
  if (c =? 48) || ((49 <=? c) && (c <=? 57)) then
    (* [ch] is the last character read: for a leading '0' it is still that '0' *)
    let '(whole, is_overflow, l, ch) :=
      if c =? 48 then (0, false, tl l, 48)
      else let '(whole, ov, l) := whole_loop l 0 false in (whole, ov, l, hd 0 l) in
    let s := mk_parse l (depth s) (user s) in
    if negb (is_in (NEXT s) [46; 101; 69]) then
      if is_overflow : bool then syntax_error s
      else
        let whole := if is_neg then - whole else whole in
        if (I32_MIN <=? whole) && (whole <=? I32_MAX) then emit s (jsdrv_union_i32 whole)
        else emit s (jsdrv_union_i64 whole)
    else
      let f := f64_of_Z whole in
      let '(f, l, ch) :=
        if NEXT s =? 46 then
          let '(fract, n, l) := fract_loop (tl l) (S754_zero false) 0 in
          (f64_add f (f64_mul fract (pow (f64_of_Z 10) (f64_of_Z (- n)))), l, hd 0 l)
        else (f, l, ch) in
      let f := if is_neg then f64_opp f else f in
      if (ch =? 101) || (ch =? 69) then
        r ← parse_exponent (tl l) f;
        match r with
        | None => syntax_error s
        | Some (f, l) => emit (mk_parse l (depth s) (user s)) (jsdrv_union_f64 f)
        end
      else emit (mk_parse l (depth s) (user s)) (jsdrv_union_f64 f)
  else syntax_error s.

(** *** Values, objects and arrays *)

(** The entry of an object or array: depth, start token, the bracket. *)
Definition open_level (s : parse_s) (o : Z) (k : parse_s -> outcome) : outcome :=
  let s := mk_parse (rest s) (depth s + 1) (user s) in
  if DEPTH_MAX <? depth s then syntax_error s
  else ROE (emit s (delim o)) (fun s => s ← ADVANCE s; k (skip_whitespace s)).

(** The exit: end token, the bracket, depth. *)
Definition close_level (s : parse_s) (o : Z) : outcome :=
  ROE (emit s (delim o)) (fun s => s ← ADVANCE s; Ok (0, mk_parse (rest s) (depth s - 1) (user s))).

Fixpoint parse_value (fuel : nat) (s : parse_s) : outcome :=
  match fuel with
  | O => Fault OutOfFuel
  | Datatypes.S fuel' =>
      let s := skip_whitespace s in
      let c := NEXT s in
      if c =? 0 then syntax_error s
      else if c =? 123 then open_level s JSDRV_JSON_OBJ_START (object_loop fuel')
      else if c =? 91 then open_level s JSDRV_JSON_ARRAY_START (array_loop fuel')
      else if c =? 34 then parse_string s JSDRV_JSON_VALUE
      else if c =? 116 then parse_literal s (str "true") (jsdrv_union_i32 1)
      else if c =? 102 then parse_literal s (str "false") (jsdrv_union_i32 0)
      else if c =? 110 then parse_literal s (str "null") jsdrv_union_null
      else if c =? 78 then parse_literal s (str "NaN") (jsdrv_union_f64 S754_nan)
      else parse_number s
  end
with object_loop (fuel : nat) (s : parse_s) : outcome :=
  match fuel with
  | O => Fault OutOfFuel
  | Datatypes.S fuel' =>
      if NEXT s =? 125 then close_level s JSDRV_JSON_OBJ_END
      else
        ROE (parse_string (skip_whitespace s) JSDRV_JSON_KEY) (fun s =>
        let s := skip_whitespace s in
        if negb (NEXT s =? 58) then syntax_error s
        else
          s ← ADVANCE s;
          ROE (parse_value fuel' s) (fun s =>
          let s := skip_whitespace s in
          if NEXT s =? 44 then
            s ← ADVANCE s;
            if NEXT s =? 125 then syntax_error s else object_loop fuel' s
          else object_loop fuel' s))
  end
with array_loop (fuel : nat) (s : parse_s) : outcome :=
  match fuel with
  | O => Fault OutOfFuel
  | Datatypes.S fuel' =>
      if NEXT s =? 93 then close_level s JSDRV_JSON_ARRAY_END
      else
        ROE (parse_value fuel' (skip_whitespace s)) (fun s =>
        let s := skip_whitespace s in
        if NEXT s =? 44 then
          s ← ADVANCE s;
          let s := skip_whitespace s in
          if NEXT s =? 93 then syntax_error s else array_loop fuel' s
        else array_loop fuel' s)
  end.

Definition parse_fuel (json : cstr) : nat := 2 * length json + 2.

(** [None] is a NULL text; a NULL callback is one that ignores every token. *)
Definition jsdrv_json_parse (json : option cstr) (u : S) : res (Z * S) :=
  match json with
  | None => Ok (ec_code PARAMETER_INVALID, u)
  | Some json =>
      '(rc, s) ← parse_value (parse_fuel json) (mk_parse json 0 u);
      Ok (if rc =? EC_ABORTED then 0 else rc, user s)
  end.
End Parser.

Definition on_token_ignore (u : unit) (token : jsdrv_union_s) : Z * unit := (0, u).

(** The loop of the comparison: the string from its terminated object, the token's
    bytes, [n] rounds from index [i]. *)
Fixpoint strcmp_loop (n : nat) (s tok : list Z) (i : Z) : res Z :=
  match n with
  | O => c ← ld s i; Ok (if c =? 0 then 0 else 1)
  | Datatypes.S n' =>
      c ← ld s i;
      t ← ld tok i;
      if c =? t then strcmp_loop n' s tok (i + 1)
      else Ok (if (c =? 0) || (c <? t) then -1 else 1)
  end.

Definition jsdrv_json_strcmp (s : option cstr) (token : option jsdrv_union_s) : res Z :=
  match s, token with
  | None, _ => Ok (-2)
  | Some _, None => Ok 2
  | Some s, Some t =>
      if negb (type t =? JSDRV_UNION_STR) then Ok 2
      else m ← object t; strcmp_loop (Z.to_nat (u32 (size t - 1))) (s ++ [0]) m 0
  end.

(** ** Every text is parsed inside its bounds and in bounded time *)

Section Total.
Context {S : Type} (cbk : S -> jsdrv_union_s -> Z * S) (pow : f64 -> f64 -> f64).

(** A run that does not fault, except on the [int32_t] power of ten, and that leaves
    fewer than [n] characters when it succeeds. *)
Definition good (n : nat) (o : outcome (S := S)) : Prop :=
  match o with
  | Ok (rc, s) => rc = 0 -> (length (rest s) < n)%nat
  | Fault f => f = SignedOverflow
  end.

Lemma good_mono n m o : (n <= m)%nat -> good n o -> good m o.
Proof. destruct o as [[rc s]|f]; cbn; [intros; lia | done]. Qed.

Lemma good_error n s : good n (syntax_error s).
Proof. intros H. discriminate. Qed.

Lemma good_ROE n m o k :
  good n o -> (forall s, (length (rest s) < n)%nat -> good m (k s)) -> good m (ROE o k).
Proof.
  unfold ROE. destruct o as [[rc s]|f]; cbn; [|done]. intros Ho Hk.
  destruct (rc =? 0) eqn:E; bool_facts; [apply Hk; auto | cbn; lia].
Qed.

Lemma good_emit n s t : (length (rest s) < n)%nat -> good n (emit cbk s t).
Proof. intros H. unfold emit. destruct (cbk _ _). cbn. done. Qed.

Lemma good_ROE_emit m s t k :
  (forall u, good m (k (mk_parse (rest s) (depth s) u))) -> good m (ROE (emit cbk s t) k).
Proof.
  intros Hk. unfold ROE, emit. destruct (cbk _ _) as [rc u]. cbn.
  destruct (rc =? 0) eqn:E; bool_facts; [apply Hk | cbn; lia].
Qed.

Lemma length_drop_whitespace l : (length (drop_whitespace l) <= length l)%nat.
Proof.
  induction l as [|c l IH]; cbn [drop_whitespace]; [done|].
  destruct (is_whitespace c); cbn [List.length]; lia.
Qed.

Lemma NEXT_cons (s : parse_s (S := S)) : NEXT s <> 0 -> exists c l, rest s = c :: l /\ c = NEXT s.
Proof. unfold NEXT. destruct (rest s) as [|c l]; cbn; [done | eauto]. Qed.

(** Stepping over a character that was just seen. *)
Lemma ADVANCE_ok (s : parse_s (S := S)) : NEXT s <> 0 ->
  exists s', ADVANCE s = Ok s' /\ rest s = NEXT s :: rest s'.
Proof.
  intros H. destruct (NEXT_cons s H) as (c & l & Hr & Hc). unfold ADVANCE. rewrite Hr.
  eexists; split; [done|]. cbn. by rewrite <- Hc.
Qed.

Lemma escape_hex_len n : forall l l', escape_hex n l = Some l' -> hd 0 l <> 0 ->
  (length l' <= length l)%nat /\ hd 0 l' <> 0.
Proof.
  induction n as [|n IH]; intros l l' H Hl; cbn in H; [by simplify_eq|].
  destruct l as [|c l]; [done|]. destruct (to_hex (hd 0 l) <? 0) eqn:E; [done|].
  assert (hd 0 l <> 0) as H0 by (intros H0; rewrite H0 in E; by vm_compute in E).
  destruct (IH l l' H H0) as [H1 H2]. split; [cbn [List.length]; lia | done].
Qed.

Lemma string_loop_total fuel : forall l, (length l < fuel)%nat ->
  exists r, string_loop fuel l = Ok r
    /\ match r with Some l' => (length l' <= length l)%nat /\ hd 0 l' = 34 | None => True end.
Proof.
  induction fuel as [|fuel IH]; intros l Hl; [lia|]. cbn [string_loop].
  destruct l as [|ch l1]; [by eexists|]. cbn [List.length] in Hl.
  destruct (ch =? 34) eqn:E1; bool_facts; [subst; by eexists|].
  destruct (ch =? 92) eqn:E2.
  - destruct (is_escape (hd 0 l1)) eqn:E3; [|by eexists].
    assert (hd 0 l1 <> 0) as H0 by (intros H0; by rewrite H0 in E3).
    destruct (if hd 0 l1 =? 117 then escape_hex 4 l1 else Some l1) as [l2|] eqn:E4; [|by eexists].
    assert ((length l2 <= length l1)%nat /\ hd 0 l2 <> 0) as [Hl2 Hn].
    { destruct (hd 0 l1 =? 117); [by apply escape_hex_len in E4 | simplify_eq; done]. }
    destruct l2 as [|c2 l2]; [done|]. cbn [List.length] in Hl2.
    destruct (IH l2) as (r & -> & Hr); [lia|]. eexists; split; [done|].
    destruct r; [|done]. destruct Hr. split; [cbn [List.length]; lia | done].
  - destruct (IH l1) as (r & -> & Hr); [lia|]. eexists; split; [done|].
    destruct r; [|done]. destruct Hr. split; [cbn [List.length]; lia | done].
Qed.

Lemma parse_string_good s o : good (length (rest s)) (parse_string cbk s o).
Proof.
  unfold parse_string. destruct (NEXT s =? 34) eqn:E; cbn [negb]; bool_facts; [|apply good_error].
  destruct (ADVANCE_ok s) as (s1 & -> & Hr); [lia|]. rewrite bind_Ok, Hr. cbn [List.length].
  destruct (string_loop_total (Datatypes.S (length (rest s1))) (rest s1)) as (r & -> & Hl); [lia|].
  rewrite bind_Ok. destruct r as [l|]; [|apply good_error]. destruct Hl as [Hl H34].
  apply good_ROE_emit. intros u. unfold ADVANCE. cbn [rest depth user].
  destruct l as [|c l]; [done|]. rewrite bind_Ok. intros _. cbn [rest skip_whitespace].
  pose proof (length_drop_whitespace l). cbn [List.length] in Hl. lia.
Qed.

Lemma literal_loop_len lit : forall l l', literal_loop lit l = Some l' ->
  (length l' <= length l)%nat /\ (hd 0 lit <> 0 -> (length l' < length l)%nat).
Proof.
  induction lit as [|c lit IH]; intros l l' H; cbn in H; [by simplify_eq|].
  destruct (hd 0 l =? c) eqn:E; [|done]. bool_facts. destruct (IH _ _ H) as [H1 _].
  destruct l as [|x l]; cbn [hd tl List.length] in *; [split; [lia | congruence] | lia].
Qed.

Lemma parse_literal_good s lit v : hd 0 lit <> 0 -> good (length (rest s)) (parse_literal cbk s lit v).
Proof.
  intros Hl. unfold parse_literal. destruct (literal_loop lit (rest s)) as [l|] eqn:E; [|apply good_error].
  apply literal_loop_len in E. apply good_emit. cbn. tauto.
Qed.

Lemma whole_loop_len l : forall w o, (length (whole_loop l w o).2 <= length l)%nat.
Proof.
  induction l as [|c l IH]; intros w o; cbn [whole_loop]; [done|].
  destruct (is_digit c); [|done]. case_if; (etransitivity; [apply IH | cbn; lia]).
Qed.

Lemma fract_loop_len l : forall f n, (length (fract_loop l f n).2 <= length l)%nat.
Proof.
  induction l as [|c l IH]; intros f n; cbn [fract_loop]; [done|].
  destruct (is_digit c); [|done]. etransitivity; [apply IH | cbn; lia].
Qed.

Lemma exp_loop_len l : forall w, (length (exp_loop l w).2 <= length l)%nat.
Proof.
  induction l as [|c l IH]; intros w; cbn [exp_loop]; [done|].
  destruct (is_digit c); [|done]. etransitivity; [apply IH | cbn; lia].
Qed.

Lemma pow10_loop_total n : forall p, (exists r, pow10_loop n p = Ok r) \/ pow10_loop n p = Fault SignedOverflow.
Proof.
  induction n as [|n IH]; intros p; cbn [pow10_loop]; [eauto|].
  unfold chk_i. case_if; [apply IH | by right].
Qed.

Lemma tl_len (l : cstr) : (length (tl l) <= length l)%nat.
Proof. destruct l; cbn; lia. Qed.

Lemma parse_exponent_total l f :
  match parse_exponent pow l f with
  | Ok (Some (_, l')) => (length l' <= length l)%nat
  | Ok None => True
  | Fault e => e = SignedOverflow
  end.
Proof.
  unfold parse_exponent.
  destruct (if hd 0 l =? 43 then _ else _) as [neg l1] eqn:E1.
  assert (length l1 <= length l)%nat as H1.
  { pose proof (tl_len l). repeat case_if_in E1; simplify_eq; lia. }
  destruct (is_digit (hd 0 l1)); cbn [negb]; [|done].
  pose proof (exp_loop_len l1 0) as H2. destruct (exp_loop l1 0) as [w l2]. cbn [snd] in H2.
  destruct (hd 0 l2 =? 46).
  - pose proof (fract_loop_len (tl l2) (S754_zero false) 0) as H3. pose proof (tl_len l2).
    destruct (fract_loop _ _ _) as [[fr n] l3]. cbn [snd] in H3.
    destruct (pow10_loop_total (Z.to_nat n) 1) as [[r ->]| ->]; [|done]. cbn. lia.
  - cbn. lia.
Qed.

Lemma parse_number_good s : good (length (rest s)) (parse_number cbk pow s).
Proof.
  unfold parse_number. destruct (if NEXT s =? 45 then _ else _) as [neg l1] eqn:E1.
  assert (length l1 <= length (rest s))%nat as H1.
  { pose proof (tl_len (rest s)). repeat case_if_in E1; simplify_eq; lia. }
  destruct ((hd 0 l1 =? 48) || _) eqn:Ed; [|apply good_error].
  destruct l1 as [|c l1]; [done|]. cbn [hd] in *. cbn [List.length] in H1.
  destruct (if c =? 48 then _ else _) as [[[w ov] l2] ch] eqn:E2.
  assert (length l2 <= length l1)%nat as H2.
  { case_if_in E2; [simplify_eq; cbn; lia|]. cbn [whole_loop] in E2.
    assert (is_digit c = true) as Hc by (unfold is_digit; apply orb_true_iff in Ed; bool_facts; simpl_cmp; done).
    rewrite Hc in E2. destruct (Z.quot _ _ <? 0); simplify_eq/=;
      (pose proof (whole_loop_len l1 0 true) as Ha; pose proof (whole_loop_len l1 (0 * 10 + (c - 48)) false) as Hb;
       destruct (whole_loop l1 _ _) as [[? ?] ?]; simplify_eq/=; done). }
  destruct (is_in (NEXT _) _); cbn [negb].
  - destruct (if NEXT _ =? 46 then _ else _) as [[f l3] ch3] eqn:E3.
    assert (length l3 <= length l2)%nat as H3.
    { case_if_in E3; [|simplify_eq; lia].
      pose proof (fract_loop_len (tl l2) (S754_zero false) 0) as Hf. pose proof (tl_len l2).
      destruct (fract_loop _ _ _) as [[? ?] ?]. simplify_eq/=. lia. }
    destruct ((ch3 =? 101) || _).
    + match goal with |- context [parse_exponent pow ?l ?f] => pose proof (parse_exponent_total l f) as He end.
      pose proof (tl_len l3).
      destruct (parse_exponent _ _ _) as [[[f' l4]|]|e]; cbn [mbind res_bind]; [|apply good_error|done].
      apply good_emit. cbn. lia.
    + apply good_emit. cbn. lia.
  - destruct ov; [apply good_error|]. case_if; apply good_emit; cbn; lia.
Qed.

Lemma open_level_good s o k n : NEXT s <> 0 ->
  (forall s', (length (rest s') < length (rest s))%nat -> good n (k s')) -> good n (open_level cbk s o k).
Proof.
  intros Hn Hk. unfold open_level. case_if; [apply good_error|]. apply good_ROE_emit. intros u.
  unfold ADVANCE. cbn [rest depth user]. destruct (NEXT_cons s Hn) as (c & l & Hr & _). rewrite Hr in *.
  rewrite bind_Ok. apply Hk. cbn. pose proof (length_drop_whitespace l). lia.
Qed.

Lemma close_level_good s o : NEXT s <> 0 -> good (length (rest s)) (close_level cbk s o).
Proof.
  intros Hn. unfold close_level. apply good_ROE_emit. intros u. unfold ADVANCE. cbn [rest depth user].
  destruct (NEXT_cons s Hn) as (c & l & Hr & _). rewrite Hr. intros _. cbn. lia.
Qed.

Lemma skip_len (s : parse_s (S := S)) : (length (rest (skip_whitespace s)) <= length (rest s))%nat.
Proof. apply length_drop_whitespace. Qed.

Lemma good_ADVANCE m (s : parse_s (S := S)) k : NEXT s <> 0 ->
  (forall s', (length (rest s') < length (rest s))%nat -> good m (k s')) -> good m (mbind (M := res) k (ADVANCE s)).
Proof.
  intros Hn Hk. destruct (ADVANCE_ok s Hn) as (s' & -> & Hr). rewrite bind_Ok. apply Hk. rewrite Hr. cbn; lia.
Qed.

Lemma parse_good fuel :
  (forall s, (2 * length (rest s) + 1 <= fuel)%nat -> good (length (rest s)) (parse_value cbk pow fuel s))
  /\ (forall s, (2 * length (rest s) + 2 <= fuel)%nat -> good (length (rest s)) (object_loop cbk pow fuel s))
  /\ (forall s, (2 * length (rest s) + 2 <= fuel)%nat -> good (length (rest s)) (array_loop cbk pow fuel s)).
Proof.
  induction fuel as [|fuel (IHv & IHo & IHa)]; [split_and!; intros; lia|]. split_and!; intros s Hf.
  - cbn [parse_value]. pose proof (skip_len s) as Hsk. set (s1 := skip_whitespace s) in *. clearbody s1.
    destruct (NEXT s1 =? 0) eqn:E0; bool_facts; [apply good_error|].
    apply (good_mono (length (rest s1))); [done|].
    destruct (NEXT s1 =? 123); [|destruct (NEXT s1 =? 91)].
    + apply open_level_good; [done|]. intros s' Hs'. eapply good_mono; [|apply IHo]; lia.
    + apply open_level_good; [done|]. intros s' Hs'. eapply good_mono; [|apply IHa]; lia.
    + repeat case_if; first [apply parse_string_good | by apply parse_literal_good | apply parse_number_good].
  - cbn [object_loop]. destruct (NEXT s =? 125) eqn:E; bool_facts; [apply close_level_good; lia|].
    pose proof (skip_len s).
    eapply good_ROE; [apply parse_string_good|]. intros s1 Hs1. cbn beta zeta. pose proof (skip_len s1).
    destruct (NEXT (skip_whitespace s1) =? 58) eqn:E1; cbn [negb]; bool_facts; [|apply good_error].
    apply good_ADVANCE; [lia|]. intros s2 Hs2.
    eapply good_ROE; [apply IHv; lia|]. intros s3 Hs3. cbn beta zeta. pose proof (skip_len s3).
    destruct (NEXT (skip_whitespace s3) =? 44) eqn:E2; bool_facts.
    + apply good_ADVANCE; [lia|]. intros s4 Hs4. case_if; [apply good_error|].
      eapply good_mono; [|apply IHo]; lia.
    + eapply good_mono; [|apply IHo]; lia.
  - cbn [array_loop]. destruct (NEXT s =? 93) eqn:E; bool_facts; [apply close_level_good; lia|].
    pose proof (skip_len s).
    eapply good_ROE; [apply IHv; lia|]. intros s3 Hs3. cbn beta zeta. pose proof (skip_len s3).
    destruct (NEXT (skip_whitespace s3) =? 44) eqn:E2; bool_facts.
    + apply good_ADVANCE; [lia|]. intros s4 Hs4. cbn beta zeta. pose proof (skip_len s4). case_if; [apply good_error|].
      eapply good_mono; [|apply IHa]; lia.
    + eapply good_mono; [|apply IHa]; lia.
Qed.

End Total.

(** ** The callback sees a prefix of the tokens of the text

    [gather] keeps every token.  A parse with any callback is [run] of that callback over the
    tokens that [gather] collects, up to the first non-zero code. *)

Definition gather (acc : list jsdrv_union_s) (t : jsdrv_union_s) : Z * list jsdrv_union_s := (0, acc ++ [t]).

Fixpoint run {S} (cbk : S -> jsdrv_union_s -> Z * S) (u : S) (ts : list jsdrv_union_s) : Z * S :=
  match ts with
  | [] => (0, u)
  | t :: ts => let '(rc, u) := cbk u t in if rc =? 0 then run cbk u ts else (rc, u)
  end.

Lemma run_app {S} (cbk : S -> jsdrv_union_s -> Z * S) ts ts' u :
  run cbk u (ts ++ ts') = let '(rc, u) := run cbk u ts in if rc =? 0 then run cbk u ts' else (rc, u).
Proof.
  revert u. induction ts as [|t ts IH]; intros u; cbn [Datatypes.app run]; [done|].
  destruct (cbk u t) as [rc u']. destruct (rc =? 0) eqn:E; [apply IH | by rewrite E].
Qed.

Section Stream.
Context {S : Type} (cbk : S -> jsdrv_union_s -> Z * S) (pow : f64 -> f64 -> f64).

(** [o], as a function of the callback's state, follows the gathering parse [o'] that started
    with the tokens [acc]. *)
Definition sim (acc : list jsdrv_union_s) (o : S -> outcome (S := S)) (o' : outcome (S := list jsdrv_union_s)) : Prop :=
  match o' with
  | Fault _ => True
  | Ok (rc', s') => exists ts, user s' = acc ++ ts /\ forall u,
      let '(rc, u') := run cbk u ts in
      if rc =? 0 then o u = Ok (rc', mk_parse (rest s') (depth s') u')
      else exists r d, o u = Ok (rc, mk_parse r d u')
  end.

Lemma sim_ret acc rc r d : sim acc (fun u => Ok (rc, mk_parse r d u)) (Ok (rc, mk_parse r d acc)).
Proof. exists []. by rewrite app_nil_r. Qed.

Lemma sim_emit acc r d t : sim acc (fun u => emit cbk (mk_parse r d u) t) (emit gather (mk_parse r d acc) t).
Proof.
  exists [t]. split; [done|]. intros u. unfold emit. cbn [run user rest depth].
  destruct (cbk u t) as [rc u']. destruct (rc =? 0) eqn:E; [bool_facts; by subst | rewrite E; by eauto].
Qed.

Lemma sim_ROE acc o o' k k' :
  sim acc o o' -> (forall r d acc, sim acc (fun u => k (mk_parse r d u)) (k' (mk_parse r d acc))) ->
  sim acc (fun u => ROE (o u) k) (ROE o' k').
Proof.
  intros Ho Hk. unfold sim in Ho. destruct o' as [[rc' [r d acc']]|f]; [|done].
  destruct Ho as (ts & Hts & Ho). cbn [user rest depth] in *. subst acc'. unfold ROE. rewrite bind_Ok.
  destruct (rc' =? 0) eqn:E.
  - specialize (Hk r d (acc ++ ts)). unfold sim in *. destruct (k' _) as [[rc'' s'']|f]; [|done].
    destruct Hk as (ts' & Hts' & Hk). exists (ts ++ ts'). rewrite app_assoc. split; [done|]. intros u.
    specialize (Ho u). rewrite run_app. destruct (run cbk u ts) as [rc u']. destruct (rc =? 0) eqn:E1.
    + specialize (Hk u'). rewrite Ho, bind_Ok, E. exact Hk.
    + rewrite E1. destruct Ho as (r1 & d1 & ->). rewrite bind_Ok, E1. by eauto.
  - exists ts. split; [done|]. intros u. specialize (Ho u). destruct (run cbk u ts) as [rc u'].
    destruct (rc =? 0) eqn:E1; [by rewrite Ho, bind_Ok, E|]. destruct Ho as (r1 & d1 & ->). rewrite bind_Ok, E1. by eauto.
Qed.

(** The state moves without a token. *)
Lemma sim_ADVANCE acc r d (k : parse_s -> outcome) (k' : parse_s -> outcome) :
  (forall r, sim acc (fun u => k (mk_parse r d u)) (k' (mk_parse r d acc))) ->
  sim acc (fun u => mbind (M := res) k (ADVANCE (mk_parse r d u))) (mbind (M := res) k' (ADVANCE (mk_parse r d acc))).
Proof. intros Hk. destruct r as [|c r]; [done|]. apply (Hk r). Qed.

Lemma sim_parse_string o acc r d :
  sim acc (fun u => parse_string cbk (mk_parse r d u) o) (parse_string gather (mk_parse r d acc) o).
Proof.
  unfold parse_string, NEXT. cbn [rest]. case_if; [apply sim_ret|].
  apply (sim_ADVANCE acc r d (fun s => _) (fun s => _)). intros r1. cbn [rest depth user].
  destruct (string_loop _ r1) as [[l|]|f]; [| apply sim_ret | done].
  apply sim_ROE; [apply sim_emit|]. intros r2 d2 acc2.
  apply (sim_ADVANCE acc2 r2 d2 (fun s => _) (fun s => _)). intros r3. apply sim_ret.
Qed.

Lemma sim_parse_literal lit v acc r d :
  sim acc (fun u => parse_literal cbk (mk_parse r d u) lit v) (parse_literal gather (mk_parse r d acc) lit v).
Proof. unfold parse_literal. cbn [rest depth user]. destruct (literal_loop lit r); [apply sim_emit | apply sim_ret]. Qed.

Lemma sim_parse_number acc r d :
  sim acc (fun u => parse_number cbk pow (mk_parse r d u)) (parse_number gather pow (mk_parse r d acc)).
Proof.
  unfold parse_number, NEXT. cbn [rest depth user].
  destruct (if hd 0 r =? 45 then _ else _) as [is_neg l]. case_if; [|apply sim_ret].
  destruct (if hd 0 l =? 48 then _ else _) as [[[whole ov] l1] ch]. cbn [rest depth user]. case_if.
  - destruct ov; [apply sim_ret|]. case_if; apply sim_emit.
  - destruct (if hd 0 l1 =? 46 then _ else _) as [[f l2] ch']. case_if; [|apply sim_emit].
    destruct (parse_exponent _ _ _) as [[[f' l3]|]|ft]; [apply sim_emit | apply sim_ret | done].
Qed.

Lemma sim_open_level o k k' acc r d :
  (forall r d acc, sim acc (fun u => k (mk_parse r d u)) (k' (mk_parse r d acc))) ->
  sim acc (fun u => open_level cbk (mk_parse r d u) o k) (open_level gather (mk_parse r d acc) o k').
Proof.
  intros Hk. unfold open_level. cbn [rest depth user]. case_if; [apply sim_ret|].
  apply sim_ROE; [apply sim_emit|]. intros r2 d2 acc2.
  apply (sim_ADVANCE acc2 r2 d2 (fun s => _) (fun s => _)). intros r3. apply Hk.
Qed.

Lemma sim_close_level o acc r d :
  sim acc (fun u => close_level cbk (mk_parse r d u) o) (close_level gather (mk_parse r d acc) o).
Proof.
  apply sim_ROE; [apply sim_emit|]. intros r2 d2 acc2.
  apply (sim_ADVANCE acc2 r2 d2 (fun s => _) (fun s => _)). intros r3. apply sim_ret.
Qed.

Lemma sim_parse fuel :
  (forall r d acc, sim acc (fun u => parse_value cbk pow fuel (mk_parse r d u)) (parse_value gather pow fuel (mk_parse r d acc)))
  /\ (forall r d acc, sim acc (fun u => object_loop cbk pow fuel (mk_parse r d u)) (object_loop gather pow fuel (mk_parse r d acc)))
  /\ (forall r d acc, sim acc (fun u => array_loop cbk pow fuel (mk_parse r d u)) (array_loop gather pow fuel (mk_parse r d acc))).
Proof.
  induction fuel as [|fuel (IHv & IHo & IHa)]; [done|]. split_and!; intros r d acc.
  - cbn [parse_value]. unfold skip_whitespace, NEXT. cbn [rest depth user].
    repeat case_if; first [apply sim_ret | by apply sim_open_level | apply sim_parse_string
                          | apply sim_parse_literal | apply sim_parse_number].
  - cbn [object_loop]. unfold skip_whitespace, NEXT. cbn [rest depth user]. case_if; [apply sim_close_level|].
    apply sim_ROE; [apply sim_parse_string|]. intros r1 d1 acc1. cbn [rest depth user].
    case_if; [apply sim_ret|].
    apply (sim_ADVANCE acc1 _ d1 (fun s => _) (fun s => _)). intros r2.
    apply sim_ROE; [apply IHv|]. intros r3 d3 acc3. cbn [rest depth user]. case_if; [|apply IHo].
    apply (sim_ADVANCE acc3 _ d3 (fun s => _) (fun s => _)). intros r4. cbn [rest]. case_if; [apply sim_ret | apply IHo].
  - cbn [array_loop]. unfold skip_whitespace, NEXT. cbn [rest depth user]. case_if; [apply sim_close_level|].
    apply sim_ROE; [apply IHv|]. intros r3 d3 acc3. cbn [rest depth user].
    case_if; [|apply IHa].
    apply (sim_ADVANCE acc3 _ d3 (fun s => _) (fun s => _)). intros r4. cbn [rest depth user].
    case_if; [apply sim_ret | apply IHa].
Qed.

(** A parse that would report the tokens [ts] with code [rc] reports to the callback the
    tokens up to its first non-zero code. *)
Lemma parse_run json u rc ts :
  jsdrv_json_parse gather pow (Some json) [] = Ok (rc, ts) ->
  jsdrv_json_parse cbk pow (Some json) u
  = Ok (let '(c, u) := run cbk u ts in (if c =? 0 then rc else if c =? EC_ABORTED then 0 else c, u)).
Proof.
  unfold jsdrv_json_parse. intros H. destruct (sim_parse (parse_fuel json)) as (Hs & _ & _).
  specialize (Hs json 0 []). unfold sim in Hs. destruct (parse_value gather _ _ _) as [[rc' s']|f]; [|done].
  rewrite bind_Ok in H. injection H as <- <-. destruct Hs as (ts & -> & Hs). cbn [Datatypes.app]. specialize (Hs u).
  destruct (run cbk u ts) as [c u']. destruct (c =? 0); [by rewrite Hs|]. by destruct Hs as (r & d & ->).
Qed.
End Stream.

(** ** Printing and parsing *)

Inductive json :=
  | JNull
  | JBool (b : bool)
  | JInt (z : Z)
  | JStr (s : cstr)
  | JArr (l : jlist)
  | JObj (l : jmembers)
with jlist :=
  | JNil
  | JCons (v : json) (l : jlist)
with jmembers :=
  | MNil
  | MCons (k : cstr) (v : json) (l : jmembers).

Scheme json_mut := Induction for json Sort Prop
  with jlist_mut := Induction for jlist Sort Prop
  with jmembers_mut := Induction for jmembers Sort Prop.
Combined Scheme json_mutind from json_mut, jlist_mut, jmembers_mut.

Definition print_str (s : cstr) : cstr := 34 :: s ++ [34].

Fixpoint print (v : json) : cstr :=
  match v with
  | JNull => str "null"
  | JBool b => if b then str "true" else str "false"
  | JInt z => fmt_d z
  | JStr s => print_str s
  | JArr l => 91 :: print_list l ++ [93]
  | JObj l => 123 :: print_members l ++ [125]
  end
with print_list (l : jlist) : cstr :=
  match l with
  | JNil => []
  | JCons v JNil => print v
  | JCons v l => print v ++ 44 :: print_list l
  end
with print_members (l : jmembers) : cstr :=
  match l with
  | MNil => []
  | MCons k v MNil => print_str k ++ 58 :: print v
  | MCons k v l => print_str k ++ 58 :: print v ++ 44 :: print_members l
  end.

(** What a consumer reads off a token. *)
Inductive token :=
  | TString (op : Z) (s : cstr)
  | TInt (z : Z)
  | TDelim (op : Z)
  | TOther.

Definition view (t : jsdrv_union_s) : token :=
  if type t =? JSDRV_UNION_NULL then TDelim (op t)
  else if type t =? JSDRV_UNION_STR then
    match value t with Mem (Some m) => TString (op t) (take (Z.to_nat (size t - 1)) m) | _ => TOther end
  else match int_value t with Some z => TInt z | None => TOther end.

Fixpoint tokens (v : json) : list token :=
  match v with
  | JNull => [TDelim JSDRV_JSON_VALUE]
  | JBool b => [TInt (if b then 1 else 0)]
  | JInt z => [TInt z]
  | JStr s => [TString JSDRV_JSON_VALUE s]
  | JArr l => TDelim JSDRV_JSON_ARRAY_START :: tokens_list l ++ [TDelim JSDRV_JSON_ARRAY_END]
  | JObj l => TDelim JSDRV_JSON_OBJ_START :: tokens_members l ++ [TDelim JSDRV_JSON_OBJ_END]
  end
with tokens_list (l : jlist) : list token :=
  match l with
  | JNil => []
  | JCons v l => tokens v ++ tokens_list l
  end
with tokens_members (l : jmembers) : list token :=
  match l with
  | MNil => []
  | MCons k v l => TString JSDRV_JSON_KEY k :: tokens v ++ tokens_members l
  end.

(** The token itself: a string points into the text, its size counts the closing quote. *)
Definition tok_is (t : jsdrv_union_s) (k : token) : Prop :=
  match k with
  | TString o s => len s + 1 < 2 ^ 32 /\ exists m,
      t = mk_union JSDRV_UNION_STR JSDRV_UNION_FLAG_CONST o 0 (len s + 1) (Mem (Some (s ++ 34 :: m ++ [0])))
  | TInt z => is_s 64 z /\ t = if (I32_MIN <=? z) && (z <=? I32_MAX) then jsdrv_union_i32 z else jsdrv_union_i64 z
  | TDelim o => t = delim o
  | TOther => False
  end.

Fixpoint jdepth (v : json) : Z :=
  match v with
  | JArr l => 1 + jdepth_list l
  | JObj l => 1 + jdepth_members l
  | _ => 0
  end
with jdepth_list (l : jlist) : Z :=
  match l with JNil => 0 | JCons v l => Z.max (jdepth v) (jdepth_list l) end
with jdepth_members (l : jmembers) : Z :=
  match l with MNil => 0 | MCons _ v l => Z.max (jdepth v) (jdepth_members l) end.

(** Integers of 64 bits (but the least), strings without quotes, escapes and zeros. *)
Definition plain (s : cstr) : Prop := Forall (fun c => c <> 34 /\ c <> 92 /\ c <> 0) s.
Fixpoint wf_json (v : json) : Prop :=
  match v with
  | JInt z => I64_MIN < z <= I64_MAX
  | JStr s => plain s
  | JArr l => wf_list l
  | JObj l => wf_members l
  | _ => True
  end
with wf_list (l : jlist) : Prop :=
  match l with JNil => True | JCons v l => wf_json v /\ wf_list l end
with wf_members (l : jmembers) : Prop :=
  match l with MNil => True | MCons k v l => plain k /\ wf_json v /\ wf_members l end.

(** The callback that collects the tokens. *)
Definition collect (acc : list token) (t : jsdrv_union_s) : Z * list token := (0, acc ++ [view t]).

(** *** Pieces of the round trip *)

(** What may follow a printed value. *)
Definition follow (k : cstr) : Prop := hd 0 k = 0 \/ hd 0 k = 44 \/ hd 0 k = 93 \/ hd 0 k = 125.

Lemma follow_no_ws k : follow k -> drop_whitespace k = k.
Proof. intros H. destruct k as [|c k]; [done|]. by destruct H as [H|[H|[H|H]]]; cbn in H; subst c. Qed.

Lemma dec_digits_spec n : forall v acc, 0 <= v < 10 ^ Z.of_nat n -> (0 < n)%nat ->
  exists ds, dec_digits n v acc = ds ++ acc /\ Forall digit ds /\ dec_value ds 0 = v
    /\ (v = 0 -> ds = [48]) /\ (0 < v -> 49 <= hd 0 ds <= 57) /\ ds <> [].
Proof.
  induction n as [|n IH]; intros v acc Hv Hn; [lia|]. cbn [dec_digits].
  pose proof (Z.mod_pos_bound v 10 ltac:(lia)) as Hm. case_if.
  - exists [48 + v mod 10]. rewrite Z.mod_small by lia.
    split_and!; [done | repeat constructor; lia | cbn; lia | by intros -> | cbn; lia | done].
  - rewrite Nat2Z.inj_succ, Z.pow_succ_r in Hv by lia.
    assert (0 < v / 10 < 10 ^ Z.of_nat n) as Hq
      by (split; [apply Z.div_str_pos; lia | apply Z.div_lt_upper_bound; lia]).
    assert (0 < n)%nat by (destruct n; [cbn in Hv; lia | lia]).
    destruct (IH (v / 10) ((48 + v mod 10) :: acc)) as (ds & -> & Hd & Hval & _ & Hhd & Hne); [lia | done |].
    exists (ds ++ [48 + v mod 10]). rewrite <- app_assoc. split_and!; [done | | | lia | |].
    + apply Forall_app; split; [done|]. repeat constructor; lia.
    + rewrite dec_value_app, Hval. cbn. pose proof (Z.div_mod v 10). lia.
    + intros _. destruct ds; [done|]. cbn in *. lia.
    + by destruct ds.
Qed.

Lemma whole_loop_digits ds : forall w k,
  Forall digit ds -> 0 <= w -> dec_value ds w <= I64_MAX -> follow k ->
  whole_loop (ds ++ k) w false = (dec_value ds w, false, k).
Proof.
  induction ds as [|c ds IH]; intros w k Hd Hw Hmax Hk.
  - cbn [Datatypes.app dec_value fold_left]. destruct k as [|c k]; [done|]. cbn [whole_loop].
    by destruct Hk as [H|[H|[H|H]]]; cbn in H; subst c.
  - apply Forall_cons_1 in Hd as [Hc Hd]. unfold digit in Hc. cbn [Datatypes.app whole_loop].
    assert (is_digit c = true) as -> by (unfold is_digit; simpl_cmp; done).
    change (dec_value (c :: ds) w) with (dec_value ds (w * 10 + (c - 48))) in *.
    pose proof (dec_value_ge ds (w * 10 + (c - 48)) Hd ltac:(lia)).
    rewrite Z.quot_div_nonneg by lia.
    rewrite (proj2 (Z.ltb_ge _ w)) by (apply Z.div_le_lower_bound; lia). apply IH; done || lia.
Qed.

Section RoundTrip.
Context (pow : f64 -> f64 -> f64).

Lemma emit_gather s t : emit gather s t = Ok (0, mk_parse (rest s) (depth s) (user s ++ [t])).
Proof. reflexivity. Qed.

Lemma ADVANCE_cons {S} c r d (u : S) : ADVANCE (mk_parse (c :: r) d u) = Ok (mk_parse r d u).
Proof. reflexivity. Qed.

Lemma skip_ok {S} r d (u : S) : drop_whitespace r = r -> skip_whitespace (mk_parse r d u) = mk_parse r d u.
Proof. unfold skip_whitespace. cbn [rest depth user]. by intros ->. Qed.

Lemma NEXT_mk {S} c r d (u : S) : NEXT (mk_parse (c :: r) d u) = c.
Proof. reflexivity. Qed.

Lemma view_i64 z : is_s 64 z -> view (jsdrv_union_i64 z) = TInt z.
Proof.
  intros Hz. unfold view, int_value; cbn. f_equal. apply swrap_narrow; [lia | | done].
  unfold uwrap. by rewrite Zmod_mod.
Qed.
Lemma view_i32 z : is_s 32 z -> view (jsdrv_union_i32 z) = TInt z.
Proof.
  intros Hz. unfold view, int_value; cbn. rewrite (swrap_small 32 z) by (done || lia). f_equal.
  apply swrap_narrow; [lia | | done]. unfold uwrap. by rewrite Zmod_mod.
Qed.

Lemma number_roundtrip z k d u :
  I64_MIN < z <= I64_MAX -> follow k ->
  exists t, tok_is t (TInt z)
    /\ parse_number gather pow (mk_parse (fmt_d z ++ k) d u) = Ok (0, mk_parse k d (u ++ [t])).
Proof.
  intros Hz Hk. eexists; split; [split; [width_lia | reflexivity]|].
  destruct (dec_digits_spec 20 (Z.abs z) []) as (ds & Hds & Hdig & Hval & H0 & Hpos & Hne); [lia | lia |].
  rewrite app_nil_r in Hds.
  assert (fmt_d z = (if z <? 0 then [45] else []) ++ ds) as ->.
  { unfold fmt_d. rewrite <- Hds. case_if; [replace (- z) with (Z.abs z) by lia | replace (Z.abs z) with z by lia]; done. }
  unfold parse_number, NEXT. cbn [rest depth user].
  assert (exists c ds', ds = c :: ds' /\ digit c) as (c & ds' & Hcons & Hc).
  { destruct ds as [|c ds']; [done|]. apply Forall_cons_1 in Hdig as [? _]. eauto. }
  match goal with |- context [if ?b =? 45 then ?x else ?y] =>
    assert ((if b =? 45 then x else y) = (z <? 0, ds ++ k)) as -> end.
  { destruct (z <? 0); [done|]. rewrite Hcons. cbn [Datatypes.app hd]. unfold digit in Hc. by simpl_cmp. }
  assert ((hd 0 (ds ++ k) =? 48) || ((49 <=? hd 0 (ds ++ k)) && (hd 0 (ds ++ k) <=? 57)) = true) as ->.
  { rewrite Hcons. cbn [Datatypes.app hd]. unfold digit in Hc. apply orb_true_iff. rewrite Z.eqb_eq, andb_true_iff, !Z.leb_le. lia. }
  match goal with |- context [if hd 0 (ds ++ k) =? 48 then ?x else ?y] =>
    assert ((if hd 0 (ds ++ k) =? 48 then x else y)
            = (Z.abs z, false, k, if hd 0 (ds ++ k) =? 48 then 48 else hd 0 k)) as -> end.
  { destruct (Z.eq_dec z 0) as [->|Hnz].
    - rewrite H0 by done. reflexivity.
    - specialize (Hpos ltac:(lia)). rewrite Hcons in Hpos |- *. cbn [Datatypes.app hd] in *. simpl_cmp.
      change (c :: ds' ++ k) with ((c :: ds') ++ k). rewrite <- Hcons.
      rewrite whole_loop_digits by (done || lia). by rewrite Hval. }
  cbn [rest].
  assert (is_in (hd 0 k) [46; 101; 69] = false) as ->.
  { by destruct Hk as [->|[->|[->| ->]]]. }
  cbn [negb]. assert ((if z <? 0 then - Z.abs z else Z.abs z) = z) as -> by (case_if; lia).
  by case_if; rewrite emit_gather; cbn [rest depth user].
Qed.

Lemma string_loop_plain s : forall fuel k, plain s -> (length s < fuel)%nat ->
  string_loop fuel (s ++ 34 :: k) = Ok (Some (34 :: k)).
Proof.
  induction s as [|c s IH]; intros fuel k Hp Hf; (destruct fuel as [|fuel]; [lia|]); cbn [Datatypes.app string_loop]; [done|].
  apply Forall_cons_1 in Hp as [(H1 & H2 & _) Hp]. cbn [List.length] in Hf.
  rewrite (proj2 (Z.eqb_neq c 34)), (proj2 (Z.eqb_neq c 92)) by done. apply IH; [done | lia].
Qed.

Lemma string_roundtrip s k d u o :
  plain s -> len s + len k < 2 ^ 32 - 2 ->
  exists t, tok_is t (TString o s)
    /\ parse_string gather (mk_parse (print_str s ++ k) d u) o = Ok (0, mk_parse (drop_whitespace k) d (u ++ [t])).
Proof.
  intros Hp Hl. eexists; split; [split; [pose proof (len_nonneg k); lia | exists k; reflexivity]|]. pose proof (len_nonneg s); pose proof (len_nonneg k). unfold parse_string, print_str, NEXT.
  cbn [rest Datatypes.app hd depth user]. change (34 =? 34) with true. cbn [negb].
  rewrite ADVANCE_cons, bind_Ok. cbn [rest depth user].
  rewrite <- app_assoc. cbn [Datatypes.app].
  rewrite string_loop_plain, bind_Ok by (done || (rewrite length_app; cbn; lia)).
  unfold ROE. rewrite emit_gather, bind_Ok. change (0 =? 0) with true. cbn [rest depth user].
  rewrite ADVANCE_cons, bind_Ok. unfold skip_whitespace. cbn [rest depth user].
  do 5 f_equal. rewrite len_app, len_cons. rewrite uwrap_small by width_lia.
  rewrite <- app_assoc. cbn [Datatypes.app]. f_equal. lia.
Qed.

Lemma literal_roundtrip lit v k d u :
  parse_literal gather (mk_parse (lit ++ k) d u) lit v = Ok (0, mk_parse k d (u ++ [v])).
Proof.
  assert (literal_loop lit (lit ++ k) = Some k) as Hl.
  { induction lit as [|c lit IH]; [done|]. cbn [Datatypes.app literal_loop hd tl]. by rewrite Z.eqb_refl. }
  unfold parse_literal. cbn [rest]. by rewrite Hl.
Qed.

(** The first character of a printed value. *)
Definition starts (l : cstr) : Prop :=
  exists c r, l = c :: r /\ is_whitespace c = false /\ c <> 0 /\ c <> 93 /\ c <> 125.

Lemma starts_no_ws l k : starts l -> drop_whitespace (l ++ k) = l ++ k.
Proof. intros (c & r & -> & Hw & _). cbn [Datatypes.app drop_whitespace]. by rewrite Hw. Qed.

Lemma starts_next l k : starts l ->
  hd 0 (l ++ k) <> 0 /\ hd 0 (l ++ k) <> 93 /\ hd 0 (l ++ k) <> 125.
Proof. by intros (c & r & -> & Hw & H). Qed.

Lemma fmt_d_starts z : I64_MIN < z <= I64_MAX ->
  exists c r, fmt_d z = c :: r /\ (c = 45 \/ digit c).
Proof.
  intros Hz. unfold fmt_d. case_if; [eauto|].
  destruct (dec_digits_spec 20 z []) as (ds & -> & Hd & _ & _ & _ & Hne); [lia | lia |].
  rewrite app_nil_r. destruct ds as [|c r]; [done|]. apply Forall_cons_1 in Hd as [Hd _]. eauto.
Qed.

Lemma print_starts v : wf_json v -> starts (print v).
Proof.
  intros Hw. destruct v as [|b|z|s|l|l]; cbn [print wf_json] in *.
  - by eexists _, _.
  - destruct b; by eexists _, _.
  - destruct (fmt_d_starts z Hw) as (c & r & -> & Hc). exists c, r. unfold digit in Hc.
    split; [done|]. split; [|lia]. unfold is_whitespace, is_in, WHITESPACE. cbn [existsb]. by simpl_cmp.
  - by eexists _, _.
  - by eexists _, _.
  - by eexists _, _.
Qed.

Lemma ROE_ok {S} (s : parse_s (S := S)) k : ROE (Ok (0, s)) k = k s.
Proof. reflexivity. Qed.

Lemma close_level_ok c k d u o : close_level gather (mk_parse (c :: k) d u) o
  = Ok (0, mk_parse k (d - 1) (u ++ [delim o])).
Proof. reflexivity. Qed.

Lemma open_level_ok c k d u o f : d < DEPTH_MAX -> drop_whitespace k = k ->
  open_level gather (mk_parse (c :: k) d u) o f = f (mk_parse k (d + 1) (u ++ [delim o])).
Proof.
  intros Hd Hk. unfold open_level. cbn [rest depth user]. simpl_cmp.
  rewrite emit_gather, ROE_ok. cbn [rest depth user]. rewrite ADVANCE_cons, bind_Ok.
  unfold skip_whitespace. cbn [rest depth user]. by rewrite Hk.
Qed.

Lemma print_list_no_ws l k : wf_list l -> drop_whitespace (print_list l ++ 93 :: k) = print_list l ++ 93 :: k.
Proof.
  intros Hw. destruct l as [|v l]; [done|]. destruct Hw as [Hv _]. cbn [print_list].
  destruct l; [by apply starts_no_ws, print_starts|]. rewrite <- app_assoc. by apply starts_no_ws, print_starts.
Qed.

Lemma print_list_cons v l k :
  print_list (JCons v l) ++ 93 :: k = print v ++ match l with JNil => 93 :: k | _ => 44 :: print_list l ++ 93 :: k end.
Proof. destruct l; cbn [print_list]; [done|]. by rewrite <- app_assoc. Qed.

Lemma print_members_cons x v l k :
  print_members (MCons x v l) ++ 125 :: k
  = print_str x ++ 58 :: print v ++ match l with MNil => 125 :: k | _ => 44 :: print_members l ++ 125 :: k end.
Proof. destruct l; cbn [print_members]; rewrite <- app_assoc; cbn [Datatypes.app]; [done|]. by rewrite <- app_assoc. Qed.

Definition fits (l : cstr) : Prop := len l < 2 ^ 32 - 2.
(** A run that succeeds on the rest [k] of the text and has added the tokens [ks]. *)
Definition reads (o : outcome) (k : cstr) (d : Z) (u : list jsdrv_union_s) (ks : list token) : Prop :=
  exists ts, Forall2 tok_is ts ks /\ o = Ok (0, mk_parse k d (u ++ ts)).
Definition value_ok (v : json) : Prop := forall k d u fuel,
  wf_json v -> follow k -> 0 <= d -> d + jdepth v <= DEPTH_MAX -> fits (print v ++ k) ->
  (2 * length (print v ++ k) + 1 <= fuel)%nat ->
  reads (parse_value gather pow fuel (mk_parse (print v ++ k) d u)) k d u (tokens v).
Definition list_ok (l : jlist) : Prop := forall k d u fuel,
  wf_list l -> 0 <= d -> d + jdepth_list l <= DEPTH_MAX -> fits (print_list l ++ 93 :: k) ->
  (2 * length (print_list l ++ 93%Z :: k) + 2 <= fuel)%nat ->
  reads (array_loop gather pow fuel (mk_parse (print_list l ++ 93 :: k) d u)) k (d - 1) u
    (tokens_list l ++ [TDelim JSDRV_JSON_ARRAY_END]).
Definition members_ok (l : jmembers) : Prop := forall k d u fuel,
  wf_members l -> 0 <= d -> d + jdepth_members l <= DEPTH_MAX -> fits (print_members l ++ 125 :: k) ->
  (2 * length (print_members l ++ 125%Z :: k) + 2 <= fuel)%nat ->
  reads (object_loop gather pow fuel (mk_parse (print_members l ++ 125 :: k) d u)) k (d - 1) u
    (tokens_members l ++ [TDelim JSDRV_JSON_OBJ_END]).

(** Rewrite with a run of the parser, which the goal may show unfolded. *)
Ltac use_run H :=
  lazymatch type of H with ?lhs = _ =>
    match goal with
    | |- context [ROE ?x _] => change x with lhs; rewrite H
    | |- reads ?x _ _ _ _ => change x with lhs; rewrite H
    end
  end.

Lemma tok_one t k : tok_is t k -> Forall2 tok_is [t] [k].
Proof. by repeat constructor. Qed.

Lemma list_nil_ok : list_ok JNil.
Proof.
  intros k d u [|fuel] _ _ _ _ Hf; [cbn in Hf; lia|]. exists [delim JSDRV_JSON_ARRAY_END].
  split; [by apply tok_one | reflexivity].
Qed.
Lemma members_nil_ok : members_ok MNil.
Proof.
  intros k d u [|fuel] _ _ _ _ Hf; [cbn in Hf; lia|]. exists [delim JSDRV_JSON_OBJ_END].
  split; [by apply tok_one | reflexivity].
Qed.

Lemma list_cons_ok v l : value_ok v -> list_ok l -> list_ok (JCons v l).
Proof.
  intros IHv IHl k d u [|fuel] [Hv Hl] Hd Hdep Hfit Hf; [lia|]. cbn [jdepth_list] in Hdep.
  rewrite print_list_cons in *. pose proof (print_starts v Hv) as Hst. cbn [array_loop].
  set (k' := match l with JNil => _ | _ => _ end) in *.
  destruct (starts_next _ k' Hst) as (_ & H93 & _).
  rewrite (proj2 (Z.eqb_neq (NEXT _) 93)) by done.
  rewrite (skip_ok (print v ++ k')) by (by apply starts_no_ws).
  destruct (IHv k' d u fuel) as (tv & Htv & He); [done | destruct l; red; cbn; lia | done | lia | done | lia |]. use_run He. clear He.
  rewrite ROE_ok. cbn beta zeta. cbn [tokens_list]. rewrite length_app in Hf.
  unfold fits in *. rewrite len_app in Hfit. pose proof (len_nonneg (print v)).
  destruct l as [|v' l'] eqn:El; subst k'.
  - rewrite skip_ok by done. rewrite NEXT_mk. change (93 =? 44) with false.
    destruct fuel as [|fuel]; [lia|]. cbn [array_loop]. rewrite NEXT_mk. change (93 =? 93) with true.
    rewrite close_level_ok. cbn [tokens_list]. exists (tv ++ [delim JSDRV_JSON_ARRAY_END]).
    rewrite app_nil_r, app_assoc. split; [apply Forall2_app; [done | by apply tok_one] | done].
  - rewrite <- El in *. rewrite skip_ok by done. rewrite NEXT_mk. change (44 =? 44) with true. cbv iota.
    rewrite ADVANCE_cons, bind_Ok. rewrite skip_ok by (by apply print_list_no_ws).
    cbn [List.length] in Hf. rewrite len_cons in Hfit.
    rewrite (proj2 (Z.eqb_neq (NEXT _) 93)).
    2: { rewrite El in Hl |- *. destruct Hl as [Hv' _]. rewrite print_list_cons.
         by apply starts_next, print_starts. }
    destruct (IHl k d (u ++ tv) fuel) as (tl & Htl & He); [done | done | lia | unfold fits; lia | lia |]. use_run He. clear He.
    exists (tv ++ tl). rewrite <- !app_assoc. split; [by apply Forall2_app | done].
Qed.

Lemma members_cons_ok x v l : value_ok v -> members_ok l -> members_ok (MCons x v l).
Proof.
  intros IHv IHl k d u [|fuel] (Hx & Hv & Hl) Hd Hdep Hfit Hf; [lia|]. cbn [jdepth_members] in Hdep.
  rewrite print_members_cons in *. cbn [object_loop].
  set (k' := match l with MNil => _ | _ => _ end) in *.
  unfold fits in *. rewrite length_app in Hf. rewrite len_app, len_cons in Hfit. cbn [List.length] in Hf.
  assert (len (print_str x) = len x + 2) as Hlx
    by (unfold print_str; rewrite len_cons, len_app; change (len [34]) with 1; lia).
  pose proof (len_nonneg x).
  change (NEXT (mk_parse (print_str x ++ 58 :: print v ++ k') d u)) with 34. change (34 =? 125) with false. cbv iota.
  rewrite (skip_ok (print_str x ++ _)) by done.
  destruct (string_roundtrip x (58 :: print v ++ k') d u JSDRV_JSON_KEY) as (tx & Htx & ->);
    [done | rewrite len_cons; lia |].
  rewrite ROE_ok. cbn beta zeta. rewrite skip_ok by done.
  change (drop_whitespace (58 :: print v ++ k')) with (58 :: print v ++ k').
  rewrite NEXT_mk. change (58 =? 58) with true. cbn [negb]. rewrite ADVANCE_cons, bind_Ok.
  destruct (IHv k' d (u ++ [tx]) fuel) as (tv & Htv & He);
    [done | destruct l; red; cbn; lia | done | lia | unfold fits; lia | lia |]. use_run He. clear He.
  rewrite ROE_ok. cbn beta zeta. cbn [tokens_members]. rewrite length_app in Hf.
  rewrite len_app in Hfit. pose proof (len_nonneg (print v)).
  destruct l as [|x' v' l'] eqn:El; subst k'.
  - rewrite skip_ok by done. rewrite NEXT_mk. change (125 =? 44) with false.
    destruct fuel as [|fuel]; [lia|]. cbn [object_loop]. rewrite NEXT_mk. change (125 =? 125) with true.
    rewrite close_level_ok. cbn [tokens_members]. exists (tx :: tv ++ [delim JSDRV_JSON_OBJ_END]).
    rewrite app_nil_r. split; [constructor; [done | apply Forall2_app; [done | by apply tok_one]]|].
    rewrite <- !app_assoc. done.
  - rewrite <- El in *. rewrite skip_ok by done. rewrite NEXT_mk. change (44 =? 44) with true. cbv iota.
    rewrite ADVANCE_cons, bind_Ok. cbn [List.length] in Hf. rewrite len_cons in Hfit.
    rewrite (proj2 (Z.eqb_neq (NEXT _) 125)) by (by rewrite El, print_members_cons).
    destruct (IHl k d ((u ++ [tx]) ++ tv) fuel) as (tl & Htl & He); [done | done | lia | unfold fits; lia | lia |]. use_run He. clear He.
    exists (tx :: tv ++ tl). rewrite <- !app_assoc. split; [|done]. cbn [Datatypes.app]. constructor; [done|].
    rewrite <- app_assoc. by apply Forall2_app.
Qed.

Lemma print_members_no_ws l k :
  drop_whitespace (print_members l ++ 125 :: k) = print_members l ++ 125 :: k.
Proof. destruct l; [done|]. by rewrite print_members_cons. Qed.

Lemma jdepth_nonneg : (forall v, 0 <= jdepth v) /\ (forall l, 0 <= jdepth_list l) /\ (forall l, 0 <= jdepth_members l).
Proof. apply json_mutind; intros; cbn [jdepth jdepth_list jdepth_members]; lia. Qed.

Lemma roundtrip_ok : (forall v, value_ok v) /\ (forall l, list_ok l) /\ (forall l, members_ok l).
Proof.
  apply json_mutind; auto using list_nil_ok, members_nil_ok, list_cons_ok, members_cons_ok;
    [| intros b | intros z | intros s | intros l IH | intros l IH].
  all: intros k d u [|fuel] Hw Hk Hd Hdep Hfit Hf; [lia|]; cbn [parse_value].
  all: rewrite skip_ok by (by apply starts_no_ws, print_starts).
  - exists [jsdrv_union_null]. split; [by apply tok_one | apply literal_roundtrip].
  - exists [jsdrv_union_i32 (if b then 1 else 0)]. split; [apply tok_one; by destruct b|].
    destruct b; [apply (literal_roundtrip (str "true")) | apply (literal_roundtrip (str "false"))].
  - cbn [print wf_json tokens] in *. destruct (number_roundtrip z k d u Hw Hk) as (t & Ht & He).
    exists [t]. split; [by apply tok_one|]. rewrite <- He.
    destruct (fmt_d_starts z Hw) as (c & r & -> & Hc). cbn [Datatypes.app]. rewrite NEXT_mk. unfold digit in Hc.
    by simpl_cmp.
  - cbn [print wf_json tokens] in *. unfold fits in Hfit.
    assert (len s + len k < 2 ^ 32 - 2).
    { unfold print_str in Hfit. cbn [Datatypes.app] in Hfit. rewrite len_cons, !len_app in Hfit. pose proof (len_nonneg [34]); lia. }
    change (NEXT (mk_parse (print_str s ++ k) d u)) with 34. change (34 =? 34) with true.
    change (34 =? 0) with false. change (34 =? 123) with false. change (34 =? 91) with false. cbv iota.
    destruct (string_roundtrip s k d u JSDRV_JSON_VALUE) as (t & Ht & ->); [done | done |].
    exists [t]. split; [by apply tok_one|]. by rewrite follow_no_ws.
  - cbn [print wf_json tokens jdepth] in *. destruct jdepth_nonneg as (_ & Hj & _). specialize (Hj l).
    cbn [Datatypes.app] in *. rewrite <- app_assoc in *. cbn [Datatypes.app] in *. unfold fits in Hfit.
    rewrite len_cons in Hfit. cbn [List.length] in Hf. rewrite NEXT_mk.
    change (91 =? 0) with false. change (91 =? 123) with false. change (91 =? 91) with true. cbv iota.
    rewrite open_level_ok by (lia || by apply print_list_no_ws).
    destruct (IH k (d + 1) (u ++ [delim JSDRV_JSON_ARRAY_START]) fuel) as (ts & Hts & He);
      [done | lia | lia | unfold fits; lia | lia |]. use_run He. clear He.
    exists (delim JSDRV_JSON_ARRAY_START :: ts). split; [by constructor|]. rewrite <- !app_assoc. do 3 f_equal. lia.
  - cbn [print wf_json tokens jdepth] in *. destruct jdepth_nonneg as (_ & _ & Hj). specialize (Hj l).
    cbn [Datatypes.app] in *. rewrite <- app_assoc in *. cbn [Datatypes.app] in *. unfold fits in Hfit.
    rewrite len_cons in Hfit. cbn [List.length] in Hf. rewrite NEXT_mk.
    change (123 =? 0) with false. change (123 =? 123) with true. cbv iota.
    rewrite open_level_ok by (lia || by apply print_members_no_ws).
    destruct (IH k (d + 1) (u ++ [delim JSDRV_JSON_OBJ_START]) fuel) as (ts & Hts & He);
      [done | lia | lia | unfold fits; lia | lia |]. use_run He. clear He.
    exists (delim JSDRV_JSON_OBJ_START :: ts). split; [by constructor|]. rewrite <- !app_assoc. do 3 f_equal. lia.
Qed.

(** The tokens of a printed value, and what a callback makes of them. *)
Lemma gather_tokens v :
  wf_json v -> jdepth v <= DEPTH_MAX -> len (print v) < 2 ^ 32 - 2 ->
  exists ts, Forall2 tok_is ts (tokens v) /\ jsdrv_json_parse gather pow (Some (print v)) [] = Ok (0, ts).
Proof.
  intros Hw Hd Hl. destruct roundtrip_ok as (Hv & _ & _).
  destruct (Hv v [] 0 [] (parse_fuel (print v))) as (ts & Hts & He);
    rewrite ?app_nil_r; [done | by left | done | lia | done | unfold parse_fuel; lia |].
  exists ts. split; [done|]. unfold jsdrv_json_parse. rewrite app_nil_r in He. by rewrite He.
Qed.

Lemma parse_printed {S} (cbk : S -> jsdrv_union_s -> Z * S) v u :
  wf_json v -> jdepth v <= DEPTH_MAX -> len (print v) < 2 ^ 32 - 2 ->
  exists ts, Forall2 tok_is ts (tokens v) /\ jsdrv_json_parse cbk pow (Some (print v)) u
    = Ok (let '(c, u) := run cbk u ts in (if c =? EC_ABORTED then 0 else c, u)).
Proof.
  intros Hw Hd Hl. destruct (gather_tokens v Hw Hd Hl) as (ts & Hts & Hg). exists ts. split; [done|].
  rewrite (parse_run cbk pow _ _ _ _ Hg). destruct (run cbk u ts) as [c u']. do 2 f_equal. case_if; [by subst|done].
Qed.

Lemma view_tok t k : tok_is t k -> view t = k.
Proof.
  destruct k as [o s|z|o|]; cbn [tok_is]; [| | by intros -> | done].
  - intros (Hl & m & ->). unfold view. cbn [type op value size]. change (JSDRV_UNION_STR =? JSDRV_UNION_NULL) with false.
    change (JSDRV_UNION_STR =? JSDRV_UNION_STR) with true. cbv iota.
    replace (Z.to_nat _) with (length s) by (unfold len; lia). by rewrite take_app_length.
  - intros (Hz & ->). case_if; [apply view_i32; bool_facts; width_lia | by apply view_i64].
Qed.

Lemma run_collect ts : forall acc, run collect acc ts = (0, acc ++ map view ts).
Proof.
  induction ts as [|t ts IH]; intros acc; cbn [run map]; [by rewrite app_nil_r|]. unfold collect at 1.
  change (0 =? 0) with true. cbv iota. rewrite IH, <- app_assoc. done.
Qed.

(** C5. What the parser reports is what was written: for every JSON value built from null, booleans,
    64-bit integers above the least one, strings without escapes, arrays and objects, nested at
    most 64 deep, parsing its text returns success and hands the callback exactly the value's
    tokens in order, keys and values told apart and every level opened and closed. *)
Theorem json_roundtrip v :
  wf_json v -> jdepth v <= DEPTH_MAX -> len (print v) < 2 ^ 32 - 2 ->
  jsdrv_json_parse collect pow (Some (print v)) [] = Ok (0, tokens v).
Proof.
  intros Hw Hd Hl. destruct (parse_printed collect v [] Hw Hd Hl) as (ts & Hts & ->).
  rewrite run_collect. do 2 f_equal. cbn [Datatypes.app].
  induction Hts as [|t k ts ks Ht _ IH]; [done|]. cbn [map]. by rewrite (view_tok t k Ht), IH.
Qed.
End RoundTrip.

Lemma json_roundtrip_witness :
  let v := JObj (MCons (str "a") (JArr (JCons (JInt (-12)) (JCons (JBool true) JNil)))
                (MCons (str "b") (JInt 4294967296) MNil)) in
  jsdrv_json_parse collect f64_mul (Some (print v)) [] = Ok (0, tokens v).
Proof. apply (json_roundtrip f64_mul); [|by vm_compute|by vm_compute]. cbn. repeat split; repeat constructor; done. Defined.

(** ** Where the parser departs from the JSON grammar *)

(** The comma between elements is optional, and text behind the value is ignored. *)
Lemma json_comma_optional :
  jsdrv_json_parse collect f64_mul (Some (str "[1 2]")) [] = jsdrv_json_parse collect f64_mul (Some (str "[1,2]")) []
  /\ jsdrv_json_parse collect f64_mul (Some (str "1]]]")) [] = Ok (0, [TInt 1]).
Proof. by vm_compute. Qed.

(** The exponent of a number that starts with '0' is left unread: [0e5] is a number at the
    end of the text and an error inside an array. *)
Lemma json_zero_exponent :
  jsdrv_json_parse collect f64_mul (Some (str "0e5")) [] = Ok (0, [TOther])
  /\ exists acc, jsdrv_json_parse collect f64_mul (Some (str "[0e5]")) [] = Ok (EC_SYNTAX_ERROR, acc).
Proof. split; [by vm_compute | eexists; by vm_compute]. Qed.

(** The least 64-bit integer is rejected. *)
Lemma json_i64_min :
  exists acc, jsdrv_json_parse collect f64_mul (Some (str "-9223372036854775808")) [] = Ok (EC_SYNTAX_ERROR, acc).
Proof. eexists; by vm_compute. Qed.

(** Ten digits behind the point of an exponent overflow the [int32_t] power of ten. *)
Lemma json_exponent_overflow :
  jsdrv_json_parse collect f64_mul (Some (str "1e1.0000000000")) [] = Fault SignedOverflow.
Proof. by vm_compute. Qed.
