(* ===== verification/Meta.v ===== *)
(** * Topic metadata (src/meta.c)

    The metadata of a topic is a JSON text.  Each reader is a callback over the tokens of the
    parser, with its own small state.  A callback that faults leaves the fault in its state and
    stops the parse ([lift]).  [addr] is the numeric value of a pointer, which shows where a
    narrow member of the value union is written over a pointer. *)

From Stdlib Require Import Strings.String.
From S2P Require Import Prelude Float Cstr ErrorCode Time Union Json.

Definition EC_NOT_FOUND : Z := ec_code NOT_FOUND.

Definition dtype_map : list (cstr * Z) :=
  Eval cbv in map (fun '(n, t) => (str n, t))
    [("str", JSDRV_UNION_STR); ("json", JSDRV_UNION_JSON); ("bin", JSDRV_UNION_BIN);
     ("std", JSDRV_UNION_BIN); ("stdmsg", JSDRV_UNION_BIN); ("frm", JSDRV_UNION_BIN);
     ("frame", JSDRV_UNION_BIN); ("u8", JSDRV_UNION_U8); ("u16", JSDRV_UNION_U16);
     ("u32", JSDRV_UNION_U32); ("u64", JSDRV_UNION_U64); ("i8", JSDRV_UNION_I8);
     ("i16", JSDRV_UNION_I16); ("i32", JSDRV_UNION_I32); ("i64", JSDRV_UNION_I64);
     ("f32", JSDRV_UNION_F32); ("f64", JSDRV_UNION_F64); ("bool", JSDRV_UNION_U8)]%string.

(** [0 == jsdrv_json_strcmp(name, token)] *)
Definition token_is (name : String.string) (token : jsdrv_union_s) : res bool :=
  r ← jsdrv_json_strcmp (Some (str name)) (Some token); Ok (r =? 0).

Fixpoint dtype_find (m : list (cstr * Z)) (token : jsdrv_union_s) : res (option Z) :=
  match m with
  | [] => Ok None
  | (name, dtype) :: m' =>
      r ← jsdrv_json_strcmp (Some name) (Some token);
      if r =? 0 then Ok (Some dtype) else dtype_find m' token
  end.

(** The result code and the type, [type] when it is not written.  The name of an unknown type
    is copied into [char dtype[32]] for the log. *)
Definition dtype_lookup (token : jsdrv_union_s) (type : Z) : res (Z * Z) :=
  f ← dtype_find dtype_map token;
  match f with
  | Some dtype => Ok (0, dtype)
  | None =>
      let sz := if 32 <? size token then 32 else size token in
      dtype ← (if sz =? 0 then Ok (replicate 32 0)
               else m ← object token; mem_copy (replicate 32 0) 0 m 0 sz);
      _ ← st dtype (u32 (sz - 1)) 0;
      Ok (EC_PARAMETER_INVALID, type)
  end.

(** A callback that can fault. *)
Definition lift {S} (f : S -> jsdrv_union_s -> res (Z * S)) (u : res S) (token : jsdrv_union_s) : Z * res S :=
  match u with
  | Fault e => (1, Fault e)
  | Ok s => match f s token with Ok (rc, s) => (rc, Ok s) | Fault e => (1, Fault e) end
  end.

Section Meta.
Context (pow : f64 -> f64 -> f64) (addr : list Z -> Z).

Definition parse_with {S} (f : S -> jsdrv_union_s -> res (Z * S)) (meta : option cstr) (s : S) : res (Z * S) :=
  '(rc, u) ← jsdrv_json_parse (lift f) pow meta (Ok s);
  s ← u; Ok (rc, s).

(** ** Syntax *)

Record syntax_check_s := mk_syntax { first_seen : bool; root_is_obj : bool }.

Definition on_syntax_token (s : syntax_check_s) (token : jsdrv_union_s) : res (Z * syntax_check_s) :=
  Ok (0, if first_seen s then s else mk_syntax true (op token =? JSDRV_JSON_OBJ_START)).

Definition jsdrv_meta_syntax_check (meta : option cstr) : res Z :=
  match meta with
  | None => Ok EC_PARAMETER_INVALID
  | Some _ =>
      '(rc, s) ← parse_with on_syntax_token meta (mk_syntax false false);
      if negb (rc =? 0) then Ok rc
      else Ok (if first_seen s && root_is_obj s then 0 else EC_SYNTAX_ERROR)
  end.

(** ** Data type *)

Record dtype_s := mk_dtype { dt_dtype : Z; dt_found : bool }.

Definition on_dtype (s : dtype_s) (token : jsdrv_union_s) : res (Z * dtype_s) :=
  if op token =? JSDRV_JSON_VALUE then
    if dt_found s then
      '(rc, t) ← dtype_lookup token (dt_dtype s);
      Ok (if rc =? 0 then EC_ABORTED else rc, mk_dtype t true)
    else Ok (0, s)
  else if op token =? JSDRV_JSON_KEY then
    b ← token_is "dtype" token; Ok (0, if b : bool then mk_dtype (dt_dtype s) true else s)
  else Ok (0, s).

Definition jsdrv_meta_dtype (meta : option cstr) (dtype : option Z) : res (Z * option Z) :=
  '(rc, s) ← parse_with on_dtype meta (mk_dtype 0 false);
  if negb (rc =? 0) then Ok (rc, dtype)
  else if negb (dt_found s) then Ok (EC_NOT_FOUND, dtype)
  else Ok (0, match dtype with Some _ => Some (dt_dtype s) | None => None end).

(** ** Default value *)

Inductive default_state_e :=
  DEFAULT_ST_DTYPE_SEARCH | DEFAULT_ST_DTYPE_KEY | DEFAULT_ST_DEFAULT_SEARCH | DEFAULT_ST_DEFAULT_KEY.
#[global] Instance default_state_eq_dec : EqDecision default_state_e.
Proof. solve_decision. Defined.

Record default_s := mk_default {
  df_state : default_state_e; df_depth : Z; df_found : bool; df_value : jsdrv_union_s }.

Definition on_default (s : default_s) (token : jsdrv_union_s) : res (Z * default_s) :=
  let o := op token in
  let v := df_value s in
  if o =? JSDRV_JSON_VALUE then
    if decide (df_state s = DEFAULT_ST_DTYPE_KEY) then
      '(rc, t) ← dtype_lookup token (type v);
      Ok (rc, mk_default DEFAULT_ST_DEFAULT_SEARCH (df_depth s) (df_found s) (set_type v t))
    else if decide (df_state s = DEFAULT_ST_DEFAULT_KEY) then
      Ok (EC_ABORTED, mk_default (df_state s) (df_depth s) true
            (mk_union (type v) JSDRV_UNION_FLAG_RETAIN (op v) (app v) (size v) (value token)))
    else Ok (0, s)
  else if o =? JSDRV_JSON_KEY then
    b1 ← (if decide (df_state s = DEFAULT_ST_DTYPE_SEARCH) then
            if df_depth s =? 1 then token_is "dtype" token else Ok false else Ok false);
    if b1 : bool then Ok (0, mk_default DEFAULT_ST_DTYPE_KEY (df_depth s) (df_found s) v)
    else
      b2 ← (if decide (df_state s = DEFAULT_ST_DEFAULT_SEARCH) then
              if df_depth s =? 1 then token_is "default" token else Ok false else Ok false);
      Ok (0, if b2 : bool then mk_default DEFAULT_ST_DEFAULT_KEY (df_depth s) (df_found s) v else s)
  else if (o =? JSDRV_JSON_OBJ_START) || (o =? JSDRV_JSON_ARRAY_START) then
    Ok (0, mk_default (df_state s) (u8 (df_depth s + 1)) (df_found s) v)
  else if (o =? JSDRV_JSON_OBJ_END) || (o =? JSDRV_JSON_ARRAY_END) then
    Ok (0, mk_default (df_state s) (u8 (df_depth s - 1)) (df_found s) v)
  else Ok (0, s).

Definition jsdrv_meta_default (meta : option cstr) (value : option jsdrv_union_s)
  : res (Z * option jsdrv_union_s) :=
  match meta, value with
  | Some _, Some _ =>
      '(rc, s) ← parse_with on_default meta (mk_default DEFAULT_ST_DTYPE_SEARCH 0 false jsdrv_union_null);
      if negb (rc =? 0) then Ok (rc, Some (df_value s))
      else Ok (0, Some (if df_found s then df_value s else set_type (df_value s) JSDRV_UNION_NULL))
  | _, _ => Ok (EC_PARAMETER_INVALID, value)
  end.

(** ** Validation of a value *)

Inductive value_state_e :=
  VALUE_ST_DTYPE_SEARCH | VALUE_ST_DTYPE_KEY | VALUE_ST_SEARCH | VALUE_ST_RANGE_KEY
| VALUE_ST_RANGE_VAL | VALUE_ST_OPTIONS | VALUE_ST_OPTIONS_VAL | VALUE_ST_OPTIONS_MATCH.
#[global] Instance value_state_eq_dec : EqDecision value_state_e.
Proof. solve_decision. Defined.

Record value_s := mk_value {
  v_state : value_state_e; v_type : Z; v_depth : Z; array_idx : Z;
  v_value : jsdrv_union_s; v_option : jsdrv_union_inner_u; v_range : list jsdrv_union_inner_u }.

Definition with_state (s : value_s) (x : value_state_e) : value_s :=
  mk_value x (v_type s) (v_depth s) (array_idx s) (v_value s) (v_option s) (v_range s).
Definition with_depth (s : value_s) (d : Z) : value_s :=
  mk_value (v_state s) (v_type s) (u8 d) (array_idx s) (v_value s) (v_option s) (v_range s).
Definition with_value (s : value_s) (v : jsdrv_union_s) : value_s :=
  mk_value (v_state s) (v_type s) (v_depth s) (array_idx s) v (v_option s) (v_range s).
Definition with_type (s : value_s) (t : Z) : value_s :=
  mk_value (v_state s) t (v_depth s) (array_idx s) (v_value s) (v_option s) (v_range s).
Definition with_idx (s : value_s) (i : Z) : value_s :=
  mk_value (v_state s) (v_type s) (v_depth s) (u8 i) (v_value s) (v_option s) (v_range s).

(** The eight bytes of the value union, and the store of its low [w] bits. *)
Definition inner_bits (v : jsdrv_union_inner_u) : Z :=
  match v with Word b => b | Mem None => 0 | Mem (Some m) => addr m end.
Definition store_low (x : jsdrv_union_s) (t w v : Z) : jsdrv_union_s :=
  set_value (set_type x t) (Word (put w (inner_bits (value x)) v)).

(** A [const char *] read from the value union. *)
Definition str_arg (v : jsdrv_union_inner_u) : res (option cstr) :=
  match v with
  | Mem None => Ok None
  | Mem (Some m) => match cstr_at m with Some s => Ok (Some s) | None => Fault OutOfBounds end
  | Word b => if b =? 0 then Ok None else Fault OutOfBounds
  end.

Definition maybe_convert_str_to_type (s : value_s) : res value_s :=
  let x := v_value s in
  let t := v_type s in
  if negb (type x =? JSDRV_UNION_STR) then Ok s
  else if (t =? JSDRV_UNION_U8) || (t =? JSDRV_UNION_U16) || (t =? JSDRV_UNION_U32) then
    c ← str_arg (value x);
    let '(rc, v) := jsdrv_cstr_to_u32 c (Some 0) in
    Ok (if rc =? 0 then with_value s (store_low x t 32 (default 0 v)) else s)
  else if (t =? JSDRV_UNION_I8) || (t =? JSDRV_UNION_I16) || (t =? JSDRV_UNION_I32) then
    c ← str_arg (value x);
    '(rc, v) ← jsdrv_cstr_to_i32 c (Some 0);
    Ok (if rc =? 0 then with_value s (store_low x t 32 (default 0 v)) else s)
  else Ok s.

(** The case [JSDRV_JSON_VALUE], by state. *)
Definition on_dtype_value (s : value_s) (token : jsdrv_union_s) : res (Z * value_s) :=
  c ← str_arg (value token);
  match jsdrv_cstr_starts_with c (Some (str "bool")) with
  | Some _ =>
      '(rc, b) ← jsdrv_union_to_bool (replicate 16 0) (v_value s) false;
      if rc =? 0
      then Ok (EC_ABORTED, with_value s (store_low (v_value s) JSDRV_UNION_U8 8 (if b : bool then 1 else 0)))
      else Ok (rc, s)
  | None =>
      '(rc, t) ← dtype_lookup token (v_type s);
      s ← maybe_convert_str_to_type (with_type s t);
      Ok (rc, with_state s VALUE_ST_SEARCH)
  end.

Definition on_range_value (s : value_s) (token : jsdrv_union_s) : res (Z * value_s) :=
  if 3 <=? array_idx s then Ok (EC_PARAMETER_INVALID, s)
  else
    r ← st (v_range s) (array_idx s) (value token);
    Ok (0, mk_value (v_state s) (v_type s) (v_depth s) (u8 (array_idx s + 1)) (v_value s) (v_option s) r).

Definition on_option_value (s : value_s) (token : jsdrv_union_s) : res (Z * value_s) :=
  let idx := array_idx s in
  let s := with_idx s (idx + 1) in
  o ← (if idx =? 0 then
         '(rc, t) ← jsdrv_union_as_type token (v_type s);
         Ok (if rc =? 0 then Some (value t) else None)
       else Ok (Some (v_option s)));
  match o with
  | None => Ok (EC_PARAMETER_INVALID, s)
  | Some o =>
      let s := mk_value (v_state s) (v_type s) (v_depth s) (array_idx s) (v_value s) o (v_range s) in
      e ← jsdrv_union_equiv (v_value s) token;
      Ok (0, if e : bool
             then with_state (with_value s (set_type (set_value (v_value s) o) (v_type s))) VALUE_ST_OPTIONS_MATCH
             else s)
  end.

(** The case [JSDRV_JSON_KEY]: a key of the outer object, in the state that looks for it. *)
Definition on_value_key (s : value_s) (token : jsdrv_union_s) : res (Z * value_s) :=
  let key (st : value_state_e) (name : String.string) :=
    if decide (v_state s = st) then if v_depth s =? 1 then token_is name token else Ok false else Ok false in
  b1 ← key VALUE_ST_DTYPE_SEARCH "dtype"%string;
  if b1 : bool then Ok (0, with_state s VALUE_ST_DTYPE_KEY)
  else
    b2 ← key VALUE_ST_SEARCH "range"%string;
    if b2 : bool then Ok (0, with_state s VALUE_ST_RANGE_KEY)
    else
      b3 ← key VALUE_ST_SEARCH "options"%string;
      Ok (0, if b3 : bool then with_state s VALUE_ST_OPTIONS else s).

Definition on_array_start (s : value_s) : value_s :=
  let s := with_depth s (v_depth s + 1) in
  let s := if decide (v_state s = VALUE_ST_OPTIONS) then
             if v_depth s =? 3 then with_state (with_idx s 0) VALUE_ST_OPTIONS_VAL else s
           else s in
  if decide (v_state s = VALUE_ST_RANGE_KEY) then with_state (with_idx s 0) VALUE_ST_RANGE_VAL else s.

Definition on_array_end (s : value_s) : Z * value_s :=
  let '(rc, s) :=
    match v_state s with
    | VALUE_ST_OPTIONS_VAL => (0, if v_depth s =? 3 then with_state s VALUE_ST_OPTIONS else s)
    | VALUE_ST_OPTIONS => (if v_depth s =? 2 then EC_PARAMETER_INVALID else 0, s)
    | VALUE_ST_OPTIONS_MATCH => (0, if v_depth s =? 2 then with_state s VALUE_ST_SEARCH else s)
    | VALUE_ST_RANGE_VAL => (0, if v_depth s =? 2 then with_state s VALUE_ST_SEARCH else s)
    | _ => (0, s)
    end in
  (rc, with_depth s (v_depth s - 1)).

Definition on_value (s : value_s) (token : jsdrv_union_s) : res (Z * value_s) :=
  let o := op token in
  if o =? JSDRV_JSON_VALUE then
    match v_state s with
    | VALUE_ST_DTYPE_KEY => on_dtype_value s token
    | VALUE_ST_RANGE_VAL => on_range_value s token
    | VALUE_ST_OPTIONS_VAL => on_option_value s token
    | _ => Ok (0, s)
    end
  else if o =? JSDRV_JSON_KEY then on_value_key s token
  else if o =? JSDRV_JSON_OBJ_START then Ok (0, with_depth s (v_depth s + 1))
  else if o =? JSDRV_JSON_OBJ_END then Ok (0, with_depth s (v_depth s - 1))
  else if o =? JSDRV_JSON_ARRAY_START then Ok (0, on_array_start s)
  else if o =? JSDRV_JSON_ARRAY_END then Ok (on_array_end s)
  else Ok (0, s).

Definition value_init (v : jsdrv_union_s) : value_s :=
  mk_value VALUE_ST_DTYPE_SEARCH JSDRV_UNION_NULL 0 0 v (Word 0) [Word 0; Word 0; Word 0].

Definition jsdrv_meta_value (meta : option cstr) (value : option jsdrv_union_s) : res (Z * option jsdrv_union_s) :=
  match meta, value with
  | Some _, Some v => '(rc, s) ← parse_with on_value meta (value_init v); Ok (rc, Some (v_value s))
  | _, _ => Ok (EC_PARAMETER_INVALID, value)
  end.

(** ** Flags *)

Definition JSDRV_META_FLAG_RO : Z := 1.
Definition JSDRV_META_FLAG_HIDE : Z := 2.
Definition JSDRV_META_FLAG_DEV : Z := 4.

Inductive flags_state_e := FLAGS_ST_SEARCH | FLAGS_ST_KEY | FLAGS_ST_ARRAY.
#[global] Instance flags_state_eq_dec : EqDecision flags_state_e.
Proof. solve_decision. Defined.

Record flags_s := mk_flags { fl_state : flags_state_e; fl_depth : Z; fl_flags : Z }.

(** The bit of a flag name. *)
Definition flag_of (token : jsdrv_union_s) : res Z :=
  ro ← token_is "ro" token;
  if ro : bool then Ok JSDRV_META_FLAG_RO
  else
    hide ← token_is "hide" token;
    if hide : bool then Ok JSDRV_META_FLAG_HIDE
    else dev ← token_is "dev" token; Ok (if dev : bool then JSDRV_META_FLAG_DEV else 0).

Definition on_flags (s : flags_s) (token : jsdrv_union_s) : res (Z * flags_s) :=
  let o := op token in
  if o =? JSDRV_JSON_VALUE then
    if decide (fl_state s = FLAGS_ST_SEARCH) then Ok (0, s)
    else
      f ← flag_of token;
      let s' := mk_flags (fl_state s) (fl_depth s) (Z.lor (fl_flags s) f) in
      Ok (if decide (fl_state s = FLAGS_ST_KEY) then EC_ABORTED else 0, s')
  else if o =? JSDRV_JSON_KEY then
    b ← (if fl_depth s =? 1 then token_is "flags" token else Ok false);
    Ok (0, if b : bool then mk_flags FLAGS_ST_KEY (fl_depth s) (fl_flags s) else s)
  else if o =? JSDRV_JSON_OBJ_START then Ok (0, mk_flags (fl_state s) (u8 (fl_depth s + 1)) (fl_flags s))
  else if o =? JSDRV_JSON_OBJ_END then Ok (0, mk_flags (fl_state s) (u8 (fl_depth s - 1)) (fl_flags s))
  else if o =? JSDRV_JSON_ARRAY_START then
    Ok (0, if decide (fl_state s = FLAGS_ST_KEY) then mk_flags FLAGS_ST_ARRAY (fl_depth s) (fl_flags s) else s)
  else if o =? JSDRV_JSON_ARRAY_END then
    Ok (if decide (fl_state s = FLAGS_ST_ARRAY) then EC_ABORTED else 0, s)
  else Ok (0, s).

Definition jsdrv_meta_flags (meta : option cstr) (flags : option Z) : res (Z * option Z) :=
  match meta, flags with
  | Some _, Some _ =>
      '(_, s) ← parse_with on_flags meta (mk_flags FLAGS_ST_SEARCH 0 0);
      Ok (0, Some (fl_flags s))
  | _, _ => Ok (EC_PARAMETER_INVALID, flags)
  end.
End Meta.

(** ** The readers over the tokens of a printed object *)

Lemma ld_mid (pre k : list Z) c : ld (pre ++ c :: k) (len pre) = Ok c.
Proof. apply ld_ok; unfold len; [lia|]. rewrite Nat2Z.id. by rewrite list_lookup_middle. Qed.

Lemma strcmp_prefix b : forall pre a m,
  wf_cstr a -> wf_cstr b ->
  exists r, strcmp_loop (length b) (pre ++ a ++ [0]) (pre ++ b ++ m) (len pre) = Ok r /\ (r =? 0) = bool_decide (a = b).
Proof.
  induction b as [|c b IH]; intros pre a m Ha Hb; cbn [List.length strcmp_loop].
  - destruct a as [|x a]; cbn [Datatypes.app]; rewrite ld_mid, bind_Ok; [by eexists|].
    apply Forall_cons_1 in Ha as [Hx _]. eexists; split; [reflexivity|]. by rewrite (proj2 (Z.eqb_neq x 0)).
  - apply Forall_cons_1 in Hb as [Hc Hb]. cbn [Datatypes.app]. destruct a as [|x a]; cbn [Datatypes.app]; rewrite !ld_mid, !bind_Ok.
    + rewrite (proj2 (Z.eqb_neq 0 c)) by done. by eexists.
    + apply Forall_cons_1 in Ha as [Hx Ha]. destruct (Z.eqb_spec x c) as [->|Hne].
      * destruct (IH (pre ++ [c]) a m Ha Hb) as (r & Hr & E). rewrite <- !app_assoc, len_app in Hr. cbn [Datatypes.app] in Hr.
        exists r. split; [exact Hr|]. rewrite E. apply bool_decide_ext. split; [by intros -> | by intros [= ->]].
      * rewrite (proj2 (Z.eqb_neq x 0)) by done. cbn [orb]. eexists; split; [reflexivity|].
        rewrite bool_decide_false by (by intros [=]). by case_if.
Qed.

Lemma plain_wf s : plain s -> wf_cstr s.
Proof. intros H. eapply Forall_impl; [exact H | naive_solver]. Qed.

Lemma strcmp_token name t o s :
  wf_cstr name -> wf_cstr s -> tok_is t (TString o s) ->
  exists r, jsdrv_json_strcmp (Some name) (Some t) = Ok r /\ (r =? 0) = bool_decide (s = name).
Proof.
  intros Hn Hs (Hl & m & ->). unfold jsdrv_json_strcmp, object. cbn [type value size]. rewrite Z.eqb_refl. cbn [negb].
  rewrite bind_Ok. pose proof (len_nonneg s). rewrite uwrap_small by width_lia.
  replace (Z.to_nat (len s + 1 - 1)) with (length s) by (unfold len; lia).
  destruct (strcmp_prefix s [] name (34 :: m ++ [0]) Hn Hs) as (r & Hr & E). exists r. split; [exact Hr|].
  rewrite E. apply bool_decide_ext. done.
Qed.

Lemma token_is_string name t o s :
  wf_cstr (str name) -> wf_cstr s -> tok_is t (TString o s) -> token_is name t = Ok (bool_decide (s = str name)).
Proof. intros Hn Hs Ht. unfold token_is. destruct (strcmp_token _ _ _ _ Hn Hs Ht) as (r & -> & E). by rewrite bind_Ok, E. Qed.

Lemma dtype_find_string (m : list (cstr * Z)) t o s :
  Forall (fun p => wf_cstr p.1) m -> wf_cstr s -> tok_is t (TString o s) ->
  dtype_find m t = Ok (snd <$> List.find (fun p => bool_decide (s = p.1)) m).
Proof.
  intros Hm Hs Ht. induction Hm as [|[n ty] m Hn _ IH]; [done|]. cbn [dtype_find List.find fst].
  destruct (strcmp_token n t o s Hn Hs Ht) as (r & -> & E). rewrite bind_Ok, E. by destruct (bool_decide (s = n)).
Qed.

(** The run of a fallible callback. *)
Fixpoint mrun {S} (f : S -> jsdrv_union_s -> res (Z * S)) (s : S) (ts : list jsdrv_union_s) : res (Z * S) :=
  match ts with
  | [] => Ok (0, s)
  | t :: ts => '(rc, s) ← f s t; if rc =? 0 then mrun f s ts else Ok (rc, s)
  end.

Lemma mrun_app {S} (f : S -> jsdrv_union_s -> res (Z * S)) ts ts' s :
  mrun f s (ts ++ ts') = ('(rc, s) ← mrun f s ts; if rc =? 0 then mrun f s ts' else Ok (rc, s)).
Proof.
  revert s. induction ts as [|t ts IH]; intros s; cbn [Datatypes.app mrun]; [done|].
  destruct (f s t) as [[rc s']|e]; [|done]. rewrite !bind_Ok. destruct (rc =? 0) eqn:E; [apply IH|].
  by rewrite bind_Ok, E.
Qed.

Lemma run_lift {S} (f : S -> jsdrv_union_s -> res (Z * S)) ts : forall s,
  match mrun f s ts with
  | Ok (rc, s') => run (lift f) (Ok s) ts = (rc, Ok s')
  | Fault e => run (lift f) (Ok s) ts = (1, Fault e)
  end.
Proof.
  induction ts as [|t ts IH]; intros s; cbn [mrun run]; [done|]. unfold lift at 1 3.
  destruct (f s t) as [[rc s']|e]; [rewrite bind_Ok; by destruct (rc =? 0); [apply IH|] | done].
Qed.

Section Printed.
Context (pow : f64 -> f64 -> f64).

Lemma parse_with_printed {S} (f : S -> jsdrv_union_s -> res (Z * S)) v s :
  wf_json v -> jdepth v <= DEPTH_MAX -> len (print v) < 2 ^ 32 - 2 ->
  exists ts, Forall2 tok_is ts (tokens v) /\ parse_with pow f (Some (print v)) s
    = ('(rc, s) ← mrun f s ts; Ok (if rc =? EC_ABORTED then 0 else rc, s)).
Proof.
  intros Hw Hd Hl. destruct (parse_printed pow (lift f) v (Ok s) Hw Hd Hl) as (ts & Hts & He).
  exists ts. split; [done|]. unfold parse_with. rewrite He, bind_Ok. pose proof (run_lift f ts s) as Hr.
  destruct (mrun f s ts) as [[rc s']|e]; by rewrite Hr.
Qed.
End Printed.

(** ** Validation: what the state machine skips *)

Section Value.
Context (pow : f64 -> f64 -> f64) (addr : list Z -> Z).

(** A state in which values and nested levels are passed over. *)
Definition quiet (s : value_s) : Prop :=
  match v_state s with
  | VALUE_ST_DTYPE_SEARCH | VALUE_ST_SEARCH => 1 <= v_depth s
  | VALUE_ST_OPTIONS_MATCH => 2 <= v_depth s
  | _ => False
  end.

Lemma with_depth_undo s : 0 <= v_depth s -> v_depth s + 1 < 256 ->
  with_depth (with_depth s (v_depth s + 1)) (v_depth (with_depth s (v_depth s + 1)) - 1) = s.
Proof.
  intros H1 H2. destruct s as [st ty d i v o r]. unfold with_depth. cbn [v_state v_type v_depth array_idx v_value v_option v_range] in *.
  rewrite (uwrap_small 8 (d + 1)) by width_lia. rewrite uwrap_small by width_lia. f_equal. lia.
Qed.

Lemma quiet_deeper s : quiet s -> v_depth s + 1 < 256 ->
  quiet (with_depth s (v_depth s + 1)) /\ v_depth (with_depth s (v_depth s + 1)) = v_depth s + 1.
Proof.
  unfold quiet, with_depth. cbn [v_state v_depth]. intros Hq Hd.
  destruct (v_state s); try done; rewrite uwrap_small by width_lia; lia.
Qed.

Lemma quiet_value s t : quiet s -> op t = JSDRV_JSON_VALUE -> on_value addr s t = Ok (0, s).
Proof. unfold quiet, on_value. intros Hq ->. cbn. by destruct (v_state s). Qed.

Lemma quiet_key s t : quiet s -> op t = JSDRV_JSON_KEY -> v_depth s <> 1 -> on_value addr s t = Ok (0, s).
Proof.
  unfold quiet, on_value. intros Hq -> Hd. cbn -[Z.eqb token_is]. change (JSDRV_JSON_KEY =? JSDRV_JSON_VALUE) with false.
  change (JSDRV_JSON_KEY =? JSDRV_JSON_KEY) with true. cbv iota. unfold on_value_key.
  rewrite (proj2 (Z.eqb_neq _ 1) Hd). by destruct (v_state s).
Qed.

(** A level whose content is passed over is passed over. *)
Lemma quiet_level s ts o1 o2 :
  quiet s -> v_depth s + 1 < 256 ->
  (o1 = JSDRV_JSON_OBJ_START /\ o2 = JSDRV_JSON_OBJ_END) \/ (o1 = JSDRV_JSON_ARRAY_START /\ o2 = JSDRV_JSON_ARRAY_END) ->
  mrun (on_value addr) (with_depth s (v_depth s + 1)) ts = Ok (0, with_depth s (v_depth s + 1)) ->
  mrun (on_value addr) s (delim o1 :: ts ++ [delim o2]) = Ok (0, s).
Proof.
  intros Hq Hd Ho Hts. destruct (quiet_deeper s Hq Hd) as [Hq' Hd'].
  assert (0 <= v_depth s) as H0 by (unfold quiet in Hq; destruct (v_state s); done || lia).
  assert (on_value addr s (delim o1) = Ok (0, with_depth s (v_depth s + 1))) as E1.
  { destruct Ho as [[-> _]|[-> _]]; [done|]. unfold on_value. cbn -[on_array_start]. f_equal. f_equal.
    clear -Hq. unfold on_array_start, quiet in *. destruct s as [[] ty d i v o r]; done. }
  assert (on_value addr (with_depth s (v_depth s + 1)) (delim o2) = Ok (0, s)) as E2.
  { pose proof (with_depth_undo s H0 Hd) as Hu. set (s' := with_depth s (v_depth s + 1)) in *.
    transitivity (Ok (0, with_depth s' (v_depth s' - 1))); [|by rewrite Hu]. clear Hu.
    destruct Ho as [[_ ->]|[_ ->]]; [done|]. unfold on_value. cbn -[on_array_end with_depth]. f_equal.
    unfold on_array_end, quiet in *.
    assert (v_state s' = v_state s) as -> by done. destruct (v_state s); try done.
    by rewrite (proj2 (Z.eqb_neq (v_depth s') 2)) by lia. }
  cbn [mrun]. rewrite E1, bind_Ok. cbn [Z.eqb]. rewrite mrun_app, Hts, bind_Ok. cbn [Z.eqb mrun]. by rewrite E2, bind_Ok.
Qed.

Definition skips (ks : list token) (n d : Z) : Prop := forall s ts,
  quiet s -> d <= v_depth s -> v_depth s + n < 256 -> Forall2 tok_is ts ks -> mrun (on_value addr) s ts = Ok (0, s).

Lemma skips_app ks ks' n n' d : skips ks n d -> skips ks' n' d -> skips (ks ++ ks') (Z.max n n') d.
Proof.
  intros H1 H2 s ts Hq Hd Hn Hts. apply Forall2_app_inv_r in Hts as (t1 & t2 & Ht1 & Ht2 & ->).
  rewrite mrun_app, (H1 s t1), bind_Ok by (done || lia). by apply H2; [| |lia|].
Qed.

Lemma skips_value k : (exists s, k = TString JSDRV_JSON_VALUE s) \/ (exists z, k = TInt z) \/ k = TDelim JSDRV_JSON_VALUE ->
  skips [k] 0 1.
Proof.
  intros Hk s ts Hq _ _ Hts. apply Forall2_cons_inv_r in Hts as (t & ts' & Ht & Hts & ->).
  apply Forall2_nil_inv_r in Hts as ->. assert (op t = JSDRV_JSON_VALUE) as Ho.
  { destruct Hk as [[x ->]|[[z ->]| ->]]; cbn [tok_is] in Ht; [by destruct Ht as (_ & m & ->) | | by subst].
    destruct Ht as [_ ->]. by case_if. }
  cbn [mrun]. by rewrite quiet_value, bind_Ok.
Qed.

Lemma skips_level o1 o2 ks n d :
  (o1 = JSDRV_JSON_OBJ_START /\ o2 = JSDRV_JSON_OBJ_END) \/ (o1 = JSDRV_JSON_ARRAY_START /\ o2 = JSDRV_JSON_ARRAY_END) ->
  0 <= n -> skips ks n (d + 1) -> skips (TDelim o1 :: ks ++ [TDelim o2]) (1 + n) d.
Proof.
  intros Ho Hn0 Hks s ts Hq Hd Hn Hts. apply Forall2_cons_inv_r in Hts as (t & ts' & -> & Hts & ->).
  apply Forall2_app_inv_r in Hts as (t1 & t2 & Ht1 & Ht2 & ->).
  apply Forall2_cons_inv_r in Ht2 as (t' & t3 & -> & Ht3 & ->). apply Forall2_nil_inv_r in Ht3 as ->.
  destruct (quiet_deeper s Hq ltac:(lia)) as [Hq' Hd']. apply quiet_level; [done | lia | done |].
  apply Hks; [done | lia | lia | done].
Qed.

Lemma skips_json :
  (forall v, skips (tokens v) (jdepth v) 1) /\ (forall l, skips (tokens_list l) (jdepth_list l) 1)
  /\ (forall l, skips (tokens_members l) (jdepth_members l) 2).
Proof.
  apply json_mutind; cbn [tokens tokens_list tokens_members jdepth jdepth_list jdepth_members].
  - apply skips_value. by do 2 right.
  - intros b. apply skips_value. right; left. by eexists.
  - intros z. apply skips_value. right; left. by eexists.
  - intros s. apply skips_value. left. by eexists.
  - intros l IH. apply skips_level; [by right | apply jdepth_nonneg |]. intros s ts Hq Hd Hn Hts. apply IH; done || lia.
  - intros l IH. apply skips_level; [by left | apply jdepth_nonneg | done].
  - intros s ts _ _ _ Hts. by apply Forall2_nil_inv_r in Hts as ->.
  - intros v IHv l IHl. by apply skips_app.
  - intros s ts _ _ _ Hts. by apply Forall2_nil_inv_r in Hts as ->.
  - intros k v IHv l IHl s ts Hq Hd Hn Hts. apply Forall2_cons_inv_r in Hts as (t & ts' & Ht & Hts & ->).
    cbn [mrun]. rewrite quiet_key, bind_Ok; [| done | by destruct Ht as (_ & m & ->) | lia]. cbn [Z.eqb].
    revert Hts. apply (skips_app _ _ (jdepth v) (jdepth_members l) 2); [|done | done | lia | done].
    intros s' ts'' Hq' Hd' Hn' Hts'. apply IHv; done || lia.
Qed.

(** ** Keys of the outer object *)

Definition key_next (st : value_state_e) (k : cstr) : value_state_e :=
  match st with
  | VALUE_ST_DTYPE_SEARCH => if bool_decide (k = str "dtype") then VALUE_ST_DTYPE_KEY else st
  | VALUE_ST_SEARCH => if bool_decide (k = str "range") then VALUE_ST_RANGE_KEY
                       else if bool_decide (k = str "options") then VALUE_ST_OPTIONS else st
  | _ => st
  end.

Lemma with_state_id s : with_state s (v_state s) = s.
Proof. by destruct s. Qed.

Lemma on_key s t k : v_depth s = 1 -> wf_cstr k -> tok_is t (TString JSDRV_JSON_KEY k) ->
  on_value addr s t = Ok (0, with_state s (key_next (v_state s) k)).
Proof.
  intros Hd Hk Ht. assert (op t = JSDRV_JSON_KEY) as Ho by (by destruct Ht as (_ & m & ->)).
  unfold on_value. rewrite Ho. change (JSDRV_JSON_KEY =? JSDRV_JSON_VALUE) with false.
  change (JSDRV_JSON_KEY =? JSDRV_JSON_KEY) with true. cbv iota zeta. unfold on_value_key. rewrite Hd. change (1 =? 1) with true.
  assert (forall n, wf_cstr (str n) -> token_is n t = Ok (bool_decide (k = str n))) as He
    by (intros n Hn; by eapply token_is_string).
  rewrite !He by (repeat constructor; done).
  pose proof (with_state_id s) as Hid. unfold key_next. destruct (v_state s) eqn:E; cbn -[str bool_decide];
    repeat case_bool_decide; cbn; rewrite ?Hid; done.
Qed.

Definition members (l : list (cstr * json)) : jmembers := fold_right (fun p r => MCons p.1 p.2 r) MNil l.

Lemma tokens_members_app l l' : tokens_members (members (l ++ l')) = tokens_members (members l) ++ tokens_members (members l').
Proof. induction l as [|[k v] l IH]; [done|]. cbn [members fold_right Datatypes.app tokens_members fst snd]. fold (members (l ++ l')). rewrite IH. cbn [members fold_right]. by rewrite <- app_assoc. Qed.

(** The members that the search passes over. *)
Lemma pass_members l : forall s ts,
  v_depth s = 1 -> quiet s -> Forall (fun p => wf_cstr p.1 /\ key_next (v_state s) p.1 = v_state s) l ->
  jdepth_members (members l) < 255 -> Forall2 tok_is ts (tokens_members (members l)) ->
  mrun (on_value addr) s ts = Ok (0, s).
Proof.
  induction l as [|[k v] l IH]; intros s ts Hd Hq Hl Hj Hts; [by apply Forall2_nil_inv_r in Hts as ->|].
  apply Forall_cons_1 in Hl as [[Hk Hnx] Hl]. cbn [members fold_right tokens_members jdepth_members fst snd] in *.
  fold (members l) in *.
  apply Forall2_cons_inv_r in Hts as (t & ts' & Ht & Hts & ->). apply Forall2_app_inv_r in Hts as (t1 & t2 & Ht1 & Ht2 & ->).
  cbn [mrun]. rewrite (on_key s t k), bind_Ok, Hnx, with_state_id by done. cbn [Z.eqb].
  rewrite mrun_app, (proj1 skips_json v s t1), bind_Ok by (done || lia). cbn [Z.eqb].
  apply IH; done || lia.
Qed.

End Value.

(** ** Options: the values they list and the value they are compared with *)

Inductive oval := OInt (z : Z) | OStr (s : cstr).
#[global] Instance oval_eq_dec : EqDecision oval.
Proof. solve_decision. Defined.

Definition oval_json (o : oval) : json := match o with OInt z => JInt z | OStr s => JStr s end.
Definition oval_token (o : oval) : token := match o with OInt z => TInt z | OStr s => TString JSDRV_JSON_VALUE s end.

(** The integer or the string that a value of the union stands for. *)
Definition stands (x : jsdrv_union_s) (w : oval) : Prop :=
  match w with
  | OInt z => is_int x /\ int_value x = Some z
  | OStr s => type x = JSDRV_UNION_STR /\ wf_cstr s /\ (size x = 0 \/ size x = len s + 1)
              /\ exists m, value x = Mem (Some (s ++ 0 :: m))
  end.

Lemma int_token t z : tok_is t (TInt z) -> is_int t /\ int_value t = Some z.
Proof.
  intros (Hz & ->). case_if.
  - bool_facts. assert (is_s 32 z) as H32 by width_lia. split.
    + split; [by vm_compute|]. eexists; split; [reflexivity|]. apply uwrap_range; lia.
    + pose proof (view_i32 z H32) as Hv. unfold view in Hv. cbn in Hv. unfold int_value. cbn. by injection Hv as ->.
  - split.
    + split; [by vm_compute|]. eexists; split; [reflexivity|]. apply uwrap_range; lia.
    + pose proof (view_i64 z Hz) as Hv. unfold view in Hv. cbn in Hv. unfold int_value. cbn. by injection Hv as ->.
Qed.

Lemma widen_str x : type x = JSDRV_UNION_STR -> jsdrv_union_widen x = Ok x.
Proof. unfold jsdrv_union_widen. by intros ->. Qed.

Lemma eq_str x s t o s' : stands x (OStr s) -> tok_is t (TString o s') ->
  jsdrv_union_eq x t = Ok (bool_decide (s = s')).
Proof.
  intros (Hx & Hws & Hsz & m & Hv) (_ & m' & ->). pose proof (len_nonneg s); pose proof (len_nonneg s').
  unfold jsdrv_union_eq, object. rewrite Hx, Hv. cbn [type value]. rewrite !Z.eqb_refl, orb_true_r.
  change (JSDRV_UNION_STR =? JSDRV_UNION_NULL) with false. cbn [negb]. rewrite !bind_Ok.
  assert (str_size x (s ++ 0 :: m) = Ok (len s + 1)) as ->.
  { unfold str_size. destruct Hsz as [-> | ->]; [|by rewrite (proj2 (Z.eqb_neq (len s + 1) 0)) by lia].
    unfold obj_strlen. by rewrite cstr_at_app. }
  rewrite bind_Ok. unfold str_size. cbn [size]. rewrite (proj2 (Z.eqb_neq (len s' + 1) 0)), bind_Ok by lia.
  destruct (Z.eqb_spec (len s + 1) (len s' + 1)) as [E|E]; cbn [negb].
  - unfold mem_eq. rewrite !len_app, !len_cons. pose proof (len_nonneg m). pose proof (len_nonneg (m' ++ [0])). simpl_cmp. cbn [andb].
    replace (Z.to_nat (len s + 1 - 1)) with (length s) by (unfold len; lia).
    rewrite take_app_length. replace (length s) with (length s') by (unfold len in E; lia). by rewrite take_app_length.
  - rewrite bool_decide_false by (intros ->; lia). done.
Qed.

Lemma equiv_stands x w t o :
  stands x w -> tok_is t (oval_token o) -> jsdrv_union_equiv x t = Ok (bool_decide (w = o)).
Proof.
  intros Hx Ht. destruct w as [z|s], o as [z'|s']; cbn [oval_token] in *.
  - destruct Hx as [Hx Hz], (int_token _ _ Ht) as [Ht' Hz']. rewrite equiv_int, Hz, Hz' by done.
    f_equal. apply bool_decide_ext. split; by intros [= ->].
  - destruct Hx as [Hx Hz], (widen_int x Hx) as (y & b & Hw & Hy & _ & Hty & _), Ht as (_ & m & ->).
    unfold jsdrv_union_equiv. rewrite Hw, bind_Ok, widen_str, bind_Ok by done. unfold jsdrv_union_eq. cbn [type].
    rewrite (bool_decide_false (OInt z = OStr s')) by done. by destruct Hty as [-> | ->].
  - destruct (int_token _ _ Ht) as [Ht' Hz'], (widen_int t Ht') as (y & b & Hw & Hy & _ & Hty & _), Hx as (Hx & _).
    unfold jsdrv_union_equiv. rewrite (widen_str x), bind_Ok, Hw, bind_Ok by done. unfold jsdrv_union_eq.
    rewrite Hx, (bool_decide_false (OStr s = OInt z')) by done. by destruct Hty as [-> | ->].
  - pose proof (eq_str x s t _ s' Hx Ht) as He. destruct Hx as (Hx & _), Ht as (_ & m & ->).
    unfold jsdrv_union_equiv. rewrite (widen_str x), bind_Ok, widen_str, bind_Ok, He, bind_Ok, Hx by done.
    rewrite (bool_decide_ext (OStr s = OStr s') (s = s')) by (split; [by intros [= ->] | by intros ->]).
    by case_bool_decide.
Qed.

(** *** Conversion of a string to the integer type *)

Definition narrow_unsigned (t : Z) : bool := (t =? JSDRV_UNION_U8) || (t =? JSDRV_UNION_U16) || (t =? JSDRV_UNION_U32).
Definition narrow_signed (t : Z) : bool := (t =? JSDRV_UNION_I8) || (t =? JSDRV_UNION_I16) || (t =? JSDRV_UNION_I32).

(** A string that reads as a number becomes that number, cut to the width of the type. *)
Definition conv (t : Z) (w : oval) : res oval :=
  match w with
  | OInt _ => Ok w
  | OStr s =>
      if narrow_unsigned t then
        let '(rc, v) := jsdrv_cstr_to_u32 (Some s) (Some 0) in
        Ok (if rc =? 0 then OInt (uwrap (int_width t) (default 0 v)) else w)
      else if narrow_signed t then
        '(rc, v) ← jsdrv_cstr_to_i32 (Some s) (Some 0);
        Ok (if rc =? 0 then OInt (swrap (int_width t) (default 0 v)) else w)
      else Ok w
  end.

Lemma put_mod w b v n : 0 <= n <= w -> put w b v mod 2 ^ n = v mod 2 ^ n.
Proof.
  intros Hn. unfold put. replace (2 ^ w) with (2 ^ (w - n) * 2 ^ n) by (rewrite <- Z.pow_add_r by lia; f_equal; lia).
  rewrite Z.mul_assoc, Z.add_comm, Z.mod_add by (pose proof (Z.pow_pos_nonneg 2 n); lia).
  apply Z.mod_mod_divide. by exists (2 ^ (w - n)).
Qed.

Lemma put_range w b v : 0 <= w <= 64 -> is_u 64 b -> is_u 64 (put w b v).
Proof.
  intros Hw Hb. unfold put, is_u in *. rewrite Z.shiftr_div_pow2 by lia. assert (0 < 2 ^ w) by (apply Z.pow_pos_nonneg; lia).
  pose proof (Z.mod_pos_bound v (2 ^ w) ltac:(lia)). assert (0 <= b / 2 ^ w) by (apply Z.div_pos; lia).
  assert (2 ^ 64 = 2 ^ (64 - w) * 2 ^ w) as E by (rewrite <- Z.pow_add_r by lia; f_equal; lia).
  assert (b / 2 ^ w < 2 ^ (64 - w)) by (apply Z.div_lt_upper_bound; lia).
  assert (b / 2 ^ w * 2 ^ w + 2 ^ w <= 2 ^ (64 - w) * 2 ^ w) by (rewrite <- Z.mul_succ_l; apply Z.mul_le_mono_nonneg_r; lia).
  split; [apply Z.add_nonneg_nonneg; [apply Z.mul_nonneg_nonneg|]; lia | lia].
Qed.

Section Options.
Context (addr : list Z -> Z) (Haddr : forall m, is_u 64 (addr m)).

Lemma store_low_stands x m t v z :
  value x = Mem (Some m) -> narrow_unsigned t || narrow_signed t = true ->
  z = (if narrow_unsigned t then uwrap (int_width t) v else swrap (int_width t) v) ->
  stands (store_low addr x t 32 v) (OInt z).
Proof.
  intros Hx Ht ->. unfold store_low, inner_bits. rewrite Hx. cbn [stands]. pose proof (put_range 32 (addr m) v ltac:(lia) (Haddr m)) as Hp.
  assert (t = 8 \/ t = 9 \/ t = 10 \/ t = 12 \/ t = 13 \/ t = 14) as Hc.
  { unfold narrow_unsigned, narrow_signed, JSDRV_UNION_U8, JSDRV_UNION_U16, JSDRV_UNION_U32, JSDRV_UNION_I8, JSDRV_UNION_I16, JSDRV_UNION_I32 in Ht.
    bool_facts. lia. }
  split; [split; [cbn [type set_value set_type]; unfold JSDRV_UNION_U8, JSDRV_UNION_I64; lia | eauto]|].
  unfold int_value. cbn [value type set_value set_type].
  destruct Hc as [->|[->|[->|[->|[->| ->]]]]]; cbn -[put uwrap swrap]; f_equal; unfold uwrap, swrap;
    try (apply put_mod; lia); f_equal; rewrite Zplus_mod, put_mod, <- Zplus_mod by lia; done.
Qed.

Lemma convert_stands s w w' :
  stands (v_value s) w -> conv (v_type s) w = Ok w' ->
  exists x, maybe_convert_str_to_type addr s = Ok (with_value s x) /\ stands x w'.
Proof.
  assert (with_value s (v_value s) = s) as Hid by (by destruct s).
  intros Hx Hc. unfold maybe_convert_str_to_type. destruct w as [z|c]; cbn [conv] in Hc.
  - injection Hc as <-. exists (v_value s). rewrite Hid. split; [|done]. destruct Hx as [[Ht _] _].
    unfold JSDRV_UNION_U8, JSDRV_UNION_I64 in Ht. rewrite (proj2 (Z.eqb_neq _ JSDRV_UNION_STR)); [done|].
    unfold JSDRV_UNION_STR. lia.
  - destruct Hx as (Ht & Hw & Hsz & m & Hv) eqn:E. clear E. rewrite Ht. change (JSDRV_UNION_STR =? JSDRV_UNION_STR) with true. cbn [negb].
    fold (narrow_unsigned (v_type s)) (narrow_signed (v_type s)).
    assert (str_arg (value (v_value s)) = Ok (Some c)) as Ha by (unfold str_arg; by rewrite Hv, cstr_at_app).
    destruct (narrow_unsigned (v_type s)) eqn:Eu.
    + rewrite Ha, bind_Ok. destruct (jsdrv_cstr_to_u32 _ _) as [rc v]. destruct (rc =? 0); injection Hc as <-.
      * eexists; split; [reflexivity|]. eapply store_low_stands; [done | by rewrite Eu | by rewrite Eu].
      * exists (v_value s). by rewrite Hid.
    + destruct (narrow_signed (v_type s)) eqn:Es; [|injection Hc as <-; exists (v_value s); by rewrite Hid].
      rewrite Ha, bind_Ok. destruct (jsdrv_cstr_to_i32 _ _) as [[rc v]|f]; [|done]. rewrite bind_Ok. cbn [mbind res_bind] in Hc.
      destruct (rc =? 0); injection Hc as <-.
      * eexists; split; [reflexivity|]. eapply store_low_stands; [done | by rewrite Es, orb_true_r | by rewrite Eu].
      * exists (v_value s). by rewrite Hid.
Qed.
(** *** The options array *)

Definition jl (l : list json) : jlist := fold_right JCons JNil l.
Definition row_json (r : Z * list oval) : json := JArr (jl (map oval_json (OInt r.1 :: r.2))).
Definition options_json (rows : list (Z * list oval)) : json := JArr (jl (map row_json rows)).

(** The option a value selects: the first row that lists it. *)
Definition row_has (w : oval) (r : Z * list oval) : bool := existsb (fun o => bool_decide (w = o)) (OInt r.1 :: r.2).
Definition select (w : oval) (rows : list (Z * list oval)) : option Z := fst <$> List.find (row_has w) rows.

Lemma tokens_ovals l : tokens_list (jl (map oval_json l)) = map oval_token l.
Proof. induction l as [|[z|c] l IH]; [done | |]; cbn [map jl fold_right tokens_list tokens oval_json]; fold (jl (map oval_json l)); by rewrite IH. Qed.

Context (T lo hi : Z) (HT : int_range T = Some (lo, hi)) (x : jsdrv_union_s) (w : oval) (Hx : stands x w).

(** The union [o] holds the number [z] of a row, at the type of the topic. *)
Definition opt_is (o : jsdrv_union_inner_u) (z : Z) : Prop := exists b, o = Word b /\ read_int T b = Some z.

(** The state inside the options: nothing selected yet, or the number of a row. *)
Definition searching (st : value_state_e) (d : Z) (s : value_s) : Prop :=
  v_state s = st /\ v_depth s = d /\ v_type s = T /\ v_value s = x.
Definition selected (z d : Z) (s : value_s) : Prop :=
  v_state s = VALUE_ST_OPTIONS_MATCH /\ v_depth s = d /\ type (v_value s) = T /\ int_value (v_value s) = Some z.

Lemma option_step s t o z :
  searching VALUE_ST_OPTIONS_VAL 3 s -> tok_is t (oval_token o) -> op t = JSDRV_JSON_VALUE ->
  (array_idx s = 0 /\ o = OInt z /\ lo <= z <= hi) \/ (0 < array_idx s < 255 /\ opt_is (v_option s) z) ->
  exists s', on_value addr s t = Ok (0, s')
    /\ if bool_decide (w = o) then selected z 3 s'
       else searching VALUE_ST_OPTIONS_VAL 3 s' /\ array_idx s' = array_idx s + 1 /\ opt_is (v_option s') z.
Proof.
  intros (Hst & Hd & Hty & Hv) Ht Hop Hz. unfold on_value. rewrite Hop, Hst. cbn -[on_option_value]. unfold on_option_value.
  set (s1 := with_idx s (array_idx s + 1)).
  assert (v_type s1 = T /\ v_value s1 = x /\ v_state s1 = VALUE_ST_OPTIONS_VAL /\ v_depth s1 = 3) as (F1 & F2 & F3 & F4) by done.
  assert (array_idx s1 = array_idx s + 1) as F5 by (cbn; apply uwrap_small; width_lia).
  assert (exists o', (if array_idx s =? 0
      then '(rc, t) ← jsdrv_union_as_type t (v_type s1); Ok (if rc =? 0 then Some (value t) else None)
      else Ok (Some (v_option s1))) = Ok (Some o') /\ opt_is o' z) as (o' & -> & Ho').
  { destruct Hz as [(-> & -> & Hr)|(Hi & Ho)].
    - change (0 =? 0) with true. cbv iota. destruct (int_token t z Ht) as [Hit Hiz]. rewrite F1.
      destruct (as_type_int t T z lo hi Hit HT Hiz) as (y & -> & Hy & Hyt). simpl_cmp. cbn [andb].
      exists (value y). split; [done|]. unfold int_value in Hy. specialize (Hyt Hr). rewrite Hyt in Hy.
      destruct (value y) as [b|]; [|done]. by exists b.
    - rewrite (proj2 (Z.eqb_neq _ 0)) by lia. by exists (v_option s1). }
  rewrite bind_Ok. cbn [v_value v_state v_type v_depth array_idx v_range].
  rewrite F2, (equiv_stands x w t o Hx Ht), bind_Ok. eexists; split; [reflexivity|]. case_bool_decide.
  - destruct Ho' as (b & -> & Hb). unfold selected. cbn [v_state v_depth v_value with_state with_value type set_type set_value].
    rewrite F1. split; [done|]. split; [done|]. split; [done|]. unfold int_value. cbn [value type set_type set_value]. done.
  - unfold searching. cbn [v_state v_depth v_value v_type array_idx v_option]. done.
Qed.

Lemma oval_op t o : tok_is t (oval_token o) -> op t = JSDRV_JSON_VALUE.
Proof. destruct o; cbn [oval_token tok_is]; [intros (_ & ->); by case_if | by intros (_ & m & ->)]. Qed.

Lemma selected_quiet z d s : selected z d s -> 2 <= d -> quiet s.
Proof. intros (H1 & H2 & _) Hd. unfold quiet. rewrite H1. lia. Qed.

Lemma jdepth_ovals l : jdepth_list (jl (map oval_json l)) = 0.
Proof. induction l as [|[z|c] l IH]; [done| |]; cbn [map jl fold_right jdepth_list jdepth oval_json]; fold (jl (map oval_json l)); lia. Qed.

(** The rest of a row, behind its number. *)
Lemma aliases_run os : forall s ts z,
  searching VALUE_ST_OPTIONS_VAL 3 s -> 0 < array_idx s -> array_idx s + len os < 256 -> opt_is (v_option s) z ->
  Forall2 tok_is ts (map oval_token os) ->
  exists s', mrun (on_value addr) s ts = Ok (0, s')
    /\ if existsb (fun o => bool_decide (w = o)) os then selected z 3 s' else searching VALUE_ST_OPTIONS_VAL 3 s'.
Proof.
  induction os as [|o os IH]; intros s ts z Hs Hi Hl Ho Hts.
  - apply Forall2_nil_inv_r in Hts as ->. by exists s.
  - apply Forall2_cons_inv_r in Hts as (t & ts' & Ht & Hts & ->). rewrite len_cons in Hl. pose proof (len_nonneg os).
    destruct (option_step s t o z Hs Ht (oval_op t o Ht)) as (s' & He & Hs'); [right; split; [lia | done]|].
    cbn [mrun existsb]. rewrite He, bind_Ok. cbn [Z.eqb]. case_bool_decide; cbn [orb].
    + exists s'. split; [|done]. pose proof (selected_quiet z 3 s' Hs' ltac:(lia)) as Hq. destruct Hs' as (_ & Hd & _).
      rewrite <- tokens_ovals in Hts. apply (proj1 (proj2 (skips_json addr)) (jl (map oval_json os))); [done | lia | rewrite jdepth_ovals; lia | done].
    + destruct Hs' as (Hs' & Hi' & Ho'). apply IH; done || lia.
Qed.

Definition row_fits (r : Z * list oval) : Prop := lo <= r.1 <= hi /\ len r.2 < 254.

Lemma row_run r s ts :
  searching VALUE_ST_OPTIONS 2 s -> row_fits r -> Forall2 tok_is ts (tokens (row_json r)) ->
  exists s', mrun (on_value addr) s ts = Ok (0, s')
    /\ if row_has w r then selected r.1 2 s' else searching VALUE_ST_OPTIONS 2 s'.
Proof.
  destruct r as [z os]. intros (Hst & Hd & Hty & Hv) [Hr Hl] Hts. unfold row_json, row_has in *. cbn [fst snd] in *.
  cbn [tokens] in Hts. rewrite tokens_ovals in Hts. cbn [map Datatypes.app] in Hts.
  apply Forall2_cons_inv_r in Hts as (t0 & ts0 & -> & Hts & ->).
  apply Forall2_cons_inv_r in Hts as (t1 & ts1 & Ht1 & Hts & ->).
  apply Forall2_app_inv_r in Hts as (ts2 & ts3 & Hts2 & Hts3 & ->).
  apply Forall2_cons_inv_r in Hts3 as (t4 & ts4 & -> & Hts4 & ->). apply Forall2_nil_inv_r in Hts4 as ->.
  set (s1 := with_state (with_idx (with_depth s 3) 0) VALUE_ST_OPTIONS_VAL).
  assert (on_value addr s (delim JSDRV_JSON_ARRAY_START) = Ok (0, s1)) as E1.
  { unfold on_value. cbn -[on_array_start]. f_equal. f_equal. unfold on_array_start. rewrite Hd.
    assert (v_state (with_depth s (2 + 1)) = VALUE_ST_OPTIONS) as E by done. rewrite E. done. }
  assert (searching VALUE_ST_OPTIONS_VAL 3 s1) as Hs1 by done.
  destruct (option_step s1 t1 (OInt z) z Hs1 Ht1 (oval_op t1 (OInt z) Ht1)) as (s2 & E2 & Hs2); [by left|].
  cbn [mrun]. rewrite E1, bind_Ok. cbn [Z.eqb]. rewrite E2, bind_Ok. cbn [Z.eqb existsb]. rewrite mrun_app.
  assert (exists s', mrun (on_value addr) s2 ts2 = Ok (0, s')
    /\ if bool_decide (w = OInt z) || existsb (fun o => bool_decide (w = o)) os then selected z 3 s' else searching VALUE_ST_OPTIONS_VAL 3 s')
    as (s3 & -> & Hs3).
  { case_bool_decide; cbn [orb].
    - exists s2. split; [|done]. pose proof (selected_quiet z 3 s2 Hs2 ltac:(lia)) as Hq. destruct Hs2 as (_ & Hd2 & _).
      rewrite <- tokens_ovals in Hts2. apply (proj1 (proj2 (skips_json addr)) (jl (map oval_json os))); [done | lia | rewrite jdepth_ovals; lia | done].
    - destruct Hs2 as (Hs2 & Hi2 & Ho2). change (array_idx s1) with 0 in Hi2. apply aliases_run; done || lia. }
  rewrite bind_Ok. cbn [Z.eqb mrun]. destruct (_ || _); destruct Hs3 as (S1 & S2 & S3 & S4);
    unfold on_value; cbn -[on_array_end]; unfold on_array_end; rewrite S1, S2; cbn -[selected searching with_depth with_state];
    (eexists; split; [reflexivity|]); unfold selected, searching; split_and!;
    cbn [with_depth with_state v_state v_depth v_type v_value]; rewrite ?S2; done.
Qed.

Lemma rows_run rows : forall s ts,
  searching VALUE_ST_OPTIONS 2 s -> Forall row_fits rows -> jdepth_list (jl (map row_json rows)) < 254 ->
  Forall2 tok_is ts (tokens_list (jl (map row_json rows))) ->
  exists s', mrun (on_value addr) s ts = Ok (0, s')
    /\ match select w rows with Some z => selected z 2 s' | None => searching VALUE_ST_OPTIONS 2 s' end.
Proof.
  induction rows as [|r rows IH]; intros s ts Hs Hf Hj Hts; [apply Forall2_nil_inv_r in Hts as ->; by exists s|].
  apply Forall_cons_1 in Hf as [Hr Hf]. cbn [map jl fold_right tokens_list jdepth_list] in Hts, Hj. fold (jl (map row_json rows)) in *.
  apply Forall2_app_inv_r in Hts as (t1 & t2 & Ht1 & Ht2 & ->).
  destruct (row_run r s t1 Hs Hr Ht1) as (s' & He & Hs'). rewrite mrun_app, He, bind_Ok. cbn [Z.eqb].
  unfold select. cbn [List.find]. destruct (row_has w r).
  - exists s'. split; [|done]. pose proof (selected_quiet r.1 2 s' Hs' ltac:(lia)) as Hq. destruct Hs' as (_ & Hd & _).
    apply (proj1 (proj2 (skips_json addr)) (jl (map row_json rows))); [done | lia | lia | done].
  - apply IH; done || lia.
Qed.

(** The whole array: the value is replaced by the number of its row, or refused. *)
Lemma options_run rows s ts :
  searching VALUE_ST_OPTIONS 1 s -> Forall row_fits rows -> jdepth (options_json rows) < 254 ->
  Forall2 tok_is ts (tokens (options_json rows)) ->
  exists s', mrun (on_value addr) s ts
      = Ok (match select w rows with Some _ => 0 | None => EC_PARAMETER_INVALID end, s')
    /\ match select w rows with
       | Some z => v_state s' = VALUE_ST_SEARCH /\ v_depth s' = 1 /\ type (v_value s') = T /\ int_value (v_value s') = Some z
       | None => v_value s' = x
       end.
Proof.
  intros (Hst & Hd & Hty & Hv) Hf Hj Hts. cbn [options_json tokens jdepth] in Hts, Hj.
  apply Forall2_cons_inv_r in Hts as (t0 & ts0 & -> & Hts & ->). apply Forall2_app_inv_r in Hts as (t1 & t2 & Ht1 & Ht2 & ->).
  apply Forall2_cons_inv_r in Ht2 as (t4 & ts4 & -> & Hts4 & ->). apply Forall2_nil_inv_r in Hts4 as ->.
  assert (on_value addr s (delim JSDRV_JSON_ARRAY_START) = Ok (0, with_depth s 2)) as E1.
  { clear -Hst Hd. destruct s as [st ty d i v o r]. cbn in Hst, Hd. by subst. }
  destruct (rows_run rows (with_depth s 2) t1) as (s' & He & Hs'); [done | done | lia | done |].
  cbn [mrun]. rewrite E1, bind_Ok. cbn [Z.eqb]. rewrite mrun_app, He, bind_Ok. cbn [Z.eqb mrun].
  destruct (select w rows) as [z|]; destruct Hs' as (S1 & S2 & S3 & S4);
    unfold on_value; cbn -[on_array_end]; unfold on_array_end; rewrite S1, S2; cbn -[with_depth with_state];
    (eexists; split; [reflexivity|]); [|done]; split_and!;
    cbn [with_depth with_state v_state v_depth v_type v_value]; rewrite ?S2; done.
Qed.

End Options.

(** ** The validation of an object with options *)

Definition int_dtypes : list (cstr * Z) :=
  Eval cbv in map (fun '(n, t) => (str n, t))
    [("u8", JSDRV_UNION_U8); ("u16", JSDRV_UNION_U16); ("u32", JSDRV_UNION_U32); ("u64", JSDRV_UNION_U64);
     ("i8", JSDRV_UNION_I8); ("i16", JSDRV_UNION_I16); ("i32", JSDRV_UNION_I32); ("i64", JSDRV_UNION_I64)]%string.

Lemma cstr_at_prefix s m : wf_cstr s -> exists k, cstr_at (s ++ m ++ [0]) = Some (s ++ k).
Proof.
  intros Hs. assert (exists k, cstr_at (m ++ [0]) = Some k) as (k & Hk).
  { clear. induction m as [|c m [k Hk]]; [by exists []|]. cbn [Datatypes.app cstr_at]. rewrite Hk.
    destruct (c =? 0); [by eexists | by exists (c :: k)]. }
  exists k. induction Hs as [|c s Hc Hs IH]; cbn [Datatypes.app cstr_at]; [done|].
  by rewrite (proj2 (Z.eqb_neq c 0)), IH by done.
Qed.

Lemma int_dtype_cases (P : cstr -> Z -> Prop) name T :
  In (name, T) int_dtypes -> Forall (fun p => P p.1 p.2) int_dtypes -> P name T.
Proof. intros Hin Hall. rewrite List.Forall_forall in Hall. apply (Hall (name, T) Hin). Qed.

Lemma dtype_string_step addr s t name T w w' :
  (forall m, is_u 64 (addr m)) -> In (name, T) int_dtypes -> v_state s = VALUE_ST_DTYPE_KEY ->
  tok_is t (TString JSDRV_JSON_VALUE name) -> stands (v_value s) w -> conv T w = Ok w' ->
  exists x, on_value addr s t = Ok (0, with_state (with_value (with_type s T) x) VALUE_ST_SEARCH) /\ stands x w'.
Proof.
  intros Ha Hin Hst Ht Hx Hc.
  assert (wf_cstr name) as Hw by (apply (int_dtype_cases (fun n _ => wf_cstr n) name T Hin); repeat constructor; done).
  assert (dtype_lookup t (v_type s) = Ok (0, T)) as Hl.
  { unfold dtype_lookup. rewrite (dtype_find_string dtype_map t _ name) by (done || (repeat constructor; done)).
    rewrite bind_Ok. apply (int_dtype_cases (fun n T => (snd <$> List.find (fun p => bool_decide (n = p.1)) dtype_map) = Some T) name T) in Hin.
    - by rewrite Hin.
    - repeat constructor; by vm_compute. }
  assert (op t = JSDRV_JSON_VALUE) as Ho by (by destruct Ht as (_ & m & ->)).
  unfold on_value. rewrite Ho, Hst. cbn -[on_dtype_value]. unfold on_dtype_value. destruct Ht as (_ & m & Ht).
  destruct (cstr_at_prefix name (34 :: m) Hw) as (k & Hk). unfold str_arg. rewrite Ht. cbn [value]. rewrite <- Ht.
  cbn [Datatypes.app] in Hk. rewrite Hk, bind_Ok. cbn [jsdrv_cstr_starts_with].
  assert (starts_with_loop (name ++ k) (str "bool") = None) as ->.
  { apply (int_dtype_cases (fun n _ => starts_with_loop (n ++ k) (str "bool") = None) name T Hin). repeat constructor; done. }
  rewrite Hl, bind_Ok. destruct (convert_stands addr Ha (with_type s T) w w' Hx Hc) as (x & -> & Hx'). rewrite bind_Ok. by exists x.
Qed.

Lemma wf_members_keys l : wf_members (members l) -> Forall (fun p => wf_cstr p.1 /\ wf_json p.2) l.
Proof.
  induction l as [|[k v] l IH]; [by constructor|]. cbn [members fold_right wf_members fst snd]. fold (members l).
  intros (Hk & Hv & Hl). constructor; [split; [by apply plain_wf | done] | by apply IH].
Qed.

Lemma jdepth_members_le l : Forall (fun p => jdepth p.2 <= jdepth_members (members l)) l.
Proof.
  induction l as [|[k v] l IH]; [done|]. cbn [members fold_right jdepth_members fst snd]. fold (members l).
  constructor; [cbn; lia|]. eapply Forall_impl; [exact IH|]. intros p Hp. cbn in *. lia.
Qed.

Lemma jdepth_members_app l l' :
  jdepth_members (members (l ++ l')) = Z.max (jdepth_members (members l)) (jdepth_members (members l')).
Proof.
  induction l as [|[k v] l IH]; cbn [members fold_right jdepth_members Datatypes.app fst snd].
  - pose proof (proj2 (proj2 jdepth_nonneg) (members l')). unfold members in *. lia.
  - fold (members (l ++ l')) (members l). rewrite IH. lia.
Qed.

Definition quiet_key_names (k : cstr) : Prop := k <> str "range" /\ k <> str "options".

Lemma search_key k : quiet_key_names k -> key_next VALUE_ST_SEARCH k = VALUE_ST_SEARCH.
Proof. intros [H1 H2]. unfold key_next. by rewrite !bool_decide_false. Qed.

(** An object with a type, options, and members that validation does not read. *)
Definition options_meta (name : cstr) (pre mid : list (cstr * json)) (rows : list (Z * list oval))
    (post : list (cstr * json)) : json :=
  JObj (members (pre ++ (str "dtype", JStr name) :: mid ++ (str "options", options_json rows) :: post)).

Section Validate.
Context (pow : f64 -> f64 -> f64) (addr : list Z -> Z) (Haddr : forall m, is_u 64 (addr m)).
Context (name : cstr) (T lo hi : Z) (pre mid post : list (cstr * json)) (rows : list (Z * list oval)).
Context (Hname : In (name, T) int_dtypes) (HT : int_range T = Some (lo, hi)).
Context (Hpre : Forall (fun p => p.1 <> str "dtype") pre).
Context (Hmid : Forall (fun p => quiet_key_names p.1) mid) (Hpost : Forall (fun p => quiet_key_names p.1) post).
Context (Hrows : Forall (row_fits lo hi) rows).

(** The outer brace, the members before the type, the type. *)
Lemma dtype_run x w w' ts :
  Forall (fun p => wf_cstr p.1 /\ wf_json p.2) pre -> jdepth_members (members pre) < 255 ->
  Forall2 tok_is ts (TDelim JSDRV_JSON_OBJ_START :: tokens_members (members (pre ++ [(str "dtype", JStr name)]))) ->
  stands x w -> conv T w = Ok w' ->
  exists s', mrun (on_value addr) (value_init x) ts = Ok (0, s')
    /\ v_state s' = VALUE_ST_SEARCH /\ v_depth s' = 1 /\ v_type s' = T /\ v_range s' = [Word 0; Word 0; Word 0]
    /\ stands (v_value s') w'.
Proof.
  intros Hwf Hj Hts Hx Hc. apply Forall2_cons_inv_r in Hts as (t0 & ts0 & -> & Hts & ->).
  rewrite tokens_members_app in Hts. apply Forall2_app_inv_r in Hts as (t1 & t2 & Ht1 & Ht2 & ->).
  cbn [members fold_right tokens_members tokens fst snd Datatypes.app] in Ht2.
  apply Forall2_cons_inv_r in Ht2 as (tk & ts3 & Htk & Hts3 & ->). apply Forall2_cons_inv_r in Hts3 as (tv & ts4 & Htv & Hts4 & ->).
  apply Forall2_nil_inv_r in Hts4 as ->. set (s1 := with_depth (value_init x) 1).
  assert (on_value addr (value_init x) (delim JSDRV_JSON_OBJ_START) = Ok (0, s1)) as E1 by done.
  cbn [mrun]. rewrite E1, bind_Ok. cbn [Z.eqb]. rewrite mrun_app, (pass_members addr pre s1 t1), bind_Ok; [| done | done | | done | done].
  2: { apply Forall_forall. intros p Hp. rewrite Forall_forall in Hpre, Hwf. split; [by apply Hwf|].
       unfold key_next. cbn -[str bool_decide]. by rewrite bool_decide_false by (by apply Hpre). }
  cbn [Z.eqb mrun]. rewrite (on_key addr s1 tk (str "dtype")), bind_Ok by (done || (repeat constructor; done)). cbn [Z.eqb].
  destruct (dtype_string_step addr (with_state s1 (key_next (v_state s1) (str "dtype"))) tv name T w w') as (x' & -> & Hx'); try done.
  rewrite bind_Ok. cbn [Z.eqb]. by eexists.
Qed.
Lemma quiet_members_wf l : Forall (fun p => quiet_key_names p.1) l -> Forall (fun p => wf_cstr p.1 /\ wf_json p.2) l ->
  Forall (fun p => wf_cstr p.1 /\ key_next VALUE_ST_SEARCH p.1 = VALUE_ST_SEARCH) l.
Proof. rewrite !Forall_forall. intros H1 H2 p Hp. split; [by apply H2 | by apply search_key, H1]. Qed.

(** The members behind the type, the options, the rest. *)
Lemma options_tail_run s w ts :
  v_state s = VALUE_ST_SEARCH -> v_depth s = 1 -> v_type s = T -> stands (v_value s) w ->
  Forall (fun p => wf_cstr p.1 /\ wf_json p.2) (mid ++ post) ->
  jdepth_members (members mid) < 254 -> jdepth (options_json rows) < 254 -> jdepth_members (members post) < 254 ->
  Forall2 tok_is ts (tokens_members (members (mid ++ (str "options", options_json rows) :: post)) ++ [TDelim JSDRV_JSON_OBJ_END]) ->
  exists s', mrun (on_value addr) s ts = Ok (match select w rows with Some _ => 0 | None => EC_PARAMETER_INVALID end, s')
    /\ match select w rows with
       | Some z => type (v_value s') = T /\ int_value (v_value s') = Some z
       | None => stands (v_value s') w
       end.
Proof.
  intros Hst Hd Hty Hx Hwf J1 J2 J3 Hts. apply Forall_app in Hwf as [Hw1 Hw2].
  apply Forall2_app_inv_r in Hts as (t & te & Hts & Hte & ->). rewrite tokens_members_app in Hts.
  apply Forall2_app_inv_r in Hts as (t1 & t2 & Ht1 & Ht2 & ->).
  cbn [members fold_right tokens_members fst snd] in Ht2. fold (members post) in Ht2.
  apply Forall2_cons_inv_r in Ht2 as (tk & ts3 & Htk & Hts3 & ->). apply Forall2_app_inv_r in Hts3 as (t4 & t5 & Ht4 & Ht5 & ->).
  assert (quiet s) as Hq by (unfold quiet; rewrite Hst; lia).
  rewrite !mrun_app, (pass_members addr mid s t1), bind_Ok by (done || lia || (rewrite Hst; by apply quiet_members_wf)).
  cbn [Z.eqb mrun]. rewrite (on_key addr s tk (str "options")), bind_Ok by (done || (repeat constructor; done)).
  rewrite Hst. change (key_next VALUE_ST_SEARCH (str "options")) with VALUE_ST_OPTIONS. cbn [Z.eqb]. rewrite mrun_app.
  destruct (options_run addr T lo hi HT (v_value s) w Hx rows (with_state s VALUE_ST_OPTIONS) t4) as (s2 & -> & Hs2); [done | done | done | done |].
  rewrite bind_Ok. destruct (select w rows) as [z|].
  - destruct Hs2 as (S1 & S2 & S3 & S4). cbn [Z.eqb].
    assert (quiet s2) as Hq2 by (unfold quiet; rewrite S1; lia).
    rewrite (pass_members addr post s2 t5), bind_Ok by (done || lia || (rewrite S1; by apply quiet_members_wf)).
    cbn [Z.eqb]. apply Forall2_cons_inv_r in Hte as (t6 & ts6 & -> & Hts6 & ->). apply Forall2_nil_inv_r in Hts6 as ->.
    cbn [mrun]. by eexists.
  - change (EC_PARAMETER_INVALID =? 0) with false. cbv iota. rewrite bind_Ok. change (EC_PARAMETER_INVALID =? 0) with false.
    cbv iota. exists s2. split; [done|]. by rewrite Hs2.
Qed.

End Validate.


(** ** Where validation departs from its documentation *)

Section Departures.
Context (pow : f64 -> f64 -> f64) (addr : list Z -> Z) (Haddr : forall m, is_u 64 (addr m)).

Definition range_meta (name : cstr) (a b : Z) : json :=
  JObj (members [(str "dtype", JStr name); (str "range", JArr (jl [JInt a; JInt b]))]).

Lemma range_step T v o r i t : 0 <= i < 3 -> length r = 3%nat -> op t = JSDRV_JSON_VALUE ->
  exists r', length r' = 3%nat /\ on_value addr (mk_value VALUE_ST_RANGE_VAL T 2 i v o r) t
    = Ok (0, mk_value VALUE_ST_RANGE_VAL T 2 (u8 (i + 1)) v o r').
Proof.
  intros Hi Hr Ht. exists (<[Z.to_nat i := value t]> r). split; [by rewrite length_insert|].
  unfold on_value. rewrite Ht. cbn -[on_range_value]. unfold on_range_value. cbn [array_idx v_range v_state v_type v_depth v_value v_option].
  rewrite (proj2 (Z.leb_gt 3 i)) by lia. by rewrite st_ok, bind_Ok by (unfold len; lia).
Qed.

(** A range is read but never applied: metadata with an integer type and any range accepts
    every integer value, of any type and inside the range or not, and leaves it as it is. *)
Lemma meta_range_ignored name T a b x z :
  In (name, T) int_dtypes -> wf_json (range_meta name a b) -> len (print (range_meta name a b)) < 2 ^ 32 - 2 ->
  is_int x -> int_value x = Some z ->
  exists x', jsdrv_meta_value pow addr (Some (print (range_meta name a b))) (Some x) = Ok (0, Some x')
    /\ is_int x' /\ int_value x' = Some z.
Proof.
  intros Hn Hw Hl Hx Hz.
  destruct (parse_with_printed pow (on_value addr) _ (value_init x) Hw ltac:(done) Hl) as (ts & Hts & He).
  unfold jsdrv_meta_value. rewrite He. clear He Hl Hw.
  change (tokens (range_meta name a b)) with ((TDelim JSDRV_JSON_OBJ_START :: tokens_members (members ([] ++ [(str "dtype", JStr name)])))
    ++ [TString JSDRV_JSON_KEY (str "range"); TDelim JSDRV_JSON_ARRAY_START; TInt a; TInt b; TDelim JSDRV_JSON_ARRAY_END; TDelim JSDRV_JSON_OBJ_END]) in Hts.
  apply Forall2_app_inv_r in Hts as (t1 & t2 & Ht1 & Ht2 & ->). rewrite mrun_app.
  destruct (dtype_run addr Haddr name T [] Hn (Forall_nil_2 _) x (OInt z) (OInt z) t1) as ([st ty d i v o r] & -> & S1 & S2 & S3 & S5 & S4);
    [constructor | done | done | done | done |].
  rewrite bind_Ok. cbn [Z.eqb v_state v_depth v_type v_value v_range] in *. subst st d ty r.
  apply Forall2_cons_inv_r in Ht2 as (tk & ts3 & Htk & Hts & ->). cbn [mrun].
  rewrite (on_key addr _ tk (str "range")), bind_Ok by (done || (repeat constructor; done)). cbn [Z.eqb].
  apply Forall2_cons_inv_r in Hts as (t4 & ts4 & -> & Hts & ->). apply Forall2_cons_inv_r in Hts as (ta & ts5 & Hta & Hts & ->).
  apply Forall2_cons_inv_r in Hts as (tb & ts6 & Htb & Hts & ->). apply Forall2_cons_inv_r in Hts as (t7 & ts7 & -> & Hts & ->).
  apply Forall2_cons_inv_r in Hts as (t8 & ts8 & -> & Hts & ->). apply Forall2_nil_inv_r in Hts as ->.
  assert (op ta = JSDRV_JSON_VALUE) as Ha by (by apply (oval_op ta (OInt a))).
  assert (op tb = JSDRV_JSON_VALUE) as Hb by (by apply (oval_op tb (OInt b))).
  set (s0 := with_state _ _). exists v. split; [|done].
  assert (on_value addr s0 (delim JSDRV_JSON_ARRAY_START) = Ok (0, mk_value VALUE_ST_RANGE_VAL T 2 0 v o [Word 0; Word 0; Word 0])) as E by done.
  cbn [mrun]. rewrite E, bind_Ok. cbn [Z.eqb].
  destruct (range_step T v o [Word 0; Word 0; Word 0] 0 ta ltac:(lia) eq_refl Ha) as (r1 & Hr1 & ->). rewrite bind_Ok. cbn [Z.eqb].
  destruct (range_step T v o r1 (u8 (0 + 1)) tb ltac:(done) Hr1 Hb) as (r2 & Hr2 & ->). rewrite bind_Ok. cbn [Z.eqb]. done.
Qed.

Definition number_dtype (z : Z) : json := JObj (members [(str "dtype", JInt z)]).

Lemma dtype_find_int m t z : tok_is t (TInt z) -> dtype_find m t = Ok None.
Proof.
  intros (_ & ->). induction m as [|[n ty] m IH]; [done|]. cbn [dtype_find]. unfold jsdrv_json_strcmp.
  by case_if; cbn -[dtype_find jsdrv_union_i32 jsdrv_union_i64].
Qed.

Lemma dtype_lookup_int t z ty : tok_is t (TInt z) -> dtype_lookup t ty = Fault OutOfBounds.
Proof.
  intros Ht. unfold dtype_lookup. rewrite (dtype_find_int _ t z Ht), bind_Ok. destruct Ht as (_ & ->).
  assert (size (if (I32_MIN <=? z) && (z <=? I32_MAX) then jsdrv_union_i32 z else jsdrv_union_i64 z) = 0) as -> by (by case_if).
  done.
Qed.

Lemma number_dtype_ok z : I64_MIN < z <= I64_MAX ->
  wf_json (number_dtype z) /\ len (print (number_dtype z)) < 2 ^ 32 - 2.
Proof.
  intros Hz. split; [split; [repeat constructor; done | split; [exact Hz | done]]|].
  assert (len (fmt_d z) <= 21) as Hf.
  { unfold fmt_d. pose proof (dec_digits_len 20 20 (Z.abs z) []) as Hd. unfold len in *. cbn [List.length] in Hd.
    case_if; [replace (- z) with (Z.abs z) by lia; cbn [List.length] | replace (Z.abs z) with z in Hd by lia]; lia. }
  unfold number_dtype. cbn [print print_members members fold_right fst snd]. rewrite len_cons, !len_app, len_cons. unfold len in *. cbn. lia.
Qed.

Lemma number_dtype_tokens z ts : Forall2 tok_is ts (tokens (number_dtype z)) ->
  exists tk ti, ts = [delim JSDRV_JSON_OBJ_START; tk; ti; delim JSDRV_JSON_OBJ_END]
    /\ tok_is tk (TString JSDRV_JSON_KEY (str "dtype")) /\ tok_is ti (TInt z).
Proof.
  change (tokens (number_dtype z))
    with [TDelim JSDRV_JSON_OBJ_START; TString JSDRV_JSON_KEY (str "dtype"); TInt z; TDelim JSDRV_JSON_OBJ_END].
  intros Hts. apply Forall2_cons_inv_r in Hts as (t0 & ts0 & -> & Hts & ->).
  apply Forall2_cons_inv_r in Hts as (tk & ts1 & Htk & Hts & ->). apply Forall2_cons_inv_r in Hts as (ti & ts2 & Hti & Hts & ->).
  apply Forall2_cons_inv_r in Hts as (t3 & ts3 & -> & Hts & ->). apply Forall2_nil_inv_r in Hts as ->. by eexists _, _.
Qed.

Lemma number_dtype_dtype z d : I64_MIN < z <= I64_MAX ->
  jsdrv_meta_dtype pow (Some (print (number_dtype z))) d = Fault OutOfBounds.
Proof.
  intros Hz. destruct (number_dtype_ok z Hz) as [Hw Hl]. unfold jsdrv_meta_dtype.
  destruct (parse_with_printed pow on_dtype _ (mk_dtype 0 false) Hw ltac:(done) Hl) as (ts & Hts & ->).
  destruct (number_dtype_tokens z ts Hts) as (tk & ti & -> & Htk & Hti). cbn [mrun].
  assert (on_dtype (mk_dtype 0 false) (delim JSDRV_JSON_OBJ_START) = Ok (0, mk_dtype 0 false)) as -> by done. rewrite bind_Ok. cbn [Z.eqb].
  assert (on_dtype (mk_dtype 0 false) tk = Ok (0, mk_dtype 0 true)) as ->.
  { unfold on_dtype. rewrite (token_is_string "dtype" tk _ (str "dtype")) by (done || (repeat constructor; done)).
    by destruct Htk as (_ & m & ->). }
  rewrite bind_Ok. cbn [Z.eqb]. unfold on_dtype. rewrite (oval_op ti (OInt z) Hti). cbn -[dtype_lookup]. by rewrite (dtype_lookup_int ti z 0 Hti).
Qed.

Lemma number_dtype_value z x : I64_MIN < z <= I64_MAX ->
  jsdrv_meta_value pow addr (Some (print (number_dtype z))) (Some x) = Fault OutOfBounds.
Proof.
  intros Hz. destruct (number_dtype_ok z Hz) as [Hw Hl]. unfold jsdrv_meta_value.
  destruct (parse_with_printed pow (on_value addr) _ (value_init x) Hw ltac:(done) Hl) as (ts & Hts & ->).
  destruct (number_dtype_tokens z ts Hts) as (tk & ti & -> & Htk & Hti). cbn [mrun]. set (s1 := with_depth (value_init x) 1).
  assert (on_value addr (value_init x) (delim JSDRV_JSON_OBJ_START) = Ok (0, s1)) as -> by done. rewrite bind_Ok. cbn [Z.eqb].
  rewrite (on_key addr s1 tk (str "dtype")), bind_Ok by (done || (repeat constructor; done)). cbn [Z.eqb].
  unfold on_value. rewrite (oval_op ti (OInt z) Hti). cbn -[on_dtype_value]. unfold on_dtype_value.
  destruct (int_token ti z Hti) as [(_ & b & Hb & _) _]. unfold str_arg. rewrite Hb. destruct (b =? 0); [|done].
  rewrite bind_Ok. cbn [jsdrv_cstr_starts_with]. by rewrite (dtype_lookup_int ti z _ Hti).
Qed.

(** Metadata whose type is a number breaks both readers: the error path for an unknown type
    terminates the copy of its name at index [size - 1], and the size of a number is 0, so that the
    terminator is stored 4 GiB behind the buffer (the validation dereferences a non-zero number
    as a string first). *)
Lemma meta_number_dtype_oob z x d :
  I64_MIN < z <= I64_MAX ->
  jsdrv_meta_dtype pow (Some (print (number_dtype z))) d = Fault OutOfBounds
  /\ jsdrv_meta_value pow addr (Some (print (number_dtype z))) (Some x) = Fault OutOfBounds.
Proof. intros Hz. split; [by apply number_dtype_dtype | by apply number_dtype_value]. Qed.
End Departures.

Lemma meta_range_ignored_witness :
  let v := range_meta (str "u8") 0 10 in
  exists x', jsdrv_meta_value f64_mul (fun _ => 0) (Some (print v)) (Some (jsdrv_union_u32 200)) = Ok (0, Some x')
    /\ is_int x' /\ int_value x' = Some 200.
Proof.
  apply (meta_range_ignored f64_mul (fun _ => 0) ltac:(done) (str "u8") JSDRV_UNION_U8 0 10).
  - by left.
  - cbn. repeat split; repeat constructor; done.
  - by vm_compute.
  - split; [done|]. by exists 200.
  - done.
Defined.

Lemma meta_number_dtype_oob_witness :
  jsdrv_meta_dtype f64_mul (Some (print (number_dtype 7))) (Some 0) = Fault OutOfBounds
  /\ jsdrv_meta_value f64_mul (fun _ => 0) (Some (print (number_dtype 7))) (Some (jsdrv_union_u32 1)) = Fault OutOfBounds.
Proof. by apply meta_number_dtype_oob. Defined.

(** The default is stored as the parser read it, not at the type: a float topic whose default is
    the integer 1 gets the float with the bits 1. *)
Lemma meta_default_not_converted :
  exists v, jsdrv_meta_default f64_mul
    (Some (print (JObj (members [(str "dtype", JStr (str "f32")); (str "default", JInt 1)])))) (Some jsdrv_union_null) = Ok (0, Some v)
  /\ type v = JSDRV_UNION_F32 /\ value v = Word 1 /\ SFeqb (f32_of_bits 1) (f32_of_Z 1) = false.
Proof. eexists. split; [vm_compute; reflexivity|]. by vm_compute. Qed.

(** A string is cut to the width of the type before the options are searched: "258" selects 2. *)
Lemma meta_value_string_cut :
  let v := options_meta (str "u8") [] [] [(2, [])] [] in
  exists x', jsdrv_meta_value f64_mul (fun _ => 0) (Some (print v)) (Some (jsdrv_union_str (str "258" ++ [0]))) = Ok (0, Some x')
    /\ int_value x' = Some 2.
Proof. eexists. split; [vm_compute; reflexivity | by vm_compute]. Qed.

(** ** Flags *)

Definition flag_value (name : cstr) : Z :=
  if bool_decide (name = str "ro") then JSDRV_META_FLAG_RO
  else if bool_decide (name = str "hide") then JSDRV_META_FLAG_HIDE
  else if bool_decide (name = str "dev") then JSDRV_META_FLAG_DEV else 0.

Lemma flag_of_string t o s : wf_cstr s -> tok_is t (TString o s) -> flag_of t = Ok (flag_value s).
Proof.
  intros Hs Ht. unfold flag_of, flag_value.
  rewrite !(token_is_string _ t o s) by (done || (repeat constructor; done)). rewrite !bind_Ok.
  by repeat case_bool_decide.
Qed.

Lemma flags_run l : forall f ts ts', Forall wf_cstr l ->
  Forall2 tok_is ts (tokens_list (jl (map JStr l)) ++ [TDelim JSDRV_JSON_ARRAY_END]) ->
  mrun on_flags (mk_flags FLAGS_ST_ARRAY 1 f) (ts ++ ts')
  = Ok (EC_ABORTED, mk_flags FLAGS_ST_ARRAY 1 (fold_left (fun f s => Z.lor f (flag_value s)) l f)).
Proof.
  induction l as [|s l IH]; intros f ts ts' Hl Hts; cbn [map jl fold_right tokens_list tokens Datatypes.app] in Hts.
  - by apply Forall2_cons_inv_r in Hts as (t & ts0 & -> & Hts & ->).
  - fold (jl (map JStr l)) in Hts. apply Forall_cons_1 in Hl as [Hs Hl].
    apply Forall2_cons_inv_r in Hts as (t & ts0 & Ht & Hts & ->). cbn [Datatypes.app mrun fold_left].
    assert (on_flags (mk_flags FLAGS_ST_ARRAY 1 f) t = Ok (0, mk_flags FLAGS_ST_ARRAY 1 (Z.lor f (flag_value s)))) as ->.
    { unfold on_flags. assert (op t = JSDRV_JSON_VALUE) as -> by (by destruct Ht as (_ & m & ->)). cbn -[flag_of].
      by rewrite (flag_of_string t _ s Hs Ht). }
    rewrite bind_Ok. cbn [Z.eqb]. by apply IH.
Qed.

(** The flags of a list are the bits of its known names; unknown names are ignored. *)
Lemma meta_flags_array pow l f0 :
  let v := JObj (members [(str "flags", JArr (jl (map JStr l)))]) in
  wf_json v -> len (print v) < 2 ^ 32 - 2 -> Forall wf_cstr l ->
  jsdrv_meta_flags pow (Some (print v)) (Some f0) = Ok (0, Some (fold_left (fun f s => Z.lor f (flag_value s)) l 0)).
Proof.
  intros v Hw Hl Hs. assert (jdepth v <= DEPTH_MAX) as Hd.
  { assert (jdepth_list (jl (map JStr l)) = 0) as E
      by (clear; induction l as [|s l IH]; [done|]; cbn [map jl fold_right jdepth_list jdepth]; fold (jl (map JStr l)); lia).
    unfold v, DEPTH_MAX. cbn [members fold_right fst snd jdepth jdepth_members]. lia. }
  destruct (parse_with_printed pow on_flags v (mk_flags FLAGS_ST_SEARCH 0 0) Hw Hd Hl) as (ts & Hts & He).
  unfold jsdrv_meta_flags. rewrite He. unfold v in Hts. cbn [tokens tokens_members members fold_right fst snd] in Hts.
  apply Forall2_cons_inv_r in Hts as (t0 & ts0 & -> & Hts & ->). cbn [Datatypes.app] in Hts.
  apply Forall2_cons_inv_r in Hts as (tk & ts1 & Htk & Hts & ->). apply Forall2_cons_inv_r in Hts as (t2 & ts2 & -> & Hts & ->).
  rewrite <- !app_assoc in Hts. rewrite app_assoc in Hts. apply Forall2_app_inv_r in Hts as (t3 & t4 & Ht3 & _ & ->).
  assert (on_flags (mk_flags FLAGS_ST_SEARCH 1 0) tk = Ok (0, mk_flags FLAGS_ST_KEY 1 0)) as Ek.
  { unfold on_flags. rewrite (token_is_string "flags" tk _ (str "flags")) by (done || (repeat constructor; done)).
    by destruct Htk as (_ & m & ->). }
  cbn [mrun]. assert (on_flags (mk_flags FLAGS_ST_SEARCH 0 0) (delim JSDRV_JSON_OBJ_START) = Ok (0, mk_flags FLAGS_ST_SEARCH 1 0)) as -> by done.
  rewrite bind_Ok. cbn [Z.eqb]. rewrite Ek, bind_Ok. cbn [Z.eqb].
  assert (on_flags (mk_flags FLAGS_ST_KEY 1 0) (delim JSDRV_JSON_ARRAY_START) = Ok (0, mk_flags FLAGS_ST_ARRAY 1 0)) as -> by done.
  rewrite bind_Ok. cbn [Z.eqb]. by rewrite (flags_run l 0 t3 t4 Hs Ht3), bind_Ok.
Qed.
