(* ===== verification/MetaSafe.v ===== *)
(** * Validation never leaves its objects

    For every value the driver handles and every metadata text whose "dtype" members are strings
    other than "str" and "json", [jsdrv_meta_value] ends with a code and a value that is again one
    the driver handles.  Publish and subscribe relies on this for the values it retains. *)

From Stdlib Require Import Strings.String.
From S2P Require Import Prelude Float Cstr ErrorCode Time Union Json Meta.

(** ** The values the driver handles: the member that the type names is there *)

Definition is_text (t : Z) : Prop := t = JSDRV_UNION_STR \/ t = JSDRV_UNION_JSON.
Definition is_binary (t : Z) : Prop := t = JSDRV_UNION_BIN \/ t = JSDRV_UNION_STDMSG \/ t = JSDRV_UNION_FRAME.
Definition is_number (t : Z) : Prop := JSDRV_UNION_F32 <= t <= JSDRV_UNION_I64.

Definition value_wf (v : jsdrv_union_s) : Prop :=
  (type v = JSDRV_UNION_NULL)
  \/ (is_number (type v) /\ exists b, value v = Word b)
  \/ (is_text (type v) /\ exists o c, value v = Mem (Some o) /\ cstr_at o = Some c /\ 0 <= size v <= len o)
  \/ (is_binary (type v) /\ exists o, value v = Mem (Some o) /\ 0 <= size v <= len o /\ (size v = 0 -> is_Some (cstr_at o))).

Lemma cstr_at_len o c : cstr_at o = Some c -> len c + 1 <= len o /\ wf_cstr c.
Proof.
  revert c. induction o as [|x o IH]; intros c; cbn [cstr_at]; [done|]. case_if.
  - intros [= <-]. rewrite len_cons. pose proof (len_nonneg o). split; [unfold len at 1; cbn; lia | constructor].
  - destruct (cstr_at o) as [c'|]; [|done]. intros [= <-]. destruct (IH c' eq_refl). rewrite !len_cons. split; [lia | by constructor].
Qed.

Ltac types := unfold is_text, is_binary, is_number, JSDRV_UNION_NULL, JSDRV_UNION_STR, JSDRV_UNION_JSON, JSDRV_UNION_BIN, JSDRV_UNION_STDMSG,
  JSDRV_UNION_FRAME, JSDRV_UNION_F32, JSDRV_UNION_F64, JSDRV_UNION_U8, JSDRV_UNION_U16, JSDRV_UNION_U32, JSDRV_UNION_U64,
  JSDRV_UNION_I8, JSDRV_UNION_I16, JSDRV_UNION_I32, JSDRV_UNION_I64 in *.

(** Case analysis on a number type. *)
Ltac number_cases H :=
  lazymatch type of H with
  | is_number ?t =>
      let K := fresh "Ht" in
      assert (t = 6 \/ t = 7 \/ t = 8 \/ t = 9 \/ t = 10 \/ t = 11 \/ t = 12 \/ t = 13 \/ t = 14 \/ t = 15) as K
        by (unfold is_number, JSDRV_UNION_F32, JSDRV_UNION_I64 in H; lia);
      destruct K as [K|[K|[K|[K|[K|[K|[K|[K|[K|K]]]]]]]]]; rewrite ?K in *
  end.

(** The comparison of two such values, whatever their types. *)
Lemma str_size_ok v o c : value v = Mem (Some o) -> cstr_at o = Some c -> 0 <= size v <= len o ->
  exists n, str_size v o = Ok n /\ 0 < n <= len o.
Proof.
  intros Hv Hc Hs. destruct (cstr_at_len o c Hc) as [Hl _]. pose proof (len_nonneg c). unfold str_size, obj_strlen. rewrite Hc.
  destruct (Z.eqb_spec (size v) 0); eexists; (split; [reflexivity | lia]).
Qed.

Lemma mem_eq_ok a b n : n <= len a -> n <= len b -> exists r, mem_eq a b n = Ok r.
Proof. intros. unfold mem_eq. simpl_cmp. cbn [andb]. by eexists. Qed.

Lemma union_eq_ok x y : value_wf x -> value_wf y -> exists b, jsdrv_union_eq x y = Ok b.
Proof.
  intros Hx Hy. unfold jsdrv_union_eq. destruct (Z.eqb_spec (type x) (type y)) as [E|E]; cbn [negb]; [|by eexists].
  destruct (Z.eqb_spec (type x) JSDRV_UNION_NULL) as [En|En]; [by eexists|].
  destruct Hx as [Hx|[[Hx (b & Hb)]|[[Hx (o & c & Hv & Hc & Hs)]|[Hx (o & Hv & Hs & _)]]]]; [done | | |];
  destruct Hy as [Hy|[[Hy (b' & Hb')]|[[Hy (o' & c' & Hv' & Hc' & Hs')]|[Hy (o' & Hv' & Hs' & _)]]]]; try (types; exfalso; lia).
  - unfold word. rewrite Hb, Hb', !bind_Ok. number_cases Hx; cbn -[SFeqb f32_of_bits f64_of_bits uwrap swrap]; by eexists.
  - unfold object. rewrite Hv, Hv', !bind_Ok.
    destruct (str_size_ok x o c Hv Hc Hs) as (n & -> & Hn), (str_size_ok y o' c' Hv' Hc' Hs') as (n' & -> & Hn').
    rewrite !bind_Ok. assert ((type x =? JSDRV_UNION_JSON) || (type x =? JSDRV_UNION_STR) = true) as ->
      by (destruct Hx as [-> | ->]; done).
    case_if; [by eexists|]. apply mem_eq_ok; lia.
  - unfold object. rewrite Hv, Hv', !bind_Ok. assert ((type x =? JSDRV_UNION_JSON) || (type x =? JSDRV_UNION_STR) = false) as ->
      by (destruct Hx as [->|[->| ->]]; done).
    assert ((type x =? JSDRV_UNION_BIN) || (type x =? JSDRV_UNION_STDMSG) || (type x =? JSDRV_UNION_FRAME) = true) as ->
      by (destruct Hx as [->|[->| ->]]; done).
    case_if; [by eexists|]. bool_facts. apply mem_eq_ok; lia.
Qed.

Lemma widen_wf x : value_wf x -> exists y, jsdrv_union_widen x = Ok y /\ value_wf y
  /\ (is_number (type x) -> is_number (type y)) /\ (~ is_number (type x) -> y = x).
Proof.
  intros [Hx|[[Hx (b & Hb)]|[[Hx H]|[Hx H]]]].
  - exists x. unfold jsdrv_union_widen. assert (value_wf x) by (by left). rewrite Hx. split_and!; done.
  - unfold jsdrv_union_widen, word. rewrite Hb. number_cases Hx; cbn -[bits_of_f64 f64_of_f32 f32_of_bits uwrap swrap];
      (eexists; split; [reflexivity|]); (split; [right; left; cbn [type set_type set_value value]; split; [types; rewrite ?Ht; lia | by eexists]|]);
      (split; [intros _; cbn [type set_type set_value]; types; rewrite ?Ht; lia | intros []; types; lia]).
  - exists x. unfold jsdrv_union_widen. assert (value_wf x) by (by do 2 right; left). destruct Hx as [E|E]; rewrite E in *; split_and!; done || (by types).
  - exists x. unfold jsdrv_union_widen. assert (value_wf x) by (by do 3 right). destruct Hx as [E|[E|E]]; rewrite E in *; split_and!; done || (by types).
Qed.

Lemma number_word x : value_wf x -> is_number (type x) -> exists b, word x = Ok b.
Proof.
  intros [Hx|[[_ (b & Hb)]|[[Hx _]|[Hx _]]]] Hn; [types; lia | | types; lia | types; lia]. exists b. unfold word. by rewrite Hb.
Qed.

Lemma equiv_ok x y : value_wf x -> value_wf y -> exists b, jsdrv_union_equiv x y = Ok b.
Proof.
  intros Hx Hy. unfold jsdrv_union_equiv. destruct (widen_wf x Hx) as (x' & -> & Hx' & _), (widen_wf y Hy) as (y' & -> & Hy' & _).
  rewrite !bind_Ok. destruct (union_eq_ok x' y' Hx' Hy') as ([|] & ->); rewrite bind_Ok; [by eexists|].
  assert (forall z, value_wf z -> type z = JSDRV_UNION_U64 \/ type z = JSDRV_UNION_I64 -> exists b, word z = Ok b) as Hword.
  { intros z Hz Ht. apply number_word; [done|]. types. destruct Ht as [-> | ->]; lia. }
  destruct (Z.eqb_spec (type x') JSDRV_UNION_U64) as [E1|E1]; [|destruct (Z.eqb_spec (type x') JSDRV_UNION_I64) as [E2|E2]; [|by eexists]].
  all: destruct (Hword x' Hx' ltac:(auto)) as (b & Hb); rewrite Hb.
  all: destruct (Z.eqb_spec (type y') JSDRV_UNION_U64) as [F1|F1]; [|destruct (Z.eqb_spec (type y') JSDRV_UNION_I64) as [F2|F2]; [|by eexists]].
  all: destruct (Hword y' Hy' ltac:(auto)) as (b' & Hb'); rewrite Hb', !bind_Ok; by eexists.
Qed.

(** A string value that is read as a number does not overflow on the way. *)
Definition conv_safe (v : jsdrv_union_s) : Prop := forall o c,
  type v = JSDRV_UNION_STR -> value v = Mem (Some o) -> cstr_at o = Some c ->
  exists r, jsdrv_cstr_to_i32 (Some c) (Some 0) = Ok r.

Lemma conv_safe_number v : type v <> JSDRV_UNION_STR -> conv_safe v.
Proof. intros H o c E. done. Qed.

(** ** Tokens *)

Definition token_wf (k : token) : Prop :=
  match k with TString o s => (o = JSDRV_JSON_VALUE \/ o = JSDRV_JSON_KEY) /\ wf_cstr s | TOther => False | _ => True end.

Lemma token_value_wf t k : token_wf k -> tok_is t k -> value_wf t.
Proof.
  destruct k as [o s|z|o|]; cbn [token_wf tok_is]; [| | by intros _ ->; left | done].
  - intros [_ Hs] (Hl & m & ->). right; right; left. cbn [type value size]. split; [by left|].
    destruct (cstr_at_prefix s (34 :: m) Hs) as (c & Hc). exists (s ++ 34 :: m ++ [0]), (s ++ c). split; [done|]. split; [exact Hc|].
    rewrite len_app, len_cons. pose proof (len_nonneg s). pose proof (len_nonneg (m ++ [0])). lia.
  - intros _ Ht. destruct (int_token t z Ht) as [(Hi & b & Hb & _) _]. right; left. split; [types; lia | by exists b].
Qed.

Lemma token_is_ok t k name : wf_cstr (str name) -> token_wf k -> tok_is t k -> exists b, token_is name t = Ok b
  /\ (b = true -> exists o, k = TString o (str name)).
Proof.
  intros Hn Hk Ht. destruct k as [o s|z|o|]; cbn [token_wf] in Hk; [| | |done].
  - destruct Hk as [_ Hs]. rewrite (token_is_string name t o s Hn Hs Ht). eexists; split; [done|]. intros E%bool_decide_eq_true. exists o. by rewrite E.
  - destruct Ht as (_ & ->). exists false. split; [|done]. by destruct ((I32_MIN <=? z) && (z <=? I32_MAX)).
  - cbn in Ht. subst t. by exists false.
Qed.

(** The types a "dtype" string stands for, but the text types. *)
Definition type_ok (t : Z) : Prop := is_number t \/ is_binary t.

Lemma as_type_ok t k T : type_ok T -> token_wf k -> tok_is t k ->
  exists rc y, jsdrv_union_as_type t T = Ok (rc, y) /\ (rc = 0 -> is_number T /\ exists b, value y = Word b).
Proof.
  intros HT Hk Ht. destruct k as [o s|z|o|]; cbn [token_wf] in Hk; [| | |done].
  - destruct Ht as (_ & m & ->). unfold jsdrv_union_as_type. rewrite widen_str, bind_Ok by done. cbn [type].
    rewrite (proj2 (Z.eqb_neq JSDRV_UNION_STR T)) by (unfold type_ok in HT; types; lia). by eexists _, _.
  - destruct (int_token t z Ht) as [Hi Hz]. destruct (widen_int t Hi) as (y & b & Hw & Hy & _ & Hty & _).
    unfold jsdrv_union_as_type. rewrite Hw, bind_Ok. destruct (Z.eqb_spec (type y) T) as [<-|Hne].
    { eexists _, _. split; [done|]. intros _. split; [types; lia | by exists b]. }
    assert ((type y =? JSDRV_UNION_U64) || (type y =? JSDRV_UNION_I64) = true) as -> by (destruct Hty as [-> | ->]; done).
    unfold word. rewrite Hy, bind_Ok.
    destruct (T =? JSDRV_UNION_F32) eqn:E1; bool_facts; [eexists _, _; split; [done|]; intros _; split; [types; lia | by eexists]|].
    destruct (T =? JSDRV_UNION_F64) eqn:E2; bool_facts; [eexists _, _; split; [done|]; intros _; split; [types; lia | by eexists]|].
    destruct (int_range T) as [[lo hi]|] eqn:Er; [|by eexists _, _].
    assert (is_number T) by (unfold int_range in Er; repeat (case_if_in Er; [subst; by types|]); discriminate).
    case_if; [by eexists _, _|]. eexists _, _. split; [done|]. intros _. split; [done | by exists b].
  - cbn in Ht. subst t. unfold jsdrv_union_as_type. change (jsdrv_union_widen (delim o)) with (Ok (delim o)). rewrite bind_Ok. cbn [type delim].
    rewrite (proj2 (Z.eqb_neq JSDRV_UNION_NULL T)) by (unfold type_ok in HT; types; lia). by eexists _, _.
Qed.

(** ** The state machine *)

Definition good_dtype (nm : cstr) : Prop := nm <> str "str" /\ nm <> str "json".
Definition is_dtype_key (k : token) : Prop := k = TString JSDRV_JSON_KEY (str "dtype").

(** Behind a "dtype" key comes a string, not "str" or "json". *)
Fixpoint dtype_ok (armed : Prop) (ks : list token) : Prop :=
  match ks with
  | [] => True
  | k :: ks => token_wf k /\ (armed -> exists nm, k = TString JSDRV_JSON_VALUE nm /\ good_dtype nm) /\ dtype_ok (is_dtype_key k) ks
  end.

Section Safe.
Context (addr : list Z -> Z).

(** The value that is validated, or the number it was turned into. *)
Definition kept_value (a y : jsdrv_union_s) : Prop :=
  y = a \/ (is_number (type y) /\ (exists b, value y = Word b) /\ app y = app a /\ flags y = flags a /\ ~ is_binary (type a)).

Lemma kept_wf a y : value_wf a -> conv_safe a -> kept_value a y -> value_wf y /\ conv_safe y.
Proof.
  intros Hw Hc [->|(Hn & Hb & _)]; [done|]. split; [by right; left|]. apply conv_safe_number. types. lia.
Qed.

Record safe_state (a : jsdrv_union_s) (s : value_s) : Prop := {
  ss_value : kept_value a (v_value s);
  ss_range : length (v_range s) = 3%nat;
  ss_idx : 0 <= array_idx s;
  ss_type : v_state s <> VALUE_ST_DTYPE_SEARCH -> v_state s <> VALUE_ST_DTYPE_KEY -> type_ok (v_type s);
  ss_option : v_state s = VALUE_ST_OPTIONS_VAL -> array_idx s = 0 \/ (is_number (v_type s) /\ exists b, v_option s = Word b) }.

(** Steps that touch the state, the depth and the index only. *)
Lemma safe_move a s s' : safe_state a s ->
  v_value s' = v_value s -> v_range s' = v_range s -> v_type s' = v_type s -> 0 <= array_idx s' ->
  (v_state s' <> VALUE_ST_DTYPE_SEARCH -> v_state s' <> VALUE_ST_DTYPE_KEY -> v_state s <> VALUE_ST_DTYPE_SEARCH /\ v_state s <> VALUE_ST_DTYPE_KEY) ->
  (v_state s' = VALUE_ST_OPTIONS_VAL -> array_idx s' = 0 \/ (v_state s = VALUE_ST_OPTIONS_VAL /\ array_idx s' = array_idx s /\ v_option s' = v_option s)) ->
  safe_state a s'.
Proof.
  intros [H1 H4 H5 H6 H7] Ev Er Et Hi Hs Ho. split; rewrite ?Ev, ?Er, ?Et; try done.
  - intros G1 G2. destruct (Hs G1 G2). by apply H6.
  - intros G. destruct (Ho G) as [E|(G' & E & ->)]; [by left|]. destruct (H7 G') as [F|F]; [left; lia | by right].
Qed.

Lemma dtype_lookup_ok t o nm ty : wf_cstr nm -> tok_is t (TString o nm) -> good_dtype nm ->
  exists rc T, dtype_lookup t ty = Ok (rc, T) /\ ((rc = 0 /\ type_ok T) \/ (rc <> 0 /\ T = ty)).
Proof.
  intros Hw Ht [G1 G2]. unfold dtype_lookup. rewrite (dtype_find_string dtype_map t o nm) by (done || (repeat constructor; done)).
  rewrite bind_Ok. destruct (List.find _ dtype_map) as [[n T]|] eqn:E; cbn [fmap option_fmap option_map snd].
  - exists 0, T. split; [done|]. left. split; [done|]. apply find_some in E as [Hin E]. apply bool_decide_eq_true in E. cbn in E. subst n.
    unfold dtype_map in Hin. cbn [In] in Hin. unfold type_ok. types.
    repeat destruct Hin as [[= <- <-]|Hin]; try done; try lia.
  - destruct Ht as (Hl & m & ->). cbn [size]. pose proof (len_nonneg nm). set (sz := if 32 <? len nm + 1 then 32 else len nm + 1).
    assert (1 <= sz <= 32 /\ sz <= len nm + 1) as [Hs1 Hs2] by (unfold sz; case_if; lia).
    rewrite (proj2 (Z.eqb_neq sz 0)) by lia. unfold object. cbn [value]. rewrite bind_Ok.
    destruct (mem_copy_ok (replicate 32 0) 0 (nm ++ 34 :: m ++ [0]) 0 sz) as (e & -> & He & _);
      [lia | lia | rewrite len_app, len_cons; pose proof (len_nonneg (m ++ [0])); lia | lia | unfold len; rewrite length_replicate; lia |].
    rewrite bind_Ok. unfold len in He at 2; rewrite length_replicate in He. rewrite st_ok, bind_Ok by (rewrite uwrap_small by width_lia; lia).
    exists EC_PARAMETER_INVALID, ty. split; [done|]. right. done.
Qed.

Lemma to_bool_ok v : value_wf v -> exists rc b, jsdrv_union_to_bool (replicate 16 0) v false = Ok (rc, b).
Proof.
  intros [H|[[H (b & Hb)]|[[H (o & c & Hv & Hc & _)]|[H _]]]]; unfold jsdrv_union_to_bool.
  - rewrite H. by eexists _, _.
  - unfold word. rewrite Hb. number_cases H; cbn -[SFeqb f32_of_bits f64_of_bits uwrap swrap bool_decide]; by eexists _, _.
  - assert (exists rc b, ('(rc, v) ← jsdrv_cstr_to_bool (replicate 16 0) (Some c) (Some false);
      Ok (if rc =? 0 then 0 else EC_PARAMETER_INVALID, default false v)) = Ok (rc, b)) as (rc & b & E).
    { destruct (cstr_at_len o c Hc) as [_ Hw]. unfold jsdrv_cstr_to_bool.
      destruct (jsdrv_cstr_copy_spec (replicate 16 0) c 16) as [-> _]; [by vm_compute|]. rewrite bind_Ok.
      cbn [mbind option_bind]. unfold copied. rewrite cstr_at_app by (by apply Forall_take).
      cbn [jsdrv_cstr_toupper]. destruct (jsdrv_cstr_to_index _ _ _) as [[|?|?] ?]; [by eexists _, _| |];
        destruct (jsdrv_cstr_to_index _ _ _) as [[|?|?] ?]; by eexists _, _. }
    unfold object. rewrite Hv, bind_Ok, Hc. destruct H as [-> | ->]; cbn [Z.eqb orb JSDRV_UNION_STR JSDRV_UNION_JSON]; exists rc, b; exact E.
  - destruct H as [->|[->| ->]]; by eexists _, _.
Qed.

Lemma kept_store a x t w v : kept_value a x -> is_number t -> ~ is_binary (type x) -> kept_value a (store_low addr x t w v).
Proof. intros H Ht Hb. right. split; [done|]. split; [by eexists|]. by destruct H as [-> | (_ & _ & ? & ? & ?)]. Qed.

(** Binary data is no truth value and equals no token. *)
Lemma to_bool_binary v rc b : is_binary (type v) -> jsdrv_union_to_bool (replicate 16 0) v false = Ok (rc, b) -> rc <> 0.
Proof. unfold jsdrv_union_to_bool. intros [->|[->| ->]] [= <- _]; done. Qed.

Lemma equiv_binary x t k : is_binary (type x) -> token_wf k -> tok_is t k -> jsdrv_union_equiv x t = Ok false.
Proof.
  intros Hx Hk Ht. destruct (widen_wf t (token_value_wf t k Hk Ht)) as (t' & Ew & _ & Hn & Hs).
  assert (~ is_binary (type t)) as Hb.
  { destruct k as [o s|z|o|]; cbn [token_wf] in Hk; [| | |done].
    - destruct Ht as (_ & m & ->). types. cbn. lia.
    - destruct (int_token t z Ht) as [(Hi & _) _]. types. lia.
    - cbn in Ht. subst t. intros [E|[E|E]]; discriminate E. }
  assert (type x <> type t') as Hne.
  { destruct (decide (JSDRV_UNION_F32 <= type t <= JSDRV_UNION_I64)) as [D|D]; [specialize (Hn D); types; lia|]. rewrite (Hs D). by intros E; rewrite E in Hx. }
  unfold jsdrv_union_equiv. assert (jsdrv_union_widen x = Ok x) as -> by (unfold jsdrv_union_widen; by destruct Hx as [->|[->| ->]]).
  rewrite bind_Ok, Ew, bind_Ok. unfold jsdrv_union_eq. rewrite (proj2 (Z.eqb_neq _ _) Hne). cbn [negb]. rewrite bind_Ok.
  rewrite (proj2 (Z.eqb_neq (type x) JSDRV_UNION_U64)), (proj2 (Z.eqb_neq (type x) JSDRV_UNION_I64)) by (types; lia). done.
Qed.

Lemma convert_ok a s : value_wf a -> conv_safe a -> kept_value a (v_value s) ->
  exists x, maybe_convert_str_to_type addr s = Ok (with_value s x) /\ kept_value a x.
Proof.
  intros Hwa Hca Hk. destruct (kept_wf _ _ Hwa Hca Hk) as [Hv Hc].
  assert (with_value s (v_value s) = s) as Hid by (by destruct s). unfold maybe_convert_str_to_type.
  assert (forall t v, type (v_value s) = JSDRV_UNION_STR -> narrow_unsigned t || narrow_signed t = true -> kept_value a (store_low addr (v_value s) t 32 v)) as Hst.
  { intros t v Htype Ht. apply kept_store; [done | | rewrite Htype; types; lia]. unfold narrow_unsigned, narrow_signed in Ht. types. bool_facts. lia. }
  assert (exists x, Ok s = Ok (with_value s x) /\ kept_value a x) as Hsame by (exists (v_value s); by rewrite Hid).
  destruct (Z.eqb_spec (type (v_value s)) JSDRV_UNION_STR) as [E|E]; cbn [negb]; [|done].
  fold (narrow_unsigned (v_type s)) (narrow_signed (v_type s)).
  destruct Hv as [Hv|[[Hv _]|[[Hv (o & c & Ho & Hcs & _)]|[Hv _]]]]; try (types; exfalso; lia).
  assert (str_arg (value (v_value s)) = Ok (Some c)) as Hs by (unfold str_arg; by rewrite Ho, Hcs).
  destruct (Hc o c E Ho Hcs) as [[rc r] Hr].
  destruct (narrow_unsigned (v_type s)) eqn:Eu; [|destruct (narrow_signed (v_type s)) eqn:Es; [|done]]; rewrite Hs, bind_Ok.
  - destruct (jsdrv_cstr_to_u32 _ _) as [rc' v]. destruct (rc' =? 0); [|done]. eexists; split; [done|]. apply Hst; [done | by rewrite Eu].
  - rewrite Hr, bind_Ok. destruct (rc =? 0); [|done]. eexists; split; [done|]. apply Hst; [done | by rewrite Es, orb_true_r].
Qed.

Context (a : jsdrv_union_s) (Hwa : value_wf a) (Hca : conv_safe a).

(** The outcome of one token: no fault, and a state to go on with unless the parse stops. *)
Definition step_ok (k : token) (r : res (Z * value_s)) : Prop :=
  exists rc s', r = Ok (rc, s') /\ kept_value a (v_value s')
    /\ (rc = 0 -> safe_state a s' /\ (v_state s' = VALUE_ST_DTYPE_KEY -> is_dtype_key k)).

Lemma step_go k s : safe_state a s -> (v_state s = VALUE_ST_DTYPE_KEY -> is_dtype_key k) -> step_ok k (Ok (0, s)).
Proof. intros H1 H2. exists 0, s. split; [done|]. split; [by apply H1 | done]. Qed.

Lemma step_stop k s rc : rc <> 0 -> kept_value a (v_value s) -> step_ok k (Ok (rc, s)).
Proof. intros H1 H2. by exists rc, s. Qed.

Lemma dtype_value_step s t nm k : safe_state a s -> wf_cstr nm -> good_dtype nm -> tok_is t (TString JSDRV_JSON_VALUE nm) ->
  step_ok k (on_dtype_value addr s t).
Proof.
  intros Hs Hw Hg Ht. destruct Hs as [Hkv H4 H5 _ _]. destruct (kept_wf _ _ Hwa Hca Hkv) as [H1 _]. unfold on_dtype_value.
  destruct (token_value_wf t (TString JSDRV_JSON_VALUE nm) ltac:(by split; [left|]) Ht) as [E|[[E _]|[[E (o & c & Ho & Hc & _)]|[E _]]]];
    try (destruct Ht as (_ & m & ->); types; cbn [type] in E; exfalso; lia).
  unfold str_arg. rewrite Ho, Hc, bind_Ok. destruct (jsdrv_cstr_starts_with _ _).
  - destruct (to_bool_ok _ H1) as (rc & b & Eb). rewrite Eb, bind_Ok. destruct (Z.eqb_spec rc 0); [|by apply step_stop].
    apply step_stop; [done|]. apply kept_store; [done | by types|]. intros Hbin. by destruct (to_bool_binary _ _ _ Hbin Eb).
  - destruct (dtype_lookup_ok t _ nm (v_type s) Hw Ht Hg) as (rc & T & -> & HT). rewrite bind_Ok.
    destruct (convert_ok a (with_type s T) Hwa Hca Hkv) as (x & -> & Hx). rewrite bind_Ok.
    exists rc. eexists. split; [done|]. split; [done|]. intros ->. split; [|done].
    split; cbn [v_value v_range array_idx v_state v_type with_state with_value with_type]; try done. intros _ _. by destruct HT as [[]|[]].
Qed.

Lemma range_value_step s t k : safe_state a s -> v_state s = VALUE_ST_RANGE_VAL -> step_ok k (on_range_value s t).
Proof.
  intros Hs E. unfold on_range_value. destruct (3 <=? array_idx s) eqn:Ei; bool_facts; [by apply step_stop; [|apply Hs]|].
  destruct Hs as [H1 H4 H5 H6 H7]. rewrite st_ok, bind_Ok by (unfold len; lia). apply step_go; [|cbn; by rewrite E].
  split; cbn [v_value v_range array_idx v_state v_type v_option]; try done; [by rewrite length_insert | apply uwrap_range; lia | by rewrite E].
Qed.

Lemma option_value_step s t k : safe_state a s -> v_state s = VALUE_ST_OPTIONS_VAL -> token_wf k -> tok_is t k ->
  step_ok k (on_option_value s t).
Proof.
  intros Hs E Hk Ht. pose proof Hs as [Hkv H4 H5 H6 H7]. destruct (kept_wf _ _ Hwa Hca Hkv) as [H1 _]. unfold on_option_value. cbn [v_type with_idx v_option v_value v_state v_depth v_range].
  assert (type_ok (v_type s)) as HT by (apply H6; by rewrite E). specialize (H7 E).
  assert (0 <= u8 (array_idx s + 1)) as Hu by (apply uwrap_range; lia).
  match goal with |- step_ok _ (mbind _ ?m) =>
    assert (m = Ok None \/ exists b, m = Ok (Some (Word b)) /\ is_number (v_type s)) as [-> | (b & -> & Hn)] end.
  { destruct (Z.eqb_spec (array_idx s) 0) as [E0|E0].
    - destruct (as_type_ok t k (v_type s) HT Hk Ht) as (rc & y & -> & Hy). rewrite bind_Ok. destruct (Z.eqb_spec rc 0) as [->|]; [|by left].
      right. destruct (Hy eq_refl) as [Hn (b & ->)]. by exists b.
    - right. destruct H7 as [|[Hn (b & ->)]]; [done|]. by exists b. }
  { rewrite bind_Ok. by apply step_stop. }
  rewrite bind_Ok. destruct (equiv_ok (v_value s) t H1 (token_value_wf t k Hk Ht)) as ([|] & He); cbn [v_value]; rewrite He, bind_Ok.
  - apply step_go; [|done]. split; cbn [v_value v_range array_idx v_state v_type v_option with_state with_value]; try done.
    right. split; [exact Hn|]. split; [by eexists|]. destruct Hkv as [<- | (_ & _ & ? & ? & ?)]; [|done]. split; [done|]. split; [done|].
    intros Hbin. rewrite (equiv_binary _ t k Hbin Hk Ht) in He. done.
  - apply step_go; [|cbn; by rewrite E]. split; cbn [v_value v_range array_idx v_state v_type v_option]; try done. intros _. right. eauto.
Qed.

Lemma value_key_step s t k : safe_state a s -> v_state s <> VALUE_ST_DTYPE_KEY -> token_wf k -> tok_is t k -> op t = JSDRV_JSON_KEY ->
  step_ok k (on_value_key s t).
Proof.
  intros Hs E Hk Ht Ho. unfold on_value_key.
  destruct (token_is_ok t k "dtype" ltac:(by repeat constructor) Hk Ht) as (b1 & E1 & Hb1).
  destruct (token_is_ok t k "range" ltac:(by repeat constructor) Hk Ht) as (b2 & E2 & _).
  destruct (token_is_ok t k "options" ltac:(by repeat constructor) Hk Ht) as (b3 & E3 & _).
  rewrite E1, E2, E3.
  assert (step_ok k (Ok (0, s))) as Hgo by (by apply step_go).
  assert (forall st', v_state s = VALUE_ST_SEARCH -> st' = VALUE_ST_RANGE_KEY \/ st' = VALUE_ST_OPTIONS -> step_ok k (Ok (0, with_state s st'))) as Hmove.
  { intros st' Hst Hst'. apply step_go; [|cbn; by destruct Hst' as [-> | ->]]. apply (safe_move a s); try done; [apply Hs | by rewrite Hst |].
    cbn. by destruct Hst' as [-> | ->]. }
  destruct (v_state s) eqn:Est; try done; cbn -[Z.eqb]; destruct (v_depth s =? 1); rewrite ?bind_Ok; try done.
  - destruct b1; [|done]. apply step_go.
    + apply (safe_move a s); try done; apply Hs.
    + intros _. destruct (Hb1 eq_refl) as (o & ->). destruct Ht as (_ & m & ->). cbn [op] in Ho. by subst o.
  - destruct b2; [by apply Hmove; [|left]|]. destruct b3; [by apply Hmove; [|right]|]. done.
Qed.

Lemma safe_depth s d : safe_state a s -> safe_state a (with_depth s d).
Proof. intros H. apply (safe_move a s); try done; [apply H|]. intros G. by right. Qed.

Lemma array_start_step s k : safe_state a s -> v_state s <> VALUE_ST_DTYPE_KEY -> step_ok k (Ok (0, on_array_start s)).
Proof.
  intros H E. apply (safe_depth s (v_depth s + 1)) in H. unfold on_array_start. set (s1 := with_depth s (v_depth s + 1)) in *.
  assert (v_state s1 <> VALUE_ST_DTYPE_KEY) as E1 by done. clearbody s1.
  assert (forall st', v_state s1 = VALUE_ST_OPTIONS \/ v_state s1 = VALUE_ST_RANGE_KEY -> st' = VALUE_ST_OPTIONS_VAL \/ st' = VALUE_ST_RANGE_VAL ->
    step_ok k (Ok (0, with_state (with_idx s1 0) st'))) as Hmove.
  { intros st' Hst Hst'. apply step_go; [|cbn; by destruct Hst' as [-> | ->]]. apply (safe_move a s1); try done.
    - intros _ _. by destruct Hst as [-> | ->].
    - intros _. by left. }
  destruct (decide (v_state s1 = VALUE_ST_OPTIONS)) as [E2|E2].
  - destruct (v_depth s1 =? 3); [by apply Hmove; auto|]. rewrite decide_False by (by rewrite E2). by apply step_go.
  - destruct (decide (v_state s1 = VALUE_ST_RANGE_KEY)); [by apply Hmove; auto | by apply step_go].
Qed.

Lemma array_end_step s k : safe_state a s -> v_state s <> VALUE_ST_DTYPE_KEY -> step_ok k (Ok (on_array_end s)).
Proof.
  intros H E. unfold on_array_end.
  assert (step_ok k (Ok (0, with_depth s (v_depth s - 1)))) as Hgo by (apply step_go; [by apply safe_depth | done]).
  assert (forall st' d, v_state s <> VALUE_ST_DTYPE_SEARCH -> st' = VALUE_ST_OPTIONS \/ st' = VALUE_ST_SEARCH ->
    step_ok k (Ok (0, with_depth (with_state s st') d))) as Hmove.
  { intros st' d Hst Hst'. apply step_go; [|cbn; by destruct Hst' as [-> | ->]]. apply safe_depth. apply (safe_move a s); try done; [apply H|].
    cbn. by destruct Hst' as [-> | ->]. }
  destruct (v_state s) eqn:Est; try done; case_if; try done; try (by apply Hmove; auto).
  apply step_stop; [done|]. apply H.
Qed.

Lemma on_value_safe s t k : safe_state a s -> token_wf k -> tok_is t k ->
  (v_state s = VALUE_ST_DTYPE_KEY -> exists nm, k = TString JSDRV_JSON_VALUE nm /\ good_dtype nm) ->
  step_ok k (on_value addr s t).
Proof.
  intros Hs Hk Ht Harm. unfold on_value.
  destruct (decide (v_state s = VALUE_ST_DTYPE_KEY)) as [E|E].
  { destruct (Harm E) as (nm & -> & Hg). rewrite E. pose proof Ht as (_ & m & ->). cbn [op]. rewrite Z.eqb_refl.
    destruct Hk. by apply (dtype_value_step s _ nm). }
  assert (step_ok k (Ok (0, s))) as Hgo by (by apply step_go).
  assert (forall d, step_ok k (Ok (0, with_depth s d))) as Hdep by (intros d; apply step_go; [by apply safe_depth | done]).
  destruct (op t =? JSDRV_JSON_VALUE).
  { destruct (v_state s) eqn:Est; try done; [by apply range_value_step | by apply option_value_step]. }
  destruct (Z.eqb_spec (op t) JSDRV_JSON_KEY); [by apply value_key_step|].
  do 2 (case_if; [done|]). case_if; [by apply array_start_step|]. case_if; [by apply array_end_step | done].
Qed.

Lemma mrun_safe : forall ts ks s (armed : Prop), safe_state a s -> (v_state s = VALUE_ST_DTYPE_KEY -> armed) -> dtype_ok armed ks ->
  Forall2 tok_is ts ks -> exists rc s', mrun (on_value addr) s ts = Ok (rc, s') /\ kept_value a (v_value s').
Proof.
  induction ts as [|t ts IH]; intros ks s armed Hs Harm Hok Hts; cbn [mrun].
  { exists 0, s. split; [done | apply Hs]. }
  apply Forall2_cons_inv_l in Hts as (k & ks' & Ht & Hts & ->). destruct Hok as (Hk & Hnext & Hok).
  destruct (on_value_safe s t k Hs Hk Ht) as (rc & s' & -> & Hkept & Hgo); [by auto|]. rewrite bind_Ok.
  destruct (Z.eqb_spec rc 0) as [E|]; [|by exists rc, s']. destruct (Hgo E) as [Hs' Hst]. by apply (IH ks' s' (is_dtype_key k)).
Qed.
End Safe.

(** ** A metadata text that validation can be trusted with *)

Definition meta_text (m : cstr) : Prop := exists v,
  m = print v /\ wf_json v /\ jdepth v <= DEPTH_MAX /\ len m < 2 ^ 32 - 2 /\ dtype_ok False (tokens v).

Lemma meta_value_safe pow addr m x : meta_text m -> value_wf x -> conv_safe x ->
  exists rc y, jsdrv_meta_value pow addr (Some m) (Some x) = Ok (rc, Some y) /\ kept_value x y.
Proof.
  intros (v & -> & Hw & Hd & Hl & Hok) Hx Hc. unfold jsdrv_meta_value.
  destruct (parse_with_printed pow (on_value addr) v (value_init x) Hw Hd Hl) as (ts & Hts & ->).
  destruct (mrun_safe addr x Hx Hc ts (tokens v) (value_init x) False) as (rc & s' & -> & Hk); try done.
  { split; try done. by left. }
  rewrite !bind_Ok. by eexists _, _.
Qed.


