(* ===== verification/PubSub.v ===== *)
(** * Publish and subscribe (src/pubsub.c), and the messages it owns (src/jsdrv.c)

    Messages and topics are objects in a store: a message is named by a number that is never
    reused, so that a load, a store or a release of a released message is a fault; the topics are
    a list that only grows, with the root first, each with the index of its parent and of its
    children.  Subscribers are values: a function (by number), its argument, two flag bytes.

    The functions behind the subscribers are a parameter: an internal subscriber receives the
    message and answers with a return code and with messages that it hands to
    [jsdrv_pubsub_publish]; an external subscriber receives a topic and a value.  Every call is
    recorded in [trace], in order.  [memory] is the memory of the callers of a query, which is
    where its answer is written. *)

From Stdlib Require Import Strings.String.
From stdpp Require Import gmap.
From S2P Require Import Prelude Float Cstr ErrorCode Topic Union Json Meta.

Abbreviation mid := nat (only parsing).
Abbreviation tid := nat (only parsing).

Definition EC_NOT_SUPPORTED : Z := ec_code NOT_SUPPORTED.

Definition JSDRV_TOPIC_LENGTH_PER_LEVEL : Z := 8.
Definition JSDRV_PAYLOAD_LENGTH_MAX : Z := 1024.
Definition JSDRV_PUBSUB_COMMAND_PREFIX : Z := 95.
Definition JSDRV_PUBSUB_SUBSCRIBE : cstr := Eval cbv in str "_/!sub".
Definition JSDRV_PUBSUB_UNSUBSCRIBE : cstr := Eval cbv in str "_/!unsub".
Definition JSDRV_PUBSUB_UNSUBSCRIBE_ALL : cstr := Eval cbv in str "_/!unsub+".
Definition JSDRV_PUBSUB_QUERY : cstr := Eval cbv in str "_/!query".
Definition JSDRV_MSG_DEVICE_ADD : cstr := Eval cbv in str "@/!add".
Definition JSDRV_MSG_DEVICE_LIST : cstr := Eval cbv in str "@/list".

(** The suffixes of [include/jsdrv/topic.h]. *)
Definition SUFFIX_METADATA_REQ : Z := 37.
Definition SUFFIX_METADATA_RSP : Z := 36.
Definition SUFFIX_QUERY_REQ : Z := 38.
Definition SUFFIX_QUERY_RSP : Z := 63.
Definition SUFFIX_RETURN_CODE : Z := 35.

Definition JSDRV_SFLAG_RETAIN : Z := 1.
Definition JSDRV_SFLAG_PUB : Z := 2.
Definition JSDRV_SFLAG_METADATA_RSP : Z := 8.
Definition JSDRV_SFLAG_RETURN_CODE : Z := 64.

Definition JSDRV_PAYLOAD_TYPE_DEVICE : Z := 129.
Definition JSDRV_PAYLOAD_TYPE_BUFFER_INFO : Z := 3.
Definition JSDRV_PAYLOAD_TYPE_BUFFER_RSP : Z := 5.

(** ** Data *)

Record jsdrv_pubsub_subscriber_s := mk_sub { fn : option nat; user_data : nat; is_internal : Z; sub_flags : Z }.
#[global] Instance sub_eq_dec : EqDecision jsdrv_pubsub_subscriber_s.
Proof. solve_decision. Defined.
Definition sub_zero : jsdrv_pubsub_subscriber_s := mk_sub None 0 0 0.

Inductive jsdrvp_payload_u :=
  | PNone
  | PSub (topic : list Z) (subscriber : jsdrv_pubsub_subscriber_s)
  | PQuery (topic : list Z) (value : nat)
  | PDevice (prefix : list Z).

(** [in_payload]: [value.value.bin] points to the message's own payload. *)
Record jsdrvp_msg_s := mk_msg {
  source : Z; m_topic : list Z; m_value : jsdrv_union_s; from : jsdrv_pubsub_subscriber_s;
  payload : jsdrvp_payload_u; in_payload : bool }.

Record topic_s := mk_node {
  name : cstr; t_value : option mid; t_meta : option mid; t_parent : option tid;
  children : list tid; subscribers : list jsdrv_pubsub_subscriber_s }.

Inductive call :=
  | CallInternal (s : jsdrv_pubsub_subscriber_s) (msg : jsdrvp_msg_s)
  | CallExternal (s : jsdrv_pubsub_subscriber_s) (topic : cstr) (value : jsdrv_union_s).

Record jsdrv_pubsub_s := mk_ps {
  topics : list topic_s; sub_free : list jsdrv_pubsub_subscriber_s; msg_pend : list mid;
  msgs : gmap mid jsdrvp_msg_s; fresh_msg : mid; trace : list call; memory : gmap nat jsdrv_union_s }.

Definition root_topic : tid := 0%nat.

Definition with_topics (s : jsdrv_pubsub_s) (x : list topic_s) : jsdrv_pubsub_s :=
  mk_ps x (sub_free s) (msg_pend s) (msgs s) (fresh_msg s) (trace s) (memory s).
Definition with_sub_free (s : jsdrv_pubsub_s) (x : list jsdrv_pubsub_subscriber_s) : jsdrv_pubsub_s :=
  mk_ps (topics s) x (msg_pend s) (msgs s) (fresh_msg s) (trace s) (memory s).
Definition with_pend (s : jsdrv_pubsub_s) (x : list mid) : jsdrv_pubsub_s :=
  mk_ps (topics s) (sub_free s) x (msgs s) (fresh_msg s) (trace s) (memory s).
Definition with_msgs (s : jsdrv_pubsub_s) (x : gmap mid jsdrvp_msg_s) : jsdrv_pubsub_s :=
  mk_ps (topics s) (sub_free s) (msg_pend s) x (fresh_msg s) (trace s) (memory s).
Definition with_call (s : jsdrv_pubsub_s) (c : call) : jsdrv_pubsub_s :=
  mk_ps (topics s) (sub_free s) (msg_pend s) (msgs s) (fresh_msg s) (trace s ++ [c]) (memory s).
Definition with_memory (s : jsdrv_pubsub_s) (p : nat) (x : jsdrv_union_s) : jsdrv_pubsub_s :=
  mk_ps (topics s) (sub_free s) (msg_pend s) (msgs s) (fresh_msg s) (trace s) (<[p := x]> (memory s)).

Definition get_topic (s : jsdrv_pubsub_s) (t : tid) : res topic_s :=
  match topics s !! t with Some x => Ok x | None => Fault OutOfBounds end.
Definition set_topic (s : jsdrv_pubsub_s) (t : tid) (x : topic_s) : jsdrv_pubsub_s :=
  with_topics s (<[t := x]> (topics s)).

Definition set_value_of (x : topic_s) (v : option mid) : topic_s :=
  mk_node (name x) v (t_meta x) (t_parent x) (children x) (subscribers x).
Definition set_meta_of (x : topic_s) (v : option mid) : topic_s :=
  mk_node (name x) (t_value x) v (t_parent x) (children x) (subscribers x).
Definition set_children (x : topic_s) (c : list tid) : topic_s :=
  mk_node (name x) (t_value x) (t_meta x) (t_parent x) c (subscribers x).
Definition set_subscribers (x : topic_s) (l : list jsdrv_pubsub_subscriber_s) : topic_s :=
  mk_node (name x) (t_value x) (t_meta x) (t_parent x) (children x) l.

(** [char *] fields *)
Definition text (b : list Z) : res cstr :=
  match cstr_at b with Some c => Ok c | None => Fault OutOfBounds end.
Definition msg_text (m : jsdrvp_msg_s) : res cstr := text (m_topic m).
Definition set_msg_topic (m : jsdrvp_msg_s) (b : list Z) : jsdrvp_msg_s :=
  mk_msg (source m) b (m_value m) (from m) (payload m) (in_payload m).
Definition set_msg_value (m : jsdrvp_msg_s) (v : jsdrv_union_s) : jsdrvp_msg_s :=
  mk_msg (source m) (m_topic m) v (from m) (payload m) (in_payload m).

(** ** Messages (src/jsdrv.c) *)

Definition get_msg (s : jsdrv_pubsub_s) (i : mid) : res jsdrvp_msg_s :=
  match msgs s !! i with Some m => Ok m | None => Fault OutOfBounds end.
Definition set_msg (s : jsdrv_pubsub_s) (i : mid) (m : jsdrvp_msg_s) : jsdrv_pubsub_s :=
  with_msgs s (<[i := m]> (msgs s)).

(** A new message with the given contents. *)
Definition msg_new (s : jsdrv_pubsub_s) (m : jsdrvp_msg_s) : mid * jsdrv_pubsub_s :=
  (fresh_msg s, mk_ps (topics s) (sub_free s) (msg_pend s) (<[fresh_msg s := m]> (msgs s)) (S (fresh_msg s))
                  (trace s) (memory s)).

(** The time map of a buffer message is reached through the value; heap memory of the value is part
    of the message here, and goes with it. *)
Definition jsdrvp_msg_free (s : jsdrv_pubsub_s) (i : mid) : res jsdrv_pubsub_s :=
  m ← get_msg s i;
  let a := app (m_value m) in
  _ ← (if (a =? JSDRV_PAYLOAD_TYPE_BUFFER_RSP) || (a =? JSDRV_PAYLOAD_TYPE_BUFFER_INFO) then object (m_value m) else Ok []);
  Ok (with_msgs s (delete i (msgs s))).

(** The value of a new message: a string or binary value is copied to the payload, or to the heap
    when its size is above the payload's. *)
Definition msg_value_copy (value : jsdrv_union_s) : res (jsdrv_union_s * bool) :=
  let v := mk_union (type value) (Z.land (flags value) (Z.lnot JSDRV_UNION_FLAG_HEAP_MEMORY)) (op value) (app value)
             (size value) (Union.value value) in
  let t := type value in
  if (t =? JSDRV_UNION_JSON) || (t =? JSDRV_UNION_STR) || (t =? JSDRV_UNION_BIN) || (t =? JSDRV_UNION_STDMSG) then
    m ← object value;
    sz ← (if ((t =? JSDRV_UNION_JSON) || (t =? JSDRV_UNION_STR)) && (size v =? 0)
          then n ← obj_strlen m; Ok (u32 (n + 1)) else Ok (size v));
    if JSDRV_PAYLOAD_LENGTH_MAX <? size value then
      h ← mem_copy (replicate (Z.to_nat (size value)) 0) 0 m 0 (size value);
      Ok (mk_union t (Z.lor (flags v) JSDRV_UNION_FLAG_HEAP_MEMORY) (op v) (app v) sz (Mem (Some h)), false)
    else
      p ← mem_copy (replicate (Z.to_nat JSDRV_PAYLOAD_LENGTH_MAX) 0) 0 m 0 sz;
      Ok (mk_union t (flags v) (op v) (app v) sz (Mem (Some p)), true)
  else Ok (v, false).

Definition jsdrvp_msg_alloc_value (s : jsdrv_pubsub_s) (topic : cstr) (value : jsdrv_union_s)
  : res (mid * jsdrv_pubsub_s) :=
  '(b, _) ← jsdrv_cstr_copy (Some (replicate 64 0)) (Some topic) JSDRV_TOPIC_LENGTH_MAX;
  '(v, own) ← msg_value_copy value;
  Ok (msg_new s (mk_msg 0 (default [] b) v sub_zero PNone own)).

(** ** Topics *)

(** The copy loop of the append, behind the separator. *)
Fixpoint append_sub (b : list Z) (t : Z) (sub : cstr) : res (list Z * Z) :=
  match sub with
  | [] => Ok (b, t)
  | c :: sub' =>
      if t <? JSDRV_TOPIC_LENGTH_MAX - 1 then b ← st b t c; append_sub b (t + 1) sub' else Ok (b, t)
  end.

Definition topic_str_append (topic_str : list Z) (topic_sub_str : cstr) : res (list Z) :=
  topic_len ← obj_strlen topic_str;
  if JSDRV_TOPIC_LENGTH_MAX - 1 <=? topic_len then Ok topic_str
  else
    '(b, t) ← (if topic_len =? 0 then Ok (topic_str, 0) else b ← st topic_str topic_len 47; Ok (b, topic_len + 1));
    '(b, t) ← append_sub b t topic_sub_str;
    st b t 0.

Definition subscriber_alloc (s : jsdrv_pubsub_s) : jsdrv_pubsub_subscriber_s * jsdrv_pubsub_s :=
  match sub_free s with
  | [] => (sub_zero, s)
  | _ :: l => (sub_zero, with_sub_free s l)
  end.
Definition subscriber_free (s : jsdrv_pubsub_s) (sub : jsdrv_pubsub_subscriber_s) : jsdrv_pubsub_s :=
  with_sub_free s (sub_free s ++ [sub]).

Definition topic_alloc (s : jsdrv_pubsub_s) (nm : cstr) (parent : option tid) : res (tid * jsdrv_pubsub_s) :=
  '(b, rc) ← jsdrv_cstr_copy (Some (replicate 8 0)) (Some nm) JSDRV_TOPIC_LENGTH_PER_LEVEL;
  if negb (rc =? 0) then Fault AssertFail
  else
    nm ← text (default [] b);
    Ok (length (topics s), with_topics s (topics s ++ [mk_node nm None None parent [] []])).

(** The next level of a topic: [n] characters are left in [subtopic]. *)
Fixpoint subtopic_loop (n : nat) (t subtopic : cstr) : option (cstr * cstr) :=
  match n with
  | O => None
  | S n' =>
      match t with
      | [] => Some (subtopic, [])
      | c :: t' => if c =? 47 then Some (subtopic, t') else subtopic_loop n' t' (subtopic ++ [c])
      end
  end.
Definition subtopic_get_str (topic : cstr) : option (cstr * cstr) :=
  subtopic_loop (Z.to_nat JSDRV_TOPIC_LENGTH_PER_LEVEL) topic [].

Fixpoint subtopic_find_loop (s : jsdrv_pubsub_s) (l : list tid) (nm : cstr) : res (option tid) :=
  match l with
  | [] => Ok None
  | t :: l' => x ← get_topic s t; if bool_decide (nm = name x) then Ok (Some t) else subtopic_find_loop s l' nm
  end.
Definition subtopic_find (s : jsdrv_pubsub_s) (parent : tid) (nm : cstr) : res (option tid) :=
  x ← get_topic s parent; subtopic_find_loop s (children x) nm.

(** One level: the child, created at the end of the parent's children when [create]. *)
Definition subtopic_step (s : jsdrv_pubsub_s) (t : tid) (nm : cstr) (create : bool) : res (option tid * jsdrv_pubsub_s) :=
  f ← subtopic_find s t nm;
  match f with
  | Some c => Ok (Some c, s)
  | None =>
      if create then
        '(c, s) ← topic_alloc s nm (Some t);
        x ← get_topic s t;
        Ok (Some c, set_topic s t (set_children x (children x ++ [c])))
      else Ok (None, s)
  end.

(** [while ( *c != 0)]: each level takes a character, so that the length is fuel enough. *)
Fixpoint topic_find_loop (fuel : nat) (s : jsdrv_pubsub_s) (t : tid) (c : cstr) (create : bool)
  : res (option tid * jsdrv_pubsub_s) :=
  match c with
  | [] => Ok (Some t, s)
  | _ :: _ =>
      match fuel with
      | O => Fault OutOfFuel
      | S fuel' =>
          match subtopic_get_str c with
          | None => Ok (None, s)
          | Some (nm, c') =>
              '(sub, s) ← subtopic_step s t nm create;
              match sub with
              | None => Ok (None, s)
              | Some t' => topic_find_loop fuel' s t' c' create
              end
          end
      end
  end.
Definition topic_find (s : jsdrv_pubsub_s) (topic : cstr) (create : bool) : res (option tid * jsdrv_pubsub_s) :=
  topic_find_loop (length topic) s root_topic topic create.

Definition jsdrv_pubsub_initialize : res jsdrv_pubsub_s :=
  '(_, s) ← topic_alloc (mk_ps [] [] [] ∅ 0 [] ∅) [] None; Ok s.

Definition jsdrv_pubsub_publish (s : jsdrv_pubsub_s) (i : mid) : jsdrv_pubsub_s :=
  with_pend s (msg_pend s ++ [i]).

Definition is_same_subscriber (a b : jsdrv_pubsub_subscriber_s) : bool :=
  match fn a with
  | None => false
  | Some _ => (is_internal a =? is_internal b) && bool_decide (fn a = fn b) && bool_decide (user_data a = user_data b)
  end.

Section PubSub.
Context (pow : f64 -> f64 -> f64) (addr : list Z -> Z).
Context (internal_fn : jsdrv_pubsub_subscriber_s -> jsdrvp_msg_s -> Z * list jsdrvp_msg_s).

(** The messages that a callback publishes. *)
Definition publish_new (s : jsdrv_pubsub_s) (l : list jsdrvp_msg_s) : jsdrv_pubsub_s :=
  fold_left (fun s m => let '(i, s) := msg_new s m in jsdrv_pubsub_publish s i) l s.

Definition external_app (a : Z) : bool := (0 <=? a) && (a <=? 5).

Definition subscriber_call (s : jsdrv_pubsub_s) (sub : jsdrv_pubsub_subscriber_s) (i : mid) : res (Z * jsdrv_pubsub_s) :=
  m ← get_msg s i;
  match fn sub with
  | None => Ok (0, s)
  | Some _ =>
      if negb (is_internal sub =? 0) then
        let '(rc, l) := internal_fn sub m in Ok (u8 rc, publish_new (with_call s (CallInternal sub m)) l)
      else if external_app (app (m_value m)) then
        t ← msg_text m; Ok (0, with_call s (CallExternal sub t (m_value m)))
      else if (type (m_value m) =? JSDRV_UNION_BIN) && (app (m_value m) =? JSDRV_PAYLOAD_TYPE_DEVICE) then
        t ← msg_text m;
        match payload m with
        | PDevice prefix => Ok (0, with_call s (CallExternal sub t (jsdrv_union_str prefix)))
        | _ => Fault OutOfBounds
        end
      else Ok (0, s)
  end.

(** *** Publish: from the topic to the root *)

Definition wants (sub : jsdrv_pubsub_subscriber_s) (f : Z) : bool :=
  if f =? JSDRV_SFLAG_RETURN_CODE then negb (Z.land (sub_flags sub) JSDRV_SFLAG_RETURN_CODE =? 0)
  else if f =? JSDRV_SFLAG_METADATA_RSP then negb (Z.land (sub_flags sub) JSDRV_SFLAG_METADATA_RSP =? 0)
  else negb (Z.land (sub_flags sub) JSDRV_SFLAG_PUB =? 0).

Fixpoint publish_subs (s : jsdrv_pubsub_s) (l : list jsdrv_pubsub_subscriber_s) (i : mid) (f status : Z)
  : res (Z * jsdrv_pubsub_s) :=
  match l with
  | [] => Ok (status, s)
  | sub :: l' =>
      m ← get_msg s i;
      if is_same_subscriber sub (from m) then publish_subs s l' i f status
      else if negb (wants sub f) then publish_subs s l' i f status
      else
        '(rv, s) ← subscriber_call s sub i;
        publish_subs s l' i f (if (status =? 0) && negb (rv =? 0) then rv else status)
  end.

Fixpoint publish_loop (fuel : nat) (s : jsdrv_pubsub_s) (t : option tid) (i : mid) (f status : Z)
  : res (Z * jsdrv_pubsub_s) :=
  match t with
  | None => Ok (status, s)
  | Some t =>
      match fuel with
      | O => Fault OutOfFuel
      | S fuel' =>
          x ← get_topic s t;
          '(status, s) ← publish_subs s (subscribers x) i f status;
          x ← get_topic s t;
          publish_loop fuel' s (t_parent x) i f status
      end
  end.
Definition publish (s : jsdrv_pubsub_s) (t : tid) (i : mid) (f : Z) : res (Z * jsdrv_pubsub_s) :=
  publish_loop (length (topics s)) s (Some t) i f 0.

(** *** Subscribe *)

(** [jsdrv_list_foreach(&topic->children, item)]; [last] is the end of the string before. *)
Fixpoint traverse_children (rec : jsdrv_pubsub_s -> tid -> list Z -> res (list Z * jsdrv_pubsub_s)) (last : Z)
    (l : list tid) (topic_str : list Z) (s : jsdrv_pubsub_s) : res (list Z * jsdrv_pubsub_s) :=
  match l with
  | [] => Ok (topic_str, s)
  | c :: l' =>
      x ← get_topic s c;
      b ← topic_str_append topic_str (name x);
      '(b, s) ← rec s c b;
      b ← st b last 0;
      traverse_children rec last l' b s
  end.

Fixpoint subscribe_traverse (fuel : nat) (s : jsdrv_pubsub_s) (t : tid) (topic_str : list Z)
    (sub : jsdrv_pubsub_subscriber_s) : res (list Z * jsdrv_pubsub_s) :=
  match fuel with
  | O => Fault OutOfFuel
  | S fuel' =>
      last ← obj_strlen topic_str;
      x ← get_topic s t;
      s ← (if negb (Z.land (sub_flags sub) JSDRV_SFLAG_METADATA_RSP =? 0) then
             match t_meta x with Some i => '(_, s) ← subscriber_call s sub i; Ok s | None => Ok s end
           else Ok s);
      s ← (if negb (Z.land (sub_flags sub) JSDRV_SFLAG_PUB =? 0) then
             match t_value x with
             | Some i =>
                 m ← get_msg s i;
                 if negb (Z.land (flags (m_value m)) JSDRV_UNION_FLAG_RETAIN =? 0)
                 then '(_, s) ← subscriber_call s sub i; Ok s else Ok s
             | None => Ok s
             end
           else Ok s);
      traverse_children (fun s c b => subscribe_traverse fuel' s c b sub) last (children x) topic_str s
  end.

(** The device names of the list topic, one call for each; [dst] is [dev_str], [n] its fill. *)
Fixpoint devices_loop (s : jsdrv_pubsub_s) (sub : jsdrv_pubsub_subscriber_s) (src : cstr) (dev_str : list Z) (n : Z)
  : res jsdrv_pubsub_s :=
  let flush (s : jsdrv_pubsub_s) :=
    b ← st dev_str n 0;
    c ← ld b 0;
    if c =? 0 then Ok (b, s)
    else match fn sub with
         | None => Fault BadCall
         | Some _ => if negb (is_internal sub =? 0) then Fault BadCall
                     else Ok (b, with_call s (CallExternal sub JSDRV_MSG_DEVICE_ADD (jsdrv_union_str b)))
         end in
  match src with
  | [] => '(_, s) ← flush s; Ok s
  | c :: src' =>
      if c =? 44 then '(b, s) ← flush s; devices_loop s sub src' b 0
      else b ← st dev_str n c; devices_loop s sub src' b (n + 1)
  end.

Definition devices_on_sub (s : jsdrv_pubsub_s) (topic : cstr) (sub : jsdrv_pubsub_subscriber_s) : res jsdrv_pubsub_s :=
  if bool_decide (topic = []) || bool_decide (topic = str "@") || bool_decide (topic = str "@/")
     || bool_decide (topic = JSDRV_MSG_DEVICE_ADD) then
    '(t, s) ← topic_find s JSDRV_MSG_DEVICE_LIST false;
    match t with
    | None => Ok s
    | Some t =>
        x ← get_topic s t;
        match t_value x with
        | None => Ok s
        | Some i =>
            m ← get_msg s i;
            if negb (type (m_value m) =? JSDRV_UNION_STR) then Ok s
            else o ← object (m_value m); src ← text o; devices_loop s sub src (replicate 64 0) 0
        end
    end
  else Ok s.

Definition subscribe (s : jsdrv_pubsub_s) (i : mid) : res (Z * jsdrv_pubsub_s) :=
  m ← get_msg s i;
  if negb (type (m_value m) =? JSDRV_UNION_BIN) then Fault AssertFail
  else if negb (in_payload m) then Fault AssertFail
  else match payload m with
  | PSub b sub =>
      topic ← text b;
      '(t, s) ← topic_find s topic true;
      match t with
      | None => Ok (EC_NOT_FOUND, s)
      | Some t =>
          let '(_, s) := subscriber_alloc s in
          x ← get_topic s t;
          let s := set_topic s t (set_subscribers x (subscribers x ++ [sub])) in
          if negb (Z.land (sub_flags sub) JSDRV_SFLAG_RETAIN =? 0) then
            s ← devices_on_sub s topic sub;
            '(b, s) ← subscribe_traverse (length (topics s)) s t b sub;
            Ok (0, set_msg s i (mk_msg (source m) (m_topic m) (m_value m) (from m) (PSub b sub) (in_payload m)))
          else Ok (0, s)
      end
  | _ => Fault OutOfBounds
  end.

(** *** Unsubscribe *)

Definition remove_same (s : jsdrv_pubsub_s) (t : tid) (sub : jsdrv_pubsub_subscriber_s) : res (Z * jsdrv_pubsub_s) :=
  x ← get_topic s t;
  let gone := List.filter (fun a => is_same_subscriber a sub) (subscribers x) in
  let kept := List.filter (fun a => negb (is_same_subscriber a sub)) (subscribers x) in
  Ok (len gone, fold_left subscriber_free gone (set_topic s t (set_subscribers x kept))).

Definition unsubscribe (s : jsdrv_pubsub_s) (i : mid) : res (Z * jsdrv_pubsub_s) :=
  m ← get_msg s i;
  match payload m with
  | PSub b sub =>
      topic ← text b;
      '(t, s) ← topic_find s topic true;
      match t with
      | None => Ok (EC_PARAMETER_INVALID, s)
      | Some t => '(count, s) ← remove_same s t sub; Ok (if count =? 0 then EC_NOT_FOUND else 0, s)
      end
  | _ => Fault OutOfBounds
  end.

(** [jsdrv_list_foreach(&topic->children, item)] *)
Fixpoint for_children (rec : jsdrv_pubsub_s -> tid -> res jsdrv_pubsub_s) (l : list tid) (s : jsdrv_pubsub_s) : res jsdrv_pubsub_s :=
  match l with
  | [] => Ok s
  | c :: l' => s ← rec s c; for_children rec l' s
  end.

Fixpoint unsubscribe_traverse (fuel : nat) (s : jsdrv_pubsub_s) (t : tid) (sub : jsdrv_pubsub_subscriber_s)
  : res jsdrv_pubsub_s :=
  match fuel with
  | O => Fault OutOfFuel
  | S fuel' =>
      '(_, s) ← remove_same s t sub;
      x ← get_topic s t;
      for_children (fun s c => unsubscribe_traverse fuel' s c sub) (children x) s
  end.
Definition unsubscribe_from_all (s : jsdrv_pubsub_s) (i : mid) : res jsdrv_pubsub_s :=
  m ← get_msg s i;
  match payload m with
  | PSub _ sub => unsubscribe_traverse (length (topics s)) s root_topic sub
  | _ => Fault OutOfBounds
  end.
(** *** Query *)

Definition value_i32 (v : jsdrv_union_s) : Z := i32 (inner_bits addr (Union.value v)).

Definition query_ptr (m : jsdrvp_msg_s) : res nat :=
  match payload m with PQuery _ p => Ok p | _ => Fault OutOfBounds end.
Definition read_memory (s : jsdrv_pubsub_s) (p : nat) : res jsdrv_union_s :=
  match memory s !! p with Some v => Ok v | None => Fault OutOfBounds end.

Definition query_value_copy (s : jsdrv_pubsub_s) (src : option mid) (dst : mid) : res jsdrv_pubsub_s :=
  d ← get_msg s dst;
  p ← query_ptr d;
  q ← read_memory s p;
  match src with
  | None => Ok (with_memory s p jsdrv_union_null)
  | Some src =>
      m ← get_msg s src;
      let v := m_value m in
      if jsdrv_union_is_type_ptr v then
        if negb (jsdrv_union_is_type_ptr q) then Ok (set_msg s dst (set_msg_value d (jsdrv_union_i32 EC_SYNTAX_ERROR)))
        else
          o ← object v;
          sz ← (if size v =? 0 then n ← obj_strlen o; Ok (n + 1) else Ok (size v));
          if size q <? sz then Ok (set_msg s dst (set_msg_value d (jsdrv_union_i32 EC_TOO_SMALL)))
          else
            qb ← object q;
            b ← mem_copy qb 0 o 0 sz;
            let s := with_memory s p (mk_union (type v) (flags q) (op q) (app q) (u32 sz) (Mem (Some b))) in
            Ok (set_msg s dst (set_msg_value d (jsdrv_union_i32 0)))
      else
        let s := with_memory s p v in
        Ok (set_msg s dst (set_msg_value d (jsdrv_union_i32 0)))
  end.

Definition query (s : jsdrv_pubsub_s) (i : mid) : res (Z * jsdrv_pubsub_s) :=
  m ← get_msg s i;
  match payload m with
  | PQuery b p =>
      c ← text b;
      '(topic, _) ← jsdrv_cstr_copy (Some (replicate 64 0)) (Some c) JSDRV_TOPIC_LENGTH_MAX;
      topic ← text (default [] topic);
      ch ← ld topic (len topic - 1);
      let '(topic, is_meta) :=
        if ch =? SUFFIX_QUERY_REQ then (take (length topic - 1) topic, false)
        else if ch =? SUFFIX_METADATA_REQ then (take (length topic - 1) topic, true)
        else (topic, false) in
      '(t, s) ← topic_find s topic false;
      s ← match t with
          | None => Ok (set_msg s i (set_msg_value m (jsdrv_union_i32 EC_NOT_FOUND)))
          | Some t =>
              x ← get_topic s t;
              if is_meta : bool then
                match t_meta x with
                | None => q ← read_memory s p; Ok (with_memory s p (set_type q JSDRV_UNION_NULL))
                | Some _ => query_value_copy s (t_meta x) i
                end
              else query_value_copy s (t_value x) i
          end;
      m ← get_msg s i;
      Ok (value_i32 (m_value m), s)
  | _ => Fault OutOfBounds
  end.

(** *** Publish a message *)

(** From the [switch] on: the suffix is replaced, the return code published, the message freed. *)
Definition publish_return_code (s : jsdrv_pubsub_s) (i : mid) : res jsdrv_pubsub_s :=
  m ← get_msg s i;
  sz ← obj_strlen (m_topic m);
  ch ← ld (m_topic m) (sz - 1);
  '(b, sz) ← (if is_suffix_char ch then b ← st (m_topic m) (sz - 1) 0; Ok (b, sz - 1) else Ok (m_topic m, sz));
  let s := set_msg s i (set_msg_topic m b) in
  topic ← text b;
  '(t, s) ← topic_find s topic true;
  s ← match t with
      | None => Ok s
      | Some t =>
          b ← st b sz SUFFIX_RETURN_CODE;
          b ← st b (sz + 1) 0;
          let s := set_msg s i (set_msg_topic m b) in
          '(_, s) ← publish s t i JSDRV_SFLAG_RETURN_CODE;
          Ok s
      end;
  jsdrvp_msg_free s i.

Definition publish_return_code_i32 (s : jsdrv_pubsub_s) (topic : cstr) (return_code : Z) : res jsdrv_pubsub_s :=
  '(i, s) ← jsdrvp_msg_alloc_value s topic (jsdrv_union_i32 return_code);
  publish_return_code s i.

Definition publish_meta (s : jsdrv_pubsub_s) (i : mid) : res jsdrv_pubsub_s :=
  m ← get_msg s i;
  c ← msg_text m;
  '(topic, _) ← jsdrv_cstr_copy (Some (replicate 64 0)) (Some c) JSDRV_TOPIC_LENGTH_MAX;
  topic ← text (default [] topic);
  _ ← ld topic (len topic - 1);
  '(t, s) ← topic_find s (take (length topic - 1) topic) true;
  match t with
  | None => jsdrvp_msg_free s i
  | Some t =>
      x ← get_topic s t;
      s ← match t_meta x with Some old => jsdrvp_msg_free s old | None => Ok s end;
      m ← get_msg s i;
      let v := m_value m in
      s ← (if size v =? 0 then
             o ← object v; n ← obj_strlen o;
             Ok (set_msg s i (set_msg_value m (mk_union (type v) (flags v) (op v) (app v) (u32 (n + 1)) (Union.value v))))
           else Ok s);
      let s := set_topic s t (set_meta_of x (Some i)) in
      '(_, s) ← publish s t i JSDRV_SFLAG_METADATA_RSP;
      Ok s
  end.

Definition local_return_code (s : jsdrv_pubsub_s) (topic : cstr) (return_code : Z) : res jsdrv_pubsub_s :=
  '(t, s) ← topic_find s topic false;
  match t with
  | None => Ok s
  | Some t =>
      '(rsp, s) ← jsdrvp_msg_alloc_value s [] (jsdrv_union_i32 return_code);
      m ← get_msg s rsp;
      '(b, _) ← jsdrv_cstr_join (Some (m_topic m)) (Some topic) (Some (str "#")) false JSDRV_TOPIC_LENGTH_MAX;
      let s := set_msg s rsp (set_msg_topic m (default [] b)) in
      '(_, s) ← publish s t rsp JSDRV_SFLAG_RETURN_CODE;
      jsdrvp_msg_free s rsp
  end.

(** The validation against the metadata of the topic: the code and the value, which it may convert. *)
Definition validate (s : jsdrv_pubsub_s) (x : topic_s) (v : jsdrv_union_s) : res (Z * jsdrv_union_s) :=
  match t_meta x with
  | None => Ok (0, v)
  | Some i =>
      m ← get_msg s i;
      c ← str_arg (Union.value (m_value m));
      '(rc, v') ← jsdrv_meta_value pow addr c (Some v);
      Ok (u8 rc, default v v')
  end.

Definition is_duplicate (s : jsdrv_pubsub_s) (x : topic_s) (v : jsdrv_union_s) : res bool :=
  match t_value x with
  | None => Ok false
  | Some i => m ← get_msg s i; jsdrv_union_eq (m_value m) v
  end.

Definition publish_normal (s : jsdrv_pubsub_s) (i : mid) : res jsdrv_pubsub_s :=
  m ← get_msg s i;
  topic ← msg_text m;
  '(t, s) ← topic_find s topic true;
  match t with
  | None => jsdrvp_msg_free s i
  | Some t =>
      x ← get_topic s t;
      '(status, v) ← validate s x (m_value m);
      let m := set_msg_value m v in
      let s := set_msg s i m in
      if negb (status =? 0) then s ← local_return_code s topic status; jsdrvp_msg_free s i
      else
        dup ← is_duplicate s x v;
        if dup : bool then s ← local_return_code s topic 0; jsdrvp_msg_free s i
        else
          s ← match t_value x with Some old => jsdrvp_msg_free s old | None => Ok s end;
          let keep := negb (Z.land (flags v) JSDRV_UNION_FLAG_RETAIN =? 0) && negb (hd 0 (name x) =? 33) in
          let s := set_topic s t (set_value_of x (if keep then Some i else None)) in
          '(status, s) ← publish s t i 0;
          s ← (if negb (status =? 0) then local_return_code s topic status else Ok s);
          if keep then Ok s else jsdrvp_msg_free s i
  end.

(** *** Dispatch *)

Definition process_command (s : jsdrv_pubsub_s) (topic : cstr) (i : mid) : res (Z * jsdrv_pubsub_s) :=
  if bool_decide (topic = JSDRV_PUBSUB_QUERY) then query s i
  else if bool_decide (topic = JSDRV_PUBSUB_SUBSCRIBE) then subscribe s i
  else if bool_decide (topic = JSDRV_PUBSUB_UNSUBSCRIBE) then unsubscribe s i
  else if bool_decide (topic = JSDRV_PUBSUB_UNSUBSCRIBE_ALL) then s ← unsubscribe_from_all s i; Ok (0, s)
  else Ok (EC_NOT_SUPPORTED, s).

Definition process_msg (s : jsdrv_pubsub_s) (i : mid) : res jsdrv_pubsub_s :=
  m ← get_msg s i;
  topic ← msg_text m;
  if hd 0 topic =? JSDRV_PUBSUB_COMMAND_PREFIX then
    '(rc, s) ← process_command s topic i;
    s ← (if negb (source m =? 0) then publish_return_code_i32 s topic rc else Ok s);
    jsdrvp_msg_free s i
  else match last topic with
  | None =>
      s ← (if negb (source m =? 0) then publish_return_code_i32 s topic EC_NOT_SUPPORTED else Ok s);
      jsdrvp_msg_free s i
  | Some c =>
      if c =? SUFFIX_METADATA_RSP then publish_meta s i
      else if c =? SUFFIX_RETURN_CODE then publish_return_code s i
      else publish_normal s i
  end.

(** One round of the loop, and [fuel] rounds: a subscriber may keep the queue full. *)
Definition process_step (s : jsdrv_pubsub_s) : res (option jsdrv_pubsub_s) :=
  match msg_pend s with
  | [] => Ok None
  | i :: l => s ← process_msg (with_pend s l) i; Ok (Some s)
  end.
Fixpoint jsdrv_pubsub_process (fuel : nat) (s : jsdrv_pubsub_s) : res jsdrv_pubsub_s :=
  match msg_pend s with
  | [] => Ok s
  | _ :: _ =>
      match fuel with
      | O => Fault OutOfFuel
      | S fuel' =>
          r ← process_step s;
          match r with None => Ok s | Some s => jsdrv_pubsub_process fuel' s end
      end
  end.
End PubSub.

(** *** Finalize: the messages that are left *)

Definition free_opt (s : jsdrv_pubsub_s) (i : option mid) : res jsdrv_pubsub_s :=
  match i with Some i => jsdrvp_msg_free s i | None => Ok s end.

Fixpoint topic_free (fuel : nat) (s : jsdrv_pubsub_s) (t : tid) : res jsdrv_pubsub_s :=
  match fuel with
  | O => Fault OutOfFuel
  | S fuel' =>
      x ← get_topic s t;
      s ← free_opt s (t_value x);
      s ← free_opt s (t_meta x);
      let s := fold_left subscriber_free (subscribers x) s in
      for_children (topic_free fuel') (children x) s
  end.

Fixpoint free_pend (l : list mid) (s : jsdrv_pubsub_s) : res jsdrv_pubsub_s :=
  match l with [] => Ok s | i :: l' => s ← jsdrvp_msg_free s i; free_pend l' s end.

Definition jsdrv_pubsub_finalize (s : jsdrv_pubsub_s) : res (gmap mid jsdrvp_msg_s) :=
  s ← free_pend (msg_pend s) s;
  s ← topic_free (length (topics s)) s root_topic;
  Ok (msgs s).
