(* ===== verification/PubSubTree.v ===== *)
(** * The topic tree of publish and subscribe: shape, paths, lookup

    The topics form a tree whose nodes are named by paths: [topic_find] is the lookup of the path of
    a topic string, and with [create] it extends the tree by the missing nodes and changes nothing
    else. *)

From Stdlib Require Import Strings.String.
From stdpp Require Import gmap.
From S2P Require Import Prelude Float Cstr ErrorCode Topic Union Json Meta PubSub.

(** ** The levels of a topic string *)

Fixpoint levels_from (acc c : cstr) : list cstr :=
  match c with
  | [] => [acc]
  | x :: c' => if x =? 47 then acc :: match c' with [] => [] | _ => levels_from [] c' end
               else levels_from (acc ++ [x]) c'
  end.
Definition levels (c : cstr) : list cstr := match c with [] => [] | _ => levels_from [] c end.

(** A name that fits in a node. *)
Definition level_ok (nm : cstr) : Prop := (length nm <= 7)%nat.

(** The first level, and the levels of what is behind its separator. *)
Lemma levels_from_cons c : forall acc, exists nm,
  levels_from acc c = nm :: levels (drop (length nm - length acc + 1) c) /\ (length acc <= length nm)%nat
  /\ (forall n, subtopic_loop n c acc
        = if decide (length nm < n + length acc)%nat then Some (nm, drop (length nm - length acc + 1) c) else None)
  /\ ((forall y, In y acc -> y <> 47) -> forall y, In y nm -> y <> 47)
  /\ (wf_cstr acc -> wf_cstr c -> wf_cstr nm).
Proof.
  induction c as [|x c IH]; intros acc; cbn [levels_from].
  - exists acc. rewrite drop_nil. split_and!; [done | lia | | eauto | done].
    intros [|n]; cbn [subtopic_loop]; [by rewrite decide_False by lia|]. by rewrite decide_True by lia.
  - destruct (x =? 47) eqn:E; bool_facts.
    + exists acc. replace (length acc - length acc + 1)%nat with 1%nat by lia. cbn [drop].
      split_and!; [done | lia | | eauto | done]. intros [|n]; cbn [subtopic_loop]; [by rewrite decide_False by lia|].
      subst x. rewrite decide_True by lia. done.
    + destruct (IH (acc ++ [x])) as (nm & -> & Hl & Hs & Hc & Hw). rewrite length_app in *. cbn [List.length] in *.
      exists nm. replace (length nm - length acc + 1)%nat with (S (length nm - (length acc + 1) + 1)) by lia. cbn [drop].
      split_and!; [done | lia | | |].
      * intros [|n]; cbn [subtopic_loop]; [by rewrite decide_False by lia|].
        rewrite (proj2 (Z.eqb_neq x 47)) by done. rewrite Hs. by repeat case_decide; try lia.
      * intros Ha. apply Hc. intros y [Hy|[->|[]]]%in_app_iff; [by apply Ha | done].
      * intros Ha [Hx Hc']%Forall_cons_1. apply Hw; [apply Forall_app; split; [done | by constructor] | done].
Qed.

Lemma levels_step c : c <> [] -> exists nm,
  levels c = nm :: levels (drop (length nm + 1) c)
  /\ subtopic_get_str c = (if decide (level_ok nm) then Some (nm, drop (length nm + 1) c) else None)
  /\ (forall y, In y nm -> y <> 47) /\ (wf_cstr c -> wf_cstr nm).
Proof.
  intros Hc. destruct (levels_from_cons c []) as (nm & H1 & _ & H2 & H3 & H4). cbn [List.length] in *.
  rewrite Nat.sub_0_r in *. exists nm. split; [by destruct c|]. split; [|split; [by apply H3 | intros Hw; apply H4; [constructor | done]]].
  unfold subtopic_get_str, level_ok. rewrite H2. change (Z.to_nat JSDRV_TOPIC_LENGTH_PER_LEVEL) with 8%nat.
  by repeat case_decide; try lia.
Qed.

(** ** The shape of the tree *)

Definition tree_ok (ts : list topic_s) : Prop :=
  (exists x, ts !! root_topic = Some x /\ t_parent x = None)
  /\ (forall t x, ts !! t = Some x -> t <> root_topic ->
       exists p y, t_parent x = Some p /\ ts !! p = Some y /\ t ∈ children y)
  /\ (forall p y c, ts !! p = Some y -> c ∈ children y ->
       (p < c)%nat /\ exists x, ts !! c = Some x /\ t_parent x = Some p /\ level_ok (name x) /\ wf_cstr (name x))
  /\ (forall p y c1 c2 x1 x2, ts !! p = Some y -> c1 ∈ children y -> c2 ∈ children y ->
       ts !! c1 = Some x1 -> ts !! c2 = Some x2 -> name x1 = name x2 -> c1 = c2)
  /\ (forall p y, ts !! p = Some y -> NoDup (children y)).

(** The tree of one node. *)
Lemma tree_one x : t_parent x = None -> children x = [] -> tree_ok [x].
Proof.
  intros Hp Hc. split_and!.
  - by exists x.
  - intros [|[|t]] y; by cbn.
  - intros [|[|p]] y c; cbn; try done. intros [= <-]. rewrite Hc. by intros ?%not_elem_of_nil.
  - intros [|[|p]] y c1 c2 x1 x2; cbn; try done. intros [= <-]. rewrite Hc. by intros ?%not_elem_of_nil.
  - intros [|[|p]] y; cbn; try done. intros [= <-]. rewrite Hc. apply NoDup_nil_2.
Qed.

(** The node at a path. *)
Inductive at_path (ts : list topic_s) : tid -> list cstr -> Prop :=
  | at_root : at_path ts root_topic []
  | at_child p l y c x : at_path ts p l -> ts !! p = Some y -> c ∈ children y -> ts !! c = Some x ->
      at_path ts c (l ++ [name x]).

Lemma tree_child_lt ts t x p : tree_ok ts -> ts !! t = Some x -> t_parent x = Some p -> (p < t)%nat.
Proof.
  intros (Hr & Hp & Hc & _) Ht E. destruct (decide (t = root_topic)) as [->|Hne]; [destruct Hr as (r & Hr & Hn); congruence|].
  destruct (Hp t x Ht Hne) as (p' & y & E' & Hy & Hin). rewrite E in E'. injection E' as <-. by destruct (Hc p y t Hy Hin).
Qed.

Lemma at_path_lookup ts t l : tree_ok ts -> at_path ts t l -> is_Some (ts !! t).
Proof. intros ((x & Hr & _) & _) H. destruct H; by eexists. Qed.

Lemma at_path_inv ts t l : at_path ts t l ->
  (t = root_topic /\ l = []) \/ exists p l' y x, l = l' ++ [name x] /\ at_path ts p l' /\ ts !! p = Some y
    /\ t ∈ children y /\ ts !! t = Some x.
Proof. destruct 1 as [|p l y c x]; [by left | right; by exists p, l, y, x]. Qed.

(** A node has one path, and a path names one node. *)
Lemma at_path_node ts t1 t2 l : tree_ok ts -> at_path ts t1 l -> at_path ts t2 l -> t1 = t2.
Proof.
  intros (Hr & Hp & Hc & Hu & _) H. revert t2. induction H as [|p l y c x H IH Hy Hin Hx]; intros t2 H2;
    destruct (at_path_inv _ _ _ H2) as [[-> E]|(p2 & l2 & y2 & x2 & E & G & Gy & Gin & Gx)].
  - done.
  - by destruct l2.
  - by destruct l.
  - apply app_inj_tail in E as [<- En]. rewrite <- (IH _ G) in *. rewrite Hy in Gy. injection Gy as <-. exact (Hu p y c t2 x x2 Hy Hin Gin Hx Gx En).
Qed.

Lemma at_path_path ts t l1 l2 : tree_ok ts -> at_path ts t l1 -> at_path ts t l2 -> l1 = l2.
Proof.
  intros (Hr & Hp & Hc & Hu & _) H. revert l2. induction H as [|p l y c x H IH Hy Hin Hx]; intros l2 H2;
    destruct (at_path_inv _ _ _ H2) as [[E ->]|(p2 & l' & y2 & x2 & -> & G & Gy & Gin & Gx)].
  - done.
  - destruct (Hc _ _ _ Gy Gin). unfold root_topic in *. lia.
  - destruct (Hc _ _ _ Hy Hin). unfold root_topic in *. lia.
  - rewrite Hx in Gx. injection Gx as <-. destruct (Hc _ _ _ Hy Hin) as (_ & x' & Hx' & Hpx & _), (Hc _ _ _ Gy Gin) as (_ & x'' & Hx'' & Hpx' & _).
    assert (p2 = p) as -> by congruence. by rewrite (IH _ G).
Qed.

(** ** Extension: new empty nodes, appended to the children of old ones *)

Definition same_node (x x' : topic_s) : Prop :=
  name x = name x' /\ t_value x = t_value x' /\ t_meta x = t_meta x' /\ t_parent x = t_parent x'
  /\ subscribers x = subscribers x' /\ exists l, children x' = children x ++ l.
Definition empty_node (x : topic_s) : Prop := t_value x = None /\ t_meta x = None /\ subscribers x = [].

Definition extends (ts ts' : list topic_s) : Prop :=
  (length ts <= length ts')%nat
  /\ (forall t x, ts !! t = Some x -> exists x', ts' !! t = Some x' /\ same_node x x')
  /\ (forall t x, (length ts <= t)%nat -> ts' !! t = Some x -> empty_node x).

Lemma same_node_refl x : same_node x x.
Proof. split_and!; try done. exists []. by rewrite app_nil_r. Qed.

Lemma same_node_trans x y z : same_node x y -> same_node y z -> same_node x z.
Proof.
  intros (H1 & H2 & H3 & H4 & H5 & l & H6) (G1 & G2 & G3 & G4 & G5 & l' & G6). split_and!; try congruence.
  exists (l ++ l'). by rewrite G6, H6, app_assoc.
Qed.

#[global] Instance extends_refl : Reflexive extends.
Proof.
  intros ts. split_and!; [done | |].
  - intros t x Ht. exists x. split; [done | apply same_node_refl].
  - intros t x Hl Ht. apply lookup_lt_Some in Ht. lia.
Qed.
#[global] Instance extends_trans : Transitive extends.
Proof.
  intros a b c (L1 & S1 & E1) (L2 & S2 & E2). split_and!; [lia | |].
  - intros t x Ht. destruct (S1 t x Ht) as (y & Hy & Hxy), (S2 t y Hy) as (z & Hz & Hyz). exists z. split; [done | by eapply same_node_trans].
  - intros t z Hl Hz. destruct (decide (length b <= t)%nat); [by apply (E2 t)|].
    destruct (lookup_lt_is_Some_2 b t ltac:(lia)) as [y Hy]. destruct (S2 t y Hy) as (z' & Hz' & (_ & V & M & _ & S & _)).
    rewrite Hz in Hz'. injection Hz' as <-. destruct (E1 t y Hl Hy) as (V' & M' & S'). split_and!; congruence.
Qed.

Lemma extends_path ts ts' t l : extends ts ts' -> at_path ts t l -> at_path ts' t l.
Proof.
  intros (_ & Hs & _). induction 1 as [|p l y c x H IH Hy Hin Hx]; [constructor|].
  destruct (Hs p y Hy) as (y' & Hy' & (_ & _ & _ & _ & _ & k & Hk)), (Hs c x Hx) as (x' & Hx' & (Hn & _)). rewrite Hn.
  econstructor; [done | done | rewrite Hk; set_solver | done].
Qed.

(** ** Lookup *)

Definition new_node (nm : cstr) (p : tid) : topic_s := mk_node nm None None (Some p) [] [].

Lemma topic_alloc_ok s nm p : level_ok nm -> wf_cstr nm ->
  topic_alloc s nm p = Ok (length (topics s), with_topics s (topics s ++ [mk_node nm None None p [] []])).
Proof.
  intros Hl Hw. unfold topic_alloc, level_ok in *.
  destruct (jsdrv_cstr_copy_spec (replicate 8 0) nm JSDRV_TOPIC_LENGTH_PER_LEVEL) as [-> _]; [by vm_compute|].
  rewrite bind_Ok. unfold JSDRV_TOPIC_LENGTH_PER_LEVEL in *.
  assert (len nm < 8) by (unfold len; lia). simpl_cmp. cbn [negb Z.eqb default].
  rewrite copied_short by done. unfold text. cbn [from_option id]. by rewrite cstr_at_app.
Qed.

Lemma get_topic_ok s t x : topics s !! t = Some x -> get_topic s t = Ok x.
Proof. unfold get_topic. by intros ->. Qed.

Lemma children_find_spec s l nm : (forall c, c ∈ l -> is_Some (topics s !! c)) ->
  exists r, subtopic_find_loop s l nm = Ok r
    /\ match r with
       | Some c => c ∈ l /\ exists x, topics s !! c = Some x /\ name x = nm
       | None => forall c x, c ∈ l -> topics s !! c = Some x -> name x <> nm
       end.
Proof.
  induction l as [|c l IH]; intros Hl; cbn [subtopic_find_loop]; [exists None; split; [done|]; by intros c x ?%not_elem_of_nil|].
  destruct (Hl c ltac:(set_solver)) as [x Hx]. rewrite (get_topic_ok _ _ _ Hx), bind_Ok. case_bool_decide as E.
  - exists (Some c). split; [done|]. split; [set_solver | by exists x].
  - destruct IH as (r & -> & Hr); [set_solver|]. exists r. split; [done|]. destruct r as [c'|].
    + destruct Hr as [H1 H2]. split; [set_solver | done].
    + intros c' x' [->|Hin]%elem_of_cons Hx'; [congruence | by apply (Hr c')].
Qed.

Lemma tree_ok_children ts p y c : tree_ok ts -> ts !! p = Some y -> c ∈ children y -> is_Some (ts !! c).
Proof. intros (_ & _ & Hc & _) Hy Hin. destruct (Hc p y c Hy Hin) as (_ & x & Hx & _). by exists x. Qed.

Lemma subtopic_find_spec s t x nm : tree_ok (topics s) -> topics s !! t = Some x ->
  exists r, subtopic_find s t nm = Ok r
    /\ match r with
       | Some c => c ∈ children x /\ exists y, topics s !! c = Some y /\ name y = nm
       | None => forall c y, c ∈ children x -> topics s !! c = Some y -> name y <> nm
       end.
Proof.
  intros Ht Hx. unfold subtopic_find. rewrite (get_topic_ok _ _ _ Hx), bind_Ok. apply children_find_spec.
  intros c Hc. by eapply tree_ok_children.
Qed.

(** The tree with one more leaf. *)
Definition add_leaf (ts : list topic_s) (p : tid) (x : topic_s) (nm : cstr) : list topic_s :=
  <[p := set_children x (children x ++ [length ts])]> (ts ++ [new_node nm p]).

Lemma add_leaf_lookup ts p x nm t : (p < length ts)%nat ->
  add_leaf ts p x nm !! t
  = if decide (t = p) then Some (set_children x (children x ++ [length ts]))
    else if decide (t = length ts) then Some (new_node nm p) else ts !! t.
Proof.
  intros Hp. unfold add_leaf. case_decide as E1; [subst; rewrite list_lookup_insert_eq; [done | rewrite length_app; lia]|].
  rewrite list_lookup_insert_ne by done. case_decide as E2; [subst; by rewrite list_lookup_middle|].
  destruct (decide (t < length ts)%nat); [by rewrite lookup_app_l|]. rewrite lookup_app_r by lia.
  rewrite (lookup_ge_None_2 ts) by lia. destruct (t - length ts)%nat eqn:E; [lia | done].
Qed.

Lemma add_leaf_extends ts p x nm : ts !! p = Some x -> extends ts (add_leaf ts p x nm).
Proof.
  intros Hx. pose proof (lookup_lt_Some _ _ _ Hx) as Hp. split_and!.
  - unfold add_leaf. rewrite length_insert, length_app. lia.
  - intros t y Hy. rewrite add_leaf_lookup by done. pose proof (lookup_lt_Some _ _ _ Hy). repeat case_decide; subst; [|lia|].
    + rewrite Hx in Hy. injection Hy as <-. eexists; split; [done|]. split_and!; try done. by eexists.
    + exists y. split; [done | apply same_node_refl].
  - intros t y Hl. rewrite add_leaf_lookup by done. repeat case_decide; subst; [lia | by intros [= <-] |].
    intros Hy%lookup_lt_Some. lia.
Qed.

(** The new tree is a tree, clause by clause. *)
Section AddLeaf.
Context (ts : list topic_s) (p : tid) (x : topic_s) (nm : cstr).
Context (Ht : tree_ok ts) (Hx : ts !! p = Some x) (Hl : level_ok nm) (Hw : wf_cstr nm).
Context (Hnew : forall c y, c ∈ children x -> ts !! c = Some y -> name y <> nm).
Abbreviation ts' := (add_leaf ts p x nm).

Definition grown (q : tid) (y y' : topic_s) : Prop :=
  name y' = name y /\ t_parent y' = t_parent y /\ children y' = children y ++ (if decide (q = p) then [length ts] else []).

Lemma leaf_lt : (p < length ts)%nat.
Proof. by apply lookup_lt_Some in Hx. Qed.

Lemma leaf_old q y' : ts' !! q = Some y' -> q <> length ts -> exists y, ts !! q = Some y /\ grown q y y'.
Proof.
  unfold grown. rewrite add_leaf_lookup by apply leaf_lt. repeat case_decide; subst; intros Hy Hne; try done.
  - injection Hy as <-. by exists x.
  - exists y'. by rewrite app_nil_r.
Qed.

Lemma leaf_kept q y : ts !! q = Some y -> exists y', ts' !! q = Some y' /\ grown q y y'.
Proof.
  intros Hq. unfold grown. rewrite add_leaf_lookup by apply leaf_lt. pose proof (lookup_lt_Some _ _ _ Hq). repeat case_decide; subst; [|lia|].
  - rewrite Hx in Hq. injection Hq as <-. by eexists.
  - exists y. by rewrite app_nil_r.
Qed.

Lemma leaf_itself : ts' !! length ts = Some (new_node nm p).
Proof. pose proof leaf_lt. rewrite add_leaf_lookup by done. by rewrite decide_False, decide_True by lia. Qed.

(** A node is the leaf, or an old one. *)
Lemma leaf_cases q y' : ts' !! q = Some y' -> (q = length ts /\ y' = new_node nm p) \/ exists y, ts !! q = Some y /\ grown q y y'.
Proof.
  intros Hq. destruct (decide (q = length ts)) as [->|Hne]; [left | right; by apply leaf_old].
  rewrite leaf_itself in Hq. by injection Hq as <-.
Qed.

Lemma leaf_child q c y y' : grown q y y' -> c ∈ children y' -> c ∈ children y \/ (q = p /\ c = length ts).
Proof.
  intros (_ & _ & ->) [Hin|Hin]%elem_of_app; [by left|]. case_decide; [|by apply not_elem_of_nil in Hin].
  apply list_elem_of_singleton in Hin. by right.
Qed.

Lemma leaf_parents t y : ts' !! t = Some y -> t <> root_topic ->
  exists q z, t_parent y = Some q /\ ts' !! q = Some z /\ t ∈ children z.
Proof.
  destruct Ht as (_ & Hpar & _). intros Hy Hne. destruct (leaf_cases t y Hy) as [[-> ->]|(y0 & Hy0 & _ & Hp0 & _)].
  - destruct (leaf_kept p x Hx) as (x' & Hx' & _ & _ & Hc'). exists p, x'. split_and!; try done.
    rewrite Hc', decide_True by done. set_solver.
  - destruct (Hpar t y0 Hy0 Hne) as (q & z & Hq & Hz & Hin). destruct (leaf_kept q z Hz) as (z' & Hz' & _ & _ & Hc').
    exists q, z'. split; [congruence|]. split; [done|]. rewrite Hc'. set_solver.
Qed.

Lemma leaf_children q y c : ts' !! q = Some y -> c ∈ children y ->
  (q < c)%nat /\ exists z, ts' !! c = Some z /\ t_parent z = Some q /\ level_ok (name z) /\ wf_cstr (name z).
Proof.
  destruct Ht as (_ & _ & Hch & _). intros Hy Hin. destruct (leaf_cases q y Hy) as [[-> ->]|(y0 & Hy0 & Hg)]; [by apply not_elem_of_nil in Hin|].
  destruct (leaf_child _ _ _ _ Hg Hin) as [Hin'|[-> ->]].
  - destruct (Hch q y0 c Hy0 Hin') as (Hqc & z & Hz & Hpz & Hlz & Hwz). split; [done|].
    destruct (leaf_kept c z Hz) as (z' & Hz' & Hn' & Hp' & _). exists z'. rewrite Hn'. split_and!; congruence || done.
  - split; [apply leaf_lt|]. exists (new_node nm p). by rewrite leaf_itself.
Qed.

Lemma leaf_unique q y c1 c2 x1 x2 : ts' !! q = Some y -> c1 ∈ children y -> c2 ∈ children y ->
  ts' !! c1 = Some x1 -> ts' !! c2 = Some x2 -> name x1 = name x2 -> c1 = c2.
Proof.
  destruct Ht as (_ & _ & Hch & Hu & _). intros Hy Hc1 Hc2 Hx1 Hx2 Hn.
  destruct (leaf_cases q y Hy) as [[-> ->]|(y0 & Hy0 & Hg)]; [by apply not_elem_of_nil in Hc1|].
  assert (forall c z, c ∈ children y0 -> ts' !! c = Some z -> exists z0, ts !! c = Some z0 /\ name z = name z0) as Hb.
  { intros c z Hc Hz. destruct (Hch q y0 c Hy0 Hc) as (_ & z0 & Hz0 & _). destruct (leaf_kept c z0 Hz0) as (z' & Hz' & Hn' & _).
    exists z0. split; congruence. }
  assert (forall c z, c ∈ children y0 -> ts' !! c = Some z -> q = p -> name z <> nm) as Hdiff.
  { intros c z Hc Hz ->. destruct (Hb c z Hc Hz) as (z0 & Hz0 & ->). rewrite Hx in Hy0. injection Hy0 as <-. by apply (Hnew c). }
  destruct (leaf_child _ _ _ _ Hg Hc1) as [Hi1|[E1 ->]], (leaf_child _ _ _ _ Hg Hc2) as [Hi2|[E2 ->]]; try done.
  - destruct (Hb c1 x1 Hi1 Hx1) as (z1 & Hz1 & N1), (Hb c2 x2 Hi2 Hx2) as (z2 & Hz2 & N2).
    exact (Hu q y0 c1 c2 z1 z2 Hy0 Hi1 Hi2 Hz1 Hz2 ltac:(congruence)).
  - rewrite leaf_itself in Hx2. injection Hx2 as <-. by destruct (Hdiff c1 x1 Hi1 Hx1 E2).
  - rewrite leaf_itself in Hx1. injection Hx1 as <-. by destruct (Hdiff c2 x2 Hi2 Hx2 E1).
Qed.

Lemma leaf_nodup q y : ts' !! q = Some y -> NoDup (children y).
Proof.
  destruct Ht as (_ & _ & Hch & _ & Hnd). intros Hy. destruct (leaf_cases q y Hy) as [[-> ->]|(y0 & Hy0 & _ & _ & ->)]; [apply NoDup_nil_2|].
  apply NoDup_app. split; [by eapply Hnd|]. case_decide; [|split; [by intros ??; apply not_elem_of_nil | apply NoDup_nil_2]].
  split; [|apply NoDup_singleton]. intros c Hc ->%list_elem_of_singleton. destruct (Hch q y0 _ Hy0 Hc) as (_ & z & Hz%lookup_lt_Some & _). lia.
Qed.

Lemma add_leaf_ok : tree_ok ts'.
Proof.
  split_and!; [| apply leaf_parents | apply leaf_children | apply leaf_unique | apply leaf_nodup].
  destruct Ht as ((r & Hr & Hrp) & _). destruct (leaf_kept _ _ Hr) as (r' & Hr' & _ & Hp' & _). exists r'. split; [done | congruence].
Qed.
End AddLeaf.

Lemma subtopic_step_spec s t x l nm create :
  tree_ok (topics s) -> at_path (topics s) t l -> topics s !! t = Some x -> level_ok nm -> wf_cstr nm ->
  exists r s', subtopic_step s t nm create = Ok (r, s') /\ s' = with_topics s (topics s')
    /\ tree_ok (topics s') /\ extends (topics s) (topics s') /\ (create = false -> s' = s)
    /\ match r with
       | Some c => at_path (topics s') c (l ++ [nm])
       | None => create = false /\ forall c, ~ at_path (topics s) c (l ++ [nm])
       end.
Proof.
  intros Ht Hpath Hx Hl Hw. assert (s = with_topics s (topics s)) as Hid by (by destruct s). unfold subtopic_step.
  destruct (subtopic_find_spec s t x nm Ht Hx) as (r & -> & Hr). rewrite bind_Ok. destruct r as [c|].
  - destruct Hr as (Hin & y & Hy & <-). exists (Some c), s. split_and!; try done. by econstructor.
  - destruct create.
    + rewrite topic_alloc_ok, bind_Ok by done. pose proof (lookup_lt_Some _ _ _ Hx) as Hlt.
      rewrite (get_topic_ok _ t x) by (cbn [topics with_topics]; by rewrite lookup_app_l). rewrite bind_Ok.
      eexists _, _. split; [reflexivity|]. cbn [topics set_topic with_topics]. fold (new_node nm t). fold (add_leaf (topics s) t x nm).
      split; [done|]. split; [by apply add_leaf_ok|]. split; [by apply add_leaf_extends|]. split; [done|].
      change nm with (name (new_node nm t)) at 2. eapply at_child.
      * eapply extends_path; [by apply add_leaf_extends | done].
      * rewrite add_leaf_lookup by done. by rewrite decide_True.
      * cbn. set_solver.
      * rewrite add_leaf_lookup by done. rewrite decide_False, decide_True by lia. done.
    + exists None, s. split_and!; try done. intros c Hc.
      destruct (at_path_inv _ _ _ Hc) as [[_ E]|(p & l' & y & z & E & Hp & Hy & Hin & Hz)]; [by destruct l|].
      apply app_inj_tail in E as [<- ->]. assert (p = t) as -> by (by eapply at_path_node).
      rewrite Hx in Hy. injection Hy as <-. by destruct (Hr c z Hin Hz).
Qed.

(** The outcome of a lookup: an existing or new node at the path of the string, or nothing: a
    level that is too long, or, without [create], no such node.  Only the tree changes, by extension. *)
Definition found (s : jsdrv_pubsub_s) (l : list cstr) (create : bool) (r : option tid) (s' : jsdrv_pubsub_s) : Prop :=
  s' = with_topics s (topics s') /\ tree_ok (topics s') /\ extends (topics s) (topics s') /\ (create = false -> s' = s)
  /\ match r with
     | Some t => Forall level_ok l /\ at_path (topics s') t l
     | None => (exists nm, In nm l /\ ~ level_ok nm) \/ (create = false /\ forall t, ~ at_path (topics s) t l)
     end.

Lemma at_path_prefix ts l1 l2 : forall t, at_path ts t (l1 ++ l2) -> exists t', at_path ts t' l1.
Proof.
  induction l2 as [|nm l2 IH] using rev_ind; intros t H; [rewrite app_nil_r in H; by exists t|].
  rewrite app_assoc in H. destruct (at_path_inv _ _ _ H) as [[_ E]|(p & l' & y & x & E & Hp & _)]; [by destruct (l1 ++ l2)|].
  apply app_inj_tail in E as [<- _]. by eapply IH.
Qed.

Lemma find_loop_ok create c : forall fuel s t l, (length c <= fuel)%nat -> wf_cstr c ->
  tree_ok (topics s) -> at_path (topics s) t l ->
  exists r s', topic_find_loop fuel s t c create = Ok (r, s')
    /\ s' = with_topics s (topics s') /\ tree_ok (topics s') /\ extends (topics s) (topics s') /\ (create = false -> s' = s)
    /\ match r with
       | Some t' => Forall level_ok (levels c) /\ at_path (topics s') t' (l ++ levels c)
       | None => (exists nm, In nm (levels c) /\ ~ level_ok nm) \/ (create = false /\ forall t', ~ at_path (topics s) t' (l ++ levels c))
       end.
Proof.
  induction c as [c IHc] using (induction_ltof1 _ (@length Z)). unfold ltof in IHc.
  intros fuel s t l Hf Hw Ht Hp. assert (s = with_topics s (topics s)) as Hid by (by destruct s).
  destruct c as [|z c0] eqn:Ec.
  { exists (Some t), s. destruct fuel; cbn; rewrite app_nil_r; split_and!; done. }
  rewrite <- Ec in *. destruct (levels_step c ltac:(by subst)) as (nm & Hlv & Hg & _ & Hwn).
  destruct fuel as [|fuel]; [subst; cbn in Hf; lia|].
  assert (topic_find_loop (S fuel) s t c create = match subtopic_get_str c with None => Ok (None, s) | Some (nm, c') =>
    '(sub, s) ← subtopic_step s t nm create; match sub with None => Ok (None, s) | Some t' => topic_find_loop fuel s t' c' create end end)
    as -> by (by subst c).
  rewrite Hg, Hlv. case_decide as Hok.
  - destruct (at_path_lookup _ _ _ Ht Hp) as [x Hx].
    destruct (subtopic_step_spec s t x l nm create Ht Hp Hx Hok (Hwn Hw)) as (r & s1 & -> & E1 & T1 & X1 & C1 & R1).
    rewrite bind_Ok. destruct r as [t1|].
    + destruct (IHc (drop (length nm + 1) c)) with (fuel := fuel) (s := s1) (t := t1) (l := l ++ [nm]) as (r & s2 & -> & E2 & T2 & X2 & C2 & R2);
        [rewrite length_drop; subst c; cbn; lia | rewrite length_drop; subst c; cbn in *; lia | by apply Forall_drop | done | done |].
      exists r, s2. split; [done|]. split; [rewrite E2, E1; done|]. split; [done|]. split; [by etransitivity|].
      split; [intros Hc; rewrite (C2 Hc); by apply C1|]. rewrite <- app_assoc in R2. cbn [Datatypes.app] in R2. destruct r as [t2|].
      * destruct R2 as [R2 R3]. split; [by constructor | done].
      * destruct R2 as [(n & Hn & Hb)|[Hc Hno]]; [left; exists n; split; [by right | done]|]. right. split; [done|].
        by rewrite <- (C1 Hc).
    + destruct R1 as [Hc Hno]. exists None, s1. split_and!; try done. right. split; [done|].
      intros t' Hp'. change (nm :: ?k) with ([nm] ++ k) in Hp'. rewrite app_assoc in Hp'. apply at_path_prefix in Hp' as [t'' Hp']. by apply (Hno t'').
  - exists None, s. split_and!; try done. left. exists nm. split; [by left | done].
Qed.

Lemma topic_find_spec s c create : wf_cstr c -> tree_ok (topics s) ->
  exists r s', topic_find s c create = Ok (r, s') /\ found s (levels c) create r s'.
Proof.
  intros Hw Ht. destruct (find_loop_ok create c (length c) s root_topic [] ltac:(lia) Hw Ht (at_root _)) as (r & s' & H & H1 & H2 & H3 & H4 & H5).
  by exists r, s'.
Qed.

(** C25. Lookup refines the tree of paths: [topic_find] never faults; it returns the one node at
    the path of the topic string, or nothing when a level is longer than seven characters or,
    without [create], there is no such node; with [create] it only adds empty nodes, and without
    it nothing changes. *)
Theorem topic_find_refines s c create : wf_cstr c -> tree_ok (topics s) ->
  exists r s', topic_find s c create = Ok (r, s') /\ found s (levels c) create r s'
    /\ forall t, at_path (topics s) t (levels c) -> Forall level_ok (levels c) -> r = Some t.
Proof.
  intros Hw Ht. destruct (topic_find_spec s c create Hw Ht) as (r & s' & H & Hf). exists r, s'. split; [done|]. split; [done|].
  intros t Hp Hl. destruct Hf as (_ & Ht' & He & _ & Hr). destruct r as [t'|].
  - f_equal. destruct Hr as [_ Hr]. eapply at_path_node; [exact Ht' | exact Hr |]. by eapply extends_path.
  - destruct Hr as [(nm & Hin & Hb)|[_ Hno]]; [|by destruct (Hno t)]. rewrite List.Forall_forall in Hl. by destruct (Hb (Hl nm Hin)).
Qed.

Lemma topic_find_refines_witness : exists s r s', jsdrv_pubsub_initialize = Ok s /\ topic_find s (str "u/js220/h") true = Ok (r, s')
  /\ found s (levels (str "u/js220/h")) true r s' /\ length (topics s') = 4%nat.
Proof.
  destruct (topic_find_refines (mk_ps [mk_node [] None None None [] []] [] [] ∅ 0 [] ∅) (str "u/js220/h") true) as (r & s' & H & Hf & _).
  - repeat constructor; done.
  - by apply tree_one.
  - eexists _, r, s'. split; [reflexivity|]. split; [exact H|]. split; [exact Hf|]. vm_compute in H. injection H as <- <-. reflexivity.
Defined.

(** ** Updates that keep the shape *)

Definition same_place (x y : topic_s) : Prop := name x = name y /\ t_parent x = t_parent y /\ children x = children y.
Definition same_shape : relation (list topic_s) := Forall2 same_place.

#[global] Instance same_shape_sym : Symmetric same_shape.
Proof. intros a b H. eapply Forall2_flip, Forall2_impl; [exact H|]. intros x y (H1 & H2 & H3). by repeat split. Qed.

Lemma same_shape_insert ts t x y : ts !! t = Some x -> same_place x y -> same_shape ts (<[t := y]> ts).
Proof.
  intros Ht Hs. apply Forall2_same_length_lookup. split; [by rewrite length_insert|]. intros i a b Ha Hb.
  destruct (decide (i = t)) as [->|Hne].
  - rewrite list_lookup_insert_eq in Hb by (by eapply lookup_lt_Some). simplify_eq. done.
  - rewrite list_lookup_insert_ne in Hb by done. simplify_eq. by repeat split.
Qed.

Lemma same_shape_lookup ts ts' t x : same_shape ts ts' -> ts !! t = Some x -> exists y, ts' !! t = Some y /\ same_place x y.
Proof. intros H Ht. exact (Forall2_lookup_l _ _ _ _ _ H Ht). Qed.

Lemma same_shape_path ts ts' t l : same_shape ts ts' -> at_path ts t l -> at_path ts' t l.
Proof.
  intros Hs. induction 1 as [|p l y c x H IH Hy Hin Hx]; [constructor|].
  destruct (same_shape_lookup _ _ _ _ Hs Hy) as (y' & Hy' & _ & _ & Hc), (same_shape_lookup _ _ _ _ Hs Hx) as (x' & Hx' & -> & _).
  econstructor; [done | done | by rewrite <- Hc | done].
Qed.

Lemma same_shape_ok ts ts' : same_shape ts ts' -> tree_ok ts -> tree_ok ts'.
Proof.
  intros Hs ((r & Hr & Hrp) & Hpar & Hch & Hu & Hnd). pose proof (symmetry Hs) as Hs'.
  pose proof (fun t x => same_shape_lookup _ _ t x Hs) as F. pose proof (fun t x => same_shape_lookup _ _ t x Hs') as B.
  split_and!.
  - destruct (F _ _ Hr) as (r' & Hr' & _ & E & _). exists r'. split; [done | congruence].
  - intros t x Hx Hne. destruct (B _ _ Hx) as (x0 & Hx0 & _ & E & _). destruct (Hpar t x0 Hx0 Hne) as (p & y & Hp & Hy & Hin).
    destruct (F _ _ Hy) as (y' & Hy' & _ & _ & Ec). exists p, y'. rewrite <- Ec. split_and!; congruence || done.
  - intros p y c Hy Hin. destruct (B _ _ Hy) as (y0 & Hy0 & _ & _ & Ec). rewrite Ec in Hin.
    destruct (Hch p y0 c Hy0 Hin) as (Hlt & x & Hx & Hp & Hl & Hw). split; [done|]. destruct (F _ _ Hx) as (x' & Hx' & En & Ep & _).
    exists x'. rewrite <- En. split_and!; congruence || done.
  - intros p y c1 c2 x1 x2 Hy H1 H2 Hx1 Hx2 Hn. destruct (B _ _ Hy) as (y0 & Hy0 & _ & _ & Ec). rewrite Ec in H1, H2.
    destruct (B _ _ Hx1) as (z1 & Hz1 & E1 & _), (B _ _ Hx2) as (z2 & Hz2 & E2 & _).
    exact (Hu p y0 c1 c2 z1 z2 Hy0 H1 H2 Hz1 Hz2 ltac:(congruence)).
  - intros p y Hy. destruct (B _ _ Hy) as (y0 & Hy0 & _ & _ & ->). by eapply Hnd.
Qed.

(** Every node has a path, which the extension of the tree keeps. *)
Lemma node_has_path ts : tree_ok ts -> forall t x, ts !! t = Some x -> exists l, at_path ts t l.
Proof.
  intros Ht t. induction t as [t IH] using lt_wf_ind. intros x Hx. pose proof Ht as (_ & Hpar & Hch & _).
  destruct (decide (t = root_topic)) as [->|Hne]; [exists []; constructor|].
  destruct (Hpar t x Hx Hne) as (p & y & Hp & Hy & Hin). destruct (Hch p y t Hy Hin) as [Hlt _].
  destruct (IH p Hlt y Hy) as [l Hl]. exists (l ++ [name x]). by econstructor.
Qed.

Lemma extends_path_old ts ts' t l x : tree_ok ts -> tree_ok ts' -> extends ts ts' -> ts !! t = Some x -> at_path ts' t l -> at_path ts t l.
Proof.
  intros Ht Ht' He Hx Hp. destruct (node_has_path ts Ht t x Hx) as [l0 Hl0].
  by rewrite (at_path_path ts' t l l0 Ht' Hp (extends_path _ _ _ _ He Hl0)).
Qed.

(** ** From a node to the root, and from a node to its leaves *)

(** The prefixes of a path, the longest first. *)
Definition prefixes (l : list cstr) : list (list cstr) := map (fun k => take k l) (rev (seq 0 (S (length l)))).

Lemma prefixes_snoc l nm : prefixes (l ++ [nm]) = (l ++ [nm]) :: prefixes l.
Proof.
  unfold prefixes. rewrite length_app. cbn [List.length]. replace (length l + 1)%nat with (S (length l)) by lia.
  rewrite seq_S, rev_app_distr. cbn [rev Datatypes.app map Nat.add]. f_equal; [rewrite take_ge; [done | rewrite length_app; cbn; lia]|].
  apply map_ext_in. intros k Hk. rewrite <- in_rev in Hk. apply in_seq in Hk. by rewrite take_app_le by lia.
Qed.

(** The nodes below a node, itself first, in the order of the lists of children. *)
Fixpoint subtree (fuel : nat) (ts : list topic_s) (t : tid) : list tid :=
  match fuel with
  | O => []
  | S fuel' => t :: match ts !! t with Some x => flat_map (subtree fuel' ts) (children x) | None => [] end
  end.

Lemma flat_map_bind {A B} (f : A -> list B) l : flat_map f l = l ≫= f.
Proof. induction l as [|x l IH]; [done|]. cbn [flat_map mbind list_bind]. by rewrite IH. Qed.

Lemma subtree_inv ts fuel t n : n ∈ subtree fuel ts t ->
  n = t \/ exists fuel' x c, fuel = S fuel' /\ ts !! t = Some x /\ c ∈ children x /\ n ∈ subtree fuel' ts c.
Proof.
  destruct fuel as [|fuel]; cbn [subtree]; [by intros ?%not_elem_of_nil|]. intros [->|Hin]%elem_of_cons; [by left|]. right.
  destruct (ts !! t) as [x|]; [|by apply not_elem_of_nil in Hin]. rewrite flat_map_bind in Hin. apply list_elem_of_bind in Hin as (c & Hn & Hc).
  by exists fuel, x, c.
Qed.

Lemma child_path ts t l x c : tree_ok ts -> at_path ts t l -> ts !! t = Some x -> c ∈ children x ->
  exists y, ts !! c = Some y /\ at_path ts c (l ++ [name y]) /\ (t < c)%nat.
Proof.
  intros (_ & _ & Hch & _) Hp Hx Hc. destruct (Hch t x c Hx Hc) as (Hlt & y & Hy & _). exists y. split; [done|]. split; [by econstructor | done].
Qed.

Section Subtree.
Context (ts : list topic_s) (Ht : tree_ok ts).

Lemma subtree_path fuel : forall t l n, at_path ts t l -> n ∈ subtree fuel ts t -> exists k, at_path ts n (l ++ k).
Proof.
  induction fuel as [|fuel IH]; intros t l n Hp Hin; [by apply not_elem_of_nil in Hin|].
  destruct (subtree_inv _ _ _ _ Hin) as [->|(f' & x & c & [= <-] & Hx & Hc & Hn)]; [exists []; by rewrite app_nil_r|].
  destruct (child_path ts t l x c Ht Hp Hx Hc) as (y & Hy & Hpc & _). destruct (IH c _ n Hpc Hn) as [k Hk].
  exists (name y :: k). by rewrite <- app_assoc in Hk.
Qed.

Lemma subtree_all fuel : forall t l n k, (length ts <= fuel + t)%nat -> at_path ts t l -> at_path ts n (l ++ k) -> n ∈ subtree fuel ts t.
Proof.
  induction fuel as [|fuel IH]; intros t l n k Hf Hp Hn; destruct (at_path_lookup _ _ _ Ht Hp) as [x Hx]; pose proof (lookup_lt_Some _ _ _ Hx); [lia|].
  cbn [subtree]. destruct k as [|nm k]; [rewrite app_nil_r in Hn; rewrite (at_path_node ts n t l Ht Hn Hp); set_solver|].
  right. rewrite Hx, flat_map_bind. apply list_elem_of_bind. change (nm :: k) with ([nm] ++ k) in Hn. rewrite app_assoc in Hn.
  destruct (at_path_prefix _ _ _ _ Hn) as [c Hc].
  destruct (at_path_inv _ _ _ Hc) as [[_ E]|(p & l' & y & z & E & Hp' & Hy & Hin & Hz)]; [by destruct l|].
  apply app_inj_tail in E as [<- ->]. assert (p = t) as -> by (by eapply at_path_node). rewrite Hx in Hy. injection Hy as <-.
  exists c. split; [|done]. apply (IH c (l ++ [name z]) n k); [|done | done]. destruct (child_path ts t l x c Ht Hp Hx Hin) as (_ & _ & _ & ?). lia.
Qed.

Lemma subtree_nodup fuel : forall t l, at_path ts t l -> NoDup (subtree fuel ts t).
Proof.
  induction fuel as [|fuel IH]; intros t l Hp; cbn [subtree]; [apply NoDup_nil_2|].
  assert (forall x c n, ts !! t = Some x -> c ∈ children x -> n ∈ subtree fuel ts c -> exists y k, ts !! c = Some y /\ at_path ts n (l ++ name y :: k)) as Hk.
  { intros x c n Hx Hc Hn. destruct (child_path ts t l x c Ht Hp Hx Hc) as (y & Hy & Hpc & _). destruct (subtree_path fuel c _ n Hpc Hn) as [k Hk].
    exists y, k. by rewrite <- app_assoc in Hk. }
  destruct (ts !! t) as [x|] eqn:Hx; [|apply NoDup_singleton]. rewrite flat_map_bind. apply NoDup_cons_2.
  - intros (c & Hn & Hc)%list_elem_of_bind. destruct (Hk x c t eq_refl Hc Hn) as (y & k & _ & Hp'). pose proof (at_path_path ts t _ _ Ht Hp Hp') as E.
    rewrite <- (app_nil_r l) in E at 1. by apply app_inv_head in E.
  - pose proof Ht as (_ & _ & _ & Hu & Hnd). apply NoDup_bind; [| |by eapply Hnd].
    + intros c1 c2 n H1 H2 Hn1 Hn2. destruct (Hk x c1 n eq_refl H1 Hn1) as (y1 & k1 & Hy1 & Hp1), (Hk x c2 n eq_refl H2 Hn2) as (y2 & k2 & Hy2 & Hp2).
      pose proof (at_path_path ts n _ _ Ht Hp1 Hp2) as E. apply app_inv_head in E. injection E as En _. exact (Hu t x c1 c2 y1 y2 Hx H1 H2 Hy1 Hy2 En).
    + intros c Hc. destruct (child_path ts t l x c Ht Hp Hx Hc) as (y & _ & Hpc & _). by eapply IH.
Qed.

(** The subtree of the root has every node, once. *)
Lemma subtree_root : subtree (length ts) ts root_topic ≡ₚ seq 0 (length ts).
Proof.
  apply NoDup_Permutation; [eapply subtree_nodup; constructor | apply NoDup_seq|].
  intros n. rewrite elem_of_seq. split.
  - intros Hn. destruct (subtree_path _ _ [] n (at_root _) Hn) as [k Hk]. destruct (at_path_lookup _ _ _ Ht Hk) as [x Hx%lookup_lt_Some]. lia.
  - intros [_ Hn]. destruct (lookup_lt_is_Some_2 ts n Hn) as [x Hx]. destruct (node_has_path ts Ht n x Hx) as [l Hl].
    apply (subtree_all _ _ [] n l); [unfold root_topic; lia | constructor | done].
Qed.
End Subtree.
