(* ===== verification/PubSubDeliver.v ===== *)
(** * Delivery: which subscribers a message reaches, in which order

    The effect of the subscribers on the state is explicit: [act s tr new] is [s] after the calls
    [tr] in which the subscribers published the messages [new].  [publish] reaches the subscribers
    of the topic and then those of each level above it. *)

From Stdlib Require Import Strings.String.
From stdpp Require Import gmap.
From S2P Require Import Prelude Float Cstr ErrorCode Topic Union Json Meta PubSub PubSubTree.

(** ** What the subscribers do to the state *)

Definition with_trace (s : jsdrv_pubsub_s) (tr : list call) : jsdrv_pubsub_s :=
  mk_ps (topics s) (sub_free s) (msg_pend s) (msgs s) (fresh_msg s) (trace s ++ tr) (memory s).
Definition act (s : jsdrv_pubsub_s) (tr : list call) (new : list jsdrvp_msg_s) : jsdrv_pubsub_s :=
  publish_new (with_trace s tr) new.

Lemma with_trace_nil s : with_trace s [] = s.
Proof. destruct s. unfold with_trace. cbn. by rewrite app_nil_r. Qed.

Lemma act_nil s : act s [] [] = s.
Proof. apply with_trace_nil. Qed.

Lemma publish_new_trace new : forall s tr, with_trace (publish_new s new) tr = publish_new (with_trace s tr) new.
Proof. induction new as [|m new IH]; intros s tr; [done|]. cbn. apply IH. Qed.

Lemma with_trace_app s tr tr' : with_trace (with_trace s tr) tr' = with_trace s (tr ++ tr').
Proof. unfold with_trace. cbn. by rewrite app_assoc. Qed.

Lemma act_act s tr tr' new new' : act (act s tr new) tr' new' = act s (tr ++ tr') (new ++ new').
Proof.
  unfold act. rewrite publish_new_trace, with_trace_app. unfold publish_new. by rewrite fold_left_app.
Qed.

(** The parts that stay, and what is added: the new messages, numbered from [fresh_msg]. *)
Lemma act_facts new : forall s tr,
  topics (act s tr new) = topics s /\ sub_free (act s tr new) = sub_free s /\ memory (act s tr new) = memory s
  /\ trace (act s tr new) = trace s ++ tr
  /\ fresh_msg (act s tr new) = (fresh_msg s + length new)%nat
  /\ msg_pend (act s tr new) = msg_pend s ++ seq (fresh_msg s) (length new)
  /\ (forall i, (i < fresh_msg s)%nat -> msgs (act s tr new) !! i = msgs s !! i)
  /\ (forall k m, new !! k = Some m -> msgs (act s tr new) !! (fresh_msg s + k)%nat = Some m)
  /\ (forall i, (fresh_msg s + length new <= i)%nat -> msgs (act s tr new) !! i = msgs s !! i).
Proof.
  induction new as [|m new IH] using rev_ind; intros s tr.
  - unfold act, publish_new. cbn. rewrite app_nil_r. split_and!; try done.
  - destruct (IH s tr) as (H1 & H2 & H3 & H4 & H5 & H6 & H7 & H8 & H9). unfold act, publish_new in *. rewrite fold_left_app.
    set (s1 := fold_left _ _ _) in *. cbn. rewrite length_app. cbn [List.length]. rewrite H5. split_and!; try done; [lia | | | |].
    + rewrite H6, <- app_assoc. f_equal. by rewrite Nat.add_1_r, seq_S.
    + intros i Hi. rewrite lookup_insert_ne by lia. by apply H7.
    + intros k m' Hk. destruct (decide (k = length new)) as [->|Hne].
      * rewrite lookup_app_r, Nat.sub_diag in Hk by lia. injection Hk as <-. apply lookup_insert_eq.
      * rewrite lookup_insert_ne by lia. apply H8. rewrite lookup_app_l in Hk; [done|]. apply lookup_lt_Some in Hk. rewrite length_app in Hk. cbn in Hk. lia.
    + intros i Hi. rewrite lookup_insert_ne by lia. apply H9. lia.
Qed.

Lemma act_topics s tr new : topics (act s tr new) = topics s.
Proof. apply act_facts. Qed.
Lemma act_msg s tr new i : (i < fresh_msg s)%nat -> msgs (act s tr new) !! i = msgs s !! i.
Proof. apply act_facts. Qed.
Lemma act_fresh s tr new : (fresh_msg s <= fresh_msg (act s tr new))%nat.
Proof. destruct (act_facts new s tr) as (_ & _ & _ & _ & -> & _). lia. Qed.
Lemma act_get_topic s tr new t : get_topic (act s tr new) t = get_topic s t.
Proof. unfold get_topic. by rewrite act_topics. Qed.
Lemma act_get_msg s tr new i : (i < fresh_msg s)%nat -> get_msg (act s tr new) i = get_msg s i.
Proof. intros H. unfold get_msg. by rewrite act_msg. Qed.

Lemma get_msg_ok s i m : msgs s !! i = Some m -> get_msg s i = Ok m.
Proof. unfold get_msg. by intros ->. Qed.

(** ** One subscriber *)

(** A message that a subscriber can be called with. *)
Definition deliverable (m : jsdrvp_msg_s) : Prop :=
  is_Some (cstr_at (m_topic m))
  /\ (type (m_value m) = JSDRV_UNION_BIN -> app (m_value m) = JSDRV_PAYLOAD_TYPE_DEVICE -> exists p, payload m = PDevice p).

Section Deliver.
Context (internal_fn : jsdrv_pubsub_subscriber_s -> jsdrvp_msg_s -> Z * list jsdrvp_msg_s).

Definition topic_of (m : jsdrvp_msg_s) : cstr := default [] (cstr_at (m_topic m)).
Definition prefix_of (m : jsdrvp_msg_s) : list Z := match payload m with PDevice p => p | _ => [] end.
Definition internal (sub : jsdrv_pubsub_subscriber_s) : bool := match fn sub with Some _ => negb (is_internal sub =? 0) | None => false end.

(** The call of [sub] with [m], the messages it publishes and its return code. *)
Definition call_of (m : jsdrvp_msg_s) (sub : jsdrv_pubsub_subscriber_s) : list call :=
  match fn sub with
  | None => []
  | Some _ =>
      if negb (is_internal sub =? 0) then [CallInternal sub m]
      else if external_app (app (m_value m)) then [CallExternal sub (topic_of m) (m_value m)]
      else if (type (m_value m) =? JSDRV_UNION_BIN) && (app (m_value m) =? JSDRV_PAYLOAD_TYPE_DEVICE)
      then [CallExternal sub (topic_of m) (jsdrv_union_str (prefix_of m))]
      else []
  end.
Definition sent_by (m : jsdrvp_msg_s) (sub : jsdrv_pubsub_subscriber_s) : list jsdrvp_msg_s :=
  if internal sub then snd (internal_fn sub m) else [].
Definition code_of (m : jsdrvp_msg_s) (sub : jsdrv_pubsub_subscriber_s) : Z :=
  if internal sub then u8 (fst (internal_fn sub m)) else 0.

Lemma subscriber_call_spec s sub i m : msgs s !! i = Some m -> deliverable m ->
  subscriber_call internal_fn s sub i = Ok (code_of m sub, act s (call_of m sub) (sent_by m sub)).
Proof.
  intros Hm [[c Hc] Hd]. unfold subscriber_call, code_of, sent_by, call_of, internal, topic_of, msg_text, text.
  rewrite (get_msg_ok s i m Hm), bind_Ok, Hc. destruct (fn sub); [|by rewrite act_nil].
  destruct (negb (is_internal sub =? 0)); [by destruct (internal_fn sub m)|].
  destruct (external_app (app (m_value m))); [done|].
  destruct ((type (m_value m) =? JSDRV_UNION_BIN) && (app (m_value m) =? JSDRV_PAYLOAD_TYPE_DEVICE)) eqn:E; [|by rewrite act_nil].
  bool_facts. destruct (Hd H H0) as [p Hp]. unfold prefix_of. by rewrite Hp.
Qed.

(** ** All of them *)

Definition receives (f : Z) (m : jsdrvp_msg_s) (sub : jsdrv_pubsub_subscriber_s) : bool :=
  negb (is_same_subscriber sub (from m)) && wants sub f.
Definition receivers (f : Z) (m : jsdrvp_msg_s) (l : list jsdrv_pubsub_subscriber_s) : list jsdrv_pubsub_subscriber_s :=
  List.filter (receives f m) l.

(** The status: the first code that is not zero. *)
Definition first_code (status : Z) (l : list Z) : Z :=
  fold_left (fun status rv => if (status =? 0) && negb (rv =? 0) then rv else status) l status.

Lemma publish_subs_spec i f m : deliverable m -> forall l s status, msgs s !! i = Some m -> (i < fresh_msg s)%nat ->
  publish_subs internal_fn s l i f status
  = Ok (first_code status (map (code_of m) (receivers f m l)),
        act s (flat_map (call_of m) (receivers f m l)) (flat_map (sent_by m) (receivers f m l))).
Proof.
  intros Hd. induction l as [|sub l IH]; intros s status Hm Hi; cbn [publish_subs]; [by rewrite act_nil|].
  rewrite (get_msg_ok s i m Hm), bind_Ok. unfold receivers, receives. cbn [List.filter].
  destruct (is_same_subscriber sub (from m)); cbn [negb andb]; [by apply IH|]. destruct (wants sub f); cbn [negb]; [|by apply IH].
  rewrite (subscriber_call_spec s sub i m Hm Hd), bind_Ok.
  rewrite IH; [|by rewrite act_msg | pose proof (act_fresh s (call_of m sub) (sent_by m sub)); lia]. by rewrite act_act.
Qed.

(** The subscribers along the way to the root, given the nodes. *)
Definition subs_at (ts : list topic_s) (t : tid) : list jsdrv_pubsub_subscriber_s :=
  match ts !! t with Some x => subscribers x | None => [] end.

Lemma publish_loop_spec i f m s0 : deliverable m -> tree_ok (topics s0) -> forall t l, at_path (topics s0) t l ->
  exists nodes, Forall2 (at_path (topics s0)) nodes (prefixes l) /\ forall fuel s status,
    (t < fuel)%nat -> topics s = topics s0 -> msgs s !! i = Some m -> (i < fresh_msg s)%nat ->
    let subs := receivers f m (flat_map (subs_at (topics s0)) nodes) in
    publish_loop internal_fn fuel s (Some t) i f status
    = Ok (first_code status (map (code_of m) subs), act s (flat_map (call_of m) subs) (flat_map (sent_by m) subs)).
Proof.
  intros Hd Ht t l Hp. induction Hp as [|p l y c x Hp IH Hy Hin Hx].
  - exists [root_topic]. split; [constructor; [constructor | constructor]|]. intros fuel s status Hf Hs Hm Hi. cbn [flat_map].
    destruct Ht as ((r & Hr & Hrp) & _). unfold subs_at. rewrite Hr, app_nil_r. destruct fuel as [|fuel]; [lia|]. cbn [publish_loop].
    rewrite (get_topic_ok s _ r) by (by rewrite Hs). rewrite bind_Ok, (publish_subs_spec i f m) by done. rewrite bind_Ok, act_get_topic, (get_topic_ok s _ r) by (by rewrite Hs).
    rewrite bind_Ok, Hrp. by destruct fuel.
  - destruct IH as (nodes & Hn & IH). exists (c :: nodes). split; [rewrite prefixes_snoc; constructor; [by econstructor | done]|].
    intros fuel s status Hf Hs Hm Hi. pose proof Ht as (_ & _ & Hch & _). destruct (Hch p y c Hy Hin) as (Hlt & x' & Hx' & Hpx & _).
    rewrite Hx in Hx'. injection Hx' as <-. destruct fuel as [|fuel]; [lia|]. cbn [publish_loop flat_map]. unfold subs_at at 1 3 5. rewrite Hx.
    rewrite (get_topic_ok s c x) by (by rewrite Hs). rewrite bind_Ok, (publish_subs_spec i f m) by done.
    rewrite bind_Ok, act_get_topic, (get_topic_ok s c x) by (by rewrite Hs). rewrite bind_Ok, Hpx. unfold receivers. rewrite List.filter_app. fold (receivers f m).
    set (r1 := List.filter (receives f m) (subscribers x)). set (tr1 := flat_map (call_of m) r1). set (new1 := flat_map (sent_by m) r1).
    rewrite IH; [|lia | by rewrite act_topics | by rewrite act_msg | pose proof (act_fresh s tr1 new1); lia].
    rewrite act_act, map_app, !flat_map_app. unfold first_code. by rewrite fold_left_app.
Qed.

Lemma publish_spec s t l i f m : tree_ok (topics s) -> at_path (topics s) t l -> msgs s !! i = Some m -> (i < fresh_msg s)%nat -> deliverable m ->
  exists nodes, Forall2 (at_path (topics s)) nodes (prefixes l) /\
    let subs := receivers f m (flat_map (subs_at (topics s)) nodes) in
    publish internal_fn s t i f
    = Ok (first_code 0 (map (code_of m) subs), act s (flat_map (call_of m) subs) (flat_map (sent_by m) subs)).
Proof.
  intros Ht Hp Hm Hi Hd. destruct (publish_loop_spec i f m s Hd Ht t l Hp) as (nodes & Hn & H). exists nodes. split; [done|].
  destruct (at_path_lookup _ _ _ Ht Hp) as [x Hx%lookup_lt_Some]. by apply H.
Qed.
End Deliver.

(** C10. [publish] delivers the message to exactly the subscribers of the topic, then of its parent,
    up to the root, in the order in which they subscribed, leaving out the sender and those whose
    flags do not ask for it; its status is the first return code that is not zero. *)
Theorem publish_reaches internal_fn s t l i f m :
  tree_ok (topics s) -> at_path (topics s) t l -> msgs s !! i = Some m -> (i < fresh_msg s)%nat -> deliverable m ->
  exists nodes s', Forall2 (at_path (topics s)) nodes (prefixes l) /\
    let subs := List.filter (fun a => negb (is_same_subscriber a (from m)) && wants a f) (flat_map (subs_at (topics s)) nodes) in
    publish internal_fn s t i f = Ok (first_code 0 (map (code_of internal_fn m) subs), s')
    /\ trace s' = trace s ++ flat_map (call_of m) subs /\ topics s' = topics s /\ msgs s' !! i = Some m
    /\ msg_pend s' = msg_pend s ++ seq (fresh_msg s) (length (flat_map (sent_by internal_fn m) subs)).
Proof.
  intros Ht Hp Hm Hi Hd. destruct (publish_spec internal_fn s t l i f m Ht Hp Hm Hi Hd) as (nodes & Hn & E). exists nodes. eexists. split; [done|]. split; [exact E|].
  set (subs := receivers f m _). destruct (act_facts (flat_map (sent_by internal_fn m) subs) s (flat_map (call_of m) subs)) as (T & _ & _ & Tr & _ & P & O & _).
  split_and!; try done. by rewrite O.
Qed.

Lemma publish_reaches_witness :
  let a := mk_sub (Some 1%nat) 0 0 2 in let b := mk_sub (Some 2%nat) 0 0 2 in
  let m := mk_msg 0 (str "x" ++ replicate 63 0) (jsdrv_union_i32 5) sub_zero PNone false in
  let s := mk_ps [mk_node [] None None None [1%nat] [a]; mk_node (str "x") None None (Some 0%nat) [] [b]] [] [] {[0%nat := m]} 1 [] ∅ in
  exists s', publish (fun _ _ => (0, [])) s 1%nat 0%nat 0 = Ok (0, s')
    /\ trace s' = [CallExternal b (str "x") (jsdrv_union_i32 5); CallExternal a (str "x") (jsdrv_union_i32 5)].
Proof.
  cbv zeta. set (a := mk_sub (Some 1%nat) 0 0 2). set (b := mk_sub (Some 2%nat) 0 0 2). set (m := mk_msg 0 _ _ _ _ _). set (s := mk_ps _ _ _ _ _ _ _).
  assert (tree_ok (topics s)) as Ht.
  { pose proof (add_leaf_ok [mk_node [] None None None [] [a]] 0 (mk_node [] None None None [] [a]) (str "x")) as H. cbn in H.
    eapply same_shape_ok; [|apply H; [by apply tree_one | done | unfold level_ok; cbn; lia | by repeat constructor | by intros c y ?%not_elem_of_nil]].
    by repeat constructor. }
  destruct (publish_reaches (fun _ _ => (0, [])) s 1 [str "x"] 0 0 m Ht) as (nodes & s' & Hn & E & _); [| done | cbn; lia | by split; [eexists|] |].
  - apply (at_child (topics s) 0 [] (mk_node [] None None None [1%nat] [a]) 1 (mk_node (str "x") None None (Some 0%nat) [] [b])); [constructor | done | cbn; set_solver | done].
  - eexists. split; [vm_compute; reflexivity|]. vm_compute. reflexivity.
Defined.
