(* ===== verification/PubSubOwn.v ===== *)
(** * Ownership of the messages, and the invariant of publish and subscribe

    Every message is held by exactly one of: the caller that is at work on it, the queue of pending
    messages, the value or the metadata of one topic.  The invariant states this together with the
    shape of the topic tree and the form of the held messages. *)

From Stdlib Require Import Strings.String.
From stdpp Require Import gmap.
From S2P Require Import Prelude Float Cstr ErrorCode Topic Union Json Meta MetaSafe PubSub PubSubTree PubSubDeliver.

(** ** Who holds a message *)

Definition held (x : topic_s) : list mid := option_list (t_value x) ++ option_list (t_meta x).
Definition retained (ts : list topic_s) : list mid := flat_map held ts.

Lemma retained_split ts t x : ts !! t = Some x ->
  exists a b, retained ts = a ++ held x ++ b /\ forall y, retained (<[t := y]> ts) = a ++ held y ++ b.
Proof.
  intros Ht. pose proof (take_drop_middle _ _ _ Ht) as E. exists (retained (take t ts)), (retained (drop (S t) ts)). unfold retained. split.
  - rewrite <- E at 1. by rewrite flat_map_app.
  - intros y. rewrite insert_take_drop by (by eapply lookup_lt_Some). by rewrite flat_map_app.
Qed.

Lemma retained_concat ts : retained ts = concat (held <$> ts).
Proof. induction ts as [|x ts IH]; [done|]. cbn. by rewrite <- IH. Qed.

Lemma concat_nils {A} (l : list (list A)) : (forall k x, l !! k = Some x -> x = []) -> concat l = [].
Proof.
  induction l as [|x l IH]; intros H; [done|]. cbn [concat]. rewrite (H 0%nat x eq_refl). apply IH. intros k y Hk. exact (H (S k) y Hk).
Qed.

Lemma retained_extends ts ts' : extends ts ts' -> retained ts' = retained ts.
Proof.
  intros (Hl & Hs & He). rewrite <- (take_drop (length ts) ts'). rewrite !retained_concat, fmap_app, concat_app, (concat_nils (held <$> drop _ _)).
  - rewrite app_nil_r. f_equal. apply list_eq. intros k. rewrite !list_lookup_fmap. destruct (decide (k < length ts)%nat) as [Hk|Hk].
    + rewrite lookup_take_lt by done. destruct (lookup_lt_is_Some_2 ts k Hk) as [x Hx]. destruct (Hs k x Hx) as (x' & Hx' & (_ & V & M & _)).
      rewrite Hx, Hx'. cbn. unfold held. by rewrite V, M.
    + rewrite lookup_take_ge by lia. by rewrite lookup_ge_None_2 by lia.
  - intros k l Hk. rewrite list_lookup_fmap, lookup_drop in Hk. destruct (ts' !! (length ts + k)%nat) as [x|] eqn:Hx; [|done]. injection Hk as <-.
    destruct (He (length ts + k)%nat x ltac:(lia) Hx) as (V & M & _). unfold held. by rewrite V, M.
Qed.

(** The messages in the store are those in hand, pending and retained, each once. *)
Definition own (s : jsdrv_pubsub_s) (e : list mid) : Prop :=
  e ++ msg_pend s ++ retained (topics s) ≡ₚ elements (dom (msgs s)).

Lemma own_nodup s e : own s e -> NoDup (e ++ msg_pend s ++ retained (topics s)).
Proof. intros H. rewrite H. apply NoDup_elements. Qed.

Lemma own_live s e i : own s e -> i ∈ e ++ msg_pend s ++ retained (topics s) -> exists m, msgs s !! i = Some m.
Proof. intros H Hi. rewrite H, elem_of_elements, elem_of_dom in Hi. exact Hi. Qed.

Lemma dom_free (M : gmap mid jsdrvp_msg_s) i : is_Some (M !! i) -> elements (dom M) ≡ₚ i :: elements (dom (delete i M)).
Proof.
  intros Hi. rewrite dom_delete_L. rewrite <- elements_union_singleton by set_solver. f_equiv.
  apply elem_of_dom in Hi. rewrite <- union_difference_L; [done | set_solver].
Qed.

Lemma dom_new (M : gmap mid jsdrvp_msg_s) i m : M !! i = None -> elements (dom (<[i := m]> M)) ≡ₚ i :: elements (dom M).
Proof. intros Hi. rewrite dom_insert_L. apply elements_union_singleton. by apply not_elem_of_dom. Qed.

Lemma dom_same (M : gmap mid jsdrvp_msg_s) i m : is_Some (M !! i) -> dom (<[i := m]> M) = dom M.
Proof. intros Hi. rewrite dom_insert_L. apply elem_of_dom in Hi. set_solver. Qed.

(** ** The form of the messages *)

(** A [char[64]] with a terminator. *)
Definition buf_ok (b : list Z) : Prop := length b = 64%nat /\ is_Some (cstr_at b).

Definition list_path : list cstr := Eval cbv in levels JSDRV_MSG_DEVICE_LIST.

(** The device names of a list fit in [dev_str]: between the commas are at most 63 characters. *)
Fixpoint names_fit (n : nat) (c : cstr) : Prop :=
  match c with
  | [] => (n <= 63)%nat
  | x :: c' => (n <= 63)%nat /\ names_fit (if x =? 44 then 0 else S n) c'
  end.
Definition names_ok (v : jsdrv_union_s) : Prop := forall o c,
  type v = JSDRV_UNION_STR -> value v = Mem (Some o) -> cstr_at o = Some c -> names_fit 0 c.

(** A metadata message: a text that validation accepts. *)
Definition meta_value_ok (v : jsdrv_union_s) : Prop :=
  is_text (type v) /\ exists o c, value v = Mem (Some o) /\ cstr_at o = Some c /\ 0 <= size v <= len o /\ meta_text c.

(** [devices_on_sub] calls the subscriber as an external one. *)
Definition sub_ok (topic : cstr) (sub : jsdrv_pubsub_subscriber_s) : Prop :=
  Z.land (sub_flags sub) JSDRV_SFLAG_RETAIN <> 0 ->
  topic = [] \/ topic = str "@" \/ topic = str "@/" \/ topic = JSDRV_MSG_DEVICE_ADD ->
  is_Some (fn sub) /\ is_internal sub = 0.

(** The release of a buffer message goes through its value, which is binary data. *)
Definition releasable (m : jsdrvp_msg_s) : Prop :=
  app (m_value m) = JSDRV_PAYLOAD_TYPE_BUFFER_RSP \/ app (m_value m) = JSDRV_PAYLOAD_TYPE_BUFFER_INFO ->
  type (m_value m) = JSDRV_UNION_BIN /\ exists o, value (m_value m) = Mem (Some o).

Lemma free_ok s i m : msgs s !! i = Some m -> releasable m -> jsdrvp_msg_free s i = Ok (with_msgs s (delete i (msgs s))).
Proof.
  intros Hm Hr. unfold jsdrvp_msg_free. rewrite (get_msg_ok s i m Hm), bind_Ok. cbv zeta. case_if; [|done].
  destruct Hr as (_ & o & Ho); [done|]. unfold object. by rewrite Ho.
Qed.

Section Messages.
Context (D : gset nat).

Definition command_ok (m : jsdrvp_msg_s) (c : cstr) : Prop :=
  (c = JSDRV_PUBSUB_QUERY -> exists b p, payload m = PQuery b p /\ buf_ok b /\ cstr_at b <> Some [] /\ p ∈ D)
  /\ (c = JSDRV_PUBSUB_SUBSCRIBE -> type (m_value m) = JSDRV_UNION_BIN /\ in_payload m = true
       /\ exists b sub, payload m = PSub b sub /\ buf_ok b /\ forall t, cstr_at b = Some t -> sub_ok t sub)
  /\ (c = JSDRV_PUBSUB_UNSUBSCRIBE \/ c = JSDRV_PUBSUB_UNSUBSCRIBE_ALL -> exists b sub, payload m = PSub b sub /\ buf_ok b)
  /\ (source m <> 0 -> (length c <= 62)%nat).

(** A message as the driver's threads queue it. *)
Record msg_wf (m : jsdrvp_msg_s) : Prop := {
  wf_topic : buf_ok (m_topic m);
  wf_deliver : deliverable m;
  wf_release : releasable m;
  wf_empty : cstr_at (m_topic m) = Some [] -> source m = 0;
  wf_command : forall c, cstr_at (m_topic m) = Some c -> hd 0 c = JSDRV_PUBSUB_COMMAND_PREFIX -> command_ok m c;
  wf_meta : forall c, cstr_at (m_topic m) = Some c -> hd 0 c <> JSDRV_PUBSUB_COMMAND_PREFIX ->
    last c = Some SUFFIX_METADATA_RSP -> meta_value_ok (m_value m);
  wf_value : forall c, cstr_at (m_topic m) = Some c -> hd 0 c <> JSDRV_PUBSUB_COMMAND_PREFIX ->
    last c <> Some SUFFIX_METADATA_RSP ->
    value_wf (m_value m) /\ conv_safe (m_value m) /\ (levels c = list_path -> names_ok (m_value m)) }.

(** The memory of a query: an object behind a pointer type, of the size it claims. *)
Definition memory_ok (q : jsdrv_union_s) : Prop :=
  jsdrv_union_is_type_ptr q = true -> exists o, value q = Mem (Some o) /\ 0 <= size q <= len o.

(** ** The invariant, with the messages [e] in hand *)

Record inv (s : jsdrv_pubsub_s) (e : list mid) : Prop := {
  inv_tree : tree_ok (topics s);
  inv_own : own s e;
  inv_fresh : forall i m, msgs s !! i = Some m -> (i < fresh_msg s)%nat;
  inv_release : forall i m, msgs s !! i = Some m -> releasable m;
  inv_pend : forall i, i ∈ msg_pend s -> exists m, msgs s !! i = Some m /\ msg_wf m;
  inv_value : forall t x i, topics s !! t = Some x -> t_value x = Some i ->
    exists m, msgs s !! i = Some m /\ deliverable m /\ value_wf (m_value m) /\ (at_path (topics s) t list_path -> names_ok (m_value m));
  inv_meta : forall t x i, topics s !! t = Some x -> t_meta x = Some i ->
    exists m, msgs s !! i = Some m /\ deliverable m /\ meta_value_ok (m_value m);
  inv_dom : dom (memory s) = D;
  inv_memory : forall p q, memory s !! p = Some q -> memory_ok q }.

(** The message of a topic is in the store and not in hand. *)
Lemma held_retained ts t x i : ts !! t = Some x -> i ∈ held x -> i ∈ retained ts.
Proof. intros Ht Hi. destruct (retained_split ts t x Ht) as (a & b & -> & _). set_solver. Qed.

Lemma value_held x i : t_value x = Some i -> i ∈ held x.
Proof. unfold held. intros ->. set_solver. Qed.
Lemma meta_held x i : t_meta x = Some i -> i ∈ held x.
Proof. unfold held. intros ->. set_solver. Qed.

Lemma in_hand s e i : inv s e -> i ∈ e -> (exists m, msgs s !! i = Some m) /\ (i < fresh_msg s)%nat /\ (i ∉ msg_pend s) /\ (i ∉ retained (topics s)).
Proof.
  intros H Hi. pose proof (inv_own _ _ H) as Ho. destruct (own_live s e i Ho ltac:(set_solver)) as [m Hm].
  split; [by exists m|]. split; [by eapply inv_fresh|]. pose proof (own_nodup s e Ho) as Hn. apply NoDup_app in Hn as (_ & Hd & _). set_solver.
Qed.

(** ** Steps that keep it *)

Lemma inv_extend s e ts : inv s e -> tree_ok ts -> extends (topics s) ts -> inv (with_topics s ts) e.
Proof.
  intros H Ht He. pose proof He as (_ & Hs & Hnew). destruct H as [H1 H2 H3 HR H4 H5 H6 H7 H8].
  assert (forall t x, ts !! t = Some x -> is_Some (t_value x) \/ is_Some (t_meta x) -> exists y, topics s !! t = Some y /\ same_node y x) as Hold.
  { intros t x Hx Hv. destruct (decide (t < length (topics s))%nat) as [Hlt|Hge].
    - destruct (lookup_lt_is_Some_2 _ _ Hlt) as [y Hy]. destruct (Hs t y Hy) as (x' & Hx' & Hsn). exists y. split; [done | congruence].
    - destruct (Hnew t x ltac:(lia) Hx) as (V & M & _). rewrite V, M in Hv. by destruct Hv as [[]|[]]. }
  split; cbn [topics msg_pend msgs fresh_msg memory with_topics]; try done.
  - unfold own. cbn [msg_pend topics msgs with_topics]. by rewrite (retained_extends _ _ He).
  - intros t x i Hx Hv. destruct (Hold t x Hx ltac:(left; by eexists)) as (y & Hy & (_ & V & _)).
    destruct (H5 t y i Hy ltac:(congruence)) as (m & Hm & Hd & Hw & Hn). exists m. split_and!; try done. intros Hp. apply Hn.
    by eapply extends_path_old.
  - intros t x i Hx Hv. destruct (Hold t x Hx ltac:(right; by eexists)) as (y & Hy & (_ & _ & M & _)). exact (H6 t y i Hy ltac:(congruence)).
Qed.

Lemma inv_act s e tr new : inv s e -> Forall msg_wf new -> inv (act s tr new) e.
Proof.
  intros [H1 H2 H3 HR H4 H5 H6 H7 H8] Hnew. destruct (act_facts new s tr) as (T & _ & Mem & _ & F & P & Old & New & Out).
  assert (forall i m, msgs s !! i = Some m -> msgs (act s tr new) !! i = Some m) as Hkeep.
  { intros i m Hm. rewrite Old; [done | by eapply H3]. }
  split; rewrite ?T, ?F, ?P, ?Mem; try done.
  - unfold own in *. rewrite T, P. assert (elements (dom (msgs (act s tr new))) ≡ₚ seq (fresh_msg s) (length new) ++ elements (dom (msgs s))) as ->.
    { apply NoDup_Permutation; [apply NoDup_elements | |].
      - apply NoDup_app. split; [apply NoDup_seq|]. split; [|apply NoDup_elements]. intros i Hi Hin. apply elem_of_seq in Hi.
        apply elem_of_elements, elem_of_dom in Hin as [m Hm]. apply H3 in Hm. lia.
      - intros i. rewrite elem_of_app, !elem_of_elements, !elem_of_dom, elem_of_seq. split.
        + intros [m Hm]. destruct (decide (i < fresh_msg s)%nat); [right; rewrite Old in Hm by done; by eexists|].
          destruct (decide (i < fresh_msg s + length new)%nat); [left; lia|]. rewrite Out in Hm by lia. apply H3 in Hm. lia.
        + intros [Hi|[m Hm]]; [|exists m; by apply Hkeep]. destruct (lookup_lt_is_Some_2 new (i - fresh_msg s) ltac:(lia)) as [m Hm].
          exists m. rewrite <- (New _ _ Hm). f_equal. lia. }
    rewrite <- H2. solve_Permutation.
  - intros i m Hm. destruct (decide (i < fresh_msg s + length new)%nat); [done|]. rewrite Out in Hm by lia. apply H3 in Hm. lia.
  - intros i m Hm. destruct (decide (i < fresh_msg s)%nat); [rewrite Old in Hm by done; by eapply HR|].
    destruct (decide (i < fresh_msg s + length new)%nat); [|rewrite Out in Hm by lia; by eapply HR].
    destruct (lookup_lt_is_Some_2 new (i - fresh_msg s) ltac:(lia)) as [m' Hm']. pose proof (New _ _ Hm') as E.
    replace (fresh_msg s + (i - fresh_msg s))%nat with i in E by lia. rewrite E in Hm. injection Hm as <-. apply wf_release. by eapply Forall_lookup_1.
  - intros i [Hi|Hi]%elem_of_app.
    + destruct (H4 i Hi) as (m & Hm & Hw). exists m. auto.
    + apply elem_of_seq in Hi. destruct (lookup_lt_is_Some_2 new (i - fresh_msg s) ltac:(lia)) as [m Hm]. exists m. split.
      * rewrite <- (New _ _ Hm). f_equal. lia.
      * by eapply Forall_lookup_1.
  - intros t x i Hx Hv. destruct (H5 t x i Hx Hv) as (m & Hm & Hr). exists m. auto.
  - intros t x i Hx Hv. destruct (H6 t x i Hx Hv) as (m & Hm & Hr). exists m. auto.
Qed.

Lemma inv_perm s e e' : inv s e -> e ≡ₚ e' -> inv s e'.
Proof. intros [] E. split; try done. unfold own in *. by rewrite <- E. Qed.

(** A message is taken from the queue, made, changed, released. *)
Lemma inv_pop s i l : inv s [] -> msg_pend s = i :: l ->
  inv (with_pend s l) [i] /\ exists m, msgs s !! i = Some m /\ msg_wf m.
Proof.
  intros [H1 H2 H3 HR H4 H5 H6 H7 H8] E. split; [|apply H4; rewrite E; set_solver].
  split; cbn [topics msg_pend msgs fresh_msg memory with_pend]; try done.
  - unfold own in *. rewrite E in H2. exact H2.
  - intros j Hj. apply H4. rewrite E. set_solver.
Qed.

Lemma inv_new s e m : inv s e -> releasable m -> inv (snd (msg_new s m)) (fresh_msg s :: e).
Proof.
  intros [H1 H2 H3 HR H4 H5 H6 H7 H8] Hrel. assert (msgs s !! fresh_msg s = None) as Hn.
  { destruct (msgs s !! fresh_msg s) as [m'|] eqn:E; [|done]. apply H3 in E. lia. }
  assert (forall i m', msgs s !! i = Some m' -> <[fresh_msg s := m]> (msgs s) !! i = Some m') as Hk.
  { intros i m' Hi. rewrite lookup_insert_ne; [done|]. apply H3 in Hi. lia. }
  split; cbn [topics msg_pend msgs fresh_msg memory msg_new snd]; try done.
  - unfold own in *. cbn [topics msg_pend msgs msg_new snd]. rewrite dom_new by done. cbn [Datatypes.app]. by rewrite H2.
  - intros i m' Hi. destruct (decide (i = fresh_msg s)) as [->|Hne]; [lia|]. rewrite lookup_insert_ne in Hi by done. apply H3 in Hi. lia.
  - intros i m' Hi. destruct (decide (i = fresh_msg s)) as [->|Hne]; [rewrite lookup_insert_eq in Hi; by injection Hi as <-|].
    rewrite lookup_insert_ne in Hi by done. by eapply HR.
  - intros i Hi. destruct (H4 i Hi) as (m' & Hm & Hw). eauto.
  - intros t x i Hx Hv. destruct (H5 t x i Hx Hv) as (m' & Hm & Hr). eauto.
  - intros t x i Hx Hv. destruct (H6 t x i Hx Hv) as (m' & Hm & Hr). eauto.
Qed.

(** A change of the message [i] in hand is not seen by the queue and the topics. *)
Lemma inv_msgs s e e' i M : inv s e -> i ∈ e -> (forall j, j <> i -> M !! j = msgs s !! j) -> (forall m, M !! i = Some m -> releasable m) ->
  e' ++ msg_pend s ++ retained (topics s) ≡ₚ elements (dom M) -> inv (with_msgs s M) e'.
Proof.
  intros H Hi Hj Hrel Ho. destruct (in_hand s e i H Hi) as (_ & Hf & Hp & Hr). destruct H as [H1 H2 H3 HR H4 H5 H6 H7 H8].
  assert (forall t x j, topics s !! t = Some x -> j ∈ held x -> j <> i) as Hheld.
  { intros t x j Hx Hh ->. apply Hr. by eapply held_retained. }
  split; cbn [topics msg_pend msgs fresh_msg memory with_msgs]; try done.
  - intros j m Hm. destruct (decide (j = i)) as [->|Hne]; [done|]. rewrite Hj in Hm by done. by eapply H3.
  - intros j m Hm. destruct (decide (j = i)) as [->|Hne]; [by apply Hrel|]. rewrite Hj in Hm by done. by eapply HR.
  - intros j Hjp. rewrite Hj by (intros ->; done). by apply H4.
  - intros t x j Hx Hv. rewrite Hj by (eapply Hheld; [done | by apply value_held]). by eapply H5.
  - intros t x j Hx Hv. rewrite Hj by (eapply Hheld; [done | by apply meta_held]). by eapply H6.
Qed.

Lemma inv_set_msg s e i m : inv s e -> i ∈ e -> releasable m -> inv (set_msg s i m) e.
Proof.
  intros H Hi Hrel. destruct (in_hand s e i H Hi) as (Hs & Hf & _). apply (inv_msgs s e e i); try done.
  - intros j Hne. by rewrite lookup_insert_ne.
  - intros m'. rewrite lookup_insert_eq. by intros [= <-].
  - rewrite dom_same by done. apply (inv_own _ _ H).
Qed.

Lemma inv_free s i e : inv s (i :: e) -> jsdrvp_msg_free s i = Ok (with_msgs s (delete i (msgs s))) /\ inv (with_msgs s (delete i (msgs s))) e.
Proof.
  intros H. destruct (in_hand s (i :: e) i H ltac:(set_solver)) as ((m & Hm) & Hf & _). split.
  - eapply free_ok; [done | by eapply inv_release].
  - apply (inv_msgs s (i :: e) e i); try done; [set_solver | | |].
    + intros j Hne. by rewrite lookup_delete_ne.
    + intros m'. by rewrite lookup_delete_eq.
    + pose proof (inv_own _ _ H) as Ho. unfold own in Ho. rewrite (dom_free _ i) in Ho by (by exists m). cbn [Datatypes.app] in Ho.
      by apply Permutation_cons_inv in Ho.
Qed.

(** A topic takes or gives a message. *)
Lemma inv_node s e e' t x y : inv s e -> topics s !! t = Some x -> same_place x y -> held x ++ e ≡ₚ held y ++ e' ->
  (forall i, t_value y = Some i -> exists m, msgs s !! i = Some m /\ deliverable m /\ value_wf (m_value m)
     /\ (at_path (topics s) t list_path -> names_ok (m_value m))) ->
  (forall i, t_meta y = Some i -> exists m, msgs s !! i = Some m /\ deliverable m /\ meta_value_ok (m_value m)) ->
  inv (set_topic s t y) e'.
Proof.
  intros [H1 H2 H3 HR H4 H5 H6 H7 H8] Hx Hs He Hv Hm. pose proof (same_shape_insert _ _ _ _ Hx Hs) as Hsh. pose proof (symmetry Hsh) as Hsh'.
  assert (forall t' z, <[t := y]> (topics s) !! t' = Some z -> (t' = t /\ z = y) \/ (t' <> t /\ topics s !! t' = Some z)) as Hcases.
  { intros t' z Hz. destruct (decide (t' = t)) as [->|Hne].
    - rewrite list_lookup_insert_eq in Hz by (by eapply lookup_lt_Some). left. split; congruence.
    - rewrite list_lookup_insert_ne in Hz by done. by right. }
  split; cbn [topics msg_pend msgs fresh_msg memory set_topic with_topics]; try done.
  - by eapply same_shape_ok.
  - unfold own in *. cbn [topics msg_pend msgs set_topic with_topics]. destruct (retained_split _ _ _ Hx) as (a & b & E1 & E2).
    rewrite E2, <- H2, E1. trans (held y ++ e' ++ msg_pend s ++ a ++ b); [solve_Permutation|]. rewrite app_assoc, <- He. solve_Permutation.
  - intros t' z i Hz Hi. destruct (Hcases t' z Hz) as [[-> ->]|[Hne Hz']].
    + destruct (Hv i Hi) as (m & ? & ? & ? & Hn). exists m. split_and!; try done. intros Hp. apply Hn. by eapply same_shape_path.
    + destruct (H5 t' z i Hz' Hi) as (m & ? & ? & ? & Hn). exists m. split_and!; try done. intros Hp. apply Hn. by eapply same_shape_path.
  - intros t' z i Hz Hi. destruct (Hcases t' z Hz) as [[-> ->]|[Hne Hz']]; [by apply Hm | by eapply H6].
Qed.

Lemma inv_subscribers s e t x l : inv s e -> topics s !! t = Some x -> inv (set_topic s t (set_subscribers x l)) e.
Proof.
  intros H Hx. pose proof H as [_ _ _ _ _ H5 H6 _ _]. apply (inv_node s e e t x); try done; intros i Hi; [by eapply H5 | by eapply H6].
Qed.

Lemma inv_sub_free s e l : inv s e -> inv (with_sub_free s l) e.
Proof. by intros []. Qed.

Lemma inv_with_memory s e p q : inv s e -> p ∈ D -> memory_ok q -> inv (with_memory s p q) e.
Proof.
  intros [H1 H2 H3 HR H4 H5 H6 H7 H8] Hp Hq. split; cbn [topics msg_pend msgs fresh_msg memory with_memory]; try done.
  - rewrite dom_insert_L. set_solver.
  - intros p' q'. destruct (decide (p' = p)) as [->|Hne]; [rewrite lookup_insert_eq; by intros [= <-]|]. rewrite lookup_insert_ne by done. apply H8.
Qed.
End Messages.

(** ** The queue only grows at its end while a message is at work *)

Definition next (s s' : jsdrv_pubsub_s) : Prop :=
  (exists l, msg_pend s' = msg_pend s ++ l) /\ (fresh_msg s <= fresh_msg s')%nat.

#[global] Instance next_refl : Reflexive next.
Proof. intros s. split; [exists []; by rewrite app_nil_r | done]. Qed.
#[global] Instance next_trans : Transitive next.
Proof.
  intros a b c [[l Hl] H1] [[l' Hl'] H2]. split; [|lia]. exists (l ++ l'). by rewrite Hl', Hl, app_assoc.
Qed.

(** A step that leaves the topics, the memory and the messages as they are. *)
Definition calm (s s' : jsdrv_pubsub_s) : Prop :=
  topics s' = topics s /\ memory s' = memory s /\ (forall i, (i < fresh_msg s)%nat -> msgs s' !! i = msgs s !! i) /\ next s s'.

#[global] Instance calm_refl : Reflexive calm.
Proof. intros s. by split_and!. Qed.
#[global] Instance calm_trans : Transitive calm.
Proof.
  intros a b c (T1 & M1 & S1 & N1) (T2 & M2 & S2 & N2). split_and!; [congruence | congruence | | by etransitivity].
  intros i Hi. rewrite S2, S1 by (destruct N1; lia). done.
Qed.

Lemma act_calm s tr new : calm s (act s tr new).
Proof.
  destruct (act_facts new s tr) as (T & _ & M & _ & F & P & O & _). split_and!; try done. split; [by eexists|]. rewrite F. lia.
Qed.
