(* ===== verification/PubSubOps.v ===== *)
(** * Every operation of publish and subscribe keeps the invariant

    One lemma for each function of src/pubsub.c that changes the state: it does not fault, it keeps
    the invariant, and the queue only grows at its end. *)

From Stdlib Require Import Strings.String.
From stdpp Require Import gmap.
From S2P Require Import Prelude Float Cstr ErrorCode Topic Union Json Meta MetaSafe PubSub PubSubTree PubSubDeliver PubSubOwn.

(** ** Buffers *)

Lemma cstr_at_split b c : cstr_at b = Some c -> exists r, b = c ++ 0 :: r /\ wf_cstr c.
Proof.
  revert c. induction b as [|x b IH]; intros c; cbn [cstr_at]; [done|]. destruct (Z.eqb_spec x 0) as [->|Hx].
  - intros [= <-]. exists b. split; [done | constructor].
  - destruct (cstr_at b) as [c'|]; [|done]. intros [= <-]. destruct (IH c' eq_refl) as (r & -> & Hw). exists r. split; [done | by constructor].
Qed.

Lemma cstr_at_zero b : 0 ∈ b -> is_Some (cstr_at b).
Proof.
  induction b as [|x b IH]; [by intros ?%not_elem_of_nil|]. cbn [cstr_at]. destruct (Z.eqb_spec x 0); [by eexists|].
  intros [E|Hin]%elem_of_cons; [by subst|]. destruct (IH Hin) as [c ->]. by eexists.
Qed.

Lemma buf_split b c : buf_ok b -> cstr_at b = Some c -> exists r, b = c ++ 0 :: r /\ wf_cstr c /\ (length c + S (length r) = 64)%nat.
Proof.
  intros [Hl _] Hc. destruct (cstr_at_split b c Hc) as (r & -> & Hw). exists r. split; [done|]. split; [done|]. rewrite length_app in Hl. exact Hl.
Qed.

Lemma buf_ok_cstr c r : (length c + S (length r) = 64)%nat -> buf_ok (c ++ 0 :: r).
Proof. intros H. split; [by rewrite length_app | apply cstr_at_zero; set_solver]. Qed.

(** A copy into a [char[64]]. *)
Lemma copy_64 c : wf_cstr c -> exists b rc, jsdrv_cstr_copy (Some (replicate 64 0)) (Some c) JSDRV_TOPIC_LENGTH_MAX = Ok (Some b, rc)
  /\ buf_ok b /\ cstr_at b = Some (take 63 c).
Proof.
  intros Hw. destruct (jsdrv_cstr_copy_spec (replicate 64 0) c JSDRV_TOPIC_LENGTH_MAX) as [E Hl]; [by vm_compute|].
  eexists _, _. split; [exact E|]. assert (cstr_at (copied c JSDRV_TOPIC_LENGTH_MAX (replicate 64 0)) = Some (take 63 c)) as Hc.
  { unfold copied. rewrite cstr_at_app by (by apply Forall_take). f_equal. change (Z.to_nat (JSDRV_TOPIC_LENGTH_MAX - 1)) with 63%nat.
    destruct (decide (length c <= 63)%nat); [rewrite Nat.min_l by lia; by rewrite !take_ge by lia | by rewrite Nat.min_r by lia]. }
  split; [|done]. split; [unfold len in Hl; rewrite length_replicate in Hl; lia | by eexists].
Qed.

Lemma cstr_snoc (c : cstr) : c <> [] -> exists c' ch, c = c' ++ [ch] /\ last c = Some ch.
Proof.
  intros H. destruct (exists_last H) as (c' & ch & ->). exists c', ch. split; [done | apply last_snoc].
Qed.

Lemma ld_last_char (c : cstr) (ch : Z) (r : list Z) : ld ((c ++ [ch]) ++ r) (len (c ++ [ch]) - 1) = Ok ch.
Proof.
  rewrite <- app_assoc. cbn [Datatypes.app]. replace (len (c ++ [ch]) - 1) with (len c) by (rewrite len_app, len_cons, len_nil; lia). apply ld_mid.
Qed.

(** ** Topic names under construction *)

Lemma append_sub_ok sub : forall b t, length b = 64%nat -> 0 <= t <= 63 ->
  exists b' t', append_sub b t sub = Ok (b', t') /\ length b' = 64%nat /\ 0 <= t' <= 63.
Proof.
  induction sub as [|c sub IH]; intros b t Hb Ht; cbn [append_sub]; [by eexists _, _|].
  unfold JSDRV_TOPIC_LENGTH_MAX. case_if; [|by eexists _, _]. rewrite st_ok, bind_Ok by (unfold len; lia). apply IH; [by rewrite length_insert | lia].
Qed.

Lemma insert_zero b (i : nat) : (i < length b)%nat -> is_Some (cstr_at (<[i := 0]> b)).
Proof. intros H. apply cstr_at_zero. apply list_elem_of_lookup. exists i. by apply list_lookup_insert_eq. Qed.

Lemma st_zero b i : buf_ok b -> 0 <= i <= 63 -> exists b', st b i 0 = Ok b' /\ buf_ok b'.
Proof.
  intros [Hl _] Hi. rewrite st_ok by (unfold len; lia). eexists. split; [done|]. split; [by rewrite length_insert | apply insert_zero; lia].
Qed.

Lemma strlen_ok b : buf_ok b -> exists n, obj_strlen b = Ok n /\ 0 <= n <= 63.
Proof.
  intros Hb. pose proof Hb as [_ [c Hc]]. destruct (buf_split b c Hb Hc) as (r & _ & _ & Hl). exists (len c). unfold obj_strlen. rewrite Hc. unfold len. split; [done | lia].
Qed.

Lemma topic_str_append_ok b nm : buf_ok b -> exists b', topic_str_append b nm = Ok b' /\ buf_ok b'.
Proof.
  intros Hb. unfold topic_str_append. destruct (strlen_ok b Hb) as (n & -> & Hn). rewrite bind_Ok. unfold JSDRV_TOPIC_LENGTH_MAX.
  case_if; [by exists b|]. destruct Hb as [Hl _].
  assert (exists b1 t, (if n =? 0 then Ok (b, 0) else b' ← st b n 47; Ok (b', n + 1)) = Ok (b1, t) /\ length b1 = 64%nat /\ 0 <= t <= 63) as (b1 & t & -> & Hl1 & Ht).
  { case_if; [eexists _, _; split; [done | lia]|]. rewrite st_ok, bind_Ok by (unfold len; lia). eexists _, _. rewrite length_insert. split; [done | lia]. }
  rewrite bind_Ok. destruct (append_sub_ok nm b1 t Hl1 Ht) as (b2 & t2 & -> & Hl2 & Ht2). rewrite bind_Ok, st_ok by (unfold len; lia).
  eexists; split; [done|]. split; [by rewrite length_insert | apply insert_zero; lia].
Qed.

Section Ops.
Context (pow : f64 -> f64 -> f64) (addr : list Z -> Z).
Context (internal_fn : jsdrv_pubsub_subscriber_s -> jsdrvp_msg_s -> Z * list jsdrvp_msg_s).
Context (D : gset nat) (Hfn : forall sub m, Forall (msg_wf D) (snd (internal_fn sub m))).

Lemma sent_wf m sub : Forall (msg_wf D) (sent_by internal_fn m sub).
Proof. unfold sent_by. destruct (internal sub); [apply Hfn | constructor]. Qed.

(** ** Lookup and delivery *)

Lemma find_inv s e c create : inv D s e -> wf_cstr c ->
  exists r s', topic_find s c create = Ok (r, s') /\ inv D s' e /\ s' = with_topics s (topics s') /\ (create = false -> s' = s)
    /\ forall t, r = Some t -> at_path (topics s') t (levels c) /\ is_Some (topics s' !! t).
Proof.
  intros H Hw. destruct (topic_find_spec s c create Hw (inv_tree _ _ _ H)) as (r & s' & E & Hs & Ht & He & Hc & Hr).
  exists r, s'. split; [done|]. split; [rewrite Hs; by apply inv_extend|]. split_and!; try done. intros t ->. destruct Hr as [_ Hp].
  split; [done | by eapply at_path_lookup].
Qed.

Lemma publish_inv s e t l i m f : inv D s e -> at_path (topics s) t l -> msgs s !! i = Some m -> deliverable m ->
  exists status s', publish internal_fn s t i f = Ok (status, s') /\ inv D s' e /\ calm s s'.
Proof.
  intros H Hp Hm Hd. destruct (publish_spec internal_fn s t l i f m (inv_tree _ _ _ H) Hp Hm (inv_fresh _ _ _ H i m Hm) Hd) as (nodes & _ & E).
  eexists _, _. split; [exact E|]. split; [apply inv_act; [done|] | apply act_calm]. apply Forall_flat_map, Forall_true. intros sub. apply sent_wf.
Qed.

(** ** Return codes *)

Lemma alloc_value_i32 s topic rc : wf_cstr topic -> exists b,
  jsdrvp_msg_alloc_value s topic (jsdrv_union_i32 rc) = Ok (msg_new s (mk_msg 0 b (jsdrv_union_i32 rc) sub_zero PNone false))
  /\ buf_ok b /\ cstr_at b = Some (take 63 topic).
Proof.
  intros Hw. unfold jsdrvp_msg_alloc_value. destruct (copy_64 topic Hw) as (b & rc' & -> & Hb & Hc). exists b. split; [|done]. done.
Qed.

Lemma i32_deliverable b rc so fr pl ip : is_Some (cstr_at b) -> deliverable (mk_msg so b (jsdrv_union_i32 rc) fr pl ip).
Proof. intros H. by split. Qed.

Lemma i32_releasable m rc : m_value m = jsdrv_union_i32 rc -> releasable m.
Proof. intros E. unfold releasable. rewrite E. by intros [[=]|[=]]. Qed.

Lemma local_return_code_inv s e topic rc : inv D s e -> wf_cstr topic ->
  exists s', local_return_code internal_fn s topic rc = Ok s' /\ inv D s' e /\ calm s s'.
Proof.
  intros H Hw. unfold local_return_code. destruct (find_inv s e topic false H Hw) as (r & s0 & -> & _ & _ & Hs & Hr). rewrite bind_Ok, (Hs eq_refl).
  destruct r as [t|]; [|by exists s]. destruct (Hr t eq_refl) as [Hp _]. rewrite (Hs eq_refl) in Hp.
  destruct (alloc_value_i32 s [] rc ltac:(constructor)) as (b & -> & Hb & _). rewrite bind_Ok. set (m := mk_msg _ b _ _ _ _).
  pose proof (inv_new D s e m H (i32_releasable m rc eq_refl)) as H1. cbn [msg_new]. set (s1 := mk_ps _ _ _ _ _ _ _) in *. change (snd (msg_new s m)) with s1 in H1.
  rewrite (get_msg_ok s1 (fresh_msg s) m), bind_Ok by apply lookup_insert_eq. change (m_topic m) with b.
  rewrite join_spec, bind_Ok by (unfold len; destruct Hb as [-> _]; by vm_compute). cbn [default from_option id].
  set (b2 := copied _ _ _). set (m2 := set_msg_topic m b2). assert (deliverable m2) as Hd.
  { apply i32_deliverable. apply cstr_at_zero. unfold b2, copied. set_solver. }
  pose proof (inv_set_msg D s1 _ (fresh_msg s) m2 H1 ltac:(set_solver) (i32_releasable m2 rc eq_refl)) as H2.
  destruct (publish_inv _ _ t _ (fresh_msg s) m2 JSDRV_SFLAG_RETURN_CODE H2 Hp) as (st & s3 & -> & H3 & (T & M & S & N)); [apply lookup_insert_eq | done|].
  rewrite bind_Ok. destruct (inv_free D s3 (fresh_msg s) e H3) as [-> H4]. eexists. split; [done|]. split; [done|].
  split_and!; cbn [topics memory msgs with_msgs].
  - by rewrite T.
  - by rewrite M.
  - intros i Hi. rewrite lookup_delete_ne by lia. rewrite S by (cbn; lia). cbn [msgs set_msg with_msgs]. rewrite lookup_insert_ne by lia.
    cbn. by rewrite lookup_insert_ne by lia.
  - destruct N as [[l N] N']. split; cbn in *; [by exists l | lia].
Qed.

Lemma free_next s i : next s (with_msgs s (delete i (msgs s))).
Proof. split; [exists []; by rewrite app_nil_r | done]. Qed.

Lemma calm_next s s' : calm s s' -> next s s'.
Proof. by intros (_ & _ & _ & H). Qed.

(** The suffix of the topic, if any, is cut. *)
Lemma cut_suffix b c : buf_ok b -> cstr_at b = Some c -> c <> [] ->
  (length c <= 62)%nat \/ last c = Some SUFFIX_RETURN_CODE ->
  exists ch, ld b (len c - 1) = Ok ch /\ exists c1 r x,
    ((if is_suffix_char ch then b' ← st b (len c - 1) 0; Ok (b', len c - 1) else Ok (b, len c)) = Ok (c1 ++ 0 :: x :: r, len c1))
    /\ wf_cstr c1 /\ (length c1 + 2 + length r = 64)%nat.
Proof.
  intros Hb Hc Hne Hl. destruct (buf_split b c Hb Hc) as (r & -> & Hw & Hlen). destruct (cstr_snoc c Hne) as (c' & ch & -> & Hlast).
  exists ch. split; [apply ld_last_char|]. rewrite length_app in *. cbn [List.length] in *. apply Forall_app in Hw as [Hw Hch].
  replace (len (c' ++ [ch]) - 1) with (len c') by (rewrite len_app, len_cons, len_nil; lia). rewrite <- app_assoc. cbn [Datatypes.app].
  destruct (is_suffix_char ch) eqn:E.
  - rewrite st_middle, bind_Ok by done. exists c', r, 0. split; [done|]. split; [done | lia].
  - destruct Hl as [Hl|Hl]; [|rewrite last_snoc in Hl; by injection Hl as ->]. destruct r as [|x r]; [cbn in Hlen; lia|].
    exists (c' ++ [ch]), r, x. rewrite <- app_assoc. split; [done|]. split; [by apply Forall_app|]. rewrite length_app. cbn [List.length] in *. lia.
Qed.

Lemma publish_return_code_inv s e i m c : inv D s (i :: e) -> msgs s !! i = Some m -> buf_ok (m_topic m) -> cstr_at (m_topic m) = Some c ->
  c <> [] -> (length c <= 62)%nat \/ last c = Some SUFFIX_RETURN_CODE -> deliverable m ->
  exists s', publish_return_code internal_fn s i = Ok s' /\ inv D s' e /\ next s s'.
Proof.
  intros H Hm Hb Hc Hne Hl [_ Hd]. unfold publish_return_code. rewrite (get_msg_ok s i m Hm), bind_Ok. unfold obj_strlen. rewrite Hc, bind_Ok.
  destruct (cut_suffix _ _ Hb Hc Hne Hl) as (ch & -> & c1 & r & x & E & Hw & Hlen). rewrite bind_Ok, E, bind_Ok. unfold text. rewrite cstr_at_app, bind_Ok by done.
  pose proof (inv_set_msg D s _ i (set_msg_topic m (c1 ++ 0 :: x :: r)) H ltac:(set_solver) (inv_release _ _ _ H i m Hm)) as H1.
  destruct (find_inv _ _ c1 true H1 Hw) as (t & s2 & -> & H2 & E2 & _ & Ht). rewrite bind_Ok.
  assert (next s s2) as N2 by (rewrite E2; split; [exists []; by rewrite app_nil_r | done]).
  destruct t as [t|].
  - rewrite st_middle, bind_Ok by done. replace (c1 ++ SUFFIX_RETURN_CODE :: x :: r) with ((c1 ++ [SUFFIX_RETURN_CODE]) ++ x :: r) by (by rewrite <- app_assoc).
    rewrite st_middle, bind_Ok by (rewrite len_app, len_cons, len_nil; lia). set (m2 := set_msg_topic m _).
    pose proof (inv_set_msg D s2 _ i m2 H2 ltac:(set_solver) (inv_release _ _ _ H i m Hm)) as H3. destruct (Ht t eq_refl) as [Hp _].
    destruct (publish_inv _ _ t _ i m2 JSDRV_SFLAG_RETURN_CODE H3 Hp) as (stt & s4 & -> & H4 & C4);
      [apply lookup_insert_eq | split; [apply cstr_at_zero; cbn; set_solver | exact Hd] |].
    rewrite !bind_Ok. destruct (inv_free D s4 i e H4) as [-> H5]. eexists. split; [done|]. split; [done|].
    transitivity s2; [done|]. transitivity s4; [|apply free_next]. apply calm_next in C4. exact C4.
  - rewrite bind_Ok. destruct (inv_free D s2 i e H2) as [-> H5]. eexists. split; [done|]. split; [done|]. transitivity s2; [done | apply free_next].
Qed.

Lemma return_code_i32_inv s e c rc : inv D s e -> wf_cstr c -> c <> [] -> (length c <= 62)%nat ->
  exists s', publish_return_code_i32 internal_fn s c rc = Ok s' /\ inv D s' e /\ next s s'.
Proof.
  intros H Hw Hne Hl. unfold publish_return_code_i32. destruct (alloc_value_i32 s c rc Hw) as (b & -> & Hb & Hc). rewrite take_ge in Hc by lia. rewrite bind_Ok.
  cbn [msg_new]. set (m := mk_msg _ b _ _ _ _). pose proof (inv_new D s e m H (i32_releasable m rc eq_refl)) as H1.
  destruct (publish_return_code_inv _ _ (fresh_msg s) m c H1) as (s' & E & H' & N'); [apply lookup_insert_eq | done | done | done | by left | apply i32_deliverable, Hb |].
  exists s'. split; [exact E|]. split; [done|]. etransitivity; [|exact N']. split; [exists []; by rewrite app_nil_r | cbn; lia].
Qed.

(** ** Metadata *)

(** A topic drops [old], which is released, and may take a message in hand. *)
Definition released (old : option mid) (M : gmap mid jsdrvp_msg_s) : gmap mid jsdrvp_msg_s :=
  match old with Some o => delete o M | None => M end.

Lemma released_other old M i : old <> Some i -> released old M !! i = M !! i.
Proof. destruct old as [o|]; [|done]. intros H. cbn. rewrite lookup_delete_ne; [done | congruence]. Qed.

Lemma released_set s old i m : old <> Some i ->
  set_msg (with_msgs s (released old (msgs s))) i m = with_msgs (set_msg s i m) (released old (msgs (set_msg s i m))).
Proof. destruct old as [o|]; [|done]. intros H. unfold set_msg. cbn. rewrite delete_insert_ne by congruence. done. Qed.

Lemma free_opt_ok s e t x old : inv D s e -> topics s !! t = Some x -> (forall o, old = Some o -> o ∈ held x) ->
  free_opt s old = Ok (with_msgs s (released old (msgs s))) /\ next s (with_msgs s (released old (msgs s))).
Proof.
  intros H Hx Ho. split; [|split; [exists []; by rewrite app_nil_r | done]]. destruct old as [o|]; [|by destruct s].
  destruct (own_live s e o (inv_own _ _ _ H)) as [m Hm]; [pose proof (held_retained _ _ _ o Hx (Ho o eq_refl)); set_solver|].
  cbn [free_opt]. eapply free_ok; [done | by eapply inv_release].
Qed.

Lemma replace_inv s e e' t x y old : inv D s e -> topics s !! t = Some x -> same_place x y -> held x ++ e ≡ₚ held y ++ option_list old ++ e' ->
  (forall i, t_value y = Some i -> exists m, msgs s !! i = Some m /\ deliverable m /\ value_wf (m_value m)
     /\ (at_path (topics s) t list_path -> names_ok (m_value m))) ->
  (forall i, t_meta y = Some i -> exists m, msgs s !! i = Some m /\ deliverable m /\ meta_value_ok (m_value m)) ->
  inv D (set_topic (with_msgs s (released old (msgs s))) t y) e'.
Proof.
  intros H Hx Hs He Hv Hm. pose proof (inv_node D s e (option_list old ++ e') t x y H Hx Hs He Hv Hm) as H1. destruct old as [o|].
  - by destruct (inv_free D _ o e' H1) as [_ H2].
  - by destruct s.
Qed.

Lemma set_msg_same s i m : msgs s !! i = Some m -> set_msg s i m = s.
Proof. intros H. unfold set_msg. rewrite insert_id by done. by destruct s. Qed.

(** The size of a metadata text is filled in. *)
Lemma fill_size s i m : msgs s !! i = Some m -> meta_value_ok (m_value m) -> deliverable m -> releasable m ->
  exists m', (if size (m_value m) =? 0 then
      o ← object (m_value m); n ← obj_strlen o;
      Ok (set_msg s i (set_msg_value m (mk_union (type (m_value m)) (flags (m_value m)) (op (m_value m)) (app (m_value m)) (u32 (n + 1)) (Union.value (m_value m)))))
    else Ok s) = Ok (set_msg s i m') /\ meta_value_ok (m_value m') /\ deliverable m' /\ releasable m'.
Proof.
  intros Hm (Htx & o & cm & Ho & Hcm & Hsz & Hmt) Hd Hrel. destruct (Z.eqb_spec (size (m_value m)) 0) as [E|E].
  - unfold object, obj_strlen. rewrite Ho, bind_Ok, Hcm, bind_Ok. eexists. split; [done|]. cbn [m_value set_msg_value]. split; [|split; [exact Hd | intros Ea; destruct (Hrel Ea) as [Eb _]; split; [exact Eb | by exists o]]].
    split; [exact Htx|]. exists o, cm. cbn [value size]. destruct (cstr_at_len o cm Hcm). split_and!; try done; [apply uwrap_range; lia|].
    unfold uwrap. pose proof (len_nonneg cm). pose proof (Z.mod_le (len cm + 1) (2 ^ 32) ltac:(lia) ltac:(lia)). lia.
  - exists m. rewrite set_msg_same by done. split; [done|]. split; [by split; [|exists o, cm] | done].
Qed.

Lemma find_next s c create r s' : s' = with_topics s (topics s') -> topic_find s c create = Ok (r, s') -> next s s' /\ msgs s' = msgs s.
Proof. intros -> _. split; [split; [exists []; by rewrite app_nil_r | done] | done]. Qed.

Lemma publish_meta_inv s e i m c : inv D s (i :: e) -> msgs s !! i = Some m -> buf_ok (m_topic m) -> cstr_at (m_topic m) = Some c -> c <> [] ->
  meta_value_ok (m_value m) -> deliverable m ->
  exists s', publish_meta internal_fn s i = Ok s' /\ inv D s' e /\ next s s'.
Proof.
  intros H Hm Hb Hc Hne Hv Hd. unfold publish_meta. rewrite (get_msg_ok s i m Hm), bind_Ok. unfold msg_text, text. rewrite Hc, bind_Ok.
  destruct (buf_split _ c Hb Hc) as (r & _ & Hw & Hlen). destruct (copy_64 c Hw) as (b & rc & -> & _ & Hcb). rewrite take_ge in Hcb by lia.
  rewrite bind_Ok. cbn [default from_option id]. rewrite Hcb, bind_Ok.
  destruct (cstr_snoc c Hne) as (c' & ch & Ec & _). pose proof (ld_last_char c' ch []) as Hld. rewrite app_nil_r, <- Ec in Hld. rewrite Hld, bind_Ok.
  destruct (find_inv s (i :: e) (take (length c - 1) c) true H ltac:(by apply Forall_take)) as (t & s1 & Ef & H1 & E1 & _ & Ht).
  destruct (find_next _ _ _ _ _ E1 Ef) as [N1 M1]. rewrite Ef, bind_Ok. rewrite <- M1 in Hm.
  destruct t as [t|]; [|destruct (inv_free D s1 i e H1) as [-> H2]; eexists; split; [done|]; split; [done|]; transitivity s1; [done | apply free_next]].
  destruct (Ht t eq_refl) as [Hp [x Hx]]. rewrite (get_topic_ok _ _ _ Hx), bind_Ok. destruct (in_hand D s1 _ i H1 ltac:(set_solver)) as (_ & _ & _ & Hnr).
  assert (t_meta x <> Some i) as Hold by (intros E; apply Hnr; eapply held_retained; [done | by apply meta_held]).
  destruct (free_opt_ok s1 _ t x (t_meta x) H1 Hx) as [Hf N2]; [intros o; apply meta_held|].
  change (match t_meta x with Some old => jsdrvp_msg_free s1 old | None => Ok s1 end) with (free_opt s1 (t_meta x)). rewrite Hf, bind_Ok.
  set (s2 := with_msgs s1 _) in *. assert (msgs s2 !! i = Some m) as Hm2 by (cbn; by rewrite released_other). rewrite (get_msg_ok _ _ _ Hm2), bind_Ok.
  destruct (fill_size s2 i m Hm2 Hv Hd (inv_release _ _ _ H1 i m Hm)) as (m' & -> & Hv' & Hd' & Hr'). rewrite bind_Ok. unfold s2. rewrite released_set by done.
  pose proof (inv_set_msg D s1 _ i m' H1 ltac:(set_solver) Hr') as H3. assert (msgs (set_msg s1 i m') !! i = Some m') as Hm3 by apply lookup_insert_eq.
  pose proof (replace_inv _ _ e t x (set_meta_of x (Some i)) (t_meta x) H3 Hx ltac:(done)) as H4.
  match type of H4 with ?A -> ?B -> ?C -> ?G => assert G as H5 end.
  { apply H4; [unfold held; cbn; solve_Permutation | intros j Hj; by eapply (inv_value _ _ _ H3) | intros j [= <-]; by exists m']. }
  destruct (publish_inv _ _ t (levels (take (length c - 1) c)) i m' JSDRV_SFLAG_METADATA_RSP H5) as (stt & s5 & -> & H6 & C6); [| |done|].
  - eapply same_shape_path; [|exact Hp]. by eapply (same_shape_insert _ _ x).
  - cbn [msgs with_msgs set_topic with_topics]. rewrite released_other by done. done.
  - rewrite bind_Ok. exists s5. split; [done|]. split; [done|]. transitivity s1; [done|]. apply calm_next in C6. exact C6.
Qed.

(** ** Values *)

Lemma validate_inv s e t x v : inv D s e -> topics s !! t = Some x -> value_wf v -> conv_safe v ->
  exists rc v', validate pow addr s x v = Ok (rc, v') /\ kept_value v v'.
Proof.
  intros H Hx Hw Hc. unfold validate. destruct (t_meta x) as [i|] eqn:E; [|exists 0, v; split; [done | by left]].
  destruct (inv_meta _ _ _ H t x i Hx E) as (m & Hm & _ & (_ & o & c & Ho & Hco & _ & Hmt)). rewrite (get_msg_ok s i m Hm), bind_Ok.
  unfold str_arg. rewrite Ho, Hco, bind_Ok. destruct (meta_value_safe pow addr c v Hmt Hw Hc) as (rc & y & -> & Hk). rewrite bind_Ok. by eexists _, _.
Qed.

Lemma is_duplicate_inv s e t x v : inv D s e -> topics s !! t = Some x -> value_wf v -> exists b, is_duplicate s x v = Ok b.
Proof.
  intros H Hx Hw. unfold is_duplicate. destruct (t_value x) as [i|] eqn:E; [|by eexists].
  destruct (inv_value _ _ _ H t x i Hx E) as (m & Hm & _ & Hv & _). rewrite (get_msg_ok s i m Hm), bind_Ok. by apply union_eq_ok.
Qed.

Lemma kept_deliverable m v : deliverable m -> kept_value (m_value m) v -> deliverable (set_msg_value m v).
Proof.
  intros [H1 H2] [->|(Hn & _)]; [by split|]. split; [exact H1|]. cbn [m_value set_msg_value]. intros E. types. lia.
Qed.

Lemma kept_releasable m v : releasable m -> kept_value (m_value m) v -> releasable (set_msg_value m v).
Proof.
  intros H [->|(_ & _ & Ha & _ & Hb)]; [exact H|]. intros E. cbn [m_value set_msg_value] in *. rewrite Ha in E. destruct (H E) as [Ht _].
  destruct Hb. by left.
Qed.

Lemma kept_names m v : names_ok m -> kept_value m v -> names_ok v.
Proof. intros Hn [->|(Hk & _)]; [done|]. intros o c E. types. lia. Qed.

(** The messages that a step on [i] at the topic with the value [old] does not touch. *)
Definition apart (old : option mid) (i : mid) (s s' : jsdrv_pubsub_s) : Prop :=
  memory s' = memory s /\ forall k, (k < fresh_msg s)%nat -> k <> i -> old <> Some k -> msgs s' !! k = msgs s !! k.

(** The message is not kept: a return code, and its release. *)
Lemma reject_inv s0 s e i topic rc : inv D s (i :: e) -> wf_cstr topic -> next s0 s ->
  exists s', (s ← local_return_code internal_fn s topic rc; jsdrvp_msg_free s i) = Ok s' /\ inv D s' e /\ next s0 s'
    /\ topics s' = topics s /\ apart None i s s'.
Proof.
  intros H Hw N. destruct (local_return_code_inv s (i :: e) topic rc H Hw) as (s1 & -> & H1 & C1). rewrite bind_Ok.
  destruct (inv_free D s1 i e H1) as [-> H2]. eexists. split; [done|]. split; [done|].
  split; [transitivity s; [done|]; transitivity s1; [by apply calm_next | apply free_next]|]. destruct C1 as (T & Me & Ms & _).
  split; [exact T|]. split; [exact Me|]. intros k Hk Hne _. cbn [msgs with_msgs]. rewrite lookup_delete_ne by done. by apply Ms.
Qed.

(** The value is delivered, and kept or released. *)
Lemma deliver_inv s0 s e i m c t x (keep : bool) : inv D s (i :: e) -> next s0 s -> wf_cstr c ->
  at_path (topics s) t (levels c) -> topics s !! t = Some x -> msgs s !! i = Some m -> deliverable m -> value_wf (m_value m) ->
  (levels c = list_path -> names_ok (m_value m)) ->
  exists s', (s ← free_opt s (t_value x);
    let s := set_topic s t (set_value_of x (if keep then Some i else None)) in
    '(status, s) ← publish internal_fn s t i 0;
    s ← (if negb (status =? 0) then local_return_code internal_fn s c status else Ok s);
    if keep then Ok s else jsdrvp_msg_free s i) = Ok s' /\ inv D s' e /\ next s0 s'
    /\ topics s' = <[t := set_value_of x (if keep then Some i else None)]> (topics s) /\ apart (t_value x) i s s'
    /\ (keep = true -> msgs s' !! i = Some m).
Proof.
  intros H N Hw Hp Hx Hm Hd Hv Hn. destruct (in_hand D s _ i H ltac:(set_solver)) as (_ & _ & _ & Hnr).
  assert (t_value x <> Some i) as Hold by (intros E; apply Hnr; eapply held_retained; [done | by apply value_held]).
  destruct (free_opt_ok s _ t x (t_value x) H Hx) as [Hf N2]; [intros o; apply value_held|]. rewrite Hf, bind_Ok. cbv zeta.
  set (y := set_value_of x _). set (e' := if keep then e else i :: e).
  assert (inv D (set_topic (with_msgs s (released (t_value x) (msgs s))) t y) e') as H3.
  { apply (replace_inv s (i :: e) e' t x); try done.
    - unfold held, y, e'. destruct keep; cbn; solve_Permutation.
    - unfold y. intros j Hj. destruct keep; [|done]. injection Hj as <-. exists m. split_and!; try done. intros Hl. apply Hn.
      by eapply at_path_path; [apply (inv_tree _ _ _ H) | |].
    - intros j Hj. by eapply (inv_meta _ _ _ H). }
  set (s2 := set_topic _ t y) in *. assert (next s0 s2) as N3 by (transitivity s; [done | exact N2]).
  destruct (publish_inv s2 e' t (levels c) i m 0 H3) as (status & s4 & -> & H4 & C4); [| |done|].
  { eapply same_shape_path; [|exact Hp]. by eapply (same_shape_insert _ _ x). }
  { unfold s2. cbn [msgs with_msgs set_topic with_topics]. by rewrite released_other. }
  rewrite bind_Ok. assert (exists s5, (if negb (status =? 0) then local_return_code internal_fn s4 c status else Ok s4) = Ok s5 /\ inv D s5 e' /\ calm s4 s5) as (s5 & -> & H5 & C5).
  { case_if; [by apply local_return_code_inv | by exists s4]. }
  assert (next s0 s5) as N5 by (transitivity s2; [done|]; transitivity s4; by apply calm_next).
  destruct (calm_trans _ _ _ C4 C5) as (T & Me & Ms & _). clear C4 C5 H4 s4.
  assert (forall k, (k < fresh_msg s)%nat -> t_value x <> Some k -> msgs s5 !! k = msgs s !! k) as Hkeep.
  { intros k Hk Hne. rewrite Ms by done. cbn. by apply released_other. }
  assert (msgs s5 !! i = Some m) as Hmi by (rewrite Hkeep; [done | by eapply (inv_fresh _ _ _ H) | done]).
  rewrite bind_Ok. unfold e' in *. destruct keep.
  - exists s5. split_and!; try done. by split; [|auto].
  - destruct (inv_free D s5 i e H5) as [-> H6]. eexists. split; [done|]. split; [done|]. split; [transitivity s5; [done | apply free_next]|].
    split; [exact T|]. split; [|done]. split; [exact Me|]. intros k Hk Hne Ho. cbn [msgs with_msgs]. rewrite lookup_delete_ne by done. by apply Hkeep.
Qed.

(** One of three ends: an unknown topic or a rejected value, a duplicate, a delivery. *)
Lemma publish_normal_cases s e i m c : inv D s (i :: e) -> msgs s !! i = Some m -> cstr_at (m_topic m) = Some c ->
  deliverable m -> value_wf (m_value m) -> conv_safe (m_value m) -> (levels c = list_path -> names_ok (m_value m)) ->
  exists s', publish_normal pow addr internal_fn s i = Ok s' /\ inv D s' e /\ next s s'
    /\ forall t s1 x, topic_find s c true = Ok (Some t, s1) -> topics s1 !! t = Some x -> t_meta x = None ->
      at_path (topics s1) t (levels c) /\ apart (t_value x) i s s'
      /\ ((topics s' = topics s1 /\ (forall k, (k < fresh_msg s)%nat -> k <> i -> msgs s' !! k = msgs s !! k)
           /\ exists k mk, t_value x = Some k /\ k <> i /\ msgs s !! k = Some mk /\ jsdrv_union_eq (m_value mk) (m_value m) = Ok true)
          \/ (let keep := negb (Z.land (flags (m_value m)) JSDRV_UNION_FLAG_RETAIN =? 0) && negb (hd 0 (name x) =? 33) in
              topics s' = <[t := set_value_of x (if keep then Some i else None)]> (topics s1) /\ (keep = true -> msgs s' !! i = Some m))).
Proof.
  intros H Hm Hc Hd Hv Hcs Hn. unfold publish_normal. rewrite (get_msg_ok s i m Hm), bind_Ok. unfold msg_text, text. rewrite Hc, bind_Ok.
  destruct (cstr_at_split _ _ Hc) as (_ & _ & Hw). destruct (find_inv s (i :: e) c true H Hw) as (t & s1 & Ef & H1 & E1 & _ & Ht).
  destruct (find_next _ _ _ _ _ E1 Ef) as [N1 M1]. rewrite Ef, bind_Ok. rewrite <- M1 in Hm.
  destruct t as [t|]; [|destruct (inv_free D s1 i e H1) as [-> H2]; eexists; split; [done|]; split; [done|]; split; [transitivity s1; [done | apply free_next] | done]].
  destruct (Ht t eq_refl) as [Hp [x Hx]]. rewrite (get_topic_ok _ _ _ Hx), bind_Ok.
  destruct (validate_inv s1 _ t x (m_value m) H1 Hx Hv Hcs) as (rc & v & Ev & Hk). rewrite Ev, bind_Ok.
  assert (t_meta x = None -> rc = 0 /\ v = m_value m) as Hnometa by (intros E; unfold validate in Ev; rewrite E in Ev; by injection Ev as <- <-).
  destruct (kept_wf _ _ Hv Hcs Hk) as [Hv' _]. set (m' := set_msg_value m v).
  pose proof (inv_set_msg D s1 _ i m' H1 ltac:(set_solver) (kept_releasable m v (inv_release _ _ _ H1 i m Hm) Hk)) as H2.
  assert (next s (set_msg s1 i m')) as N2 by exact N1.
  assert (forall old s', apart old i (set_msg s1 i m') s' -> apart old i s s') as Hap.
  { intros old s' [Me Ms]. split; [rewrite Me; cbn; by rewrite E1|]. rewrite E1 in Ms. intros k Hk1 Hk2 Hk3. rewrite Ms by done. cbn. by rewrite lookup_insert_ne. }
  destruct (Z.eqb_spec rc 0) as [Erc|Erc]; cbn [negb].
  2: { destruct (reject_inv s _ e i c rc H2 Hw N2) as (s' & -> & H3 & N3 & _). exists s'. split_and!; try done. intros t' s1' x' [= <- <-] Hx' Hmeta.
       rewrite Hx in Hx'. injection Hx' as <-. by destruct (Hnometa Hmeta). }
  destruct (is_duplicate_inv _ _ t x v H2 Hx Hv') as [dup Edup]. rewrite Edup, bind_Ok. destruct dup.
  - destruct (reject_inv s _ e i c 0 H2 Hw N2) as (s' & -> & H3 & N3 & T3 & A3). exists s'. split_and!; try done. intros t' s1' x' [= <- <-] Hx' Hmeta.
    rewrite Hx in Hx'. injection Hx' as <-. destruct (Hnometa Hmeta) as [_ ->]. apply Hap in A3. destruct A3 as [A3 A4].
    split; [done|]. split; [split; [done | intros; by apply A4]|]. left. split; [done|]. split; [intros; by apply A4|].
    unfold is_duplicate in Edup. destruct (t_value x) as [k|] eqn:Ek; [|done].
    assert (k <> i) as Hki. { intros ->. destruct (in_hand D s1 _ i H1 ltac:(set_solver)) as (_ & _ & _ & Hnr). apply Hnr. eapply held_retained; [done | by apply value_held]. }
    unfold get_msg in Edup. cbn in Edup. rewrite lookup_insert_ne, M1 in Edup by done. destruct (msgs s !! k) as [mk|] eqn:Emk; [|done]. rewrite bind_Ok in Edup. by exists k, mk.
  - destruct (deliver_inv s (set_msg s1 i m') e i m' c t x (negb (Z.land (flags v) JSDRV_UNION_FLAG_RETAIN =? 0) && negb (hd 0 (name x) =? 33)))
      as (s' & E & H3 & N3 & T3 & A3 & K3); try done; [apply lookup_insert_eq | by apply kept_deliverable | intros El; eapply kept_names; [by apply Hn | done] |].
    exists s'. split; [exact E|]. split_and!; try done. intros t' s1' x' [= <- <-] Hx' Hmeta. rewrite Hx in Hx'. injection Hx' as <-. destruct (Hnometa Hmeta) as [_ ->].
    split; [done|]. split; [by apply Hap|]. right. split; [done|]. intros Ek. rewrite (K3 Ek). by destruct m.
Qed.
End Ops.
