(* ===== verification/PubSubCmd.v ===== *)
(** * The commands of publish and subscribe, and the loop over the queue

    Subscribe replays the retained messages below the topic, unsubscribe takes the subscriber
    from the topic or from every topic, query copies the retained value to the caller's memory.
    With them every pending message is handled without a fault, and the invariant is kept. *)

From Stdlib Require Import Strings.String.
From stdpp Require Import gmap.
From S2P Require Import Prelude Float Cstr ErrorCode Topic Union Json Meta MetaSafe PubSub PubSubTree PubSubDeliver PubSubOwn PubSubOps.

Definition flag_set (sub : jsdrv_pubsub_subscriber_s) (f : Z) : bool := negb (Z.land (sub_flags sub) f =? 0).

(** ** Subscribe *)

(** The messages of a topic that a new subscriber gets: its metadata, its retained value. *)
Definition replayed (s : jsdrv_pubsub_s) (sub : jsdrv_pubsub_subscriber_s) (t : tid) : list jsdrvp_msg_s :=
  match topics s !! t with
  | None => []
  | Some x =>
      (if flag_set sub JSDRV_SFLAG_METADATA_RSP then option_list (i ← t_meta x; msgs s !! i) else [])
      ++ (if flag_set sub JSDRV_SFLAG_PUB
          then List.filter (fun m => negb (Z.land (flags (m_value m)) JSDRV_UNION_FLAG_RETAIN =? 0)) (option_list (i ← t_value x; msgs s !! i))
          else [])
  end.

Section Subscribe.
Context (internal_fn : jsdrv_pubsub_subscriber_s -> jsdrvp_msg_s -> Z * list jsdrvp_msg_s).
Context (D : gset nat) (s0 : jsdrv_pubsub_s) (e : list mid) (H0 : inv D s0 e) (sub : jsdrv_pubsub_subscriber_s).

(** The state after [sub] was called with each of [l]. *)
Definition told (l : list jsdrvp_msg_s) : jsdrv_pubsub_s :=
  act s0 (flat_map (fun m => call_of m sub) l) (flat_map (fun m => sent_by internal_fn m sub) l).

Lemma told_msg l i m : msgs s0 !! i = Some m -> msgs (told l) !! i = Some m.
Proof. intros Hm. unfold told. rewrite act_msg; [done | by eapply inv_fresh]. Qed.

Lemma told_topic l t x : topics s0 !! t = Some x -> get_topic (told l) t = Ok x.
Proof. intros Hx. unfold told. rewrite act_get_topic. by apply get_topic_ok. Qed.

Lemma tell l i m : msgs s0 !! i = Some m -> deliverable m ->
  ('(_, s) ← subscriber_call internal_fn (told l) sub i; Ok s) = Ok (told (l ++ [m])).
Proof.
  intros Hm Hd. rewrite (subscriber_call_spec internal_fn (told l) sub i m (told_msg l i m Hm) Hd), bind_Ok. unfold told. f_equal.
  rewrite act_act, !flat_map_app. cbn [flat_map]. by rewrite !app_nil_r.
Qed.

Lemma traverse_children_spec (rec : jsdrv_pubsub_s -> tid -> list Z -> res (list Z * jsdrv_pubsub_s)) (f : tid -> list jsdrvp_msg_s) (n : Z) cs :
  (forall c, c ∈ cs -> is_Some (topics s0 !! c)) -> 0 <= n <= 63 ->
  (forall c l b, c ∈ cs -> buf_ok b -> exists b', rec (told l) c b = Ok (b', told (l ++ f c)) /\ buf_ok b') ->
  forall l b, buf_ok b -> exists b', traverse_children rec n cs b (told l) = Ok (b', told (l ++ flat_map f cs)) /\ buf_ok b'.
Proof.
  intros Hcs Hn. induction cs as [|c cs IH]; intros Hrec l b Hb; cbn [traverse_children flat_map]; [exists b; by rewrite app_nil_r|].
  destruct (Hcs c ltac:(set_solver)) as [x Hx]. rewrite (told_topic l c x Hx), bind_Ok.
  destruct (topic_str_append_ok b (name x) Hb) as (b1 & -> & Hb1). rewrite bind_Ok.
  destruct (Hrec c l b1 ltac:(set_solver) Hb1) as (b2 & -> & Hb2). rewrite bind_Ok.
  destruct (st_zero b2 n Hb2 Hn) as (b3 & -> & Hb3). rewrite bind_Ok.
  destruct (IH ltac:(set_solver) ltac:(set_solver) (l ++ f c) b3 Hb3) as (b4 & -> & Hb4). exists b4. by rewrite <- app_assoc.
Qed.

Lemma replay_meta l t x : topics s0 !! t = Some x ->
  (if negb (Z.land (sub_flags sub) JSDRV_SFLAG_METADATA_RSP =? 0) then
     match t_meta x with Some i => '(_, s) ← subscriber_call internal_fn (told l) sub i; Ok s | None => Ok (told l) end
   else Ok (told l))
  = Ok (told (l ++ (if flag_set sub JSDRV_SFLAG_METADATA_RSP then option_list (i ← t_meta x; msgs s0 !! i) else []))).
Proof.
  intros Hx. unfold flag_set. destruct (negb _); [|by rewrite app_nil_r]. destruct (t_meta x) as [i|] eqn:E; [|by rewrite app_nil_r].
  destruct (inv_meta _ _ _ H0 t x i Hx E) as (m & Hm & Hd & _). cbn [mbind option_bind]. rewrite Hm. by apply tell.
Qed.

Lemma replay_value l t x : topics s0 !! t = Some x ->
  (if negb (Z.land (sub_flags sub) JSDRV_SFLAG_PUB =? 0) then
     match t_value x with
     | Some i => m ← get_msg (told l) i;
         if negb (Z.land (flags (m_value m)) JSDRV_UNION_FLAG_RETAIN =? 0)
         then '(_, s) ← subscriber_call internal_fn (told l) sub i; Ok s else Ok (told l)
     | None => Ok (told l)
     end
   else Ok (told l))
  = Ok (told (l ++ (if flag_set sub JSDRV_SFLAG_PUB
      then List.filter (fun m => negb (Z.land (flags (m_value m)) JSDRV_UNION_FLAG_RETAIN =? 0)) (option_list (i ← t_value x; msgs s0 !! i)) else []))).
Proof.
  intros Hx. unfold flag_set. destruct (negb (Z.land (sub_flags sub) _ =? 0)); [|by rewrite app_nil_r].
  destruct (t_value x) as [i|] eqn:E; [|by rewrite app_nil_r]. destruct (inv_value _ _ _ H0 t x i Hx E) as (m & Hm & Hd & _).
  rewrite (get_msg_ok _ _ _ (told_msg l i m Hm)), bind_Ok. cbn [mbind option_bind]. rewrite Hm. change (option_list (Some m)) with [m]. cbn [List.filter].
  destruct (negb (Z.land (flags (m_value m)) _ =? 0)); [by apply tell | by rewrite app_nil_r].
Qed.

Lemma traverse_spec fuel : forall t p l b, (length (topics s0) <= fuel + t)%nat -> at_path (topics s0) t p -> buf_ok b ->
  exists b', subscribe_traverse internal_fn fuel (told l) t b sub
    = Ok (b', told (l ++ flat_map (replayed s0 sub) (subtree fuel (topics s0) t))) /\ buf_ok b'.
Proof.
  pose proof (inv_tree _ _ _ H0) as Ht. induction fuel as [|fuel IH]; intros t p l b Hf Hp Hb;
    destruct (at_path_lookup _ _ _ Ht Hp) as [x Hx]; pose proof (lookup_lt_Some _ _ _ Hx); [lia|]. cbn [subscribe_traverse subtree].
  destruct (strlen_ok b Hb) as (n & -> & Hn). rewrite bind_Ok, (told_topic l t x Hx), bind_Ok, (replay_meta l t x Hx), bind_Ok, (replay_value _ t x Hx), bind_Ok.
  rewrite Hx. cbn [flat_map]. unfold replayed at 1. rewrite Hx, <- app_assoc.
  set (f := fun c => flat_map (replayed s0 sub) (subtree fuel (topics s0) c)).
  destruct (traverse_children_spec (fun s c b => subscribe_traverse internal_fn fuel s c b sub) f n (children x)) with (b := b)
    (l := l ++ ((if flag_set sub JSDRV_SFLAG_METADATA_RSP then option_list (i ← t_meta x; msgs s0 !! i) else []) ++
      (if flag_set sub JSDRV_SFLAG_PUB then List.filter (fun m => negb (Z.land (flags (m_value m)) JSDRV_UNION_FLAG_RETAIN =? 0)) (option_list (i ← t_value x; msgs s0 !! i)) else [])))
    as (b' & E & Hb'); [| done | | done |].
  - intros c Hc. by eapply tree_ok_children.
  - intros c l' b1 Hc Hb1. destruct (child_path _ t p x c Ht Hp Hx Hc) as (y & _ & Hpc & Hlt). eapply IH; [lia | done | done].
  - exists b'. split; [|done]. rewrite E. do 3 f_equal. rewrite <- app_assoc. do 2 f_equal. unfold f. clear. induction (children x) as [|c cs IHc]; [done|].
    cbn [flat_map]. by rewrite flat_map_app, IHc.
Qed.
End Subscribe.

(** ** The other commands *)

(** [fold_left subscriber_free]: the freed subscribers wait for reuse. *)
Lemma subs_freed l : forall s, fold_left subscriber_free l s = with_sub_free s (sub_free s ++ l).
Proof.
  induction l as [|a l IH]; intros s; cbn [fold_left]; [rewrite app_nil_r; by destruct s|]. rewrite IH. unfold subscriber_free, with_sub_free. cbn. by rewrite <- app_assoc.
Qed.

(** A topic without the subscriber. *)
Definition others (sub : jsdrv_pubsub_subscriber_s) (x : topic_s) : topic_s :=
  set_subscribers x (List.filter (fun a => negb (is_same_subscriber a sub)) (subscribers x)).

Lemma others_place sub x : same_place x (others sub x).
Proof. done. Qed.

Lemma filter_idem {A} (f : A -> bool) l : List.filter f (List.filter f l) = List.filter f l.
Proof. induction l as [|a l IH]; [done|]. cbn. destruct (f a) eqn:E; [cbn; by rewrite E, IH | done]. Qed.

Lemma others_idem sub x : others sub (others sub x) = others sub x.
Proof. unfold others. cbn. by rewrite filter_idem. Qed.

Lemma remove_same_spec s t x sub : topics s !! t = Some x ->
  remove_same s t sub = Ok (len (List.filter (fun a => is_same_subscriber a sub) (subscribers x)),
    with_sub_free (set_topic s t (others sub x)) (sub_free s ++ List.filter (fun a => is_same_subscriber a sub) (subscribers x))).
Proof. intros Hx. unfold remove_same. rewrite (get_topic_ok _ _ _ Hx), bind_Ok, subs_freed. done. Qed.

Section Unsubscribe.
Context (sub : jsdrv_pubsub_subscriber_s).

(** A state in which the topics of [done] are without the subscriber, and all else is as it was. *)
Definition cleared (s0 s : jsdrv_pubsub_s) (gone : list tid) : Prop :=
  msg_pend s = msg_pend s0 /\ msgs s = msgs s0 /\ fresh_msg s = fresh_msg s0 /\ memory s = memory s0 /\ trace s = trace s0
  /\ length (topics s) = length (topics s0)
  /\ forall t x, topics s0 !! t = Some x -> topics s !! t = Some (if decide (t ∈ gone) then others sub x else x).

Lemma cleared_refl s : cleared s s [].
Proof. by split_and!. Qed.

Lemma cleared_one s0 s gone t : cleared s0 s gone -> is_Some (topics s0 !! t) ->
  exists n s', remove_same s t sub = Ok (n, s') /\ cleared s0 s' (gone ++ [t]).
Proof.
  intros (H1 & H2 & H3 & H4 & H5 & H6 & H7) [x Hx]. rewrite (remove_same_spec s t _ sub (H7 t x Hx)). eexists _, _. split; [done|].
  split_and!; cbn [msg_pend msgs fresh_msg memory trace topics with_sub_free set_topic with_topics]; try done; [by rewrite length_insert|].
  intros t' y Hy. destruct (decide (t' = t)) as [->|Hne].
  - rewrite list_lookup_insert_eq by (rewrite H6; by eapply lookup_lt_Some). rewrite Hx in Hy. injection Hy as <-.
    rewrite (decide_True (P := t ∈ gone ++ [t])) by set_solver. case_decide; by rewrite ?others_idem.
  - rewrite list_lookup_insert_ne by done. rewrite (H7 t' y Hy). case_decide as E1; case_decide as E2; try done; set_solver.
Qed.

Lemma for_children_spec (rec : jsdrv_pubsub_s -> tid -> res jsdrv_pubsub_s) (f : tid -> list tid) s0 cs :
  (forall c s gone, c ∈ cs -> cleared s0 s gone -> exists s', rec s c = Ok s' /\ cleared s0 s' (gone ++ f c)) ->
  forall s gone, cleared s0 s gone -> exists s', for_children rec cs s = Ok s' /\ cleared s0 s' (gone ++ flat_map f cs).
Proof.
  induction cs as [|c cs IH]; intros Hrec s gone Hs; cbn [for_children flat_map]; [exists s; by rewrite app_nil_r|].
  destruct (Hrec c s gone ltac:(set_solver) Hs) as (s1 & -> & H1). rewrite bind_Ok.
  destruct (IH ltac:(set_solver) s1 _ H1) as (s2 & -> & H2). exists s2. by rewrite <- app_assoc in H2.
Qed.

Lemma unsubscribe_traverse_spec s0 : tree_ok (topics s0) -> forall fuel t s gone, (length (topics s0) <= fuel + t)%nat -> is_Some (topics s0 !! t) -> cleared s0 s gone ->
  exists s', unsubscribe_traverse fuel s t sub = Ok s' /\ cleared s0 s' (gone ++ subtree fuel (topics s0) t).
Proof.
  intros Ht. induction fuel as [|fuel IH]; intros t s gone Hf [x Hx] Hs; pose proof (lookup_lt_Some _ _ _ Hx); [lia|]. cbn [unsubscribe_traverse subtree].
  destruct (cleared_one s0 s gone t Hs ltac:(by eexists)) as (n & s1 & -> & H1). rewrite bind_Ok. pose proof H1 as (_ & _ & _ & _ & _ & _ & Hl).
  rewrite (get_topic_ok _ _ _ (Hl t x Hx)), bind_Ok, Hx. assert (children (if decide (t ∈ gone ++ [t]) then others sub x else x) = children x) as -> by (by case_decide).
  destruct (for_children_spec (fun s c => unsubscribe_traverse fuel s c sub) (subtree fuel (topics s0)) s0 (children x)) with (s := s1) (gone := gone ++ [t]) as (s2 & -> & H2); [|done|].
  - intros c s' gone' Hc Hs'. pose proof Ht as (_ & _ & Hch & _). destruct (Hch t x c Hx Hc) as (Hlt & y & Hy & _). apply IH; [lia | by exists y | done].
  - exists s2. split; [done|]. by rewrite <- app_assoc in H2.
Qed.

Lemma cleared_inv D s0 s e gone : inv D s0 e -> cleared s0 s gone -> inv D s e.
Proof.
  intros [H1 H2 H3 HR H4 H5 H6 H7 H8] (P & M & F & Me & _ & L & Hl).
  assert (same_shape (topics s0) (topics s)) as Hsh.
  { apply Forall2_same_length_lookup. split; [done|]. intros t x y Hx Hy. rewrite (Hl t x Hx) in Hy. injection Hy as <-. by case_decide. }
  assert (forall t y, topics s !! t = Some y -> exists x, topics s0 !! t = Some x /\ t_value y = t_value x /\ t_meta y = t_meta x) as Hb.
  { intros t y Hy. destruct (lookup_lt_is_Some_2 (topics s0) t ltac:(rewrite <- L; by eapply lookup_lt_Some)) as [x Hx].
    rewrite (Hl t x Hx) in Hy. injection Hy as <-. exists x. by case_decide. }
  assert (retained (topics s) = retained (topics s0)) as Hr.
  { rewrite !retained_concat. f_equal. apply list_eq. intros t. rewrite !list_lookup_fmap. destruct (topics s0 !! t) as [x|] eqn:Hx.
    - rewrite (Hl t x Hx). cbn. f_equal. by case_decide.
    - apply lookup_ge_None_1 in Hx. by rewrite lookup_ge_None_2 by lia. }
  split; rewrite ?P, ?M, ?F, ?Me; try done.
  - by eapply same_shape_ok.
  - unfold own. by rewrite P, M, Hr.
  - intros t y i Hy Hi. destruct (Hb t y Hy) as (x & Hx & V & _). destruct (H5 t x i Hx ltac:(congruence)) as (m & ? & ? & ? & Hn). exists m. split_and!; try done.
    intros Hp. apply Hn. eapply same_shape_path; [by symmetry | done].
  - intros t y i Hy Hi. destruct (Hb t y Hy) as (x & Hx & _ & E). exact (H6 t x i Hx ltac:(congruence)).
Qed.

Lemma cleared_next s0 s gone : cleared s0 s gone -> next s0 s.
Proof. intros (P & _ & F & _). split; [exists []; by rewrite P, app_nil_r | by rewrite F]. Qed.
End Unsubscribe.

(** After [unsubscribe_from_all] no topic has the subscriber, the other subscribers keep their
    order, and nothing else of the topics or of the messages changes. *)
Lemma unsubscribe_all_clears s i m b sub :
  tree_ok (topics s) -> msgs s !! i = Some m -> payload m = PSub b sub ->
  exists s', unsubscribe_from_all s i = Ok s' /\ topics s' = map (others sub) (topics s) /\ msgs s' = msgs s /\ msg_pend s' = msg_pend s
    /\ forall t x, topics s' !! t = Some x -> Forall (fun a => is_same_subscriber a sub = false) (subscribers x).
Proof.
  intros Ht Hm Hp. pose proof Ht as ((r & Hr & _) & _). unfold unsubscribe_from_all. rewrite (get_msg_ok _ _ _ Hm), bind_Ok, Hp.
  destruct (unsubscribe_traverse_spec sub s Ht (length (topics s)) root_topic s [] ltac:(lia) ltac:(by exists r) (cleared_refl sub s)) as (s' & -> & Hcl).
  destruct Hcl as (P & Ms & _ & _ & _ & L & Hl). exists s'. split; [done|]. assert (topics s' = map (others sub) (topics s)) as E.
  { apply list_eq. intros k. change (map (others sub) ?l) with (others sub <$> l). rewrite list_lookup_fmap. destruct (topics s !! k) as [x|] eqn:Hx.
    - rewrite (Hl k x Hx). cbn. rewrite decide_True; [done|]. cbn [Datatypes.app]. rewrite (subtree_root _ Ht). apply elem_of_seq. apply lookup_lt_Some in Hx. lia.
    - apply lookup_ge_None_1 in Hx. by rewrite lookup_ge_None_2 by lia. }
  split_and!; try done. intros t x Hx. rewrite E in Hx. change (map (others sub) ?l) with (others sub <$> l) in Hx. rewrite list_lookup_fmap in Hx.
  destruct (topics s !! t) as [y|]; [|done]. injection Hx as <-. apply List.Forall_forall. intros a [_ Ha]%filter_In. by apply negb_true_iff in Ha.
Qed.

Lemma unsubscribe_all_clears_witness : exists s', unsubscribe_from_all
    (mk_ps [mk_node [] None None None [] [(mk_sub (Some 7%nat) 0 0 3); sub_zero]] [] [] {[0%nat := mk_msg 0 [] jsdrv_union_null sub_zero (PSub [] (mk_sub (Some 7%nat) 0 0 3)) true]} 1 [] ∅) 0 = Ok s'
  /\ topics s' = [mk_node [] None None None [] [sub_zero]].
Proof.
  destruct (unsubscribe_all_clears (mk_ps [mk_node [] None None None [] [(mk_sub (Some 7%nat) 0 0 3); sub_zero]] [] [] {[0%nat := mk_msg 0 [] jsdrv_union_null sub_zero (PSub [] (mk_sub (Some 7%nat) 0 0 3)) true]} 1 [] ∅)
    0 (mk_msg 0 [] jsdrv_union_null sub_zero (PSub [] (mk_sub (Some 7%nat) 0 0 3)) true) [] (mk_sub (Some 7%nat) 0 0 3)) as (s' & E & T & _); [| done | done | by exists s'].
  by apply tree_one.
Defined.

Section Commands.
Context (pow : f64 -> f64 -> f64) (addr : list Z -> Z).
Context (internal_fn : jsdrv_pubsub_subscriber_s -> jsdrvp_msg_s -> Z * list jsdrvp_msg_s).
Context (D : gset nat) (Hfn : forall sub m, Forall (msg_wf D) (snd (internal_fn sub m))).

Lemma devices_loop_ok sub : is_Some (fn sub) -> is_internal sub = 0 -> forall src s b n, length b = 64%nat -> 0 <= n -> names_fit (Z.to_nat n) src ->
  exists tr, devices_loop s sub src b n = Ok (act s tr []).
Proof.
  intros [f Hf] Hi. induction src as [|c src IH]; intros s b n Hb Hn Hfit; cbn [devices_loop].
  - cbn [names_fit] in Hfit. rewrite st_ok, !bind_Ok by (unfold len; lia).
    destruct (ld_in_range (<[Z.to_nat n := 0]> b) 0) as (v & -> & _); [unfold len; rewrite length_insert; lia|].
    rewrite bind_Ok, Hf, Hi. destruct (v =? 0); [exists []; by rewrite act_nil | by eexists].
  - destruct Hfit as [H1 Hfit]. destruct (c =? 44).
    + rewrite st_ok, !bind_Ok by (unfold len; lia).
      destruct (ld_in_range (<[Z.to_nat n := 0]> b) 0) as (v & -> & _); [unfold len; rewrite length_insert; lia|].
      rewrite bind_Ok, Hf, Hi. destruct (v =? 0); [apply IH; [by rewrite length_insert | lia | done]|].
      change (negb (0 =? 0)) with false. cbv iota. rewrite bind_Ok.
      match goal with |- context [devices_loop ?s1 _ _ ?b1 _] => destruct (IH s1 b1 0) as (tr & ->); [by rewrite length_insert | lia | done|] end.
      exists ([CallExternal sub JSDRV_MSG_DEVICE_ADD (jsdrv_union_str (<[Z.to_nat n := 0]> b))] ++ tr).
      change (with_call s ?c) with (act s [c] []). by rewrite act_act.
    + rewrite st_ok, bind_Ok by (unfold len; lia). apply IH; [by rewrite length_insert | lia|]. by rewrite Z2Nat.inj_add, Nat.add_1_r by lia.
Qed.

Lemma devices_on_sub_inv s e topic sub : inv D s e -> Z.land (sub_flags sub) JSDRV_SFLAG_RETAIN <> 0 -> sub_ok topic sub ->
  exists tr, devices_on_sub s topic sub = Ok (act s tr []).
Proof.
  intros H Hr Hs. unfold devices_on_sub. assert (exists tr, Ok s = Ok (act s tr [])) as Hsame by (exists []; by rewrite act_nil).
  destruct (bool_decide (topic = []) || _ || _ || _) eqn:Eb; [|done].
  destruct Hs as [Hf Hi]; [done | repeat (apply orb_true_iff in Eb as [Eb|Eb]); apply bool_decide_eq_true in Eb; auto |].
  destruct (find_inv D s e JSDRV_MSG_DEVICE_LIST false H) as (t & s1 & -> & _ & _ & Es & Ht); [repeat constructor; done|]. rewrite bind_Ok, (Es eq_refl).
  destruct t as [t|]; [|done]. destruct (Ht t eq_refl) as [Hp [x Hx]]. rewrite (Es eq_refl) in Hp, Hx. rewrite (get_topic_ok _ _ _ Hx), bind_Ok.
  destruct (t_value x) as [i|] eqn:Ev; [|done]. destruct (inv_value _ _ _ H t x i Hx Ev) as (m & Hm & _ & Hw & Hn).
  rewrite (get_msg_ok _ _ _ Hm), bind_Ok. destruct (Z.eqb_spec (type (m_value m)) JSDRV_UNION_STR) as [Et|Et]; cbn [negb]; [|done].
  destruct Hw as [Hw|[[Hw _]|[[_ (o & c & Ho & Hc & _)]|[Hw _]]]]; try (types; exfalso; lia). unfold object. rewrite Ho, bind_Ok. unfold text. rewrite Hc, bind_Ok.
  apply devices_loop_ok; try done. by apply (Hn Hp o c).
Qed.

Lemma alloc_inv s e : inv D s e -> exists a s', subscriber_alloc s = (a, s') /\ inv D s' e /\ next s s' /\ topics s' = topics s /\ msgs s' = msgs s.
Proof.
  intros H. unfold subscriber_alloc. destruct (sub_free s); eexists _, _; (split; [done|]); split_and!; try done; [by apply inv_sub_free | split; [exists []; by rewrite app_nil_r | done]].
Qed.

Lemma set_msg_next s i m : next s (set_msg s i m).
Proof. split; [exists []; by rewrite app_nil_r | done]. Qed.

Lemma subscribe_inv s e i m b sub topic : inv D s (i :: e) -> msgs s !! i = Some m -> payload m = PSub b sub -> buf_ok b -> cstr_at b = Some topic ->
  type (m_value m) = JSDRV_UNION_BIN -> in_payload m = true -> sub_ok topic sub ->
  exists rc s', subscribe internal_fn s i = Ok (rc, s') /\ inv D s' (i :: e) /\ next s s'.
Proof.
  intros H Hm Hp Hb Hc Ht Hin Hs. unfold subscribe. rewrite (get_msg_ok _ _ _ Hm), bind_Ok, Ht, Hin, Hp. cbn [negb Z.eqb JSDRV_UNION_BIN].
  change (JSDRV_UNION_BIN =? JSDRV_UNION_BIN) with true. cbv iota. cbn [negb]. unfold text. rewrite Hc, bind_Ok. destruct (cstr_at_split _ _ Hc) as (_ & _ & Hw).
  destruct (find_inv D s (i :: e) topic true H Hw) as (t & s1 & Ef & H1 & E1 & _ & Htr). destruct (find_next _ _ _ _ _ E1 Ef) as [N1 M1].
  rewrite Ef, bind_Ok. destruct t as [t|]; [|by eexists _, _]. destruct (Htr t eq_refl) as [Hpt [x Hx]].
  destruct (alloc_inv s1 (i :: e) H1) as (a & s2 & -> & H2 & N2 & T2 & M2). rewrite <- T2 in Hx, Hpt. rewrite (get_topic_ok _ _ _ Hx), bind_Ok.
  pose proof (inv_subscribers D s2 (i :: e) t x (subscribers x ++ [sub]) H2 Hx) as H3. set (s3 := set_topic s2 t _) in *.
  assert (next s s3) as N3 by (transitivity s1; [done|]; transitivity s2; [done|]; split; [exists []; by rewrite app_nil_r | done]).
  destruct (Z.eqb_spec (Z.land (sub_flags sub) JSDRV_SFLAG_RETAIN) 0) as [Er|Er]; cbn [negb]; [by eexists _, _|].
  destruct (devices_on_sub_inv s3 (i :: e) topic sub H3 Er Hs) as (tr & ->). rewrite bind_Ok.
  pose proof (inv_act D s3 (i :: e) tr [] H3 ltac:(constructor)) as H4. pose proof (calm_next _ _ (act_calm s3 tr [])) as N4. set (s4 := act s3 tr []) in *.
  assert (at_path (topics s4) t (levels topic)) as Hp4.
  { unfold s4. rewrite act_topics. eapply same_shape_path; [|exact Hpt]. by eapply (same_shape_insert _ _ x). }
  destruct (traverse_spec internal_fn D s4 (i :: e) H4 sub (length (topics s4)) t (levels topic) [] b ltac:(lia) Hp4 Hb) as (b' & E & Hb').
  unfold told in E at 1. cbn [flat_map] in E. rewrite act_nil in E. rewrite E, bind_Ok. cbn [Datatypes.app].
  eexists _, _. split; [done|]. split; [|transitivity s3; [done|]; transitivity s4; [done|]; etransitivity; [|apply set_msg_next]; exact (calm_next _ _ (act_calm s4 _ _))].
  apply inv_set_msg; [| set_solver | exact (inv_release _ _ _ H i m Hm)]. apply inv_act; [done|]. apply Forall_flat_map, Forall_true. intros m'. by apply sent_wf.
Qed.

Lemma unsubscribe_inv s e i m b sub : inv D s (i :: e) -> msgs s !! i = Some m -> payload m = PSub b sub -> buf_ok b ->
  exists rc s', unsubscribe s i = Ok (rc, s') /\ inv D s' (i :: e) /\ next s s'.
Proof.
  intros H Hm Hp [_ [topic Hc]]. unfold unsubscribe. rewrite (get_msg_ok _ _ _ Hm), bind_Ok, Hp. unfold text. rewrite Hc, bind_Ok.
  destruct (cstr_at_split _ _ Hc) as (_ & _ & Hw). destruct (find_inv D s (i :: e) topic true H Hw) as (t & s1 & Ef & H1 & E1 & _ & Htr).
  destruct (find_next _ _ _ _ _ E1 Ef) as [N1 M1]. rewrite Ef, bind_Ok. destruct t as [t|]; [|by eexists _, _]. destruct (Htr t eq_refl) as [_ Hx].
  destruct (cleared_one sub s1 s1 [] t (cleared_refl sub s1) Hx) as (n & s2 & -> & Hcl). rewrite bind_Ok. eexists _, _. split; [done|].
  split; [by eapply cleared_inv | transitivity s1; [done | by eapply cleared_next]].
Qed.

Lemma unsubscribe_all_inv s e i m b sub : inv D s (i :: e) -> msgs s !! i = Some m -> payload m = PSub b sub ->
  exists s', unsubscribe_from_all s i = Ok s' /\ inv D s' (i :: e) /\ next s s'.
Proof.
  intros H Hm Hp. unfold unsubscribe_from_all. rewrite (get_msg_ok _ _ _ Hm), bind_Ok, Hp. pose proof (inv_tree _ _ _ H) as Ht. pose proof Ht as ((r & Hr & _) & _).
  destruct (unsubscribe_traverse_spec sub s Ht (length (topics s)) root_topic s [] ltac:(lia) ltac:(by exists r) (cleared_refl sub s)) as (s' & -> & Hcl).
  exists s'. split; [done|]. split; [by eapply cleared_inv | by eapply cleared_next].
Qed.

(** *** Query *)

Lemma u32_le n : 0 <= n -> 0 <= u32 n <= n.
Proof. intros H. split; [apply uwrap_range; lia|]. apply Z.mod_le; [done | lia]. Qed.

(** The bytes behind a value of pointer type, and the number that a query copies. *)
Lemma ptr_value v : value_wf v -> jsdrv_union_is_type_ptr v = true -> exists o sz, value v = Mem (Some o)
  /\ (if size v =? 0 then n ← obj_strlen o; Ok (n + 1) else Ok (size v)) = Ok sz /\ 0 <= sz <= len o.
Proof.
  unfold jsdrv_union_is_type_ptr. intros Hw Ht. assert (forall o, 0 <= size v <= len o -> (size v = 0 -> is_Some (cstr_at o)) ->
    exists sz, (if size v =? 0 then n ← obj_strlen o; Ok (n + 1) else Ok (size v)) = Ok sz /\ 0 <= sz <= len o) as Hsz.
  { intros o Ho Hz. destruct (Z.eqb_spec (size v) 0) as [E|E]; [|by eexists]. destruct (Hz E) as [c Hc]. destruct (cstr_at_len o c Hc).
    unfold obj_strlen. rewrite Hc, bind_Ok. pose proof (len_nonneg c). eexists; split; [done | lia]. }
  destruct Hw as [Hw|[[Hw _]|[[_ (o & c & Ho & Hc & Hs)]|[_ (o & Ho & Hs & Hz)]]]].
  - rewrite Hw in Ht. done.
  - exfalso. types. bool_facts. lia.
  - destruct (Hsz o Hs) as (sz & E & Hb); [by eexists|]. by exists o, sz.
  - destruct (Hsz o Hs Hz) as (sz & E & Hb). by exists o, sz.
Qed.

Lemma memory_num_ok v : jsdrv_union_is_type_ptr v = false -> memory_ok v.
Proof. intros E E'. congruence. Qed.

Lemma query_copy_inv s e i m b p src : inv D s (i :: e) -> msgs s !! i = Some m -> payload m = PQuery b p -> p ∈ D ->
  (forall j, src = Some j -> exists mj, msgs s !! j = Some mj /\ value_wf (m_value mj)) ->
  exists s', query_value_copy s src i = Ok s' /\ inv D s' (i :: e) /\ next s s' /\ is_Some (msgs s' !! i).
Proof.
  intros H Hm Hp HD Hsrc. unfold query_value_copy, query_ptr, read_memory. rewrite (get_msg_ok _ _ _ Hm), bind_Ok, Hp, bind_Ok.
  assert (p ∈ dom (memory s)) as [q Hq]%elem_of_dom by (by rewrite (inv_dom _ _ _ H)). rewrite Hq, bind_Ok.
  destruct src as [j|].
  2: { eexists. split; [done|]. split; [by apply inv_with_memory|]. split; [split; [exists []; by rewrite app_nil_r | done] | by eexists]. }
  destruct (Hsrc j eq_refl) as (mj & Hmj & Hw). rewrite (get_msg_ok _ _ _ Hmj), bind_Ok.
  assert (forall rc s', inv D s' (i :: e) -> next s s' ->
    exists s'', Ok (set_msg s' i (set_msg_value m (jsdrv_union_i32 rc))) = Ok s'' /\ inv D s'' (i :: e) /\ next s s'' /\ is_Some (msgs s'' !! i)) as Hdone.
  { intros rc s' Hs' Hn'. eexists. split; [done|]. split; [apply inv_set_msg; [done | set_solver | by eapply i32_releasable]|]. split; [exact Hn'|].
    cbn. rewrite lookup_insert_eq. by eexists. }
  destruct (jsdrv_union_is_type_ptr (m_value mj)) eqn:Ep.
  - destruct (jsdrv_union_is_type_ptr q) eqn:Eq; cbn [negb]; [|by apply Hdone].
    destruct (ptr_value _ Hw Ep) as (o & sz & Ho & Esz & Hsz). unfold object. rewrite Ho, bind_Ok, Esz, bind_Ok. case_if; [by apply Hdone|].
    destruct (inv_memory _ _ _ H p q Hq Eq) as (qb & Hqb & Hqs). rewrite Hqb, bind_Ok.
    destruct (mem_copy_ok qb 0 o 0 sz) as (b' & -> & Hl & _); [lia | lia | lia | lia | lia |]. rewrite bind_Ok. apply Hdone.
    + apply inv_with_memory; [done | done|]. intros _. exists b'. split; [done|]. cbn [size]. pose proof (u32_le sz ltac:(lia)). lia.
    + split; [exists []; by rewrite app_nil_r | done].
  - apply Hdone; [|split; [exists []; by rewrite app_nil_r | done]]. apply inv_with_memory; [done | done | by apply memory_num_ok].
Qed.

Lemma meta_value_wf v : meta_value_ok v -> value_wf v.
Proof. intros (Ht & o & c & Ho & Hc & Hs & _). right; right; left. split; [done|]. by exists o, c. Qed.

Lemma query_inv s e i m b p : inv D s (i :: e) -> msgs s !! i = Some m -> payload m = PQuery b p -> buf_ok b -> cstr_at b <> Some [] -> p ∈ D ->
  exists rc s', query addr s i = Ok (rc, s') /\ inv D s' (i :: e) /\ next s s'.
Proof.
  intros H Hm Hp Hb Hne HD. pose proof Hb as [_ [c Hc]]. assert (c <> []) as Hc0 by (by intros ->). unfold query. rewrite (get_msg_ok _ _ _ Hm), bind_Ok, Hp. unfold text. rewrite Hc, bind_Ok.
  destruct (buf_split b c Hb Hc) as (r & _ & Hw & Hlen). destruct (copy_64 c Hw) as (b1 & rc & -> & _ & Hcb). rewrite take_ge in Hcb by lia. rewrite bind_Ok.
  cbn [default from_option id]. rewrite Hcb, bind_Ok. destruct (cstr_snoc c Hc0) as (c' & ch & Ec & _).
  pose proof (ld_last_char c' ch []) as Hld. rewrite app_nil_r, <- Ec in Hld. rewrite Hld, bind_Ok.
  match goal with |- context [let '(_, _) := ?x in _] => assert (wf_cstr x.1) as Hw1 by (repeat case_if; cbn; [by apply Forall_take | by apply Forall_take | done]);
    destruct x as [tp is_meta] end. cbn [fst] in Hw1.
  destruct (find_inv D s (i :: e) tp false H Hw1) as (t & s1 & -> & _ & _ & Es & Ht). rewrite bind_Ok, (Es eq_refl).
  match goal with |- context [mbind _ ?r] => assert (exists s2, r = Ok s2 /\ inv D s2 (i :: e) /\ next s s2 /\ is_Some (msgs s2 !! i)) as (s2 & -> & H2 & N2 & [m2 Hm2]) end.
  2: { rewrite bind_Ok, (get_msg_ok _ _ _ Hm2), bind_Ok. by eexists _, _. }
  destruct t as [t|].
  2: { eexists. split; [done|]. split; [apply inv_set_msg; [done | set_solver | by eapply i32_releasable]|]. split; [apply set_msg_next | cbn; rewrite lookup_insert_eq; by eexists]. }
  destruct (Ht t eq_refl) as [_ [x Hx]]. rewrite (Es eq_refl) in Hx. rewrite (get_topic_ok _ _ _ Hx), bind_Ok. destruct is_meta.
  - destruct (t_meta x) as [j|] eqn:Ej.
    + apply (query_copy_inv s e i m b p); try done. intros j' [= <-]. destruct (inv_meta _ _ _ H t x j Hx Ej) as (mj & Hmj & _ & Hv). exists mj. split; [done | by apply meta_value_wf].
    + unfold read_memory. assert (p ∈ dom (memory s)) as [q Hq]%elem_of_dom by (by rewrite (inv_dom _ _ _ H)). rewrite Hq, bind_Ok.
      eexists. split; [done|]. split; [by apply inv_with_memory|]. split; [split; [exists []; by rewrite app_nil_r | done] | by eexists].
  - apply (query_copy_inv s e i m b p); try done. intros j Ej. destruct (inv_value _ _ _ H t x j Hx Ej) as (mj & Hmj & _ & Hv & _). by exists mj.
Qed.

(** ** The queue *)

Lemma process_command_inv s e i m c : inv D s (i :: e) -> msgs s !! i = Some m -> command_ok D m c ->
  exists rc s', process_command addr internal_fn s c i = Ok (rc, s') /\ inv D s' (i :: e) /\ next s s'.
Proof.
  intros H Hm (Hq & Hs & Hu & _). unfold process_command. repeat case_bool_decide.
  - destruct Hq as (b & p & ? & ? & ? & ?); [done|]. by eapply query_inv.
  - destruct Hs as (? & ? & b & sub & ? & Hb & Hsub); [done|]. pose proof Hb as [_ [t Ht]]. eapply subscribe_inv; eauto.
  - destruct Hu as (b & sub & ? & ?); [auto|]. by eapply unsubscribe_inv.
  - destruct Hu as (b & sub & ? & ?); [auto|]. destruct (unsubscribe_all_inv s e i m b sub) as (s' & -> & ? & ?); try done. rewrite bind_Ok. by eexists _, _.
  - by eexists _, _.
Qed.

Lemma process_msg_inv s e i m : inv D s (i :: e) -> msgs s !! i = Some m -> msg_wf D m ->
  exists s', process_msg pow addr internal_fn s i = Ok s' /\ inv D s' e /\ next s s'.
Proof.
  intros H Hm [Hb Hd _ He Hcmd Hmeta Hval]. pose proof Hb as [_ [c Hc]]. destruct (buf_split _ c Hb Hc) as (r & _ & Hw & Hlen).
  unfold process_msg. rewrite (get_msg_ok _ _ _ Hm), bind_Ok. unfold msg_text, text. rewrite Hc, bind_Ok.
  destruct (Z.eqb_spec (hd 0 c) JSDRV_PUBSUB_COMMAND_PREFIX) as [E|E].
  - assert (c <> []) as Hc0 by (intros ->; done). pose proof (Hcmd c Hc E) as Hok. destruct (process_command_inv s e i m c H Hm Hok) as (rc & s1 & -> & H1 & N1).
    rewrite bind_Ok. assert (exists s2, (if negb (source m =? 0) then publish_return_code_i32 internal_fn s1 c rc else Ok s1) = Ok s2 /\ inv D s2 (i :: e) /\ next s1 s2) as (s2 & -> & H2 & N2).
    { destruct (Z.eqb_spec (source m) 0) as [Es|Es]; cbn [negb]; [by exists s1|]. destruct Hok as (_ & _ & _ & Hl). by apply return_code_i32_inv; auto. }
    rewrite bind_Ok. destruct (inv_free D s2 i e H2) as [-> H3]. eexists. split; [done|]. split; [done|]. transitivity s1; [done|]. transitivity s2; [done | apply free_next].
  - destruct (last c) as [ch|] eqn:El.
    + assert (c <> []) as Hc0 by (intros ->; done). destruct (Z.eqb_spec ch SUFFIX_METADATA_RSP) as [->|Em]; [by eapply publish_meta_inv; eauto|].
      destruct (Z.eqb_spec ch SUFFIX_RETURN_CODE) as [->|Er]; [eapply publish_return_code_inv; eauto|].
      destruct (Hval c Hc E ltac:(congruence)) as (? & ? & ?). destruct (publish_normal_cases pow addr internal_fn D Hfn s e i m c) as (s' & ? & ? & ? & _); eauto.
    + apply last_None in El. subst c. rewrite (He Hc). cbn [negb Z.eqb]. rewrite bind_Ok. destruct (inv_free D s i e H) as [-> H3]. eexists. split; [done|]. split; [done | apply free_next].
Qed.

Lemma process_step_inv s i l : inv D s [] -> msg_pend s = i :: l ->
  exists s' new, process_step pow addr internal_fn s = Ok (Some s') /\ inv D s' [] /\ msg_pend s' = l ++ new.
Proof.
  intros H E. unfold process_step. rewrite E. destruct (inv_pop D s i l H E) as (H1 & m & Hm & Hw).
  destruct (process_msg_inv (with_pend s l) [] i m H1 Hm Hw) as (s' & -> & H2 & [[new Hn] _]). rewrite bind_Ok. by exists s', new.
Qed.
End Commands.
