(* ===== verification/PubSubSpec.v ===== *)
(** * What publish and subscribe promises

    The states that are reached from [jsdrv_pubsub_initialize] by queueing well-formed messages and
    by handling pending ones.  In each of them the next round does not fault, every message has one
    holder, and [jsdrv_pubsub_finalize] releases every message once. *)

From Stdlib Require Import Strings.String.
From stdpp Require Import gmap.
From S2P Require Import Prelude Float Cstr ErrorCode Topic Union Json Meta MetaSafe PubSub PubSubTree PubSubDeliver PubSubOwn PubSubOps PubSubCmd.

(** ** Reachable states *)

Definition post (s : jsdrv_pubsub_s) (m : jsdrvp_msg_s) : jsdrv_pubsub_s :=
  let '(i, s) := msg_new s m in jsdrv_pubsub_publish s i.

Section Reach.
Context (pow : f64 -> f64 -> f64) (addr : list Z -> Z).
Context (internal_fn : jsdrv_pubsub_subscriber_s -> jsdrvp_msg_s -> Z * list jsdrvp_msg_s).
Context (M : gmap nat jsdrv_union_s).

(** [M] is the memory of the callers of [jsdrv_query]. *)
Inductive reachable : jsdrv_pubsub_s -> Prop :=
  | reach_init s : jsdrv_pubsub_initialize = Ok s ->
      reachable (mk_ps (topics s) (sub_free s) (msg_pend s) (msgs s) (fresh_msg s) (trace s) M)
  | reach_post s m : reachable s -> msg_wf (dom M) m -> reachable (post s m)
  | reach_step s s' : reachable s -> process_step pow addr internal_fn s = Ok (Some s') -> reachable s'.
End Reach.

Lemma init_inv M : (forall p q, M !! p = Some q -> memory_ok q) -> inv (dom M) (mk_ps [mk_node [] None None None [] []] [] [] ∅ 0 [] M) [].
Proof.
  intros HM. split; cbn [topics msg_pend msgs fresh_msg memory]; try done.
  - by apply tree_one.
  - unfold own. cbn. by rewrite dom_empty_L, elements_empty.
  - by intros i ?%not_elem_of_nil.
  - intros [|[|t]] x i; cbn; try done. by intros [= <-].
  - intros [|[|t]] x i; cbn; try done. by intros [= <-].
Qed.

Lemma post_inv D s m : inv D s [] -> msg_wf D m -> inv D (post s m) [].
Proof.
  intros H Hm. change (post s m) with (publish_new s [m]). rewrite <- (with_trace_nil s). apply (inv_act D s [] [] [m] H). by constructor.
Qed.

Section Promise.
Context (pow : f64 -> f64 -> f64) (addr : list Z -> Z).
Context (internal_fn : jsdrv_pubsub_subscriber_s -> jsdrvp_msg_s -> Z * list jsdrvp_msg_s).
Context (M : gmap nat jsdrv_union_s) (HM : forall p q, M !! p = Some q -> memory_ok q).
Context (Hfn : forall sub m, Forall (msg_wf (dom M)) (snd (internal_fn sub m))).

Lemma reachable_inv s : reachable pow addr internal_fn M s -> inv (dom M) s [].
Proof.
  induction 1 as [s E|s m _ IH Hm|s s' _ IH E].
  - injection E as <-. by apply init_inv.
  - by apply post_inv.
  - destruct (msg_pend s) as [|i l] eqn:El; [unfold process_step in E; by rewrite El in E|].
    destruct (process_step_inv pow addr internal_fn (dom M) Hfn s i l IH El) as (s1 & new & E1 & H1 & _). congruence.
Qed.

(** [k] rounds of the loop. *)
Fixpoint process_steps (k : nat) (s : jsdrv_pubsub_s) : res (option jsdrv_pubsub_s) :=
  match k with
  | O => Ok (Some s)
  | S k' => r ← process_step pow addr internal_fn s; match r with None => Ok None | Some s => process_steps k' s end
  end.

Lemma process_steps_inv k : forall s, inv (dom M) s [] -> (k <= length (msg_pend s))%nat ->
  exists s' new, process_steps k s = Ok (Some s') /\ inv (dom M) s' [] /\ msg_pend s' = drop k (msg_pend s) ++ new.
Proof.
  induction k as [|k IH]; intros s H Hk; cbn [process_steps]; [exists s, []; by rewrite app_nil_r|].
  destruct (msg_pend s) as [|i l] eqn:El; [cbn in Hk; lia|]. cbn [List.length drop] in *.
  destruct (process_step_inv pow addr internal_fn (dom M) Hfn s i l H El) as (s1 & new & -> & H1 & E1). rewrite bind_Ok.
  destruct (IH s1 H1 ltac:(rewrite E1, length_app; lia)) as (s2 & new2 & -> & H2 & E2). exists s2, (new ++ new2). split; [done|]. split; [done|].
  rewrite E2, E1, drop_app_le by lia. by rewrite app_assoc.
Qed.
End Promise.

(** ** Finalize *)

(** The messages of the store, in any order. *)
Definition live (s : jsdrv_pubsub_s) (l : list mid) : Prop :=
  elements (dom (msgs s)) ≡ₚ l /\ forall i m, msgs s !! i = Some m -> releasable m.

Lemma free_live s i l : live s (i :: l) -> exists s', jsdrvp_msg_free s i = Ok s' /\ topics s' = topics s /\ live s' l.
Proof.
  intros [H Hr]. assert (is_Some (msgs s !! i)) as [m Hm] by (apply elem_of_dom, elem_of_elements; rewrite H; set_solver).
  rewrite (free_ok s i m Hm (Hr i m Hm)). eexists. split; [done|]. split; [done|]. split; cbn [msgs with_msgs].
  - rewrite (dom_free _ i) in H by (by exists m). by apply Permutation_cons_inv in H.
  - intros j m' Hj. apply lookup_delete_Some in Hj as [_ Hj]. by eapply Hr.
Qed.

Lemma free_opt_live s o l : live s (option_list o ++ l) -> exists s', free_opt s o = Ok s' /\ topics s' = topics s /\ live s' l.
Proof. destruct o as [i|]; [apply free_live | by exists s]. Qed.

Lemma free_pend_live p : forall s l, live s (p ++ l) -> exists s', free_pend p s = Ok s' /\ topics s' = topics s /\ live s' l.
Proof.
  induction p as [|i p IH]; intros s l H; cbn [free_pend]; [by exists s|]. destruct (free_live s i (p ++ l) H) as (s1 & -> & T1 & H1). rewrite bind_Ok.
  destruct (IH s1 l H1) as (s2 & -> & T2 & H2). exists s2. split; [done|]. split; [congruence | done].
Qed.

Definition held_at (ts : list topic_s) (t : tid) : list mid := match ts !! t with Some x => held x | None => [] end.

Lemma children_free (rec : jsdrv_pubsub_s -> tid -> res jsdrv_pubsub_s) (f : tid -> list mid) ts cs :
  (forall c s l, c ∈ cs -> topics s = ts -> live s (f c ++ l) -> exists s', rec s c = Ok s' /\ topics s' = ts /\ live s' l) ->
  forall s l, topics s = ts -> live s (flat_map f cs ++ l) -> exists s', for_children rec cs s = Ok s' /\ topics s' = ts /\ live s' l.
Proof.
  induction cs as [|c cs IH]; intros Hrec s l Ht H; cbn [for_children flat_map] in *; [by exists s|]. rewrite <- app_assoc in H.
  destruct (Hrec c s _ ltac:(set_solver) Ht H) as (s1 & -> & T1 & H1). rewrite bind_Ok. apply IH; [set_solver | done | done].
Qed.

Lemma topic_free_live ts : tree_ok ts -> forall fuel t s l, (length ts <= fuel + t)%nat -> is_Some (ts !! t) -> topics s = ts ->
  live s (flat_map (held_at ts) (subtree fuel ts t) ++ l) -> exists s', topic_free fuel s t = Ok s' /\ topics s' = ts /\ live s' l.
Proof.
  intros Ht. induction fuel as [|fuel IH]; intros t s l Hf [x Hx] Hs H; pose proof (lookup_lt_Some _ _ _ Hx); [lia|]. cbn [topic_free subtree flat_map] in *.
  unfold held_at in H at 1. rewrite Hx in H. unfold held in H. rewrite <- !app_assoc in H. rewrite (get_topic_ok s t x) by (by rewrite Hs). rewrite bind_Ok.
  destruct (free_opt_live _ _ _ H) as (s1 & -> & T1 & H1). rewrite bind_Ok. destruct (free_opt_live _ _ _ H1) as (s2 & -> & T2 & H2). rewrite bind_Ok, subs_freed.
  apply (children_free _ (fun c => flat_map (held_at ts) (subtree fuel ts c)) ts).
  - intros c s' l' Hc Ts' Hs'. pose proof Ht as (_ & _ & Hch & _). destruct (Hch t x c Hx Hc) as (Hlt & y & Hy & _). apply IH; [lia | by exists y | done | done].
  - cbn. congruence.
  - enough (flat_map (fun c => flat_map (held_at ts) (subtree fuel ts c)) (children x) = flat_map (held_at ts) (flat_map (subtree fuel ts) (children x))) as -> by exact H2.
    clear. induction (children x) as [|c cs IHc]; [done|]. cbn [flat_map]. by rewrite flat_map_app, IHc.
Qed.

Lemma held_at_all ts : flat_map (held_at ts) (seq 0 (length ts)) = retained ts.
Proof.
  rewrite retained_concat, flat_map_concat_map. f_equal. change (map (held_at ts) ?l) with (held_at ts <$> l). apply list_eq. intros k. rewrite !list_lookup_fmap.
  destruct (ts !! k) as [x|] eqn:Hx.
  - rewrite lookup_seq_lt by (by eapply lookup_lt_Some). cbn. unfold held_at. by rewrite Hx.
  - rewrite lookup_seq_ge by (by apply lookup_ge_None_1). done.
Qed.

Lemma finalize_inv D s : inv D s [] -> jsdrv_pubsub_finalize s = Ok ∅.
Proof.
  intros H. pose proof (inv_own _ _ _ H) as Ho. unfold own in Ho. cbn [Datatypes.app] in Ho. pose proof (inv_tree _ _ _ H) as Ht. unfold jsdrv_pubsub_finalize.
  destruct (free_pend_live (msg_pend s) s (retained (topics s))) as (s1 & -> & T1 & H1); [split; [by symmetry | apply H]|]. rewrite bind_Ok, T1.
  pose proof Ht as ((r & Hr & _) & _).
  destruct (topic_free_live (topics s) Ht (length (topics s)) root_topic s1 []) as (s2 & -> & _ & H2); [lia | by exists r | done | |].
  - rewrite app_nil_r. destruct H1 as [H1 Hr1]. split; [|done]. rewrite H1, <- held_at_all, (subtree_root _ Ht). done.
  - rewrite bind_Ok. f_equal. destruct H2 as [H2 _]. apply Permutation_nil_r, elements_empty_inv in H2. apply dom_empty_inv_L. by apply leibniz_equiv.
Qed.

(** ** A retained value is what a query reads *)

Lemma union_eq_type a b : jsdrv_union_eq a b = Ok true -> type a = type b.
Proof. unfold jsdrv_union_eq. destruct (Z.eqb_spec (type a) (type b)); [done|]. by intros [=]. Qed.

Lemma query_reads addr D s j e mj b p c t x k mk : inv D s (j :: e) -> msgs s !! j = Some mj -> payload mj = PQuery b p -> buf_ok b -> cstr_at b = Some c ->
  c <> [] -> last c <> Some SUFFIX_QUERY_REQ -> last c <> Some SUFFIX_METADATA_REQ -> p ∈ D -> Forall level_ok (levels c) ->
  at_path (topics s) t (levels c) -> topics s !! t = Some x -> t_value x = Some k -> msgs s !! k = Some mk ->
  jsdrv_union_is_type_ptr (m_value mk) = false ->
  exists s', query addr s j = Ok (0, s') /\ memory s' !! p = Some (m_value mk).
Proof.
  intros H Hj Hp Hb Hc Hc0 Hq1 Hq2 HD Hlv Hpath Hx Hk Hmk Hptr. unfold query. rewrite (get_msg_ok _ _ _ Hj), bind_Ok, Hp. unfold text. rewrite Hc, bind_Ok.
  destruct (buf_split b c Hb Hc) as (r & _ & Hw & Hlen). destruct (copy_64 c Hw) as (b1 & rc & -> & _ & Hcb). rewrite take_ge in Hcb by lia. rewrite bind_Ok.
  cbn [default from_option id]. rewrite Hcb, bind_Ok. destruct (cstr_snoc c Hc0) as (c' & ch & Ec & El).
  pose proof (ld_last_char c' ch []) as Hld. rewrite app_nil_r, <- Ec in Hld. rewrite Hld, bind_Ok. rewrite El in Hq1, Hq2.
  rewrite (proj2 (Z.eqb_neq ch SUFFIX_QUERY_REQ)), (proj2 (Z.eqb_neq ch SUFFIX_METADATA_REQ)) by congruence.
  destruct (topic_find_spec s c false Hw (inv_tree _ _ _ H)) as (r' & s1 & -> & _ & _ & _ & Es & Hr). rewrite bind_Ok. rewrite (Es eq_refl) in *.
  destruct r' as [t'|].
  2: { destruct Hr as [(nm & Hin & Hbad)|[_ Hno]]; [rewrite List.Forall_forall in Hlv; by destruct (Hbad (Hlv nm Hin)) | by destruct (Hno t)]. }
  destruct Hr as [_ Hr]. rewrite (at_path_node _ t' t _ (inv_tree _ _ _ H) Hr Hpath). rewrite (get_topic_ok _ _ _ Hx), bind_Ok, Hk.
  unfold query_value_copy, query_ptr, read_memory. rewrite (get_msg_ok _ _ _ Hj), bind_Ok, Hp, bind_Ok.
  assert (p ∈ dom (memory s)) as [q Hq]%elem_of_dom by (by rewrite (inv_dom _ _ _ H)). rewrite Hq, bind_Ok, (get_msg_ok _ _ _ Hmk), bind_Ok, Hptr, bind_Ok.
  rewrite (get_msg_ok _ j (set_msg_value mj (jsdrv_union_i32 0))) by apply lookup_insert_eq. rewrite bind_Ok. eexists. split; [done | apply lookup_insert_eq].
Qed.

(** The name of a topic that can retain a value: no command, no suffix, levels of at most seven
    characters, the last of which does not start with an exclamation mark. *)
Record value_topic (c : cstr) : Prop := {
  vt_name : c <> [];
  vt_plain : hd 0 c <> JSDRV_PUBSUB_COMMAND_PREFIX;
  vt_suffix : forall ch, last c = Some ch -> is_suffix_char ch = false;
  vt_levels : Forall level_ok (levels c);
  vt_event : hd 0 (List.last (levels c) []) <> 33 }.
Definition kept_number (v : jsdrv_union_s) : Prop :=
  jsdrv_union_is_type_ptr v = false /\ Z.land (flags v) JSDRV_UNION_FLAG_RETAIN <> 0.
Definition no_meta (ts : list topic_s) (c : cstr) : Prop :=
  forall t x, at_path ts t (levels c) -> ts !! t = Some x -> t_meta x = None.

Section Roundtrip.
Context (pow : f64 -> f64 -> f64) (addr : list Z -> Z).
Context (internal_fn : jsdrv_pubsub_subscriber_s -> jsdrvp_msg_s -> Z * list jsdrvp_msg_s).
Context (D : gset nat) (Hfn : forall sub m, Forall (msg_wf D) (snd (internal_fn sub m))).

(** The node of a topic that a lookup creates or finds has no metadata when none was set. *)
Lemma found_no_meta s c t s1 x : found s (levels c) true (Some t) s1 -> tree_ok (topics s) -> topics s1 !! t = Some x ->
  no_meta (topics s) c -> t_meta x = None.
Proof.
  intros (_ & Ht1 & He & _ & _ & Hp) Ht Hx Hno. pose proof He as (_ & Hs & Hnew). destruct (decide (t < length (topics s))%nat) as [Hlt|Hge].
  - destruct (lookup_lt_is_Some_2 _ _ Hlt) as [y Hy]. destruct (Hs t y Hy) as (x' & Hx' & (_ & _ & M & _)). rewrite Hx in Hx'. injection Hx' as <-.
    rewrite <- M. apply (Hno t y); [|done]. exact (extends_path_old _ _ t _ y Ht Ht1 He Hy Hp).
  - by destruct (Hnew t x ltac:(lia) Hx) as (_ & M & _).
Qed.

(** The name of a node is the last level of its path. *)
Lemma path_name ts t l x : at_path ts t l -> ts !! t = Some x -> l <> [] -> List.last l [] = name x.
Proof.
  intros Hp Hx Hl. destruct (at_path_inv _ _ _ Hp) as [[_ ->]|(p & l' & y & z & -> & _ & _ & _ & Hz)]; [done|]. rewrite List.last_last. congruence.
Qed.

Lemma process_msg_normal s i m c : msgs s !! i = Some m -> cstr_at (m_topic m) = Some c -> c <> [] -> hd 0 c <> JSDRV_PUBSUB_COMMAND_PREFIX ->
  (forall ch, last c = Some ch -> is_suffix_char ch = false) -> process_msg pow addr internal_fn s i = publish_normal pow addr internal_fn s i.
Proof.
  intros Hi Hc Hc0 Hcmd Hsuf. unfold process_msg. rewrite (get_msg_ok _ _ _ Hi), bind_Ok. unfold msg_text, text.
  rewrite Hc, bind_Ok, (proj2 (Z.eqb_neq _ _) Hcmd). destruct (cstr_snoc c Hc0) as (c' & ch & _ & El). rewrite El. specialize (Hsuf ch El).
  rewrite (proj2 (Z.eqb_neq ch SUFFIX_METADATA_RSP)), (proj2 (Z.eqb_neq ch SUFFIX_RETURN_CODE)); [done | |]; by intros ->.
Qed.

Lemma publish_query_reads s i j m mj c b p : inv D s [i; j] -> msgs s !! i = Some m -> msgs s !! j = Some mj -> msg_wf D m ->
  cstr_at (m_topic m) = Some c -> value_topic c -> kept_number (m_value m) -> no_meta (topics s) c ->
  payload mj = PQuery b p -> buf_ok b -> cstr_at b = Some c -> p ∈ D ->
  exists s1 s2 q, process_msg pow addr internal_fn s i = Ok s1 /\ query addr s1 j = Ok (0, s2) /\ memory s2 !! p = Some q
    /\ (q = m_value m \/ jsdrv_union_eq q (m_value m) = Ok true).
Proof.
  intros H Hi Hj Hm Hc [Hc0 Hcmd Hsuf Hlv Hbang] [Hptr Hret] Hno Hpj Hb Hcb HD.
  assert (forall ch, is_suffix_char ch = true -> last c <> Some ch) as Hsuf' by (intros ch E1 E2; specialize (Hsuf ch E2); congruence).
  destruct (wf_value _ _ Hm c Hc Hcmd (Hsuf' 36 eq_refl)) as (Hv & Hcs & Hn). destruct (cstr_at_split _ _ Hc) as (_ & _ & Hw).
  destruct (publish_normal_cases pow addr internal_fn D Hfn s [j] i m c H Hi Hc (wf_deliver _ _ Hm) Hv Hcs Hn) as (s1 & E1 & H1 & _ & Hcases).
  destruct (topic_find_spec s c true Hw (inv_tree _ _ _ H)) as (r & s0 & Ef & Hf). destruct r as [t|].
  2: { destruct Hf as (_ & _ & _ & _ & [(nm & Hin & Hbad)|[? _]]); [|done]. rewrite List.Forall_forall in Hlv. by destruct (Hbad (Hlv nm Hin)). }
  destruct (at_path_lookup (topics s0) t (levels c)) as [x Hx]; [apply Hf | apply Hf |].
  destruct (Hcases t s0 x Ef Hx (found_no_meta s c t s0 x Hf (inv_tree _ _ _ H) Hx Hno)) as (Hpath & [Hme Hap] & Hend). clear Hcases.
  assert (levels c <> []) as Hl0 by (destruct c as [|z c0]; [done|]; destruct (levels_step (z :: c0) Hc0) as (nm & -> & _); done).
  rewrite (path_name _ _ _ _ Hpath Hx Hl0) in Hbang.
  pose proof (own_nodup _ _ (inv_own _ _ _ H)) as Hnd. destruct (in_hand D s _ j H ltac:(set_solver)) as (_ & Hjf & _ & Hjr).
  assert (j <> i) as Hji by (intros ->; cbn in Hnd; apply NoDup_cons in Hnd as [Hnd _]; set_solver).
  assert (t_value x <> Some j) as Hjx.
  { intros E. apply Hjr. destruct Hf as (_ & _ & He & _). rewrite <- (retained_extends _ _ He). eapply held_retained; [done | by apply value_held]. }
  assert (msgs s1 !! j = Some mj) as Hj1 by (by rewrite Hap).
  exists s1. assert (exists s2 q, query addr s1 j = Ok (0, s2) /\ memory s2 !! p = Some q /\ (q = m_value m \/ jsdrv_union_eq q (m_value m) = Ok true)) as (s2 & q & Hq).
  2: { exists s2, q. split; [by rewrite (process_msg_normal s i m c) | done]. }
  destruct Hend as [(Ht1 & Hm1 & k & mk & Hk & Hki & Hmk & Heq)|[Ht1 Hm1]].
  - destruct (query_reads addr D s1 j [] mj b p c t x k mk) as (s2 & E2 & E3); try done; [by apply (Hsuf' 38) | by apply (Hsuf' 37) | by rewrite Ht1 | by rewrite Ht1 | | |].
    + rewrite Hm1; [done | by eapply (inv_fresh _ _ _ H) | done].
    + unfold jsdrv_union_is_type_ptr in *. by rewrite (union_eq_type _ _ Heq).
    + exists s2, (m_value mk). auto.
  - assert (negb (Z.land (flags (m_value m)) JSDRV_UNION_FLAG_RETAIN =? 0) && negb (hd 0 (name x) =? 33) = true) as Hkeep
      by (rewrite (proj2 (Z.eqb_neq _ _) Hret), (proj2 (Z.eqb_neq _ _) Hbang); done). rewrite Hkeep in *. pose proof (lookup_lt_Some _ _ _ Hx).
    destruct (query_reads addr D s1 j [] mj b p c t (set_value_of x (Some i)) i m) as (s2 & E2 & E3); try done; [by apply (Hsuf' 38) | by apply (Hsuf' 37) | | | by apply Hm1 |].
    + rewrite Ht1. eapply same_shape_path; [|exact Hpath]. by eapply (same_shape_insert _ _ x).
    + rewrite Ht1. by apply list_lookup_insert_eq.
    + exists s2, (m_value m). auto.
Qed.
End Roundtrip.

(** ** The promises *)




(** C14. A retained value is what a query of the topic returns: when a number with the retain flag is
    published to a topic without metadata, a query of the topic that follows returns 0 and leaves
    that number, or the equal one that was already retained, in the memory of its caller. *)
Theorem publish_query_roundtrip pow addr internal_fn D s i j m mj c b p :
  (forall sub m, Forall (msg_wf D) (snd (internal_fn sub m))) ->
  inv D s [i; j] -> msgs s !! i = Some m -> msgs s !! j = Some mj -> msg_wf D m ->
  cstr_at (m_topic m) = Some c -> value_topic c -> kept_number (m_value m) -> no_meta (topics s) c ->
  payload mj = PQuery b p -> buf_ok b -> cstr_at b = Some c -> p ∈ D ->
  exists s1 s2 q, process_msg pow addr internal_fn s i = Ok s1 /\ query addr s1 j = Ok (0, s2) /\ memory s2 !! p = Some q
    /\ (q = m_value m \/ jsdrv_union_eq q (m_value m) = Ok true).
Proof. intros. by eapply publish_query_reads. Qed.

(** A topic at or below a path. *)
Definition below (ts : list topic_s) (p : list cstr) (n : tid) : Prop := exists k, at_path ts n (p ++ k).


(** ** Where the promises end *)

(** The message is an API call that waits for its return code. *)
Definition from_api (m : jsdrvp_msg_s) : Prop := source m <> 0.

(** A message with an empty topic that came from outside ([source] not 0) makes
    [publish_return_code] read in front of its topic: [jsdrv_publish] with an empty name and a timeout. *)
Lemma empty_topic_out_of_bounds pow addr internal_fn s i m :
  msgs s !! i = Some m -> cstr_at (m_topic m) = Some [] -> from_api m -> process_msg pow addr internal_fn s i = Fault OutOfBounds.
Proof.
  intros Hm Hc Hs. unfold process_msg. rewrite (get_msg_ok _ _ _ Hm), bind_Ok. unfold msg_text, text. rewrite Hc, bind_Ok. cbn [hd last].
  change (0 =? JSDRV_PUBSUB_COMMAND_PREFIX) with false. rewrite (proj2 (Z.eqb_neq _ _) Hs). cbn [negb]. unfold publish_return_code_i32.
  destruct (alloc_value_i32 s [] EC_NOT_SUPPORTED ltac:(constructor)) as (b & -> & _ & Hb). rewrite bind_Ok. cbn [msg_new].
  unfold publish_return_code. unfold get_msg at 1. cbn [msgs]. rewrite lookup_insert_eq, bind_Ok. cbn [m_topic]. unfold obj_strlen. rewrite Hb. done.
Qed.

(** A command whose name fills the topic (63 characters, no suffix) and that came from outside
    makes [publish_return_code] write its terminator behind the topic. *)
Lemma long_command_out_of_bounds pow addr internal_fn s e i m c :
  (exists D, inv D s (i :: e)) -> msgs s !! i = Some m -> cstr_at (m_topic m) = Some c -> length c = 63%nat -> hd 0 c = JSDRV_PUBSUB_COMMAND_PREFIX ->
  (forall ch, last c = Some ch -> is_suffix_char ch = false) -> Forall level_ok (levels c) -> from_api m ->
  process_msg pow addr internal_fn s i = Fault OutOfBounds.
Proof.
  intros [D H] Hm Hc Hl Hhd Hsuf Hlv Hs. unfold process_msg. rewrite (get_msg_ok _ _ _ Hm), bind_Ok. unfold msg_text, text. rewrite Hc, bind_Ok, Hhd, Z.eqb_refl.
  unfold process_command. repeat (rewrite bool_decide_false; [|intros ->; done]). rewrite bind_Ok, (proj2 (Z.eqb_neq _ _) Hs). cbn [negb]. unfold publish_return_code_i32.
  destruct (cstr_at_split _ _ Hc) as (_ & _ & Hw). assert (c <> []) as Hc0 by (intros ->; done).
  destruct (alloc_value_i32 s c EC_NOT_SUPPORTED Hw) as (b & -> & Hb & Hcb). rewrite take_ge in Hcb by lia. rewrite bind_Ok. cbn [msg_new].
  set (m2 := mk_msg _ b _ _ _ _). pose proof (inv_new D s (i :: e) m2 H (i32_releasable m2 EC_NOT_SUPPORTED eq_refl)) as H1. cbn [msg_new snd] in H1. set (s1 := mk_ps _ _ _ _ _ _ _) in *.
  unfold publish_return_code. rewrite (get_msg_ok s1 (fresh_msg s) m2), bind_Ok by apply lookup_insert_eq. change (m_topic m2) with b. unfold obj_strlen. rewrite Hcb, bind_Ok.
  destruct (buf_split b c Hb Hcb) as (r & -> & _ & Hr). destruct r as [|z r]; [|cbn in Hr; lia]. destruct (cstr_snoc c Hc0) as (c' & ch & Ec & El).
  assert (ld (c ++ [0]) (len c - 1) = Ok ch) as -> by (rewrite Ec; apply ld_last_char). rewrite bind_Ok, (Hsuf ch El), bind_Ok. unfold text. rewrite Hcb, bind_Ok.
  destruct (topic_find_spec (set_msg s1 (fresh_msg s) (set_msg_topic m2 (c ++ [0]))) c true Hw (inv_tree _ _ _ H1)) as (t & s2 & -> & Hf). rewrite bind_Ok.
  destruct t as [t|].
  - rewrite st_middle, bind_Ok by done. rewrite st_oob; [done|]. rewrite len_app, len_cons, len_nil. lia.
  - destruct Hf as (_ & _ & _ & _ & [(nm & Hin & Hbad)|[? _]]); [|done]. rewrite List.Forall_forall in Hlv. by destruct (Hbad (Hlv nm Hin)).
Qed.

(** A string value without a size. *)
Definition unsized_text (v : jsdrv_union_s) (c : cstr) : Prop :=
  type v = JSDRV_UNION_STR /\ size v = 0 /\ exists o, value v = Mem (Some o) /\ cstr_at o = Some c.

(** A string value without a size whose text does not fit in the payload is copied over its end:
    the size that is compared with the payload is the caller's 0, not the length that is copied. *)
Lemma alloc_value_overflow s topic v c : wf_cstr topic -> unsized_text v c -> JSDRV_PAYLOAD_LENGTH_MAX <= len c < 2 ^ 32 - 1 ->
  jsdrvp_msg_alloc_value s topic v = Fault OutOfBounds.
Proof.
  intros Hw (Ht & Hs & o & Hv & Hc) Hl. unfold jsdrvp_msg_alloc_value. destruct (copy_64 topic Hw) as (b & rc & -> & _). rewrite bind_Ok. unfold msg_value_copy. rewrite Ht, Hs.
  change (JSDRV_UNION_STR =? JSDRV_UNION_STR) with true. cbn [orb andb size]. rewrite orb_true_r. cbn [orb]. unfold object. rewrite Hv, bind_Ok.
  pose proof (len_nonneg c). rewrite !Z.eqb_refl. cbn [orb andb]. unfold obj_strlen. rewrite Hc, !bind_Ok, uwrap_small by width_lia. change (JSDRV_PAYLOAD_LENGTH_MAX <? 0) with false. cbv iota.
  unfold mem_copy. rewrite (proj2 (Z.leb_gt (0 + (len c + 1)) (len (replicate (Z.to_nat JSDRV_PAYLOAD_LENGTH_MAX) 0)))), andb_false_r; [done|].
  unfold len at 1. rewrite length_replicate. change (Z.of_nat (Z.to_nat JSDRV_PAYLOAD_LENGTH_MAX)) with JSDRV_PAYLOAD_LENGTH_MAX. lia.
Qed.

(** ** Examples *)

Definition quiet_fn (sub : jsdrv_pubsub_subscriber_s) (m : jsdrvp_msg_s) : Z * list jsdrvp_msg_s := (0, []).
Definition pow_fst (x y : f64) : f64 := x.
Definition addr_zero (m : list Z) : Z := 0.
Definition buf64 (c : cstr) : list Z := c ++ replicate (64 - length c) 0.
Definition ex_value : jsdrv_union_s := mk_union JSDRV_UNION_U32 JSDRV_UNION_FLAG_RETAIN 0 0 0 (Word 5).
Definition ex_msg : jsdrvp_msg_s := mk_msg 0 (buf64 (str "u/a")) ex_value sub_zero PNone false.
Definition ex_memory : gmap nat jsdrv_union_s := {[0%nat := jsdrv_union_null]}.
Definition ex_query : jsdrvp_msg_s := mk_msg 0 (buf64 JSDRV_PUBSUB_QUERY) jsdrv_union_null sub_zero (PQuery (buf64 (str "u/a")) 0) false.
Definition ex_init : jsdrv_pubsub_s := mk_ps [mk_node [] None None None [] []] [] [] ∅ 0 [] ex_memory.
Definition ex_sub : jsdrv_pubsub_subscriber_s := mk_sub (Some 7%nat) 0 0 3.

Lemma ex_memory_ok p q : ex_memory !! p = Some q -> memory_ok q.
Proof. unfold ex_memory. intros H. apply lookup_singleton_Some in H as [_ <-]. by apply memory_num_ok. Qed.

Lemma quiet_wf D sub m : Forall (msg_wf D) (snd (quiet_fn sub m)).
Proof. constructor. Qed.

Lemma ex_msg_wf D : msg_wf D ex_msg.
Proof.
  split.
  - split; [done | by eexists].
  - split; [by eexists | done].
  - by intros [[=]|[=]].
  - done.
  - by intros c [= <-].
  - by intros c [= <-].
  - intros c [= <-] _ _. split; [right; left; split; [by types | by eexists]|]. by split; [apply conv_safe_number|].
Qed.

Lemma ex_reachable : reachable pow_fst addr_zero quiet_fn ex_memory (post ex_init ex_msg).
Proof. apply reach_post; [exact (reach_init _ _ _ ex_memory _ eq_refl) | apply ex_msg_wf]. Qed.




(** The two messages in hand. *)
Definition ex_two : jsdrv_pubsub_s := snd (msg_new (snd (msg_new ex_init ex_msg)) ex_query).

Lemma ex_two_inv : inv (dom ex_memory) ex_two [0%nat; 1%nat].
Proof.
  eapply inv_perm; [apply inv_new; [apply inv_new; [apply init_inv, ex_memory_ok|] |]; by intros [[=]|[=]]|]. apply perm_swap.
Qed.

Lemma publish_query_roundtrip_witness : exists s1 s2, process_msg pow_fst addr_zero quiet_fn ex_two 0 = Ok s1
  /\ query addr_zero s1 1 = Ok (0, s2) /\ memory s2 !! 0%nat = Some ex_value.
Proof.
  destruct (publish_query_roundtrip pow_fst addr_zero quiet_fn (dom ex_memory) ex_two 0 1 ex_msg ex_query (str "u/a") (buf64 (str "u/a")) 0)
    as (s1 & s2 & q & E1 & E2 & E3 & _); try done.
  - apply ex_two_inv.
  - apply ex_msg_wf.
  - split; [done | done | by intros ch [= <-] | repeat constructor; vm_compute; lia | done].
  - intros [|[|t]] x _; cbn; by intros [= <-].
  - exists s1, s2. split; [done|]. split; [done|]. vm_compute in E1. injection E1 as <-. vm_compute in E2. injection E2 as <-. reflexivity.
Defined.


Lemma empty_topic_out_of_bounds_witness : process_msg pow_fst addr_zero quiet_fn
    (snd (msg_new ex_init (mk_msg 1 (buf64 []) jsdrv_union_null sub_zero PNone false))) 0 = Fault OutOfBounds.
Proof. eapply empty_topic_out_of_bounds; [reflexivity | reflexivity | done]. Defined.

Definition ex_long : cstr := Eval vm_compute in str "_/aaaaaaa/aaaaaaa/aaaaaaa/aaaaaaa/aaaaaaa/aaaaaaa/aaaaaaa/aaaaa".

Lemma long_command_out_of_bounds_witness : process_msg pow_fst addr_zero quiet_fn
    (snd (msg_new ex_init (mk_msg 1 (buf64 ex_long) jsdrv_union_null sub_zero PNone false))) 0 = Fault OutOfBounds.
Proof.
  apply (long_command_out_of_bounds pow_fst addr_zero quiet_fn _ [] 0 (mk_msg 1 (buf64 ex_long) jsdrv_union_null sub_zero PNone false) ex_long); try reflexivity.
  - exists (dom ex_memory). apply inv_new; [apply init_inv, ex_memory_ok | by intros [[=]|[=]]].
  - by intros ch [= <-].
  - vm_compute; repeat constructor.
  - done.
Defined.

Lemma alloc_value_overflow_witness :
  jsdrvp_msg_alloc_value ex_init (str "u/a") (jsdrv_union_str (replicate 1024 97 ++ [0])) = Fault OutOfBounds.
Proof.
  apply (alloc_value_overflow ex_init (str "u/a") _ (replicate 1024 97)); [by repeat constructor | | by vm_compute].
  split; [done|]. split; [done|]. by exists (replicate 1024 97 ++ [0]).
Defined.
